(* ===== verification/_CoqProject ===== *)
-Q . S2P
Prelude.v
GoFloat.v
GoStrings.v
GoStrconv.v
GoTime.v
GoNet.v
GoBase64.v
Regexp.v
PolicyTypes.v
Validators.v
Capability.v
Evaluator.v
PolicyCache.v
Loader.v
GoJSON.v
GoFmt.v
GoHttp.v
RegionalPii.v
GoSha256.v
ServiceAuth.v
Redactor.v
RedactorFacts.v
Metrics.v
Engine.v
EngineFacts.v
Exfiltration.v
TenantScope.v
WcpTypes.v
WcpRepository.v
WcpService.v
WcpSpec.v
WcpFacts.v
WcpTheorems.v
WcpRace.v
Idempotency.v
EventHub.v
ExecutionTypes.v
ExecutionStore.v
ExecutionTracker.v
ExecutionFacts.v
CostPricing.v
CostRepository.v
CostService.v
CostFacts.v
Egress.v
DecisionChain.v
DecisionChainFacts.v
ConnectorSdk.v
LlmTypes.v
LlmRegistry.v
LlmRegistryFacts.v
LlmRouter.v
Connectors.v
LogSanitize.v
LlmApi.v
Sqli.v
Identity.v
RateLimit.v
License.v
AgentAuth.v
AgentProxy.v
AgentProxyFacts.v
DynTypes.v
DynPolicy.v
DynDb.v
DynGate.v
OverrideApi.v
PolicyClients.v
HttpSurface.v
Detection.v
ReadOnly.v
Decide.v
DecideFacts.v
McpCheck.v
McpCheckFacts.v
McpOutput.v
McpOutputFacts.v
McpGateway.v
Planning.v
PlanningFacts.v
