(* ===== verification/Prelude.v ===== *)
(** * AxonFlow: policy enforcement, workflow control and the gateway

    AxonFlow sits between applications and the models, tools and databases they
    call. An agent (src/platform/agent) is the single entry point: it
    authenticates a request, scrubs the headers a client may not assert, enforces
    the static policies and forwards the rest to an orchestrator
    (src/platform/orchestrator), which evaluates dynamic policies, controls
    workflows, routes to model providers and meters cost. Packages both use are
    under src/platform/shared. This library models the parts that decide.

    ** The unified policy engine (src/platform/shared/policy)

    [EvaluateRequest] gates the text and the parameters of a request and
    [EvaluateResponse] scans and redacts what comes back. The engine asks the
    loader for the tenant's policies; the loader answers from a cache with a
    time to live or reads the database in two row-level-security scopes (the
    caller's organization, the global tenant). Policies are filtered by category
    and by the capability of the tool, matched by the evaluator (regular
    expressions with a compiled-pattern cache, then a validator such as Luhn or
    MOD 97), and matches of the response are masked or removed by the redactor.

    - [PolicyTypes]: types.go. Compiled policies, actions, results.
    - [Validators]: validators.go. The check-digit and context
      validators with their float64 confidences.
    - [Capability]: capability.go and the filters of engine.go.
    - [Evaluator]: evaluator.go, sequential and with the
      critical sections of the pattern cache interleaved.
    - [PolicyCache]: cache.go. [Loader]: loader.go over a table
      with scopes and outages (agent/rls/scope.go).
    - [Redactor], [RedactorFacts]: redactor.go. Span masking, statement removal,
      JSON-aware masking and its repair.
    - [Metrics]: metrics.go. [Engine], [EngineFacts]: engine.go.
    - [Exfiltration]: exfiltration.go. Row and size limits of a response.
    - [Sqli]: src/platform/agent/sqli. The patterns, the scanner and
      its middleware.

    ** The gateway

    A request meets the authenticator (deployment mode, internal service token,
    Basic credentials), the identity gate, the header scrub and the signing
    director of the reverse proxy; at the orchestrator the proxy token is checked
    and the read scope of the caller derived from the headers. The theorems of
    [AgentProxyFacts] are about the two ends together.

    - [ServiceAuth]: shared/serviceauth. HMAC tokens between the two services.
    - [Identity]: shared/identity. Roles, addresses, header trust, the registry of
      token validators and its resolution, the refusal messages.
    - [RateLimit]: agent/auth.go, redis_rate_limit.go, community_saas_ratelimit.go.
    - [License]: agent/license and agent/auth_daily_limit.go. Tiers, limits, the
      signed license keys.
    - [AgentAuth]: agent/authenticator.go, identity_trust.go, parts of auth.go.
    - [AgentProxy]: agent/proxy.go, mcp_identity.go and the sessions of
      mcp_server_handler.go; orchestrator/read_scope.go, read_scope_domains.go,
      authn_middleware.go, agent_proxy_guard.go. [AgentProxyFacts]: the gateway and
      the orchestrator composed.
    - [Detection]: agent/detection_config.go, profile.go, enforce.go,
      detection_override.go, shared/envcompat. Postures of the deployment and of an
      organization.
    - [Decide], [DecideFacts]: agent/decision_handler.go, policy_result_convert.go
      and what they call of mcp_handler.go and decision_chain_wiring.go: the
      decision point, over the engine and the postures.
    - [ReadOnly]: agent/mcp_readonly_posture.go. The SQL scanner and the
      classification of calls and statements.
    - [McpCheck], [McpCheckFacts]: agent/mcp_handler.go (check-input),
      mcp_richer_context.go, governance_metadata.go. The endpoint that fulfils the
      duties of the decision point, over the engine and the override tables, under
      the wrapper of [Idempotency].
    - [RegionalPii]: agent/indonesia, agent/rbi (community build),
      indonesia_pii_events.go and the masking of gateway_handlers.go. Detection and
      masking of Indonesian and Indian identifiers.
    - [McpOutput], [McpOutputFacts]: agent/mcp_handler.go (check-output). The scan, the
      identifiers, the engine and the limits on output already produced.
    - [Connectors]: connectors/registry, the cache, sources and file loader of
      connectors/config, agent/tenant_connector_registry.go, connector_refresh_api.go.
      The two registries of connectors, their storage and the resolution of a
      connector for a tenant.
    - [McpGateway]: agent/mcp_handler.go (resources/query, tools/execute),
      agent/policy/permissions.go. The planes that call connectors, over the two gates
      and the registries.
    - [Egress]: shared/egress. Classification of addresses and the guarded dialer.
    - [DecisionChain], [DecisionChainFacts]: agent/decision_chain*.go. The
      hash-chained, signed record of decisions and its queue.
    - [LogSanitize]: shared/logger/sanitize.go.
    - [PolicyClients]: shared/pep and shared/policy/dynamic_evaluator.go. The clients
      of the two decision services, which fail closed.
    - [HttpSurface]: shared/corspolicy, agent/cors.go and path_template.

    ** The workflow control plane (src/platform/orchestrator/workflow_control)

    An external orchestrator registers a workflow and asks [StepGate] before each
    step; the answer is allow, block or require_approval, recorded so that a
    retry gets the same answer. Reviewers approve or reject pending steps,
    workflows are completed, aborted or failed, and resumed from checkpoints.
    Ownership is checked by the tenant scope (src/platform/shared/tenantscope).

    - [TenantScope]: tenantscope.go.
    - [WcpTypes]: types.go, errors.go and the rows of checkpoint.go.
    - [WcpRepository]: repository.go and checkpoint.go, one function per SQL
      statement over three tables.
    - [WcpService]: service.go, one computation per method of Service in a
      monad of table state, events and errors; an error keeps the writes made
      before it. The policy evaluator is a class, as it is an interface in the
      source.
    - [WcpSpec]: the abstract transition system, its invariant, what every
      transition preserves. [WcpFacts]: each operation is a sequence of
      transitions. [WcpTheorems]: what follows for every sequence of operations.
      [WcpRace]: the statements of concurrent gate calls interleaved.

    ** Dynamic policies and overrides (src/platform/orchestrator)

    - [DynTypes]: the types of requests, policies and verdicts.
    - [DynPolicy]: dynamic_policy_engine.go, the in-memory engine
      with its verdict cache and the default policies.
    - [DynDb]: db_dynamic_policies.go, the database engine.
    - [DynGate]: override_enforcement.go and wcp_policy_adapter.go: overrides, and
      the evaluator that the step gate of the control plane calls.
    - [OverrideApi]: overrides_handler.go, the handlers that
      create, revoke, read and list overrides, proved against [DynGate].

    ** Stored plans (src/platform/orchestrator/planning)

    - [Planning]: types.go, repository.go, service.go and the plan routes of run.go,
      each operation a program of atomic statements that may fail.
    - [PlanningFacts]: the programs alone and interleaved.

    ** Model providers (src/platform/orchestrator/llm)

    - [LlmTypes], [LlmRegistry], [LlmRegistryFacts]: the registry of providers,
      keyed by tenant, with lazy instantiation and its races.
    - [LlmRouter]: selection strategies, fallback.
    - [LlmApi]: llm_provider_api_handlers.go, tenant isolation.

    ** Shared services

    - [Idempotency]: shared/idempotency. The table of responses by key, tenant and
      endpoint and the wrapper that replays them to a retry.
    - [EventHub]: shared/execution/event_hub.go. Subscriptions over a heap of
      channels whose panics are explicit, and the per-tenant connection limit.
    - [ExecutionTypes], [ExecutionStore], [ExecutionTracker], [ExecutionFacts]:
      shared/execution. The table of executions and the tracker.
    - [CostPricing], [CostRepository], [CostService], [CostFacts]:
      orchestrator/cost. Prices, budgets, usage, alerts.
    - [ConnectorSdk]: connectors/sdk. Rate limiters, retry, circuit breaker.

    ** The language

    [GoStrings] (byte strings, UTF-8 decoding, the strings functions used),
    [GoStrconv] (numbers, quoting, 64-bit wrap-around), [GoFloat] (float64 as IEEE
    binary64), [GoFmt] (formatting of values), [GoTime] (instants, durations,
    calendar), [GoNet] (addresses), [GoBase64], [GoHttp] (headers and requests),
    [Regexp] (the fragment of Go's regexp the program uses: parser, leftmost-first
    matcher proved against a relational semantics), [GoJSON] (decoding and
    encoding), [GoSha256] (with HMAC). Unicode tables (letter, digit, space, case,
    printable) are classes with an ASCII instance for the examples; number
    formatting in JSON is a class too. [Prelude] holds the tactics, the hint
    databases and the list lemmas, among them a stable sort.

    ** What the theorems show

    - The engine: fails closed (C3), blocks a request exactly on a matching
      blocking policy (C4), tenants are isolated through cache and database
      (C8), loads are exact (C9), statement removal is complete and local (C10).
    - The gateway: no client header raises authority (C11), which service tokens
      are accepted (C13), licenses are authentic (C17), the dialer resists
      rebinding (C27), dynamic policies are not skipped in silence (C35).
    - The decision point: verdicts and duties are exact (C26), an allow is an
      evaluated allow (C25), the stored context is bounded (C38).
    - The MCP gate: the query plane is confined to the tenant, its policies and
      the cleared rows (C30), a tenant reaches no connector of another (C12),
      every check is on record once (C33), when an override lifts a block (C28),
      the SQL scanner is exact (C32), the read-only posture blocks what writes
      (C36), masking of identifiers is complete and hides only (C16),
      identifiers in a response are dealt with as the posture says (C40), an
      allowed response has passed every check (C34).
    - Workflow control: refinement of the specification (C1), tenant isolation
      (C2), idempotent gates (C5), exact counting under concurrency (C6),
      completion is final (C7).
    - Dynamic policies: the step gate enforces them end to end (C24), a created
      override is honoured until it expires (C14), a revoked one never applies
      (C15).
    - Stored plans: a plan is executed at most once (C31).
    - Records: the decision chain is tamper-evident (C19), what is recorded
      verifies (C20), and nothing is lost in the queue (C29).
    - Cost and execution: budget checks are exact (C18), complete pagination
      (C39).
    - Providers: the provider API isolates tenants (C21), the registry stays
      well keyed (C23), failover answers (C22).
    - Shared services: replay of responses (C37).
    Lemmas beside them, named in the files' own comments, cover the remaining
    branches, among them departures of the code from its documentation, each a
    concrete run or a general statement.

    ** Bounds and fuel

    Recursion that is not structural carries fuel computed from the input: the
    length of the byte list in UTF-8 decoding, of the pattern in the regexp
    parser and of the text in the matcher's star (each iteration consumes a
    byte), of the document in the JSON parser, the number of sessions in their
    eviction. [Regexp] proves its matcher complete for the fuel it gives itself;
    [WcpRace] proves that seven statements finish a gate call. Integers are
    unbounded where the source uses int for counters far below its range; Atoi,
    durations and timestamps keep the 64-bit range where the code multiplies or
    subtracts them, and float64 its rounding.

    ** Not modelled

    Request decoding, start-up, migrations, connector drivers and LLM clients; database
    errors other than a failing statement, a missing or a duplicate row;
    wall-clock time, which is an argument of every operation; the free-form
    metadata of audit and webhook events; execution-tracker notifications of the
    control plane, except the concurrency limit that makes CreateWorkflow roll
    back. Ed25519 and bcrypt are parameters.
    Next in order: the policy repositories, the workflow and planning engines
    and the HTTP handlers of the control plane. *)

From Stdlib Require Export ZArith Lia Ascii.
From stdpp Require Export base decidable list gmap strings numbers sorting.

#[export] Set Warnings "-clear-no-such-hyp".

(** * Tactics *)

(** [break]: case split on the innermost scrutinee of a [match] or [if] of the
    goal or of a hypothesis, remembering the equation. *)
Ltac break_goal :=
  match goal with
  | |- context [match ?x with _ => _ end] =>
      lazymatch x with
      | context [match _ with _ => _ end] => fail
      | _ => destruct x eqn:?
      end
  end.

Ltac break_hyp :=
  match goal with
  | H : context [match ?x with _ => _ end] |- _ =>
      lazymatch x with
      | context [match _ with _ => _ end] => fail
      | _ => destruct x eqn:?
      end
  end.

Ltac break := first [break_goal | break_hyp].

(** [bool_solve]: reflect boolean connectives and close arithmetic side goals. *)
Ltac bool_simpl :=
  repeat match goal with
  | H : _ && _ = true |- _ => apply andb_true_iff in H as [? ?]
  | H : _ || _ = false |- _ => apply orb_false_iff in H as [? ?]
  | H : negb _ = true |- _ => apply negb_true_iff in H
  | H : negb _ = false |- _ => apply negb_false_iff in H
  | H : bool_decide _ = true |- _ => apply bool_decide_eq_true in H
  | H : bool_decide _ = false |- _ => apply bool_decide_eq_false in H
  end.

(** [lia_mod]: [lia] with the Euclidean equations of the [/] and [mod] terms. *)
Ltac lia_mod := Z.to_euclidean_division_equations; lia.

(** * The hint databases of the development *)

Create HintDb axon discriminated.
Create HintDb axon_lists discriminated.
Create Rewrite HintDb axon_rw.

(** * Fallible computations

    A Go function that returns [(T, error)] is modelled as a [result]. *)

Inductive result (E A : Type) : Type :=
| Ok (a : A)
| Err (e : E).
Arguments Ok {E A} a.
Arguments Err {E A} e.

Definition is_ok {E A} (r : result E A) : bool :=
  match r with Ok _ => true | Err _ => false end.

Definition result_bind {E A B} (r : result E A) (f : A -> result E B) : result E B :=
  match r with Ok a => f a | Err e => Err e end.

Declare Scope go_scope.
Delimit Scope go_scope with go.
Notation "x <-! r ; k" := (result_bind r (fun x => k))
  (at level 100, r at next level, right associativity) : go_scope.

Lemma result_bind_ok {E A B} (r : result E A) (f : A -> result E B) b :
  result_bind r f = Ok b -> exists a, r = Ok a /\ f a = Ok b.
Proof. destruct r; simpl; intros; [eauto | discriminate]. Qed.

(** * Strings as byte sequences *)

(** Boolean string equality, the model of Go's [==] on strings. *)
Definition str_eqb (a b : string) : bool := bool_decide (a = b).

Lemma str_eqb_true a b : str_eqb a b = true <-> a = b.
Proof. unfold str_eqb. apply bool_decide_eq_true. Qed.

Lemma str_eqb_false a b : str_eqb a b = false <-> a <> b.
Proof. unfold str_eqb. apply bool_decide_eq_false. Qed.

Lemma str_eqb_refl a : str_eqb a a = true.
Proof. by apply str_eqb_true. Qed.
#[export] Hint Resolve str_eqb_refl : axon.

(** Membership of a string in a list literal: the model of a lookup in a Go
    [map[string]bool] that is never written after its initialisation. *)
Definition str_in (a : string) (l : list string) : bool := existsb (str_eqb a) l.

Lemma str_in_true a l : str_in a l = true <-> a ∈ l.
Proof.
  unfold str_in. rewrite existsb_exists. setoid_rewrite list_elem_of_In.
  split.
  - intros (x & Hx & ->%str_eqb_true). done.
  - intros H. exists a. eauto with axon.
Qed.

(** * Generic list lemmas *)

Section Lists.
Context {A B : Type}.

(** The loop shape [for _, x := range l { if p(x) { return x } }]. *)
Fixpoint find_first (p : A -> bool) (l : list A) : option A :=
  match l with
  | [] => None
  | x :: l' => if p x then Some x else find_first p l'
  end.

Lemma find_first_Some p l x :
  find_first p l = Some x -> x ∈ l /\ p x = true.
Proof.
  induction l as [|y l IH]; simpl; [done|].
  destruct (p y) eqn:E; intros H; [inv H; split; [left|done]|].
  destruct (IH H); split; [by right|done].
Qed.

Lemma find_first_split p l x :
  find_first p l = Some x ->
  exists l1 l2, l = l1 ++ x :: l2 /\ p x = true /\ Forall (fun y => p y = false) l1.
Proof.
  induction l as [|y l IH]; simpl; [done|].
  destruct (p y) eqn:E; intros H.
  - inv H. exists [], l. repeat split; auto.
  - destruct (IH H) as (l1 & l2 & -> & Hx & Hl1).
    exists (y :: l1), l2. repeat split; auto.
Qed.

Lemma find_first_None p l :
  find_first p l = None <-> Forall (fun y => p y = false) l.
Proof.
  induction l as [|y l IH]; simpl; [split; constructor|].
  destruct (p y) eqn:E; split; intros H.
  - discriminate.
  - inv H. congruence.
  - constructor; [done|]. by apply IH.
  - inv H. by apply IH.
Qed.

Lemma find_first_snoc p l x : find_first p l = None -> p x = true -> find_first p (l ++ [x]) = Some x.
Proof.
  intros Hn Hx. induction l as [|y l IH]; simpl in *; [by rewrite Hx|].
  destruct (p y); [done|auto].
Qed.

Lemma existsb_In (p : A -> bool) l :
  existsb p l = true <-> exists x, x ∈ l /\ p x = true.
Proof. rewrite existsb_exists. by setoid_rewrite list_elem_of_In. Qed.

Lemma existsb_perm (p : A -> bool) l l' :
  l ≡ₚ l' -> existsb p l = existsb p l'.
Proof.
  intros HP. apply eq_true_iff_eq. rewrite !existsb_In. by setoid_rewrite HP.
Qed.

Lemma filter_negb_nil (p : A -> bool) l :
  List.filter p l = [] <-> Forall (fun y => p y = false) l.
Proof.
  induction l as [|y l IH]; simpl; [split; constructor|].
  destruct (p y) eqn:E; split; intros H.
  - discriminate.
  - inv H. congruence.
  - constructor; [done|]. by apply IH.
  - inv H. by apply IH.
Qed.

Lemma elem_of_filter_bool (p : A -> bool) l x :
  x ∈ List.filter p l <-> x ∈ l /\ p x = true.
Proof. rewrite !list_elem_of_In. apply filter_In. Qed.

Lemma filter_length_split (p : A -> bool) l :
  length (List.filter p l) + length (List.filter (fun x => negb (p x)) l) = length l.
Proof. induction l as [|x l IH]; simpl; [done|]. destruct (p x); simpl; lia. Qed.
End Lists.

#[export] Hint Resolve find_first_Some : axon_lists.

(** * String-keyed maps as the list of their entries in [range] order *)

Section Assoc.
Context {A : Type}.

(** [m[k]] *)
Fixpoint assoc_get (k : string) (m : list (string * A)) : option A :=
  match m with
  | [] => None
  | (k', v) :: m' => if str_eqb k k' then Some v else assoc_get k m'
  end.

(** [m[k] = v] *)
Fixpoint assoc_put (k : string) (v : A) (m : list (string * A)) : list (string * A) :=
  match m with
  | [] => [(k, v)]
  | (k', v') :: m' => if str_eqb k k' then (k, v) :: m' else (k', v') :: assoc_put k v m'
  end.

Lemma assoc_get_put k k' v m :
  assoc_get k (assoc_put k' v m) = if str_eqb k k' then Some v else assoc_get k m.
Proof.
  induction m as [|[j w] m IH]; cbn [assoc_put assoc_get].
  - by destruct (str_eqb k k').
  - destruct (str_eqb k' j) eqn:E; cbn [assoc_get].
    + apply str_eqb_true in E as <-. by destruct (str_eqb k k').
    + destruct (str_eqb k j) eqn:E2; [|exact IH].
      apply str_eqb_true in E2 as ->. destruct (str_eqb j k') eqn:E3; [|done].
      apply str_eqb_true in E3 as ->. by rewrite str_eqb_refl in E.
Qed.

Lemma assoc_get_elem k v m : assoc_get k m = Some v -> (k, v) ∈ m.
Proof.
  induction m as [|[j w] m IH]; cbn [assoc_get]; [done|].
  destruct (str_eqb k j) eqn:E; intros H.
  - apply str_eqb_true in E as ->. inv H. by left.
  - right. auto.
Qed.

Lemma assoc_get_None k m : assoc_get k m = None <-> k ∉ m.*1.
Proof.
  induction m as [|[j w] m IH]; cbn [assoc_get fmap list_fmap fst].
  - split; [intros _ ?%elem_of_nil|]; done.
  - rewrite not_elem_of_cons. destruct (str_eqb k j) eqn:E.
    + apply str_eqb_true in E as ->. split; [done|]. by intros [? _].
    + apply str_eqb_false in E. rewrite IH. tauto.
Qed.

Lemma assoc_get_NoDup k v m : NoDup m.*1 -> (k, v) ∈ m -> assoc_get k m = Some v.
Proof.
  induction m as [|[j w] m IH]; cbn [assoc_get fmap list_fmap fst]; [by intros _ ?%elem_of_nil|].
  intros [Hj Hm]%NoDup_cons [H|H]%elem_of_cons; simplify_eq; [by rewrite str_eqb_refl|].
  destruct (str_eqb k j) eqn:E; [|auto]. apply str_eqb_true in E as ->.
  destruct Hj. apply list_elem_of_fmap. by exists (j, v).
Qed.

(** Lookup does not depend on the order of the entries. *)
Lemma assoc_get_perm k m m' : NoDup m.*1 -> m ≡ₚ m' -> assoc_get k m = assoc_get k m'.
Proof.
  intros Hn HP. destruct (assoc_get k m) as [v|] eqn:E.
  - symmetry. apply assoc_get_NoDup; [by rewrite <- HP|]. rewrite <- HP. by apply assoc_get_elem.
  - symmetry. apply assoc_get_None. rewrite <- HP. by apply assoc_get_None.
Qed.
End Assoc.

(** * Stable sorting

    [sort.SliceStable] with a strict weak order: insertion from the right, each
    element placed before the first one that is not smaller. *)
Section StableSort.
Context {A : Type} (lt : A -> A -> bool).

Fixpoint sorted_insert (x : A) (l : list A) : list A :=
  match l with
  | [] => [x]
  | y :: l' => if lt y x then y :: sorted_insert x l' else x :: l
  end.

Definition SliceStable (l : list A) : list A := foldr sorted_insert [] l.

Definition not_after (a b : A) : Prop := lt b a = false.

Lemma sorted_insert_perm x l : sorted_insert x l ≡ₚ x :: l.
Proof.
  induction l as [|y l IH]; simpl; [done|]. destruct (lt y x); [|done].
  rewrite IH. apply Permutation_swap.
Qed.

Lemma SliceStable_perm l : SliceStable l ≡ₚ l.
Proof. induction l as [|x l IH]; simpl; [done|]. by rewrite sorted_insert_perm, IH. Qed.

Lemma sorted_insert_filter (P : A -> bool) x l :
  (forall a b, P a = true -> P b = true -> lt a b = false) ->
  List.filter P (sorted_insert x l) = List.filter P (x :: l).
Proof.
  intros HP. induction l as [|y l IH]; simpl; [done|].
  destruct (lt y x) eqn:E; simpl; [|done].
  rewrite IH. simpl. destruct (P x) eqn:Px, (P y) eqn:Py; try done.
  by rewrite HP in E.
Qed.

(** Elements that are pairwise incomparable keep their order. *)
Lemma SliceStable_stable (P : A -> bool) l :
  (forall a b, P a = true -> P b = true -> lt a b = false) ->
  List.filter P (SliceStable l) = List.filter P l.
Proof.
  intros HP. induction l as [|x l IH]; simpl; [done|].
  rewrite sorted_insert_filter by done. simpl. by rewrite IH.
Qed.

Hypothesis lt_asym : forall a b, lt a b = true -> lt b a = false.
Hypothesis not_after_trans : forall a b c, not_after a b -> not_after b c -> not_after a c.

Lemma sorted_insert_sorted x l :
  StronglySorted not_after l -> StronglySorted not_after (sorted_insert x l).
Proof.
  induction 1 as [|y l Hl IH Hy]; simpl; [repeat constructor|].
  destruct (lt y x) eqn:E.
  - constructor; [done|]. rewrite sorted_insert_perm. constructor; [|done].
    unfold not_after. by apply lt_asym.
  - constructor; [by constructor|]. constructor; [done|].
    eapply Forall_impl; [exact Hy|]. intros z Hz. by eapply not_after_trans.
Qed.

Lemma SliceStable_sorted l : StronglySorted not_after (SliceStable l).
Proof. induction l; simpl; [constructor|]. by apply sorted_insert_sorted. Qed.
End StableSort.

Lemma filter_sorted {A} (R : A -> A -> Prop) (P : A -> bool) l :
  StronglySorted R l -> StronglySorted R (List.filter P l).
Proof.
  induction 1 as [|x l Hl IH Hx]; simpl; [constructor|]. destruct (P x); [|done].
  constructor; [done|]. rewrite Forall_forall in *. intros y [Hy _]%elem_of_filter_bool. auto.
Qed.
