(* ===== verification/GoFloat.v ===== *)
(** float64 arithmetic of the Go code, bit exact: the binary64 format of
    IEEE 754 as formalised by the Standard Library's [SpecFloat] (no axioms,
    no primitive floats).  A decimal literal of the source is the correctly
    rounded quotient of two integers. *)

From S2P Require Import Prelude.
From Stdlib Require Import SpecFloat.

Local Open Scope Z_scope.

Definition float64 := spec_float.
Definition prec64 : Z := 53.
Definition emax64 : Z := 1024.

Definition f64_of_Z (z : Z) : float64 := binary_normalize prec64 emax64 z 0 false.

(** [f64_lit n d] is the float64 nearest to [n/d]. *)
Definition f64_lit (n d : Z) : float64 :=
  SFdiv prec64 emax64 (f64_of_Z n) (f64_of_Z d).

Definition f64_add : float64 -> float64 -> float64 := SFadd prec64 emax64.
Definition f64_sub : float64 -> float64 -> float64 := SFsub prec64 emax64.
Definition f64_mul : float64 -> float64 -> float64 := SFmul prec64 emax64.
Definition f64_div : float64 -> float64 -> float64 := SFdiv prec64 emax64.
Definition f64_ltb : float64 -> float64 -> bool := SFltb.
Definition f64_leb : float64 -> float64 -> bool := SFleb.

Definition f64_zero : float64 := S754_zero false.
Definition f64_one : float64 := Eval vm_compute in f64_of_Z 1.

(** Truncation of a float towards zero, for a value in the range of int64. *)
Definition f64_trunc (x : float64) : Z :=
  match x with
  | S754_finite s m e =>
      let v := if 0 <=? e then Zpos m * 2 ^ e else Zpos m / 2 ^ (- e) in
      if s then - v else v
  | _ => 0
  end.

(** [0.6 - 0.3] rounds to the literal [0.3]: a fact the SSN validator's
    rejection threshold [<= 0.3] depends on. *)
Lemma f64_06_minus_03 : f64_sub (f64_lit 6 10) (f64_lit 3 10) = f64_lit 3 10.
Proof. vm_compute. reflexivity. Qed.
