(* ===== verification/GoStrings.v ===== *)
(** The parts of Go's [strings], [strconv], [unicode] and [unicode/utf8] that
    the modelled code uses.

    A Go string is an arbitrary byte sequence: Rocq's [string], one [ascii] per
    byte.  [range s] decodes UTF-8 as [utf8.DecodeRune] does (an invalid byte is
    U+FFFD of width 1).  The Latin-1 part of the character tables is written
    out; the tables for larger code points are the class [Unicode], so every
    theorem holds for every edition of the Unicode tables. *)

From S2P Require Import Prelude.

Local Open Scope Z_scope.

(** * Bytes *)

Definition byte_val (a : ascii) : Z := Z.of_N (N_of_ascii a).
Definition byte_chr (z : Z) : ascii := ascii_of_N (Z.to_N z).

Definition chars (s : string) : list ascii := String.list_ascii_of_string s.
Definition of_chars (l : list ascii) : string := String.string_of_list_ascii l.
Definition bytes (s : string) : list Z := byte_val <$> chars s.
Definition of_bytes (l : list Z) : string := of_chars (byte_chr <$> l).

(** [len(s)] *)
Definition len (s : string) : nat := length (chars s).

(** [s[i:j]] for [0 <= i <= j <= len(s)] *)
Definition slice (s : string) (i j : nat) : string :=
  of_chars (take (j - i) (drop i (chars s))).

(** [s[i]] *)
Definition byte_at (s : string) (i : nat) : option Z := bytes s !! i.

Lemma of_chars_chars s : of_chars (chars s) = s.
Proof. apply String.string_of_list_ascii_of_string. Qed.

Lemma chars_of_chars l : chars (of_chars l) = l.
Proof. apply String.list_ascii_of_string_of_list_ascii. Qed.

Lemma byte_val_range a : 0 <= byte_val a < 256.
Proof.
  unfold byte_val. pose proof (N_ascii_bounded a). lia.
Qed.

Lemma byte_chr_val a : byte_chr (byte_val a) = a.
Proof. unfold byte_chr, byte_val. rewrite N2Z.id. apply ascii_N_embedding. Qed.

Lemma byte_val_chr z : 0 <= z < 256 -> byte_val (byte_chr z) = z.
Proof.
  intros H. unfold byte_chr, byte_val. rewrite N_ascii_embedding; lia.
Qed.

Lemma of_bytes_bytes s : of_bytes (bytes s) = s.
Proof.
  unfold of_bytes, bytes. rewrite <- list_fmap_compose.
  rewrite (list_fmap_ext _ id) by (intros; apply byte_chr_val).
  rewrite list_fmap_id. apply of_chars_chars.
Qed.

Lemma bytes_of_bytes l :
  Forall (fun z => 0 <= z < 256) l -> bytes (of_bytes l) = l.
Proof.
  intros H. unfold bytes, of_bytes. rewrite chars_of_chars, <- list_fmap_compose.
  induction H as [|z l Hz _ IH]; csimpl; [done|]. by rewrite byte_val_chr, IH.
Qed.

Lemma bytes_range s : Forall (fun z => 0 <= z < 256) (bytes s).
Proof. unfold bytes. apply Forall_fmap, Forall_true. intros a. apply byte_val_range. Qed.

Lemma length_bytes s : length (bytes s) = len s.
Proof. apply length_fmap. Qed.

Lemma bytes_inj s t : bytes s = bytes t -> s = t.
Proof. intros H. by rewrite <- (of_bytes_bytes s), H, of_bytes_bytes. Qed.

Lemma len_slice s i j : (i <= j)%nat -> (j <= len s)%nat -> len (slice s i j) = (j - i)%nat.
Proof.
  intros. unfold len, slice in *. rewrite chars_of_chars, length_take, length_drop. lia.
Qed.

Lemma chars_app s t : chars (s +:+ t) = chars s ++ chars t.
Proof. unfold chars. induction s as [|a s IH]; [done|]. simpl. by f_equal. Qed.

Lemma len_cons a s : len (String a s) = S (len s).
Proof. done. Qed.

Lemma len_app s t : len (s +:+ t) = (len s + len t)%nat.
Proof. unfold len. by rewrite chars_app, length_app. Qed.

Lemma slice_all s : slice s 0 (len s) = s.
Proof.
  unfold slice, len. rewrite drop_0, Nat.sub_0_r, take_ge by lia. apply of_chars_chars.
Qed.

Lemma slice_split s i : (i <= len s)%nat -> s = slice s 0 i +:+ slice s i (len s).
Proof.
  intros H. rewrite <- (of_chars_chars s) at 1.
  rewrite <- (of_chars_chars (_ +:+ _)), chars_app. f_equal.
  unfold slice. rewrite !chars_of_chars, drop_0, Nat.sub_0_r.
  unfold len in *. rewrite (take_ge (drop i _)) by (rewrite length_drop; lia).
  by rewrite take_drop.
Qed.

#[export] Hint Rewrite of_chars_chars chars_of_chars of_bytes_bytes chars_app len_app : axon_rw.

(** * UTF-8 *)

Definition RuneError : Z := 65533.

Definition in_range (lo hi x : Z) : bool := (lo <=? x) && (x <=? hi).
Definition is_cont (b : Z) : bool := in_range 128 191 b.

(** [utf8.DecodeRune]: the first rune of a byte sequence with its width. *)
Definition decode_rune (l : list Z) : option (Z * nat) :=
  match l with
  | [] => None
  | b0 :: t =>
      if b0 <? 128 then Some (b0, 1%nat)
      else if in_range 194 223 b0 then
        match t with
        | b1 :: _ =>
            if is_cont b1 then Some ((b0 - 192) * 64 + (b1 - 128), 2%nat)
            else Some (RuneError, 1%nat)
        | _ => Some (RuneError, 1%nat)
        end
      else if in_range 224 239 b0 then
        match t with
        | b1 :: b2 :: _ =>
            if in_range (if b0 =? 224 then 160 else 128) (if b0 =? 237 then 159 else 191) b1
               && is_cont b2
            then Some ((b0 - 224) * 4096 + (b1 - 128) * 64 + (b2 - 128), 3%nat)
            else Some (RuneError, 1%nat)
        | _ => Some (RuneError, 1%nat)
        end
      else if in_range 240 244 b0 then
        match t with
        | b1 :: b2 :: b3 :: _ =>
            if in_range (if b0 =? 240 then 144 else 128) (if b0 =? 244 then 143 else 191) b1
               && is_cont b2 && is_cont b3
            then Some ((b0 - 240) * 262144 + (b1 - 128) * 4096 + (b2 - 128) * 64 + (b3 - 128), 4%nat)
            else Some (RuneError, 1%nat)
        | _ => Some (RuneError, 1%nat)
        end
      else Some (RuneError, 1%nat)
  end.

(** The runes [range] visits, each with the bytes it was decoded from. The
    fuel is the number of bytes: every rune consumes at least one. *)
Fixpoint runes_fuel (fuel : nat) (l : list Z) : list (Z * list Z) :=
  match fuel with
  | O => []
  | S f =>
      match decode_rune l with
      | None => []
      | Some (r, w) => (r, take w l) :: runes_fuel f (drop w l)
      end
  end.

Definition runes (s : string) : list (Z * list Z) := runes_fuel (len s) (bytes s).

(** [utf8.RuneCountInString] *)
Definition RuneCount (s : string) : nat := length (runes s).

(** [utf8.EncodeRune] / [Builder.WriteRune] *)
Definition encode_rune (r : Z) : list Z :=
  let r := if (r <? 0) || (1114111 <? r) || in_range 55296 57343 r then RuneError else r in
  if r <? 128 then [r]
  else if r <? 2048 then [192 + r / 64; 128 + r mod 64]
  else if r <? 65536 then [224 + r / 4096; 128 + (r / 64) mod 64; 128 + r mod 64]
  else [240 + r / 262144; 128 + (r / 4096) mod 64; 128 + (r / 64) mod 64; 128 + r mod 64].

Definition is_ascii (l : list Z) : bool := forallb (fun b => b <? 128) l.

Lemma decode_rune_width l r w :
  decode_rune l = Some (r, w) -> (1 <= w <= length l)%nat.
Proof.
  unfold decode_rune. intros H.
  repeat break; simplify_eq; simpl; lia.
Qed.

Lemma decode_rune_ascii b l : 0 <= b < 128 -> decode_rune (b :: l) = Some (b, 1%nat).
Proof. intros H. simpl. destruct (Z.ltb_spec b 128); [done|lia]. Qed.

Lemma decode_rune_nil l : decode_rune l = None <-> l = [].
Proof.
  split; [|by intros ->]. intros H.
  destruct l as [|b0 t]; [done|]. exfalso. revert H. unfold decode_rune.
  repeat break_goal; discriminate.
Qed.

Lemma runes_fuel_ascii n l :
  (length l <= n)%nat -> Forall (fun z => 0 <= z < 128) l ->
  runes_fuel n l = (fun b => (b, [b])) <$> l.
Proof.
  revert l. induction n as [|n IH]; intros l Hn Hl.
  - destruct l; [done|simpl in Hn; lia].
  - destruct Hl as [|b l Hb Hl]; [done|].
    cbn [runes_fuel]. rewrite decode_rune_ascii by done.
    cbn [take drop]. rewrite drop_0. csimpl. f_equal. apply IH; [simpl in Hn; lia|done].
Qed.

(** The chunks of the rune decoding are exactly the bytes of the string. *)
Lemma runes_fuel_concat n l :
  (length l <= n)%nat -> mjoin (snd <$> runes_fuel n l) = l.
Proof.
  revert l. induction n as [|n IH]; intros l Hn.
  - destruct l; [done|simpl in Hn; lia].
  - simpl. destruct (decode_rune l) as [[r w]|] eqn:E.
    + apply decode_rune_width in E. csimpl.
      rewrite IH by (rewrite length_drop; lia). by rewrite take_drop.
    + apply decode_rune_nil in E. by subst.
Qed.

(** * Characters *)

(** The tables of package [unicode] above U+00FF (for the case mappings, above
    U+007F): a parameter. *)
Class Unicode := {
  digit_tab : Z -> bool;
  letter_tab : Z -> bool;
  lower_tab : Z -> Z;
  upper_tab : Z -> Z;
}.

(** A concrete instance used by the witnesses: no rune above Latin-1 is a
    letter or a digit, and case mapping is the identity outside ASCII. *)
Definition ascii_unicode : Unicode := {|
  digit_tab := fun _ => false;
  letter_tab := fun _ => false;
  lower_tab := id;
  upper_tab := id;
|}.

Section Unicode.
Context `{U : Unicode}.

Definition IsDigit (r : Z) : bool :=
  if r <=? 255 then in_range 48 57 r else digit_tab r.

Definition IsLetter (r : Z) : bool :=
  if r <=? 255 then
    in_range 65 90 r || in_range 97 122 r || (r =? 170) || (r =? 181) || (r =? 186)
    || in_range 192 214 r || in_range 216 246 r || in_range 248 255 r
  else letter_tab r.

(** [unicode.IsSpace], the White_Space property written out. *)
Definition IsSpace (r : Z) : bool :=
  in_range 9 13 r || (r =? 32) || (r =? 133) || (r =? 160) || (r =? 5760)
  || in_range 8192 8202 r || (r =? 8232) || (r =? 8233) || (r =? 8239)
  || (r =? 8287) || (r =? 12288).

Definition rune_lower (r : Z) : Z :=
  if r <? 128 then (if in_range 65 90 r then r + 32 else r) else lower_tab r.
Definition rune_upper (r : Z) : Z :=
  if r <? 128 then (if in_range 97 122 r then r - 32 else r) else upper_tab r.

(** [strings.Map] for a mapping that never deletes a rune: the runes are
    mapped and re-encoded (an invalid byte comes out as U+FFFD). *)
Definition map_runes (f : Z -> Z) (s : string) : string :=
  if is_ascii (bytes s) then of_bytes (f <$> bytes s)
  else of_bytes (mjoin ((fun p => encode_rune (f p.1)) <$> runes s)).

(** [strings.ToLower], [strings.ToUpper] *)
Definition ToLower : string -> string := map_runes rune_lower.
Definition ToUpper : string -> string := map_runes rune_upper.

(** [strings.TrimSpace] *)
Fixpoint drop_space (l : list (Z * list Z)) : list (Z * list Z) :=
  match l with
  | (r, b) :: l' => if IsSpace r then drop_space l' else l
  | [] => []
  end.

Definition TrimSpace (s : string) : string :=
  of_bytes (mjoin (snd <$> rev (drop_space (rev (drop_space (runes s)))))).
End Unicode.

(** * Searching *)

(** [strings.HasPrefix] *)
Definition HasPrefix (s p : string) : bool := String.prefix p s.

(** [strings.Index] *)
Fixpoint Index (s sub : string) : option nat :=
  if String.prefix sub s then Some 0%nat
  else match s with
       | EmptyString => None
       | String _ s' => S <$> Index s' sub
       end.

(** [strings.Contains] *)
Definition Contains (s sub : string) : bool :=
  match Index s sub with Some _ => true | None => false end.

(** [strings.LastIndex] *)
Fixpoint LastIndex (s sub : string) : option nat :=
  match s with
  | EmptyString => if String.prefix sub s then Some 0%nat else None
  | String _ s' =>
      match LastIndex s' sub with
      | Some i => Some (S i)
      | None => if String.prefix sub s then Some 0%nat else None
      end
  end.

(** [strings.LastIndexAny] for an ASCII cut set *)
Fixpoint LastIndexAny (s cut : string) : option nat :=
  match s with
  | EmptyString => None
  | String a s' =>
      match LastIndexAny s' cut with
      | Some i => Some (S i)
      | None => if bool_decide (a ∈ chars cut) then Some 0%nat else None
      end
  end.

(** [strings.Split] with a one byte separator *)
Fixpoint split_chars (sep : ascii) (l acc : list ascii) : list string :=
  match l with
  | [] => [of_chars (rev acc)]
  | a :: l' =>
      if bool_decide (a = sep) then of_chars (rev acc) :: split_chars sep l' []
      else split_chars sep l' (a :: acc)
  end.
Definition Split (s : string) (sep : ascii) : list string := split_chars sep (chars s) [].

(** [strings.ReplaceAll(s, c, "")] for a one byte [c] *)
Definition RemoveAll (s : string) (c : ascii) : string :=
  of_chars (List.filter (fun a => negb (bool_decide (a = c))) (chars s)).

(** [strings.Repeat("*", n)] and the like *)
Definition Repeat (a : ascii) (n : nat) : string := of_chars (replicate n a).

(** The first indicator of a list found in the context, as the validators'
    [for ... { if strings.Contains(ctx, ind) { ...; break } }] loops test. *)
Definition contains_any (ctx : string) (inds : list string) : bool :=
  existsb (Contains ctx) inds.

Lemma prefix_len sub s : String.prefix sub s = true -> (len sub <= len s)%nat.
Proof.
  revert s. induction sub as [|b sub IH]; intros s; simpl; [change (len "") with 0%nat; lia|].
  destruct s as [|c s]; [done|]. simpl. destruct (ascii_dec b c); [|done].
  rewrite !len_cons. intros H%IH. lia.
Qed.

Lemma Index_bound s sub i : Index s sub = Some i -> (i + len sub <= len s)%nat.
Proof.
  revert i. induction s as [|a s IH]; intros i; cbn [Index].
  - destruct (String.prefix sub "") eqn:E; [|done]. intros [= <-]. by apply prefix_len.
  - destruct (String.prefix sub (String a s)) eqn:E.
    + intros [= <-]. by apply prefix_len.
    + destruct (Index s sub) as [k|] eqn:Ek; simpl; intros; simplify_eq.
      specialize (IH _ eq_refl). rewrite len_cons. lia.
Qed.

(** * Decimal integers *)

(** The digit loop of [strconv.ParseInt] in base 10. *)
Fixpoint parse_digits (l : list Z) (acc : Z) : option Z :=
  match l with
  | [] => Some acc
  | b :: l' => if in_range 48 57 b then parse_digits l' (acc * 10 + (b - 48)) else None
  end.

Definition int64_max : Z := 9223372036854775807.
Definition int64_min : Z := -9223372036854775808.

(** [strconv.Atoi] on a 64-bit platform: the value and whether [err == nil].
    A syntax error yields 0, a range error the nearest bound. *)
Definition Atoi (s : string) : Z * bool :=
  let '(neg, ds) :=
    match bytes s with
    | b :: t => if b =? 45 then (true, t) else if b =? 43 then (false, t) else (false, b :: t)
    | [] => (false, [])
    end in
  match ds with
  | [] => (0, false)
  | _ =>
      match parse_digits ds 0 with
      | None => (0, false)
      | Some n =>
          let v := if (neg : bool) then - n else n in
          if v <? int64_min then (int64_min, false)
          else if int64_max <? v then (int64_max, false)
          else (v, true)
      end
  end.

(** [strconv.Itoa] for a non-negative number *)
Fixpoint itoa_fuel (fuel : nat) (n : Z) (acc : list Z) : list Z :=
  match fuel with
  | O => acc
  | S f =>
      let acc := 48 + n mod 10 :: acc in
      if n / 10 =? 0 then acc else itoa_fuel f (n / 10) acc
  end.

Definition Itoa (n : Z) : string :=
  if n <? 0 then String "-" (of_bytes (itoa_fuel 20 (- n) []))
  else of_bytes (itoa_fuel 20 n []).

(** Digit strings and their value, the reference for the checksum routines. *)
Definition is_digits (s : string) : bool := forallb (in_range 48 57) (bytes s).
Definition digit_vals (s : string) : list Z := (fun b => b - 48) <$> bytes s.

Fixpoint decimal (l : list Z) (acc : Z) : Z :=
  match l with
  | [] => acc
  | d :: l' => decimal l' (acc * 10 + d)
  end.
Definition decimal_value (s : string) : Z := decimal (digit_vals s) 0.

Lemma is_digits_vals s :
  is_digits s = true -> Forall (fun d => 0 <= d <= 9) (digit_vals s).
Proof.
  unfold is_digits, digit_vals, in_range. rewrite forallb_forall. intros H.
  apply Forall_fmap, Forall_forall. intros b Hb%list_elem_of_In.
  specialize (H b Hb). simpl. lia.
Qed.

Lemma parse_digits_decimal l acc :
  Forall (fun b => in_range 48 57 b = true) l ->
  parse_digits l acc = Some (decimal ((fun b => b - 48) <$> l) acc).
Proof.
  intros H. revert acc. induction H as [|b l Hb _ IH]; intros acc; [done|].
  simpl. rewrite Hb. apply IH.
Qed.

Example atoi_ex1 : Atoi "-042" = (-42, true).
Proof. reflexivity. Qed.
Example atoi_ex2 : Atoi "99999999999999999999" = (int64_max, false).
Proof. reflexivity. Qed.
Example trim_ex : TrimSpace "  a b	" = "a b".
Proof. vm_compute. reflexivity. Qed.
Example itoa_ex : Itoa 1070 = "1070".
Proof. vm_compute. reflexivity. Qed.
