(* ===== verification/GoStrconv.v ===== *)
(** [strconv.Itoa] as a notation for integers: it reads back, so it is
    injective; splitting text at a separator. *)

From stdpp Require Import sorting.
From S2P Require Import Prelude GoStrings.

Local Open Scope Z_scope.

(** [strconv.FormatBool] *)
Definition FormatBool (b : bool) : string := if b then "true" else "false".

Lemma FormatBool_inj a b : FormatBool a = FormatBool b -> a = b.
Proof. by destruct a, b. Qed.

(** Lexicographic order of Go strings. *)
Definition str_before (a b : string) : bool :=
  match (a ?= b)%string with Lt => true | _ => false end.

Definition int64_range (z : Z) : Prop := int64_min <= z <= int64_max.

(** Arithmetic on [int64] wraps around. *)
Definition wrap64 (z : Z) : Z := (z + 9223372036854775808) mod 18446744073709551616 - 9223372036854775808.

Lemma wrap64_id z : int64_range z -> wrap64 z = z.
Proof. unfold int64_range, wrap64, int64_min, int64_max. intros H. rewrite Z.mod_small; lia. Qed.

Lemma wrap64_range z : int64_range (wrap64 z).
Proof.
  unfold int64_range, wrap64, int64_min, int64_max.
  pose proof (Z.mod_pos_bound (z + 9223372036854775808) 18446744073709551616). lia.
Qed.

(** * Itoa reads back *)

Definition is_digit (b : Z) : Prop := 48 <= b <= 57.

Lemma decimal_concat l acc d : decimal (l ++ [d]) acc = decimal l acc * 10 + d.
Proof. revert acc. induction l as [|x l IH]; intros acc; simpl; [done|apply IH]. Qed.

Lemma itoa_fuel_spec f n acc :
  0 <= n < 10 ^ Z.of_nat (S f) ->
  exists ds, itoa_fuel (S f) n acc = ds ++ acc /\ ds <> [] /\ Forall is_digit ds /\
    decimal ((fun b => b - 48) <$> ds) 0 = n.
Proof.
  revert n acc. induction f as [|f IH]; intros n acc Hn.
  - assert (n < 10) by (change (10 ^ Z.of_nat 1) with 10 in Hn; lia).
    exists [48 + n mod 10]. simpl. rewrite Z.mod_small by lia. split_and!.
    + by destruct (n / 10 =? 0).
    + done.
    + constructor; [unfold is_digit; lia|constructor].
    + lia.
  - cbn [itoa_fuel]. destruct (Z.eqb_spec (n / 10) 0) as [H0|H0].
    + exists [48 + n mod 10]. assert (n mod 10 = n) by lia_mod. split_and!; try done.
      * constructor; [unfold is_digit; lia_mod|constructor].
      * simpl. lia.
    + destruct (IH (n / 10) (48 + n mod 10 :: acc)) as (ds & Hds & Hne & Hd & Hv).
      { rewrite Nat2Z.inj_succ, Z.pow_succ_r in Hn by lia. lia_mod. }
      exists (ds ++ [48 + n mod 10]). split_and!.
      * rewrite <- app_assoc. exact Hds.
      * by destruct ds.
      * apply Forall_app. split; [done|]. constructor; [unfold is_digit; lia_mod|constructor].
      * rewrite fmap_app. cbn [fmap list_fmap]. rewrite decimal_concat, Hv. lia_mod.
Qed.

Lemma digits_bytes ds : Forall is_digit ds -> Forall (fun z => 0 <= z < 256) ds.
Proof. intros H. eapply Forall_impl; [exact H|]. unfold is_digit. lia. Qed.

(** The bytes of [Itoa]: an optional minus sign and the decimal digits. *)
Lemma Itoa_bytes n :
  int64_range n ->
  exists ds, bytes (Itoa n) = (if n <? 0 then [45] else []) ++ ds /\ ds <> [] /\
    Forall is_digit ds /\ decimal ((fun b => b - 48) <$> ds) 0 = Z.abs n.
Proof.
  unfold int64_range, int64_min, int64_max. intros Hn.
  destruct (itoa_fuel_spec 19 (Z.abs n) []) as (ds & Hds & Hne & Hd & Hv).
  { change (10 ^ Z.of_nat 20) with 100000000000000000000. lia. }
  exists ds. split_and!; try done. unfold Itoa. destruct (Z.ltb_spec n 0) as [H|H].
  - rewrite Z.abs_neq in Hds by lia. rewrite Hds, app_nil_r.
    change (String "-" (of_bytes ds)) with ("-" +:+ of_bytes ds).
    unfold bytes at 1. rewrite chars_app, fmap_app. f_equal.
    apply bytes_of_bytes, digits_bytes, Hd.
  - rewrite Z.abs_eq in Hds by lia. rewrite Hds, app_nil_r.
    apply bytes_of_bytes, digits_bytes, Hd.
Qed.

Lemma digit_in_range b : is_digit b -> in_range 48 57 b = true.
Proof. unfold is_digit, in_range. lia. Qed.

(** [strconv.Atoi] undoes [strconv.Itoa] on the 64-bit range. *)
Lemma Atoi_Itoa n : int64_range n -> Atoi (Itoa n) = (n, true).
Proof.
  intros Hn. destruct (Itoa_bytes n Hn) as (ds & Hb & Hne & Hd & Hv).
  unfold Atoi. rewrite Hb.
  assert (Hp : parse_digits ds 0 = Some (Z.abs n)).
  { rewrite parse_digits_decimal, Hv; [done|].
    eapply Forall_impl; [exact Hd|]. apply digit_in_range. }
  unfold int64_range, int64_min, int64_max in *.
  destruct ds as [|d ds]; [done|]. inversion Hd as [|? ? Hd1 Hd2]; subst.
  destruct (Z.ltb_spec n 0) as [H|H]; cbn [app].
  - change (45 =? 45) with true. cbn iota. rewrite Hp.
    repeat (case_match; [lia|]). f_equal. lia.
  - unfold is_digit in Hd1. replace (d =? 45) with false by lia.
    replace (d =? 43) with false by lia. cbn iota. rewrite Hp.
    repeat (case_match; [lia|]). f_equal. lia.
Qed.

Lemma Itoa_inj m n : int64_range m -> int64_range n -> Itoa m = Itoa n -> m = n.
Proof.
  intros Hm Hn HE. pose proof (Atoi_Itoa m Hm) as H. rewrite HE, Atoi_Itoa in H by done. congruence.
Qed.

(** No byte of a decimal notation is a colon. *)
Lemma Itoa_no_colon n : int64_range n -> 58 ∉ bytes (Itoa n).
Proof.
  intros Hn. destruct (Itoa_bytes n Hn) as (ds & -> & _ & Hd & _).
  rewrite elem_of_app. intros [H|H].
  - destruct (n <? 0); set_solver.
  - rewrite Forall_forall in Hd. apply Hd in H. unfold is_digit in H. lia.
Qed.

(** * Separators *)

(** The part before the first separator is determined. *)
Lemma sep_inj {A} (c : A) l1 l2 r1 r2 :
  c ∉ l1 -> c ∉ l2 -> l1 ++ c :: r1 = l2 ++ c :: r2 -> l1 = l2 /\ r1 = r2.
Proof.
  revert l2. induction l1 as [|x l1 IH]; intros [|y l2] H1 H2; simpl; intros HE; simplify_eq.
  - done.
  - set_solver.
  - set_solver.
  - destruct (IH l2) as [-> ->]; set_solver.
Qed.

Lemma app_same_length {A} (l1 l2 r1 r2 : list A) :
  length l1 = length l2 -> l1 ++ r1 = l2 ++ r2 -> l1 = l2 /\ r1 = r2.
Proof. intros Hl HE. by apply app_inj_1. Qed.

Lemma bytes_app s t : bytes (s +:+ t) = bytes s ++ bytes t.
Proof. unfold bytes. by rewrite chars_app, fmap_app. Qed.

(** A length-prefixed value reads back. *)
Lemma nat_int64 n : Z.of_nat n <= int64_max -> int64_range (Z.of_nat n).
Proof. unfold int64_range, int64_min. lia. Qed.

Lemma len_prefix_inj (v v' : list Z) (r r' : list Z) :
  Z.of_nat (length v) <= int64_max -> Z.of_nat (length v') <= int64_max ->
  bytes (Itoa (Z.of_nat (length v))) ++ 58 :: v ++ r =
  bytes (Itoa (Z.of_nat (length v'))) ++ 58 :: v' ++ r' -> v = v' /\ r = r'.
Proof.
  intros Hv Hv' HE. apply nat_int64 in Hv, Hv'.
  destruct (sep_inj _ _ _ _ _ (Itoa_no_colon _ Hv) (Itoa_no_colon _ Hv') HE) as [Hi Hr].
  apply bytes_inj, Itoa_inj in Hi; [|done..]. apply app_same_length in Hr; [done|lia].
Qed.

(** * The order of strings *)

Lemma str_before_trans a b c : str_before a b = true -> str_before b c = true -> str_before a c = true.
Proof.
  unfold str_before. revert b c. induction a as [|x a IH]; intros [|y b] [|z c]; cbn; try done.
  unfold Ascii.compare.
  destruct (N.compare_spec (N_of_ascii x) (N_of_ascii y)) as [E1|E1|E1]; try done;
    destruct (N.compare_spec (N_of_ascii y) (N_of_ascii z)) as [E2|E2|E2]; try done;
    destruct (N.compare_spec (N_of_ascii x) (N_of_ascii z)) as [E3|E3|E3]; try done; try lia.
  apply IH.
Qed.

Lemma str_before_asym a b : str_before a b = true -> str_before b a = false.
Proof. unfold str_before. rewrite (String.compare_antisym b a). by destruct (String.compare a b). Qed.

Lemma str_before_total a b : str_before a b = false -> str_before b a = false -> a = b.
Proof.
  unfold str_before. rewrite (String.compare_antisym b a).
  destruct (String.compare a b) eqn:E; try done. by apply String.compare_eq_iff in E.
Qed.

Definition by_key {A} (a b : string * A) : bool := str_before a.1 b.1.

Lemma by_key_sorted {A} (l : list (string * A)) : StronglySorted (not_after by_key) (SliceStable by_key l).
Proof.
  apply SliceStable_sorted; unfold not_after, by_key.
  - intros a b. apply str_before_asym.
  - intros a b c H1 H2. destruct (str_before c.1 a.1) eqn:E; [|done].
    destruct (str_before a.1 b.1) eqn:E2.
    + by rewrite (str_before_trans _ _ _ E E2) in H2.
    + by rewrite (str_before_total _ _ E2 H1), H2 in E.
Qed.

(** Sorting by distinct keys does not depend on the order of the entries. *)
Lemma by_key_perm {A} (l1 l2 : list (string * A)) :
  NoDup l1.*1 -> l1 ≡ₚ l2 -> SliceStable by_key l1 = SliceStable by_key l2.
Proof.
  intros Hn HP.
  assert (HS : SliceStable by_key l1 ≡ₚ SliceStable by_key l2) by by rewrite !SliceStable_perm.
  apply (StronglySorted_unique_strong (not_after by_key)); [|apply by_key_sorted..|exact HS].
  intros [k v] [k' v'] H1 H2 Hle1 Hle2. unfold not_after, by_key in *. cbn [fst] in *.
  assert (k = k') as -> by by apply str_before_total.
  rewrite SliceStable_perm in H1, H2. rewrite <- HP in H2.
  pose proof (assoc_get_NoDup _ _ _ Hn H1). pose proof (assoc_get_NoDup _ _ _ Hn H2). congruence.
Qed.

(** [unicode.IsPrint] and [strconv.Quote], the verb [%q]. *)

(** The printable runes above U+00FF: a table of package [unicode]. *)
Class UnicodePrint := { print_tab : Z -> bool }.

(** The instance of the examples. *)
Definition no_print : UnicodePrint := {| print_tab := fun _ => false |}.

Section Quote.
Context `{PT : UnicodePrint}.

Definition IsPrint (r : Z) : bool :=
  if r <=? 255 then in_range 32 126 r || in_range 161 172 r || in_range 174 255 r else print_tab r.

(** [n] lower-case hexadecimal digits. *)
Definition hex_digits (n : nat) (x : Z) : list Z :=
  (fun i => let d := Z.shiftr x (4 * Z.of_nat i) mod 16 in if d <? 10 then 48 + d else 87 + d) <$> rev (seq 0 n).

Definition quoted_rune (r : Z) (raw : list Z) : list Z :=
  if (r =? RuneError) && Nat.eqb (length raw) 1 then [92; 120] ++ hex_digits 2 (nth 0 raw 0)
  else if (r =? 34) || (r =? 92) then [92; r]
  else if IsPrint r then raw
  else match r with
       | 7 => [92; 97] | 8 => [92; 98] | 12 => [92; 102] | 10 => [92; 110]
       | 13 => [92; 114] | 9 => [92; 116] | 11 => [92; 118]
       | _ =>
           if (r <? 32) || (r =? 127) then [92; 120] ++ hex_digits 2 r
           else if r <? 65536 then [92; 117] ++ hex_digits 4 r
           else [92; 85] ++ hex_digits 8 r
       end.

Definition quote (s : string) : string := of_bytes ([34] ++ mjoin ((fun p => quoted_rune p.1 p.2) <$> runes s) ++ [34]).
End Quote.

Example quote_escape :
  bytes (quote (PT := no_print) (of_bytes [97; 27; 34])) = [34; 97; 92; 120; 49; 98; 92; 34; 34].
Proof. vm_compute. reflexivity. Qed.
