(* ===== verification/GoTime.v ===== *)
(** [time.Time] and [time.Duration] as the execution tracker uses them: an
    instant and a duration are nanosecond counts, the zero [Time] is 0,
    [Time.Sub] saturates, [Duration.Round] rounds half away from zero and
    [Duration.String] prints the largest units first. *)

From S2P Require Import Prelude GoFloat GoStrings.

Local Open Scope Z_scope.

Definition Microsecond : Z := 1000.
Definition Millisecond : Z := 1000000.
Definition Second : Z := 1000000000.
Definition Minute : Z := 60 * Second.
Definition Hour : Z := 60 * Minute.

(** [Time.Unix]: whole seconds. *)
Definition Unix (t : Z) : Z := t / Second.

Definition IsZero (t : Z) : bool := t =? 0.

Definition Sub (t u : Z) : Z :=
  let d := t - u in
  if d <? int64_min then int64_min else if int64_max <? d then int64_max else d.

Definition lessThanHalf (x y : Z) : bool := x + x <? y.

(** [%] on Go integers truncates toward zero. *)
Definition Round (d m : Z) : Z :=
  if m <=? 0 then d
  else let r := Z.rem d m in
    if d <? 0 then
      let r := - r in
      if lessThanHalf r m then d + r
      else let d1 := d - m + r in if d1 <? int64_min then int64_min else d1
    else if lessThanHalf r m then d - r
    else let d1 := d + m - r in if int64_max <? d1 then int64_max else d1.

(** [fmtFrac]: the fraction [v / 10^prec] without trailing zeros, with the point. *)
Fixpoint frac_digits (prec : nat) (v : Z) (print : bool) (acc : list Z) : list Z * Z :=
  match prec with
  | O => (if print then 46 :: acc else acc, v)
  | S p =>
      let digit := v mod 10 in
      let print := print || negb (digit =? 0) in
      frac_digits p (v / 10) print (if print then (digit + 48) :: acc else acc)
  end.

Definition fmtFrac (v : Z) (prec : nat) : string * Z :=
  let '(l, q) := frac_digits prec v false [] in (of_bytes l, q).

Definition with_frac (u : Z) (prec : nat) (suffix : string) : string :=
  let '(f, q) := fmtFrac u prec in Itoa q +:+ f +:+ suffix.

Definition DurationString (d : Z) : string :=
  let u := Z.abs d in
  let body :=
    if u =? 0 then "0s"
    else if u <? Second then
      if u <? Microsecond then Itoa u +:+ "ns"
      else if u <? Millisecond then with_frac u 3 (of_bytes [194; 181; 115])
      else with_frac u 6 "ms"
    else
      let '(f, secs) := fmtFrac u 9 in
      let ss := Itoa (secs mod 60) +:+ f +:+ "s" in
      let mins := secs / 60 in
      if mins =? 0 then ss
      else
        let ms := Itoa (mins mod 60) +:+ "m" +:+ ss in
        let hours := mins / 60 in
        if hours =? 0 then ms else Itoa hours +:+ "h" +:+ ms in
  if d <? 0 then "-" +:+ body else body.

Example duration_string_ex :
  DurationString (90 * Minute + 1500 * Millisecond) = "1h30m1.5s" /\
  DurationString (250 * Millisecond) = "250ms" /\ DurationString (-2 * Hour) = "-2h0m0s" /\
  DurationString (Round (1499 * Microsecond) Millisecond) = "1ms" /\
  DurationString 1500 = "1.5" +:+ of_bytes [194; 181; 115].
Proof. split_and!; vm_compute; reflexivity. Qed.

(** Away from the ends of the range, rounding gives the nearest multiple. *)
Lemma Round_nearest d m :
  0 < m -> int64_min + m <= d <= int64_max - m ->
  (m | Round d m) /\ 2 * Z.abs (Round d m - d) <= m.
Proof.
  intros Hm Hd. unfold Round, lessThanHalf.
  pose proof (Z.quot_rem' d m) as Hq.
  pose proof (Z.rem_bound_pos_neg d m) as Hn. pose proof (Z.rem_bound_pos d m) as Hp.
  revert Hq Hn Hp. generalize (Z.rem d m) (d ÷ m). intros r q Hq Hn Hp.
  destruct (Z.leb_spec m 0); [lia|]. destruct (Z.ltb_spec d 0).
  - destruct (Z.ltb_spec (- r + - r) m); [split; [exists q; nia|lia]|].
    destruct (Z.ltb_spec (d - m + - r) int64_min); [lia|]. split; [exists (q - 1); nia|lia].
  - destruct (Z.ltb_spec (r + r) m); [split; [exists q; nia|lia]|].
    destruct (Z.ltb_spec int64_max (d + m - r)); [lia|]. split; [exists (q + 1); nia|lia].
Qed.

(** The calendar half of package time in UTC: [time.Date], [Time.Year],
    [Time.Month], [Time.Day], [Time.Weekday] and [Time.AddDate], over the
    proleptic Gregorian calendar. An instant is a nanosecond count from the Unix
    epoch; a day is its floor quotient.

    The conversions between day numbers and civil dates are inverse to each
    other. *)

Definition day_ns : Z := 24 * Hour.
Definition epoch_days : Z := 719528.
Definition era_days : Z := 146097.

Definition leap (y : Z) : bool :=
  (y mod 4 =? 0) && (negb (y mod 100 =? 0) || (y mod 400 =? 0)).

(** Days from 1 January of year 0 to 1 January of year [y]. *)
Definition days_before_year (y : Z) : Z :=
  365 * y + (y - 1) / 4 - (y - 1) / 100 + (y - 1) / 400 + 1.

Definition month_starts : list Z := [0; 31; 59; 90; 120; 151; 181; 212; 243; 273; 304; 334].

(** Days from 1 January to the first of month [m] (1 to 12). *)
Definition days_before_month (lp : bool) (m : Z) : Z :=
  default 0 (month_starts !! Z.to_nat (m - 1)) + (if lp && (2 <? m) then 1 else 0).

Definition month_lengths : list Z := [31; 28; 31; 30; 31; 30; 31; 31; 30; 31; 30; 31].
Definition days_in_month (y m : Z) : Z :=
  default 0 (month_lengths !! Z.to_nat (m - 1)) + (if leap y && (m =? 2) then 1 else 0).

(** [time.Date] at midnight, as a day number: months outside 1 to 12 and days
    outside the month are normalised. *)
Definition days_of_civil (y m d : Z) : Z :=
  let y' := y + (m - 1) / 12 in
  let m' := (m - 1) mod 12 + 1 in
  days_before_year y' + days_before_month (leap y') m' + (d - 1) - epoch_days.

Definition month_of (lp : bool) (doy : Z) : Z :=
  foldl (fun m k => if days_before_month lp k <=? doy then k else m) 1
    [1; 2; 3; 4; 5; 6; 7; 8; 9; 10; 11; 12].

(** The year of a day counted from 1 January of year 0: 400 years have 146097
    days, which gives it up to one. *)
Definition year_of (z : Z) : Z :=
  let y0 := z * 400 / era_days in
  if z <? days_before_year y0 then y0 - 1
  else if days_before_year (y0 + 1) <=? z then y0 + 1 else y0.

Definition civil_of_days (n : Z) : Z * Z * Z :=
  let z := n + epoch_days in
  let y := year_of z in
  let doy := z - days_before_year y in
  let m := month_of (leap y) doy in
  (y, m, doy - days_before_month (leap y) m + 1).

(** The day of an instant; 1 January 1970 was a Thursday, Sunday is 0. *)
Definition day_of (t : Z) : Z := t / day_ns.
Definition Weekday (day : Z) : Z := (day + 4) mod 7.

(** [time.Date(y, m, d, 0, 0, 0, 0, time.UTC)] *)
Definition Date (y m d : Z) : Z := days_of_civil y m d * day_ns.

(** [t.AddDate(years, months, days)] for a [t] at midnight. *)
Definition AddDate (t years months days : Z) : Z :=
  let '(y, m, d) := civil_of_days (day_of t) in
  Date (y + years) (m + months) (d + days) + t mod day_ns.

Example calendar_ex :
  civil_of_days 0 = (1970, 1, 1) /\ civil_of_days 19782 = (2024, 2, 29) /\
  days_of_civil 2024 13 1 = days_of_civil 2025 1 1 /\ Weekday (days_of_civil 2025 6 1) = 0.
Proof. split_and!; vm_compute; reflexivity. Qed.

Definition valid_date (y m d : Z) : Prop := 1 <= m <= 12 /\ 1 <= d <= days_in_month y m.

(** * Years *)

Lemma days_before_year_next y :
  days_before_year (y + 1) = days_before_year y + (if leap y then 366 else 365).
Proof.
  unfold days_before_year, leap.
  destruct (Z.eqb_spec (y mod 4) 0), (Z.eqb_spec (y mod 100) 0), (Z.eqb_spec (y mod 400) 0);
    simpl; lia_mod.
Qed.

Lemma days_before_year_mono y1 y2 : y1 <= y2 -> days_before_year y1 <= days_before_year y2.
Proof. unfold days_before_year. lia_mod. Qed.

Lemma year_of_spec z : days_before_year (year_of z) <= z < days_before_year (year_of z + 1).
Proof.
  unfold year_of. set (y0 := z * 400 / era_days).
  assert (Hlo : days_before_year (y0 - 1) <= z) by (unfold y0, days_before_year, era_days; lia_mod).
  assert (Hhi : z < days_before_year (y0 + 2)) by (unfold y0, days_before_year, era_days; lia_mod).
  clearbody y0. destruct (Z.ltb_spec z (days_before_year y0)).
  - by replace (y0 - 1 + 1) with y0 by lia.
  - destruct (Z.leb_spec (days_before_year (y0 + 1)) z); [|lia].
    by replace (y0 + 1 + 1) with (y0 + 2) by lia.
Qed.

(** * Months *)

Definition months : list Z := [1; 2; 3; 4; 5; 6; 7; 8; 9; 10; 11; 12].

Lemma month_cases m : 1 <= m <= 12 -> m ∈ months.
Proof. intros H. unfold months. set_unfold. lia. Qed.

(** [p] holds on [n] consecutive integers from [z]. *)
Fixpoint all_from (p : Z -> bool) (n : nat) (z : Z) : bool :=
  match n with O => true | S n' => p z && all_from p n' (z + 1) end.

Lemma all_from_spec p n z : all_from p n z = true -> forall x, z <= x < z + Z.of_nat n -> p x = true.
Proof.
  revert z. induction n as [|n IH]; intros z H x Hx; [lia|]. simpl in H. bool_simpl.
  destruct (decide (x = z)) as [->|]; [done|]. apply (IH (z + 1)); [done|lia].
Qed.

Definition month_length (lp : bool) (m : Z) : Z :=
  default 0 (month_lengths !! Z.to_nat (m - 1)) + (if lp && (m =? 2) then 1 else 0).

(** The month of a day of the year, checked for both kinds of year. *)
Definition check_doy (lp : bool) (doy : Z) : bool :=
  let m := month_of lp doy in
  (1 <=? m) && (m <=? 12) && (days_before_month lp m <=? doy)
  && (doy <? days_before_month lp m + month_length lp m).

Lemma doy_checked : all_from (check_doy false) 365 0 && all_from (check_doy true) 366 0 = true.
Proof. vm_compute. reflexivity. Qed.

Lemma month_of_spec (lp : bool) (doy : Z) :
  0 <= doy < (if lp then 366 else 365) ->
  1 <= month_of lp doy <= 12 /\
  days_before_month lp (month_of lp doy) <= doy
    < days_before_month lp (month_of lp doy) + month_length lp (month_of lp doy).
Proof.
  intros Hd. pose proof doy_checked as HH. apply andb_true_iff in HH as [H0 H1].
  assert (H : check_doy lp doy = true).
  { destruct lp; [apply (all_from_spec _ _ _ H1)|apply (all_from_spec _ _ _ H0)]; lia. }
  unfold check_doy in H. bool_simpl. lia.
Qed.

Lemma days_of_civil_plain y m d : 1 <= m <= 12 ->
  days_of_civil y m d = days_before_year y + days_before_month (leap y) m + (d - 1) - epoch_days.
Proof.
  intros Hm. unfold days_of_civil. rewrite Z.div_small, Z.mod_small by lia.
  rewrite Z.add_0_r. by replace (m - 1 + 1) with m by lia.
Qed.

(** Every day has a valid civil date, which converts back to it. *)
Lemma civil_roundtrip n y m d :
  civil_of_days n = (y, m, d) -> valid_date y m d /\ days_of_civil y m d = n.
Proof.
  unfold civil_of_days. intros [= <- <- <-]. set (z := n + epoch_days).
  pose proof (year_of_spec z) as Hy. rewrite days_before_year_next in Hy.
  destruct (month_of_spec (leap (year_of z)) (z - days_before_year (year_of z))) as [Hm Hd]; [lia|].
  split.
  - split; [done|]. unfold days_in_month. unfold month_length in Hd. lia.
  - rewrite days_of_civil_plain by done. unfold z. lia.
Qed.

(** * Uniqueness *)

(** The months tile the year. *)
Lemma month_next y m : 1 <= m < 12 ->
  days_before_month (leap y) (m + 1) = days_before_month (leap y) m + days_in_month y m.
Proof.
  intros Hm. assert (Hin : m ∈ months) by (apply month_cases; lia). unfold days_in_month.
  destruct (leap y); unfold months in Hin; set_unfold in Hin;
    repeat (destruct Hin as [->|Hin]; [vm_compute; done || lia|]); lia.
Qed.

Lemma month_last y : days_before_month (leap y) 12 + days_in_month y 12 = if leap y then 366 else 365.
Proof. unfold days_in_month. by destruct (leap y). Qed.

Lemma days_before_month_mono y m1 m2 : 1 <= m1 -> m1 < m2 <= 12 ->
  days_before_month (leap y) m1 + days_in_month y m1 <= days_before_month (leap y) m2.
Proof.
  intros H1 H2.
  assert (Hge : forall k, 0 <= k -> m1 + 1 + k <= 12 ->
    days_before_month (leap y) (m1 + 1) <= days_before_month (leap y) (m1 + 1 + k)).
  { intros k Hk. pattern k. apply natlike_ind; [|clear k Hk|done].
    - intros _. by rewrite Z.add_0_r.
    - intros k Hk IH Hle. transitivity (days_before_month (leap y) (m1 + 1 + k)); [apply IH; lia|].
      replace (m1 + 1 + Z.succ k) with (m1 + 1 + k + 1) by lia. rewrite month_next by lia.
      unfold days_in_month. assert (Hin : m1 + 1 + k ∈ months) by (apply month_cases; lia).
      unfold months in Hin. set_unfold in Hin.
      destruct (leap y && (m1 + 1 + k =? 2));
        repeat (destruct Hin as [->|Hin]; [simpl; lia|]); lia. }
  rewrite <- month_next by lia. specialize (Hge (m2 - m1 - 1)).
  replace (m1 + 1 + (m2 - m1 - 1)) with m2 in Hge by lia. apply Hge; lia.
Qed.

Lemma days_before_month_bounds y m : 1 <= m <= 12 ->
  0 <= days_before_month (leap y) m /\
  days_before_month (leap y) m + days_in_month y m <= (if leap y then 366 else 365).
Proof.
  intros Hm. split.
  - assert (Hin : m ∈ months) by (by apply month_cases). unfold months in Hin. set_unfold in Hin.
    destruct (leap y); repeat (destruct Hin as [->|Hin]; [by vm_compute|]); lia.
  - destruct (decide (m = 12)) as [->|]; [by rewrite month_last|].
    rewrite <- (month_last y). pose proof (days_before_month_mono y m 12).
    assert (0 <= days_in_month y 12) by (unfold days_in_month; by destruct (leap y)). lia.
Qed.

(** A day has one civil date. *)
Lemma civil_unique y1 m1 d1 y2 m2 d2 :
  valid_date y1 m1 d1 -> valid_date y2 m2 d2 ->
  days_of_civil y1 m1 d1 = days_of_civil y2 m2 d2 -> y1 = y2 /\ m1 = m2 /\ d1 = d2.
Proof.
  intros [Hm1 Hd1] [Hm2 Hd2] H. rewrite !days_of_civil_plain in H by done.
  pose proof (days_before_month_bounds y1 m1 Hm1). pose proof (days_before_month_bounds y2 m2 Hm2).
  pose proof (days_before_year_next y1). pose proof (days_before_year_next y2).
  destruct (Z.lt_trichotomy y1 y2) as [Hy|[<-|Hy]].
  - pose proof (days_before_year_mono (y1 + 1) y2). lia.
  - destruct (Z.lt_trichotomy m1 m2) as [Hm|[<-|Hm]].
    + pose proof (days_before_month_mono y1 m1 m2). lia.
    + lia.
    + pose proof (days_before_month_mono y1 m2 m1). lia.
  - pose proof (days_before_year_mono (y2 + 1) y1). lia.
Qed.

Lemma civil_of_civil y m d : valid_date y m d -> civil_of_days (days_of_civil y m d) = (y, m, d).
Proof.
  intros Hv. destruct (civil_of_days (days_of_civil y m d)) as [[y' m'] d'] eqn:E.
  destruct (civil_roundtrip _ _ _ _ E) as [Hv' Hc].
  by destruct (civil_unique _ _ _ _ _ _ Hv' Hv Hc) as (-> & -> & ->).
Qed.

(** * Instants *)

Lemma day_of_midnight n : day_of (n * day_ns) = n.
Proof. unfold day_of. apply Z.div_mul. by vm_compute. Qed.

Lemma day_ns_pos : 0 < day_ns.
Proof. by vm_compute. Qed.

(** An instant lies between two midnights iff its day does between the days. *)
Lemma day_window a b t : a * day_ns <= t < b * day_ns <-> a <= day_of t < b.
Proof.
  unfold day_of. pose proof day_ns_pos.
  pose proof (Z.div_mod t day_ns ltac:(lia)). pose proof (Z.mod_pos_bound t day_ns ltac:(lia)). nia.
Qed.

Lemma AddDate_midnight y m d dy dm dd :
  valid_date y m d -> AddDate (Date y m d) dy dm dd = Date (y + dy) (m + dm) (d + dd).
Proof.
  intros Hv. unfold AddDate, Date. rewrite day_of_midnight, civil_of_civil by done.
  rewrite Z.mod_mul by (pose proof day_ns_pos; lia). lia.
Qed.

(** The first of the month after [k] months. *)
Lemma valid_first y m : 1 <= m <= 12 -> valid_date y m 1.
Proof.
  intros Hm. split; [done|]. split; [lia|].
  assert (Hin : m ∈ months) by (by apply month_cases). unfold months in Hin. set_unfold in Hin.
  unfold days_in_month. destruct (leap y && (m =? 2)); repeat (destruct Hin as [->|Hin]; [simpl; lia|]); lia.
Qed.

(** * Months in sequence *)

(** Months are numbered from January of year 0. *)
Definition first_of (M : Z) : Z := days_of_civil (M / 12) (M mod 12 + 1) 1.

Definition month_index (n : Z) : Z := let '(y, m, _) := civil_of_days n in 12 * y + (m - 1).

Lemma days_of_civil_first y m d : days_of_civil y m d = first_of (12 * y + (m - 1)) + (d - 1).
Proof.
  unfold first_of, days_of_civil.
  replace ((12 * y + (m - 1)) mod 12 + 1 - 1) with ((m - 1) mod 12) by lia_mod.
  rewrite Z.mod_mod by lia. rewrite (Z.div_small ((m - 1) mod 12)) by (apply Z.mod_pos_bound; lia).
  replace ((12 * y + (m - 1)) / 12 + 0) with (y + (m - 1) / 12) by lia_mod. lia.
Qed.

Lemma first_of_next M :
  first_of (M + 1) = first_of M + days_in_month (M / 12) (M mod 12 + 1).
Proof.
  unfold first_of. assert (HM : 0 <= M mod 12 < 12) by (apply Z.mod_pos_bound; lia).
  destruct (decide (M mod 12 = 11)) as [He|Hne].
  - replace ((M + 1) / 12) with (M / 12 + 1) by lia_mod.
    replace ((M + 1) mod 12) with 0 by lia_mod. rewrite He.
    rewrite !days_of_civil_plain by lia. rewrite days_before_year_next.
    change (11 + 1) with 12. change (0 + 1) with 1.
    pose proof (month_last (M / 12)).
    replace (days_before_month (leap (M / 12 + 1)) 1) with 0 by (by destruct (leap (M / 12 + 1))). lia.
  - replace ((M + 1) / 12) with (M / 12) by lia_mod.
    replace ((M + 1) mod 12) with (M mod 12 + 1) by lia_mod.
    rewrite !days_of_civil_plain by lia. rewrite month_next by lia. lia.
Qed.

Lemma first_of_mono M k : 0 <= k -> first_of M + k <= first_of (M + k).
Proof.
  intros Hk. pattern k. apply natlike_ind; [by rewrite !Z.add_0_r|clear k Hk|done].
  intros k Hk IH. replace (M + Z.succ k) with (M + k + 1) by lia. rewrite first_of_next.
  destruct (valid_first ((M + k) / 12) ((M + k) mod 12 + 1)) as [_ Hd];
    [pose proof (Z.mod_pos_bound (M + k) 12); lia|]. lia.
Qed.

Lemma month_index_spec n : first_of (month_index n) <= n < first_of (month_index n + 1).
Proof.
  unfold month_index. destruct (civil_of_days n) as [[y m] d] eqn:E.
  destruct (civil_roundtrip _ _ _ _ E) as [[Hm Hd] Hc].
  rewrite days_of_civil_first in Hc. rewrite first_of_next.
  replace ((12 * y + (m - 1)) / 12) with y by lia_mod.
  replace ((12 * y + (m - 1)) mod 12 + 1) with m by lia_mod. lia.
Qed.

(** A day lies in a run of months iff its month does. *)
Lemma month_window M M' n : first_of M <= n < first_of M' <-> M <= month_index n < M'.
Proof.
  pose proof (month_index_spec n) as Hn. split.
  - intros H. split.
    + destruct (Z.le_gt_cases M (month_index n)) as [|Hlt]; [done|].
      pose proof (first_of_mono (month_index n + 1) (M - (month_index n + 1))).
      replace (month_index n + 1 + (M - (month_index n + 1))) with M in * by lia. lia.
    + destruct (Z.lt_ge_cases (month_index n) M') as [|Hge]; [done|].
      pose proof (first_of_mono M' (month_index n - M')).
      replace (M' + (month_index n - M')) with (month_index n) in * by lia. lia.
  - intros H. split.
    + pose proof (first_of_mono M (month_index n - M)).
      replace (M + (month_index n - M)) with (month_index n) in * by lia. lia.
    + pose proof (first_of_mono (month_index n + 1) (M' - (month_index n + 1))).
      replace (month_index n + 1 + (M' - (month_index n + 1))) with M' in * by lia. lia.
Qed.

Lemma month_index_first M : month_index (first_of M) = M.
Proof.
  pose proof (proj1 (month_window M (M + 1) (first_of M))) as H.
  pose proof (first_of_mono M 1). lia.
Qed.

Lemma civil_first M : civil_of_days (first_of M) = (M / 12, M mod 12 + 1, 1).
Proof. apply civil_of_civil, valid_first. pose proof (Z.mod_pos_bound M 12). lia. Qed.

(** Adding days to a midnight. *)
Lemma AddDate_days n k : AddDate (n * day_ns) 0 0 k = (n + k) * day_ns.
Proof.
  unfold AddDate, Date. rewrite day_of_midnight. destruct (civil_of_days n) as [[y m] d] eqn:E.
  destruct (civil_roundtrip _ _ _ _ E) as [_ Hc]. rewrite !Z.add_0_r.
  rewrite Z.mod_mul by (pose proof day_ns_pos; lia).
  rewrite days_of_civil_first in *. nia.
Qed.

(** Adding months to the first of a month. *)
Lemma AddDate_months M dy k :
  AddDate (first_of M * day_ns) dy k 0 = first_of (M + 12 * dy + k) * day_ns.
Proof.
  unfold AddDate, Date. rewrite day_of_midnight, civil_first, days_of_civil_first.
  rewrite Z.mod_mul by (pose proof day_ns_pos; lia).
  replace (12 * (M / 12 + dy) + (M mod 12 + 1 + k - 1)) with (M + 12 * dy + k) by lia_mod. lia.
Qed.

(** * Parsing durations *)

(** [leadingInt]: the value of the leading digits and the rest, [None] on
    overflow. *)
Fixpoint leadingInt (l : list Z) (x : Z) : option (Z * list Z) :=
  match l with
  | [] => Some (x, [])
  | c :: l' =>
      if negb (in_range 48 57 c) then Some (x, l)
      else if 2 ^ 63 / 10 <? x then None
      else let x' := x * 10 + (c - 48) in if 2 ^ 63 <? x' then None else leadingInt l' x'
  end.

(** [leadingFraction]: the digits that fit, their scale, and the rest. *)
Fixpoint leadingFraction (l : list Z) (x : Z) (scale : float64) (overflow : bool) : Z * float64 * list Z :=
  match l with
  | [] => (x, scale, [])
  | c :: l' =>
      if negb (in_range 48 57 c) then (x, scale, l)
      else if overflow then leadingFraction l' x scale true
      else if (2 ^ 63 - 1) / 10 <? x then leadingFraction l' x scale true
      else let y := x * 10 + (c - 48) in
           if 2 ^ 63 <? y then leadingFraction l' x scale true
           else leadingFraction l' y (f64_mul scale (f64_of_Z 10)) false
  end.

Definition unit_of (u : list Z) : option Z :=
  if bool_decide (u = [110; 115]) then Some 1
  else if bool_decide (u = [117; 115]) || bool_decide (u = [194; 181; 115]) || bool_decide (u = [206; 188; 115]) then Some Microsecond
  else if bool_decide (u = [109; 115]) then Some Millisecond
  else if bool_decide (u = [115]) then Some Second
  else if bool_decide (u = [109]) then Some Minute
  else if bool_decide (u = [104]) then Some Hour
  else None.

(** The unit: everything up to a digit or a point. *)
Fixpoint span_unit (l : list Z) : list Z * list Z :=
  match l with
  | [] => ([], [])
  | c :: l' => if (c =? 46) || in_range 48 57 c then ([], l) else let '(u, r) := span_unit l' in (c :: u, r)
  end.

(** The terms of a duration, added to [d]; every term consumes its unit. *)
Fixpoint duration_terms (fuel : nat) (l : list Z) (d : Z) : option Z :=
  match l, fuel with
  | [], _ => Some d
  | _, O => None
  | c :: l0, S n =>
      if negb ((c =? 46) || in_range 48 57 c) then None
      else match leadingInt l 0 with
           | None => None
           | Some (v, l1) =>
               let pre := negb (Nat.eqb (length l1) (length l)) in
               let '(f, scale, l2, post) :=
                 match l1 with
                 | 46 :: l1' => let '(f, scale, l2) := leadingFraction l1' 0 f64_one false in
                                (f, scale, l2, negb (Nat.eqb (length l2) (length l1')))
                 | _ => (0, f64_one, l1, false)
                 end in
               if negb pre && negb post then None
               else
                 let '(u, l3) := span_unit l2 in
                 match u, unit_of u with
                 | [], _ | _, None => None
                 | _, Some unit =>
                     if 2 ^ 63 / unit <? v then None
                     else
                       let v := v * unit + (if 0 <? f then f64_trunc (f64_mul (f64_of_Z f) (f64_div (f64_of_Z unit) scale)) else 0) in
                       if 2 ^ 63 <? v then None
                       else if 2 ^ 63 <? d + v then None else duration_terms n l3 (d + v)
                 end
           end
  end.

Definition ParseDuration (s : string) : option Z :=
  let '(neg, l) := match bytes s with
                   | 45 :: l => (true, l)
                   | 43 :: l => (false, l)
                   | l => (false, l)
                   end in
  if bool_decide (l = [48]) then Some 0
  else match l with
       | [] => None
       | _ => match duration_terms (length l) l 0 with
              | None => None
              | Some d => if neg then Some (- d) else if 2 ^ 63 - 1 <? d then None else Some d
              end
       end.

Lemma leadingInt_len l x v r : leadingInt l x = Some (v, r) -> (length r <= length l)%nat.
Proof.
  revert x. induction l as [|c l IH]; intros x; cbn; [by intros [= <- <-]|].
  repeat case_match; try done; [by intros [= <- <-]|]. intros ?%IH. lia.
Qed.

Lemma leadingFraction_len l x sc o f sc' r : leadingFraction l x sc o = (f, sc', r) -> (length r <= length l)%nat.
Proof.
  revert x sc o. induction l as [|c l IH]; intros x sc o; cbn; [by intros [= <- <- <-]|].
  repeat case_match; try (intros ?%IH; lia). by intros [= <- <- <-].
Qed.

Lemma span_unit_len l u r : span_unit l = (u, r) -> (length u + length r = length l)%nat.
Proof.
  revert u r. induction l as [|c l IH]; intros u r; cbn; [by intros [= <- <-]|].
  destruct (_ || _); [by intros [= <- <-]|]. destruct (span_unit l) as [u' r']. intros [= <- <-]. cbn. by rewrite (IH u' r').
Qed.

(** Each term consumes its unit, so the length of the text is fuel enough. *)
Lemma duration_terms_fuel n m l d : (length l <= n)%nat -> (length l <= m)%nat -> duration_terms n l d = duration_terms m l d.
Proof.
  revert m l d. induction n as [|n IH]; intros m l d Hn Hm.
  { destruct l; [by destruct m|cbn in Hn; lia]. }
  destruct l as [|c l]; [by destruct m|]. destruct m as [|m]; [cbn in Hm; lia|]. cbn [duration_terms].
  destruct (negb _); [done|]. destruct (leadingInt _ _) as [[v l1]|] eqn:E1; [|done]. apply leadingInt_len in E1.
  set (X := match l1 with [] => _ | _ :: _ => _ end).
  assert (HX : (length X.1.2 <= length l1)%nat).
  { unfold X. repeat case_match; cbn; try lia. all: match goal with H : leadingFraction _ _ _ _ = _ |- _ => apply leadingFraction_len in H; lia end. }
  destruct X as [[[f sc] l2] post]. cbn in HX. destruct (_ && _); [done|].
  destruct (span_unit l2) as [u l3] eqn:Eu. apply span_unit_len in Eu.
  destruct u as [|b u]; [by destruct (unit_of [])|]. destruct (unit_of _); [|done].
  destruct (_ <? _); [done|]. destruct (_ <? _); [done|]. destruct (_ <? _); [done|]. cbn in *. apply IH; lia.
Qed.

Example ParseDuration_examples :
  ParseDuration "1h15m30.918s" = Some (4530918 * Millisecond) /\ ParseDuration "-1.5h" = Some (- (90 * Minute)) /\
  ParseDuration "5" = None /\ ParseDuration "0" = Some 0 /\ ParseDuration ".5s" = Some (500 * Millisecond) /\
  ParseDuration "9223372036854775807ns" = Some int64_max /\ ParseDuration "9223372036854775808ns" = None /\
  ParseDuration "1s s" = None /\ ParseDuration "." = None.
Proof. vm_compute. repeat split. Qed.
