(* ===== verification/GoNet.v ===== *)
(** The parts of Go's package [net] that the egress guard uses: addresses as
    byte slices, CIDR blocks and their textual form, host:port splitting.

    An [IP] is a byte slice of any length, as in Go: 4 bytes, 16 bytes, or
    malformed.  [ParseCIDR] covers dotted decimal and the colon notation with
    one [::]; zones and a dotted tail do not occur in the program's literals
    and are refused. *)

From S2P Require Import Prelude GoStrings.

Local Open Scope Z_scope.

Definition IP : Type := list Z.
Definition IPv4len : nat := 4.
Definition IPv6len : nat := 16.

Definition well_formed_bytes (ip : IP) : Prop := Forall (fun b => 0 <= b < 256) ip.

Definition v4InV6Prefix : list Z := [0; 0; 0; 0; 0; 0; 0; 0; 0; 0; 255; 255].

(** [IP.To4] *)
Definition To4 (ip : IP) : option IP :=
  if (length ip =? IPv4len)%nat then Some ip
  else if (length ip =? IPv6len)%nat && bool_decide (take 12 ip = v4InV6Prefix)
  then Some (drop 12 ip)
  else None.

(** [net.IPv4] *)
Definition IPv4 (a b c d : Z) : IP := v4InV6Prefix ++ [a; b; c; d].

(** [IP.IsLinkLocalMulticast] *)
Definition IsLinkLocalMulticast (ip : IP) : bool :=
  match To4 ip with
  | Some (a :: b :: c :: _) => (a =? 224) && (b =? 0) && (c =? 0)
  | Some _ => false
  | None =>
      match ip with
      | a :: b :: _ => (length ip =? IPv6len)%nat && (a =? 255) && (Z.land b 15 =? 2)
      | _ => false
      end
  end.

(** * CIDR blocks *)

Record IPNet := mkIPNet { net_IP : IP; net_Mask : list Z }.

(** [CIDRMask(ones, 8 * n)] *)
Fixpoint CIDRMask (ones : Z) (n : nat) : list Z :=
  match n with
  | O => []
  | S n' =>
      (if 8 <=? ones then 255 else if ones <=? 0 then 0 else 256 - 2 ^ (8 - ones))
      :: CIDRMask (ones - 8) n'
  end.

Definition mask_with (ip m : list Z) : list Z := zip_with Z.land ip m.

(** [networkNumberAndMask] *)
Definition networkNumberAndMask (n : IPNet) : option (IP * list Z) :=
  let '(ip, ok) :=
    match To4 (net_IP n) with
    | Some v4 => (v4, true)
    | None => (net_IP n, (length (net_IP n) =? IPv6len)%nat)
    end in
  let m := net_Mask n in
  if negb ok then None
  else if (length m =? IPv4len)%nat then
    if (length ip =? IPv4len)%nat then Some (ip, m) else None
  else if (length m =? IPv6len)%nat then
    if (length ip =? IPv4len)%nat then Some (ip, drop 12 m) else Some (ip, m)
  else None.

(** [IPNet.Contains]; without a network number the lengths never agree. *)
Definition Contains_ip (n : IPNet) (ip : IP) : bool :=
  let ip := default ip (To4 ip) in
  match networkNumberAndMask n with
  | Some (nn, m) =>
      (length ip =? length nn)%nat && bool_decide (mask_with nn m = mask_with ip m)
  | None => (length ip =? 0)%nat
  end.

(** * Textual form *)

Fixpoint map_option {A B} (f : A -> option B) (l : list A) : option (list B) :=
  match l with
  | [] => Some []
  | x :: l' =>
      match f x, map_option f l' with
      | Some y, Some ys => Some (y :: ys)
      | _, _ => None
      end
  end.

(** One decimal field of an IPv4 address: 1 to 3 digits, no leading zero, at
    most 255. *)
Definition parse_field4 (s : string) : option Z :=
  if is_digits s && (1 <=? len s)%nat && (len s <=? 3)%nat
     && negb ((2 <=? len s)%nat && HasPrefix s "0") && (decimal_value s <=? 255)
  then Some (decimal_value s) else None.

Definition parseIPv4 (s : string) : option IP :=
  match map_option parse_field4 (Split s ".") with
  | Some [a; b; c; d] => Some [a; b; c; d]
  | _ => None
  end.

Definition hex_digit_val (b : Z) : option Z :=
  if in_range 48 57 b then Some (b - 48)
  else if in_range 97 102 b then Some (b - 87)
  else if in_range 65 70 b then Some (b - 55)
  else None.

(** One 16-bit group: 1 to 4 hexadecimal digits, as two bytes. *)
Definition parse_group (s : string) : option (list Z) :=
  match map_option hex_digit_val (bytes s) with
  | Some ds =>
      if (1 <=? length ds)%nat && (length ds <=? 4)%nat
      then let v := foldl (fun acc d => acc * 16 + d) 0 ds in Some [v / 256; v mod 256]
      else None
  | None => None
  end.

Definition parse_groups (s : string) : option (list Z) :=
  if str_eqb s "" then Some []
  else option_map (@concat Z) (map_option parse_group (Split s ":")).

Definition parseIPv6 (s : string) : option IP :=
  match Index s "::" with
  | Some i =>
      match parse_groups (slice s 0 i), parse_groups (slice s (i + 2) (len s)) with
      | Some hd, Some tl =>
          if (length hd + length tl <=? 14)%nat
          then Some (hd ++ replicate (16 - length hd - length tl) 0 ++ tl)
          else None
      | _, _ => None
      end
  | None =>
      match parse_groups s with
      | Some g => if (length g =? 16)%nat then Some g else None
      | None => None
      end
  end.

(** [net.ParseCIDR]: the network of the block. *)
Definition ParseCIDR (s : string) : option IPNet :=
  match Index s "/" with
  | None => None
  | Some i =>
      let addr := slice s 0 i in
      let mask := slice s (i + 1) (len s) in
      let ip := if Contains addr ":" then parseIPv6 addr else parseIPv4 addr in
      match ip with
      | None => None
      | Some ip =>
          let n := decimal_value mask in
          if is_digits mask && negb (str_eqb mask "") && (n <=? 8 * Z.of_nat (length ip))
          then let m := CIDRMask n (length ip) in Some (mkIPNet (mask_with ip m) m)
          else None
      end
  end.

(** * host:port *)

Inductive AddrError :=
| missingPort | tooManyColons | missingBracket | unexpectedOpen | unexpectedClose.

(** [net.SplitHostPort] *)
Definition SplitHostPort (hostport : string) : result AddrError (string * string) :=
  match LastIndex hostport ":" with
  | None => Err missingPort
  | Some i =>
      let finish (host : string) (j k : nat) :=
        if Contains (slice hostport j (len hostport)) "[" then Err unexpectedOpen
        else if Contains (slice hostport k (len hostport)) "]" then Err unexpectedClose
        else Ok (host, slice hostport (i + 1) (len hostport)) in
      if HasPrefix hostport "[" then
        match Index hostport "]" with
        | None => Err missingBracket
        | Some e =>
            if (e + 1 =? len hostport)%nat then Err missingPort
            else if (e + 1 =? i)%nat then finish (slice hostport 1 e) 1%nat (e + 1)%nat
            else if bool_decide (byte_at hostport (e + 1) = Some 58) then Err tooManyColons
            else Err missingPort
        end
      else
        let host := slice hostport 0 i in
        if Contains host ":" then Err tooManyColons else finish host 0%nat 0%nat
  end.

(** * Examples *)

Example cidr4 : ParseCIDR "172.16.0.0/12" = Some (mkIPNet [172; 16; 0; 0] [255; 240; 0; 0]).
Proof. vm_compute. reflexivity. Qed.
Example cidr6 :
  ParseCIDR "2001:db8::/32" =
    Some (mkIPNet [32; 1; 13; 184; 0; 0; 0; 0; 0; 0; 0; 0; 0; 0; 0; 0]
                  [255; 255; 255; 255; 0; 0; 0; 0; 0; 0; 0; 0; 0; 0; 0; 0]).
Proof. vm_compute. reflexivity. Qed.
Example cidr_bad : ParseCIDR "10.0.0.256/8" = None /\ ParseCIDR "10.0.0.0/33" = None.
Proof. vm_compute. done. Qed.
Example split_plain : SplitHostPort "db.internal:5432" = Ok ("db.internal", "5432").
Proof. vm_compute. reflexivity. Qed.
Example split_v6 : SplitHostPort "[::1]:80" = Ok ("::1", "80").
Proof. vm_compute. reflexivity. Qed.
Example split_bare_v6 : SplitHostPort "::1:80" = Err tooManyColons.
Proof. vm_compute. reflexivity. Qed.
Example mapped_is_v4 : To4 (IPv4 127 0 0 1) = Some [127; 0; 0; 1].
Proof. reflexivity. Qed.

(** * Masks as intervals *)

(** The value of an address as a big-endian number. *)
Definition ip_value (ip : IP) : Z := foldl (fun acc b => acc * 256 + b) 0 ip.

(** Masking a byte with a mask byte of [k] leading ones keeps the quotient by
    [2^(8-k)]. *)
Lemma land_mask_byte b x k :
  0 <= k <= 8 -> 0 <= b < 256 -> 0 <= x < 256 ->
  Z.land x (256 - 2 ^ (8 - k)) = Z.land b (256 - 2 ^ (8 - k)) <->
  x / 2 ^ (8 - k) = b / 2 ^ (8 - k).
Proof.
  intros Hk Hb Hx.
  assert (Hland : forall y, 0 <= y < 256 ->
            Z.land y (256 - 2 ^ (8 - k)) = y / 2 ^ (8 - k) * 2 ^ (8 - k)).
  { intros y Hy.
    assert (Hall : forallb (fun k => forallb (fun y =>
              Z.land y (256 - 2 ^ (8 - k)) =? y / 2 ^ (8 - k) * 2 ^ (8 - k))
              (seqZ 0 256)) (seqZ 0 9) = true) by (vm_compute; reflexivity).
    rewrite forallb_forall in Hall.
    specialize (Hall k). rewrite forallb_forall in Hall.
    apply Z.eqb_eq, Hall; apply list_elem_of_In, elem_of_seqZ; lia. }
  rewrite !Hland by done.
  assert (0 < 2 ^ (8 - k)) by (apply Z.pow_pos_nonneg; lia). split; [|by intros ->].
  intros HE. apply Z.mul_reg_r in HE; lia.
Qed.

Lemma foldl_value acc l :
  foldl (fun acc b => acc * 256 + b) acc l = acc * 256 ^ Z.of_nat (length l) + ip_value l.
Proof.
  unfold ip_value. revert acc. induction l as [|b l IH]; intros acc; simpl.
  - rewrite Z.pow_0_r. lia.
  - rewrite (IH (acc * 256 + b)), (IH (0 * 256 + b)), Nat2Z.inj_succ, Z.pow_succ_r by lia.
    lia.
Qed.

Lemma ip_value_cons b l : ip_value (b :: l) = b * 256 ^ Z.of_nat (length l) + ip_value l.
Proof. unfold ip_value at 1. simpl. apply foldl_value. Qed.

Lemma pow256 (n : nat) : 256 ^ Z.of_nat n = 2 ^ (8 * Z.of_nat n).
Proof. by rewrite Z.pow_mul_r by lia. Qed.

Lemma ip_value_range l :
  well_formed_bytes l -> 0 <= ip_value l < 2 ^ (8 * Z.of_nat (length l)).
Proof.
  induction 1 as [|b l Hb Hl IH]; [done|].
  rewrite ip_value_cons. simpl length. rewrite <- !pow256 in *.
  rewrite Nat2Z.inj_succ, Z.pow_succ_r by lia. nia.
Qed.

Lemma zero_mask n ones l l' :
  ones <= 0 -> length l = n -> length l' = n ->
  mask_with l (CIDRMask ones n) = mask_with l' (CIDRMask ones n).
Proof.
  revert ones l l'. induction n as [|n IH]; intros ones [|x l] [|y l'] Ho; simpl; try done.
  intros [= Hl] [= Hl']. unfold mask_with in *. simpl.
  destruct (Z.leb_spec 8 ones); [lia|]. destruct (Z.leb_spec ones 0); [|lia].
  rewrite !Z.land_0_r. f_equal. apply IH; [lia|done..].
Qed.

(** Quotients of a two-part number by a power of two. *)
Lemma quot_split_low b v L e :
  0 <= e <= L -> 0 <= v < 2 ^ L ->
  (b * 2 ^ L + v) / 2 ^ e = b * 2 ^ (L - e) + v / 2 ^ e /\ 0 <= v / 2 ^ e < 2 ^ (L - e).
Proof.
  intros He Hv.
  assert (Hp : 0 < 2 ^ e) by (apply Z.pow_pos_nonneg; lia).
  assert (HL : 2 ^ L = 2 ^ (L - e) * 2 ^ e) by (rewrite <- Z.pow_add_r by lia; f_equal; lia).
  split.
  - rewrite HL, Z.mul_assoc, Z.add_comm, Z.div_add by lia. lia.
  - split; [apply Z.div_pos; lia|]. apply Z.div_lt_upper_bound; lia.
Qed.

Lemma quot_split_high b v L k :
  0 <= L -> 0 <= k -> 0 <= v < 2 ^ L -> (b * 2 ^ L + v) / 2 ^ (L + k) = b / 2 ^ k.
Proof.
  intros HL Hk Hv. rewrite Z.pow_add_r by lia.
  rewrite <- Z.div_div by (try apply Z.pow_nonzero; try apply Z.pow_pos_nonneg; lia).
  f_equal. rewrite Z.add_comm, Z.div_add by (apply Z.pow_nonzero; lia).
  rewrite Z.div_small by lia. lia.
Qed.

(** Two addresses agree under a prefix mask exactly when their values have the
    same quotient by the size of the block. *)
Lemma mask_quotient n ones l l' :
  0 <= ones <= 8 * Z.of_nat n ->
  length l = n -> length l' = n -> well_formed_bytes l -> well_formed_bytes l' ->
  mask_with l (CIDRMask ones n) = mask_with l' (CIDRMask ones n) <->
  ip_value l / 2 ^ (8 * Z.of_nat n - ones) = ip_value l' / 2 ^ (8 * Z.of_nat n - ones).
Proof.
  revert ones l l'. induction n as [|n IH]; intros ones [|x l] [|y l'] Ho; try done.
  intros [= Hl] [= Hl'] [Hx Hwl]%Forall_cons [Hy Hwl']%Forall_cons.
  pose proof (ip_value_range l Hwl) as Rl. pose proof (ip_value_range l' Hwl') as Rl'.
  rewrite !ip_value_cons, !pow256. rewrite Hl, Hl' in *.
  unfold mask_with in *. cbn [CIDRMask zip_with]. destruct (Z.leb_spec 8 ones) as [H8|H8].
  - specialize (IH (ones - 8) l l' ltac:(lia) Hl Hl' Hwl Hwl').
    replace (8 * Z.of_nat (S n) - ones) with (8 * Z.of_nat n - (ones - 8)) by lia.
    set (e := 8 * Z.of_nat n - (ones - 8)) in *.
    destruct (quot_split_low x (ip_value l) (8 * Z.of_nat n) e) as [-> Bx]; [lia..|].
    destruct (quot_split_low y (ip_value l') (8 * Z.of_nat n) e) as [-> By]; [lia..|].
    assert (H255 : forall z, 0 <= z < 256 -> Z.land z 255 = z).
    { intros z Hz. change 255 with (Z.ones 8). rewrite Z.land_ones by lia.
      apply Z.mod_small. lia. }
    rewrite !H255 by done. split.
    + intros [= -> HE%IH]. by rewrite HE.
    + intros HE. assert (x = y) as -> by nia. f_equal. apply IH. lia.
  - replace (8 * Z.of_nat (S n) - ones) with (8 * Z.of_nat n + (8 - ones)) by lia.
    rewrite !quot_split_high by lia.
    pose proof (zero_mask n (ones - 8) l l' ltac:(lia) Hl Hl') as Hz.
    unfold mask_with in Hz. rewrite Hz.
    destruct (Z.leb_spec ones 0) as [H0|H0].
    + assert (ones = 0) as -> by lia. rewrite !Z.land_0_r. split; [|done].
      intros _. rewrite !Z.div_small by (simpl; lia). done.
    + rewrite <- (land_mask_byte y x ones) by lia. split; [by intros [= ->]|].
      by intros ->.
Qed.

(** A block as an interval of addresses. *)
Definition block_contains (lo : Z) (host_bits : Z) (ip : IP) : bool :=
  (lo <=? ip_value ip) && (ip_value ip <? lo + 2 ^ host_bits).

Lemma quotient_interval v lo e :
  0 <= e -> lo mod 2 ^ e = 0 -> v / 2 ^ e = lo / 2 ^ e <-> lo <= v < lo + 2 ^ e.
Proof.
  intros He Hm. assert (0 < 2 ^ e) by (apply Z.pow_pos_nonneg; lia).
  pose proof (Z.div_mod lo (2 ^ e) ltac:(lia)). split.
  - intros HE. pose proof (Z.div_mod v (2 ^ e) ltac:(lia)).
    pose proof (Z.mod_pos_bound v (2 ^ e) ltac:(lia)). nia.
  - intros Hv. symmetry. apply (Z.div_unique _ _ _ (v - lo)); nia.
Qed.

(** [Contains] on an address of the family of a block whose network number is
    aligned, which is how [ParseCIDR] builds it. *)
Lemma Contains_interval n ones nn ip :
  networkNumberAndMask n = Some (nn, CIDRMask ones (length nn)) ->
  0 <= ones <= 8 * Z.of_nat (length nn) -> well_formed_bytes nn ->
  ip_value nn mod 2 ^ (8 * Z.of_nat (length nn) - ones) = 0 ->
  default ip (To4 ip) = ip -> well_formed_bytes ip -> length ip = length nn ->
  Contains_ip n ip = block_contains (ip_value nn) (8 * Z.of_nat (length nn) - ones) ip.
Proof.
  intros Hn Ho Hwn Hal H4 Hwi Hlen. unfold Contains_ip. rewrite H4, Hn, Hlen, Nat.eqb_refl.
  unfold block_contains. apply eq_true_iff_eq.
  rewrite andb_true_l, bool_decide_eq_true, mask_quotient by done.
  rewrite andb_true_iff, Z.leb_le, Z.ltb_lt, <- quotient_interval by (done || lia).
  split; intros; congruence.
Qed.
