(* ===== verification/GoBase64.v ===== *)
(** [encoding/base64]: the four encodings the program uses, with their round
    trip.  Decoding follows [Encoding.DecodeString]: line breaks are skipped,
    padding must be exact for the padded dialects and absent from the raw ones,
    and the unused low bits of the last symbol are not checked (the encodings
    are not strict). *)

From S2P Require Import Prelude GoStrings.

Local Open Scope Z_scope.

Record Encoding := mkEncoding { enc_url : bool; enc_pad : bool }.

Definition StdEncoding : Encoding := mkEncoding false true.
Definition RawStdEncoding : Encoding := mkEncoding false false.
Definition URLEncoding : Encoding := mkEncoding true true.
Definition RawURLEncoding : Encoding := mkEncoding true false.

Definition pad_byte : Z := 61.

(** The alphabet: A-Z a-z 0-9 and two symbols. *)
Definition enc_symbol (e : Encoding) (v : Z) : Z :=
  if v <? 26 then 65 + v
  else if v <? 52 then 71 + v
  else if v <? 62 then v - 4
  else if v =? 62 then (if enc_url e then 45 else 43)
  else (if enc_url e then 95 else 47).

Definition dec_symbol (e : Encoding) (b : Z) : option Z :=
  if in_range 65 90 b then Some (b - 65)
  else if in_range 97 122 b then Some (b - 71)
  else if in_range 48 57 b then Some (b + 4)
  else if b =? (if enc_url e then 45 else 43) then Some 62
  else if b =? (if enc_url e then 95 else 47) then Some 63
  else None.

Definition pad (e : Encoding) (n : nat) : list Z := if enc_pad e then replicate n pad_byte else [].

(** [EncodeToString] *)
Fixpoint encode_bytes (e : Encoding) (l : list Z) : list Z :=
  match l with
  | a :: b :: c :: l' =>
      enc_symbol e (a / 4) :: enc_symbol e (a mod 4 * 16 + b / 16)
      :: enc_symbol e (b mod 16 * 4 + c / 64) :: enc_symbol e (c mod 64) :: encode_bytes e l'
  | [a; b] =>
      [enc_symbol e (a / 4); enc_symbol e (a mod 4 * 16 + b / 16); enc_symbol e (b mod 16 * 4)]
      ++ pad e 1
  | [a] => [enc_symbol e (a / 4); enc_symbol e (a mod 4 * 16)] ++ pad e 2
  | [] => []
  end.

Definition EncodeToString (e : Encoding) (l : list Z) : string := of_bytes (encode_bytes e l).

(** The last quantum: two or three symbols and the padding of the dialect. *)
Definition decode_tail (e : Encoding) (l : list Z) : option (list Z) :=
  match l with
  | x :: y :: l' =>
      match dec_symbol e x, dec_symbol e y with
      | Some x, Some y =>
          if bool_decide (l' = pad e 2) then Some [x * 4 + y / 16]
          else match l' with
               | z :: l'' =>
                   match dec_symbol e z with
                   | Some z =>
                       if bool_decide (l'' = pad e 1)
                       then Some [x * 4 + y / 16; y mod 16 * 16 + z / 4] else None
                   | None => None
                   end
               | [] => None
               end
      | _, _ => None
      end
  | _ => None
  end.

Fixpoint decode_bytes (e : Encoding) (l : list Z) : option (list Z) :=
  match l with
  | [] => Some []
  | x :: y :: z :: w :: l' =>
      match dec_symbol e x, dec_symbol e y, dec_symbol e z, dec_symbol e w with
      | Some x, Some y, Some z, Some w =>
          match decode_bytes e l' with
          | Some r => Some (x * 4 + y / 16 :: y mod 16 * 16 + z / 4 :: z mod 4 * 64 + w :: r)
          | None => None
          end
      | _, _, _, _ => decode_tail e l
      end
  | _ => decode_tail e l
  end.

Definition not_newline (b : Z) : bool := negb (b =? 10) && negb (b =? 13).

(** [DecodeString] *)
Definition DecodeString (e : Encoding) (s : string) : option (list Z) :=
  decode_bytes e (List.filter not_newline (bytes s)).

Example base64_ex : EncodeToString StdEncoding [77; 97; 110; 33] = "TWFuIQ==".
Proof. vm_compute. reflexivity. Qed.
Example base64_url_ex : DecodeString RawURLEncoding "__8" = Some [255; 255].
Proof. vm_compute. reflexivity. Qed.
Example base64_std_ex : DecodeString StdEncoding "__8" = None.
Proof. vm_compute. reflexivity. Qed.

(** * Round trip *)

Lemma six_bits v : 0 <= v < 64 -> v ∈ seqZ 0 64.
Proof. intros. apply elem_of_seqZ. lia. Qed.

Lemma dec_enc_symbol e v : 0 <= v < 64 -> dec_symbol e (enc_symbol e v) = Some v.
Proof.
  intros Hv.
  assert (H : forallb (fun v => bool_decide (dec_symbol e (enc_symbol e v) = Some v)) (seqZ 0 64) = true)
    by (destruct e as [[] []]; vm_compute; reflexivity).
  rewrite forallb_forall in H.
  exact (proj1 (bool_decide_eq_true _) (H v (proj1 (list_elem_of_In _ _) (six_bits v Hv)))).
Qed.

Lemma enc_symbol_byte e v :
  0 <= v < 64 -> (0 <= enc_symbol e v < 256) /\ not_newline (enc_symbol e v) = true /\
    enc_symbol e v <> pad_byte.
Proof.
  intros Hv. unfold enc_symbol, not_newline, pad_byte.
  destruct (enc_url e); repeat case_match; lia.
Qed.

Lemma pad_not_symbol e : dec_symbol e pad_byte = None.
Proof. by destruct e as [[] []]. Qed.

(** Sextets of bytes. *)
Lemma sextets a b c :
  0 <= a < 256 -> 0 <= b < 256 -> 0 <= c < 256 ->
  0 <= a / 4 < 64 /\ 0 <= a mod 4 * 16 + b / 16 < 64 /\
  0 <= b mod 16 * 4 + c / 64 < 64 /\ 0 <= c mod 64 < 64 /\
  a / 4 * 4 + (a mod 4 * 16 + b / 16) / 16 = a /\
  (a mod 4 * 16 + b / 16) mod 16 * 16 + (b mod 16 * 4 + c / 64) / 4 = b /\
  (b mod 16 * 4 + c / 64) mod 4 * 64 + c mod 64 = c.
Proof. intros. lia_mod. Qed.

Lemma bytes_ind3 (P : list Z -> Prop) :
  P [] -> (forall a, P [a]) -> (forall a b, P [a; b]) ->
  (forall a b c l, P l -> P (a :: b :: c :: l)) -> forall l, P l.
Proof.
  intros H0 H1 H2 H3. fix IH 1. intros [|a [|b [|c l]]]; [done|apply H1|apply H2|].
  apply H3, IH.
Qed.

Lemma decode_encode_bytes e l :
  Forall (fun b => 0 <= b < 256) l -> decode_bytes e (encode_bytes e l) = Some l.
Proof.
  induction l as [|a|a b|a b c l IH] using bytes_ind3; intros Hl; [done| | |].
  - apply Forall_cons in Hl as [Ha _]. destruct (sextets a 0 0) as (S1 & S2 & _ & _ & E1 & _); [lia..|].
    rewrite Z.div_0_l, Z.add_0_r in * by lia.
    cbn [encode_bytes app]. unfold pad. destruct (enc_pad e) eqn:Ep; cbn [replicate decode_bytes].
    + rewrite !dec_enc_symbol, pad_not_symbol by done. unfold decode_tail.
      rewrite !dec_enc_symbol by done. unfold pad. rewrite Ep. cbn [replicate].
      rewrite bool_decide_eq_true_2 by done. by rewrite E1.
    + unfold decode_tail. rewrite !dec_enc_symbol by done. unfold pad. rewrite Ep.
      rewrite bool_decide_eq_true_2 by done. by rewrite E1.
  - apply Forall_cons in Hl as [Ha [Hb _]%Forall_cons].
    destruct (sextets a b 0) as (S1 & S2 & S3 & _ & E1 & E2 & _); [lia..|].
    rewrite Z.div_0_l, Z.add_0_r in * by lia.
    destruct (enc_symbol_byte e _ S3) as (_ & _ & Hnp).
    cbn [encode_bytes app]. unfold pad. destruct (enc_pad e) eqn:Ep; cbn [replicate decode_bytes].
    + rewrite !dec_enc_symbol, pad_not_symbol by done. unfold decode_tail.
      rewrite !dec_enc_symbol by done. unfold pad. rewrite Ep. cbn [replicate].
      rewrite bool_decide_eq_false_2 by congruence. rewrite bool_decide_eq_true_2 by done.
      by rewrite E1, E2.
    + unfold decode_tail. rewrite !dec_enc_symbol by done. unfold pad. rewrite Ep.
      rewrite bool_decide_eq_false_2 by done. rewrite bool_decide_eq_true_2 by done.
      by rewrite E1, E2.
  - apply Forall_cons in Hl as [Ha [Hb [Hc Hl]%Forall_cons]%Forall_cons].
    destruct (sextets a b c) as (S1 & S2 & S3 & S4 & E1 & E2 & E3); [done..|].
    cbn [encode_bytes decode_bytes]. rewrite !dec_enc_symbol by done. rewrite IH by done.
    by rewrite E1, E2, E3.
Qed.

Lemma encode_bytes_clean e l :
  Forall (fun b => 0 <= b < 256) l ->
  Forall (fun b => 0 <= b < 256 /\ not_newline b = true) (encode_bytes e l).
Proof.
  assert (Hs : forall v, 0 <= v < 64 -> 0 <= enc_symbol e v < 256 /\ not_newline (enc_symbol e v) = true)
    by (intros v Hv; destruct (enc_symbol_byte e v Hv); tauto).
  assert (Hp : forall n, Forall (fun b => 0 <= b < 256 /\ not_newline b = true) (pad e n)).
  { intros n. unfold pad. destruct (enc_pad e); [|constructor]. apply Forall_replicate. done. }
  induction l as [|a|a b|a b c l IH] using bytes_ind3; intros Hl; cbn [encode_bytes]; [constructor| | |].
  - apply Forall_cons in Hl as [Ha _]. cbn [app]. repeat constructor; try apply Hs; try apply Hp; lia_mod.
  - apply Forall_cons in Hl as [Ha [Hb _]%Forall_cons]. cbn [app].
    repeat constructor; try apply Hs; try apply Hp; lia_mod.
  - apply Forall_cons in Hl as [Ha [Hb [Hc Hl]%Forall_cons]%Forall_cons].
    destruct (sextets a b c) as (S1 & S2 & S3 & S4 & _); [done..|].
    repeat (constructor; [by apply Hs|]). by apply IH.
Qed.

Lemma filter_all {A} (p : A -> bool) l : Forall (fun x => p x = true) l -> List.filter p l = l.
Proof. induction 1 as [|x l Hx _ IH]; simpl; [done|]. by rewrite Hx, IH. Qed.

(** [DecodeString] undoes [EncodeToString] for each dialect. *)
Lemma Decode_Encode e l :
  Forall (fun b => 0 <= b < 256) l -> DecodeString e (EncodeToString e l) = Some l.
Proof.
  intros Hl. pose proof (encode_bytes_clean e l Hl) as Hc.
  unfold DecodeString, EncodeToString. rewrite bytes_of_bytes, filter_all.
  - by apply decode_encode_bytes.
  - eapply Forall_impl; [exact Hc|]. by intros ? [? ?].
  - eapply Forall_impl; [exact Hc|]. by intros ? [? ?].
Qed.
