(* ===== verification/Regexp.v ===== *)
(** Go's [regexp] package as the policy code uses it: the RE2 syntax the label
    patterns of validators.go and the seeded policies are written in, compiled
    by [Compile], and the leftmost-first search of [FindStringIndex],
    [FindAllStringIndex] and [MatchString].

    A match is found by enumerating, in preference order, the positions where
    an expression can stop ([ends]).  [ends_spec] relates the enumeration to
    the declarative relation [Matches], and [FindAll_ok] gives the facts about
    spans that the evaluator and the redactor rely on.

    [Compile] accepts ASCII patterns with groups, alternation, classes, [\d \s
    \w \b \B \xHH], the anchors, the flags [i], [m] and [s], and greedy or lazy
    quantifiers; every other pattern is rejected, as if it had a syntax error. *)

From S2P Require Import Prelude GoStrings.

Local Open Scope Z_scope.

(** * Expressions *)

Inductive regex : Type :=
| REmpty
| RClass (neg fold : bool) (ranges : list (Z * Z))
| RCat (a b : regex)
| RAlt (a b : regex)
| RStar (greedy : bool) (a : regex)
| RBegin | REnd
| RBeginLine | REndLine
| RWord (neg : bool).

#[export] Instance regex_eq_dec : EqDecision regex.
Proof. solve_decision. Defined.

(** The code points that fold to the same letter (ASCII patterns only): the
    two cases, and the Kelvin and long-s signs for [k] and [s]. *)
Definition fold_orbit (r : Z) : list Z :=
  let l := if in_range 65 90 r then r + 32 else if r =? 8490 then 107 else if r =? 383 then 115 else r in
  if in_range 97 122 l then l :: l - 32 :: (if l =? 107 then [8490] else if l =? 115 then [383] else [])
  else [r].

Definition in_ranges (ranges : list (Z * Z)) (r : Z) : bool :=
  existsb (fun p => in_range p.1 p.2 r) ranges.

Definition class_match (neg fold : bool) (ranges : list (Z * Z)) (r : Z) : bool :=
  xorb neg (if fold then existsb (in_ranges ranges) (fold_orbit r) else in_ranges ranges r).

Definition word_byte (b : Z) : bool :=
  in_range 48 57 b || in_range 65 90 b || in_range 97 122 b || (b =? 95).

(** [\b] at position [i]: exactly one of the two neighbours is a word byte. *)
Definition word_before (s : list Z) (i : nat) : bool :=
  match i with O => false | S k => match s !! k with Some b => word_byte b | None => false end end.
Definition word_after (s : list Z) (i : nat) : bool :=
  match s !! i with Some b => word_byte b | None => false end.
Definition word_boundary (s : list Z) (i : nat) : bool := xorb (word_before s i) (word_after s i).

(** [^] and [$] under the flag [m]: next to a newline or at an end of the text. *)
Definition line_begin (s : list Z) (i : nat) : bool :=
  match i with O => true | S k => match s !! k with Some b => b =? 10 | None => false end end.
Definition line_end (s : list Z) (i : nat) : bool :=
  (i =? length s)%nat || match s !! i with Some b => b =? 10 | None => false end.

(** * Matching *)

(** [add_new x l] appends the positions of [l] not already listed in [x]. *)
Fixpoint add_new (x l : list nat) : list nat :=
  match l with
  | [] => x
  | j :: l' => add_new (if bool_decide (j ∈ x) then x else x ++ [j]) l'
  end.

Definition seq_ends (f : nat -> list nat) (l : list nat) : list nat :=
  foldl (fun acc j => add_new acc (f j)) [] l.

(** The positions where a repetition can stop. An iteration that consumes
    nothing ends the loop. *)
Fixpoint star_ends (f : nat -> list nat) (greedy : bool) (fuel i : nat) : list nat :=
  match fuel with
  | O => [i]
  | S n =>
      let more := seq_ends (fun j => if (j <=? i)%nat then [j] else star_ends f greedy n j) (f i) in
      if greedy then add_new more [i] else add_new [i] more
  end.

Fixpoint ends (r : regex) (s : list Z) (i : nat) : list nat :=
  match r with
  | REmpty => [i]
  | RClass neg fold ranges =>
      match decode_rune (drop i s) with
      | Some (c, w) => if class_match neg fold ranges c then [(i + w)%nat] else []
      | None => []
      end
  | RCat a b => seq_ends (ends b s) (ends a s i)
  | RAlt a b => add_new (ends a s i) (ends b s i)
  | RStar greedy a => star_ends (ends a s) greedy (S (length s)) i
  | RBegin => if (i =? 0)%nat then [i] else []
  | REnd => if (i =? length s)%nat then [i] else []
  | RBeginLine => if line_begin s i then [i] else []
  | REndLine => if line_end s i then [i] else []
  | RWord neg => if xorb neg (word_boundary s i) then [i] else []
  end.

(** The declarative meaning. *)
Inductive Matches (s : list Z) : regex -> nat -> nat -> Prop :=
| MEmpty i : Matches s REmpty i i
| MClass neg fold ranges i c w :
    decode_rune (drop i s) = Some (c, w) -> class_match neg fold ranges c = true ->
    Matches s (RClass neg fold ranges) i (i + w)
| MCat a b i j k : Matches s a i j -> Matches s b j k -> Matches s (RCat a b) i k
| MAltL a b i j : Matches s a i j -> Matches s (RAlt a b) i j
| MAltR a b i j : Matches s b i j -> Matches s (RAlt a b) i j
| MStar0 g a i : Matches s (RStar g a) i i
| MStar g a i j k : Matches s a i j -> Matches s (RStar g a) j k -> Matches s (RStar g a) i k
| MBegin : Matches s RBegin 0 0
| MEnd : Matches s REnd (length s) (length s)
| MBeginLine i : line_begin s i = true -> Matches s RBeginLine i i
| MEndLine i : line_end s i = true -> Matches s REndLine i i
| MWord neg i : xorb neg (word_boundary s i) = true -> Matches s (RWord neg) i i.
#[export] Hint Constructors Matches : axon.

Lemma elem_of_add_new x l j : j ∈ add_new x l <-> j ∈ x \/ j ∈ l.
Proof.
  revert x. induction l as [|k l IH]; intros x; simpl.
  - rewrite elem_of_nil. tauto.
  - rewrite IH, elem_of_cons. case_bool_decide.
    + split; intros [?|?]; auto. destruct H0; subst; auto.
    + rewrite elem_of_app, elem_of_cons, elem_of_nil. tauto.
Qed.

Lemma elem_of_seq_ends f l k : k ∈ seq_ends f l <-> exists j, j ∈ l /\ k ∈ f j.
Proof.
  unfold seq_ends.
  assert (H : forall acc, k ∈ foldl (fun acc j => add_new acc (f j)) acc l <->
                          k ∈ acc \/ exists j, j ∈ l /\ k ∈ f j).
  { induction l as [|i l IH]; intros acc; simpl.
    - split; [auto|]. intros [?|(? & ?%elem_of_nil & _)]; done.
    - rewrite IH, elem_of_add_new. split.
      + intros [[?|?]|(j & ? & ?)]; [by left|..]; right; eexists; rewrite elem_of_cons; eauto.
      + intros [?|(j & [->|?]%elem_of_cons & ?)]; eauto. }
  rewrite H. split; [intros [?%elem_of_nil|?]|]; [done|done|auto].
Qed.

Lemma Matches_le s r i j : Matches s r i j -> (i <= j)%nat.
Proof. induction 1; lia. Qed.

Lemma Matches_length s r i j : (i <= length s)%nat -> Matches s r i j -> (j <= length s)%nat.
Proof.
  intros Hi H. revert Hi. induction H; intros Hi; auto.
  apply decode_rune_width in H. rewrite length_drop in H. lia.
Qed.

Lemma star_ends_sound s a g f n i k :
  (forall i j, (i <= length s)%nat -> j ∈ f i -> Matches s a i j) ->
  (i <= length s)%nat -> k ∈ star_ends f g n i -> Matches s (RStar g a) i k.
Proof.
  intros Hf. revert i k. induction n as [|n IH]; intros i k Hi; cbn [star_ends].
  - rewrite list_elem_of_singleton. intros ->. constructor.
  - assert (Hmore : k ∈ seq_ends (fun j => if (j <=? i)%nat then [j] else star_ends f g n j) (f i) ->
                    Matches s (RStar g a) i k).
    { rewrite elem_of_seq_ends. intros (j & Hj & Hk).
      specialize (Hf _ _ Hi Hj). pose proof (Matches_length _ _ _ _ Hi Hf).
      destruct (Nat.leb_spec j i).
      - apply list_elem_of_singleton in Hk. subst. eauto with axon.
      - eauto with axon. }
    destruct g; rewrite elem_of_add_new, list_elem_of_singleton;
      intros [H|H]; subst; auto with axon.
Qed.

Lemma star_ends_complete s a g f n i k :
  (forall i j, (i <= length s)%nat -> Matches s a i j -> j ∈ f i) ->
  (i <= length s)%nat -> (length s - i < n)%nat ->
  Matches s (RStar g a) i k -> k ∈ star_ends f g n i.
Proof.
  intros Hf Hi Hn H. remember (RStar g a) as r eqn:Hr. revert n Hn Hi.
  induction H as [| | | | |g' a' i|g' a' i j k H1 _ H2 IH| | | | |]; simplify_eq;
    intros n Hn Hi; (destruct n as [|n]; [lia|]); cbn [star_ends].
  - destruct g; rewrite elem_of_add_new, list_elem_of_singleton; auto.
  - specialize (IH eq_refl). pose proof (Matches_le _ _ _ _ H1) as Hle.
    pose proof (Matches_length _ _ _ _ Hi H1) as Hlen.
    destruct (decide (j = i)) as [->|Hne]; [apply (IH (S n)); lia|].
    assert (Hmore : k ∈ seq_ends (fun j => if (j <=? i)%nat then [j] else star_ends f g n j) (f i)).
    { rewrite elem_of_seq_ends. exists j. split; [auto|].
      destruct (Nat.leb_spec j i); [lia|]. apply IH; lia. }
    destruct g; rewrite elem_of_add_new; auto.
Qed.

(** The enumeration of stopping positions is sound and complete. *)
Theorem ends_spec r s i j :
  (i <= length s)%nat -> j ∈ ends r s i <-> Matches s r i j.
Proof.
  intros Hi. split.
  - revert i j Hi. induction r as [|neg fold ranges|a IHa b IHb|a IHa b IHb|g a IHa| | | | |neg];
      intros i j Hi; cbn [ends].
    + rewrite list_elem_of_singleton. intros ->. constructor.
    + destruct (decode_rune _) as [[c w]|] eqn:E; [|by intros ?%elem_of_nil].
      destruct (class_match _ _ _ _) eqn:Ec; [|by intros ?%elem_of_nil].
      rewrite list_elem_of_singleton. intros ->. eauto with axon.
    + rewrite elem_of_seq_ends. intros (k & Hk & Hj).
      apply IHa in Hk; [|done]. econstructor; [done|].
      apply IHb; [|done]. eauto using Matches_length.
    + rewrite elem_of_add_new. intros [?|?]; auto with axon.
    + apply star_ends_sound; auto.
    + destruct (Nat.eqb_spec i 0); [|by intros ?%elem_of_nil].
      rewrite list_elem_of_singleton. intros ->. subst. constructor.
    + destruct (Nat.eqb_spec i (length s)); [|by intros ?%elem_of_nil].
      rewrite list_elem_of_singleton. intros ->. subst. constructor.
    + destruct (line_begin _ _) eqn:E; [|by intros ?%elem_of_nil].
      rewrite list_elem_of_singleton. intros ->. by constructor.
    + destruct (line_end _ _) eqn:E; [|by intros ?%elem_of_nil].
      rewrite list_elem_of_singleton. intros ->. by constructor.
    + destruct (xorb _ _) eqn:E; [|by intros ?%elem_of_nil].
      rewrite list_elem_of_singleton. intros ->. by constructor.
  - revert i j Hi. induction r as [|neg fold ranges|a IHa b IHb|a IHa b IHb|g a IHa| | | | |neg];
      intros i j Hi H; cbn [ends].
    + inv H. by left.
    + inversion H as [|? ? ? ? c w Hd Hc| | | | | | | | | |]; subst. rewrite Hd, Hc. by left.
    + inv H. apply elem_of_seq_ends. eexists. split; [by apply IHa|].
      apply IHb; [|done]. eauto using Matches_length.
    + rewrite elem_of_add_new. inv H; auto.
    + eapply star_ends_complete; eauto. lia.
    + inv H. by left.
    + inv H. rewrite Nat.eqb_refl. by left.
    + inversion H as [| | | | | | | | |? Hw| |]; subst. rewrite Hw. by left.
    + inversion H as [| | | | | | | | | |? Hw|]; subst. rewrite Hw. by left.
    + inversion H as [| | | | | | | | | | |? ? Hw]; subst. rewrite Hw. by left.
Qed.

(** * Searching *)

(** Leftmost match at or after [i]; start positions are rune boundaries. *)
Fixpoint find_from (fuel : nat) (r : regex) (s : list Z) (i : nat) : option (nat * nat) :=
  match ends r s i with
  | j :: _ => Some (i, j)
  | [] =>
      match fuel with
      | O => None
      | S f =>
          match decode_rune (drop i s) with
          | Some (_, w) => find_from f r s (i + w)
          | None => None
          end
      end
  end.

(** The loop of [Regexp.allMatches]: an empty match that abuts the previous
    match is dropped. Two rounds of the loop advance the position, which bounds
    the fuel. *)
Fixpoint find_all_loop (fuel : nat) (r : regex) (s : list Z) (pos : nat) (prev : option nat)
  : list (nat * nat) :=
  match fuel with
  | O => []
  | S f =>
      if (length s <? pos)%nat then [] else
      match find_from (length s) r s pos with
      | None => []
      | Some (a, b) =>
          if (b =? pos)%nat then
            let pos' := match decode_rune (drop pos s) with
                        | Some (_, w) => (pos + w)%nat
                        | None => S (length s)
                        end in
            (if bool_decide (Some a = prev) then [] else [(a, b)])
              ++ find_all_loop f r s pos' (Some b)
          else (a, b) :: find_all_loop f r s b (Some b)
      end
  end.

(** [re.FindStringIndex(s)] *)
Definition FindStringIndex (r : regex) (s : string) : option (nat * nat) :=
  find_from (len s) r (bytes s) 0.

(** [re.FindAllStringIndex(s, -1)]; [nil] is the empty list. *)
Definition FindAllStringIndex (r : regex) (s : string) : list (nat * nat) :=
  find_all_loop (2 * len s + 3) r (bytes s) 0 None.

(** [re.MatchString(s)] *)
Definition MatchString (r : regex) (s : string) : bool :=
  match FindStringIndex r s with Some _ => true | None => false end.

(** Spans in increasing order, disjoint, inside the text and after [lo]. *)
Fixpoint spans_ok (n lo : nat) (l : list (nat * nat)) : Prop :=
  match l with
  | [] => True
  | (a, b) :: l' => (lo <= a /\ a <= b /\ b <= n)%nat /\ spans_ok n b l'
  end.

Lemma spans_ok_weaken n lo lo' l : (lo' <= lo)%nat -> spans_ok n lo l -> spans_ok n lo' l.
Proof. destruct l as [|[a b] l]; simpl; [done|]. intros ? [? ?]. split; [lia|done]. Qed.

Lemma find_from_matches fuel r s i a b :
  (i <= length s)%nat -> find_from fuel r s i = Some (a, b) ->
  (i <= a)%nat /\ (a <= length s)%nat /\ Matches s r a b.
Proof.
  revert i. induction fuel as [|f IH]; intros i Hi; simpl;
    destruct (ends r s i) as [|j l] eqn:E.
  - done.
  - intros [= <- <-]. repeat split; [lia|done|]. apply ends_spec; [done|].
    rewrite E. by left.
  - destruct (decode_rune (drop i s)) as [[c w]|] eqn:Ed; [|done].
    apply decode_rune_width in Ed. rewrite length_drop in Ed.
    intros H. apply IH in H; [|lia]. destruct H as (? & ? & ?). repeat split; auto; lia.
  - intros [= <- <-]. repeat split; [lia|done|]. apply ends_spec; [done|].
    rewrite E. by left.
Qed.

Lemma find_from_span fuel r s i a b :
  (i <= length s)%nat -> find_from fuel r s i = Some (a, b) ->
  (i <= a /\ a <= b /\ b <= length s)%nat.
Proof.
  intros Hi H. apply find_from_matches in H as (H1 & H2 & H3); [|done].
  pose proof (Matches_le _ _ _ _ H3). pose proof (Matches_length _ _ _ _ H2 H3). lia.
Qed.

Lemma find_all_loop_ok fuel r s pos prev :
  spans_ok (length s) pos (find_all_loop fuel r s pos prev).
Proof.
  revert pos prev. induction fuel as [|f IH]; intros pos prev; cbn [find_all_loop]; [done|].
  destruct (Nat.ltb_spec (length s) pos); [done|].
  destruct (find_from _ _ _ _) as [[a b]|] eqn:E; [|done].
  apply find_from_span in E; [|done].
  destruct (Nat.eqb_spec b pos) as [->|].
  - assert (Hw : spans_ok (length s) pos
       (find_all_loop f r s (match decode_rune (drop pos s) with
                             | Some (_, w) => (pos + w)%nat | None => S (length s) end) (Some pos))).
    { destruct (decode_rune (drop pos s)) as [[c w]|];
        (eapply spans_ok_weaken; [|apply IH]; lia). }
    case_bool_decide; simpl; [done|]. split; [lia|done].
  - simpl. split; [lia|]. apply IH.
Qed.

Lemma FindAll_ok r s : spans_ok (len s) 0 (FindAllStringIndex r s).
Proof. unfold FindAllStringIndex. rewrite <- length_bytes. apply find_all_loop_ok. Qed.

Lemma FindStringIndex_span r s a b :
  FindStringIndex r s = Some (a, b) -> (a <= b /\ b <= len s)%nat.
Proof.
  unfold FindStringIndex. intros H. apply find_from_span in H; rewrite ?length_bytes in *; lia.
Qed.

Lemma spans_ok_in n lo l a b :
  spans_ok n lo l -> (a, b) ∈ l -> (lo <= a /\ a <= b /\ b <= n)%nat.
Proof.
  revert lo. induction l as [|[c d] l IH]; intros lo; simpl; [by intros _ ?%elem_of_nil|].
  intros [H1 H2] [?|H]%elem_of_cons; simplify_eq; [done|].
  specialize (IH _ H2 H). lia.
Qed.

(** * Syntax *)

Definition digit_ranges : list (Z * Z) := [(48, 57)].
Definition space_ranges : list (Z * Z) := [(9, 10); (12, 13); (32, 32)].
Definition word_ranges : list (Z * Z) := [(48, 57); (65, 90); (95, 95); (97, 122)].

Definition is_alnum (c : Z) : bool := in_range 48 57 c || in_range 65 90 c || in_range 97 122 c.

(** The ranges of an escape such as [\d], or of an escaped literal. *)
Definition escape_ranges (c : Z) : option (list (Z * Z)) :=
  if c =? 100 then Some digit_ranges
  else if c =? 115 then Some space_ranges
  else if c =? 119 then Some word_ranges
  else if c =? 110 then Some [(10, 10)]
  else if c =? 114 then Some [(13, 13)]
  else if c =? 116 then Some [(9, 9)]
  else if c =? 102 then Some [(12, 12)]
  else if c =? 118 then Some [(11, 11)]
  else if is_alnum c || (127 <? c) then None
  else Some [(c, c)].

(** [\xHH], with two hexadecimal digits of an ASCII code. *)
Definition hex_digit_val (b : Z) : option Z :=
  if in_range 48 57 b then Some (b - 48)
  else if in_range 97 102 b then Some (b - 87)
  else if in_range 65 70 b then Some (b - 55)
  else None.
Definition hex_escape (h k : Z) : option Z :=
  match hex_digit_val h, hex_digit_val k with
  | Some a, Some b => if 16 * a + b <? 128 then Some (16 * a + b) else None
  | _, _ => None
  end.

Definition rcat (a b : regex) : regex := match a with REmpty => b | _ => RCat a b end.

(** Class items up to the closing bracket. *)
Fixpoint p_class (fuel : nat) (l : list Z) (acc : list (Z * Z)) : option (list (Z * Z) * list Z) :=
  match fuel with
  | O => None
  | S f =>
      match l with
      | [] => None
      | 93 :: l' => match acc with [] => None | _ => Some (rev acc, l') end
      | 92 :: 120 :: h :: k :: l' =>
          match hex_escape h k with
          | Some c => p_class f l' ((c, c) :: acc)
          | None => None
          end
      | 92 :: c :: l' =>
          match escape_ranges c with
          | Some rs => p_class f l' (rev_append rs acc)
          | None => None
          end
      | c :: l' =>
          if (127 <? c) || (c =? 91) then None else
          match l' with
          | 45 :: 93 :: _ => p_class f l' ((c, c) :: acc)
          | 45 :: d :: l'' =>
              if (d <? c) || (127 <? d) || (d =? 92) then None else p_class f l'' ((c, d) :: acc)
          | _ => p_class f l' ((c, c) :: acc)
          end
      end
  end.

Fixpoint p_nat (l : list Z) (acc : option nat) : option nat * list Z :=
  match l with
  | c :: l' =>
      if in_range 48 57 c
      then p_nat l' (Some (10 * default O acc + Z.to_nat (c - 48))%nat)
      else (acc, l)
  | [] => (acc, [])
  end.

Fixpoint rrepeat (n : nat) (a tail : regex) : regex :=
  match n with O => tail | S k => rcat a (rrepeat k a tail) end.

(** [a{0,n}] *)
Fixpoint ropt_repeat (greedy : bool) (n : nat) (a : regex) : regex :=
  match n with
  | O => REmpty
  | S k => let b := rcat a (ropt_repeat greedy k a) in
           if greedy then RAlt b REmpty else RAlt REmpty b
  end.

Definition p_lazy (l : list Z) : bool * list Z :=
  match l with 63 :: l' => (false, l') | _ => (true, l) end.

(** An optional quantifier after an atom. *)
Definition p_quant (a : regex) (l : list Z) : option (regex * list Z) :=
  match l with
  | 42 :: l' => let '(g, l'') := p_lazy l' in Some (RStar g a, l'')
  | 43 :: l' => let '(g, l'') := p_lazy l' in Some (RCat a (RStar g a), l'')
  | 63 :: l' =>
      let '(g, l'') := p_lazy l' in
      Some (if g then RAlt a REmpty else RAlt REmpty a, l'')
  | 123 :: l' =>
      match p_nat l' None with
      | (Some n, 125 :: t) => let '(g, t') := p_lazy t in
          if (1000 <? n)%nat then None else Some (rrepeat n a REmpty, t')
      | (Some n, 44 :: 125 :: t) => let '(g, t') := p_lazy t in
          if (1000 <? n)%nat then None else Some (rrepeat n a (RStar g a), t')
      | (Some n, 44 :: t) =>
          match p_nat t None with
          | (Some m, 125 :: t') => let '(g, t'') := p_lazy t' in
              if (1000 <? m)%nat || (m <? n)%nat then None
              else Some (rrepeat n a (ropt_repeat g (m - n) a), t'')
          | _ => None
          end
      | _ => None
      end
  | _ => Some (a, l)
  end.

(** The flags in force: case folding, multi-line anchors, [.] matching newline. *)
Record flags := mkFlags { fl_i : bool; fl_m : bool; fl_s : bool }.
Definition no_flags : flags := mkFlags false false false.

(** The letters of a flag group up to [)] or [:]. *)
Fixpoint p_flags (l : list Z) (fl : flags) : option (flags * bool * list Z) :=
  match l with
  | 105 :: l' => p_flags l' (mkFlags true (fl_m fl) (fl_s fl))
  | 109 :: l' => p_flags l' (mkFlags (fl_i fl) true (fl_s fl))
  | 115 :: l' => p_flags l' (mkFlags (fl_i fl) (fl_m fl) true)
  | 41 :: l' => Some (fl, true, l')
  | 58 :: l' => Some (fl, false, l')
  | _ => None
  end.

Definition p_escape (fl : flags) (c : Z) : option regex :=
  if c =? 98 then Some (RWord false)
  else if c =? 66 then Some (RWord true)
  else if c =? 65 then Some RBegin
  else if c =? 122 then Some REnd
  else if c =? 68 then Some (RClass true false digit_ranges)
  else if c =? 83 then Some (RClass true false space_ranges)
  else if c =? 87 then Some (RClass true false word_ranges)
  else RClass false (fl_i fl) <$> escape_ranges c.

Fixpoint p_alt (fuel : nat) (fl : flags) (l : list Z) : option (regex * list Z) :=
  match fuel with
  | O => None
  | S f =>
      match p_cat f fl l REmpty with
      | Some (r, fl', 124 :: l') =>
          match p_alt f fl' l' with
          | Some (r2, l'') => Some (RAlt r r2, l'')
          | None => None
          end
      | Some (r, _, l') => Some (r, l')
      | None => None
      end
  end
with p_cat (fuel : nat) (fl : flags) (l : list Z) (acc : regex) : option (regex * flags * list Z) :=
  match fuel with
  | O => None
  | S f =>
      match l with
      | [] | 124 :: _ | 41 :: _ => Some (acc, fl, l)
      | _ =>
          match (match l with 40 :: 63 :: l' => p_flags l' fl | _ => None end) with
          | Some (fl', true, l') => p_cat f fl' l' acc
          | _ =>
              match p_atom f fl l with
              | Some (a, l') =>
                  match p_quant a l' with
                  | Some (q, l'') => p_cat f fl l'' (rcat acc q)
                  | None => None
                  end
              | None => None
              end
          end
      end
  end
with p_atom (fuel : nat) (fl : flags) (l : list Z) : option (regex * list Z) :=
  match fuel with
  | O => None
  | S f =>
      match l with
      | 40 :: 63 :: l' =>
          match p_flags l' fl with
          | Some (fl', false, l'') =>
              match p_alt f fl' l'' with
              | Some (r, 41 :: l3) => Some (r, l3)
              | _ => None
              end
          | _ => None
          end
      | 40 :: l' =>
          match p_alt f fl l' with
          | Some (r, 41 :: l'') => Some (r, l'')
          | _ => None
          end
      | 91 :: 94 :: l' =>
          match p_class f l' [] with
          | Some (rs, l'') => Some (RClass true (fl_i fl) rs, l'')
          | None => None
          end
      | 91 :: l' =>
          match p_class f l' [] with
          | Some (rs, l'') => Some (RClass false (fl_i fl) rs, l'')
          | None => None
          end
      | 92 :: 120 :: h :: k :: l' => (fun c => (RClass false (fl_i fl) [(c, c)], l')) <$> hex_escape h k
      | 92 :: c :: l' => (fun r => (r, l')) <$> p_escape fl c
      | 46 :: l' => Some (if fl_s fl then RClass true false [] else RClass true false [(10, 10)], l')
      | 94 :: l' => Some (if fl_m fl then RBeginLine else RBegin, l')
      | 36 :: l' => Some (if fl_m fl then REndLine else REnd, l')
      | c :: l' =>
          if (127 <? c) || (c =? 42) || (c =? 43) || (c =? 63) || (c =? 92) then None
          else Some (RClass false (fl_i fl) [(c, c)], l')
      | [] => None
      end
  end.

(** [regexp.Compile]: every recursive call of the parser follows the
    consumption of a byte or a descent alt, cat, atom, hence three units of
    fuel per byte. *)
Definition Compile (pat : string) : option regex :=
  match p_alt (3 * len pat + 4) no_flags (bytes pat) with
  | Some (r, []) => Some r
  | _ => None
  end.

(** [regexp.MustCompile] of a literal the parser accepts. *)
Definition MustCompile (pat : string) : regex := default REmpty (Compile pat).

Example re_ex1 : FindAllStringIndex (MustCompile "\d{3}-\d{2}-\d{4}") "ssn 123-45-6789, 111-22-3333." = [(4, 15); (17, 28)]%nat.
Proof. vm_compute. reflexivity. Qed.
Example re_ex2 : MatchString (MustCompile "(?i)\b(dob|born)\b\s*$") "she was BORN " = true.
Proof. vm_compute. reflexivity. Qed.
Example re_ex3 : MatchString (MustCompile "(?i)\b(dob|born)\b\s*$") "airborn" = false.
Proof. vm_compute. reflexivity. Qed.
Example re_ex4 : FindAllStringIndex (MustCompile "a*") "baac" = [(0, 0); (1, 3); (4, 4)]%nat.
Proof. vm_compute. reflexivity. Qed.
Example re_ex6 : MatchString (MustCompile "(?m)^[^'\r\n]*['\x60][ \t)]*(?:--|\#)[ \t-]*\r?$") (String.append "x" (String.append (of_bytes [10]) "admin' --")) = true.
Proof. vm_compute. reflexivity. Qed.
Example re_ex7 : (MatchString (MustCompile "a(?s:.)b.c") (of_bytes [97; 10; 98; 46; 99]), MatchString (MustCompile "a(?s:.)b.c") (of_bytes [97; 10; 98; 10; 99])) = (true, false).
Proof. vm_compute. reflexivity. Qed.
Example re_ex5 : Compile "a(b" = None.
Proof. vm_compute. reflexivity. Qed.

(** The first span of [FindAllStringIndex] is [FindStringIndex]. *)
Lemma FindAll_head r s :
  match FindStringIndex r s with
  | Some sp => exists l, FindAllStringIndex r s = sp :: l
  | None => FindAllStringIndex r s = []
  end.
Proof.
  unfold FindStringIndex, FindAllStringIndex.
  replace (2 * len s + 3)%nat with (S (2 * len s + 2)) by lia. cbn [find_all_loop].
  destruct (Nat.ltb_spec (length (bytes s)) 0); [lia|]. rewrite length_bytes.
  destruct (find_from (len s) r (bytes s) 0) as [[a b]|]; [|done].
  destruct (b =? 0)%nat; simpl; eauto.
Qed.

(** * The fuel is enough *)

(** One rune further. *)
Definition rune_step (s : list Z) (i k : nat) : Prop :=
  exists c w, decode_rune (drop i s) = Some (c, w) /\ k = (i + w)%nat.

Lemma rune_step_bound s i k : (i <= length s)%nat -> rune_step s i k -> (i < k <= length s)%nat.
Proof.
  intros Hi (c & w & Hd & ->). apply decode_rune_width in Hd. rewrite length_drop in Hd. lia.
Qed.

Lemma ends_nil r s i : (i <= length s)%nat -> ends r s i = [] -> forall j, ~ Matches s r i j.
Proof. intros Hi He j Hm. apply ends_spec in Hm; [|done]. rewrite He in Hm. by apply elem_of_nil in Hm. Qed.

(** The search stops without a match only when no rune boundary starts one. *)
Lemma find_from_complete fuel r s : forall i,
  (i <= length s)%nat -> (length s - i <= fuel)%nat -> find_from fuel r s i = None ->
  forall k, rtc (rune_step s) i k -> forall j, ~ Matches s r k j.
Proof.
  induction fuel as [|f IH]; intros i Hi Hf H k Hk; simpl in H;
    destruct (ends r s i) as [|e l] eqn:Ee; try done; inv Hk; try by apply ends_nil.
  - exfalso. match goal with R : rune_step _ _ _ |- _ => apply rune_step_bound in R end; lia.
  - match goal with R : rune_step _ _ _ |- _ =>
      pose proof (rune_step_bound _ _ _ Hi R); destruct R as (c & w & Hd & ->) end.
    rewrite Hd in H. apply (IH (i + w)%nat); [lia|lia|done|done].
Qed.

Lemma find_from_reached fuel r s : forall i a b,
  find_from fuel r s i = Some (a, b) -> rtc (rune_step s) i a.
Proof.
  induction fuel as [|f IH]; intros i a b; simpl; destruct (ends r s i) as [|j l]; try done;
    try (intros [= <- <-]; done).
  destruct (decode_rune (drop i s)) as [[c w]|] eqn:Ed; [|done].
  intros H. eapply rtc_l; [by eexists _, _|]. by eapply IH.
Qed.

(** [MatchString] decides whether some rune boundary starts a match. *)
Lemma MatchString_iff r s :
  MatchString r s = true <->
  exists k j, rtc (rune_step (bytes s)) 0%nat k /\ Matches (bytes s) r k j.
Proof.
  unfold MatchString, FindStringIndex. rewrite <- length_bytes.
  destruct (find_from (length (bytes s)) r (bytes s) 0) as [[a b]|] eqn:E.
  - split; [|done]. intros _. exists a, b. split; [by eapply find_from_reached|].
    apply find_from_matches in E as (_ & _ & ?); [done|lia].
  - split; [done|]. intros (k & j & Hk & Hm). exfalso.
    refine (find_from_complete _ _ _ _ _ _ E k Hk j Hm); lia.
Qed.

(** Every round of [find_all_loop] advances, so more fuel finds no more. *)
Lemma find_all_loop_fuel fuel r s : forall pos prev,
  (length s + 1 < pos + fuel)%nat -> find_all_loop (S fuel) r s pos prev = find_all_loop fuel r s pos prev.
Proof.
  induction fuel as [|f IH]; intros pos prev Hf.
  - simpl. destruct (Nat.ltb_spec (length s) pos); [done|lia].
  - cbn [find_all_loop]. destruct (Nat.ltb_spec (length s) pos); [done|].
    destruct (find_from (length s) r s pos) as [[a b]|] eqn:E; [|done].
    apply find_from_span in E; [|lia].
    destruct (Nat.eqb_spec b pos) as [->|].
    + f_equal. apply IH. destruct (decode_rune (drop pos s)) as [[c w]|] eqn:Ed; [|lia].
      apply decode_rune_width in Ed. rewrite length_drop in Ed. lia.
    + f_equal. apply IH. lia.
Qed.
