(* ===== verification/PolicyTypes.v ===== *)
(** The data model of platform/shared/policy (types.go): phases, actions,
    categories, compiled policies, matches, evaluation results and their
    API projection.

    [Phase], [Action], [PolicyCategory] and [Severity] are string types in the
    source and are filled from database columns without validation, so they
    stay strings here: a theorem about "every policy" covers rows that carry an
    unknown value. *)

From S2P Require Import Prelude GoFloat GoStrings Regexp.

(** * Phases and actions *)

Definition PhaseRequest : string := "request".
Definition PhaseResponse : string := "response".
Definition PhaseBoth : string := "both".

Definition ActionBlock : string := "block".
Definition ActionRequireApproval : string := "require_approval".
Definition ActionAllow : string := "allow".
Definition ActionRedact : string := "redact".
Definition ActionLog : string := "log".
Definition ActionWarn : string := "warn".

Definition ValidActionTypes : list string :=
  ["alert"; "block"; "log"; "modify_risk"; "redact"; "require_approval"; "route"; "warn"].

Definition IsValidActionType (action : string) : bool := str_in action ValidActionTypes.

Definition ValidOverrideActions : list string :=
  ["block"; "require_approval"; "redact"; "warn"; "log"].

Definition IsValidOverrideAction (action : string) : bool := str_in action ValidOverrideActions.

(** * Categories and severities *)

Definition CategorySecuritySQLi : string := "security-sqli".
Definition CategorySecurityDangerous : string := "security-dangerous".
Definition CategoryAdminAccess : string := "admin-access".
Definition CategoryPIIGlobal : string := "pii-global".
Definition CategoryPIIUS : string := "pii-us".
Definition CategoryPIIIndia : string := "pii-india".
Definition CategoryPIIEU : string := "pii-eu".
Definition CategoryPIISingapore : string := "pii-singapore".
Definition CategoryPIIIndonesia : string := "pii-indonesia".
Definition CategoryDataExfiltration : string := "data-exfiltration".
Definition CategorySensitiveData : string := "sensitive-data".
Definition CategoryComplianceGDPR : string := "compliance-gdpr".
Definition CategoryComplianceHIPAA : string := "compliance-hipaa".
Definition CategoryComplianceRBI : string := "compliance-rbi".
Definition CategoryComplianceSEBI : string := "compliance-sebi".
Definition CategoryComplianceEUAIAct : string := "compliance-euaiact".
Definition CategoryComplianceMASFEAT : string := "compliance-masfeat".
Definition CategoryMediaPII : string := "media-pii".

Definition SeverityCritical : string := "critical".
Definition SeverityHigh : string := "high".
Definition SeverityMedium : string := "medium".
Definition SeverityLow : string := "low".

Definition IsPIIPolicyCategory (cat : string) : bool := HasPrefix cat "pii-".

Definition AllTextPIICategories : list string :=
  [CategoryPIIGlobal; CategoryPIIUS; CategoryPIIIndia; CategoryPIIEU;
   CategoryPIISingapore; CategoryPIIIndonesia].

Definition isSecurityPolicyCategory (cat : string) : bool :=
  str_eqb cat CategorySecuritySQLi || str_eqb cat CategorySecurityDangerous.

Definition AllComplianceCategories : list string :=
  [CategoryComplianceGDPR; CategoryComplianceHIPAA; CategoryComplianceRBI;
   CategoryComplianceSEBI; CategoryComplianceEUAIAct; CategoryComplianceMASFEAT].

Definition IsComplianceCategory (cat : string) : bool :=
  str_eqb cat CategoryComplianceGDPR || str_eqb cat CategoryComplianceHIPAA
  || str_eqb cat CategoryComplianceRBI || str_eqb cat CategoryComplianceSEBI
  || str_eqb cat CategoryComplianceEUAIAct || str_eqb cat CategoryComplianceMASFEAT.

(** * Compiled policies *)

(** [ValidatorFunc]: match text and surrounding context to validity and
    confidence. *)
Definition ValidatorFunc : Type := string -> string -> bool * float64.

Record CompiledPolicy := mkPolicy {
  ID : string;
  PolicyID : string;
  Name : string;
  Category : string;
  Tier : string;
  Severity : string;
  Pattern : option regex;
  PatternStr : string;
  PolicyPhase : string;
  ActionRequest : string;
  ActionResponse : string;
  Description : string;
  Enabled : bool;
  Priority : Z;
  TenantID : string;
  OrganizationID : option string;
  Validator : option ValidatorFunc;
}.

(** A phase-specific action wins; otherwise the action is derived from the
    category and the severity. *)
Definition GetActionForPhase (p : CompiledPolicy) (phase : string) : string :=
  let explicit :=
    if str_eqb phase PhaseRequest then ActionRequest p
    else if str_eqb phase PhaseResponse then ActionResponse p
    else "" in
  if negb (str_eqb explicit "") then explicit
  else if IsPIIPolicyCategory (Category p) then ActionRedact
  else if isSecurityPolicyCategory (Category p) && str_eqb (Severity p) SeverityCritical
  then ActionBlock
  else if str_eqb (Category p) CategoryAdminAccess then ActionWarn
  else ActionLog.

Definition OrgScopePtr (orgID : string) : option string :=
  if str_eqb orgID "" then None else Some orgID.

(** * Matches and results *)

Record PolicyMatch := mkMatch {
  m_PolicyID : string;
  m_PolicyName : string;
  m_Category : string;
  m_Severity : string;
  m_Action : string;
  m_MatchText : string;
  m_StartIndex : nat;
  m_EndIndex : nat;
  m_Confidence : float64;
  m_FieldPath : string;
}.

(** [match.Action = a], [match.FieldPath = p] *)
Definition set_action (a : string) (m : PolicyMatch) : PolicyMatch :=
  mkMatch (m_PolicyID m) (m_PolicyName m) (m_Category m) (m_Severity m) a
    (m_MatchText m) (m_StartIndex m) (m_EndIndex m) (m_Confidence m) (m_FieldPath m).
Definition set_field_path (p : string) (m : PolicyMatch) : PolicyMatch :=
  mkMatch (m_PolicyID m) (m_PolicyName m) (m_Category m) (m_Severity m) (m_Action m)
    (m_MatchText m) (m_StartIndex m) (m_EndIndex m) (m_Confidence m) p.

Record RedactedField := mkRedacted {
  rf_Path : string;
  rf_OriginalLen : nat;
  rf_RedactedTo : string;
  rf_PolicyID : string;
  rf_PIIType : string;
}.

(** Dynamic values ([interface{}]) as JSON decoding and the connectors produce
    them. A Go map is the list of its entries in the order one [range] visits
    them: theorems quantify over that order. *)
Inductive value : Type :=
| VNil
| VBool (b : bool)
| VNumber (lit : string)
| VFloat (f : float64)
| VInt (n : Z)
| VString (s : string)
| VBytes (s : string)
| VArr (l : list value)
| VObj (m : list (string * value))
| VRows (rows : list (list (string * value)))
| VOther (type_name : string).

Record RequestResult := mkRequestResult {
  rq_Blocked : bool;
  rq_BlockedBy : option CompiledPolicy;
  rq_BlockReason : string;
  rq_EvaluationError : bool;
  rq_PoliciesEvaluated : nat;
  rq_MatchedPolicies : list PolicyMatch;
}.

Record ResponseResult := mkResponseResult {
  rs_Blocked : bool;
  rs_BlockedBy : option CompiledPolicy;
  rs_BlockReason : string;
  rs_EvaluationError : bool;
  rs_Content : value;
  rs_Redacted : bool;
  rs_RedactedFields : list RedactedField;
  rs_PoliciesEvaluated : nat;
  rs_MatchedPolicies : list PolicyMatch;
}.

(** * API projection *)

Record PolicyMatchInfo := mkMatchInfo {
  mi_PolicyID : string;
  mi_PolicyName : string;
  mi_Category : string;
  mi_Severity : string;
  mi_Action : string;
}.

Record PolicyInfo := mkInfo {
  pi_PoliciesEvaluated : nat;
  pi_Blocked : bool;
  pi_BlockReason : string;
  pi_RedactionsApplied : nat;
  pi_MatchedPolicies : list PolicyMatchInfo;
}.

Definition match_info (m : PolicyMatch) : PolicyMatchInfo :=
  mkMatchInfo (m_PolicyID m) (m_PolicyName m) (m_Category m) (m_Severity m) (m_Action m).

Definition RequestResult_ToInfo (r : RequestResult) : PolicyInfo :=
  mkInfo (rq_PoliciesEvaluated r) (rq_Blocked r) (rq_BlockReason r) 0
    (match_info <$> rq_MatchedPolicies r).

Definition ResponseResult_ToInfo (r : ResponseResult) : PolicyInfo :=
  mkInfo (rs_PoliciesEvaluated r) (rs_Blocked r) (rs_BlockReason r)
    (length (rs_RedactedFields r)) (match_info <$> rs_MatchedPolicies r).

Definition MergePolicyInfo (request response : option PolicyInfo) : option PolicyInfo :=
  match request, response with
  | None, None => None
  | None, Some r => Some r
  | Some r, None => Some r
  | Some rq, Some rs =>
      Some (mkInfo (pi_PoliciesEvaluated rq + pi_PoliciesEvaluated rs)
              (pi_Blocked rq || pi_Blocked rs)
              (if pi_Blocked rq then pi_BlockReason rq
               else if pi_Blocked rs then pi_BlockReason rs else "")
              (pi_RedactionsApplied rs)
              (pi_MatchedPolicies rq ++ pi_MatchedPolicies rs))
  end.

Definition BuildPolicyInfo (request : option RequestResult) (response : option ResponseResult)
  : option PolicyInfo :=
  MergePolicyInfo (RequestResult_ToInfo <$> request) (ResponseResult_ToInfo <$> response).

(** * Lemmas *)

Lemma all_text_pii_is_pii : Forall (fun c => IsPIIPolicyCategory c = true) AllTextPIICategories.
Proof. repeat constructor. Qed.

Lemma pii_not_security cat :
  IsPIIPolicyCategory cat = true -> isSecurityPolicyCategory cat = false.
Proof.
  intros H. unfold isSecurityPolicyCategory.
  destruct (str_eqb cat CategorySecuritySQLi) eqn:E1;
    [apply str_eqb_true in E1; subst; discriminate|].
  destruct (str_eqb cat CategorySecurityDangerous) eqn:E2;
    [apply str_eqb_true in E2; subst; discriminate|]. done.
Qed.

(** The derived action never blocks a PII policy. *)
Lemma derived_action_pii p phase :
  IsPIIPolicyCategory (Category p) = true ->
  ActionRequest p = "" -> ActionResponse p = "" ->
  GetActionForPhase p phase = ActionRedact.
Proof.
  intros Hc Hq Hs. unfold GetActionForPhase. rewrite Hc, Hq, Hs.
  by destruct (str_eqb phase PhaseRequest), (str_eqb phase PhaseResponse).
Qed.
