(* ===== verification/Validators.v ===== *)
(** The semantic validators of platform/shared/policy/validators.go: checksums
    (Luhn, MOD 97, ABA), format rules and context gates, with the selection of
    a validator from a policy id or a category. *)

From S2P Require Import Prelude GoFloat GoStrings Regexp PolicyTypes.

Local Open Scope Z_scope.

Definition reject : bool * float64 := (false, f64_zero).

Section Validators.
Context `{U : Unicode}.

(** * Helpers *)

(** [extractDigits]: the runes of class Nd, re-encoded. *)
Definition extractDigits (s : string) : string :=
  of_bytes (mjoin ((fun p => if IsDigit p.1 then encode_rune p.1 else []) <$> runes s)).

(** [allSameDigit]: each rune, truncated to a byte, equals the first byte. *)
Definition allSameDigit (s : string) : bool :=
  match bytes s with
  | [] => false
  | first :: _ => forallb (fun p => p.1 mod 256 =? first) (runes s)
  end.

(** [leftContextOf]: what precedes the first occurrence of the match. *)
Definition leftContextOf (mtch context : string) : string :=
  match Index context mtch with
  | Some idx => slice context 0 idx
  | None => context
  end.

Definition endsWithWordChar (s : string) : bool :=
  match last (runes s) with
  | None => false
  | Some (r, _) => IsLetter r || IsDigit r || (r =? 95)
  end.

(** * Credit cards *)

(** [luhnCheck], from the rightmost byte to the leftmost; [digits[i] - '0'] is
    a byte subtraction, so it wraps. *)
Fixpoint luhn_loop (rev_bytes : list Z) (isSecond : bool) (sum : Z) : Z :=
  match rev_bytes with
  | [] => sum
  | b :: l =>
      let d := (b - 48) mod 256 in
      let d := if isSecond then (if 9 <? d * 2 then d * 2 - 9 else d * 2) else d in
      luhn_loop l (negb isSecond) (sum + d)
  end.

Definition luhnCheck (digits : string) : bool :=
  luhn_loop (rev (bytes digits)) false 0 mod 10 =? 0.

Definition cc_positive : list string :=
  ["card"; "credit"; "debit"; "payment"; "visa"; "mastercard"; "amex";
   "american express"; "discover"; "jcb"; "diners"; "cc"; "cvv"; "expir"].
Definition cc_negative : list string :=
  ["phone"; "fax"; "tel"; "id"; "order"; "invoice"; "tracking"; "reference"].

Definition ValidateCreditCard (mtch context : string) : bool * float64 :=
  let digits := extractDigits mtch in
  if (len digits <? 13)%nat || (19 <? len digits)%nat then reject
  else if negb (luhnCheck digits) then reject
  else
    let lowerContext := ToLower context in
    let confidence := if contains_any lowerContext cc_positive then f64_lit 95 100 else f64_lit 8 10 in
    let confidence := if contains_any lowerContext cc_negative
                      then f64_sub confidence (f64_lit 2 10) else confidence in
    let confidence := if f64_ltb confidence (f64_lit 5 10) then f64_lit 5 10 else confidence in
    (true, confidence).

(** * US social security numbers *)

Definition ssn_strong : list string := ["ssn"; "social security"; "tax id"; "taxpayer"].
Definition ssn_weak : list string := ["employee"; "applicant"; "patient"; "member"].
Definition ssn_negative : list string :=
  ["order"; "invoice"; "tracking"; "reference"; "phone"; "zip"; "postal";
   "account"; "routing"; "sku"; "product"; "item"].

Definition ssn_confidence (lowerContext : string) : float64 :=
  let confidence := if contains_any lowerContext ssn_strong then f64_lit 95 100 else f64_lit 6 10 in
  let confidence := if contains_any lowerContext ssn_weak
                    then (if f64_ltb confidence (f64_lit 8 10) then f64_lit 8 10 else confidence)
                    else confidence in
  if contains_any lowerContext ssn_negative then f64_sub confidence (f64_lit 3 10) else confidence.

Definition ValidateSSN (mtch context : string) : bool * float64 :=
  let digits := extractDigits mtch in
  if negb (len digits =? 9)%nat then reject
  else
    let area := (Atoi (slice digits 0 3)).1 in
    let group := (Atoi (slice digits 3 5)).1 in
    let serial := (Atoi (slice digits 5 9)).1 in
    if (area =? 0) || (area =? 666) || ((900 <=? area) && (area <=? 999)) then reject
    else if group =? 0 then reject
    else if serial =? 0 then reject
    else
      let confidence := ssn_confidence (ToLower context) in
      if f64_leb confidence (f64_lit 3 10) then reject else (true, confidence).

(** * IBAN *)

(** [mod97]: streaming remainder over the runes; [%] truncates. *)
Definition mod97_step (remainder c : Z) : Z := Z.rem (remainder * 10 + (c - 48)) 97.
Definition mod97 (numStr : string) : Z :=
  foldl (fun r p => mod97_step r p.1) 0 (runes numStr).

(** Letters to numbers, [A] = 10 to [Z] = 35. *)
Definition iban_numeric (rearranged : string) : string :=
  of_bytes (mjoin ((fun p => if IsLetter p.1 then bytes (Itoa (p.1 - 65 + 10))
                             else encode_rune p.1) <$> runes rearranged)).

Definition byte_is (f : Z -> bool) (s : string) (i : nat) : bool :=
  match byte_at s i with Some b => f b | None => false end.

Definition ValidateIBAN (mtch context : string) : bool * float64 :=
  let iban := ToUpper (RemoveAll mtch " "%char) in
  if (len iban <? 15)%nat || (34 <? len iban)%nat then reject
  else if negb (byte_is IsLetter iban 0) || negb (byte_is IsLetter iban 1) then reject
  else if negb (byte_is IsDigit iban 2) || negb (byte_is IsDigit iban 3) then reject
  else
    let rearranged := slice iban 4 (len iban) +:+ slice iban 0 4 in
    if negb (mod97 (iban_numeric rearranged) =? 1) then reject
    else
      let lowerContext := ToLower context in
      (true, if contains_any lowerContext ["iban"; "bank"; "account"; "transfer"]
             then f64_lit 95 100 else f64_lit 9 10).

(** * Aadhaar, PAN *)

Definition aadhaarLabelRe : regex :=
  MustCompile "(?i)\b(aadhaar|aadhar|uidai|uid|unique\s*id)\b\s*(?:number|no\.?|num|card|id)?\s*[:#=.\-]?\s*$".
Definition aadhaarLabelInMatchRe : regex :=
  MustCompile "(?i)^\s*(aadhaar|aadhar|uidai|uid|unique\s*id)\b".

Definition ValidateAadhaar (mtch context : string) : bool * float64 :=
  let digits := extractDigits mtch in
  if negb (len digits =? 12)%nat then reject
  else if byte_is (fun b => (b <? 50) || (57 <? b)) digits 0 then reject
  else if allSameDigit digits then reject
  else
    let left := leftContextOf mtch context in
    let labelInLeft := MatchString aadhaarLabelRe left in
    let labelInMatch := MatchString aadhaarLabelInMatchRe mtch && negb (endsWithWordChar left) in
    if negb labelInLeft && negb labelInMatch then reject else (true, f64_lit 95 100).

Definition entityTypes : list Z := bytes "PCHABGJLFT".

Definition ValidatePAN (mtch context : string) : bool * float64 :=
  let pan := ToUpper (TrimSpace mtch) in
  if negb (len pan =? 10)%nat then reject
  else if negb (forallb (byte_is IsLetter pan) [0; 1; 2]%nat) then reject
  else if negb (byte_is (fun b => bool_decide (b ∈ entityTypes)) pan 3) then reject
  else if negb (byte_is IsLetter pan 4) then reject
  else if negb (forallb (byte_is IsDigit pan) [5; 6; 7; 8]%nat) then reject
  else if negb (byte_is IsLetter pan 9) then reject
  else (true, if contains_any (ToLower context) ["pan"; "income tax"; "tax id"; "permanent account"]
              then f64_lit 95 100 else f64_lit 8 10).

(** * Email, phone, IP address *)

Definition emailRegex : regex :=
  MustCompile "^[a-zA-Z0-9._%+\-]+@[a-zA-Z0-9.\-]+\.[a-zA-Z]{2,}$".
Definition disposableDomains : list string :=
  ["tempmail"; "throwaway"; "guerrillamail"; "10minutemail"; "mailinator"].

Definition ValidateEmail (mtch context : string) : bool * float64 :=
  if negb (MatchString emailRegex mtch) then reject
  else
    let confidence := if contains_any (ToLower mtch) disposableDomains
                      then f64_lit 6 10 else f64_lit 8 10 in
    let confidence := if contains_any (ToLower context) ["email"; "contact"; "address"]
                      then f64_add confidence (f64_lit 1 10) else confidence in
    (true, if f64_ltb f64_one confidence then f64_one else confidence).

Definition phone_positive : list string := ["phone"; "tel"; "mobile"; "cell"; "contact"; "call"].
Definition phone_negative : list string := ["zip"; "postal"; "year"; "amount"; "price"; "id"; "code"].

Definition ValidatePhone (mtch context : string) : bool * float64 :=
  let digits := extractDigits mtch in
  if (len digits <? 7)%nat || (15 <? len digits)%nat then reject
  else if allSameDigit digits then reject
  else
    let lowerContext := ToLower context in
    let confidence := if contains_any lowerContext phone_positive then f64_lit 85 100 else f64_lit 6 10 in
    let confidence := if contains_any lowerContext phone_negative
                      then f64_sub confidence (f64_lit 2 10) else confidence in
    if f64_ltb confidence (f64_lit 4 10) then reject else (true, confidence).

Definition ipVersionLabelRe : regex :=
  MustCompile ("(?i)\b(version|ver|semver|firmware|revision)\b[" +:+ String "034" "':#=.\-\s]*$").

(** RFC special-purpose ranges, never a person's address. *)
Definition ip_special (a b c : Z) : bool :=
  (a =? 0) || (a =? 127) || (224 <=? a)
  || ((a =? 169) && (b =? 254))
  || ((a =? 100) && (64 <=? b) && (b <=? 127))
  || ((a =? 192) && (b =? 0) && (c =? 2))
  || ((a =? 198) && (b =? 51) && (c =? 100))
  || ((a =? 203) && (b =? 0) && (c =? 113)).

Definition ip_private (a b : Z) : bool :=
  (a =? 10) || ((a =? 172) && (16 <=? b) && (b <=? 31)) || ((a =? 192) && (b =? 168)).

Definition octet_ok (part : string) : bool :=
  let '(num, ok) := Atoi part in ok && negb ((num <? 0) || (255 <? num)).

Definition ValidateIPAddress (mtch context : string) : bool * float64 :=
  let parts := Split mtch "."%char in
  if negb (length parts =? 4)%nat then reject
  else if negb (forallb octet_ok parts) then reject
  else
    let octet i := (Atoi (default "" (parts !! i))).1 in
    let a := octet 0%nat in let b := octet 1%nat in let c := octet 2%nat in
    if ip_special a b c then reject
    else
      let isPrivate := ip_private a b in
      let confidence := if isPrivate then f64_lit 5 10 else f64_lit 7 10 in
      let confidence := if contains_any (ToLower context) ["ip"; "address"; "server"; "host"]
                        then (if negb isPrivate then f64_lit 85 100 else confidence)
                        else confidence in
      if MatchString ipVersionLabelRe (leftContextOf mtch context) then reject
      else if f64_ltb confidence (f64_lit 3 10) then reject
      else (true, confidence).

(** * US bank accounts *)

(** [validateABARouting]: the 3-7-1 checksum of nine characters. [d[i]] is
    written at the byte offset of each rune and read for every offset. *)
Definition aba_weight (i : nat) : Z :=
  match (i mod 3)%nat with O => 3 | S O => 7 | _ => 1 end.

Fixpoint aba_sum (rs : list (Z * list Z)) (offset : nat) : Z :=
  match rs with
  | [] => 0
  | (c, b) :: rs' => aba_weight offset * (c - 48) + aba_sum rs' (offset + length b)
  end.

Definition validateABARouting (routing : string) : bool :=
  if negb (len routing =? 9)%nat then false
  else Z.rem (aba_sum (runes routing) 0) 10 =? 0.

Definition ValidateBankAccount (mtch context : string) : bool * float64 :=
  let digits := extractDigits mtch in
  if (len digits <? 17)%nat || (26 <? len digits)%nat then reject
  else if negb (validateABARouting (slice digits 0 9)) then reject
  else (true, if contains_any (ToLower context)
                   ["bank"; "account"; "routing"; "aba"; "wire"; "transfer"; "deposit"]
              then f64_lit 9 10 else f64_lit 75 100).

(** * Passports, dates of birth *)

Definition passportLabelRe : regex :=
  MustCompile "(?i)\b(passport|travel document|travel doc)\b\s*(?:number|no\.?|num)?\s*[:#=.\-]?\s*$".
Definition dobLabelRe : regex :=
  MustCompile "(?i)\b(d\.?o\.?b\.?|date of birth|birth ?date|birthday|born)\b\s*(?:of|on|is|was)?\s*[:#=.\-]?\s*$".

(** The shape loop of [ValidatePassport]: letters, then digits. *)
Fixpoint passport_loop (rs : list (Z * list Z)) (letters digits : nat) (digitsSeen : bool)
  : option (nat * nat) :=
  match rs with
  | [] => Some (letters, digits)
  | (c, _) :: rs' =>
      if IsLetter c then
        (if digitsSeen then None else passport_loop rs' (S letters) digits digitsSeen)
      else if IsDigit c then passport_loop rs' letters (S digits) true
      else None
  end.

Definition ValidatePassport (mtch context : string) : bool * float64 :=
  match passport_loop (runes (TrimSpace mtch)) 0 0 false with
  | None => reject
  | Some (letters, digits) =>
      if (letters <? 1)%nat || (2 <? letters)%nat || (digits <? 6)%nat || (9 <? digits)%nat then reject
      else if MatchString passportLabelRe (leftContextOf mtch context)
      then (true, f64_lit 95 100) else reject
  end.

Definition ValidateDOB (mtch context : string) : bool * float64 :=
  if MatchString dobLabelRe (leftContextOf mtch context) then (true, f64_lit 95 100) else reject.

(** * Singapore identifiers *)

Definition sgPostalLabelRe : regex :=
  MustCompile "(?i)\b(singapore|s'?pore|postal\s*code|post\s*code|postcode|zip\s*code)\b\s*(?:is|:|=|#|\-)?\s*$".
Definition sgUENLabelRe : regex :=
  MustCompile "(?i)\b(uen|unique\s*entity\s*(?:number|no\.?|num)?|entity\s*(?:number|no\.?)|business\s*reg(?:istration)?\s*(?:number|no\.?)?|acra)\b\s*(?:is|:|=|#|\-)?\s*$".
Definition structuredUENRe : regex := MustCompile "^[TS]\d{2}[A-Z]{2}\d{4}[A-Z]$".
Definition sgICLabelRe : regex :=
  MustCompile "(?i)(?:\b(?:nric|national\s*registration(?:\s*identity)?(?:\s*card)?|foreign\s*identification(?:\s*number)?|identity\s*card)\b\s*(?:number|no\.?|num)?\s*[:#=.\-]?|\bfin\b\s*(?:no\.?|number|num|card|[:#=.\-]))\s*$".

Definition ValidateSingaporePostal (mtch context : string) : bool * float64 :=
  if MatchString sgPostalLabelRe (leftContextOf mtch context) then (true, f64_lit 95 100) else reject.

Definition ValidateSingaporeUEN (mtch context : string) : bool * float64 :=
  let clean := ToUpper (TrimSpace mtch) in
  if MatchString structuredUENRe clean then (true, f64_lit 95 100)
  else if MatchString sgUENLabelRe (leftContextOf mtch context) then (true, f64_lit 9 10)
  else reject.

Definition ValidateSingaporeNRIC (mtch context : string) : bool * float64 :=
  if MatchString sgICLabelRe (leftContextOf mtch context) then (true, f64_lit 9 10) else reject.

Definition ValidateSingaporeFIN (mtch context : string) : bool * float64 :=
  if MatchString sgICLabelRe (leftContextOf mtch context) then (true, f64_lit 9 10) else reject.

(** * Selection *)

(** The keys of [ValidatorRegistry]: the name of a validator. *)
Inductive validator_key : Type :=
| KCreditCard | KSSN | KIBAN | KAadhaar | KPAN | KEmail | KPhone | KIPAddress
| KBankAccount | KPassport | KDOB | KSgPostal | KSgUEN | KSgNRIC | KSgFIN.

Definition ValidatorRegistry (key : string) : option validator_key :=
  if str_eqb key "credit_card" then Some KCreditCard
  else if str_eqb key "ssn" then Some KSSN
  else if str_eqb key "iban" then Some KIBAN
  else if str_eqb key "aadhaar" then Some KAadhaar
  else if str_eqb key "pan" then Some KPAN
  else if str_eqb key "email" then Some KEmail
  else if str_eqb key "phone" then Some KPhone
  else if str_eqb key "ip_address" then Some KIPAddress
  else if str_eqb key "bank_account" then Some KBankAccount
  else if str_eqb key "passport" then Some KPassport
  else if str_eqb key "dob" then Some KDOB
  else if str_eqb key "sg_postal" then Some KSgPostal
  else if str_eqb key "sg_uen" then Some KSgUEN
  else if str_eqb key "sg_nric" then Some KSgNRIC
  else if str_eqb key "sg_fin" then Some KSgFIN
  else None.

Definition run_validator (k : validator_key) : ValidatorFunc :=
  match k with
  | KCreditCard => ValidateCreditCard | KSSN => ValidateSSN | KIBAN => ValidateIBAN
  | KAadhaar => ValidateAadhaar | KPAN => ValidatePAN | KEmail => ValidateEmail
  | KPhone => ValidatePhone | KIPAddress => ValidateIPAddress
  | KBankAccount => ValidateBankAccount | KPassport => ValidatePassport
  | KDOB => ValidateDOB | KSgPostal => ValidateSingaporePostal
  | KSgUEN => ValidateSingaporeUEN | KSgNRIC => ValidateSingaporeNRIC
  | KSgFIN => ValidateSingaporeFIN
  end.

Definition GetValidatorByType (piiType : string) : option validator_key :=
  ValidatorRegistry (ToLower piiType).

Definition GetValidatorForCategory (category : string) : option validator_key :=
  if str_eqb category CategoryPIIGlobal then Some KCreditCard
  else if str_eqb category CategoryPIIUS then Some KSSN
  else if str_eqb category CategoryPIIIndia then Some KAadhaar
  else if str_eqb category CategoryPIIEU then Some KIBAN
  else None.

Definition validatorTokenMappings : list (string * string) :=
  [("credit_card", "credit_card"); ("bank_account", "bank_account"); ("ip_address", "ip_address");
   ("ssn", "ssn"); ("iban", "iban"); ("aadhaar", "aadhaar"); ("pan", "pan"); ("email", "email");
   ("phone", "phone"); ("passport", "passport"); ("dob", "dob"); ("postal", "sg_postal");
   ("uen", "sg_uen"); ("nric", "sg_nric"); ("fin", "sg_fin"); ("ip", "ip_address");
   ("bank", "bank_account")].

Definition ValidatorForPolicyID (policyID : string) : option validator_key :=
  let segments := "_" +:+ ToLower policyID +:+ "_" in
  match find_first (fun m => Contains segments ("_" +:+ m.1 +:+ "_")) validatorTokenMappings with
  | Some m => ValidatorRegistry m.2
  | None => None
  end.

(** [PolicyLoader.getValidatorForPolicy] *)
Definition getValidatorForPolicy (policyID category : string) : option validator_key :=
  match ValidatorForPolicyID policyID with
  | Some v => Some v
  | None => GetValidatorForCategory category
  end.
End Validators.

(** Correctness of the validators: what the checksum routines detect, that the
    streaming remainder is the remainder, and which inputs each gate accepts. *)

Abbreviation digit_byte b := (48 <= b <= 57).
Abbreviation digit_bytes l := (Forall (fun b => digit_byte b) l).

(** * Luhn *)

(** The contribution of one byte. *)
Definition luhn_term (isSecond : bool) (b : Z) : Z :=
  let d := (b - 48) mod 256 in
  if isSecond then (if 9 <? d * 2 then d * 2 - 9 else d * 2) else d.

Definition odd_flip (n : nat) (b : bool) : bool := xorb (Nat.odd n) b.

Lemma luhn_loop_sum l b acc : luhn_loop l b acc = acc + luhn_loop l b 0.
Proof.
  revert b acc. induction l as [|x l IH]; intros b acc; simpl; [lia|].
  rewrite (IH _ (acc + _)), (IH _ (0 + _)) || rewrite (IH _ (acc + _)), (IH _ (if b then _ else _)). lia.
Qed.

Lemma luhn_loop_cons x l b :
  luhn_loop (x :: l) b 0 = luhn_term b x + luhn_loop l (negb b) 0.
Proof. cbn [luhn_loop]. by rewrite luhn_loop_sum. Qed.

Lemma luhn_loop_app l1 l2 b :
  luhn_loop (l1 ++ l2) b 0 = luhn_loop l1 b 0 + luhn_loop l2 (odd_flip (length l1) b) 0.
Proof.
  revert b. induction l1 as [|x l1 IH]; intros b; [by destruct b|].
  cbn [app length]. rewrite !luhn_loop_cons, IH.
  unfold odd_flip. rewrite Nat.odd_succ, <- Nat.negb_odd.
  replace (xorb (Nat.odd (length l1)) (negb b)) with (xorb (negb (Nat.odd (length l1))) b)
    by (by destruct (Nat.odd _), b). lia.
Qed.

Lemma luhn_loop_mid p x q b :
  luhn_loop (p ++ x :: q) b 0 =
  luhn_loop p b 0 + luhn_term (odd_flip (length p) b) x
  + luhn_loop q (negb (odd_flip (length p) b)) 0.
Proof. rewrite luhn_loop_app, luhn_loop_cons. lia. Qed.

Definition digits10 : list Z := [48; 49; 50; 51; 52; 53; 54; 55; 56; 57].

Lemma digit_byte_in b : digit_byte b -> b ∈ digits10.
Proof.
  intros H. assert (Hb : b = 48 \/ b = 49 \/ b = 50 \/ b = 51 \/ b = 52 \/ b = 53 \/ b = 54
    \/ b = 55 \/ b = 56 \/ b = 57) by lia.
  unfold digits10. rewrite !elem_of_cons. tauto.
Qed.

(** A boolean statement over all digit bytes is checked by evaluation. *)
Lemma all_digits (P : Z -> bool) : forallb P digits10 = true -> forall b, digit_byte b -> P b = true.
Proof.
  intros H b Hb%digit_byte_in. rewrite forallb_forall in H. apply H. by apply list_elem_of_In.
Qed.

Lemma luhn_term_range s b : digit_byte b -> 0 <= luhn_term s b <= 9.
Proof.
  intros H. apply (all_digits (fun b => in_range 0 9 (luhn_term s b))) in H;
    [unfold in_range in H; lia|by destruct s].
Qed.

Lemma luhn_term_inj s a b :
  digit_byte a -> digit_byte b -> luhn_term s a = luhn_term s b -> a = b.
Proof.
  intros Ha Hb. revert b Hb.
  apply (all_digits (fun a => forallb (fun b => implb (luhn_term s a =? luhn_term s b) (a =? b)) digits10))
    in Ha; [|by destruct s].
  intros b Hb%(all_digits _ Ha). lia.
Qed.

Lemma luhnCheck_bytes l :
  digit_bytes l -> luhnCheck (of_bytes l) = (luhn_loop (rev l) false 0 mod 10 =? 0).
Proof.
  intros H. unfold luhnCheck. rewrite bytes_of_bytes; [done|].
  eapply Forall_impl; [done|]. simpl. lia.
Qed.

Lemma luhnCheck_mid p x q :
  digit_bytes (p ++ x :: q) ->
  luhnCheck (of_bytes (p ++ x :: q)) =
  ((luhn_loop (rev q) false 0 + luhn_term (odd_flip (length q) false) x
    + luhn_loop (rev p) (negb (odd_flip (length q) false)) 0) mod 10 =? 0).
Proof.
  intros H. rewrite luhnCheck_bytes by done.
  rewrite rev_app_distr. cbn [rev]. rewrite <- app_assoc. cbn [app].
  rewrite luhn_loop_mid, length_rev. done.
Qed.

(** The Luhn check detects every single-digit substitution: a digit string
    that passes [luhnCheck] fails it as soon as one digit, at any position, is
    replaced by a different digit. *)
Theorem luhn_detects_substitution (p q : list Z) (a b : Z) :
  digit_bytes (p ++ a :: q) -> digit_byte b -> a <> b ->
  luhnCheck (of_bytes (p ++ a :: q)) = true ->
  luhnCheck (of_bytes (p ++ b :: q)) = false.
Proof.
  intros Hd Hb Hne Ha.
  assert (Hd' : digit_bytes (p ++ b :: q)).
  { rewrite Forall_app, Forall_cons in *. tauto. }
  assert (Hda : digit_byte a) by (rewrite Forall_app, Forall_cons in Hd; tauto).
  rewrite luhnCheck_mid in Ha by done. rewrite luhnCheck_mid by done.
  set (f := odd_flip (length q) false) in *.
  pose proof (luhn_term_range f a Hda). pose proof (luhn_term_range f b Hb).
  destruct (Z.eqb_spec ((luhn_loop (rev q) false 0 + luhn_term f b + luhn_loop (rev p) (negb f) 0) mod 10) 0)
    as [E|]; [|done].
  exfalso. apply Hne, (luhn_term_inj f); [done..|].
  apply Z.eqb_eq in Ha. lia_mod.
Qed.

Lemma luhn_detects_substitution_witness :
  luhnCheck (of_bytes (bytes "411111111111111" ++ [49])) = true /\
  luhnCheck (of_bytes (bytes "411111111111111" ++ [50])) = false.
Proof.
  assert (H : luhnCheck (of_bytes (bytes "411111111111111" ++ [49])) = true) by reflexivity.
  split; [exact H|].
  apply (luhn_detects_substitution (bytes "411111111111111") [] 49 50).
  - cbv [bytes chars String.list_ascii_of_string fmap list_fmap app byte_val N_of_ascii].
    repeat constructor; cbv; congruence.
  - cbv; split; congruence.
  - congruence.
  - exact H.
Defined.

(** The Luhn check detects every transposition of two adjacent digits
    except the swap of 0 and 9, the algorithm's known blind spot. *)
Theorem luhn_detects_transposition (p q : list Z) (a b : Z) :
  digit_bytes (p ++ a :: b :: q) -> a <> b ->
  ~ (a = 48 /\ b = 57) -> ~ (a = 57 /\ b = 48) ->
  luhnCheck (of_bytes (p ++ a :: b :: q)) = true ->
  luhnCheck (of_bytes (p ++ b :: a :: q)) = false.
Proof.
  intros Hd Hne H09 H90 H.
  assert (Hab : digit_byte a /\ digit_byte b /\ digit_bytes (p ++ b :: a :: q)).
  { rewrite !Forall_app, !Forall_cons in *. tauto. }
  destruct Hab as (Ha & Hb & Hd').
  rewrite luhnCheck_bytes in H by done. rewrite luhnCheck_bytes by done.
  rewrite !rev_app_distr in *. cbn [rev] in *. rewrite <- !app_assoc in *. cbn [app] in *.
  rewrite luhn_loop_mid in H. rewrite luhn_loop_mid.
  rewrite luhn_loop_cons in H. rewrite luhn_loop_cons.
  set (f := odd_flip (length (rev q)) false) in *.
  set (rest := luhn_loop (rev p) _ 0) in *. clearbody rest.
  set (pre := luhn_loop (rev q) false 0) in *. clearbody pre.
  assert (Hpair : implb ((luhn_term f b + luhn_term (negb f) a
                          - luhn_term f a - luhn_term (negb f) b) mod 10 =? 0)
                    ((a =? b) || ((a =? 48) && (b =? 57)) || ((a =? 57) && (b =? 48))) = true).
  { revert b Hb Hne H09 H90 Hd Hd' H. clearbody f.
    apply (all_digits (fun a => forallb (fun b =>
        implb ((luhn_term f b + luhn_term (negb f) a - luhn_term f a - luhn_term (negb f) b) mod 10 =? 0)
              ((a =? b) || ((a =? 48) && (b =? 57)) || ((a =? 57) && (b =? 48)))) digits10)) in Ha;
      [|by destruct f].
    intros b Hb%(all_digits _ Ha) _ _ _ _ _ _. done. }
  match goal with |- (?x mod 10 =? 0) = false => destruct (Z.eqb_spec (x mod 10) 0) as [E|]; [|done] end.
  apply Z.eqb_eq in H. exfalso.
  assert (Hz : (luhn_term f b + luhn_term (negb f) a - luhn_term f a - luhn_term (negb f) b) mod 10 = 0).
  { match type of H with ?x mod 10 = 0 => match type of E with ?y mod 10 = 0 =>
      replace (luhn_term f b + luhn_term (negb f) a - luhn_term f a - luhn_term (negb f) b) with (x - y) by lia;
      rewrite Zminus_mod, H, E; reflexivity end end. }
  rewrite Hz in Hpair. simpl in Hpair. lia.
Qed.

Lemma luhn_detects_transposition_witness :
  luhnCheck (of_bytes (bytes "41111111111111" ++ [50; 57])) = true /\
  luhnCheck (of_bytes (bytes "41111111111111" ++ [57; 50])) = false.
Proof.
  assert (H : luhnCheck (of_bytes (bytes "41111111111111" ++ [50; 57])) = true) by reflexivity.
  split; [exact H|].
  apply (luhn_detects_transposition (bytes "41111111111111") [] 50 57).
  - cbv [bytes chars String.list_ascii_of_string fmap list_fmap app byte_val N_of_ascii].
    repeat constructor; cbv; congruence.
  - congruence.
  - intros [? ?]; congruence.
  - intros [? ?]; congruence.
  - exact H.
Defined.

(** For every digit payload there is exactly one check digit that makes the
    extended number pass [luhnCheck]: the check neither rejects a whole account
    range nor accepts two check digits for one account. *)
Theorem luhn_unique_check_digit (p : list Z) :
  digit_bytes p ->
  exists c, digit_byte c /\ luhnCheck (of_bytes (p ++ [c])) = true /\
    forall c', digit_byte c' -> luhnCheck (of_bytes (p ++ [c'])) = true -> c' = c.
Proof.
  intros Hp.
  assert (Hx : forall x, digit_byte x ->
    luhnCheck (of_bytes (p ++ [x])) = ((x - 48 + luhn_loop (rev p) true 0) mod 10 =? 0)).
  { intros x Hx. rewrite luhnCheck_bytes by (rewrite Forall_app, Forall_singleton; tauto).
    rewrite rev_unit, luhn_loop_cons. unfold luhn_term. simpl negb.
    by rewrite (Z.mod_small (x - 48)) by lia. }
  exists (48 + (- luhn_loop (rev p) true 0) mod 10).
  pose proof (Z.mod_pos_bound (- luhn_loop (rev p) true 0) 10 ltac:(lia)) as Hb.
  split; [lia|]. split.
  - rewrite Hx by lia. apply Z.eqb_eq. lia_mod.
  - intros c' Hc'. rewrite Hx by done. intros E%Z.eqb_eq. lia_mod.
Qed.

Lemma luhn_unique_check_digit_witness :
  exists c, digit_byte c /\ luhnCheck (of_bytes (bytes "411111111111111" ++ [c])) = true /\
    forall c', digit_byte c' -> luhnCheck (of_bytes (bytes "411111111111111" ++ [c'])) = true -> c' = c.
Proof.
  apply luhn_unique_check_digit.
  cbv [bytes chars String.list_ascii_of_string fmap list_fmap app byte_val N_of_ascii].
  repeat constructor; cbv; congruence.
Defined.

(** * MOD 97 *)

Lemma is_digits_bytes s : is_digits s = true -> digit_bytes (bytes s).
Proof.
  unfold is_digits, in_range. rewrite forallb_forall. intros H. apply Forall_forall.
  intros b Hb%list_elem_of_In. specialize (H b Hb). lia.
Qed.

Lemma runes_digits s : is_digits s = true -> runes s = (fun b => (b, [b])) <$> bytes s.
Proof.
  intros H%is_digits_bytes. unfold runes. apply runes_fuel_ascii.
  - by rewrite length_bytes.
  - eapply Forall_impl; [done|]. simpl. lia.
Qed.

Lemma is_digits_of_bytes l : digit_bytes l -> is_digits (of_bytes l) = true /\ bytes (of_bytes l) = l.
Proof.
  intros H. assert (Hb : bytes (of_bytes l) = l).
  { apply bytes_of_bytes. eapply Forall_impl; [done|]. simpl. lia. }
  split; [|done]. unfold is_digits. rewrite Hb. apply forallb_forall.
  intros x Hx%list_elem_of_In. rewrite Forall_forall in H. specialize (H x Hx).
  unfold in_range. lia.
Qed.

Lemma mod97_fold l acc :
  digit_bytes l -> 0 <= acc ->
  foldl (fun r p => mod97_step r p.1) (acc mod 97) ((fun b => (b, [b])) <$> l)
  = decimal ((fun b => b - 48) <$> l) acc mod 97.
Proof.
  intros H. revert acc. induction H as [|b l Hb _ IH]; intros acc Hacc; [done|].
  csimpl. rewrite <- IH by lia. f_equal. unfold mod97_step.
  pose proof (Z.mod_pos_bound acc 97 ltac:(lia)).
  rewrite Z.rem_mod_nonneg by lia.
  rewrite <- (Z.add_mod_idemp_l (acc * 10)), <- (Z.mul_mod_idemp_l acc) by lia.
  by rewrite Z.add_mod_idemp_l by lia.
Qed.

(** The streaming [mod97] over a digit string equals the remainder modulo 97
    of the decimal number it spells, whatever its length (no overflow). *)
Theorem mod97_spec (s : string) :
  is_digits s = true -> mod97 s = decimal_value s mod 97.
Proof.
  intros H. unfold mod97, decimal_value, digit_vals. rewrite runes_digits by done.
  apply (mod97_fold _ 0); [by apply is_digits_bytes|lia].
Qed.

Lemma mod97_spec_witness :
  is_digits "3214282912345698765432161182" = true /\
  mod97 "3214282912345698765432161182" = decimal_value "3214282912345698765432161182" mod 97.
Proof. split; [reflexivity|]. apply mod97_spec. reflexivity. Defined.

Lemma decimal_app l1 l2 acc : decimal (l1 ++ l2) acc = decimal l2 (decimal l1 acc).
Proof. revert acc. induction l1; intros; simpl; auto. Qed.

Lemma decimal_acc l acc : decimal l acc = acc * 10 ^ Z.of_nat (length l) + decimal l 0.
Proof.
  revert acc. induction l as [|d l IH]; intros acc; cbn [decimal length].
  - change (Z.of_nat 0) with 0. lia.
  - rewrite IH, (IH (0 * 10 + d)). rewrite Nat2Z.inj_succ, Z.pow_succ_r by lia. lia.
Qed.

Lemma decimal_substitution p q a b :
  decimal (p ++ a :: q) 0 - decimal (p ++ b :: q) 0 = (a - b) * 10 ^ Z.of_nat (length q).
Proof.
  rewrite !decimal_app. cbn [decimal]. rewrite (decimal_acc q (_ * 10 + a)), (decimal_acc q (_ * 10 + b)).
  lia.
Qed.

Lemma divide_97_pow10 x k : (97 | x * 10 ^ Z.of_nat k) -> (97 | x).
Proof.
  induction k as [|k IH].
  - change (10 ^ Z.of_nat 0) with 1. by rewrite Z.mul_1_r.
  - rewrite Nat2Z.inj_succ, Z.pow_succ_r by lia. intros H. apply IH.
    apply (Z.gauss 97 10); [|reflexivity].
    by replace (10 * (x * 10 ^ Z.of_nat k)) with (x * (10 * 10 ^ Z.of_nat k)) by lia.
Qed.

(** MOD 97 detects every single-digit substitution in a digit string of any
    length, hence every single-digit typing error of a numeric IBAN. *)
Theorem mod97_detects_substitution (p q : list Z) (a b : Z) :
  digit_bytes (p ++ a :: q) -> digit_byte b -> a <> b ->
  mod97 (of_bytes (p ++ a :: q)) <> mod97 (of_bytes (p ++ b :: q)).
Proof.
  intros Hd Hb Hne.
  assert (Hd' : digit_byte a /\ digit_bytes (p ++ b :: q)).
  { rewrite !Forall_app, !Forall_cons in *. tauto. }
  destruct Hd' as [Ha Hd'].
  apply is_digits_of_bytes in Hd as [Hd E1]. apply is_digits_of_bytes in Hd' as [Hd' E2].
  rewrite !mod97_spec by done. unfold decimal_value, digit_vals. rewrite E1, E2.
  rewrite !fmap_app, !fmap_cons. intros H. apply Hne.
  pose proof (decimal_substitution ((fun b => b - 48) <$> p) ((fun b => b - 48) <$> q) (a - 48) (b - 48)) as Hs.
  set (x := decimal (_ ++ (a - 48) :: _) 0) in *. set (y := decimal (_ ++ (b - 48) :: _) 0) in *.
  assert (Hdiv : (97 | (a - b) * 10 ^ Z.of_nat (length ((fun b => b - 48) <$> q)))).
  { replace (a - b) with (a - 48 - (b - 48)) by lia. rewrite <- Hs.
    apply Z.mod_divide; [lia|]. rewrite Zminus_mod, H, Z.sub_diag. reflexivity. }
  apply divide_97_pow10 in Hdiv. destruct Hdiv as [k Hk]. lia.
Qed.

Lemma mod97_detects_substitution_witness :
  mod97 (of_bytes ([51] ++ 50 :: bytes "14282912345698765432161182"))
  <> mod97 (of_bytes ([51] ++ 53 :: bytes "14282912345698765432161182")).
Proof.
  apply mod97_detects_substitution; [|cbv; split; congruence|congruence].
  cbv [bytes chars String.list_ascii_of_string fmap list_fmap app byte_val N_of_ascii].
  repeat constructor; cbv; congruence.
Defined.

(** * ABA routing numbers *)

Fixpoint aba_digits (l : list Z) (i : nat) : Z :=
  match l with [] => 0 | b :: l' => aba_weight i * (b - 48) + aba_digits l' (S i) end.

Lemma aba_sum_digits l i : aba_sum ((fun b => (b, [b])) <$> l) i = aba_digits l i.
Proof.
  revert i. induction l as [|b l IH]; intros i; [done|]. csimpl.
  rewrite IH, Nat.add_1_r. done.
Qed.

Lemma aba_digits_app p q i : aba_digits (p ++ q) i = aba_digits p i + aba_digits q (i + length p).
Proof.
  revert i. induction p as [|b p IH]; intros i; simpl.
  - by rewrite Nat.add_0_r.
  - rewrite IH. replace (S i + length p)%nat with (i + S (length p))%nat by lia. lia.
Qed.

Lemma aba_digits_nonneg l i : digit_bytes l -> 0 <= aba_digits l i.
Proof.
  intros H. revert i. induction H as [|b l Hb _ IH]; intros i; simpl; [lia|].
  specialize (IH (S i)). unfold aba_weight. destruct (i mod 3)%nat as [|[|]]; lia.
Qed.

Lemma validateABA_bytes l :
  digit_bytes l -> length l = 9%nat ->
  validateABARouting (of_bytes l) = (aba_digits l 0 mod 10 =? 0).
Proof.
  intros Hd Hl. pose proof (aba_digits_nonneg l 0 Hd) as Hpos.
  apply is_digits_of_bytes in Hd as [Hd E].
  unfold validateABARouting. rewrite <- length_bytes, E, Hl. simpl negb. cbv iota.
  rewrite runes_digits, E, aba_sum_digits by done. by rewrite Z.rem_mod_nonneg by lia.
Qed.

(** The ABA checksum detects every single-digit substitution in a nine digit
    routing number. *)
Theorem aba_detects_substitution (p q : list Z) (a b : Z) :
  digit_bytes (p ++ a :: q) -> length (p ++ a :: q) = 9%nat -> digit_byte b -> a <> b ->
  validateABARouting (of_bytes (p ++ a :: q)) = true ->
  validateABARouting (of_bytes (p ++ b :: q)) = false.
Proof.
  intros Hd Hl Hb Hne.
  assert (Hd' : digit_byte a /\ digit_bytes (p ++ b :: q)).
  { rewrite !Forall_app, !Forall_cons in *. tauto. }
  destruct Hd' as [Ha Hd'].
  rewrite !validateABA_bytes; [|done|by rewrite length_app in *|done|done].
  rewrite !aba_digits_app. cbn [aba_digits]. intros E%Z.eqb_eq. apply Z.eqb_neq. intros E'.
  apply Hne. unfold aba_weight in *. destruct ((0 + length p) mod 3)%nat as [|[|]]; lia_mod.
Qed.

Lemma aba_detects_substitution_witness :
  validateABARouting (of_bytes (bytes "0210" ++ 48 :: bytes "0021")) = true /\
  validateABARouting (of_bytes (bytes "0210" ++ 49 :: bytes "0021")) = false.
Proof.
  assert (H : validateABARouting (of_bytes (bytes "0210" ++ 48 :: bytes "0021")) = true) by reflexivity.
  split; [exact H|].
  apply (aba_detects_substitution (bytes "0210") (bytes "0021") 48 49).
  - cbv [bytes chars String.list_ascii_of_string fmap list_fmap app byte_val N_of_ascii].
    repeat constructor; cbv; congruence.
  - reflexivity.
  - cbv; split; congruence.
  - congruence.
  - exact H.
Defined.

(** * Acceptance *)

Section Acceptance.
Context `{U : Unicode}.

Definition ssn_parts_ok (digits : string) : bool :=
  let area := (Atoi (slice digits 0 3)).1 in
  let group := (Atoi (slice digits 3 5)).1 in
  let serial := (Atoi (slice digits 5 9)).1 in
  negb ((area =? 0) || (area =? 666) || ((900 <=? area) && (area <=? 999)))
  && negb (group =? 0) && negb (serial =? 0).

(** [ValidateSSN] accepts exactly the nine digit strings whose area, group
    and serial satisfy the SSA rules, unless the context has a negative
    indicator and neither a strong nor a weak positive one. The float64
    threshold [confidence <= 0.3] decides this because 0.6 - 0.3 rounds to
    exactly 0.3. *)
Theorem ValidateSSN_iff (mtch context : string) :
  (ValidateSSN mtch context).1 =
  ((len (extractDigits mtch) =? 9)%nat && ssn_parts_ok (extractDigits mtch)
   && (negb (contains_any (ToLower context) ssn_negative)
       || contains_any (ToLower context) ssn_strong
       || contains_any (ToLower context) ssn_weak)).
Proof.
  unfold ValidateSSN, ssn_parts_ok, ssn_confidence.
  destruct (len (extractDigits mtch) =? 9)%nat; [|done]. cbn [negb andb].
  destruct ((_ =? 0) || (_ =? 666) || _); [done|]. cbn [negb andb].
  destruct (_ =? 0); [done|]. cbn [negb andb].
  destruct (_ =? 0); [done|]. cbn [negb andb].
  by destruct (contains_any _ ssn_strong), (contains_any _ ssn_weak), (contains_any _ ssn_negative).
Qed.

(** [ValidatePhone] accepts exactly the 7 to 15 digit strings that are not
    one repeated digit, unless the context has a negative indicator and no
    positive one: 0.6 - 0.2 rounds below 0.4, so that case is rejected. *)
Theorem ValidatePhone_iff (mtch context : string) :
  (ValidatePhone mtch context).1 =
  ((7 <=? len (extractDigits mtch))%nat && (len (extractDigits mtch) <=? 15)%nat
   && negb (allSameDigit (extractDigits mtch))
   && (negb (contains_any (ToLower context) phone_negative)
       || contains_any (ToLower context) phone_positive)).
Proof.
  unfold ValidatePhone. rewrite (Nat.leb_antisym _ 7), (Nat.leb_antisym 15).
  destruct (_ <? 7)%nat; [done|]. cbn [negb andb orb].
  destruct (15 <? _)%nat; [done|]. cbn [negb andb].
  destruct (allSameDigit _); [done|]. cbn [negb andb].
  by destruct (contains_any _ phone_positive), (contains_any _ phone_negative).
Qed.

(** Splits every condition that is not a comparison of floats. *)
Ltac split_conditions :=
  repeat match goal with
  | |- context [if ?b then _ else _] =>
      lazymatch b with
      | context [if _ then _ else _] => fail
      | f64_ltb _ _ => fail
      | f64_leb _ _ => fail
      | _ => destruct b
      end
  end.

(** The confidence contract of [ValidatorFunc]: whichever validator runs,
    an accepted match has a confidence between 0.5 and 1.0 (float64) and a
    rejected one has confidence 0. *)
Theorem validator_confidence_range (k : validator_key) (mtch context : string) :
  let '(valid, confidence) := run_validator k mtch context in
  if valid then f64_leb (f64_lit 5 10) confidence = true /\ f64_leb confidence f64_one = true
  else confidence = f64_zero.
Proof.
  destruct k; cbn [run_validator];
    unfold ValidateCreditCard, ValidateSSN, ssn_confidence, ValidateIBAN, ValidateAadhaar,
      ValidatePAN, ValidateEmail, ValidatePhone, ValidateIPAddress, ValidateBankAccount,
      ValidatePassport, ValidateDOB, ValidateSingaporePostal, ValidateSingaporeUEN,
      ValidateSingaporeNRIC, ValidateSingaporeFIN, reject; cbv zeta;
    try (destruct (passport_loop _ _ _ _) as [[? ?]|]);
    split_conditions; vm_compute; auto.
Qed.

(** Every PII token selects its own validator: the policy id
    "sys_pii_<token>" resolves, for each of the 17 tokens, to the registry
    entry the token is mapped to, so no alias (ip, bank) shadows a precise
    token and no seeded id falls back to the category default. *)
Theorem token_selects_own_validator :
  Forall (fun m => is_Some (ValidatorRegistry m.2) /\
                   ValidatorForPolicyID ("sys_pii_" +:+ m.1) = ValidatorRegistry m.2)
    validatorTokenMappings.
Proof. repeat constructor; try (eexists; reflexivity). Qed.
End Acceptance.
