(* ===== verification/Capability.v ===== *)
(** Capability-scoped evaluation (platform/shared/policy/capability.go and the
    two filters of engine.go): which policies may be skipped for which tool.

    Both legs of the classification fail closed: an unknown tool keeps every
    policy, an unclassified policy keeps evaluating for every tool. *)

From S2P Require Import Prelude GoFloat GoStrings Regexp PolicyTypes.

(** * Policy classification *)

Definition executionScopedCategories : list string :=
  [CategorySecuritySQLi; "sql_injection"; "dangerous_queries"].

Definition executionScopedPolicyIDs : list string :=
  ["sys_dangerous_reverse_shell"; "sys_dangerous_destructive_fs";
   "sys_dangerous_credential_access"; "sys_dangerous_shell_download";
   "sys_dangerous_cloud_metadata"; "sys_dangerous_internal_network";
   "sys_dangerous_agent_config"; "sys_dangerous_path_traversal";
   "sys_dangerous_eval_exec"; "sys_dangerous_package_install";
   "int_claude_settings"; "int_claude_hooks"; "int_cursor_settings";
   "int_cursor_hooks"; "int_cursor_rules"; "int_codex_settings";
   "int_openclaw_agent_identity"; "int_openclaw_agent_memory"; "int_openclaw_config"].

Definition contentBorneSecurityDangerousPolicyIDs : list string :=
  ["sys_dangerous_injection_override"; "sys_dangerous_injection_role_override";
   "sys_dangerous_injection_system_exfil"; "sys_dangerous_injection_bracket_marker"].

Definition HasExplicitSecurityDangerousClassification (policyID : string) : bool :=
  str_in policyID executionScopedPolicyIDs || str_in policyID contentBorneSecurityDangerousPolicyIDs.

Definition IsExecutionScopedPolicy (p : CompiledPolicy) : bool :=
  if str_in (Category p) executionScopedCategories then true
  else str_in (PolicyID p) executionScopedPolicyIDs.

(** * Tool classification *)

Definition builtinTextDocumentTools : list string :=
  ["createjiraissue"; "editjiraissue"; "addcommenttojiraissue"; "transitionjiraissue";
   "getjiraissue"; "gettransitionsforjiraissue"; "getjiraissueremoteissuelinks";
   "getvisiblejiraprojects"; "getjiraprojectissuetypesmetadata"; "lookupjiraaccountid";
   "createconfluencepage"; "updateconfluencepage"; "createconfluencefootercomment";
   "createconfluenceinlinecomment"; "getconfluencepage"; "getconfluencespaces";
   "getpagesinconfluencespace"; "getconfluencepageancestors";
   "getconfluencepagefootercomments"; "getconfluencepageinlinecomments";
   "getconfluencepagedescendants";
   "jira_get_issue"; "jira_create_issue"; "jira_update_issue"; "jira_add_comment";
   "jira_transition_issue";
   "confluence_create_page"; "confluence_update_page"; "confluence_add_comment";
   "confluence_get_page"; "confluence_get_comments"].

Section Tools.
Context `{U : Unicode}.

(** The lowercased identity and its terminal segment. *)
Definition normalizeToolIdentity (identity : string) : string * string :=
  let full := ToLower (TrimSpace identity) in
  let terminal := full in
  let terminal :=
    match LastIndexAny terminal "./:" with
    | Some i => slice terminal (i + 1) (len terminal)
    | None => terminal
    end in
  let terminal :=
    match LastIndex terminal "__" with
    | Some i => slice terminal (i + 2) (len terminal)
    | None => terminal
    end in
  (full, terminal).

(** The configured extension set; Go's nil map and an empty map answer every
    lookup alike. *)
Definition buildToolNameSet (names : list string) : gset string :=
  foldl (fun set n =>
           let n := ToLower (TrimSpace n) in
           if str_eqb n "" then set else {[ n ]} ∪ set) ∅ names.

Definition isTextDocumentTool (identity : string) (extra : gset string) : bool :=
  let '(full, terminal) := normalizeToolIdentity identity in
  if str_eqb full "" then false
  else if str_in full builtinTextDocumentTools || str_in terminal builtinTextDocumentTools
  then true
  else bool_decide (full ∈ extra) || bool_decide (terminal ∈ extra).

(** * The filters of the engine

    [disable] is EngineConfig.DisableCapabilityScoping, [extra] the set built
    from EngineConfig.ExtraTextDocumentTools. *)
Definition IsTextDocumentTool (disable : bool) (extra : gset string) (identity : string) : bool :=
  if disable then false else isTextDocumentTool identity extra.

Definition filterByToolCapability (disable : bool) (extra : gset string)
    (policies : list CompiledPolicy) (toolIdentity : string) : list CompiledPolicy :=
  if str_eqb toolIdentity "" || negb (IsTextDocumentTool disable extra toolIdentity)
  then policies
  else List.filter (fun p => negb (IsExecutionScopedPolicy p)) policies.
End Tools.

Definition category_kept (include exclude : list string) (p : CompiledPolicy) : bool :=
  if str_in (Category p) exclude then false
  else if negb (length include =? 0)%nat && negb (str_in (Category p) include) then false
  else true.

Definition filterByCategories (policies : list CompiledPolicy) (include exclude : list string)
  : list CompiledPolicy :=
  if (length include =? 0)%nat && (length exclude =? 0)%nat then policies
  else List.filter (category_kept include exclude) policies.

(** * Lemmas *)

Lemma pii_category_not_execution cat :
  IsPIIPolicyCategory cat = true -> str_in cat executionScopedCategories = false.
Proof.
  intros H. destruct (str_in cat executionScopedCategories) eqn:E; [|done].
  apply str_in_true in E. unfold executionScopedCategories in E.
  rewrite !elem_of_cons in E. set_unfold in E.
  destruct E as [->|[->|[->|[]]]]; discriminate H.
Qed.

Lemma filterByCategories_eq policies include exclude :
  filterByCategories policies include exclude = List.filter (category_kept include exclude) policies.
Proof.
  unfold filterByCategories. destruct include as [|i l], exclude as [|e l']; try done.
  simpl. symmetry. induction policies as [|p l IH]; simpl; [done|]. by f_equal.
Qed.

Section Facts.
Context `{U : Unicode}.

Lemma filterByToolCapability_sublist disable extra policies tool p :
  p ∈ filterByToolCapability disable extra policies tool -> p ∈ policies.
Proof.
  unfold filterByToolCapability. break_goal; [done|].
  by rewrite elem_of_filter_bool; intros [].
Qed.

Lemma elem_of_filterByToolCapability disable extra policies tool p :
  p ∈ filterByToolCapability disable extra policies tool <->
  p ∈ policies /\
  (str_eqb tool "" || negb (IsTextDocumentTool disable extra tool)
   || negb (IsExecutionScopedPolicy p) = true).
Proof.
  unfold filterByToolCapability. break_goal; simpl; [naive_solver|].
  by rewrite elem_of_filter_bool.
Qed.

Lemma buildToolNameSet_elem_acc names (acc : gset string) t :
  t ∈ foldl (fun (set : gset string) n =>
           let n := ToLower (TrimSpace n) in
           if str_eqb n "" then set else {[ n ]} ∪ set) acc names <->
  t ∈ acc \/ (t <> "" /\ exists n, n ∈ names /\ t = ToLower (TrimSpace n)).
Proof.
  revert acc. induction names as [|n names IH]; intros acc; cbn [foldl].
  - split; [by left|]. intros [?|(_ & ? & []%elem_of_nil & _)]; done.
  - assert (Hc : (exists n', n' ∈ n :: names /\ t = ToLower (TrimSpace n')) <->
                 t = ToLower (TrimSpace n) \/ exists n', n' ∈ names /\ t = ToLower (TrimSpace n')).
    { split.
      - intros (n' & [->|?]%elem_of_cons & ?); [by left|right; eauto].
      - intros [?|(n' & ? & ?)]; [exists n; split; [left|done]|exists n'; split; [by right|done]]. }
    rewrite IH, Hc. clear Hc IH. set (E := exists n', _). clearbody E.
    destruct (str_eqb (ToLower (TrimSpace n)) "") eqn:Hn.
    + apply str_eqb_true in Hn. rewrite Hn. tauto.
    + apply str_eqb_false in Hn. rewrite elem_of_union, elem_of_singleton.
      split; [|tauto]. intros [[->|?]|?]; tauto.
Qed.

Lemma elem_of_buildToolNameSet names t :
  t ∈ buildToolNameSet names <->
  t <> "" /\ exists n, n ∈ names /\ t = ToLower (TrimSpace n).
Proof.
  unfold buildToolNameSet. rewrite buildToolNameSet_elem_acc, elem_of_empty. tauto.
Qed.

(** A policy is dropped by capability scoping exactly when scoping is enabled, the
    tool identity is non-empty and classifies as a text-document tool, and
    the policy is positively classified execution-class; every other policy
    of the input survives and nothing is added. *)
Theorem capability_drop_iff (disable : bool) (extra : gset string)
    (policies : list CompiledPolicy) (tool : string) (p : CompiledPolicy) :
  p ∈ filterByToolCapability disable extra policies tool <->
  p ∈ policies /\
  ~ (disable = false /\ tool <> "" /\ isTextDocumentTool tool extra = true /\
     (Category p ∈ executionScopedCategories \/ PolicyID p ∈ executionScopedPolicyIDs)).
Proof.
  rewrite elem_of_filterByToolCapability, <- !str_in_true, <- str_eqb_false.
  unfold IsTextDocumentTool, IsExecutionScopedPolicy.
  destruct disable, (str_eqb tool ""), (isTextDocumentTool tool extra),
    (str_in (Category p) executionScopedCategories),
    (str_in (PolicyID p) executionScopedPolicyIDs); simpl; naive_solver.
Qed.

(** No configuration and no tool identity lets capability scoping skip a
    PII policy or one of the prompt-injection guards: a policy of a pii-*
    category outside the enumerated execution ids, and every content-borne
    security-dangerous policy, keeps evaluating. *)
Theorem content_borne_never_skipped (disable : bool) (extra : gset string)
    (policies : list CompiledPolicy) (tool : string) (p : CompiledPolicy) :
  p ∈ policies ->
  (IsPIIPolicyCategory (Category p) = true /\ PolicyID p ∉ executionScopedPolicyIDs) \/
  (Category p = CategorySecurityDangerous /\
   PolicyID p ∈ contentBorneSecurityDangerousPolicyIDs) ->
  p ∈ filterByToolCapability disable extra policies tool.
Proof.
  intros Hp H. rewrite elem_of_filterByToolCapability. split; [done|].
  enough (E : IsExecutionScopedPolicy p = false) by (rewrite E; simpl; by rewrite orb_true_r).
  unfold IsExecutionScopedPolicy. destruct H as [[Hc Hid]|[-> Hid]].
  - rewrite pii_category_not_execution by done.
    by rewrite <- str_in_true, not_true_iff_false in Hid.
  - unfold contentBorneSecurityDangerousPolicyIDs in Hid. rewrite !elem_of_cons in Hid.
    set_unfold in Hid. destruct Hid as [->|[->|[->|[->|[]]]]]; reflexivity.
Qed.

(** The operator extension only adds exact names: with a configured list a
    tool classifies as text-document if and only if its identity is not blank
    and its lowercased full name or terminal segment is built in or is the
    lowercased trimmed form of a configured name. *)
Theorem text_document_tool_iff (names : list string) (identity : string) :
  let '(full, terminal) := normalizeToolIdentity identity in
  isTextDocumentTool identity (buildToolNameSet names) = true <->
  full <> "" /\
  (full ∈ builtinTextDocumentTools \/ terminal ∈ builtinTextDocumentTools \/
   (exists n, n ∈ names /\ full = ToLower (TrimSpace n)) \/
   (terminal <> "" /\ exists n, n ∈ names /\ terminal = ToLower (TrimSpace n))).
Proof.
  destruct (normalizeToolIdentity identity) as [full terminal] eqn:E.
  unfold isTextDocumentTool. rewrite E.
  destruct (str_eqb full "") eqn:Ef; [apply str_eqb_true in Ef; naive_solver|].
  apply str_eqb_false in Ef.
  rewrite <- !str_in_true.
  destruct (str_in full builtinTextDocumentTools) eqn:E1; [simpl; naive_solver|].
  destruct (str_in terminal builtinTextDocumentTools) eqn:E2; [simpl; naive_solver|].
  simpl. rewrite orb_true_iff, !bool_decide_eq_true, !elem_of_buildToolNameSet.
  split; [tauto|]. intros [_ [?|[?|?]]]; [done..|tauto].
Qed.
End Facts.

Definition jira_identity : string := "claude_code.mcp__atlassian__editJiraIssue".

Example normalize_ex :
  normalizeToolIdentity (U := ascii_unicode) jira_identity =
  ("claude_code.mcp__atlassian__editjiraissue", "editjiraissue").
Proof. vm_compute. reflexivity. Qed.

Lemma content_borne_never_skipped_witness :
  let p := mkPolicy "p2" "sys_pii_nik" "nik" CategoryPIIIndonesia "system" SeverityHigh
             None "" PhaseBoth "" "" "" true 90 "global" None None in
  p ∈ filterByToolCapability (U := ascii_unicode) false ∅ [p] jira_identity.
Proof.
  apply (content_borne_never_skipped (U := ascii_unicode) false ∅).
  - by apply list_elem_of_singleton.
  - left. split; [reflexivity|]. rewrite <- str_in_true. vm_compute. discriminate.
Defined.
