(* ===== verification/Evaluator.v ===== *)
(** The pattern evaluator (platform/shared/policy/evaluator.go): regular
    expression matching with semantic validators and a bounded cache of
    compiled expressions.

    The evaluator is shared by all request goroutines. Its operations are state
    passing functions; the only operation that writes under contention,
    [getCompiledRegex], is also given as the two critical sections it consists
    of, and [Interleaving] runs them in any order. *)

From S2P Require Import Prelude GoFloat GoStrings Regexp PolicyTypes Validators.

Local Open Scope Z_scope.

Section Evaluator.
Context `{U : Unicode}.

Record PatternEvaluator := mkEvaluator {
  enableValidators : bool;
  validators : gmap string ValidatorFunc;
  regexCache : gmap string regex;
  maxCacheSize : Z;
  cacheSize : Z;
  contextWindow : Z;
}.

Definition registerBuiltinValidators (m : gmap string ValidatorFunc) : gmap string ValidatorFunc :=
  <["bank_account" := ValidateBankAccount]> (<["ip_address" := ValidateIPAddress]>
  (<["phone" := ValidatePhone]> (<["email" := ValidateEmail]> (<["pan" := ValidatePAN]>
  (<["aadhaar" := ValidateAadhaar]> (<["iban" := ValidateIBAN]> (<["ssn" := ValidateSSN]>
  (<["credit_card" := ValidateCreditCard]> m)))))))).

Definition NewPatternEvaluator (enable : bool) : PatternEvaluator :=
  mkEvaluator enable (if enable then registerBuiltinValidators ∅ else ∅) ∅ 1000 0 50.

(** [regexCache[pattern] = re; cacheSize++] *)
Definition cache_regex (e : PatternEvaluator) (pattern : string) (re : regex) : PatternEvaluator :=
  mkEvaluator (enableValidators e) (validators e) (<[pattern := re]> (regexCache e))
    (maxCacheSize e) (cacheSize e + 1) (contextWindow e).

(** The second critical section: double check, then store if there is room. *)
Definition store_regex (e : PatternEvaluator) (pattern : string) (re : regex)
  : regex * PatternEvaluator :=
  match regexCache e !! pattern with
  | Some cached => (cached, e)
  | None => if cacheSize e <? maxCacheSize e then (re, cache_regex e pattern re) else (re, e)
  end.

(** [None] is a compilation error. *)
Definition getCompiledRegex (e : PatternEvaluator) (pattern : string)
  : option regex * PatternEvaluator :=
  match regexCache e !! pattern with
  | Some re => (Some re, e)
  | None =>
      match Compile pattern with
      | None => (None, e)
      | Some re => let '(re', e') := store_regex e pattern re in (Some re', e')
      end
  end.

Definition getValidator (p : CompiledPolicy) : option ValidatorFunc :=
  match Validator p with
  | Some v => Some v
  | None =>
      match ValidatorForPolicyID (PolicyID p) with
      | Some v => Some (run_validator v)
      | None => run_validator <$> GetValidatorForCategory (Category p)
      end
  end.

(** For a window that is not negative; a negative window can cross the bounds,
    on which the slice expression panics. *)
Definition extractContext (e : PatternEvaluator) (text : string) (start end_ : nat) : string :=
  let contextStart := Z.of_nat start - contextWindow e in
  let contextStart := if contextStart <? 0 then 0 else contextStart in
  let contextEnd := Z.of_nat end_ + contextWindow e in
  let contextEnd := if Z.of_nat (len text) <? contextEnd then Z.of_nat (len text) else contextEnd in
  slice text (Z.to_nat contextStart) (Z.to_nat contextEnd).

(** The match record of one span, or [None] when the validator rejects it. *)
Definition span_match (e : PatternEvaluator) (phase input : string) (p : CompiledPolicy)
    (loc : nat * nat) : option PolicyMatch :=
  let matchText := slice input loc.1 loc.2 in
  let mk confidence :=
    mkMatch (PolicyID p) (Name p) (Category p) (Severity p) (GetActionForPhase p phase)
      matchText loc.1 loc.2 confidence "" in
  if enableValidators e then
    match getValidator p with
    | Some validator =>
        let '(valid, conf) := validator matchText (extractContext e input loc.1 loc.2) in
        if valid then Some (mk conf) else None
    | None => Some (mk f64_one)
    end
  else Some (mk f64_one).

(** The compiled expression of a policy: its own, or through the cache. *)
Definition policy_regex (e : PatternEvaluator) (p : CompiledPolicy)
  : option regex * PatternEvaluator :=
  match Pattern p with
  | Some re => (Some re, e)
  | None => getCompiledRegex e (PatternStr p)
  end.

Definition Evaluate (e : PatternEvaluator) (input : string) (p : CompiledPolicy)
  : option PolicyMatch * PatternEvaluator :=
  if negb (Enabled p) then (None, e) else
  match policy_regex e p with
  | (None, e') => (None, e')
  | (Some re, e') =>
      match FindStringIndex re input with
      | None => (None, e')
      | Some loc => (span_match e' PhaseRequest input p loc, e')
      end
  end.

Definition EvaluateAll (e : PatternEvaluator) (input : string) (p : CompiledPolicy)
  : list PolicyMatch * PatternEvaluator :=
  if negb (Enabled p) then ([], e) else
  match policy_regex e p with
  | (None, e') => ([], e')
  | (Some re, e') =>
      (omap (span_match e' PhaseResponse input p) (FindAllStringIndex re input), e')
  end.

(** A request-phase scan stops at the first match whose action blocks. *)
Fixpoint EvaluateMultiple (e : PatternEvaluator) (input : string)
    (policies : list CompiledPolicy) (phase : string) : list PolicyMatch * PatternEvaluator :=
  match policies with
  | [] => ([], e)
  | p :: rest =>
      if str_eqb phase PhaseRequest then
        match Evaluate e input p with
        | (None, e') => EvaluateMultiple e' input rest phase
        | (Some m, e') =>
            let m := set_action (GetActionForPhase p phase) m in
            if str_eqb (m_Action m) ActionBlock then ([m], e')
            else let '(ms, e'') := EvaluateMultiple e' input rest phase in (m :: ms, e'')
        end
      else
        let '(ms, e') := EvaluateAll e input p in
        let '(ms', e'') := EvaluateMultiple e' input rest phase in
        ((set_action (GetActionForPhase p phase) <$> ms) ++ ms', e'')
  end.

Definition RegisterValidator (e : PatternEvaluator) (piiType : string) (v : ValidatorFunc)
  : PatternEvaluator :=
  mkEvaluator (enableValidators e) (<[ToLower piiType := v]> (validators e)) (regexCache e)
    (maxCacheSize e) (cacheSize e) (contextWindow e).

Definition SetContextWindow (e : PatternEvaluator) (n : Z) : PatternEvaluator :=
  mkEvaluator (enableValidators e) (validators e) (regexCache e) (maxCacheSize e) (cacheSize e) n.

Definition ClearCache (e : PatternEvaluator) : PatternEvaluator :=
  mkEvaluator (enableValidators e) (validators e) ∅ (maxCacheSize e) 0 (contextWindow e).

(** * Reference semantics: evaluation without a cache *)

Definition resolve_regex (p : CompiledPolicy) : option regex :=
  match Pattern p with Some re => Some re | None => Compile (PatternStr p) end.

Definition eval_first (e : PatternEvaluator) (input : string) (p : CompiledPolicy)
  : option PolicyMatch :=
  if negb (Enabled p) then None else
  match resolve_regex p with
  | None => None
  | Some re =>
      match FindStringIndex re input with
      | Some loc => span_match e PhaseRequest input p loc
      | None => None
      end
  end.

Definition eval_all (e : PatternEvaluator) (input : string) (p : CompiledPolicy)
  : list PolicyMatch :=
  if negb (Enabled p) then [] else
  match resolve_regex p with
  | Some re => omap (span_match e PhaseResponse input p) (FindAllStringIndex re input)
  | None => []
  end.

(** * Invariant of the cache *)

Record evaluator_wf (e : PatternEvaluator) : Prop := {
  wf_entries : forall pat re, regexCache e !! pat = Some re -> Compile pat = Some re;
  wf_size : cacheSize e = Z.of_nat (size (regexCache e));
  wf_max : cacheSize e <= Z.max 0 (maxCacheSize e);
}.

(** The part of the state an evaluation depends on. *)
Definition same_config (e e' : PatternEvaluator) : Prop :=
  enableValidators e = enableValidators e' /\ contextWindow e = contextWindow e'.
End Evaluator.

(** Correctness of the pattern evaluator: the regex cache is invisible and
    bounded under every interleaving of goroutines, reported spans are real,
    and the request scan is compared with the response scan. *)

Section Facts.
Context `{U : Unicode}.
Implicit Types (e : PatternEvaluator) (p : CompiledPolicy).

Lemma same_config_refl e : same_config e e.
Proof. done. Qed.
Hint Resolve same_config_refl : axon.

Lemma new_evaluator_wf enable : evaluator_wf (NewPatternEvaluator enable).
Proof. split; simpl; [intros ? ? H; by rewrite lookup_empty in H| |]; done. Qed.

Lemma cache_regex_wf e pat re :
  evaluator_wf e -> regexCache e !! pat = None -> Compile pat = Some re ->
  cacheSize e < maxCacheSize e -> evaluator_wf (cache_regex e pat re).
Proof.
  intros [Hin Hsz Hmax] Hnone Hc Hlt. split; simpl.
  - intros pat' re'. rewrite lookup_insert_Some. intros [[<- <-]|[_ ?]]; auto.
  - rewrite map_size_insert_None by done. lia.
  - lia.
Qed.

Lemma store_regex_spec e pat re re' e' :
  evaluator_wf e -> Compile pat = Some re -> store_regex e pat re = (re', e') ->
  re' = re /\ evaluator_wf e' /\ same_config e e'.
Proof.
  intros Hwf Hc. unfold store_regex.
  destruct (regexCache e !! pat) as [c|] eqn:Hl.
  - intros [= <- <-]. apply (wf_entries _ Hwf) in Hl. split_and!; [congruence|done..].
  - destruct (Z.ltb_spec (cacheSize e) (maxCacheSize e)); intros [= <- <-];
      split_and!; try done. by apply cache_regex_wf.
Qed.

Lemma getCompiledRegex_spec e pat :
  evaluator_wf e ->
  let '(r, e') := getCompiledRegex e pat in
  r = Compile pat /\ evaluator_wf e' /\ same_config e e'.
Proof.
  intros Hwf. unfold getCompiledRegex.
  destruct (regexCache e !! pat) as [c|] eqn:Hl.
  { apply (wf_entries _ Hwf) in Hl. by split_and!. }
  destruct (Compile pat) as [re|] eqn:Hc; [|by split_and!].
  destruct (store_regex e pat re) as [re' e'] eqn:Hs.
  apply store_regex_spec in Hs as (-> & ? & ?); done.
Qed.

Lemma policy_regex_spec e p :
  evaluator_wf e ->
  let '(r, e') := policy_regex e p in
  r = resolve_regex p /\ evaluator_wf e' /\ same_config e e'.
Proof.
  intros Hwf. unfold policy_regex, resolve_regex.
  destruct (Pattern p); [done|]. by apply getCompiledRegex_spec.
Qed.

Lemma span_match_config e e' phase input p loc :
  same_config e e' -> span_match e phase input p loc = span_match e' phase input p loc.
Proof.
  intros [H1 H2]. unfold span_match, extractContext. by rewrite H1, H2.
Qed.

Lemma omap_span_config e e' phase input p (l : list (nat * nat)) :
  same_config e e' ->
  omap (span_match e phase input p) l = omap (span_match e' phase input p) l.
Proof.
  intros Hc. induction l as [|loc l IH]; [done|]. cbn [omap list_omap].
  rewrite (span_match_config e e') by done. destruct (span_match _ _ _ _ _); [f_equal|]; done.
Qed.

Lemma Evaluate_spec e input p :
  evaluator_wf e ->
  let '(m, e') := Evaluate e input p in
  m = eval_first e input p /\ evaluator_wf e' /\ same_config e e'.
Proof.
  intros Hwf. unfold Evaluate, eval_first. destruct (Enabled p); [|done]. simpl.
  pose proof (policy_regex_spec e p Hwf) as H.
  destruct (policy_regex e p) as [r e']. destruct H as (-> & ? & Hc).
  destruct (resolve_regex p) as [re|]; [|done].
  destruct (FindStringIndex re input) as [loc|]; [|done].
  split_and!; auto. symmetry. by apply span_match_config.
Qed.

Lemma EvaluateAll_spec e input p :
  evaluator_wf e ->
  let '(ms, e') := EvaluateAll e input p in
  ms = eval_all e input p /\ evaluator_wf e' /\ same_config e e'.
Proof.
  intros Hwf. unfold EvaluateAll, eval_all. destruct (Enabled p); [|done]. simpl.
  pose proof (policy_regex_spec e p Hwf) as H.
  destruct (policy_regex e p) as [r e']. destruct H as (-> & ? & Hc).
  destruct (resolve_regex p) as [re|]; [|done].
  split_and!; auto. symmetry. by apply omap_span_config.
Qed.

Lemma eval_first_config e e' input p :
  same_config e e' -> eval_first e input p = eval_first e' input p.
Proof.
  intros Hc. unfold eval_first. repeat break_goal; try done. by apply span_match_config.
Qed.

Lemma eval_all_config e e' input p :
  same_config e e' -> eval_all e input p = eval_all e' input p.
Proof.
  intros Hc. unfold eval_all. do 2 (break_goal; try done). by apply omap_span_config.
Qed.

(** Cache transparency: on any reachable evaluator state, [Evaluate] and
    [EvaluateAll] return exactly what evaluation with a freshly compiled
    expression returns, whatever patterns were cached before and whether or
    not the cache is full; the cache invariant is preserved. *)
Theorem evaluation_cache_transparent (e : PatternEvaluator) (input : string) (p : CompiledPolicy) :
  evaluator_wf e ->
  (Evaluate e input p).1 = eval_first e input p /\
  (EvaluateAll e input p).1 = eval_all e input p /\
  evaluator_wf (Evaluate e input p).2 /\ evaluator_wf (EvaluateAll e input p).2.
Proof.
  intros Hwf. pose proof (Evaluate_spec e input p Hwf). pose proof (EvaluateAll_spec e input p Hwf).
  destruct (Evaluate e input p), (EvaluateAll e input p). naive_solver.
Qed.

(** * Spans *)

Lemma span_match_inv e phase input p loc m :
  span_match e phase input p loc = Some m ->
  m_PolicyID m = PolicyID p /\ m_Category m = Category p /\
  m_Action m = GetActionForPhase p phase /\
  m_MatchText m = slice input loc.1 loc.2 /\ m_StartIndex m = loc.1 /\ m_EndIndex m = loc.2 /\
  m_FieldPath m = "".
Proof.
  unfold span_match. destruct (enableValidators e); [|by intros [= <-]].
  destruct (getValidator p) as [v|]; [|by intros [= <-]].
  destruct (v _ _) as [[] c]; [|done]. by intros [= <-].
Qed.

Definition match_span (m : PolicyMatch) : nat * nat := (m_StartIndex m, m_EndIndex m).

Lemma span_match_span e phase input p loc m :
  span_match e phase input p loc = Some m -> match_span m = loc.
Proof.
  intros H. apply span_match_inv in H as (_ & _ & _ & _ & H1 & H2 & _). unfold match_span.
  rewrite H1, H2. by destruct loc.
Qed.

Lemma omap_spans_ok e input p n lo l :
  spans_ok n lo l ->
  spans_ok n lo (match_span <$> omap (span_match e PhaseResponse input p) l).
Proof.
  revert lo. induction l as [|[a b] l IH]; intros lo; [done|]. cbn [spans_ok omap list_omap].
  intros [Hab Hl]. specialize (IH _ Hl).
  destruct (span_match e PhaseResponse input p (a, b)) as [m|] eqn:Em.
  - apply span_match_span in Em. rewrite fmap_cons, Em. done.
  - eapply spans_ok_weaken; [|done]. lia.
Qed.

Lemma eval_all_elem e input p m :
  m ∈ eval_all e input p ->
  exists re a b, resolve_regex p = Some re /\ (a, b) ∈ FindAllStringIndex re input /\
  span_match e PhaseResponse input p (a, b) = Some m.
Proof.
  unfold eval_all. destruct (Enabled p); simpl; [|by intros ?%elem_of_nil].
  destruct (resolve_regex p) as [re|]; [|by intros ?%elem_of_nil].
  rewrite list_elem_of_omap. intros ([a b] & ? & ?). eauto 10.
Qed.

(** The spans [EvaluateAll] reports are increasing, pairwise disjoint and
    inside the input, and each reported text is the input slice of its
    span: redaction by span can neither overlap nor run out of bounds. *)
Theorem EvaluateAll_spans (e : PatternEvaluator) (input : string) (p : CompiledPolicy) :
  evaluator_wf e ->
  spans_ok (len input) 0 (match_span <$> (EvaluateAll e input p).1) /\
  Forall (fun m => m_MatchText m = slice input (m_StartIndex m) (m_EndIndex m) /\
                   len (m_MatchText m) = (m_EndIndex m - m_StartIndex m)%nat)
    (EvaluateAll e input p).1.
Proof.
  intros Hwf. pose proof (EvaluateAll_spec e input p Hwf) as H.
  destruct (EvaluateAll e input p) as [ms e']; simpl. destruct H as (-> & _ & _). split.
  - unfold eval_all. destruct (negb (Enabled p)); [done|].
    destruct (resolve_regex p) as [re|]; [|done]. apply omap_spans_ok, FindAll_ok.
  - apply Forall_forall. intros m (re & a & b & _ & Hab & Hm)%eval_all_elem.
    apply span_match_inv in Hm as (_ & _ & _ & Ht & -> & -> & _). rewrite Ht. split; [done|].
    pose proof (spans_ok_in _ _ _ _ _ (FindAll_ok re input) Hab). simpl. apply len_slice; lia.
Qed.

Lemma span_match_phase e input p loc :
  span_match e PhaseResponse input p loc =
  set_action (GetActionForPhase p PhaseResponse) <$> span_match e PhaseRequest input p loc.
Proof.
  unfold span_match. destruct (enableValidators e); [|done].
  destruct (getValidator p) as [v|]; [|done]. by destruct (v _ _) as [[] c].
Qed.

(** The request scan agrees with the head of the response scan: a match
    found by [Evaluate] is, up to its phase action, the first match
    [EvaluateAll] reports on the same input. *)
Theorem Evaluate_is_first_of_EvaluateAll (e : PatternEvaluator) (input : string)
    (p : CompiledPolicy) (m : PolicyMatch) :
  evaluator_wf e ->
  (Evaluate e input p).1 = Some m ->
  exists ms, (EvaluateAll e input p).1 = set_action (GetActionForPhase p PhaseResponse) m :: ms.
Proof.
  intros Hwf. pose proof (Evaluate_spec e input p Hwf) as H1.
  pose proof (EvaluateAll_spec e input p Hwf) as H2.
  destruct (Evaluate e input p) as [o e1], (EvaluateAll e input p) as [l e2].
  destruct H1 as (-> & _), H2 as (-> & _). simpl. unfold eval_first, eval_all.
  destruct (negb (Enabled p)); [done|]. destruct (resolve_regex p) as [re|]; [|done].
  pose proof (FindAll_head re input) as Hh.
  destruct (FindStringIndex re input) as [sp|]; [|done]. destruct Hh as [l' ->].
  intros Hm. cbn [omap list_omap]. rewrite span_match_phase, Hm. simpl. eauto.
Qed.

(** * Registered validators are never consulted *)

(** [RegisterValidator] has no effect on any evaluation: the registry it writes
    is never read by [getValidator]. *)
Theorem RegisterValidator_no_effect (e : PatternEvaluator) (ty input : string)
    (v : ValidatorFunc) (p : CompiledPolicy) :
  evaluator_wf e ->
  (Evaluate (RegisterValidator e ty v) input p).1 = (Evaluate e input p).1 /\
  (EvaluateAll (RegisterValidator e ty v) input p).1 = (EvaluateAll e input p).1.
Proof.
  intros Hwf. set (e' := RegisterValidator e ty v).
  assert (Hwf' : evaluator_wf e') by (destruct Hwf; by split).
  assert (Hc : same_config e' e) by done.
  pose proof (Evaluate_spec e input p Hwf). pose proof (Evaluate_spec e' input p Hwf').
  pose proof (EvaluateAll_spec e input p Hwf). pose proof (EvaluateAll_spec e' input p Hwf').
  rewrite <- (eval_first_config _ _ input p Hc), <- (eval_all_config _ _ input p Hc) in *.
  destruct (Evaluate e input p), (Evaluate e' input p), (EvaluateAll e input p),
    (EvaluateAll e' input p). naive_solver congruence.
Qed.
End Facts.

(** * Interleaving

    A goroutine inside [getCompiledRegex] is before its read-locked lookup,
    between the compilation and its write-locked store, or done. The sections
    run in any order; [ClearCache] may run at any point. *)

Inductive goroutine : Type :=
| GLookup (pat : string)
| GStore (pat : string) (re : regex)
| GDone (pat : string) (r : option regex).

Definition run_section (e : PatternEvaluator) (g : goroutine) : option (PatternEvaluator * goroutine) :=
  match g with
  | GLookup pat =>
      Some (e, match regexCache e !! pat with
               | Some re => GDone pat (Some re)
               | None => match Compile pat with
                         | None => GDone pat None
                         | Some re => GStore pat re
                         end
               end)
  | GStore pat re => let '(re', e') := store_regex e pat re in Some (e', GDone pat (Some re'))
  | GDone _ _ => None
  end.

Inductive interleave : PatternEvaluator * list goroutine -> PatternEvaluator * list goroutine -> Prop :=
| IL_section e e' gs i g g' :
    gs !! i = Some g -> run_section e g = Some (e', g') ->
    interleave (e, gs) (e', <[i := g']> gs)
| IL_clear e gs : interleave (e, gs) (ClearCache e, gs).

Definition goroutine_ok (g : goroutine) : Prop :=
  match g with
  | GLookup _ => True
  | GStore pat re => Compile pat = Some re
  | GDone pat r => r = Compile pat
  end.

Definition is_lookup (g : goroutine) : Prop :=
  match g with GLookup _ => True | _ => False end.

(** Running both sections of one goroutine without interference is
    [getCompiledRegex]. *)
Lemma run_sections_sequential e pat :
  match run_section e (GLookup pat) with
  | Some (e1, GDone _ r) => (r, e1) = getCompiledRegex e pat
  | Some (e1, g1) =>
      match run_section e1 g1 with
      | Some (e2, GDone _ r) => (r, e2) = getCompiledRegex e pat
      | _ => False
      end
  | None => False
  end.
Proof.
  unfold run_section, getCompiledRegex. destruct (regexCache e !! pat) eqn:Hl; [done|].
  destruct (Compile pat); [|done]. by destruct (store_regex e pat r).
Qed.

Lemma run_section_ok e g e' g' :
  evaluator_wf e -> goroutine_ok g -> run_section e g = Some (e', g') ->
  evaluator_wf e' /\ goroutine_ok g'.
Proof.
  intros Hwf Hg. destruct g as [pat|pat re|pat r]; simpl in *; [| |done].
  - intros [= <- <-]. split; [done|].
    destruct (regexCache e !! pat) eqn:Hl; [by apply (wf_entries _ Hwf) in Hl|].
    by destruct (Compile pat) eqn:Hc.
  - destruct (store_regex e pat re) as [re' e1] eqn:Hs. intros [= <- <-].
    apply store_regex_spec in Hs as (-> & ? & _); done.
Qed.

Lemma interleave_ok s s' :
  interleave s s' -> evaluator_wf s.1 /\ Forall goroutine_ok s.2 ->
  evaluator_wf s'.1 /\ Forall goroutine_ok s'.2.
Proof.
  destruct 1 as [e e' gs i g g' Hi Hr|e gs]; simpl; intros [Hwf Hgs].
  - destruct (run_section_ok e g e' g') as [? ?]; [done| |done|].
    { by eapply Forall_lookup_1. }
    split; [done|]. by apply Forall_insert.
  - split; [|done]. destruct Hwf. split; simpl; [|done|lia].
    intros ? ? H. by rewrite lookup_empty in H.
Qed.

(** Concurrency safety of the regex cache: under every interleaving of the critical
    sections of any number of goroutines, with cache clears in between, the
    cache maps each pattern to its own compilation, the size counter equals
    the number of entries and respects the bound, every finished goroutine
    got the result of compiling its own pattern, and no unfinished goroutine
    is stuck. *)
Theorem regex_cache_interleaving (e e' : PatternEvaluator) (gs gs' : list goroutine) :
  evaluator_wf e -> Forall is_lookup gs ->
  rtc interleave (e, gs) (e', gs') ->
  evaluator_wf e' /\
  (forall i pat r, gs' !! i = Some (GDone pat r) -> r = Compile pat) /\
  (forall i g, gs' !! i = Some g ->
     (exists pat r, g = GDone pat r) \/ exists e'' g', run_section e' g = Some (e'', g')).
Proof.
  intros Hwf Hgs Hr.
  assert (Hok : evaluator_wf (e', gs').1 /\ Forall goroutine_ok (e', gs').2).
  { eapply (rtc_ind_r (fun s => evaluator_wf s.1 /\ Forall goroutine_ok s.2)); [| |exact Hr].
    - split; [done|]. eapply Forall_impl; [done|]. by intros [].
    - intros y z _ Hyz Hy. by eapply interleave_ok. }
  destruct Hok as [Hwf' Hgs']. split_and!; [done| |].
  - intros i pat r Hi. by eapply Forall_lookup_1 in Hgs'; [|exact Hi].
  - intros i g Hi. destruct g as [pat|pat re|pat r]; [right|right|left]; simpl; eauto.
    destruct (store_regex e' pat re); eauto.
Qed.

Lemma regex_cache_interleaving_witness :
  exists e' gs',
    rtc interleave (NewPatternEvaluator (U := ascii_unicode) true, [GLookup "ab"; GLookup "ab"]) (e', gs') /\
    evaluator_wf e' /\ gs' = [GDone "ab" (Compile "ab"); GDone "ab" (Compile "ab")].
Proof.
  eexists _, _. split.
  { eapply rtc_l; [eapply (IL_section _ _ _ 0%nat); reflexivity|].
    eapply rtc_l; [eapply (IL_section _ _ _ 1%nat); reflexivity|].
    eapply rtc_l; [eapply (IL_section _ _ _ 0%nat); reflexivity|].
    eapply rtc_l; [eapply (IL_section _ _ _ 1%nat); reflexivity|].
    apply rtc_refl. }
  split; [|vm_compute; reflexivity].
  eapply (regex_cache_interleaving (NewPatternEvaluator (U := ascii_unicode) true) _
            [GLookup "ab"; GLookup "ab"]).
  - apply new_evaluator_wf.
  - repeat constructor.
  - eapply rtc_l; [eapply (IL_section _ _ _ 0%nat); reflexivity|].
    eapply rtc_l; [eapply (IL_section _ _ _ 1%nat); reflexivity|].
    eapply rtc_l; [eapply (IL_section _ _ _ 0%nat); reflexivity|].
    eapply rtc_l; [eapply (IL_section _ _ _ 1%nat); reflexivity|].
    apply rtc_refl.
Defined.

(** * Concrete evaluations *)

#[local] Existing Instance ascii_unicode.

Definition cc_policy : CompiledPolicy :=
  mkPolicy "1" "sys_pii_credit_card" "Credit card" CategoryPIIGlobal "system" SeverityCritical
    None "\d{4}[- ]?\d{4}[- ]?\d{4}[- ]?\d{4}" PhaseBoth ActionBlock ActionRedact "" true 100
    "global" None None.

Definition evaluator0 : PatternEvaluator := NewPatternEvaluator true.

Lemma evaluation_cache_transparent_witness :
  (Evaluate evaluator0 "card 4111 1111 1111 1111" cc_policy).1 =
  eval_first evaluator0 "card 4111 1111 1111 1111" cc_policy /\
  is_Some (eval_first evaluator0 "card 4111 1111 1111 1111" cc_policy).
Proof.
  split; [|vm_compute; eauto].
  apply evaluation_cache_transparent. apply new_evaluator_wf.
Defined.

Lemma EvaluateAll_spans_witness :
  (match_span <$> (EvaluateAll evaluator0 "4111111111111111 5500005555555559" cc_policy).1)
    = [(0, 16); (17, 33)]%nat /\
  spans_ok 33 0 (match_span <$> (EvaluateAll evaluator0 "4111111111111111 5500005555555559" cc_policy).1).
Proof.
  split; [vm_compute; reflexivity|].
  apply (EvaluateAll_spans evaluator0 "4111111111111111 5500005555555559" cc_policy).
  apply new_evaluator_wf.
Defined.

Lemma Evaluate_is_first_of_EvaluateAll_witness :
  exists m ms, (Evaluate evaluator0 "4111111111111111" cc_policy).1 = Some m /\
    (EvaluateAll evaluator0 "4111111111111111" cc_policy).1 = set_action ActionRedact m :: ms.
Proof.
  destruct (Evaluate evaluator0 "4111111111111111" cc_policy).1 as [m|] eqn:E;
    [|vm_compute in E; discriminate].
  destruct (Evaluate_is_first_of_EvaluateAll evaluator0 "4111111111111111" cc_policy m)
    as [ms Hms]; [apply new_evaluator_wf|exact E|].
  exists m, ms. split; [reflexivity|exact Hms].
Defined.

Lemma RegisterValidator_no_effect_witness :
  (Evaluate (RegisterValidator evaluator0 "credit_card" (fun _ _ => reject)) "4111111111111111" cc_policy).1
  = (Evaluate evaluator0 "4111111111111111" cc_policy).1.
Proof. apply RegisterValidator_no_effect. apply new_evaluator_wf. Defined.

(** The request scan validates only the first regex match: a string that
    starts with a number failing the checksum hides a valid card number that
    follows it. [Evaluate] (the request gate, action block) reports nothing
    where [EvaluateAll] (the response scan) reports the card. *)
Theorem request_scan_misses_after_rejected_match :
  (Evaluate evaluator0 "4111111111111112 4111111111111111" cc_policy).1 = None /\
  (m_MatchText <$> (EvaluateAll evaluator0 "4111111111111112 4111111111111111" cc_policy).1)
    = ["4111111111111111"].
Proof. split; vm_compute; reflexivity. Qed.
