(* ===== verification/PolicyCache.v ===== *)
(** The tenant policy cache (platform/shared/policy/cache.go): TTL expiry, one
    entry per cache key, policies split by phase and sorted by priority. Time
    is a number of nanoseconds passed to each operation. *)

From S2P Require Import Prelude GoFloat GoStrings Regexp PolicyTypes.

Local Open Scope Z_scope.

(** * Sorting and merging *)

(** The inner loop of [sortByPriority] on the prefix read from its end: the
    element moves left while its priority is higher. *)
Fixpoint bubble (rev_prefix : list CompiledPolicy) (x : CompiledPolicy) : list CompiledPolicy :=
  match rev_prefix with
  | [] => [x]
  | y :: l => if Priority y <? Priority x then y :: bubble l x else x :: y :: l
  end.

Definition sortByPriority (policies : list CompiledPolicy) : list CompiledPolicy :=
  rev (foldl bubble [] policies).

(** One of the two loops of [mergePolicies]. *)
Fixpoint merge_loop (l : list CompiledPolicy) (seen : gset string) : list CompiledPolicy * gset string :=
  match l with
  | [] => ([], seen)
  | p :: l' =>
      if bool_decide (PolicyID p ∈ seen) then merge_loop l' seen
      else let '(r, s) := merge_loop l' ({[ PolicyID p ]} ∪ seen) in (p :: r, s)
  end.

Definition mergePolicies (a b : list CompiledPolicy) : list CompiledPolicy :=
  let '(ra, seen) := merge_loop a ∅ in
  let '(rb, _) := merge_loop b seen in
  ra ++ rb.

(** * The cache *)

Record cachedPolicies := mkCached {
  requestPolicies : list CompiledPolicy;
  responsePolicies : list CompiledPolicy;
  expiresAt : Z;
  c_orgID : option string;
}.

Record PolicyCache := mkCache {
  tenantCache : gmap string cachedPolicies;
  ttl : Z;
  hits : Z;
  misses : Z;
  lastRefresh : Z;
  refreshDuration : Z;
}.

Definition NewPolicyCache (ttl : Z) : PolicyCache := mkCache ∅ ttl 0 0 0 0.

Definition cacheKey (tenantID : string) (orgID : option string) : string :=
  match orgID with
  | Some o => tenantID +:+ ":" +:+ o
  | None => tenantID
  end.

Definition set_entries (c : PolicyCache) (m : gmap string cachedPolicies) : PolicyCache :=
  mkCache m (ttl c) (hits c) (misses c) (lastRefresh c) (refreshDuration c).
Definition count_hit (c : PolicyCache) : PolicyCache :=
  mkCache (tenantCache c) (ttl c) (hits c + 1) (misses c) (lastRefresh c) (refreshDuration c).
Definition count_miss (c : PolicyCache) : PolicyCache :=
  mkCache (tenantCache c) (ttl c) (hits c) (misses c + 1) (lastRefresh c) (refreshDuration c).

(** [Some l] is [(l, true)]; [None] is [(nil, false)]. *)
Definition Get (c : PolicyCache) (now : Z) (tenantID : string) (orgID : option string) (phase : string)
  : option (list CompiledPolicy) * PolicyCache :=
  match tenantCache c !! cacheKey tenantID orgID with
  | None => (None, count_miss c)
  | Some cached =>
      if expiresAt cached <? now then (None, count_miss c)
      else
        (if str_eqb phase PhaseRequest then Some (requestPolicies cached)
         else if str_eqb phase PhaseResponse then Some (responsePolicies cached)
         else if str_eqb phase PhaseBoth
         then Some (mergePolicies (requestPolicies cached) (responsePolicies cached))
         else None,
         count_hit c)
  end.

Definition in_request_phase (p : CompiledPolicy) : bool :=
  str_eqb (PolicyPhase p) PhaseRequest || str_eqb (PolicyPhase p) PhaseBoth.
Definition in_response_phase (p : CompiledPolicy) : bool :=
  str_eqb (PolicyPhase p) PhaseResponse || str_eqb (PolicyPhase p) PhaseBoth.

(** The switch of [Set] appends a policy to the lists of its phase. *)
Fixpoint split_phases (l : list CompiledPolicy) : list CompiledPolicy * list CompiledPolicy :=
  match l with
  | [] => ([], [])
  | p :: l' =>
      let '(rq, rs) := split_phases l' in
      if str_eqb (PolicyPhase p) PhaseRequest then (p :: rq, rs)
      else if str_eqb (PolicyPhase p) PhaseResponse then (rq, p :: rs)
      else if str_eqb (PolicyPhase p) PhaseBoth then (p :: rq, p :: rs)
      else (rq, rs)
  end.

Definition Set_ (c : PolicyCache) (now : Z) (tenantID : string) (orgID : option string)
    (policies : list CompiledPolicy) : PolicyCache :=
  let '(rq, rs) := split_phases policies in
  set_entries c
    (<[cacheKey tenantID orgID :=
        mkCached (sortByPriority rq) (sortByPriority rs) (now + ttl c) orgID]> (tenantCache c)).

Definition Invalidate (c : PolicyCache) (tenantID : string) (orgID : option string) : PolicyCache :=
  set_entries c (delete (cacheKey tenantID orgID) (tenantCache c)).

Definition InvalidateAll (c : PolicyCache) : PolicyCache := set_entries c ∅.

Record CacheStats := mkCacheStats {
  st_TotalPolicies : Z;
  st_CachedTenants : Z;
  st_CacheHits : Z;
  st_CacheMisses : Z;
  st_LastRefresh : Z;
  st_RefreshDuration : Z;
}.

Definition GetStats (c : PolicyCache) : CacheStats :=
  mkCacheStats
    (map_fold (fun _ cached total =>
                 total + Z.of_nat (length (requestPolicies cached) + length (responsePolicies cached)))
       0 (tenantCache c))
    (Z.of_nat (size (tenantCache c))) (hits c) (misses c) (lastRefresh c) (refreshDuration c).

Definition SetLastRefresh (c : PolicyCache) (now duration : Z) : PolicyCache :=
  mkCache (tenantCache c) (ttl c) (hits c) (misses c) now duration.

(** * Lemmas *)

Definition prio_ge (a b : CompiledPolicy) : Prop := Priority b <= Priority a.

Lemma bubble_perm l x : bubble l x ≡ₚ x :: l.
Proof.
  induction l as [|y l IH]; simpl; [done|]. destruct (_ <? _); [|done].
  rewrite IH. apply Permutation_swap.
Qed.

Lemma foldl_bubble_perm l acc : foldl bubble acc l ≡ₚ l ++ acc.
Proof.
  revert acc. induction l as [|x l IH]; intros acc; simpl; [done|].
  rewrite IH, bubble_perm. symmetry. apply Permutation_middle.
Qed.

Lemma sortByPriority_perm l : sortByPriority l ≡ₚ l.
Proof.
  unfold sortByPriority. rewrite <- Permutation_rev, foldl_bubble_perm. by rewrite app_nil_r.
Qed.

Lemma bubble_sorted l x :
  StronglySorted (fun a b => prio_ge b a) l -> StronglySorted (fun a b => prio_ge b a) (bubble l x).
Proof.
  unfold prio_ge. induction 1 as [|y l Hl IH Hy]; simpl; [repeat constructor|].
  destruct (Z.ltb_spec (Priority y) (Priority x)).
  - constructor; [done|]. rewrite bubble_perm. constructor; [lia|done].
  - constructor; [by constructor|]. constructor; [done|].
    eapply Forall_impl; [exact Hy|]. simpl. lia.
Qed.

Lemma StronglySorted_snoc {A} (R : A -> A -> Prop) l x :
  StronglySorted R l -> Forall (fun y => R y x) l -> StronglySorted R (l ++ [x]).
Proof.
  induction 1 as [|y l Hl IH Hy]; intros Hx; simpl; [repeat constructor|].
  apply Forall_cons in Hx as [? ?]. constructor; [auto|].
  rewrite Forall_app, Forall_singleton. done.
Qed.

Lemma StronglySorted_rev {A} (R : A -> A -> Prop) l :
  StronglySorted R l -> StronglySorted (fun a b => R b a) (rev l).
Proof.
  induction 1 as [|y l Hl IH Hy]; simpl; [constructor|].
  apply StronglySorted_snoc; [done|]. by rewrite <- Permutation_rev.
Qed.

Lemma sortByPriority_sorted l : StronglySorted prio_ge (sortByPriority l).
Proof.
  unfold sortByPriority.
  apply (StronglySorted_rev (fun a b => prio_ge b a)).
  assert (H : forall acc, StronglySorted (fun a b => prio_ge b a) acc ->
              StronglySorted (fun a b => prio_ge b a) (foldl bubble acc l)).
  { induction l as [|x l IH]; simpl; [done|]. intros. by apply IH, bubble_sorted. }
  apply H. constructor.
Qed.

Definition has_priority (k : Z) (p : CompiledPolicy) : bool := Priority p =? k.

Lemma bubble_filter k l x :
  List.filter (has_priority k) (bubble l x) = List.filter (has_priority k) (x :: l).
Proof.
  induction l as [|y l IH]; simpl; [done|].
  destruct (Z.ltb_spec (Priority y) (Priority x)); simpl; [|done].
  rewrite IH. simpl. unfold has_priority.
  destruct (Z.eqb_spec (Priority x) k), (Z.eqb_spec (Priority y) k); try done. lia.
Qed.

Lemma filter_rev_list {A} (P : A -> bool) l : List.filter P (rev l) = rev (List.filter P l).
Proof.
  induction l as [|x l IH]; simpl; [done|]. rewrite List.filter_app, IH. simpl.
  destruct (P x); simpl; [done|]. apply app_nil_r.
Qed.

Lemma sortByPriority_stable k l :
  List.filter (has_priority k) (sortByPriority l) = List.filter (has_priority k) l.
Proof.
  unfold sortByPriority. rewrite filter_rev_list.
  assert (H : forall acc, List.filter (has_priority k) (foldl bubble acc l) =
              rev (List.filter (has_priority k) l) ++ List.filter (has_priority k) acc).
  { induction l as [|x l IH]; intros acc; simpl; [done|].
    rewrite IH, bubble_filter. simpl. destruct (has_priority k x); simpl; [|done].
    by rewrite <- app_assoc. }
  rewrite H. simpl. by rewrite app_nil_r, rev_involutive.
Qed.

(** A list already in priority order is left as it is. *)
Lemma sortByPriority_id l : StronglySorted prio_ge l -> sortByPriority l = l.
Proof.
  intros H. unfold sortByPriority.
  assert (Hg : forall acc, StronglySorted prio_ge l ->
             Forall (fun y => Forall (fun x => prio_ge y x) l) acc ->
             foldl bubble acc l = rev l ++ acc).
  { clear H. induction l as [|x l IH]; intros acc Hs Hacc; simpl; [done|].
    inv Hs. assert (Hb : bubble acc x = x :: acc).
    { destruct acc as [|y acc]; simpl; [done|].
      apply Forall_cons in Hacc as [[Hy _]%Forall_cons _]. unfold prio_ge in Hy.
      destruct (Z.ltb_spec (Priority y) (Priority x)); [lia|done]. }
    rewrite Hb, IH; [by rewrite <- app_assoc|done|].
    constructor; [done|]. eapply Forall_impl; [exact Hacc|]. by intros y [_ ?]%Forall_cons. }
  rewrite (Hg [] H); [|constructor]. by rewrite app_nil_r, rev_involutive.
Qed.

Lemma split_phases_filter l :
  split_phases l = (List.filter in_request_phase l, List.filter in_response_phase l).
Proof.
  induction l as [|p l IH]; simpl; [done|]. rewrite IH. unfold in_request_phase, in_response_phase.
  destruct (str_eqb (PolicyPhase p) PhaseRequest) eqn:E1.
  { apply str_eqb_true in E1. by rewrite E1. }
  destruct (str_eqb (PolicyPhase p) PhaseResponse) eqn:E2.
  { apply str_eqb_true in E2. by rewrite E2. }
  by destruct (str_eqb (PolicyPhase p) PhaseBoth).
Qed.

Lemma merge_loop_spec l seen :
  let '(r, s) := merge_loop l seen in
  NoDup (PolicyID <$> r) /\
  (forall p, p ∈ r -> p ∈ l /\ PolicyID p ∉ seen) /\
  (forall i, i ∈ s <-> i ∈ seen \/ i ∈ (PolicyID <$> r)) /\
  (forall p, p ∈ l -> PolicyID p ∈ s).
Proof.
  revert seen. induction l as [|p l IH]; intros seen; simpl.
  - split_and!; [constructor|by intros ? ?%elem_of_nil| |by intros ? ?%elem_of_nil].
    intros i. rewrite elem_of_nil. tauto.
  - case_bool_decide as Hp.
    + specialize (IH seen). destruct (merge_loop l seen) as [r s].
      destruct IH as (H1 & H2 & H3 & H4). split_and!; [done| |done|].
      * intros q [? ?]%H2. split; [by right|done].
      * intros q [->|?]%elem_of_cons; [apply H3; by left|auto].
    + specialize (IH ({[PolicyID p]} ∪ seen)).
      destruct (merge_loop l ({[PolicyID p]} ∪ seen)) as [r s].
      destruct IH as (H1 & H2 & H3 & H4). cbn [fmap list_fmap]. split_and!.
      * constructor; [|done]. intros (q & Hq & [_ Hn]%H2)%list_elem_of_fmap. set_solver.
      * intros q [->|[? ?]%H2]%elem_of_cons; [split; [left|done]|split; [by right|set_solver]].
      * intros i. rewrite H3, elem_of_cons. set_solver.
      * intros q [->|?]%elem_of_cons; [apply H3; set_solver|auto].
Qed.

(** * Cache keys *)

Definition colon : ascii := ":"%char.
Definition colon_free (s : string) : Prop := colon ∉ chars s.

Lemma app_colon_inj (l1 l2 m1 m2 : list ascii) :
  colon ∉ l1 -> colon ∉ l2 -> l1 ++ colon :: m1 = l2 ++ colon :: m2 -> l1 = l2 /\ m1 = m2.
Proof.
  revert l2. induction l1 as [|x l1 IH]; intros [|y l2] H1 H2 H; simpl in *; simplify_eq; try done.
  - exfalso. apply H2. left.
  - exfalso. apply H1. left.
  - rewrite not_elem_of_cons in H1, H2. destruct (IH l2) as [-> ->]; naive_solver.
Qed.

Lemma chars_cacheKey t o :
  chars (cacheKey t o) = match o with Some o => chars t ++ colon :: chars o | None => chars t end.
Proof. destruct o as [o|]; simpl; [|done]. by rewrite !chars_app. Qed.

Lemma chars_inj s t : chars s = chars t -> s = t.
Proof. intros H. rewrite <- (of_chars_chars s), <- (of_chars_chars t). by rewrite H. Qed.

Lemma cacheKey_inj t t' o o' :
  colon_free t -> colon_free t' -> cacheKey t o = cacheKey t' o' -> t = t' /\ o = o'.
Proof.
  unfold colon_free. intros Ht Ht' H. apply (f_equal chars) in H. rewrite !chars_cacheKey in H.
  destruct o as [o|], o' as [o'|].
  - apply app_colon_inj in H as [?%chars_inj ?%chars_inj]; [|done..]. by subst.
  - exfalso. apply Ht'. rewrite <- H. apply elem_of_app. right. left.
  - exfalso. apply Ht. rewrite H. apply elem_of_app. right. left.
  - apply chars_inj in H. by subst.
Qed.

(** * Cache behaviour *)

Lemma Get_Set_same c now now' t o ps phase :
  (Get (Set_ c now t o ps) now' t o phase).1 =
  if now + ttl c <? now' then None
  else if str_eqb phase PhaseRequest then Some (sortByPriority (List.filter in_request_phase ps))
  else if str_eqb phase PhaseResponse then Some (sortByPriority (List.filter in_response_phase ps))
  else if str_eqb phase PhaseBoth
  then Some (mergePolicies (sortByPriority (List.filter in_request_phase ps))
               (sortByPriority (List.filter in_response_phase ps)))
  else None.
Proof.
  unfold Get, Set_. rewrite split_phases_filter. simpl. rewrite lookup_insert_eq. simpl.
  by destruct (_ <? _).
Qed.

Lemma Get_Set_other c now now' t o t' o' ps phase :
  cacheKey t o <> cacheKey t' o' ->
  (Get (Set_ c now t o ps) now' t' o' phase).1 = (Get c now' t' o' phase).1.
Proof.
  intros Hk. unfold Get, Set_. destruct (split_phases ps). simpl.
  rewrite lookup_insert_ne by done. by destruct (tenantCache c !! _) as [e|]; [destruct (_ <? _)|].
Qed.

(** Lookups only depend on the entries, and only count. *)
Lemma Get_entries c now t o phase :
  tenantCache (Get c now t o phase).2 = tenantCache c /\ ttl (Get c now t o phase).2 = ttl c.
Proof.
  unfold Get. by destruct (tenantCache c !! _) as [e|]; [destruct (_ <? _)|].
Qed.

(** [sortByPriority] is a correct stable sort: its result is a permutation of the input,
    ordered by descending priority, and policies of equal priority keep
    their relative order (creation order decides who reports first). *)
Theorem sortByPriority_correct (l : list CompiledPolicy) (k : Z) :
  sortByPriority l ≡ₚ l /\ StronglySorted prio_ge (sortByPriority l) /\
  List.filter (has_priority k) (sortByPriority l) = List.filter (has_priority k) l.
Proof.
  split_and!; [apply sortByPriority_perm|apply sortByPriority_sorted|apply sortByPriority_stable].
Qed.

(** [mergePolicies] returns each policy id exactly once, covers every id of
    both lists, invents nothing, and prefers the entry of the first list. *)
Theorem mergePolicies_correct (a b : list CompiledPolicy) :
  NoDup (PolicyID <$> mergePolicies a b) /\
  (forall i, i ∈ (PolicyID <$> mergePolicies a b) <-> i ∈ (PolicyID <$> a) \/ i ∈ (PolicyID <$> b)) /\
  (forall p, p ∈ mergePolicies a b -> p ∈ a \/ (p ∈ b /\ PolicyID p ∉ (PolicyID <$> a))).
Proof.
  unfold mergePolicies. pose proof (merge_loop_spec a ∅) as Ha.
  destruct (merge_loop a ∅) as [ra sa]. destruct Ha as (A1 & A2 & A3 & A4).
  pose proof (merge_loop_spec b sa) as Hb.
  destruct (merge_loop b sa) as [rb sb]. destruct Hb as (B1 & B2 & B3 & B4).
  assert (Hsa : forall i, i ∈ sa <-> i ∈ (PolicyID <$> a)).
  { intros i. rewrite A3. split.
    - intros [?|(p & -> & [? _]%A2)%list_elem_of_fmap]; [set_solver|]. by apply list_elem_of_fmap_2.
    - intros (p & -> & Hp)%list_elem_of_fmap. by apply A3, A4. }
  rewrite fmap_app. split_and!.
  - apply NoDup_app. split_and!; [done| |done].
    intros i Hi (p & -> & [_ Hn]%B2)%list_elem_of_fmap. apply Hn, A3. by right.
  - intros i. rewrite elem_of_app, <- Hsa, A3. rewrite elem_of_empty. split.
    + intros [?|(p & -> & [? _]%B2)%list_elem_of_fmap]; [tauto|]. right. by apply list_elem_of_fmap_2.
    + intros [?|(p & -> & Hp)%list_elem_of_fmap]; [tauto|].
      apply B4, B3 in Hp as [?%A3|?]; [rewrite elem_of_empty in *; tauto|tauto].
  - intros p [[? _]%A2|[? Hn]%B2]%elem_of_app; [by left|right]. split; [done|]. by rewrite <- Hsa.
Qed.

(** Tenant isolation of the cache: when tenant ids contain no colon, storing
    the policies of one (tenant, org) pair, or invalidating it, leaves every
    lookup of any other pair unchanged, at any time and for any phase. *)
Theorem cache_isolation (c : PolicyCache) (now now' : Z) (t t' : string) (o o' : option string)
    (ps : list CompiledPolicy) (phase : string) :
  colon_free t -> colon_free t' -> (t, o) <> (t', o') ->
  (Get (Set_ c now t o ps) now' t' o' phase).1 = (Get c now' t' o' phase).1 /\
  (Get (Invalidate c t o) now' t' o' phase).1 = (Get c now' t' o' phase).1.
Proof.
  intros Ht Ht' Hne.
  assert (Hk : cacheKey t o <> cacheKey t' o').
  { intros [-> ->]%cacheKey_inj; done. }
  split; [by apply Get_Set_other|].
  unfold Get, Invalidate. simpl. rewrite lookup_delete_ne by done.
  by destruct (tenantCache c !! _) as [e|]; [destruct (_ <? _)|].
Qed.

(** The cache key is ambiguous: tenant [a:b] without an organization and
    tenant [a] of organization [b] share one entry, so the second is served
    whatever was cached for the first, although [cacheKey] is documented to
    generate a unique key per tenant and organization. *)
Theorem cacheKey_collision (ps : list CompiledPolicy) (ttl now : Z) (phase : string) :
  ("a:b", None) <> ("a", Some "b") /\
  (Get (Set_ (NewPolicyCache ttl) now "a:b" None ps) now "a" (Some "b") phase).1 =
  (Get (Set_ (NewPolicyCache ttl) now "a:b" None ps) now "a:b" None phase).1.
Proof. split; [congruence|]. reflexivity. Qed.

(** Entries expire: a lookup after the time to live misses for every phase,
    and before it returns, for the request and response phases, the stored
    policies of that phase in stable priority order. *)
Theorem cache_ttl (c : PolicyCache) (now now' : Z) (t : string) (o : option string)
    (ps : list CompiledPolicy) (phase : string) :
  let r := (Get (Set_ c now t o ps) now' t o phase).1 in
  (now + ttl c < now' -> r = None) /\
  (now' <= now + ttl c -> phase = PhaseRequest ->
     r = Some (sortByPriority (List.filter in_request_phase ps))) /\
  (now' <= now + ttl c -> phase = PhaseResponse ->
     r = Some (sortByPriority (List.filter in_response_phase ps))).
Proof.
  simpl. rewrite Get_Set_same. split_and!; intros H; [|intros ->..];
    destruct (Z.ltb_spec (now + ttl c) now'); try done; lia.
Qed.

Lemma cache_isolation_witness :
  (Get (Set_ (NewPolicyCache 10) 0 "acme" (Some "eu") []) 5 "acme" None PhaseRequest).1 = None.
Proof.
  refine (eq_trans (proj1 (cache_isolation (NewPolicyCache 10) 0 5 "acme" "acme" (Some "eu") None
            [] PhaseRequest _ _ _)) _).
  - unfold colon_free. simpl. rewrite !not_elem_of_cons. repeat split; try discriminate.
    apply not_elem_of_nil.
  - unfold colon_free. simpl. rewrite !not_elem_of_cons. repeat split; try discriminate.
    apply not_elem_of_nil.
  - congruence.
  - reflexivity.
Defined.

Lemma cache_ttl_witness :
  (Get (Set_ (NewPolicyCache 10) 0 "acme" None []) 11 "acme" None PhaseRequest).1 = None /\
  (Get (Set_ (NewPolicyCache 10) 0 "acme" None []) 10 "acme" None PhaseRequest).1 = Some [].
Proof.
  split.
  - apply (proj1 (cache_ttl (NewPolicyCache 10) 0 11 "acme" None [] PhaseRequest)). reflexivity.
  - apply (proj1 (proj2 (cache_ttl (NewPolicyCache 10) 0 10 "acme" None [] PhaseRequest)));
      [discriminate|reflexivity].
Defined.
