(* ===== verification/Loader.v ===== *)
(** The policy loader (platform/shared/policy/loader.go) over the
    static_policies table, with the row-level-security scope of
    platform/agent/rls/scope.go.

    The database is a table value: its rows, whether it answers, and whether
    the connection pool bypasses row-level security. The SQL of the loader is
    translated to a filter and an ordering of that table. *)

From S2P Require Import Prelude GoFloat GoStrings Regexp PolicyTypes Validators PolicyCache.

Local Open Scope Z_scope.

Definition globalTenantSentinel : string := "global".

(** * The table *)

Record policyRow := mkRow {
  r_ID : string;
  r_PolicyID : string;
  r_Name : string;
  r_Category : string;
  r_Tier : string;
  r_Pattern : string;
  r_Severity : string;
  r_Description : option string;
  r_Phase : option string;
  r_ActionRequest : option string;
  r_ActionResponse : option string;
  r_Enabled : bool;
  r_Priority : Z;
  r_TenantID : string;
  r_OrganizationID : option string;
  r_CreatedAt : Z;
}.

(** A stored row: the scanned columns, the columns only SQL reads, and whether
    its values convert to the Go types of [policyRow]. *)
Record table_row := mkTableRow {
  t_row : policyRow;
  t_deleted : bool;
  t_org : string;
  t_scans : bool;
}.

Record policy_db := mkDB {
  db_rows : list table_row;
  db_up : bool;
  db_bypass_rls : bool;
}.

Inductive load_error : Type :=
| ErrNoDatabase
| ErrBlankScope
| ErrQueryFailed
| ErrEmptySystemPolicySet
| ErrInvalidPattern.

(** [rls.WithOrgScope]: a transaction whose reads see the rows of [orgID]. *)
Definition WithOrgScope {A} (db : policy_db) (orgID : string) (fn : policy_db -> result load_error A)
  : result load_error A :=
  if str_eqb orgID "" then Err ErrBlankScope
  else if negb (db_up db) then Err ErrQueryFailed
  else fn (mkDB (List.filter (fun r => db_bypass_rls db || str_eqb (t_org r) orgID) (db_rows db))
             (db_up db) (db_bypass_rls db)).

(** ORDER BY priority DESC, created_at ASC, also the comparison given to
    [sort.SliceStable]. *)
Definition row_before (a b : policyRow) : bool :=
  if negb (r_Priority a =? r_Priority b) then r_Priority b <? r_Priority a
  else r_CreatedAt a <? r_CreatedAt b.

(** WHERE enabled = true AND deleted_at IS NULL AND tenant_id = $1 *)
Definition where_tenant (tenantArg : string) (r : table_row) : bool :=
  r_Enabled (t_row r) && negb (t_deleted r) && str_eqb (r_TenantID (t_row r)) tenantArg.

(** The scanned rows of a query: rows that do not convert are skipped. *)
Definition scan_rows (l : list table_row) : list policyRow := t_row <$> List.filter t_scans l.

Definition scopedPolicyRows (db : policy_db) (scopeOrg tenantArg : string)
  : result load_error (list policyRow) :=
  WithOrgScope db scopeOrg (fun tx =>
    Ok (SliceStable row_before (scan_rows (List.filter (where_tenant tenantArg) (db_rows tx))))).

Section Loader.
Context `{U : Unicode}.

Definition compilePolicy (row : policyRow) : result load_error CompiledPolicy :=
  match Compile (r_Pattern row) with
  | None => Err ErrInvalidPattern
  | Some re =>
      Ok (mkPolicy (r_ID row) (r_PolicyID row) (r_Name row) (r_Category row) (r_Tier row)
            (r_Severity row) (Some re) (r_Pattern row)
            (default PhaseBoth (r_Phase row))
            (default "" (r_ActionRequest row)) (default "" (r_ActionResponse row))
            (default "" (r_Description row)) (r_Enabled row) (r_Priority row)
            (r_TenantID row) (r_OrganizationID row)
            (run_validator <$> getValidatorForPolicy (r_PolicyID row) (r_Category row)))
  end.

(** The compile loop: a row that does not compile is logged and skipped. *)
Definition compile_rows (rows : list policyRow) : list CompiledPolicy :=
  omap (fun row => match compilePolicy row with Ok p => Some p | Err _ => None end) rows.

Definition is_system (p : CompiledPolicy) : bool :=
  str_eqb (Tier p) "system" || str_eqb (TenantID p) globalTenantSentinel.

Definition scope_org (tenantID : string) (orgID : option string) : string :=
  match orgID with
  | Some o => if str_eqb o "" then tenantID else o
  | None => tenantID
  end.

(** The two disjoint scoped passes, merged. *)
Definition merged_rows (db : policy_db) (tenantID : string) (orgID : option string)
  : result load_error (list policyRow) :=
  (rows <-! (if negb (str_eqb tenantID "") && negb (str_eqb tenantID globalTenantSentinel)
             then scopedPolicyRows db (scope_org tenantID orgID) tenantID
             else Ok []) ;
   globalRows <-! scopedPolicyRows db globalTenantSentinel globalTenantSentinel ;
   Ok (SliceStable row_before (rows ++ globalRows)))%go.

Definition loadFromDatabase (db : option policy_db) (tenantID : string) (orgID : option string)
  : result load_error (list CompiledPolicy) :=
  match db with
  | None => Err ErrNoDatabase
  | Some db =>
      (rows <-! merged_rows db tenantID orgID ;
       let policies := compile_rows rows in
       if (length (List.filter is_system policies) =? 0)%nat then Err ErrEmptySystemPolicySet
       else Ok policies)%go
  end.

Definition filterByPhase (policies : list CompiledPolicy) (phase : string) : list CompiledPolicy :=
  List.filter (fun p =>
    if str_eqb phase PhaseRequest then in_request_phase p
    else if str_eqb phase PhaseResponse then in_response_phase p
    else str_eqb phase PhaseBoth) policies.

(** [t0] and [t1] are the times of the cache lookup and of the store. *)
Definition GetPolicies (c : PolicyCache) (db : option policy_db) (t0 t1 : Z)
    (tenantID : string) (orgID : option string) (phase : string)
  : result load_error (list CompiledPolicy) * PolicyCache :=
  match Get c t0 tenantID orgID phase with
  | (Some policies, c') => (Ok policies, c')
  | (None, c') =>
      match loadFromDatabase db tenantID orgID with
      | Err e => (Err e, c')
      | Ok policies => (Ok (filterByPhase policies phase), Set_ c' t1 tenantID orgID policies)
      end
  end.

Definition RefreshAll (c : PolicyCache) (startTime now : Z) : PolicyCache :=
  SetLastRefresh (InvalidateAll c) now (now - startTime).

Definition where_system (r : table_row) : bool :=
  r_Enabled (t_row r) && negb (t_deleted r) && str_eqb (r_Tier (t_row r)) "system".

Definition LoadSystemPolicies (db : option policy_db) : result load_error (list CompiledPolicy) :=
  match db with
  | None => Err ErrNoDatabase
  | Some db =>
      WithOrgScope db globalTenantSentinel (fun tx =>
        Ok (compile_rows (SliceStable row_before (scan_rows (List.filter where_system (db_rows tx))))))
  end.

Definition where_policy_id (policyID : string) (r : table_row) : bool :=
  str_eqb (r_PolicyID (t_row r)) policyID && negb (t_deleted r).

(** A single-row read: [Ok None] is [sql.ErrNoRows]; the first row that
    qualifies decides, and a row that does not convert is an error. *)
Definition query_one (policyID : string) (db : policy_db) : result load_error (option policyRow) :=
  if negb (db_up db) then Err ErrQueryFailed
  else match List.filter (where_policy_id policyID) (db_rows db) with
       | [] => Ok None
       | r :: _ => if t_scans r then Ok (Some (t_row r)) else Err ErrQueryFailed
       end.

(** The bare read runs outside any scope: row-level security leaves it the
    rows of no organization unless the pool bypasses it. *)
Definition bare_view (db : policy_db) : policy_db :=
  mkDB (List.filter (fun _ => db_bypass_rls db) (db_rows db)) (db_up db) (db_bypass_rls db).

Definition GetPolicyByID (db : option policy_db) (policyID : string)
  : result load_error (option CompiledPolicy) :=
  match db with
  | None => Err ErrNoDatabase
  | Some db =>
      (first <-! query_one policyID (bare_view db) ;
       found <-! (match first with
                  | Some row => Ok (Some row)
                  | None => WithOrgScope db globalTenantSentinel (query_one policyID)
                  end) ;
       match found with
       | None => Ok None
       | Some row => p <-! compilePolicy row ; Ok (Some p)
       end)%go
  end.
End Loader.

(** Correctness of the policy loader: tenant isolation through the cache, the
    fail-closed guard on an empty system set, the ordering of the merged read,
    and the agreement of cached and freshly loaded answers. *)

(** * The ORDER BY is a strict weak order *)

Lemma row_before_asym a b : row_before a b = true -> row_before b a = false.
Proof. unfold row_before. repeat case_match; lia. Qed.

Lemma row_not_after_trans a b c :
  not_after row_before a b -> not_after row_before b c -> not_after row_before a c.
Proof. unfold not_after, row_before. repeat case_match; lia. Qed.

Lemma rows_sorted l : StronglySorted (not_after row_before) (SliceStable row_before l).
Proof. apply SliceStable_sorted; [apply row_before_asym|apply row_not_after_trans]. Qed.

Lemma WithOrgScope_ok {A} db org (fn : policy_db -> result load_error A) a :
  WithOrgScope db org fn = Ok a ->
  org <> "" /\ db_up db = true /\
  fn (mkDB (List.filter (fun r => db_bypass_rls db || str_eqb (t_org r) org) (db_rows db))
        (db_up db) (db_bypass_rls db)) = Ok a.
Proof.
  unfold WithOrgScope. destruct (str_eqb org "") eqn:E; [done|].
  apply str_eqb_false in E. destruct (db_up db); [|done]. done.
Qed.

(** The rows a scoped pass may return. *)
Definition visible_row (db : policy_db) (org tenant : string) (r : policyRow) : Prop :=
  exists t, t ∈ db_rows db /\ t_row t = r /\ t_deleted t = false /\ t_scans t = true /\
    r_Enabled r = true /\ r_TenantID r = tenant /\ (db_bypass_rls db = true \/ t_org t = org).

Lemma scopedPolicyRows_elem db org tenant rows r :
  scopedPolicyRows db org tenant = Ok rows -> r ∈ rows <-> visible_row db org tenant r.
Proof.
  intros (_ & _ & [= <-])%WithOrgScope_ok. simpl.
  rewrite SliceStable_perm. unfold scan_rows, visible_row, where_tenant.
  rewrite list_elem_of_fmap. setoid_rewrite elem_of_filter_bool.
  setoid_rewrite elem_of_filter_bool. setoid_rewrite elem_of_filter_bool. split.
  - intros (t & -> & ((Ht & Hv) & Hw) & Hs). bool_simpl.
    exists t. rewrite str_eqb_true in *. split_and!; auto.
    apply orb_true_iff in Hv. rewrite str_eqb_true in Hv. tauto.
  - intros (t & Ht & <- & Hd & Hs & He & Htn & Hv).
    exists t. split_and!; auto.
    + apply orb_true_iff. rewrite str_eqb_true. tauto.
    + by rewrite He, Hd, Htn, str_eqb_refl.
Qed.

Section Facts.
Context `{U : Unicode}.

Lemma compilePolicy_fields row p :
  compilePolicy row = Ok p ->
  TenantID p = r_TenantID row /\ Priority p = r_Priority row /\ Enabled p = r_Enabled row /\
  PolicyID p = r_PolicyID row /\ Tier p = r_Tier row /\ Category p = r_Category row /\
  Pattern p = Compile (r_Pattern row) /\ is_Some (Pattern p).
Proof. unfold compilePolicy. destruct (Compile _); [|done]. intros [= <-]. simpl. eauto 10. Qed.

Lemma compile_rows_elem rows p :
  p ∈ compile_rows rows <-> exists row, row ∈ rows /\ compilePolicy row = Ok p.
Proof.
  unfold compile_rows. rewrite list_elem_of_omap. split.
  - intros (row & Hr & Hc). exists row. split; [done|]. by destruct (compilePolicy row); simplify_eq.
  - intros (row & Hr & Hc). exists row. by rewrite Hc.
Qed.

Lemma compile_rows_sorted rows :
  StronglySorted (not_after row_before) rows -> StronglySorted prio_ge (compile_rows rows).
Proof.
  induction 1 as [|row rows Hs IH Hr]; [constructor|]. unfold compile_rows in *. simpl.
  destruct (compilePolicy row) as [p|] eqn:E; [|done]. constructor; [done|].
  apply Forall_forall. intros q (row' & Hr' & Hq)%compile_rows_elem.
  rewrite Forall_forall in Hr. specialize (Hr _ Hr').
  apply compilePolicy_fields in E as (_ & Hp & _). apply compilePolicy_fields in Hq as (_ & Hp' & _).
  unfold prio_ge. rewrite Hp, Hp'. unfold not_after, row_before in Hr.
  revert Hr. repeat case_match; lia.
Qed.

(** What a successful merge read contains. *)
Lemma merged_rows_elem db t o rows r :
  merged_rows db t o = Ok rows ->
  r ∈ rows <->
  (t <> "" /\ t <> globalTenantSentinel /\ visible_row db (scope_org t o) t r) \/
  visible_row db globalTenantSentinel globalTenantSentinel r.
Proof.
  unfold merged_rows. intros (rt & Ht & H)%result_bind_ok.
  apply result_bind_ok in H as (rg & Hg & [= <-]).
  rewrite SliceStable_perm, elem_of_app, (scopedPolicyRows_elem _ _ _ _ _ Hg).
  destruct (str_eqb t "") eqn:E1, (str_eqb t globalTenantSentinel) eqn:E2; simpl in Ht;
    rewrite ?str_eqb_true, ?str_eqb_false in *;
    try (injection Ht as <-; rewrite elem_of_nil; tauto).
  rewrite (scopedPolicyRows_elem _ _ _ _ _ Ht). tauto.
Qed.

Lemma merged_rows_sorted db t o rows :
  merged_rows db t o = Ok rows -> StronglySorted (not_after row_before) rows.
Proof.
  unfold merged_rows. intros (rt & _ & H)%result_bind_ok.
  apply result_bind_ok in H as (rg & _ & [= <-]). apply rows_sorted.
Qed.

Lemma load_ok db t o ps :
  loadFromDatabase db t o = Ok ps ->
  exists d rows, db = Some d /\ merged_rows d t o = Ok rows /\ ps = compile_rows rows /\
                 exists p, p ∈ ps /\ is_system p = true.
Proof.
  unfold loadFromDatabase. destruct db as [d|]; [|done].
  intros (rows & Hm & H)%result_bind_ok.
  destruct (length _ =? 0)%nat eqn:E; [done|]. injection H as <-.
  exists d, rows. split_and!; try done.
  destruct (List.filter is_system (compile_rows rows)) as [|p l] eqn:Ef; [done|].
  exists p. apply elem_of_filter_bool. rewrite Ef. left.
Qed.

Lemma load_sorted db t o ps :
  loadFromDatabase db t o = Ok ps -> StronglySorted prio_ge ps.
Proof.
  intros (d & rows & -> & Hm & -> & _)%load_ok.
  by eapply compile_rows_sorted, merged_rows_sorted.
Qed.

Definition tenant_ok (t : string) (p : CompiledPolicy) : Prop :=
  TenantID p = t \/ TenantID p = globalTenantSentinel.

Lemma load_tenant db t o ps :
  loadFromDatabase db t o = Ok ps -> Forall (tenant_ok t) ps.
Proof.
  intros (d & rows & -> & Hm & -> & _)%load_ok. apply Forall_forall.
  intros p (row & Hr & Hc)%compile_rows_elem.
  apply compilePolicy_fields in Hc as (Ht & _). unfold tenant_ok. rewrite Ht.
  apply (merged_rows_elem _ _ _ _ _ Hm) in Hr as [(_ & _ & x & Hx)|(x & Hx)]; naive_solver.
Qed.

(** The guard against reads that silently return nothing: a load succeeds only
    if it contains a system-tier or global policy, so an empty or
    tenant-only result is always the error [ErrEmptySystemPolicySet] (or an
    earlier error), never an empty policy set. *)
Theorem load_never_without_system (db : option policy_db) (t : string) (o : option string)
    (ps : list CompiledPolicy) :
  loadFromDatabase db t o = Ok ps ->
  exists p, p ∈ ps /\ (Tier p = "system" \/ TenantID p = globalTenantSentinel).
Proof.
  intros (d & rows & -> & _ & _ & p & Hp & Hs)%load_ok. exists p. split; [done|].
  unfold is_system in Hs. apply orb_true_iff in Hs. by rewrite !str_eqb_true in Hs.
Qed.

(** C9: Completeness and isolation of the two scoped passes: a successful load
    contains exactly the compiled forms of the enabled, live rows of the
    tenant visible in the caller's organization scope and of the global
    tenant visible in the global scope, in descending priority. *)
Theorem load_exact (d : policy_db) (t : string) (o : option string) (ps : list CompiledPolicy) :
  loadFromDatabase (Some d) t o = Ok ps ->
  StronglySorted prio_ge ps /\
  forall p, p ∈ ps <->
    exists row, compilePolicy row = Ok p /\
      ((t <> "" /\ t <> globalTenantSentinel /\ visible_row d (scope_org t o) t row) \/
       visible_row d globalTenantSentinel globalTenantSentinel row).
Proof.
  intros H. split; [by eapply load_sorted|].
  apply load_ok in H as (d' & rows & [= <-] & Hm & -> & _).
  intros p. rewrite compile_rows_elem. split.
  - intros (row & Hr & Hc). exists row. split; [done|]. by apply (merged_rows_elem _ _ _ _ _ Hm).
  - intros (row & Hc & Hv). exists row. split; [|done]. by apply (merged_rows_elem _ _ _ _ _ Hm).
Qed.

(** * The loader with its cache *)

(** The cache states the loader can reach when tenant ids carry no colon. *)
Inductive reachable : PolicyCache -> Prop :=
| R_new ttl : reachable (NewPolicyCache ttl)
| R_get c db t0 t1 t o phase :
    reachable c -> colon_free t -> reachable (GetPolicies c db t0 t1 t o phase).2
| R_invalidate c t o : reachable c -> reachable (Invalidate c t o)
| R_refresh c t0 t1 : reachable c -> reachable (RefreshAll c t0 t1).

(** Every entry belongs to the tenant of its key and is in priority order. *)
Definition cache_ok (c : PolicyCache) : Prop :=
  forall t o e, colon_free t -> tenantCache c !! cacheKey t o = Some e ->
    Forall (tenant_ok t) (requestPolicies e) /\ Forall (tenant_ok t) (responsePolicies e).

Lemma Set_ok c now t o ps :
  cache_ok c -> colon_free t -> Forall (tenant_ok t) ps -> cache_ok (Set_ c now t o ps).
Proof.
  intros Hc Ht Hps t' o' e Ht'. unfold Set_. rewrite split_phases_filter. simpl.
  rewrite lookup_insert_Some. intros [[Hk <-]|[_ He]]; [|by eapply Hc].
  apply cacheKey_inj in Hk as [<- <-]; [|done..]. simpl. rewrite !sortByPriority_perm.
  rewrite !Forall_forall in *. by split; intros p [? _]%elem_of_filter_bool; auto.
Qed.

Lemma GetPolicies_ok c db t0 t1 t o phase :
  cache_ok c -> colon_free t -> cache_ok (GetPolicies c db t0 t1 t o phase).2.
Proof.
  intros Hc Ht. unfold GetPolicies.
  destruct (Get c t0 t o phase) as [r c'] eqn:E.
  assert (Hc' : cache_ok c').
  { pose proof (Get_entries c t0 t o phase) as [He _]. rewrite E in He. simpl in He.
    intros ???. rewrite He. apply Hc. }
  destruct r; [done|]. destruct (loadFromDatabase db t o) eqn:El; [|done]. simpl.
  apply Set_ok; [done..|]. by eapply load_tenant.
Qed.

Lemma reachable_ok c : reachable c -> cache_ok c.
Proof.
  induction 1 as [ttl|c db t0 t1 t o phase _ IH Ht|c t o _ IH|c t0 t1 _ IH].
  - intros ???. simpl. by rewrite lookup_empty.
  - by apply GetPolicies_ok.
  - intros t' o' e Ht'. unfold Invalidate. simpl. intros [_ He]%lookup_delete_Some.
    by eapply IH.
  - intros ???. simpl. by rewrite lookup_empty.
Qed.

Lemma Get_tenant c now t o phase ps :
  cache_ok c -> colon_free t -> (Get c now t o phase).1 = Some ps -> Forall (tenant_ok t) ps.
Proof.
  intros Hc Ht. unfold Get. destruct (tenantCache c !! cacheKey t o) as [e|] eqn:He; [|done].
  destruct (Hc _ _ _ Ht He) as [Hq Hs]. destruct (_ <? _); [done|]. simpl.
  repeat case_match; intros; simplify_eq; try done.
  rewrite Forall_forall in *. intros p Hp. unfold mergePolicies in Hp.
  pose proof (merge_loop_spec (requestPolicies e) ∅) as Ha.
  destruct (merge_loop (requestPolicies e) ∅) as [ra sa].
  pose proof (merge_loop_spec (responsePolicies e) sa) as Hb.
  destruct (merge_loop (responsePolicies e) sa) as [rb sb].
  destruct Ha as (_ & Ha & _), Hb as (_ & Hb & _).
  apply elem_of_app in Hp as [[? _]%Ha|[? _]%Hb]; auto.
Qed.

Lemma filterByPhase_incl ps phase p : p ∈ filterByPhase ps phase -> p ∈ ps.
Proof. unfold filterByPhase. by intros [? _]%elem_of_filter_bool. Qed.

(** C8: Tenant isolation, for tenants whose name has no colon, the separator of
    the cache's keys: after any history of loads, invalidations and refreshes
    for such tenants over any database states, the policies returned for a
    tenant belong to that tenant or to the global tenant; no other tenant's
    policy reaches the gate, from the cache or from the database. *)
Theorem GetPolicies_tenant_isolation (c : PolicyCache) (db : option policy_db) (t0 t1 : Z)
    (t : string) (o : option string) (phase : string) (ps : list CompiledPolicy) :
  reachable c -> colon_free t ->
  (GetPolicies c db t0 t1 t o phase).1 = Ok ps ->
  Forall (fun p => TenantID p = t \/ TenantID p = globalTenantSentinel) ps.
Proof.
  intros Hc%reachable_ok Ht. unfold GetPolicies.
  destruct (Get c t0 t o phase) as [[r|] c'] eqn:E.
  - intros [= <-]. apply (Get_tenant c t0 t o phase); [done..|]. by rewrite E.
  - destruct (loadFromDatabase db t o) as [l|] eqn:El; [|done]. intros [= <-].
    apply load_tenant in El. rewrite Forall_forall in *. intros p Hp.
    by apply El, (filterByPhase_incl _ phase).
Qed.

(** A failed load is never cached: when [GetPolicies] returns an error, no
    cache entry is added, changed or removed, so neither does the failure
    stick after the database recovers nor is a good entry lost. *)
Theorem failed_load_not_cached (c : PolicyCache) (db : option policy_db) (t0 t1 : Z)
    (t : string) (o : option string) (phase : string) (err : load_error) :
  (GetPolicies c db t0 t1 t o phase).1 = Err err ->
  tenantCache (GetPolicies c db t0 t1 t o phase).2 = tenantCache c.
Proof.
  unfold GetPolicies. pose proof (Get_entries c t0 t o phase) as [He _].
  destruct (Get c t0 t o phase) as [[r|] c']; [done|].
  by destruct (loadFromDatabase db t o).
Qed.

Lemma filterByPhase_request ps : filterByPhase ps PhaseRequest = List.filter in_request_phase ps.
Proof. done. Qed.
Lemma filterByPhase_response ps : filterByPhase ps PhaseResponse = List.filter in_response_phase ps.
Proof. done. Qed.

(** A cache hit answers what the load answered: after a successful
    [GetPolicies] that went to the database, every later call within the
    time to live returns, for the request and for the response phase, the
    phase's part of that load in the same evaluation order, whatever
    happened to the database since. *)
Theorem hit_equals_load (c : PolicyCache) (db db' : option policy_db) (t0 t1 t2 t3 : Z)
    (t : string) (o : option string) (phase phase' : string) (ps : list CompiledPolicy) :
  (Get c t0 t o phase).1 = None ->
  loadFromDatabase db t o = Ok ps ->
  t2 <= t1 + ttl c ->
  phase' = PhaseRequest \/ phase' = PhaseResponse ->
  (GetPolicies (GetPolicies c db t0 t1 t o phase).2 db' t2 t3 t o phase').1 =
  Ok (filterByPhase ps phase').
Proof.
  intros Hmiss Hload Ht Hph. unfold GetPolicies at 2.
  pose proof (Get_entries c t0 t o phase) as [_ Httl].
  destruct (Get c t0 t o phase) as [r c']. simpl in *. subst r. rewrite Hload. simpl.
  unfold GetPolicies. pose proof (Get_Set_same c' t1 t2 t o ps phase') as Hg.
  rewrite Httl in Hg. destruct (Z.ltb_spec (t1 + ttl c) t2); [lia|].
  apply load_sorted in Hload.
  rewrite !sortByPriority_id in Hg by (by apply filter_sorted).
  destruct (Get _ t2 t o phase') as [g c'']. simpl in Hg. subst g.
  by destruct Hph as [-> | ->].
Qed.

(** The background refresh discards good entries: after [RefreshAll] every lookup
    misses whatever its remaining time to live, so a database outage makes
    [GetPolicies] fail at once for a tenant whose cached set was still
    valid. The contract of [GetPolicies] says a good entry is never
    invalidated by a bad refresh and serves until its own expiry. *)
Theorem refresh_discards_good_entries (c : PolicyCache) (s0 s1 t0 t1 : Z) (d : policy_db)
    (t : string) (o : option string) (phase : string) :
  db_up d = false ->
  is_ok (GetPolicies (RefreshAll c s0 s1) (Some d) t0 t1 t o phase).1 = false.
Proof.
  intros Hd. unfold GetPolicies, Get. simpl. rewrite lookup_empty. unfold merged_rows.
  assert (Hs : forall org ten, is_ok (scopedPolicyRows d org ten) = false).
  { intros org ten. unfold scopedPolicyRows, WithOrgScope. rewrite Hd. by destruct (str_eqb org ""). }
  pose proof (Hs (scope_org t o) t) as H1. pose proof (Hs globalTenantSentinel globalTenantSentinel) as H2.
  destruct (scopedPolicyRows d (scope_org t o) t), (scopedPolicyRows d globalTenantSentinel _);
    try done. by destruct (_ && _).
Qed.
End Facts.

(** * A concrete database *)

#[local] Existing Instance ascii_unicode.

Definition ex_row (id tenant pattern : string) (prio created : Z) : policyRow :=
  mkRow id id id CategorySecuritySQLi (if str_eqb tenant "global" then "system" else "tenant")
    pattern SeverityCritical None None (Some ActionBlock) None true prio tenant None created.

Definition ex_db : policy_db :=
  mkDB [mkTableRow (ex_row "sys_drop" "global" "DROP" 100 1) false "global" true;
        mkTableRow (ex_row "acme_rule" "acme" "acme" 200 5) false "acme" true;
        mkTableRow (ex_row "other_rule" "other" "x" 300 3) false "other" true;
        mkTableRow (ex_row "sys_bad" "global" "(" 900 2) false "global" true] true false.

Definition ex_db_down : policy_db := mkDB [] false false.

Definition loaded_ids (r : result load_error (list CompiledPolicy)) : list string :=
  match r with Ok l => PolicyID <$> l | Err _ => [] end.

Example load_ex : loaded_ids (loadFromDatabase (Some ex_db) "acme" None) = ["acme_rule"; "sys_drop"].
Proof. vm_compute. reflexivity. Qed.

Lemma acme_colon_free : colon_free "acme".
Proof.
  unfold colon_free. simpl. rewrite !not_elem_of_cons. repeat split; try discriminate.
  apply not_elem_of_nil.
Qed.

Lemma load_never_without_system_witness :
  exists ps p, loadFromDatabase (Some ex_db) "acme" None = Ok ps /\ p ∈ ps /\
    (Tier p = "system" \/ TenantID p = globalTenantSentinel).
Proof.
  destruct (loadFromDatabase (Some ex_db) "acme" None) as [ps|e] eqn:E;
    [|vm_compute in E; discriminate].
  destruct (load_never_without_system _ _ _ _ E) as [p Hp]. exists ps, p. split; [done|exact Hp].
Defined.

Lemma load_exact_witness :
  exists ps, loadFromDatabase (Some ex_db) "acme" None = Ok ps /\ length ps = 2%nat /\
    StronglySorted prio_ge ps.
Proof.
  destruct (loadFromDatabase (Some ex_db) "acme" None) as [ps|e] eqn:E;
    [|vm_compute in E; discriminate].
  exists ps. split; [done|]. split.
  - vm_compute in E. injection E as <-. reflexivity.
  - exact (proj1 (load_exact ex_db "acme" None ps E)).
Defined.

Lemma GetPolicies_tenant_isolation_witness :
  exists ps, (GetPolicies (NewPolicyCache 10) (Some ex_db) 0 0 "acme" None PhaseRequest).1 = Ok ps /\
    length ps = 2%nat /\
    Forall (fun p => TenantID p = "acme" \/ TenantID p = globalTenantSentinel) ps.
Proof.
  destruct (GetPolicies (NewPolicyCache 10) (Some ex_db) 0 0 "acme" None PhaseRequest).1
    as [ps|e] eqn:E; [|vm_compute in E; discriminate].
  exists ps. split; [done|]. split.
  - vm_compute in E. injection E as <-. reflexivity.
  - apply (GetPolicies_tenant_isolation (NewPolicyCache 10) (Some ex_db) 0 0 "acme" None PhaseRequest ps
             (R_new 10) acme_colon_free E).
Defined.

Lemma failed_load_not_cached_witness :
  tenantCache (GetPolicies (NewPolicyCache 10) (Some ex_db_down) 0 0 "acme" None PhaseRequest).2 = ∅.
Proof.
  apply (failed_load_not_cached (NewPolicyCache 10) (Some ex_db_down) 0 0 "acme" None PhaseRequest
           ErrQueryFailed).
  vm_compute. reflexivity.
Defined.

Lemma hit_equals_load_witness :
  loaded_ids (GetPolicies (GetPolicies (NewPolicyCache 10) (Some ex_db) 0 0 "acme" None PhaseRequest).2
    (Some ex_db_down) 5 5 "acme" None PhaseRequest).1 = ["acme_rule"; "sys_drop"].
Proof.
  destruct (loadFromDatabase (Some ex_db) "acme" None) as [ps|e] eqn:E;
    [|vm_compute in E; discriminate].
  rewrite (hit_equals_load (NewPolicyCache 10) (Some ex_db) (Some ex_db_down) 0 0 5 5 "acme" None
             PhaseRequest PhaseRequest ps).
  - vm_compute in E. injection E as <-. vm_compute. reflexivity.
  - reflexivity.
  - exact E.
  - cbv. discriminate.
  - left. reflexivity.
Defined.

(** The entry is valid until 10: without the refresh the second call is a hit
    (see above), with it the call fails at time 5. *)
Lemma refresh_discards_good_entries_witness :
  is_ok (GetPolicies
    (RefreshAll (GetPolicies (NewPolicyCache 10) (Some ex_db) 0 0 "acme" None PhaseRequest).2 5 5)
    (Some ex_db_down) 5 5 "acme" None PhaseRequest).1 = false /\
  is_ok (GetPolicies
    (GetPolicies (NewPolicyCache 10) (Some ex_db) 0 0 "acme" None PhaseRequest).2
    (Some ex_db_down) 5 5 "acme" None PhaseRequest).1 = true.
Proof.
  split; [|vm_compute; reflexivity].
  apply refresh_discards_good_entries. reflexivity.
Defined.
