(* ===== verification/GoJSON.v ===== *)
(** encoding/json as the redactor uses it: decoding with UseNumber, encoding
    without HTML escaping, and validity.

    A decoded object keeps its keys in the order of their first occurrence, the
    last value of a repeated key wins, and encoding sorts keys. *)

From S2P Require Import Prelude GoFloat GoStrings Regexp PolicyTypes.

Local Open Scope Z_scope.

(** * Decoding *)

Fixpoint skip_ws (l : list Z) : list Z :=
  match l with
  | b :: l' => if (b =? 32) || (b =? 9) || (b =? 10) || (b =? 13) then skip_ws l' else l
  | [] => []
  end.

Definition hex_val (b : Z) : option Z :=
  if in_range 48 57 b then Some (b - 48)
  else if in_range 97 102 b then Some (b - 87)
  else if in_range 65 70 b then Some (b - 55)
  else None.

Definition hex4 (l : list Z) : option (Z * list Z) :=
  match l with
  | a :: b :: c :: d :: rest =>
      match hex_val a, hex_val b, hex_val c, hex_val d with
      | Some a, Some b, Some c, Some d => Some (a * 4096 + b * 256 + c * 16 + d, rest)
      | _, _, _, _ => None
      end
  | _ => None
  end.

(** The rune after [\u]: a surrogate pair combines, a lone surrogate is U+FFFD. *)
Definition unicode_escape (l : list Z) : option (Z * list Z) :=
  match hex4 l with
  | None => None
  | Some (r, rest) =>
      if negb (in_range 55296 57343 r) then Some (r, rest)
      else if in_range 55296 56319 r then
        match rest with
        | 92 :: 117 :: rest' =>
            match hex4 rest' with
            | Some (r2, rest2) =>
                if in_range 56320 57343 r2
                then Some ((r - 55296) * 1024 + (r2 - 56320) + 65536, rest2)
                else Some (RuneError, rest)
            | None => Some (RuneError, rest)
            end
        | _ => Some (RuneError, rest)
        end
      else Some (RuneError, rest)
  end.

Definition simple_escape (c : Z) : option Z :=
  if c =? 34 then Some 34 else if c =? 92 then Some 92 else if c =? 47 then Some 47
  else if c =? 98 then Some 8 else if c =? 102 then Some 12 else if c =? 110 then Some 10
  else if c =? 114 then Some 13 else if c =? 116 then Some 9 else None.

(** The body of a string after its opening quote. *)
Fixpoint p_json_string (fuel : nat) (l : list Z) : option (list Z * list Z) :=
  match fuel with
  | O => None
  | S f =>
      match l with
      | [] => None
      | 34 :: rest => Some ([], rest)
      | 92 :: 117 :: rest =>
          match unicode_escape rest with
          | Some (r, rest') =>
              '(s, t) ← p_json_string f rest'; Some (encode_rune r ++ s, t)
          | None => None
          end
      | 92 :: c :: rest =>
          match simple_escape c with
          | Some b => '(s, t) ← p_json_string f rest; Some (b :: s, t)
          | None => None
          end
      | b :: _ =>
          if b <? 32 then None
          else match decode_rune l with
               | Some (r, w) => '(s, t) ← p_json_string f (drop w l); Some (encode_rune r ++ s, t)
               | None => None
               end
      end
  end.

Fixpoint take_digits (l : list Z) : list Z * list Z :=
  match l with
  | b :: l' => if in_range 48 57 b then let '(d, r) := take_digits l' in (b :: d, r) else ([], l)
  | [] => ([], [])
  end.

Definition p_int (l : list Z) : option (list Z * list Z) :=
  match l with
  | 48 :: rest => Some ([48], rest)
  | _ => match take_digits l with ([], _) => None | (d, r) => Some (d, r) end
  end.

Definition p_frac (l : list Z) : option (list Z * list Z) :=
  match l with
  | 46 :: rest => match take_digits rest with ([], _) => None | (d, r) => Some (46 :: d, r) end
  | _ => Some ([], l)
  end.

Definition p_exp (l : list Z) : option (list Z * list Z) :=
  match l with
  | e :: rest =>
      if (e =? 101) || (e =? 69) then
        let '(sign, rest) :=
          match rest with
          | s :: r => if (s =? 43) || (s =? 45) then ([s], r) else ([], rest)
          | [] => ([], rest)
          end in
        match take_digits rest with ([], _) => None | (d, r) => Some (e :: sign ++ d, r) end
      else Some ([], l)
  | [] => Some ([], l)
  end.

Definition p_number (l : list Z) : option (value * list Z) :=
  let '(sign, l) := match l with 45 :: r => ([45], r) | _ => ([], l) end in
  '(i, l) ← p_int l; '(f, l) ← p_frac l; '(e, l) ← p_exp l;
  Some (VNumber (of_bytes (sign ++ i ++ f ++ e)), l).

Fixpoint assoc_set (k : string) (v : value) (m : list (string * value)) : list (string * value) :=
  match m with
  | [] => [(k, v)]
  | (k', v') :: m' => if str_eqb k k' then (k, v) :: m' else (k', v') :: assoc_set k v m'
  end.

Definition strip (pre : string) (l : list Z) : option (list Z) :=
  if bool_decide (take (len pre) l = bytes pre) then Some (drop (len pre) l) else None.

(** Values, and the tails of arrays and objects after an element. *)
Fixpoint p_value (fuel : nat) (l : list Z) : option (value * list Z) :=
  match fuel with
  | O => None
  | S f =>
      match skip_ws l with
      | 34 :: rest => '(s, t) ← p_json_string f rest; Some (VString (of_bytes s), t)
      | 91 :: rest =>
          match skip_ws rest with
          | 93 :: t => Some (VArr [], t)
          | rest => '(v, t) ← p_value f rest; '(vs, t) ← p_array f t; Some (VArr (v :: vs), t)
          end
      | 123 :: rest =>
          match skip_ws rest with
          | 125 :: t => Some (VObj [], t)
          | rest => '(m, t) ← p_member f rest []; '(m, t) ← p_object f t m; Some (VObj m, t)
          end
      | l' =>
          match strip "null" l', strip "true" l', strip "false" l' with
          | Some t, _, _ => Some (VNil, t)
          | _, Some t, _ => Some (VBool true, t)
          | _, _, Some t => Some (VBool false, t)
          | _, _, _ => p_number l'
          end
      end
  end
with p_array (fuel : nat) (l : list Z) : option (list value * list Z) :=
  match fuel with
  | O => None
  | S f =>
      match skip_ws l with
      | 93 :: t => Some ([], t)
      | 44 :: rest => '(v, t) ← p_value f rest; '(vs, t) ← p_array f t; Some (v :: vs, t)
      | _ => None
      end
  end
with p_member (fuel : nat) (l : list Z) (m : list (string * value))
  : option (list (string * value) * list Z) :=
  match fuel with
  | O => None
  | S f =>
      match skip_ws l with
      | 34 :: rest =>
          '(k, t) ← p_json_string f rest;
          match skip_ws t with
          | 58 :: rest => '(v, t) ← p_value f rest; Some (assoc_set (of_bytes k) v m, t)
          | _ => None
          end
      | _ => None
      end
  end
with p_object (fuel : nat) (l : list Z) (m : list (string * value))
  : option (list (string * value) * list Z) :=
  match fuel with
  | O => None
  | S f =>
      match skip_ws l with
      | 125 :: t => Some (m, t)
      | 44 :: rest => '(m, t) ← p_member f rest m; p_object f t m
      | _ => None
      end
  end.

(** A single document with nothing after it. Every call below a bracket, a comma
    or a member consumes a byte, except the two calls of an object's first
    member, so twice the length bounds the depth of calls. *)
Definition json_decode (s : string) : option value :=
  match p_value (2 * len s + 4) (bytes s) with
  | Some (v, t) => match skip_ws t with [] => Some v | _ => None end
  | None => None
  end.

Definition json_valid (s : string) : bool :=
  match json_decode s with Some _ => true | None => false end.

(** * Encoding *)

Definition hex_digit (n : Z) : Z := if n <? 10 then 48 + n else 87 + n.

Definition quote_rune (html : bool) (r : Z) (raw : list Z) : list Z :=
  if (r =? 34) || (r =? 92) then [92; r]
  else if r =? 8 then [92; 98] else if r =? 12 then [92; 102] else if r =? 10 then [92; 110]
  else if r =? 13 then [92; 114] else if r =? 9 then [92; 116]
  else if (r <? 32) || (html && ((r =? 60) || (r =? 62) || (r =? 38)))
  then [92; 117; 48; 48; hex_digit (r / 16); hex_digit (r mod 16)]
  else if (r =? RuneError) && (length raw =? 1)%nat then bytes "\ufffd"
  else if r =? 8232 then bytes "\u2028"
  else if r =? 8233 then bytes "\u2029"
  else raw.

Definition json_quote (html : bool) (s : string) : string :=
  of_bytes ([34] ++ concat ((fun p => quote_rune html p.1 p.2) <$> runes s) ++ [34]).

Fixpoint join (sep : string) (l : list string) : string :=
  match l with
  | [] => ""
  | [x] => x
  | x :: l' => x +:+ sep +:+ join sep l'
  end.

Definition key_before (a b : string * string) : bool :=
  match String.compare a.1 b.1 with Lt => true | _ => false end.

Definition encode_members (html : bool) (ms : list (string * string)) : string :=
  "{" +:+ join "," ((fun m => json_quote html m.1 +:+ ":" +:+ m.2) <$> SliceStable key_before ms)
  +:+ "}".

Fixpoint seq_options {A} (l : list (option A)) : option (list A) :=
  match l with
  | [] => Some []
  | o :: l' => x ← o; xs ← seq_options l'; Some (x :: xs)
  end.

(** The renderings of the runtime that depend on shortest float formatting, on
    base64 or on reflection: [fmt.Sprintf("%v", v)], [strconv.FormatFloat(f,
    'f', -1, 64)], and the JSON of a value that is not a decoded document. *)
Class GoFormat := {
  sprint_value : value -> string;
  format_float : float64 -> string;
  json_leaf : value -> option string;
}.

Section Encode.
Context `{F : GoFormat}.

Fixpoint json_encode (html : bool) (v : value) : option string :=
  match v with
  | VNil => Some "null"
  | VBool b => Some (if b then "true" else "false")
  | VNumber lit => Some lit
  | VInt n => Some (Itoa n)
  | VString s => Some (json_quote html s)
  | VArr l =>
      parts ← seq_options (map (json_encode html) l);
      Some ("[" +:+ join "," parts +:+ "]")
  | VObj m =>
      parts ← seq_options (map (fun e => s ← json_encode html e.2; Some (e.1, s)) m);
      Some (encode_members html parts)
  | VRows rows =>
      parts ← seq_options (map (fun row =>
                 ms ← seq_options (map (fun e => s ← json_encode html e.2; Some (e.1, s)) row);
                 Some (encode_members html ms)) rows);
      Some ("[" +:+ join "," parts +:+ "]")
  | VFloat _ | VBytes _ | VOther _ => json_leaf v
  end.
End Encode.

Definition no_format : GoFormat := {|
  sprint_value _ := "<value>"; format_float _ := "0"; json_leaf _ := None |}.

Definition ex_doc : string := of_bytes (bytes "{'b': [1.5e3, null], 'a': {'x': 'q\n\u00e9'}, 'b': -0}").

(** Test documents write a quote as an apostrophe. *)
Definition dq (s : string) : string :=
  of_bytes ((fun b => if b =? 39 then 34 else b) <$> bytes s).

Example json_ex :
  json_encode (F := no_format) false <$> json_decode (dq ex_doc)
  = Some (Some (dq ("{'a':{'x':'q\n" +:+ of_bytes [195; 169] +:+ "'},'b':-0}"))).
Proof. vm_compute. reflexivity. Qed.

Example json_bad : json_valid (dq "{'a':1,}") = false /\ json_valid "01" = false /\ json_valid "[1] 2" = false.
Proof. split_and!; vm_compute; reflexivity. Qed.
