(* ===== verification/GoFmt.v ===== *)
(** Floating-point text: [strconv.ParseFloat], [strconv.FormatFloat] with the
    shortest precision, and [fmt.Sprint] of one operand.

    A decimal is read as a ratio of integers and rounded once, as the exact
    algorithm of strconv does.  The shortest form of a float64 is found as
    [roundShortest] does: the fewest digits whose truncation or round-up stays
    in the interval of the reals that round to the float. *)

From S2P Require Import Prelude GoFloat GoStrings GoStrconv PolicyTypes GoJSON GoBase64.
From Stdlib Require Import SpecFloat.

Local Open Scope Z_scope.

(** * Rounding a ratio *)

(** The float64 nearest to [n / d], [0 <= n], [0 < d]. *)
Definition f64_ratio (neg : bool) (n d : Z) : float64 :=
  match n, d with
  | Zpos p, Zpos q => SFdiv prec64 emax64 (S754_finite neg p 0) (S754_finite false q 0)
  | _, _ => S754_zero neg
  end.

Definition f64_opp (f : float64) : float64 := SFopp f.

(** * ParseFloat *)

(** The value and whether [err == nil]: a syntax error yields 0, an overflow
    the infinity of its sign. *)
Definition lower_byte (b : Z) : Z := if in_range 65 90 b then b + 32 else b.

Definition parse_inf_nan (l : list Z) : option float64 :=
  let '(neg, signed, t) :=
    match l with
    | 43 :: t => (false, true, t)
    | 45 :: t => (true, true, t)
    | _ => (false, false, l)
    end in
  let low := of_bytes (lower_byte <$> t) in
  if bool_decide (low = "inf") || bool_decide (low = "infinity") then Some (S754_infinity neg)
  else if negb signed && bool_decide (low = "nan") then Some S754_nan
  else None.

(** [underscoreOK]: an underscore separates digits or follows a base prefix.
    The state is the last kind of byte seen: a digit, an underscore, other. *)
Fixpoint underscore_scan (hex : bool) (st : Z) (l : list Z) : bool :=
  match l with
  | [] => negb (st =? 95)
  | c :: t =>
      if in_range 48 57 c || (hex && in_range 97 102 (lower_byte c)) then underscore_scan hex 48 t
      else if c =? 95 then (st =? 48) && underscore_scan hex 95 t
      else negb (st =? 95) && underscore_scan hex 33 t
  end.

Definition underscoreOK (l : list Z) : bool :=
  let t := match l with 43 :: t | 45 :: t => t | _ => l end in
  match t with
  | 48 :: c :: t' =>
      let x := lower_byte c in
      if (x =? 120) || (x =? 98) || (x =? 111) then underscore_scan (x =? 120) 48 t'
      else underscore_scan false 94 t
  | _ => underscore_scan false 94 t
  end.

Record mantissa := mkMant {
  mt_digits : Z;        (* the digits read, as an integer *)
  mt_count : Z;         (* significant digits, leading zeros excluded *)
  mt_frac : Z;          (* digits after the point *)
  mt_dot : bool;
  mt_any : bool;
  mt_under : bool }.

(** The mantissa loop of [readFloat]. *)
Fixpoint read_mantissa (hex : bool) (l : list Z) (m : mantissa) : option (mantissa * list Z) :=
  match l with
  | [] => Some (m, [])
  | c :: t =>
      let digit v :=
        read_mantissa hex t
          (mkMant (mt_digits m * (if hex then 16 else 10) + v)
             (if (mt_count m =? 0) && (v =? 0) then 0 else mt_count m + 1)
             (if mt_dot m then mt_frac m + 1 else mt_frac m) (mt_dot m) true (mt_under m)) in
      if c =? 95 then
        read_mantissa hex t (mkMant (mt_digits m) (mt_count m) (mt_frac m) (mt_dot m) (mt_any m) true)
      else if c =? 46 then
        if mt_dot m then Some (m, l)
        else read_mantissa hex t (mkMant (mt_digits m) (mt_count m) (mt_frac m) true (mt_any m) (mt_under m))
      else if in_range 48 57 c then digit (c - 48)
      else if hex && in_range 97 102 (lower_byte c) then digit (lower_byte c - 87)
      else Some (m, l)
  end.

(** The exponent digits: accumulation stops once the value reaches 10000. *)
Fixpoint read_exp (l : list Z) (e : Z) (under : bool) : Z * bool * list Z :=
  match l with
  | c :: t =>
      if c =? 95 then read_exp t e true
      else if in_range 48 57 c then read_exp t (if e <? 10000 then e * 10 + (c - 48) else e) under
      else (e, under, l)
  | [] => (e, under, [])
  end.

(** An optional exponent; [None] when the marker is not followed by a digit. *)
Definition read_exponent (hex : bool) (l : list Z) : option (option Z * bool * list Z) :=
  match l with
  | c :: t =>
      if lower_byte c =? (if hex then 112 else 101) then
        let '(neg, t') := match t with 43 :: t' => (false, t') | 45 :: t' => (true, t') | _ => (false, t) end in
        match t' with
        | d :: _ =>
            if in_range 48 57 d then
              let '(e, u, rest) := read_exp t' 0 false in
              Some (Some (if (neg : bool) then - e else e), u, rest)
            else None
        | [] => None
        end
      else Some (None, false, l)
  | [] => Some (None, false, [])
  end.

Definition is_inf (f : float64) : bool := match f with S754_infinity _ => true | _ => false end.

Definition ParseFloat (s : string) : float64 * bool :=
  let l := bytes s in
  match parse_inf_nan l with
  | Some f => (f, true)
  | None =>
      let '(neg, t) := match l with 43 :: t => (false, t) | 45 :: t => (true, t) | _ => (false, l) end in
      let '(hex, body) :=
        match t with
        | 48 :: c :: t' => if lower_byte c =? 120 then (true, t') else (false, t)
        | _ => (false, t)
        end in
      match read_mantissa hex body (mkMant 0 0 0 false false false) with
      | Some (m, rest) =>
          match mt_any m, read_exponent hex rest with
          | true, Some (eo, u, []) =>
              if (hex && match eo with None => true | Some _ => false end) || ((mt_under m || u) && negb (underscoreOK l)) then (f64_zero, false)
              else
                let e := default 0 eo in
                let f :=
                  if mt_digits m =? 0 then S754_zero neg
                  else if (hex : bool) then
                    let e2 := e - 4 * mt_frac m in
                    binary_normalize prec64 emax64 (if (neg : bool) then - mt_digits m else mt_digits m) e2 neg
                  else
                    let e10 := e - mt_frac m in
                    if 310 <? mt_count m + e10 then S754_infinity neg
                    else if mt_count m + e10 <? -330 then S754_zero neg
                    else if 0 <=? e10 then f64_ratio neg (mt_digits m * 10 ^ e10) 1
                    else f64_ratio neg (mt_digits m) (10 ^ (- e10)) in
                (f, negb (is_inf f))
          | _, _ => (f64_zero, false)
          end
      | None => (f64_zero, false)
      end
  end.

(** * The shortest decimal *)

(** Digits [d], as an integer of [n] digits, and the decimal point [dp]: the
    value is [0.d * 10^dp]. *)
Record decimal_float := mkDec { df_digits : list Z; df_dp : Z }.

(** [10^k] of any sign as a ratio. *)
Definition pow10 (k : Z) : Z * Z := if 0 <=? k then (10 ^ k, 1) else (1, 10 ^ (- k)).

(** The decimal point of [n/d]: the [k] with [10^(k-1) <= n/d < 10^k], searched
    from an estimate by the binary length. *)
Fixpoint find_dp (fuel : nat) (n d k : Z) : Z :=
  match fuel with
  | O => k
  | S f =>
      let '(p, q) := pow10 k in
      if p * d <=? n * q then find_dp f n d (k + 1)
      else let '(p, q) := pow10 (k - 1) in
           if n * q <? p * d then find_dp f n d (k - 1) else k
  end.

Fixpoint strip_zeros (l : list Z) : list Z :=
  match l with 48 :: t => strip_zeros t | _ => l end.

Fixpoint digits_fuel (fuel : nat) (n : Z) (acc : list Z) : list Z :=
  match fuel with
  | O => acc
  | S f => if n =? 0 then acc else digits_fuel f (n / 10) (48 + n mod 10 :: acc)
  end.

(** The digits of [q], trailing zeros dropped, scaled so that [q] has its unit
    at [10^(dp - k)]. *)
Definition dec_of (q k dp : Z) : decimal_float :=
  let ds := digits_fuel 20 q [] in
  mkDec (rev (strip_zeros (rev ds))) (dp + (Z.of_nat (length ds) - k)).

(** [roundShortest] on the ratio [n/d] with bounds [lo/d] and [up/d]. *)
Fixpoint round_shortest (fuel : nat) (incl : bool) (n lo up d dp k : Z) : decimal_float :=
  let '(p, r) := pow10 (k - dp) in
  let q := n * p / (d * r) in
  match fuel with
  | O => dec_of q k dp
  | S f =>
      let below a b := if incl then a <=? b else a <? b in
      let okdown := below (lo * p) (q * d * r) in
      let okup := below ((q + 1) * d * r) (up * p) in
      let twice := 2 * (n * p - q * (d * r)) in
      let near := if twice <? d * r then q else if d * r <? twice then q + 1
                  else if Z.even q then q else q + 1 in
      if okdown && okup then dec_of near k dp
      else if okdown then dec_of q k dp
      else if okup then dec_of (q + 1) k dp
      else round_shortest f incl n lo up d dp (k + 1)
  end.

Definition shortest (m : positive) (e : Z) : decimal_float :=
  let narrow := (Zpos m =? 2 ^ 52) && (-1074 <? e) in
  let lo := if narrow then 4 * Zpos m - 1 else 4 * Zpos m - 2 in
  let '(a, d) := if 0 <=? e - 2 then (2 ^ (e - 2), 1) else (1, 2 ^ (2 - e)) in
  let n := 4 * Zpos m * a in
  let dp := find_dp 700 n d ((Z.log2 (4 * Zpos m) + e - 2) * 30103 / 100000 + 1) in
  round_shortest 20 (Z.even (Zpos m)) n (lo * a) ((4 * Zpos m + 2) * a) d dp 0.

(** * Formats *)

Definition exp_text (e : Z) (least : nat) : list Z :=
  (if e <? 0 then 45 else 43) ::
  (let ds := bytes (Itoa (Z.abs e)) in
   if (length ds <? least)%nat then 48 :: ds else ds).

(** [%e] with [least] exponent digits at least. *)
Definition fmt_e (least : nat) (neg : bool) (df : decimal_float) : string :=
  of_bytes ((if neg then [45] else []) ++
    match df_digits df with
    | [] => [48]
    | d :: [] => [d]
    | d :: ds => d :: 46 :: ds
    end ++ 101 :: exp_text (df_dp df - 1) least).

(** [%f] with as many decimals as there are digits. *)
Definition fmt_f (neg : bool) (df : decimal_float) : string :=
  let ds := df_digits df in
  let dp := df_dp df in
  let nd := Z.of_nat (length ds) in
  let whole :=
    if 0 <? dp
    then take (Z.to_nat dp) ds ++ replicate (Z.to_nat (dp - nd)) 48
    else [48] in
  let frac :=
    if dp <? nd
    then 46 :: replicate (Z.to_nat (- dp)) 48 ++ drop (Z.to_nat dp) ds
    else [] in
  of_bytes ((if neg then [45] else []) ++ whole ++ frac).

(** [strconv.FormatFloat(f, 'g', -1, 64)], which is also the [%v] of a float64:
    [%e] for an exponent below -4 or from 6 on, [%f] otherwise. *)
Definition FormatFloat_g (f : float64) : string :=
  match f with
  | S754_nan => "NaN"
  | S754_infinity neg => if neg then "-Inf" else "+Inf"
  | S754_zero neg => if neg then "-0" else "0"
  | S754_finite neg m e =>
      let df := shortest m e in
      let x := df_dp df - 1 in
      if (x <? -4) || (6 <=? x) then fmt_e 2 neg df else fmt_f neg df
  end.

(** [strconv.FormatFloat(f, 'f', -1, 64)] *)
Definition FormatFloat_f (f : float64) : string :=
  match f with
  | S754_nan => "NaN"
  | S754_infinity neg => if neg then "-Inf" else "+Inf"
  | S754_zero neg => if neg then "-0" else "0"
  | S754_finite neg m e => fmt_f neg (shortest m e)
  end.

(** The number encoding/json writes for a float64: [%f], or [%e] without a
    leading exponent zero below 1e-6 and from 1e21 on; infinities and NaN are
    an error. *)
Definition json_float (f : float64) : option string :=
  match f with
  | S754_nan | S754_infinity _ => None
  | S754_zero neg => Some (if neg then "-0" else "0")
  | S754_finite neg m e =>
      let df := shortest m e in
      let x := df_dp df - 1 in
      Some (if (x <? -6) || (21 <=? x) then fmt_e (if x <? 0 then 1 else 2) neg df else fmt_f neg df)
  end.

(** * Sprint *)

(** Renderings of values outside the JSON data model, by the type's name. *)
Class OpaqueFormat := {
  opaque_sprint : string -> string;
  opaque_json : string -> option string;
}.

Section Sprint.
Context `{O : OpaqueFormat}.

(** [fmt.Sprint(v)], also [fmt.Sprintf("%v", v)]: a map prints its entries in
    key order. *)
Fixpoint Sprint (v : value) : string :=
  let entries m :=
    "map[" +:+ join " " ((fun e => e.1 +:+ ":" +:+ e.2) <$> SliceStable key_before m) +:+ "]" in
  match v with
  | VNil => "<nil>"
  | VBool b => FormatBool b
  | VNumber lit => lit
  | VFloat f => FormatFloat_g f
  | VInt n => Itoa n
  | VString s => s
  | VBytes s => "[" +:+ join " " (Itoa <$> bytes s) +:+ "]"
  | VArr l => "[" +:+ join " " (map Sprint l) +:+ "]"
  | VObj m => entries (map (fun e => (e.1, Sprint e.2)) m)
  | VRows rows =>
      "[" +:+ join " " (map (fun row => entries (map (fun e => (e.1, Sprint e.2)) row)) rows) +:+ "]"
  | VOther ty => opaque_sprint ty
  end.

(** The runtime's renderings, as the redactor's interface asks for them. *)
Definition go_format : GoFormat := {|
  sprint_value := Sprint;
  format_float := FormatFloat_f;
  json_leaf v := match v with
                 | VFloat f => json_float f
                 | VBytes s => Some (json_quote false (EncodeToString StdEncoding (bytes s)))
                 | VOther ty => opaque_json ty
                 | _ => None
                 end |}.
End Sprint.

#[export] Instance no_opaque : OpaqueFormat := {| opaque_sprint ty := ty; opaque_json _ := None |}.

(** * Decoding numbers *)

(** [json.Unmarshal] into an interface: numbers become float64. A number out of
    range is reported at the end and leaves [nil] in its place. *)
Fixpoint numbers_to_floats (v : value) : value * bool :=
  match v with
  | VNumber lit => let '(f, ok) := ParseFloat lit in if ok then (VFloat f, true) else (VNil, false)
  | VArr l =>
      let rs := map numbers_to_floats l in
      (VArr (fst <$> rs), forallb snd rs)
  | VObj m =>
      let rs := map (fun e => let '(w, ok) := numbers_to_floats e.2 in (e.1, w, ok)) m in
      (VObj (fst <$> rs), forallb snd rs)
  | _ => (v, true)
  end.

(** The decoded document and whether [err == nil]; [None] on a syntax error. *)
Definition Unmarshal_any (s : string) : option (value * bool) := numbers_to_floats <$> json_decode s.

Example fmt_ex1 : FormatFloat_g <$> [f64_lit 8 10; f64_of_Z 1000000; f64_of_Z 123456; f64_lit 12345678 1;
                      f64_lit 1 100000; f64_lit 1 10000; f64_lit 3 2; f64_ratio true 1 3; f64_of_Z 100]
  = ["0.8"; "1e+06"; "123456"; "1.2345678e+07"; "1e-05"; "0.0001"; "1.5"; "-0.3333333333333333"; "100"].
Proof. vm_compute. reflexivity. Qed.
Example fmt_ex2 : FormatFloat_g <$> [S754_finite false 1 (-1074); S754_finite false 2 (-1074);
                      S754_finite false (2 ^ 52)%positive (-96); S754_finite false (2 ^ 53 - 1)%positive 971]
  = ["5e-324"; "1e-323"; "5.684341886080802e-14"; "1.7976931348623157e+308"].
Proof. vm_compute. reflexivity. Qed.
Example parse_ex1 : ParseFloat <$> ["0.8"; "1e999"; "-.5e1"; "1_000"; "_1"; "0x1p-2"; "Inf"; "12a"; ""; "-nan"; "1e-400"]
  = [(f64_lit 8 10, true); (S754_infinity false, false); (f64_lit (-5) 1, true); (f64_of_Z 1000, true);
     (f64_zero, false); (f64_lit 1 4, true); (S754_infinity false, true); (f64_zero, false);
     (f64_zero, false); (f64_zero, false); (f64_zero, true)].
Proof. vm_compute. reflexivity. Qed.
Example sprint_ex : Sprint (VObj [("b", VArr [VFloat f64_one; VNil]); ("a", VString "x y")]) = "map[a:x y b:[1 <nil>]]".
Proof. vm_compute. reflexivity. Qed.
