(* ===== verification/GoHttp.v ===== *)
(** net/http as the services use it: header maps with canonical keys, the parts
    of a request that the middlewares read, and the substring helpers of
    package strings that they call on paths and addresses. *)

From stdpp Require Import gmap.
From S2P Require Import Prelude GoStrings GoStrconv.

Local Open Scope Z_scope.

(** * Header names *)

(** The bytes of a header field name (RFC 7230 tokens). *)
Definition token_byte (b : Z) : bool :=
  in_range 48 57 b || in_range 65 90 b || in_range 97 122 b ||
  existsb (Z.eqb b) [33; 35; 36; 37; 38; 39; 42; 43; 45; 46; 94; 95; 96; 124; 126].

Fixpoint canonical_bytes (upper : bool) (l : list Z) : list Z :=
  match l with
  | [] => []
  | b :: l' =>
      (if upper && in_range 97 122 b then b - 32 else if negb upper && in_range 65 90 b then b + 32 else b)
      :: canonical_bytes (b =? 45) l'
  end.

(** [textproto.CanonicalMIMEHeaderKey]: a name with a byte outside the tokens is
    left as it is. *)
Definition CanonicalHeaderKey (k : string) : string :=
  if forallb token_byte (bytes k) then of_bytes (canonical_bytes true (bytes k)) else k.

Example canonical_tenant : CanonicalHeaderKey "X-Tenant-ID" = "X-Tenant-Id".
Proof. reflexivity. Qed.

(** * Header maps *)

Abbreviation Header := (gmap string (list string)).

Definition Header_Get (h : Header) (k : string) : string :=
  match h !! CanonicalHeaderKey k with Some (v :: _) => v | _ => "" end.
Definition Header_Set (k v : string) (h : Header) : Header := <[CanonicalHeaderKey k := [v]]> h.
Definition Header_Del (k : string) (h : Header) : Header := delete (CanonicalHeaderKey k) h.

(** Two spellings of one header. *)
Definition same_header (a b : string) : bool := str_eqb (CanonicalHeaderKey a) (CanonicalHeaderKey b).

Lemma Get_Set h k v k' : Header_Get (Header_Set k v h) k' = if same_header k k' then v else Header_Get h k'.
Proof.
  unfold Header_Get, Header_Set, same_header. destruct (str_eqb _ _) eqn:E.
  - apply str_eqb_true in E as ->. by rewrite lookup_insert_eq.
  - apply str_eqb_false in E. by rewrite lookup_insert_ne.
Qed.

Lemma Get_Del h k k' : Header_Get (Header_Del k h) k' = if same_header k k' then "" else Header_Get h k'.
Proof.
  unfold Header_Get, Header_Del, same_header. destruct (str_eqb _ _) eqn:E.
  - apply str_eqb_true in E as ->. by rewrite lookup_delete_eq.
  - apply str_eqb_false in E. by rewrite lookup_delete_ne.
Qed.

Lemma same_header_refl k : same_header k k = true.
Proof. apply str_eqb_refl. Qed.

(** Evaluates the comparisons of header names, which are literals. *)
Ltac header_names :=
  repeat match goal with
  | |- context [same_header ?a ?b] =>
      let v := eval vm_compute in (same_header a b) in
      match v with true => idtac | false => idtac end;
      replace (same_header a b) with v by (vm_compute; reflexivity)
  end.

(** Reads a header through the writes that precede it. *)
Ltac read_headers := repeat rewrite ?Get_Set, ?Get_Del; header_names; cbn match.

(** * Requests *)

Record HttpRequest := mkHttp {
  rq_Method : string;
  rq_Path : string;
  rq_Header : Header;
}.

Definition MethodOptions : string := "OPTIONS".
Definition MethodGet : string := "GET".

Definition with_header (r : HttpRequest) (h : Header) : HttpRequest := mkHttp (rq_Method r) (rq_Path r) h.
Definition hdr (r : HttpRequest) (k : string) : string := Header_Get (rq_Header r) k.

(** The headers a middleware removes, in order. *)
Definition Del_all (names : list string) (h : Header) : Header := foldl (fun h k => Header_Del k h) h names.

Lemma Get_Del_all names h k :
  Header_Get (Del_all names h) k = if existsb (fun n => same_header n k) names then "" else Header_Get h k.
Proof.
  unfold Del_all. revert h. induction names as [|n names IH]; intros h; cbn [foldl existsb]; [done|].
  rewrite IH, Get_Del. destruct (existsb _ names), (same_header n k); done.
Qed.

(** * Strings *)

(** [strings.HasSuffix] *)
Definition HasSuffix (s p : string) : bool := str_eqb (slice s (len s - len p) (len s)) p.

(** [strings.CutPrefix] *)
Definition CutPrefix (s p : string) : option string :=
  if HasPrefix s p then Some (slice s (len p) (len s)) else None.

(** [strings.TrimSuffix] *)
Definition TrimSuffix (s p : string) : string := if HasSuffix s p then slice s 0 (len s - len p) else s.

Lemma HasPrefix_app s p : HasPrefix s p = true <-> exists t, s = p +:+ t.
Proof.
  unfold HasPrefix. revert s. induction p as [|a p IH]; intros s; cbn.
  - split; [intros _; by exists s|]. intros _. by destruct s.
  - destruct s as [|b s]; cbn; [split; [discriminate | intros [t Ht]; discriminate]|].
    destruct (ascii_dec a b) as [->|n].
    + rewrite IH. split; intros [t Ht]; exists t; [by rewrite Ht|]. by injection Ht.
    + split; [discriminate|]. intros [t Ht]. injection Ht as Hb _. by subst.
Qed.

Lemma drop_app_len s t : slice (s +:+ t) (len s) (len (s +:+ t)) = t.
Proof.
  unfold slice. rewrite chars_app, len_app. unfold len.
  rewrite drop_app_length, take_ge by lia. apply of_chars_chars.
Qed.

Lemma take_app_len s t : slice (s +:+ t) 0 (len s) = s.
Proof.
  unfold slice. rewrite chars_app, drop_0, Nat.sub_0_r. unfold len. rewrite take_app_length. apply of_chars_chars.
Qed.

Lemma HasSuffix_app s p : HasSuffix s p = true <-> exists t, s = t +:+ p.
Proof.
  unfold HasSuffix. rewrite str_eqb_true. split.
  - intros H. exists (slice s 0 (len s - len p)). rewrite <- H at 2. apply slice_split. lia.
  - intros [t ->]. rewrite len_app. replace (len t + len p - len p)%nat with (len t) by lia.
    rewrite <- len_app. apply drop_app_len.
Qed.

Lemma CutPrefix_Some s p t : CutPrefix s p = Some t <-> s = p +:+ t.
Proof.
  unfold CutPrefix. split.
  - destruct (HasPrefix s p) eqn:E; [|done]. apply HasPrefix_app in E as [u ->].
    intros [= <-]. by rewrite drop_app_len.
  - intros ->. assert (E : HasPrefix (p +:+ t) p = true) by (apply HasPrefix_app; by exists t).
    rewrite E. by rewrite drop_app_len.
Qed.
