(* ===== verification/RegionalPii.v ===== *)
(** The detectors of regional identifiers of the community build,
    src/platform/agent/rbi/rbi_community.go (India) and
    src/platform/agent/indonesia/indonesia_community.go (Indonesia), with the masking of
    gateway_handlers.go and the events of indonesia_pii_events.go. The decision point,
    the gateway and the MCP planes ask them before the policy engine.

    The two packages declare the same records; one serves for both. The order in which
    Go walks a map is an argument. The enterprise detectors are not in the repository. *)

From S2P Require Import Prelude GoFloat GoStrings GoStrconv GoHttp Regexp.

Local Open Scope Z_scope.

(** * Strings *)

(** [strings.ReplaceAll] for a non-empty [old]; every step drops a byte, so the length
    is enough fuel. *)
Fixpoint replace_from (fuel : nat) (s old new : string) : string :=
  match fuel with
  | O => s
  | S f =>
      match Index s old with
      | Some i => slice s 0 i +:+ new +:+ replace_from f (slice s (i + len old) (len s)) old new
      | None => s
      end
  end.
Definition ReplaceAll (s old new : string) : string := replace_from (len s) s old new.

(** [strings.Map] for a mapping that keeps or drops a rune. *)
Definition keep_runes (keep : Z -> bool) (s : string) : string :=
  of_bytes (mjoin ((fun p => if keep p.1 then encode_rune p.1 else []) <$> runes s)).

Definition stars (n : nat) : string := Repeat "*" n.

(** * Detections *)

(** [IndiaPIIDetectionResult] and [IndonesiaPIIDetectionResult]. *)
Record pii_detection := mkDetection {
  de_Type : string; de_Value : string; de_MaskedValue : string; de_Severity : string; de_Confidence : float64;
  de_StartIndex : nat; de_EndIndex : nat; de_Context : string; de_Category : string }.

(** [indiaPIIPattern] and [indonesiaPIIPattern]. *)
Record pii_pattern := mkPattern {
  pt_Type : string; pt_Pattern : regex; pt_Severity : string; pt_MinLength : nat; pt_MaxLength : nat; pt_Category : string }.

(** [IndiaPIIDetector] and [IndonesiaPIIDetector]. *)
Record pii_detector := mkDetector { dr_patterns : list pii_pattern; dr_contextWindow : Z; dr_minConfidence : float64 }.

Record pii_config := mkDetectorConfig { pf_ContextWindow : Z; pf_MinConfidence : float64; pf_EnabledTypes : list string }.

(** [RBIPIICheckResult] and [IndonesiaPIICheckResult]. *)
Record pii_check := mkCheck {
  pk_HasPII : bool; pk_CriticalPII : bool; pk_DetectedTypes : list string; pk_Detections : list pii_detection;
  pk_BlockRecommended : bool; pk_Reason : string }.

Definition no_pii : pii_check := mkCheck false false [] [] false "".

Definition default_config : pii_config := mkDetectorConfig 50 (f64_lit 6 10) [].
Definition pattern_confidence : float64 := f64_lit 7 10.

(** All patterns, or those of the enabled types. *)
Definition enabled_patterns (all : list pii_pattern) (enabled : list string) : list pii_pattern :=
  match enabled with [] => all | _ => List.filter (fun p => str_in (pt_Type p) enabled) all end.

Definition new_detector (all : list pii_pattern) (c : pii_config) : pii_detector :=
  mkDetector (enabled_patterns all (pf_EnabledTypes c)) (pf_ContextWindow c) (pf_MinConfidence c).

(** [text[max(0, start-w) : min(len, end+w)]] *)
Definition context_of (window : Z) (text : string) (start stop : nat) : string :=
  slice text (Z.to_nat (Z.max 0 (Z.of_nat start - window))) (Z.to_nat (Z.min (Z.of_nat (len text)) (Z.of_nat stop + window))).

(** The types, each once; [ord] is the order of a walk over the set of them. *)
Fixpoint distinct (l : list string) : list string :=
  match l with [] => [] | t :: r => if str_in t r then distinct r else t :: distinct r end.

(** What the two [CheckRequestForPII] do with the detections of a text. *)
Definition summarize (ord : list string -> list string) (critical : list string) (reason : string) (detections : list pii_detection)
    (blockOnCritical : bool) : pii_check :=
  match detections with
  | [] => no_pii
  | _ =>
      let hasCritical := existsb (fun d => str_in (de_Type d) critical) detections in
      let block := blockOnCritical && hasCritical in
      mkCheck true hasCritical (ord (distinct (de_Type <$> detections))) detections block (if block then reason else "")
  end.

(** * India *)

Module India.
Section Detector.
Context `{U : Unicode}.

Definition TypeUPI : string := "upi_id".
Definition TypeAadhaar : string := "aadhaar".
Definition TypePAN : string := "pan".
Definition TypeIFSC : string := "ifsc".
Definition TypeBankAccount : string := "bank_account_india".
Definition TypeGSTIN : string := "gstin".
Definition TypeVoterID : string := "voter_id".
Definition TypePassport : string := "passport_india".
Definition TypeIndianPhone : string := "phone_india".
Definition TypePincode : string := "pincode".

Definition criticalTypes : list string := [TypeUPI; TypeAadhaar; TypePAN; TypeBankAccount].

Definition allPatterns : list pii_pattern :=
  [mkPattern TypeUPI (MustCompile "\b[a-zA-Z0-9][a-zA-Z0-9._-]{2,255}@[a-zA-Z][a-zA-Z0-9]{2,49}\b") "critical" 7 256 "payment_identifier";
   mkPattern TypeAadhaar (MustCompile "\b[2-9][0-9]{3}[\s-]?[0-9]{4}[\s-]?[0-9]{4}\b") "critical" 12 14 "national_identity";
   mkPattern TypePAN (MustCompile "\b[A-Z]{5}[0-9]{4}[A-Z]\b") "critical" 10 10 "tax_identifier";
   mkPattern TypeIFSC (MustCompile "\b[A-Z]{4}0[A-Z0-9]{6}\b") "medium" 11 11 "bank_identifier";
   mkPattern TypeGSTIN (MustCompile "\b[0-9]{2}[A-Z]{5}[0-9]{4}[A-Z][0-9A-Z]Z[0-9A-Z]\b") "high" 15 15 "tax_identifier";
   mkPattern TypeVoterID (MustCompile "\b[A-Z]{3}[0-9]{7}\b") "high" 10 10 "national_identity";
   mkPattern TypePassport (MustCompile "\b[A-Z][0-9]{7}\b") "high" 8 8 "travel_document";
   mkPattern TypeIndianPhone (MustCompile "(?:\+91[\s-]?|0)?[6-9][0-9]{9}\b") "medium" 10 14 "contact_info";
   mkPattern TypePincode (MustCompile "\b[1-9][0-9]{5}\b") "low" 6 6 "address"].

Definition loadPatterns (enabledTypes : list string) : list pii_pattern := enabled_patterns allPatterns enabledTypes.
Definition NewIndiaPIIDetector (c : pii_config) : pii_detector := new_detector allPatterns c.

Definition emailProviders : list string :=
  ["gmail"; "yahoo"; "outlook"; "hotmail"; "rediffmail"; "live"; "msn"; "aol"; "icloud"; "protonmail"; "zoho"; "mail"; "email"; "inbox"].
Definition emailDomains : list string :=
  ["gmail.com"; "yahoo.com"; "outlook.com"; "hotmail.com"; "rediffmail.com"; "live.com"; "msn.com"; "aol.com"; "icloud.com"; "protonmail.com"; "zoho.com"].
Definition emailTLDs : list string := [".com"; ".org"; ".net"; ".in"; ".co.in"; ".edu"; ".gov"].

Definition isLikelyEmail (mtch : string) : bool :=
  match Split mtch "@" with
  | [_; provider] =>
      let handle := ToLower provider in
      str_in handle emailProviders || str_in handle emailDomains || existsb (HasSuffix handle) emailTLDs
  | _ => false
  end.

Definition isDigitString (s : string) : bool := forallb (fun p => in_range 48 57 p.1) (runes s).

Definition isLikelyCreditCard (text : string) (matchEnd : nat) : bool :=
  if (len text <=? matchEnd)%nat then false
  else
    let remaining := slice text matchEnd (len text) in
    ((3 <=? len remaining)%nat && match byte_at remaining 0 with Some c => (c =? 45) || (c =? 32) | None => false end
       && isDigitString (slice remaining 1 3))
    || ((2 <=? len remaining)%nat && isDigitString (slice remaining 0 2)).

Definition maskIndiaPII (value piiType : string) : string :=
  if str_eqb piiType TypeUPI then
    match Split value "@" with
    | [username; provider] => (if (len username <=? 3)%nat then username else slice username 0 3) +:+ "***@" +:+ provider
    | _ => "***"
    end
  else if str_eqb piiType TypeAadhaar then
    let clean := RemoveAll (RemoveAll value " ") "-" in
    if (4 <=? len clean)%nat then "XXXX XXXX " +:+ slice clean (len clean - 4) (len clean) else "XXXX XXXX XXXX"
  else if str_eqb piiType TypePAN then
    if (len value =? 10)%nat then slice value 0 2 +:+ "******" +:+ slice value 8 10 else "**********"
  else if str_eqb piiType TypeIndianPhone then
    let clean := keep_runes IsDigit value in
    if (4 <=? len clean)%nat then "XXXXXX" +:+ slice clean (len clean - 4) (len clean) else "XXXXXXXXXX"
  else if str_eqb piiType TypeBankAccount then
    if (4 <=? len value)%nat then Repeat "X" (len value - 4) +:+ slice value (len value - 4) (len value) else Repeat "X" (len value)
  else if (len value <=? 4)%nat then stars (len value)
  else slice value 0 2 +:+ stars (len value - 4) +:+ slice value (len value - 2) (len value).

(** Letters, digits and [@.-_]. *)
Definition clean_rune (r : Z) : bool := IsLetter r || IsDigit r || (r =? 64) || (r =? 46) || (r =? 45) || (r =? 95).

(** The two false positives. *)
Definition false_positive (p : pii_pattern) (text : string) (start stop : nat) : bool :=
  (str_eqb (pt_Type p) TypeUPI && isLikelyEmail (slice text start stop))
  || (str_eqb (pt_Type p) TypeAadhaar && isLikelyCreditCard text stop).

(** One match of a pattern. *)
Definition detection_at (d : pii_detector) (p : pii_pattern) (text : string) (loc : nat * nat) : option pii_detection :=
  let '(start, stop) := loc in
  let matched := slice text start stop in
  let cleanLen := len (keep_runes clean_rune matched) in
  if (cleanLen <? pt_MinLength p)%nat || (pt_MaxLength p <? cleanLen)%nat then None
  else if false_positive p text start stop then None
  else if f64_ltb pattern_confidence (dr_minConfidence d) then None
  else Some (mkDetection (pt_Type p) matched (maskIndiaPII matched (pt_Type p)) (pt_Severity p) pattern_confidence start stop
               (context_of (dr_contextWindow d) text start stop) (pt_Category p)).

Definition detections_of (d : pii_detector) (text : string) (p : pii_pattern) : list pii_detection :=
  omap (detection_at d p text) (FindAllStringIndex (pt_Pattern p) text).

Definition DetectAll (d : pii_detector) (text : string) : list pii_detection := dr_patterns d ≫= detections_of d text.

Definition DetectType (d : pii_detector) (text piiType : string) : list pii_detection :=
  List.filter (fun p => str_eqb (pt_Type p) piiType) (dr_patterns d) ≫= detections_of d text.

(** A match of one of the patterns that is not a false positive. *)
Definition any_match (patterns : list pii_pattern) (text : string) : bool :=
  existsb (fun p => existsb (fun loc => negb (false_positive p text loc.1 loc.2)) (FindAllStringIndex (pt_Pattern p) text)) patterns.

Definition HasIndiaPII (d : pii_detector) (text : string) : bool := any_match (dr_patterns d) text.
Definition HasCriticalPII (d : pii_detector) (text : string) : bool :=
  any_match (List.filter (fun p => str_in (pt_Type p) criticalTypes) (dr_patterns d)) text.
Definition HasUPIID (d : pii_detector) (text : string) : bool :=
  existsb (fun p => str_eqb (pt_Type p) TypeUPI && MatchString (pt_Pattern p) text &&
             existsb (fun loc => negb (isLikelyEmail (slice text loc.1 loc.2))) (FindAllStringIndex (pt_Pattern p) text)) (dr_patterns d).

Definition GetRBISensitiveData (d : pii_detector) (text category : string) : list pii_detection :=
  List.filter (fun r => str_eqb (de_Category r) category) (DetectAll d text).

Definition severityOrder (s : string) : Z :=
  if str_eqb s "low" then 1 else if str_eqb s "medium" then 2 else if str_eqb s "high" then 3 else if str_eqb s "critical" then 4 else 0.
Definition FilterIndiaPIIBySeverity (results : list pii_detection) (minSeverity : string) : list pii_detection :=
  List.filter (fun r => severityOrder minSeverity <=? severityOrder (de_Severity r)) results.
Definition FilterIndiaPIIByConfidence (results : list pii_detection) (minConfidence : float64) : list pii_detection :=
  List.filter (fun r => f64_leb minConfidence (de_Confidence r)) results.
Definition GetCriticalFinancialPII (results : list pii_detection) : list pii_detection :=
  List.filter (fun r => str_in (de_Type r) criticalTypes) results.

Definition CheckRequestForPII (ord : list string -> list string) (detector : option pii_detector) (query : string) (blockOnCritical : bool) : pii_check :=
  match detector with
  | None => no_pii
  | Some d => summarize ord criticalTypes "Critical India PII detected (Aadhaar, PAN, UPI, or Bank Account)" (DetectAll d query) blockOnCritical
  end.
End Detector.
End India.

(** * Indonesia *)

Module Indonesia.
Definition TypeNIK : string := "nik".
Definition TypeNPWPLegacy : string := "npwp_legacy".
Definition TypeNPWPNew : string := "npwp_new".
Definition TypePhone : string := "phone_indonesia".
Definition TypeBCA : string := "bank_bca".
Definition TypeMandiri : string := "bank_mandiri".
Definition TypeBRI : string := "bank_bri".
Definition TypeBNI : string := "bank_bni".

Definition criticalTypes : list string := [TypeNIK; TypeNPWPLegacy; TypeNPWPNew].

Definition communityPatterns : list pii_pattern :=
  [mkPattern TypeNIK (MustCompile "\b(?:1[1-9]|21|3[1-6]|5[1-3]|6[1-5]|7[1-6]|8[12]|9[1-4])\d{4}(?:0[1-9]|[12]\d|3[01]|4[1-9]|[56]\d|7[01])(?:0[1-9]|1[0-2])\d{2}\d{4}\b")
     "critical" 16 16 "national_identity";
   mkPattern TypeNPWPLegacy (MustCompile "\b\d{2}\.\d{3}\.\d{3}\.\d{1}-\d{3}\.\d{3}\b") "critical" 20 20 "tax_identifier";
   mkPattern TypeNPWPNew (MustCompile "(?i)(?:NPWP|npwp|tax[\s_-]*(?:id|number|no)|nomor[\s_-]*pokok)[:\s]+(\d{16})\b") "critical" 16 50 "tax_identifier";
   mkPattern TypePhone (MustCompile "\b(?:\+?62|0)8[1-9]\d{7,11}\b") "medium" 10 15 "contact_information";
   mkPattern TypeBCA (MustCompile "(?i)(?:BCA|bank[\s_-]*central[\s_-]*asia|rek(?:ening)?)[:\s]+(\d{10})\b") "high" 10 40 "financial_account";
   mkPattern TypeMandiri (MustCompile "(?i)(?:mandiri|bank[\s_-]*mandiri|rek(?:ening)?[\s_-]*mandiri)[:\s]+(\d{13})\b") "high" 13 50 "financial_account";
   mkPattern TypeBRI (MustCompile "(?i)(?:BRI|bank[\s_-]*rakyat[\s_-]*indonesia|rek(?:ening)?[\s_-]*BRI)[:\s]+(\d{15})\b") "high" 15 50 "financial_account";
   mkPattern TypeBNI (MustCompile "(?i)(?:BNI|bank[\s_-]*negara[\s_-]*indonesia|rek(?:ening)?[\s_-]*BNI)[:\s]+(\d{10})\b") "high" 10 40 "financial_account"].

Definition NewIndonesiaPIIDetector (c : pii_config) : pii_detector := new_detector communityPatterns c.

Definition maskIndonesiaPII (value piiType : string) : string :=
  let n := len value in
  if (n <? 4)%nat then stars n
  else if str_eqb piiType TypeNIK then if (16 <=? n)%nat then slice value 0 2 +:+ stars 10 +:+ slice value 12 n else stars n
  else if str_eqb piiType TypeNPWPLegacy || str_eqb piiType TypeNPWPNew then stars n
  else if str_eqb piiType TypePhone then
    if (6 <? n)%nat then slice value 0 3 +:+ stars (n - 7) +:+ slice value (n - 4) n else stars n
  else if (4 <? n)%nat then stars (n - 4) +:+ slice value (n - 4) n else stars n.

Definition digit_at (text : string) (i : nat) : bool := match byte_at text i with Some b => in_range 48 57 b | None => false end.

Definition isLikelyCreditCardOrTimestamp (text : string) (matchStart matchEnd : nat) : bool :=
  ((0 <? matchStart)%nat &&
     (digit_at text (matchStart - 1) ||
      (bool_decide (byte_at text (matchStart - 1) = Some 45) && (1 <? matchStart)%nat && digit_at text (matchStart - 2))))
  || ((matchEnd <? len text)%nat && digit_at text matchEnd).

Definition detection_at (d : pii_detector) (p : pii_pattern) (text : string) (loc : nat * nat) : option pii_detection :=
  let '(start, stop) := loc in
  if str_eqb (pt_Type p) TypeNIK && isLikelyCreditCardOrTimestamp text start stop then None
  else
    let value := slice text start stop in
    Some (mkDetection (pt_Type p) value (maskIndonesiaPII value (pt_Type p)) (pt_Severity p) pattern_confidence start stop
            (if 0 <? dr_contextWindow d then context_of (dr_contextWindow d) text start stop else "") (pt_Category p)).

Definition detections_of (d : pii_detector) (text : string) (p : pii_pattern) : list pii_detection :=
  omap (detection_at d p text) (FindAllStringIndex (pt_Pattern p) text).

Definition DetectAll (d : pii_detector) (text : string) : list pii_detection :=
  if str_eqb text "" then [] else dr_patterns d ≫= detections_of d text.

Definition DetectType (d : pii_detector) (text piiType : string) : list pii_detection :=
  List.filter (fun r => str_eqb (de_Type r) piiType) (DetectAll d text).

Definition HasIndonesiaPII (d : pii_detector) (text : string) : bool := match DetectAll d text with [] => false | _ => true end.

Definition CheckRequestForPII (ord : list string -> list string) (detector : option pii_detector) (query : string) (blockOnCritical : bool) : pii_check :=
  match detector with
  | None => no_pii
  | Some d => summarize ord criticalTypes "Critical Indonesia PII detected (NIK or NPWP)" (DetectAll d query) blockOnCritical
  end.

(** * Masking and events *)

Definition mask_detection (out : string) (r : pii_detection) : string :=
  if negb (str_eqb (de_Value r) "") && negb (str_eqb (de_MaskedValue r) "") && negb (str_eqb (de_MaskedValue r) (de_Value r))
  then ReplaceAll out (de_Value r) (de_MaskedValue r) else out.

(** For what [DetectAll] finds in [s]. *)
Definition redact_detections (detections : list pii_detection) (s : string) : string * bool :=
  let out := fold_left mask_detection detections s in (out, negb (str_eqb out s)).

Definition redactIndonesiaPIIInString (detector : option pii_detector) (s : string) : string * bool :=
  match detector with
  | None => (s, false)
  | Some d => if str_eqb s "" then (s, false) else redact_detections (DetectAll d s) s
  end.

Definition indonesiaDetectedTypeNames (r : pii_check) : list string := pk_DetectedTypes r.

Definition indonesiaPIIActionBlocked : string := "blocked".
Definition indonesiaPIIActionRedacted : string := "redacted".
Definition indonesiaPIIActionRedactionRequired : string := "redaction_required".
Definition indonesiaPIIActionDetected : string := "detected".

Record indonesiaPIIEvent := mkPIIEvent { pe_PIIType : string; pe_OJKCategory : string; pe_Severity : string; pe_MaskedValue : string; pe_Confidence : float64 }.
Record indonesiaPIIEventBatch := mkBatch {
  eb_OrgID : string; eb_TenantID : string; eb_DecisionID : string; eb_CorrelationID : string; eb_Plane : string; eb_Action : string;
  eb_Events : list indonesiaPIIEvent }.

Definition indonesiaPIIEventsFrom (detections : list pii_detection) : list indonesiaPIIEvent :=
  omap (fun d => if str_eqb (de_MaskedValue d) "" || str_eqb (de_Category d) "" then None
                 else Some (mkPIIEvent (de_Type d) (de_Category d) (de_Severity d) (de_MaskedValue d) (de_Confidence d))) detections.

(** The batch given to the hook of the enterprise build, if there is one. *)
Definition recordIndonesiaPIIEvents (hook : bool) (orgID tenantID decisionID correlationID plane action : string) (result : pii_check)
  : list indonesiaPIIEventBatch :=
  if negb hook then []
  else match indonesiaPIIEventsFrom (pk_Detections result) with
       | [] => []
       | events => [mkBatch orgID tenantID decisionID correlationID plane action events]
       end.

Definition indonesiaPIIActionForEnforcedPlane (blocked masked : bool) : string :=
  if blocked then indonesiaPIIActionBlocked else if masked then indonesiaPIIActionRedacted else indonesiaPIIActionDetected.
Definition indonesiaPIIActionForDecisionPlane (blocked redactionRequired : bool) : string :=
  if blocked then indonesiaPIIActionBlocked else if redactionRequired then indonesiaPIIActionRedactionRequired else indonesiaPIIActionDetected.
End Indonesia.

(** * Occurrences *)

(** [v] stands at [k] in [s]. *)
Definition occ (s v : string) (k : nat) : Prop := forall j, (j < len v)%nat -> byte_at s (k + j) = byte_at v j.

(** [out] is [s] with some bytes hidden. *)
Definition covers (s out : string) : Prop := len out = len s /\ forall k, byte_at out k = byte_at s k \/ byte_at out k = Some 42.

Lemma bytes_slice s i j : bytes (slice s i j) = take (j - i) (drop i (bytes s)).
Proof. unfold bytes, slice. by rewrite chars_of_chars, fmap_take, fmap_drop. Qed.

Lemma byte_at_app_l s t k : (k < len s)%nat -> byte_at (s +:+ t) k = byte_at s k.
Proof. intros H. unfold byte_at. rewrite bytes_app, lookup_app_l; [done|]. by rewrite length_bytes. Qed.

Lemma byte_at_app_r s t k : (len s <= k)%nat -> byte_at (s +:+ t) k = byte_at t (k - len s).
Proof. intros H. unfold byte_at. rewrite bytes_app, lookup_app_r; rewrite length_bytes; done. Qed.

Lemma byte_at_slice s i j k : (k < j - i)%nat -> byte_at (slice s i j) k = byte_at s (i + k).
Proof. intros H. unfold byte_at. rewrite bytes_slice, lookup_take_lt by done. apply lookup_drop. Qed.

Lemma byte_at_some s k : is_Some (byte_at s k) <-> (k < len s)%nat.
Proof. unfold byte_at. by rewrite lookup_lt_is_Some, length_bytes. Qed.

Lemma byte_at_ge s k : (len s <= k)%nat -> byte_at s k = None.
Proof. intros H. apply lookup_ge_None_2. by rewrite length_bytes. Qed.

Lemma byte_at_stars n k : (k < n)%nat -> byte_at (stars n) k = Some 42.
Proof.
  intros H. unfold byte_at, stars, Repeat, bytes. rewrite chars_of_chars, list_lookup_fmap, lookup_replicate_2 by done. done.
Qed.

Lemma len_stars n : len (stars n) = n.
Proof. unfold len, stars, Repeat. by rewrite chars_of_chars, length_replicate. Qed.

Lemma byte_at_ext s t : len s = len t -> (forall k, (k < len s)%nat -> byte_at s k = byte_at t k) -> s = t.
Proof.
  intros Hl H. apply bytes_inj, list_eq. intros k. destruct (decide (k < len s)%nat) as [Hk|Hk]; [by apply H|].
  unfold byte_at in *. rewrite !lookup_ge_None_2; rewrite ?length_bytes; [done|lia..].
Qed.

Lemma occ_bound s v k : v <> "" -> occ s v k -> (k + len v <= len s)%nat.
Proof.
  intros Hv H. destruct (len v) as [|n] eqn:E; [by destruct v|]. specialize (H n ltac:(lia)).
  assert (Hs : is_Some (byte_at s (k + n))) by (rewrite H; apply byte_at_some; lia).
  apply byte_at_some in Hs. lia.
Qed.

Lemma occ_refl v : occ v v 0.
Proof. by intros j _. Qed.

Lemma occ_same s v : len s = len v -> occ s v 0 -> s = v.
Proof. intros Hl H. apply byte_at_ext; [done|]. intros k Hk. apply (H k). lia. Qed.

Lemma prefix_occ s v : String.prefix v s = true <-> occ s v 0.
Proof.
  rewrite (HasPrefix_app s v). split.
  - intros [t ->] j Hj. by apply byte_at_app_l.
  - intros H. destruct (decide (v = "")) as [->|Hv]; [by exists s|]. pose proof (occ_bound _ _ _ Hv H) as Hb.
    exists (slice s (len v) (len s)). rewrite (slice_split s (len v)) at 1 by lia. f_equal.
    apply byte_at_ext; [rewrite len_slice; lia|]. rewrite len_slice by lia. intros k Hk.
    rewrite byte_at_slice by lia. apply (H k). lia.
Qed.

Lemma occ_tail a s v k : occ (String a s) v (S k) <-> occ s v k.
Proof. done. Qed.

Lemma Index_occ s v i : Index s v = Some i -> occ s v i.
Proof.
  revert i. induction s as [|a s IH]; intros i; cbn [Index].
  - destruct (String.prefix v "") eqn:E; [|done]. intros [= <-]. by apply prefix_occ.
  - destruct (String.prefix v (String a s)) eqn:E; [intros [= <-]; by apply prefix_occ|].
    destruct (Index s v) as [j|]; [|done]. intros [= <-]. apply occ_tail, (IH j eq_refl).
Qed.

Lemma occ_Index s v k : v <> "" -> occ s v k -> exists i, Index s v = Some i /\ (i <= k)%nat.
Proof.
  intros Hv. revert k. induction s as [|a s IH]; intros k H; cbn [Index].
  - pose proof (occ_bound _ _ _ Hv H) as Hb. change (len "") with 0%nat in Hb. destruct v; [done|]. rewrite len_cons in Hb. lia.
  - destruct (String.prefix v (String a s)) eqn:E; [exists 0%nat; split; [done|lia]|].
    destruct k as [|k]; [apply prefix_occ in H; congruence|]. apply occ_tail, IH in H as (i & -> & Hi).
    exists (S i). split; [done|lia].
Qed.

(** * Replacement of a value by a text of its length *)

Section Replace.
Context (v m : string) (Hv : v <> "") (Hm : len m = len v).

Lemma replace_step s i rest :
  Index s v = Some i -> len rest = len (slice s (i + len v) (len s)) ->
  let out := slice s 0 i +:+ m +:+ rest in
  (i + len v <= len s)%nat /\ len out = len s /\ occ out m i /\
  (forall k, (k < i)%nat -> byte_at out k = byte_at s k) /\ (forall k, byte_at out (i + len v + k) = byte_at rest k).
Proof.
  intros Hi Hr. pose proof (Index_bound _ _ _ Hi) as Hb. rewrite len_slice in Hr by lia.
  assert (Hl : len (slice s 0 i) = i) by (rewrite len_slice; lia). cbv zeta. repeat split.
  - done.
  - rewrite !len_app, Hl, Hm, Hr. lia.
  - intros j Hj. rewrite byte_at_app_r, byte_at_app_l by lia. f_equal. lia.
  - intros k Hk. rewrite byte_at_app_l, byte_at_slice by lia. done.
  - intros k. rewrite !byte_at_app_r by (rewrite ?Hm; lia). f_equal. lia.
Qed.

Lemma rest_at s i k : (i + len v <= len s)%nat -> byte_at (slice s (i + len v) (len s)) k = byte_at s (i + len v + k).
Proof.
  intros H. destruct (decide (k < len s - (i + len v))%nat); [by apply byte_at_slice|].
  rewrite !byte_at_ge; [done|lia|rewrite len_slice; lia].
Qed.

Lemma occ_rest s i t k : (forall j, byte_at t j = byte_at s (i + len v + j)) -> forall x, occ t x k <-> occ s x (i + len v + k).
Proof. intros H x. unfold occ. setoid_rewrite H. by setoid_rewrite Nat.add_assoc. Qed.

(** Bytes change only inside occurrences, which then hold [m]; an occurrence that is
    left overlaps one that was replaced before it. *)
Lemma replace_from_spec fuel s :
  (len s <= fuel)%nat ->
  let out := replace_from fuel s v m in
  len out = len s /\
  (forall k, byte_at out k = byte_at s k \/ exists i, occ s v i /\ occ out m i /\ (i <= k < i + len v)%nat) /\
  (forall k, occ s v k -> occ out v k -> m <> v -> exists i, occ s v i /\ occ out m i /\ (i < k < i + len v)%nat).
Proof.
  revert s. induction fuel as [|f IH]; intros s Hf; cbn [replace_from].
  { split; [done|]. split; [by left|]. intros k Hk%occ_bound; [|done]. destruct v; [done|]. rewrite len_cons in Hk. lia. }
  destruct (Index s v) as [i|] eqn:Ei.
  2:{ split; [done|]. split; [by left|]. intros k Hk. apply occ_Index in Hk as (i & Hi & _); [congruence|done]. }
  pose proof (Index_bound _ _ _ Ei) as Hb. pose proof (Index_occ _ _ _ Ei) as Ho. set (rest := slice s (i + len v) (len s)).
  assert (Hlv : (0 < len v)%nat) by (destruct v; [done|rewrite len_cons; lia]).
  destruct (IH rest) as (IHl & IHb & IHo); [unfold rest; rewrite len_slice; lia|].
  destruct (replace_step s i _ Ei IHl) as (_ & Hlen & Hom & Hlow & Hhigh). set (out := slice s 0 i +:+ _) in *.
  assert (Hrs : forall j, byte_at rest j = byte_at s (i + len v + j)) by (intros j; by apply rest_at).
  assert (Hro : forall j, byte_at (replace_from f rest v m) j = byte_at out (i + len v + j)) by (intros j; by rewrite Hhigh).
  split; [done|]. split.
  - intros k. destruct (decide (k < i)%nat) as [Hk|Hk]; [left; by apply Hlow|].
    destruct (decide (k < i + len v)%nat) as [Hk'|Hk']; [right; exists i; split; [done|split; [done|lia]]|].
    replace k with (i + len v + (k - (i + len v)))%nat by lia. rewrite Hhigh, <- Hrs.
    destruct (IHb (k - (i + len v))%nat) as [H|(j & Hj & Hj' & Hr)]; [by left|right]. exists (i + len v + j)%nat.
    split; [by apply (occ_rest s i rest j Hrs)|]. split; [by apply (occ_rest out i _ j Hro)|lia].
  - intros k Hk Hk' Hne. apply occ_Index in Hk as H; [|done]. destruct H as (i' & Ei' & Hi'). rewrite Ei in Ei'. injection Ei' as <-.
    destruct (decide (k = i)) as [->|Hki].
    { exfalso. apply Hne, byte_at_ext; [done|]. intros j Hj. rewrite <- (Hom j) by lia. apply Hk'. lia. }
    destruct (decide (k < i + len v)%nat) as [Hk1|Hk1]; [exists i; split; [done|split; [done|lia]]|].
    replace k with (i + len v + (k - (i + len v)))%nat in Hk, Hk' by lia.
    destruct (IHo (k - (i + len v))%nat) as (j & Hj & Hj' & Hr).
    + by apply (occ_rest s i rest _ Hrs).
    + by apply (occ_rest out i _ _ Hro).
    + done.
    + exists (i + len v + j)%nat. split; [by apply (occ_rest s i rest j Hrs)|]. split; [by apply (occ_rest out i _ j Hro)|lia].
Qed.
End Replace.

Lemma covers_refl s : covers s s.
Proof. split; [done|]. by left. Qed.

Lemma covers_compose a b c : covers a b -> covers b c -> covers a c.
Proof.
  intros [L1 H1] [L2 H2]. split; [congruence|]. intros k. destruct (H2 k) as [->|]; [apply H1|by right].
Qed.

Definition star_free (v : string) : Prop := forall j, byte_at v j <> Some 42.

(** What shows through a cover was there before. *)
Lemma covers_occ a b v k : star_free v -> covers a b -> occ b v k -> occ a v k.
Proof.
  intros Hs [_ H] Ho j Hj. specialize (Ho j Hj). destruct (H (k + j)%nat) as [E|E]; [congruence|].
  rewrite E in Ho. by destruct (Hs j).
Qed.

Lemma replace_covers s v m : v <> "" -> covers v m -> covers s (ReplaceAll s v m).
Proof.
  intros Hv [Hl Hc]. destruct (replace_from_spec v m Hv Hl (len s) s (le_n _)) as (L & Hb & _). split; [done|].
  unfold ReplaceAll. intros k. destruct (Hb k) as [H|(i & Ho & Hm & Hr)]; [by left|].
  specialize (Ho (k - i)%nat ltac:(lia)). specialize (Hm (k - i)%nat ltac:(lia)).
  replace (i + (k - i))%nat with k in * by lia. rewrite Hm, Ho. apply Hc.
Qed.

(** * What an expression says of its matches *)

(** The least length of a match. *)
Fixpoint min_len (r : regex) : nat :=
  match r with
  | RClass _ _ _ => 1
  | RCat a b => min_len a + min_len b
  | RAlt a b => Nat.min (min_len a) (min_len b)
  | _ => 0
  end.

Definition digit_class (neg : bool) (ranges : list (Z * Z)) : bool :=
  negb neg && forallb (fun p => (48 <=? p.1) && (p.2 <=? 57)) ranges.

(** Every byte of a match is a digit. *)
Fixpoint all_digits (r : regex) : bool :=
  match r with
  | RClass neg fold ranges => digit_class neg ranges
  | RCat a b | RAlt a b => all_digits a && all_digits b
  | RStar _ a => all_digits a
  | _ => true
  end.

(** The number of digits a match is sure to end in. *)
Fixpoint trail (r : regex) : nat :=
  match r with
  | RClass neg fold ranges => if digit_class neg ranges then 1 else 0
  | RCat a b => if all_digits b then trail a + min_len b else trail b
  | RAlt a b => Nat.min (trail a) (trail b)
  | _ => 0
  end.

(** No byte of a match is a star. *)
Fixpoint no_star (r : regex) : bool :=
  match r with
  | RClass neg fold ranges => negb (class_match neg fold ranges 42)
  | RCat a b | RAlt a b => no_star a && no_star b
  | RStar _ a => no_star a
  | _ => true
  end.

Definition digit_bytes : list Z := [48; 49; 50; 51; 52; 53; 54; 55; 56; 57].

(** A match starts at a word boundary or with a byte that is not a digit. *)
Fixpoint sharp_start (r : regex) : bool :=
  match r with
  | RClass neg fold ranges => negb (existsb (class_match neg fold ranges) digit_bytes)
  | RCat a _ => sharp_start a
  | RAlt a b => sharp_start a && sharp_start b
  | RWord neg => negb neg
  | _ => false
  end.

Definition is_digit (b : Z) : bool := in_range 48 57 b.

Lemma is_digit_in b : is_digit b = true <-> b ∈ digit_bytes.
Proof. unfold is_digit, in_range, digit_bytes. rewrite !elem_of_cons, elem_of_nil. split; [intros H; bool_simpl; lia|]. intros H. by repeat destruct H as [->|H]. Qed.

(** An ASCII byte decodes to itself, any other rune is made of other bytes. *)
Lemma decode_rune_bytes l c w :
  decode_rune l = Some (c, w) ->
  (w = 1%nat /\ head l = Some c /\ c < 128) \/ (128 <= c /\ Forall (fun b => 128 <= b) (take w l)).
Proof.
  destruct l as [|b0 t]; [done|]. unfold decode_rune. destruct (Z.ltb_spec b0 128) as [H|H]; [intros [= <- <-]; by left|].
  intros Hd. right. unfold RuneError, is_cont, in_range in Hd.
  repeat (match goal with H : context [match ?x with _ => _ end] |- _ => destruct x eqn:? end; try discriminate);
    simplify_eq; bool_simpl; split; try lia; simpl; repeat constructor; lia.
Qed.

Section Bytes.
Context (s : list Z).

Definition range_all (P : Z -> Prop) (i j : nat) : Prop := forall k b, (i <= k < j)%nat -> s !! k = Some b -> P b.

Lemma range_join (P : Z -> Prop) i j k : range_all P i j -> range_all P j k -> range_all P i k.
Proof. intros H1 H2 n b Hn Hb. destruct (decide (n < j)%nat); [apply (H1 n)|apply (H2 n)]; auto; lia. Qed.

(** The one rune of a class. *)
Lemma class_bytes i c w :
  decode_rune (drop i s) = Some (c, w) ->
  (w = 1%nat /\ s !! i = Some c /\ c < 128) \/ (128 <= c /\ range_all (fun b => 128 <= b) i (i + w)).
Proof.
  intros H. pose proof (decode_rune_width _ _ _ H) as Hw. apply decode_rune_bytes in H as [(-> & H & Hc)|[Hc H]].
  - left. split; [done|]. split; [|done]. rewrite <- H.
    destruct (drop i s) eqn:E; [done|]. rewrite <- (Nat.add_0_r i), <- lookup_drop, E. done.
  - right. split; [done|]. intros k b Hk Hb. rewrite Forall_lookup in H. apply (H (k - i)%nat).
    rewrite lookup_take_lt by lia. rewrite lookup_drop. rewrite <- Hb. f_equal. lia.
Qed.

(** Folding relates no digit to another rune. *)
Lemma fold_digit x c : In x (fold_orbit c) -> is_digit x = true -> x = c.
Proof.
  unfold fold_orbit, is_digit, in_range. intros Hx Hd. bool_simpl.
  repeat (match type of Hx with context [if ?b then _ else _] => destruct b eqn:? end; bool_simpl); cbn [In] in Hx; bool_simpl; lia.
Qed.

Lemma digit_class_rune neg fold ranges c : digit_class neg ranges = true -> class_match neg fold ranges c = true -> is_digit c = true.
Proof.
  unfold digit_class, class_match. intros [Hn%negb_true_iff H]%andb_true_iff. subst. cbn [xorb].
  assert (Hr : forall x, in_ranges ranges x = true -> is_digit x = true).
  { intros x. unfold in_ranges. rewrite existsb_exists. intros (p & Hp & Hc). rewrite forallb_forall in H. specialize (H p Hp).
    unfold is_digit, in_range in *. bool_simpl. lia. }
  destruct fold; [|apply Hr]. rewrite existsb_exists. intros (x & Hx & Hin). rewrite <- (fold_digit x c Hx); auto.
Qed.

Lemma digit_class_bytes neg fold ranges i c w :
  digit_class neg ranges = true -> decode_rune (drop i s) = Some (c, w) -> class_match neg fold ranges c = true ->
  w = 1%nat /\ range_all (fun b => is_digit b = true) i (i + w).
Proof.
  intros Hd Hr Hc. pose proof (digit_class_rune _ _ _ _ Hd Hc) as Hdig.
  apply class_bytes in Hr as [(-> & Hs & _)|[H _]]; [|unfold is_digit, in_range in Hdig; bool_simpl; lia].
  split; [done|]. intros k b Hk Hb. replace k with i in Hb by lia. congruence.
Qed.

Lemma matches_min r i j : Matches s r i j -> (min_len r <= j - i)%nat.
Proof.
  induction 1; cbn [min_len]; try lia.
  - apply decode_rune_width in H. lia.
  - pose proof (Matches_le _ _ _ _ H). pose proof (Matches_le _ _ _ _ H0). lia.
Qed.

Lemma matches_digits r i j : Matches s r i j -> all_digits r = true -> range_all (fun b => is_digit b = true) i j.
Proof.
  induction 1; cbn [all_digits]; intros Hd; try (intros ? ? ?; lia).
  - by eapply digit_class_bytes.
  - apply andb_true_iff in Hd as [? ?]. eapply range_join; eauto.
  - apply andb_true_iff in Hd as [? ?]. eauto.
  - apply andb_true_iff in Hd as [? ?]. eauto.
  - eapply range_join; [by eauto|by apply IHMatches2].
Qed.

Lemma matches_trail r i j : Matches s r i j -> (trail r <= j - i)%nat /\ range_all (fun b => is_digit b = true) (j - trail r) j.
Proof.
  induction 1; cbn [trail]; try (split; [lia|intros ? ? ?; lia]).
  - destruct (digit_class neg ranges) eqn:Ed; [|split; [lia|intros ? ? ?; lia]].
    destruct (digit_class_bytes _ _ _ _ _ _ Ed H H0) as [-> Hb]. split; [lia|]. intros k b Hk. apply Hb. lia.
  - pose proof (Matches_le _ _ _ _ H) as L1. pose proof (Matches_le _ _ _ _ H0) as L2. destruct IHMatches1 as [T1 D1]. destruct IHMatches2 as [T2 D2].
    destruct (all_digits b) eqn:Eb.
    + pose proof (matches_min _ _ _ H0) as Hmin. pose proof (matches_digits _ _ _ H0 Eb) as Hd. split; [lia|].
      intros n c Hn Hc. destruct (decide (n < j)%nat); [apply (D1 n)|apply (Hd n)]; auto; lia.
    + split; [lia|done].
  - destruct IHMatches as [T D]. split; [lia|]. intros k c Hk. apply D. lia.
  - destruct IHMatches as [T D]. split; [lia|]. intros k c Hk. apply D. lia.
Qed.

Lemma matches_no_star r i j : Matches s r i j -> no_star r = true -> range_all (fun b => b <> 42) i j.
Proof.
  induction 1; cbn [no_star]; intros Hd; try (intros ? ? ?; lia).
  - apply negb_true_iff in Hd. apply class_bytes in H as [(-> & Hs & _)|[_ H]].
    + intros k b Hk Hb ->. replace k with i in Hb by lia. congruence.
    + intros k b Hk Hb. specialize (H k b Hk Hb). simpl in H. lia.
  - apply andb_true_iff in Hd as [? ?]. eapply range_join; eauto.
  - apply andb_true_iff in Hd as [? ?]. eauto.
  - apply andb_true_iff in Hd as [? ?]. eauto.
  - eapply range_join; [by eauto|by apply IHMatches2].
Qed.

Lemma matches_start r i j :
  Matches s r i j -> sharp_start r = true -> word_boundary s i = true \/ forall b, s !! i = Some b -> is_digit b = false.
Proof.
  induction 1; cbn [sharp_start]; intros Hd; try done; eauto.
  - right. intros b Hb. apply negb_true_iff in Hd. destruct (is_digit b) eqn:E; [|done]. exfalso.
    apply class_bytes in H as H'. destruct H' as [(-> & Hs & _)|[_ Hr]].
    + rewrite Hs in Hb. injection Hb as <-. apply is_digit_in in E.
      assert (Ht : existsb (class_match neg fold ranges) digit_bytes = true); [|congruence].
      apply existsb_exists. exists c. split; [by apply list_elem_of_In|done].
    + pose proof (decode_rune_width _ _ _ H) as Hw. specialize (Hr i b ltac:(lia) Hb). simpl in Hr. unfold is_digit, in_range in E. bool_simpl. lia.
  - apply andb_true_iff in Hd as [? ?]. eauto.
  - apply andb_true_iff in Hd as [? ?]. eauto.
  - apply negb_true_iff in Hd. subst neg. cbn [xorb] in H. by left.
Qed.
End Bytes.

Lemma find_all_matches fuel r s pos prev a b :
  (a, b) ∈ find_all_loop fuel r s pos prev -> (a <= length s)%nat /\ Matches s r a b.
Proof.
  revert pos prev. induction fuel as [|f IH]; intros pos prev; cbn [find_all_loop]; [by intros ?%not_elem_of_nil|].
  destruct (Nat.ltb_spec (length s) pos); [by intros ?%not_elem_of_nil|].
  destruct (find_from _ _ _ _) as [[x y]|] eqn:E; [|by intros ?%not_elem_of_nil].
  apply find_from_matches in E as (_ & Hx & Hm); [|done]. destruct (y =? pos)%nat.
  - rewrite elem_of_app. intros [Hl|Hl]; [|by eapply IH]. case_bool_decide; [by apply not_elem_of_nil in Hl|].
    apply list_elem_of_singleton in Hl. by simplify_eq.
  - rewrite elem_of_cons. intros [Hl|Hl]; [by simplify_eq|by eapply IH].
Qed.

Lemma FindAll_matches r s a b :
  (a, b) ∈ FindAllStringIndex r s -> (a <= b <= len s)%nat /\ Matches (bytes s) r a b.
Proof.
  intros H. apply find_all_matches in H as [Ha Hm]. rewrite length_bytes in Ha. split; [|done].
  pose proof (Matches_le _ _ _ _ Hm). apply Matches_length in Hm; [|by rewrite length_bytes]. rewrite length_bytes in Hm. lia.
Qed.

Module IndonesiaFacts.
Import Indonesia.

(** * The masks *)

Definition full_mask (t : string) : bool := str_eqb t TypeNPWPLegacy || str_eqb t TypeNPWPNew.

(** What the redaction relies on, decided from the expression. *)
Definition good_pattern (p : pii_pattern) : bool :=
  let re := pt_Pattern p in
  no_star re && (10 <=? min_len re)%nat &&
  (full_mask (pt_Type p) ||
   (sharp_start re && if str_eqb (pt_Type p) TypeNIK then all_digits re && (16 <=? min_len re)%nat else (5 <=? trail re)%nat)).

Lemma community_patterns_good : forallb good_pattern communityPatterns = true.
Proof. vm_compute. reflexivity. Qed.

(** [v] with [m] bytes hidden from [h] on. *)
Definition hide (v : string) (h m : nat) : string := slice v 0 h +:+ stars m +:+ slice v (h + m) (len v).

Section Hide.
Context (v : string) (h m : nat) (Hb : (h + m <= len v)%nat).

Lemma len_hide : len (hide v h m) = len v.
Proof. unfold hide. rewrite !len_app, len_stars, !len_slice by lia. lia. Qed.

Lemma byte_at_hide k : byte_at (hide v h m) k = if (h <=? k)%nat && (k <? h + m)%nat then Some 42 else byte_at v k.
Proof.
  unfold hide. assert (Hl : len (slice v 0 h) = h) by (rewrite len_slice; lia).
  destruct (Nat.leb_spec h k); cbn [andb].
  - rewrite byte_at_app_r by lia. rewrite Hl. destruct (Nat.ltb_spec k (h + m)).
    + rewrite byte_at_app_l by (rewrite len_stars; lia). apply byte_at_stars. lia.
    + rewrite byte_at_app_r by (rewrite len_stars; lia). rewrite len_stars.
      destruct (decide (k < len v)%nat); [rewrite byte_at_slice by lia; f_equal; lia|].
      rewrite !byte_at_ge; [done|lia|rewrite len_slice; lia].
  - rewrite byte_at_app_l by lia. by rewrite byte_at_slice by lia.
Qed.

Lemma hide_covers : covers v (hide v h m).
Proof. split; [apply len_hide|]. intros k. rewrite byte_at_hide. destruct (_ && _); auto. Qed.

Lemma hide_star : (0 < m)%nat -> byte_at (hide v h m) (h + m - 1) = Some 42.
Proof. intros Hm. rewrite byte_at_hide. destruct (Nat.leb_spec h (h + m - 1)), (Nat.ltb_spec (h + m - 1) (h + m)); (done || lia). Qed.
End Hide.

Lemma slice_0 s : slice s 0 0 = "".
Proof. done. Qed.
Lemma slice_end s : slice s (len s) (len s) = "".
Proof. unfold slice. by rewrite Nat.sub_diag. Qed.
Lemma app_empty_r s : s +:+ "" = s.
Proof. apply bytes_inj. rewrite bytes_app. apply app_nil_r. Qed.

Lemma hide_all v : hide v 0 (len v) = stars (len v).
Proof. unfold hide. rewrite slice_0, Nat.add_0_l, slice_end, app_empty_r. reflexivity. Qed.

(** Every mask hides a block of the value that ends at most four bytes before its end. *)
Lemma mask_hides v t :
  (10 <= len v)%nat ->
  exists h m, maskIndonesiaPII v t = hide v h m /\ (0 < m)%nat /\ (h + m <= len v)%nat /\
    (full_mask t = true -> h + m = len v)%nat /\ (str_eqb t TypeNIK = false -> len v <= h + m + 4)%nat /\
    (str_eqb t TypeNIK = true -> 16 <= len v -> h = 2 /\ m = 10)%nat.
Proof.
  intros Hn. unfold maskIndonesiaPII, full_mask. destruct (Nat.ltb_spec (len v) 4); [lia|].
  assert (Hall : exists h m, stars (len v) = hide v h m /\ (0 < m)%nat /\ (h + m = len v)%nat /\ h = 0%nat).
  { exists 0%nat, (len v). rewrite hide_all. repeat split; lia. }
  destruct Hall as (h0 & m0 & Eall & Hm0 & Hall & _).
  destruct (str_eqb t TypeNIK) eqn:En.
  { apply str_eqb_true in En as ->. change (str_eqb TypeNIK TypeNPWPLegacy || str_eqb TypeNIK TypeNPWPNew) with false.
    destruct (Nat.leb_spec 16 (len v)); [exists 2%nat, 10%nat|exists h0, m0]; repeat split; auto; (discriminate || lia). }
  destruct (str_eqb t TypeNPWPLegacy || str_eqb t TypeNPWPNew) eqn:Ef; [exists h0, m0; repeat split; auto; (discriminate || lia)|].
  destruct (str_eqb t TypePhone).
  { destruct (Nat.ltb_spec 6 (len v)); [|lia]. exists 3%nat, (len v - 7)%nat. unfold hide.
    replace (3 + (len v - 7))%nat with (len v - 4)%nat by lia. repeat split; auto; (discriminate || lia). }
  destruct (Nat.ltb_spec 4 (len v)); [|lia]. exists 0%nat, (len v - 4)%nat. unfold hide. rewrite slice_0.
  replace (0 + (len v - 4))%nat with (len v - 4)%nat by lia. repeat split; auto; (discriminate || lia).
Qed.

(** * One detection *)

Section Detection.
Context (d : pii_detector) (Hd : forall p, p ∈ dr_patterns d -> p ∈ communityPatterns).

Lemma detected_inv s r :
  r ∈ DetectAll d s ->
  exists p, good_pattern p = true /\ (de_StartIndex r <= de_EndIndex r <= len s)%nat /\
    Matches (bytes s) (pt_Pattern p) (de_StartIndex r) (de_EndIndex r) /\
    de_Value r = slice s (de_StartIndex r) (de_EndIndex r) /\ de_MaskedValue r = maskIndonesiaPII (de_Value r) (pt_Type p).
Proof.
  unfold DetectAll. destruct (str_eqb s ""); [by intros ?%not_elem_of_nil|]. rewrite list_elem_of_bind. intros (p & Hr & Hp).
  unfold detections_of in Hr. apply list_elem_of_omap in Hr as ([a b] & Hab & Hr). unfold detection_at in Hr.
  destruct (_ && _); [done|]. injection Hr as <-. apply FindAll_matches in Hab as [Hb Hm]. exists p.
  pose proof community_patterns_good as Hg. rewrite forallb_forall in Hg.
  split; [apply Hg, list_elem_of_In, Hd, Hp|]. cbn [de_StartIndex de_EndIndex de_Value de_MaskedValue]. split; [done|]. by split.
Qed.

(** The block a detection hides, and why an overlapping occurrence cannot survive. *)
Lemma detected_shape s r :
  r ∈ DetectAll d s ->
  let v := de_Value r in
  exists h m, de_MaskedValue r = hide v h m /\ (0 < m)%nat /\ (h + m <= len v)%nat /\ v <> "" /\ star_free v /\ occ s v (de_StartIndex r) /\
    ((h + m = len v)%nat \/
     ((1 < h + m)%nat /\ (forall j b, (h + m - 1 <= j < len v)%nat -> byte_at v j = Some b -> is_digit b = true) /\
      (word_boundary (bytes s) (de_StartIndex r) = true \/ forall b, byte_at v 0 = Some b -> is_digit b = false))).
Proof.
  intros Hr v. apply detected_inv in Hr as (p & Hg & Hb & Hm & Hv & Hmask). fold v in Hv, Hmask.
  set (a := de_StartIndex r) in *. set (b := de_EndIndex r) in *. unfold good_pattern in Hg.
  apply andb_true_iff in Hg as [[Hns Hmin%Nat.leb_le]%andb_true_iff Hrest]. pose proof (matches_min _ _ _ _ Hm) as Hlen.
  assert (Hl : len v = (b - a)%nat) by (rewrite Hv; apply len_slice; lia).
  assert (Hat : forall j, (j < len v)%nat -> byte_at v j = bytes s !! (a + j)%nat) by (intros j Hj; rewrite Hv; apply byte_at_slice; lia).
  destruct (mask_hides v (pt_Type p)) as (h & m & Em & Hm0 & Hhm & Hfull & Htail & Hnik); [lia|].
  exists h, m. split; [by rewrite Hmask|]. split; [done|]. split; [done|].
  split. { intros E. rewrite E in Hl. change (len "") with 0%nat in Hl. lia. }
  split. { intros j Hj. assert (Hlt : (j < len v)%nat) by (apply byte_at_some; eauto). rewrite Hat in Hj by done.
           by apply (matches_no_star _ _ _ _ Hm Hns (a + j)%nat 42) in Hj; [|lia]. }
  split. { intros j Hj. by rewrite Hat. }
  apply orb_true_iff in Hrest as [Hf|[Hstart Hdig]%andb_true_iff]; [left; by apply Hfull|right].
  assert (Hs : word_boundary (bytes s) a = true \/ forall c, byte_at v 0 = Some c -> is_digit c = false).
  { destruct (matches_start _ _ _ _ Hm Hstart) as [H|H]; [by left|right]. intros c. rewrite Hat by lia. rewrite Nat.add_0_r. apply H. }
  destruct (str_eqb (pt_Type p) TypeNIK).
  - apply andb_true_iff in Hdig as [Hall Hmin16%Nat.leb_le]. destruct (Hnik eq_refl) as [-> ->]; [lia|]. split; [lia|]. split; [|done].
    intros j c Hj. rewrite Hat by lia. apply (matches_digits _ _ _ _ Hm Hall). lia.
  - apply Nat.leb_le in Hdig. specialize (Htail eq_refl). split; [lia|]. split; [|done].
    intros j c Hj. rewrite Hat by lia. apply (matches_trail _ _ _ _ Hm). lia.
Qed.

Lemma digit_word b : is_digit b = true -> word_byte b = true.
Proof. unfold is_digit, word_byte. by intros ->. Qed.

Lemma mask_detection_covers s r cur : r ∈ DetectAll d s -> covers cur (mask_detection cur r).
Proof.
  intros Hr. destruct (detected_shape s r Hr) as (h & m & Em & _ & Hhm & Hv & _).
  unfold mask_detection. destruct (_ && _); [|apply covers_refl]. apply replace_covers; [done|]. rewrite Em. by apply hide_covers.
Qed.

(** After its turn, a value no longer stands where it was detected. *)
Lemma mask_detection_hides s r cur :
  r ∈ DetectAll d s -> covers s cur -> ~ occ (mask_detection cur r) (de_Value r) (de_StartIndex r).
Proof.
  intros Hr Hc Hocc. pose proof (mask_detection_covers s r cur Hr) as Hc2.
  destruct (detected_shape s r Hr) as (h & m & Em & Hm & Hhm & Hv & Hstar & Hs & Hcase). set (v := de_Value r) in *. set (a := de_StartIndex r) in *.
  pose proof (hide_star v h m Hhm Hm) as Hst. rewrite <- Em in Hst.
  assert (Hne : de_MaskedValue r <> v) by (intros E; rewrite E in Hst; by apply (Hstar _ Hst)).
  assert (Hmne : de_MaskedValue r <> "") by (intros E; rewrite E in Hst; discriminate).
  pose proof (covers_occ _ _ _ _ Hstar Hc2 Hocc) as Hcur. unfold mask_detection in Hocc. fold v in Hocc.
  rewrite (proj2 (str_eqb_false _ _) Hv), (proj2 (str_eqb_false _ _) Hmne), (proj2 (str_eqb_false _ _) Hne) in Hocc. cbn [negb andb] in Hocc.
  assert (Hl : len (de_MaskedValue r) = len v) by (rewrite Em; by apply len_hide).
  destruct (replace_from_spec v (de_MaskedValue r) Hv Hl (len cur) cur (le_n _)) as (_ & _ & Ho).
  destruct (Ho a Hcur Hocc Hne) as (i & Hi & Hi' & Hr2). change (replace_from (len cur) cur v (de_MaskedValue r)) with (ReplaceAll cur v (de_MaskedValue r)) in Hi'.
  assert (His : occ s v i) by (by eapply covers_occ).
  assert (Hge : (h + m <= a - i)%nat).
  { destruct (decide (h + m <= a - i)%nat) as [|Hlt]; [done|]. exfalso. specialize (Hi' (h + m - 1)%nat ltac:(lia)). rewrite Hst in Hi'.
    specialize (Hocc (h + m - 1 - (a - i))%nat ltac:(lia)). replace (a + (h + m - 1 - (a - i)))%nat with (i + (h + m - 1))%nat in Hocc by lia.
    rewrite Hi' in Hocc. by apply (Hstar (h + m - 1 - (a - i))%nat). }
  destruct Hcase as [Hfull|(Hgt & Hdig & Hstart)]; [lia|].
  assert (Hlv : (0 < len v)%nat) by lia.
  assert (Hat : byte_at s a = byte_at v (a - i)) by (rewrite <- (His (a - i)%nat) by lia; f_equal; lia).
  assert (Hat' : byte_at s (a - 1) = byte_at v (a - i - 1)) by (rewrite <- (His (a - i - 1)%nat) by lia; f_equal; lia).
  destruct (proj2 (byte_at_some v (a - i)) ltac:(lia)) as [x Hx]. destruct (proj2 (byte_at_some v (a - i - 1)) ltac:(lia)) as [y Hy].
  pose proof (Hdig (a - i)%nat x ltac:(lia) Hx) as Dx. pose proof (Hdig (a - i - 1)%nat y ltac:(lia) Hy) as Dy.
  destruct Hstart as [Hw|Hnd].
  - clearbody a. revert Hw. unfold word_boundary, word_before, word_after. destruct a as [|a']; [lia|]. cbn [Nat.sub] in Hat'. rewrite Nat.sub_0_r in Hat'.
    unfold byte_at in Hat, Hat', Hx, Hy. rewrite Hat, Hx, Hat', Hy, (digit_word _ Dx), (digit_word _ Dy). done.
  - specialize (Hs 0%nat Hlv). rewrite Nat.add_0_r in Hs. rewrite Hat in Hs. rewrite Hs in Hx. by rewrite (Hnd _ Hx) in Dx.
Qed.

Lemma fold_covers s l cur : (forall r, r ∈ l -> r ∈ DetectAll d s) -> covers cur (fold_left mask_detection l cur).
Proof.
  revert cur. induction l as [|r l IH]; intros cur Hl; [apply covers_refl|]. cbn [fold_left].
  eapply covers_compose; [apply (mask_detection_covers s r), Hl; left|]. apply IH. intros r' Hr'. apply Hl. by right.
Qed.

Lemma slice_occ s v a b : v <> "" -> slice s a b = v -> occ s v a.
Proof.
  intros Hv <- j Hj. unfold len, slice in Hj. rewrite chars_of_chars, length_take in Hj. by rewrite byte_at_slice by lia.
Qed.

Lemma redact_covers s : covers s (redactIndonesiaPIIInString (Some d) s).1.
Proof. unfold redactIndonesiaPIIInString. destruct (str_eqb s ""); [apply covers_refl|]. by apply (fold_covers s). Qed.

Lemma redact_hides s r : r ∈ DetectAll d s -> ~ occ (redactIndonesiaPIIInString (Some d) s).1 (de_Value r) (de_StartIndex r).
Proof.
  intros Hr. unfold redactIndonesiaPIIInString. destruct (str_eqb s "") eqn:Es.
  { unfold DetectAll in Hr. rewrite Es in Hr. by apply not_elem_of_nil in Hr. }
  unfold redact_detections. cbn [fst]. destruct (detected_shape s r Hr) as (_ & _ & _ & _ & _ & _ & Hstar & _).
  apply list_elem_of_split in Hr as Hr'. destruct Hr' as (l1 & l2 & E). rewrite E, fold_left_app. cbn [fold_left].
  assert (Hin : forall r', r' ∈ l1 \/ r' ∈ l2 -> r' ∈ DetectAll d s) by (intros r' [H|H]; rewrite E, elem_of_app, elem_of_cons; auto).
  intros Ho. eapply (mask_detection_hides s r (fold_left mask_detection l1 s) Hr); [apply (fold_covers s); auto|].
  eapply covers_occ; [done|apply (fold_covers s l2); auto|done].
Qed.

Lemma redact_reports s : (redactIndonesiaPIIInString (Some d) s).2 = true <-> DetectAll d s <> [].
Proof.
  destruct (DetectAll d s) as [|r l] eqn:E.
  { unfold redactIndonesiaPIIInString. destruct (str_eqb s ""); [done|]. rewrite E. unfold redact_detections. cbn. by rewrite str_eqb_refl. }
  split; [done|]. intros _. assert (Hr : r ∈ DetectAll d s) by (rewrite E; left). pose proof (redact_hides s r Hr) as Hh.
  destruct (detected_shape s r Hr) as (_ & _ & _ & _ & _ & _ & _ & Ho & _). unfold redactIndonesiaPIIInString in *.
  destruct (str_eqb s "") eqn:Es; [done|]. unfold redact_detections in *. cbn [fst snd] in *. apply negb_true_iff, str_eqb_false. congruence.
Qed.

(** C16: Redaction of Indonesian identifiers (NIK, NPWP, telephone and account numbers)
    is complete and hides only. Every identifier the detector finds in a text is gone
    from its place in the redacted text, whatever else stands around it and in
    whichever order overlapping findings are replaced; no byte changes but into a star,
    so the length and everything outside the identifiers stay as they are; and the
    caller is told of a change exactly when there was a finding. *)
Theorem indonesia_redaction_complete (s : string) :
  let '(out, changed) := redactIndonesiaPIIInString (Some d) s in
  covers s out /\ (forall r, r ∈ DetectAll d s -> slice out (de_StartIndex r) (de_EndIndex r) <> de_Value r) /\
  (changed = true <-> DetectAll d s <> []).
Proof.
  pose proof (redact_covers s) as Hc. pose proof (redact_hides s) as Hh. pose proof (redact_reports s) as Hr.
  destruct (redactIndonesiaPIIInString (Some d) s) as [out changed]. split; [done|]. split; [|done].
  intros r Hin E. apply (Hh r Hin). destruct (detected_shape s r Hin) as (_ & _ & _ & _ & _ & Hv & _). by eapply slice_occ.
Qed.
End Detection.

Definition indonesia_detector : pii_detector := NewIndonesiaPIIDetector default_config.

Lemma indonesia_redaction_complete_witness :
  let '(out, changed) := redactIndonesiaPIIInString (Some indonesia_detector) "NIK 3174012509900001" in
  covers "NIK 3174012509900001" out /\
  (forall r, r ∈ DetectAll indonesia_detector "NIK 3174012509900001" -> slice out (de_StartIndex r) (de_EndIndex r) <> de_Value r) /\
  (changed = true <-> DetectAll indonesia_detector "NIK 3174012509900001" <> []).
Proof. apply (indonesia_redaction_complete indonesia_detector). intros p Hp. exact Hp. Defined.
End IndonesiaFacts.

(** * Checks *)

Lemma elem_of_distinct x l : x ∈ distinct l <-> x ∈ l.
Proof.
  induction l as [|t l IH]; [done|]. cbn [distinct]. rewrite elem_of_cons. destruct (str_in t l) eqn:E; [|rewrite elem_of_cons; naive_solver].
  apply str_in_true in E. naive_solver.
Qed.

Lemma NoDup_distinct l : NoDup (distinct l).
Proof.
  induction l as [|t l IH]; [constructor|]. cbn [distinct]. destruct (str_in t l) eqn:E; [done|]. constructor; [|done].
  rewrite elem_of_distinct. intros H%str_in_true. congruence.
Qed.

(** What a check says of the detections of a text. *)
Definition check_of (critical : list string) (detections : list pii_detection) (blockOnCritical : bool) (c : pii_check) : Prop :=
  pk_Detections c = detections /\ (pk_HasPII c = true <-> detections <> []) /\
  (pk_CriticalPII c = true <-> exists r, r ∈ detections /\ de_Type r ∈ critical) /\
  pk_BlockRecommended c = blockOnCritical && pk_CriticalPII c /\ (pk_BlockRecommended c = true <-> pk_Reason c <> "") /\
  NoDup (pk_DetectedTypes c) /\ forall t, t ∈ pk_DetectedTypes c <-> exists r, r ∈ detections /\ de_Type r = t.

Lemma summarize_exact (ord : list string -> list string) critical reason detections block :
  (forall l, Permutation (ord l) l) -> reason <> "" -> check_of critical detections block (summarize ord critical reason detections block).
Proof.
  intros Ho Hr. destruct detections as [|r0 l0] eqn:El.
  { cbn [summarize]. unfold check_of. cbn. split; [done|]. split; [done|].
    split; [split; [done|by intros (r & ?%not_elem_of_nil & _)]|]. split; [by rewrite andb_false_r|]. split; [done|]. split; [constructor|].
    intros t. split; [by intros ?%not_elem_of_nil|by intros (r & ?%not_elem_of_nil & _)]. }
  rewrite <- El. assert (Hs : summarize ord critical reason detections block =
    let c := existsb (fun d => str_in (de_Type d) critical) detections in
    mkCheck true c (ord (distinct (de_Type <$> detections))) detections (block && c) (if block && c then reason else "")) by by rewrite El.
  rewrite Hs. unfold check_of. cbn. split; [done|]. split; [by rewrite El|].
  split; [rewrite existsb_exists; setoid_rewrite str_in_true; by setoid_rewrite list_elem_of_In|]. split; [done|].
  split; [by destruct (block && _)|]. split; [rewrite (Ho _); apply NoDup_distinct|]. intros t.
  rewrite (Ho _), elem_of_distinct, list_elem_of_fmap. naive_solver.
Qed.

Section IndiaFacts.
Context `{U : Unicode}.

Lemma filter_bind {A B} (f : A -> list B) (P : B -> bool) (Q : A -> bool) l :
  (forall x y, x ∈ l -> y ∈ f x -> P y = Q x) -> List.filter P (l ≫= f) = List.filter Q l ≫= f.
Proof.
  induction l as [|x l IH]; intros H; [done|]. cbn [List.filter]. rewrite bind_cons, List.filter_app, IH by (intros x' y Hx; apply H; by right).
  assert (Hx : List.filter P (f x) = if Q x then f x else []).
  { assert (Hf : forall y, y ∈ f x -> P y = Q x) by (intros y; apply H; left). clear -Hf. induction (f x) as [|y ys IH]; [by destruct (Q x)|].
    cbn [List.filter]. rewrite IH by (intros z Hz; apply Hf; by right). rewrite (Hf y) by left. by destruct (Q x). }
  rewrite Hx. by destruct (Q x).
Qed.

Lemma india_type d text p r : r ∈ India.detections_of d text p -> de_Type r = pt_Type p.
Proof.
  unfold India.detections_of. rewrite list_elem_of_omap. intros ([a b] & _ & H). unfold India.detection_at in H.
  destruct (_ || _); [done|]. destruct (India.false_positive _ _ _ _); [done|]. destruct (f64_ltb _ _); [done|]. by injection H as <-.
Qed.

(** The search for one type is the part of the full search of that type. *)
Lemma india_DetectType d text t : India.DetectType d text t = List.filter (fun r => str_eqb (de_Type r) t) (India.DetectAll d text).
Proof.
  unfold India.DetectType, India.DetectAll. symmetry. apply filter_bind. intros p r _ Hr. by rewrite (india_type d text p r Hr).
Qed.

(** The quick tests miss nothing the search finds. *)
Lemma india_quick_test d text patterns :
  (exists p r, p ∈ patterns /\ r ∈ India.detections_of d text p) -> India.any_match patterns text = true.
Proof.
  intros (p & r & Hp & Hr). unfold India.any_match. apply existsb_exists. exists p. split; [by apply list_elem_of_In|].
  unfold India.detections_of in Hr. apply list_elem_of_omap in Hr as ([a b] & Hab & H). apply existsb_exists. exists (a, b).
  split; [by apply list_elem_of_In|]. unfold India.detection_at in H. cbn [fst snd].
  destruct (_ || _); [done|]. by destruct (India.false_positive p text a b).
Qed.

(** The checks of the community detectors say exactly what their searches find. For
    both regions a check reports PII when there is a finding, critical PII when one is of
    a critical type, recommends to block when asked to and critical, with a reason
    exactly then, and names every type found once; the search for one type of Indian
    identifier is the part of the full search of that type; and what a check calls
    critical the quick test for critical identifiers confirms. *)
Theorem pii_checks_exact (ord : list string -> list string) (d : pii_detector) (query : string) (block : bool) :
  (forall l, Permutation (ord l) l) ->
  let india := India.CheckRequestForPII ord (Some d) query block in
  check_of India.criticalTypes (India.DetectAll d query) block india /\
  check_of Indonesia.criticalTypes (Indonesia.DetectAll d query) block (Indonesia.CheckRequestForPII ord (Some d) query block) /\
  (forall t, India.DetectType d query t = List.filter (fun r => str_eqb (de_Type r) t) (pk_Detections india)) /\
  (pk_HasPII india = true -> India.HasIndiaPII d query = true) /\ (pk_CriticalPII india = true -> India.HasCriticalPII d query = true).
Proof.
  intros Ho india. assert (Hi : check_of India.criticalTypes (India.DetectAll d query) block india) by by apply summarize_exact.
  split; [done|]. split; [by apply summarize_exact|]. destruct Hi as (Hd & Hh & Hc & _). rewrite Hd.
  split; [intros t; apply india_DetectType|]. rewrite Hh, Hc. unfold India.HasIndiaPII, India.HasCriticalPII. split.
  - intros Hne. apply (india_quick_test d). destruct (India.DetectAll d query) as [|r l] eqn:E; [done|].
    assert (Hr : r ∈ India.DetectAll d query) by (rewrite E; left). unfold India.DetectAll in Hr.
    apply list_elem_of_bind in Hr as (p & Hr & Hp). eauto.
  - intros (r & Hr & Ht). apply (india_quick_test d). unfold India.DetectAll in Hr. apply list_elem_of_bind in Hr as (p & Hr & Hp).
    exists p, r. split; [|done]. apply list_elem_of_In, filter_In. split; [by apply list_elem_of_In|].
    apply str_in_true. by rewrite <- (india_type d query p r Hr).
Qed.
End IndiaFacts.

(** * Concrete texts *)

#[local] Existing Instance ascii_unicode.

Definition india_detector : pii_detector := India.NewIndiaPIIDetector default_config.

Definition found (l : list pii_detection) : list (string * string * string) := (fun r => (de_Type r, de_Value r, de_MaskedValue r)) <$> l.

Example detectors_at_work :
  found (India.DetectAll india_detector "pay ana.k@okbank, PAN ABCDE1234F, john@gmail.com") =
    [("upi_id", "ana.k@okbank", "ana***@okbank"); ("pan", "ABCDE1234F", "AB******4F")] /\
  Indonesia.redactIndonesiaPIIInString (Some IndonesiaFacts.indonesia_detector) "NIK 3174012509900001 telp 081234567890 rek: 1234567890" =
    ("NIK 31**********0001 telp 081*****7890 ***********7890", true).
Proof. vm_compute. by split. Qed.

(** An Aadhaar number followed by a space and any number of two digits, such as a
    postal code or an age, is taken for the start of a credit card and not reported. *)
Example aadhaar_before_number_missed :
  found (India.DetectAll india_detector "aadhaar 2345 6789 0123") = [("aadhaar", "2345 6789 0123", "XXXX XXXX 0123")] /\
  pk_CriticalPII (India.CheckRequestForPII id (Some india_detector) "aadhaar 2345 6789 0123 25 years" true) = false.
Proof. vm_compute. by split. Qed.

(** A NIK after a digit and a dash, such as the number of an item, is not reported. *)
Example nik_after_dash_missed :
  pk_BlockRecommended (Indonesia.CheckRequestForPII id (Some IndonesiaFacts.indonesia_detector) "1) 3174012509900001" true) = true /\
  pk_HasPII (Indonesia.CheckRequestForPII id (Some IndonesiaFacts.indonesia_detector) "1-3174012509900001" true) = false.
Proof. vm_compute. by split. Qed.

(** The mask of a payment id with a user name of three letters shows all of it. *)
Example short_upi_shown : India.maskIndiaPII "ana@okbank" India.TypeUPI = "ana***@okbank".
Proof. reflexivity. Qed.

(** A tax number that is also a well-formed NIK is replaced under the milder mask. *)
Example npwp_masked_as_nik :
  Indonesia.maskIndonesiaPII "NPWP: 3174012509900001" Indonesia.TypeNPWPNew = "**********************" /\
  (Indonesia.redactIndonesiaPIIInString (Some IndonesiaFacts.indonesia_detector) "NPWP: 3174012509900001").1 = "NPWP: 31**********0001".
Proof. vm_compute. by split. Qed.
