(* ===== verification/GoSha256.v ===== *)
(** crypto/sha256: the digest used by the hash and tokenize redaction
    strategies. Words are integers reduced modulo 2^32. *)

From S2P Require Import Prelude GoStrings.

Local Open Scope Z_scope.

Definition w32 (x : Z) : Z := x mod 4294967296.
Definition rotr (x : Z) (n : Z) : Z :=
  Z.lor (Z.shiftr x n) (w32 (Z.shiftl x (32 - n))).

Definition sha_k : list Z :=
  [1116352408; 1899447441; 3049323471; 3921009573; 961987163; 1508970993; 2453635748; 2870763221;
   3624381080; 310598401; 607225278; 1426881987; 1925078388; 2162078206; 2614888103; 3248222580;
   3835390401; 4022224774; 264347078; 604807628; 770255983; 1249150122; 1555081692; 1996064986;
   2554220882; 2821834349; 2952996808; 3210313671; 3336571891; 3584528711; 113926993; 338241895;
   666307205; 773529912; 1294757372; 1396182291; 1695183700; 1986661051; 2177026350; 2456956037;
   2730485921; 2820302411; 3259730800; 3345764771; 3516065817; 3600352804; 4094571909; 275423344;
   430227734; 506948616; 659060556; 883997877; 958139571; 1322822218; 1537002063; 1747873779;
   1955562222; 2024104815; 2227730452; 2361852424; 2428436474; 2756734187; 3204031479; 3329325298].

Definition sha_h0 : list Z :=
  [1779033703; 3144134277; 1013904242; 2773480762; 1359893119; 2600822924; 528734635; 1541459225].

Definition be_bytes (n : nat) (x : Z) : list Z :=
  (fun i => Z.shiftr x (8 * Z.of_nat i) mod 256) <$> rev (seq 0 n).

Definition sha_pad (m : list Z) : list Z :=
  let zeros := Z.to_nat ((55 - Z.of_nat (length m)) mod 64) in
  m ++ [128] ++ replicate zeros 0 ++ be_bytes 8 (8 * Z.of_nat (length m)).

Fixpoint words (l : list Z) : list Z :=
  match l with
  | a :: b :: c :: d :: l' => (a * 16777216 + b * 65536 + c * 256 + d) :: words l'
  | _ => []
  end.

(** The message schedule, newest word first. *)
Fixpoint schedule (n : nat) (w : list Z) : list Z :=
  match n with
  | O => w
  | S n' =>
      let at_ i := nth i w 0 in
      let w15 := at_ 14%nat in
      let w2 := at_ 1%nat in
      let s0 := Z.lxor (Z.lxor (rotr w15 7) (rotr w15 18)) (Z.shiftr w15 3) in
      let s1 := Z.lxor (Z.lxor (rotr w2 17) (rotr w2 19)) (Z.shiftr w2 10) in
      schedule n' (w32 (at_ 15%nat + s0 + at_ 6%nat + s1) :: w)
  end.

Definition sha_round (st : list Z) (kw : Z * Z) : list Z :=
  match st with
  | [a; b; c; d; e; f; g; h] =>
      let s1 := Z.lxor (Z.lxor (rotr e 6) (rotr e 11)) (rotr e 25) in
      let ch := Z.lxor (Z.land e f) (Z.land (4294967295 - e) g) in
      let t1 := w32 (h + s1 + ch + kw.1 + kw.2) in
      let s0 := Z.lxor (Z.lxor (rotr a 2) (rotr a 13)) (rotr a 22) in
      let maj := Z.lxor (Z.lxor (Z.land a b) (Z.land a c)) (Z.land b c) in
      [w32 (t1 + w32 (s0 + maj)); a; b; c; w32 (d + t1); e; f; g]
  | _ => st
  end.

Definition sha_block (st block : list Z) : list Z :=
  let w := rev (schedule 48 (rev block)) in
  zip_with (fun a b => w32 (a + b)) st (foldl sha_round st (zip sha_k w)).

Fixpoint sha_blocks (n : nat) (st ws : list Z) : list Z :=
  match n with
  | O => st
  | S n' => sha_blocks n' (sha_block st (take 16 ws)) (drop 16 ws)
  end.

Definition hex_byte (b : Z) : list Z :=
  let h n := if n <? 10 then 48 + n else 87 + n in [h (b / 16); h (b mod 16)].

(** [sha256.Sum256] *)
Definition sha256_sum (m : list Z) : list Z :=
  let ws := words (sha_pad m) in
  concat (be_bytes 4 <$> sha_blocks (Nat.div (length ws) 16) sha_h0 ws).

(** [hex.EncodeToString] *)
Definition hex_encode (l : list Z) : string := of_bytes (concat (hex_byte <$> l)).

(** [hex.EncodeToString(sha256.Sum256([]byte(s))[:])] *)
Definition sha256_hex (s : string) : string := hex_encode (sha256_sum (bytes s)).

(** crypto/hmac over SHA-256: a key longer than a block is hashed first, a
    shorter one is padded with zeros. *)
Definition hmac_block (key : list Z) : list Z :=
  let k := if Nat.ltb 64 (length key) then sha256_sum key else key in
  k ++ replicate (64 - length k) 0.

Definition hmac_sha256 (key msg : list Z) : list Z :=
  let k := hmac_block key in
  sha256_sum ((Z.lxor 92 <$> k) ++ sha256_sum ((Z.lxor 54 <$> k) ++ msg)).

Example sha256_abc :
  sha256_hex "abc" = "ba7816bf8f01cfea414140de5dae2223b00361a396177a9cb410ff61f20015ad".
Proof. vm_compute. reflexivity. Qed.

Example sha256_two_blocks :
  sha256_hex "abcdbcdecdefdefgefghfghighijhijkijkljklmklmnlmnomnopnopq"
  = "248d6a61d20638b8e5c026930c3e6039a33ce45964ff2167f6ecedd419db06c1".
Proof. vm_compute. reflexivity. Qed.

Example hmac_rfc4231_1 :
  hex_encode (hmac_sha256 (replicate 20 11) (bytes "Hi There"))
  = "b0344c61d8db38535ca8afceaf0bf12b881dc200c9833da726e9376c2e32cff7".
Proof. vm_compute. reflexivity. Qed.

Example hmac_rfc4231_6 :
  hex_encode (hmac_sha256 (replicate 131 170) (bytes "Test Using Larger Than Block-Size Key - Hash Key First"))
  = "60e431591ee0b67f0d8a26aacbf5b77f8e0bc6213728c5140546040f0ee37f54".
Proof. vm_compute. reflexivity. Qed.

Lemma length_sha_round st kw : length st = 8%nat -> length (sha_round st kw) = 8%nat.
Proof. by destruct st as [|? [|? [|? [|? [|? [|? [|? [|? [|]]]]]]]]]. Qed.

Lemma length_sha_block st block : length st = 8%nat -> length (sha_block st block) = 8%nat.
Proof.
  intros H. unfold sha_block. rewrite length_zip_with.
  assert (Hr : forall l s, length s = 8%nat -> length (foldl sha_round s l) = 8%nat).
  { induction l as [|kw l IH]; intros s Hs; cbn [foldl]; [done|]. by apply IH, length_sha_round. }
  rewrite Hr by done. lia.
Qed.

Lemma length_sha_blocks n st ws : length st = 8%nat -> length (sha_blocks n st ws) = 8%nat.
Proof.
  revert st ws. induction n as [|n IH]; intros st ws H; cbn [sha_blocks]; [done|].
  by apply IH, length_sha_block.
Qed.

(** A digest has 32 bytes, its hexadecimal form 64 characters. *)
Lemma length_sha256_sum m : length (sha256_sum m) = 32%nat.
Proof.
  unfold sha256_sum.
  assert (Hc : forall l, length (concat (be_bytes 4 <$> l)) = (4 * length l)%nat).
  { induction l as [|x l IH]; [done|]. cbn [fmap list_fmap concat]. rewrite length_app, IH. cbn. lia. }
  rewrite Hc, length_sha_blocks; done.
Qed.

Lemma len_hex_encode l : len (hex_encode l) = (2 * length l)%nat.
Proof.
  unfold hex_encode, len, of_bytes. rewrite chars_of_chars, length_fmap.
  induction l as [|x l IH]; [done|]. cbn [fmap list_fmap concat]. rewrite length_app, IH. cbn. lia.
Qed.

Lemma sha256_hex_len s : len (sha256_hex s) = 64%nat.
Proof. unfold sha256_hex. by rewrite len_hex_encode, length_sha256_sum. Qed.
