(* ===== verification/ServiceAuth.v ===== *)
(** Internal service tokens, src/platform/shared/serviceauth/serviceauth.go: an
    HMAC-signed timestamp that one service presents to another, its validation
    within a clock-skew window, and the two compatibility paths (the plain
    secret, the static fallback token).

    The clock is an argument, in seconds since the epoch; a skew is a duration
    in nanoseconds. *)

From S2P Require Import Prelude GoStrings GoStrconv GoTime GoSha256 GoHttp.

Local Open Scope Z_scope.

Definition ClientID : string := "orchestrator-internal".
Definition TokenFallback : string := "orchestrator-internal-token".
Definition WildcardTenantID : string := "*".
Definition SecretEnvVar : string := "AXONFLOW_INTERNAL_SERVICE_SECRET".
Definition SecretMinLength : nat := 32.
Definition TokenPrefix : string := "AXON-INTERNAL-".
Definition SignatureLength : nat := 16.
Definition DefaultClockSkew : Z := 5 * Minute.

(** The first sixteen hexadecimal digits of the MAC of "client:timestamp". *)
Definition computeSignature (secret clientID : string) (timestamp : Z) : string :=
  slice (hex_encode (hmac_sha256 (bytes secret) (bytes (clientID +:+ ":" +:+ Itoa timestamp)))) 0 SignatureLength.

(** [GenerateToken] of a generator with this secret, at this time. *)
Definition GenerateToken (secret : string) (now : Z) : string :=
  TokenPrefix +:+ Itoa now +:+ "-" +:+ computeSignature secret ClientID now.

Record TokenValidator := mkTokenValidator { tv_secret : string; tv_maxSkew : Z }.

Definition NewTokenValidator (secret : string) (maxSkew : Z) : TokenValidator :=
  mkTokenValidator secret (if maxSkew <=? 0 then DefaultClockSkew else maxSkew).

Inductive token_error :=
| NoSeparator
| BadTimestamp
| SignatureLengthMismatch (n : nat)
| TokenExpired (ts diff max : Z)
| SignatureMismatch.

(** The distance of two times, with the wrap-around of the subtraction and of
    the negation. *)
Definition time_distance (now ts : Z) : Z :=
  let diff := wrap64 (now - ts) in if diff <? 0 then wrap64 (- diff) else diff.

(** [ValidateToken]: (valid, isLegacy, err). *)
Definition ValidateToken (v : TokenValidator) (now : Z) (token : string) : bool * bool * option token_error :=
  if negb (HasPrefix token TokenPrefix) then (false, true, None)
  else
    let rest := slice token (len TokenPrefix) (len token) in
    match Index rest "-" with
    | None => (false, false, Some NoSeparator)
    | Some dashIdx =>
        let tsStr := slice rest 0 dashIdx in
        let sig := slice rest (dashIdx + 1) (len rest) in
        match Atoi tsStr with
        | (_, false) => (false, false, Some BadTimestamp)
        | (ts, true) =>
            if negb (Nat.eqb (len sig) SignatureLength) then (false, false, Some (SignatureLengthMismatch (len sig)))
            else
              let diff := time_distance now ts in
              let max := Z.quot (tv_maxSkew v) Second in
              if max <? diff then (false, false, Some (TokenExpired ts diff max))
              else if str_eqb sig (computeSignature (tv_secret v) ClientID ts) then (true, false, None)
              else (false, false, Some SignatureMismatch)
        end
    end.

Definition token_valid (v : TokenValidator) (now : Z) (token : string) : bool := (ValidateToken v now token).1.1.

(** [IsValidInternalServiceRequest]; no validator means no secret is configured. *)
Definition IsValidInternalServiceRequest (clientID userToken : string) (validator : option TokenValidator)
    (now : Z) (allowFallback : bool) : bool :=
  if negb (str_eqb clientID ClientID) then false
  else match validator with
       | None => allowFallback && str_eqb userToken TokenFallback
       | Some v =>
           match ValidateToken v now userToken with
           | (true, _, _) => true
           | (false, true, _) => str_eqb userToken (tv_secret v)
           | (false, false, _) => false
           end
       end.

(** [GetInternalServiceToken]; a generator is its secret. *)
Definition GetInternalServiceToken (generator : option string) (now : Z) : string :=
  match generator with Some secret => GenerateToken secret now | None => TokenFallback end.

(** The startup warning, and the text each warning logs at most once. *)
Definition auth_warning (secret : string) : option string :=
  if str_eqb secret "" then Some "not configured"
  else if Nat.ltb (len secret) SecretMinLength then Some (Itoa (Z.of_nat (len secret)) +:+ " characters")
  else None.

(** * Signatures *)

Lemma len_computeSignature secret c ts : len (computeSignature secret c ts) = SignatureLength.
Proof.
  unfold computeSignature. rewrite len_slice; [done | unfold SignatureLength; lia |].
  rewrite len_hex_encode. unfold hmac_sha256. rewrite length_sha256_sum. unfold SignatureLength. lia.
Qed.

(** * The format of a token *)

Lemma Index_dash_split s i :
  Index s "-" = Some i ->
  exists a b, s = a +:+ "-" +:+ b /\ i = len a /\ 45 ∉ bytes a.
Proof.
  revert i. induction s as [|c s IH]; intros i; cbn [Index]; [discriminate|].
  destruct (String.prefix "-" (String c s)) eqn:E.
  - intros [= <-]. apply (HasPrefix_app (String c s) "-") in E as [t Ht]. exists "", t.
    split; [exact Ht|]. split; [done|]. apply not_elem_of_nil.
  - destruct (Index s "-") as [j|] eqn:EJ; cbn; [|discriminate]. intros [= <-].
    destruct (IH j eq_refl) as (a & b & -> & -> & Ha). exists (String c a), b.
    split; [done|]. split; [done|]. unfold bytes. cbn. rewrite not_elem_of_cons. split; [|exact Ha].
    intros H45. apply Bool.not_true_iff_false in E. apply E. apply (HasPrefix_app (String c _) "-").
    exists (a +:+ "-" +:+ b). assert (c = "-"%char) as ->; [|done].
    rewrite <- (byte_chr_val c). change (String.list_ascii_of_string a) with (chars a) in *.
    change (byte_val c) with (byte_val c) in H45. by rewrite <- H45.
Qed.

Lemma Index_dash_app a b : 45 ∉ bytes a -> Index (a +:+ "-" +:+ b) "-" = Some (len a).
Proof.
  induction a as [|c a IH]; intros H.
  - by destruct b.
  - unfold bytes in H. cbn in H. rewrite not_elem_of_cons in H. destruct H as [Hc Ha].
    cbn [Index String.app]. change ((String c a) +:+ "-" +:+ b) with (String c (a +:+ "-" +:+ b)). cbn [Index].
    destruct (String.prefix "-" (String c (a +:+ "-" +:+ b))) eqn:E.
    + exfalso. apply (HasPrefix_app (String c (a +:+ "-" +:+ b)) "-") in E as [t Ht]. injection Ht as -> _. by apply Hc.
    + rewrite IH by exact Ha. done.
Qed.

(** A timestamp that the separator cannot split is not negative. *)
Lemma Atoi_nonneg s v : 45 ∉ bytes s -> Atoi s = (v, true) -> 0 <= v <= int64_max.
Proof.
  intros H. unfold Atoi.
  assert (Hp : forall l acc n, 0 <= acc -> parse_digits l acc = Some n -> 0 <= n).
  { induction l as [|b l IH]; intros acc n Ha; cbn [parse_digits]; [by intros [= <-]|].
    destruct (in_range 48 57 b) eqn:E; [|discriminate]. apply IH. unfold in_range in E. lia. }
  destruct (bytes s) as [|b t] eqn:Es; [discriminate|].
  assert (Hb : (b =? 45) = false). { apply Z.eqb_neq. intros ->. apply H. by left. }
  rewrite Hb. destruct (b =? 43).
  - destruct t as [|c t]; [discriminate|]. destruct (parse_digits (c :: t) 0) as [n|] eqn:En; [|discriminate].
    apply Hp in En; [|lia]. destruct (n <? int64_min); [discriminate|].
    destruct (int64_max <? n) eqn:Em; [discriminate|]. intros [= <-]. lia.
  - destruct (parse_digits (b :: t) 0) as [n|] eqn:En; [|discriminate].
    apply Hp in En; [|lia]. destruct (n <? int64_min); [discriminate|].
    destruct (int64_max <? n) eqn:Em; [discriminate|]. intros [= <-]. lia.
Qed.

(** Between two times after the epoch nothing wraps. *)
Lemma time_distance_abs now ts : 0 <= now <= int64_max -> 0 <= ts <= int64_max -> time_distance now ts = Z.abs (now - ts).
Proof.
  unfold int64_max. intros H1 H2. unfold time_distance.
  rewrite (wrap64_id (now - ts)) by (unfold int64_range, int64_min, int64_max; lia). destruct (now - ts <? 0) eqn:E.
  - rewrite wrap64_id by (unfold int64_range, int64_min, int64_max; lia). lia.
  - lia.
Qed.

Definition skew_seconds (v : TokenValidator) : Z := Z.quot (tv_maxSkew v) Second.

(** The shape of an accepted token. *)
Definition signed_token (v : TokenValidator) (now : Z) (tsStr : string) (ts : Z) (token : string) : Prop :=
  token = TokenPrefix +:+ tsStr +:+ "-" +:+ computeSignature (tv_secret v) ClientID ts /\
  (45 ∉ bytes tsStr) /\ Atoi tsStr = (ts, true) /\ Z.abs (now - ts) <= skew_seconds v.

Lemma token_rest rest : slice (TokenPrefix +:+ rest) (len TokenPrefix) (len (TokenPrefix +:+ rest)) = rest.
Proof. apply drop_app_len. Qed.

Lemma token_sig a b : slice (a +:+ "-" +:+ b) (len a + 1) (len (a +:+ "-" +:+ b)) = b.
Proof.
  assert (E : a +:+ "-" +:+ b = (a +:+ "-") +:+ b).
  { clear. induction a as [|c a IH]; [done|]. change (String c (a +:+ "-" +:+ b) = String c ((a +:+ "-") +:+ b)). by rewrite IH. }
  rewrite E. replace (len a + 1)%nat with (len (a +:+ "-")) by (rewrite len_app; done). apply drop_app_len.
Qed.

(** On a token of the right shape the validator decides by time and signature. *)
Lemma ValidateToken_signed v now tsStr ts sig :
  45 ∉ bytes tsStr -> Atoi tsStr = (ts, true) -> 0 <= now <= int64_max ->
  ValidateToken v now (TokenPrefix +:+ tsStr +:+ "-" +:+ sig) =
  if negb (Nat.eqb (len sig) SignatureLength) then (false, false, Some (SignatureLengthMismatch (len sig)))
  else if skew_seconds v <? Z.abs (now - ts)
  then (false, false, Some (TokenExpired ts (Z.abs (now - ts)) (skew_seconds v)))
  else if str_eqb sig (computeSignature (tv_secret v) ClientID ts) then (true, false, None)
  else (false, false, Some SignatureMismatch).
Proof.
  intros Hd Ha Hn. unfold ValidateToken, skew_seconds.
  assert (E : HasPrefix (TokenPrefix +:+ tsStr +:+ "-" +:+ sig) TokenPrefix = true).
  { apply HasPrefix_app. by eexists. }
  rewrite E. cbn [negb]. rewrite token_rest, Index_dash_app, take_app_len, token_sig by exact Hd.
  rewrite Ha. rewrite time_distance_abs; [done | done | by eapply Atoi_nonneg].
Qed.

Lemma token_valid_spec v now token :
  0 <= now <= int64_max ->
  token_valid v now token = true <-> (exists tsStr ts, signed_token v now tsStr ts token).
Proof.
  intros Hn. unfold token_valid, signed_token. split.
  - destruct (HasPrefix token TokenPrefix) eqn:E.
    2: { unfold ValidateToken. rewrite E. cbn. discriminate. }
    apply HasPrefix_app in E as [rest ->]. destruct (Index rest "-") as [i|] eqn:Ei.
    2: { unfold ValidateToken. rewrite token_rest, Ei. destruct (negb _); cbn; discriminate. }
    apply Index_dash_split in Ei as (a & b & -> & _ & Ha). destruct (Atoi a) as [ts ok] eqn:Et. destruct ok.
    2: { unfold ValidateToken. rewrite token_rest, Index_dash_app, take_app_len, Et by exact Ha.
         destruct (negb _); cbn; discriminate. }
    rewrite (ValidateToken_signed v now a ts b) by done.
    destruct (negb (Nat.eqb (len b) _)); [cbn; discriminate|].
    destruct (skew_seconds v <? Z.abs (now - ts)) eqn:Es; [cbn; discriminate|].
    destruct (str_eqb b _) eqn:Eb; [|cbn; discriminate]. intros _. apply str_eqb_true in Eb as ->.
    exists a, ts. split; [done|]. split; [done|]. split; [done|]. lia.
  - intros (a & ts & -> & Ha & Ht & Hs). rewrite (ValidateToken_signed v now a ts) by done.
    rewrite len_computeSignature, Nat.eqb_refl, str_eqb_refl. cbn [negb].
    destruct (skew_seconds v <? Z.abs (now - ts)) eqn:Es; [lia | done].
Qed.

Lemma Itoa_no_dash n : 0 <= n -> int64_range n -> 45 ∉ bytes (Itoa n).
Proof.
  intros H0 Hr Hin. destruct (Itoa_bytes n Hr) as (ds & Hb & _ & Hds & _).
  rewrite Hb in Hin. destruct (n <? 0) eqn:E; [lia|]. cbn in Hin.
  rewrite Forall_forall in Hds. apply Hds in Hin. unfold is_digit in Hin. lia.
Qed.

(** A generated token passes within the skew. *)
Lemma generated_valid v t now :
  0 <= t <= int64_max -> 0 <= now <= int64_max -> Z.abs (now - t) <= skew_seconds v ->
  token_valid v now (GenerateToken (tv_secret v) t) = true.
Proof.
  intros Ht Hn Hs. assert (Hr : int64_range t) by (unfold int64_range, int64_min; lia).
  apply token_valid_spec; [done|]. exists (Itoa t), t. split; [done|].
  split; [apply Itoa_no_dash; [lia | done]|]. split; [by apply Atoi_Itoa | done].
Qed.

(** Round trip of the service tokens: a token signed with the validator's
    secret at one time is accepted at another exactly when the two times are no
    further apart than the skew allows, whole seconds counted; outside the window
    the answer names the distance and the limit. *)
Theorem token_roundtrip v t now :
  0 <= t <= int64_max -> 0 <= now <= int64_max ->
  ValidateToken v now (GenerateToken (tv_secret v) t) =
  if skew_seconds v <? Z.abs (now - t)
  then (false, false, Some (TokenExpired t (Z.abs (now - t)) (skew_seconds v)))
  else (true, false, None).
Proof.
  intros Ht Hn. assert (Hr : int64_range t) by (unfold int64_range, int64_min; lia). unfold GenerateToken.
  rewrite (ValidateToken_signed v now (Itoa t) t).
  - by rewrite len_computeSignature, Nat.eqb_refl, str_eqb_refl.
  - apply Itoa_no_dash; [lia | done].
  - by apply Atoi_Itoa.
  - done.
Qed.

Lemma token_roundtrip_witness :
  ValidateToken (NewTokenValidator "s3cret" 0) 1300 (GenerateToken "s3cret" 1000) = (true, false, None) /\
  ValidateToken (NewTokenValidator "s3cret" 0) 1301 (GenerateToken "s3cret" 1000)
  = (false, false, Some (TokenExpired 1000 301 300)).
Proof.
  split.
  - apply (token_roundtrip (NewTokenValidator "s3cret" 0) 1000 1300); unfold int64_max; lia.
  - apply (token_roundtrip (NewTokenValidator "s3cret" 0) 1000 1301); unfold int64_max; lia.
Defined.

(** C13: What the validator accepts, with the wrap-around of its arithmetic: on a
    clock after 1970 a token is valid exactly when it is the prefix, a decimal
    timestamp without a minus sign, a dash and the MAC of that timestamp under the
    validator's secret, with the timestamp within the skew of the clock. *)
Theorem ValidateToken_exact v now token :
  0 <= now <= int64_max ->
  token_valid v now token = true <-> (exists tsStr ts, signed_token v now tsStr ts token).
Proof. apply token_valid_spec. Qed.

Lemma ValidateToken_exact_witness :
  token_valid (NewTokenValidator "s3cret" 0) 1300 (GenerateToken "s3cret" 1000) = true.
Proof.
  apply ValidateToken_exact; [unfold int64_max; lia|]. exists "1000", 1000.
  split; [reflexivity|]. split; [|split; [reflexivity | vm_compute; discriminate]].
  intros H. apply list_elem_of_In in H. vm_compute in H. intuition discriminate.
Defined.

(** On a clock before 1970 the negation of the distance can overflow: a token
    dated at the end of time is within every window. *)
Lemma negative_clock_overflow : time_distance (-1) int64_max = int64_min.
Proof. reflexivity. Qed.

(** A timestamp has several spellings, all under one signature. *)
Lemma token_spellings :
  let sig := computeSignature "s3cret" ClientID 1000 in
  let v := NewTokenValidator "s3cret" 0 in
  token_valid v 1000 (TokenPrefix +:+ "1000-" +:+ sig) = true /\
  token_valid v 1000 (TokenPrefix +:+ "+1000-" +:+ sig) = true /\
  token_valid v 1000 (TokenPrefix +:+ "0001000-" +:+ sig) = true.
Proof. vm_compute. done. Qed.

(** * Who is an internal service *)

(** Without a secret only the fallback token passes, and only where the caller
    allows it; with one, the signed token or the bare secret. *)
Lemma internal_request_cases clientID userToken validator now allowFallback :
  IsValidInternalServiceRequest clientID userToken validator now allowFallback = true <->
  clientID = ClientID /\
  match validator with
  | None => allowFallback = true /\ userToken = TokenFallback
  | Some v => token_valid v now userToken = true \/ (HasPrefix userToken TokenPrefix = false /\ userToken = tv_secret v)
  end.
Proof.
  unfold IsValidInternalServiceRequest, token_valid. destruct (str_eqb clientID ClientID) eqn:E; cbn [negb].
  - apply str_eqb_true in E as ->. destruct validator as [v|].
    + assert (Hl : (ValidateToken v now userToken).1.2 = negb (HasPrefix userToken TokenPrefix)).
      { unfold ValidateToken. destruct (HasPrefix userToken TokenPrefix); cbn [negb]; [|done].
        destruct (Index _ "-") as [i|]; [|done]. destruct (Atoi _) as [ts []]; [|done].
        destruct (negb _); [done|]. destruct (_ <? _); [done|]. by destruct (str_eqb _ _). }
      destruct (ValidateToken v now userToken) as [[ok legacy] err]; cbn in Hl |- *. subst legacy. destruct ok.
      * split; [by intros _; split; [|left] | done].
      * destruct (HasPrefix userToken TokenPrefix); cbn [negb].
        -- split; [discriminate|]. intros [_ [H|[H _]]]; discriminate.
        -- rewrite str_eqb_true. split; [by intros ->; split; [|right]|]. intros [_ [H|[_ H]]]; [discriminate | done].
    + rewrite andb_true_iff, str_eqb_true. tauto.
  - apply str_eqb_false in E. split; [discriminate|]. by intros [-> _].
Qed.

(** The fallback token is not accepted where a secret is configured. *)
Lemma fallback_rejected v now :
  tv_secret v <> TokenFallback -> IsValidInternalServiceRequest ClientID TokenFallback (Some v) now true = false.
Proof.
  intros H. apply Bool.not_true_iff_false. rewrite internal_request_cases. intros [_ [Hv|[_ Hs]]]; [|by apply H].
  unfold token_valid, ValidateToken in Hv. discriminate.
Qed.
