(* ===== verification/Redactor.v ===== *)
(** The field redactor (platform/shared/policy/redactor.go): redaction
    strategies, whole-statement removal for prompt injection, span masking, the
    JSON-aware repair pass, and their application to rows, objects and strings.

    Go ranges over maps in an unspecified order. An object is the list of its
    entries in range order; for the pattern map, which several loops range over
    independently, the order is an oracle [ord] indexed by the loop and by the
    text being redacted. *)

From S2P Require Import Prelude GoFloat GoStrings Regexp PolicyTypes GoJSON GoSha256.

(** * Strategies *)

Definition StrategyMask : string := "mask".
Definition StrategyPartial : string := "partial".
Definition StrategyRemove : string := "remove".
Definition StrategyHash : string := "hash".
Definition StrategyTokenize : string := "tokenize".
Definition StrategyRemoveStatement : string := "remove_statement".

Definition RedactorFunc : Type := string -> string -> string.

Definition star : ascii := "*"%char.

(** [value[:k] + strings.Repeat("*", length-2k) + value[length-k:]] *)
Definition keep_ends (k : nat) (v : string) : string :=
  slice v 0 k +:+ Repeat star (len v - 2 * k) +:+ slice v (len v - k) (len v).

Definition strategy_mask (v piiType : string) : string :=
  if (len v <=? 4)%nat then Repeat star (len v) else keep_ends 1 v.

Definition strategy_partial (v piiType : string) : string :=
  if (len v <=? 4)%nat then Repeat star (len v)
  else if (len v <=? 6)%nat then keep_ends 1 v
  else keep_ends 2 v.

Definition placeholder (piiType : string) : string := "[REDACTED:" +:+ piiType +:+ "]".

Definition strategy_remove (v piiType : string) : string := placeholder piiType.

Definition strategy_hash (v piiType : string) : string :=
  "HASH_" +:+ slice (sha256_hex v) 0 8.

Record RedactionPlan := mkPlan {
  rp_Match : PolicyMatch;
  rp_Policy : CompiledPolicy;
  rp_Strategy : string;
  rp_FieldPath : string;
}.

Record FieldRedactor := mkRedactor {
  strategies : gmap string RedactorFunc;
  defaultStrategy : string;
}.

(** * Statement spans *)

Local Open Scope Z_scope.

Definition isSentenceTerminator (b : Z) : bool := (b =? 46) || (b =? 33) || (b =? 63) || (b =? 59).
Definition isASCIIUpper (b : Z) : bool := in_range 65 90 b.
Definition is_newline (b : Z) : bool := (b =? 10) || (b =? 13).
Definition is_blank (b : Z) : bool := (b =? 32) || (b =? 9).

Definition byte_test (f : Z -> bool) (text : string) (i : nat) : bool :=
  match byte_at text i with Some b => f b | None => false end.

Definition boundaryEndsStatement (text : string) (i : nat) : bool :=
  match byte_at text i with
  | None => false
  | Some c =>
      if is_newline c then true
      else if isSentenceTerminator c then
        match byte_at text (S i) with
        | None => true
        | Some n => is_blank n || is_newline n || isASCIIUpper n
        end
      else false
  end.

Fixpoint skip_blanks (l : list Z) : list Z :=
  match l with
  | b :: l' => if is_blank b then skip_blanks l' else l
  | [] => []
  end.

Definition boundaryBeforeStatement (text : string) (i : nat) : bool :=
  if (i =? 0)%nat then true
  else if byte_test is_newline text (i - 1) then true
  else match skip_blanks (rev (take i (bytes text))) with
       | b :: _ => isSentenceTerminator b
       | [] => false
       end.

Fixpoint span_start (text : string) (start : nat) : nat :=
  match start with
  | O => O
  | S start' => if boundaryBeforeStatement text start then start else span_start text start'
  end.

Fixpoint span_end (fuel : nat) (text : string) (end_ : nat) : nat :=
  match fuel with
  | O => end_
  | S f =>
      if (end_ <? len text)%nat && negb (boundaryEndsStatement text end_)
      then span_end f text (S end_) else end_
  end.

Fixpoint trim_start (fuel : nat) (text : string) (start mStart : nat) : nat :=
  match fuel with
  | O => start
  | S f =>
      if (start <? mStart)%nat && byte_test is_blank text start
      then trim_start f text (S start) mStart else start
  end.

Fixpoint trim_end (text : string) (end_ mEnd : nat) : nat :=
  match end_ with
  | O => O
  | S end' =>
      if (mEnd <? end_)%nat && byte_test is_blank text end' then trim_end text end' mEnd else end_
  end.

Definition statementSpan (text : string) (mStart mEnd : nat) : nat * nat :=
  let start := span_start text mStart in
  let end_ := span_end (len text - mEnd) text mEnd in
  (trim_start (mStart - start) text start mStart, trim_end text end_ mEnd).

(** * Replacement *)

(** [s[:a] + r + s[b:]] *)
Definition splice (s : string) (a b : nat) (r : string) : string :=
  slice s 0 a +:+ r +:+ slice s b (len s).

Record span_record := mkSpan { sp_start : nat; sp_end : nat; sp_text : string; sp_to : string }.

(** Replacement of the matches from the last to the first; the records are in
    processing order. *)
Definition apply_spans (f : string -> string) (locs : list (nat * nat)) (s : string)
  : string * list span_record :=
  foldr (fun loc acc =>
           let '(cur, recs) := acc in
           let matchText := slice cur loc.1 loc.2 in
           let redactedValue := f matchText in
           (splice cur loc.1 loc.2 redactedValue,
            recs ++ [mkSpan loc.1 loc.2 matchText redactedValue])) (s, []) locs.

(** Left-to-right reading of the same replacement; also
    [regexp.ReplaceAllStringFunc], whose matches are those of
    [FindAllStringIndex]. *)
Fixpoint rebuild (f : string -> string) (s : string) (lo : nat) (locs : list (nat * nat)) : string :=
  match locs with
  | [] => slice s lo (len s)
  | (a, b) :: l => slice s lo a +:+ f (slice s a b) +:+ rebuild f s b l
  end.

Definition ReplaceAllStringFunc (re : regex) (s : string) (f : string -> string) : string :=
  rebuild f s 0 (FindAllStringIndex re s).

(** * Statement removal *)

Record region := mkRegion { rg_start : nat; rg_end : nat; rg_piiType : string; rg_policyID : string }.

Definition region_before (a b : region) : bool := (rg_start a <? rg_start b)%nat.

(** The merge loop, [last] being the region under construction. *)
Fixpoint merge_regions (last : region) (l : list region) : list region :=
  match l with
  | [] => [last]
  | rg :: l' =>
      if (rg_start rg <=? rg_end last)%nat then
        merge_regions (if (rg_end last <? rg_end rg)%nat
                       then mkRegion (rg_start last) (rg_end rg) (rg_piiType last) (rg_policyID last)
                       else last) l'
      else last :: merge_regions rg l'
  end.

Definition merged_regions (l : list region) : list region :=
  match SliceStable region_before l with
  | [] => []
  | rg :: l' => merge_regions rg l'
  end.

Record statementRedaction := mkStmt { sr_matchText : string; sr_piiType : string; sr_policyID : string }.

Definition apply_regions (l : list region) (s : string) : string * list statementRedaction :=
  foldr (fun m acc =>
           let '(cur, recs) := acc in
           (splice cur (rg_start m) (rg_end m) (placeholder (rg_piiType m)),
            recs ++ [mkStmt (slice cur (rg_start m) (rg_end m)) (rg_piiType m) (rg_policyID m)]))
    (s, []) l.

Section Redactor.
Context `{U : Unicode} `{F : GoFormat}.

Definition strategy_tokenize (v piiType : string) : string :=
  "TOKEN_" +:+ ToUpper piiType +:+ "_" +:+ slice (sha256_hex v) 0 6.

Definition NewFieldRedactor : FieldRedactor :=
  mkRedactor
    (<[StrategyTokenize := strategy_tokenize]> (<[StrategyHash := strategy_hash]>
     (<[StrategyRemove := strategy_remove]> (<[StrategyPartial := strategy_partial]>
     (<[StrategyMask := strategy_mask]> ∅)))))
    StrategyMask.

Definition SetDefaultStrategy (r : FieldRedactor) (s : string) : FieldRedactor :=
  mkRedactor (strategies r) s.
Definition RegisterStrategy (r : FieldRedactor) (s : string) (f : RedactorFunc) : FieldRedactor :=
  mkRedactor (<[s := f]> (strategies r)) (defaultStrategy r).

(** The default strategy is registered; a redactor whose default is not would
    call a nil function. *)
Definition redactor_wf (r : FieldRedactor) : Prop := is_Some (strategies r !! defaultStrategy r).

Definition getStrategy (r : FieldRedactor) (strategy : string) : RedactorFunc :=
  match strategies r !! strategy with
  | Some fn => fn
  | None => default strategy_mask (strategies r !! defaultStrategy r)
  end.

Definition piiTypes : list string :=
  ["ssn"; "credit_card"; "iban"; "aadhaar"; "pan"; "email"; "phone"; "ip_address"; "bank_account";
   "passport"; "dob"; "driver_license"].

Definition getPIIType (p : CompiledPolicy) : string :=
  match find_first (Contains (ToLower (PolicyID p))) piiTypes with
  | Some t => t
  | None => Category p
  end.

Definition is_statement_plan (p : RedactionPlan) : bool :=
  str_eqb (rp_Strategy p) StrategyRemoveStatement.

Definition partitionStatementPlans (plans : list RedactionPlan)
  : list RedactionPlan * list RedactionPlan :=
  (List.filter is_statement_plan plans, List.filter (fun p => negb (is_statement_plan p)) plans).

Definition plan_regions (value : string) (plan : RedactionPlan) : list region :=
  match Compile (PatternStr (rp_Policy plan)) with
  | None => []
  | Some re =>
      (fun loc => let '(s, e) := statementSpan value loc.1 loc.2 in
                  mkRegion s e (getPIIType (rp_Policy plan)) (PolicyID (rp_Policy plan)))
        <$> FindAllStringIndex re value
  end.

Definition redactStatementsPlain (value : string) (statementPlans : list RedactionPlan)
  : string * list statementRedaction :=
  apply_regions (merged_regions (concat (plan_regions value <$> statementPlans))) value.

(** The leaf walk of [redactStatementsJSON]. *)
Fixpoint walk_statements (plans : list RedactionPlan) (n : value) : value * list statementRedaction :=
  match n with
  | VObj m =>
      let r := map (fun e => let '(v, a) := walk_statements plans e.2 in ((e.1, v), a)) m in
      (VObj (fst <$> r), concat (snd <$> r))
  | VArr l =>
      let r := map (walk_statements plans) l in
      (VArr (fst <$> r), concat (snd <$> r))
  | VString s => let '(s', a) := redactStatementsPlain s plans in (VString s', a)
  | _ => (n, [])
  end.

Definition redactStatementsJSON (value : string) (plans : list RedactionPlan)
  : option (string * list statementRedaction) :=
  match json_decode value with
  | None => None
  | Some root =>
      let '(root', applied) := walk_statements plans root in
      if (length applied =? 0)%nat then Some (value, [])
      else match json_encode false root' with
           | Some out => Some (out, applied)
           | None => None
           end
  end.

Definition redactStatements (value : string) (plans : list RedactionPlan)
  : string * list statementRedaction :=
  if (length plans =? 0)%nat then (value, [])
  else if json_valid value then
    match redactStatementsJSON value plans with
    | Some r => r
    | None => redactStatementsPlain value plans
    end
  else redactStatementsPlain value plans.

(** * Pattern map and flat masking *)

Definition pattern_map : Type := list (string * list RedactionPlan).

Fixpoint add_plan (pat : string) (plan : RedactionPlan) (m : pattern_map) : pattern_map :=
  match m with
  | [] => [(pat, [plan])]
  | (p, l) :: m' => if str_eqb p pat then (p, l ++ [plan]) :: m' else (p, l) :: add_plan pat plan m'
  end.

Definition buildPatternMap (plans : list RedactionPlan) : pattern_map :=
  foldl (fun m plan => add_plan (PatternStr (rp_Policy plan)) plan m) [] plans.

Record compiledRedactPattern := mkCompiled {
  cp_re : regex;
  cp_strategy : RedactorFunc;
  cp_piiType : string;
  cp_plan : RedactionPlan;
}.

(** A pattern that does not compile is skipped; a group's first plan decides. *)
Definition compilePatterns (r : FieldRedactor) (m : pattern_map) : list compiledRedactPattern :=
  omap (fun e => match Compile e.1, e.2 with
                 | Some re, plan :: _ =>
                     Some (mkCompiled re (getStrategy r (rp_Strategy plan))
                             (getPIIType (rp_Policy plan)) plan)
                 | _, _ => None
                 end) m.

Definition mask_with (p : compiledRedactPattern) (s : string) : string := cp_strategy p s (cp_piiType p).

Fixpoint maskFlat (s : string) (pats : list compiledRedactPattern) : string * nat :=
  match pats with
  | [] => (s, 0%nat)
  | p :: pats' =>
      let locs := FindAllStringIndex (cp_re p) s in
      let '(out, n) := maskFlat (apply_spans (mask_with p) locs s).1 pats' in
      (out, (length locs + n)%nat)
  end.

Fixpoint maskJSONNode (pats : list compiledRedactPattern) (node : value) : value * nat :=
  match node with
  | VObj m =>
      let r := map (fun e => let '(v, n) := maskJSONNode pats e.2 in ((e.1, v), n)) m in
      (VObj (fst <$> r), sum_list (snd <$> r))
  | VArr l =>
      let r := map (maskJSONNode pats) l in
      (VArr (fst <$> r), sum_list (snd <$> r))
  | VString s =>
      let '(m, n) := maskFlat s pats in if (0 <? n)%nat then (VString m, n) else (node, 0%nat)
  | VNumber lit =>
      let '(m, n) := maskFlat lit pats in if (0 <? n)%nat then (VString m, n) else (node, 0%nat)
  | _ => (node, 0%nat)
  end.

(** [None] is ok = false. *)
Definition redactJSONAware (jsonStr : string) (pats : list compiledRedactPattern)
  : option (string * bool) :=
  match json_decode jsonStr with
  | None => None
  | Some root =>
      let '(root', count) := maskJSONNode pats root in
      match json_encode false root' with
      | Some out => Some (out, (0 <? count)%nat)
      | None => None
      end
  end.

Definition anyPatternMatches (s : string) (pats : list compiledRedactPattern) : bool :=
  existsb (fun p => MatchString (cp_re p) s) pats.

(** [walk] and [check] are the compiled patterns of the two calls of
    [compilePatterns], each in its own range order. *)
Definition jsonSafeRemask (original flatMasked : string) (walk check : list compiledRedactPattern)
  : string :=
  if negb (json_valid original) then flatMasked
  else match redactJSONAware original walk with
       | None => flatMasked
       | Some (safe, masked) =>
           if negb masked then (if str_eqb flatMasked original then original else flatMasked)
           else if negb (anyPatternMatches safe check) then safe
           else flatMasked
       end.
End Redactor.

(** * Application to content *)

Section Apply.
Context `{U : Unicode} `{F : GoFormat}.
Context (r : FieldRedactor).
Context (ord : nat -> string -> pattern_map -> pattern_map).

Definition statement_fields (path : string) (applied : list statementRedaction) : list RedactedField :=
  (fun a => mkRedacted path (len (sr_matchText a)) (placeholder (sr_piiType a)) (sr_policyID a)
              (sr_piiType a)) <$> applied.

(** Statement removal on one text: the new text only counts when something
    was applied. *)
Definition statement_pass (text path : string) (plans : list RedactionPlan)
  : string * list RedactedField :=
  let '(sv, applied) := redactStatements text plans in
  if (0 <? length applied)%nat then (sv, statement_fields path applied) else (text, []).

(** The span loop of [applyToRows] and [applyToString]. *)
Fixpoint span_pass (pats : list compiledRedactPattern) (span_path : nat -> nat -> string)
    (text : string) : string * list RedactedField :=
  match pats with
  | [] => (text, [])
  | p :: pats' =>
      let '(text', recs) := apply_spans (mask_with p) (FindAllStringIndex (cp_re p) text) text in
      let '(out, rest) := span_pass pats' span_path text' in
      (out,
       ((fun s => mkRedacted (span_path (sp_start s) (sp_end s)) (len (sp_text s)) (sp_to s)
                    (PolicyID (rp_Policy (cp_plan p))) (cp_piiType p)) <$> recs) ++ rest)
  end.

(** The body shared by a row field and a plain string. *)
Definition redact_text (statement_path : string) (span_path : nat -> nat -> string)
    (plans : list RedactionPlan) (text : string) : string * list RedactedField :=
  let '(statementPlans, spanPlans) := partitionStatementPlans plans in
  let patternMap := buildPatternMap spanPlans in
  let '(afterStatements, red1) := statement_pass text statement_path statementPlans in
  let '(flat, red2) :=
    span_pass (compilePatterns r (ord 0 afterStatements patternMap)) span_path afterStatements in
  (jsonSafeRemask afterStatements flat
     (compilePatterns r (ord 1 afterStatements patternMap))
     (compilePatterns r (ord 2 afterStatements patternMap)), red1 ++ red2).

Definition row_path (rowIdx : nat) (fieldName : string) : string :=
  "rows[" +:+ Itoa (Z.of_nat rowIdx) +:+ "]." +:+ fieldName.

Definition redact_row_field (plans : list RedactionPlan) (rowIdx : nat) (e : string * value)
  : (string * value) * list RedactedField :=
  match e.2 with
  | VString s =>
      let path := row_path rowIdx e.1 in
      let '(s', red) := redact_text path (fun _ _ => path) plans s in
      ((e.1, VString s'), red)
  | v => ((e.1, v), [])
  end.

Definition applyToRows (rows : list (list (string * value))) (plans : list RedactionPlan)
  : value * list RedactedField :=
  let res := imap (fun i row => let fs := redact_row_field plans i <$> row in
                                (fst <$> fs, concat (snd <$> fs))) rows in
  (VRows (fst <$> res), concat (snd <$> res)).

(** The span loop of [applyToMap]: one record per pattern that changed the
    field, compared with the field's original text [v]. *)
Fixpoint map_pass (pats : list compiledRedactPattern) (fieldPath v text : string)
  : string * list RedactedField :=
  match pats with
  | [] => (text, [])
  | p :: pats' =>
      if MatchString (cp_re p) text then
        let text' := ReplaceAllStringFunc (cp_re p) text (mask_with p) in
        let '(out, rest) := map_pass pats' fieldPath v text' in
        (out,
         (if str_eqb text' v then []
          else [mkRedacted fieldPath (len text) text' (PolicyID (rp_Policy (cp_plan p))) (cp_piiType p)])
         ++ rest)
      else map_pass pats' fieldPath v text
  end.

Definition redact_map_string (plans : list RedactionPlan) (fieldPath v : string)
  : string * list RedactedField :=
  let '(statementPlans, spanPlans) := partitionStatementPlans plans in
  let patternMap := buildPatternMap spanPlans in
  let '(afterStatements, red1) := statement_pass v fieldPath statementPlans in
  let '(flat, red2) :=
    map_pass (compilePatterns r (ord 0 afterStatements patternMap)) fieldPath v afterStatements in
  (jsonSafeRemask afterStatements flat
     (compilePatterns r (ord 1 afterStatements patternMap))
     (compilePatterns r (ord 2 afterStatements patternMap)), red1 ++ red2).

Definition field_path (prefix key : string) : string :=
  if str_eqb prefix "" then key else prefix +:+ "." +:+ key.

Definition index_path (path : string) (i : nat) : string :=
  path +:+ "[" +:+ Itoa (Z.of_nat i) +:+ "]".

(** One value of a map: strings are redacted, maps recursively, arrays only
    in their map elements. *)
Fixpoint redact_node (plans : list RedactionPlan) (path : string) (v : value)
  : value * list RedactedField :=
  match v with
  | VString s => let '(s', red) := redact_map_string plans path s in (VString s', red)
  | VObj m =>
      let res := map (fun e => let '(v', red) := redact_node plans (field_path path e.1) e.2 in
                               ((e.1, v'), red)) m in
      (VObj (fst <$> res), concat (snd <$> res))
  | VArr l =>
      let fix items (i : nat) (l : list value) : list (value * list RedactedField) :=
        match l with
        | [] => []
        | item :: l' =>
            match item with
            | VObj _ => redact_node plans (index_path path i) item
            | _ => (item, [])
            end :: items (S i) l'
        end in
      let res := items 0%nat l in
      (VArr (fst <$> res), concat (snd <$> res))
  | _ => (v, [])
  end.

Definition applyToMap (m : list (string * value)) (plans : list RedactionPlan) (pathPrefix : string)
  : value * list RedactedField := redact_node plans pathPrefix (VObj m).

Definition applyToJSON (content : value) (plans : list RedactionPlan) : value * list RedactedField :=
  match content with
  | VObj m => applyToMap m plans ""
  | VArr arr =>
      (VArr arr,
       concat (imap (fun i item =>
                       match item with
                       | VObj m => (applyToMap m plans (index_path "" i)).2
                       | _ => []
                       end) arr))
  | _ => (content, [])
  end.

Definition string_path (a b : nat) : string :=
  "string[" +:+ Itoa (Z.of_nat a) +:+ ":" +:+ Itoa (Z.of_nat b) +:+ "]".

Definition applyToString (content : value) (plans : list RedactionPlan) : value * list RedactedField :=
  match content with
  | VString s =>
      let '(s', red) := redact_text "string" string_path plans s in (VString s', red)
  | _ => (content, [])
  end.

Definition Apply (content : value) (contentType : string) (plans : list RedactionPlan)
  : value * list RedactedField :=
  if (length plans =? 0)%nat then (content, [])
  else if str_eqb contentType "rows" then
    match content with VRows rows => applyToRows rows plans | _ => (content, []) end
  else if str_eqb contentType "json" then applyToJSON content plans
  else if str_eqb contentType "string" then applyToString content plans
  else match content with
       | VRows rows => applyToRows rows plans
       | VObj m => applyToMap m plans ""
       | VString _ => applyToString content plans
       | _ => (content, [])
       end.
End Apply.

(** * Strategy selection *)

Definition GetRedactionStrategy (category severity : string) : string :=
  if str_eqb category CategorySecurityDangerous then StrategyRemoveStatement
  else if str_eqb severity SeverityCritical then StrategyMask
  else if str_in category [CategoryPIIUS; CategoryPIIIndia; CategoryPIIEU; CategoryPIISingapore;
                           CategoryPIIIndonesia] then StrategyMask
  else if str_eqb category CategoryPIIGlobal then
    (if str_eqb severity SeverityHigh then StrategyMask else StrategyPartial)
  else if IsPIIPolicyCategory category then StrategyMask
  else StrategyRemove.
