(* ===== verification/Metrics.v ===== *)
(** The metrics collector (platform/shared/policy/metrics.go): counters and the
    audit entries handed to the audit queue. *)

From S2P Require Import Prelude GoFloat GoStrings Regexp PolicyTypes.

Local Open Scope Z_scope.

(** types.go: the options of one evaluation. *)
Record EvalOptions := mkOptions {
  eo_TenantID : string;
  eo_OrgID : string;
  eo_OrganizationID : option string;
  eo_UserID : string;
  eo_ConnectorName : string;
  eo_Parameters : list (string * value);
  eo_ToolIdentity : string;
  eo_Categories : list string;
  eo_SkipCategories : list string;
  eo_ActionOverrides : gmap string string;
  eo_MaxRedactions : Z;
}.

Definition set_tenant (t : string) (o : EvalOptions) : EvalOptions :=
  mkOptions t (eo_OrgID o) (eo_OrganizationID o) (eo_UserID o) (eo_ConnectorName o)
    (eo_Parameters o) (eo_ToolIdentity o) (eo_Categories o) (eo_SkipCategories o)
    (eo_ActionOverrides o) (eo_MaxRedactions o).

(** AuditEntry of type violation, with its details. *)
Record ViolationEntry := mkViolation {
  ve_Severity : string;
  ve_UserID : string;
  ve_TenantID : string;
  ve_OrgID : string;
  ve_policy_id : string;
  ve_policy_name : string;
  ve_category : string;
  ve_connector_name : string;
  ve_action : string;
}.

Record PolicyEvaluationEntry := mkEvaluationEntry {
  ee_Type : string;
  ee_TenantID : string;
  ee_OrganizationID : option string;
  ee_ConnectorName : string;
  ee_UserID : string;
  ee_PoliciesEvaluated : nat;
  ee_MatchedPolicies : list string;
  ee_Blocked : bool;
  ee_ProcessingTimeMs : Z;
}.

(** [auditQueue] holds the entries logged so far, newest last; [None] is a nil
    queue. *)
Record MetricsCollector := mkMetrics {
  auditQueue : option (list (ViolationEntry + PolicyEvaluationEntry));
  requestEvaluations : Z;
  responseEvaluations : Z;
  blockedRequests : Z;
  blockedResponses : Z;
  redactionsApplied : Z;
  policiesMatched : Z;
  requestTimeTotal : Z;
  responseTimeTotal : Z;
  loadErrors : Z;
  evaluationErrors : Z;
  emptySystemSetErrors : Z;
}.

Definition NewMetricsCollector (with_queue : bool) : MetricsCollector :=
  mkMetrics (if with_queue then Some [] else None) 0 0 0 0 0 0 0 0 0 0 0.

Definition log_entry (m : MetricsCollector) (e : ViolationEntry + PolicyEvaluationEntry)
  : MetricsCollector :=
  mkMetrics (fmap (fun q => q ++ [e]) (auditQueue m)) (requestEvaluations m) (responseEvaluations m)
    (blockedRequests m) (blockedResponses m) (redactionsApplied m) (policiesMatched m)
    (requestTimeTotal m) (responseTimeTotal m) (loadErrors m) (evaluationErrors m)
    (emptySystemSetErrors m).

Definition extractPolicyIDs (matches : list PolicyMatch) : list string := m_PolicyID <$> matches.

Definition b2z (b : bool) : Z := if b then 1 else 0.

Definition RecordEvaluation (m : MetricsCollector) (phase : string) (opts : EvalOptions)
    (matches : list PolicyMatch) (blocked : bool) (processingTimeMs : Z) : MetricsCollector :=
  let m1 :=
    if str_eqb phase "request" then
      mkMetrics (auditQueue m) (requestEvaluations m + 1) (responseEvaluations m)
        (blockedRequests m + b2z blocked) (blockedResponses m) (redactionsApplied m)
        (policiesMatched m + Z.of_nat (length matches))
        (requestTimeTotal m + processingTimeMs * 1000) (responseTimeTotal m)
        (loadErrors m) (evaluationErrors m) (emptySystemSetErrors m)
    else
      mkMetrics (auditQueue m) (requestEvaluations m) (responseEvaluations m + 1)
        (blockedRequests m) (blockedResponses m + b2z blocked) (redactionsApplied m)
        (policiesMatched m + Z.of_nat (length matches))
        (requestTimeTotal m) (responseTimeTotal m + processingTimeMs * 1000)
        (loadErrors m) (evaluationErrors m) (emptySystemSetErrors m) in
  log_entry m1 (inr (mkEvaluationEntry phase (eo_TenantID opts) (eo_OrganizationID opts)
                       (eo_ConnectorName opts) (eo_UserID opts) (length matches)
                       (extractPolicyIDs matches) blocked processingTimeMs)).

Definition RecordRedaction (m : MetricsCollector) (count : nat) : MetricsCollector :=
  mkMetrics (auditQueue m) (requestEvaluations m) (responseEvaluations m)
    (blockedRequests m) (blockedResponses m) (redactionsApplied m + Z.of_nat count) (policiesMatched m)
    (requestTimeTotal m) (responseTimeTotal m) (loadErrors m) (evaluationErrors m)
    (emptySystemSetErrors m).

Definition violation_entry (opts : EvalOptions) (p : CompiledPolicy) : ViolationEntry :=
  mkViolation (Severity p) (eo_UserID opts) (eo_TenantID opts) (eo_OrgID opts) (PolicyID p) (Name p)
    (Category p) (eo_ConnectorName opts) (GetActionForPhase p PhaseRequest).

Definition RecordViolation (m : MetricsCollector) (opts : EvalOptions) (p : CompiledPolicy)
    (matchText : string) : MetricsCollector := log_entry m (inl (violation_entry opts p)).

Definition RecordError (m : MetricsCollector) (errorType : string) : MetricsCollector :=
  mkMetrics (auditQueue m) (requestEvaluations m) (responseEvaluations m)
    (blockedRequests m) (blockedResponses m) (redactionsApplied m) (policiesMatched m)
    (requestTimeTotal m) (responseTimeTotal m)
    (loadErrors m + b2z (str_eqb errorType "load"))
    (evaluationErrors m + b2z (str_eqb errorType "evaluation"))
    (emptySystemSetErrors m + b2z (str_eqb errorType "load_empty_system_set")).

Definition MetricsReset (m : MetricsCollector) : MetricsCollector :=
  mkMetrics (auditQueue m) 0 0 0 0 0 0 0 0 0 0 0.
