(* ===== verification/Engine.v ===== *)
(** The unified policy engine (platform/shared/policy/engine.go): the request
    gate and the response scan, composed of the loader with its cache, the
    pattern evaluator, the redactor and the metrics collector.

    Times are arguments: [t0] of the cache lookup, [t1] of a cache store, [ms]
    the elapsed milliseconds reported to the metrics. The metrics goroutine
    started at the end of an evaluation is run at its return. *)

From S2P Require Import Prelude GoFloat GoStrings Regexp PolicyTypes GoJSON GoSha256 Validators.
From S2P Require Import Capability Evaluator PolicyCache Loader Redactor Metrics.

Local Open Scope Z_scope.

Record EngineConfig := mkConfig {
  CacheTTL : Z;
  MaxPatternCache : Z;
  EnableValidators : bool;
  EnableMetrics : bool;
  GracefulDegradation : bool;
  DefaultTenant : string;
  RefreshInterval : Z;
  ExtraTextDocumentTools : list string;
  DisableCapabilityScoping : bool;
}.

Definition DefaultEngineConfig : EngineConfig :=
  mkConfig 300000000000 1000 true true true "global" 30000000000 [] false.

Record Engine := mkEngine {
  en_db : option policy_db;
  en_cache : PolicyCache;
  en_evaluator : PatternEvaluator;
  en_redactor : FieldRedactor;
  en_metrics : MetricsCollector;
  en_config : EngineConfig;
  en_extra : gset string;
}.

Definition with_cache (e : Engine) (c : PolicyCache) : Engine :=
  mkEngine (en_db e) c (en_evaluator e) (en_redactor e) (en_metrics e) (en_config e) (en_extra e).
Definition with_evaluator (e : Engine) (ev : PatternEvaluator) : Engine :=
  mkEngine (en_db e) (en_cache e) ev (en_redactor e) (en_metrics e) (en_config e) (en_extra e).
Definition with_metrics (e : Engine) (m : MetricsCollector) : Engine :=
  mkEngine (en_db e) (en_cache e) (en_evaluator e) (en_redactor e) m (en_config e) (en_extra e).

Definition recordLoadError (e : Engine) (err : load_error) : Engine :=
  with_metrics e (RecordError (en_metrics e)
    (match err with ErrEmptySystemPolicySet => "load_empty_system_set" | _ => "load" end)).

(** The action of a policy after the category overrides of the options. *)
Definition effective_action (opts : EvalOptions) (p : CompiledPolicy) (phase : string) : string :=
  match eo_ActionOverrides opts !! Category p with
  | Some override => override
  | None => GetActionForPhase p phase
  end.

Definition block_reason (p : CompiledPolicy) : string :=
  if str_eqb (Description p) "" then "Blocked by policy: " +:+ Name p else Description p.

Section Engine.
Context `{U : Unicode} `{F : GoFormat}.
Context (ord : nat -> string -> pattern_map -> pattern_map).

Definition NewUnifiedPolicyEngine (db : option policy_db) (config : EngineConfig) (audit : bool)
  : Engine :=
  mkEngine db (NewPolicyCache (CacheTTL config)) (NewPatternEvaluator (EnableValidators config))
    NewFieldRedactor (NewMetricsCollector audit) config
    (buildToolNameSet (ExtraTextDocumentTools config)).

(** The default tenant, the load, and the two filters, common to both phases. *)
Definition effective_options (e : Engine) (opts : EvalOptions) : EvalOptions :=
  if str_eqb (eo_TenantID opts) "" then set_tenant (DefaultTenant (en_config e)) opts else opts.

Definition engine_policies (e : Engine) (t0 t1 : Z) (opts : EvalOptions) (phase : string)
  : result load_error (list CompiledPolicy) * Engine :=
  let '(r, c) := GetPolicies (en_cache e) (en_db e) t0 t1 (eo_TenantID opts)
                   (eo_OrganizationID opts) phase in
  (r, with_cache e c).

Definition effective_policies (e : Engine) (opts : EvalOptions) (policies : list CompiledPolicy)
  : list CompiledPolicy :=
  filterByToolCapability (DisableCapabilityScoping (en_config e)) (en_extra e)
    (filterByCategories policies (eo_Categories opts) (eo_SkipCategories opts))
    (eo_ToolIdentity opts).

(** * Request phase *)

(** The scan of the input: matches in policy order up to and including the
    first blocking one. *)
Fixpoint scan_input (ev : PatternEvaluator) (opts : EvalOptions) (input : string)
    (policies : list CompiledPolicy)
  : list PolicyMatch * option (CompiledPolicy * PolicyMatch) * PatternEvaluator :=
  match policies with
  | [] => ([], None, ev)
  | p :: rest =>
      match Evaluate ev input p with
      | (None, ev') => scan_input ev' opts input rest
      | (Some m, ev') =>
          let m := set_action (effective_action opts p PhaseRequest) m in
          if str_eqb (m_Action m) ActionBlock then ([m], Some (p, m), ev')
          else let '(ms, b, ev'') := scan_input ev' opts input rest in (m :: ms, b, ev'')
      end
  end.

Definition parameter_path (key : string) : string := "parameter '" +:+ key +:+ "'".

(** The scan of one parameter text: a policy that already matched drives the
    block decision but is not listed again. *)
Fixpoint scan_param (ev : PatternEvaluator) (opts : EvalOptions) (key text : string)
    (policies : list CompiledPolicy) (already : gset string)
  : list PolicyMatch * option (CompiledPolicy * PolicyMatch) * gset string * PatternEvaluator :=
  match policies with
  | [] => ([], None, already, ev)
  | p :: rest =>
      match Evaluate ev text p with
      | (None, ev') => scan_param ev' opts key text rest already
      | (Some m, ev') =>
          let m := set_field_path (parameter_path key)
                     (set_action (effective_action opts p PhaseRequest) m) in
          let new := if bool_decide (m_PolicyID m ∈ already) then [] else [m] in
          let already' := {[ m_PolicyID m ]} ∪ already in
          if str_eqb (m_Action m) ActionBlock then (new, Some (p, m), already', ev')
          else
            let '(ms, b, a, ev'') := scan_param ev' opts key text rest already' in
            (new ++ ms, b, a, ev'')
      end
  end.

(** The scanned text of a parameter; the empty text is not scanned. *)
Definition param_text (v : value) : string :=
  match v with
  | VString s => s
  | VObj _ | VArr _ => default "" (json_encode true v)
  | VFloat f => format_float f
  | VInt n => Itoa n
  | VBool _ => ""
  | _ => sprint_value v
  end.

Fixpoint scan_params (ev : PatternEvaluator) (opts : EvalOptions)
    (params : list (string * value)) (policies : list CompiledPolicy) (already : gset string)
  : list PolicyMatch * option (string * CompiledPolicy * PolicyMatch) * PatternEvaluator :=
  match params with
  | [] => ([], None, ev)
  | (key, v) :: rest =>
      if str_eqb (param_text v) "" then scan_params ev opts rest policies already
      else
        match scan_param ev opts key (param_text v) policies already with
        | (ms, Some (p, m), _, ev') => (ms, Some (key, p, m), ev')
        | (ms, None, already', ev') =>
            let '(ms', b, ev'') := scan_params ev' opts rest policies already' in
            (ms ++ ms', b, ev'')
        end
  end.

Definition load_failure_request : RequestResult :=
  mkRequestResult true None "Policy engine unavailable" true 0 [].

(** The verdict on a loaded and filtered policy list. *)
Definition request_verdict (ev : PatternEvaluator) (opts : EvalOptions) (input : string)
    (evaluated : nat) (policies : list CompiledPolicy)
  : RequestResult * option (CompiledPolicy * PolicyMatch) * PatternEvaluator :=
  match scan_input ev opts input policies with
  | (ms, Some (p, m), ev1) =>
      (mkRequestResult true (Some p) (block_reason p) false evaluated ms, Some (p, m), ev1)
  | (ms, None, ev1) =>
      match scan_params ev1 opts (eo_Parameters opts) policies (list_to_set (m_PolicyID <$> ms)) with
      | (ms', Some (key, p, m), ev2) =>
          (mkRequestResult true (Some p)
             ("Blocked by policy " +:+ Name p +:+ " in parameter '" +:+ key +:+ "'")
             false evaluated (ms ++ ms'), Some (p, m), ev2)
      | (ms', None, ev2) => (mkRequestResult false None "" false evaluated (ms ++ ms'), None, ev2)
      end
  end.

Definition EvaluateRequest (e : Engine) (t0 t1 ms : Z) (input : string) (opts0 : EvalOptions)
  : RequestResult * Engine :=
  let opts := effective_options e opts0 in
  match engine_policies e t0 t1 opts PhaseRequest with
  | (Err err, e1) => (load_failure_request, recordLoadError e1 err)
  | (Ok policies, e1) =>
      let '(res, violation, ev) :=
        request_verdict (en_evaluator e1) opts input (length policies)
          (effective_policies e1 opts policies) in
      let e2 := with_evaluator e1 ev in
      let e3 := match violation with
                | Some (p, m) => with_metrics e2 (RecordViolation (en_metrics e2) opts p (m_MatchText m))
                | None => e2
                end in
      let e4 := if EnableMetrics (en_config e3)
                then with_metrics e3 (RecordEvaluation (en_metrics e3) "request" opts
                                        (rq_MatchedPolicies res) (rq_Blocked res) ms)
                else e3 in
      (res, e4)
  end.

(** * Response phase *)

(** [appendStrings] on one value of a map: strings, nested maps, and the map
    elements of arrays. *)
Fixpoint scan_strings (v : value) : string :=
  match v with
  | VString s => s +:+ " "
  | VObj m => foldr (fun e acc => scan_strings e.2 +:+ acc) "" m
  | VArr l =>
      foldr (fun item acc => match item with VObj _ => scan_strings item | _ => "" end +:+ acc) "" l
  | _ => ""
  end.

Definition row_strings (row : list (string * value)) : string :=
  foldr (fun e acc => match e.2 with VString s => s +:+ " " | _ => "" end +:+ acc) "" row.

Definition toScannable (content : value) : string :=
  match content with
  | VString s => s
  | VRows rows => foldr (fun row acc => row_strings row +:+ acc) "" rows
  | VObj _ => scan_strings content
  | _ => sprint_value content
  end.

Definition detectContentType (content : value) : string :=
  match content with
  | VRows _ => "rows"
  | VObj _ => "json"
  | VString _ => "string"
  | _ => "unknown"
  end.

(** All matches of all policies with their effective action. *)
Fixpoint scan_response (ev : PatternEvaluator) (opts : EvalOptions) (text : string)
    (policies : list CompiledPolicy) : list (CompiledPolicy * PolicyMatch) * PatternEvaluator :=
  match policies with
  | [] => ([], ev)
  | p :: rest =>
      let '(ms, ev') := EvaluateAll ev text p in
      let '(l, ev'') := scan_response ev' opts text rest in
      (((fun m => (p, set_action (effective_action opts p PhaseResponse) m)) <$> ms) ++ l, ev'')
  end.

Definition has_action (a : string) (pm : CompiledPolicy * PolicyMatch) : bool :=
  str_eqb (m_Action pm.2) a.

Definition redaction_plan (pm : CompiledPolicy * PolicyMatch) : RedactionPlan :=
  mkPlan pm.2 pm.1 (GetRedactionStrategy (Category pm.1) (Severity pm.1)) "".

(** The cap keeps every statement plan and the first [budget] others. *)
Fixpoint cap_loop (plans : list RedactionPlan) (budget : Z) : list RedactionPlan :=
  match plans with
  | [] => []
  | p :: rest =>
      if is_statement_plan p then p :: cap_loop rest budget
      else if 0 <? budget then p :: cap_loop rest (budget - 1)
      else cap_loop rest budget
  end.

Definition cap_plans (maxRedactions : Z) (plans : list RedactionPlan) : list RedactionPlan :=
  if (0 <? maxRedactions) && (maxRedactions <? Z.of_nat (length plans))
  then cap_loop plans maxRedactions else plans.

(** The last blocking match decides the reported policy. *)
Definition response_verdict (r : FieldRedactor) (ev : PatternEvaluator) (opts : EvalOptions)
    (content : value) (evaluated : nat) (policies : list CompiledPolicy)
  : ResponseResult * list (CompiledPolicy * PolicyMatch) * PatternEvaluator :=
  let scannable := toScannable content in
  if str_eqb scannable "" then
    (mkResponseResult false None "" false content false [] evaluated [], [], ev)
  else
    let '(pms, ev') := scan_response ev opts scannable policies in
    let blocks := List.filter (has_action ActionBlock) pms in
    let plans := redaction_plan <$> List.filter (has_action ActionRedact) pms in
    match last blocks with
    | Some (p, m) =>
        (mkResponseResult true (Some p) (block_reason p) false content false [] evaluated
           (snd <$> pms), pms, ev')
    | None =>
        let '(content', fields) :=
          if (length plans =? 0)%nat then (content, [])
          else Apply r ord content (detectContentType content)
                 (cap_plans (eo_MaxRedactions opts) plans) in
        (mkResponseResult false None "" false content' (0 <? length fields)%nat fields evaluated
           (snd <$> pms), pms, ev')
    end.

Definition record_violations (m : MetricsCollector) (opts : EvalOptions)
    (pms : list (CompiledPolicy * PolicyMatch)) : MetricsCollector :=
  foldl (fun m pm => RecordViolation m opts pm.1 (m_MatchText pm.2)) m
    (List.filter (has_action ActionBlock) pms).

Definition EvaluateResponse (e : Engine) (t0 t1 ms : Z) (content : value) (opts0 : EvalOptions)
  : ResponseResult * Engine :=
  let opts := effective_options e opts0 in
  match engine_policies e t0 t1 opts PhaseResponse with
  | (Err err, e1) =>
      (if GracefulDegradation (en_config e)
       then mkResponseResult false None "" true content false [] 0 []
       else mkResponseResult true None "Policy engine unavailable" true content false [] 0 [],
       recordLoadError e1 err)
  | (Ok policies, e1) =>
      let '(res, pms, ev) :=
        response_verdict (en_redactor e1) (en_evaluator e1) opts content (length policies)
          (effective_policies e1 opts policies) in
      let e2 := with_evaluator e1 ev in
      if str_eqb (toScannable content) "" then (res, e2)
      else
        let e3 := with_metrics e2 (record_violations (en_metrics e2) opts pms) in
        let e4 := if negb (rs_Blocked res) && existsb (has_action ActionRedact) pms
                  then with_metrics e3 (RecordRedaction (en_metrics e3) (length (rs_RedactedFields res)))
                  else e3 in
        let e5 := if EnableMetrics (en_config e4)
                  then with_metrics e4 (RecordEvaluation (en_metrics e4) "response" opts
                                          (rs_MatchedPolicies res) (rs_Blocked res) ms)
                  else e4 in
        (res, e5)
  end.

(** * Policy-derived category scoping *)

Fixpoint dedup_categories (policies : list CompiledPolicy) (seen : gset string) : list string :=
  match policies with
  | [] => []
  | p :: rest =>
      if negb (Enabled p) then dedup_categories rest seen
      else if IsPIIPolicyCategory (Category p) && negb (bool_decide (Category p ∈ seen))
      then Category p :: dedup_categories rest ({[ Category p ]} ∪ seen)
      else dedup_categories rest seen
  end.

Definition EnabledPIICategories (e : Engine) (t0 t1 : Z) (tenantID : string) (orgID : option string)
    (phase : string) : list string * Engine :=
  match GetPolicies (en_cache e) (en_db e) t0 t1 tenantID orgID phase with
  | (Err _, c) => ([], with_cache e c)
  | (Ok policies, c) => (dedup_categories policies ∅, with_cache e c)
  end.

Definition enabled_single (cat : string) (e : Engine) (t0 t1 : Z) (tenantID : string)
    (orgID : option string) (phase : string) : list string * Engine :=
  match GetPolicies (en_cache e) (en_db e) t0 t1 tenantID orgID phase with
  | (Err _, c) => ([], with_cache e c)
  | (Ok policies, c) =>
      (if existsb (fun p => Enabled p && str_eqb (Category p) cat) policies then [cat] else [],
       with_cache e c)
  end.

Definition EnabledSensitiveDataCategories := enabled_single CategorySensitiveData.
Definition EnabledSecurityDangerousCategories := enabled_single CategorySecurityDangerous.

(** [None] is a nil error. *)
Definition PoliciesLoadable (e : Engine) (t0 t1 : Z) (tenantID : string) (orgID : option string)
    (phase : string) : option load_error * Engine :=
  let tenantID := if str_eqb tenantID "" then DefaultTenant (en_config e) else tenantID in
  match GetPolicies (en_cache e) (en_db e) t0 t1 tenantID orgID phase with
  | (Err err, c) => (Some err, with_cache e c)
  | (Ok _, c) => (None, with_cache e c)
  end.

Definition InvalidateCache (e : Engine) (tenantID : string) (orgID : option string) : Engine :=
  with_cache e (Invalidate (en_cache e) tenantID orgID).

Definition InvalidateAllCaches (e : Engine) : Engine := with_cache e (InvalidateAll (en_cache e)).

Definition GetRedactedFieldPaths (res : option ResponseResult) : list string :=
  match res with
  | None => []
  | Some r => rf_Path <$> rs_RedactedFields r
  end.
End Engine.
