(* ===== verification/EngineFacts.v ===== *)
(** Correctness of the policy engine: the request gate blocks exactly when it
    must, fails closed when policies cannot be loaded, does not depend on the
    order in which a map is visited; the response scan reports, blocks and
    redacts as specified, with the limits of its coverage made explicit. *)

From S2P Require Import Prelude GoFloat GoStrings Regexp PolicyTypes GoJSON GoSha256 Validators.
From S2P Require Import Capability Evaluator PolicyCache Loader Redactor Metrics Engine.

Local Open Scope Z_scope.

Section Facts.
Context `{U : Unicode} `{F : GoFormat}.
Implicit Types (ev : PatternEvaluator) (p : CompiledPolicy) (opts : EvalOptions).

(** * The request scans *)

Definition hits ev (text : string) p : bool :=
  match eval_first ev text p with Some _ => true | None => false end.

(** A policy blocks a text: it matches and its effective action is block. *)
Definition blocks ev opts (text : string) p : bool :=
  hits ev text p && str_eqb (effective_action opts p PhaseRequest) ActionBlock.

(** An evaluator state that evaluates like [ev0]. *)
Definition like ev0 ev : Prop := evaluator_wf ev /\ same_config ev0 ev.

Lemma Evaluate_like ev0 ev text p :
  like ev0 ev ->
  let '(m, ev') := Evaluate ev text p in m = eval_first ev0 text p /\ like ev0 ev'.
Proof.
  intros [Hwf Hc]. pose proof (Evaluate_spec ev text p Hwf) as H.
  destruct (Evaluate ev text p) as [m ev']. destruct H as (-> & Hwf' & Hc').
  split; [symmetry; by apply eval_first_config|]. split; [done|].
  unfold same_config in *. intuition congruence.
Qed.

Lemma eval_first_id ev text p m : eval_first ev text p = Some m -> m_PolicyID m = PolicyID p.
Proof.
  unfold eval_first. repeat case_match; try done. intros Hm. by apply span_match_inv in Hm as [? _].
Qed.

Lemma scan_input_spec ev0 ev opts text ps :
  like ev0 ev ->
  let '(ms, b, ev') := scan_input ev opts text ps in
  like ev0 ev' /\ fst <$> b = find_first (blocks ev0 opts text) ps /\
  (m_PolicyID <$> ms) `sublist_of` (PolicyID <$> ps) /\
  (forall pm, b = Some pm -> m_Action pm.2 = ActionBlock).
Proof.
  revert ev. induction ps as [|p ps IH]; intros ev Hl; cbn [scan_input find_first fmap list_fmap].
  { split_and!; done || constructor. }
  pose proof (Evaluate_like ev0 ev text p Hl) as He.
  destruct (Evaluate ev text p) as [[m|] ev']; destruct He as [He Hl'].
  - assert (Hh : hits ev0 text p = true) by (unfold hits; by rewrite <- He).
    symmetry in He. apply eval_first_id in He. unfold blocks at 1. rewrite Hh.
    cbn [m_Action set_action andb].
    destruct (str_eqb (effective_action opts p PhaseRequest) ActionBlock) eqn:E.
    + split_and!; [done|done| |].
      * cbn [fmap list_fmap m_PolicyID set_action]. rewrite He. apply sublist_skip, sublist_nil_l.
      * intros ? [= <-]. by apply str_eqb_true in E.
    + specialize (IH ev' Hl'). destruct (scan_input ev' opts text ps) as [[ms b] ev''].
      destruct IH as (H1 & H2 & H3 & H4). split_and!; try done.
      cbn [fmap list_fmap m_PolicyID set_action]. rewrite He. by apply sublist_skip.
  - assert (Hh : hits ev0 text p = false) by (unfold hits; by rewrite <- He).
    unfold blocks at 1. rewrite Hh. simpl.
    specialize (IH ev' Hl'). destruct (scan_input ev' opts text ps) as [[ms b] ev''].
    destruct IH as (H1 & H2 & H3 & H4). split_and!; try done. by apply sublist_cons.
Qed.

Lemma scan_param_spec ev0 ev opts key text ps already :
  like ev0 ev ->
  let '(ms, b, already', ev') := scan_param ev opts key text ps already in
  like ev0 ev' /\ fst <$> b = find_first (blocks ev0 opts text) ps /\
  NoDup (m_PolicyID <$> ms) /\
  (forall i, i ∈ (m_PolicyID <$> ms) -> (i ∉ already) /\ (i ∈ already')) /\
  already ⊆ already' /\
  (forall m, m ∈ ms -> m_FieldPath m = parameter_path key).
Proof.
  revert ev already. induction ps as [|p ps IH]; intros ev already Hl;
    cbn [scan_param find_first].
  { split_and!; try done; [constructor|by intros ? ?%elem_of_nil|by intros ? ?%elem_of_nil]. }
  pose proof (Evaluate_like ev0 ev text p Hl) as He.
  destruct (Evaluate ev text p) as [[m|] ev']; destruct He as [He Hl'].
  - assert (Hh : hits ev0 text p = true) by (unfold hits; by rewrite <- He).
    unfold blocks at 1. rewrite Hh.
    set (m' := set_field_path _ _). cbn [andb].
    change (m_Action m') with (effective_action opts p PhaseRequest).
    change (m_PolicyID m') with (m_PolicyID m).
    set (new := if bool_decide _ then [] else [m']).
    assert (Hnew : NoDup (m_PolicyID <$> new) /\
      (forall i, i ∈ (m_PolicyID <$> new) -> (i ∉ already) /\ (i ∈ {[m_PolicyID m]} ∪ already)) /\
      (forall x, x ∈ new -> m_FieldPath x = parameter_path key)).
    { subst new. case_bool_decide; simpl.
      - split_and!; [constructor|by intros ? ?%elem_of_nil|by intros ? ?%elem_of_nil].
      - split_and!; [apply NoDup_singleton| |].
        + intros i ->%list_elem_of_singleton. set_solver.
        + by intros x ->%list_elem_of_singleton. }
    destruct Hnew as (N1 & N2 & N3).
    destruct (str_eqb (effective_action opts p PhaseRequest) ActionBlock).
    + split_and!; try done. set_solver.
    + specialize (IH ev' ({[m_PolicyID m]} ∪ already) Hl').
      destruct (scan_param ev' opts key text ps _) as [[[ms b] a] ev''].
      destruct IH as (H1 & H2 & H3 & H4 & H5 & H6). split_and!; try done.
      * rewrite fmap_app. apply NoDup_app. split_and!; try done.
        intros i [_ Hi]%N2 [Hn _]%H4. done.
      * intros i. rewrite fmap_app, elem_of_app.
        intros [[? ?]%N2|[? ?]%H4]; split; set_solver.
      * set_solver.
      * intros x [?|?]%elem_of_app; auto.
  - assert (Hh : hits ev0 text p = false) by (unfold hits; by rewrite <- He).
    unfold blocks at 1. rewrite Hh. simpl. by apply IH.
Qed.

Definition param_blocked ev opts ps (kv : string * value) : bool :=
  negb (str_eqb (param_text kv.2) "") && existsb (blocks ev opts (param_text kv.2)) ps.

Lemma find_first_existsb {A} (f : A -> bool) l :
  existsb f l = match find_first f l with Some _ => true | None => false end.
Proof. induction l as [|x l IH]; simpl; [done|]. by destruct (f x). Qed.

Lemma scan_params_spec ev0 ev opts params ps already :
  like ev0 ev ->
  let '(ms, b, ev') := scan_params ev opts params ps already in
  like ev0 ev' /\
  match b with Some _ => true | None => false end = existsb (param_blocked ev0 opts ps) params /\
  (forall k p m, b = Some (k, p, m) ->
     exists v, (k, v) ∈ params /\ p ∈ ps /\ blocks ev0 opts (param_text v) p = true) /\
  NoDup (m_PolicyID <$> ms) /\ (forall i, i ∈ (m_PolicyID <$> ms) -> i ∉ already).
Proof.
  revert ev already. induction params as [|[key v] params IH]; intros ev already Hl;
    cbn [scan_params existsb].
  { split_and!; try done; [constructor|by intros ? ?%elem_of_nil]. }
  unfold param_blocked at 1. cbn [snd].
  destruct (str_eqb (param_text v) "") eqn:Et; simpl.
  { specialize (IH ev already Hl). destruct (scan_params ev opts params ps already) as [[ms b] ev'].
    destruct IH as (H1 & H2 & H3 & H4). split_and!; try done; try apply H4.
    intros k p m Hb. destruct (H3 _ _ _ Hb) as (v' & ? & ?). exists v'. split; [by right|done]. }
  pose proof (scan_param_spec ev0 ev opts key (param_text v) ps already Hl) as Hp.
  destruct (scan_param ev opts key (param_text v) ps already) as [[[ms b] a] ev'].
  destruct Hp as (P1 & P2 & P3 & P4 & P5 & _). rewrite find_first_existsb, <- P2.
  destruct b as [[p m]|]; simpl.
  - split_and!; try done; [|by intros i [? _]%P4].
    intros k p' m' [= <- <- <-]. symmetry in P2. apply find_first_Some in P2 as [? ?].
    exists v. split; [left|done].
  - specialize (IH ev' a P1). destruct (scan_params ev' opts params ps a) as [[ms' b'] ev''].
    destruct IH as (H1 & H2 & H3 & H4 & H5). split_and!; try done.
    + intros k p m Hb. destruct (H3 _ _ _ Hb) as (v' & ? & ?). exists v'. split; [by right|done].
    + rewrite fmap_app. apply NoDup_app. split_and!; try done.
      intros i [_ Hi]%P4 Hn%H5. done.
    + intros i. rewrite fmap_app, elem_of_app. intros [[? _]%P4|Hn%H5]; set_solver.
Qed.

(** When the gate must block, on a loaded policy list. *)
Definition must_block ev opts (input : string) ps : bool :=
  existsb (blocks ev opts input) ps || existsb (param_blocked ev opts ps) (eo_Parameters opts).

Lemma request_verdict_spec ev opts input n ps :
  evaluator_wf ev ->
  let '(res, viol, ev') := request_verdict ev opts input n ps in
  like ev ev' /\ rq_Blocked res = must_block ev opts input ps /\ rq_EvaluationError res = false /\
  rq_PoliciesEvaluated res = n /\
  (forall p, rq_BlockedBy res = Some p ->
     p ∈ ps /\ effective_action opts p PhaseRequest = ActionBlock) /\
  (forall p, find_first (blocks ev opts input) ps = Some p -> rq_BlockedBy res = Some p) /\
  (NoDup (PolicyID <$> ps) -> NoDup (m_PolicyID <$> rq_MatchedPolicies res)).
Proof.
  intros Hwf. assert (Hl : like ev ev) by (split; done).
  unfold request_verdict, must_block.
  pose proof (scan_input_spec ev ev opts input ps Hl) as Hs.
  destruct (scan_input ev opts input ps) as [[ms b] ev1]. destruct Hs as (S1 & S2 & S3 & _).
  assert (Hnd : NoDup (PolicyID <$> ps) -> NoDup (m_PolicyID <$> ms))
    by (intros; by eapply sublist_NoDup).
  rewrite (find_first_existsb (blocks ev opts input)), <- S2.
  destruct b as [[p m]|]; simpl.
  { split_and!; try done.
    intros q [= <-]. symmetry in S2. apply find_first_Some in S2 as [? Hb]. split; [done|].
    unfold blocks in Hb. bool_simpl. by apply str_eqb_true. }
  pose proof (scan_params_spec ev ev1 opts (eo_Parameters opts) ps
                (list_to_set (m_PolicyID <$> ms)) S1) as Hp.
  destruct (scan_params ev1 opts (eo_Parameters opts) ps _) as [[ms' b'] ev2].
  destruct Hp as (P1 & P2 & P3 & P4 & P5).
  assert (Hnd' : NoDup (PolicyID <$> ps) -> NoDup (m_PolicyID <$> (ms ++ ms'))).
  { intros. rewrite fmap_app. apply NoDup_app. split_and!; [auto| |done].
    intros i Hi Hn%P5. apply Hn. by apply elem_of_list_to_set. }
  rewrite <- P2. destruct b' as [[[k p] m]|]; simpl; split_and!; try done.
  intros q [= <-]. destruct (P3 _ _ _ eq_refl) as (v & _ & Hin & Hb). split; [done|].
  unfold blocks in Hb. bool_simpl. by apply str_eqb_true.
Qed.
Lemma GetPolicies_err c db t0 t1 t o phase err :
  (GetPolicies c db t0 t1 t o phase).1 = Err err <->
  (Get c t0 t o phase).1 = None /\ loadFromDatabase db t o = Err err.
Proof.
  unfold GetPolicies. destruct (Get c t0 t o phase) as [[l|] c']; simpl; [naive_solver|].
  destruct (loadFromDatabase db t o); simpl; naive_solver.
Qed.

Lemma EvaluateRequest_ok e t0 t1 ms input opts ps :
  (engine_policies e t0 t1 (effective_options e opts) PhaseRequest).1 = Ok ps ->
  (EvaluateRequest e t0 t1 ms input opts).1 =
  (request_verdict (en_evaluator e) (effective_options e opts) input (length ps)
     (effective_policies e (effective_options e opts) ps)).1.1.
Proof.
  unfold EvaluateRequest, engine_policies. destruct (GetPolicies _ _ _ _ _ _ _) as [r c].
  simpl. intros ->. simpl. unfold effective_policies. simpl.
  by destruct (request_verdict _ _ _ _ _) as [[res v] ev].
Qed.

(** C3: The request gate fails closed. The policies are unavailable when no live cache
    entry answers and the load fails (outage, blank scope, or the empty-system-set guard).
    A request is answered with [EvaluationError] if and only if they are; and whenever they
    are it is blocked, by no policy and with no match, for every input and whatever the
    configuration says about graceful degradation, which the configuration's documentation
    excepts the request plane from. *)
Theorem request_fails_closed (e : Engine) (t0 t1 ms : Z) (input : string) (opts : EvalOptions) :
  evaluator_wf (en_evaluator e) ->
  let o := effective_options e opts in
  let res := (EvaluateRequest e t0 t1 ms input opts).1 in
  let unavailable :=
    (Get (en_cache e) t0 (eo_TenantID o) (eo_OrganizationID o) PhaseRequest).1 = None /\
    is_ok (loadFromDatabase (en_db e) (eo_TenantID o) (eo_OrganizationID o)) = false in
  (rq_EvaluationError res = true <-> unavailable) /\
  (unavailable -> rq_Blocked res = true /\ rq_BlockedBy res = None /\ rq_MatchedPolicies res = []).
Proof.
  intros Hwf o res unavailable.
  destruct (engine_policies e t0 t1 o PhaseRequest).1 as [ps|err] eqn:El.
  - assert (Hno : ~ unavailable).
    { intros [Hg Hd]. unfold engine_policies, GetPolicies in El.
      destruct (Get _ _ _ _ _) as [g c']. simpl in Hg. subst g.
      by destruct (loadFromDatabase _ _ _). }
    pose proof (EvaluateRequest_ok e t0 t1 ms input opts ps El) as Hr.
    pose proof (request_verdict_spec (en_evaluator e) o input (length ps) (effective_policies e o ps) Hwf) as Hv.
    fold o in Hr. fold res in Hr. rewrite Hr.
    destruct (request_verdict _ _ _ _ _) as [[r v] ev]. destruct Hv as (_ & _ & Hv & _).
    simpl. rewrite Hv. naive_solver.
  - assert (Hr : res = load_failure_request).
    { unfold res, EvaluateRequest. fold o. destruct (engine_policies e t0 t1 o PhaseRequest) as [r e1].
      simpl in El. by subst. }
    rewrite Hr. split; [|done]. split; [intros _|done].
    unfold engine_policies in El.
    destruct (GetPolicies _ _ _ _ _ _ _) as [r c] eqn:Eg. simpl in El. subst.
    assert (H : (GetPolicies (en_cache e) (en_db e) t0 t1 (eo_TenantID o) (eo_OrganizationID o) PhaseRequest).1 = Err err)
      by (by rewrite Eg).
    apply GetPolicies_err in H as [? ?]. split; [done|]. by destruct (loadFromDatabase _ _ _).
Qed.

(** C4: The gate blocks exactly when it must: with policies loaded, a request is
    blocked if and only if some enabled policy that survives the category
    and capability filters has the effective action block (overrides
    included) and matches the input or the text of some parameter. *)
Theorem request_blocked_iff (e : Engine) (t0 t1 ms : Z) (input : string) (opts : EvalOptions)
    (ps : list CompiledPolicy) :
  evaluator_wf (en_evaluator e) ->
  let o := effective_options e opts in
  (engine_policies e t0 t1 o PhaseRequest).1 = Ok ps ->
  rq_Blocked (EvaluateRequest e t0 t1 ms input opts).1 = true <->
  exists p, p ∈ effective_policies e o ps /\
    effective_action o p PhaseRequest = ActionBlock /\
    (is_Some (eval_first (en_evaluator e) input p) \/
     exists k v, (k, v) ∈ eo_Parameters o /\ param_text v <> "" /\
                 is_Some (eval_first (en_evaluator e) (param_text v) p)).
Proof.
  intros Hwf o Hl. rewrite (EvaluateRequest_ok e t0 t1 ms input opts ps Hl). fold o.
  pose proof (request_verdict_spec (en_evaluator e) o input (length ps) (effective_policies e o ps) Hwf) as Hv.
  destruct (request_verdict _ _ _ _ _) as [[r v] ev]. destruct Hv as (_ & Hb & _).
  cbn [fst]. rewrite Hb. unfold must_block.
  assert (Hbl : forall t p, blocks (en_evaluator e) o t p = true <->
            effective_action o p PhaseRequest = ActionBlock /\ is_Some (eval_first (en_evaluator e) t p)).
  { intros t p. unfold blocks, hits. rewrite andb_true_iff, str_eqb_true, <- not_eq_None_Some.
    destruct (eval_first _ t p); naive_solver. }
  rewrite orb_true_iff, !existsb_In. setoid_rewrite Hbl. unfold param_blocked.
  setoid_rewrite andb_true_iff. setoid_rewrite existsb_In. setoid_rewrite Hbl.
  setoid_rewrite negb_true_iff. setoid_rewrite str_eqb_false. split.
  - intros [(p & ? & ? & ?)|([k w] & ? & ? & p & ? & ? & ?)]; [eauto 10|].
    exists p. split_and!; auto. right. eauto 10.
  - intros (p & Hp & Ha & [Hi|(k & w & ? & ? & ?)]); [left; eauto 10|].
    right. exists (k, w). split_and!; auto. eauto.
Qed.

(** The verdict does not depend on map iteration order: two requests that
    differ only in the order in which the parameters are visited are both
    blocked or both allowed. *)
Theorem request_order_independent (e : Engine) (t0 t1 ms : Z) (input : string)
    (opts opts' : EvalOptions) :
  evaluator_wf (en_evaluator e) ->
  eo_Parameters opts ≡ₚ eo_Parameters opts' ->
  opts' = mkOptions (eo_TenantID opts) (eo_OrgID opts) (eo_OrganizationID opts) (eo_UserID opts)
            (eo_ConnectorName opts) (eo_Parameters opts') (eo_ToolIdentity opts)
            (eo_Categories opts) (eo_SkipCategories opts) (eo_ActionOverrides opts)
            (eo_MaxRedactions opts) ->
  rq_Blocked (EvaluateRequest e t0 t1 ms input opts).1 =
  rq_Blocked (EvaluateRequest e t0 t1 ms input opts').1.
Proof.
  intros Hwf HP Heq.
  set (o := effective_options e opts). set (o' := effective_options e opts').
  assert (Ho : eo_TenantID o = eo_TenantID o' /\ eo_OrganizationID o = eo_OrganizationID o' /\
               eo_Parameters o ≡ₚ eo_Parameters o' /\ eo_ActionOverrides o = eo_ActionOverrides o' /\
               forall ps, effective_policies e o ps = effective_policies e o' ps).
  { subst o o'. unfold effective_options. rewrite Heq. simpl.
    destruct (str_eqb (eo_TenantID opts) ""); simpl; split_and!; try done. }
  destruct Ho as (H1 & H2 & H3 & H4 & H5).
  assert (Hep : engine_policies e t0 t1 o PhaseRequest = engine_policies e t0 t1 o' PhaseRequest)
    by (unfold engine_policies; by rewrite H1, H2).
  destruct (engine_policies e t0 t1 o PhaseRequest).1 as [ps|err] eqn:El.
  - rewrite (EvaluateRequest_ok e t0 t1 ms input opts ps El).
    rewrite (EvaluateRequest_ok e t0 t1 ms input opts' ps) by (fold o'; by rewrite <- Hep).
    fold o o'. rewrite <- H5.
    pose proof (request_verdict_spec (en_evaluator e) o input (length ps) (effective_policies e o ps) Hwf) as Hv.
    pose proof (request_verdict_spec (en_evaluator e) o' input (length ps) (effective_policies e o ps) Hwf) as Hv'.
    destruct (request_verdict _ o _ _ _) as [[r v] ev], (request_verdict _ o' _ _ _) as [[r' v'] ev'].
    destruct Hv as (_ & Hb & _), Hv' as (_ & Hb' & _). cbn [fst]. rewrite Hb, Hb'.
    unfold must_block, param_blocked, blocks, effective_action. rewrite H4.
    f_equal. by apply existsb_perm.
  - unfold EvaluateRequest. fold o o'. rewrite <- Hep.
    destruct (engine_policies e t0 t1 o PhaseRequest) as [r e1]. simpl in El. by subst.
Qed.

(** Attribution: a blocked request names a policy of the effective list
    whose effective action is block; when the input itself is blocked it is
    the first such policy in evaluation order; and no policy id is listed
    twice among the matches, although input and parameters are scanned
    separately. *)
Theorem request_attribution (e : Engine) (t0 t1 ms : Z) (input : string) (opts : EvalOptions)
    (ps : list CompiledPolicy) :
  evaluator_wf (en_evaluator e) ->
  let o := effective_options e opts in
  let eff := effective_policies e o ps in
  let res := (EvaluateRequest e t0 t1 ms input opts).1 in
  (engine_policies e t0 t1 o PhaseRequest).1 = Ok ps ->
  (forall p, rq_BlockedBy res = Some p -> p ∈ eff /\ effective_action o p PhaseRequest = ActionBlock) /\
  (forall p, find_first (blocks (en_evaluator e) o input) eff = Some p -> rq_BlockedBy res = Some p) /\
  (NoDup (PolicyID <$> eff) -> NoDup (m_PolicyID <$> rq_MatchedPolicies res)).
Proof.
  intros Hwf o eff res Hl. subst res. rewrite (EvaluateRequest_ok e t0 t1 ms input opts ps Hl). fold o.
  pose proof (request_verdict_spec (en_evaluator e) o input (length ps) eff Hwf) as Hv. fold eff.
  destruct (request_verdict _ _ _ _ _) as [[r v] ev].
  destruct Hv as (_ & _ & _ & _ & H1 & H2 & H3). done.
Qed.
End Facts.

(** * The response scan *)

Section Response.
Context `{U : Unicode} `{F : GoFormat}.
Context (ord : nat -> string -> pattern_map -> pattern_map).
Implicit Types (ev : PatternEvaluator) (p : CompiledPolicy) (opts : EvalOptions).

Lemma scan_response_elem ev0 ev opts text ps :
  like ev0 ev ->
  let '(pms, ev') := scan_response ev opts text ps in
  like ev0 ev' /\
  forall p m, (p, m) ∈ pms <->
    exists m0, p ∈ ps /\ m0 ∈ eval_all ev0 text p /\
               m = set_action (effective_action opts p PhaseResponse) m0.
Proof.
  revert ev. induction ps as [|q ps IH]; intros ev Hl; cbn [scan_response].
  { split; [done|]. intros p m. rewrite elem_of_nil. split; [done|].
    by intros (m0 & []%elem_of_nil & _). }
  destruct Hl as [Hwf Hc]. pose proof (EvaluateAll_spec ev text q Hwf) as He.
  destruct (EvaluateAll ev text q) as [ms ev']. destruct He as (-> & Hwf' & Hc').
  assert (Hl' : like ev0 ev') by (split; [done|]; unfold same_config in *; intuition congruence).
  specialize (IH ev' Hl'). destruct (scan_response ev' opts text ps) as [l ev''].
  destruct IH as [Hl'' IH]. split; [done|]. intros p m.
  rewrite elem_of_app, list_elem_of_fmap, IH, (eval_all_config ev ev0) by (by destruct Hc).
  setoid_rewrite elem_of_cons. split.
  - intros [(m0 & [= -> ->] & Hm)|(m0 & ? & ? & ?)]; [exists m0; split_and!; auto|].
    exists m0. split_and!; auto.
  - intros (m0 & [->|Hp] & Hm & ->); [left; eauto|right; eauto].
Qed.

Lemma last_filter_Some {A} (f : A -> bool) l :
  is_Some (last (List.filter f l)) <-> exists x, x ∈ l /\ f x = true.
Proof.
  rewrite last_is_Some. setoid_rewrite <- elem_of_filter_bool. split.
  - intros H. destruct (List.filter f l) as [|x l']; [done|]. exists x. left.
  - intros [x Hx] H. rewrite H in Hx. by apply elem_of_nil in Hx.
Qed.

Lemma EvaluateResponse_ok e t0 t1 ms content opts ps :
  (engine_policies e t0 t1 (effective_options e opts) PhaseResponse).1 = Ok ps ->
  (EvaluateResponse ord e t0 t1 ms content opts).1 =
  (response_verdict ord (en_redactor e) (en_evaluator e) (effective_options e opts) content (length ps)
     (effective_policies e (effective_options e opts) ps)).1.1.
Proof.
  unfold EvaluateResponse, engine_policies. destruct (GetPolicies _ _ _ _ _ _ _) as [r c].
  simpl. intros ->. simpl. unfold effective_policies. simpl.
  destruct (response_verdict _ _ _ _ _ _ _) as [[res v] ev]. by destruct (str_eqb _ "").
Qed.

(** The response scan on a load failure: [EvaluationError] is raised in
    both degradation modes, the content is passed through unscanned in
    both, and it is blocked exactly when graceful degradation is off; a
    redactor downstream can always tell could-not-scan from scanned-clean. *)
Theorem response_load_failure (e : Engine) (t0 t1 ms : Z) (content : value) (opts : EvalOptions)
    (err : load_error) :
  (engine_policies e t0 t1 (effective_options e opts) PhaseResponse).1 = Err err ->
  let res := (EvaluateResponse ord e t0 t1 ms content opts).1 in
  rs_EvaluationError res = true /\ rs_Content res = content /\ rs_Redacted res = false /\
  rs_Blocked res = negb (GracefulDegradation (en_config e)).
Proof.
  unfold EvaluateResponse. destruct (engine_policies _ _ _ _ _) as [r e1]. simpl. intros ->.
  by destruct (GracefulDegradation (en_config e)).
Qed.

(** The response verdict: with policies loaded and a non-empty scannable
    text, a response is blocked if and only if some match of an effective
    policy has the effective action block; a blocked response keeps its
    content unmodified and claims no redaction; and [EvaluationError] is
    never set. *)
Theorem response_blocked_iff (e : Engine) (t0 t1 ms : Z) (content : value) (opts : EvalOptions)
    (ps : list CompiledPolicy) :
  evaluator_wf (en_evaluator e) ->
  let o := effective_options e opts in
  (engine_policies e t0 t1 o PhaseResponse).1 = Ok ps ->
  toScannable content <> "" ->
  let res := (EvaluateResponse ord e t0 t1 ms content opts).1 in
  (rs_Blocked res = true <->
     exists p m, p ∈ effective_policies e o ps /\
       effective_action o p PhaseResponse = ActionBlock /\
       m ∈ eval_all (en_evaluator e) (toScannable content) p) /\
  (rs_Blocked res = true -> rs_Content res = content /\ rs_Redacted res = false) /\
  rs_EvaluationError res = false.
Proof.
  intros Hwf o Hl Hne res. subst res. rewrite (EvaluateResponse_ok e t0 t1 ms content opts ps Hl).
  fold o. unfold response_verdict. apply str_eqb_false in Hne. rewrite Hne.
  assert (Hlk : like (en_evaluator e) (en_evaluator e)) by (split; done).
  pose proof (scan_response_elem _ _ o (toScannable content) (effective_policies e o ps) Hlk) as Hs.
  destruct (scan_response _ _ _ _) as [pms ev']. destruct Hs as [_ Hs].
  pose proof (last_filter_Some (has_action ActionBlock) pms) as Hlast.
  assert (Hiff : (exists x, x ∈ pms /\ has_action ActionBlock x = true) <->
            exists p m, p ∈ effective_policies e o ps /\
              effective_action o p PhaseResponse = ActionBlock /\
              m ∈ eval_all (en_evaluator e) (toScannable content) p).
  { split.
    - intros ([p m] & (m0 & ? & ? & ->)%Hs & Ha%str_eqb_true). exists p, m0. auto.
    - intros (p & m0 & ? & Ha & ?). eexists (p, _). split; [apply Hs; eauto|].
      unfold has_action. simpl. by apply str_eqb_true. }
  rewrite Hiff in Hlast. rewrite <- Hlast.
  destruct (last (List.filter (has_action ActionBlock) pms)) as [[p m]|].
  - simpl. split_and!; done.
  - destruct (if (_ =? 0)%nat then _ else _) as [c' fs]. simpl. split_and!; done.
Qed.

(** * The redaction cap *)

Lemma cap_loop_statements plans b :
  List.filter is_statement_plan (cap_loop plans b) = List.filter is_statement_plan plans.
Proof.
  revert b. induction plans as [|p plans IH]; intros b; simpl; [done|].
  destruct (is_statement_plan p) eqn:E; simpl; [rewrite E; by f_equal|].
  destruct (0 <? b); simpl; [rewrite E|]; apply IH.
Qed.

Definition span_plans (l : list RedactionPlan) : list RedactionPlan :=
  List.filter (fun q => negb (is_statement_plan q)) l.

Lemma cap_loop_spans plans b :
  span_plans (cap_loop plans b) = take (Z.to_nat b) (span_plans plans).
Proof.
  unfold span_plans. revert b. induction plans as [|p plans IH]; intros b; simpl.
  { by rewrite take_nil. }
  destruct (is_statement_plan p) eqn:E; simpl; [rewrite E; simpl; apply IH|].
  destruct (Z.ltb_spec 0 b); simpl.
  - rewrite E. simpl. replace (Z.to_nat b) with (S (Z.to_nat (b - 1))) by lia. simpl. by rewrite IH.
  - rewrite IH. by replace (Z.to_nat b) with 0%nat by lia.
Qed.

(** The redaction cap never drops a statement removal: with
    MaxRedactions = n > 0 every prompt-injection plan is kept, in order,
    wherever it stands among the matches, and the other plans kept are the
    first n of them (all of them when the total does not exceed n). *)
Theorem cap_plans_correct (n : Z) (plans : list RedactionPlan) :
  0 < n ->
  List.filter is_statement_plan (cap_plans n plans) = List.filter is_statement_plan plans /\
  span_plans (cap_plans n plans) = take (Z.to_nat n) (span_plans plans).
Proof.
  intros Hn. unfold cap_plans. destruct (Z.ltb_spec 0 n); [|lia]. simpl.
  destruct (Z.ltb_spec n (Z.of_nat (length plans))).
  - split; [apply cap_loop_statements|apply cap_loop_spans].
  - split; [done|]. rewrite take_ge; [done|].
    pose proof (filter_length_split is_statement_plan plans). unfold span_plans. lia.
Qed.

(** * Coverage limits *)

Lemma Apply_array r l ct plans : ct = detectContentType (VArr l) -> (Apply r ord (VArr l) ct plans) = (VArr l, []).
Proof. intros ->. unfold Apply. by destruct (length plans =? 0)%nat. Qed.

(** A top-level JSON array is scanned but never redacted: whatever its matches and their
    action, the engine returns the array as it came in and reports no
    redaction, so PII matched with the action redact is forwarded. *)
Theorem array_response_never_redacted (e : Engine) (t0 t1 ms : Z) (l : list value) (opts : EvalOptions) :
  let res := (EvaluateResponse ord e t0 t1 ms (VArr l) opts).1 in
  rs_Content res = VArr l /\ rs_Redacted res = false /\ rs_RedactedFields res = [].
Proof.
  destruct (engine_policies e t0 t1 (effective_options e opts) PhaseResponse).1 as [ps|err] eqn:El.
  - simpl. rewrite (EvaluateResponse_ok e t0 t1 ms (VArr l) opts ps El). unfold response_verdict.
    destruct (str_eqb _ ""); [done|]. destruct (scan_response _ _ _ _) as [pms ev'].
    destruct (last _) as [[p m]|]; [done|]. rewrite Apply_array by done.
    by destruct (_ =? 0)%nat.
  - simpl. unfold EvaluateResponse. destruct (engine_policies _ _ _ _ _) as [r e1]. simpl in El. subst.
    by destruct (GracefulDegradation _).
Qed.

(** Strings inside arrays of an object are not scanned: for an object
    whose only strings are array elements the scannable text is empty, so
    no policy runs and the content is returned as clean. *)
Theorem array_strings_not_scanned (e : Engine) (t0 t1 ms : Z) (key : string) (items : list string)
    (opts : EvalOptions) (ps : list CompiledPolicy) :
  let content := VObj [(key, VArr (VString <$> items))] in
  let res := (EvaluateResponse ord e t0 t1 ms content opts).1 in
  (engine_policies e t0 t1 (effective_options e opts) PhaseResponse).1 = Ok ps ->
  rs_Blocked res = false /\ rs_Content res = content /\ rs_MatchedPolicies res = [] /\
  rs_EvaluationError res = false.
Proof.
  intros content res Hl. subst res. rewrite (EvaluateResponse_ok e t0 t1 ms content opts ps Hl).
  assert (Hs : toScannable content = "").
  { subst content. simpl. induction items as [|s items IH]; [done|]. exact IH. }
  unfold response_verdict. by rewrite Hs.
Qed.
End Response.

(** * A concrete engine *)

#[local] Existing Instance ascii_unicode.

(** Strings inside an array render between brackets. *)
Definition demo_format : GoFormat := {|
  sprint_value v := match v with VArr [VString s] => "[" +:+ s +:+ "]" | _ => "?" end;
  format_float _ := "0";
  json_leaf _ := None |}.
#[local] Existing Instance demo_format.

Definition demo_row (id category pattern : string) (rq rs : option string) (prio : Z) : table_row :=
  mkTableRow (mkRow id id id category "system" pattern SeverityHigh None None rq rs true prio
                "global" None prio) false "global" true.

Definition demo_db : policy_db :=
  mkDB [demo_row "sys_sqli_drop" CategorySecuritySQLi "DROP" (Some ActionBlock) (Some ActionLog) 100;
        demo_row "sys_pii_ssn" CategoryPIIUS "\d{3}-\d{2}-\d{4}" (Some ActionLog) None 50;
        demo_row "sys_secret" CategorySensitiveData "SECRET" (Some ActionLog) (Some ActionBlock) 10]
    true false.

Definition demo_engine (db : policy_db) : Engine :=
  NewUnifiedPolicyEngine (Some db) DefaultEngineConfig true.

Definition demo_options (params : list (string * value)) : EvalOptions :=
  mkOptions "acme" "" None "u" "c" params "" [] [] ∅ 0.

Definition demo_order (n : nat) (s : string) (m : pattern_map) : pattern_map := m.

Definition down (db : policy_db) : policy_db := mkDB (db_rows db) false (db_bypass_rls db).

Lemma demo_wf db : evaluator_wf (en_evaluator (demo_engine db)).
Proof. apply new_evaluator_wf. Qed.

Lemma request_fails_closed_witness :
  rq_EvaluationError (EvaluateRequest (demo_engine (down demo_db)) 0 0 0 "hello" (demo_options [])).1 = true /\
  rq_Blocked (EvaluateRequest (demo_engine (down demo_db)) 0 0 0 "hello" (demo_options [])).1 = true.
Proof.
  destruct (request_fails_closed (demo_engine (down demo_db)) 0 0 0 "hello" (demo_options []) (demo_wf _)) as [He Hb].
  split; [apply He|apply Hb]; split; vm_compute; reflexivity.
Defined.

(** The policies of the demo engine; [check_load] keeps evaluation from
    reading back validator closures. *)
Definition demo_load (params : list (string * value)) (phase : string)
  : result load_error (list CompiledPolicy) :=
  (engine_policies (demo_engine demo_db) 0 0
     (effective_options (demo_engine demo_db) (demo_options params)) phase).1.

Definition check_load (r : result load_error (list CompiledPolicy))
    (f : list CompiledPolicy -> bool) : bool :=
  match r with Ok ps => f ps | Err _ => false end.

Lemma check_load_ok r f : check_load r f = true -> exists ps, r = Ok ps /\ f ps = true.
Proof. destruct r as [ps|]; [|done]. simpl. eauto. Qed.

Lemma request_blocked_iff_witness :
  rq_Blocked (EvaluateRequest (demo_engine demo_db) 0 0 0 "hi" (demo_options [("q", VString "DROP x")])).1 = true.
Proof.
  destruct (check_load_ok (demo_load [("q", VString "DROP x")] PhaseRequest)
    (fun ps => existsb (blocks (en_evaluator (demo_engine demo_db)) (demo_options []) "DROP x")
       (effective_policies (demo_engine demo_db) (demo_options [("q", VString "DROP x")]) ps)))
    as (ps & E & Hf); [vm_compute; reflexivity|].
  apply (request_blocked_iff (demo_engine demo_db) 0 0 0 "hi"
           (demo_options [("q", VString "DROP x")]) ps (demo_wf _) E).
  apply existsb_In in Hf as (p & Hp & Hb). apply andb_true_iff in Hb as [Hh Ha].
  exists p. split; [exact Hp|]. split; [apply str_eqb_true; exact Ha|].
  right. exists "q", (VString "DROP x"). split; [left|]. split; [discriminate|].
  change (param_text (VString "DROP x")) with "DROP x". unfold hits in Hh.
  destruct (eval_first _ "DROP x" p); [eexists; reflexivity|discriminate Hh].
Defined.

Lemma request_order_independent_witness :
  rq_Blocked (EvaluateRequest (demo_engine demo_db) 0 0 0 "hi"
    (demo_options [("a", VString "x"); ("b", VString "DROP")])).1 =
  rq_Blocked (EvaluateRequest (demo_engine demo_db) 0 0 0 "hi"
    (demo_options [("b", VString "DROP"); ("a", VString "x")])).1.
Proof.
  apply request_order_independent; [apply demo_wf|constructor|reflexivity].
Defined.

Lemma request_attribution_witness :
  exists p, rq_BlockedBy (EvaluateRequest (demo_engine demo_db) 0 0 0 "DROP t" (demo_options [])).1 = Some p /\
    effective_action (demo_options []) p PhaseRequest = ActionBlock.
Proof.
  destruct (check_load_ok (demo_load [] PhaseRequest) (fun _ => true)) as (ps & E & _);
    [vm_compute; reflexivity|].
  assert (Hb : match rq_BlockedBy (EvaluateRequest (demo_engine demo_db) 0 0 0 "DROP t" (demo_options [])).1
               with Some _ => true | None => false end = true) by (vm_compute; reflexivity).
  destruct (request_attribution (demo_engine demo_db) 0 0 0 "DROP t" (demo_options []) ps (demo_wf _) E)
    as (H & _ & _).
  destruct (rq_BlockedBy _) as [p|]; [|discriminate Hb].
  exists p. split; [reflexivity|]. apply (H p). reflexivity.
Defined.

Lemma response_load_failure_witness :
  rs_EvaluationError
    (EvaluateResponse demo_order (demo_engine (down demo_db)) 0 0 0 (VString "x") (demo_options [])).1 = true.
Proof.
  eapply (response_load_failure demo_order (demo_engine (down demo_db)) 0 0 0 (VString "x")
            (demo_options []) ErrQueryFailed).
  vm_compute. reflexivity.
Defined.

Lemma response_blocked_iff_witness :
  rs_Blocked (EvaluateResponse demo_order (demo_engine demo_db) 0 0 0 (VString "a SECRET") (demo_options [])).1 = true /\
  rs_EvaluationError (EvaluateResponse demo_order (demo_engine demo_db) 0 0 0 (VString "a SECRET") (demo_options [])).1 = false.
Proof.
  destruct (check_load_ok (demo_load [] PhaseResponse) (fun _ => true)) as (ps & E & _);
    [vm_compute; reflexivity|].
  split; [vm_compute; reflexivity|].
  apply (response_blocked_iff demo_order (demo_engine demo_db) 0 0 0 (VString "a SECRET")
           (demo_options []) ps (demo_wf _) E).
  discriminate.
Defined.

Definition plan_of (strategy : string) : RedactionPlan :=
  mkPlan (mkMatch "" "" "" "" "" "" 0 0 f64_one "") cc_policy strategy "".

Lemma cap_plans_correct_witness :
  rp_Strategy <$> cap_plans 1 [plan_of StrategyMask; plan_of StrategyMask; plan_of StrategyRemoveStatement]
    = [StrategyMask; StrategyRemoveStatement] /\
  length (List.filter is_statement_plan
            (cap_plans 1 [plan_of StrategyMask; plan_of StrategyMask; plan_of StrategyRemoveStatement])) = 1%nat.
Proof.
  split; [vm_compute; reflexivity|].
  rewrite (proj1 (cap_plans_correct 1
    [plan_of StrategyMask; plan_of StrategyMask; plan_of StrategyRemoveStatement] eq_refl)).
  vm_compute. reflexivity.
Defined.

Lemma array_strings_not_scanned_witness :
  rs_MatchedPolicies
    (EvaluateResponse demo_order (demo_engine demo_db) 0 0 0
       (VObj [("ids", VArr [VString "123-45-6789"])]) (demo_options [])).1 = [].
Proof.
  destruct (check_load_ok (demo_load [] PhaseResponse) (fun _ => true)) as (ps & E & _);
    [vm_compute; reflexivity|].
  apply (array_strings_not_scanned demo_order (demo_engine demo_db) 0 0 0 "ids" ["123-45-6789"]
           (demo_options []) ps E).
Defined.

(** The same SSN is redacted in a string, and matched but forwarded in an array. *)
Example array_response_example :
  let run c := (EvaluateResponse demo_order (demo_engine demo_db) 0 0 0 c (demo_options [])).1 in
  rs_Content (run (VString "ssn 123-45-6789")) = VString "ssn 1*********9" /\
  (m_Action <$> rs_MatchedPolicies (run (VArr [VString "123-45-6789"]))) = [ActionRedact] /\
  rs_Content (run (VArr [VString "123-45-6789"])) = VArr [VString "123-45-6789"].
Proof. split_and!; vm_compute; reflexivity. Qed.

(** The audit trail misreports a response block: the violation entry of a
    response blocked by the policy's response action carries the policy's
    request action, and the evaluation entry counts matches where its field
    says policies evaluated. *)
Theorem response_audit_misreports :
  let '(res, e) := EvaluateResponse demo_order (demo_engine demo_db) 0 0 0 (VString "a SECRET") (demo_options []) in
  rs_Blocked res = true /\ (m_Action <$> rs_MatchedPolicies res) = [ActionBlock] /\
  rs_PoliciesEvaluated res = 3%nat /\
  exists v ev, auditQueue (en_metrics e) = Some [inl v; inr ev] /\
    ve_action v = ActionLog /\ ee_PoliciesEvaluated ev = 1%nat.
Proof. vm_compute. split_and!; try reflexivity. eexists _, _. split_and!; reflexivity. Qed.
