(* ===== verification/Exfiltration.v ===== *)
(** The exfiltration checker of platform/shared/policy (exfiltration.go and its
    types in types.go): row and byte limits on connector responses, their
    configuration from the environment, and the process-wide checker.

    The checker's only state is its limits; [CheckWithInfo] reads them twice,
    once itself and once through [Check], and releases the lock in between, so
    its model takes the limits each of the two reads sees. *)

From S2P Require Import Prelude GoStrings GoStrconv PolicyTypes GoJSON.
Local Open Scope Z_scope.

Record ExfiltrationLimits := mkLimits {
  MaxRowsPerQuery : Z;
  MaxBytesPerQuery : Z;
  LimitsEnabled : bool;
}.

Definition DefaultExfiltrationLimits : ExfiltrationLimits := mkLimits 10000 (10 * 1024 * 1024) true.

Record ExfiltrationResult := mkExResult {
  Exceeded : bool;
  LimitType : string;
  ActualValue : Z;
  LimitValue : Z;
  ExBlockReason : string;
}.

Record ExfiltrationCheckInfo := mkExInfo {
  RowsReturned : Z;
  RowLimit : Z;
  BytesReturned : Z;
  ByteLimit : Z;
  WithinLimits : bool;
}.

Definition within : ExfiltrationResult := mkExResult false "" 0 0 "".

(** * Configuration *)

(** One numeric variable: unset or invalid or negative keeps the default. *)
Definition env_limit (val : string) (default : Z) : Z :=
  if str_eqb val "" then default
  else let '(parsed, ok) := Atoi val in
       if ok && (0 <=? parsed) then parsed else default.

Definition NewExfiltrationCheckerFromEnv (Getenv : string -> string) : ExfiltrationLimits :=
  let d := DefaultExfiltrationLimits in
  let enabled := Getenv "MCP_EXFILTRATION_ENABLED" in
  mkLimits (env_limit (Getenv "MCP_MAX_ROWS_PER_QUERY") (MaxRowsPerQuery d))
    (env_limit (Getenv "MCP_MAX_BYTES_PER_QUERY") (MaxBytesPerQuery d))
    (if str_eqb enabled "" then LimitsEnabled d
     else str_eqb enabled "true" || str_eqb enabled "1" || str_eqb enabled "yes").

(** * The size of a response *)

Definition slen (s : string) : Z := Z.of_nat (len s).
Definition sumZ (l : list Z) : Z := foldr Z.add 0 l.

Fixpoint estimateMapSize_value (v : value) : Z :=
  match v with
  | VString s | VBytes s => slen s
  | VInt _ | VFloat _ => 8
  | VBool _ => 1
  | VNil => 4
  | VObj m => sumZ (map (fun e => slen e.1 + 4 + estimateMapSize_value e.2) m)
  | VArr l =>
      sumZ (map (fun item => match item with
                             | VObj _ => estimateMapSize_value item
                             | _ => 16
                             end) l)
  | VNumber _ | VRows _ | VOther _ => 16
  end.

Definition estimateMapSize (m : list (string * value)) : Z := estimateMapSize_value (VObj m).

Definition estimateStructureSize (data : value) : Z :=
  match data with
  | VRows rows => sumZ (estimateMapSize <$> rows)
  | VObj m => estimateMapSize m
  | _ => 0
  end.

Section Checker.
Context `{F : GoFormat}.

Definition calculateDataSize (data : value) : Z :=
  match data with
  | VBytes v | VString v => slen v
  | VRows _ | VObj _ =>
      match json_encode true data with
      | Some jsonBytes => slen jsonBytes
      | None => estimateStructureSize data
      end
  | _ =>
      match json_encode true data with
      | Some jsonBytes => slen jsonBytes
      | None => 0
      end
  end.

Definition is_nil (v : value) : bool := match v with VNil => true | _ => false end.

Definition Check (limits : ExfiltrationLimits) (rowCount : Z) (data : value) : ExfiltrationResult :=
  if negb (LimitsEnabled limits) then within
  else if (0 <? MaxRowsPerQuery limits) && (MaxRowsPerQuery limits <? rowCount) then
    mkExResult true "rows" rowCount (MaxRowsPerQuery limits)
      ("Row count limit exceeded: " +:+ Itoa rowCount +:+ " rows returned, limit is "
       +:+ Itoa (MaxRowsPerQuery limits))
  else if (0 <? MaxBytesPerQuery limits) && negb (is_nil data) then
    let dataSize := calculateDataSize data in
    if MaxBytesPerQuery limits <? dataSize then
      mkExResult true "bytes" dataSize (MaxBytesPerQuery limits)
        ("Data volume limit exceeded: " +:+ Itoa dataSize +:+ " bytes returned, limit is "
         +:+ Itoa (MaxBytesPerQuery limits))
    else within
  else within.

(** [limits] is what the first read sees, [limits'] what [Check] reads. *)
Definition CheckWithInfo (limits limits' : ExfiltrationLimits) (rowCount : Z) (data : value)
  : ExfiltrationResult * ExfiltrationCheckInfo :=
  let dataSize := if is_nil data then 0 else calculateDataSize data in
  let r := Check limits' rowCount data in
  (r, mkExInfo rowCount (MaxRowsPerQuery limits) dataSize (MaxBytesPerQuery limits)
        (negb (Exceeded r))).

(** * The process-wide checker *)

(** [globalExfiltrationChecker]: nil until it is initialised; every step is
    one critical section of its mutex. *)
Inductive global_op :=
| InitGlobalExfiltrationChecker (Getenv : string -> string)
| InitGlobalExfiltrationCheckerWithLimits (l : ExfiltrationLimits)
| SetGlobalExfiltrationChecker (c : option ExfiltrationLimits)
| ResetGlobalExfiltrationChecker
| UpdateLimits (l : ExfiltrationLimits).

(** [UpdateLimits] is a method of the checker the pointer leads to. *)
Definition global_step (g : option ExfiltrationLimits) (op : global_op) : option ExfiltrationLimits :=
  match op with
  | InitGlobalExfiltrationChecker Getenv =>
      match g with
      | None => Some (NewExfiltrationCheckerFromEnv Getenv)
      | Some _ => g
      end
  | InitGlobalExfiltrationCheckerWithLimits l => Some l
  | SetGlobalExfiltrationChecker c => c
  | ResetGlobalExfiltrationChecker => None
  | UpdateLimits l => match g with Some _ => Some l | None => None end
  end.

(** * Lemmas *)

(** What the two limits forbid. *)
Definition rows_over (l : ExfiltrationLimits) (rowCount : Z) : Prop :=
  0 < MaxRowsPerQuery l < rowCount.
Definition bytes_over (l : ExfiltrationLimits) (data : value) : Prop :=
  data <> VNil /\ 0 < MaxBytesPerQuery l < calculateDataSize data.

Lemma is_nil_true v : is_nil v = true <-> v = VNil.
Proof. by destruct v. Qed.

Lemma Check_cases l n d :
  (Exceeded (Check l n d) = false /\ Check l n d = within) \/
  (Exceeded (Check l n d) = true /\
   LimitValue (Check l n d) < ActualValue (Check l n d) /\
   ((LimitType (Check l n d) = "rows" /\ ActualValue (Check l n d) = n /\
     LimitValue (Check l n d) = MaxRowsPerQuery l) \/
    (LimitType (Check l n d) = "bytes" /\ ActualValue (Check l n d) = calculateDataSize d /\
     LimitValue (Check l n d) = MaxBytesPerQuery l))).
Proof. unfold Check. repeat break_goal; simpl; bool_simpl; naive_solver lia. Qed.

Lemma Check_iff l n d :
  Exceeded (Check l n d) = true <->
  LimitsEnabled l = true /\ (rows_over l n \/ bytes_over l d).
Proof.
  unfold Check, rows_over, bytes_over.
  destruct (LimitsEnabled l); simpl; [|naive_solver].
  destruct (Z.ltb_spec 0 (MaxRowsPerQuery l)), (Z.ltb_spec (MaxRowsPerQuery l) n); simpl;
    [naive_solver lia| | |];
  (destruct (is_nil d) eqn:Ed;
   [apply is_nil_true in Ed; rewrite andb_false_r; simpl; naive_solver lia|];
   assert (d <> VNil) by (by intros ->);
   destruct (Z.ltb_spec 0 (MaxBytesPerQuery l)),
     (Z.ltb_spec (MaxBytesPerQuery l) (calculateDataSize d)); simpl; naive_solver lia).
Qed.

(** Raising a limit, or dropping it, never blocks a response that passed. *)
Definition looser (a b : Z) : Prop := b <= 0 \/ (0 < a /\ a <= b).

Lemma Check_monotone l l' n d :
  looser (MaxRowsPerQuery l) (MaxRowsPerQuery l') ->
  looser (MaxBytesPerQuery l) (MaxBytesPerQuery l') ->
  (LimitsEnabled l' = true -> LimitsEnabled l = true) ->
  Exceeded (Check l n d) = false -> Exceeded (Check l' n d) = false.
Proof.
  intros Hr Hb He Hp. apply not_true_iff_false in Hp. apply not_true_iff_false.
  rewrite Check_iff in *. unfold looser, rows_over, bytes_over in *. naive_solver lia.
Qed.

(** Limits read from the environment are never negative, whatever it holds. *)
Lemma env_limit_nonneg val d : 0 <= d -> 0 <= env_limit val d.
Proof. intros. unfold env_limit. repeat break; bool_simpl; lia. Qed.

Lemma env_limits_nonneg Getenv :
  0 <= MaxRowsPerQuery (NewExfiltrationCheckerFromEnv Getenv) /\
  0 <= MaxBytesPerQuery (NewExfiltrationCheckerFromEnv Getenv).
Proof. split; apply env_limit_nonneg; simpl; lia. Qed.

(** A limit written in decimal configures itself. *)
Lemma env_limit_roundtrip n d : 0 <= n <= int64_max -> env_limit (Itoa n) d = n.
Proof.
  intros Hn. unfold env_limit.
  assert (Hr : int64_range n) by (unfold int64_range, int64_min; lia).
  rewrite Atoi_Itoa by done.
  destruct (str_eqb (Itoa n) "") eqn:E.
  - apply str_eqb_true in E. destruct (Itoa_bytes n Hr) as (ds & Hb & Hne & _).
    rewrite E in Hb. destruct (n <? 0); destruct ds; by simplify_eq/=.
  - simpl. destruct (Z.leb_spec 0 n); [done|lia].
Qed.

(** * The fallback estimate *)

Lemma sumZ_perm l l' : l ≡ₚ l' -> sumZ l = sumZ l'.
Proof. induction 1; simpl; lia. Qed.

Lemma sumZ_nonneg l : Forall (Z.le 0) l -> 0 <= sumZ l.
Proof. induction 1; simpl; lia. Qed.

(** The estimate does not depend on the order in which [range] visits a map. *)
Lemma estimateMapSize_perm m m' : m ≡ₚ m' -> estimateMapSize m = estimateMapSize m'.
Proof. intros H. unfold estimateMapSize. simpl. apply sumZ_perm. by apply Permutation_map. Qed.

Lemma estimateMapSize_value_nonneg : forall v, 0 <= estimateMapSize_value v.
Proof.
  fix IH 1. intros [ |b|s|f|n|s|s|l|m|rows|t]; simpl; unfold slen; try lia.
  - apply sumZ_nonneg. induction l as [|x l IHl]; simpl; constructor; [|exact IHl].
    destruct x eqn:E; try lia. rewrite <- E. apply IH.
  - apply sumZ_nonneg. induction m as [|[k x] m IHm]; simpl; constructor; [|exact IHm].
    pose proof (IH x). lia.
Qed.

(** Four bytes at least are charged for every entry of a row: the estimate
    bounds the number of entries. *)
Lemma estimateMapSize_entries m : 4 * Z.of_nat (length m) <= estimateMapSize m.
Proof.
  unfold estimateMapSize. induction m as [|[k x] m IH]; [simpl; lia|].
  pose proof (estimateMapSize_value_nonneg x). simpl in *.
  assert (0 <= slen k) by (unfold slen; lia). lia.
Qed.

(** When the two reads of the limits agree, the reported information does. *)
Lemma CheckWithInfo_consistent l n d :
  let '(r, info) := CheckWithInfo l l n d in
  WithinLimits info = negb (Exceeded r) /\
  (LimitsEnabled l = true -> WithinLimits info = true ->
   (0 < RowLimit info -> RowsReturned info <= RowLimit info) /\
   (0 < ByteLimit info -> BytesReturned info <= ByteLimit info)).
Proof.
  simpl. split; [done|]. intros He Hw%negb_true_iff%not_true_iff_false.
  rewrite Check_iff in Hw. unfold rows_over, bytes_over in Hw. split; intros H.
  - destruct (decide (n <= MaxRowsPerQuery l)); [done|]. destruct Hw. split; [done|left; lia].
  - destruct (is_nil d) eqn:Ed; [lia|].
    destruct (decide (calculateDataSize d <= MaxBytesPerQuery l)); [done|].
    destruct Hw. split; [done|]. right. split; [by intros ->|lia].
Qed.

(** Initialising twice keeps the first configuration. *)
Lemma init_once g e1 e2 :
  global_step (global_step g (InitGlobalExfiltrationChecker e1)) (InitGlobalExfiltrationChecker e2)
  = global_step g (InitGlobalExfiltrationChecker e1).
Proof. by destruct g. Qed.

(** The exfiltration checker blocks exactly the responses it is configured
    to block. With checking enabled, a response is refused if and only if the
    row limit is positive and exceeded, or the response is not nil, the byte
    limit is positive and the size of the response exceeds it; with checking
    disabled nothing is refused. A refusal names a limit and an actual value
    above it, the row limit first; the limits configured from any environment
    are non-negative; and loosening limits never blocks a response that
    passed. *)
Theorem exfiltration_exact l n d :
  (Exceeded (Check l n d) = true <->
   LimitsEnabled l = true /\ (rows_over l n \/ bytes_over l d)) /\
  (Exceeded (Check l n d) = true ->
   LimitValue (Check l n d) < ActualValue (Check l n d) /\
   (LimitType (Check l n d) = "rows" <-> rows_over l n)) /\
  (forall l', looser (MaxRowsPerQuery l) (MaxRowsPerQuery l') ->
     looser (MaxBytesPerQuery l) (MaxBytesPerQuery l') ->
     (LimitsEnabled l' = true -> LimitsEnabled l = true) ->
     Exceeded (Check l n d) = false -> Exceeded (Check l' n d) = false).
Proof.
  split_and!; [apply Check_iff| |intros l'; apply Check_monotone].
  intros H. destruct (Check_cases l n d) as [[H' _]|(_ & Hlt & _)]; [congruence|].
  split; [done|]. apply Check_iff in H as [He _]. unfold Check, rows_over. rewrite He. simpl.
  destruct (Z.ltb_spec 0 (MaxRowsPerQuery l)), (Z.ltb_spec (MaxRowsPerQuery l) n);
    simpl; (split; [try (repeat break_goal; done)|try done; try lia]); done.
Qed.

End Checker.

(** An update between the two reads: the reported row count is above the
    reported limit and still "within limits". *)
Example CheckWithInfo_torn :
  let strict := mkLimits 10 0 true in
  let loose := mkLimits 1000 0 true in
  snd (CheckWithInfo (F := no_format) strict loose 500 VNil) = mkExInfo 500 10 0 0 true.
Proof. reflexivity. Qed.

(** A value of an unknown type that JSON cannot encode has size 0 and passes
    every byte limit. *)
Example unmarshalable_passes :
  Exceeded (Check (F := no_format) (mkLimits 0 1 true) 0 (VOther "chan int")) = false.
Proof. reflexivity. Qed.

Example default_limits_example :
  Exceeded (Check (F := no_format) DefaultExfiltrationLimits 10000 VNil) = false /\
  LimitType (Check (F := no_format) DefaultExfiltrationLimits 10001 VNil) = "rows".
Proof. by split. Qed.
