(* ===== verification/TenantScope.v ===== *)
(** Tenancy authorisation (platform/shared/tenantscope/tenantscope.go): the
    choke point every row of the workflow control plane passes. *)

From S2P Require Import Prelude GoStrings.

Definition UnownedOrgSentinel : string := "__axonflow_unowned__".

Inductive scope_error : Type :=
| ErrNoCallerScope
| ErrNotOwned.

Record Scope := mkScope { OrgID : string; TenantID : string }.

Section TenantScope.
Context `{U : Unicode}.

Definition usable (v : string) : bool :=
  let v := TrimSpace v in negb (str_eqb v "") && negb (str_eqb v UnownedOrgSentinel).

Definition New (orgID tenantID : string) : result scope_error Scope :=
  let s := mkScope (TrimSpace orgID) (TrimSpace tenantID) in
  if str_eqb (OrgID s) "" || str_eqb (TenantID s) "" then Err ErrNoCallerScope
  else if str_eqb (OrgID s) UnownedOrgSentinel || str_eqb (TenantID s) UnownedOrgSentinel
  then Err ErrNoCallerScope
  else Ok s.

(** [Bind] on the two headers of a request; [None] is a nil request. *)
Definition Bind (r : option (string * string)) : result scope_error Scope :=
  match r with
  | None => Err ErrNoCallerScope
  | Some (org, tenant) => New (TrimSpace org) (TrimSpace tenant)
  end.

Definition NewOrgOnly (orgID : string) : Scope :=
  let org := TrimSpace orgID in
  mkScope (if str_eqb org UnownedOrgSentinel then "" else org) "".

Definition Bound (s : Scope) : bool := usable (OrgID s) && usable (TenantID s).

(** [None] is a nil error. *)
Definition Authorize (s : Scope) (rowOrg rowTenant : string) : option scope_error :=
  if negb (usable (OrgID s)) || negb (usable (TenantID s)) then Some ErrNoCallerScope
  else if negb (usable rowOrg) || negb (usable rowTenant) then Some ErrNotOwned
  else if negb (str_eqb (TrimSpace rowOrg) (TrimSpace (OrgID s))) then Some ErrNotOwned
  else if negb (str_eqb (TrimSpace rowTenant) (TrimSpace (TenantID s))) then Some ErrNotOwned
  else None.

Definition AuthorizeOrgOnly (s : Scope) (rowOrg : string) : option scope_error :=
  if negb (usable (OrgID s)) then Some ErrNoCallerScope
  else if negb (usable rowOrg) || negb (str_eqb (TrimSpace rowOrg) (TrimSpace (OrgID s)))
  then Some ErrNotOwned
  else None.

Definition ValidateOrgKey (rowOrg : string) : option scope_error :=
  if negb (usable rowOrg) then Some ErrNoCallerScope else None.

Definition ValidateRowKeys (rowOrg rowTenant : string) : option scope_error :=
  if negb (usable rowOrg) || negb (usable rowTenant) then Some ErrNoCallerScope else None.

(** * Facts *)

Lemma Authorize_None s org tenant :
  Authorize s org tenant = None <->
  usable org = true /\ usable tenant = true /\
  TrimSpace org = TrimSpace (OrgID s) /\ TrimSpace tenant = TrimSpace (TenantID s).
Proof.
  unfold Authorize. rewrite <- !str_eqb_true. unfold usable.
  destruct (str_eqb (TrimSpace org) (TrimSpace (OrgID s))) eqn:E1,
    (str_eqb (TrimSpace tenant) (TrimSpace (TenantID s))) eqn:E2;
    try (apply str_eqb_true in E1 as ->); try (apply str_eqb_true in E2 as ->);
    repeat match goal with |- context [str_eqb ?a ?b] =>
      lazymatch goal with
      | |- context [if str_eqb a b then _ else _] => fail
      | _ => destruct (str_eqb a b)
      end end; simpl; naive_solver.
Qed.

(** The tenancy choke point: [Authorize] admits a caller to a row exactly
    when both sides carry usable keys (present and not the unowned
    sentinel) and organization and tenant agree after trimming; a caller
    without a usable scope is told so whatever row it names, so the answer
    is no existence oracle; and no scope, however built, reaches an
    unowned row. *)
Theorem Authorize_correct (s : Scope) (org tenant : string) :
  (Authorize s org tenant = None <->
     usable org = true /\ usable tenant = true /\
     TrimSpace org = TrimSpace (OrgID s) /\ TrimSpace tenant = TrimSpace (TenantID s)) /\
  (Bound s = false -> Authorize s org tenant = Some ErrNoCallerScope) /\
  (TrimSpace org = UnownedOrgSentinel -> Authorize s org tenant <> None) /\
  (OrgID s = OrgID (NewOrgOnly org) -> TenantID s = "" -> Authorize s org tenant <> None).
Proof.
  split_and!.
  - apply Authorize_None.
  - unfold Bound, Authorize. rewrite andb_false_iff. intros [-> | ->]; [done|].
    by rewrite orb_true_r.
  - intros H (Hu & _)%Authorize_None. unfold usable in Hu. rewrite H in Hu.
    vm_compute in Hu. discriminate.
  - intros _ Ht (_ & Hu & _ & He)%Authorize_None. unfold usable in Hu. rewrite He, Ht in Hu.
    vm_compute in Hu. discriminate.
Qed.
End TenantScope.

#[local] Existing Instance ascii_unicode.

Lemma Authorize_correct_witness :
  Authorize (mkScope "org-a" "t1") " org-a" "t1 " = None /\
  Authorize (mkScope "" "t1") "org-a" "t1" = Some ErrNoCallerScope.
Proof.
  split.
  - apply (proj1 (Authorize_correct (mkScope "org-a" "t1") " org-a" "t1 ")).
    split; [|split; [|split]]; vm_compute; reflexivity.
  - apply (proj1 (proj2 (Authorize_correct (mkScope "" "t1") "org-a" "t1"))).
    vm_compute. reflexivity.
Defined.
