(* ===== verification/WcpTypes.v ===== *)
(** The data model of the workflow control plane
    (platform/orchestrator/workflow_control: types.go, errors.go, checkpoint.go).

    Statuses and decisions are string types in the source; a decision comes
    from a pluggable evaluator and a retry policy from the caller, so they stay
    strings. JSON columns hold the values they encode; times are numbers. *)

From S2P Require Import Prelude GoFloat GoStrings Regexp PolicyTypes.

Local Open Scope Z_scope.

Definition WorkflowStatusInProgress : string := "in_progress".
Definition WorkflowStatusCompleted : string := "completed".
Definition WorkflowStatusAborted : string := "aborted".
Definition WorkflowStatusFailed : string := "failed".

Definition WorkflowSourceExternal : string := "external".

Definition GateDecisionAllow : string := "allow".
Definition GateDecisionBlock : string := "block".
Definition GateDecisionRequireApproval : string := "require_approval".

Definition ApprovalStatusPending : string := "pending".
Definition ApprovalStatusApproved : string := "approved".
Definition ApprovalStatusRejected : string := "rejected".
Definition ApprovalStatusExpired : string := "expired".

Definition PriorCompletionStatusNone : string := "none".
Definition PriorCompletionStatusCompleted : string := "completed".
Definition PriorCompletionStatusGatedNotCompleted : string := "gated_not_completed".

Definition RetryPolicyIdempotent : string := "idempotent".
Definition RetryPolicyReevaluate : string := "reevaluate".

Definition ValidRetryPolicy (p : string) : bool :=
  str_eqb p "" || str_eqb p RetryPolicyIdempotent || str_eqb p RetryPolicyReevaluate.

Definition StepTypeToolCall : string := "tool_call".

Definition IsBlockingDecision (d : string) : bool :=
  str_eqb d GateDecisionBlock || str_eqb d GateDecisionRequireApproval.

Record ToolContext := mkTool {
  ToolName : string;
  ToolType : string;
  ToolInput : list (string * value);
}.

(** PolicyMatch of the control plane. *)
Record StepPolicy := mkStepPolicy {
  sp_PolicyID : string;
  sp_PolicyName : string;
  sp_Action : string;
  sp_Reason : string;
  sp_RiskLevel : string;
  sp_AllowOverride : bool;
  sp_MatchedRule : string;
  sp_PolicyDescription : string;
}.

(** A row of workflow_steps. *)
Record WorkflowStep := mkStep {
  s_ID : Z;
  s_WorkflowID : string;
  s_StepID : string;
  s_StepIndex : Z;
  s_StepName : string;
  s_StepType : string;
  s_Decision : string;
  s_DecisionReason : string;
  s_PoliciesEvaluated : list StepPolicy;
  s_PoliciesMatched : list StepPolicy;
  s_ApprovalStatus : option string;
  s_ApprovedBy : string;
  s_ApprovedAt : option Z;
  s_StepInput : list (string * value);
  s_Model : string;
  s_Provider : string;
  s_TokensIn : option Z;
  s_TokensOut : option Z;
  s_CostUSD : option float64;
  s_StepOutput : option (list (string * value));
  s_ApprovalComment : string;
  s_GateCheckedAt : Z;
  s_StepCompletedAt : option Z;
  s_GateCount : Z;
  s_CompletionCount : Z;
  s_LastDecision : string;
  s_IdempotencyKey : option string;
  s_FirstAttemptAt : option Z;
}.

(** A row of workflows, with its steps as [GetByID] loads them. *)
Record Workflow := mkWorkflow {
  w_WorkflowID : string;
  w_WorkflowName : string;
  w_Source : string;
  w_Status : string;
  w_CurrentStepIndex : Z;
  w_TotalSteps : option Z;
  w_OrgID : string;
  w_TenantID : string;
  w_UserID : string;
  w_ClientID : string;
  w_TraceID : string;
  w_Metadata : list (string * value);
  w_StartedAt : Z;
  w_CompletedAt : option Z;
  w_CreatedAt : Z;
  w_UpdatedAt : Z;
  w_Steps : list WorkflowStep;
}.

Definition IsTerminal (w : Workflow) : bool :=
  str_eqb (w_Status w) WorkflowStatusCompleted || str_eqb (w_Status w) WorkflowStatusAborted
  || str_eqb (w_Status w) WorkflowStatusFailed.

(** A row of workflow_checkpoints. *)
Record Checkpoint := mkCheckpoint {
  c_ID : Z;
  c_WorkflowID : string;
  c_StepID : string;
  c_StepIndex : Z;
  c_StepType : string;
  c_StepName : string;
  c_CheckpointType : string;
  c_GateDecision : string;
  c_GateReason : string;
  c_PoliciesEvaluated : list StepPolicy;
  c_PoliciesMatched : list StepPolicy;
  c_StepInput : list (string * value);
  c_ToolContext : option ToolContext;
  c_Model : string;
  c_Provider : string;
  c_IsResumable : bool;
  c_ResumeCount : Z;
  c_LastResumedAt : option Z;
  c_OrgID : string;
  c_TenantID : string;
  c_UserID : string;
  c_ClientID : string;
  c_CreatedAt : Z;
}.

Definition CheckpointStepGate : string := "step_gate".
Definition CheckpointApprovalBoundary : string := "approval_boundary".

(** * Requests and responses *)

Record CreateWorkflowRequest := mkCreate {
  cr_WorkflowName : string;
  cr_Source : string;
  cr_TotalSteps : option Z;
  cr_Metadata : list (string * value);
  cr_TraceID : string;
}.

Record StepGateRequest := mkGateRequest {
  rq_StepName : string;
  rq_StepType : string;
  rq_StepInput : list (string * value);
  rq_Model : string;
  rq_Provider : string;
  rq_TokensIn : option Z;
  rq_TokensOut : option Z;
  rq_CostUSD : option float64;
  rq_ToolContext : option ToolContext;
  rq_RetryPolicy : string;
  rq_IdempotencyKey : string;
  rq_GateOverride : option string;
  rq_IncludePriorOutput : bool;
}.

Record StepCompleteRequest := mkComplete {
  co_Output : option (list (string * value));
  co_TokensIn : option Z;
  co_TokensOut : option Z;
  co_CostUSD : option float64;
  co_IdempotencyKey : string;
}.

Record RetryContext := mkRetry {
  rc_GateCount : Z;
  rc_CompletionCount : Z;
  rc_PriorCompletionStatus : string;
  rc_PriorOutputAvailable : bool;
  rc_PriorOutput : option (list (string * value));
  rc_PriorCompletionAt : option Z;
  rc_FirstAttemptAt : Z;
  rc_LastAttemptAt : Z;
  rc_LastDecision : string;
  rc_IdempotencyKey : string;
}.

Record StepGateResponse := mkGateResponse {
  gr_Decision : string;
  gr_StepID : string;
  gr_DecisionID : string;
  gr_PolicyIDs : list string;
  gr_Reason : string;
  gr_ApprovalID : string;
  gr_ApprovalURL : string;
  gr_PoliciesEvaluated : list StepPolicy;
  gr_PoliciesMatched : list StepPolicy;
  gr_Cached : bool;
  gr_DecisionSource : string;
  gr_RetryContext : RetryContext;
}.

Record ResumeResponse := mkResume {
  re_WorkflowID : string;
  re_ResumedFromCheckpoint : string;
  re_ResumedFromIndex : Z;
  re_NewDecision : string;
  re_DecisionSource : string;
  re_ResumeCount : Z;
}.

(** * Status projections *)

Record StepInfo := mkStepInfo {
  si_StepID : string;
  si_StepIndex : Z;
  si_StepName : string;
  si_StepType : string;
  si_Decision : string;
  si_ApprovalStatus : option string;
  si_ApprovedBy : string;
  si_ApprovedAt : option Z;
  si_GateCheckedAt : Z;
}.

Record WorkflowStatusResponse := mkStatus {
  ws_WorkflowID : string;
  ws_WorkflowName : string;
  ws_Source : string;
  ws_Status : string;
  ws_CurrentStepIndex : Z;
  ws_TotalSteps : option Z;
  ws_StartedAt : Z;
  ws_CompletedAt : option Z;
  ws_TraceID : string;
  ws_Steps : list StepInfo;
}.

Definition step_info (s : WorkflowStep) : StepInfo :=
  mkStepInfo (s_StepID s) (s_StepIndex s) (s_StepName s) (s_StepType s) (s_Decision s)
    (s_ApprovalStatus s) (s_ApprovedBy s) (s_ApprovedAt s) (s_GateCheckedAt s).

Definition ToStatusResponse (w : Workflow) : WorkflowStatusResponse :=
  mkStatus (w_WorkflowID w) (w_WorkflowName w) (w_Source w) (w_Status w) (w_CurrentStepIndex w)
    (w_TotalSteps w) (w_StartedAt w) (w_CompletedAt w) (w_TraceID w) (step_info <$> w_Steps w).

(** * Errors *)

Inductive wcp_error : Type :=
| EWorkflowNotFound
| EStepNotFound
| ETerminal (status : string)
| EPendingApproval (stepID : string)
| ENoApprovalNeeded
| ENotPending
| EStepRejected (stepID : string)
| EStepExpired (stepID : string)
| EInvalidWorkflowName
| ETraceTooLong
| ENoScope
| EDuplicateID
| EConcurrentLimit
| EKeyMismatch (expected received : string)
| ENoCheckpoint
| ECheckpointNotFound
| EWrongWorkflow
| ENotResumable
| ECannotResume (status : string).
