(* ===== verification/WcpRepository.v ===== *)
(** The workflow repository (platform/orchestrator/workflow_control:
    repository.go and the persistence half of checkpoint.go): the three tables
    and the SQL statements on them, each as one atomic operation.

    Rows of workflow_steps and workflow_checkpoints are kept in insertion order;
    an ORDER BY is a stable sort of it. Database failures other than a missing
    or duplicate row are not represented. *)

From S2P Require Import Prelude GoFloat GoStrings Regexp PolicyTypes GoJSON TenantScope WcpTypes.

Local Open Scope Z_scope.

Record Store := mkStore {
  workflows : gmap string Workflow;
  steps : list WorkflowStep;
  checkpoints : list Checkpoint;
  next_id : Z;
}.

Definition empty_store : Store := mkStore ∅ [] [] 1.

Definition set_workflows (st : Store) (m : gmap string Workflow) : Store :=
  mkStore m (steps st) (checkpoints st) (next_id st).
Definition set_steps (st : Store) (l : list WorkflowStep) : Store :=
  mkStore (workflows st) l (checkpoints st) (next_id st).
Definition set_checkpoints (st : Store) (l : list Checkpoint) : Store :=
  mkStore (workflows st) (steps st) l (next_id st).
Definition take_id (st : Store) : Store :=
  mkStore (workflows st) (steps st) (checkpoints st) (next_id st + 1).

Definition step_key (workflowID stepID : string) (s : WorkflowStep) : bool :=
  str_eqb (s_WorkflowID s) workflowID && str_eqb (s_StepID s) stepID.

Definition cp_key (workflowID stepID : string) (c : Checkpoint) : bool :=
  str_eqb (c_WorkflowID c) workflowID && str_eqb (c_StepID c) stepID.

(** UPDATE ... WHERE: rows that satisfy the condition are changed. *)
Definition update_where {A} (cond : A -> bool) (f : A -> A) (l : list A) : list A :=
  (fun x => if cond x then f x else x) <$> l.

Definition step_before (a b : WorkflowStep) : bool := s_StepIndex a <? s_StepIndex b.

(** * Workflows *)

Definition default_str (s d : string) : string := if str_eqb s "" then d else s.

Definition set_progress (w : Workflow) (status : string) (idx : Z) (total : option Z)
    (metadata : list (string * value)) (completed : option Z) (now : Z) : Workflow :=
  mkWorkflow (w_WorkflowID w) (w_WorkflowName w) (w_Source w) status idx total (w_OrgID w)
    (w_TenantID w) (w_UserID w) (w_ClientID w) (w_TraceID w) metadata (w_StartedAt w) completed
    (w_CreatedAt w) now (w_Steps w).

(** INSERT: a duplicate primary key is an error. *)
Definition Create (st : Store) (now : Z) (w : Workflow) : result wcp_error (Workflow * Store) :=
  let w := mkWorkflow (w_WorkflowID w) (w_WorkflowName w)
             (default_str (w_Source w) WorkflowSourceExternal)
             (default_str (w_Status w) WorkflowStatusInProgress)
             (w_CurrentStepIndex w) (w_TotalSteps w) (w_OrgID w) (w_TenantID w) (w_UserID w)
             (w_ClientID w) (w_TraceID w) (w_Metadata w) now (w_CompletedAt w) now now [] in
  match workflows st !! w_WorkflowID w with
  | Some _ => Err EDuplicateID
  | None => Ok (w, set_workflows st (<[w_WorkflowID w := w]> (workflows st)))
  end.

Definition Delete (st : Store) (workflowID : string) : Store :=
  set_workflows st (delete workflowID (workflows st)).

Definition GetStepsForWorkflow (st : Store) (workflowID : string) : list WorkflowStep :=
  SliceStable step_before (List.filter (fun s => str_eqb (s_WorkflowID s) workflowID) (steps st)).

Definition with_steps (w : Workflow) (l : list WorkflowStep) : Workflow :=
  mkWorkflow (w_WorkflowID w) (w_WorkflowName w) (w_Source w) (w_Status w) (w_CurrentStepIndex w)
    (w_TotalSteps w) (w_OrgID w) (w_TenantID w) (w_UserID w) (w_ClientID w) (w_TraceID w)
    (w_Metadata w) (w_StartedAt w) (w_CompletedAt w) (w_CreatedAt w) (w_UpdatedAt w) l.

Definition GetByID (st : Store) (workflowID : string) : result wcp_error Workflow :=
  match workflows st !! workflowID with
  | None => Err EWorkflowNotFound
  | Some w => Ok (with_steps w (GetStepsForWorkflow st workflowID))
  end.

(** An UPDATE of one workflow row; zero affected rows is not found. *)
Definition update_workflow (st : Store) (workflowID : string) (f : Workflow -> Workflow)
  : result wcp_error Store :=
  match workflows st !! workflowID with
  | None => Err EWorkflowNotFound
  | Some w => Ok (set_workflows st (<[workflowID := f w]> (workflows st)))
  end.

Definition UpdateStatus (st : Store) (now : Z) (workflowID status : string) : result wcp_error Store :=
  update_workflow st workflowID (fun w =>
    set_progress w status (w_CurrentStepIndex w) (w_TotalSteps w) (w_Metadata w) (w_CompletedAt w) now).

(** COALESCE(total_steps, current_step_index) *)
Definition final_total (w : Workflow) : option Z :=
  Some (default (w_CurrentStepIndex w) (w_TotalSteps w)).

Definition Complete (st : Store) (now : Z) (workflowID : string) : result wcp_error Store :=
  update_workflow st workflowID (fun w =>
    set_progress w WorkflowStatusCompleted (w_CurrentStepIndex w) (final_total w) (w_Metadata w)
      (Some now) now).

Definition Abort (st : Store) (now : Z) (workflowID reason : string) : result wcp_error Store :=
  update_workflow st workflowID (fun w =>
    set_progress w WorkflowStatusAborted (w_CurrentStepIndex w) (final_total w)
      (assoc_set "abort_reason" (VString reason) (w_Metadata w)) (Some now) now).

Definition Fail (st : Store) (now : Z) (workflowID reason : string) : result wcp_error Store :=
  update_workflow st workflowID (fun w =>
    set_progress w WorkflowStatusFailed (w_CurrentStepIndex w) (final_total w)
      (assoc_set "failure_reason" (VString reason) (w_Metadata w)) (Some now) now).

(** * Steps *)

Definition GetStepDecision (st : Store) (workflowID stepID : string) : option WorkflowStep :=
  find_first (step_key workflowID stepID) (steps st).

Definition GetStep (st : Store) (workflowID stepID : string) : result wcp_error WorkflowStep :=
  match GetStepDecision st workflowID stepID with
  | None => Err EStepNotFound
  | Some s => Ok s
  end.

(** The row inserted by a first gate: counters start at 1 and 0. *)
Definition inserted_step (id now : Z) (s : WorkflowStep) : WorkflowStep :=
  mkStep id (s_WorkflowID s) (s_StepID s) (s_StepIndex s) (s_StepName s) (s_StepType s)
    (s_Decision s) (s_DecisionReason s) (s_PoliciesEvaluated s) (s_PoliciesMatched s)
    (s_ApprovalStatus s) "" None (s_StepInput s) (s_Model s) (s_Provider s)
    (s_TokensIn s) (s_TokensOut s) (s_CostUSD s) None "" now None 1 0 (s_Decision s)
    (match s_IdempotencyKey s with
     | Some k => if str_eqb k "" then None else Some k
     | None => None
     end) (Some now).

(** ON CONFLICT DO UPDATE: [old] is the existing row, [s] the excluded one. *)
Definition conflict_step (now : Z) (s old : WorkflowStep) : WorkflowStep :=
  mkStep (s_ID old) (s_WorkflowID old) (s_StepID old) (s_StepIndex old) (s_StepName s) (s_StepType s)
    (s_Decision s) (s_DecisionReason s) (s_PoliciesEvaluated s) (s_PoliciesMatched s)
    (s_ApprovalStatus s) (s_ApprovedBy old) (s_ApprovedAt old) (s_StepInput s) (s_Model s) (s_Provider s)
    (s_TokensIn s) (s_TokensOut s) (s_CostUSD s) (s_StepOutput old) (s_ApprovalComment old) now
    (s_StepCompletedAt old) (s_GateCount old + 1) (s_CompletionCount old) (s_Decision old)
    (match s_IdempotencyKey old with
     | Some k => Some k
     | None => match s_IdempotencyKey s with
               | Some k => if str_eqb k "" then None else Some k
               | None => None
               end
     end) (s_FirstAttemptAt old).

(** The second statement: UPDATE workflows SET current_step_index = $1 WHERE
    current_step_index < $1, errors ignored. *)
Definition advance_index (st : Store) (now : Z) (workflowID : string) (idx : Z) : Store :=
  match workflows st !! workflowID with
  | Some w =>
      if w_CurrentStepIndex w <? idx then
        set_workflows st (<[workflowID :=
          set_progress w (w_Status w) idx (w_TotalSteps w) (w_Metadata w) (w_CompletedAt w) now]>
          (workflows st))
      else st
  | None => st
  end.

(** The first statement: INSERT ... ON CONFLICT DO UPDATE ... RETURNING. *)
Definition upsert_step (st : Store) (now : Z) (s : WorkflowStep) : WorkflowStep * Store :=
  match GetStepDecision st (s_WorkflowID s) (s_StepID s) with
  | Some old =>
      (conflict_step now s old,
       set_steps st (update_where (step_key (s_WorkflowID s) (s_StepID s)) (conflict_step now s) (steps st)))
  | None =>
      (inserted_step (next_id st) now s, take_id (set_steps st (steps st ++ [inserted_step (next_id st) now s])))
  end.

(** Both statements in a row; [WcpRace] interleaves them. *)
Definition AddStep (st : Store) (now : Z) (s : WorkflowStep) : WorkflowStep * Store :=
  let '(row, st') := upsert_step st now s in (row, advance_index st' now (s_WorkflowID s) (s_StepIndex s)).

Definition bumped_step (now : Z) (s : WorkflowStep) : WorkflowStep :=
  mkStep (s_ID s) (s_WorkflowID s) (s_StepID s) (s_StepIndex s) (s_StepName s) (s_StepType s)
    (s_Decision s) (s_DecisionReason s) (s_PoliciesEvaluated s) (s_PoliciesMatched s)
    (s_ApprovalStatus s) (s_ApprovedBy s) (s_ApprovedAt s) (s_StepInput s) (s_Model s) (s_Provider s)
    (s_TokensIn s) (s_TokensOut s) (s_CostUSD s) (s_StepOutput s) (s_ApprovalComment s) now
    (s_StepCompletedAt s) (s_GateCount s + 1) (s_CompletionCount s) (s_Decision s)
    (s_IdempotencyKey s) (s_FirstAttemptAt s).

(** An UPDATE of one step row; zero affected rows is an error. *)
Definition update_step (st : Store) (workflowID stepID : string) (f : WorkflowStep -> WorkflowStep)
  : result wcp_error (WorkflowStep * Store) :=
  match GetStepDecision st workflowID stepID with
  | None => Err EStepNotFound
  | Some s => Ok (f s, set_steps st (update_where (step_key workflowID stepID) f (steps st)))
  end.

Definition BumpGateCountCached (st : Store) (now : Z) (workflowID stepID : string)
  : result wcp_error (WorkflowStep * Store) := update_step st workflowID stepID (bumped_step now).

Definition approved_step (now : Z) (status by_ comment : string) (s : WorkflowStep) : WorkflowStep :=
  mkStep (s_ID s) (s_WorkflowID s) (s_StepID s) (s_StepIndex s) (s_StepName s) (s_StepType s)
    (s_Decision s) (s_DecisionReason s) (s_PoliciesEvaluated s) (s_PoliciesMatched s)
    (Some status) by_ (Some now) (s_StepInput s) (s_Model s) (s_Provider s)
    (s_TokensIn s) (s_TokensOut s) (s_CostUSD s) (s_StepOutput s) comment (s_GateCheckedAt s)
    (s_StepCompletedAt s) (s_GateCount s) (s_CompletionCount s) (s_LastDecision s)
    (s_IdempotencyKey s) (s_FirstAttemptAt s).

Definition UpdateStepApproval (st : Store) (now : Z) (workflowID stepID status by_ comment : string)
  : result wcp_error (WorkflowStep * Store) :=
  update_step st workflowID stepID (approved_step now status by_ comment).

(** COALESCE(new, old) *)
Definition coalesce {A} (new old : option A) : option A :=
  match new with Some x => Some x | None => old end.

Definition completed_step (now : Z) (req : option StepCompleteRequest) (s : WorkflowStep) : WorkflowStep :=
  mkStep (s_ID s) (s_WorkflowID s) (s_StepID s) (s_StepIndex s) (s_StepName s) (s_StepType s)
    (s_Decision s) (s_DecisionReason s) (s_PoliciesEvaluated s) (s_PoliciesMatched s)
    (s_ApprovalStatus s) (s_ApprovedBy s) (s_ApprovedAt s) (s_StepInput s) (s_Model s) (s_Provider s)
    (coalesce (req ≫= co_TokensIn) (s_TokensIn s)) (coalesce (req ≫= co_TokensOut) (s_TokensOut s))
    (coalesce (req ≫= co_CostUSD) (s_CostUSD s)) (coalesce (req ≫= co_Output) (s_StepOutput s))
    (s_ApprovalComment s) (s_GateCheckedAt s) (Some now) (s_GateCount s) (s_CompletionCount s + 1)
    (s_LastDecision s) (s_IdempotencyKey s) (s_FirstAttemptAt s).

Definition RepoMarkStepCompleted (st : Store) (now : Z) (workflowID stepID : string)
    (req : option StepCompleteRequest) : result wcp_error (WorkflowStep * Store) :=
  update_step st workflowID stepID (completed_step now req).

(** * Checkpoints *)

Definition conflict_checkpoint (new old : Checkpoint) : Checkpoint :=
  mkCheckpoint (c_ID old) (c_WorkflowID old) (c_StepID old) (c_StepIndex old) (c_StepType new)
    (c_StepName new) (c_CheckpointType new) (c_GateDecision new) (c_GateReason new)
    (c_PoliciesEvaluated new) (c_PoliciesMatched new) (c_StepInput new) (c_ToolContext new)
    (c_Model new) (c_Provider new) (c_IsResumable new) (c_ResumeCount old) (c_LastResumedAt old)
    (c_OrgID new) (c_TenantID new) (c_UserID new) (c_ClientID new) (c_CreatedAt old).

Definition inserted_checkpoint (id now : Z) (c : Checkpoint) : Checkpoint :=
  mkCheckpoint id (c_WorkflowID c) (c_StepID c) (c_StepIndex c) (c_StepType c)
    (c_StepName c) (c_CheckpointType c) (c_GateDecision c) (c_GateReason c)
    (c_PoliciesEvaluated c) (c_PoliciesMatched c) (c_StepInput c) (c_ToolContext c)
    (c_Model c) (c_Provider c) (c_IsResumable c) 0 None
    (c_OrgID c) (c_TenantID c) (c_UserID c) (c_ClientID c) now.

Section Checkpoints.
Context `{U : Unicode}.

Definition CreateCheckpoint (st : Store) (now : Z) (c : Checkpoint) : result scope_error Store :=
  match ValidateRowKeys (c_OrgID c) (c_TenantID c) with
  | Some e => Err e
  | None =>
      match find_first (cp_key (c_WorkflowID c) (c_StepID c)) (checkpoints st) with
      | Some _ =>
          Ok (set_checkpoints st
                (update_where (cp_key (c_WorkflowID c) (c_StepID c)) (conflict_checkpoint c) (checkpoints st)))
      | None =>
          Ok (take_id (set_checkpoints st (checkpoints st ++ [inserted_checkpoint (next_id st) now c])))
      end
  end.
End Checkpoints.

Definition cp_before (a b : Checkpoint) : bool := c_StepIndex a <? c_StepIndex b.
Definition cp_after (a b : Checkpoint) : bool := c_StepIndex b <? c_StepIndex a.

Definition ListCheckpoints (st : Store) (workflowID : string) : list Checkpoint :=
  SliceStable cp_before (List.filter (fun c => str_eqb (c_WorkflowID c) workflowID) (checkpoints st)).

Definition GetLastResumableCheckpoint (st : Store) (workflowID : string) : option Checkpoint :=
  head (SliceStable cp_after
          (List.filter (fun c => str_eqb (c_WorkflowID c) workflowID && c_IsResumable c) (checkpoints st))).

Definition GetCheckpointByID (st : Store) (id : Z) : option Checkpoint :=
  find_first (fun c => c_ID c =? id) (checkpoints st).

Definition resumed_checkpoint (now : Z) (c : Checkpoint) : Checkpoint :=
  mkCheckpoint (c_ID c) (c_WorkflowID c) (c_StepID c) (c_StepIndex c) (c_StepType c)
    (c_StepName c) (c_CheckpointType c) (c_GateDecision c) (c_GateReason c)
    (c_PoliciesEvaluated c) (c_PoliciesMatched c) (c_StepInput c) (c_ToolContext c)
    (c_Model c) (c_Provider c) (c_IsResumable c) (c_ResumeCount c + 1) (Some now)
    (c_OrgID c) (c_TenantID c) (c_UserID c) (c_ClientID c) (c_CreatedAt c).

Definition IncrementResumeCount (st : Store) (now : Z) (id : Z) : result wcp_error Store :=
  match GetCheckpointByID st id with
  | None => Err ECheckpointNotFound
  | Some _ => Ok (set_checkpoints st (update_where (fun c => c_ID c =? id) (resumed_checkpoint now) (checkpoints st)))
  end.

(** * Listings *)

Record ListWorkflowsOptions := mkListOptions {
  lo_Status : option string;
  lo_Source : option string;
  lo_TenantID : string;
  lo_OrgID : string;
  lo_TraceID : string;
  lo_Limit : Z;
  lo_Offset : Z;
}.

Definition opt_match (o : option string) (v : string) : bool :=
  match o with Some x => str_eqb x v | None => true end.
Definition str_filter (filter_ v : string) : bool := str_eqb filter_ "" || str_eqb filter_ v.

Definition list_where (opts : ListWorkflowsOptions) (w : Workflow) : bool :=
  str_filter (lo_TenantID opts) (w_TenantID w) && str_filter (lo_OrgID opts) (w_OrgID w)
  && opt_match (lo_Status opts) (w_Status w) && opt_match (lo_Source opts) (w_Source w)
  && str_filter (lo_TraceID opts) (w_TraceID w).

Definition newer (a b : Workflow) : bool := w_CreatedAt b <? w_CreatedAt a.

Definition page_limit (limit : Z) : Z :=
  let limit := if limit <=? 0 then 20 else limit in if 100 <? limit then 100 else limit.

(** A pending step with its workflow: the join of the approval listings. *)
Record PendingApproval := mkPending {
  pa_WorkflowID : string;
  pa_WorkflowName : string;
  pa_PlanID : string;
  pa_Step : WorkflowStep;
}.

Definition pending_before (a b : PendingApproval) : bool :=
  s_GateCheckedAt (pa_Step b) <? s_GateCheckedAt (pa_Step a).

Section Listings.
Context `{U : Unicode}.
(** [metadata->>key] of a value that is neither a string nor null. *)
Context (jsonb_text : value -> option string).

Definition List_ (st : Store) (opts : ListWorkflowsOptions)
  : result scope_error (list Workflow * Z) :=
  match ValidateRowKeys (lo_OrgID opts) (lo_TenantID opts) with
  | Some e => Err e
  | None =>
      let rows := SliceStable newer
                    (List.filter (list_where opts) (map_to_list (workflows st)).*2) in
      Ok ((fun w => with_steps w (GetStepsForWorkflow st (w_WorkflowID w)))
            <$> take (Z.to_nat (page_limit (lo_Limit opts))) (drop (Z.to_nat (lo_Offset opts)) rows),
          Z.of_nat (length rows))
  end.

Definition plan_id (w : Workflow) : option string :=
  match find_first (fun e => str_eqb e.1 "plan_id") (w_Metadata w) with
  | Some (_, VString s) => Some s
  | Some (_, VNil) => None
  | Some (_, v) => jsonb_text v
  | None => None
  end.

Definition GetByPlanID (st : Store) (planID : string) : result wcp_error Workflow :=
  match SliceStable newer (List.filter (fun w => bool_decide (plan_id w = Some planID))
                             (map_to_list (workflows st)).*2) with
  | [] => Err EWorkflowNotFound
  | w :: _ => Ok (with_steps w (GetStepsForWorkflow st (w_WorkflowID w)))
  end.

(** workflow_steps JOIN workflows, pending rows of the tenant. *)
Definition pending_rows (st : Store) (tenantID : string) : list (WorkflowStep * Workflow) :=
  omap (fun s => match workflows st !! s_WorkflowID s with
                 | Some w =>
                     if bool_decide (s_ApprovalStatus s = Some ApprovalStatusPending)
                        && str_eqb (w_TenantID w) tenantID
                     then Some (s, w) else None
                 | None => None
                 end) (steps st).

Definition approval_limit (limit : Z) : nat := Z.to_nat (if limit <=? 0 then 20 else limit).

Definition RepoGetPendingApprovals (st : Store) (tenantID : string) (limit : Z) : list PendingApproval :=
  take (approval_limit limit)
    (SliceStable pending_before
       ((fun sw => mkPending (s_WorkflowID sw.1) (w_WorkflowName sw.2) "" sw.1) <$> pending_rows st tenantID)).

Definition RepoCountPendingApprovals (st : Store) (tenantID : string) : Z :=
  Z.of_nat (length (pending_rows st tenantID)).

Definition plan_rows (st : Store) (tenantID planIDFilter : string) : list PendingApproval :=
  omap (fun sw => match plan_id sw.2 with
                  | Some pid =>
                      if str_filter planIDFilter pid
                      then Some (mkPending (s_WorkflowID sw.1) (w_WorkflowName sw.2) pid sw.1)
                      else None
                  | None => None
                  end) (pending_rows st tenantID).

Definition RepoGetPendingPlanApprovals (st : Store) (tenantID planIDFilter : string) (limit : Z)
  : list PendingApproval :=
  take (approval_limit limit) (SliceStable pending_before (plan_rows st tenantID planIDFilter)).

Definition RepoCountPendingPlanApprovals (st : Store) (tenantID planIDFilter : string) : Z :=
  Z.of_nat (length (plan_rows st tenantID planIDFilter)).
End Listings.
