(* ===== verification/WcpService.v ===== *)
(** The workflow control service
    (platform/orchestrator/workflow_control/service.go): registration, the step
    gate, approvals, lifecycle transitions and checkpoint resume.

    An operation is a computation in a state and error monad over the tables
    and the emitted events; an error leaves the writes made before it in place,
    as separate SQL statements do. The policy evaluator is the interface the
    service is given; execution-tracker notifications are not represented,
    except the concurrency limit that makes [CreateWorkflow] roll back. *)

From S2P Require Import Prelude GoFloat GoStrings Regexp PolicyTypes GoJSON TenantScope.
From S2P Require Import WcpTypes WcpRepository.

Local Open Scope Z_scope.

(** * The monad *)

Inductive event : Type :=
| EvAudit (operation workflowID stepID decision reason tenantID : string)
| EvWebhook (kind workflowID stepID tenantID orgID : string).

Record Service := mkService {
  sv_store : Store;
  sv_events : list event;
}.

Definition M (A : Type) : Type := Service -> result wcp_error A * Service.

Definition ret {A} (a : A) : M A := fun s => (Ok a, s).
Definition throw {A} (e : wcp_error) : M A := fun s => (Err e, s).
Definition bind {A B} (m : M A) (k : A -> M B) : M B := fun s =>
  match m s with
  | (Ok a, s') => k a s'
  | (Err e, s') => (Err e, s')
  end.

(** A read of the tables that may fail. *)
Definition query {A} (f : Store -> result wcp_error A) : M A := fun s => (f (sv_store s), s).
(** A statement: on success the new tables are kept. *)
Definition exec {A} (f : Store -> result wcp_error (A * Store)) : M A := fun s =>
  match f (sv_store s) with
  | Ok (a, st) => (Ok a, mkService st (sv_events s))
  | Err e => (Err e, s)
  end.
Definition exec_ (f : Store -> result wcp_error Store) : M unit := fun s =>
  match f (sv_store s) with
  | Ok st => (Ok tt, mkService st (sv_events s))
  | Err e => (Err e, s)
  end.
(** A statement whose failure is logged and ignored. *)
Definition best_effort {E} (f : Store -> result E Store) : M unit := fun s =>
  match f (sv_store s) with
  | Ok st => (Ok tt, mkService st (sv_events s))
  | Err _ => (Ok tt, s)
  end.
Definition emit (e : event) : M unit := fun s => (Ok tt, mkService (sv_store s) (sv_events s ++ [e])).
Definition guard (b : bool) (e : wcp_error) : M unit := if b then ret tt else throw e.

Declare Scope wcp_scope.
Delimit Scope wcp_scope with wcp.
Notation "x <- m ;; k" := (bind m (fun x => k))
  (at level 100, m at next level, right associativity) : wcp_scope.
Notation "m ;;; k" := (bind m (fun _ => k))
  (at level 100, right associativity) : wcp_scope.

(** * Policy evaluation *)

Record StepGateContext := mkGateContext {
  gc_WorkflowID : string;
  gc_WorkflowName : string;
  gc_Source : string;
  gc_StepID : string;
  gc_StepName : string;
  gc_StepType : string;
  gc_StepInput : list (string * value);
  gc_Model : string;
  gc_Provider : string;
  gc_StepIndex : Z;
  gc_TenantID : string;
  gc_OrgID : string;
  gc_UserID : string;
  gc_ClientID : string;
  gc_ToolContext : option ToolContext;
  gc_GateCount : Z;
  gc_CompletionCount : Z;
  gc_PriorCompletionStatus : string;
  gc_PriorOutputAvailable : bool;
  gc_LastDecision : string;
  gc_FirstAttemptAgeSeconds : Z;
  gc_IdempotencyKey : string;
}.

Record StepGateEvaluation := mkEvaluation {
  ev_Decision : string;
  ev_Reason : string;
  ev_PolicyIDs : list string;
  ev_PoliciesEvaluated : list StepPolicy;
  ev_PoliciesMatched : list StepPolicy;
  ev_ApprovalID : string;
}.

(** The interface [PolicyEvaluator]. *)
Class PolicyEvaluator := EvaluateStepGate : StepGateContext -> StepGateEvaluation.

#[export] Instance DefaultPolicyEvaluator : PolicyEvaluator := fun _ =>
  mkEvaluation GateDecisionAllow "No policies configured" [] [] [] "".

(** * Retry state *)

Definition prior_status (gateCount completionCount : Z) : string :=
  if gateCount <=? 1 then PriorCompletionStatusNone
  else if 1 <=? completionCount then PriorCompletionStatusCompleted
  else PriorCompletionStatusGatedNotCompleted.

Definition buildRetryContext (s : WorkflowStep) (includePriorOutput : bool) : RetryContext :=
  let status := prior_status (s_GateCount s) (s_CompletionCount s) in
  let available := str_eqb status PriorCompletionStatusCompleted in
  mkRetry (s_GateCount s) (s_CompletionCount s) status available
    (if includePriorOutput && available then s_StepOutput s else None)
    (s_StepCompletedAt s)
    (default (s_GateCheckedAt s) (s_FirstAttemptAt s))
    (s_GateCheckedAt s) (s_LastDecision s) (default "" (s_IdempotencyKey s)).

Definition effective_key (existing : option string) (supplied : string) : string :=
  match existing with
  | Some k => if str_eqb k "" then supplied else k
  | None => supplied
  end.

(** The context given to the evaluator: counters as they will be after the
    write. [now] and timestamps are nanoseconds. *)
Definition gate_context (w : Workflow) (stepID : string) (req : StepGateRequest)
    (tenantID orgID userID clientID : string) (existing : option WorkflowStep) (now : Z)
  : StepGateContext :=
  let count := match existing with Some s => s_GateCount s + 1 | None => 1 end in
  let completions := match existing with Some s => s_CompletionCount s | None => 0 end in
  mkGateContext (w_WorkflowID w) (w_WorkflowName w) (w_Source w) stepID (rq_StepName req)
    (rq_StepType req) (rq_StepInput req) (rq_Model req) (rq_Provider req)
    (w_CurrentStepIndex w + 1) tenantID orgID userID clientID (rq_ToolContext req)
    count completions
    (match existing with
     | Some _ => prior_status count completions
     | None => PriorCompletionStatusNone
     end)
    (1 <=? completions)
    (match existing with Some s => s_Decision s | None => "" end)
    (match existing with
     | Some s => match s_FirstAttemptAt s with
                 | Some t => Z.quot (Z.max 0 (now - t)) 1000000000
                 | None => 0
                 end
     | None => 0
     end)
    (match existing with
     | Some s => effective_key (s_IdempotencyKey s) (rq_IdempotencyKey req)
     | None => rq_IdempotencyKey req
     end).

(** [None] is a nil error. *)
Definition validateIdempotencyKeyMatch (existing : option WorkflowStep) (supplied : string)
  : option wcp_error :=
  match existing with
  | None => None
  | Some s =>
      let stored := default "" (s_IdempotencyKey s) in
      if str_eqb stored "" && str_eqb supplied "" then None
      else if negb (str_eqb stored "") && str_eqb stored supplied then None
      else Some (EKeyMismatch stored supplied)
  end.

Definition approval_url (baseURL workflowID stepID : string) : string :=
  if str_eqb baseURL "" then ""
  else baseURL +:+ "/workflows/" +:+ workflowID +:+ "/steps/" +:+ stepID +:+ "/approve".

Definition decision_id (workflowID stepID : string) : string := "dec_" +:+ workflowID +:+ "_" +:+ stepID.

Definition is_pending (s : WorkflowStep) : bool :=
  str_eqb (s_Decision s) GateDecisionRequireApproval
  && bool_decide (s_ApprovalStatus s = Some ApprovalStatusPending).

(** The decision a stored step stands for after its approval was resolved. *)
Definition resolved_decision (s : WorkflowStep) : string * string :=
  if str_eqb (s_Decision s) GateDecisionRequireApproval then
    match s_ApprovalStatus s with
    | None => (s_Decision s, s_DecisionReason s)
    | Some a =>
        if str_eqb a ApprovalStatusApproved
        then (GateDecisionAllow, "Previously approved: " +:+ s_DecisionReason s)
        else if str_eqb a ApprovalStatusRejected
        then (GateDecisionBlock, "Previously rejected: " +:+ s_DecisionReason s)
        else if str_eqb a ApprovalStatusExpired
        then (GateDecisionBlock, "Previously expired (approval timed out): " +:+ s_DecisionReason s)
        else (s_Decision s, s_DecisionReason s)
    end
  else (s_Decision s, s_DecisionReason s).

Definition buildCachedResponse (s : WorkflowStep) (workflowID baseURL : string) (includePriorOutput : bool)
  : StepGateResponse :=
  let '(decision, reason) := resolved_decision s in
  mkGateResponse decision (s_StepID s) (decision_id workflowID (s_StepID s))
    (sp_PolicyID <$> s_PoliciesMatched s) reason ""
    (if is_pending s then approval_url baseURL workflowID (s_StepID s) else "")
    (s_PoliciesEvaluated s) (s_PoliciesMatched s) true "cached" (buildRetryContext s includePriorOutput).

(** The row a gate hands to [AddStep]. *)
Definition gate_step (workflowID stepID : string) (req : StepGateRequest) (idx : Z)
    (e : StepGateEvaluation) : WorkflowStep :=
  mkStep 0 workflowID stepID idx (rq_StepName req) (rq_StepType req) (ev_Decision e) (ev_Reason e)
    (ev_PoliciesEvaluated e) (ev_PoliciesMatched e)
    (if str_eqb (ev_Decision e) GateDecisionRequireApproval then Some ApprovalStatusPending else None)
    "" None (rq_StepInput req) (rq_Model req) (rq_Provider req) (rq_TokensIn req) (rq_TokensOut req)
    (rq_CostUSD req) None "" 0 None 0 0 ""
    (if str_eqb (rq_IdempotencyKey req) "" then None else Some (rq_IdempotencyKey req)) None.

Definition gate_checkpoint (workflowID stepID : string) (req : StepGateRequest) (idx : Z)
    (e : StepGateEvaluation) (tenantID orgID userID clientID : string) : Checkpoint :=
  mkCheckpoint 0 workflowID stepID idx (rq_StepType req) (rq_StepName req)
    (if str_eqb (ev_Decision e) GateDecisionRequireApproval then CheckpointApprovalBoundary
     else CheckpointStepGate)
    (ev_Decision e) (ev_Reason e) (ev_PoliciesEvaluated e) (ev_PoliciesMatched e) (rq_StepInput req)
    (rq_ToolContext req) (rq_Model req) (rq_Provider req)
    (negb (str_eqb (ev_Decision e) GateDecisionBlock)) 0 None orgID tenantID userID clientID 0.

Definition override_evaluation (d : string) : StepGateEvaluation :=
  mkEvaluation d ("Gate override: execution mode requires " +:+ d) ["execution-mode-override"] [] [] "".

Section Service.
Context `{U : Unicode} `{E : PolicyEvaluator}.
Context (baseURL : string).
Local Open Scope wcp_scope.

Definition workflowBelongsTo (w : Workflow) (tenantID orgID : string) : bool :=
  match Authorize (mkScope orgID tenantID) (w_OrgID w) (w_TenantID w) with
  | None => true
  | Some _ => false
  end.

(** The preamble of every scoped operation: load, then check the owner. *)
Definition owned_workflow (workflowID tenantID orgID : string) : M Workflow :=
  w <- query (fun st => GetByID st workflowID) ;;
  guard (workflowBelongsTo w tenantID orgID) EWorkflowNotFound ;;;
  ret w.

(** [newID] is the generated identifier, [limit_reached] the answer of the
    execution tracker. *)
Definition CreateWorkflow (now : Z) (newID : string) (limit_reached : bool)
    (req : CreateWorkflowRequest) (tenantID orgID userID clientID : string) : M Workflow :=
  guard (negb (str_eqb (cr_WorkflowName req) "")) EInvalidWorkflowName ;;;
  guard (RuneCount (cr_TraceID req) <=? 255)%nat ETraceTooLong ;;;
  guard (match ValidateRowKeys orgID tenantID with None => true | Some _ => false end) ENoScope ;;;
  w <- exec (fun st => Create st now
         (mkWorkflow newID (cr_WorkflowName req) (default_str (cr_Source req) WorkflowSourceExternal)
            WorkflowStatusInProgress 0 (cr_TotalSteps req) orgID tenantID userID clientID
            (cr_TraceID req) (cr_Metadata req) 0 None 0 0 [])) ;;
  emit (EvAudit "created" newID "" "" "" tenantID) ;;;
  if limit_reached then
    exec_ (fun st => Ok (Delete st newID)) ;;; throw EConcurrentLimit
  else ret w.

Definition GetWorkflow (workflowID tenantID orgID : string) : M Workflow :=
  owned_workflow workflowID tenantID orgID.

(** The guard against advancing past a pending approval. *)
Definition pending_elsewhere (w : Workflow) (stepID : string) : option string :=
  match last (w_Steps w) with
  | Some s => if is_pending s && negb (str_eqb (s_StepID s) stepID) then Some (s_StepID s) else None
  | None => None
  end.

(** Evaluation, persistence, checkpoint, response and notifications of a gate
    that is not answered from the stored decision. *)
Definition fresh_gate (now : Z) (w : Workflow) (stepID : string) (req : StepGateRequest)
    (tenantID orgID userID clientID : string) (existing : option WorkflowStep) : M StepGateResponse :=
  let workflowID := w_WorkflowID w in
  let ctx := gate_context w stepID req tenantID orgID userID clientID existing now in
  let e := match rq_GateOverride req with
           | Some d => override_evaluation d
           | None => EvaluateStepGate ctx
           end in
  step <- exec (fun st => Ok (AddStep st now (gate_step workflowID stepID req (gc_StepIndex ctx) e))) ;;
  persisted <- query (fun st => Ok (GetStepDecision st workflowID stepID)) ;;
  if match persisted with Some p => negb (str_eqb (s_Decision p) (ev_Decision e)) | None => false end
  then ret (buildCachedResponse (default step persisted) workflowID baseURL (rq_IncludePriorOutput req))
  else
    best_effort (fun st => CreateCheckpoint st now
      (gate_checkpoint workflowID stepID req (gc_StepIndex ctx) e tenantID orgID userID clientID)) ;;;
    emit (EvAudit "step_gate" workflowID stepID (ev_Decision e) (ev_Reason e) tenantID) ;;;
    (if str_eqb (ev_Decision e) GateDecisionRequireApproval
     then emit (EvWebhook "step.approval_required" workflowID stepID tenantID orgID) else ret tt) ;;;
    ret (mkGateResponse (ev_Decision e) stepID (decision_id workflowID stepID) (ev_PolicyIDs e)
           (ev_Reason e) (ev_ApprovalID e)
           (if str_eqb (ev_Decision e) GateDecisionRequireApproval
            then approval_url baseURL workflowID stepID else "")
           (ev_PoliciesEvaluated e) (ev_PoliciesMatched e) false "fresh"
           (buildRetryContext (default step persisted) (rq_IncludePriorOutput req))).

Definition StepGate (now : Z) (workflowID stepID : string) (req : StepGateRequest)
    (tenantID orgID userID clientID : string) : M StepGateResponse :=
  w <- owned_workflow workflowID tenantID orgID ;;
  guard (negb (IsTerminal w)) (ETerminal (w_Status w)) ;;;
  let retryPolicy := default_str (rq_RetryPolicy req) RetryPolicyIdempotent in
  existing <- query (fun st => Ok (GetStepDecision st workflowID stepID)) ;;
  match validateIdempotencyKeyMatch existing (rq_IdempotencyKey req) with
  | Some err => throw err
  | None =>
      if str_eqb retryPolicy RetryPolicyIdempotent
         && match rq_GateOverride req with None => true | Some _ => false end
         && match existing with Some _ => true | None => false end
      then
        bumped <- exec (fun st => BumpGateCountCached st now workflowID stepID) ;;
        ret (buildCachedResponse bumped workflowID baseURL (rq_IncludePriorOutput req))
      else
        match pending_elsewhere w stepID with
        | Some sid => throw (EPendingApproval sid)
        | None => fresh_gate now w stepID req tenantID orgID userID clientID existing
        end
  end.

Definition ServiceGetStep (workflowID stepID tenantID orgID : string) : M WorkflowStep :=
  owned_workflow workflowID tenantID orgID ;;;
  query (fun st => GetStep st workflowID stepID).

Definition ServiceGetByPlanID (jsonb_text : value -> option string) (planID tenantID orgID : string)
  : M Workflow :=
  w <- query (fun st => GetByPlanID jsonb_text st planID) ;;
  guard (workflowBelongsTo w tenantID orgID) EWorkflowNotFound ;;;
  ret w.

(** The checks shared by approval and rejection. *)
Definition pending_step (workflowID stepID : string) : M WorkflowStep :=
  s <- query (fun st => GetStep st workflowID stepID) ;;
  guard (str_eqb (s_Decision s) GateDecisionRequireApproval) ENoApprovalNeeded ;;;
  guard (bool_decide (s_ApprovalStatus s = Some ApprovalStatusPending)) ENotPending ;;;
  ret s.

Definition ApproveStep (now : Z) (workflowID stepID tenantID orgID approvedBy comment : string) : M unit :=
  w <- owned_workflow workflowID tenantID orgID ;;
  pending_step workflowID stepID ;;;
  exec (fun st => UpdateStepApproval st now workflowID stepID ApprovalStatusApproved approvedBy comment) ;;;
  emit (EvAudit "step_approved" workflowID stepID "allow" comment (w_TenantID w)) ;;;
  emit (EvWebhook "step.approved" workflowID stepID (w_TenantID w) (w_OrgID w)).

Definition RejectStep (now : Z) (workflowID stepID tenantID orgID rejectedBy reason : string) : M unit :=
  w <- owned_workflow workflowID tenantID orgID ;;
  pending_step workflowID stepID ;;;
  exec (fun st => UpdateStepApproval st now workflowID stepID ApprovalStatusRejected rejectedBy reason) ;;;
  best_effort (fun st => Abort st now workflowID ("Step " +:+ stepID +:+ " rejected by " +:+ rejectedBy)) ;;;
  emit (EvAudit "step_rejected" workflowID stepID "block" reason (w_TenantID w)) ;;;
  emit (EvWebhook "step.rejected" workflowID stepID (w_TenantID w) (w_OrgID w)).

Definition ResumeWorkflow (workflowID tenantID orgID : string) : M unit :=
  w <- owned_workflow workflowID tenantID orgID ;;
  guard (negb (IsTerminal w)) (ETerminal (w_Status w)) ;;;
  match last (w_Steps w) with
  | Some s =>
      if str_eqb (s_Decision s) GateDecisionRequireApproval then
        match s_ApprovalStatus s with
        | None => throw (EPendingApproval (s_StepID s))
        | Some a =>
            if str_eqb a ApprovalStatusPending then throw (EPendingApproval (s_StepID s))
            else if str_eqb a ApprovalStatusRejected then throw (EStepRejected (s_StepID s))
            else if str_eqb a ApprovalStatusExpired then throw (EStepExpired (s_StepID s))
            else ret tt
        end
      else ret tt
  | None => ret tt
  end.

Definition AbortWorkflow (now : Z) (workflowID reason tenantID orgID : string) : M unit :=
  w <- owned_workflow workflowID tenantID orgID ;;
  guard (negb (IsTerminal w)) (ETerminal (w_Status w)) ;;;
  exec_ (fun st => Abort st now workflowID reason) ;;;
  emit (EvAudit "aborted" workflowID "" "" reason (w_TenantID w)) ;;;
  emit (EvWebhook "workflow.aborted" workflowID "" (w_TenantID w) (w_OrgID w)).

Definition CompleteWorkflow (now : Z) (workflowID tenantID orgID : string) : M unit :=
  w <- owned_workflow workflowID tenantID orgID ;;
  guard (negb (IsTerminal w)) (ETerminal (w_Status w)) ;;;
  match find_first is_pending (w_Steps w) with
  | Some s => throw (EPendingApproval (s_StepID s))
  | None =>
      exec_ (fun st => Complete st now workflowID) ;;;
      emit (EvAudit "completed" workflowID "" "" "" (w_TenantID w)) ;;;
      emit (EvWebhook "workflow.completed" workflowID "" (w_TenantID w) (w_OrgID w))
  end.

Definition FailWorkflow (now : Z) (workflowID reason tenantID orgID : string) : M unit :=
  w <- owned_workflow workflowID tenantID orgID ;;
  guard (negb (IsTerminal w)) (ETerminal (w_Status w)) ;;;
  exec_ (fun st => Fail st now workflowID reason) ;;;
  emit (EvAudit "failed" workflowID "" "" reason (w_TenantID w)) ;;;
  emit (EvWebhook "workflow.failed" workflowID "" (w_TenantID w) (w_OrgID w)).

Definition MarkStepCompleted (now : Z) (workflowID stepID : string) (req : option StepCompleteRequest)
    (tenantID orgID : string) : M unit :=
  w <- owned_workflow workflowID tenantID orgID ;;
  existing <- query (fun st => Ok (GetStepDecision st workflowID stepID)) ;;
  match validateIdempotencyKeyMatch existing (match req with Some r => co_IdempotencyKey r | None => "" end) with
  | Some err => throw err
  | None =>
      exec (fun st => RepoMarkStepCompleted st now workflowID stepID req) ;;;
      emit (EvAudit "step_completed" workflowID stepID "" "" (w_TenantID w))
  end.

Definition GetCheckpoints (workflowID tenantID orgID : string) : M (list Checkpoint) :=
  owned_workflow workflowID tenantID orgID ;;;
  query (fun st => Ok (ListCheckpoints st workflowID)).

(** The gate request rebuilt from a checkpoint. *)
Definition resume_request (cp : Checkpoint) : StepGateRequest :=
  mkGateRequest (c_StepName cp) (default_str (c_StepType cp) StepTypeToolCall) (c_StepInput cp)
    (c_Model cp) (c_Provider cp) None None None (c_ToolContext cp) RetryPolicyReevaluate "" None false.

Definition resumeFromCheckpointInternal (now : Z) (w : Workflow) (cp : Checkpoint) (tenantID : string)
  : M ResumeResponse :=
  guard (negb (str_eqb (w_Status w) WorkflowStatusCompleted || str_eqb (w_Status w) WorkflowStatusFailed))
    (ECannotResume (w_Status w)) ;;;
  (if str_eqb (w_Status w) WorkflowStatusAborted
   then exec_ (fun st => UpdateStatus st now (w_WorkflowID w) WorkflowStatusInProgress) else ret tt) ;;;
  resp <- StepGate now (w_WorkflowID w) (c_StepID cp) (resume_request cp) tenantID (c_OrgID cp)
            (c_UserID cp) (c_ClientID cp) ;;
  best_effort (fun st => IncrementResumeCount st now (c_ID cp)) ;;;
  ret (mkResume (w_WorkflowID w) (c_StepID cp) (c_StepIndex cp) (gr_Decision resp) "fresh"
         (c_ResumeCount cp + 1)).

Definition ResumeFromLastCheckpoint (now : Z) (workflowID tenantID orgID : string) : M ResumeResponse :=
  w <- owned_workflow workflowID tenantID orgID ;;
  cp <- query (fun st => match GetLastResumableCheckpoint st workflowID with
                         | Some c => Ok c | None => Err ENoCheckpoint end) ;;
  resumeFromCheckpointInternal now w cp tenantID.

Definition ResumeFromCheckpoint (now : Z) (workflowID : string) (checkpointID : Z)
    (tenantID orgID : string) : M ResumeResponse :=
  w <- owned_workflow workflowID tenantID orgID ;;
  cp <- query (fun st => match GetCheckpointByID st checkpointID with
                         | Some c => Ok c | None => Err ECheckpointNotFound end) ;;
  guard (str_eqb (c_WorkflowID cp) workflowID) EWrongWorkflow ;;;
  guard (match Authorize (mkScope orgID tenantID) (c_OrgID cp) (c_TenantID cp) with
         | None => true | Some _ => false end) ECheckpointNotFound ;;;
  guard (c_IsResumable cp) ENotResumable ;;;
  resumeFromCheckpointInternal now w cp tenantID.

(** * Listings *)

Record ListWorkflowsResponse := mkListing {
  lr_Workflows : list WorkflowStatusResponse;
  lr_Total : Z;
  lr_Limit : Z;
  lr_Offset : Z;
  lr_HasMore : bool;
}.

Definition ListWorkflows (opts : ListWorkflowsOptions) : M ListWorkflowsResponse :=
  guard (match ValidateRowKeys (lo_OrgID opts) (lo_TenantID opts) with None => true | Some _ => false end)
    ENoScope ;;;
  r <- query (fun st => match List_ st opts with Ok x => Ok x | Err _ => Err ENoScope end) ;;
  let '(ws, total) := r in
  ret (mkListing (ToStatusResponse <$> ws) total
         (if lo_Limit opts <=? 0 then 20 else lo_Limit opts) (lo_Offset opts)
         (lo_Offset opts + Z.of_nat (length ws) <? total)).

Definition requireTenant (tenantID : string) : M unit :=
  let trimmed := TrimSpace tenantID in
  guard (negb (str_eqb trimmed "" || str_eqb trimmed UnownedOrgSentinel)) ENoScope.

Definition GetPendingApprovals (tenantID : string) (limit : Z) : M (list PendingApproval) :=
  requireTenant tenantID ;;; query (fun st => Ok (RepoGetPendingApprovals st tenantID limit)).

Definition CountPendingApprovals (tenantID : string) : M Z :=
  requireTenant tenantID ;;; query (fun st => Ok (RepoCountPendingApprovals st tenantID)).

Definition GetPendingPlanApprovals (jsonb_text : value -> option string)
    (tenantID planIDFilter : string) (limit : Z) : M (list PendingApproval) :=
  requireTenant tenantID ;;;
  query (fun st => Ok (RepoGetPendingPlanApprovals jsonb_text st tenantID planIDFilter limit)).

Definition CountPendingPlanApprovals (jsonb_text : value -> option string)
    (tenantID planIDFilter : string) : M Z :=
  requireTenant tenantID ;;;
  query (fun st => Ok (RepoCountPendingPlanApprovals jsonb_text st tenantID planIDFilter)).
End Service.
