(* ===== verification/WcpSpec.v ===== *)
(** The abstract specification of the workflow control plane: a transition
    system on the tables whose rules carry the guards of the service, its
    invariant, and what every transition preserves. [WcpFacts] shows that each
    service operation is a sequence of these transitions. *)

From S2P Require Import Prelude GoFloat GoStrings Regexp PolicyTypes GoJSON TenantScope.
From S2P Require Import WcpTypes WcpRepository WcpService.

Local Open Scope Z_scope.

Definition terminal_status (s : string) : bool :=
  str_eqb s WorkflowStatusCompleted || str_eqb s WorkflowStatusAborted || str_eqb s WorkflowStatusFailed.

(** A step the service considers as waiting for a reviewer. *)
Definition no_pending (st : Store) (wid : string) : Prop :=
  forall s, s ∈ steps st -> s_WorkflowID s = wid -> is_pending s = false.

Inductive trans : Store -> Store -> Prop :=
| T_create st id w :
    workflows st !! id = None -> w_WorkflowID w = id -> w_Status w = WorkflowStatusInProgress ->
    trans st (set_workflows st (<[id := w]> (workflows st)))
| T_gate st now wid w s :
    workflows st !! wid = Some w -> IsTerminal w = false -> s_WorkflowID s = wid ->
    s_StepIndex s = w_CurrentStepIndex w + 1 ->
    validateIdempotencyKeyMatch (GetStepDecision st wid (s_StepID s)) (default "" (s_IdempotencyKey s)) = None ->
    trans st (AddStep st now s).2
| T_bump st now wid w sid s st' :
    workflows st !! wid = Some w -> IsTerminal w = false ->
    BumpGateCountCached st now wid sid = Ok (s, st') -> trans st st'
| T_approve st now wid sid s by_ comment s' st' :
    GetStepDecision st wid sid = Some s -> is_pending s = true ->
    UpdateStepApproval st now wid sid ApprovalStatusApproved by_ comment = Ok (s', st') ->
    trans st st'
| T_reject st now wid sid s by_ comment reason s' st1 st' :
    GetStepDecision st wid sid = Some s -> is_pending s = true ->
    UpdateStepApproval st now wid sid ApprovalStatusRejected by_ comment = Ok (s', st1) ->
    Abort st1 now wid reason = Ok st' -> trans st st'
| T_complete st now wid w st' :
    workflows st !! wid = Some w -> IsTerminal w = false -> no_pending st wid ->
    Complete st now wid = Ok st' -> trans st st'
| T_abort st now wid w reason st' :
    workflows st !! wid = Some w -> IsTerminal w = false ->
    Abort st now wid reason = Ok st' -> trans st st'
| T_fail st now wid w reason st' :
    workflows st !! wid = Some w -> IsTerminal w = false ->
    Fail st now wid reason = Ok st' -> trans st st'
| T_mark st now wid sid req s st' :
    RepoMarkStepCompleted st now wid sid req = Ok (s, st') -> trans st st'
| T_reopen st now wid w st' :
    workflows st !! wid = Some w -> w_Status w = WorkflowStatusAborted ->
    UpdateStatus st now wid WorkflowStatusInProgress = Ok st' -> trans st st'
| T_checkpoint st st' :
    workflows st' = workflows st -> steps st' = steps st -> trans st st'.

(** * The invariant *)

Record store_ok (st : Store) : Prop := {
  ok_keys : forall k w, workflows st !! k = Some w -> w_WorkflowID w = k;
  ok_completed : forall k w, workflows st !! k = Some w ->
    w_Status w = WorkflowStatusCompleted -> no_pending st k;
  ok_gated : forall s, s ∈ steps st ->
    1 <= s_GateCount s /\ 0 <= s_CompletionCount s /\ is_Some (s_FirstAttemptAt s) /\
    (s_IdempotencyKey s <> Some "");
}.

(** * What a transition does to one step row *)

(** History is monotone: identity, position and first attempt are fixed, the
    counters grow, a recorded idempotency key stays. *)
Definition step_evolves (a b : WorkflowStep) : Prop :=
  s_ID b = s_ID a /\ s_WorkflowID b = s_WorkflowID a /\ s_StepID b = s_StepID a /\
  s_StepIndex b = s_StepIndex a /\ s_FirstAttemptAt b = s_FirstAttemptAt a /\
  s_GateCount a <= s_GateCount b /\ s_CompletionCount a <= s_CompletionCount b /\
  (forall k, s_IdempotencyKey a = Some k -> s_IdempotencyKey b = Some k).

Lemma step_evolves_refl a : step_evolves a a.
Proof. unfold step_evolves. split_and!; auto; lia. Qed.

Lemma step_evolves_trans a b c : step_evolves a b -> step_evolves b c -> step_evolves a c.
Proof. unfold step_evolves. intros. destruct_and!. split_and!; try congruence; try lia. eauto. Qed.

#[export] Instance step_evolves_preorder : PreOrder step_evolves.
Proof. split; [exact step_evolves_refl|exact step_evolves_trans]. Qed.

(** Rows are never removed: the old rows evolve in place, new rows come after. *)
Definition steps_extend (l l' : list WorkflowStep) : Prop :=
  exists new, exists l1, l' = l1 ++ new /\ Forall2 step_evolves l l1.

Lemma Forall2_evolves_refl l : Forall2 step_evolves l l.
Proof. reflexivity. Qed.

Lemma steps_extend_refl l : steps_extend l l.
Proof. exists [], l. split; [by rewrite app_nil_r|]. apply Forall2_evolves_refl. Qed.

Lemma steps_extend_trans l1 l2 l3 : steps_extend l1 l2 -> steps_extend l2 l3 -> steps_extend l1 l3.
Proof.
  intros (n1 & m1 & -> & H1) (n2 & m2 & -> & H2).
  apply Forall2_app_inv_l in H2 as (a & b & Ha & Hb & ->).
  exists (b ++ n2), a. split; [by rewrite app_assoc|].
  etrans; [exact H1|exact Ha].
Qed.

Lemma update_where_extend (cond : WorkflowStep -> bool) f l :
  (forall s, cond s = true -> step_evolves s (f s)) -> steps_extend l (update_where cond f l).
Proof.
  intros H. exists [], (update_where cond f l). split; [by rewrite app_nil_r|].
  unfold update_where. induction l as [|s l IH]; [constructor|]. rewrite fmap_cons.
  constructor; [|done]. destruct (cond s) eqn:E; [auto|reflexivity].
Qed.

Lemma elem_of_update_where {A} (cond : A -> bool) f l x :
  x ∈ update_where cond f l -> exists y, y ∈ l /\ x = if cond y then f y else y.
Proof. unfold update_where. rewrite list_elem_of_fmap. naive_solver. Qed.

Lemma conflict_evolves now s old :
  step_evolves old (conflict_step now s old).
Proof.
  unfold step_evolves. simpl. split_and!; auto; try lia. intros k ->. done.
Qed.

Lemma advance_index_steps st now wid idx :
  steps (advance_index st now wid idx) = steps st /\
  checkpoints (advance_index st now wid idx) = checkpoints st.
Proof. unfold advance_index. repeat case_match; done. Qed.

Lemma AddStep_steps st now s :
  steps (AddStep st now s).2 =
  match GetStepDecision st (s_WorkflowID s) (s_StepID s) with
  | Some _ => update_where (step_key (s_WorkflowID s) (s_StepID s)) (conflict_step now s) (steps st)
  | None => steps st ++ [inserted_step (next_id st) now s]
  end.
Proof.
  unfold AddStep, upsert_step. destruct (GetStepDecision st _ _); simpl; by rewrite (proj1 (advance_index_steps _ _ _ _)).
Qed.

Lemma AddStep_extend st now s : steps_extend (steps st) (steps (AddStep st now s).2).
Proof.
  rewrite AddStep_steps. destruct (GetStepDecision st _ _).
  - apply update_where_extend. intros. apply conflict_evolves.
  - eexists _, _. split; [reflexivity|]. apply Forall2_evolves_refl.
Qed.

Lemma update_step_inv st wid sid f s st' :
  update_step st wid sid f = Ok (s, st') ->
  exists old, GetStepDecision st wid sid = Some old /\ s = f old /\
    st' = set_steps st (update_where (step_key wid sid) f (steps st)).
Proof.
  unfold update_step. destruct (GetStepDecision st wid sid) as [old|]; [|done].
  intros [= <- <-]. eauto.
Qed.

Lemma update_workflow_inv st wid f st' :
  update_workflow st wid f = Ok st' ->
  exists w, workflows st !! wid = Some w /\
    st' = set_workflows st (<[wid := f w]> (workflows st)).
Proof.
  unfold update_workflow. destruct (workflows st !! wid) as [w|]; [|done]. intros [= <-]. eauto.
Qed.

(** Inversion of the successful updates a rule mentions. *)
Ltac inv_updates :=
  repeat match goal with
  | H : update_step _ _ _ _ = Ok _ |- _ => apply update_step_inv in H as (? & ? & ? & ->)
  | H : update_workflow _ _ _ = Ok _ |- _ => apply update_workflow_inv in H as (? & ? & ->)
  | H : BumpGateCountCached _ _ _ _ = Ok _ |- _ => unfold BumpGateCountCached in H
  | H : UpdateStepApproval _ _ _ _ _ _ _ = Ok _ |- _ => unfold UpdateStepApproval in H
  | H : RepoMarkStepCompleted _ _ _ _ _ = Ok _ |- _ => unfold RepoMarkStepCompleted in H
  | H : Abort _ _ _ _ = Ok _ |- _ => unfold Abort in H
  | H : Fail _ _ _ _ = Ok _ |- _ => unfold Fail in H
  | H : Complete _ _ _ = Ok _ |- _ => unfold Complete in H
  | H : UpdateStatus _ _ _ _ = Ok _ |- _ => unfold UpdateStatus in H
  end.

Ltac solve_evolves :=
  apply update_where_extend; intros; unfold step_evolves; simpl; split_and!; auto; lia.

Lemma trans_extend st st' : trans st st' -> steps_extend (steps st) (steps st').
Proof.
  destruct 1; inv_updates; simpl; try apply steps_extend_refl; try solve_evolves.
  - apply AddStep_extend.
  - match goal with H : steps _ = steps _ |- _ => rewrite H end. apply steps_extend_refl.
Qed.

(** * Workflow rows *)

(** How a transition may change the status of a workflow. *)
Inductive status_change : string -> string -> Prop :=
| SC_same s : status_change s s
| SC_finish s s' : terminal_status s = false -> terminal_status s' = true -> status_change s s'
| SC_reject s : s <> WorkflowStatusCompleted -> status_change s WorkflowStatusAborted
| SC_reopen : status_change WorkflowStatusAborted WorkflowStatusInProgress.

Lemma AddStep_workflow st now s k w :
  workflows st !! k = Some w ->
  exists w', workflows (AddStep st now s).2 !! k = Some w' /\ w_Status w' = w_Status w /\
    w_WorkflowID w' = w_WorkflowID w /\ w_OrgID w' = w_OrgID w /\ w_TenantID w' = w_TenantID w.
Proof.
  intros Hk. unfold AddStep, upsert_step.
  assert (H : forall st1, workflows st1 = workflows st ->
    exists w', workflows (advance_index st1 now (s_WorkflowID s) (s_StepIndex s)) !! k = Some w' /\
    w_Status w' = w_Status w /\ w_WorkflowID w' = w_WorkflowID w /\ w_OrgID w' = w_OrgID w /\
    w_TenantID w' = w_TenantID w).
  { intros st1 H1. unfold advance_index. rewrite H1.
    destruct (workflows st !! s_WorkflowID s) as [x|] eqn:Ex; [|rewrite ?H1; eauto 10].
    destruct (_ <? _); [|rewrite ?H1; eauto 10]. simpl. rewrite ?H1.
    destruct (decide (s_WorkflowID s = k)) as [<-|Hne].
    - rewrite lookup_insert_eq. rewrite Ex in Hk. injection Hk as ->. eauto 10.
    - rewrite lookup_insert_ne by done. eauto 10. }
  destruct (GetStepDecision st _ _); simpl; by apply H.
Qed.

Lemma AddStep_workflow_inv st now s k w' :
  workflows (AddStep st now s).2 !! k = Some w' ->
  exists w, workflows st !! k = Some w /\ w_Status w' = w_Status w /\ w_WorkflowID w' = w_WorkflowID w.
Proof.
  intros Hk. destruct (workflows st !! k) as [w|] eqn:E.
  - destruct (AddStep_workflow st now s k w E) as (w2 & H & ? & ? & _). exists w. naive_solver.
  - exfalso. revert Hk. unfold AddStep, upsert_step.
    assert (H : forall st1, workflows st1 = workflows st ->
      workflows (advance_index st1 now (s_WorkflowID s) (s_StepIndex s)) !! k = None).
    { intros st1 H1. unfold advance_index. rewrite H1.
      destruct (workflows st !! s_WorkflowID s) as [x|] eqn:Ex; [|by rewrite ?H1].
      destruct (_ <? _); [|by rewrite ?H1]. simpl. rewrite ?H1.
      rewrite lookup_insert_ne; [done|]. intros Heq. rewrite Heq in Ex. congruence. }
    destruct (GetStepDecision st _ _); simpl; rewrite H; done.
Qed.

Lemma pending_not_completed st k w s :
  store_ok st -> workflows st !! k = Some w -> s ∈ steps st -> s_WorkflowID s = k ->
  is_pending s = true -> w_Status w <> WorkflowStatusCompleted.
Proof. intros Hok Hk Hs He Hp Hc. rewrite (ok_completed _ Hok _ _ Hk Hc s) in Hp; done. Qed.

Lemma GetStepDecision_elem st wid sid s :
  GetStepDecision st wid sid = Some s ->
  s ∈ steps st /\ s_WorkflowID s = wid /\ s_StepID s = sid.
Proof.
  unfold GetStepDecision. intros [? H]%find_first_Some. unfold step_key in H. bool_simpl.
  by rewrite !str_eqb_true in *.
Qed.

Lemma IsTerminal_status w : IsTerminal w = terminal_status (w_Status w).
Proof. done. Qed.

Lemma trans_status st st' k w :
  store_ok st -> trans st st' -> workflows st !! k = Some w ->
  exists w', workflows st' !! k = Some w' /\ status_change (w_Status w) (w_Status w').
Proof.
  intros Hok Ht Hk.
  assert (Hins : forall m j x x', m !! k = Some w -> m !! j = Some x ->
    status_change (w_Status x) (w_Status x') ->
    exists w', (<[j := x']> m : gmap string Workflow) !! k = Some w' /\ status_change (w_Status w) (w_Status w')).
  { intros m j x x' Hm Hj Hs. destruct (decide (j = k)) as [->|].
    - rewrite lookup_insert_eq. simplify_eq. eauto.
    - rewrite lookup_insert_ne by done. exists w. split; [done|constructor]. }
  destruct Ht; inv_updates; simpl in *;
    try (exists w; split; [done|constructor]; fail);
    try (eapply Hins; [done|done|]; simpl;
         solve [constructor; by rewrite <- ?IsTerminal_status | constructor 2; simplify_eq;
                [by rewrite <- IsTerminal_status|done]]).
  - exists w. rewrite lookup_insert_ne by congruence. split; [done|constructor].
  - destruct (AddStep_workflow st now s k w Hk) as (w' & ? & Hs & _). exists w'.
    split; [done|]. rewrite Hs. constructor.
  - eapply Hins; [done|done|]. simpl. apply SC_reject.
    match goal with H : GetStepDecision _ _ _ = Some s, P : is_pending s = true |- _ =>
      apply GetStepDecision_elem in H as (? & ? & ?) end.
    by eapply pending_not_completed.
  - eapply Hins; [done|done|]. simpl. simplify_eq.
    match goal with H : w_Status _ = WorkflowStatusAborted |- _ => rewrite H end. apply SC_reopen.
  - match goal with H : workflows _ = workflows _ |- _ => rewrite H end. exists w. split; [done|constructor].
Qed.

(** * Preservation of the invariant *)

Lemma inserted_gated id now s :
  1 <= s_GateCount (inserted_step id now s) /\ 0 <= s_CompletionCount (inserted_step id now s) /\
  is_Some (s_FirstAttemptAt (inserted_step id now s)) /\
  (s_IdempotencyKey (inserted_step id now s) <> Some "").
Proof.
  simpl. split_and!; [lia|lia|eauto|]. destruct (s_IdempotencyKey s) as [k|]; [|done].
  destruct (str_eqb k "") eqn:E; [done|]. apply str_eqb_false in E. congruence.
Qed.

Lemma new_step_gated st now s s0 :
  store_ok st -> s0 ∈ steps (AddStep st now s).2 ->
  1 <= s_GateCount s0 /\ 0 <= s_CompletionCount s0 /\ is_Some (s_FirstAttemptAt s0) /\
  (s_IdempotencyKey s0 <> Some "").
Proof.
  intros Hok. rewrite AddStep_steps. destruct (GetStepDecision st _ _).
  - intros (y & Hy & ->)%elem_of_update_where. destruct (ok_gated _ Hok _ Hy) as (? & ? & ? & Hk).
    destruct (step_key _ _ y); [|auto]. simpl. split_and!; auto; [lia|].
    destruct (s_IdempotencyKey y) as [k|]; [done|].
    destruct (s_IdempotencyKey s) as [k|]; [|done].
    destruct (str_eqb k "") eqn:E; [done|]. apply str_eqb_false in E. congruence.
  - intros [Hy| ->%list_elem_of_singleton]%elem_of_app; [by apply Hok|apply inserted_gated].
Qed.

(** A step update that keeps identity and the counters' bounds. *)
Lemma update_step_ok st wid sid f :
  store_ok st ->
  (forall s, s ∈ steps st -> step_evolves s (f s)) ->
  (forall s, s_IdempotencyKey (f s) = s_IdempotencyKey s) ->
  (forall s w, s ∈ steps st -> workflows st !! s_WorkflowID s = Some w ->
     w_Status w = WorkflowStatusCompleted -> is_pending (f s) = false) ->
  store_ok (set_steps st (update_where (step_key wid sid) f (steps st))).
Proof.
  intros Hok Hev Hkey Hp. split; simpl.
  - apply Hok.
  - intros k w Hk Hc s (y & Hy & ->)%elem_of_update_where.
    destruct (step_key wid sid y).
    + intros He. apply (Hp y w); auto. destruct (Hev y Hy) as (_ & Hw & _). congruence.
    + intros He. by apply (ok_completed _ Hok k w).
  - intros s (y & Hy & ->)%elem_of_update_where. destruct (ok_gated _ Hok _ Hy) as (? & ? & ? & ?).
    destruct (step_key wid sid y); [|auto].
    destruct (Hev y Hy) as (_ & _ & _ & _ & Hf & ? & ? & _). rewrite Hf, Hkey. split_and!; auto; lia.
Qed.

(** A workflow update that keeps the key and completes only without pending
    approvals. *)
Lemma update_workflow_ok st k w w' :
  store_ok st -> workflows st !! k = Some w -> w_WorkflowID w' = w_WorkflowID w ->
  (w_Status w' = WorkflowStatusCompleted -> no_pending st k) ->
  store_ok (set_workflows st (<[k := w']> (workflows st))).
Proof.
  intros Hok Hk Hid Hc. split; simpl.
  - intros j x [[<- <-]|[_ Hj]]%lookup_insert_Some; [|by apply Hok].
    rewrite Hid. by apply Hok.
  - intros j x [[<- <-]|[_ Hj]]%lookup_insert_Some Hs; [by apply Hc|by apply (ok_completed _ Hok j x)].
  - apply Hok.
Qed.

Lemma trans_ok st st' : store_ok st -> trans st st' -> store_ok st'.
Proof.
  intros Hok Ht.
  assert (Hev : forall f, (forall s, step_evolves s (f s)) -> forall s, s ∈ steps st -> step_evolves s (f s)) by auto.
  assert (Hkeep : forall f, (forall s, is_pending (f s) = is_pending s) ->
    forall s w, s ∈ steps st -> workflows st !! s_WorkflowID s = Some w ->
    w_Status w = WorkflowStatusCompleted -> is_pending (f s) = false).
  { intros f Hf s w Hs Hw Hc. rewrite Hf. by apply (ok_completed _ Hok (s_WorkflowID s) w). }
  destruct Ht; inv_updates; simpl in *;
    try (eapply update_workflow_ok; [done|done|done|]; simpl; done).
  - split; simpl.
    + intros k w' [[<- <-]|[_ Hk]]%lookup_insert_Some; [done|by apply Hok].
    + intros k w' [[<- <-]|[_ Hk]]%lookup_insert_Some Hc;
        [|by apply (ok_completed _ Hok k w')].
      match goal with H : w_Status _ = WorkflowStatusInProgress |- _ => rewrite H in Hc; discriminate Hc end.
    + apply Hok.
  - split.
    + intros k w' (x & Hx & _ & ->)%AddStep_workflow_inv. by apply Hok.
    + intros k w' (x & Hx & Hst & _)%AddStep_workflow_inv Hc s0.
      rewrite Hst in Hc. rewrite AddStep_steps. intros Hs0 Hw0.
      assert (Hne : s_WorkflowID s <> k).
      { intros <-. rewrite IsTerminal_status in *. simplify_eq.
        match goal with H : terminal_status _ = false |- _ => rewrite Hc in H; discriminate H end. }
      destruct (GetStepDecision st (s_WorkflowID s) (s_StepID s)).
      * apply elem_of_update_where in Hs0 as (y & Hy & ->).
        destruct (step_key (s_WorkflowID s) (s_StepID s) y) eqn:Ek.
        -- unfold step_key in Ek. bool_simpl. rewrite str_eqb_true in *. simpl in Hw0. congruence.
        -- by apply (ok_completed _ Hok k x).
      * apply elem_of_app in Hs0 as [Hy| ->%list_elem_of_singleton]; [by apply (ok_completed _ Hok k x)|].
        simpl in Hw0. congruence.
    + intros s0. by apply new_step_gated.
  - apply update_step_ok; auto; [|by apply Hkeep].
    intros ? _. unfold step_evolves. simpl. split_and!; auto; lia.
  - apply update_step_ok; auto.
    + intros ? _. unfold step_evolves. simpl. split_and!; auto; lia.
    + intros s0 w0 _ _ _. unfold is_pending. simpl. by rewrite andb_false_r.
  - match goal with |- store_ok (set_workflows ?st1 (<[?k := ?w']> _)) =>
      eapply (update_workflow_ok st1 k _ w'); [|simpl; done|done|simpl; done] end.
    apply update_step_ok; auto.
    + intros ? _. unfold step_evolves. simpl. split_and!; auto; lia.
    + intros s0 w0 _ _ _. unfold is_pending. simpl. by rewrite andb_false_r.
  - apply update_step_ok; auto; [|by apply Hkeep].
    intros ? _. unfold step_evolves. simpl. split_and!; auto; lia.
  - split.
    + match goal with H : workflows _ = workflows _ |- _ => rewrite H end. apply Hok.
    + match goal with H : workflows _ = workflows _ |- _ => rewrite H end.
      intros k w Hk Hc s. match goal with H : steps _ = steps _ |- _ => rewrite H end.
      by apply (ok_completed _ Hok k w).
    + match goal with H : steps _ = steps _ |- _ => rewrite H end. apply Hok.
Qed.

Lemma empty_store_ok : store_ok empty_store.
Proof.
  split; simpl.
  - intros k w H. by rewrite lookup_empty in H.
  - intros k w H. by rewrite lookup_empty in H.
  - intros s H. by apply elem_of_nil in H.
Qed.

Lemma rtc_trans_ok st st' : rtc trans st st' -> store_ok st -> store_ok st'.
Proof. induction 1; eauto using trans_ok. Qed.

Lemma rtc_trans_extend st st' : rtc trans st st' -> steps_extend (steps st) (steps st').
Proof.
  induction 1 as [|x y z Hxy _ IH]; [apply steps_extend_refl|].
  eapply steps_extend_trans; [by apply trans_extend|done].
Qed.

(** Completion is final. *)
Lemma trans_completed st st' k w :
  store_ok st -> trans st st' -> workflows st !! k = Some w -> w_Status w = WorkflowStatusCompleted ->
  exists w', workflows st' !! k = Some w' /\ w_Status w' = WorkflowStatusCompleted.
Proof.
  intros Hok Ht Hk Hc. destruct (trans_status st st' k w Hok Ht Hk) as (w' & Hk' & Hs).
  exists w'. split; [done|]. rewrite Hc in Hs. inv Hs; done.
Qed.

Lemma rtc_trans_completed st st' k w :
  rtc trans st st' -> store_ok st -> workflows st !! k = Some w ->
  w_Status w = WorkflowStatusCompleted ->
  exists w', workflows st' !! k = Some w' /\ w_Status w' = WorkflowStatusCompleted.
Proof.
  intros Hr. revert w. induction Hr as [|x y z Hxy _ IH]; intros w Hok Hk Hc; [eauto|].
  destruct (trans_completed x y k w Hok Hxy Hk Hc) as (w' & Hk' & Hc').
  eapply IH; [by eapply trans_ok|done|done].
Qed.
