(* ===== verification/WcpFacts.v ===== *)
(** The operations of the workflow control service as one type of requests, what
    each does to the tables, and that each is a sequence of the transitions of
    [WcpSpec]. *)

From S2P Require Import Prelude GoFloat GoStrings Regexp PolicyTypes GoJSON TenantScope.
From S2P Require Import WcpTypes WcpRepository WcpService WcpSpec.

Local Open Scope Z_scope.

(** * Store lemmas *)

Lemma find_first_update {A} (cond : A -> bool) f l :
  (forall x, cond x = true -> cond (f x) = true) ->
  find_first cond (update_where cond f l) = f <$> find_first cond l.
Proof.
  intros H. unfold update_where. induction l as [|x l IH]; [done|]. rewrite fmap_cons. cbn [find_first].
  destruct (cond x) eqn:E; [by rewrite H|]. by rewrite E.
Qed.

Lemma step_key_conflict wid sid now s x :
  step_key wid sid x = true -> step_key wid sid (conflict_step now s x) = true.
Proof. done. Qed.

Lemma AddStep_lookup st now s :
  GetStepDecision (AddStep st now s).2 (s_WorkflowID s) (s_StepID s) = Some (AddStep st now s).1.
Proof.
  unfold GetStepDecision at 1. rewrite AddStep_steps. unfold AddStep, upsert_step.
  destruct (GetStepDecision st (s_WorkflowID s) (s_StepID s)) as [old|] eqn:E; simpl;
    unfold GetStepDecision in E.
  - rewrite find_first_update by (by intros x; apply step_key_conflict). by rewrite E.
  - apply find_first_snoc; [done|]. unfold step_key. simpl. by rewrite !str_eqb_refl.
Qed.

Lemma AddStep_fields st now s :
  s_Decision (AddStep st now s).1 = s_Decision s /\
  s_ApprovalStatus (AddStep st now s).1 = s_ApprovalStatus s /\
  s_GateCount (AddStep st now s).1 =
    match GetStepDecision st (s_WorkflowID s) (s_StepID s) with Some o => s_GateCount o + 1 | None => 1 end.
Proof. unfold AddStep, upsert_step. by destruct (GetStepDecision st _ _). Qed.

(** A key is accepted exactly when it is the stored one (absent and empty agree). *)
Lemma key_match_iff s k :
  validateIdempotencyKeyMatch (Some s) k = None <-> default "" (s_IdempotencyKey s) = k.
Proof.
  unfold validateIdempotencyKeyMatch. set (d := default "" (s_IdempotencyKey s)).
  destruct (str_eqb d "") eqn:Ed; simpl.
  - apply str_eqb_true in Ed. rewrite Ed. destruct (str_eqb k "") eqn:Ek; simpl.
    + apply str_eqb_true in Ek as ->. done.
    + apply str_eqb_false in Ek. split; [done|congruence].
  - destruct (str_eqb d k) eqn:Ek.
    + by apply str_eqb_true in Ek.
    + apply str_eqb_false in Ek. done.
Qed.

(** After a gate the stored key is the one the caller supplied. *)
Lemma AddStep_key st now s k :
  s_IdempotencyKey s = (if str_eqb k "" then None else Some k) ->
  validateIdempotencyKeyMatch (GetStepDecision st (s_WorkflowID s) (s_StepID s)) k = None ->
  default "" (s_IdempotencyKey (AddStep st now s).1) = k.
Proof.
  intros Hs Hv. unfold AddStep, upsert_step. destruct (GetStepDecision st _ _) as [old|]; simpl.
  - apply key_match_iff in Hv. destruct (s_IdempotencyKey old) as [ok|]; simpl in *; [done|].
    subst k. by rewrite Hs.
  - rewrite Hs. destruct (str_eqb k "") eqn:Ek; [by apply str_eqb_true in Ek|]. by rewrite Ek.
Qed.

Lemma resolved_decision_fresh st now s :
  s_ApprovalStatus s =
    (if str_eqb (s_Decision s) GateDecisionRequireApproval then Some ApprovalStatusPending else None) ->
  (resolved_decision (AddStep st now s).1).1 = s_Decision s.
Proof.
  intros Ha. destruct (AddStep_fields st now s) as (Hd & Hs & _). unfold resolved_decision.
  rewrite Hd, Hs, Ha. by destruct (str_eqb (s_Decision s) GateDecisionRequireApproval).
Qed.

Lemma cached_decision s wid url incl :
  gr_Decision (buildCachedResponse s wid url incl) = (resolved_decision s).1 /\
  gr_Cached (buildCachedResponse s wid url incl) = true /\
  gr_RetryContext (buildCachedResponse s wid url incl) = buildRetryContext s incl.
Proof. unfold buildCachedResponse. by destruct (resolved_decision s). Qed.

Lemma update_where_lookup st wid sid f row :
  GetStepDecision st wid sid = Some row ->
  (forall x, step_key wid sid x = true -> step_key wid sid (f x) = true) ->
  GetStepDecision (set_steps st (update_where (step_key wid sid) f (steps st))) wid sid = Some (f row).
Proof.
  intros Hr Hf. unfold GetStepDecision in *. simpl. by rewrite find_first_update, Hr.
Qed.

Section Facts.
Context `{U : Unicode} `{E : PolicyEvaluator}.
Context (baseURL : string).

Lemma CreateCheckpoint_frame st now c st' :
  CreateCheckpoint st now c = Ok st' -> workflows st' = workflows st /\ steps st' = steps st.
Proof.
  unfold CreateCheckpoint. destruct (ValidateRowKeys _ _); [done|].
  destruct (find_first _ _); by intros [= <-].
Qed.

Lemma IncrementResumeCount_frame st now id st' :
  IncrementResumeCount st now id = Ok st' -> workflows st' = workflows st /\ steps st' = steps st.
Proof. unfold IncrementResumeCount. destruct (GetCheckpointByID st id); [|done]. by intros [= <-]. Qed.

(** * The scoped preamble *)

Definition owner_view (s : Service) (wid tenant org : string) : option Workflow :=
  match workflows (sv_store s) !! wid with
  | Some w => if workflowBelongsTo w tenant org
              then Some (with_steps w (GetStepsForWorkflow (sv_store s) wid)) else None
  | None => None
  end.

Lemma owned_run s wid tenant org :
  owned_workflow wid tenant org s =
  (match owner_view s wid tenant org with Some w => Ok w | None => Err EWorkflowNotFound end, s).
Proof.
  unfold owned_workflow, owner_view, bind, query, guard, GetByID.
  destruct (workflows (sv_store s) !! wid) as [w|]; [|done].
  change (workflowBelongsTo (with_steps w _) tenant org) with (workflowBelongsTo w tenant org).
  by destruct (workflowBelongsTo w tenant org).
Qed.

Lemma owner_view_Some s wid tenant org v :
  owner_view s wid tenant org = Some v ->
  exists w, workflows (sv_store s) !! wid = Some w /\ workflowBelongsTo w tenant org = true /\
    v = with_steps w (GetStepsForWorkflow (sv_store s) wid).
Proof.
  unfold owner_view. destruct (workflows _ !! wid) as [w|]; [|done].
  destruct (workflowBelongsTo w tenant org) eqn:Eb; [|done]. intros [= <-]. eauto.
Qed.

(** * The fresh gate *)

Definition gate_evaluation (now : Z) (w : Workflow) (stepID : string) (req : StepGateRequest)
    (tenantID orgID userID clientID : string) (existing : option WorkflowStep) : StepGateEvaluation :=
  match rq_GateOverride req with
  | Some d => override_evaluation d
  | None => EvaluateStepGate (gate_context w stepID req tenantID orgID userID clientID existing now)
  end.

Definition gated_row (now : Z) (w : Workflow) (stepID : string) (req : StepGateRequest)
    (tenantID orgID userID clientID : string) (existing : option WorkflowStep) : WorkflowStep :=
  gate_step (w_WorkflowID w) stepID req (w_CurrentStepIndex w + 1)
    (gate_evaluation now w stepID req tenantID orgID userID clientID existing).

Lemma fresh_gate_run s now w sid req t o u c existing :
  let e := gate_evaluation now w sid req t o u c existing in
  let row := gated_row now w sid req t o u c existing in
  exists r st2 evs,
    fresh_gate baseURL now w sid req t o u c existing s = (Ok r, mkService st2 evs) /\
    workflows st2 = workflows (AddStep (sv_store s) now row).2 /\
    steps st2 = steps (AddStep (sv_store s) now row).2 /\
    gr_Decision r = ev_Decision e /\ gr_Cached r = false /\
    gr_RetryContext r = buildRetryContext (AddStep (sv_store s) now row).1 (rq_IncludePriorOutput req).
Proof.
  intros e row. unfold fresh_gate, bind, exec, query.
  fold (gate_evaluation now w sid req t o u c existing). fold e. fold row.
  assert (Hrow : row = gate_step (w_WorkflowID w) sid req (w_CurrentStepIndex w + 1) e) by done.
  change (gate_step (w_WorkflowID w) sid req
            (gc_StepIndex (gate_context w sid req t o u c existing now)) _) with row.
  pose proof (AddStep_lookup (sv_store s) now row) as Hl.
  destruct (AddStep_fields (sv_store s) now row) as (Hd & _ & _).
  destruct (AddStep (sv_store s) now row) as [step st1] eqn:Ea. simpl in Hl, Hd.
  cbn [sv_store sv_events]. change (s_WorkflowID row) with (w_WorkflowID w) in Hl.
  change (s_StepID row) with sid in Hl. rewrite Hl.
  change (s_Decision row) with (ev_Decision e) in Hd. rewrite Hd, str_eqb_refl. cbn [negb].
  unfold best_effort. cbn [sv_store sv_events default].
  destruct (CreateCheckpoint st1 now _) as [st2|] eqn:Ec.
  - apply CreateCheckpoint_frame in Ec as [? ?]. unfold emit, ret. cbn [sv_store sv_events].
    destruct (str_eqb (ev_Decision e) GateDecisionRequireApproval); eexists _, _, _; by split_and!.
  - unfold emit, ret. cbn [sv_store sv_events].
    destruct (str_eqb (ev_Decision e) GateDecisionRequireApproval); eexists _, _, _; by split_and!.
Qed.
Definition use_cached (req : StepGateRequest) : bool :=
  str_eqb (default_str (rq_RetryPolicy req) RetryPolicyIdempotent) RetryPolicyIdempotent
  && match rq_GateOverride req with None => true | Some _ => false end.

Lemma StepGate_run s now wid sid req t o u c :
  StepGate baseURL now wid sid req t o u c s =
  match owner_view s wid t o with
  | None => (Err EWorkflowNotFound, s)
  | Some w =>
      if IsTerminal w then (Err (ETerminal (w_Status w)), s) else
      let existing := GetStepDecision (sv_store s) wid sid in
      match validateIdempotencyKeyMatch existing (rq_IdempotencyKey req) with
      | Some e => (Err e, s)
      | None =>
          match (if use_cached req then existing else None) with
          | Some old =>
              (Ok (buildCachedResponse (bumped_step now old) wid baseURL (rq_IncludePriorOutput req)),
               mkService (set_steps (sv_store s)
                 (update_where (step_key wid sid) (bumped_step now) (steps (sv_store s)))) (sv_events s))
          | None =>
              match pending_elsewhere w sid with
              | Some x => (Err (EPendingApproval x), s)
              | None => fresh_gate baseURL now w sid req t o u c existing s
              end
          end
      end
  end.
Proof.
  unfold StepGate, bind. rewrite owned_run. destruct (owner_view s wid t o) as [w|]; [|done].
  unfold guard. destruct (IsTerminal w); [done|]. cbn [negb ret query]. unfold ret, query, throw.
  cbn [sv_store sv_events].
  destruct (validateIdempotencyKeyMatch _ _); [done|]. fold (use_cached req).
  destruct (use_cached req); cbn [andb]; [|by destruct (pending_elsewhere w sid)].
  destruct (GetStepDecision (sv_store s) wid sid) as [old|] eqn:Eo.
  - unfold exec, BumpGateCountCached, update_step. by rewrite Eo.
  - by destruct (pending_elsewhere w sid).
Qed.

(** * Operations *)

Inductive operation : Type :=
| OpCreate (now : Z) (newID : string) (limit_reached : bool) (req : CreateWorkflowRequest)
    (tenant org user client : string)
| OpGate (now : Z) (wid sid : string) (req : StepGateRequest) (tenant org user client : string)
| OpApprove (now : Z) (wid sid tenant org by_ comment : string)
| OpReject (now : Z) (wid sid tenant org by_ reason : string)
| OpResume (wid tenant org : string)
| OpAbort (now : Z) (wid reason tenant org : string)
| OpComplete (now : Z) (wid tenant org : string)
| OpFail (now : Z) (wid reason tenant org : string)
| OpMark (now : Z) (wid sid : string) (req : option StepCompleteRequest) (tenant org : string)
| OpResumeLast (now : Z) (wid tenant org : string)
| OpResumeAt (now : Z) (wid : string) (id : Z) (tenant org : string)
| OpCheckpoints (wid tenant org : string)
| OpGetStep (wid sid tenant org : string)
| OpGet (wid tenant org : string).

Definition forget {A} (m : M A) : M unit := bind m (fun _ => ret tt).

Definition run (op : operation) : M unit :=
  match op with
  | OpCreate now id lim req t o u c => forget (CreateWorkflow now id lim req t o u c)
  | OpGate now wid sid req t o u c => forget (StepGate baseURL now wid sid req t o u c)
  | OpApprove now wid sid t o b c => ApproveStep now wid sid t o b c
  | OpReject now wid sid t o b r => RejectStep now wid sid t o b r
  | OpResume wid t o => ResumeWorkflow wid t o
  | OpAbort now wid r t o => AbortWorkflow now wid r t o
  | OpComplete now wid t o => CompleteWorkflow now wid t o
  | OpFail now wid r t o => FailWorkflow now wid r t o
  | OpMark now wid sid req t o => MarkStepCompleted now wid sid req t o
  | OpResumeLast now wid t o => forget (ResumeFromLastCheckpoint baseURL now wid t o)
  | OpResumeAt now wid id t o => forget (ResumeFromCheckpoint baseURL now wid id t o)
  | OpCheckpoints wid t o => forget (GetCheckpoints wid t o)
  | OpGetStep wid sid t o => forget (ServiceGetStep wid sid t o)
  | OpGet wid t o => forget (GetWorkflow wid t o)
  end.

(** The workflow an operation addresses and the scope of its caller. *)
Definition target (op : operation) : option (string * string * string) :=
  match op with
  | OpCreate _ _ _ _ _ _ _ _ => None
  | OpGate _ wid _ _ t o _ _ | OpApprove _ wid _ t o _ _ | OpReject _ wid _ t o _ _
  | OpResume wid t o | OpAbort _ wid _ t o | OpComplete _ wid t o | OpFail _ wid _ t o
  | OpMark _ wid _ _ t o | OpResumeLast _ wid t o | OpResumeAt _ wid _ t o
  | OpCheckpoints wid t o | OpGetStep wid _ t o | OpGet wid t o => Some (wid, t, o)
  end.

Lemma bind_owned {A} wid t o (k : Workflow -> M A) s :
  owner_view s wid t o = None -> bind (owned_workflow wid t o) k s = (Err EWorkflowNotFound, s).
Proof. intros H. unfold bind. by rewrite owned_run, H. Qed.

(** * Refinement *)

Lemma refine_pending s wid sid x s' :
  pending_step wid sid s = (x, s') ->
  s' = s /\ match x with
            | Ok st => GetStepDecision (sv_store s) wid sid = Some st /\ is_pending st = true
            | Err _ => True
            end.
Proof.
  unfold pending_step, bind, query, GetStep.
  destruct (GetStepDecision (sv_store s) wid sid) as [st|]; [|by intros [= <- <-]].
  unfold guard. destruct (str_eqb (s_Decision st) _) eqn:Ed; [|by intros [= <- <-]].
  unfold ret. cbn beta iota. case_bool_decide as Ea; [|by intros [= <- <-]].
  intros [= <- <-]. split; [done|]. split; [done|]. unfold is_pending. rewrite Ed.
  by rewrite bool_decide_eq_true_2.
Qed.

Lemma GetStepsForWorkflow_elem st wid s :
  s ∈ GetStepsForWorkflow st wid <-> s ∈ steps st /\ s_WorkflowID s = wid.
Proof.
  unfold GetStepsForWorkflow. rewrite SliceStable_perm, elem_of_filter_bool. by rewrite str_eqb_true.
Qed.

Lemma refine_gate now wid sid req t o u c s :
  store_ok (sv_store s) ->
  rtc trans (sv_store s) (sv_store (StepGate baseURL now wid sid req t o u c s).2).
Proof.
  intros Hok. rewrite StepGate_run. destruct (owner_view s wid t o) as [v|] eqn:Ev; [|done].
  apply owner_view_Some in Ev as (w & Hw & Hb & ->).
  change (IsTerminal (with_steps w _)) with (IsTerminal w).
  destruct (IsTerminal w) eqn:Et; [done|]. cbn zeta.
  destruct (validateIdempotencyKeyMatch _ _) eqn:Ek; [done|].
  assert (Hid : w_WorkflowID w = wid) by (by apply Hok).
  assert (Hfresh : rtc trans (sv_store s)
    (sv_store (match pending_elsewhere (with_steps w (GetStepsForWorkflow (sv_store s) wid)) sid with
               | Some x => (Err (EPendingApproval x), s)
               | None => fresh_gate baseURL now (with_steps w (GetStepsForWorkflow (sv_store s) wid))
                           sid req t o u c (GetStepDecision (sv_store s) wid sid) s
               end).2)).
  { destruct (pending_elsewhere _ _); [done|].
    destruct (fresh_gate_run s now (with_steps w (GetStepsForWorkflow (sv_store s) wid)) sid req t o u c
                (GetStepDecision (sv_store s) wid sid)) as (r & st2 & evs & -> & Hw2 & Hs2 & _).
    simpl. eapply rtc_l; [|apply rtc_once, T_checkpoint; [exact Hw2|exact Hs2]].
    eapply T_gate with (wid := wid); [exact Hw|done|done|done|].
    change (s_StepID (gated_row _ _ _ _ _ _ _ _ _)) with sid.
    assert (Hkey : default "" (s_IdempotencyKey (gated_row now
      (with_steps w (GetStepsForWorkflow (sv_store s) wid)) sid req t o u c
      (GetStepDecision (sv_store s) wid sid))) = rq_IdempotencyKey req).
    { simpl. destruct (str_eqb (rq_IdempotencyKey req) "") eqn:Ee; [|done].
      by apply str_eqb_true in Ee. }
    rewrite Hkey. exact Ek. }
  destruct (use_cached req); [|exact Hfresh].
  destruct (GetStepDecision (sv_store s) wid sid) as [old|] eqn:Eo; [|exact Hfresh].
  apply rtc_once. simpl. eapply (T_bump _ now wid w sid (bumped_step now old)); [exact Hw|exact Et|].
  unfold BumpGateCountCached, update_step. by rewrite Eo.
Qed.

Lemma refine_resume now w cp t s :
  store_ok (sv_store s) ->
  (exists w0, workflows (sv_store s) !! w_WorkflowID w = Some w0 /\ w_Status w0 = w_Status w) ->
  rtc trans (sv_store s) (sv_store (resumeFromCheckpointInternal baseURL now w cp t s).2).
Proof.
  intros Hok (w0 & Hw0 & Hst). unfold resumeFromCheckpointInternal. unfold bind at 1. unfold guard at 1.
  destruct (_ || _); [done|]. cbn [negb]. unfold ret at 1. cbn beta iota.
  assert (Hgate : forall s1, store_ok (sv_store s1) -> rtc trans (sv_store s) (sv_store s1) ->
    rtc trans (sv_store s) (sv_store
      (bind (StepGate baseURL now (w_WorkflowID w) (c_StepID cp) (resume_request cp) t (c_OrgID cp)
               (c_UserID cp) (c_ClientID cp))
         (fun resp => bind (best_effort (fun st => IncrementResumeCount st now (c_ID cp))) (fun _ =>
            ret (mkResume (w_WorkflowID w) (c_StepID cp) (c_StepIndex cp) (gr_Decision resp) "fresh"
                   (c_ResumeCount cp + 1)))) s1).2)).
  { intros s1 Hok1 Hr. unfold bind at 1.
    pose proof (refine_gate now (w_WorkflowID w) (c_StepID cp) (resume_request cp) t (c_OrgID cp)
                  (c_UserID cp) (c_ClientID cp) s1 Hok1) as Hg.
    destruct (StepGate _ _ _ _ _ _ _ _ _ s1) as [[resp|err] s2]; simpl in *; [|by etrans].
    unfold bind, best_effort. destruct (IncrementResumeCount _ _ _) as [st3|] eqn:Ei; simpl; [|by etrans].
    apply IncrementResumeCount_frame in Ei as [? ?].
    etrans; [exact Hr|]. etrans; [exact Hg|]. by apply rtc_once, T_checkpoint. }
  unfold bind at 1. destruct (str_eqb (w_Status w) WorkflowStatusAborted) eqn:Ea.
  - unfold exec_. destruct (UpdateStatus (sv_store s) now (w_WorkflowID w) WorkflowStatusInProgress)
      as [st1|] eqn:Eu; [|done].
    assert (Ht : trans (sv_store s) st1).
    { eapply T_reopen; [exact Hw0| |exact Eu]. apply str_eqb_true in Ea. congruence. }
    apply Hgate; simpl; [by eapply trans_ok|by apply rtc_once].
  - apply Hgate; done.
Qed.

Lemma forget_store {A} (m : M A) s : sv_store (forget m s).2 = sv_store (m s).2.
Proof. unfold forget, bind. by destruct (m s) as [[a|e] s']. Qed.

Lemma refine_create now id lim req t o u c s :
  rtc trans (sv_store s) (sv_store (CreateWorkflow now id lim req t o u c s).2).
Proof.
  unfold CreateWorkflow, bind, guard. destruct (negb _); [|done]. unfold ret at 1. cbn beta iota.
  destruct (_ <=? _)%nat; [|done]. unfold ret at 1. cbn beta iota.
  destruct (ValidateRowKeys _ _); [done|]. unfold ret at 1. cbn beta iota.
  unfold exec, Create. cbn [w_WorkflowID]. destruct (workflows (sv_store s) !! id) eqn:Ek; [done|].
  unfold emit. cbn [sv_store sv_events]. destruct lim.
  - unfold exec_, Delete, throw. simpl. apply rtc_once, T_checkpoint; [|done]. simpl.
    by rewrite delete_insert_id.
  - unfold ret. simpl. by apply rtc_once, T_create.
Qed.

(** Statements of an operation on an owned workflow. *)
Lemma refine_owned {A} wid t o (k : Workflow -> M A) s :
  (forall w, workflows (sv_store s) !! wid = Some w -> workflowBelongsTo w t o = true ->
     rtc trans (sv_store s) (sv_store (k (with_steps w (GetStepsForWorkflow (sv_store s) wid)) s).2)) ->
  rtc trans (sv_store s) (sv_store (bind (owned_workflow wid t o) k s).2).
Proof.
  intros H. unfold bind. rewrite owned_run. destruct (owner_view s wid t o) as [v|] eqn:Ev; [|done].
  apply owner_view_Some in Ev as (w & Hw & Hb & ->). by apply H.
Qed.

Lemma refine_approval now wid sid t o b c s :
  rtc trans (sv_store s) (sv_store (ApproveStep now wid sid t o b c s).2).
Proof.
  apply refine_owned. intros w Hw _. unfold bind at 1.
  destruct (pending_step wid sid s) as [x s'] eqn:Ep. apply refine_pending in Ep as [-> Hx].
  destruct x as [x|]; [|done]. destruct Hx as [Hx Hp]. unfold bind, exec.
  destruct (UpdateStepApproval _ _ _ _ _ _ _) as [[y st']|] eqn:Eu; [|done]. simpl.
  by eapply rtc_once, T_approve.
Qed.

Lemma refine_rejection now wid sid t o b r s :
  rtc trans (sv_store s) (sv_store (RejectStep now wid sid t o b r s).2).
Proof.
  apply refine_owned. intros w Hw _. unfold bind at 1.
  destruct (pending_step wid sid s) as [x s'] eqn:Ep. apply refine_pending in Ep as [-> Hx].
  destruct x as [x|]; [|done]. destruct Hx as [Hx Hp]. unfold bind, exec.
  destruct (UpdateStepApproval _ _ _ _ _ _ _) as [[y st1]|] eqn:Eu; [|done]. cbn [sv_store sv_events].
  unfold best_effort. cbn [sv_store sv_events].
  destruct (Abort st1 now wid _) as [st2|] eqn:Ea; simpl.
  - by eapply rtc_once, T_reject.
  - exfalso. pose proof Eu as Eu2. unfold UpdateStepApproval in Eu2.
    apply update_step_inv in Eu2 as (z & _ & _ & ->).
    unfold Abort, update_workflow in Ea. simpl in Ea. by rewrite Hw in Ea.
Qed.

Lemma refine_completion now wid t o s :
  store_ok (sv_store s) -> rtc trans (sv_store s) (sv_store (CompleteWorkflow now wid t o s).2).
Proof.
  intros Hok. apply refine_owned. intros w Hw _. unfold bind at 1. unfold guard.
  change (IsTerminal (with_steps w _)) with (IsTerminal w).
  destruct (IsTerminal w) eqn:Et; [done|]. cbn [negb]. unfold ret at 1. cbn beta iota.
  change (w_Steps (with_steps w ?l)) with l.
  destruct (find_first is_pending _) as [x|] eqn:Ef; [done|]. unfold bind, exec_.
  destruct (Complete (sv_store s) now wid) as [st'|] eqn:Ec; [|done]. simpl.
  eapply rtc_once, T_complete; [exact Hw|done| |exact Ec].
  rewrite find_first_None, Forall_forall in Ef. intros x Hx Hwid. by apply Ef, GetStepsForWorkflow_elem.
Qed.

Lemma refine_lifecycle now wid reason t o s (f : Store -> Z -> string -> string -> result wcp_error Store)
    e1 e2 :
  (forall w st', workflows (sv_store s) !! wid = Some w -> IsTerminal w = false ->
     f (sv_store s) now wid reason = Ok st' -> trans (sv_store s) st') ->
  rtc trans (sv_store s) (sv_store (bind (owned_workflow wid t o) (fun w =>
    bind (guard (negb (IsTerminal w)) (ETerminal (w_Status w))) (fun _ =>
    bind (exec_ (fun st => f st now wid reason)) (fun _ =>
    bind (emit (e1 w)) (fun _ => emit (e2 w))))) s).2).
Proof.
  intros H. apply refine_owned. intros w Hw _. unfold bind, guard.
  change (IsTerminal (with_steps w _)) with (IsTerminal w).
  destruct (IsTerminal w) eqn:Et; [done|]. cbn [negb]. unfold ret, exec_.
  destruct (f (sv_store s) now wid reason) as [st'|] eqn:Ef; [|done]. simpl. eauto using rtc_once.
Qed.

Lemma refine_mark now wid sid req t o s :
  rtc trans (sv_store s) (sv_store (MarkStepCompleted now wid sid req t o s).2).
Proof.
  apply refine_owned. intros w Hw _. unfold bind, query.
  destruct (validateIdempotencyKeyMatch _ _); [done|]. unfold exec.
  destruct (RepoMarkStepCompleted _ _ _ _ _) as [[x st']|] eqn:Em; [|done]. simpl.
  by eapply rtc_once, T_mark.
Qed.

Lemma refine_internal now wid w cp t s :
  store_ok (sv_store s) -> workflows (sv_store s) !! wid = Some w ->
  rtc trans (sv_store s) (sv_store (resumeFromCheckpointInternal baseURL now
    (with_steps w (GetStepsForWorkflow (sv_store s) wid)) cp t s).2).
Proof.
  intros Hok Hw. apply refine_resume; [done|]. exists w. split; [|done]. simpl.
  by rewrite (ok_keys _ Hok _ _ Hw).
Qed.

Lemma refine_resume_last now wid t o s :
  store_ok (sv_store s) ->
  rtc trans (sv_store s) (sv_store (ResumeFromLastCheckpoint baseURL now wid t o s).2).
Proof.
  intros Hok. apply refine_owned. intros w Hw _. unfold bind, query.
  destruct (GetLastResumableCheckpoint _ _); [|done]. by apply refine_internal.
Qed.

Lemma refine_resume_at now wid id t o s :
  store_ok (sv_store s) ->
  rtc trans (sv_store s) (sv_store (ResumeFromCheckpoint baseURL now wid id t o s).2).
Proof.
  intros Hok. apply refine_owned. intros w Hw _. unfold bind, query, guard.
  destruct (GetCheckpointByID _ _) as [cp|]; [|done].
  destruct (str_eqb _ _); [|done]. unfold ret at 1. cbn beta iota.
  destruct (Authorize _ _ _); [done|]. unfold ret at 1. cbn beta iota.
  destruct (c_IsResumable cp); [|done]. by apply refine_internal.
Qed.

Lemma refine_run op s :
  store_ok (sv_store s) -> rtc trans (sv_store s) (sv_store (run op s).2).
Proof.
  intros Hok. destruct op; simpl; rewrite ?forget_store;
    auto using refine_create, refine_gate, refine_approval, refine_rejection, refine_completion,
      refine_mark, refine_resume_last, refine_resume_at.
  - apply refine_owned. intros w _ _. unfold bind, guard. destruct (negb _); [|done].
    unfold ret at 1. cbn beta iota. repeat case_match; done.
  - apply (refine_lifecycle _ _ _ _ _ _ Abort). intros. by eapply T_abort.
  - apply (refine_lifecycle _ _ _ _ _ _ Fail). intros. by eapply T_fail.
  - by apply refine_owned.
  - apply refine_owned. intros. done.
  - unfold GetWorkflow. by rewrite owned_run.
Qed.

(** * Answers from the stored decision *)

Lemma cached_gate_run s now wid sid req t o u c w row :
  workflows (sv_store s) !! wid = Some w -> workflowBelongsTo w t o = true -> IsTerminal w = false ->
  GetStepDecision (sv_store s) wid sid = Some row ->
  rq_IdempotencyKey req = default "" (s_IdempotencyKey row) -> use_cached req = true ->
  StepGate baseURL now wid sid req t o u c s =
  (Ok (buildCachedResponse (bumped_step now row) wid baseURL (rq_IncludePriorOutput req)),
   mkService (set_steps (sv_store s)
     (update_where (step_key wid sid) (bumped_step now) (steps (sv_store s)))) (sv_events s)).
Proof.
  intros Hw Hb Ht Hr Hk Hc. rewrite StepGate_run. unfold owner_view. rewrite Hw, Hb.
  change (IsTerminal (with_steps w _)) with (IsTerminal w). rewrite Ht. cbn zeta. rewrite Hr.
  rewrite (proj2 (key_match_iff row (rq_IdempotencyKey req))) by done. by rewrite Hc.
Qed.

(** What a successful gate leaves behind, whichever way it was answered. *)
Lemma gate_leaves s now wid sid req t o u c r s' :
  store_ok (sv_store s) ->
  StepGate baseURL now wid sid req t o u c s = (Ok r, s') ->
  exists w row,
    workflows (sv_store s') !! wid = Some w /\ workflowBelongsTo w t o = true /\ IsTerminal w = false /\
    GetStepDecision (sv_store s') wid sid = Some row /\
    default "" (s_IdempotencyKey row) = rq_IdempotencyKey req /\
    (resolved_decision row).1 = gr_Decision r /\ s_GateCount row = rc_GateCount (gr_RetryContext r).
Proof.
  intros Hok. rewrite StepGate_run. destruct (owner_view s wid t o) as [v|] eqn:Ev; [|done].
  apply owner_view_Some in Ev as (w & Hw & Hb & ->).
  change (IsTerminal (with_steps w _)) with (IsTerminal w).
  destruct (IsTerminal w) eqn:Et; [done|]. cbn zeta.
  destruct (validateIdempotencyKeyMatch _ _) eqn:Ek; [done|].
  assert (Hid : w_WorkflowID w = wid) by (by apply Hok).
  set (v := with_steps w (GetStepsForWorkflow (sv_store s) wid)).
  destruct (if use_cached req then GetStepDecision (sv_store s) wid sid else None) as [old|] eqn:Eu.
  - destruct (use_cached req); [|done]. intros [= <- <-]. exists w, (bumped_step now old).
    destruct (cached_decision (bumped_step now old) wid baseURL (rq_IncludePriorOutput req))
      as (-> & _ & ->).
    simpl. rewrite Eu in Ek. apply key_match_iff in Ek.
    split_and!; try done. by rewrite (update_where_lookup _ _ _ _ old).
  - destruct (pending_elsewhere v sid); [done|].
    destruct (fresh_gate_run s now v sid req t o u c (GetStepDecision (sv_store s) wid sid))
      as (r' & st2 & evs & -> & Hw2 & Hs2 & Hd & _ & Hr). intros [= <- <-]. simpl.
    set (row := gated_row now v sid req t o u c (GetStepDecision (sv_store s) wid sid)) in *.
    destruct (AddStep_workflow (sv_store s) now row wid w Hw) as (w' & Hw' & Hst & _ & Ho & Hten).
    exists w', (AddStep (sv_store s) now row).1. rewrite Hw2.
    assert (Hsw : s_WorkflowID row = wid) by done.
    split_and!; [done|unfold workflowBelongsTo in *; by rewrite Ho, Hten|unfold IsTerminal in *; by rewrite Hst| | | |].
    + unfold GetStepDecision at 1. rewrite Hs2, <- Hsw. apply AddStep_lookup.
    + apply AddStep_key; [done|]. by rewrite Hsw.
    + rewrite Hd. by apply resolved_decision_fresh.
    + by rewrite Hr.
Qed.
End Facts.
