(* ===== verification/WcpTheorems.v ===== *)
(** Correctness of the workflow control service: every operation is a sequence
    of specification transitions, tenants are isolated, the step gate is
    idempotent, history is monotone and completion is final; and the corners
    where the code departs from its documentation. *)

From S2P Require Import Prelude GoFloat GoStrings Regexp PolicyTypes GoJSON TenantScope.
From S2P Require Import WcpTypes WcpRepository WcpService WcpSpec WcpFacts.

Local Open Scope Z_scope.

Section Sequences.
Context `{U : Unicode} `{E : PolicyEvaluator}.
Context (baseURL : string).

Definition run_all (ops : list operation) (s : Service) : Service :=
  fold_left (fun s op => (run baseURL op s).2) ops s.

Lemma run_all_refines ops : forall s,
  store_ok (sv_store s) -> rtc trans (sv_store s) (sv_store (run_all ops s)).
Proof.
  induction ops as [|op ops IH]; intros s Hok; [done|]. simpl.
  pose proof (refine_run baseURL op s Hok) as Hr. etrans; [exact Hr|].
  apply IH. by eapply rtc_trans_ok.
Qed.

(** C1: Refinement: whatever sequence of service operations is run, from
    tables that satisfy the invariant, the effect on the tables is a sequence of
    transitions of the abstract specification, with its guards (open
    workflow, pending approval, matching key, no completion over a pending
    approval), and the invariant holds afterwards; a rolled-back creation
    leaves no trace. *)
Theorem service_refines_spec (ops : list operation) (s : Service) :
  store_ok (sv_store s) ->
  rtc trans (sv_store s) (sv_store (run_all ops s)) /\ store_ok (sv_store (run_all ops s)).
Proof.
  intros Hok. pose proof (run_all_refines ops s Hok). split; [done|]. by eapply rtc_trans_ok.
Qed.

(** C7: Completion is final: once a workflow is completed, no sequence of
    operations by any caller (gates, rejections, checkpoint resumes
    included) changes its status, and it never again has a step waiting for
    approval. *)
Theorem completed_is_final (ops : list operation) (s : Service) (wid : string) (w : Workflow) :
  store_ok (sv_store s) -> workflows (sv_store s) !! wid = Some w ->
  w_Status w = WorkflowStatusCompleted ->
  exists w', workflows (sv_store (run_all ops s)) !! wid = Some w' /\
    w_Status w' = WorkflowStatusCompleted /\ no_pending (sv_store (run_all ops s)) wid.
Proof.
  intros Hok Hw Hc. pose proof (run_all_refines ops s Hok) as Hr.
  destruct (rtc_trans_completed _ _ _ _ Hr Hok Hw Hc) as (w' & Hw' & Hc').
  exists w'. split_and!; [done|done|]. eapply ok_completed; [by eapply rtc_trans_ok|done|done].
Qed.

(** The step history only grows: under any sequence of operations no step
    row disappears or is reordered, its identity, position and first-attempt
    time stay, gate and completion counters never decrease, and an
    idempotency key, once bound, is never changed or cleared. *)
Theorem step_history_monotone (ops : list operation) (s : Service) (i : nat) (row : WorkflowStep) :
  store_ok (sv_store s) -> steps (sv_store s) !! i = Some row ->
  exists row', steps (sv_store (run_all ops s)) !! i = Some row' /\ step_evolves row row'.
Proof.
  intros Hok Hi. destruct (rtc_trans_extend _ _ (run_all_refines ops s Hok)) as (new & l1 & -> & Hf).
  destruct (Forall2_lookup_l _ _ _ _ _ Hf Hi) as (row' & Hi' & He).
  exists row'. split; [|done]. by apply lookup_app_l_Some.
Qed.

(** C2: Tenant isolation of the control plane: for every workflow-scoped operation of the
    service, a caller whose organization and tenant do not own the workflow
    gets the not-found error and changes nothing, exactly as if the
    workflow did not exist: no read, no write, no event, no existence
    oracle. *)
Theorem foreign_caller_is_denied (op : operation) (s : Service) (wid tenant org : string) :
  target op = Some (wid, tenant, org) ->
  (forall w, workflows (sv_store s) !! wid = Some w -> workflowBelongsTo w tenant org = false) ->
  run baseURL op s = (Err EWorkflowNotFound, s).
Proof.
  intros Ht Hw.
  assert (Hv : owner_view s wid tenant org = None).
  { unfold owner_view. destruct (workflows (sv_store s) !! wid) as [w|]; [|done]. by rewrite (Hw w). }
  destruct op; simpl in Ht; [discriminate Ht|injection Ht as -> -> ->..]; simpl;
    unfold forget, StepGate, ApproveStep, RejectStep, ResumeWorkflow, AbortWorkflow, CompleteWorkflow,
      FailWorkflow, MarkStepCompleted, ResumeFromLastCheckpoint, ResumeFromCheckpoint, GetCheckpoints,
      ServiceGetStep, GetWorkflow;
    unfold bind at 1; rewrite ?bind_owned by done; rewrite ?owned_run, ?Hv; done.
Qed.

(** Completion is gated exactly: for the owner of a workflow,
    [CompleteWorkflow] succeeds if and only if the workflow is open and none
    of its steps waits for approval; when it is refused nothing is written
    and no event is emitted. *)
Theorem CompleteWorkflow_iff (s : Service) (now : Z) (wid tenant org : string) (w : Workflow) :
  workflows (sv_store s) !! wid = Some w -> workflowBelongsTo w tenant org = true ->
  (((CompleteWorkflow now wid tenant org s).1 = Ok tt <->
    IsTerminal w = false /\ no_pending (sv_store s) wid)) /\
  ((CompleteWorkflow now wid tenant org s).1 <> Ok tt -> (CompleteWorkflow now wid tenant org s).2 = s).
Proof.
  intros Hw Hb. unfold CompleteWorkflow, bind. rewrite owned_run. unfold owner_view. rewrite Hw, Hb.
  unfold guard. change (IsTerminal (with_steps w _)) with (IsTerminal w).
  destruct (IsTerminal w) eqn:Et; simpl; [naive_solver|].
  destruct (find_first is_pending _) as [x|] eqn:Ef; simpl.
  - apply find_first_Some in Ef as [[Hx Hk]%GetStepsForWorkflow_elem Hp]. split; [|done].
    split; [done|]. intros [_ Hn]. by rewrite (Hn x Hx Hk) in Hp.
  - unfold exec_, Complete, update_workflow. simpl. rewrite Hw. simpl. split; [|done].
    split; [|done]. intros _. split; [done|]. rewrite find_first_None, Forall_forall in Ef.
    intros x Hx Hk. by apply Ef, GetStepsForWorkflow_elem.
Qed.
End Sequences.

Section Gates.
Context `{U : Unicode}.
Context (baseURL : string).

(** A step's row with its gate columns set: count, last decision, time of the gate. *)
Definition with_gate (row : WorkflowStep) (count : Z) (last : string) (at_ : Z) : WorkflowStep :=
  mkStep (s_ID row) (s_WorkflowID row) (s_StepID row) (s_StepIndex row) (s_StepName row) (s_StepType row)
    (s_Decision row) (s_DecisionReason row) (s_PoliciesEvaluated row) (s_PoliciesMatched row) (s_ApprovalStatus row)
    (s_ApprovedBy row) (s_ApprovedAt row) (s_StepInput row) (s_Model row) (s_Provider row) (s_TokensIn row)
    (s_TokensOut row) (s_CostUSD row) (s_StepOutput row) (s_ApprovalComment row) at_ (s_StepCompletedAt row) count
    (s_CompletionCount row) last (s_IdempotencyKey row) (s_FirstAttemptAt row).

(** What a retry at [now] makes of a row: the retried step's has its gate columns
    changed, any other is as it was. *)
Definition retried_row (now : Z) (wid sid : string) (a b : WorkflowStep) : Prop :=
  (s_WorkflowID a = wid /\ s_StepID a = sid -> b = with_gate a (s_GateCount a + 1) (s_Decision a) now) /\
  (~ (s_WorkflowID a = wid /\ s_StepID a = sid) -> b = a).

Lemma bumped_rows now wid sid l : Forall2 (retried_row now wid sid) l (update_where (step_key wid sid) (bumped_step now) l).
Proof.
  unfold update_where. induction l as [|x l IH]; [constructor|]. rewrite fmap_cons. constructor; [|exact IH].
  unfold retried_row, step_key.
  destruct (str_eqb (s_WorkflowID x) wid && str_eqb (s_StepID x) sid) eqn:E.
  - apply andb_true_iff in E as [?%str_eqb_true ?%str_eqb_true]. split; [done|]. intros []. done.
  - split; [|done]. intros [<- <-]. by rewrite !str_eqb_refl in E.
Qed.

(** C5: The step gate is idempotent. Right after a gate has answered, a retry by the same
    tenant and organization with the same key and the idempotent policy, at any time, by
    any user and whatever the policy evaluator would now say, gets the same decision,
    marked as cached, with a gate count one higher. Its only effect on the database is on
    the row of that step: the count is one higher, the last decision is the stored one and
    the time of the gate is now; no other column and no other row of any table changes,
    and no event is emitted. *)
Theorem gate_retry_replays (E1 E2 : PolicyEvaluator) (s s' : Service) (now now2 : Z)
    (wid sid t o u c u2 c2 : string) (req req2 : StepGateRequest) (r : StepGateResponse) :
  store_ok (sv_store s) ->
  StepGate (E := E1) baseURL now wid sid req t o u c s = (Ok r, s') ->
  use_cached req2 = true -> rq_IdempotencyKey req2 = rq_IdempotencyKey req ->
  exists r2 l, StepGate (E := E2) baseURL now2 wid sid req2 t o u2 c2 s'
      = (Ok r2, mkService (set_steps (sv_store s') l) (sv_events s')) /\
    gr_Decision r2 = gr_Decision r /\ gr_Cached r2 = true /\
    rc_GateCount (gr_RetryContext r2) = rc_GateCount (gr_RetryContext r) + 1 /\
    Forall2 (retried_row now2 wid sid) (steps (sv_store s')) l.
Proof.
  intros Hok Hg Hc Hk. destruct (gate_leaves baseURL _ _ _ _ _ _ _ _ _ _ _ Hok Hg)
    as (w & row & Hw & Hb & Ht & Hr & Hkey & Hd & Hn).
  eexists _, _. split; [eapply cached_gate_run; try done; congruence|].
  destruct (cached_decision (bumped_step now2 row) wid baseURL (rq_IncludePriorOutput req2))
    as (-> & -> & ->).
  split_and!; try done; [simpl; by rewrite Hn|]. apply bumped_rows.
Qed.

(** A reviewer's approval releases the step: after [ApproveStep] succeeds on
    a step of an open workflow, an idempotent gate of that step answers
    allow from the stored decision, without asking the policy evaluator. *)
Theorem approval_releases_step (E : PolicyEvaluator) (s s' : Service) (now now2 : Z)
    (wid sid t o by_ comment u c : string) (w : Workflow) (row : WorkflowStep) (req : StepGateRequest) :
  ApproveStep now wid sid t o by_ comment s = (Ok tt, s') ->
  workflows (sv_store s) !! wid = Some w -> IsTerminal w = false ->
  GetStepDecision (sv_store s) wid sid = Some row ->
  use_cached req = true -> rq_IdempotencyKey req = default "" (s_IdempotencyKey row) ->
  is_pending row = true /\
  exists r s2, StepGate baseURL now2 wid sid req t o u c s' = (Ok r, s2) /\
    gr_Decision r = GateDecisionAllow /\ gr_Cached r = true.
Proof.
  intros Ha Hw Ht Hrow Hc Hk. unfold ApproveStep, bind in Ha. rewrite owned_run in Ha.
  destruct (owner_view s wid t o) as [v|] eqn:Ev; [|done].
  apply owner_view_Some in Ev as (w1 & Hw1 & Hb & ->). rewrite Hw1 in Hw. injection Hw as ->.
  destruct (pending_step wid sid s) as [x s1] eqn:Ep. apply refine_pending in Ep as [-> Hx].
  destruct x as [x|]; [|done]. destruct Hx as [Hx Hp]. rewrite Hx in Hrow. injection Hrow as ->.
  split; [done|]. unfold exec, UpdateStepApproval, update_step in Ha. rewrite Hx in Ha.
  injection Ha as <-.
  eexists _, _. split.
  - eapply (cached_gate_run _ _ _ _ _ _ _ _ _ _ w
      (approved_step now ApprovalStatusApproved by_ comment row)); try done. simpl.
    by apply update_where_lookup.
  - destruct (cached_decision (bumped_step now2 (approved_step now ApprovalStatusApproved by_ comment row))
      wid baseURL (rq_IncludePriorOutput req)) as (-> & -> & _). split; [|done].
    unfold resolved_decision. simpl. unfold is_pending in Hp. bool_simpl.
    by match goal with H : str_eqb _ _ = true |- _ => rewrite H end.
Qed.

(** A rejection stops the workflow: after [RejectStep] succeeds the
    workflow is aborted and every gate of it, of whatever step and with
    whatever retry policy, is refused as terminal without a write. *)
Theorem rejection_stops_workflow (E : PolicyEvaluator) (s s' : Service) (now now2 : Z)
    (wid sid sid2 t o by_ reason u c : string) (req : StepGateRequest) :
  RejectStep now wid sid t o by_ reason s = (Ok tt, s') ->
  StepGate baseURL now2 wid sid2 req t o u c s' = (Err (ETerminal WorkflowStatusAborted), s').
Proof.
  intros Ha. unfold RejectStep, bind in Ha. rewrite owned_run in Ha.
  destruct (owner_view s wid t o) as [v|] eqn:Ev; [|done].
  apply owner_view_Some in Ev as (w & Hw & Hb & ->).
  destruct (pending_step wid sid s) as [x s1] eqn:Ep. apply refine_pending in Ep as [-> Hx].
  destruct x as [x|]; [|done]. destruct Hx as [Hx Hp].
  unfold exec, UpdateStepApproval, update_step in Ha. rewrite Hx in Ha. simpl in Ha.
  unfold best_effort, Abort, update_workflow in Ha. simpl in Ha. rewrite Hw in Ha. injection Ha as <-.
  rewrite StepGate_run. unfold owner_view. simpl. rewrite lookup_insert_eq.
  unfold workflowBelongsTo in *. simpl. by rewrite Hb.
Qed.

(** An idempotency key binds a step: once a step row carries a key (or was
    gated without one), a gate or a completion of that step under any other
    key is refused with the two keys in the error, and nothing is written. *)
Theorem idempotency_key_binds (E : PolicyEvaluator) (s : Service) (now : Z) (wid sid t o u c : string)
    (w : Workflow) (row : WorkflowStep) (req : StepGateRequest) (creq : StepCompleteRequest) :
  workflows (sv_store s) !! wid = Some w -> workflowBelongsTo w t o = true ->
  GetStepDecision (sv_store s) wid sid = Some row ->
  let key := default "" (s_IdempotencyKey row) in
  (IsTerminal w = false -> rq_IdempotencyKey req <> key ->
   StepGate baseURL now wid sid req t o u c s = (Err (EKeyMismatch key (rq_IdempotencyKey req)), s)) /\
  (co_IdempotencyKey creq <> key ->
   MarkStepCompleted now wid sid (Some creq) t o s =
   (Err (EKeyMismatch key (co_IdempotencyKey creq)), s)).
Proof.
  intros Hw Hb Hr key.
  assert (Hm : forall k, k <> key -> validateIdempotencyKeyMatch (Some row) k = Some (EKeyMismatch key k)).
  { intros k Hk. destruct (validateIdempotencyKeyMatch (Some row) k) as [e|] eqn:Ev.
    - unfold validateIdempotencyKeyMatch in Ev. fold key in Ev. by destruct (_ && _); [|destruct (_ && _)].
    - by apply key_match_iff in Ev as <-. }
  split.
  - intros Ht Hk. rewrite StepGate_run. unfold owner_view. rewrite Hw, Hb.
    change (IsTerminal (with_steps w _)) with (IsTerminal w). rewrite Ht. cbn zeta.
    by rewrite Hr, Hm.
  - intros Hk. unfold MarkStepCompleted, bind. rewrite owned_run. unfold owner_view. rewrite Hw, Hb.
    unfold query. rewrite Hr, Hm; done.
Qed.

(** The listing stays inside its scope: a listing that succeeds was asked
    for with a usable organization and tenant, changes nothing, and shows
    only workflows whose row carries exactly that organization and that
    tenant and the requested status; the page is never longer than the
    clamped limit, and the total counts the matching rows. *)
Theorem ListWorkflows_scoped (opts : ListWorkflowsOptions) (s s' : Service) (r : ListWorkflowsResponse) :
  ListWorkflows opts s = (Ok r, s') ->
  s' = s /\ usable (lo_OrgID opts) = true /\ usable (lo_TenantID opts) = true /\
  (forall ws, ws ∈ lr_Workflows r -> exists w k,
     workflows (sv_store s) !! k = Some w /\ ws_WorkflowID ws = w_WorkflowID w /\
     w_OrgID w = lo_OrgID opts /\ w_TenantID w = lo_TenantID opts /\
     (forall st, lo_Status opts = Some st -> w_Status w = st)) /\
  Z.of_nat (length (lr_Workflows r)) <= page_limit (lo_Limit opts) /\
  lr_Total r = Z.of_nat (length (List.filter (list_where opts) (map_to_list (workflows (sv_store s))).*2)).
Proof.
  unfold ListWorkflows, bind, guard. destruct (ValidateRowKeys _ _) eqn:Ev; [done|].
  unfold ret at 1, query, List_. rewrite Ev. intros [= <- <-]. simpl.
  unfold ValidateRowKeys in Ev. destruct (usable (lo_OrgID opts)) eqn:Eo; [|done].
  destruct (usable (lo_TenantID opts)) eqn:Et; [|done].
  assert (Hne : forall v x, usable v = true -> str_filter v x = true -> x = v).
  { intros v x Hu Hf. unfold str_filter in Hf. apply orb_true_iff in Hf as [Hf|Hf].
    - apply str_eqb_true in Hf as ->. vm_compute in Hu. done.
    - by apply str_eqb_true in Hf as ->. }
  split_and!; try done.
  - intros ws Hws. apply list_elem_of_fmap in Hws as (w1 & -> & Hw1).
    apply list_elem_of_fmap in Hw1 as (w & -> & Hw).
    apply elem_of_take in Hw as (i & Hi & _). apply list_elem_of_lookup_2 in Hi.
    assert (Hin : w ∈ SliceStable newer (List.filter (list_where opts) (map_to_list (workflows (sv_store s))).*2)).
    { eapply elem_of_submseteq; [exact Hi|]. apply sublist_submseteq, sublist_drop. }
    rewrite SliceStable_perm, elem_of_filter_bool in Hin. destruct Hin as [Hin Hl].
    apply list_elem_of_fmap in Hin as ([k w0] & -> & Hk%elem_of_map_to_list).
    exists w0, k. unfold list_where in Hl. bool_simpl.
    split_and!; [done|done|by apply Hne|by apply Hne|].
    intros st Hst. unfold opt_match in *. rewrite Hst in *.
    by match goal with H : str_eqb st _ = true |- _ => apply str_eqb_true in H end.
  - rewrite !length_fmap, length_take. unfold page_limit. repeat case_match; lia.
  - by rewrite (Permutation_length (SliceStable_perm _ _)).
Qed.
End Gates.

(** * A concrete control plane *)

#[local] Existing Instance ascii_unicode.

(** An evaluator that wants a reviewer for deployments. *)
Definition gatekeeper : PolicyEvaluator := fun c =>
  mkEvaluation (if str_eqb (gc_StepName c) "deploy" then GateDecisionRequireApproval else GateDecisionAllow)
    "" [] [] [] "".

Definition gate_request (name policy key : string) : StepGateRequest :=
  mkGateRequest name StepTypeToolCall [] "" "" None None None None policy key None false.

Definition scene (ops : list operation) : Service :=
  run_all (E := gatekeeper) "" ops (mkService empty_store []).

Definition create_wf : operation :=
  OpCreate 10 "wf" false (mkCreate "release" "" None [] "") "t1" "org-a" "u" "c".
Definition gate (now : Z) (sid name policy key : string) : operation :=
  OpGate now "wf" sid (gate_request name policy key) "t1" "org-a" "u" "c".

Definition wf_status (s : Service) : option string := w_Status <$> workflows (sv_store s) !! "wf".
Definition wf_row (s : Service) : Workflow :=
  default (mkWorkflow "" "" "" "" 0 None "" "" "" "" "" [] 0 None 0 0 []) (workflows (sv_store s) !! "wf").
Definition step_row (s : Service) (sid : string) : WorkflowStep :=
  default (gate_step "" "" (gate_request "" "" "") 0 (override_evaluation ""))
    (GetStepDecision (sv_store s) "wf" sid).

Lemma scene_ok ops : store_ok (sv_store (scene ops)).
Proof.
  eapply rtc_trans_ok; [apply run_all_refines|]; exact empty_store_ok.
Qed.

Lemma wf_present s : wf_status s <> None -> workflows (sv_store s) !! "wf" = Some (wf_row s).
Proof. unfold wf_status, wf_row. by destruct (workflows (sv_store s) !! "wf"). Qed.

Lemma step_present s sid :
  bool_decide (GetStepDecision (sv_store s) "wf" sid = None) = false ->
  GetStepDecision (sv_store s) "wf" sid = Some (step_row s sid).
Proof.
  rewrite bool_decide_eq_false. unfold step_row. by destruct (GetStepDecision (sv_store s) "wf" sid).
Qed.

Definition pending_scene : Service := scene [create_wf; gate 20 "s1" "deploy" "" "k1"].
Definition completed_scene : Service :=
  scene [create_wf; gate 20 "s1" "plan" "" "k1"; OpComplete 30 "wf" "t1" "org-a"].

Lemma service_refines_spec_witness :
  rtc trans empty_store (sv_store pending_scene) /\ wf_status pending_scene = Some WorkflowStatusInProgress.
Proof.
  split; [|vm_compute; reflexivity].
  apply (service_refines_spec (E := gatekeeper) "" [create_wf; gate 20 "s1" "deploy" "" "k1"]
           (mkService empty_store [])). exact empty_store_ok.
Defined.

Lemma completed_is_final_witness :
  exists w', workflows (sv_store (run_all (E := gatekeeper) ""
      [gate 40 "s2" "deploy" "" ""; OpResumeLast 50 "wf" "t1" "org-a"] completed_scene)) !! "wf" = Some w' /\
    w_Status w' = WorkflowStatusCompleted /\
    no_pending (sv_store (run_all (E := gatekeeper) ""
      [gate 40 "s2" "deploy" "" ""; OpResumeLast 50 "wf" "t1" "org-a"] completed_scene)) "wf".
Proof.
  apply (completed_is_final (E := gatekeeper) "" [gate 40 "s2" "deploy" "" ""; OpResumeLast 50 "wf" "t1" "org-a"]
           completed_scene "wf" (wf_row completed_scene)).
  - apply scene_ok.
  - apply wf_present. by vm_compute.
  - vm_compute. reflexivity.
Defined.

Lemma step_history_monotone_witness :
  exists row', steps (sv_store (run_all (E := gatekeeper) ""
      [gate 40 "s1" "plan" "reevaluate" "k1"] pending_scene)) !! 0%nat = Some row' /\
    step_evolves (step_row pending_scene "s1") row'.
Proof.
  apply (step_history_monotone (E := gatekeeper) "" [gate 40 "s1" "plan" "reevaluate" "k1"] pending_scene 0
           (step_row pending_scene "s1")); [apply scene_ok|vm_compute; reflexivity].
Defined.

Lemma foreign_caller_is_denied_witness :
  run (E := gatekeeper) "" (OpAbort 40 "wf" "mine now" "t2" "org-a") pending_scene =
  (Err EWorkflowNotFound, pending_scene).
Proof.
  apply (foreign_caller_is_denied (E := gatekeeper) "" (OpAbort 40 "wf" "mine now" "t2" "org-a") pending_scene
           "wf" "t2" "org-a"); [reflexivity|].
  intros w. rewrite wf_present by (by vm_compute). intros [= <-]. vm_compute. reflexivity.
Defined.

Lemma CompleteWorkflow_iff_witness :
  (CompleteWorkflow 40 "wf" "t1" "org-a" pending_scene).2 = pending_scene /\
  (CompleteWorkflow 40 "wf" "t1" "org-a" (scene [create_wf])).1 = Ok tt.
Proof.
  split.
  - apply (CompleteWorkflow_iff pending_scene 40 "wf" "t1" "org-a" (wf_row pending_scene));
      [apply wf_present; by vm_compute|vm_compute; reflexivity|by vm_compute].
  - apply (CompleteWorkflow_iff (scene [create_wf]) 40 "wf" "t1" "org-a" (wf_row (scene [create_wf])));
      [apply wf_present; by vm_compute|vm_compute; reflexivity|].
    split; [vm_compute; reflexivity|]. intros x Hx. by apply elem_of_nil in Hx.
Defined.

(** The answer of a gate, for the witnesses. *)
Definition answer (m : M StepGateResponse) (s : Service) : StepGateResponse :=
  match (m s).1 with Ok r => r | Err _ => buildCachedResponse (step_row s "") "" "" false end.

Lemma answered (m : M StepGateResponse) s :
  match (m s).1 with Ok _ => true | Err _ => false end = true -> m s = (Ok (answer m s), (m s).2).
Proof. unfold answer. by destruct (m s) as [[r|e] s']. Qed.

Definition first_gate : M StepGateResponse :=
  StepGate (E := gatekeeper) "" 20 "wf" "s1" (gate_request "deploy" "" "k1") "t1" "org-a" "u" "c".

Lemma gate_retry_replays_witness :
  exists r2 s2,
    StepGate (E := DefaultPolicyEvaluator) "" 30 "wf" "s1" (gate_request "deploy" "" "k1") "t1" "org-a" "v" "d"
      (first_gate (scene [create_wf])).2 = (Ok r2, s2) /\
    gr_Decision r2 = GateDecisionRequireApproval /\ gr_Cached r2 = true.
Proof.
  destruct (gate_retry_replays "" gatekeeper DefaultPolicyEvaluator (scene [create_wf])
    (first_gate (scene [create_wf])).2 20 30 "wf" "s1" "t1" "org-a" "u" "c" "v" "d"
    (gate_request "deploy" "" "k1") (gate_request "deploy" "" "k1") (answer first_gate (scene [create_wf])))
    as (r2 & l & H & Hd & Hc & _).
  - apply scene_ok.
  - apply (answered first_gate). vm_compute. reflexivity.
  - reflexivity.
  - reflexivity.
  - eexists r2, _. split; [exact H|]. split; [|exact Hc]. rewrite Hd. vm_compute. reflexivity.
Defined.

Lemma acted (m : M unit) s :
  match (m s).1 with Ok _ => true | Err _ => false end = true -> m s = (Ok tt, (m s).2).
Proof. by destruct (m s) as [[[]|e] s']. Qed.

Lemma approval_releases_step_witness :
  exists r s2,
    StepGate (E := gatekeeper) "" 40 "wf" "s1" (gate_request "deploy" "" "k1") "t1" "org-a" "u" "c"
      (ApproveStep 30 "wf" "s1" "t1" "org-a" "alice" "ok" pending_scene).2 = (Ok r, s2) /\
    gr_Decision r = GateDecisionAllow /\ gr_Cached r = true.
Proof.
  apply (approval_releases_step "" gatekeeper pending_scene _ 30 40 "wf" "s1" "t1" "org-a" "alice" "ok" "u" "c"
    (wf_row pending_scene) (step_row pending_scene "s1") (gate_request "deploy" "" "k1")).
  - apply acted. vm_compute. reflexivity.
  - apply wf_present. by vm_compute.
  - vm_compute. reflexivity.
  - apply step_present. vm_compute. reflexivity.
  - reflexivity.
  - vm_compute. reflexivity.
Defined.

Lemma rejection_stops_workflow_witness :
  let s' := (RejectStep 30 "wf" "s1" "t1" "org-a" "bob" "no" pending_scene).2 in
  StepGate (E := gatekeeper) "" 40 "wf" "s2" (gate_request "plan" "reevaluate" "") "t1" "org-a" "u" "c" s' =
  (Err (ETerminal WorkflowStatusAborted), s').
Proof.
  apply (rejection_stops_workflow "" gatekeeper pending_scene _ 30 40 "wf" "s1" "s2" "t1" "org-a" "bob" "no").
  apply acted. vm_compute. reflexivity.
Defined.

Lemma idempotency_key_binds_witness :
  StepGate (E := gatekeeper) "" 40 "wf" "s1" (gate_request "deploy" "" "k2") "t1" "org-a" "u" "c" pending_scene =
    (Err (EKeyMismatch "k1" "k2"), pending_scene) /\
  MarkStepCompleted 40 "wf" "s1" (Some (mkComplete None None None None "")) "t1" "org-a" pending_scene =
    (Err (EKeyMismatch "k1" ""), pending_scene).
Proof.
  destruct (idempotency_key_binds "" gatekeeper pending_scene 40 "wf" "s1" "t1" "org-a" "u" "c"
    (wf_row pending_scene) (step_row pending_scene "s1") (gate_request "deploy" "" "k2")
    (mkComplete None None None None "")) as [H1 H2].
  - apply wf_present. by vm_compute.
  - vm_compute. reflexivity.
  - apply step_present. vm_compute. reflexivity.
  - split; [apply H1|apply H2]; by vm_compute.
Defined.

Definition list_all : ListWorkflowsOptions := mkListOptions (Some "in_progress") None "t1" "org-a" "" 0 0.

Lemma returned {A} (m : M A) s :
  match (m s).1 with Ok _ => true | Err _ => false end = true -> exists r, m s = (Ok r, (m s).2).
Proof. destruct (m s) as [[r|e] s']; [by exists r|done]. Qed.

Lemma ListWorkflows_scoped_witness :
  exists r s', ListWorkflows list_all pending_scene = (Ok r, s') /\ s' = pending_scene /\ lr_Total r = 1.
Proof.
  destruct (returned (ListWorkflows list_all) pending_scene) as [r H]; [vm_compute; reflexivity|].
  eexists r, _. split; [exact H|].
  destruct (ListWorkflows_scoped list_all pending_scene _ r H) as (Hs & _ & _ & _ & _ & Ht).
  split; [exact Hs|]. rewrite Ht. vm_compute. reflexivity.
Defined.

(** * Corners *)

(** A keyed step cannot be resumed: when the step of the last resumable
      checkpoint was gated under an idempotency key, resuming an aborted
      workflow always fails with a key mismatch, because the rebuilt request
      carries no key; by then the workflow was already put back in progress. *)
Theorem keyed_step_not_resumable {U : Unicode} {E : PolicyEvaluator} (url : string) (s : Service) (now : Z)
    (wid t o k : string) (w : Workflow) (cp : Checkpoint) (row : WorkflowStep) :
  store_ok (sv_store s) -> workflows (sv_store s) !! wid = Some w ->
  w_Status w = WorkflowStatusAborted -> workflowBelongsTo w t o = true ->
  GetLastResumableCheckpoint (sv_store s) wid = Some cp -> workflowBelongsTo w t (c_OrgID cp) = true ->
  GetStepDecision (sv_store s) wid (c_StepID cp) = Some row -> s_IdempotencyKey row = Some k -> k <> "" ->
  exists s' w', ResumeFromLastCheckpoint url now wid t o s = (Err (EKeyMismatch k ""), s') /\
    workflows (sv_store s') !! wid = Some w' /\ w_Status w' = WorkflowStatusInProgress.
Proof.
  intros Hok Hw Hst Hb Hcp Hbc Hr Hk Hne.
  pose proof (ok_keys _ Hok _ _ Hw) as Hid.
  unfold ResumeFromLastCheckpoint, bind at 1. rewrite owned_run. unfold owner_view. rewrite Hw, Hb.
  unfold bind at 1, query. rewrite Hcp. unfold resumeFromCheckpointInternal, bind at 1, guard.
  change (w_Status (with_steps w _)) with (w_Status w). rewrite Hst. simpl.
  unfold bind at 1, exec_, UpdateStatus, update_workflow. simpl. rewrite Hid, Hw.
  unfold bind at 1. rewrite StepGate_run. unfold owner_view. simpl. rewrite lookup_insert_eq.
  unfold workflowBelongsTo in *. simpl. rewrite Hbc. cbn [IsTerminal].
  unfold GetStepDecision. simpl. unfold GetStepDecision in Hr. rewrite Hr.
  unfold validateIdempotencyKeyMatch. rewrite Hk. simpl. apply str_eqb_false in Hne. rewrite Hne. simpl.
  eexists _, _. split; [reflexivity|]. simpl. rewrite lookup_insert_eq. done.
Qed.

Definition aborted_scene : Service :=
  scene [create_wf; gate 20 "s1" "plan" "" "k1"; OpAbort 30 "wf" "stop" "t1" "org-a"].

Lemma keyed_step_not_resumable_witness :
  exists s' w',
    ResumeFromLastCheckpoint (E := gatekeeper) "" 40 "wf" "t1" "org-a" aborted_scene =
      (Err (EKeyMismatch "k1" ""), s') /\
    workflows (sv_store s') !! "wf" = Some w' /\ w_Status w' = WorkflowStatusInProgress.
Proof.
  destruct (GetLastResumableCheckpoint (sv_store aborted_scene) "wf") as [cp|] eqn:Ecp;
    [|vm_compute in Ecp; discriminate Ecp].
  assert (Hc : c_OrgID <$> GetLastResumableCheckpoint (sv_store aborted_scene) "wf" = Some "org-a" /\
               c_StepID <$> GetLastResumableCheckpoint (sv_store aborted_scene) "wf" = Some "s1")
    by (split; vm_compute; reflexivity).
  rewrite Ecp in Hc. destruct Hc as [[= Ho] [= Hs]].
  apply (keyed_step_not_resumable "" aborted_scene 40 "wf" "t1" "org-a" "k1" (wf_row aborted_scene) cp
           (step_row aborted_scene "s1")).
  - apply scene_ok.
  - apply wf_present. by vm_compute.
  - vm_compute. reflexivity.
  - vm_compute. reflexivity.
  - exact Ecp.
  - rewrite Ho. vm_compute. reflexivity.
  - rewrite Hs. apply step_present. vm_compute. reflexivity.
  - vm_compute. reflexivity.
  - discriminate.
Defined.

Definition decision_of (r : result wcp_error StepGateResponse) : option string :=
  match r with Ok x => Some (gr_Decision x) | Err _ => None end.

(** The pending-approval guard looks only at the step of highest index: when
      an earlier step is re-evaluated and becomes pending, a gate of a new
      step is still allowed, so the workflow advances past the approval. *)
Theorem pending_earlier_step_not_guarded :
  let s := scene [create_wf; gate 20 "s1" "plan" "" ""; gate 30 "s2" "build" "" "";
                  gate 40 "s1" "deploy" "reevaluate" ""] in
  is_pending (step_row s "s1") = true /\
  decision_of (StepGate (E := gatekeeper) "" 50 "wf" "s3" (gate_request "ship" "" "") "t1" "org-a" "u" "c" s).1
    = Some GateDecisionAllow.
Proof. vm_compute. split; reflexivity. Qed.

(** Re-evaluation inflates the step count: each re-evaluated gate of the same
      step advances the workflow's step index, so an open-ended workflow with
      one step is finalised with a total of three steps. *)
Theorem reevaluation_inflates_total :
  let s := scene [create_wf; gate 20 "s1" "plan" "" ""; gate 30 "s1" "plan" "reevaluate" "";
                  gate 40 "s1" "plan" "reevaluate" ""; OpComplete 50 "wf" "t1" "org-a"] in
  wf_status s = Some WorkflowStatusCompleted /\ length (steps (sv_store s)) = 1%nat /\
  w_TotalSteps (wf_row s) = Some 3.
Proof. vm_compute. split_and!; reflexivity. Qed.

(** A failed workflow can be reopened: resuming it is refused, but rejecting
      its pending step is not, and turns failed into aborted; the resume then
      succeeds, and the running workflow keeps the completion time and the total
      of the terminal state. *)
Theorem failed_workflow_reopened :
  let failed := scene [create_wf; gate 20 "s1" "deploy" "" ""; OpFail 30 "wf" "boom" "t1" "org-a"] in
  let resume := OpResumeLast 50 "wf" "t1" "org-a" in
  let reopened := run_all (E := gatekeeper) "" [OpReject 40 "wf" "s1" "t1" "org-a" "bob" "no"; resume] failed in
  wf_status failed = Some WorkflowStatusFailed /\
  (run (E := gatekeeper) "" resume failed).1 = Err (ECannotResume WorkflowStatusFailed) /\
  wf_status reopened = Some WorkflowStatusInProgress /\
  w_CompletedAt (wf_row reopened) = Some 40 /\ w_TotalSteps (wf_row reopened) = Some 1.
Proof. vm_compute. split_and!; reflexivity. Qed.

(** A re-evaluated gate that needs a new approval still names the previous
      approver and the time of the previous approval. *)
Theorem regate_keeps_approver :
  let s := scene [create_wf; gate 20 "s1" "deploy" "" ""; OpApprove 30 "wf" "s1" "t1" "org-a" "alice" "ok";
                  gate 40 "s1" "deploy" "reevaluate" ""] in
  is_pending (step_row s "s1") = true /\ s_ApprovedBy (step_row s "s1") = "alice" /\
  s_ApprovedAt (step_row s "s1") = Some 30.
Proof. vm_compute. split_and!; reflexivity. Qed.
