(* ===== verification/WcpRace.v ===== *)
(** Concurrent step gates (platform/orchestrator/workflow_control/service.go,
    StepGate): each SQL statement is atomic, the statements of several calls
    interleave. A call is cut at its statements; run alone, the sections are
    [StepGate]. *)

From S2P Require Import Prelude GoFloat GoStrings Regexp PolicyTypes GoJSON TenantScope.
From S2P Require Import WcpTypes WcpRepository WcpService WcpSpec WcpFacts WcpTheorems.

Local Open Scope Z_scope.

Record gate_call := mkCall {
  ca_now : Z;
  ca_wid : string;
  ca_sid : string;
  ca_req : StepGateRequest;
  ca_tenant : string;
  ca_org : string;
  ca_user : string;
  ca_client : string;
}.

(** Where a call stands between two statements, with the values it has read. *)
Inductive gate_phase : Type :=
| PLoad                                      (** before the SELECT of the workflow's row *)
| PSteps (w : Workflow)                      (** before the SELECT of its steps *)
| PLookup (w : Workflow)
| PBump
| PWrite (w : Workflow) (existing : option WorkflowStep)
| PIndex (w : Workflow) (e : StepGateEvaluation) (step : WorkflowStep)
| PReadBack (w : Workflow) (e : StepGateEvaluation) (step : WorkflowStep)
| PCheckpoint (w : Workflow) (e : StepGateEvaluation) (row : WorkflowStep)
| PDone (r : result wcp_error StepGateResponse).

(** The call has been counted on its step row. *)
Definition counted (p : gate_phase) : bool :=
  match p with
  | PIndex _ _ _ | PReadBack _ _ _ | PCheckpoint _ _ _ | PDone (Ok _) => true
  | _ => false
  end.

Section Race.
Context `{U : Unicode} `{E : PolicyEvaluator}.
Context (baseURL : string).

(** Sections left, at most. *)
Definition phase_rank (p : gate_phase) : Z :=
  match p with
  | PLoad => 7
  | PSteps _ => 6
  | PLookup _ => 5
  | PBump => 1
  | PWrite _ _ => 4
  | PIndex _ _ _ => 3
  | PReadBack _ _ _ => 2
  | PCheckpoint _ _ _ => 1
  | PDone _ => 0
  end.

Definition fresh_response (c : gate_call) (w : Workflow) (e : StepGateEvaluation) (row : WorkflowStep)
  : StepGateResponse :=
  mkGateResponse (ev_Decision e) (ca_sid c) (decision_id (w_WorkflowID w) (ca_sid c)) (ev_PolicyIDs e)
    (ev_Reason e) (ev_ApprovalID e)
    (if str_eqb (ev_Decision e) GateDecisionRequireApproval
     then approval_url baseURL (w_WorkflowID w) (ca_sid c) else "")
    (ev_PoliciesEvaluated e) (ev_PoliciesMatched e) false "fresh"
    (buildRetryContext row (rq_IncludePriorOutput (ca_req c))).

Definition gate_events (c : gate_call) (w : Workflow) (e : StepGateEvaluation) : list event :=
  EvAudit "step_gate" (w_WorkflowID w) (ca_sid c) (ev_Decision e) (ev_Reason e) (ca_tenant c)
  :: (if str_eqb (ev_Decision e) GateDecisionRequireApproval
      then [EvWebhook "step.approval_required" (w_WorkflowID w) (ca_sid c) (ca_tenant c) (ca_org c)]
      else []).

(** The next statement of a call, with the code up to the following one. *)
Definition gate_section (s : Service) (c : gate_call) (p : gate_phase) : option (Service * gate_phase) :=
  match p with
  | PLoad =>
      Some (s, match workflows (sv_store s) !! ca_wid c with
               | None => PDone (Err EWorkflowNotFound)
               | Some w => PSteps w
               end)
  | PSteps w =>
      let w := with_steps w (GetStepsForWorkflow (sv_store s) (ca_wid c)) in
      Some (s, if workflowBelongsTo w (ca_tenant c) (ca_org c)
               then if IsTerminal w then PDone (Err (ETerminal (w_Status w))) else PLookup w
               else PDone (Err EWorkflowNotFound))
  | PLookup w =>
      let existing := GetStepDecision (sv_store s) (ca_wid c) (ca_sid c) in
      Some (s, match validateIdempotencyKeyMatch existing (rq_IdempotencyKey (ca_req c)) with
               | Some e => PDone (Err e)
               | None =>
                   match (if use_cached (ca_req c) then existing else None) with
                   | Some _ => PBump
                   | None => match pending_elsewhere w (ca_sid c) with
                             | Some x => PDone (Err (EPendingApproval x))
                             | None => PWrite w existing
                             end
                   end
               end)
  | PBump =>
      Some (match BumpGateCountCached (sv_store s) (ca_now c) (ca_wid c) (ca_sid c) with
            | Ok (row, st) =>
                (mkService st (sv_events s),
                 PDone (Ok (buildCachedResponse row (ca_wid c) baseURL (rq_IncludePriorOutput (ca_req c)))))
            | Err e => (s, PDone (Err e))
            end)
  | PWrite w existing =>
      let e := gate_evaluation (ca_now c) w (ca_sid c) (ca_req c) (ca_tenant c) (ca_org c) (ca_user c)
                 (ca_client c) existing in
      let '(step, st) := upsert_step (sv_store s) (ca_now c)
                           (gate_step (ca_wid c) (ca_sid c) (ca_req c) (w_CurrentStepIndex w + 1) e) in
      Some (mkService st (sv_events s), PIndex w e step)
  | PIndex w e step =>
      Some (mkService (advance_index (sv_store s) (ca_now c) (ca_wid c) (w_CurrentStepIndex w + 1)) (sv_events s),
            PReadBack w e step)
  | PReadBack w e step =>
      let persisted := GetStepDecision (sv_store s) (ca_wid c) (ca_sid c) in
      Some (s, if match persisted with
                  | Some p => negb (str_eqb (s_Decision p) (ev_Decision e)) | None => false end
               then PDone (Ok (buildCachedResponse (default step persisted) (ca_wid c) baseURL
                                 (rq_IncludePriorOutput (ca_req c))))
               else PCheckpoint w e (default step persisted))
  | PCheckpoint w e row =>
      let st := match CreateCheckpoint (sv_store s) (ca_now c)
                        (gate_checkpoint (ca_wid c) (ca_sid c) (ca_req c) (w_CurrentStepIndex w + 1) e
                           (ca_tenant c) (ca_org c) (ca_user c) (ca_client c)) with
                | Ok st => st
                | Err _ => sv_store s
                end in
      Some (mkService st (sv_events s ++ gate_events c w e), PDone (Ok (fresh_response c w e row)))
  | PDone _ => None
  end.

Fixpoint run_sections (fuel : nat) (s : Service) (c : gate_call) (p : gate_phase) : Service * gate_phase :=
  match fuel with
  | O => (s, p)
  | S n => match gate_section s c p with
           | Some (s', p') => run_sections n s' c p'
           | None => (s, p)
           end
  end.

Lemma fresh_sequential s c w existing :
  w_WorkflowID w = ca_wid c ->
  run_sections 4 s c (PWrite w existing) =
  let '(r, s') := fresh_gate baseURL (ca_now c) w (ca_sid c) (ca_req c) (ca_tenant c) (ca_org c)
                    (ca_user c) (ca_client c) existing s in (s', PDone r).
Proof.
  intros Hid. cbn [run_sections gate_section]. unfold fresh_gate, bind, exec, query.
  fold (gate_evaluation (ca_now c) w (ca_sid c) (ca_req c) (ca_tenant c) (ca_org c) (ca_user c)
          (ca_client c) existing).
  set (e := gate_evaluation _ _ _ _ _ _ _ _ _). cbn [gc_StepIndex gate_context].
  rewrite Hid. unfold AddStep. cbn [gate_step s_WorkflowID s_StepIndex].
  destruct (upsert_step _ _ _) as [step st0]. cbn [run_sections gate_section sv_store sv_events].
  set (st := advance_index st0 _ _ _).
  destruct (match GetStepDecision st (ca_wid c) (ca_sid c) with Some _ => _ | None => _ end); [done|].
  cbn [gate_section sv_store sv_events]. unfold best_effort. cbn [sv_store sv_events].
  unfold gate_events, fresh_response. rewrite Hid.
  destruct (CreateCheckpoint _ _ _); unfold emit, ret; cbn [sv_store sv_events];
    destruct (str_eqb (ev_Decision e) GateDecisionRequireApproval); cbn [sv_store sv_events];
    rewrite <- ?app_assoc; reflexivity.
Qed.

(** Run without interference, the sections are [StepGate]. *)
Lemma sections_sequential s c :
  store_ok (sv_store s) ->
  run_sections 7 s c PLoad =
  let '(r, s') := StepGate baseURL (ca_now c) (ca_wid c) (ca_sid c) (ca_req c) (ca_tenant c) (ca_org c)
                    (ca_user c) (ca_client c) s in (s', PDone r).
Proof.
  intros Hok. rewrite StepGate_run.
  assert (HL : run_sections 7 s c PLoad = run_sections 5 s c match owner_view s (ca_wid c) (ca_tenant c) (ca_org c) with
       | None => PDone (Err EWorkflowNotFound)
       | Some w => if IsTerminal w then PDone (Err (ETerminal (w_Status w))) else PLookup w
       end).
  { unfold owner_view. cbn [run_sections gate_section]. destruct (workflows (sv_store s) !! ca_wid c) as [w|]; [|done].
    cbn [run_sections gate_section].
    change (workflowBelongsTo (with_steps w ?l) (ca_tenant c) (ca_org c)) with (workflowBelongsTo w (ca_tenant c) (ca_org c)).
    by destruct (workflowBelongsTo w _ _). }
  rewrite HL. destruct (owner_view s (ca_wid c) (ca_tenant c) (ca_org c)) as [w|] eqn:Ev; [|done].
  assert (Hid : w_WorkflowID w = ca_wid c).
  { apply owner_view_Some in Ev as (w0 & Hw0 & _ & ->). by apply (ok_keys _ Hok _ _ Hw0). }
  destruct (IsTerminal w); [done|]. cbn zeta.
  set (existing := GetStepDecision (sv_store s) (ca_wid c) (ca_sid c)).
  change (run_sections 5 s c (PLookup w)) with
    (run_sections 4 s c match validateIdempotencyKeyMatch existing (rq_IdempotencyKey (ca_req c)) with
       | Some e => PDone (Err e)
       | None =>
           match (if use_cached (ca_req c) then existing else None) with
           | Some _ => PBump
           | None => match pending_elsewhere w (ca_sid c) with
                     | Some x => PDone (Err (EPendingApproval x))
                     | None => PWrite w existing
                     end
           end
       end).
  destruct (validateIdempotencyKeyMatch _ _); [done|].
  destruct (if use_cached (ca_req c) then existing else None) as [old|] eqn:Eo.
  - destruct (use_cached (ca_req c)); [|done]. unfold existing in Eo.
    cbn [run_sections gate_section]. unfold BumpGateCountCached, update_step. by rewrite Eo.
  - destruct (pending_elsewhere w (ca_sid c)); [done|]. by apply fresh_sequential.
Qed.

(** * Interleavings *)

Inductive race : Service * list (gate_call * gate_phase) -> Service * list (gate_call * gate_phase) -> Prop :=
| R_section s s' cs i c p p' :
    cs !! i = Some (c, p) -> gate_section s c p = Some (s', p') ->
    race (s, cs) (s', <[i := (c, p')]> cs).

(** An execution of given calls in a given order. *)
Fixpoint schedule (order : list nat) (st : Service * list (gate_call * gate_phase))
  : option (Service * list (gate_call * gate_phase)) :=
  match order with
  | [] => Some st
  | i :: order' =>
      match st.2 !! i with
      | None => None
      | Some (c, p) => match gate_section st.1 c p with
                       | None => None
                       | Some (s', p') => schedule order' (s', <[i := (c, p')]> st.2)
                       end
      end
  end.

Lemma schedule_race order : forall st st', schedule order st = Some st' -> nsteps race (length order) st st'.
Proof.
  induction order as [|i order IH]; intros [s cs] st'; simpl; [intros [= <-]; constructor|].
  destruct (cs !! i) as [[c p]|] eqn:Ei; [|done].
  destruct (gate_section s c p) as [[s' p']|] eqn:Eg; [|done].
  intros H. econstructor; [by eapply R_section|by apply IH].
Qed.

Definition gate_total (st : Store) (wid sid : string) : Z :=
  match GetStepDecision st wid sid with Some row => s_GateCount row | None => 0 end.

(** One for a call on the step that has been counted. *)
Definition counts (wid sid : string) (cp : gate_call * gate_phase) : Z :=
  if str_eqb (ca_wid cp.1) wid && str_eqb (ca_sid cp.1) sid && counted cp.2 then 1 else 0.

Definition sum_over {A} (f : A -> Z) (l : list A) : Z := foldr (fun x a => f x + a) 0 l.

Lemma sum_over_insert {A} (f : A -> Z) l i x y :
  l !! i = Some x -> sum_over f (<[i := y]> l) = sum_over f l - f x + f y.
Proof.
  revert i. induction l as [|z l IH]; intros [|i] Hi; simpl in *; try done.
  - injection Hi as ->. lia.
  - rewrite IH by done. lia.
Qed.

Lemma step_key_true wid sid x : step_key wid sid x = true <-> s_WorkflowID x = wid /\ s_StepID x = sid.
Proof. unfold step_key. by rewrite andb_true_iff, !str_eqb_true. Qed.

(** Writes of another step leave this one's count alone. *)
Lemma find_first_other {A} (p q : A -> bool) f l :
  (forall x, q x = true -> p x = false /\ p (f x) = false) ->
  find_first p (update_where q f l) = find_first p l.
Proof.
  intros H. unfold update_where. induction l as [|x l IH]; [done|]. rewrite fmap_cons. cbn [find_first].
  destruct (q x) eqn:Eq; [|by rewrite IH]. destruct (H x Eq) as [-> ->]. exact IH.
Qed.

Lemma find_first_app_other {A} (p : A -> bool) l x :
  p x = false -> find_first p (l ++ [x]) = find_first p l.
Proof. intros Hx. induction l as [|y l IH]; simpl; [by rewrite Hx|]. by rewrite IH. Qed.

Lemma key_case wid sid wid' sid' :
  str_eqb wid' wid && str_eqb sid' sid = bool_decide ((wid', sid') = (wid, sid)).
Proof.
  apply eq_bool_prop_intro. rewrite bool_decide_spec, Is_true_true, andb_true_iff, !str_eqb_true.
  split; [by intros [-> ->]|by intros [= -> ->]].
Qed.

Lemma key_other wid sid wid' sid' x :
  (wid', sid') <> (wid, sid) -> step_key wid' sid' x = true -> step_key wid sid x = false.
Proof.
  intros Hne [<- <-]%step_key_true. destruct (step_key wid sid x) eqn:Ex; [|done].
  apply step_key_true in Ex as [<- <-]. done.
Qed.

Lemma upsert_total st now row wid sid :
  gate_total (upsert_step st now row).2 wid sid =
  gate_total st wid sid + (if bool_decide ((s_WorkflowID row, s_StepID row) = (wid, sid)) then 1 else 0).
Proof.
  assert (Hs : forall k1 k2, GetStepDecision (upsert_step st now row).2 k1 k2 = GetStepDecision (AddStep st now row).2 k1 k2).
  { intros k1 k2. unfold AddStep. destruct (upsert_step st now row) as [r st']. simpl. unfold GetStepDecision.
    by rewrite (proj1 (advance_index_steps _ _ _ _)). }
  case_bool_decide as Hk.
  - injection Hk as <- <-. unfold gate_total. rewrite Hs, AddStep_lookup.
    destruct (AddStep_fields st now row) as (_ & _ & ->). destruct (GetStepDecision st _ _); lia.
  - unfold gate_total. rewrite Hs, Z.add_0_r. unfold GetStepDecision at 1. rewrite AddStep_steps.
    destruct (GetStepDecision st (s_WorkflowID row) (s_StepID row)).
    + rewrite find_first_other; [done|]. intros x Hx.
      split; eapply key_other; try exact Hk; [done|by apply step_key_conflict].
    + rewrite find_first_app_other; [done|]. eapply key_other; [exact Hk|]. by apply step_key_true.
Qed.

Lemma bump_total st now wid' sid' row st' wid sid :
  BumpGateCountCached st now wid' sid' = Ok (row, st') ->
  gate_total st' wid sid =
  gate_total st wid sid + (if bool_decide ((wid', sid') = (wid, sid)) then 1 else 0).
Proof.
  intros (old & Ho & -> & ->)%update_step_inv. case_bool_decide as Hk.
  - injection Hk as -> ->. unfold gate_total. by rewrite (update_where_lookup _ _ _ _ old), Ho.
  - unfold gate_total, GetStepDecision. simpl. rewrite Z.add_0_r, find_first_other; [done|].
    intros x Hx. split; eapply key_other; try exact Hk; done.
Qed.

Lemma gate_section_count s c p s' p' wid sid :
  gate_section s c p = Some (s', p') ->
  gate_total (sv_store s') wid sid - counts wid sid (c, p') =
  gate_total (sv_store s) wid sid - counts wid sid (c, p).
Proof.
  unfold counts. cbn [fst snd]. rewrite key_case.
  destruct p as [|w|w| |w ex|w e st|w e st|w e row|r]; cbn [gate_section counted]; rewrite ?andb_false_r, ?andb_true_r.
  - intros [= <- <-]. destruct (workflows _ !! _); simpl; by rewrite andb_false_r.
  - intros [= <- <-]. repeat case_match; simpl in *; rewrite ?andb_false_r in *; congruence || lia.
  - intros [= <- <-]. repeat case_match; simpl in *; rewrite ?andb_false_r in *; congruence || lia.
  - destruct (BumpGateCountCached _ _ _ _) as [[row st]|] eqn:Eb; intros [= <- <-]; simpl.
    + rewrite andb_true_r, (bump_total _ _ _ _ _ _ wid sid Eb). lia.
    + by rewrite andb_false_r.
  - destruct (upsert_step _ _ _) as [step st] eqn:Ea. intros [= <- <-]. simpl. rewrite andb_true_r.
    pose proof (upsert_total (sv_store s) (ca_now c) (gate_step (ca_wid c) (ca_sid c) (ca_req c)
      (w_CurrentStepIndex w + 1) (gate_evaluation (ca_now c) w (ca_sid c) (ca_req c) (ca_tenant c) (ca_org c)
        (ca_user c) (ca_client c) ex)) wid sid) as Ht.
    rewrite Ea in Ht. simpl in Ht. rewrite Ht. lia.
  - intros [= <- <-]. simpl. rewrite andb_true_r. unfold gate_total, GetStepDecision.
    by rewrite (proj1 (advance_index_steps _ _ _ _)).
  - intros [= <- <-]. repeat case_match; simpl in *; rewrite ?andb_true_r in *; congruence || lia.
  - intros [= <- <-]. simpl. rewrite andb_true_r.
    destruct (CreateCheckpoint _ _ _) as [st|] eqn:Ec; [|done].
    apply CreateCheckpoint_frame in Ec as [_ Hs]. unfold gate_total, GetStepDecision. by rewrite Hs.
  - done.
Qed.

Lemma gate_section_rank s c p s' p' :
  gate_section s c p = Some (s', p') -> 0 <= phase_rank p' < phase_rank p.
Proof.
  destruct p; cbn [gate_section]; intros H; try done;
    simplify_eq; repeat (case_match; simplify_eq); simpl; lia.
Qed.

Lemma race_total s cs s' cs' wid sid :
  rtc race (s, cs) (s', cs') ->
  gate_total (sv_store s') wid sid - sum_over (counts wid sid) cs' =
  gate_total (sv_store s) wid sid - sum_over (counts wid sid) cs.
Proof.
  intros Hr. remember (s, cs) as a eqn:Ea. remember (s', cs') as b eqn:Eb. revert s cs Ea.
  induction Hr as [a|a x b Hx _ IH]; intros s cs ->.
  - injection Eb as -> ->. done.
  - inversion Hx as [? s1 ? i c p p' L G]; subst. rewrite (IH eq_refl _ _ eq_refl).
    apply (gate_section_count _ _ _ _ _ wid sid) in G. rewrite (sum_over_insert _ _ _ _ _ L). lia.
Qed.

Lemma race_bounded n : forall s cs s' cs',
  nsteps race n (s, cs) (s', cs') ->
  Z.of_nat n + sum_over (fun cp => phase_rank cp.2) cs' <= sum_over (fun cp => phase_rank cp.2) cs.
Proof.
  induction n as [|n IH]; intros s cs s' cs' Hn; inv Hn; [lia|].
  match goal with H : race _ _ |- _ => inv H end.
  match goal with H : nsteps _ _ _ _ |- _ => apply IH in H end.
  match goal with H : gate_section _ _ _ = Some _, L : _ !! _ = Some _ |- _ =>
    apply gate_section_rank in H; rewrite (sum_over_insert _ _ _ _ _ L) in * end. simpl in *. lia.
Qed.

Lemma sum_over_const {A} (f : A -> Z) k l : Forall (fun x => f x = k) l -> sum_over f l = k * Z.of_nat (length l).
Proof. induction 1 as [|x l Hx _ IH]; simpl; [lia|]. rewrite Hx, IH. lia. Qed.

Lemma sum_rank_nonneg cs : 0 <= sum_over (fun cp : gate_call * gate_phase => phase_rank cp.2) cs.
Proof. induction cs as [|[c p] cs IH]; simpl; [lia|]. destruct p; simpl; lia. Qed.

(** C6: No gate call is lost under concurrency. A call is a sequence of SQL statements
    (the workflow's row, its steps, the step's row, then a bump of its count, or an
    upsert, the advance of the workflow's index, the read-back and the checkpoint), each
    atomic by itself and none of them failing. However the statements of any number of
    concurrent gate calls interleave, the gate count of a step grows by exactly the
    number of calls on that step that have upserted or bumped it (a refused call is not
    counted, an answered one exactly once), every unfinished call can take a step, and
    the whole run takes at most seven statements per call. *)
Theorem race_counts_every_gate (s s' : Service) (cs cs' : list (gate_call * gate_phase)) (n : nat)
    (wid sid : string) :
  Forall (fun cp => cp.2 = PLoad) cs -> nsteps race n (s, cs) (s', cs') ->
  gate_total (sv_store s') wid sid = gate_total (sv_store s) wid sid + sum_over (counts wid sid) cs' /\
  (n <= 7 * length cs)%nat /\
  (forall i c p, cs' !! i = Some (c, p) ->
     (exists r, p = PDone r) \/ exists p' s'', race (s', cs') (s'', <[i := (c, p')]> cs')).
Proof.
  intros Hl Hn. split_and!.
  - pose proof (race_total s cs s' cs' wid sid (rtc_nsteps_2 _ _ _ Hn)) as Ht.
    rewrite (sum_over_const (counts wid sid) 0 cs) in Ht; [lia|].
    eapply Forall_impl; [exact Hl|]. intros [c p]. simpl. intros ->. unfold counts. simpl.
    by rewrite andb_false_r.
  - pose proof (race_bounded n s cs s' cs' Hn) as Hb. pose proof (sum_rank_nonneg cs').
    rewrite (sum_over_const (fun cp => phase_rank cp.2) 7 cs) in Hb; [lia|].
    eapply Forall_impl; [exact Hl|]. intros [c p]. simpl. by intros ->.
  - intros i c p Hi.
    destruct (gate_section s' c p) as [[s'' p']|] eqn:Eg; [right; eauto using R_section|left].
    destruct p; cbn [gate_section] in Eg; try done; [by destruct (upsert_step _ _ _)|eauto].
Qed.
End Race.

(** * Two racing callers *)

#[local] Existing Instance ascii_unicode.

(** An evaluator that refuses one user. *)
Definition per_user : PolicyEvaluator := fun c =>
  mkEvaluation (if str_eqb (gc_UserID c) "bob" then GateDecisionBlock else GateDecisionAllow) "" [] [] [] "".

Definition call_of (user : string) : gate_call :=
  mkCall 20 "wf" "s1" (gate_request "plan" "" "") "t1" "org-a" user "c".
Definition racers : list (gate_call * gate_phase) := [(call_of "alice", PLoad); (call_of "bob", PLoad)].

Definition raced (order : list nat) : Service * list (gate_call * gate_phase) :=
  default (scene [], []) (schedule (E := per_user) "" order (scene [create_wf], racers)).

Lemma raced_steps order :
  bool_decide (schedule (E := per_user) "" order (scene [create_wf], racers) = None) = false ->
  nsteps (race (E := per_user) "") (length order) (scene [create_wf], racers) (raced order).
Proof.
  rewrite bool_decide_eq_false. intros H. apply schedule_race. unfold raced.
  by destruct (schedule "" order _).
Qed.

Definition overlap : list nat := [0; 1; 0; 1; 0; 1; 0; 0; 0; 0; 1; 1; 1; 1]%nat.

Lemma race_counts_every_gate_witness :
  gate_total (sv_store (raced overlap).1) "wf" "s1" = 2.
Proof.
  destruct (race_counts_every_gate (E := per_user) "" (scene [create_wf]) (raced overlap).1 racers
    (raced overlap).2 14 "wf" "s1") as (Ht & _ & _).
  - repeat constructor.
  - rewrite <- surjective_pairing. apply (raced_steps overlap). vm_compute. reflexivity.
  - rewrite Ht. vm_compute. reflexivity.
Defined.

Definition told (cp : gate_call * gate_phase) : option string :=
  match cp.2 with PDone r => decision_of r | _ => None end.

(** The read-back does not make racing callers agree: when two first gates of
      the same step overlap, the first caller can be told allow and the second
      block, both after reading back; the stored decision is block. *)
Theorem racing_gates_disagree :
  nsteps (race (E := per_user) "") 14 (scene [create_wf], racers) (raced overlap) /\
  told <$> (raced overlap).2 = [Some GateDecisionAllow; Some GateDecisionBlock] /\
  s_Decision (step_row (raced overlap).1 "s1") = GateDecisionBlock.
Proof.
  split; [apply (raced_steps overlap); vm_compute; reflexivity|]. split; vm_compute; reflexivity.
Qed.
