(* ===== verification/Idempotency.v ===== *)
(** The Idempotency-Key middleware (platform/shared/idempotency: store.go and
    wrap.go): a table of responses by key, tenant and endpoint, and the wrapper
    that replays them.

    A handler is a function on the state it works on that yields the calls it
    makes on its ResponseWriter. Both pools are connections to one table. Times
    are nanoseconds. *)

From S2P Require Import Prelude GoStrings Regexp.

Local Open Scope Z_scope.

Definition DefaultTTL : Z := 24 * 3600 * 1000000000.
Definition MaxKeyLength : nat := 256.
Definition keyPattern : regex := MustCompile "^[A-Za-z0-9_.:\-/]+$".

Inductive idem_error : Type :=
| ErrKeyTooLong
| ErrKeyInvalid
| ErrKeyEmpty
| ErrNoAppDB
| ErrBlankArgument
| ErrDatabase.

Record CachedResponse := mkCached {
  StatusCode : Z;
  Body : string;
  CreatedAt : Z;
  ExpiresAt : Z;
}.

(** Rows of idempotency_keys by (key, tenant_id, endpoint). *)
Abbreviation idem_key := (string * string * string)%type.

Record IdemStore := mkIdem {
  has_app : bool;
  has_admin : bool;
  app_up : bool;
  admin_up : bool;
  rows : gmap idem_key CachedResponse;
}.

Definition set_rows (s : IdemStore) (m : gmap idem_key CachedResponse) : IdemStore :=
  mkIdem (has_app s) (has_admin s) (app_up s) (admin_up s) m.

(** [None] is a nil error. *)
Definition ValidateKey (key : string) : option idem_error :=
  if str_eqb key "" then Some ErrKeyEmpty
  else if (MaxKeyLength <? len key)%nat then Some ErrKeyTooLong
  else if negb (MatchString keyPattern key) then Some ErrKeyInvalid
  else None.

Definition IdemEnabled (s : IdemStore) : bool := has_app s.

(** The transaction of the application role sees the rows of its tenant. *)
Definition WithOrgAndTenantScope {A} (s : IdemStore) (orgID tenantID : string)
    (fn : gmap idem_key CachedResponse -> result idem_error A) : result idem_error A :=
  if negb (has_app s) then Err ErrNoAppDB
  else if str_eqb orgID "" || str_eqb tenantID "" then Err ErrBlankArgument
  else if negb (app_up s) then Err ErrDatabase
  else fn (filter (fun kv => kv.1.1.2 = tenantID) (rows s)).

Definition any_blank (orgID tenantID key endpoint : string) : bool :=
  str_eqb orgID "" || str_eqb tenantID "" || str_eqb key "" || str_eqb endpoint "".

Definition Lookup (now : Z) (s : IdemStore) (orgID tenantID key endpoint : string)
  : result idem_error (option CachedResponse) :=
  if negb (has_app s) then Err ErrNoAppDB
  else if any_blank orgID tenantID key endpoint then Err ErrBlankArgument
  else WithOrgAndTenantScope s orgID tenantID (fun tx =>
    Ok (match tx !! (key, tenantID, endpoint) with
        | Some r => if now <? ExpiresAt r then Some r else None
        | None => None
        end)).

(** INSERT ... ON CONFLICT DO NOTHING. *)
Definition StoreResponse (now : Z) (s : IdemStore) (orgID tenantID key endpoint : string)
    (statusCode : Z) (body : string) (ttl : Z) : result idem_error IdemStore :=
  if negb (has_app s) then Err ErrNoAppDB
  else if any_blank orgID tenantID key endpoint then Err ErrBlankArgument
  else
    let ttl := if ttl <=? 0 then DefaultTTL else ttl in
    WithOrgAndTenantScope s orgID tenantID (fun tx =>
      Ok (match tx !! (key, tenantID, endpoint) with
          | Some _ => s
          | None => set_rows s (<[(key, tenantID, endpoint) :=
                                   mkCached statusCode body now (now + ttl)]> (rows s))
          end)).

(** The number of rows removed. *)
Definition Sweep (now : Z) (s : IdemStore) : result idem_error Z * IdemStore :=
  if negb (has_admin s) then (Ok 0, s)
  else if negb (admin_up s) then (Err ErrDatabase, s)
  else
    let kept := filter (fun kv => now < ExpiresAt kv.2) (rows s) in
    (Ok (Z.of_nat (size (rows s)) - Z.of_nat (size kept)), set_rows s kept).

(** * The response recorder *)

(** A call of the handler on its writer; [sent] tells whether the client got the
    bytes. *)
Inductive writer_call : Type :=
| CallHeader (code : Z)
| CallWrite (p : string) (sent : bool).

Record responseRecorder := mkRecorder {
  rr_status : Z;
  rr_buf : string;
  rr_wroteHeader : bool;
  rr_writeBodyErr : bool;
  rr_sent : string;
}.

Definition new_recorder : responseRecorder := mkRecorder 200 "" false false "".

Definition WriteHeader (rr : responseRecorder) (code : Z) : responseRecorder :=
  if rr_wroteHeader rr then rr
  else mkRecorder code (rr_buf rr) true (rr_writeBodyErr rr) (rr_sent rr).

Definition Write (rr : responseRecorder) (p : string) (sent : bool) : responseRecorder :=
  let rr := if rr_wroteHeader rr then rr else WriteHeader rr 200 in
  mkRecorder (rr_status rr) (rr_buf rr +:+ p) (rr_wroteHeader rr) (rr_writeBodyErr rr || negb sent)
    (if sent then rr_sent rr +:+ p else rr_sent rr).

Definition record_call (rr : responseRecorder) (c : writer_call) : responseRecorder :=
  match c with
  | CallHeader code => WriteHeader rr code
  | CallWrite p sent => Write rr p sent
  end.

Definition record_calls (cs : list writer_call) : responseRecorder := foldl record_call new_recorder cs.

Definition shouldCache (rr : responseRecorder) : bool :=
  if rr_writeBodyErr rr then false else (200 <=? rr_status rr) && (rr_status rr <? 500).

(** What the client receives. *)
Record ClientResponse := mkClient {
  cl_status : Z;
  cl_body : string;
  cl_replayed : bool;
}.

Definition error_text (e : idem_error) : string :=
  match e with
  | ErrKeyTooLong => "idempotency: key exceeds max length"
  | ErrKeyInvalid => "idempotency: key contains invalid characters"
  | ErrKeyEmpty => "idempotency: key is empty"
  | ErrNoAppDB => "idempotency: appDB is nil"
  | ErrBlankArgument => "idempotency: orgID, tenantID, key, and endpoint must be non-empty"
  | ErrDatabase => "idempotency lookup"
  end.

Definition nl : string := String (ascii_of_nat 10) "".

Section Wrap.
Context `{U : Unicode} {S : Type}.

Definition Handler : Type := S -> list writer_call * S.

(** The response of the handler alone. *)
Definition plain (rr : responseRecorder) : ClientResponse := mkClient (rr_status rr) (rr_sent rr) false.

(** [t0] is the time of the lookup, [t1] of the store. *)
Definition Wrap (t0 t1 : Z) (header : string) (store : IdemStore) (orgID tenantID endpoint : string)
    (handler : Handler) (w : S) : ClientResponse * IdemStore * S :=
  let key := TrimSpace header in
  let run := handler w in
  let rec := record_calls run.1 in
  if str_eqb key "" || negb (IdemEnabled store) then (plain rec, store, run.2)
  else
    match ValidateKey key with
    | Some err => (mkClient 400 ("invalid Idempotency-Key: " +:+ error_text err +:+ nl) false, store, w)
    | None =>
        match Lookup t0 store orgID tenantID key endpoint with
        | Ok (Some cached) => (mkClient (StatusCode cached) (Body cached) true, store, w)
        | _ =>
            (plain rec,
             if shouldCache rec then
               match StoreResponse t1 store orgID tenantID key endpoint (rr_status rec) (rr_buf rec) DefaultTTL with
               | Ok store' => store'
               | Err _ => store
               end
             else store,
             run.2)
        end
    end.

Inductive idem_op : Type :=
| IWrap (t0 t1 : Z) (header org tenant endpoint : string) (h : Handler)
| ISweep (now : Z).

Definition op_time (op : idem_op) : Z :=
  match op with IWrap t0 t1 _ _ _ _ _ => Z.max t0 t1 | ISweep now => now end.

Definition run_op (st : IdemStore * S) (op : idem_op) : IdemStore * S :=
  match op with
  | IWrap t0 t1 header org tenant endpoint h =>
      let '(_, s', w') := Wrap t0 t1 header st.1 org tenant endpoint h st.2 in (s', w')
  | ISweep now => ((Sweep now st.1).2, st.2)
  end.

Definition run_ops (ops : list idem_op) (st : IdemStore * S) : IdemStore * S := foldl run_op st ops.
End Wrap.
Arguments Handler : clear implicits.

(** Correctness of the Idempotency-Key middleware: a retry within the time to
    live replays the first response without running the handler; an unavailable
    store is invisible; and where the table departs from the documented
    contract. *)

Section Facts.
Context `{U : Unicode} {S : Type}.

Definition usable_store (s : IdemStore) : Prop := has_app s = true /\ app_up s = true.

Lemma record_call_sent rr c :
  rr_writeBodyErr (record_call rr c) = false ->
  rr_writeBodyErr rr = false /\ (rr_sent rr = rr_buf rr -> rr_sent (record_call rr c) = rr_buf (record_call rr c)).
Proof.
  destruct c as [code|p sent]; simpl; unfold Write, WriteHeader.
  - by destruct (rr_wroteHeader rr).
  - destruct (rr_wroteHeader rr); simpl; rewrite orb_false_iff; intros [He Hs];
      destruct sent; try done; (split; [done|by intros ->]).
Qed.

(** A body without write errors reached the client as it was recorded. *)
Lemma record_calls_sent cs :
  rr_writeBodyErr (record_calls cs) = false -> rr_sent (record_calls cs) = rr_buf (record_calls cs).
Proof.
  unfold record_calls.
  assert (H : forall rr, rr_writeBodyErr (foldl record_call rr cs) = false ->
    rr_writeBodyErr rr = false /\ (rr_sent rr = rr_buf rr ->
      rr_sent (foldl record_call rr cs) = rr_buf (foldl record_call rr cs))).
  { induction cs as [|c cs IH]; intros rr; simpl; [done|].
    intros [[He Hs]%record_call_sent Hf]%IH. auto. }
  intros He. by apply (H new_recorder He).
Qed.

Lemma shouldCache_sent rr : shouldCache rr = true -> rr_writeBodyErr rr = false.
Proof. unfold shouldCache. by destruct (rr_writeBodyErr rr). Qed.

Lemma scope_lookup (m : gmap idem_key CachedResponse) key tenant endpoint :
  filter (fun kv => kv.1.1.2 = tenant) m !! (key, tenant, endpoint) = m !! (key, tenant, endpoint).
Proof.
  rewrite map_lookup_filter. destruct (m !! (key, tenant, endpoint)) as [r|]; simpl; [|done].
  by rewrite option_guard_True.
Qed.

Lemma Lookup_run now s org tenant key endpoint :
  usable_store s -> any_blank org tenant key endpoint = false ->
  Lookup now s org tenant key endpoint =
  Ok (match rows s !! (key, tenant, endpoint) with
      | Some r => if now <? ExpiresAt r then Some r else None
      | None => None
      end).
Proof.
  intros [Ha Hu] Hb. unfold Lookup, WithOrgAndTenantScope. rewrite Ha, Hb, Hu. simpl.
  unfold any_blank in Hb. rewrite !orb_false_iff in Hb. destruct Hb as [[[-> ->] _] _]. simpl.
  by rewrite scope_lookup.
Qed.

Lemma StoreResponse_run now s org tenant key endpoint code body :
  usable_store s -> any_blank org tenant key endpoint = false ->
  StoreResponse now s org tenant key endpoint code body DefaultTTL =
  Ok (match rows s !! (key, tenant, endpoint) with
      | Some _ => s
      | None => set_rows s (<[(key, tenant, endpoint) := mkCached code body now (now + DefaultTTL)]> (rows s))
      end).
Proof.
  intros [Ha Hu] Hb. unfold StoreResponse, WithOrgAndTenantScope. rewrite Ha, Hb, Hu. simpl.
  unfold any_blank in Hb. rewrite !orb_false_iff in Hb. destruct Hb as [[[-> ->] _] _]. simpl.
  by rewrite scope_lookup.
Qed.

(** A hit is a row of the key that has not expired. *)
Lemma Lookup_some now s org tenant key endpoint r :
  Lookup now s org tenant key endpoint = Ok (Some r) -> rows s !! (key, tenant, endpoint) = Some r /\ now < ExpiresAt r.
Proof.
  unfold Lookup, WithOrgAndTenantScope. destruct (negb (has_app s)); [done|]. destruct (any_blank _ _ _ _); [done|].
  destruct (_ || _); [done|]. destruct (negb (app_up s)); [done|]. rewrite scope_lookup.
  destruct (rows s !! _) as [r'|]; [|done]. destruct (Z.ltb_spec now (ExpiresAt r')); [|done]. by intros [= ->].
Qed.

Lemma Store_keeps now s org tenant key endpoint code body ttl s' k r :
  StoreResponse now s org tenant key endpoint code body ttl = Ok s' ->
  rows s !! k = Some r ->
  rows s' !! k = Some r /\ has_app s' = has_app s /\ app_up s' = app_up s.
Proof.
  unfold StoreResponse, WithOrgAndTenantScope. destruct (negb (has_app s)); [done|].
  destruct (any_blank _ _ _ _); [done|]. destruct (_ || _); [done|]. destruct (negb (app_up s)); [done|].
  rewrite scope_lookup. destruct (rows s !! (key, tenant, endpoint)) eqn:Ek; intros [= <-] Hk.
  - done.
  - simpl. rewrite lookup_insert_ne by (intros <-; by rewrite Ek in Hk). done.
Qed.

Lemma run_op_keeps st (op : idem_op (S := S)) k r :
  rows st.1 !! k = Some r -> op_time op < ExpiresAt r ->
  rows (run_op st op).1 !! k = Some r /\ has_app (run_op st op).1 = has_app st.1 /\
  app_up (run_op st op).1 = app_up st.1.
Proof.
  intros Hk Ht. destruct op as [t0 t1 header org tenant endpoint h|now]; simpl in *.
  - unfold Wrap. destruct (_ || _); [done|]. destruct (ValidateKey _); [done|].
    destruct (Lookup _ _ _ _ _ _) as [[c|]|]; try done; simpl;
      (destruct (shouldCache _); [|done]);
      destruct (StoreResponse _ _ _ _ _ _ _ _ _) as [s'|] eqn:Es; try done;
      by eapply Store_keeps.
  - unfold Sweep. destruct (has_admin st.1); [|done]. destruct (admin_up st.1); [|done]. simpl.
    split; [|done]. by rewrite map_lookup_filter_Some.
Qed.

Lemma run_ops_keeps (ops : list (idem_op (S := S))) k r : forall st,
  rows st.1 !! k = Some r -> Forall (fun op => op_time op < ExpiresAt r) ops ->
  rows (run_ops ops st).1 !! k = Some r /\ has_app (run_ops ops st).1 = has_app st.1 /\
  app_up (run_ops ops st).1 = app_up st.1.
Proof.
  induction ops as [|op ops IH]; intros st Hk Hf; simpl; [done|].
  apply Forall_cons in Hf as [Ho Hf].
  destruct (run_op_keeps st op k r Hk Ho) as (Hk' & <- & <-). by apply IH.
Qed.

(** A usable request: a valid key and the identifiers of the caller. *)
Definition request_ok (s : IdemStore) (header org tenant endpoint : string) : Prop :=
  usable_store s /\ ValidateKey (TrimSpace header) = None /\
  any_blank org tenant (TrimSpace header) endpoint = false.

Lemma Wrap_run t0 t1 header s org tenant endpoint (h : Handler S) w :
  request_ok s header org tenant endpoint ->
  Wrap t0 t1 header s org tenant endpoint h w =
  let key := TrimSpace header in
  let rec := record_calls (h w).1 in
  match rows s !! (key, tenant, endpoint) with
  | Some r => if t0 <? ExpiresAt r then (mkClient (StatusCode r) (Body r) true, s, w)
              else (plain rec, s, (h w).2)
  | None => (plain rec,
             if shouldCache rec
             then set_rows s (<[(key, tenant, endpoint) :=
                    mkCached (rr_status rec) (rr_buf rec) t1 (t1 + DefaultTTL)]> (rows s))
             else s,
             (h w).2)
  end.
Proof.
  intros (Hs & Hv & Hb). unfold Wrap, IdemEnabled. destruct Hs as [Ha Hu] eqn:E. rewrite Ha, Hv.
  assert (Hk : str_eqb (TrimSpace header) "" = false).
  { unfold any_blank in Hb. rewrite !orb_false_iff in Hb. tauto. }
  rewrite Hk. simpl. rewrite Lookup_run, StoreResponse_run by done. cbn zeta.
  destruct (rows s !! _) as [r|]; [destruct (t0 <? ExpiresAt r)|]; try done.
  by destruct (shouldCache _).
Qed.

(** A response that is documented as kept: 2xx or 4xx, its body written without error. *)
Definition kept_response (rr : responseRecorder) : Prop :=
  rr_writeBodyErr rr = false /\ (200 <= rr_status rr < 300 \/ 400 <= rr_status rr < 500).

Lemma kept_cached rr : kept_response rr -> shouldCache rr = true.
Proof. intros [He Hs]. unfold shouldCache. rewrite He. apply andb_true_iff. rewrite Z.leb_le, Z.ltb_lt. lia. Qed.

(** C37: A retry replays. Let the store be there and answer, and let a request with a
      valid key, an organization and a tenant find no row for the key, not even an
      expired one, and get a 2xx or 4xx response that is written without error.
      Then every request with the same key for the same tenant and endpoint within
      the time to live gets that status and body byte for byte, whatever other
      requests and sweeps ran within that time, and its handler does not run. *)
Theorem retry_replays (ops : list (idem_op (S := S))) (s : IdemStore) (w : S) (t0 t1 t2 t3 : Z)
    (header header2 org tenant endpoint : string) (h h2 : Handler S) :
  request_ok s header org tenant endpoint -> TrimSpace header2 = TrimSpace header ->
  rows s !! (TrimSpace header, tenant, endpoint) = None ->
  kept_response (record_calls (h w).1) ->
  Forall (fun op => op_time op < t1 + DefaultTTL) ops -> t2 < t1 + DefaultTTL ->
  let '(resp, s1, w1) := Wrap t0 t1 header s org tenant endpoint h w in
  let '(s2, w2) := run_ops ops (s1, w1) in
  Wrap t2 t3 header2 s2 org tenant endpoint h2 w2 =
  (mkClient (cl_status resp) (cl_body resp) true, s2, w2).
Proof.
  intros Hreq Hh2 Hnone Hcache%kept_cached Hops Ht2. rewrite Wrap_run by done. cbn zeta. rewrite Hnone, Hcache.
  set (r := mkCached _ _ _ _). set (s1 := set_rows _ _). set (w1 := (h w).2).
  assert (Hr : rows s1 !! (TrimSpace header, tenant, endpoint) = Some r) by apply lookup_insert_eq.
  destruct (run_ops_keeps ops (TrimSpace header, tenant, endpoint) r (s1, w1) Hr Hops) as (Hk & Ha & Hu).
  destruct (run_ops ops (s1, w1)) as [s2 w2]. simpl in *. destruct Hreq as ([? ?] & Hv & Hb).
  rewrite Wrap_run.
  - cbn zeta. rewrite Hh2, Hk. unfold r. simpl. destruct (Z.ltb_spec t2 (t1 + DefaultTTL)); [|lia].
    by rewrite record_calls_sent by (by apply shouldCache_sent).
  - unfold request_ok, usable_store. rewrite Hh2. split_and!; try done; [by rewrite Ha|by rewrite Hu].
Qed.

(** The middleware never blocks: without a key, without a store, or when the
    database does not answer, the client gets the handler's own response. *)
Lemma unavailable_store_transparent (s : IdemStore) (w : S) (t0 t1 : Z)
    (header org tenant endpoint : string) (h : Handler S) :
  TrimSpace header = "" \/ has_app s = false \/ (ValidateKey (TrimSpace header) = None /\ app_up s = false) ->
  Wrap t0 t1 header s org tenant endpoint h w = (plain (record_calls (h w).1), s, (h w).2).
Proof.
  unfold Wrap, IdemEnabled. intros [-> | [-> | [-> Hu]]]; [done|by rewrite orb_true_r|].
  destruct (str_eqb _ _ || negb (has_app s)); [done|].
  unfold Lookup, StoreResponse, WithOrgAndTenantScope. rewrite Hu. simpl.
  by destruct (has_app s), (any_blank _ _ _ _), (str_eqb org "" || str_eqb tenant ""), (shouldCache _).
Qed.

(** An expired row disables the key: as long as a row past its expiry has not
      been swept, the insert conflicts with it and does nothing, so every
      request under that key runs its handler again and no response is ever
      stored, contrary to the promise that a retry within the time to live
      gets the cached response. *)
Theorem expired_row_disables_key (s : IdemStore) (w : S) (t0 t1 t2 t3 : Z)
    (header org tenant endpoint : string) (h h2 : Handler S) (r : CachedResponse) :
  request_ok s header org tenant endpoint ->
  rows s !! (TrimSpace header, tenant, endpoint) = Some r -> ExpiresAt r <= t0 -> t0 <= t2 ->
  let '(resp, s1, w1) := Wrap t0 t1 header s org tenant endpoint h w in
  s1 = s /\ w1 = (h w).2 /\
  Wrap t2 t3 header s1 org tenant endpoint h2 w1 =
  (plain (record_calls (h2 w1).1), s, (h2 w1).2).
Proof.
  intros Hreq Hr Ht0 Ht2. rewrite Wrap_run by done. cbn zeta. rewrite Hr.
  destruct (Z.ltb_spec t0 (ExpiresAt r)); [lia|]. split_and!; [done..|].
  rewrite Wrap_run by done. cbn zeta. rewrite Hr. by destruct (Z.ltb_spec t2 (ExpiresAt r)); [lia|].
Qed.

(** The organization is not part of the row: a response stored under one
    organization is replayed to another one with the same tenant id. *)
Lemma replay_ignores_organization (s : IdemStore) (w : S) (t0 t1 : Z)
    (header org tenant endpoint : string) (h : Handler S) (r : CachedResponse) :
  request_ok s header org tenant endpoint ->
  rows s !! (TrimSpace header, tenant, endpoint) = Some r -> t0 < ExpiresAt r ->
  Wrap t0 t1 header s org tenant endpoint h w = (mkClient (StatusCode r) (Body r) true, s, w).
Proof.
  intros Hreq Hr Ht. rewrite Wrap_run by done. cbn zeta. rewrite Hr.
  by destruct (Z.ltb_spec t0 (ExpiresAt r)); [|lia].
Qed.
End Facts.

(** * A concrete endpoint *)

#[local] Existing Instance ascii_unicode.

Definition open_store : IdemStore := mkIdem true true true true ∅.

(** A handler that counts its runs. *)
Definition counting : Handler Z := fun n => ([CallHeader 201; CallWrite "row created" true], n + 1).

Example key_ok : ValidateKey "wf-1:step/2" = None.
Proof. vm_compute. reflexivity. Qed.
Example key_bad : ValidateKey "wf 1" = Some ErrKeyInvalid.
Proof. vm_compute. reflexivity. Qed.

Example first_response :
  (Wrap 10 11 " k1" open_store "org" "t1" "ep" counting 0).1.1 = mkClient 201 "row created" false.
Proof. vm_compute. reflexivity. Qed.

Lemma retry_replays_witness :
  let '(resp, s1, w1) := Wrap 10 11 " k1" open_store "org" "t1" "ep" counting 0 in
  let '(s2, w2) := run_ops [ISweep 500; IWrap 600 601 "k2" "org" "t1" "ep" counting] (s1, w1) in
  Wrap 1000 1001 "k1" s2 "org" "t1" "ep" counting w2 =
  (mkClient (cl_status resp) (cl_body resp) true, s2, w2).
Proof.
  apply (retry_replays [ISweep 500; IWrap 600 601 "k2" "org" "t1" "ep" counting] open_store 0 10 11 1000 1001
           " k1" "k1" "org" "t1" "ep" counting counting).
  - split; [done|]. split; vm_compute; reflexivity.
  - vm_compute. reflexivity.
  - vm_compute. reflexivity.
  - split; [reflexivity|]. left. vm_compute. split; [discriminate|reflexivity].
  - repeat constructor; vm_compute; reflexivity.
  - vm_compute. reflexivity.
Defined.

Definition stale_store : IdemStore :=
  mkIdem true false true true {[ ("k1", "t1", "ep") := mkCached 201 "old" 0 DefaultTTL ]}.

Lemma expired_row_disables_key_witness :
  let '(resp, s1, w1) := Wrap DefaultTTL DefaultTTL "k1" stale_store "org" "t1" "ep" counting 0 in
  s1 = stale_store /\ w1 = (counting 0).2 /\
  Wrap (DefaultTTL + 1) (DefaultTTL + 1) "k1" s1 "org" "t1" "ep" counting w1 =
  (plain (record_calls (counting w1).1), stale_store, (counting w1).2).
Proof.
  apply (expired_row_disables_key stale_store 0 DefaultTTL DefaultTTL (DefaultTTL + 1) (DefaultTTL + 1)
           "k1" "org" "t1" "ep" counting counting (mkCached 201 "old" 0 DefaultTTL)).
  - split; [done|]. split; vm_compute; reflexivity.
  - vm_compute. reflexivity.
  - vm_compute. discriminate.
  - vm_compute. discriminate.
Defined.
