(* ===== verification/EventHub.v ===== *)
(** The event hub of execution tracking and the per-tenant connection limit
    (platform/shared/execution/event_hub.go).

    A channel is a cell of a heap: its buffer and whether it is closed. Sending
    on a closed channel and closing it twice panic in Go; both are the error of
    the operations here. The events are opaque. *)

From S2P Require Import Prelude.

Local Open Scope Z_scope.

Section Hub.
Context {Data : Type}.

Record ExecutionEvent := mkExecutionEvent {
  EventType : string;
  ExecutionID : string;
  EventData : Data;
}.

Record channel := mkChannel { ch_buffer : list ExecutionEvent; ch_closed : bool }.

Definition channel_capacity : nat := 16.

(** [heap] holds every channel made so far, at its address; [subscribers] maps an
    execution to the addresses of its channels. *)
Record EventHub := mkHub {
  subscribers : gmap string (gset nat);
  heap : list channel;
}.

Definition NewEventHub : EventHub := mkHub ∅ [].

Definition subs_of (h : EventHub) (executionID : string) : gset nat :=
  default ∅ (subscribers h !! executionID).

Definition Subscribe (h : EventHub) (executionID : string) : nat * EventHub :=
  let ch := length (heap h) in
  (ch, mkHub (<[executionID := {[ ch ]} ∪ subs_of h executionID]> (subscribers h))
         (heap h ++ [mkChannel [] false])).

(** [close]: [None] is the panic of closing a closed or nil channel. *)
Definition close_channel (l : list channel) (ch : nat) : option (list channel) :=
  match l !! ch with
  | Some c => if ch_closed c then None else Some (<[ch := mkChannel (ch_buffer c) true]> l)
  | None => None
  end.

Definition Unsubscribe (h : EventHub) (executionID : string) (ch : nat) : option EventHub :=
  match subscribers h !! executionID with
  | None => Some h
  | Some subs =>
      let exists_ := bool_decide (ch ∈ subs) in
      let subs' := if exists_ then subs ∖ {[ ch ]} else subs in
      let m := if bool_decide (subs' = ∅) then delete executionID (subscribers h)
               else <[executionID := subs']> (subscribers h) in
      if exists_ then
        match close_channel (heap h) ch with
        | Some l => Some (mkHub m l)
        | None => None
        end
      else Some (mkHub m (heap h))
  end.

(** The non-blocking send of the select: a full buffer drops the event. *)
Definition try_send (l : list channel) (ev : ExecutionEvent) (ch : nat) : option (list channel) :=
  match l !! ch with
  | Some c =>
      if ch_closed c then None
      else if (length (ch_buffer c) <? channel_capacity)%nat
      then Some (<[ch := mkChannel (ch_buffer c ++ [ev]) false]> l)
      else Some l
  | None => None
  end.

Fixpoint send_all (l : list channel) (ev : ExecutionEvent) (chs : list nat) : option (list channel) :=
  match chs with
  | [] => Some l
  | ch :: chs' => match try_send l ev ch with
                  | Some l' => send_all l' ev chs'
                  | None => None
                  end
  end.

(** The loop visits the subscribers in the order of the map. *)
Definition Publish (h : EventHub) (ev : ExecutionEvent) : option EventHub :=
  match subscribers h !! ExecutionID ev with
  | None => Some h
  | Some subs => match send_all (heap h) ev (elements subs) with
                 | Some l => Some (mkHub (subscribers h) l)
                 | None => None
                 end
  end.

Definition SubscriberCount (h : EventHub) (executionID : string) : nat := size (subs_of h executionID).

(** A consumer takes the oldest event of a channel. *)
Definition Receive (h : EventHub) (ch : nat) : option ExecutionEvent * EventHub :=
  match heap h !! ch with
  | Some c => match ch_buffer c with
              | ev :: rest => (Some ev, mkHub (subscribers h) (<[ch := mkChannel rest (ch_closed c)]> (heap h)))
              | [] => (None, h)
              end
  | None => (None, h)
  end.

(** * Safety *)

(** Every subscribed channel exists, is open, within capacity, holds events of
    its own execution only, belongs to one execution; no empty entry is left. *)
Record hub_ok (h : EventHub) : Prop := {
  hub_open : forall id subs ch, subscribers h !! id = Some subs -> ch ∈ subs ->
    exists c, heap h !! ch = Some c /\ ch_closed c = false /\
      Forall (fun ev => ExecutionID ev = id) (ch_buffer c);
  hub_capacity : Forall (fun c => (length (ch_buffer c) <= channel_capacity)%nat) (heap h);
  hub_owner : forall id id' subs subs' ch, subscribers h !! id = Some subs ->
    subscribers h !! id' = Some subs' -> ch ∈ subs -> ch ∈ subs' -> id = id';
  hub_nonempty : forall id subs, subscribers h !! id = Some subs -> subs <> ∅;
}.

Inductive hub_op : Type :=
| HSubscribe (id : string)
| HUnsubscribe (id : string) (ch : nat)
| HPublish (ev : ExecutionEvent)
| HReceive (ch : nat).

Definition run_hub_op (h : EventHub) (op : hub_op) : option EventHub :=
  match op with
  | HSubscribe id => Some (Subscribe h id).2
  | HUnsubscribe id ch => Unsubscribe h id ch
  | HPublish ev => Publish h ev
  | HReceive ch => Some (Receive h ch).2
  end.

Fixpoint run_hub (h : EventHub) (ops : list hub_op) : option EventHub :=
  match ops with
  | [] => Some h
  | op :: ops' => match run_hub_op h op with
                  | Some h' => run_hub h' ops'
                  | None => None
                  end
  end.

Lemma new_hub_ok : hub_ok NewEventHub.
Proof. split; simpl; [|constructor|..]; intros *; rewrite lookup_empty; done. Qed.

Lemma hub_addresses h id subs ch :
  hub_ok h -> subscribers h !! id = Some subs -> ch ∈ subs -> (ch < length (heap h))%nat.
Proof. intros Hok Hs Hc. destruct (hub_open _ Hok _ _ _ Hs Hc) as (c & Hl & _). by eapply lookup_lt_Some. Qed.

Lemma subs_of_elem h id ch : ch ∈ subs_of h id -> exists subs, subscribers h !! id = Some subs /\ ch ∈ subs.
Proof. unfold subs_of. destruct (subscribers h !! id) as [subs|]; simpl; [eauto|set_solver]. Qed.

Lemma Subscribe_ok h id : hub_ok h -> hub_ok (Subscribe h id).2.
Proof.
  intros Hok.
  assert (Helem : forall i subs ch, <[id := {[ length (heap h) ]} ∪ subs_of h id]> (subscribers h) !! i = Some subs ->
    ch ∈ subs -> (i = id /\ ch = length (heap h)) \/ exists subs0, subscribers h !! i = Some subs0 /\ ch ∈ subs0).
  { intros i subs ch [[<- <-]|[_ Hs]]%lookup_insert_Some; [|eauto].
    intros [->%elem_of_singleton|H]%elem_of_union; [by left|right]. by apply subs_of_elem. }
  split; simpl.
  - intros i subs ch Hs Hc. destruct (Helem _ _ _ Hs Hc) as [[-> ->]|(subs0 & H0 & H1)].
    + eexists. split; [by rewrite lookup_app_r, Nat.sub_diag by lia|]. by split; [|constructor].
    + destruct (hub_open _ Hok _ _ _ H0 H1) as (c & Hl & ? & ?). exists c. split; [|done].
      by apply lookup_app_l_Some.
  - apply Forall_app. split; [apply Hok|]. constructor; [simpl; lia|constructor].
  - intros i i' subs subs' ch Hi Hi' Hc Hc'.
    destruct (Helem _ _ _ Hi Hc) as [[-> E1]|(s0 & H0 & H1)], (Helem _ _ _ Hi' Hc') as [[-> E2]|(s1 & H2 & H3)];
      [done| | |by eapply (hub_owner _ Hok)];
      (exfalso; match goal with A : subscribers h !! _ = Some ?x, B : ch ∈ ?x |- _ =>
         apply (hub_addresses _ _ _ _ Hok A) in B; lia end).
  - intros i subs [[<- <-]|[_ Hs]]%lookup_insert_Some; [set_solver|by eapply Hok].
Qed.

(** Replacing an open channel's buffer by one of the same execution. *)
Lemma update_channel_ok m l ch c b :
  hub_ok (mkHub m l) -> l !! ch = Some c -> (length b <= channel_capacity)%nat ->
  (forall id subs, m !! id = Some subs -> ch ∈ subs -> Forall (fun ev => ExecutionID ev = id) b) ->
  hub_ok (mkHub m (<[ch := mkChannel b (ch_closed c)]> l)).
Proof.
  intros Hok Hl Hb Hev. split; simpl; [|by apply Forall_insert; [apply Hok|]|apply (hub_owner _ Hok)|apply (hub_nonempty _ Hok)].
  intros id subs ch' Hs Hc. destruct (hub_open _ Hok _ _ _ Hs Hc) as (c' & Hl' & Ho & Hf). simpl in Hl'.
  destruct (decide (ch = ch')) as [<-|Hne].
  - exists (mkChannel b (ch_closed c)). rewrite list_lookup_insert_eq by (by eapply lookup_lt_Some).
    split; [done|]. rewrite Hl in Hl'. injection Hl' as <-. split; [done|]. by eapply Hev.
  - exists c'. by rewrite list_lookup_insert_ne.
Qed.

Lemma try_send_ok m l ev subs ch :
  hub_ok (mkHub m l) -> m !! ExecutionID ev = Some subs -> ch ∈ subs ->
  exists l', try_send l ev ch = Some l' /\ hub_ok (mkHub m l').
Proof.
  intros Hok Hs Hc. destruct (hub_open _ Hok _ _ _ Hs Hc) as (c & Hl & Ho & Hf). simpl in *.
  unfold try_send. rewrite Hl, Ho. destruct (Nat.ltb_spec (length (ch_buffer c)) channel_capacity); [|eauto].
  eexists. split; [done|]. rewrite <- Ho. eapply update_channel_ok; [done|exact Hl| |].
  - rewrite length_app. simpl. lia.
  - intros id subs' Hs' Hc'. assert (id = ExecutionID ev) as -> by by eapply (hub_owner _ Hok).
    apply Forall_app. split; [done|]. by repeat constructor.
Qed.

Lemma send_all_ok m ev subs chs : forall l,
  hub_ok (mkHub m l) -> m !! ExecutionID ev = Some subs -> Forall (fun ch => ch ∈ subs) chs ->
  exists l', send_all l ev chs = Some l' /\ hub_ok (mkHub m l').
Proof.
  induction chs as [|ch chs IH]; intros l Hok Hs Hf; simpl; [eauto|].
  apply Forall_cons in Hf as [Hc Hf].
  destruct (try_send_ok m l ev subs ch Hok Hs Hc) as (l' & -> & Hok'). by apply IH.
Qed.

Lemma Publish_ok h ev : hub_ok h -> exists h', Publish h ev = Some h' /\ hub_ok h'.
Proof.
  intros Hok. unfold Publish. destruct (subscribers h !! ExecutionID ev) as [subs|] eqn:Es; [|eauto].
  destruct h as [m l]. simpl in *. destruct (send_all_ok m ev subs (elements subs) l Hok Es) as (l' & -> & Hok'); [|eauto].
  apply Forall_forall. intros ch. by rewrite elem_of_elements.
Qed.

Lemma Unsubscribe_ok h id ch : hub_ok h -> exists h', Unsubscribe h id ch = Some h' /\ hub_ok h'.
Proof.
  intros Hok. unfold Unsubscribe. destruct (subscribers h !! id) as [subs|] eqn:Es; [|eauto].
  case_bool_decide as Hin.
  - destruct (hub_open _ Hok _ _ _ Es Hin) as (c & Hl & Ho & Hf).
    unfold close_channel. rewrite Hl, Ho. eexists. split; [done|].
    set (m := if bool_decide ((subs ∖ {[ch]}) = ∅) then _ else _).
    assert (Hm : forall i s0, m !! i = Some s0 -> exists s1, subscribers h !! i = Some s1 /\ s0 ⊆ s1 /\
                   (ch ∉ s0) /\ s0 <> ∅).
    { intros i s0. unfold m. case_bool_decide as He.
      - intros [Hne H0]%lookup_delete_Some. exists s0. split_and!; [done|done| |by eapply Hok].
        intros Hc. apply Hne. by eapply (hub_owner _ Hok).
      - intros [[<- <-]|[Hne H0]]%lookup_insert_Some.
        + exists subs. split_and!; [done|set_solver|set_solver|done].
        + exists s0. split_and!; [done|done| |by eapply Hok].
          intros Hc. apply Hne. by eapply (hub_owner _ Hok). }
    split; simpl.
    + intros i s0 ch' (s1 & H1 & Hsub & Hnot & _)%Hm Hc.
      destruct (hub_open _ Hok _ _ _ H1 (Hsub _ Hc)) as (c' & Hl' & ? & ?). exists c'.
      rewrite list_lookup_insert_ne by (intros <-; done). done.
    + apply Forall_insert; [apply Hok|]. simpl. by eapply (Forall_lookup_1 _ _ _ _ (hub_capacity _ Hok)).
    + intros i i' s0 s0' ch' (s1 & H1 & Hsub & _)%Hm (s1' & H1' & Hsub' & _)%Hm Hc Hc'.
      by eapply (hub_owner _ Hok i i'); [exact H1|exact H1'|apply Hsub|apply Hsub'].
    + by intros i s0 (s1 & _ & _ & _ & H)%Hm.
  - eexists. split; [done|]. pose proof (hub_nonempty _ Hok _ _ Es) as Hne.
    rewrite bool_decide_eq_false_2 by done. destruct h as [m l]. simpl in *. by rewrite insert_id.
Qed.

Lemma Receive_ok h ch : hub_ok h -> hub_ok (Receive h ch).2.
Proof.
  intros Hok. unfold Receive. destruct (heap h !! ch) as [c|] eqn:Hl; [|done].
  destruct (ch_buffer c) as [|ev rest] eqn:Eb; [done|]. destruct h as [m l]. simpl in *.
  eapply update_channel_ok; [done|exact Hl| |].
  - pose proof (Forall_lookup_1 _ _ _ _ (hub_capacity _ Hok) Hl) as Hc. simpl in Hc. rewrite Eb in Hc.
    simpl in Hc. lia.
  - intros id subs Hs Hc. destruct (hub_open _ Hok _ _ _ Hs Hc) as (c' & Hl' & _ & Hf). simpl in Hl'.
    rewrite Hl in Hl'. injection Hl' as <-. rewrite Eb in Hf. by apply Forall_cons in Hf as [_ ?].
Qed.

Lemma run_hub_op_ok h op : hub_ok h -> exists h', run_hub_op h op = Some h' /\ hub_ok h'.
Proof.
  intros Hok. destruct op; simpl; auto using Unsubscribe_ok, Publish_ok.
  - eexists. split; [done|]. by apply Subscribe_ok.
  - eexists. split; [done|]. by apply Receive_ok.
Qed.

(** The hub never panics: in every sequence of subscriptions, cancellations
      (repeated ones and ones with a foreign execution or channel included),
      publications and receptions, no event is sent on a closed channel and no
      channel is closed twice; every subscriber's buffer stays within its
      capacity and holds events of its own execution only, and no entry is left
      for an execution without subscribers. *)
Theorem hub_never_panics (ops : list hub_op) :
  exists h, run_hub NewEventHub ops = Some h /\ hub_ok h.
Proof.
  assert (H : forall h, hub_ok h -> exists h', run_hub h ops = Some h' /\ hub_ok h').
  { induction ops as [|op ops IH]; intros h Hok; simpl; [eauto|].
    destruct (run_hub_op_ok h op Hok) as (h' & -> & Hok'). by apply IH. }
  apply H, new_hub_ok.
Qed.
End Hub.

(** * Connection limits *)

Definition DefaultCommunityMaxConnections : Z := 5.

(** [-1] is unlimited. *)
Record ConnectionTracker := mkTracker {
  connections : gmap string Z;
  maxPerTenant : Z;
}.

Definition NewConnectionTracker : ConnectionTracker := mkTracker ∅ DefaultCommunityMaxConnections.

Definition NewConnectionTrackerWithLimit (max : Z) : ConnectionTracker :=
  mkTracker ∅ (if max =? 0 then DefaultCommunityMaxConnections else max).

Definition SetMaxConnections (ct : ConnectionTracker) (max : Z) : ConnectionTracker :=
  mkTracker (connections ct) max.

Definition ActiveConnections (ct : ConnectionTracker) (tenantID : string) : Z :=
  default 0 (connections ct !! tenantID).

Definition MaxConnections (ct : ConnectionTracker) : Z := maxPerTenant ct.

(** [false] is ErrConnectionLimitReached. *)
Definition TryConnect (ct : ConnectionTracker) (tenantID : string) : bool * ConnectionTracker :=
  let current := ActiveConnections ct tenantID in
  let admitted := mkTracker (<[tenantID := current + 1]> (connections ct)) (maxPerTenant ct) in
  if maxPerTenant ct <? 0 then (true, admitted)
  else if maxPerTenant ct <=? current then (false, ct)
  else (true, admitted).

Definition Disconnect (ct : ConnectionTracker) (tenantID : string) : ConnectionTracker :=
  let current := ActiveConnections ct tenantID in
  let left := if 0 <? current then current - 1 else current in
  mkTracker (if left =? 0 then delete tenantID (connections ct)
             else <[tenantID := left]> (connections ct)) (maxPerTenant ct).

Inductive conn_op : Type :=
| CConnect (tenant : string)
| CDisconnect (tenant : string).

(** The number of connections of a tenant that were admitted and not yet given
    up, next to the tracker: a disconnect without a connection changes nothing. *)
Definition run_conn (st : ConnectionTracker * (string -> Z)) (op : conn_op)
  : ConnectionTracker * (string -> Z) :=
  let '(ct, held) := st in
  match op with
  | CConnect t =>
      let '(ok, ct') := TryConnect ct t in
      (ct', if ok then fun x => if str_eqb x t then held x + 1 else held x else held)
  | CDisconnect t => (Disconnect ct t, fun x => if str_eqb x t then Z.max 0 (held x - 1) else held x)
  end.

Definition tracked (st : ConnectionTracker * (string -> Z)) : Prop :=
  (forall t, ActiveConnections st.1 t = st.2 t /\ 0 <= st.2 t) /\
  (forall t n, connections st.1 !! t = Some n -> 0 < n) /\
  (0 <= maxPerTenant st.1 -> forall t, st.2 t <= maxPerTenant st.1).

Lemma active_insert m mx t n x :
  ActiveConnections (mkTracker (<[t := n]> m) mx) x = if str_eqb x t then n else default 0 (m !! x).
Proof.
  unfold ActiveConnections. simpl. destruct (str_eqb x t) eqn:E.
  - apply str_eqb_true in E as ->. by rewrite lookup_insert_eq.
  - apply str_eqb_false in E. by rewrite lookup_insert_ne by congruence.
Qed.

Lemma active_delete m mx t x :
  ActiveConnections (mkTracker (delete t m) mx) x = if str_eqb x t then 0 else default 0 (m !! x).
Proof.
  unfold ActiveConnections. simpl. destruct (str_eqb x t) eqn:E.
  - apply str_eqb_true in E as ->. by rewrite lookup_delete_eq.
  - apply str_eqb_false in E. by rewrite lookup_delete_ne by congruence.
Qed.

Lemma connect_tracked ct held t : tracked (ct, held) -> tracked (run_conn (ct, held) (CConnect t)).
Proof.
  intros (Ha & Hp & Hm). simpl. unfold TryConnect. destruct (Ha t) as [Hc H0]. simpl in *.
  assert (Hadmit : (0 <= maxPerTenant ct -> held t < maxPerTenant ct) ->
    tracked (mkTracker (<[t := ActiveConnections ct t + 1]> (connections ct)) (maxPerTenant ct),
             fun x => if str_eqb x t then held x + 1 else held x)).
  { intros Hroom. split_and!; simpl.
    - intros x. rewrite active_insert. destruct (str_eqb x t) eqn:E; [|apply Ha].
      apply str_eqb_true in E as ->. lia.
    - intros x n [[<- <-]|[_ Hx]]%lookup_insert_Some; [lia|by eapply Hp].
    - intros Hmx x. destruct (str_eqb x t) eqn:E; [|by apply Hm].
      apply str_eqb_true in E as ->. specialize (Hroom Hmx). lia. }
  destruct (Z.ltb_spec (maxPerTenant ct) 0); [apply Hadmit; lia|].
  destruct (Z.leb_spec (maxPerTenant ct) (ActiveConnections ct t)); [done|]. apply Hadmit. lia.
Qed.

Lemma disconnect_tracked ct held t : tracked (ct, held) -> tracked (run_conn (ct, held) (CDisconnect t)).
Proof.
  intros (Ha & Hp & Hm). simpl. unfold Disconnect. destruct (Ha t) as [Hc H0]. simpl in *.
  set (left := if 0 <? ActiveConnections ct t then _ else _).
  assert (Hleft : left = Z.max 0 (held t - 1)) by (unfold left; destruct (Z.ltb_spec 0 (ActiveConnections ct t)); lia).
  assert (Hmax : 0 <= maxPerTenant ct -> forall x, (if str_eqb x t then Z.max 0 (held x - 1) else held x) <= maxPerTenant ct).
  { intros Hmx x. pose proof (Hm Hmx x). destruct (Ha x) as [_ ?]. simpl in *. destruct (str_eqb x t); lia. }
  destruct (Z.eqb_spec left 0) as [E0|E0]; (split_and!; simpl; [| |exact Hmax]).
  - intros x. rewrite active_delete. destruct (str_eqb x t) eqn:E; [|apply Ha].
    apply str_eqb_true in E as ->. lia.
  - intros x n [_ Hx]%lookup_delete_Some. by eapply Hp.
  - intros x. rewrite active_insert. destruct (str_eqb x t) eqn:E; [|apply Ha].
    apply str_eqb_true in E as ->. lia.
  - intros x n [[<- <-]|[_ Hx]]%lookup_insert_Some; [lia|by eapply Hp].
Qed.

(** The connection limit holds: under every sequence of connects and
      disconnects the tracker's count of each tenant is exactly the number of
      its admitted connections not yet given up, never negative and never above
      a non-negative limit, and a tenant without connections leaves no entry. *)
Theorem connection_limit_exact (max : Z) (ops : list conn_op) :
  tracked (foldl run_conn (NewConnectionTrackerWithLimit max, fun _ => 0) ops).
Proof.
  assert (H : forall st, tracked st -> tracked (foldl run_conn st ops)).
  { induction ops as [|op ops IH]; intros [ct held] Ht; simpl; [done|]. apply IH.
    destruct op; [by apply connect_tracked|by apply disconnect_tracked]. }
  apply H. unfold tracked, ActiveConnections. simpl. split_and!.
  - intros t. rewrite lookup_empty. simpl. lia.
  - intros t n. by rewrite lookup_empty.
  - done.
Qed.
