(* ===== verification/ExecutionTypes.v ===== *)
(** The execution record shared by multi-agent plans and controlled workflows
    (platform/shared/execution/types.go): statuses, steps, and the fields the
    API derives on read.

    Statuses are string types in the source and stay strings; the database
    constrains the status of an execution, nothing constrains that of a step.
    A [*time.Time] is an [option Z] of nanoseconds, a [*float64] an
    [option float64]. *)

From S2P Require Import Prelude GoFloat GoStrings GoTime PolicyTypes.

Local Open Scope Z_scope.

Definition ExecutionTypeMAP : string := "map_plan".
Definition ExecutionTypeWCP : string := "wcp_workflow".

Definition StatusPending : string := "pending".
Definition StatusRunning : string := "running".
Definition StatusCompleted : string := "completed".
Definition StatusFailed : string := "failed".
Definition StatusCancelled : string := "cancelled".
Definition StatusAborted : string := "aborted".
Definition StatusExpired : string := "expired".

Definition StepStatusPending : string := "pending".
Definition StepStatusRunning : string := "running".
Definition StepStatusCompleted : string := "completed".
Definition StepStatusFailed : string := "failed".
Definition StepStatusSkipped : string := "skipped".
Definition StepStatusBlocked : string := "blocked".
Definition StepStatusApproval : string := "approval".

Definition GateDecisionAllow : string := "allow".
Definition GateDecisionBlock : string := "block".
Definition GateDecisionRequireApproval : string := "require_approval".

Definition ApprovalStatusPending : string := "pending".

Record StepStatus := mkStepStatus {
  st_StepID : string;
  st_StepIndex : Z;
  st_StepName : string;
  st_StepType : string;
  st_Status : string;
  st_StartedAt : option Z;
  st_EndedAt : option Z;
  st_Duration : string;
  st_Decision : string;
  st_DecisionReason : string;
  st_PoliciesMatched : list string;
  st_ApprovalStatus : option string;
  st_ApprovedBy : string;
  st_ApprovedAt : option Z;
  st_RejectedBy : string;
  st_RejectedAt : option Z;
  st_Model : string;
  st_Provider : string;
  st_CostUSD : option float64;
  st_TokensIn : option Z;
  st_TokensOut : option Z;
  st_Input : string;
  st_Output : string;
  st_ResultSummary : string;
  st_Error : string;
}.

Record ExecutionStatus := mkExecution {
  ex_ExecutionID : string;
  ex_ExecutionType : string;
  ex_Name : string;
  ex_Source : string;
  ex_Status : string;
  ex_CurrentStepIndex : Z;
  ex_TotalSteps : Z;
  ex_ProgressPercent : float64;
  ex_StartedAt : Z;
  ex_CompletedAt : option Z;
  ex_Duration : string;
  ex_EstimatedCostUSD : option float64;
  ex_ActualCostUSD : option float64;
  ex_Steps : list StepStatus;
  ex_Error : string;
  ex_TenantID : string;
  ex_OrgID : string;
  ex_UserID : string;
  ex_ClientID : string;
  ex_Metadata : list (string * value);
  ex_CreatedAt : Z;
  ex_UpdatedAt : Z;
}.

(** * Field updates *)

(** The columns an UPDATE of execution_history can assign. *)
Definition exec_update (e : ExecutionStatus) (status : string) (idx total : Z)
    (completed : option Z) (est act : option float64) (steps : list StepStatus)
    (err : string) (metadata : list (string * value)) (updated : Z) : ExecutionStatus :=
  mkExecution (ex_ExecutionID e) (ex_ExecutionType e) (ex_Name e) (ex_Source e) status idx total
    (ex_ProgressPercent e) (ex_StartedAt e) completed (ex_Duration e) est act steps err
    (ex_TenantID e) (ex_OrgID e) (ex_UserID e) (ex_ClientID e) metadata (ex_CreatedAt e) updated.

(** The fields computed on read. *)
Definition exec_derived (e : ExecutionStatus) (progress : float64) (duration : string)
    (act : option float64) : ExecutionStatus :=
  mkExecution (ex_ExecutionID e) (ex_ExecutionType e) (ex_Name e) (ex_Source e) (ex_Status e)
    (ex_CurrentStepIndex e) (ex_TotalSteps e) progress (ex_StartedAt e) (ex_CompletedAt e) duration
    (ex_EstimatedCostUSD e) act (ex_Steps e) (ex_Error e) (ex_TenantID e) (ex_OrgID e)
    (ex_UserID e) (ex_ClientID e) (ex_Metadata e) (ex_CreatedAt e) (ex_UpdatedAt e).

(** The step fields the tracker assigns. *)
Definition step_update (s : StepStatus) (status : string) (started ended : option Z)
    (duration decision reason : string) (policies : list string) (approval : option string)
    (cost : option float64) (tin tout : option Z) (err : string) : StepStatus :=
  mkStepStatus (st_StepID s) (st_StepIndex s) (st_StepName s) (st_StepType s) status started ended
    duration decision reason policies approval (st_ApprovedBy s) (st_ApprovedAt s) (st_RejectedBy s)
    (st_RejectedAt s) (st_Model s) (st_Provider s) cost tin tout (st_Input s) (st_Output s)
    (st_ResultSummary s) err.

(** * Helper methods *)

Definition terminal_status (s : string) : bool :=
  str_eqb s StatusCompleted || str_eqb s StatusFailed || str_eqb s StatusCancelled
  || str_eqb s StatusAborted || str_eqb s StatusExpired.

Definition IsTerminal (e : ExecutionStatus) : bool := terminal_status (ex_Status e).

Definition step_completed (s : StepStatus) : bool := str_eqb (st_Status s) StepStatusCompleted.

Definition CalculateProgress (e : ExecutionStatus) : float64 :=
  if ex_TotalSteps e =? 0 then f64_zero
  else
    let completedSteps := Z.of_nat (length (List.filter step_completed (ex_Steps e))) in
    f64_mul (f64_div (f64_of_Z completedSteps) (f64_of_Z (ex_TotalSteps e))) (f64_of_Z 100).

Definition formatDuration (d : Z) : string :=
  if d <? Second then DurationString (Round d Millisecond)
  else if d <? Minute then DurationString (Round d Second)
  else if d <? Hour then DurationString (Round d Second)
  else DurationString (Round d Minute).

(** [now] is what time.Now() returns. *)
Definition CalculateDuration (now : Z) (e : ExecutionStatus) : string :=
  if IsZero (ex_StartedAt e) then ""
  else formatDuration (Sub (default now (ex_CompletedAt e)) (ex_StartedAt e)).

Definition StepDuration (now : Z) (s : StepStatus) : string :=
  match st_StartedAt s with
  | None => ""
  | Some started => formatDuration (Sub (default now (st_EndedAt s)) started)
  end.

Definition TotalCost_steps (steps : list StepStatus) : float64 :=
  foldl (fun total s => match st_CostUSD s with Some c => f64_add total c | None => total end)
    f64_zero steps.

Definition TotalCost (e : ExecutionStatus) : float64 := TotalCost_steps (ex_Steps e).

(** The address of the step is its index in [Steps]. *)
Fixpoint find_index {A} (p : A -> bool) (l : list A) : option nat :=
  match l with
  | [] => None
  | x :: l' => if p x then Some O else S <$> find_index p l'
  end.

Definition GetCurrentStep (e : ExecutionStatus) : option nat :=
  find_index (fun s => str_eqb (st_Status s) StepStatusRunning) (ex_Steps e).

Definition StepIsTerminal (s : StepStatus) : bool :=
  str_eqb (st_Status s) StepStatusCompleted || str_eqb (st_Status s) StepStatusFailed
  || str_eqb (st_Status s) StepStatusSkipped.

Definition StepIsBlocking (s : StepStatus) : bool :=
  str_eqb (st_Status s) StepStatusBlocked || str_eqb (st_Status s) StepStatusApproval.

(** * Requests *)

Record CreateExecutionRequest := mkCreateExecution {
  cr_ExecutionType : string;
  cr_Name : string;
  cr_Source : string;
  cr_TotalSteps : Z;
  cr_Metadata : list (string * value);
  cr_TenantID : string;
  cr_OrgID : string;
  cr_UserID : string;
  cr_ClientID : string;
}.

Record ListExecutionsRequest := mkListExecutions {
  lr_ExecutionType : option string;
  lr_Status : option string;
  lr_TenantID : string;
  lr_OrgID : string;
  lr_Limit : Z;
  lr_Offset : Z;
}.

Record ListExecutionsResponse := mkListResponse {
  lp_Executions : list ExecutionStatus;
  lp_Total : Z;
  lp_Limit : Z;
  lp_Offset : Z;
  lp_HasMore : bool;
}.

(** * Lemmas *)

Lemma find_index_Some {A} (p : A -> bool) l i :
  find_index p l = Some i ->
  exists x, l !! i = Some x /\ p x = true /\
    forall j y, (j < i)%nat -> l !! j = Some y -> p y = false.
Proof.
  revert i. induction l as [|x l IH]; simpl; intros i H; [done|].
  destruct (p x) eqn:E; simplify_eq.
  - exists x. split_and!; [done|done|]. intros j y Hj. lia.
  - destruct (find_index p l) as [k|] eqn:Ek; simplify_eq/=.
    destruct (IH k eq_refl) as (z & Hz & Hp & Hlt). exists z. split_and!; [done|done|].
    intros [|j] y Hj Hy; simplify_eq/=; [done|]. apply (Hlt j); [lia|done].
Qed.

(** No status is both terminal and active. *)
Lemma terminal_not_active s :
  terminal_status s = true -> s <> StatusPending /\ s <> StatusRunning.
Proof. intros H. split; intros ->; discriminate H. Qed.

(** A duration prints with one unit of precision per magnitude. *)
Example formatDuration_ex :
  formatDuration (1499 * Millisecond) = "1s" /\ formatDuration (999600 * Microsecond) = "1s" /\
  formatDuration (Hour + 29 * Second) = "1h0m0s" /\ formatDuration (Hour - 1) = "1h0m0s".
Proof. split_and!; vm_compute; reflexivity. Qed.
