(* ===== verification/ExecutionStore.v ===== *)
(** The execution repository (platform/shared/execution/repository.go): the
    table execution_history with the constraints and the row-level-security
    policy its migration declares (042_unified_execution_history.sql, 049), and
    the SQL statements of the repository, each as one transaction.

    Every operation takes [up], whether its transaction commits: when it does
    not, the operation is an error and the table is unchanged. [dbnow] is the
    database's clock, which the update trigger writes into updated_at. Rows are
    in an unspecified physical order; an ORDER BY sorts it stably. *)

From S2P Require Import Prelude GoFloat GoStrings GoTime PolicyTypes ExecutionTypes.

Local Open Scope Z_scope.

Inductive exec_error :=
| ErrExecutionNotFound
| ErrInvalidExecution
| ErrMissingOrgID
| ErrConcurrentExecutionLimit
| EMarshal (column : string)
| EDatabase (statement : string)
| EConstraint (column : string).

(** What json.Marshal, a jsonb column and json.Unmarshal make of the steps and
    of the metadata, what a DECIMAL(10,6) column makes of a float64, and the
    text [->>] gives for a JSON value; [None] is an error. *)
Class ExecDatabase := {
  steps_column : list StepStatus -> option (list StepStatus);
  metadata_column : list (string * value) -> option (list (string * value));
  decimal_column : float64 -> option float64;
  jsonb_text : value -> option string;
}.

(** A jsonb document keeps the number of its elements, and the fields of a step
    other than the raw input and output documents. *)
Definition step_same (s s' : StepStatus) : Prop :=
  st_StepID s' = st_StepID s /\ st_StepIndex s' = st_StepIndex s /\ st_Status s' = st_Status s /\
  st_CostUSD s' = st_CostUSD s /\ st_StartedAt s' = st_StartedAt s /\
  st_Decision s' = st_Decision s /\ st_ApprovalStatus s' = st_ApprovalStatus s.

Class ExecDatabaseLaws `(D : ExecDatabase) := {
  steps_roundtrip : forall l l', steps_column l = Some l' -> Forall2 step_same l l';
}.

(** A repository: whether its role is subject to row-level security, and, when
    a cross-organization pool is installed, whether that pool is. *)
Record PostgresRepository := mkRepo { db_rls : bool; lookupDB : option bool }.

Definition lookup_rls (r : PostgresRepository) : bool := default (db_rls r) (lookupDB r).

Definition Store := list ExecutionStatus.

(** * Constraints of the table *)

Definition execution_types : list string := [ExecutionTypeMAP; ExecutionTypeWCP].
Definition execution_statuses : list string :=
  [StatusPending; StatusRunning; StatusCompleted; StatusFailed; StatusCancelled; StatusAborted;
   StatusExpired].

Definition int4_ok (z : Z) : bool := (-2147483648 <=? z) && (z <=? 2147483647).
Definition varchar (n : nat) (s : string) : bool := (RuneCount s <=? n)%nat.

Definition row_constraints (e : ExecutionStatus) : bool :=
  varchar 255 (ex_ExecutionID e) && str_in (ex_ExecutionType e) execution_types
  && varchar 500 (ex_Name e) && varchar 50 (ex_Source e)
  && varchar 255 (ex_TenantID e) && varchar 255 (ex_OrgID e)
  && varchar 255 (ex_UserID e) && varchar 255 (ex_ClientID e)
  && str_in (ex_Status e) execution_statuses
  && int4_ok (ex_CurrentStepIndex e) && int4_ok (ex_TotalSteps e).

(** The USING predicate, which is also the WITH CHECK one: [guc] is
    app.current_tenant_id, and an empty tenant is stored as NULL. *)
Definition visible (rls : bool) (guc : option string) (e : ExecutionStatus) : bool :=
  negb rls || str_eqb (ex_TenantID e) "" || str_eqb (ex_TenantID e) (default "" guc).

(** [rls.WithOrgAndTenantScope] *)
Definition in_scope {A} (up : bool) (orgID tenantID : string) (fn : result exec_error A)
  : result exec_error A :=
  if str_eqb orgID "" then Err (EDatabase "rls.WithOrgAndTenantScope: orgID must be non-empty")
  else if str_eqb tenantID "" then Err (EDatabase "rls.WithOrgAndTenantScope: tenantID must be non-empty")
  else if up then fn else Err (EDatabase "transaction failed").

Definition has_id (id : string) (e : ExecutionStatus) : bool := str_eqb (ex_ExecutionID e) id.

(** UPDATE ... WHERE id = $1 in the scope of a tenant: the primary key gives at
    most one row. [None] of [f] is a value a column refuses. *)
Definition update_row (rls : bool) (tenantID id : string)
    (f : ExecutionStatus -> option ExecutionStatus) (st : Store) : result exec_error Store :=
  match find_first (fun e => has_id id e && visible rls (Some tenantID) e) st with
  | None => Err ErrExecutionNotFound
  | Some e =>
      match f e with
      | None => Err (EConstraint "execution_history")
      | Some e' =>
          if row_constraints e'
          then Ok ((fun x => if has_id id x && visible rls (Some tenantID) x then e' else x) <$> st)
          else Err (EConstraint "execution_history")
      end
  end.

Section Repository.
Context `{D : ExecDatabase} (r : PostgresRepository).

Definition decimal_opt (c : option float64) : option (option float64) :=
  match c with None => Some None | Some f => Some <$> decimal_column f end.

(** [None] is a nil pointer. *)
Definition Create (up : bool) (st : Store) (exec : option ExecutionStatus) : result exec_error Store :=
  match exec with
  | None => Err ErrInvalidExecution
  | Some e =>
      if str_eqb (ex_OrgID e) "" || str_eqb (ex_TenantID e) "" then Err ErrMissingOrgID
      else match steps_column (ex_Steps e), metadata_column (ex_Metadata e) with
      | None, _ => Err (EMarshal "steps")
      | _, None => Err (EMarshal "metadata")
      | Some steps, Some metadata =>
          in_scope up (ex_OrgID e) (ex_TenantID e)
            match decimal_opt (ex_EstimatedCostUSD e), decimal_opt (ex_ActualCostUSD e) with
            | Some est, Some act =>
                let row := mkExecution (ex_ExecutionID e) (ex_ExecutionType e) (ex_Name e)
                             (ex_Source e) (ex_Status e) (ex_CurrentStepIndex e) (ex_TotalSteps e)
                             f64_zero (ex_StartedAt e) None "" est act steps "" (ex_TenantID e)
                             (ex_OrgID e) (ex_UserID e) (ex_ClientID e) metadata
                             (ex_CreatedAt e) (ex_UpdatedAt e) in
                if existsb (has_id (ex_ExecutionID e)) st then Err (EConstraint "primary key")
                else if negb (row_constraints row) then Err (EConstraint "execution_history")
                else if visible (db_rls r) (Some (ex_TenantID e)) row then Ok (st ++ [row])
                else Err (EConstraint "row-level security policy")
            | _, _ => Err (EConstraint "numeric field overflow")
            end
      end
  end.

(** Discovery read: no tenant setting, on the lookup pool. *)
Definition Get (up : bool) (st : Store) (executionID : string) : result exec_error ExecutionStatus :=
  if negb up then Err (EDatabase "failed to get execution")
  else match find_first (fun e => has_id executionID e && visible (lookup_rls r) None e) st with
       | None => Err ErrExecutionNotFound
       | Some e => Ok e
       end.

Definition Update (up : bool) (dbnow : Z) (st : Store) (exec : option ExecutionStatus)
  : result exec_error Store :=
  match exec with
  | None => Err ErrInvalidExecution
  | Some e =>
      if str_eqb (ex_OrgID e) "" || str_eqb (ex_TenantID e) "" then Err ErrMissingOrgID
      else match steps_column (ex_Steps e), metadata_column (ex_Metadata e) with
      | None, _ => Err (EMarshal "steps")
      | _, None => Err (EMarshal "metadata")
      | Some steps, Some metadata =>
          in_scope up (ex_OrgID e) (ex_TenantID e)
            (update_row (db_rls r) (ex_TenantID e) (ex_ExecutionID e) (fun row =>
               est ← decimal_opt (ex_EstimatedCostUSD e);
               act ← decimal_opt (ex_ActualCostUSD e);
               Some (exec_update row (ex_Status e) (ex_CurrentStepIndex e) (ex_TotalSteps e)
                       (ex_CompletedAt e) est act steps (ex_Error e) metadata dbnow)) st)
      end
  end.

Definition list_filter (req : ListExecutionsRequest) (e : ExecutionStatus) : bool :=
  match lr_ExecutionType req with Some t => str_eqb (ex_ExecutionType e) t | None => true end
  && match lr_Status req with Some s => str_eqb (ex_Status e) s | None => true end
  && (str_eqb (lr_TenantID req) "" || str_eqb (ex_TenantID e) (lr_TenantID req))
  && (str_eqb (lr_OrgID req) "" || str_eqb (ex_OrgID e) (lr_OrgID req)).

Definition newest_first (a b : ExecutionStatus) : bool := ex_CreatedAt b <? ex_CreatedAt a.

Definition limit_offset {A} (limit offset : Z) (l : list A) : list A :=
  let l := if 0 <? offset then drop (Z.to_nat offset) l else l in
  if 0 <? limit then take (Z.to_nat limit) l else l.

(** ORDER BY created_at DESC: the newest first, rows of one time in any order. *)
Definition newest_ordered (l : list ExecutionStatus) : Prop := StronglySorted (fun a b => ex_CreatedAt b <= ex_CreatedAt a) l.
Definition orders_newest (order : list ExecutionStatus -> list ExecutionStatus) : Prop :=
  forall l, order l ≡ₚ l /\ newest_ordered (order l).

(** The rows and the total both come from one transaction; [order] is the order in which
    this query returns its rows, one of [orders_newest]. *)
Definition List (order : list ExecutionStatus -> list ExecutionStatus) (up : bool) (st : Store) (req : ListExecutionsRequest)
  : result exec_error (list ExecutionStatus * Z) :=
  let org0 := lr_OrgID req in
  let tenant0 := lr_TenantID req in
  let scopeOrg := if str_eqb org0 "" then tenant0 else org0 in
  let scopeTenant := if str_eqb tenant0 "" then scopeOrg else tenant0 in
  let run guc :=
    let rows := List.filter (fun e => visible (db_rls r) guc e && list_filter req e) st in
    Ok (limit_offset (lr_Limit req) (lr_Offset req) (order rows),
        Z.of_nat (length rows)) in
  if str_eqb scopeOrg "" then if up then run None else Err (EDatabase "failed to count executions")
  else in_scope up scopeOrg scopeTenant (run (Some scopeTenant)).

Definition Delete (up : bool) (st : Store) (orgID tenantID executionID : string)
  : result exec_error Store :=
  if str_eqb orgID "" || str_eqb tenantID "" then Err ErrMissingOrgID
  else in_scope up orgID tenantID
    (let hit e := has_id executionID e && visible (db_rls r) (Some tenantID) e in
     if existsb hit st then Ok (List.filter (fun e => negb (hit e)) st)
     else Err ErrExecutionNotFound).

Definition UpdateStatus (up : bool) (dbnow : Z) (st : Store) (orgID tenantID executionID status : string)
    (completedAt : option Z) (errorMsg : string) : result exec_error Store :=
  if str_eqb orgID "" || str_eqb tenantID "" then Err ErrMissingOrgID
  else in_scope up orgID tenantID
    (update_row (db_rls r) tenantID executionID (fun e =>
       Some (exec_update e status (ex_CurrentStepIndex e) (ex_TotalSteps e) completedAt
               (ex_EstimatedCostUSD e) (ex_ActualCostUSD e) (ex_Steps e) errorMsg
               (ex_Metadata e) dbnow)) st).

Definition UpdateSteps (up : bool) (dbnow : Z) (st : Store) (orgID tenantID executionID : string)
    (steps : list StepStatus) : result exec_error Store :=
  if str_eqb orgID "" || str_eqb tenantID "" then Err ErrMissingOrgID
  else match steps_column steps with
  | None => Err (EMarshal "steps")
  | Some steps' =>
      in_scope up orgID tenantID
        (update_row (db_rls r) tenantID executionID (fun e =>
           Some (exec_update e (ex_Status e) (ex_CurrentStepIndex e) (Z.of_nat (length steps))
                   (ex_CompletedAt e) (ex_EstimatedCostUSD e) (ex_ActualCostUSD e) steps'
                   (ex_Error e) (ex_Metadata e) dbnow)) st)
  end.

(** COALESCE($n, column) *)
Definition coalesce (c old : option float64) : option (option float64) :=
  match c with None => Some old | Some f => Some <$> decimal_column f end.

Definition UpdateCost (up : bool) (dbnow : Z) (st : Store) (orgID tenantID executionID : string)
    (estimatedCost actualCost : option float64) : result exec_error Store :=
  if str_eqb orgID "" || str_eqb tenantID "" then Err ErrMissingOrgID
  else in_scope up orgID tenantID
    (update_row (db_rls r) tenantID executionID (fun e =>
       est ← coalesce estimatedCost (ex_EstimatedCostUSD e);
       act ← coalesce actualCost (ex_ActualCostUSD e);
       Some (exec_update e (ex_Status e) (ex_CurrentStepIndex e) (ex_TotalSteps e)
               (ex_CompletedAt e) est act (ex_Steps e) (ex_Error e) (ex_Metadata e) dbnow)) st).

Fixpoint assoc_get (k : string) (m : list (string * value)) : option value :=
  match m with
  | [] => None
  | (k', v) :: m' => if str_eqb k' k then Some v else assoc_get k m'
  end.

Definition metadata_is (key val : string) (e : ExecutionStatus) : bool :=
  match v ← assoc_get key (ex_Metadata e); jsonb_text v with
  | Some s => str_eqb s val
  | None => false
  end.

(** LIMIT 1 without an order: some row that matches. *)
Definition GetByMetadata (up : bool) (st : Store) (key val : string) : result exec_error ExecutionStatus :=
  if negb up then Err (EDatabase "failed to get execution by metadata")
  else match find_first (fun e => metadata_is key val e && visible (lookup_rls r) None e) st with
       | None => Err ErrExecutionNotFound
       | Some e => Ok e
       end.

Definition GetByPlanID (up : bool) (st : Store) (planID : string) : result exec_error ExecutionStatus :=
  GetByMetadata up st "plan_id" planID.

Definition ExpireExecution (up : bool) (dbnow now : Z) (st : Store)
    (orgID tenantID executionID : string) : result exec_error Store :=
  if str_eqb orgID "" || str_eqb tenantID "" then Err ErrMissingOrgID
  else in_scope up orgID tenantID
    (update_row (db_rls r) tenantID executionID (fun e =>
       Some (exec_update e StatusExpired (ex_CurrentStepIndex e) (ex_TotalSteps e) (Some now)
               (ex_EstimatedCostUSD e) (ex_ActualCostUSD e) (ex_Steps e) (ex_Error e)
               (ex_Metadata e) dbnow)) st).

Definition active_status (s : string) : bool := str_in s [StatusRunning; StatusPending].

Definition active_of (tenantID : string) (e : ExecutionStatus) : bool :=
  str_eqb (ex_TenantID e) tenantID && active_status (ex_Status e).

Definition CountActive (up : bool) (st : Store) (tenantID : string) : result exec_error Z :=
  in_scope up tenantID tenantID
    (Ok (Z.of_nat (length (List.filter (fun e =>
       visible (db_rls r) (Some tenantID) e && active_of tenantID e) st)))).

(** The rows of a tenant that the sub-select keeps. *)
Definition kept (st : Store) (tenantID : string) (keepCount : Z) : list ExecutionStatus :=
  take (Z.to_nat keepCount)
    (SliceStable newest_first
       (List.filter (fun e => visible (db_rls r) (Some tenantID) e
                              && str_eqb (ex_TenantID e) tenantID) st)).

Definition PurgeOldest (up : bool) (st : Store) (orgID tenantID : string) (keepCount : Z)
  : result exec_error (Z * Store) :=
  if str_eqb orgID "" || str_eqb tenantID "" then Err ErrMissingOrgID
  else in_scope up orgID tenantID
    (if keepCount <? 0 then Err (EDatabase "LIMIT must not be negative")
     else
       let doomed e := visible (db_rls r) (Some tenantID) e && str_eqb (ex_TenantID e) tenantID
                       && negb (str_in (ex_ExecutionID e)
                                  (ex_ExecutionID <$> kept st tenantID keepCount)) in
       Ok (Z.of_nat (length (List.filter doomed st)),
           List.filter (fun e => negb (doomed e)) st)).

End Repository.
