(* ===== verification/ExecutionTracker.v ===== *)
(** The execution tracker (platform/shared/execution/tracker.go): every
    operation of [BaseExecutionTracker] over the repository and the event hub.

    An operation makes several repository calls, each its own transaction:
    [up n] tells whether the [n]-th call of the operation succeeds. [now] is the
    tracker's clock, [dbnow] the database's, [tnow] what time.Now() returns. The
    outer [option] is a panic, which only the event hub could cause. The read
    half and the write half of an operation are separate definitions where
    interleavings matter. *)

From S2P Require Import Prelude GoFloat GoStrings GoSha256 GoTime PolicyTypes EventHub.
From S2P Require Import ExecutionTypes ExecutionStore.

Local Open Scope Z_scope.

Definition EventExecutionStarted : string := "execution.started".
Definition EventExecutionCompleted : string := "execution.completed".
Definition EventExecutionFailed : string := "execution.failed".
Definition EventExecutionCancelled : string := "execution.cancelled".
Definition EventStepStarted : string := "step.started".
Definition EventStepCompleted : string := "step.completed".
Definition EventStepFailed : string := "step.failed".
Definition EventStepDecision : string := "step.decision".

(** [random] is what crypto/rand yields, [None] its failure. *)
Definition generateExecutionID (execType : string) (random : option (list Z)) (nano : Z) : string :=
  let prefix := if str_eqb execType ExecutionTypeMAP then "plan"
                else if str_eqb execType ExecutionTypeWCP then "wf" else "exec" in
  match random with
  | None => prefix +:+ "_" +:+ Itoa nano
  | Some b => prefix +:+ "_" +:+ of_bytes (concat (hex_byte <$> b))
  end.

Record Tracker := mkTrackerState {
  tr_store : Store;
  tr_hub : option (EventHub (Data := ExecutionStatus));
}.

Definition outcome (A : Type) : Type := option (Tracker * result exec_error A).

(** * Edits of a step list *)

(** The loops over [exec.Steps] that edit the first step with an id and break. *)
Fixpoint modify_step (stepID : string) (f : StepStatus -> StepStatus) (l : list StepStatus)
  : list StepStatus :=
  match l with
  | [] => []
  | s :: l' => if str_eqb (st_StepID s) stepID then f s :: l' else s :: modify_step stepID f l'
  end.

Definition default_step_status (s : StepStatus) : StepStatus :=
  if str_eqb (st_Status s) "" then
    step_update s StepStatusPending (st_StartedAt s) (st_EndedAt s) (st_Duration s) (st_Decision s)
      (st_DecisionReason s) (st_PoliciesMatched s) (st_ApprovalStatus s) (st_CostUSD s)
      (st_TokensIn s) (st_TokensOut s) (st_Error s)
  else s.

Definition start_step (now : Z) (s : StepStatus) : StepStatus :=
  step_update s StepStatusRunning (Some now) (st_EndedAt s) (st_Duration s) (st_Decision s)
    (st_DecisionReason s) (st_PoliciesMatched s) (st_ApprovalStatus s) (st_CostUSD s)
    (st_TokensIn s) (st_TokensOut s) (st_Error s).

(** The end time is set before the duration is computed from it. *)
Definition end_step (status : string) (now : Z) (err : string) (s : StepStatus) : StepStatus :=
  let dur := match st_StartedAt s with
             | None => ""
             | Some started => formatDuration (Sub now started)
             end in
  step_update s status (st_StartedAt s) (Some now) dur (st_Decision s) (st_DecisionReason s)
    (st_PoliciesMatched s) (st_ApprovalStatus s) (st_CostUSD s) (st_TokensIn s) (st_TokensOut s) err.

(** [m[k].(int)] and [m[k].(float64)] *)
Definition int_member (k : string) (m : list (string * value)) (old : option Z) : option Z :=
  match assoc_get k m with Some (VInt v) => Some v | _ => old end.
Definition float_member (k : string) (m : list (string * value)) (old : option float64)
  : option float64 :=
  match assoc_get k m with Some (VFloat v) => Some v | _ => old end.

Definition apply_result (result : value) (s : StepStatus) : StepStatus :=
  match result with
  | VObj m =>
      step_update s (st_Status s) (st_StartedAt s) (st_EndedAt s) (st_Duration s) (st_Decision s)
        (st_DecisionReason s) (st_PoliciesMatched s) (st_ApprovalStatus s)
        (float_member "cost_usd" m (st_CostUSD s)) (int_member "tokens_in" m (st_TokensIn s))
        (int_member "tokens_out" m (st_TokensOut s)) (st_Error s)
  | _ => s
  end.

Definition complete_step (now : Z) (result : value) (s : StepStatus) : StepStatus :=
  apply_result result (end_step StepStatusCompleted now (st_Error s) s).

Definition decide_step (decision reason : string) (policies : list string) (s : StepStatus)
  : StepStatus :=
  let status := if str_eqb decision GateDecisionBlock then StepStatusBlocked
                else if str_eqb decision GateDecisionRequireApproval then StepStatusApproval
                else st_Status s in
  let approval := if str_eqb decision GateDecisionBlock then st_ApprovalStatus s
                  else if str_eqb decision GateDecisionRequireApproval
                  then Some ApprovalStatusPending else st_ApprovalStatus s in
  step_update s status (st_StartedAt s) (st_EndedAt s) (st_Duration s) decision reason policies
    approval (st_CostUSD s) (st_TokensIn s) (st_TokensOut s) (st_Error s).

Definition cost_step (c : float64) (s : StepStatus) : StepStatus :=
  step_update s (st_Status s) (st_StartedAt s) (st_EndedAt s) (st_Duration s) (st_Decision s)
    (st_DecisionReason s) (st_PoliciesMatched s) (st_ApprovalStatus s) (Some c) (st_TokensIn s)
    (st_TokensOut s) (st_Error s).

Section Tracker.
Context `{D : ExecDatabase} (r : PostgresRepository).
Context (MaxConcurrentExecutions : Z).

(** * Events *)

Definition publishEvent (up : bool) (t : Tracker) (eventType executionID : string) : option Tracker :=
  match tr_hub t with
  | None => Some t
  | Some h =>
      match Get r up (tr_store t) executionID with
      | Err _ => Some t
      | Ok exec =>
          match Publish h (mkExecutionEvent eventType executionID exec) with
          | Some h' => Some (mkTrackerState (tr_store t) (Some h'))
          | None => None
          end
      end
  end.

Definition fail_with {A} (t : Tracker) (e : exec_error) : outcome A := Some (t, Err e).

(** A write, then the event when the write succeeded. *)
Definition write_then_publish (up : bool) (t : Tracker) (w : result exec_error Store)
    (eventType executionID : string) : outcome unit :=
  match w with
  | Err e => fail_with t e
  | Ok st =>
      match publishEvent up (mkTrackerState st (tr_hub t)) eventType executionID with
      | Some t' => Some (t', Ok tt)
      | None => None
      end
  end.

Definition write_only (t : Tracker) (w : result exec_error Store) : outcome unit :=
  match w with
  | Err e => fail_with t e
  | Ok st => Some (mkTrackerState st (tr_hub t), Ok tt)
  end.

(** * Lifecycle *)

(** The admission check: a failed count admits. *)
Definition admitted (up : bool) (st : Store) (tenantID : string) : bool :=
  if (0 <? MaxConcurrentExecutions) && negb (str_eqb tenantID "") then
    match CountActive r up st tenantID with
    | Ok active => active <? MaxConcurrentExecutions
    | Err _ => true
    end
  else true.

Definition new_execution (now : Z) (id : string) (req : CreateExecutionRequest) : ExecutionStatus :=
  mkExecution id (cr_ExecutionType req) (cr_Name req) (cr_Source req) StatusPending 0
    (cr_TotalSteps req) f64_zero now None "" None None [] "" (cr_TenantID req) (cr_OrgID req)
    (cr_UserID req) (cr_ClientID req) (cr_Metadata req) now now.

(** The half after the admission check. *)
Definition StartExecution_create (up : nat -> bool) (now : Z) (id : string) (t : Tracker)
    (req : CreateExecutionRequest) : outcome ExecutionStatus :=
  let exec := new_execution now id req in
  match Create r (up 1%nat) (tr_store t) (Some exec) with
  | Err e => fail_with t e
  | Ok st =>
      match publishEvent (up 2%nat) (mkTrackerState st (tr_hub t)) EventExecutionStarted id with
      | Some t' => Some (t', Ok exec)
      | None => None
      end
  end.

Definition StartExecution (up : nat -> bool) (now nano : Z) (random : option (list Z)) (t : Tracker)
    (req : CreateExecutionRequest) : outcome ExecutionStatus :=
  if negb (admitted (up 0%nat) (tr_store t) (cr_TenantID req))
  then fail_with t ErrConcurrentExecutionLimit
  else StartExecution_create up now (generateExecutionID (cr_ExecutionType req) random nano) t req.

(** [exec, err := t.repo.Get(...)] at the head of an operation. *)
Definition with_execution {A} (up : nat -> bool) (t : Tracker) (executionID : string)
    (k : ExecutionStatus -> outcome A) : outcome A :=
  match Get r (up 0%nat) (tr_store t) executionID with
  | Err e => fail_with t e
  | Ok exec => k exec
  end.

Definition finish (status event : string) (up : nat -> bool) (now dbnow : Z) (t : Tracker)
    (executionID errMsg : string) : outcome unit :=
  with_execution up t executionID (fun exec =>
    write_then_publish (up 2%nat) t
      (UpdateStatus r (up 1%nat) dbnow (tr_store t) (ex_OrgID exec) (ex_TenantID exec) executionID
         status (Some now) errMsg) event executionID).

Definition CompleteExecution (up : nat -> bool) (now dbnow : Z) (t : Tracker) (executionID : string)
  : outcome unit :=
  finish StatusCompleted EventExecutionCompleted up now dbnow t executionID "".

(** [None] is a nil error. *)
Definition FailExecution (up : nat -> bool) (now dbnow : Z) (t : Tracker) (executionID : string)
    (err : option string) : outcome unit :=
  finish StatusFailed EventExecutionFailed up now dbnow t executionID (default "" err).

Definition CancelExecution (up : nat -> bool) (now dbnow : Z) (t : Tracker)
    (executionID reason : string) : outcome unit :=
  finish StatusCancelled EventExecutionCancelled up now dbnow t executionID reason.

(** * Steps *)

Definition write_steps (up : nat -> bool) (dbnow : Z) (t : Tracker) (exec : ExecutionStatus)
    (executionID : string) (steps : list StepStatus) : result exec_error Store :=
  UpdateSteps r (up 1%nat) dbnow (tr_store t) (ex_OrgID exec) (ex_TenantID exec) executionID steps.

Definition AddStep (up : nat -> bool) (dbnow : Z) (t : Tracker) (executionID : string)
    (step : StepStatus) : outcome unit :=
  with_execution up t executionID (fun exec =>
    write_only t (write_steps up dbnow t exec executionID
                    (ex_Steps exec ++ [default_step_status step]))).

(** What StartStep makes of the record it read. *)
Definition started (now : Z) (stepID : string) (exec : ExecutionStatus) : ExecutionStatus :=
  let idx := match find_first (fun s => str_eqb (st_StepID s) stepID) (ex_Steps exec) with
             | Some s => st_StepIndex s
             | None => ex_CurrentStepIndex exec
             end in
  exec_update exec (if str_eqb (ex_Status exec) StatusPending then StatusRunning else ex_Status exec)
    idx (ex_TotalSteps exec) (ex_CompletedAt exec) (ex_EstimatedCostUSD exec)
    (ex_ActualCostUSD exec) (modify_step stepID (start_step now) (ex_Steps exec)) (ex_Error exec)
    (ex_Metadata exec) now.

Definition StartStep_write (up : nat -> bool) (now dbnow : Z) (t : Tracker)
    (executionID stepID : string) (exec : ExecutionStatus) : outcome unit :=
  write_then_publish (up 2%nat) t
    (Update r (up 1%nat) dbnow (tr_store t) (Some (started now stepID exec)))
    EventStepStarted executionID.

Definition StartStep (up : nat -> bool) (now dbnow : Z) (t : Tracker) (executionID stepID : string)
  : outcome unit :=
  with_execution up t executionID (StartStep_write up now dbnow t executionID stepID).

Definition CompleteStep (up : nat -> bool) (now dbnow : Z) (t : Tracker)
    (executionID stepID : string) (result : value) : outcome unit :=
  with_execution up t executionID (fun exec =>
    write_then_publish (up 2%nat) t
      (write_steps up dbnow t exec executionID
         (modify_step stepID (complete_step now result) (ex_Steps exec)))
      EventStepCompleted executionID).

Definition FailStep (up : nat -> bool) (now dbnow : Z) (t : Tracker)
    (executionID stepID : string) (err : option string) : outcome unit :=
  with_execution up t executionID (fun exec =>
    write_then_publish (up 2%nat) t
      (write_steps up dbnow t exec executionID
         (modify_step stepID (end_step StepStatusFailed now (default "" err)) (ex_Steps exec)))
      EventStepFailed executionID).

Definition UpdateStepDecision (up : nat -> bool) (dbnow : Z) (t : Tracker)
    (executionID stepID decision reason : string) (policies : list string) : outcome unit :=
  with_execution up t executionID (fun exec =>
    write_then_publish (up 2%nat) t
      (write_steps up dbnow t exec executionID
         (modify_step stepID (decide_step decision reason policies) (ex_Steps exec)))
      EventStepDecision executionID).

(** * Cost *)

Definition costed (now : Z) (stepID : string) (c : float64) (exec : ExecutionStatus)
  : ExecutionStatus :=
  let steps := modify_step stepID (cost_step c) (ex_Steps exec) in
  exec_update exec (ex_Status exec) (ex_CurrentStepIndex exec) (ex_TotalSteps exec)
    (ex_CompletedAt exec) (ex_EstimatedCostUSD exec) (Some (TotalCost_steps steps)) steps
    (ex_Error exec) (ex_Metadata exec) now.

Definition RecordStepCost (up : nat -> bool) (now dbnow : Z) (t : Tracker)
    (executionID stepID : string) (costUSD : float64) : outcome unit :=
  with_execution up t executionID (fun exec =>
    write_only t (Update r (up 1%nat) dbnow (tr_store t) (Some (costed now stepID costUSD exec)))).

Definition SetEstimatedCost (up : nat -> bool) (dbnow : Z) (t : Tracker) (executionID : string)
    (costUSD : float64) : outcome unit :=
  with_execution up t executionID (fun exec =>
    write_only t (UpdateCost r (up 1%nat) dbnow (tr_store t) (ex_OrgID exec) (ex_TenantID exec)
                    executionID (Some costUSD) None)).

(** * Reads *)

Definition with_derived (tnow : Z) (exec : ExecutionStatus) : ExecutionStatus :=
  let act := match ex_ActualCostUSD exec with
             | Some c => Some c
             | None => let cost := TotalCost exec in
                       if f64_ltb f64_zero cost then Some cost else None
             end in
  exec_derived exec (CalculateProgress exec) (CalculateDuration tnow exec) act.

Definition GetStatus (up : bool) (tnow : Z) (st : Store) (executionID : string)
  : result exec_error ExecutionStatus :=
  match Get r up st executionID with
  | Err e => Err e
  | Ok exec => Ok (with_derived tnow exec)
  end.

Definition page_limit (limit : Z) : Z :=
  let limit := if limit <=? 0 then 20 else limit in
  if 100 <? limit then 100 else limit.

Definition ListExecutions (order : list ExecutionStatus -> list ExecutionStatus) (up : bool) (tnow : Z) (st : Store) (req : ListExecutionsRequest)
  : result exec_error ListExecutionsResponse :=
  let limit := page_limit (lr_Limit req) in
  let req := mkListExecutions (lr_ExecutionType req) (lr_Status req) (lr_TenantID req)
               (lr_OrgID req) limit (lr_Offset req) in
  match List r order up st req with
  | Err e => Err e
  | Ok (executions, total) =>
      Ok (mkListResponse (with_derived tnow <$> executions) total limit (lr_Offset req)
            (lr_Offset req + Z.of_nat (length executions) <? total))
  end.

(** * Runs *)

(** One call of the tracker, with the clocks and the fate of its transactions. *)
Inductive tracker_op :=
| OpStart (nano : Z) (random : option (list Z)) (req : CreateExecutionRequest)
| OpComplete (id : string)
| OpFail (id : string) (err : option string)
| OpCancel (id reason : string)
| OpAddStep (id : string) (step : StepStatus)
| OpStartStep (id stepID : string)
| OpCompleteStep (id stepID : string) (result : value)
| OpFailStep (id stepID : string) (err : option string)
| OpDecision (id stepID decision reason : string) (policies : list string)
| OpStepCost (id stepID : string) (cost : float64)
| OpEstimate (id : string) (cost : float64).

Record call := mkCall { c_up : nat -> bool; c_now : Z; c_dbnow : Z; c_op : tracker_op }.

Definition drop_value {A} (o : outcome A) : option Tracker := fst <$> o.

Definition run_call (t : Tracker) (c : call) : option Tracker :=
  let up := c_up c in let now := c_now c in let dbnow := c_dbnow c in
  match c_op c with
  | OpStart nano random req => drop_value (StartExecution up now nano random t req)
  | OpComplete id => drop_value (CompleteExecution up now dbnow t id)
  | OpFail id err => drop_value (FailExecution up now dbnow t id err)
  | OpCancel id reason => drop_value (CancelExecution up now dbnow t id reason)
  | OpAddStep id step => drop_value (AddStep up dbnow t id step)
  | OpStartStep id stepID => drop_value (StartStep up now dbnow t id stepID)
  | OpCompleteStep id stepID res => drop_value (CompleteStep up now dbnow t id stepID res)
  | OpFailStep id stepID err => drop_value (FailStep up now dbnow t id stepID err)
  | OpDecision id stepID d reason ps => drop_value (UpdateStepDecision up dbnow t id stepID d reason ps)
  | OpStepCost id stepID cost => drop_value (RecordStepCost up now dbnow t id stepID cost)
  | OpEstimate id cost => drop_value (SetEstimatedCost up dbnow t id cost)
  end.

Fixpoint run_calls (t : Tracker) (cs : list call) : option Tracker :=
  match cs with
  | [] => Some t
  | c :: cs' => match run_call t c with Some t' => run_calls t' cs' | None => None end
  end.

End Tracker.
