(* ===== verification/ExecutionFacts.v ===== *)
(** Facts about execution tracking: what one call of the tracker can do to the
    table ([store_step]), the invariant of the table, the life cycle of an
    execution, the concurrency limit, pagination, retention and tenant
    isolation; and the interleavings that escape them. *)

From S2P Require Import Prelude GoFloat GoStrings GoSha256 GoTime PolicyTypes EventHub.
From S2P Require Import ExecutionTypes ExecutionStore ExecutionTracker.

Local Open Scope Z_scope.

(** * The invariant of the table *)

Definition row_ok (e : ExecutionStatus) : Prop :=
  ex_TenantID e <> "" /\ ex_OrgID e <> "" /\ row_constraints e = true.

Record store_ok (st : Store) : Prop := {
  ids_unique : NoDup (ex_ExecutionID <$> st);
  rows_ok : Forall row_ok st;
}.

(** How a call may change the status of an execution it does not create. *)
Definition status_step (s s' : string) : Prop :=
  s' = s \/ (s = StatusPending /\ s' = StatusRunning) \/
  s' ∈ [StatusCompleted; StatusFailed; StatusCancelled].

(** The identity, the owners and the creation of an execution never change. *)
Record row_step (e e' : ExecutionStatus) : Prop := {
  rs_id : ex_ExecutionID e' = ex_ExecutionID e;
  rs_type : ex_ExecutionType e' = ex_ExecutionType e;
  rs_tenant : ex_TenantID e' = ex_TenantID e;
  rs_org : ex_OrgID e' = ex_OrgID e;
  rs_user : ex_UserID e' = ex_UserID e;
  rs_client : ex_ClientID e' = ex_ClientID e;
  rs_created : ex_CreatedAt e' = ex_CreatedAt e;
  rs_started : ex_StartedAt e' = ex_StartedAt e;
  rs_status : status_step (ex_Status e) (ex_Status e');
}.

(** [fresh] is the tenant for whom the call may create an execution. *)
Inductive store_step (fresh : option string) : Store -> Store -> Prop :=
| step_none st : store_step fresh st st
| step_new st row :
    fresh = Some (ex_TenantID row) -> row_ok row -> ex_Status row = StatusPending ->
    ex_ExecutionID row ∉ ex_ExecutionID <$> st -> store_step fresh st (st ++ [row])
| step_row st1 e st2 e' :
    row_step e e' -> row_constraints e' = true ->
    store_step fresh (st1 ++ e :: st2) (st1 ++ e' :: st2).

Lemma exec_update_step e status idx total completed est act steps err md upd :
  status_step (ex_Status e) status ->
  row_step e (exec_update e status idx total completed est act steps err md upd).
Proof. by split. Qed.
#[export] Hint Resolve exec_update_step : axon.

Lemma status_same s : status_step s s.
Proof. by left. Qed.
#[export] Hint Resolve status_same : axon.

Lemma has_id_true id e : has_id id e = true <-> ex_ExecutionID e = id.
Proof. apply str_eqb_true. Qed.

Lemma store_step_ok n st st' : store_ok st -> store_step n st st' -> store_ok st'.
Proof.
  intros [Hnd Hrows] Hs. inv Hs; [done| |].
  - split.
    + rewrite fmap_app. apply NoDup_app. split_and!; [done| |repeat constructor; set_solver].
      intros x Hx ->%list_elem_of_singleton. done.
    + apply Forall_app. split; [done|]. by apply Forall_singleton.
  - destruct H as [Hid _ Ht Ho _ _ _ _ _]. split.
    + rewrite fmap_app in *. simpl in *. by rewrite Hid.
    + rewrite Forall_app, Forall_cons in *. destruct Hrows as (H1 & (Het & Heo & _) & H2).
      split_and!; [done| |done]. unfold row_ok. by rewrite Ht, Ho.
Qed.

(** * Statements *)

Lemma NoDup_ids_split (st1 : Store) e st2 id :
  NoDup (ex_ExecutionID <$> st1 ++ e :: st2) -> ex_ExecutionID e = id ->
  Forall (fun x => has_id id x = false) st1 /\ Forall (fun x => has_id id x = false) st2.
Proof.
  rewrite fmap_app. simpl. intros Hnd <-. apply NoDup_app in Hnd as (_ & Hdis & Hnd).
  apply NoDup_cons in Hnd as [Hn _].
  split; apply Forall_forall; intros x Hx; apply str_eqb_false; intros HE.
  - apply (Hdis (ex_ExecutionID x)); [by apply list_elem_of_fmap_2|rewrite HE; left].
  - apply Hn. rewrite <- HE. by apply list_elem_of_fmap_2.
Qed.

Lemma fmap_if_none {A} (p : A -> bool) (y : A) l :
  Forall (fun x => p x = false) l -> (fun x => if p x then y else x) <$> l = l.
Proof. induction 1 as [|x l Hx _ IH]; simpl; [done|]. rewrite Hx. f_equal. exact IH. Qed.

Lemma update_row_spec rls t id f st st' :
  NoDup (ex_ExecutionID <$> st) -> update_row rls t id f st = Ok st' ->
  exists st1 e st2 e', st = st1 ++ e :: st2 /\ ex_ExecutionID e = id /\
    visible rls (Some t) e = true /\ f e = Some e' /\ row_constraints e' = true /\
    st' = st1 ++ e' :: st2.
Proof.
  unfold update_row. intros Hnd H.
  destruct (find_first _ st) as [e|] eqn:E; [|done].
  apply find_first_split in E as (st1 & st2 & -> & Hp & _).
  destruct (f e) as [e'|] eqn:Ef; [|done]. destruct (row_constraints e') eqn:Ec; [|done].
  apply andb_true_iff in Hp as [Hid%has_id_true Hv].
  exists st1, e, st2, e'. split_and!; try done.
  destruct (NoDup_ids_split st1 e st2 id Hnd Hid) as [H1 H2]. inv H.
  rewrite fmap_app, fmap_cons, (proj2 (has_id_true _ e) eq_refl), Hv. simpl.
  f_equal; [|f_equal]; apply fmap_if_none;
    (eapply Forall_impl; [eassumption|]); intros x Hx; by rewrite Hx.
Qed.

(** An update that keeps the identity is a step of the table. *)
Lemma update_row_step rls t id f st st' :
  store_ok st -> (forall e e', e ∈ st -> ex_ExecutionID e = id -> f e = Some e' -> row_step e e') ->
  update_row rls t id f st = Ok st' -> store_step None st st'.
Proof.
  intros Hok Hf H. destruct (update_row_spec _ _ _ _ _ _ (ids_unique _ Hok) H)
    as (st1 & e & st2 & e' & -> & Hid & _ & Hfe & Hc & ->).
  apply step_row; [|done]. apply (Hf e e'); [|done|done]. apply elem_of_app. right. left.
Qed.

Lemma in_scope_Ok {A} up o t (fn : result exec_error A) a :
  in_scope up o t fn = Ok a -> o <> "" /\ t <> "" /\ up = true /\ fn = Ok a.
Proof.
  unfold in_scope. destruct (str_eqb o "") eqn:Eo; [done|].
  destruct (str_eqb t "") eqn:Et; [done|]. apply str_eqb_false in Eo, Et. by destruct up.
Qed.

Ltac scoped H :=
  repeat lazymatch type of H with
  | (if ?b then Err _ else _) = Ok _ => destruct b eqn:?; [discriminate H|]
  | in_scope _ _ _ _ = Ok _ => apply in_scope_Ok in H as (? & ? & ? & H)
  | (match ?x with Some _ => _ | None => _ end) = Ok _ => destruct x eqn:?; try discriminate H
  end.

Section Facts.
Context `{D : ExecDatabase} (r : PostgresRepository).

Lemma Get_spec up st id e :
  Get r up st id = Ok e -> e ∈ st /\ ex_ExecutionID e = id.
Proof.
  unfold Get. destruct (negb up); [done|].
  destruct (find_first _ st) as [x|] eqn:E; intros H; [|done]. inv H.
  apply find_first_Some in E as [Hin Hp]. apply andb_true_iff in Hp as [Hid _].
  split; [done|by apply has_id_true].
Qed.

(** With unique ids, the row a call read is the row it writes. *)
Lemma unique_row st e e' :
  store_ok st -> e ∈ st -> e' ∈ st -> ex_ExecutionID e = ex_ExecutionID e' -> e = e'.
Proof.
  intros Hok He He' HE. apply list_elem_of_lookup in He as [i Hi], He' as [j Hj].
  assert (i = j) as <-; [|congruence].
  eapply (NoDup_lookup (ex_ExecutionID <$> st)); [apply Hok| |].
  - rewrite list_lookup_fmap, Hi. done.
  - rewrite list_lookup_fmap, Hj. simpl. by rewrite HE.
Qed.

Lemma Create_step up st e st' :
  store_ok st -> ex_Status e = StatusPending -> Create r up st (Some e) = Ok st' ->
  exists row, store_step (Some (ex_TenantID e)) st st' /\ st' = st ++ [row] /\ ex_TenantID row = ex_TenantID e /\
    ex_Status row = StatusPending /\ ex_ExecutionID row = ex_ExecutionID e.
Proof.
  unfold Create. intros Hok Hst H.
  destruct (str_eqb (ex_OrgID e) "") eqn:Eo; [done|].
  destruct (str_eqb (ex_TenantID e) "") eqn:Et; [done|]. simpl in H.
  apply str_eqb_false in Eo, Et. scoped H. bool_simpl.
  destruct (visible _ _ _); [|done].
  inv H. eexists. split; [|done].
  apply step_new; [done|by split_and!|done|]. simpl. intros (x & Hx & Hin)%list_elem_of_fmap.
  match goal with E : existsb _ _ = false |- _ => apply not_true_iff_false in E; apply E end.
  apply existsb_In. exists x. split; [done|].
  by apply has_id_true.
Qed.

Lemma Update_step up dbnow st e st' :
  store_ok st ->
  (forall row, row ∈ st -> ex_ExecutionID row = ex_ExecutionID e ->
     status_step (ex_Status row) (ex_Status e)) ->
  Update r up dbnow st (Some e) = Ok st' -> store_step None st st'.
Proof.
  unfold Update. intros Hok Hs H. scoped H. eapply update_row_step; [done| |exact H].
  intros row e' Hin Hid Hf. simpl in Hf.
  destruct (decimal_opt (ex_EstimatedCostUSD e)); [|done]. simpl in Hf.
  destruct (decimal_opt (ex_ActualCostUSD e)); [|done]. simpl in Hf. simplify_eq.
  apply exec_update_step. by apply Hs.
Qed.

Lemma UpdateStatus_step up dbnow st o t id status completed msg st' :
  store_ok st -> status ∈ [StatusCompleted; StatusFailed; StatusCancelled] ->
  UpdateStatus r up dbnow st o t id status completed msg = Ok st' -> store_step None st st'.
Proof.
  unfold UpdateStatus. intros Hok Hs H. scoped H. eapply update_row_step; [done| |exact H].
  intros e e' _ _ [= <-]. apply exec_update_step. right. by right.
Qed.

Lemma UpdateSteps_step up dbnow st o t id steps st' :
  store_ok st -> UpdateSteps r up dbnow st o t id steps = Ok st' -> store_step None st st'.
Proof.
  unfold UpdateSteps. intros Hok H. scoped H. eapply update_row_step; [done| |exact H].
  intros e e' _ _ [= <-]. auto with axon.
Qed.

Lemma UpdateCost_step up dbnow st o t id est act st' :
  store_ok st -> UpdateCost r up dbnow st o t id est act = Ok st' -> store_step None st st'.
Proof.
  unfold UpdateCost. intros Hok H. scoped H. eapply update_row_step; [done| |exact H].
  intros e e' _ _ Hf. simpl in Hf.
  destruct (coalesce est _); [|done]. simpl in Hf. destruct (coalesce act _); [|done]. simpl in Hf.
  simplify_eq. auto with axon.
Qed.

(** * Calls *)

Context (max : Z).

Definition tracker_ok (t : Tracker) : Prop :=
  store_ok (tr_store t) /\ match tr_hub t with Some h => hub_ok h | None => True end.

(** A tracker outcome: no panic, one step of the table, a well-formed hub. *)
Definition good (n : option string) (t : Tracker) (o : option Tracker) : Prop :=
  exists t', o = Some t' /\ store_step n (tr_store t) (tr_store t') /\
    match tr_hub t' with Some h => hub_ok h | None => True end.

Lemma publishEvent_ok up t ev id :
  tracker_ok t -> exists t', publishEvent r up t ev id = Some t' /\
    tr_store t' = tr_store t /\ match tr_hub t' with Some h => hub_ok h | None => True end.
Proof.
  intros [Hst Hh]. unfold publishEvent. destruct (tr_hub t) as [h|] eqn:Eh.
  - destruct (Get r up (tr_store t) id) as [e|?]; [|exists t; by rewrite Eh].
    destruct (Publish_ok h (mkExecutionEvent ev id e) Hh) as (h' & -> & Hh'). eauto.
  - exists t. by rewrite Eh.
Qed.

Lemma good_refl {A} n t (e : exec_error) : tracker_ok t -> good n t (drop_value (A := A) (fail_with t e)).
Proof. intros [_ Hh]. exists t. split_and!; [done|constructor|done]. Qed.

Lemma write_only_good t w :
  tracker_ok t -> (forall st, w = Ok st -> store_step None (tr_store t) st) ->
  good None t (drop_value (write_only t w)).
Proof.
  intros Hok Hw. destruct w as [st|e]; [|by apply good_refl]. simpl.
  exists (mkTrackerState st (tr_hub t)). split_and!; [done|by apply Hw|apply Hok].
Qed.

Lemma write_then_publish_good up t w ev id :
  tracker_ok t -> (forall st, w = Ok st -> store_step None (tr_store t) st) ->
  good None t (drop_value (write_then_publish r up t w ev id)).
Proof.
  intros Hok Hw. destruct w as [st|e]; [|by apply good_refl]. simpl.
  specialize (Hw st eq_refl).
  destruct (publishEvent_ok up (mkTrackerState st (tr_hub t)) ev id) as (t' & -> & Hs & Hh).
  - split; [by eapply store_step_ok; [apply Hok|]|apply Hok].
  - exists t'. split_and!; [done|by rewrite Hs|done].
Qed.

Lemma with_execution_good {A} up t id (k : ExecutionStatus -> outcome A) :
  tracker_ok t ->
  (forall e, e ∈ tr_store t -> ex_ExecutionID e = id -> good None t (drop_value (k e))) ->
  good None t (drop_value (with_execution r up t id k)).
Proof.
  intros Hok Hk. unfold with_execution. destruct (Get r _ _ _) as [e|?] eqn:E; [|by apply good_refl].
  destruct (Get_spec _ _ _ _ E). by apply Hk.
Qed.

Lemma finish_good status ev up now dbnow t id msg :
  tracker_ok t -> status ∈ [StatusCompleted; StatusFailed; StatusCancelled] ->
  good None t (drop_value (finish r status ev up now dbnow t id msg)).
Proof.
  intros Hok Hs. apply with_execution_good; [done|]. intros e _ _.
  apply write_then_publish_good; [done|]. intros st. apply UpdateStatus_step; [apply Hok|done].
Qed.

Lemma steps_good up dbnow t id ev (f : ExecutionStatus -> list StepStatus) :
  tracker_ok t ->
  good None t (drop_value (with_execution r up t id (fun exec =>
    write_then_publish r (up 2%nat) t (write_steps r up dbnow t exec id (f exec)) ev id))).
Proof.
  intros Hok. apply with_execution_good; [done|]. intros e _ _.
  apply write_then_publish_good; [done|]. intros st. apply UpdateSteps_step, Hok.
Qed.

Lemma StartStep_good up now dbnow t id stepID :
  tracker_ok t -> good None t (drop_value (StartStep r up now dbnow t id stepID)).
Proof.
  intros Hok. apply with_execution_good; [done|]. intros e He _.
  apply write_then_publish_good; [done|]. intros st. apply Update_step; [apply Hok|].
  intros row Hrow Hid. simpl in Hid.
  assert (row = e) as -> by (by eapply unique_row; [apply Hok|..]). simpl.
  destruct (str_eqb (ex_Status e) StatusPending) eqn:E; [|by left].
  apply str_eqb_true in E. right. left. done.
Qed.

Lemma StartExecution_create_good up now id t req :
  tracker_ok t ->
  good (Some (cr_TenantID req)) t (drop_value (StartExecution_create r up now id t req)).
Proof.
  intros Hok. unfold StartExecution_create.
  destruct (Create r _ _ _) as [st|e] eqn:E; [|by apply good_refl].
  destruct (Create_step _ _ (new_execution now id req) _ (proj1 Hok) eq_refl E) as (row & Hs & _).
  destruct (publishEvent_ok (up 2%nat) (mkTrackerState st (tr_hub t)) EventExecutionStarted id)
    as (t' & -> & Hst & Hh).
  - split; [by eapply store_step_ok; [apply Hok|]|apply Hok].
  - exists t'. split_and!; [done|by rewrite Hst|done].
Qed.

(** The tenant for whom a call may create an execution. *)
Definition creates (c : call) : option string :=
  match c_op c with OpStart _ _ req => Some (cr_TenantID req) | _ => None end.

Lemma run_call_good t c : tracker_ok t -> good (creates c) t (run_call r max t c).
Proof.
  intros Hok. unfold run_call, creates. destruct (c_op c).
  - unfold StartExecution. destruct (negb _); [by apply good_refl|].
    by apply StartExecution_create_good.
  - apply finish_good; [done|]. set_solver.
  - apply finish_good; [done|]. set_solver.
  - apply finish_good; [done|]. set_solver.
  - apply with_execution_good; [done|]. intros e _ _. apply write_only_good; [done|].
    intros st. apply UpdateSteps_step, Hok.
  - by apply StartStep_good.
  - by apply steps_good.
  - by apply steps_good.
  - by apply steps_good.
  - apply with_execution_good; [done|]. intros e He _. apply write_only_good; [done|].
    intros st. apply Update_step; [apply Hok|]. intros row Hrow Hid. simpl in Hid.
    assert (row = e) as -> by (by eapply unique_row; [apply Hok|..]). by left.
  - apply with_execution_good; [done|]. intros e _ _. apply write_only_good; [done|].
    intros st. apply UpdateCost_step, Hok.
Qed.

(** * Life cycle *)

Lemma status_step_terminal s s' :
  status_step s s' -> terminal_status s = true -> terminal_status s' = true.
Proof.
  intros [->|[[-> ->]|Hin]] Ht; [done|done|].
  rewrite !elem_of_cons, elem_of_nil in Hin. by destruct Hin as [?|[?|[?|[]]]]; subst.
Qed.

Lemma status_step_active s s' :
  status_step s s' -> active_status s' = true -> active_status s = true.
Proof.
  intros [->|[[-> ->]|Hin]] Ht; [done|done|].
  rewrite !elem_of_cons, elem_of_nil in Hin. by destruct Hin as [?|[?|[?|[]]]]; subst.
Qed.

(** Every execution survives a step with its identity, and a terminal one stays
    terminal. *)
Definition evolves (st st' : Store) : Prop :=
  forall e, e ∈ st -> exists e', e' ∈ st' /\ ex_ExecutionID e' = ex_ExecutionID e /\
    ex_TenantID e' = ex_TenantID e /\ ex_OrgID e' = ex_OrgID e /\
    ex_CreatedAt e' = ex_CreatedAt e /\ (IsTerminal e = true -> IsTerminal e' = true).

#[export] Instance evolves_preorder : PreOrder evolves.
Proof.
  split.
  - intros st e He. exists e. by split_and!.
  - intros st st' st'' H1 H2 e He.
    destruct (H1 e He) as (e1 & He1 & ? & ? & ? & ? & Ht1).
    destruct (H2 e1 He1) as (e2 & He2 & ? & ? & ? & ? & Ht2).
    exists e2. split_and!; try congruence. auto.
Qed.

Lemma store_step_evolves n st st' : store_step n st st' -> evolves st st'.
Proof.
  intros Hs. inv Hs; [reflexivity| |].
  - intros e He. exists e. split_and!; try done. apply elem_of_app. by left.
  - intros x [Hx|[->|Hx]%elem_of_cons]%elem_of_app.
    + exists x. split_and!; try done. apply elem_of_app. by left.
    + exists e'. destruct H. split_and!; try done; [apply elem_of_app; right; left|].
      unfold IsTerminal. by apply status_step_terminal.
    + exists x. split_and!; try done. apply elem_of_app. right. by right.
Qed.

Lemma run_calls_app t cs1 cs2 :
  run_calls r max t (cs1 ++ cs2)
  = match run_calls r max t cs1 with Some t' => run_calls r max t' cs2 | None => None end.
Proof.
  revert t. induction cs1 as [|c cs1 IH]; intros t; simpl; [done|].
  destruct (run_call r max t c); [apply IH|done].
Qed.

(** The life cycle of executions. In every sequence of tracker calls, with
    any database failures, no call panics; ids stay unique and every row keeps
    a tenant, an organization and a status the table allows; no execution
    disappears or changes its identity, its owner or its creation time; and an
    execution that has reached a terminal status never becomes active again
    (it may only move to another terminal status). *)
Theorem tracker_lifecycle (t : Tracker) (cs : list call) :
  tracker_ok t ->
  exists t', run_calls r max t cs = Some t' /\ tracker_ok t' /\
    evolves (tr_store t) (tr_store t').
Proof.
  revert t. induction cs as [|c cs IH]; intros t Hok; simpl; [exists t; by split_and!|].
  pose proof (run_call_good t c Hok) as Hg. destruct Hg as (t1 & E & Hs & Hh).
  rewrite E. destruct (IH t1) as (t' & -> & Hok' & Hev).
  - split; [by eapply store_step_ok; [apply Hok|]|done].
  - exists t'. split_and!; [done..|]. etrans; [by eapply store_step_evolves|done].
Qed.

(** * The concurrency limit *)

Definition active_count (st : Store) (tenant : string) : Z :=
  Z.of_nat (length (List.filter (active_of tenant) st)).

Lemma active_count_step n st st' tenant :
  store_step n st st' ->
  active_count st' tenant <= active_count st tenant + (if decide (n = Some tenant) then 1 else 0).
Proof.
  unfold active_count. intros Hs. inv Hs.
  - destruct (decide _); lia.
  - rewrite List.filter_app, length_app. simpl. unfold active_of at 2.
    destruct (str_eqb (ex_TenantID row) tenant) eqn:E; simpl.
    + apply str_eqb_true in E as ->. rewrite decide_True by done. destruct (active_status _); simpl; lia.
    + destruct (decide _); lia.
  - rewrite !List.filter_app, !length_app. simpl. destruct H as [_ _ Ht _ _ _ _ _ Hst].
    assert (Ha : active_of tenant e' = true -> active_of tenant e = true).
    { unfold active_of. rewrite Ht. intros [-> Ha]%andb_true_iff. simpl. by eapply status_step_active. }
    destruct (active_of tenant e'), (active_of tenant e); simpl in *; try (by specialize (Ha eq_refl));
      destruct (decide _); lia.
Qed.

Lemma CountActive_exact st tenant :
  tenant <> "" -> CountActive r true st tenant = Ok (active_count st tenant).
Proof.
  intros Hne%str_eqb_false. unfold CountActive, in_scope, active_count. rewrite Hne. simpl.
  do 3 f_equal. apply List.filter_ext. intros e. unfold visible, active_of. simpl.
  destruct (str_eqb (ex_TenantID e) tenant); [|by rewrite andb_false_r].
  by rewrite !orb_true_r.
Qed.

Lemma run_call_limit t c t' tenant :
  tracker_ok t -> 0 < max -> tenant <> "" -> c_up c 0%nat = true ->
  run_call r max t c = Some t' ->
  active_count (tr_store t) tenant <= max -> active_count (tr_store t') tenant <= max.
Proof.
  intros Hok Hmax Hne Hup Hrun Hle.
  destruct (run_call_good t c Hok) as (t1 & E & Hs & _). rewrite Hrun in E. injection E as <-.
  apply (active_count_step _ _ _ tenant) in Hs. destruct (decide _) as [Hc|_]; [|lia].
  unfold run_call, creates in *. destruct (c_op c) as [nano rnd req| | | | | | | | | | ]; try done.
  injection Hc as <-. unfold StartExecution, admitted in Hrun.
  rewrite (proj2 (str_eqb_false _ _) Hne), (proj2 (Z.ltb_lt _ _) Hmax), Hup, CountActive_exact in Hrun by done.
  simpl in Hrun. destruct (Z.ltb_spec (active_count (tr_store t) (cr_TenantID req)) max); [lia|].
  simpl in Hrun. injection Hrun as <-. done.
Qed.

(** The concurrency limit. When calls run one at a time and the count query
    succeeds, a tenant never has more than the configured number of pending or
    running executions, whatever calls are made for it and for others. *)
Theorem concurrency_limit (t t' : Tracker) (cs : list call) (tenant : string) :
  tracker_ok t -> 0 < max -> tenant <> "" ->
  Forall (fun c => c_up c 0%nat = true) cs ->
  active_count (tr_store t) tenant <= max ->
  run_calls r max t cs = Some t' ->
  active_count (tr_store t') tenant <= max.
Proof.
  intros Hok Hmax Hne Hup. revert t Hok. induction Hup as [|c cs Hc _ IH]; intros t Hok Hle Hrun.
  - by injection Hrun as <-.
  - simpl in Hrun. destruct (run_call r max t c) as [t1|] eqn:E; [|done].
    apply (IH t1); [| |done].
    + destruct (run_call_good t c Hok) as (t2 & E2 & Hs & Hh). rewrite E in E2. injection E2 as <-.
      split; [by eapply store_step_ok; [apply Hok|]|done].
    + by eapply run_call_limit.
Qed.

(** * Pagination *)

Definition scope_of (req : ListExecutionsRequest) : option string :=
  let scopeOrg := if str_eqb (lr_OrgID req) "" then lr_TenantID req else lr_OrgID req in
  if str_eqb scopeOrg "" then None
  else Some (if str_eqb (lr_TenantID req) "" then scopeOrg else lr_TenantID req).

(** The rows a request matches. *)
Definition matching (st : Store) (req : ListExecutionsRequest) : list ExecutionStatus :=
  List.filter (fun e => visible (db_rls r) (scope_of req) e && list_filter req e) st.

Lemma List_up order st req :
  List r order true st req
  = Ok (limit_offset (lr_Limit req) (lr_Offset req) (order (matching st req)), Z.of_nat (length (matching st req))).
Proof.
  unfold List, matching, scope_of, in_scope.
  destruct (str_eqb (lr_OrgID req) "") eqn:Eo.
  - destruct (str_eqb (lr_TenantID req) "") eqn:Et; [done|]. by rewrite !Et.
  - rewrite !Eo. destruct (str_eqb (lr_TenantID req) "") eqn:Et; by rewrite ?Eo, ?Et.
Qed.

(** A client that follows [HasMore]: [fuel] bounds the number of requests, and each
    request has an order of its own. *)
Fixpoint pages (orders : nat -> list ExecutionStatus -> list ExecutionStatus) (fuel : nat) (tnow : Z) (st : Store) (req : ListExecutionsRequest) (offset : Z)
  : option (list ExecutionStatus) :=
  match fuel with
  | O => None
  | S fuel' =>
      match ListExecutions r (orders fuel') true tnow st
              (mkListExecutions (lr_ExecutionType req) (lr_Status req) (lr_TenantID req)
                 (lr_OrgID req) (lr_Limit req) offset) with
      | Err _ => None
      | Ok resp =>
          if lp_HasMore resp
          then rest ← pages orders fuel' tnow st req (offset + Z.of_nat (length (lp_Executions resp)));
               Some (lp_Executions resp ++ rest)
          else Some (lp_Executions resp)
      end
  end.

Lemma newest_sorted l :
  StronglySorted (fun a b => ex_CreatedAt b <= ex_CreatedAt a) (SliceStable newest_first l).
Proof.
  assert (H : StronglySorted (not_after newest_first) (SliceStable newest_first l)).
  { apply SliceStable_sorted; unfold not_after, newest_first; intros; lia. }
  revert H. generalize (SliceStable newest_first l). intros l'. induction 1 as [|x l' _ IH Hx];
    constructor; [done|]. eapply Forall_impl; [exact Hx|].
  unfold not_after, newest_first. intros y Hy%Z.ltb_ge. done.
Qed.

(** Rows of distinct times have one order. *)
Lemma newest_unique l1 l2 :
  l1 ≡ₚ l2 -> newest_ordered l1 -> newest_ordered l2 -> NoDup (ex_CreatedAt <$> l1) -> l1 = l2.
Proof.
  revert l2. induction l1 as [|a l1 IH]; intros l2 Hp H1 H2 Hn; [by apply Permutation_nil in Hp|].
  destruct l2 as [|b l2]; [by apply Permutation_sym, Permutation_nil in Hp|].
  apply StronglySorted_inv in H1 as [H1 Ha], H2 as [H2 Hb]. cbn in Hn. apply NoDup_cons in Hn as [Hna Hn].
  assert (Hab : a = b).
  { assert (Hina : a ∈ b :: l2) by (rewrite <- Hp; left). assert (Hinb : b ∈ a :: l1) by (rewrite Hp; left).
    apply elem_of_cons in Hina as [->|Hina]; [done|]. apply elem_of_cons in Hinb as [->|Hinb]; [done|].
    rewrite Forall_forall in Ha, Hb. specialize (Ha b Hinb). specialize (Hb a Hina). destruct Hna. apply list_elem_of_fmap. exists b. split; [lia|done]. }
  subst b. f_equal. apply IH; [by eapply Permutation_cons_inv|done..].
Qed.

Lemma page_limit_bounds l : 1 <= page_limit l <= 100.
Proof. unfold page_limit. repeat break_goal; lia. Qed.

Lemma ListExecutions_page order tnow st req :
  orders_newest order -> 0 <= lr_Offset req ->
  let all := order (matching st req) in
  let page := take (Z.to_nat (page_limit (lr_Limit req))) (drop (Z.to_nat (lr_Offset req)) all) in
  ListExecutions r order true tnow st req
  = Ok (mkListResponse (with_derived tnow <$> page) (Z.of_nat (length all))
          (page_limit (lr_Limit req)) (lr_Offset req)
          (lr_Offset req + Z.of_nat (length page) <? Z.of_nat (length all))).
Proof.
  intros Hor Ho all page. unfold ListExecutions. rewrite List_up. simpl. change (matching st _) with (matching st req).
  rewrite <- (Permutation_length (proj1 (Hor (matching st req)))). fold all.
  pose proof (page_limit_bounds (lr_Limit req)). unfold limit_offset.
  rewrite (proj2 (Z.ltb_lt 0 (page_limit _))) by lia.
  destruct (Z.ltb_spec 0 (lr_Offset req)); [done|].
  unfold page. replace (lr_Offset req) with 0 by lia. done.
Qed.

Lemma pages_from orders fuel tnow st req all : forall offset,
  (forall n, orders_newest (orders n)) -> (forall n, orders n (matching st req) = all) ->
  0 <= offset <= Z.of_nat (length all) ->
  (length all - Z.to_nat offset < fuel)%nat ->
  pages orders fuel tnow st req offset = Some (with_derived tnow <$> drop (Z.to_nat offset) all).
Proof.
  pose proof (page_limit_bounds (lr_Limit req)) as HL.
  induction fuel as [|fuel IH]; intros offset Hor Hall Ho Hf; [lia|]. simpl.
  rewrite ListExecutions_page by (simpl; auto; lia). cbn [lp_HasMore lp_Executions lr_Limit lr_Offset].
  change (matching st _) with (matching st req). rewrite Hall.
  set (n := Z.to_nat (page_limit (lr_Limit req))).
  assert (Hn : (1 <= n)%nat) by lia.
  rewrite length_fmap, length_take, length_drop.
  destruct (Z.ltb_spec (offset + Z.of_nat (n `min` (length all - Z.to_nat offset))) (Z.of_nat (length all))).
  - rewrite IH by (auto; lia). simpl. rewrite <- fmap_app.
    replace (Z.to_nat (offset + Z.of_nat (n `min` (length all - Z.to_nat offset))))
      with (Z.to_nat offset + n)%nat by lia.
    rewrite <- drop_drop, take_drop. done.
  - rewrite take_ge; [done|]. rewrite length_drop. lia.
Qed.

(** C39: Pagination terminates and is complete, on a table that stays as it is from the
    first page to the last and whose matching executions have distinct creation times.
    A client that asks for page after page while the answer says there is more, at any
    page size it likes, receives every matching execution exactly once, newest first,
    after at most one request per execution plus one, in whatever order the database
    returns rows of one time; each page has at most 100 entries. *)
Theorem pagination_complete (orders : nat -> list ExecutionStatus -> list ExecutionStatus) (tnow : Z) (st : Store) (req : ListExecutionsRequest) :
  (forall n, orders_newest (orders n)) -> NoDup (ex_CreatedAt <$> matching st req) ->
  (exists all : list ExecutionStatus,
     pages orders (S (length st)) tnow st req 0 = Some (with_derived tnow <$> all) /\
     all ≡ₚ List.filter (fun e => visible (db_rls r) (scope_of req) e && list_filter req e) st /\
     StronglySorted (fun a b => ex_CreatedAt b <= ex_CreatedAt a) all) /\
  (forall n resp, ListExecutions r (orders n) true tnow st req = Ok resp -> (length (lp_Executions resp) <= 100)%nat).
Proof.
  intros Hor Hnd. split.
  - destruct (Hor 0%nat (matching st req)) as [Hp Hs]. exists (orders 0%nat (matching st req)). split_and!; [|done|done].
    rewrite (pages_from orders _ tnow st req (orders 0%nat (matching st req))); [done|done| |lia|].
    + intros n. destruct (Hor n (matching st req)) as [Hp' Hs']. apply newest_unique; [by rewrite Hp', Hp|done|done|].
      rewrite (Permutation_map ex_CreatedAt Hp'). done.
    + rewrite (Permutation_length Hp). unfold matching.
      match goal with |- context [List.filter ?f ?l] => pose proof (List.filter_length_le f l) end. lia.
  - intros n. unfold ListExecutions. rewrite List_up. intros resp [= <-]. simpl.
    pose proof (page_limit_bounds (lr_Limit req)). rewrite length_fmap. unfold limit_offset.
    rewrite (proj2 (Z.ltb_lt 0 (page_limit _))) by lia. rewrite length_take. lia.
Qed.

(** * Retention *)

Lemma take_ids_sorted (l : list ExecutionStatus) k a b :
  StronglySorted (fun a b => ex_CreatedAt b <= ex_CreatedAt a) l ->
  a ∈ take k l -> b ∈ drop k l -> ex_CreatedAt b <= ex_CreatedAt a.
Proof.
  intros Hs Ha Hb. rewrite <- (take_drop k l) in Hs.
  apply (StronglySorted_app_1_elem_of _ _ _ a b Hs Ha Hb).
Qed.

Lemma tenant_visible rls tenant e :
  ex_TenantID e = tenant -> visible rls (Some tenant) e = true.
Proof. unfold visible. intros ->. by rewrite str_eqb_refl, orb_true_r. Qed.

(** The rows of one tenant, newest first. *)
Definition tenant_rows (st : Store) (tenant : string) : list ExecutionStatus :=
  SliceStable newest_first (List.filter (fun e => str_eqb (ex_TenantID e) tenant) st).

Lemma kept_eq st tenant k : kept r st tenant k = take (Z.to_nat k) (tenant_rows st tenant).
Proof.
  unfold kept, tenant_rows. do 2 f_equal. apply List.filter_ext. intros e.
  destruct (str_eqb (ex_TenantID e) tenant) eqn:E; [|by rewrite andb_false_r].
  apply str_eqb_true in E. by rewrite (tenant_visible _ _ _ E).
Qed.

Lemma tenant_rows_perm st tenant :
  tenant_rows st tenant ≡ₚ List.filter (fun e => str_eqb (ex_TenantID e) tenant) st.
Proof. apply SliceStable_perm. Qed.

Lemma tenant_rows_sorted st tenant :
  StronglySorted (fun a b => ex_CreatedAt b <= ex_CreatedAt a) (tenant_rows st tenant).
Proof. apply newest_sorted. Qed.

Lemma store_NoDup st : store_ok st -> NoDup st.
Proof. intros Hok. eapply NoDup_fmap_1, Hok. Qed.

Lemma NoDup_filter_bool {A} (p : A -> bool) l : NoDup l -> NoDup (List.filter p l).
Proof. intros H. by apply NoDup_ListNoDup, List.NoDup_filter, NoDup_ListNoDup. Qed.

Lemma filter_absorb {A} (p q : A -> bool) l :
  (forall x, q x = true -> p x = true) -> List.filter q (List.filter p l) = List.filter q l.
Proof.
  intros H. induction l as [|x l IH]; simpl; [done|].
  destruct (p x) eqn:Ep; simpl; destruct (q x) eqn:Eq; rewrite ?IH; try done.
  apply H in Eq. congruence.
Qed.

Lemma tenant_rows_elem st tenant e :
  e ∈ tenant_rows st tenant <-> e ∈ st /\ ex_TenantID e = tenant.
Proof. by rewrite tenant_rows_perm, elem_of_filter_bool, str_eqb_true. Qed.

Lemma tenant_rows_split st tenant k :
  store_ok st ->
  NoDup (take k (tenant_rows st tenant)) /\ NoDup (drop k (tenant_rows st tenant)) /\
  (forall e, e ∈ take k (tenant_rows st tenant) -> e ∉ drop k (tenant_rows st tenant)) /\
  (forall e, e ∈ tenant_rows st tenant <->
     e ∈ take k (tenant_rows st tenant) \/ e ∈ drop k (tenant_rows st tenant)).
Proof.
  intros Hok. assert (Hnd : NoDup (tenant_rows st tenant)).
  { rewrite tenant_rows_perm. by apply NoDup_filter_bool, store_NoDup. }
  rewrite <- (take_drop k (tenant_rows st tenant)) in Hnd.
  apply NoDup_app in Hnd as (H1 & Hdis & H2). split_and!; [done..|].
  intros e. by rewrite <- elem_of_app, take_drop.
Qed.

(** The condition of the DELETE. *)
Definition doomed (st : Store) (tenant : string) (k : Z) (e : ExecutionStatus) : bool :=
  visible (db_rls r) (Some tenant) e && str_eqb (ex_TenantID e) tenant
  && negb (str_in (ex_ExecutionID e) (ex_ExecutionID <$> kept r st tenant k)).

Lemma doomed_iff st tenant k e :
  store_ok st -> e ∈ st ->
  doomed st tenant k e = true <-> e ∈ drop (Z.to_nat k) (tenant_rows st tenant).
Proof.
  intros Hok He. unfold doomed. rewrite kept_eq.
  destruct (tenant_rows_split st tenant (Z.to_nat k) Hok) as (_ & _ & Hdis & Hsplit).
  rewrite !andb_true_iff, negb_true_iff, str_eqb_true. split.
  - intros [[_ Ht] Hn]. destruct (proj1 (Hsplit e)) as [Hin|]; [by apply tenant_rows_elem| |done].
    apply not_true_iff_false in Hn. destruct Hn. apply str_in_true. by apply list_elem_of_fmap_2.
  - intros Hd. assert (Ht : ex_TenantID e = tenant) by (apply (tenant_rows_elem st), Hsplit; by right).
    split_and!; [by apply tenant_visible|done|].
    apply not_true_iff_false. intros Hi. apply str_in_true, list_elem_of_fmap in Hi as (x & Hx & Hxin).
    apply (Hdis x); [done|]. replace x with e; [done|].
    eapply unique_row; [done..| |done]. apply (tenant_rows_elem st tenant), Hsplit. by left.
Qed.

(** Retention. Purging a tenant's history to [k] records deletes exactly the
    records beyond its [k] newest: it reports how many, keeps the [k] newest (no
    deleted record is newer than a kept one), and leaves the records of every
    other tenant as they were. *)
Theorem purge_retention (st : Store) (org tenant : string) (k : Z) :
  store_ok st -> org <> "" -> tenant <> "" -> 0 <= k ->
  exists st',
    PurgeOldest r true st org tenant k
    = Ok (Z.of_nat (length (tenant_rows st tenant) - Z.to_nat k), st') /\
    tenant_rows st' tenant ≡ₚ take (Z.to_nat k) (tenant_rows st tenant) /\
    (forall a b, a ∈ tenant_rows st' tenant -> b ∈ tenant_rows st tenant ->
       b ∉ tenant_rows st' tenant -> ex_CreatedAt b <= ex_CreatedAt a) /\
    (forall other, other <> tenant -> tenant_rows st' other = tenant_rows st other).
Proof.
  intros Hok Ho%str_eqb_false Ht%str_eqb_false Hk.
  destruct (tenant_rows_split st tenant (Z.to_nat k) Hok) as (Hnt & Hnd & Hdis & Hsplit).
  unfold PurgeOldest, in_scope. rewrite Ho, Ht. simpl.
  destruct (Z.ltb_spec k 0); [lia|]. fold (doomed st tenant k).
  set (st' := List.filter (fun e => negb (doomed st tenant k e)) st).
  assert (Hp : tenant_rows st' tenant ≡ₚ take (Z.to_nat k) (tenant_rows st tenant)).
  { apply NoDup_Permutation; [|done|].
    - rewrite tenant_rows_perm. by apply NoDup_filter_bool, NoDup_filter_bool, store_NoDup.
    - intros e. rewrite tenant_rows_elem. unfold st'. rewrite elem_of_filter_bool, negb_true_iff.
      rewrite <- not_true_iff_false. split.
      + intros [[He Hn] Hte]. destruct (proj1 (Hsplit e)) as [|Hd]; [by apply tenant_rows_elem|done|].
        destruct Hn. by apply doomed_iff.
      + intros Hin. assert (He : e ∈ tenant_rows st tenant) by (apply Hsplit; by left).
        apply tenant_rows_elem in He as [He Hte]. split_and!; [done| |done].
        rewrite doomed_iff by done. by apply Hdis. }
  exists st'. split_and!; [|done| |].
  - do 3 f_equal. rewrite <- length_drop. apply Permutation_length, NoDup_Permutation; [|done|].
    + by apply NoDup_filter_bool, store_NoDup.
    + intros e. rewrite elem_of_filter_bool. split; [intros [He Hd]; by apply doomed_iff in Hd|].
      intros Hd. assert (He : e ∈ st) by (apply (tenant_rows_elem st tenant), Hsplit; by right).
      split; [done|]. by apply doomed_iff.
  - intros a b. rewrite Hp. intros Ha Hb Hnb. eapply take_ids_sorted; [apply tenant_rows_sorted|exact Ha|].
    apply Hsplit in Hb as [?|?]; [done|done].
  - intros other Hne. unfold tenant_rows, st'. f_equal. apply filter_absorb.
    intros e He%str_eqb_true. unfold doomed. rewrite He, (proj2 (str_eqb_false _ _) Hne).
    by rewrite andb_false_r.
Qed.

(** * Steps *)

Lemma step_same_status (l l' : list StepStatus) :
  Forall2 step_same l l' -> st_Status <$> l' = st_Status <$> l.
Proof. induction 1 as [|s s' l l' (_ & _ & Hs & _) _ IH]; [done|]. by rewrite !fmap_cons, Hs, IH. Qed.

Lemma modify_step_status id f l s i :
  find_index (fun s => str_eqb (st_StepID s) id) l = Some i ->
  (forall x, st_Status (f x) = s) ->
  st_Status <$> modify_step id f l = <[i := s]> (st_Status <$> l).
Proof.
  intros Hi Hf. revert i Hi. induction l as [|x l IH]; simpl; intros i Hi; [done|].
  destruct (str_eqb (st_StepID x) id); [simplify_eq; simpl; by rewrite Hf|].
  destruct (find_index _ l) as [j|]; simplify_eq/=. f_equal. by apply IH.
Qed.

Lemma complete_step_status now res x : st_Status (complete_step now res x) = StepStatusCompleted.
Proof. unfold complete_step. by destruct res. Qed.

(** Completing a step that exists sets the status of the first step with that id
    to completed in the stored record, leaves every other step's status, and the
    total is the number of steps. *)
Lemma CompleteStep_effect `{!ExecDatabaseLaws D} up now dbnow t t' id stepID res e i :
  store_ok (tr_store t) -> Get r (up 0%nat) (tr_store t) id = Ok e ->
  find_index (fun s => str_eqb (st_StepID s) stepID) (ex_Steps e) = Some i ->
  CompleteStep r up now dbnow t id stepID res = Some (t', Ok tt) ->
  exists e', e' ∈ tr_store t' /\ ex_ExecutionID e' = id /\ ex_Status e' = ex_Status e /\
    st_Status <$> ex_Steps e' = <[i := StepStatusCompleted]> (st_Status <$> ex_Steps e) /\
    ex_TotalSteps e' = Z.of_nat (length (ex_Steps e)).
Proof.
  intros Hok Hg Hi H. unfold CompleteStep, with_execution in H. rewrite Hg in H.
  apply Get_spec in Hg as [He Hid].
  set (steps := modify_step stepID (complete_step now res) (ex_Steps e)) in H.
  destruct (write_steps _ _ _ _ _ _ _) as [st|?] eqn:Ew; [|done]. simpl in H.
  destruct (publishEvent r _ _ _ _) as [t1|] eqn:Ep; [|done]. injection H as <-.
  assert (tr_store t1 = st) as ->.
  { unfold publishEvent in Ep. simpl in Ep. repeat break; simplify_eq; done. }
  unfold write_steps, UpdateSteps in Ew. scoped Ew.
  destruct (update_row_spec _ _ _ _ _ _ (ids_unique _ Hok) Ew)
    as (st1 & x & st2 & x' & Hst & Hx & _ & [= <-] & _ & ->).
  assert (x = e) as ->.
  { eapply unique_row; [done| |done|congruence]. rewrite Hst. apply elem_of_app. right. left. }
  eexists. split; [apply elem_of_app; right; left|]. simpl. split_and!; [done|done| |].
  - match goal with E : steps_column _ = Some _ |- _ => apply steps_roundtrip, step_same_status in E as -> end.
    apply modify_step_status; [done|]. intros y. apply complete_step_status.
  - f_equal. unfold steps. clear. induction (ex_Steps e) as [|y l IH]; simpl; [done|].
    destruct (str_eqb _ _); simpl; congruence.
Qed.

(** * Tenant isolation *)

(** The writes of the repository that name an execution and a tenant. *)
Inductive scoped_write :=
| WStatus (status : string) (completed : option Z) (msg : string)
| WSteps (steps : list StepStatus)
| WCost (est act : option float64)
| WDelete
| WExpire (now : Z).

Definition run_write (up : bool) (dbnow : Z) (st : Store) (org tenant id : string) (w : scoped_write)
  : result exec_error Store :=
  match w with
  | WStatus s c m => UpdateStatus r up dbnow st org tenant id s c m
  | WSteps l => UpdateSteps r up dbnow st org tenant id l
  | WCost est act => UpdateCost r up dbnow st org tenant id est act
  | WDelete => Delete r up st org tenant id
  | WExpire now => ExpireExecution r up dbnow now st org tenant id
  end.

Lemma foreign_invisible st e tenant id :
  db_rls r = true -> store_ok st -> e ∈ st -> ex_ExecutionID e = id -> ex_TenantID e <> tenant ->
  Forall (fun x => has_id id x && visible (db_rls r) (Some tenant) x = false) st.
Proof.
  intros Hr Hok He Hid Hne. apply Forall_forall. intros x Hx.
  destruct (has_id id x) eqn:Ex; [|done]. apply has_id_true in Ex.
  assert (x = e) as -> by (eapply unique_row; [done..|congruence]).
  destruct (proj1 (Forall_forall _ _) (rows_ok _ Hok) e He) as (Ht & _).
  unfold visible. rewrite Hr. simpl. apply orb_false_iff. split; by apply str_eqb_false.
Qed.

Lemma update_row_foreign tenant id f st e :
  db_rls r = true -> store_ok st -> e ∈ st -> ex_ExecutionID e = id -> ex_TenantID e <> tenant ->
  update_row (db_rls r) tenant id f st = Err ErrExecutionNotFound.
Proof.
  intros Hr Hok He Hid Hne. unfold update_row.
  by rewrite (proj2 (find_first_None _ _) (foreign_invisible _ _ _ _ Hr Hok He Hid Hne)).
Qed.

(** Tenant isolation of execution history. Under row-level security no
    status, step, cost, expiry or delete statement issued in the scope of one
    tenant succeeds on an execution of another, and without a cross-organization
    lookup pool no execution can be read by its id at all; with one, every
    execution can. *)
Theorem execution_isolation (st : Store) (e : ExecutionStatus) :
  db_rls r = true -> store_ok st -> e ∈ st ->
  (forall up dbnow org tenant w, ex_TenantID e <> tenant ->
     is_ok (run_write up dbnow st org tenant (ex_ExecutionID e) w) = false) /\
  (lookupDB r = None -> Get r true st (ex_ExecutionID e) = Err ErrExecutionNotFound) /\
  (lookupDB r = Some false -> Get r true st (ex_ExecutionID e) = Ok e).
Proof.
  intros Hr Hok He. split_and!.
  - intros up dbnow org tenant w Hne.
    pose proof (fun f => update_row_foreign tenant _ f _ _ Hr Hok He eq_refl Hne) as Hu.
    pose proof (foreign_invisible st e tenant _ Hr Hok He eq_refl Hne) as Hf.
    destruct w; simpl; unfold UpdateStatus, UpdateSteps, UpdateCost, Delete, ExpireExecution, in_scope;
      repeat (break_goal; try done); rewrite ?Hu in *; simplify_eq; try done.
    match goal with E : existsb _ _ = true |- _ => apply existsb_In in E as (x & Hx & Hp) end. rewrite Forall_forall in Hf. by rewrite Hf in Hp.
  - intros Hl. unfold Get, lookup_rls. rewrite Hl, Hr. simpl.
    destruct (find_first _ st) as [x|] eqn:E; [|done].
    apply find_first_Some in E as [Hx Hp]. apply andb_true_iff in Hp as [_ Hv].
    destruct (proj1 (Forall_forall _ _) (rows_ok _ Hok) x Hx) as (Ht%str_eqb_false & _).
    unfold visible in Hv. simpl in Hv. by rewrite Ht in Hv.
  - intros Hl. unfold Get, lookup_rls. rewrite Hl. simpl.
    destruct (find_first _ st) as [x|] eqn:E.
    + apply find_first_Some in E as [Hx Hp]. apply andb_true_iff in Hp as [Hid%has_id_true _].
      f_equal. by eapply unique_row.
    + rewrite find_first_None, Forall_forall in E. specialize (E e He).
      by rewrite (proj2 (has_id_true _ e) eq_refl) in E.
Qed.

End Facts.

(** * Concrete runs *)

(** A database that stores every document and number as it is. *)
Definition plain_db : ExecDatabase := {|
  steps_column := Some; metadata_column := Some; decimal_column := Some;
  jsonb_text v := match v with VString s => Some s | _ => None end |}.

Definition plain_db_laws : ExecDatabaseLaws plain_db.
Proof. constructor. intros l l' [= <-]. induction l; constructor; [by repeat split|done]. Qed.

#[local] Existing Instance plain_db.

Definition app_repo : PostgresRepository := mkRepo true (Some false).
Definition ex_req (tenant : string) : CreateExecutionRequest :=
  mkCreateExecution ExecutionTypeWCP "nightly" "langchain" 2 [] tenant tenant "u1" "c1".
Definition all_up : nat -> bool := fun _ => true.
Definition ex_call (now : Z) (op : tracker_op) : call := mkCall all_up now now op.
Definition t_empty : Tracker := mkTrackerState [] (Some NewEventHub).

Lemma t_empty_ok : tracker_ok t_empty.
Proof. split; [by split; constructor|]. apply new_hub_ok. Qed.

Definition ex_calls : list call :=
  [ex_call 1 (OpStart 0 (Some [1]) (ex_req "t1")); ex_call 2 (OpStartStep "wf_01" "s1");
   ex_call 3 (OpCancel "wf_01" "stop"); ex_call 4 (OpStart 0 (Some [2]) (ex_req "t1"));
   ex_call 5 (OpComplete "wf_01"); ex_call 6 (OpStart 0 (Some [3]) (ex_req "t1"))].

Definition statuses (t : option Tracker) : option (list (string * string)) :=
  (fun t => (fun e => (ex_ExecutionID e, ex_Status e)) <$> tr_store t) <$> t.

(** With a limit of one, the third start is refused: the second execution is
    still pending. *)
Example ex_run :
  statuses (run_calls app_repo 1 t_empty ex_calls)
  = Some [("wf_01", "completed"); ("wf_02", "pending")].
Proof. vm_compute. reflexivity. Qed.

Lemma tracker_lifecycle_witness :
  exists t', run_calls app_repo 1 t_empty ex_calls = Some t' /\ tracker_ok t' /\
    evolves [] (tr_store t').
Proof. apply (tracker_lifecycle app_repo 1 t_empty ex_calls t_empty_ok). Defined.

Definition t_final : Tracker := default t_empty (run_calls app_repo 1 t_empty ex_calls).

Lemma concurrency_limit_witness : active_count (tr_store t_final) "t1" <= 1.
Proof.
  apply (concurrency_limit app_repo 1 t_empty t_final ex_calls "t1" t_empty_ok);
    [lia|done|by repeat constructor|by vm_compute|vm_compute; reflexivity].
Defined.

Definition ex_row (id tenant : string) (created : Z) : ExecutionStatus :=
  new_execution created id (ex_req tenant).
Definition ex_store : Store := [ex_row "a" "t1" 1; ex_row "b" "t2" 2; ex_row "c" "t1" 3; ex_row "d" "t1" 2].

Lemma ex_store_ok : store_ok ex_store.
Proof.
  split.
  - apply (bool_decide_unpack _). vm_compute. exact I.
  - repeat constructor; simpl; try done; vm_compute; reflexivity.
Qed.

Lemma purge_retention_witness :
  exists st', PurgeOldest app_repo true ex_store "o" "t1" 2 = Ok (1, st') /\
    tenant_rows st' "t1" ≡ₚ [ex_row "c" "t1" 3; ex_row "d" "t1" 2].
Proof.
  destruct (purge_retention app_repo ex_store "o" "t1" 2 ex_store_ok) as (st' & H1 & H2 & _);
    [done|done|lia|]. exists st'. split; [exact H1|exact H2].
Defined.

Lemma stable_orders_newest : orders_newest (SliceStable newest_first).
Proof. intros l. split; [apply SliceStable_perm|apply newest_sorted]. Qed.

Definition t1_pages (limit : Z) : ListExecutionsRequest := mkListExecutions None None "t1" "t1" limit 0.

Lemma pagination_complete_witness :
  exists all, pages app_repo (fun _ => SliceStable newest_first) 5 0 ex_store (t1_pages 1) 0 = Some (with_derived 0 <$> all) /\
    all ≡ₚ List.filter (fun e => visible true (Some "t1") e && list_filter (t1_pages 1) e) ex_store.
Proof.
  destruct (pagination_complete app_repo (fun _ => SliceStable newest_first) 0 ex_store (t1_pages 1)) as [(all & Hp & Ha & _) _].
  - intros _. exact stable_orders_newest.
  - by apply (bool_decide_unpack _); vm_compute.
  - exists all. split; [exact Hp|exact Ha].
Defined.

(** The query has no order among rows of one time: one that returns them this way for
    one page and that way for the next gives an execution twice and another never. *)
Example tied_pages_repeat :
  let st := [ex_row "a" "t1" 1; ex_row "b" "t1" 1] in
  let orders (n : nat) l := if (n =? 2)%nat then SliceStable newest_first l else SliceStable newest_first (reverse l) in
  option_map (map ex_ExecutionID) (pages app_repo orders 3 0 st (t1_pages 1) 0) = Some ["a"; "a"].
Proof. vm_compute. reflexivity. Qed.

Lemma execution_isolation_witness :
  Get app_repo true ex_store "a" = Ok (ex_row "a" "t1" 1) /\
  is_ok (run_write app_repo true 9 ex_store "t2" "t2" "a" WDelete) = false.
Proof.
  destruct (execution_isolation app_repo ex_store (ex_row "a" "t1" 1)) as (Hw & _ & Hg);
    [done|exact ex_store_ok|left|]. split; [by apply Hg|by apply Hw].
Defined.

(** * Interleavings *)

(** Two starts that pass the admission check before either inserts: the tenant
    ends up above its limit. *)
Example start_race_exceeds_limit :
  admitted app_repo 1 true [] "t1" = true /\
  match StartExecution_create app_repo all_up 1 "wf_01" t_empty (ex_req "t1") with
  | Some (t1, _) =>
      match StartExecution_create app_repo all_up 1 "wf_02" t1 (ex_req "t1") with
      | Some (t2, _) => active_count (tr_store t2) "t1" = 2
      | None => False
      end
  | None => False
  end.
Proof. split; vm_compute; reflexivity. Qed.

(** StartStep writes the whole record it read: an execution that completes
    between its read and its write is running again, with no completion time. *)
Example stale_start_revives :
  let t := mkTrackerState [ex_row "a" "t1" 1] None in
  match Get app_repo true (tr_store t) "a" with
  | Ok stale =>
      match CompleteExecution app_repo all_up 2 2 t "a" with
      | Some (t1, Ok tt) =>
          match StartStep_write app_repo all_up 3 3 t1 "a" "s1" stale with
          | Some (t2, Ok tt) =>
              map ex_Status (tr_store t1) = [StatusCompleted] /\
              map ex_Status (tr_store t2) = [StatusRunning] /\
              map ex_CompletedAt (tr_store t2) = [None]
          | _ => False
          end
      | _ => False
      end
  | Err _ => False
  end.
Proof. vm_compute. done. Qed.

(** A terminal execution accepts another terminal status: a cancelled execution
    can be completed. *)
Example cancelled_then_completed :
  statuses (run_calls app_repo 0 t_empty
    [ex_call 1 (OpStart 0 (Some [1]) (ex_req "t1")); ex_call 2 (OpCancel "wf_01" "stop");
     ex_call 3 (OpComplete "wf_01")]) = Some [("wf_01", "completed")].
Proof. vm_compute. reflexivity. Qed.
