(* ===== verification/CostPricing.v ===== *)
(** Model prices (platform/orchestrator/cost/pricing.go): the default table, its
    merge with a custom configuration, and the cost of a request.

    A price is the float64 nearest to the decimal literal of the source. The
    decoding of a custom configuration is encoding/json's: [None] is its error. *)

From S2P Require Import Prelude GoFloat GoStrings.

Local Open Scope Z_scope.

Record ModelPricing := mkPricing { InputPer1K : float64; OutputPer1K : float64 }.

Abbreviation PricingConfig := (gmap string (gmap string ModelPricing)).

(** [per1k n d n' d']: input price n/d, output price n'/d'. *)
Definition per1k (n d n' d' : Z) : ModelPricing := mkPricing (f64_lit n d) (f64_lit n' d').

Definition default_table : list (string * list (string * ModelPricing)) :=
  [("anthropic",
    [("claude-opus-4", per1k 15 1000 75 1000);
     ("claude-opus-4-20250514", per1k 15 1000 75 1000);
     ("claude-sonnet-4", per1k 3 1000 15 1000);
     ("claude-sonnet-4-20250514", per1k 3 1000 15 1000);
     ("claude-haiku-4-5-20251001", per1k 8 10000 4 1000);
     ("claude-sonnet-4-5-20250929", per1k 3 1000 15 1000);
     ("claude-opus-4-1-20250805", per1k 15 1000 75 1000);
     ("claude-haiku-4.5", per1k 8 10000 4 1000);
     ("claude-3-5-sonnet", per1k 3 1000 15 1000);
     ("claude-3-5-sonnet-20241022", per1k 3 1000 15 1000);
     ("claude-3-5-haiku", per1k 8 10000 4 1000);
     ("claude-3-5-haiku-20241022", per1k 8 10000 4 1000);
     ("claude-3-opus", per1k 15 1000 75 1000);
     ("claude-3-opus-20240229", per1k 15 1000 75 1000);
     ("claude-3-sonnet", per1k 3 1000 15 1000);
     ("claude-3-sonnet-20240229", per1k 3 1000 15 1000);
     ("claude-3-haiku", per1k 25 100000 125 100000);
     ("claude-3-haiku-20240307", per1k 25 100000 125 100000);
     ("*", per1k 3 1000 15 1000)]);
   ("openai",
    [("gpt-4o", per1k 25 10000 1 100);
     ("gpt-4o-2024-11-20", per1k 25 10000 1 100);
     ("gpt-4o-mini", per1k 15 100000 6 10000);
     ("gpt-4o-mini-2024-07-18", per1k 15 100000 6 10000);
     ("gpt-4-turbo", per1k 1 100 3 100);
     ("gpt-4-turbo-preview", per1k 1 100 3 100);
     ("gpt-4-turbo-2024-04-09", per1k 1 100 3 100);
     ("gpt-4", per1k 3 100 6 100);
     ("gpt-4-32k", per1k 6 100 12 100);
     ("gpt-3.5-turbo", per1k 5 10000 15 10000);
     ("gpt-3.5-turbo-0125", per1k 5 10000 15 10000);
     ("o1-preview", per1k 15 1000 6 100);
     ("o1-mini", per1k 3 1000 12 1000);
     ("*", per1k 1 100 3 100)]);
   ("google",
    [("gemini-2.0-flash", per1k 1 10000 4 10000);
     ("gemini-2.0-flash-exp", per1k 0 1 0 1);
     ("gemini-1.5-pro", per1k 125 100000 5 1000);
     ("gemini-1.5-pro-002", per1k 125 100000 5 1000);
     ("gemini-1.5-flash", per1k 75 1000000 3 10000);
     ("gemini-1.5-flash-002", per1k 75 1000000 3 10000);
     ("gemini-1.5-flash-8b", per1k 375 10000000 15 100000);
     ("gemini-pro", per1k 5 10000 15 10000);
     ("gemini-1.0-pro", per1k 5 10000 15 10000);
     ("*", per1k 1 1000 4 1000)]);
   ("azure",
    [("gpt-4o", per1k 25 10000 1 100);
     ("gpt-4o-mini", per1k 15 100000 6 10000);
     ("gpt-4-turbo", per1k 1 100 3 100);
     ("gpt-4", per1k 3 100 6 100);
     ("gpt-35-turbo", per1k 5 10000 15 10000);
     ("*", per1k 1 100 3 100)]);
   ("bedrock",
    [("anthropic.claude-sonnet-4-20250514-v1:0", per1k 3 1000 15 1000);
     ("anthropic.claude-opus-4-20250514-v1:0", per1k 15 1000 75 1000);
     ("anthropic.claude-haiku-4-5-20251001-v1:0", per1k 8 10000 4 1000);
     ("us.anthropic.claude-haiku-4-5-20251001-v1:0", per1k 8 10000 4 1000);
     ("us.anthropic.claude-sonnet-4-5-20250929-v1:0", per1k 3 1000 15 1000);
     ("anthropic.claude-3-opus-20240229-v1:0", per1k 15 1000 75 1000);
     ("anthropic.claude-3-sonnet-20240229-v1:0", per1k 3 1000 15 1000);
     ("anthropic.claude-3-haiku-20240307-v1:0", per1k 25 100000 125 100000);
     ("anthropic.claude-3-5-sonnet-20240620-v1:0", per1k 3 1000 15 1000);
     ("anthropic.claude-3-5-sonnet-20241022-v2:0", per1k 3 1000 15 1000);
     ("amazon.titan-text-express-v1", per1k 2 10000 6 10000);
     ("amazon.titan-text-lite-v1", per1k 15 100000 2 10000);
     ("meta.llama3-8b-instruct-v1:0", per1k 3 10000 6 10000);
     ("meta.llama3-70b-instruct-v1:0", per1k 265 100000 35 10000);
     ("*", per1k 3 1000 15 1000)]);
   ("ollama",
    [("*", per1k 0 1 0 1)]);
   ("local",
    [("*", per1k 0 1 0 1)]);
   ("cohere",
    [("command-r-plus", per1k 3 1000 15 1000);
     ("command-r", per1k 5 10000 15 10000);
     ("command", per1k 1 1000 2 1000);
     ("*", per1k 1 1000 2 1000)]);
   ("mistral",
    [("mistral-large-latest", per1k 2 1000 6 1000);
     ("mistral-medium-latest", per1k 265 100000 8 1000);
     ("mistral-small-latest", per1k 1 1000 3 1000);
     ("mistral-7b-instruct", per1k 25 100000 25 100000);
     ("mixtral-8x7b-instruct", per1k 7 10000 7 10000);
     ("*", per1k 2 1000 6 1000)])].

Definition DefaultPricing : PricingConfig :=
  list_to_map ((fun p => (p.1, list_to_map p.2)) <$> default_table).

Section Pricing.
Context `{U : Unicode}.

(** [copyProviders] makes a deep copy, so a configuration never shares a map
    with the defaults. *)
Definition NewPricingConfig : PricingConfig := DefaultPricing.

Definition merge_pricing (config custom : PricingConfig) : PricingConfig :=
  union_with (fun old new => Some (new ∪ old)) config custom.

(** [custom] is the decoded variable, when it is set and decodes. *)
Definition LoadPricingFromEnv (custom : option PricingConfig) : PricingConfig :=
  match custom with
  | Some c => merge_pricing NewPricingConfig c
  | None => NewPricingConfig
  end.

Definition LoadPricingFromFile (file custom : option PricingConfig) : option PricingConfig :=
  match file, custom with
  | Some _, Some c => Some (merge_pricing NewPricingConfig c)
  | _, _ => None
  end.

(** Exact name, then lower case, then the provider's wildcard. *)
Definition find_pricing (models : gmap string ModelPricing) (model : string) : option ModelPricing :=
  match models !! model with
  | Some p => Some p
  | None => match models !! ToLower model with
            | Some p => Some p
            | None => models !! "*"
            end
  end.

Definition token_cost (tokens : Z) (per : float64) : float64 :=
  f64_mul (f64_div (f64_of_Z tokens) (f64_of_Z 1000)) per.

Definition CalculateCost (p : PricingConfig) (provider model : string) (tokensIn tokensOut : Z)
  : float64 :=
  match p !! ToLower provider with
  | None => f64_zero
  | Some models =>
      match find_pricing models model with
      | None => f64_zero
      | Some mp => f64_add (token_cost tokensIn (InputPer1K mp)) (token_cost tokensOut (OutputPer1K mp))
      end
  end.

(** Exact name, then the wildcard: the lower-case name is not tried. *)
Definition GetModelPricing (p : PricingConfig) (provider model : string) : option ModelPricing :=
  match p !! ToLower provider with
  | None => None
  | Some models => match models !! model with Some mp => Some mp | None => models !! "*" end
  end.

Definition SetModelPricing (p : PricingConfig) (provider model : string) (pricing : ModelPricing)
  : PricingConfig :=
  let provider := ToLower provider in
  <[provider := <[model := pricing]> (default ∅ (p !! provider))]> p.

Definition ListModels (p : PricingConfig) (provider : string) : list string :=
  match p !! ToLower provider with
  | None => []
  | Some models => List.filter (fun m => negb (str_eqb m "*")) ((map_to_list models).*1)
  end.

(** * Lemmas *)

(** A custom entry wins; every other default entry stays. *)
Lemma merge_pricing_lookup config custom provider model :
  merge_pricing config custom !! provider ≫= (.!! model)
  = match custom !! provider ≫= (.!! model) with
    | Some p => Some p
    | None => config !! provider ≫= (.!! model)
    end.
Proof.
  unfold merge_pricing. rewrite lookup_union_with.
  destruct (config !! provider) as [a|] eqn:Ea, (custom !! provider) as [b|] eqn:Eb; simpl; try done.
  - rewrite lookup_union. by destruct (b !! model), (a !! model).
  - by destruct (b !! model).
Qed.

(** The advertised price is the charged one for a model known under its exact
    name, or unknown in lower case too. *)
Lemma advertised_price p provider models model :
  p !! ToLower provider = Some models ->
  is_Some (models !! model) \/ models !! ToLower model = None ->
  GetModelPricing p provider model = find_pricing models model.
Proof.
  intros Hp H. unfold GetModelPricing, find_pricing. rewrite Hp.
  destruct (models !! model) as [mp|] eqn:E; [done|]. destruct H as [[? ?]| ->]; [congruence|done].
Qed.

(** Setting a price is what the next calculation uses, for that spelling. *)
Lemma SetModelPricing_get p provider model pricing :
  GetModelPricing (SetModelPricing p provider model pricing) provider model = Some pricing.
Proof. unfold GetModelPricing, SetModelPricing. by rewrite lookup_insert_eq, lookup_insert_eq. Qed.
End Pricing.

#[local] Existing Instance ascii_unicode.

(** A thousand input tokens and a thousand output tokens of the small model. *)
Example cost_ex : CalculateCost DefaultPricing "OpenAI" "GPT-4o-mini" 1000 1000
                  = f64_add (f64_lit 15 100000) (f64_lit 6 10000).
Proof. vm_compute. reflexivity. Qed.

(** The charged price and the advertised price differ for a mixed-case name. *)
Example advertised_differs :
  (default (mkPricing f64_zero f64_zero) (GetModelPricing DefaultPricing "openai" "GPT-4o-mini")
   <> default (mkPricing f64_zero f64_zero)
        (DefaultPricing !! "openai" ≫= fun models => find_pricing models "GPT-4o-mini")).
Proof. vm_compute. congruence. Qed.
