(* ===== verification/CostRepository.v ===== *)
(** Budgets and usage (platform/orchestrator/cost/types.go and
    postgres_repository.go): the data model, the four tables of
    034_cost_controls.sql with their constraints, and the statements on them.

    [up] tells whether a statement succeeds. A text column written through
    nullString holds NULL for the empty string; here it holds the empty string,
    and [sql_eq] is SQL's equality, which is never true of NULL. Money columns
    are integers of their scale: [Micros] for DECIMAL(12,6). *)

From S2P Require Import Prelude GoFloat GoStrings GoTime TenantScope CostPricing.

Local Open Scope Z_scope.

Definition ScopeOrganization : string := "organization".
Definition ScopeTeam : string := "team".
Definition ScopeAgent : string := "agent".
Definition ScopeWorkflow : string := "workflow".
Definition ScopeUser : string := "user".

Definition PeriodDaily : string := "daily".
Definition PeriodWeekly : string := "weekly".
Definition PeriodMonthly : string := "monthly".
Definition PeriodQuarterly : string := "quarterly".
Definition PeriodYearly : string := "yearly".

Definition OnExceedWarn : string := "warn".
Definition OnExceedBlock : string := "block".
Definition OnExceedDowngrade : string := "downgrade".

Definition AggregateHourly : string := "hourly".
Definition AggregateDaily : string := "daily".
Definition AggregateMonthly : string := "monthly".

(** A nil slice of thresholds is [None]. *)
Record Budget := mkBudget {
  b_ID : string;
  b_Name : string;
  b_Description : string;
  b_Scope : string;
  b_ScopeID : string;
  b_LimitUSD : float64;
  b_Period : string;
  b_OnExceed : string;
  b_AlertThresholds : option (list Z);
  b_Enabled : bool;
  b_OrgID : string;
  b_TenantID : string;
  b_CreatedBy : string;
  b_UpdatedBy : string;
  b_CreatedAt : Z;
  b_UpdatedAt : Z;
}.

Record UsageRecord := mkUsage {
  u_RequestID : string;
  u_Timestamp : Z;
  u_OrgID : string;
  u_TenantID : string;
  u_TeamID : string;
  u_AgentID : string;
  u_WorkflowID : string;
  u_UserID : string;
  u_Provider : string;
  u_Model : string;
  u_TokensIn : Z;
  u_TokensOut : Z;
  u_CostUSD : float64;
  u_RequestType : string;
  u_Cached : bool;
}.

Record UsageAggregate := mkAggregate {
  a_Scope : string;
  a_ScopeID : string;
  a_Period : string;
  a_PeriodStart : Z;
  a_TotalCost : Z;
  a_TotalTokensIn : Z;
  a_TotalTokensOut : Z;
  a_RequestCount : Z;
  a_OrgID : string;
  a_TenantID : string;
}.

Record BudgetAlert := mkAlert {
  al_BudgetID : string;
  al_Threshold : Z;
  al_PercentageReached : float64;
  al_AmountUSD : float64;
  al_AlertType : string;
  al_Acknowledged : bool;
  al_AcknowledgedBy : string;
}.

Inductive cost_error :=
| ErrBudgetNotFound
| ErrBudgetExists
| ErrInvalidBudgetID
| ErrInvalidBudgetName
| ErrInvalidBudgetLimit
| ErrInvalidBudgetScope
| ErrInvalidBudgetPeriod
| ErrInvalidOnExceed
| ErrInvalidInput
| ECostDatabase (statement : string).

(** * Validation *)

Definition isValidScope (s : string) : bool :=
  str_in s [ScopeOrganization; ScopeTeam; ScopeAgent; ScopeWorkflow; ScopeUser].
Definition isValidPeriod (p : string) : bool :=
  str_in p [PeriodDaily; PeriodWeekly; PeriodMonthly; PeriodQuarterly; PeriodYearly].
Definition isValidOnExceed (a : string) : bool :=
  str_in a [""; OnExceedWarn; OnExceedBlock; OnExceedDowngrade].

(** [None] is a nil error. *)
Definition Validate (b : Budget) : option cost_error :=
  if str_eqb (b_ID b) "" then Some ErrInvalidBudgetID
  else if str_eqb (b_Name b) "" then Some ErrInvalidBudgetName
  else if f64_leb (b_LimitUSD b) f64_zero then Some ErrInvalidBudgetLimit
  else if negb (isValidScope (b_Scope b)) then Some ErrInvalidBudgetScope
  else if negb (isValidPeriod (b_Period b)) then Some ErrInvalidBudgetPeriod
  else if negb (isValidOnExceed (b_OnExceed b)) then Some ErrInvalidOnExceed
  else None.

(** * Columns *)

(** Conversions of a float64 into the money columns, [None] a numeric overflow:
    limit_usd DECIMAL(12,2), cost_usd DECIMAL(12,6) in micro-dollars,
    total_cost_usd DECIMAL(12,2) in cents, percentage_reached DECIMAL(5,2) and
    amount_usd DECIMAL(12,2) read back as float64. *)
Class CostDatabase := {
  limit_column : float64 -> option float64;
  micros_column : float64 -> option Z;
  cents_column : float64 -> option Z;
  percentage_column : float64 -> option float64;
  amount_column : float64 -> option float64;
}.

(** A stored usage record: the columns and the cost in micro-dollars. *)
Record usage_row := mkUsageRow { ur_Record : UsageRecord; ur_Micros : Z }.

Record CostStore := mkCostStore {
  cs_budgets : list Budget;
  cs_usage : list usage_row;
  cs_aggregates : list UsageAggregate;
  cs_alerts : list BudgetAlert;
}.

Definition set_budgets (st : CostStore) (l : list Budget) : CostStore :=
  mkCostStore l (cs_usage st) (cs_aggregates st) (cs_alerts st).

Definition sql_eq (column v : string) : bool := negb (str_eqb column "") && str_eqb column v.

(** The CHECK constraints of budgets: on_exceed does not admit the empty string
    the validation does. *)
Definition budget_constraints (b : Budget) : bool :=
  isValidScope (b_Scope b) && isValidPeriod (b_Period b)
  && str_in (b_OnExceed b) [OnExceedWarn; OnExceedBlock; OnExceedDowngrade]
  && f64_ltb f64_zero (b_LimitUSD b).

Section Repository.
Context `{U : Unicode} `{D : CostDatabase}.

Definition with_limit (b : Budget) (limit : float64) : Budget :=
  mkBudget (b_ID b) (b_Name b) (b_Description b) (b_Scope b) (b_ScopeID b) limit (b_Period b)
    (b_OnExceed b) (b_AlertThresholds b) (b_Enabled b) (b_OrgID b) (b_TenantID b) (b_CreatedBy b)
    (b_UpdatedBy b) (b_CreatedAt b) (b_UpdatedAt b).

Definition CreateBudget (up : bool) (st : CostStore) (b : Budget) : result cost_error CostStore :=
  match ValidateRowKeys (b_OrgID b) (b_TenantID b) with
  | Some _ => Err (ECostDatabase "refusing to persist budget with no org/tenant key")
  | None =>
      if negb up then Err (ECostDatabase "failed to create budget")
      else match limit_column (b_LimitUSD b) with
      | None => Err (ECostDatabase "failed to create budget")
      | Some limit =>
          let row := with_limit b limit in
          if existsb (fun x => str_eqb (b_ID x) (b_ID b)) (cs_budgets st) then Err ErrBudgetExists
          else if budget_constraints row then Ok (set_budgets st (cs_budgets st ++ [row]))
          else Err (ECostDatabase "failed to create budget")
      end
  end.

Definition GetBudget (up : bool) (st : CostStore) (id : string) : result cost_error Budget :=
  if negb up then Err (ECostDatabase "failed to get budget")
  else match find_first (fun b => str_eqb (b_ID b) id) (cs_budgets st) with
       | None => Err ErrBudgetNotFound
       | Some b => Ok b
       end.

Definition requireBudgetScope (orgID tenantID : string) : option cost_error :=
  match ValidateRowKeys orgID tenantID with
  | Some _ => Some ErrBudgetNotFound
  | None => None
  end.

(** [WHERE id = $1] with [budgetOrgScopeSQL] *)
Definition budget_scoped (id orgID tenantID : string) (b : Budget) : bool :=
  str_eqb (b_ID b) id && sql_eq (b_OrgID b) orgID && sql_eq (b_TenantID b) tenantID.

Definition GetBudgetScoped (up : bool) (st : CostStore) (id orgID tenantID : string)
  : result cost_error Budget :=
  match requireBudgetScope orgID tenantID with
  | Some e => Err e
  | None =>
      if negb up then Err (ECostDatabase "failed to get budget")
      else match find_first (budget_scoped id orgID tenantID) (cs_budgets st) with
           | None => Err ErrBudgetNotFound
           | Some b => Ok b
           end
  end.

(** The columns an UPDATE assigns; the owner and the creation stay. *)
Definition budget_assign (now : Z) (b old : Budget) (limit : float64) : Budget :=
  mkBudget (b_ID old) (b_Name b) (b_Description b) (b_Scope b) (b_ScopeID b) limit (b_Period b)
    (b_OnExceed b) (b_AlertThresholds b) (b_Enabled b) (b_OrgID old) (b_TenantID old)
    (b_CreatedBy old) (b_UpdatedBy b) (b_CreatedAt old) now.

Definition UpdateBudget (up : bool) (now : Z) (st : CostStore) (b : Budget)
  : result cost_error CostStore :=
  match requireBudgetScope (b_OrgID b) (b_TenantID b) with
  | Some e => Err e
  | None =>
      if negb up then Err (ECostDatabase "failed to update budget")
      else
        let hit := budget_scoped (b_ID b) (b_OrgID b) (b_TenantID b) in
        if negb (existsb hit (cs_budgets st)) then Err ErrBudgetNotFound
        else match limit_column (b_LimitUSD b) with
        | None => Err (ECostDatabase "failed to update budget")
        | Some limit =>
            if budget_constraints (with_limit b limit)
            then Ok (set_budgets st
                       ((fun x => if hit x then budget_assign now b x limit else x) <$> cs_budgets st))
            else Err (ECostDatabase "failed to update budget")
        end
  end.

(** Deleting a budget deletes its alerts (ON DELETE CASCADE). *)
Definition delete_where (hit : Budget -> bool) (st : CostStore) : CostStore :=
  let gone := b_ID <$> List.filter hit (cs_budgets st) in
  mkCostStore (List.filter (fun b => negb (hit b)) (cs_budgets st)) (cs_usage st) (cs_aggregates st)
    (List.filter (fun a => negb (str_in (al_BudgetID a) gone)) (cs_alerts st)).

Definition DeleteBudget (up : bool) (st : CostStore) (id : string) : result cost_error CostStore :=
  if negb up then Err (ECostDatabase "failed to delete budget")
  else let hit := fun b => str_eqb (b_ID b) id in
       if existsb hit (cs_budgets st) then Ok (delete_where hit st) else Err ErrBudgetNotFound.

Definition DeleteBudgetScoped (up : bool) (st : CostStore) (id orgID tenantID : string)
  : result cost_error CostStore :=
  match requireBudgetScope orgID tenantID with
  | Some e => Err e
  | None =>
      if negb up then Err (ECostDatabase "failed to delete budget")
      else let hit := budget_scoped id orgID tenantID in
           if existsb hit (cs_budgets st) then Ok (delete_where hit st) else Err ErrBudgetNotFound
  end.

Definition newer_budget (a b : Budget) : bool := b_CreatedAt b <? b_CreatedAt a.

Record ListBudgetsOptions := mkListBudgets {
  lb_OrgID : string;
  lb_TenantID : string;
  lb_Scope : string;
  lb_ScopeID : string;
  lb_Enabled : option bool;
  lb_Limit : Z;
  lb_Offset : Z;
}.

Definition list_budget_filter (o : ListBudgetsOptions) (b : Budget) : bool :=
  (str_eqb (lb_OrgID o) "" || sql_eq (b_OrgID b) (lb_OrgID o))
  && (str_eqb (lb_TenantID o) "" || sql_eq (b_TenantID b) (lb_TenantID o))
  && (str_eqb (lb_Scope o) "" || str_eqb (b_Scope b) (lb_Scope o))
  && (str_eqb (lb_ScopeID o) "" || str_eqb (b_ScopeID b) (lb_ScopeID o))
  && match lb_Enabled o with Some e => eqb (b_Enabled b) e | None => true end.

Definition ListBudgets (up : bool) (st : CostStore) (o : ListBudgetsOptions)
  : result cost_error (list Budget * Z) :=
  match requireBudgetScope (lb_OrgID o) (lb_TenantID o) with
  | Some e => Err e
  | None =>
      if negb up then Err (ECostDatabase "failed to count budgets")
      else
        let rows := List.filter (list_budget_filter o) (cs_budgets st) in
        let limit := if lb_Limit o <=? 0 then 50 else lb_Limit o in
        let offset := if lb_Offset o <? 0 then 0 else lb_Offset o in
        Ok (take (Z.to_nat limit) (drop (Z.to_nat offset) (SliceStable newer_budget rows)),
            Z.of_nat (length rows))
  end.

(** The budgets that apply to a scope: a missing scope id, organization or
    tenant of the budget matches every request. *)
Definition applies (scope scopeID orgID tenantID : string) (b : Budget) : bool :=
  b_Enabled b && str_eqb (b_Scope b) scope
  && (str_eqb (b_ScopeID b) scopeID || str_eqb (b_ScopeID b) "")
  && (sql_eq (b_OrgID b) orgID || str_eqb (b_OrgID b) "")
  && (sql_eq (b_TenantID b) tenantID || str_eqb (b_TenantID b) "").

Definition GetBudgetsForScope (up : bool) (st : CostStore) (scope scopeID orgID tenantID : string)
  : result cost_error (list Budget) :=
  if negb up then Err (ECostDatabase "failed to get budgets for scope")
  else Ok (SliceStable newer_budget (List.filter (applies scope scopeID orgID tenantID) (cs_budgets st))).

(** * Usage *)

Definition SaveUsage (up : bool) (st : CostStore) (u : UsageRecord) : result cost_error CostStore :=
  if negb up then Err (ECostDatabase "failed to save usage")
  else match micros_column (u_CostUSD u) with
  | None => Err (ECostDatabase "failed to save usage")
  | Some micros =>
      if (u_TokensIn u <? 0) || (u_TokensOut u <? 0) || (micros <? 0)
      then Err (ECostDatabase "failed to save usage")
      else Ok (mkCostStore (cs_budgets st) (cs_usage st ++ [mkUsageRow u micros])
                 (cs_aggregates st) (cs_alerts st))
  end.

Definition scope_column (scope : string) (u : UsageRecord) : string :=
  if str_eqb scope ScopeOrganization then u_OrgID u
  else if str_eqb scope ScopeTeam then u_TeamID u
  else if str_eqb scope ScopeAgent then u_AgentID u
  else if str_eqb scope ScopeWorkflow then u_WorkflowID u
  else if str_eqb scope ScopeUser then u_UserID u
  else u_OrgID u.

Definition usage_counts (scope scopeID : string) (periodStart : Z) (orgID tenantID : string)
    (row : usage_row) : bool :=
  let u := ur_Record row in
  sql_eq (scope_column scope u) scopeID && (periodStart <=? u_Timestamp u)
  && (str_eqb orgID "" || sql_eq (u_OrgID u) orgID)
  && (str_eqb tenantID "" || sql_eq (u_TenantID u) tenantID).

Definition sum_micros (l : list usage_row) : Z := foldr (fun row s => ur_Micros row + s) 0 l.

Definition usage_micros (st : CostStore) (scope scopeID : string) (periodStart : Z)
    (orgID tenantID : string) : Z :=
  sum_micros (List.filter (usage_counts scope scopeID periodStart orgID tenantID) (cs_usage st)).

(** The exact decimal sum is read as the nearest float64. *)
Definition GetUsageForPeriod (up : bool) (st : CostStore) (scope scopeID : string) (periodStart : Z)
    (orgID tenantID : string) : result cost_error float64 :=
  if negb up then Err (ECostDatabase "failed to get usage for period")
  else Ok (f64_lit (usage_micros st scope scopeID periodStart orgID tenantID) 1000000).

(** * Aggregates and alerts *)

(** The unique key of usage_aggregates: two NULLs are distinct. *)
Definition aggregate_conflict (a b : UsageAggregate) : bool :=
  str_eqb (a_Scope a) (a_Scope b) && str_eqb (a_ScopeID a) (a_ScopeID b)
  && str_eqb (a_Period a) (a_Period b) && (a_PeriodStart a =? a_PeriodStart b)
  && sql_eq (a_OrgID a) (a_OrgID b) && sql_eq (a_TenantID a) (a_TenantID b).

Definition aggregate_add (a old : UsageAggregate) : UsageAggregate :=
  mkAggregate (a_Scope old) (a_ScopeID old) (a_Period old) (a_PeriodStart old)
    (a_TotalCost old + a_TotalCost a) (a_TotalTokensIn old + a_TotalTokensIn a)
    (a_TotalTokensOut old + a_TotalTokensOut a) (a_RequestCount old + a_RequestCount a)
    (a_OrgID old) (a_TenantID old).

(** ON CONFLICT DO UPDATE; the proposed row is already in the column's scale. *)
Definition UpdateAggregate (up : bool) (st : CostStore) (a : UsageAggregate) : result cost_error CostStore :=
  if negb up then Err (ECostDatabase "failed to update aggregate")
  else
    let aggs := if existsb (aggregate_conflict a) (cs_aggregates st)
                then (fun old => if aggregate_conflict a old then aggregate_add a old else old)
                       <$> cs_aggregates st
                else cs_aggregates st ++ [a] in
    Ok (mkCostStore (cs_budgets st) (cs_usage st) aggs (cs_alerts st)).

Definition SaveAlert (up : bool) (st : CostStore) (al : BudgetAlert) : result cost_error CostStore :=
  if negb up || negb (existsb (fun b => str_eqb (b_ID b) (al_BudgetID al)) (cs_budgets st))
  then Err (ECostDatabase "failed to save alert")
  else match percentage_column (al_PercentageReached al), amount_column (al_AmountUSD al) with
  | Some pct, Some amt =>
      Ok (mkCostStore (cs_budgets st) (cs_usage st) (cs_aggregates st)
            (cs_alerts st ++ [mkAlert (al_BudgetID al) (al_Threshold al) pct amt (al_AlertType al)
                                false ""]))
  | _, _ => Err (ECostDatabase "failed to save alert")
  end.

End Repository.
