(* ===== verification/CostService.v ===== *)
(** The cost service (platform/orchestrator/cost/service.go), spend redaction
    (read_scope.go) and the budget handlers (handlers.go): budget periods,
    budget checks, usage recording with its two asynchronous parts, and alerts.

    An operation that reads or writes the database takes [up], which tells for a
    statement and its key whether it succeeds. [now] is time.Now().UTC(). The
    asynchronous parts of RecordUsage are separate definitions that run on the
    service state of their moment. *)

From S2P Require Import Prelude GoFloat GoStrings GoTime TenantScope CostPricing.
From S2P Require Import CostRepository.

Local Open Scope Z_scope.

(** * Periods *)

Definition getPeriodStart (now : Z) (period : string) : Z :=
  let '(y, m, d) := civil_of_days (day_of now) in
  if str_eqb period PeriodDaily then Date y m d
  else if str_eqb period PeriodWeekly then
    let weekday := Weekday (day_of now) in
    let weekday := if weekday =? 0 then 7 else weekday in
    Date y m (d - weekday + 1)
  else if str_eqb period PeriodMonthly then Date y m 1
  else if str_eqb period PeriodQuarterly then
    let quarter := (m - 1) / 3 in Date y (quarter * 3 + 1) 1
  else if str_eqb period PeriodYearly then Date y 1 1
  else Date y m 1.

Definition getPeriodEnd (period : string) (start : Z) : Z :=
  if str_eqb period PeriodDaily then AddDate start 0 0 1
  else if str_eqb period PeriodWeekly then AddDate start 0 0 7
  else if str_eqb period PeriodMonthly then AddDate start 0 1 0
  else if str_eqb period PeriodQuarterly then AddDate start 0 3 0
  else if str_eqb period PeriodYearly then AddDate start 1 0 0
  else AddDate start 0 1 0.

(** * Decisions *)

Record BudgetStatus := mkBudgetStatus {
  bs_Budget : Budget;
  bs_UsedUSD : float64;
  bs_RemainingUSD : float64;
  bs_Percentage : float64;
  bs_PeriodStart : Z;
  bs_PeriodEnd : Z;
  bs_IsExceeded : bool;
  bs_IsBlocked : bool;
}.

Record BudgetDecision := mkDecision {
  d_Allowed : bool;
  d_Action : string;
  d_BudgetID : string;
  d_BudgetName : string;
  d_UsedUSD : float64;
  d_LimitUSD : float64;
  d_Percentage : float64;
  d_Message : string;
}.

Record AlertEvent := mkAlertEvent {
  ae_BudgetID : string;
  ae_BudgetName : string;
  ae_Threshold : Z;
  ae_Current : float64;
  ae_UsedUSD : float64;
  ae_LimitUSD : float64;
  ae_AlertType : string;
  ae_Timestamp : Z;
}.

Definition AlertTypeThresholdReached : string := "threshold_reached".
Definition AlertTypeBudgetExceeded : string := "budget_exceeded".
Definition AlertTypeBudgetBlocked : string := "budget_blocked".

(** The service: its database, the thresholds already alerted per budget, and
    the alerts handed to the alerter so far, oldest first. *)
Record Service := mkService {
  sv_store : CostStore;
  sv_alerted : gmap string (gset Z);
  sv_sent : list AlertEvent;
}.

Definition set_store (s : Service) (st : CostStore) : Service :=
  mkService st (sv_alerted s) (sv_sent s).

Definition oracle : Type := string -> string -> bool.

(** [redactSpend] *)
Definition redactSpend (d : BudgetDecision) : BudgetDecision :=
  mkDecision (d_Allowed d) (d_Action d) "" "" f64_zero f64_zero f64_zero
    (if str_eqb (d_Message d) "" then "" else if d_Allowed d then "" else "Budget exceeded").

Section Service.
Context `{U : Unicode} `{D : CostDatabase}.

(** [fmt.Sprintf] of "%.1f" for a percentage. *)
Context (format1 : float64 -> string).

(** * Budgets *)

Definition stamped (now : Z) (b : Budget) : Budget :=
  mkBudget (b_ID b) (b_Name b) (b_Description b) (b_Scope b) (b_ScopeID b) (b_LimitUSD b)
    (b_Period b) (b_OnExceed b)
    (match b_AlertThresholds b with None => Some [50; 80; 100] | Some l => Some l end)
    (b_Enabled b) (b_OrgID b) (b_TenantID b) (b_CreatedBy b) (b_UpdatedBy b) now now.

Definition Service_CreateBudget (up : oracle) (now : Z) (s : Service) (b : Budget)
  : result cost_error Service :=
  match Validate b with
  | Some e => Err e
  | None =>
      match CreateBudget (up "create" (b_ID b)) (sv_store s) (stamped now b) with
      | Err e => Err e
      | Ok st => Ok (set_store s st)
      end
  end.

Definition touched (now : Z) (b : Budget) : Budget :=
  mkBudget (b_ID b) (b_Name b) (b_Description b) (b_Scope b) (b_ScopeID b) (b_LimitUSD b)
    (b_Period b) (b_OnExceed b) (b_AlertThresholds b) (b_Enabled b) (b_OrgID b) (b_TenantID b)
    (b_CreatedBy b) (b_UpdatedBy b) (b_CreatedAt b) now.

Definition Service_UpdateBudget (up : oracle) (now : Z) (s : Service) (b : Budget)
  : result cost_error Service :=
  match Validate b with
  | Some e => Err e
  | None =>
      match UpdateBudget (up "update" (b_ID b)) now (sv_store s) (touched now b) with
      | Err e => Err e
      | Ok st => Ok (set_store s st)
      end
  end.

(** The thresholds are forgotten before the row is deleted. *)
Definition Service_DeleteBudget (up : oracle) (s : Service) (id : string)
  : Service * option cost_error :=
  let s' := mkService (sv_store s) (delete id (sv_alerted s)) (sv_sent s) in
  match DeleteBudget (up "delete" id) (sv_store s) id with
  | Err e => (s', Some e)
  | Ok st => (set_store s' st, None)
  end.

(** The thresholds are forgotten after the row is deleted. *)
Definition Service_DeleteBudgetScoped (up : oracle) (s : Service) (id orgID tenantID : string)
  : Service * option cost_error :=
  match DeleteBudgetScoped (up "delete" id) (sv_store s) id orgID tenantID with
  | Err e => (s, Some e)
  | Ok st => (mkService st (delete id (sv_alerted s)) (sv_sent s), None)
  end.

(** ** Status *)

Definition percentage_of (used limit : float64) : float64 :=
  if f64_ltb f64_zero limit then f64_mul (f64_div used limit) (f64_of_Z 100) else f64_zero.

Definition statusForBudget (up : oracle) (now : Z) (st : CostStore) (b : Budget)
  : result cost_error BudgetStatus :=
  let periodStart := getPeriodStart now (b_Period b) in
  let periodEnd := getPeriodEnd (b_Period b) periodStart in
  match GetUsageForPeriod (up "usage" (b_ID b)) st (b_Scope b) (b_ScopeID b) periodStart
          (b_OrgID b) (b_TenantID b) with
  | Err e => Err e
  | Ok used =>
      let exceeded := f64_leb (b_LimitUSD b) used in
      Ok (mkBudgetStatus b used (f64_sub (b_LimitUSD b) used) (percentage_of used (b_LimitUSD b))
            periodStart periodEnd exceeded (exceeded && str_eqb (b_OnExceed b) OnExceedBlock))
  end.

Definition GetBudgetStatus (up : oracle) (now : Z) (st : CostStore) (id : string)
  : result cost_error BudgetStatus :=
  match GetBudget (up "get" id) st id with
  | Err e => Err e
  | Ok b => statusForBudget up now st b
  end.

Definition GetBudgetStatusScoped (up : oracle) (now : Z) (st : CostStore) (id orgID tenantID : string)
  : result cost_error BudgetStatus :=
  match GetBudgetScoped (up "get" id) st id orgID tenantID with
  | Err e => Err e
  | Ok b => statusForBudget up now st b
  end.

(** ** CheckBudget *)

Definition blocked_decision (b : Budget) (status : BudgetStatus) : BudgetDecision :=
  mkDecision false OnExceedBlock (b_ID b) (b_Name b) (bs_UsedUSD status) (b_LimitUSD b)
    (bs_Percentage status) ("Budget '" +:+ b_Name b +:+ "' exceeded - requests blocked").

Definition exceeded_decision (d : BudgetDecision) (b : Budget) (status : BudgetStatus)
  : BudgetDecision :=
  mkDecision (d_Allowed d) (b_OnExceed b) (b_ID b) (b_Name b) (bs_UsedUSD status) (b_LimitUSD b)
    (bs_Percentage status)
    ("Budget '" +:+ b_Name b +:+ "' exceeded - " +:+ format1 (bs_Percentage status) +:+ "%").

(** The inner loop: [inl] is its early return, [inr] the decision so far. *)
Fixpoint check_budgets (up : oracle) (now : Z) (st : CostStore) (d : BudgetDecision)
    (budgets : list Budget) : BudgetDecision + BudgetDecision :=
  match budgets with
  | [] => inr d
  | b :: budgets' =>
      match GetBudgetStatus up now st (b_ID b) with
      | Err _ => check_budgets up now st d budgets'
      | Ok status =>
          if bs_IsBlocked status then inl (blocked_decision b status)
          else
            let d := if bs_IsExceeded status then exceeded_decision d b status else d in
            check_budgets up now st d budgets'
      end
  end.

Fixpoint check_scopes (up : oracle) (now : Z) (st : CostStore) (orgID tenantID : string)
    (d : BudgetDecision) (scopes : list (string * string)) : BudgetDecision :=
  match scopes with
  | [] => d
  | (scope, scopeID) :: scopes' =>
      if str_eqb scopeID "" then check_scopes up now st orgID tenantID d scopes'
      else match GetBudgetsForScope (up "scope" scope) st scope scopeID orgID tenantID with
      | Err _ => check_scopes up now st orgID tenantID d scopes'
      | Ok budgets =>
          match check_budgets up now st d budgets with
          | inl d' => d'
          | inr d' => check_scopes up now st orgID tenantID d' scopes'
          end
      end
  end.

Definition allow_decision : BudgetDecision := mkDecision true "" "" "" f64_zero f64_zero f64_zero "".

Definition check_order (orgID teamID agentID userID : string) : list (string * string) :=
  [(ScopeAgent, agentID); (ScopeTeam, teamID); (ScopeOrganization, orgID); (ScopeUser, userID)].

Definition CheckBudget (up : oracle) (now : Z) (st : CostStore)
    (orgID teamID agentID userID tenantID : string) : BudgetDecision :=
  check_scopes up now st orgID tenantID allow_decision (check_order orgID teamID agentID userID).

(** * Usage *)

Definition f64_is_zero (f : float64) : bool := f64_leb f f64_zero && f64_leb f64_zero f.

Definition priced (pricing : PricingConfig) (now : Z) (u : UsageRecord) : UsageRecord :=
  mkUsage (u_RequestID u) (if IsZero (u_Timestamp u) then now else u_Timestamp u) (u_OrgID u)
    (u_TenantID u) (u_TeamID u) (u_AgentID u) (u_WorkflowID u) (u_UserID u) (u_Provider u)
    (u_Model u) (u_TokensIn u) (u_TokensOut u)
    (if f64_is_zero (u_CostUSD u)
     then CalculateCost pricing (u_Provider u) (u_Model u) (u_TokensIn u) (u_TokensOut u)
     else u_CostUSD u) (u_RequestType u) (u_Cached u).

(** The synchronous part; it hands the completed record to the other two. *)
Definition RecordUsage (up : oracle) (now : Z) (pricing : PricingConfig) (s : Service)
    (record : option UsageRecord) : result cost_error (Service * UsageRecord) :=
  match record with
  | None => Err ErrInvalidInput
  | Some u =>
      let u := priced pricing now u in
      match SaveUsage (up "usage" (u_RequestID u)) (sv_store s) u with
      | Err e => Err e
      | Ok st => Ok (set_store s st, u)
      end
  end.

Definition aggregate_of (u : UsageRecord) (cents : Z) (scope scopeID period : string)
    (periodStart : Z) : UsageAggregate :=
  mkAggregate scope scopeID period periodStart cents (u_TokensIn u) (u_TokensOut u) 1
    (u_OrgID u) (u_TenantID u).

(** A failed upsert is logged and skipped. *)
Definition try_aggregate (up : oracle) (u : UsageRecord) (period : string) (periodStart : Z)
    (st : CostStore) (target : string * string) : CostStore :=
  let '(scope, scopeID) := target in
  if str_eqb scopeID "" then st
  else match cents_column (u_CostUSD u) with
  | None => st
  | Some cents =>
      match UpdateAggregate (up "aggregate" scope) st
              (aggregate_of u cents scope scopeID period periodStart) with
      | Ok st' => st'
      | Err _ => st
      end
  end.

Definition updateAggregate (up : oracle) (u : UsageRecord) (st : CostStore) (period : string)
    (periodStart : Z) : CostStore :=
  foldl (try_aggregate up u period periodStart) st
    [("provider", u_Provider u); ("model", u_Model u); ("organization", u_OrgID u);
     ("agent", u_AgentID u)].

Definition updateAggregates (up : oracle) (s : Service) (u : UsageRecord) : Service :=
  let now := u_Timestamp u in
  let '(y, m, d) := civil_of_days (day_of now) in
  let hour := (now mod day_ns) / Hour in
  let st := updateAggregate up u (sv_store s) AggregateHourly (Date y m d + hour * Hour) in
  let st := updateAggregate up u st AggregateDaily (Date y m d) in
  set_store s (updateAggregate up u st AggregateMonthly (Date y m 1)).

(** * Alerts *)

Definition hasAlertedThreshold (s : Service) (id : string) (threshold : Z) : bool :=
  bool_decide (threshold ∈ default ∅ (sv_alerted s !! id)).

Definition markAlertedThreshold (s : Service) (id : string) (threshold : Z) : Service :=
  mkService (sv_store s) (<[id := {[threshold]} ∪ default ∅ (sv_alerted s !! id)]> (sv_alerted s))
    (sv_sent s).

Definition alert_type (b : Budget) (percentage : float64) : string :=
  if f64_leb (f64_of_Z 100) percentage then
    if str_eqb (b_OnExceed b) OnExceedBlock then AlertTypeBudgetBlocked else AlertTypeBudgetExceeded
  else AlertTypeThresholdReached.

(** The threshold is marked whether or not the alert could be stored. *)
Definition sendAlert (up : oracle) (now : Z) (s : Service) (b : Budget) (threshold : Z)
    (percentage used : float64) : Service :=
  let ty := alert_type b percentage in
  let event := mkAlertEvent (b_ID b) (b_Name b) threshold percentage used (b_LimitUSD b) ty now in
  let s := mkService (sv_store s) (sv_alerted s) (sv_sent s ++ [event]) in
  let s := match SaveAlert (up "alert" (b_ID b)) (sv_store s)
                   (mkAlert (b_ID b) threshold percentage used ty false "") with
           | Ok st => set_store s st
           | Err _ => s
           end in
  markAlertedThreshold s (b_ID b) threshold.

Definition check_threshold (up : oracle) (now : Z) (b : Budget) (percentage used : float64)
    (s : Service) (threshold : Z) : Service :=
  if f64_leb (f64_of_Z threshold) percentage && negb (hasAlertedThreshold s (b_ID b) threshold)
  then sendAlert up now s b threshold percentage used else s.

Definition checkSingleBudget (up : oracle) (now : Z) (s : Service) (b : Budget) : Service :=
  match GetUsageForPeriod (up "usage" (b_ID b)) (sv_store s) (b_Scope b) (b_ScopeID b)
          (getPeriodStart now (b_Period b)) (b_OrgID b) (b_TenantID b) with
  | Err _ => s
  | Ok used =>
      let percentage := percentage_of used (b_LimitUSD b) in
      foldl (check_threshold up now b percentage used) s (default [] (b_AlertThresholds b))
  end.

Definition checkBudgetForScope (up : oracle) (now : Z) (s : Service) (scope scopeID orgID tenantID : string)
  : Service :=
  match GetBudgetsForScope (up "scope" scope) (sv_store s) scope scopeID orgID tenantID with
  | Err _ => s
  | Ok budgets => foldl (checkSingleBudget up now) s budgets
  end.

Definition checkBudgetsAsync (up : oracle) (now : Z) (s : Service) (u : UsageRecord) : Service :=
  foldl (fun s target =>
           if str_eqb target.2 "" then s
           else checkBudgetForScope up now s target.1 target.2 (u_OrgID u) (u_TenantID u)) s
    [(ScopeOrganization, u_OrgID u); (ScopeTeam, u_TeamID u); (ScopeAgent, u_AgentID u);
     (ScopeUser, u_UserID u)].

Definition ResetAlertedThresholds (s : Service) (id : string) : Service :=
  mkService (sv_store s) (delete id (sv_alerted s)) (sv_sent s).

(** * Handlers *)

(** The response of a budget route: the HTTP status and what is encoded. *)
Inductive response (A : Type) :=
| HError (status : Z)
| HOk (status : Z) (body : A).
Arguments HError {A} status.
Arguments HOk {A} status body.

(** [requireScope] on the two headers. *)
Definition requireScope (headers : string * string) : option Scope :=
  match Bind (Some headers) with Ok s => Some s | Err _ => None end.

Record CreateBudgetRequest := mkCreateBudget {
  q_ID : string;
  q_Name : string;
  q_Description : string;
  q_Scope : string;
  q_ScopeID : string;
  q_LimitUSD : float64;
  q_Period : string;
  q_OnExceed : string;
  q_AlertThresholds : list Z;
}.

Definition requested_budget (scope : Scope) (user : string) (q : CreateBudgetRequest) : Budget :=
  mkBudget (q_ID q) (q_Name q) (q_Description q)
    (if str_eqb (q_Scope q) "" then ScopeOrganization else q_Scope q) (q_ScopeID q) (q_LimitUSD q)
    (q_Period q) (if str_eqb (q_OnExceed q) "" then OnExceedWarn else q_OnExceed q)
    (Some (match q_AlertThresholds q with [] => [50; 80; 100] | l => l end)) true
    (OrgID scope) (TenantID scope) user "" 0 0.

(** [body] is the decoded request, [None] a decoding error. *)
Definition Handler_CreateBudget (up : oracle) (now : Z) (s : Service) (headers : string * string)
    (user : string) (body : option CreateBudgetRequest) : Service * response Budget :=
  match requireScope headers with
  | None => (s, HError 401)
  | Some scope =>
      match body with
      | None => (s, HError 400)
      | Some q =>
          let b := requested_budget scope user q in
          match Service_CreateBudget up now s b with
          | Err ErrBudgetExists => (s, HError 409)
          | Err _ => (s, HError 400)
          | Ok s' => (s', HOk 201 (stamped now b))
          end
      end
  end.

(** Partial update: only the non-zero fields of the body are taken. *)
Definition merge_update (user : string) (existing update : Budget) : Budget :=
  mkBudget (b_ID existing) (if str_eqb (b_Name update) "" then b_Name existing else b_Name update)
    (b_Description existing) (b_Scope existing) (b_ScopeID existing)
    (if f64_ltb f64_zero (b_LimitUSD update) then b_LimitUSD update else b_LimitUSD existing)
    (b_Period existing)
    (if str_eqb (b_OnExceed update) "" then b_OnExceed existing else b_OnExceed update)
    (match b_AlertThresholds update with
     | Some (t :: l) => Some (t :: l)
     | _ => b_AlertThresholds existing
     end) (b_Enabled existing) (b_OrgID existing) (b_TenantID existing) (b_CreatedBy existing) user
    (b_CreatedAt existing) (b_UpdatedAt existing).

Definition Handler_UpdateBudget (up : oracle) (now : Z) (s : Service) (headers : string * string)
    (user id : string) (body : option Budget) : Service * response Budget :=
  match requireScope headers with
  | None => (s, HError 401)
  | Some scope =>
      if str_eqb id "" then (s, HError 400)
      else match GetBudgetScoped (up "get" id) (sv_store s) id (OrgID scope) (TenantID scope) with
      | Err ErrBudgetNotFound => (s, HError 404)
      | Err _ => (s, HError 500)
      | Ok existing =>
          match body with
          | None => (s, HError 400)
          | Some update =>
              let b := merge_update user existing update in
              match Service_UpdateBudget up now s b with
              | Err ErrBudgetNotFound => (s, HError 404)
              | Err _ => (s, HError 400)
              | Ok s' => (s', HOk 200 (touched now b))
              end
          end
      end
  end.

Definition Handler_DeleteBudget (up : oracle) (s : Service) (headers : string * string) (id : string)
  : Service * response unit :=
  match requireScope headers with
  | None => (s, HError 401)
  | Some scope =>
      if str_eqb id "" then (s, HError 400)
      else match Service_DeleteBudgetScoped up s id (OrgID scope) (TenantID scope) with
      | (s', None) => (s', HOk 204 tt)
      | (s', Some ErrBudgetNotFound) => (s', HError 404)
      | (s', Some _) => (s', HError 500)
      end
  end.

(** The organization and the tenant of the body are ignored. *)
Definition Handler_CheckBudget (up : oracle) (now : Z) (s : Service) (headers : string * string)
    (redact : bool) (body : option (string * string * string)) : response BudgetDecision :=
  match requireScope headers with
  | None => HError 401
  | Some scope =>
      match body with
      | None => HError 400
      | Some (teamID, agentID, userID) =>
          let d := CheckBudget up now (sv_store s) (OrgID scope) teamID agentID userID (TenantID scope) in
          HOk 200 (if redact then redactSpend d else d)
      end
  end.

End Service.
