(* ===== verification/CostFacts.v ===== *)
(** Facts about cost control: budget periods tile time, the budget check is its
    reference definition, alerts are sent once per threshold, spend redaction
    hides every figure, by-id budget routes stay within the caller's tenancy,
    and what budgets without a scope id fail to do. *)

From S2P Require Import Prelude GoFloat GoStrings GoTime TenantScope CostPricing.
From S2P Require Import CostRepository CostService.

Local Open Scope Z_scope.

(** * Periods *)

(** The number of months of a period, 0 for the periods counted in days. *)
Definition period_months (period : string) : Z :=
  if str_eqb period PeriodDaily then 0
  else if str_eqb period PeriodWeekly then 0
  else if str_eqb period PeriodMonthly then 1
  else if str_eqb period PeriodQuarterly then 3
  else if str_eqb period PeriodYearly then 12
  else 1.

Definition period_days (period : string) : Z := if str_eqb period PeriodDaily then 1 else 7.

(** The first day of the window of days or of months that holds day [n]: weeks
    start on Monday. *)
Definition days_floor (period : string) (n : Z) : Z :=
  if str_eqb period PeriodDaily then n else n - (n + 3) mod 7.

Definition months_floor (k n : Z) : Z := k * (month_index n / k).

Lemma Date_months y m : Date y m 1 = first_of (12 * y + (m - 1)) * day_ns.
Proof. unfold Date. rewrite days_of_civil_first. f_equal. lia. Qed.

Lemma getPeriodStart_days now period :
  period_months period = 0 -> getPeriodStart now period = days_floor period (day_of now) * day_ns.
Proof.
  unfold getPeriodStart, period_months, days_floor.
  destruct (civil_of_days (day_of now)) as [[y m] d] eqn:E.
  destruct (civil_roundtrip _ _ _ _ E) as [_ Hc]. unfold Date. rewrite days_of_civil_first in *.
  destruct (str_eqb period PeriodDaily); [intros _; nia|].
  destruct (str_eqb period PeriodWeekly);
    [|by destruct (str_eqb period PeriodMonthly), (str_eqb period PeriodQuarterly),
        (str_eqb period PeriodYearly)].
  intros _. unfold Weekday. destruct (Z.eqb_spec ((day_of now + 4) mod 7) 0);
    (rewrite days_of_civil_first; f_equal; lia_mod).
Qed.

Lemma getPeriodStart_months now period :
  period_months period <> 0 ->
  getPeriodStart now period = first_of (months_floor (period_months period) (day_of now)) * day_ns.
Proof.
  unfold getPeriodStart, period_months, months_floor, month_index.
  destruct (civil_of_days (day_of now)) as [[y m] d] eqn:E.
  destruct (civil_roundtrip _ _ _ _ E) as [[Hm _] _].
  destruct (str_eqb period PeriodDaily); [done|]. destruct (str_eqb period PeriodWeekly); [done|].
  intros _. destruct (str_eqb period PeriodMonthly), (str_eqb period PeriodQuarterly),
    (str_eqb period PeriodYearly); rewrite Date_months; do 2 f_equal; lia_mod.
Qed.

Lemma getPeriodEnd_days period n :
  period_months period = 0 -> getPeriodEnd period (n * day_ns) = (n + period_days period) * day_ns.
Proof.
  unfold getPeriodEnd, period_months, period_days.
  destruct (str_eqb period PeriodDaily); [intros _; apply AddDate_days|].
  destruct (str_eqb period PeriodWeekly); [intros _; apply AddDate_days|].
  by destruct (str_eqb period PeriodMonthly), (str_eqb period PeriodQuarterly),
    (str_eqb period PeriodYearly).
Qed.

Lemma getPeriodEnd_months period M :
  period_months period <> 0 ->
  getPeriodEnd period (first_of M * day_ns) = first_of (M + period_months period) * day_ns.
Proof.
  unfold getPeriodEnd, period_months.
  destruct (str_eqb period PeriodDaily); [done|]. destruct (str_eqb period PeriodWeekly); [done|].
  intros _. destruct (str_eqb period PeriodMonthly), (str_eqb period PeriodQuarterly),
    (str_eqb period PeriodYearly); rewrite AddDate_months; do 2 f_equal; lia.
Qed.

Lemma period_months_pos period : 0 <= period_months period.
Proof. unfold period_months. repeat break_goal; lia. Qed.

(** Budget periods tile time. For every instant and every period name the
    period's window contains the instant; every instant of the window has the
    same window; and the window that follows starts exactly where it ends.
    Leap years, year ends and weeks that start on Monday are covered, and an
    unknown period is a calendar month. *)
Theorem periods_tile_time (period : string) (now : Z) :
  let start := getPeriodStart now period in
  let stop := getPeriodEnd period start in
  start <= now < stop /\
  (forall t, start <= t < stop -> getPeriodStart t period = start) /\
  getPeriodStart stop period = stop.
Proof.
  intros start stop. subst start stop. destruct (decide (period_months period = 0)) as [H0|Hn].
  - rewrite (getPeriodStart_days now), getPeriodEnd_days by done. split; [|split].
    + apply day_window. unfold days_floor, period_days. destruct (str_eqb period PeriodDaily); lia_mod.
    + intros t Ht%day_window. rewrite getPeriodStart_days by done. f_equal.
      unfold days_floor, period_days in *. destruct (str_eqb period PeriodDaily); lia_mod.
    + rewrite getPeriodStart_days, day_of_midnight by done. f_equal.
      unfold days_floor, period_days in *. destruct (str_eqb period PeriodDaily); lia_mod.
  - pose proof (period_months_pos period).
    rewrite (getPeriodStart_months now), getPeriodEnd_months by done.
    set (k := period_months period) in *. unfold months_floor. split; [|split].
    + apply day_window, month_window. pose proof (Z.div_mod (month_index (day_of now)) k Hn).
      pose proof (Z.mod_pos_bound (month_index (day_of now)) k). lia.
    + intros t [Hlo Hhi]%day_window%month_window. rewrite getPeriodStart_months by done.
      fold k. unfold months_floor. do 3 f_equal.
      symmetry. apply (Z.div_unique _ _ _ (month_index (day_of t) - k * (month_index (day_of now) / k))); lia.
    + rewrite getPeriodStart_months, day_of_midnight by done. fold k. unfold months_floor.
      rewrite month_index_first. do 2 f_equal.
      replace (k * (month_index (day_of now) / k) + k) with ((month_index (day_of now) / k + 1) * k) by lia.
      rewrite Z.div_mul by done. lia.
Qed.

(** The last second of a leap February and the Sunday that ends a week. *)
Example periods_ex :
  let t := Date 2024 2 29 + 23 * Hour in
  getPeriodStart t PeriodMonthly = Date 2024 2 1 /\
  getPeriodEnd PeriodMonthly (Date 2024 2 1) = Date 2024 3 1 /\
  getPeriodStart t PeriodQuarterly = Date 2024 1 1 /\
  getPeriodStart (Date 2024 3 3) PeriodWeekly = Date 2024 2 26 /\
  getPeriodEnd PeriodWeekly (Date 2024 2 26) = Date 2024 3 4.
Proof. split_and!; vm_compute; reflexivity. Qed.

(** * The budget check *)

Section Facts.
Context `{U : Unicode} `{D : CostDatabase} (format1 : float64 -> string).

(** The budgets of one scope whose status could be computed, with it. *)
Definition verdicts (up : oracle) (now : Z) (st : CostStore) (budgets : list Budget)
  : list (Budget * BudgetStatus) :=
  omap (fun b => match GetBudgetStatus up now st (b_ID b) with
                 | Ok s => Some (b, s)
                 | Err _ => None
                 end) budgets.

Definition scope_budgets (up : oracle) (st : CostStore) (orgID tenantID : string)
    (target : string * string) : list Budget :=
  if str_eqb target.2 "" then []
  else match GetBudgetsForScope (up "scope" target.1) st target.1 target.2 orgID tenantID with
       | Ok l => l
       | Err _ => []
       end.

(** Every budget the check considers, in its order. *)
Definition considered (up : oracle) (now : Z) (st : CostStore) (orgID tenantID : string)
    (scopes : list (string * string)) : list (Budget * BudgetStatus) :=
  concat ((fun target => verdicts up now st (scope_budgets up st orgID tenantID target)) <$> scopes).

Definition note_exceeded (d : BudgetDecision) (v : Budget * BudgetStatus) : BudgetDecision :=
  if bs_IsExceeded v.2 then exceeded_decision format1 d v.1 v.2 else d.

(** The reference: the first blocking budget decides; otherwise the request is
    allowed and the last exceeded budget is reported. *)
Definition decision_spec (d : BudgetDecision) (vs : list (Budget * BudgetStatus)) : BudgetDecision :=
  match find_first (fun v => bs_IsBlocked v.2) vs with
  | Some v => blocked_decision v.1 v.2
  | None => foldl note_exceeded d vs
  end.

Lemma find_first_app {A} (p : A -> bool) l1 l2 :
  find_first p (l1 ++ l2)
  = match find_first p l1 with Some x => Some x | None => find_first p l2 end.
Proof. induction l1 as [|x l1 IH]; simpl; [done|]. by destruct (p x). Qed.

Lemma check_budgets_spec up now st budgets d :
  check_budgets format1 up now st d budgets
  = match find_first (fun v => bs_IsBlocked v.2) (verdicts up now st budgets) with
    | Some v => inl (blocked_decision v.1 v.2)
    | None => inr (foldl note_exceeded d (verdicts up now st budgets))
    end.
Proof.
  revert d. induction budgets as [|b budgets IH]; intros d; simpl; [done|].
  destruct (GetBudgetStatus up now st (b_ID b)) as [s|e]; simpl; [|apply IH].
  destruct (bs_IsBlocked s); [done|]. rewrite IH. done.
Qed.

Lemma check_scopes_spec up now st orgID tenantID scopes d :
  check_scopes format1 up now st orgID tenantID d scopes
  = decision_spec d (considered up now st orgID tenantID scopes).
Proof.
  revert d. induction scopes as [|[scope id] scopes IH]; intros d; simpl; [done|].
  unfold considered. simpl. fold (considered up now st orgID tenantID scopes).
  unfold scope_budgets at 1. simpl. destruct (str_eqb id ""); [apply IH|].
  destruct (GetBudgetsForScope _ _ _ _ _ _) as [l|e]; [|apply IH].
  rewrite check_budgets_spec. unfold decision_spec. rewrite find_first_app, foldl_app.
  destruct (find_first _ (verdicts _ _ _ _)); [done|]. rewrite IH. done.
Qed.

(** ** Who blocks *)

(** The sum of the usage a budget counts in its current period. *)
Definition spent (now : Z) (st : CostStore) (b : Budget) : float64 :=
  f64_lit (usage_micros st (b_Scope b) (b_ScopeID b) (getPeriodStart now (b_Period b))
             (b_OrgID b) (b_TenantID b)) 1000000.

Definition blocking (now : Z) (st : CostStore) (b : Budget) : bool :=
  f64_leb (b_LimitUSD b) (spent now st b) && str_eqb (b_OnExceed b) OnExceedBlock.

Definition always_up : oracle := fun _ _ => true.

Lemma GetBudget_unique st b :
  NoDup (b_ID <$> cs_budgets st) -> b ∈ cs_budgets st -> GetBudget true st (b_ID b) = Ok b.
Proof.
  intros Hnd Hb. unfold GetBudget. simpl.
  destruct (find_first _ (cs_budgets st)) as [x|] eqn:E.
  - apply find_first_Some in E as [Hx Hid%str_eqb_true]. f_equal.
    apply list_elem_of_lookup in Hb as [i Hi], Hx as [j Hj].
    assert (i = j) as <-; [|congruence].
    eapply (NoDup_lookup _ _ _ (b_ID b) Hnd); rewrite list_lookup_fmap; [by rewrite Hi|].
    rewrite Hj. simpl. by rewrite Hid.
  - rewrite find_first_None, Forall_forall in E. specialize (E b Hb). simpl in E.
    by rewrite str_eqb_refl in E.
Qed.

Lemma scope_budgets_up st orgID tenantID target b :
  b ∈ scope_budgets always_up st orgID tenantID target <->
  target.2 <> "" /\ b ∈ cs_budgets st /\ applies target.1 target.2 orgID tenantID b = true.
Proof.
  unfold scope_budgets. destruct (str_eqb target.2 "") eqn:E.
  - apply str_eqb_true in E. rewrite E. set_solver.
  - apply str_eqb_false in E. unfold GetBudgetsForScope. simpl.
    rewrite SliceStable_perm, elem_of_filter_bool. tauto.
Qed.

Lemma decision_spec_blocked vs :
  d_Allowed (decision_spec allow_decision vs) = false <->
  exists v, v ∈ vs /\ bs_IsBlocked v.2 = true.
Proof.
  unfold decision_spec. destruct (find_first _ vs) as [v|] eqn:E; simpl.
  - split; [intros _|done]. apply find_first_Some in E. eauto.
  - assert (Hf : forall l d, d_Allowed (foldl note_exceeded d l) = d_Allowed d).
    { induction l as [|v l IH]; intros d; simpl; [done|]. rewrite IH. unfold note_exceeded.
      by destruct (bs_IsExceeded v.2). }
    rewrite Hf. split; [done|]. intros (v & Hv & Hb).
    rewrite find_first_None, Forall_forall in E. by rewrite E in Hb.
Qed.

Lemma considered_elem up now st orgID tenantID scopes v :
  v ∈ considered up now st orgID tenantID scopes <->
  exists target, target ∈ scopes /\ v.1 ∈ scope_budgets up st orgID tenantID target /\
    GetBudgetStatus up now st (b_ID v.1) = Ok v.2.
Proof.
  unfold considered. rewrite list_elem_of_In, in_concat.
  setoid_rewrite <- list_elem_of_In. setoid_rewrite list_elem_of_fmap. split.
  - intros (l & (target & -> & Ht) & Hv). exists target. split; [done|].
    unfold verdicts in Hv. apply list_elem_of_omap in Hv as (b & Hb & Hs).
    destruct (GetBudgetStatus up now st (b_ID b)) eqn:E; [|done]. by simplify_eq.
  - intros (target & Ht & Hb & Hs). eexists. split; [eauto|].
    unfold verdicts. apply list_elem_of_omap. exists v.1. rewrite Hs. by destruct v.
Qed.

(** The check in the terms of its own queries: with a
    reachable database and unique budget ids, a request is refused if and only
    if some enabled budget that applies to the caller's agent, team,
    organization or user (its scope, scope id, organization and tenant match,
    empty ones matching everything) has an exceed action of block and has spent
    its limit in the current period. For any database failures, the decision is
    the reference one over the budgets that could be read: the first blocking
    budget in the order agent, team, organization, user; else allowed, with the
    last exceeded budget reported; and a refusal under failures is one without. *)
Lemma CheckBudget_reference (now : Z) (st : CostStore)
    (orgID teamID agentID userID tenantID : string) :
  NoDup (b_ID <$> cs_budgets st) ->
  let scopes := check_order orgID teamID agentID userID in
  (d_Allowed (CheckBudget format1 always_up now st orgID teamID agentID userID tenantID) = false <->
   exists b scope id, b ∈ cs_budgets st /\ (scope, id) ∈ scopes /\ id <> "" /\
     applies scope id orgID tenantID b = true /\ blocking now st b = true) /\
  (forall up,
     CheckBudget format1 up now st orgID teamID agentID userID tenantID
     = decision_spec allow_decision (considered up now st orgID tenantID scopes)) /\
  (forall up,
     d_Allowed (CheckBudget format1 up now st orgID teamID agentID userID tenantID) = false ->
     d_Allowed (CheckBudget format1 always_up now st orgID teamID agentID userID tenantID) = false).
Proof.
  intros Hnd scopes. unfold CheckBudget. fold scopes. split; [|split].
  - rewrite check_scopes_spec, decision_spec_blocked. setoid_rewrite considered_elem. split.
    + intros ([b s] & ([scope id] & Ht & (Hne & Hb & Ha)%scope_budgets_up & Hs) & Hbl). simpl in *.
      exists b, scope, id. split_and!; try done.
      unfold GetBudgetStatus in Hs. change (always_up "get" (b_ID b)) with true in Hs.
      rewrite (GetBudget_unique st b Hnd Hb) in Hs.
      unfold statusForBudget, GetUsageForPeriod in Hs. simpl in Hs. simplify_eq. exact Hbl.
    + intros (b & scope & id & Hb & Ht & Hne & Ha & Hbl).
      assert (HG : GetBudgetStatus always_up now st (b_ID b) = statusForBudget always_up now st b).
      { unfold GetBudgetStatus. change (always_up "get" (b_ID b)) with true.
        by rewrite (GetBudget_unique st b Hnd Hb). }
      unfold statusForBudget, GetUsageForPeriod in HG. simpl in HG.
      eexists (b, _). split; [exists (scope, id); split_and!; [done| |exact HG]|exact Hbl].
      by apply scope_budgets_up.
  - intros up. apply check_scopes_spec.
  - intros up. rewrite !check_scopes_spec, !decision_spec_blocked.
    intros ([b s] & Hv & Hbl). exists (b, s). split; [|done].
    apply considered_elem in Hv as (target & Ht & Hb & Hs). apply considered_elem.
    exists target. split_and!; [done| |].
    + simpl in *. unfold scope_budgets in *. destruct (str_eqb target.2 ""); [done|].
      unfold GetBudgetsForScope in *. by destruct (negb (up "scope" target.1)); [apply elem_of_nil in Hb|].
    + simpl in *. unfold GetBudgetStatus, GetBudget, statusForBudget, GetUsageForPeriod in *. simpl.
      destruct (negb (up "get" (b_ID b))); [done|].
      destruct (find_first _ _) as [x|]; [|done]. by destruct (negb (up "usage" (b_ID x))).
Qed.

(** ** Who blocks, from the tables alone *)

(** A budget binds a request of this organization, team, agent, user and tenant. *)
Definition binds (orgID teamID agentID userID tenantID : string) (b : Budget) : Prop :=
  b_Enabled b = true /\
  (b_Scope b, b_ScopeID b) ∈ [(ScopeOrganization, orgID); (ScopeTeam, teamID); (ScopeAgent, agentID); (ScopeUser, userID)] /\
  (b_OrgID b = "" \/ b_OrgID b = orgID) /\ (b_TenantID b = "" \/ b_TenantID b = tenantID).

(** A usage row is charged to a budget: it names the budget's organization, team, agent
    or user, is of the current period, and of the budget's tenancy where it has one. *)
Definition charged (now : Z) (b : Budget) (row : usage_row) : bool :=
  let u := ur_Record row in
  bool_decide ((b_Scope b, b_ScopeID b) ∈
    [(ScopeOrganization, u_OrgID u); (ScopeTeam, u_TeamID u); (ScopeAgent, u_AgentID u); (ScopeUser, u_UserID u)]) &&
  bool_decide (getPeriodStart now (b_Period b) <= u_Timestamp u) &&
  bool_decide (b_OrgID b = "" \/ b_OrgID b = u_OrgID u) && bool_decide (b_TenantID b = "" \/ b_TenantID b = u_TenantID u).

(** The cost of the rows charged, in millionths of a dollar. *)
Definition charges (now : Z) (st : CostStore) (b : Budget) : Z :=
  foldr (fun row total => if charged now b row then ur_Micros row + total else total) 0 (cs_usage st).

Definition scope_checked (b : Budget) : Prop :=
  b_ScopeID b <> "" /\ b_Scope b ∈ [ScopeOrganization; ScopeTeam; ScopeAgent; ScopeUser].

Lemma sql_eq_opt column v : v <> "" -> sql_eq column v = bool_decide (v = column).
Proof.
  intros Hv. unfold sql_eq. apply eq_bool_prop_intro. rewrite bool_decide_spec, Is_true_true, andb_true_iff, negb_true_iff, str_eqb_false, str_eqb_true.
  naive_solver.
Qed.

Lemma sql_filter_opt column v : (str_eqb v "" || sql_eq column v) = bool_decide (v = "" \/ v = column).
Proof.
  destruct (str_eqb v "") eqn:E; [apply str_eqb_true in E|apply str_eqb_false in E].
  - rewrite bool_decide_eq_true_2 by (by left). done.
  - rewrite sql_eq_opt by done. cbn [orb]. apply bool_decide_ext. naive_solver.
Qed.

Lemma charged_counts now b row :
  scope_checked b ->
  usage_counts (b_Scope b) (b_ScopeID b) (getPeriodStart now (b_Period b)) (b_OrgID b) (b_TenantID b) row = charged now b row.
Proof.
  intros [Hid Hs]. unfold usage_counts, charged. rewrite !sql_filter_opt, sql_eq_opt by done.
  f_equal. f_equal. f_equal.
  - apply bool_decide_ext. rewrite !elem_of_cons, elem_of_nil in Hs. rewrite !elem_of_cons, elem_of_nil. unfold scope_column.
    destruct Hs as [->|[->|[->|[->|[]]]]]; unfold ScopeOrganization, ScopeTeam, ScopeAgent, ScopeUser, ScopeWorkflow;
      rewrite !pair_equal_spec; cbn; naive_solver.
  - apply eq_bool_prop_intro. by rewrite bool_decide_spec, Is_true_true, Z.leb_le.
Qed.

Lemma charges_spent now st b : scope_checked b -> spent now st b = f64_lit (charges now st b) 1000000.
Proof.
  intros Hb. unfold spent, usage_micros, charges. f_equal. induction (cs_usage st) as [|row l IH]; [done|]. cbn [List.filter foldr].
  rewrite charged_counts by done. destruct (charged now b row); [cbn [sum_micros foldr]; fold (sum_micros (List.filter (usage_counts (b_Scope b) (b_ScopeID b) (getPeriodStart now (b_Period b)) (b_OrgID b) (b_TenantID b)) l)); lia|exact IH].
Qed.

Lemma binds_applies orgID teamID agentID userID tenantID b :
  b_ScopeID b <> "" ->
  binds orgID teamID agentID userID tenantID b <->
  exists scope id, (scope, id) ∈ check_order orgID teamID agentID userID /\ id <> "" /\ applies scope id orgID tenantID b = true.
Proof.
  intros Hne. assert (Ht : forall column v, sql_eq column v || str_eqb column "" = true <-> column = "" \/ column = v).
  { intros column v. unfold sql_eq. destruct (str_eqb column "") eqn:E; [apply str_eqb_true in E; naive_solver|]. apply str_eqb_false in E.
    cbn [negb andb]. rewrite orb_false_r, str_eqb_true. naive_solver. }
  unfold binds, applies, check_order. setoid_rewrite andb_true_iff. setoid_rewrite andb_true_iff. setoid_rewrite andb_true_iff. setoid_rewrite andb_true_iff.
  setoid_rewrite Ht. setoid_rewrite orb_true_iff. setoid_rewrite str_eqb_true. split.
  - intros (He & Hin & Ho & Hte). exists (b_Scope b), (b_ScopeID b). split_and!; try done; [rewrite !elem_of_cons in *; tauto|by left].
  - intros (scope & id & Hin & Hid & (((He & Hs) & Hi) & Ho) & Hte). split_and!; try done.
    destruct Hi as [Hi|Hi]; [|done]. rewrite Hs, Hi. rewrite !elem_of_cons in *. tauto.
Qed.

(** C18: The budget check decides exactly by the budgets that bind the request. Let
    budget ids be unique, and let every enabled budget name what it limits: its scope is
    organization, team, agent or user, and its scope id is not empty. With a reachable
    database, a request is refused if and only if some enabled budget of its organization,
    team, agent or user, and of its tenancy where the budget has one, blocks on exceeding
    and the usage charged to it in the current period, as a float64 of dollars, has
    reached its limit. Whatever queries fail, a refusal is one that would also be made
    without the failures. *)
Theorem CheckBudget_exact (now : Z) (st : CostStore)
    (orgID teamID agentID userID tenantID : string) :
  NoDup (b_ID <$> cs_budgets st) -> (forall b, b ∈ cs_budgets st -> b_Enabled b = true -> scope_checked b) ->
  (d_Allowed (CheckBudget format1 always_up now st orgID teamID agentID userID tenantID) = false <->
   exists b, b ∈ cs_budgets st /\ binds orgID teamID agentID userID tenantID b /\ b_OnExceed b = OnExceedBlock /\
     f64_leb (b_LimitUSD b) (f64_lit (charges now st b) 1000000) = true) /\
  (forall up,
     d_Allowed (CheckBudget format1 up now st orgID teamID agentID userID tenantID) = false ->
     d_Allowed (CheckBudget format1 always_up now st orgID teamID agentID userID tenantID) = false).
Proof.
  intros Hnd Hsc. destruct (CheckBudget_reference now st orgID teamID agentID userID tenantID Hnd) as (Href & _ & Hup).
  split; [|exact Hup]. rewrite Href. unfold blocking. split.
  - intros (b & scope & id & Hb & Hin & Hid & Ha & [Hl Ho%str_eqb_true]%andb_true_iff).
    assert (He : b_Enabled b = true) by (unfold applies in Ha; by destruct (b_Enabled b)).
    pose proof (Hsc b Hb He) as Hc. rewrite charges_spent in Hl by done. exists b. split_and!; try done.
    apply binds_applies; [apply Hc|]. by exists scope, id.
  - intros (b & Hb & Hbi & Ho & Hl). pose proof (Hsc b Hb (proj1 Hbi)) as Hc.
    apply binds_applies in Hbi as (scope & id & ? & ? & ?); [|apply Hc]. exists b, scope, id. split_and!; try done.
    rewrite charges_spent, Hl, Ho by done. apply str_eqb_refl.
Qed.

(** * Alerts *)

Definition alert_key (e : AlertEvent) : string * Z := (ae_BudgetID e, ae_Threshold e).

Record alerts_ok (s : Service) : Prop := {
  sent_once : NoDup (alert_key <$> sv_sent s);
  sent_marked : forall e, e ∈ sv_sent s ->
    hasAlertedThreshold s (ae_BudgetID e) (ae_Threshold e) = true;
}.

(** The marks of [s] are marks of [s']. *)
Definition marks_kept (s s' : Service) : Prop :=
  forall id t, hasAlertedThreshold s id t = true -> hasAlertedThreshold s' id t = true.

Lemma marks_mark s id t id' t' :
  hasAlertedThreshold (markAlertedThreshold s id t) id' t' = true <->
  (id = id' /\ t = t') \/ hasAlertedThreshold s id' t' = true.
Proof.
  unfold hasAlertedThreshold, markAlertedThreshold. simpl. rewrite !bool_decide_eq_true.
  destruct (decide (id = id')) as [<-|Hne].
  - rewrite lookup_insert_eq. simpl. set_solver.
  - rewrite lookup_insert_ne by done. naive_solver.
Qed.

Lemma sendAlert_marks up now s b t pct used id t' :
  hasAlertedThreshold (sendAlert up now s b t pct used) id t' = true <->
  (b_ID b = id /\ t = t') \/ hasAlertedThreshold s id t' = true.
Proof. unfold sendAlert. rewrite marks_mark. by destruct (SaveAlert _ _ _). Qed.

Lemma sendAlert_sent up now s b t pct used :
  alert_key <$> sv_sent (sendAlert up now s b t pct used)
  = (alert_key <$> sv_sent s) ++ [(b_ID b, t)].
Proof. unfold sendAlert. simpl. destruct (SaveAlert _ _ _); simpl; by rewrite fmap_app. Qed.

Lemma sendAlert_ok up now s b t pct used :
  alerts_ok s -> hasAlertedThreshold s (b_ID b) t = false ->
  alerts_ok (sendAlert up now s b t pct used).
Proof.
  intros [Hnd Hm] Hh.
  assert (Hfresh : (b_ID b, t) ∉ alert_key <$> sv_sent s).
  { intros (e & He & Hin)%list_elem_of_fmap. injection He as H1 H2.
    by rewrite H1, H2, Hm in Hh. }
  split.
  - rewrite sendAlert_sent. apply NoDup_app. split_and!; [done| |repeat constructor; set_solver].
    intros x Hx ->%list_elem_of_singleton. done.
  - intros e He. rewrite sendAlert_marks.
    apply (list_elem_of_fmap_2 alert_key) in He. rewrite sendAlert_sent in He.
    apply elem_of_app in He as [(e' & Hk & He')%list_elem_of_fmap|Hk%list_elem_of_singleton].
    + right. injection Hk as -> ->. by apply Hm.
    + left. unfold alert_key in Hk. by simplify_eq.
Qed.

(** What one step of the alerting code preserves. *)
Definition alert_step (s s' : Service) : Prop := (alerts_ok s -> alerts_ok s') /\ marks_kept s s'.

#[export] Instance alert_step_preorder : PreOrder alert_step.
Proof.
  split; [intros s; split; [auto|intros id t; auto]|].
  intros s1 s2 s3 [H1 H2] [H3 H4]. split; [auto|]. intros id t H. by apply H4, H2.
Qed.

Lemma foldl_alert_step {A} (f : Service -> A -> Service) l s :
  (forall s x, alert_step s (f s x)) -> alert_step s (foldl f s l).
Proof.
  intros Hf. revert s. induction l as [|x l IH]; intros s; simpl; [reflexivity|].
  etrans; [apply Hf|apply IH].
Qed.

Lemma check_threshold_step up now b pct used s t :
  alert_step s (check_threshold up now b pct used s t).
Proof.
  unfold check_threshold. destruct (f64_leb _ _); [|reflexivity].
  destruct (hasAlertedThreshold s (b_ID b) t) eqn:E; [reflexivity|]. simpl. split.
  - intros Hok. by apply sendAlert_ok.
  - intros id t' H. apply sendAlert_marks. by right.
Qed.

Lemma checkSingleBudget_step up now s b : alert_step s (checkSingleBudget up now s b).
Proof.
  unfold checkSingleBudget. destruct (GetUsageForPeriod _ _ _ _ _ _ _); [|reflexivity].
  apply foldl_alert_step. intros. apply check_threshold_step.
Qed.

Lemma checkBudgetsAsync_step up now s u : alert_step s (checkBudgetsAsync up now s u).
Proof.
  apply foldl_alert_step. intros s' [scope id]. simpl. destruct (str_eqb id ""); [reflexivity|].
  unfold checkBudgetForScope. destruct (GetBudgetsForScope _ _ _ _ _ _); [|reflexivity].
  apply foldl_alert_step. intros. apply checkSingleBudget_step.
Qed.

(** Every threshold a check finds reached is marked afterwards. *)
Lemma check_thresholds_complete up now b pct used l s t :
  t ∈ l -> f64_leb (f64_of_Z t) pct = true ->
  hasAlertedThreshold (foldl (check_threshold up now b pct used) s l) (b_ID b) t = true.
Proof.
  intros Hin Hp. revert s Hin. induction l as [|x l IH]; intros s Hin; [by apply elem_of_nil in Hin|].
  simpl. apply elem_of_cons in Hin as [<-|Hin]; [|by apply IH].
  assert (Hm : hasAlertedThreshold (check_threshold up now b pct used s t) (b_ID b) t = true).
  { unfold check_threshold. rewrite Hp. destruct (hasAlertedThreshold s (b_ID b) t) eqn:E; [done|].
    apply sendAlert_marks. by left. }
  revert Hm. apply (foldl_alert_step (check_threshold up now b pct used) l).
  intros. apply check_threshold_step.
Qed.

(** The calls that run on the service, in any order: the synchronous part of a
    recording, its two background parts, and the budget writes. *)
Inductive cost_op :=
| CRecord (u : option UsageRecord)
| CAggregate (u : UsageRecord)
| CCheck (u : UsageRecord)
| CCreate (b : Budget)
| CUpdate (b : Budget).

Definition or_same (s : Service) (r : result cost_error Service) : Service :=
  match r with Ok s' => s' | Err _ => s end.

Definition run_cost (pricing : PricingConfig) (s : Service) (op : oracle * Z * cost_op) : Service :=
  let '(up, now, o) := op in
  match o with
  | CRecord u => match RecordUsage up now pricing s u with Ok (s', _) => s' | Err _ => s end
  | CAggregate u => updateAggregates up s u
  | CCheck u => checkBudgetsAsync up now s u
  | CCreate b => or_same s (Service_CreateBudget up now s b)
  | CUpdate b => or_same s (Service_UpdateBudget up now s b)
  end.

Lemma set_store_step s st : alert_step s (set_store s st).
Proof. split; [intros [H1 H2]; by split|intros id t; auto]. Qed.

Lemma run_cost_step pricing s op : alert_step s (run_cost pricing s op).
Proof.
  destruct op as [[up now] [u|u|u|b|b]]; simpl.
  - unfold RecordUsage. destruct u as [u|]; [|reflexivity].
    destruct (SaveUsage _ _ _); [apply set_store_step|reflexivity].
  - unfold updateAggregates. destruct (civil_of_days _) as [[y m] d]. apply set_store_step.
  - apply checkBudgetsAsync_step.
  - unfold Service_CreateBudget. destruct (Validate b); [reflexivity|].
    destruct (CreateBudget _ _ _); [apply set_store_step|reflexivity].
  - unfold Service_UpdateBudget. destruct (Validate b); [reflexivity|].
    destruct (UpdateBudget _ _ _ _); [apply set_store_step|reflexivity].
Qed.

(** Budget alerts. However recordings, aggregations, budget checks and
    budget writes follow each other, with any database failures, no alert for
    the same budget and threshold is sent twice; and a check that could read
    the usage leaves every threshold its percentage has reached alerted. *)
Theorem alerts_once_and_complete (pricing : PricingConfig) (s : Service)
    (ops : list (oracle * Z * cost_op)) :
  alerts_ok s ->
  let s' := foldl (run_cost pricing) s ops in
  NoDup (alert_key <$> sv_sent s') /\
  (forall up now b used thresholds t,
     GetUsageForPeriod (up "usage" (b_ID b)) (sv_store s') (b_Scope b) (b_ScopeID b)
       (getPeriodStart now (b_Period b)) (b_OrgID b) (b_TenantID b) = Ok used ->
     b_AlertThresholds b = Some thresholds -> t ∈ thresholds ->
     f64_leb (f64_of_Z t) (percentage_of used (b_LimitUSD b)) = true ->
     hasAlertedThreshold (checkSingleBudget up now s' b) (b_ID b) t = true).
Proof.
  intros Hok s'.
  assert (Hok' : alerts_ok s') by (apply foldl_alert_step; [intros; apply run_cost_step|done]).
  split; [apply Hok'|]. intros up now b used thresholds t Hu Ht Hin Hp.
  unfold checkSingleBudget. rewrite Hu, Ht. by apply check_thresholds_complete.
Qed.

(** * Spend redaction *)

Lemma CheckBudget_message up now st orgID teamID agentID userID tenantID :
  d_Allowed (CheckBudget format1 up now st orgID teamID agentID userID tenantID) = false ->
  d_Message (CheckBudget format1 up now st orgID teamID agentID userID tenantID) <> "".
Proof.
  unfold CheckBudget. rewrite check_scopes_spec. intros H.
  pose proof (proj1 (decision_spec_blocked _) H) as (v & Hv & Hb). unfold decision_spec in *.
  destruct (find_first _ _) eqn:E; [done|].
  rewrite find_first_None, Forall_forall in E. by rewrite E in Hb.
Qed.

(** Spend redaction. What a caller without tenant-wide read authority learns
    from a budget check depends only on the verdict and the action: two checks,
    on any two databases, periods and scopes, with the same verdict and action
    give it the same answer, which carries no amount, limit, percentage, budget
    id or budget name. *)
Theorem redaction_hides_spend up up' now now' st st' o t a u n o' t' a' u' n' :
  let d := CheckBudget format1 up now st o t a u n in
  let d' := CheckBudget format1 up' now' st' o' t' a' u' n' in
  d_Allowed d = d_Allowed d' -> d_Action d = d_Action d' ->
  redactSpend d = redactSpend d' /\
  d_BudgetID (redactSpend d) = "" /\ d_BudgetName (redactSpend d) = "" /\
  d_UsedUSD (redactSpend d) = f64_zero /\ d_LimitUSD (redactSpend d) = f64_zero.
Proof.
  intros d d' Ha Hact. split; [|by split_and!]. unfold redactSpend. rewrite Ha, Hact. f_equal.
  destruct (d_Allowed d') eqn:E; [by destruct (str_eqb (d_Message d) ""), (str_eqb (d_Message d') "")|].
  assert (Hm : str_eqb (d_Message d) "" = false) by (apply str_eqb_false, CheckBudget_message; exact Ha).
  assert (Hm' : str_eqb (d_Message d') "" = false) by (apply str_eqb_false, CheckBudget_message; exact E).
  by rewrite Hm, Hm'.
Qed.

(** * Tenancy of the budget routes *)

Definition owned (scope : Scope) (b : Budget) : bool :=
  sql_eq (b_OrgID b) (OrgID scope) && sql_eq (b_TenantID b) (TenantID scope).

Definition foreign (scope : Scope) (st : CostStore) : list Budget :=
  List.filter (fun b => negb (owned scope b)) (cs_budgets st).

Lemma foreign_update scope (hit : Budget -> bool) f l :
  (forall b, hit b = true -> owned scope b = true /\ owned scope (f b) = true) ->
  List.filter (fun b => negb (owned scope b)) ((fun b => if hit b then f b else b) <$> l)
  = List.filter (fun b => negb (owned scope b)) l.
Proof.
  intros Hf. induction l as [|b l IH]; [done|]. rewrite fmap_cons. simpl.
  destruct (hit b) eqn:E; [destruct (Hf b E) as [-> ->]; exact IH|].
  destruct (owned scope b); simpl; [exact IH|]. by f_equal.
Qed.

Lemma foreign_delete scope (hit : Budget -> bool) l :
  (forall b, hit b = true -> owned scope b = true) ->
  List.filter (fun b => negb (owned scope b)) (List.filter (fun b => negb (hit b)) l)
  = List.filter (fun b => negb (owned scope b)) l.
Proof.
  intros Hf. induction l as [|b l IH]; simpl; [done|].
  destruct (hit b) eqn:E; simpl; [rewrite (Hf b E); exact IH|].
  destruct (owned scope b); simpl; [exact IH|]. by f_equal.
Qed.

Lemma budget_scoped_owned scope id b :
  budget_scoped id (OrgID scope) (TenantID scope) b = true -> owned scope b = true.
Proof. unfold budget_scoped, owned. intros H. bool_simpl. by apply andb_true_iff. Qed.

Lemma UpdateBudget_foreign up now st b scope st' :
  b_OrgID b = OrgID scope -> b_TenantID b = TenantID scope ->
  UpdateBudget up now st b = Ok st' -> foreign scope st' = foreign scope st.
Proof.
  intros Ho Ht. unfold UpdateBudget. rewrite Ho, Ht.
  destruct (requireBudgetScope _ _); [done|]. destruct (negb up); [done|].
  destruct (negb (existsb _ _)); [done|]. destruct (limit_column _) as [limit|]; [|done].
  destruct (budget_constraints _); [|done]. intros [= <-]. unfold foreign. simpl.
  apply foreign_update. intros x Hx%budget_scoped_owned. split; [done|]. exact Hx.
Qed.

Lemma CreateBudget_foreign up st b scope st' :
  owned scope b = true -> CreateBudget up st b = Ok st' -> foreign scope st' = foreign scope st.
Proof.
  intros Hown. unfold CreateBudget. destruct (ValidateRowKeys _ _); [done|]. destruct (negb up); [done|].
  destruct (limit_column _) as [limit|]; [|done]. destruct (existsb _ _); [done|].
  destruct (budget_constraints _); [|done]. intros [= <-]. unfold foreign. simpl.
  rewrite List.filter_app. simpl. unfold owned in *. simpl. rewrite Hown. simpl. apply app_nil_r.
Qed.

(** [New] never yields a scope with an empty key. *)
Lemma requireScope_keys headers scope :
  requireScope headers = Some scope -> OrgID scope <> "" /\ TenantID scope <> "".
Proof.
  destruct headers as [o t]. unfold requireScope, Bind, New. cbv zeta. cbn [OrgID TenantID].
  generalize (TrimSpace (TrimSpace o)) (TrimSpace (TrimSpace t)). intros a b.
  destruct (str_eqb a "") eqn:Eo; [done|]. destruct (str_eqb b "") eqn:Et; [done|].
  cbn [orb]. destruct (_ || _); [done|]. intros [= <-]. cbn [OrgID TenantID].
  split; by apply str_eqb_false.
Qed.

(** The budget routes stay within the caller's tenancy. Whatever the body and
    the id, creating, updating or deleting a budget through the API leaves every
    budget of another organization or tenant as it was, and a request without a
    usable organization and tenant changes nothing at all. *)
Theorem budget_routes_isolated up now s headers user id body upd :
  let created := Handler_CreateBudget up now s headers user body in
  let updated := Handler_UpdateBudget up now s headers user id upd in
  let deleted := Handler_DeleteBudget up s headers id in
  match requireScope headers with
  | None => fst created = s /\ fst updated = s /\ fst deleted = s
  | Some scope =>
      foreign scope (sv_store (fst created)) = foreign scope (sv_store s) /\
      foreign scope (sv_store (fst updated)) = foreign scope (sv_store s) /\
      foreign scope (sv_store (fst deleted)) = foreign scope (sv_store s)
  end.
Proof.
  intros created updated deleted. subst created updated deleted.
  unfold Handler_CreateBudget, Handler_UpdateBudget, Handler_DeleteBudget.
  destruct (requireScope headers) as [scope|] eqn:Es; [|by split_and!].
  apply requireScope_keys in Es as [Ho%str_eqb_false Ht%str_eqb_false]. split; [|split].
  - destruct body as [q|]; [|exact eq_refl]. unfold Service_CreateBudget. destruct (Validate _) as [c|]; [destruct c; exact eq_refl|].
    destruct (CreateBudget _ _ _) as [st|e] eqn:E; [|destruct e; exact eq_refl]. simpl.
    eapply CreateBudget_foreign; [|exact E]. unfold owned, sql_eq. simpl.
    by rewrite Ho, Ht, !str_eqb_refl.
  - destruct (str_eqb id ""); [exact eq_refl|]. unfold GetBudgetScoped.
    destruct (requireBudgetScope _ _) as [c|]; [destruct c; exact eq_refl|].
    destruct (negb (up "get" id)); [exact eq_refl|].
    destruct (find_first _ _) as [x|] eqn:Ef; [|exact eq_refl]. destruct upd as [upd|]; [|exact eq_refl].
    unfold Service_UpdateBudget. destruct (Validate _) as [c|]; [destruct c; exact eq_refl|].
    destruct (UpdateBudget _ _ _ _) as [st|e] eqn:E; [|destruct e; exact eq_refl]. simpl.
    apply find_first_Some in Ef as [_ Hx]. unfold budget_scoped, sql_eq in Hx. bool_simpl.
    eapply UpdateBudget_foreign; [| |exact E]; simpl; by apply str_eqb_true.
  - destruct (str_eqb id ""); [exact eq_refl|]. unfold Service_DeleteBudgetScoped, DeleteBudgetScoped.
    destruct (requireBudgetScope _ _) as [c|]; [destruct c; exact eq_refl|].
    destruct (negb (up "delete" id)); [exact eq_refl|]. destruct (existsb _ _); [|exact eq_refl]. simpl.
    unfold foreign, delete_where. simpl. apply foreign_delete. apply budget_scoped_owned.
Qed.

(** * Budgets without a scope id *)

Lemma unscoped_micros st scope periodStart orgID tenantID :
  usage_micros st scope "" periodStart orgID tenantID = 0.
Proof.
  unfold usage_micros.
  replace (List.filter _ (cs_usage st)) with (@nil usage_row); [done|].
  symmetry. apply filter_negb_nil, Forall_forall. intros row _. unfold usage_counts, sql_eq.
  by destruct (str_eqb (scope_column scope (ur_Record row)) "").
Qed.

Lemma positive_above_zero f : f64_ltb f64_zero f = true -> f64_leb f (f64_lit 0 1000000) = false.
Proof.
  change (f64_lit 0 1000000) with f64_zero. by destruct f as [[]|[]| |[] ? ?].
Qed.

(** A budget without a scope id is inert: it applies to every request of its
    scope, but no usage is ever counted against it, so it is never exceeded and
    never blocks, whatever is spent. The same holds of every budget of the
    workflow scope, which no check considers. *)
Theorem unscoped_budget_inert (up : oracle) (now : Z) (st : CostStore) (b : Budget) :
  f64_ltb f64_zero (b_LimitUSD b) = true ->
  (b_ScopeID b = "" ->
   (forall s, statusForBudget up now st b = Ok s ->
      bs_UsedUSD s = f64_zero /\ bs_IsExceeded s = false /\ bs_IsBlocked s = false) /\
   (b_Enabled b = true ->
    forall scopeID, applies (b_Scope b) scopeID (b_OrgID b) (b_TenantID b) b = true)) /\
  (b_Scope b = ScopeWorkflow -> forall orgID teamID agentID userID tenantID v,
     v ∈ considered up now st orgID tenantID (check_order orgID teamID agentID userID) ->
     v.1 <> b).
Proof.
  intros Hlim. split.
  - intros Hid. split.
    + intros s. unfold statusForBudget, GetUsageForPeriod. rewrite Hid.
      destruct (negb (up "usage" (b_ID b))); [done|]. rewrite unscoped_micros, positive_above_zero by done.
      intros [= <-]. by split_and!.
    + intros He scopeID. unfold applies, sql_eq. rewrite He, Hid, str_eqb_refl. simpl.
      rewrite orb_true_r. simpl.
      destruct (str_eqb (b_OrgID b) ""), (str_eqb (b_TenantID b) ""); by rewrite ?str_eqb_refl.
  - intros Hs orgID teamID agentID userID tenantID v (target & Ht & Hb & _)%considered_elem Heq.
    rewrite Heq in Hb.
    unfold scope_budgets in Hb. destruct (str_eqb target.2 ""); [by apply elem_of_nil in Hb|].
    unfold GetBudgetsForScope in Hb. destruct (negb _); [by apply elem_of_nil in Hb|].
    rewrite SliceStable_perm, elem_of_filter_bool in Hb. destruct Hb as [_ Ha].
    unfold applies in Ha. bool_simpl. rewrite Hs in *.
    match goal with H : str_eqb ScopeWorkflow _ = true |- _ => apply str_eqb_true in H end.
    unfold check_order in Ht. rewrite !elem_of_cons, elem_of_nil in Ht.
    by destruct Ht as [?|[?|[?|[?|[]]]]]; subst.
Qed.

End Facts.

(** * Concrete runs *)

#[local] Existing Instance ascii_unicode.

(** A database that keeps floats as they are and counts whole micro-dollars of
    the amounts used below. *)
Definition plain_cost_db : CostDatabase := {|
  limit_column := Some;
  micros_column f := if f64_leb (f64_of_Z 1) f then Some 1000000 else Some 3000;
  cents_column f := if f64_leb (f64_of_Z 1) f then Some 100 else Some 0;
  percentage_column f := if f64_ltb f (f64_of_Z 1000) then Some f else None;
  amount_column := Some |}.
#[local] Existing Instance plain_cost_db.

Definition ex_budget (scopeID : string) (limit : Z) : Budget :=
  mkBudget "b1" "monthly cap" "" ScopeOrganization scopeID (f64_of_Z limit) PeriodMonthly
    OnExceedBlock (Some [50; 100]) true "org" "org" "" "" 0 0.
Definition ex_usage (t : Z) (cost : float64) : UsageRecord :=
  mkUsage "r" t "org" "org" "" "" "" "" "openai" "gpt-4o" 10 10 cost "completion" false.
Definition ex_service (scopeID : string) (limit : Z) (usage : list Z) : Service :=
  mkService (mkCostStore [ex_budget scopeID limit]
               ((fun t => mkUsageRow (ex_usage t f64_one) 1000000) <$> usage) [] []) ∅ [].
Definition ex_check (s : Service) (now : Z) : BudgetDecision :=
  CheckBudget (fun _ => "") always_up now (sv_store s) "org" "" "" "" "org".

Definition jan : Z := Date 2025 1 15.
Definition feb : Z := Date 2025 2 15.

Lemma CheckBudget_exact_witness :
  d_Allowed (ex_check (ex_service "org" 2 [jan; jan]) jan) = false /\
  d_Allowed (ex_check (ex_service "org" 2 [jan; jan]) feb) = true.
Proof.
  split.
  - apply (proj1 (CheckBudget_exact (fun _ => "") jan (sv_store (ex_service "org" 2 [jan; jan]))
                    "org" "" "" "" "org" (NoDup_singleton _)
                    ltac:(intros b ->%list_elem_of_singleton _; split; [discriminate|left]))).
    exists (ex_budget "org" 2). split; [left|]. split; [split_and!; [reflexivity|left|by right|by right]|].
    split; [reflexivity|vm_compute; reflexivity].
  - vm_compute. reflexivity.
Defined.

Lemma alerts_once_and_complete_witness :
  NoDup (alert_key <$> sv_sent (foldl (run_cost ∅) (ex_service "org" 2 [jan; jan])
    [(always_up, jan, CCheck (ex_usage jan f64_one)); (always_up, jan, CCheck (ex_usage jan f64_one))])).
Proof. apply alerts_once_and_complete. split; simpl; [constructor|]. intros e He. by apply elem_of_nil in He. Defined.

Lemma redaction_hides_spend_witness :
  redactSpend (ex_check (ex_service "org" 2 [jan; jan]) jan)
  = redactSpend (ex_check (ex_service "org" 1 [jan]) jan).
Proof.
  apply (redaction_hides_spend (fun _ => "") always_up always_up jan jan
           (sv_store (ex_service "org" 2 [jan; jan])) (sv_store (ex_service "org" 1 [jan]))
           "org" "" "" "" "org" "org" "" "" "" "org"); vm_compute; reflexivity.
Defined.

(** A one-dollar blocking budget without a scope id, and three dollars spent by
    the organization this month: the request is allowed. *)
Lemma unscoped_budget_inert_witness :
  d_Allowed (ex_check (ex_service "" 1 [jan; jan; jan]) jan) = true /\
  forall s, statusForBudget always_up jan (sv_store (ex_service "" 1 [jan; jan; jan])) (ex_budget "" 1)
            = Ok s -> bs_IsBlocked s = false.
Proof.
  split; [vm_compute; reflexivity|]. intros s Hs.
  apply (proj1 (unscoped_budget_inert always_up jan
           (sv_store (ex_service "" 1 [jan; jan; jan])) (ex_budget "" 1) eq_refl) eq_refl). exact Hs.
Defined.

(** The two thresholds are alerted in January; in February, with the limit spent
    again, nothing is: the marks are not reset at the end of a period. *)
Example second_period_silent :
  let s := ex_service "org" 2 [jan; jan; feb; feb] in
  let s1 := checkBudgetsAsync always_up jan s (ex_usage jan f64_one) in
  let s2 := checkBudgetsAsync always_up feb s1 (ex_usage feb f64_one) in
  length (sv_sent s1) = 2%nat /\ sv_sent s2 = sv_sent s1.
Proof. split; vm_compute; reflexivity. Qed.

(** Two checks that both look before either marks: the alert is sent twice. *)
Example alert_race :
  let s := ex_service "org" 2 [jan; jan] in
  let b := ex_budget "org" 2 in
  hasAlertedThreshold s "b1" 100 = false /\
  alert_key <$> sv_sent (sendAlert always_up jan (sendAlert always_up jan s b 100 (f64_of_Z 100) (f64_of_Z 2))
                            b 100 (f64_of_Z 100) (f64_of_Z 2))
  = [("b1", 100); ("b1", 100)].
Proof. split; vm_compute; reflexivity. Qed.

(** At ten times the limit the alert no longer fits its column: it is sent and
    marked, and not stored. *)
Example large_percentage_not_stored :
  let s := sendAlert always_up jan (ex_service "org" 2 []) (ex_budget "org" 2) 100 (f64_of_Z 1000) (f64_of_Z 20) in
  hasAlertedThreshold s "b1" 100 = true /\ cs_alerts (sv_store s) = [].
Proof. split; vm_compute; reflexivity. Qed.

(** A hundred requests of 0.3 cents: the aggregate, kept in cents, stays at 0. *)
Example small_costs_vanish :
  let s := foldl (fun s _ => updateAggregates always_up s (ex_usage jan (f64_lit 3 1000)))
             (ex_service "org" 2 []) (replicate 100 tt) in
  (fun a => (a_TotalCost a, a_RequestCount a)) <$>
    List.filter (fun a => str_eqb (a_Scope a) "organization" && str_eqb (a_Period a) AggregateMonthly)
      (cs_aggregates (sv_store s)) = [(0, 100)].
Proof. vm_compute. reflexivity. Qed.
