(* ===== verification/Egress.v ===== *)
(** The egress guard, src/platform/shared/egress/egress.go: which addresses a
    surface may dial, and the dialer that refuses the others.

    The range table is written with the source's literals and parsed by
    [mustCIDR]; a policy is the set of range names it exempts.  The dialer runs
    against a resolver and a network that may answer differently at every call:
    both see the whole trace so far, so a resolver that rebinds a name between
    two lookups is one of the parameters the theorems quantify over. *)

From S2P Require Import Prelude GoStrings GoStrconv GoNet.

Local Open Scope Z_scope.

(** * Ranges *)

Definition RangeLoopback : string := "loopback".
Definition RangeUnspecified : string := "unspecified".
Definition RangeThisNetwork : string := "this-network".
Definition RangeRFC1918 : string := "rfc1918-private".
Definition RangeULA : string := "ipv6-unique-local".
Definition RangeLinkLocal : string := "link-local".
Definition RangeLinkLocalMulticast : string := "link-local-multicast".
Definition RangeCGNAT : string := "cgnat".
Definition RangeIETFProtocol : string := "ietf-protocol-assignments".
Definition RangeTestNet1 : string := "test-net-1".
Definition RangeTestNet2 : string := "test-net-2".
Definition RangeTestNet3 : string := "test-net-3".
Definition RangeBenchmarking : string := "benchmarking".
Definition RangeMulticast : string := "multicast".
Definition RangeReserved : string := "reserved".
Definition RangeBroadcast : string := "broadcast".
Definition RangeIPv6Documentation : string := "ipv6-documentation".

Record entry := mkEntry { e_r : string; e_cidr : IPNet }.

(** [mustCIDR] panics on a literal that does not parse; [literals_parse] shows
    that no literal of the file does, so the default is never taken. *)
Definition mustCIDR (s : string) : IPNet := default (mkIPNet [] []) (ParseCIDR s).

Definition preUnwrap : list entry := [
  mkEntry RangeLoopback (mustCIDR "::1/128");
  mkEntry RangeUnspecified (mustCIDR "::/128")].

Definition table : list entry := [
  mkEntry RangeLoopback (mustCIDR "127.0.0.0/8");
  mkEntry RangeUnspecified (mustCIDR "0.0.0.0/32");
  mkEntry RangeThisNetwork (mustCIDR "0.0.0.0/8");
  mkEntry RangeRFC1918 (mustCIDR "10.0.0.0/8");
  mkEntry RangeRFC1918 (mustCIDR "172.16.0.0/12");
  mkEntry RangeRFC1918 (mustCIDR "192.168.0.0/16");
  mkEntry RangeLinkLocal (mustCIDR "169.254.0.0/16");
  mkEntry RangeCGNAT (mustCIDR "100.64.0.0/10");
  mkEntry RangeIETFProtocol (mustCIDR "192.0.0.0/24");
  mkEntry RangeTestNet1 (mustCIDR "192.0.2.0/24");
  mkEntry RangeBenchmarking (mustCIDR "198.18.0.0/15");
  mkEntry RangeTestNet2 (mustCIDR "198.51.100.0/24");
  mkEntry RangeTestNet3 (mustCIDR "203.0.113.0/24");
  mkEntry RangeBroadcast (mustCIDR "255.255.255.255/32");
  mkEntry RangeLinkLocalMulticast (mustCIDR "224.0.0.0/24");
  mkEntry RangeMulticast (mustCIDR "224.0.0.0/4");
  mkEntry RangeReserved (mustCIDR "240.0.0.0/4");
  mkEntry RangeLinkLocal (mustCIDR "fe80::/10");
  mkEntry RangeULA (mustCIDR "fc00::/7");
  mkEntry RangeLinkLocalMulticast (mustCIDR "ff02::/16");
  mkEntry RangeMulticast (mustCIDR "ff00::/8");
  mkEntry RangeIPv6Documentation (mustCIDR "2001:db8::/32")].

Definition AllRanges : list string :=
  SliceStable str_before (remove_dups (e_r <$> preUnwrap ++ table)).

Definition nat64WellKnown : IPNet := mustCIDR "64:ff9b::/96".
Definition sixToFour : IPNet := mustCIDR "2002::/16".
Definition v4Compatible : IPNet := mustCIDR "::/96".
Definition v4Translated : IPNet := mustCIDR "::ffff:0:0:0/96".

(** [ip[i]] of a slice known to be long enough. *)
Definition ip_byte (ip : IP) (i : nat) : Z := nth i ip 0.

Definition embeddedIPv4 (ip : IP) : option IP :=
  match To4 ip with
  | Some v4 => Some v4
  | None =>
      if negb (length ip =? IPv6len)%nat then None
      else if Contains_ip nat64WellKnown ip || Contains_ip v4Compatible ip
              || Contains_ip v4Translated ip
      then To4 (IPv4 (ip_byte ip 12) (ip_byte ip 13) (ip_byte ip 14) (ip_byte ip 15))
      else if Contains_ip sixToFour ip
      then To4 (IPv4 (ip_byte ip 2) (ip_byte ip 3) (ip_byte ip 4) (ip_byte ip 5))
      else None
  end.

Definition malformed (ip : IP) : bool :=
  negb (length ip =? IPv4len)%nat && negb (length ip =? IPv6len)%nat.

Definition first_entry (l : list entry) (ip : IP) : option string :=
  e_r <$> find_first (fun e => Contains_ip (e_cidr e) ip) l.

Definition Classify (ip : IP) : option string :=
  if malformed ip then None
  else match first_entry preUnwrap ip with
       | Some r => Some r
       | None =>
           let ip := default ip (embeddedIPv4 ip) in
           if IsLinkLocalMulticast ip then Some RangeLinkLocalMulticast
           else first_entry table ip
       end.

(** * Policies *)

Record Policy := mkPolicy { p_name : string; p_exempt : gset string }.

(** [None]: the constructor panics on an unknown range name. *)
Definition NewPolicy (name : string) (exempt : list string) : option Policy :=
  if forallb (fun r => str_in r AllRanges) exempt
  then Some (mkPolicy name (list_to_set exempt)) else None.

Definition Exempts (p : Policy) (r : string) : bool := bool_decide (r ∈ p_exempt p).

Definition Blocked (p : Policy) : list string :=
  List.filter (fun r => negb (Exempts p r)) AllRanges.

Definition Blocks (p : Policy) (ip : IP) : bool :=
  if malformed ip then true
  else match Classify ip with
       | None => false
       | Some r => negb (Exempts p r)
       end.

(** The explanation of a refusal; the wording of the message is left out. *)
Inductive reason :=
| ReasonMalformed (policy : string)
| ReasonRange (ip : IP) (r policy : string).

Definition Reason (p : Policy) (ip : IP) : option reason :=
  if negb (Blocks p ip) then None
  else match Classify ip with
       | None => Some (ReasonMalformed (p_name p))
       | Some r => Some (ReasonRange ip r (p_name p))
       end.

Definition the_policy (name : string) (exempt : list string) : Policy :=
  default (mkPolicy name ∅) (NewPolicy name exempt).

Definition ConnectorEgress : Policy := the_policy "connector-egress" [RangeBenchmarking].
Definition CallbackEgress : Policy := the_policy "callback-egress" [].
Definition OIDCLiteral : Policy := the_policy "oidc-literal" [RangeLoopback].

(** [strings.EqualFold(s, t)] for an ASCII [t] without k and s, the two letters
    that have a non-ASCII case variant. *)
Definition EqualFold_ascii (s t : string) : bool :=
  let fold b := if in_range 65 90 b then b + 32 else b in
  bool_decide ((fold <$> bytes s) = (fold <$> bytes t)).

(** The warning that engaging an escape hatch logs. *)
Record BypassWarning := mkBypass {
  bw_surface : string; bw_envVar : string; bw_ranges : list string }.

Definition AllowPrivateFromEnv (getenv : string -> string) (envVar surface : string) (p : Policy)
  : bool * option BypassWarning :=
  if negb (EqualFold_ascii (TrimSpace (getenv envVar)) "true") then (false, None)
  else (true, Some (mkBypass surface envVar (Blocked p))).

(** * The dialer *)

Inductive Event :=
| EvLookup (host : string)
| EvDial (network : string) (ip : IP) (port : string).

Inductive DialError :=
| InvalidAddress (e : AddrError)
| LookupFailed (e : string)
| NoAddresses (host : string)
| AddressBlocked (ip : IP)
| DialFailed (errs : list string).

Section Dialer.
Context {Conn : Type}.
(** [Resolver.LookupIPAddr] and [net.Dialer.DialContext] on the literal of an
    address; both may depend on everything that happened before. *)
Variable LookupIPAddr : list Event -> string -> result string (list IP).
Variable DialContext : list Event -> string -> IP -> string -> result string Conn.

(** The loop over the validated addresses. *)
Fixpoint dial_each (network port : string) (ips : list IP) (errs : list string) (tr : list Event)
  : result DialError Conn * list Event :=
  match ips with
  | [] => (Err (DialFailed errs), tr)
  | ip :: ips' =>
      let tr' := tr ++ [EvDial network ip port] in
      match DialContext tr network ip port with
      | Ok conn => (Ok conn, tr')
      | Err e => dial_each network port ips' (errs ++ [e]) tr'
      end
  end.

Definition SafeDialContext (p : Policy) (network addr : string) (tr : list Event)
  : result DialError Conn * list Event :=
  match SplitHostPort addr with
  | Err e => (Err (InvalidAddress e), tr)
  | Ok (host, port) =>
      let tr' := tr ++ [EvLookup host] in
      match LookupIPAddr tr host with
      | Err e => (Err (LookupFailed e), tr')
      | Ok ips =>
          if (length ips =? 0)%nat then (Err (NoAddresses host), tr')
          else match find_first (Blocks p) ips with
               | Some ip => (Err (AddressBlocked ip), tr')
               | None => dial_each network port ips [] tr'
               end
      end
  end.
End Dialer.

(** The egress guard is correct: the classifier agrees with intervals of
    addresses written as numbers, in every IPv6 encoding of an IPv4 address;
    policies are monotone in their exemptions; the dialer only ever dials
    addresses it validated, whatever the resolver answers next. *)

(** * The literals *)

Definition literals : list string :=
  ["::1/128"; "::/128"; "127.0.0.0/8"; "0.0.0.0/32"; "0.0.0.0/8"; "10.0.0.0/8"; "172.16.0.0/12";
   "192.168.0.0/16"; "169.254.0.0/16"; "100.64.0.0/10"; "192.0.0.0/24"; "192.0.2.0/24";
   "198.18.0.0/15"; "198.51.100.0/24"; "203.0.113.0/24"; "255.255.255.255/32"; "224.0.0.0/24";
   "224.0.0.0/4"; "240.0.0.0/4"; "fe80::/10"; "fc00::/7"; "ff02::/16"; "ff00::/8";
   "2001:db8::/32"; "64:ff9b::/96"; "2002::/16"; "::/96"; "::ffff:0:0:0/96"].

(** The package initialises without a panic: every literal parses and every
    policy names known ranges. *)
Lemma literals_parse : Forall (fun s => is_Some (ParseCIDR s)) literals.
Proof.
  apply Forall_forall. intros s Hs. apply (bool_decide_unpack _).
  assert (Hall : forallb (fun s => bool_decide (is_Some (ParseCIDR s))) literals = true)
    by (vm_compute; reflexivity).
  rewrite forallb_forall in Hall. apply Is_true_true, Hall. by apply list_elem_of_In.
Qed.

Lemma policies_exist :
  is_Some (NewPolicy "connector-egress" [RangeBenchmarking]) /\
  is_Some (NewPolicy "callback-egress" []) /\ is_Some (NewPolicy "oidc-literal" [RangeLoopback]).
Proof. repeat split; eexists; vm_compute; reflexivity. Qed.

(** * Blocks as intervals *)

(** The interval of a block: address length in bytes, first address, number of
    host bits; [None] when the mask is not a prefix or the block not aligned. *)
Definition block_of (n : IPNet) : option (nat * Z * Z) :=
  match networkNumberAndMask n with
  | None => None
  | Some (nn, m) =>
      let L := length nn in
      let bits := Z.log2 (2 ^ (8 * Z.of_nat L) - ip_value m) in
      if bool_decide (m = CIDRMask (8 * Z.of_nat L - bits) L)
         && (0 <=? bits) && (bits <=? 8 * Z.of_nat L)
         && forallb (fun b => (0 <=? b) && (b <? 256)) nn && (ip_value nn mod 2 ^ bits =? 0)
      then Some (L, ip_value nn, bits) else None
  end.

Lemma block_of_contains n L lo bits ip :
  block_of n = Some (L, lo, bits) -> default ip (To4 ip) = ip -> well_formed_bytes ip ->
  Contains_ip n ip = if (length ip =? L)%nat then block_contains lo bits ip else false.
Proof.
  unfold block_of. destruct (networkNumberAndMask n) as [[nn m]|] eqn:En; [|done].
  cbv zeta. generalize (Z.log2 (2 ^ (8 * Z.of_nat (length nn)) - ip_value m)). intros b H H4 Hw.
  case_match; [|done]. simplify_eq. bool_simpl.
  assert (Hwn : well_formed_bytes nn).
  { apply Forall_forall. intros x Hx%list_elem_of_In.
    match goal with Hf : forallb _ nn = true |- _ => rewrite forallb_forall in Hf;
      specialize (Hf _ Hx) end. simpl in *. lia. }
  destruct (Nat.eqb_spec (length ip) (length nn)) as [Hlen|Hlen].
  - pose proof (Contains_interval n (8 * Z.of_nat (length nn) - bits) nn ip) as HH.
    replace (8 * Z.of_nat (length nn) - (8 * Z.of_nat (length nn) - bits)) with bits in HH by lia.
    apply HH; [|lia|done|lia|done..].
    rewrite En. do 2 f_equal. done.
  - unfold Contains_ip. rewrite H4, En. apply Nat.eqb_neq in Hlen. by rewrite Hlen.
Qed.

(** The intervals of the entries of one address length, in table order. *)
Definition interval : Type := string * (Z * Z).

Definition intervals_of (L : nat) (l : list entry) : option (list interval) :=
  foldr (fun e acc =>
    match block_of (e_cidr e), acc with
    | Some (L', lo, bits), Some ivs =>
        Some (if (L' =? L)%nat then (e_r e, (lo, lo + 2 ^ bits - 1)) :: ivs else ivs)
    | _, _ => None
    end) (Some []) l.

Definition in_interval (v : Z) (i : interval) : bool := (i.2.1 <=? v) && (v <=? i.2.2).

Definition lookup_interval (ivs : list interval) (v : Z) : option string :=
  fst <$> find_first (in_interval v) ivs.

Lemma first_entry_intervals L l ivs ip :
  intervals_of L l = Some ivs -> default ip (To4 ip) = ip -> well_formed_bytes ip ->
  length ip = L -> first_entry l ip = lookup_interval ivs (ip_value ip).
Proof.
  intros Hi H4 Hw HL. revert ivs Hi. induction l as [|e l IH]; intros ivs Hi; simpl in Hi.
  { by simplify_eq. }
  destruct (block_of (e_cidr e)) as [[[L' lo] bits]|] eqn:Eb; [|done].
  destruct (intervals_of L l) as [ivs'|] eqn:Ef; [|done]. specialize (IH _ eq_refl).
  unfold first_entry, lookup_interval in *. cbn [find_first].
  rewrite (block_of_contains _ _ _ _ _ Eb) by done. simplify_eq.
  rewrite Nat.eqb_sym. destruct (Nat.eqb_spec L' (length ip)) as [->|Hne]; [|done].
  cbn [find_first]. unfold block_contains, in_interval at 1. cbn [fst snd].
  replace (ip_value ip <=? lo + 2 ^ bits - 1) with (ip_value ip <? lo + 2 ^ bits)
    by (apply eq_true_iff_eq; rewrite Z.ltb_lt, Z.leb_le; lia).
  destruct (_ && _); [done|]. exact IH.
Qed.

(** * The numeric specification *)

Definition ip4 (a b c d : Z) : Z := ip_value [a; b; c; d].

(** IPv4, first match wins. *)
Definition reserved4 : list interval := [
  (RangeLoopback, (ip4 127 0 0 0, ip4 127 255 255 255));
  (RangeUnspecified, (ip4 0 0 0 0, ip4 0 0 0 0));
  (RangeThisNetwork, (ip4 0 0 0 0, ip4 0 255 255 255));
  (RangeRFC1918, (ip4 10 0 0 0, ip4 10 255 255 255));
  (RangeRFC1918, (ip4 172 16 0 0, ip4 172 31 255 255));
  (RangeRFC1918, (ip4 192 168 0 0, ip4 192 168 255 255));
  (RangeLinkLocal, (ip4 169 254 0 0, ip4 169 254 255 255));
  (RangeCGNAT, (ip4 100 64 0 0, ip4 100 127 255 255));
  (RangeIETFProtocol, (ip4 192 0 0 0, ip4 192 0 0 255));
  (RangeTestNet1, (ip4 192 0 2 0, ip4 192 0 2 255));
  (RangeBenchmarking, (ip4 198 18 0 0, ip4 198 19 255 255));
  (RangeTestNet2, (ip4 198 51 100 0, ip4 198 51 100 255));
  (RangeTestNet3, (ip4 203 0 113 0, ip4 203 0 113 255));
  (RangeBroadcast, (ip4 255 255 255 255, ip4 255 255 255 255));
  (RangeLinkLocalMulticast, (ip4 224 0 0 0, ip4 224 0 0 255));
  (RangeMulticast, (ip4 224 0 0 0, ip4 239 255 255 255));
  (RangeReserved, (ip4 240 0 0 0, ip4 255 255 255 255))].

(** IPv6: a block is given by its leading groups. *)
Definition block6 (lead bits : Z) : Z * Z := (lead * 2 ^ bits, (lead + 1) * 2 ^ bits - 1).

Definition reserved6 : list interval := [
  (RangeLinkLocal, block6 0x3fa 118);
  (RangeULA, block6 0x7e 121);
  (RangeLinkLocalMulticast, block6 0xff02 112);
  (RangeMulticast, block6 0xff 120);
  (RangeIPv6Documentation, block6 0x20010db8 96)].

(** The IPv4 address a 16-byte address carries: mapped, NAT64, compatible,
    translated, 6to4. *)
Definition carried (v : Z) : option Z :=
  let lead := v / 2 ^ 32 in
  if (lead =? 0xffff) || (lead =? 0x64ff9b * 2 ^ 64) || (lead =? 0) || (lead =? 0xffff0000)
  then Some (v mod 2 ^ 32)
  else if v / 2 ^ 112 =? 0x2002 then Some (v / 2 ^ 80 mod 2 ^ 32)
  else None.

Definition classify_value4 (v : Z) : option string := lookup_interval reserved4 v.

Definition classify_value6 (v : Z) : option string :=
  if v =? 1 then Some RangeLoopback
  else if v =? 0 then Some RangeUnspecified
  else match carried v with
       | Some v4 => classify_value4 v4
       | None =>
           if (v / 2 ^ 120 =? 0xff) && (v / 2 ^ 112 mod 16 =? 2)
           then Some RangeLinkLocalMulticast
           else lookup_interval reserved6 v
       end.

Definition classify_value (ip : IP) : option string :=
  if (length ip =? 4)%nat then classify_value4 (ip_value ip)
  else if (length ip =? 16)%nat then classify_value6 (ip_value ip)
  else None.

Lemma table_intervals4 : intervals_of 4 table = Some reserved4.
Proof. vm_compute. reflexivity. Qed.
Lemma table_intervals6 : intervals_of 16 table = Some reserved6.
Proof. vm_compute. reflexivity. Qed.

(** * The classifier meets the specification *)

Lemma To4_v4 ip : length ip = 4%nat -> To4 ip = Some ip.
Proof. intros H. unfold To4. by rewrite H. Qed.

(** Every 4-byte multicast address at link-local scope is in the table's block,
    so the scope test in front of the table changes nothing for IPv4. *)
Lemma link_local_multicast4 ip :
  length ip = 4%nat -> well_formed_bytes ip -> IsLinkLocalMulticast ip = true ->
  lookup_interval reserved4 (ip_value ip) = Some RangeLinkLocalMulticast.
Proof.
  intros Hl Hw. unfold IsLinkLocalMulticast. rewrite To4_v4 by done.
  destruct ip as [|a [|b [|c [|d [|? ?]]]]]; try done. intros H. bool_simpl.
  assert (a = 224 /\ b = 0 /\ c = 0) as (-> & -> & ->) by lia.
  do 3 apply Forall_cons in Hw as [_ Hw]. apply Forall_cons in Hw as [Hd _].
  assert (Hall : forallb (fun d => bool_decide (lookup_interval reserved4 (ip4 224 0 0 d) =
             Some RangeLinkLocalMulticast)) (seqZ 0 256) = true) by (vm_compute; reflexivity).
  rewrite forallb_forall in Hall.
  refine (proj1 (bool_decide_eq_true _) (Hall d _)). apply list_elem_of_In, elem_of_seqZ. lia.
Qed.

Lemma table_classify4 ip :
  length ip = 4%nat -> well_formed_bytes ip ->
  (if IsLinkLocalMulticast ip then Some RangeLinkLocalMulticast else first_entry table ip) =
  classify_value4 (ip_value ip).
Proof.
  intros Hl Hw. destruct (IsLinkLocalMulticast ip) eqn:E.
  - symmetry. by apply link_local_multicast4.
  - apply (first_entry_intervals 4); [apply table_intervals4|by rewrite To4_v4|done..].
Qed.

Lemma preUnwrap4 ip : length (default ip (To4 ip)) = 4%nat -> first_entry preUnwrap ip = None.
Proof.
  intros Hl. unfold first_entry, preUnwrap. cbn [find_first e_cidr].
  assert (H : forall n nn m, networkNumberAndMask n = Some (nn, m) -> length nn = 16%nat ->
            Contains_ip n ip = false).
  { intros n nn m En Hn. unfold Contains_ip. by rewrite En, Hl, Hn. }
  rewrite (H (mustCIDR "::1/128") (replicate 15 0 ++ [1]) (replicate 16 255)) by (vm_compute; done).
  by rewrite (H (mustCIDR "::/128") (replicate 16 0) (replicate 16 255)) by (vm_compute; done).
Qed.

Lemma Classify_v4 ip :
  length ip = 4%nat -> well_formed_bytes ip -> Classify ip = classify_value4 (ip_value ip).
Proof.
  intros Hl Hw. unfold Classify, malformed. rewrite Hl. cbn [negb andb Nat.eqb IPv4len IPv6len].
  rewrite preUnwrap4 by (by rewrite To4_v4). unfold embeddedIPv4. rewrite To4_v4 by done.
  by apply table_classify4.
Qed.

(** The bytes of a 16-byte address, with the value of its parts. *)
Lemma ip_value_app l l' :
  ip_value (l ++ l') = ip_value l * 2 ^ (8 * Z.of_nat (length l')) + ip_value l'.
Proof.
  rewrite <- pow256, <- foldl_value. unfold ip_value. by rewrite foldl_app.
Qed.

Lemma ip_value_split k ip :
  well_formed_bytes ip -> (k <= length ip)%nat ->
  ip_value (take k ip) = ip_value ip / 2 ^ (8 * Z.of_nat (length ip - k)) /\
  ip_value (drop k ip) = ip_value ip mod 2 ^ (8 * Z.of_nat (length ip - k)).
Proof.
  intros Hw Hk.
  assert (HE : ip_value ip = ip_value (take k ip ++ drop k ip)) by (by rewrite take_drop).
  rewrite HE, ip_value_app.
  pose proof (ip_value_range (drop k ip) (Forall_drop _ _ _ Hw)) as R.
  rewrite length_drop in *. clear HE. set (e := 2 ^ _) in *.
  rewrite Z.add_comm, Z.div_add, Z.div_small, Z.mod_add, Z.mod_small by lia. lia.
Qed.

Lemma ip_value_inj l l' :
  length l = length l' -> well_formed_bytes l -> well_formed_bytes l' ->
  ip_value l = ip_value l' -> l = l'.
Proof.
  revert l'. induction l as [|b l IH]; intros [|b' l'] Hl; try done.
  intros [Hb Hw]%Forall_cons [Hb' Hw']%Forall_cons. simpl in Hl. simplify_eq.
  rewrite !ip_value_cons, !pow256, Hl.
  pose proof (ip_value_range _ Hw). pose proof (ip_value_range _ Hw'). rewrite Hl in *.
  intros HE. assert (b = b') as <- by nia. f_equal. apply IH; [done..|lia].
Qed.

(** A 16-byte address is IPv4-mapped exactly when its first 96 bits are
    [::ffff]. *)
Lemma To4_16 ip :
  length ip = 16%nat -> well_formed_bytes ip ->
  To4 ip = if ip_value ip / 2 ^ 32 =? 0xffff then Some (drop 12 ip) else None.
Proof.
  intros Hl Hw. unfold To4. rewrite Hl. cbn [Nat.eqb IPv4len IPv6len andb].
  destruct (ip_value_split 12 ip Hw ltac:(lia)) as [Ht _]. rewrite Hl in Ht.
  change (8 * Z.of_nat (16 - 12)) with 32 in Ht. rewrite <- Ht.
  case_bool_decide as Hd.
  - by rewrite Hd.
  - destruct (Z.eqb_spec (ip_value (take 12 ip)) 0xffff) as [He|]; [|done].
    exfalso. apply Hd. apply ip_value_inj; [by rewrite length_take, Hl| |by repeat constructor|done].
    by apply Forall_take.
Qed.

Lemma Contains_16 n lo bits ip :
  block_of n = Some (16%nat, lo, bits) -> length ip = 16%nat -> well_formed_bytes ip ->
  ip_value ip / 2 ^ 32 <> 0xffff ->
  Contains_ip n ip = block_contains lo bits ip.
Proof.
  intros Hb Hl Hw Hne. erewrite block_of_contains; [|done| |done].
  - by rewrite Hl.
  - rewrite To4_16 by done. by destruct (Z.eqb_spec (ip_value ip / 2 ^ 32) 0xffff).
Qed.

(** A block with a given lead is a test on the quotient. *)
Lemma block_contains_lead lead bits ip :
  0 <= bits -> block_contains (lead * 2 ^ bits) bits ip = (ip_value ip / 2 ^ bits =? lead).
Proof.
  intros Hb. assert (Hp : 0 < 2 ^ bits) by (apply Z.pow_pos_nonneg; lia).
  unfold block_contains. apply eq_true_iff_eq.
  rewrite andb_true_iff, Z.leb_le, Z.ltb_lt, Z.eqb_eq.
  rewrite <- quotient_interval by (try rewrite Z.mod_mul; lia).
  by rewrite Z.div_mul by lia.
Qed.

Lemma bytes_12_16 ip :
  length ip = 16%nat ->
  To4 (IPv4 (ip_byte ip 12) (ip_byte ip 13) (ip_byte ip 14) (ip_byte ip 15)) = Some (drop 12 ip).
Proof. intros Hl. do 16 (destruct ip as [|? ip]; [done|]). by destruct ip. Qed.

Lemma bytes_2_6 ip :
  length ip = 16%nat ->
  To4 (IPv4 (ip_byte ip 2) (ip_byte ip 3) (ip_byte ip 4) (ip_byte ip 5)) = Some (take 4 (drop 2 ip)).
Proof. intros Hl. do 16 (destruct ip as [|? ip]; [done|]). by destruct ip. Qed.

Lemma value_2_6 ip :
  length ip = 16%nat -> well_formed_bytes ip ->
  ip_value (take 4 (drop 2 ip)) = ip_value ip / 2 ^ 80 mod 2 ^ 32.
Proof.
  intros Hl Hw.
  destruct (ip_value_split 6 ip Hw ltac:(lia)) as [H6 _]. rewrite Hl in H6.
  destruct (ip_value_split 2 (take 6 ip) (Forall_take _ _ _ Hw)) as [_ H2];
    [rewrite length_take; lia|].
  rewrite length_take, Hl in H2. rewrite H6 in H2.
  replace (take 4 (drop 2 ip)) with (drop 2 (take 6 ip)); [exact H2|].
  change 6%nat with (2 + 4)%nat. by rewrite <- take_drop_commute.
Qed.

(** What an address carries, as the code decodes it. *)
Lemma embeddedIPv4_carried ip :
  length ip = 16%nat -> well_formed_bytes ip ->
  match embeddedIPv4 ip with
  | Some v4 => length v4 = 4%nat /\ well_formed_bytes v4 /\ carried (ip_value ip) = Some (ip_value v4)
  | None => carried (ip_value ip) = None
  end.
Proof.
  intros Hl Hw. unfold embeddedIPv4, carried. rewrite To4_16 by done.
  destruct (ip_value_split 12 ip Hw ltac:(lia)) as [_ H12]. rewrite Hl in H12.
  change (8 * Z.of_nat (16 - 12)) with 32 in H12.
  assert (Hd : length (drop 12 ip) = 4%nat) by (rewrite length_drop; lia).
  pose proof (Forall_drop _ 12 _ Hw) as Hwd.
  destruct (Z.eqb_spec (ip_value ip / 2 ^ 32) 0xffff) as [He|Hne]; [cbn [orb]; by rewrite H12|].
  rewrite Hl. cbn [negb Nat.eqb IPv6len].
  rewrite (Contains_16 nat64WellKnown (0x64ff9b * 2 ^ 64 * 2 ^ 32) 32) by (done || vm_compute; done).
  rewrite (Contains_16 v4Compatible (0 * 2 ^ 32) 32) by (done || vm_compute; done).
  rewrite (Contains_16 v4Translated (0xffff0000 * 2 ^ 32) 32) by (done || vm_compute; done).
  rewrite (Contains_16 sixToFour (0x2002 * 2 ^ 112) 112) by (done || vm_compute; done).
  rewrite !block_contains_lead by lia. cbn [orb]. destruct (_ || _ || _).
  - rewrite bytes_12_16 by done. by rewrite H12.
  - destruct (_ =? 0x2002); [|done]. rewrite bytes_2_6 by done. split_and!.
    + rewrite length_take, length_drop. lia.
    + by apply Forall_take, Forall_drop.
    + by rewrite value_2_6.
Qed.

Lemma preUnwrap16 ip :
  length ip = 16%nat -> well_formed_bytes ip ->
  first_entry preUnwrap ip =
    if ip_value ip =? 1 then Some RangeLoopback
    else if ip_value ip =? 0 then Some RangeUnspecified else None.
Proof.
  intros Hl Hw. destruct (Z.eqb_spec (ip_value ip / 2 ^ 32) 0xffff) as [He|Hne].
  - rewrite preUnwrap4.
    + destruct (Z.eqb_spec (ip_value ip) 1) as [E|_]; [by rewrite E in He|].
      by destruct (Z.eqb_spec (ip_value ip) 0) as [E|_]; [rewrite E in He|].
    + rewrite To4_16, He by done. cbn. rewrite length_drop. lia.
  - rewrite (first_entry_intervals 16 _ [(RangeLoopback, (1, 1)); (RangeUnspecified, (0, 0))])
      by (done || (vm_compute; done) || (rewrite To4_16 by done; by case_match; [lia|])).
    unfold lookup_interval, in_interval. cbn [find_first fst snd].
    destruct (Z.eqb_spec (ip_value ip) 1) as [->|]; [done|].
    replace (_ && _) with false by lia.
    destruct (Z.eqb_spec (ip_value ip) 0) as [->|]; [done|]. by replace (_ && _) with false by lia.
Qed.

Lemma IsLinkLocalMulticast16 ip :
  length ip = 16%nat -> well_formed_bytes ip -> ip_value ip / 2 ^ 32 <> 0xffff ->
  IsLinkLocalMulticast ip = (ip_value ip / 2 ^ 120 =? 0xff) && (ip_value ip / 2 ^ 112 mod 16 =? 2).
Proof.
  intros Hl Hw Hne. unfold IsLinkLocalMulticast. rewrite To4_16 by done.
  destruct (Z.eqb_spec (ip_value ip / 2 ^ 32) 0xffff); [lia|].
  destruct (ip_value_split 1 ip Hw ltac:(lia)) as [H1 _].
  destruct (ip_value_split 2 ip Hw ltac:(lia)) as [H2 _]. rewrite Hl in *.
  change (8 * Z.of_nat (16 - 1)) with 120 in H1. change (8 * Z.of_nat (16 - 2)) with 112 in H2.
  rewrite <- H1, <- H2. destruct ip as [|a [|b ip]]; [done..|].
  change (16 =? IPv6len)%nat with true. cbn [andb take].
  unfold ip_value. cbn [foldl].
  change 15 with (Z.ones 4). rewrite Z.land_ones by lia. change (2 ^ 4) with 16.
  replace (0 * 256 + a) with a by lia. 
  assert (Hm : (a * 256 + b) mod 16 = b mod 16).
  { replace (a * 256 + b) with (b + a * 16 * 16) by lia. apply Z.mod_add. lia. }
  rewrite take_0. cbn [foldl]. by rewrite Hm.
Qed.

Lemma Classify_v6 ip :
  length ip = 16%nat -> well_formed_bytes ip -> Classify ip = classify_value6 (ip_value ip).
Proof.
  intros Hl Hw. unfold Classify, classify_value6, malformed. rewrite Hl. cbn [negb andb Nat.eqb IPv4len IPv6len].
  rewrite preUnwrap16 by done. destruct (_ =? 1); [done|]. destruct (_ =? 0); [done|].
  pose proof (embeddedIPv4_carried ip Hl Hw) as HE. destruct (embeddedIPv4 ip) as [v4|] eqn:E4.
  - destruct HE as (Hl4 & Hw4 & ->). by apply table_classify4.
  - rewrite HE. cbn [default].
    assert (Hne : ip_value ip / 2 ^ 32 <> 0xffff) by (intros He; unfold carried in HE; by rewrite He in HE).
    rewrite IsLinkLocalMulticast16 by done. destruct (_ && _); [done|].
    apply (first_entry_intervals 16); [apply table_intervals6| |done..].
    rewrite To4_16 by done. by destruct (Z.eqb_spec (ip_value ip / 2 ^ 32) 0xffff).
Qed.

(** The classifier of the egress guard meets a numeric specification on
    every address: an IPv4 address has the range of the first interval that
    holds it; an IPv6 address is loopback or unspecified, or has the range of
    the IPv4 address it carries (mapped, NAT64, compatible, translated, 6to4),
    or is link-local multicast by scope, or falls in an IPv6 interval; a
    malformed slice has no range. *)
Theorem Classify_numeric ip :
  well_formed_bytes ip -> Classify ip = classify_value ip.
Proof.
  intros Hw. unfold classify_value.
  destruct (Nat.eqb_spec (length ip) 4); [by apply Classify_v4|].
  destruct (Nat.eqb_spec (length ip) 16); [by apply Classify_v6|].
  unfold Classify, malformed, IPv4len, IPv6len.
  destruct (Nat.eqb_spec (length ip) 4); [done|]. by destruct (Nat.eqb_spec (length ip) 16).
Qed.

Lemma Classify_numeric_witness :
  well_formed_bytes (0x20 :: 2 :: 169 :: 254 :: 169 :: 254 :: replicate 10 0) /\
  Classify (0x20 :: 2 :: 169 :: 254 :: 169 :: 254 :: replicate 10 0) = Some RangeLinkLocal.
Proof.
  assert (H : well_formed_bytes (0x20 :: 2 :: 169 :: 254 :: 169 :: 254 :: replicate 10 0))
    by (unfold well_formed_bytes; apply (bool_decide_unpack _); vm_compute; done).
  split; [exact H|].
  exact (eq_trans (Classify_numeric _ H) ltac:(vm_compute; reflexivity)).
Defined.

(** * Policies *)

(** A policy that exempts less blocks more. *)
Lemma Blocks_monotone p q ip :
  p_exempt p ⊆ p_exempt q -> Blocks q ip = true -> Blocks p ip = true.
Proof.
  intros Hpq. unfold Blocks, Exempts. destruct (malformed ip); [done|].
  destruct (Classify ip) as [r|]; [|done]. intros H. bool_simpl.
  apply negb_true_iff, bool_decide_eq_false. set_solver.
Qed.

(** The callback surface blocks whatever the connector and OIDC surfaces block. *)
Lemma callback_strictest ip :
  (Blocks ConnectorEgress ip = true \/ Blocks OIDCLiteral ip = true) ->
  Blocks CallbackEgress ip = true.
Proof.
  assert (HC : p_exempt CallbackEgress = ∅) by (vm_compute; reflexivity).
  intros [H|H]; revert H; apply Blocks_monotone; rewrite HC; set_solver.
Qed.

(** A name that is reported is a name the table knows, so [Blocked] lists every
    range a policy refuses. *)
Lemma Classify_known ip r : Classify ip = Some r -> r ∈ AllRanges.
Proof.
  assert (Hin : forall l ip, first_entry l ip = Some r -> r ∈ e_r <$> l).
  { intros l ip'. unfold first_entry. intros (e & [He _]%find_first_Some & ->)%fmap_Some.
    by apply list_elem_of_fmap_2. }
  intros H. unfold AllRanges. rewrite SliceStable_perm, elem_of_remove_dups, fmap_app, elem_of_app.
  unfold Classify in H. destruct (malformed ip); [done|].
  destruct (first_entry preUnwrap ip) eqn:Ep; [simplify_eq; left; by eapply Hin|].
  right. destruct (IsLinkLocalMulticast _); [|by eapply Hin].
  simplify_eq. apply (bool_decide_unpack _). vm_compute. done.
Qed.

Lemma Blocked_lists p ip :
  malformed ip = false -> Blocks p ip = true -> exists r, Classify ip = Some r /\ r ∈ Blocked p.
Proof.
  unfold Blocks. intros ->. destruct (Classify ip) as [r|] eqn:E; [|done]. intros Hr.
  exists r. split; [done|]. apply elem_of_filter_bool. split; [by eapply Classify_known|done].
Qed.

(** * The dialer *)

Section Dialer.
Context {Conn : Type}.
Variable LookupIPAddr : list Event -> string -> result string (list IP).
Variable DialContext : list Event -> string -> IP -> string -> result string Conn.

Local Abbreviation dial_each := (dial_each DialContext).
Local Abbreviation SafeDialContext := (SafeDialContext LookupIPAddr DialContext).

(** The dials of the loop are a prefix of the addresses, in order; a connection
    is the answer to the last of them, a failure has tried them all. *)
Lemma dial_each_spec network port ips errs tr :
  exists tried rest,
    ips = tried ++ rest /\
    (dial_each network port ips errs tr).2 = tr ++ ((fun ip => EvDial network ip port) <$> tried) /\
    match (dial_each network port ips errs tr).1 with
    | Ok conn => exists before ip, tried = before ++ [ip] /\
        DialContext (tr ++ ((fun ip => EvDial network ip port) <$> before)) network ip port = Ok conn
    | Err e => rest = [] /\ exists es, e = DialFailed (errs ++ es) /\ length es = length ips
    end.
Proof.
  revert errs tr. induction ips as [|ip ips IH]; intros errs tr; simpl.
  { exists [], []. rewrite !app_nil_r. split_and!; try done. exists []. by rewrite app_nil_r. }
  destruct (DialContext tr network ip port) as [conn|e] eqn:Ed; simpl.
  { exists [ip], ips. split_and!; try done. exists [], ip. by rewrite app_nil_r. }
  destruct (IH (errs ++ [e]) (tr ++ [EvDial network ip port])) as (tried & rest & -> & Htr & Hres).
  exists (ip :: tried), rest. split_and!; [done| |].
  - rewrite Htr, <- app_assoc. done.
  - destruct (Egress.dial_each _ _ _ _ _ _).1 as [conn|e'].
    + destruct Hres as (before & ip' & -> & Hd). exists (ip :: before), ip'. split; [done|].
      rewrite <- app_assoc in Hd. exact Hd.
    + destruct Hres as (-> & es & -> & Hes). split; [done|].
      exists (e :: es). rewrite <- app_assoc. simpl. by rewrite Hes.
Qed.

(** What a successful validation establishes of the resolver's one answer. *)
Definition validated (p : Policy) (tr : list Event) (addr port : string) (ips : list IP) : Prop :=
  exists host, SplitHostPort addr = Ok (host, port) /\ LookupIPAddr tr host = Ok ips /\
    ips <> [] /\ Forall (fun ip => Blocks p ip = false) ips.

(** C27: The safe dialer is proof against DNS rebinding. Whatever the resolver
    and the network answer, at most one lookup is made; every address dialed is
    an address of that one answer, taken in the resolver's order, and no address
    of the answer is blocked by the policy; a connection is always one to such
    an address; without a dial the call is an error that names the reason. *)
Theorem SafeDialContext_rebinding_proof p network addr tr :
  let '(res, tr') := SafeDialContext p network addr tr in
  (exists e, res = Err e /\ (tr' = tr \/ exists host, tr' = tr ++ [EvLookup host]) /\
     match e with DialFailed _ => False | _ => True end) \/
  (exists host port ips tried rest,
     validated p tr addr port ips /\ SplitHostPort addr = Ok (host, port) /\
     ips = tried ++ rest /\
     tr' = tr ++ EvLookup host :: ((fun ip => EvDial network ip port) <$> tried) /\
     match res with
     | Ok conn => exists before ip, tried = before ++ [ip] /\ Blocks p ip = false /\
         DialContext (tr ++ EvLookup host :: ((fun ip => EvDial network ip port) <$> before))
           network ip port = Ok conn
     | Err e => rest = [] /\ exists es, e = DialFailed es /\ length es = length ips
     end).
Proof.
  unfold Egress.SafeDialContext. destruct (SplitHostPort addr) as [[host port]|e] eqn:Es;
    [|left; eauto 6].
  destruct (LookupIPAddr tr host) as [ips|e] eqn:El; [|left; eauto 6].
  destruct (Nat.eqb_spec (length ips) 0) as [H0|H0]; [left; eauto 6|].
  destruct (find_first (Blocks p) ips) as [ip|] eqn:Ef; [left; eauto 6|].
  apply find_first_None in Ef.
  destruct (dial_each_spec network port ips [] (tr ++ [EvLookup host]))
    as (tried & rest & -> & Htr & Hres).
  destruct (Egress.dial_each _ _ _ _ _ _) as [res tr'] eqn:Ed. simpl in *. subst tr'.
  right. exists host, port, (tried ++ rest), tried, rest. split_and!; try done.
  - exists host. split_and!; try done. by destruct (tried ++ rest).
  - by rewrite <- app_assoc.
  - destruct res as [conn|e].
    + destruct Hres as (before & ip & -> & Hd). exists before, ip. split_and!; [done| |].
      * rewrite !Forall_app, Forall_singleton in Ef. tauto.
      * by rewrite <- app_assoc in Hd.
    + destruct Hres as (-> & es & -> & Hes). split; [done|]. by exists es.
Qed.

(** Failover: with every address validated, one that answers is reached unless
    an earlier one answers first. *)
Lemma SafeDialContext_failover p network addr tr port ips ip :
  validated p tr addr port ips -> ip ∈ ips ->
  (forall tr', is_ok (DialContext tr' network ip port) = true) ->
  is_ok (SafeDialContext p network addr tr).1 = true.
Proof.
  intros (host & Hs & Hl & Hne & Hb) Hin Hok. unfold Egress.SafeDialContext.
  rewrite Hs, Hl. destruct (Nat.eqb_spec (length ips) 0) as [H0|_]; [by destruct ips|].
  apply find_first_None in Hb. rewrite Hb. clear Hb Hl Hne.
  generalize (tr ++ [EvLookup host]), (@nil string). induction Hin as [ip ips|ip ip' ips Hin IH];
    intros tr' errs; simpl.
  - specialize (Hok tr'). by destruct (DialContext tr' network ip port).
  - destruct (DialContext tr' network ip' port); [done|]. by apply IH.
Qed.
End Dialer.

(** The cloud metadata service is refused by every policy of the package in
    each of its encodings. *)
Lemma metadata_service_refused p ip :
  p ∈ [ConnectorEgress; CallbackEgress; OIDCLiteral] ->
  ip ∈ [[169; 254; 169; 254]; IPv4 169 254 169 254;
        [0; 0x64; 0xff; 0x9b; 0; 0; 0; 0; 0; 0; 0; 0; 169; 254; 169; 254];
        [0x20; 2; 169; 254; 169; 254; 0; 0; 0; 0; 0; 0; 0; 0; 0; 1];
        [0; 0; 0; 0; 0; 0; 0; 0; 0; 0; 0; 0; 169; 254; 169; 254];
        [0; 0; 0; 0; 0; 0; 0; 0; 0xff; 0xff; 0; 0; 169; 254; 169; 254]] ->
  Blocks p ip = true.
Proof.
  intros Hp Hip.
  repeat (apply elem_of_cons in Hp as [->|Hp]; [
    repeat (apply elem_of_cons in Hip as [->|Hip]; [vm_compute; reflexivity|]); by apply not_elem_of_nil in Hip|]).
  by apply not_elem_of_nil in Hp.
Qed.
