(* ===== verification/DecisionChain.v ===== *)
(** The decision chain, src/platform/agent/decision_chain.go and
    decision_chain_signing.go: audit records of AI decisions, each bound to its
    predecessor by a hash and signed.

    Times are nanoseconds since the epoch; zones do not occur in the digest.
    Ed25519 is a class (key generation, signing, verification) with the laws
    that package documents; SHA-256 and base64 are computed.  A store of records
    (the in-memory map, the decision_chain table under row-level security) is an
    instance of [ChainStore], whose laws are what the chaining relies on. *)

From S2P Require Import Prelude GoStrings GoStrconv GoJSON GoSha256 GoBase64 PolicyTypes.

Local Open Scope Z_scope.

Definition genesisPrevHash : string :=
  "0000000000000000000000000000000000000000000000000000000000000000".

(** * Types *)

Definition DecisionTypePolicyEnforcement : string := "policy_enforcement".
Definition DecisionTypeLLMGeneration : string := "llm_generation".
Definition DecisionTypeDataRetrieval : string := "data_retrieval".
Definition DecisionTypeHumanReview : string := "human_review".
Definition DecisionTypeSystemAction : string := "system_action".

Definition DecisionOutcomeApproved : string := "approved".
Definition DecisionOutcomeBlocked : string := "blocked".
Definition DecisionOutcomeModified : string := "modified".
Definition DecisionOutcomePendingReview : string := "pending_review".
Definition DecisionOutcomeError : string := "error".

Definition RiskLevelMinimal : string := "minimal".
Definition RiskLevelLimited : string := "limited".
Definition RiskLevelHigh : string := "high".
Definition RiskLevelUnacceptable : string := "unacceptable".

Record DecisionEntry := mkDE {
  de_ID : string; de_ChainID : string; de_RequestID : string; de_ParentRequestID : string;
  de_StepNumber : Z;
  de_OrgID : string; de_TenantID : string; de_ClientID : string; de_UserID : string;
  de_DecisionType : string; de_DecisionOutcome : string;
  de_SystemID : string; de_ModelProvider : string; de_ModelID : string;
  de_PoliciesEvaluated : list string; de_PolicyTriggered : string;
  de_RiskLevel : string; de_RequiresHumanReview : bool; de_ProcessingTimeMs : Z;
  de_InputHash : string; de_OutputHash : string; de_AuditHash : string;
  de_Metadata : list (string * value);
  de_ChainSeq : Z; de_PrevHash : string; de_RecordSignature : string; de_SigningKeyID : string;
  de_DataSources : list string; de_CreatedAt : Z }.

(** [time.Time{}] and the two conversions of created_at. *)
Definition zero_time : Z := -62135596800000000000.
Definition trunc_micro (t : Z) : Z := t - t mod 1000.
Definition UnixMicro (t : Z) : Z := t / 1000.

(** * Digests *)

Definition fieldSep : string := of_bytes [30].
Definition unitSep : string := of_bytes [31].

(** The closures [w] and [wList] of recordDigestPreimage. *)
Definition w_field (label v : string) : string :=
  label +:+ ":" +:+ Itoa (Z.of_nat (len v)) +:+ ":" +:+ v +:+ fieldSep.

Definition w_list (label : string) (items : list string) : string :=
  let joined := join unitSep items in
  label +:+ "#" +:+ Itoa (Z.of_nat (length items)) +:+ ":" +:+ Itoa (Z.of_nat (len joined)) +:+ ":"
  +:+ joined +:+ fieldSep.

(** The fields of the pre-image in order. *)
Inductive field :=
| FScalar (label v : string)
| FList (label : string) (items : list string).

Definition write_field (f : field) : string :=
  match f with FScalar l v => w_field l v | FList l items => w_list l items end.

Definition digest_fields (e : DecisionEntry) : list field := [
  FScalar "id" (de_ID e);
  FScalar "chain_id" (de_ChainID e);
  FScalar "request_id" (de_RequestID e);
  FScalar "parent_request_id" (de_ParentRequestID e);
  FScalar "step_number" (Itoa (de_StepNumber e));
  FScalar "chain_seq" (Itoa (de_ChainSeq e));
  FScalar "org_id" (de_OrgID e);
  FScalar "tenant_id" (de_TenantID e);
  FScalar "client_id" (de_ClientID e);
  FScalar "user_id" (de_UserID e);
  FScalar "decision_type" (de_DecisionType e);
  FScalar "decision_outcome" (de_DecisionOutcome e);
  FScalar "system_id" (de_SystemID e);
  FScalar "model_provider" (de_ModelProvider e);
  FScalar "model_id" (de_ModelID e);
  FList "policies_evaluated" (de_PoliciesEvaluated e);
  FScalar "policy_triggered" (de_PolicyTriggered e);
  FScalar "risk_level" (de_RiskLevel e);
  FScalar "requires_human_review" (FormatBool (de_RequiresHumanReview e));
  FScalar "processing_time_ms" (Itoa (de_ProcessingTimeMs e));
  FScalar "input_hash" (de_InputHash e);
  FScalar "output_hash" (de_OutputHash e);
  FScalar "audit_hash" (de_AuditHash e);
  FList "data_sources" (de_DataSources e);
  FScalar "created_at_unixmicro" (Itoa (UnixMicro (de_CreatedAt e)))].

Definition write_fields (l : list field) : string := foldr (fun f s => write_field f +:+ s) "" l.

Definition recordDigestPreimage (e : DecisionEntry) : string := write_fields (digest_fields e).

Definition computeRecordDigest (e : DecisionEntry) : string := sha256_hex (recordDigestPreimage e).

Definition computeChainHash (recordDigest prevHash : string) : string :=
  sha256_hex (recordDigest +:+ "|" +:+ prevHash).

Definition chainHashOf (e : DecisionEntry) : string :=
  computeChainHash (computeRecordDigest e) (de_PrevHash e).

Definition computeAuditHash (e : DecisionEntry) : string :=
  let p s := Itoa (Z.of_nat (len s)) +:+ ":" +:+ s +:+ "|" in
  sha256_hex (p (de_ChainID e) +:+ p (de_RequestID e) +:+ p (de_OrgID e) +:+ p (de_TenantID e)
    +:+ p (de_DecisionType e) +:+ de_DecisionOutcome e +:+ "|" +:+ de_RiskLevel e +:+ "|"
    +:+ FormatBool (de_RequiresHumanReview e) +:+ "|" +:+ Itoa (de_ProcessingTimeMs e)).

(** * Keys and signatures *)

(** Package crypto/ed25519. *)
Class Ed25519 := {
  NewKeyFromSeed : list Z -> list Z;
  Public : list Z -> list Z;
  Sign : list Z -> string -> list Z;
  Verify : list Z -> string -> list Z -> bool;
}.

(** What the package documents of it. *)
Class Ed25519Laws `{Ed25519} : Prop := {
  verify_sign : forall k m, length k = 64%nat -> Verify (Public k) m (Sign k m) = true;
  sign_bytes : forall k m, Forall (fun b => 0 <= b < 256) (Sign k m);
  sign_size : forall k m, length (Sign k m) = 64%nat;
}.

Definition SeedSize : nat := 32.
Definition PrivateKeySize : nat := 64.
Definition PublicKeySize : nat := 32.

Definition deriveSigningKeyID (pub : list Z) : string := slice (sha256_hex (of_bytes pub)) 0 16.

(** The part of a DecisionChainTracker that is set once. *)
Record Tracker := mkTracker {
  t_systemID : string;
  t_useMemory : bool;
  t_signingKey : option (list Z);
  t_signingKeyID : string;
  t_verifyKeys : gmap string (list Z);
  t_queueSize : Z;
  t_workers : Z }.

Record TrackerConfig := mkConfig {
  cfg_hasDB : bool;
  cfg_SystemID : string;
  cfg_AsyncQueueSize : Z;
  cfg_Workers : Z;
  cfg_SigningKey : option (list Z);
  cfg_SigningKeyID : string;
  cfg_VerificationKeys : gmap string (list Z) }.

Section Signing.
Context `{Ed25519}.

(** The queue and the workers exist only with a database and a positive size;
    a nil public key of the configuration is the empty list. *)
Definition NewDecisionChainTracker (config : TrackerConfig) : result string Tracker :=
  let systemID := if str_eqb (cfg_SystemID config) "" then "axonflow-agent/unknown"
                  else cfg_SystemID config in
  let size := if cfg_AsyncQueueSize config =? 0 then 1000 else cfg_AsyncQueueSize config in
  let workers := if (cfg_Workers config =? 0) && (0 <? size) then 2 else cfg_Workers config in
  let extra := filter (fun kv => kv.2 <> []) (cfg_VerificationKeys config) in
  let build key keyID own :=
    Ok (mkTracker systemID (negb (cfg_hasDB config)) key keyID (own ∪ extra)
          (if (0 <? size) && cfg_hasDB config then size else 0)
          (if (0 <? size) && cfg_hasDB config then workers else 0)) in
  match cfg_SigningKey config with
  | None => build None "" ∅
  | Some key =>
      if negb (length key =? PrivateKeySize)%nat then Err "SigningKey must be 64 bytes"
      else let keyID := if str_eqb (cfg_SigningKeyID config) "" then deriveSigningKeyID (Public key)
                        else cfg_SigningKeyID config in
           build (Some key) keyID {[keyID := Public key]}
  end.

(** [sealEntry] *)
Definition set_chain (e : DecisionEntry) (prevHash : string) (seq : Z) (sig keyID : string)
  : DecisionEntry :=
  mkDE (de_ID e) (de_ChainID e) (de_RequestID e) (de_ParentRequestID e) (de_StepNumber e)
    (de_OrgID e) (de_TenantID e) (de_ClientID e) (de_UserID e) (de_DecisionType e)
    (de_DecisionOutcome e) (de_SystemID e) (de_ModelProvider e) (de_ModelID e)
    (de_PoliciesEvaluated e) (de_PolicyTriggered e) (de_RiskLevel e) (de_RequiresHumanReview e)
    (de_ProcessingTimeMs e) (de_InputHash e) (de_OutputHash e) (de_AuditHash e) (de_Metadata e)
    seq prevHash sig keyID (de_DataSources e) (de_CreatedAt e).

Definition sealEntry (t : Tracker) (e : DecisionEntry) (prevHash : string) (seq : Z)
  : DecisionEntry :=
  let e' := set_chain e prevHash seq (de_RecordSignature e) (de_SigningKeyID e) in
  let chainHash := computeChainHash (computeRecordDigest e') prevHash in
  match t_signingKey t with
  | Some k => set_chain e prevHash seq (EncodeToString StdEncoding (Sign k chainHash)) (t_signingKeyID t)
  | None => set_chain e prevHash seq "" ""
  end.

Definition PublicSigningKey (t : Tracker) : string * string :=
  match t_signingKey t with
  | None => ("", "")
  | Some k => (t_signingKeyID t, EncodeToString StdEncoding (Public k))
  end.

(** * Loading keys from the environment *)

Definition decodeBase64Tolerant (s : string) : option (list Z) :=
  let s := TrimSpace s in
  match DecodeString StdEncoding s with
  | Some b => Some b
  | None =>
      match DecodeString RawStdEncoding s with
      | Some b => Some b
      | None =>
          match DecodeString URLEncoding s with
          | Some b => Some b
          | None => DecodeString RawURLEncoding s
          end
      end
  end.

(** [Ok None]: no key configured. *)
Definition LoadAuditSigningKeyFromEnv (getenv : string -> string)
  : result string (option (list Z * string)) :=
  let raw := TrimSpace (getenv "AXONFLOW_AUDIT_SIGNING_KEY") in
  if str_eqb raw "" then Ok None
  else match decodeBase64Tolerant raw with
       | None => Err "not valid base64"
       | Some decoded =>
           let finish key :=
             let id := TrimSpace (getenv "AXONFLOW_AUDIT_SIGNING_KEY_ID") in
             Ok (Some (key, if str_eqb id "" then deriveSigningKeyID (Public key) else id)) in
           if (length decoded =? SeedSize)%nat then finish (NewKeyFromSeed decoded)
           else if (length decoded =? PrivateKeySize)%nat then finish decoded
           else Err "expected a seed or a private key"
       end.

Fixpoint load_keys (parts : list string) (out : gmap string (list Z))
  : result string (gmap string (list Z)) :=
  match parts with
  | [] => Ok out
  | part :: parts' =>
      let part := TrimSpace part in
      if str_eqb part "" then load_keys parts' out
      else match decodeBase64Tolerant part with
           | None => Err "not valid base64"
           | Some pub =>
               if negb (length pub =? PublicKeySize)%nat then Err "expected a public key"
               else load_keys parts' (<[deriveSigningKeyID pub := pub]> out)
           end
  end.

Definition LoadAuditVerifyKeysFromEnv (getenv : string -> string)
  : result string (gmap string (list Z)) :=
  let raw := TrimSpace (getenv "AXONFLOW_AUDIT_VERIFY_KEYS") in
  if str_eqb raw "" then Ok ∅ else load_keys (Split raw ",") ∅.
End Signing.

(** * Verification *)

Inductive sig_failure := NoPublicKey (keyID : string) | BadBase64 | BadSignature.
Inductive break_reason := LinkageBreak | SignatureBreak (r : sig_failure).

(** The first break: chain_seq, record id, reason. *)
Definition chain_break : Type := Z * string * break_reason.

Record ChainVerificationResult := mkCVR {
  cv_ChainID : string; cv_OrgID : string; cv_TotalRecords : Z;
  cv_Valid : bool; cv_AuthorshipProven : bool; cv_LinkageValid : bool; cv_SignaturesValid : bool;
  cv_SignedRecords : Z; cv_UnsignedRecords : Z;
  cv_FirstBroken : option chain_break;
  cv_SigningKeyID : string; cv_PublicKey : string; cv_VerifiedAt : Z }.

Record RecordVerificationResult := mkRVR {
  rv_RecordID : string; rv_ChainID : string; rv_OrgID : string; rv_ChainSeq : Z;
  rv_Signed : bool; rv_SignatureValid : bool; rv_Valid : bool; rv_Reason : option sig_failure;
  rv_DigestPreimageB64 : string; rv_RecordDigest : string; rv_PrevHash : string;
  rv_ChainHash : string; rv_RecordSignature : string; rv_SigningKeyID : string;
  rv_PublicKey : string; rv_VerifiedAt : Z }.

(** A record counts as signed when it has a key id and a signature. *)
Definition is_signed (e : DecisionEntry) : bool :=
  negb (str_eqb (de_SigningKeyID e) "" || str_eqb (de_RecordSignature e) "").

Section Verification.
Context `{Ed25519}.

(** [None]: the signature verifies. *)
Definition verifySignature (t : Tracker) (e : DecisionEntry) (chainHash : string)
  : option sig_failure :=
  match t_verifyKeys t !! de_SigningKeyID e with
  | None => Some (NoPublicKey (de_SigningKeyID e))
  | Some pub =>
      match DecodeString StdEncoding (de_RecordSignature e) with
      | None => Some BadBase64
      | Some sig => if Verify pub chainHash sig then None else Some BadSignature
      end
  end.

(** The loop of verifyEntries: signed and unsigned records up to the first
    break, and the break. *)
Fixpoint verify_loop (t : Tracker) (prev : string) (entries : list DecisionEntry)
    (signed unsigned : Z) : Z * Z * option chain_break :=
  match entries with
  | [] => (signed, unsigned, None)
  | e :: entries' =>
      if negb (str_eqb (de_PrevHash e) prev)
      then (signed, unsigned, Some (de_ChainSeq e, de_ID e, LinkageBreak))
      else let chainHash := computeChainHash (computeRecordDigest e) (de_PrevHash e) in
           if negb (is_signed e) then verify_loop t chainHash entries' signed (unsigned + 1)
           else match verifySignature t e chainHash with
                | Some r => (signed + 1, unsigned, Some (de_ChainSeq e, de_ID e, SignatureBreak r))
                | None => verify_loop t chainHash entries' (signed + 1) unsigned
                end
  end.

Definition verifyEntries (t : Tracker) (orgID chainID : string) (entries : list DecisionEntry)
    (now : Z) : ChainVerificationResult :=
  let '(signed, unsigned, brk) := verify_loop t genesisPrevHash entries 0 0 in
  let linkage := match brk with Some (_, _, LinkageBreak) => false | _ => true end in
  let signatures := match brk with Some (_, _, SignatureBreak _) => false | _ => true end in
  let total := Z.of_nat (length entries) in
  let valid := linkage && signatures && match brk with None => true | Some _ => false end in
  mkCVR chainID orgID total valid (valid && (0 <? total) && (signed =? total)) linkage signatures
    signed unsigned brk (t_signingKeyID t) (PublicSigningKey t).2 now.

Definition verify_record (t : Tracker) (orgID : string) (e : DecisionEntry) (now : Z)
  : RecordVerificationResult :=
  let preimage := recordDigestPreimage e in
  let digest := computeRecordDigest e in
  let chainHash := computeChainHash digest (de_PrevHash e) in
  let fail := verifySignature t e chainHash in
  let ok := is_signed e && match fail with None => true | Some _ => false end in
  mkRVR (de_ID e) (de_ChainID e) orgID (de_ChainSeq e) (is_signed e) ok ok
    (if is_signed e then fail else None)
    (EncodeToString StdEncoding (bytes preimage)) digest (de_PrevHash e) chainHash
    (de_RecordSignature e) (de_SigningKeyID e)
    (match t_verifyKeys t !! de_SigningKeyID e with
     | Some pub => EncodeToString StdEncoding pub | None => "" end) now.
End Verification.

(** * Stores *)

(** The tail of a chain: what the next record links to. *)
Definition chain_link (last : option DecisionEntry) : string * Z :=
  match last with
  | Some l => (chainHashOf l, de_ChainSeq l + 1)
  | None => (genesisPrevHash, 1)
  end.

Definition seal_after `{Ed25519} (t : Tracker) (e : DecisionEntry) (last : option DecisionEntry)
  : DecisionEntry :=
  let '(prevHash, seq) := chain_link last in sealEntry t e prevHash seq.

(** Reads for verification do not select the metadata. *)
Definition forget_meta (e : DecisionEntry) : DecisionEntry :=
  mkDE (de_ID e) (de_ChainID e) (de_RequestID e) (de_ParentRequestID e) (de_StepNumber e)
    (de_OrgID e) (de_TenantID e) (de_ClientID e) (de_UserID e) (de_DecisionType e)
    (de_DecisionOutcome e) (de_SystemID e) (de_ModelProvider e) (de_ModelID e)
    (de_PoliciesEvaluated e) (de_PolicyTriggered e) (de_RiskLevel e) (de_RequiresHumanReview e)
    (de_ProcessingTimeMs e) (de_InputHash e) (de_OutputHash e) (de_AuditHash e) []
    (de_ChainSeq e) (de_PrevHash e) (de_RecordSignature e) (de_SigningKeyID e)
    (de_DataSources e) (de_CreatedAt e).

(** What the tracker asks of a store of records. *)
Class ChainStore `{Ed25519} (St : Type) := {
  cs_record : Tracker -> St -> DecisionEntry -> result string St;
  cs_chain : St -> string -> string -> list DecisionEntry;
  cs_inv : St -> Prop;
  cs_storable : DecisionEntry -> Prop;
  cs_name : string -> Prop;
}.

(** A record that succeeds appends the sealed entry to the chain of its
    organization and leaves every other chain alone; [cs_name] are the names
    that stand for one chain only. *)
Class ChainStoreLaws `{CS : ChainStore St} : Prop := {
  cs_record_law : forall t s e s',
    cs_inv s -> cs_storable e -> cs_record t s e = Ok s' ->
    cs_inv s' /\
    forall org chain, cs_name chain ->
      if bool_decide (org = de_OrgID e /\ chain = de_ChainID e)
      then exists e', cs_chain s' org chain = cs_chain s org chain ++ [e'] /\
             forget_meta e' = forget_meta (seal_after t e (last (cs_chain s org chain)))
      else cs_chain s' org chain = cs_chain s org chain;
}.

(** ** In memory *)

Definition MemoryStore : Type := gmap string (list DecisionEntry).

Section Memory.
Context `{Ed25519}.

Definition recordToMemory (t : Tracker) (store : MemoryStore) (e : DecisionEntry) : MemoryStore :=
  let existing := default [] (store !! de_ChainID e) in
  let last := find_first (fun x => str_eqb (de_OrgID x) (de_OrgID e)) (rev existing) in
  <[de_ChainID e := existing ++ [seal_after t e last]]> store.

Definition memoryChainForOrg (store : MemoryStore) (orgID chainID : string) : list DecisionEntry :=
  List.filter (fun e => str_eqb (de_OrgID e) orgID) (default [] (store !! chainID)).

Definition memoryRecordForOrg (store : MemoryStore) (orgID recordID : string)
  : option DecisionEntry :=
  find_first (fun e => str_eqb (de_ID e) recordID && str_eqb (de_OrgID e) orgID)
    (concat (map_to_list store).*2).
End Memory.

#[export] Instance memory_store `{Ed25519} : ChainStore MemoryStore := {|
  cs_record := fun t s e => Ok (recordToMemory t s e);
  cs_chain := memoryChainForOrg;
  cs_inv := fun _ => True;
  cs_storable := fun _ => True;
  cs_name := fun _ => True;
|}.

(** ** The decision_chain table *)

(** A row; chain_seq is NULL on rows written before the column existed. *)
Record ChainRow := mkChainRow { row_entry : DecisionEntry; row_seq : option Z }.

(** [ORDER BY chain_seq ASC NULLS FIRST, created_at ASC, id ASC] *)
Definition row_before (a b : ChainRow) : bool :=
  match row_seq a, row_seq b with
  | None, Some _ => true
  | Some _, None => false
  | Some x, Some y =>
      (x <? y) || ((x =? y) && ((de_CreatedAt (row_entry a) <? de_CreatedAt (row_entry b)) ||
        ((de_CreatedAt (row_entry a) =? de_CreatedAt (row_entry b))
         && str_before (de_ID (row_entry a)) (de_ID (row_entry b)))))
  | None, None =>
      (de_CreatedAt (row_entry a) <? de_CreatedAt (row_entry b)) ||
        ((de_CreatedAt (row_entry a) =? de_CreatedAt (row_entry b))
         && str_before (de_ID (row_entry a)) (de_ID (row_entry b)))
  end.

(** [scanDecisionRow] of the projection decisionChainColumns. *)
Definition scanDecisionRow (r : ChainRow) : DecisionEntry :=
  let e := forget_meta (row_entry r) in
  mkDE (de_ID e) (de_ChainID e) (de_RequestID e) (de_ParentRequestID e) (de_StepNumber e)
    (de_OrgID e) (de_TenantID e) (de_ClientID e) (de_UserID e) (de_DecisionType e)
    (de_DecisionOutcome e) (de_SystemID e) (de_ModelProvider e) (de_ModelID e)
    (de_PoliciesEvaluated e) (de_PolicyTriggered e) (de_RiskLevel e) (de_RequiresHumanReview e)
    (de_ProcessingTimeMs e) (de_InputHash e) (de_OutputHash e) (de_AuditHash e) []
    (default 0 (row_seq r)) (de_PrevHash e) (de_RecordSignature e) (de_SigningKeyID e)
    (de_DataSources e) (trunc_micro (de_CreatedAt e)).

Section Table.
Context `{Ed25519}.
(** The text a uuid column returns for a value written to it ([None]: invalid
    input syntax), and whether the database accepts a row (constraints,
    connection). *)
Variable uuid_text : string -> option string.
Variable accepts : DecisionEntry -> bool.

(** Rows of a chain under the row-level security of an organization. *)
Definition visible_chain (db : list ChainRow) (orgID chainID : string) : list ChainRow :=
  List.filter (fun r => str_eqb (de_OrgID (row_entry r)) orgID
                        && bool_decide (Some (de_ChainID (row_entry r)) = uuid_text chainID)) db.

Definition fetchChainTailTx (db : list ChainRow) (orgID chainID : string) : option DecisionEntry :=
  scanDecisionRow <$> head (SliceStable (fun a b => row_before b a) (visible_chain db orgID chainID)).

Definition fetchChainEntriesOrgScoped (db : list ChainRow) (orgID chainID : string)
  : list DecisionEntry :=
  scanDecisionRow <$> SliceStable row_before (visible_chain db orgID chainID).

Definition fetchRecordOrgScoped (db : list ChainRow) (orgID recordID : string)
  : option DecisionEntry :=
  scanDecisionRow <$> find_first (fun r => str_eqb (de_OrgID (row_entry r)) orgID
     && bool_decide (Some (de_ID (row_entry r)) = uuid_text recordID)) db.

(** The INSERT: uuid columns are normalised, an empty parent is NULL. *)
Definition insert_row (e : DecisionEntry) : option ChainRow :=
  id ← uuid_text (de_ID e); chain ← uuid_text (de_ChainID e); req ← uuid_text (de_RequestID e);
  parent ← (if str_eqb (de_ParentRequestID e) "" then Some "" else uuid_text (de_ParentRequestID e));
  if accepts e then
    Some (mkChainRow
      (mkDE id chain req parent (de_StepNumber e)
         (de_OrgID e) (de_TenantID e) (de_ClientID e) (de_UserID e) (de_DecisionType e)
         (de_DecisionOutcome e) (de_SystemID e) (de_ModelProvider e) (de_ModelID e)
         (de_PoliciesEvaluated e) (de_PolicyTriggered e) (de_RiskLevel e) (de_RequiresHumanReview e)
         (de_ProcessingTimeMs e) (de_InputHash e) (de_OutputHash e) (de_AuditHash e) (de_Metadata e)
         (de_ChainSeq e) (de_PrevHash e) (de_RecordSignature e) (de_SigningKeyID e)
         (de_DataSources e) (de_CreatedAt e))
      (Some (de_ChainSeq e)))
  else None.

(** One transaction under the advisory lock of the chain. *)
Definition recordToDB (t : Tracker) (db : list ChainRow) (e : DecisionEntry)
  : result string (list ChainRow) :=
  if str_eqb (de_OrgID e) "" then Err "recordToDB: DecisionEntry.OrgID must be set"
  else match uuid_text (de_ChainID e) with
       | None => Err "failed to record decision: read chain tail"
       | Some _ =>
           let sealed := seal_after t e (fetchChainTailTx db (de_OrgID e) (de_ChainID e)) in
           match insert_row sealed with
           | None => Err "failed to record decision"
           | Some r => Ok (db ++ [r])
           end
       end.

(** The rows of a chain carry the sequence 1, 2, ... in insertion order, and
    uuid columns hold their own text. *)
Definition table_inv (db : list ChainRow) : Prop :=
  (forall org chain, (row_seq <$> visible_chain db org chain) =
     Some <$> seqZ 1 (Z.of_nat (length (visible_chain db org chain)))) /\
  Forall (fun r => uuid_text (de_ChainID (row_entry r)) = Some (de_ChainID (row_entry r))) db.

(** Entries that read back as written: canonical uuids, microsecond times. *)
Definition canonical (e : DecisionEntry) : Prop :=
  uuid_text (de_ID e) = Some (de_ID e) /\ uuid_text (de_ChainID e) = Some (de_ChainID e) /\
  uuid_text (de_RequestID e) = Some (de_RequestID e) /\
  (de_ParentRequestID e = "" \/ uuid_text (de_ParentRequestID e) = Some (de_ParentRequestID e)) /\
  trunc_micro (de_CreatedAt e) = de_CreatedAt e.

Definition table_store : ChainStore (list ChainRow) := {|
  cs_record := recordToDB;
  cs_chain := fetchChainEntriesOrgScoped;
  cs_inv := table_inv;
  cs_storable := canonical;
  cs_name := fun chain => uuid_text chain = Some chain;
|}.
End Table.

(** * Recording *)

(** The defaults RecordDecision fills in before it dispatches; [fresh] is the
    generated uuid, [now] the clock. *)
Definition prepare (t : Tracker) (fresh : string) (now : Z) (e : DecisionEntry) : DecisionEntry :=
  let created := if de_CreatedAt e =? zero_time then now else de_CreatedAt e in
  let system := if str_eqb (de_SystemID e) "" then t_systemID t else de_SystemID e in
  let risk := if str_eqb (de_RiskLevel e) "" then RiskLevelLimited else de_RiskLevel e in
  let id := if str_eqb (de_ID e) "" then fresh else de_ID e in
  let build audit :=
    mkDE id (de_ChainID e) (de_RequestID e) (de_ParentRequestID e) (de_StepNumber e)
      (de_OrgID e) (de_TenantID e) (de_ClientID e) (de_UserID e) (de_DecisionType e)
      (de_DecisionOutcome e) system (de_ModelProvider e) (de_ModelID e)
      (de_PoliciesEvaluated e) (de_PolicyTriggered e) risk (de_RequiresHumanReview e)
      (de_ProcessingTimeMs e) (de_InputHash e) (de_OutputHash e) audit (de_Metadata e)
      (de_ChainSeq e) (de_PrevHash e) (de_RecordSignature e) (de_SigningKeyID e)
      (de_DataSources e) (trunc_micro created) in
  build (if str_eqb (de_AuditHash e) "" then computeAuditHash (build "") else de_AuditHash e).

(** RecordFromTransparencyInfo. *)
Record TransparencyInfo := mkTI {
  ti_ChainID : string; ti_RequestID : string; ti_OrgID : string; ti_TenantID : string;
  ti_ClientID : string; ti_UserID : string; ti_SystemID : string; ti_ModelProvider : string;
  ti_ModelID : string; ti_PoliciesApplied : list string; ti_RiskLevel : string;
  ti_HumanOversight : bool; ti_ProcessingTimeMs : Z; ti_DataSources : list string }.

(** On a block the last evaluated policy is the trigger. *)
Definition triggered_policy (outcome : string) (policies : list string) : string :=
  if str_eqb outcome DecisionOutcomeBlocked then default "" (last policies) else "".

Definition entry_of_transparency (ti : TransparencyInfo) (decisionType outcome : string)
  : DecisionEntry :=
  mkDE "" (ti_ChainID ti) (ti_RequestID ti) "" 0 (ti_OrgID ti) (ti_TenantID ti) (ti_ClientID ti)
    (ti_UserID ti) decisionType outcome (ti_SystemID ti) (ti_ModelProvider ti) (ti_ModelID ti)
    (ti_PoliciesApplied ti) (triggered_policy outcome (ti_PoliciesApplied ti)) (ti_RiskLevel ti)
    (ti_HumanOversight ti) (ti_ProcessingTimeMs ti) "" "" "" [] 0 "" "" "" (ti_DataSources ti)
    zero_time.

(** decision_chain_wiring.go *)
Definition decisionOutcomeForVerdict (verdict : string) : string :=
  if str_in verdict ["allow"; "allowed"] then DecisionOutcomeApproved
  else if str_in verdict ["deny"; "blocked"] then DecisionOutcomeBlocked
  else if str_eqb verdict "redacted" then DecisionOutcomeModified
  else if str_eqb verdict "needs_approval" then DecisionOutcomePendingReview
  else DecisionOutcomeError.

(** ** The asynchronous queue

    The calls in flight of one tracker: producers inside the read lock that saw
    the queue open, the buffered channel, the entries workers have taken, the
    calls that write synchronously.  [a_log] lists the entries accepted so far,
    [a_done] those written, in write order, [a_failed] those whose write
    failed. *)
Record Async (St : Type) := mkAsync {
  a_closed : bool;
  a_sending : list DecisionEntry;
  a_queue : list DecisionEntry;
  a_hands : list DecisionEntry;
  a_sync : list DecisionEntry;
  a_store : St;
  a_recorded : Z;
  a_errors : Z;
  a_rejected : Z;
  a_panicked : bool;
  a_log : list DecisionEntry;
  a_done : list DecisionEntry;
  a_failed : list DecisionEntry }.
Arguments mkAsync {St}. Arguments a_closed {St}. Arguments a_sending {St}. Arguments a_queue {St}.
Arguments a_hands {St}. Arguments a_sync {St}. Arguments a_store {St}. Arguments a_recorded {St}.
Arguments a_errors {St}. Arguments a_rejected {St}. Arguments a_panicked {St}.
Arguments a_log {St}. Arguments a_done {St}. Arguments a_failed {St}.

Definition async_init {St} (s : St) : Async St := mkAsync false [] [] [] [] s 0 0 0 false [] [] [].

Section Async.
Context `{CS : ChainStore St}.
Variable t : Tracker.

(** Whether calls go through the queue. *)
Definition queued : bool := negb (t_useMemory t) && (0 <? t_queueSize t).

(** recordToMemory or recordToDB on behalf of a call. *)
Definition write_entry (e : DecisionEntry) (a : Async St) : Async St :=
  match cs_record t (a_store a) e with
  | Ok s => mkAsync (a_closed a) (a_sending a) (a_queue a) (a_hands a) (a_sync a) s (a_recorded a)
              (a_errors a) (a_rejected a) (a_panicked a) (a_log a) (a_done a ++ [e]) (a_failed a)
  | Err _ => mkAsync (a_closed a) (a_sending a) (a_queue a) (a_hands a) (a_sync a) (a_store a)
              (a_recorded a) (a_errors a + 1) (a_rejected a) (a_panicked a) (a_log a) (a_done a)
              (a_failed a ++ [e])
  end.

(** The first half of RecordDecision: the organization check, the defaults, the
    counter, and the closed-check under the read lock. *)
Definition record_enter (fresh : string) (now : Z) (e : DecisionEntry) (a : Async St) : Async St :=
  if str_eqb (de_OrgID e) "" then
    mkAsync (a_closed a) (a_sending a) (a_queue a) (a_hands a) (a_sync a) (a_store a) (a_recorded a)
      (a_errors a + 1) (a_rejected a + 1) (a_panicked a) (a_log a) (a_done a) (a_failed a)
  else
    let e' := prepare t fresh now e in
    let direct := negb queued || a_closed a in
    mkAsync (a_closed a) (if direct then a_sending a else a_sending a ++ [e']) (a_queue a) (a_hands a)
      (if direct then a_sync a ++ [e'] else a_sync a) (a_store a) (a_recorded a + 1)
      (a_errors a) (a_rejected a) (a_panicked a) (a_log a ++ [e']) (a_done a) (a_failed a).

(** The non-blocking send and the release of the read lock: on a closed channel
    it panics, on a full one the call writes synchronously. *)
Definition record_send (e : DecisionEntry) (others : list DecisionEntry) (a : Async St) : Async St :=
  let full := negb (Z.of_nat (length (a_queue a)) <? t_queueSize t) in
  mkAsync (a_closed a) others
    (if a_closed a || full then a_queue a else a_queue a ++ [e]) (a_hands a)
    (if negb (a_closed a) && full then a_sync a ++ [e] else a_sync a) (a_store a) (a_recorded a)
    (a_errors a) (a_rejected a) (a_panicked a || a_closed a) (a_log a) (a_done a) (a_failed a).

(** asyncWorker receives the head of the channel. *)
Definition worker_take (e : DecisionEntry) (q : list DecisionEntry) (a : Async St) : Async St :=
  mkAsync (a_closed a) (a_sending a) q (a_hands a ++ [e]) (a_sync a) (a_store a) (a_recorded a)
    (a_errors a) (a_rejected a) (a_panicked a) (a_log a) (a_done a) (a_failed a).

Definition set_hands (l : list DecisionEntry) (a : Async St) : Async St :=
  mkAsync (a_closed a) (a_sending a) (a_queue a) l (a_sync a) (a_store a) (a_recorded a)
    (a_errors a) (a_rejected a) (a_panicked a) (a_log a) (a_done a) (a_failed a).
Definition set_sync (l : list DecisionEntry) (a : Async St) : Async St :=
  mkAsync (a_closed a) (a_sending a) (a_queue a) (a_hands a) l (a_store a) (a_recorded a)
    (a_errors a) (a_rejected a) (a_panicked a) (a_log a) (a_done a) (a_failed a).

(** Shutdown marks the tracker closed and closes the channel; closing a closed
    channel panics. *)
Definition shutdown_close (a : Async St) : Async St :=
  mkAsync true (a_sending a) (a_queue a) (a_hands a) (a_sync a) (a_store a) (a_recorded a)
    (a_errors a) (a_rejected a) (a_panicked a || a_closed a) (a_log a) (a_done a) (a_failed a).

(** Steps that finish work already accepted. *)
Inductive work_step : Async St -> Async St -> Prop :=
| step_send e l1 l2 a :
    a_sending a = l1 ++ e :: l2 -> work_step a (record_send e (l1 ++ l2) a)
| step_take e q a :
    a_queue a = e :: q -> Z.of_nat (length (a_hands a)) < t_workers t ->
    work_step a (worker_take e q a)
| step_write_hand e l1 l2 a :
    a_hands a = l1 ++ e :: l2 -> work_step a (write_entry e (set_hands (l1 ++ l2) a))
| step_write_sync e l1 l2 a :
    a_sync a = l1 ++ e :: l2 -> work_step a (write_entry e (set_sync (l1 ++ l2) a)).

(** All steps: new calls, and Shutdown, whose write lock waits for the
    producers inside the read lock. *)
Inductive async_step : Async St -> Async St -> Prop :=
| step_work a a' : work_step a a' -> async_step a a'
| step_enter fresh now e a : async_step a (record_enter fresh now e a)
| step_shutdown a :
    queued = true -> a_sending a = [] -> a_closed a = false -> async_step a (shutdown_close a).
End Async.

(** * Summaries *)

Definition risk_order (l : string) : Z :=
  if str_eqb l RiskLevelLimited then 1 else if str_eqb l RiskLevelHigh then 2
  else if str_eqb l RiskLevelUnacceptable then 3 else 0.

Definition compareRiskLevels (a b : string) : Z :=
  if risk_order a <? risk_order b then -1 else if risk_order b <? risk_order a then 1 else 0.

Record ChainSummary := mkSummary {
  sm_TotalSteps : Z; sm_TotalProcessingMs : Z; sm_HasBlocked : bool; sm_RequiresReview : bool;
  sm_HighestRiskLevel : string; sm_FirstDecisionAt : Z; sm_LastDecisionAt : Z;
  sm_DecisionTypes : gset string; sm_Policies : gset string }.

(** One iteration; [i == 0] shows as no first time yet. *)
Definition summary_step (s : ChainSummary * bool) (e : DecisionEntry) : ChainSummary * bool :=
  let '(s, first) := s in
  (mkSummary (sm_TotalSteps s) (sm_TotalProcessingMs s + de_ProcessingTimeMs e)
     (sm_HasBlocked s || str_eqb (de_DecisionOutcome e) DecisionOutcomeBlocked)
     (sm_RequiresReview s || de_RequiresHumanReview e)
     (if 0 <? compareRiskLevels (de_RiskLevel e) (sm_HighestRiskLevel s)
      then de_RiskLevel e else sm_HighestRiskLevel s)
     (if first || (de_CreatedAt e <? sm_FirstDecisionAt s) then de_CreatedAt e else sm_FirstDecisionAt s)
     (if sm_LastDecisionAt s <? de_CreatedAt e then de_CreatedAt e else sm_LastDecisionAt s)
     ({[de_DecisionType e]} ∪ sm_DecisionTypes s)
     (list_to_set (de_PoliciesEvaluated e) ∪ sm_Policies s), false).

(** GetChainSummary of the entries of a chain; [None] for an unknown one. *)
Definition GetChainSummary (entries : list DecisionEntry) : option ChainSummary :=
  match entries with
  | [] => None
  | _ => Some (foldl summary_step
           (mkSummary (Z.of_nat (length entries)) 0 false false RiskLevelMinimal zero_time zero_time
              ∅ ∅, true) entries).1
  end.
