(* ===== verification/DecisionChainFacts.v ===== *)
(** What the decision chain guarantees: the digest pre-image determines the
    record, what was recorded verifies, what verifies cannot be altered without
    a hash collision, and no accepted decision is lost by the queue. *)

From S2P Require Import Prelude GoStrings GoStrconv GoJSON GoSha256 GoBase64 PolicyTypes.
From S2P Require Import DecisionChain.

Local Open Scope Z_scope.

(** * The pre-image determines the record *)

Definition size_ok (s : string) : Prop := Z.of_nat (len s) <= int64_max.

(** A list is unambiguous when no item holds the unit separator. *)
Definition field_ok (f : field) : Prop :=
  match f with
  | FScalar _ v => size_ok v
  | FList _ items => Z.of_nat (length items) <= int64_max /\ size_ok (join unitSep items) /\
      Forall (fun x => 31 ∉ bytes x) items
  end.

Definition same_shape (f g : field) : Prop :=
  match f, g with
  | FScalar l _, FScalar l' _ => l = l'
  | FList l _, FList l' _ => l = l'
  | _, _ => False
  end.

Lemma bytes_w_field l v r :
  bytes (w_field l v +:+ r) =
    bytes l ++ 58 :: bytes (Itoa (Z.of_nat (length (bytes v)))) ++ 58 :: bytes v ++ 30 :: bytes r.
Proof.
  unfold w_field. rewrite !bytes_app, length_bytes. rewrite <- !app_assoc. done.
Qed.

Lemma bytes_w_list l items r :
  bytes (w_list l items +:+ r) =
    bytes l ++ 35 :: bytes (Itoa (Z.of_nat (length items))) ++ 58 ::
    bytes (Itoa (Z.of_nat (length (bytes (join unitSep items))))) ++ 58 ::
    bytes (join unitSep items) ++ 30 :: bytes r.
Proof.
  unfold w_list. rewrite !bytes_app, length_bytes. rewrite <- !app_assoc. done.
Qed.

Lemma join_inj l l' :
  length l = length l' -> Forall (fun x => 31 ∉ bytes x) l -> Forall (fun x => 31 ∉ bytes x) l' ->
  join unitSep l = join unitSep l' -> l = l'.
Proof.
  revert l'. induction l as [|x l IH]; intros [|x' l'] Hl; try done.
  intros [Hx Hs]%Forall_cons [Hx' Hs']%Forall_cons HE. simpl in Hl. simplify_eq.
  destruct l as [|y l], l' as [|y' l']; try done; [simpl in HE; congruence|].
  cbn [join] in HE. apply (f_equal bytes) in HE. rewrite !bytes_app in HE.
  change (bytes unitSep) with [31] in HE.
  apply sep_inj in HE as [HE1 HE2]; [|done..].
  apply bytes_inj in HE1, HE2. f_equal; [done|]. by apply IH.
Qed.

Lemma write_field_inj f g r r' :
  same_shape f g -> field_ok f -> field_ok g ->
  write_field f +:+ r = write_field g +:+ r' -> f = g /\ r = r'.
Proof.
  destruct f as [l v|l items], g as [l' v'|l' items']; try done; simpl.
  - intros -> Hv Hv' HE. apply (f_equal bytes) in HE. rewrite !bytes_w_field in HE.
    apply app_inv_head in HE. injection HE as HE.
    unfold size_ok in *. rewrite <- length_bytes in Hv, Hv'.
    apply len_prefix_inj in HE as [HE1 HE2]; [|done..]. injection HE2 as HE2.
    apply bytes_inj in HE1, HE2. by subst.
  - intros -> (Hn & Hs & Hf) (Hn' & Hs' & Hf') HE. apply (f_equal bytes) in HE.
    rewrite !bytes_w_list in HE. apply app_inv_head in HE. injection HE as HE.
    apply nat_int64 in Hn, Hn'.
    apply sep_inj in HE as [Hc HE]; [|by apply Itoa_no_colon..].
    apply bytes_inj, Itoa_inj in Hc; [|done..].
    unfold size_ok in *. rewrite <- length_bytes in Hs, Hs'.
    apply len_prefix_inj in HE as [HE1 HE2]; [|done..]. injection HE2 as HE2.
    apply bytes_inj in HE1, HE2. apply join_inj in HE1; [|lia|done..]. by subst.
Qed.

Lemma write_fields_inj l l' :
  Forall2 same_shape l l' -> Forall field_ok l -> Forall field_ok l' ->
  write_fields l = write_fields l' -> l = l'.
Proof.
  induction 1 as [|f g l l' Hfg Hl IH]; [done|].
  intros [Hf Hfl]%Forall_cons [Hg Hgl]%Forall_cons HE.
  apply write_field_inj in HE as [-> HE]; [|done..]. f_equal. by apply IH.
Qed.

(** Well-formed entries: 64-bit integers, sizes below 2^63, no unit separator
    inside the items of the two lists. *)
Definition entry_wf (e : DecisionEntry) : Prop :=
  Forall field_ok (digest_fields e) /\ int64_range (de_StepNumber e) /\ int64_range (de_ChainSeq e) /\
  int64_range (de_ProcessingTimeMs e) /\ int64_range (UnixMicro (de_CreatedAt e)).

(** What the digest covers: everything but the metadata, the chain fields
    written after it and the sub-microsecond part of the time. *)
Definition content (e : DecisionEntry) : DecisionEntry :=
  mkDE (de_ID e) (de_ChainID e) (de_RequestID e) (de_ParentRequestID e) (de_StepNumber e)
    (de_OrgID e) (de_TenantID e) (de_ClientID e) (de_UserID e) (de_DecisionType e)
    (de_DecisionOutcome e) (de_SystemID e) (de_ModelProvider e) (de_ModelID e)
    (de_PoliciesEvaluated e) (de_PolicyTriggered e) (de_RiskLevel e) (de_RequiresHumanReview e)
    (de_ProcessingTimeMs e) (de_InputHash e) (de_OutputHash e) (de_AuditHash e) []
    (de_ChainSeq e) "" "" "" (de_DataSources e) (UnixMicro (de_CreatedAt e)).

Lemma digest_shape e e' : Forall2 same_shape (digest_fields e) (digest_fields e').
Proof. by repeat constructor. Qed.

(** The digest pre-image is an unambiguous encoding: two well-formed
    decision records with the same pre-image agree in every field the digest
    covers. *)
Lemma preimage_determines_record e e' :
  entry_wf e -> entry_wf e' ->
  recordDigestPreimage e = recordDigestPreimage e' -> content e = content e'.
Proof.
  intros (Hf & Hs & Hc & Hp & Ht) (Hf' & Hs' & Hc' & Hp' & Ht') HE.
  apply write_fields_inj in HE; [|apply digest_shape|done..].
  unfold digest_fields in HE. unfold content. injection HE as -> -> -> -> H1 H2 -> -> -> -> -> -> -> -> -> -> -> ->
    H3%FormatBool_inj H4 -> -> -> -> H5.
  apply Itoa_inj in H1, H2, H4, H5; try done.
  by rewrite H1, H2, H3, H4, H5.
Qed.

(** A sample record, and the same one with other metadata. *)
Definition sample (policies : list string) (meta : list (string * value)) : DecisionEntry :=
  mkDE "0e1f" "c0de" "beef" "" 1 "org-1" "acme" "" "" DecisionTypePolicyEnforcement
    DecisionOutcomeBlocked "axonflow-agent/1.0.0" "" "" policies "" RiskLevelHigh false 12
    "" "" "" meta 0 "" "" "" [] 1750000000000000000.

#[export] Instance field_ok_dec f : Decision (field_ok f).
Proof. unfold field_ok, size_ok. destruct f; apply _. Defined.
#[export] Instance entry_wf_dec e : Decision (entry_wf e).
Proof. unfold entry_wf, int64_range. apply _. Defined.

Example preimage_ignores_metadata :
  recordDigestPreimage (sample ["pii-ssn"] [("stage", VString "input")]) =
  recordDigestPreimage (sample ["pii-ssn"] []).
Proof. vm_compute. reflexivity. Qed.

(** The separator of list items may occur inside an item, and then two records
    share their pre-image: the comment on the separators excludes it. *)
Lemma unit_separator_ambiguous :
  let a := of_bytes [97; 31; 98] in let b := of_bytes [98; 31; 99] in
  let e := sample [a; "c"] [] in let e' := sample ["a"; b] [] in
  content e <> content e' /\ recordDigestPreimage e = recordDigestPreimage e' /\
  chainHashOf e = chainHashOf e'.
Proof.
  cbv zeta. assert (HE : recordDigestPreimage (sample [of_bytes [97; 31; 98]; "c"] []) =
    recordDigestPreimage (sample ["a"; of_bytes [98; 31; 99]] [])) by (vm_compute; reflexivity).
  split_and!; [|exact HE|].
  - intros H. apply (f_equal de_PoliciesEvaluated) in H. vm_compute in H. discriminate.
  - unfold chainHashOf, computeRecordDigest. by rewrite HE.
Qed.

(** * Verification *)

(** Each record links to the one before it. *)
Fixpoint links (prev : string) (l : list DecisionEntry) : Prop :=
  match l with
  | [] => True
  | e :: l' => de_PrevHash e = prev /\ links (chainHashOf e) l'
  end.

(** The hash the next record would link to. *)
Fixpoint head_hash (prev : string) (l : list DecisionEntry) : string :=
  match l with
  | [] => prev
  | e :: l' => head_hash (chainHashOf e) l'
  end.

Definition count_signed (l : list DecisionEntry) : Z := Z.of_nat (length (List.filter is_signed l)).

Section Verify.
Context `{Ed25519}.

Definition signature_ok (t : Tracker) (e : DecisionEntry) : Prop :=
  is_signed e = true -> verifySignature t e (chainHashOf e) = None.

(** The loop without a break: the records link and the signatures present
    verify, and the two counters count. *)
Lemma verify_loop_iff t prev l s u :
  (verify_loop t prev l s u).2 = None <-> links prev l /\ Forall (signature_ok t) l.
Proof.
  revert prev s u. induction l as [|e l IH]; intros prev s u; simpl; [split; auto|].
  unfold signature_ok. destruct (str_eqb (de_PrevHash e) prev) eqn:Ep; simpl.
  - apply str_eqb_true in Ep. fold (chainHashOf e).
    destruct (is_signed e) eqn:Es; simpl.
    + destruct (verifySignature t e (chainHashOf e)) eqn:Ev; simpl.
      * split; [done|]. intros [_ [He _]%Forall_cons]. by rewrite He in Ev.
      * rewrite IH, Forall_cons. unfold signature_ok. tauto.
    + rewrite IH, Forall_cons. unfold signature_ok. rewrite Es. intuition congruence.
  - apply str_eqb_false in Ep. split; [done|]. by intros [[? _] _].
Qed.

Lemma verify_loop_count t prev l s u :
  (verify_loop t prev l s u).2 = None ->
  (verify_loop t prev l s u).1 =
    (s + count_signed l, u + (Z.of_nat (length l) - count_signed l)).
Proof.
  unfold count_signed.
  revert prev s u. induction l as [|e l IH]; intros prev s u; simpl; [intros _; f_equal; lia|].
  destruct (negb _); [done|]. destruct (is_signed e) eqn:Es; simpl.
  - destruct (verifySignature _ _ _); [done|]. intros Hn. rewrite (IH _ _ _ Hn). f_equal; lia.
  - intros Hn. rewrite (IH _ _ _ Hn). f_equal; lia.
Qed.

Lemma verifyEntries_valid t org chain l now :
  let r := verifyEntries t org chain l now in
  (cv_Valid r = true <-> links genesisPrevHash l /\ Forall (signature_ok t) l) /\
  (cv_AuthorshipProven r = true <->
     cv_Valid r = true /\ l <> [] /\ Forall (fun e => is_signed e = true) l) /\
  (cv_Valid r = true -> cv_SignedRecords r = count_signed l /\
     cv_UnsignedRecords r = Z.of_nat (length l) - count_signed l /\ cv_FirstBroken r = None).
Proof.
  cbv zeta. unfold verifyEntries. rewrite <- (verify_loop_iff t genesisPrevHash l 0 0).
  pose proof (verify_loop_count t genesisPrevHash l 0 0) as Hc.
  destruct (verify_loop t genesisPrevHash l 0 0) as [[s u] brk]. simpl in *.
  assert (Hv : (match brk with Some (_, _, LinkageBreak) => false | _ => true end &&
     match brk with Some (_, _, SignatureBreak _) => false | _ => true end &&
     match brk with None => true | Some _ => false end) = bool_decide (brk = None))
    by (by destruct brk as [[[? ?] []]|]).
  rewrite Hv. split_and!.
  - apply bool_decide_eq_true.
  - rewrite !andb_true_iff, !bool_decide_eq_true, Z.ltb_lt, Z.eqb_eq. split.
    + intros [[Hb H0] Hs]. specialize (Hc Hb). injection Hc as Hsc _. rewrite Hsc in Hs.
      split_and!; [done|by destruct l|].
      unfold count_signed in Hs. pose proof (filter_length_split is_signed l).
      assert (Hnil : List.filter (fun x => negb (is_signed x)) l = []) by (apply length_zero_iff_nil; lia).
      apply filter_negb_nil in Hnil. eapply Forall_impl; [exact Hnil|]. simpl.
      intros e He. by apply negb_false_iff.
    + intros (Hb & Hne & Hall). specialize (Hc Hb). injection Hc as -> _.
      split_and!; [done|by destruct l|]. unfold count_signed. by rewrite filter_all.
  - rewrite bool_decide_eq_true. intros Hb. specialize (Hc Hb). injection Hc as -> ->. split_and!; try done; lia.
Qed.

(** ** What is sealed verifies *)

Context `{!Ed25519Laws}.

Lemma set_chain_hash e prev seq sig id sig' id' :
  chainHashOf (set_chain e prev seq sig id) = chainHashOf (set_chain e prev seq sig' id').
Proof. done. Qed.

Lemma seal_prev t e prev seq : de_PrevHash (sealEntry t e prev seq) = prev.
Proof. unfold sealEntry. by destruct (t_signingKey t). Qed.

Definition knows (v t : Tracker) : Prop :=
  forall k, t_signingKey t = Some k ->
    length k = 64%nat /\ t_signingKeyID t <> "" /\ t_verifyKeys v !! t_signingKeyID t = Some (Public k).

Lemma seal_signature v t e prev seq :
  knows v t -> signature_ok v (sealEntry t e prev seq).
Proof.
  unfold knows, signature_ok, sealEntry. destruct (t_signingKey t) as [k|] eqn:Ek; [|done].
  intros Hk _. destruct (Hk k eq_refl) as (Hlen & _ & Hv). unfold verifySignature.
  cbn [de_SigningKeyID de_RecordSignature set_chain]. rewrite Hv, Decode_Encode by apply sign_bytes.
  match goal with |- (if Verify _ ?h (Sign _ ?h') then _ else _) = _ => change h with h' end.
  by rewrite verify_sign.
Qed.

Lemma encode_nonempty l : l <> [] -> EncodeToString StdEncoding l <> "".
Proof.
  intros Hl HE. assert (HL : DecodeString StdEncoding "" = Some []) by reflexivity.
  apply (f_equal bytes) in HE. unfold EncodeToString in HE. destruct l as [|a [|b [|c l]]]; done.
Qed.

Lemma seal_signed v t e prev seq :
  knows v t -> is_signed (sealEntry t e prev seq) = bool_decide (is_Some (t_signingKey t)).
Proof.
  unfold knows, sealEntry, is_signed. destruct (t_signingKey t) as [k|]; [|done].
  intros Hk. destruct (Hk k eq_refl) as (_ & Hid & _). rewrite bool_decide_eq_true_2 by eauto.
  cbn [de_SigningKeyID de_RecordSignature set_chain].
  apply negb_true_iff, orb_false_iff. rewrite !str_eqb_false. split; [done|].
  apply encode_nonempty. intros HE. pose proof (sign_size k (computeChainHash
    (computeRecordDigest (set_chain e prev seq (de_RecordSignature e) (de_SigningKeyID e))) prev)) as Hsz.
  by rewrite HE in Hsz.
Qed.
End Verify.

(** * What was recorded verifies *)

Lemma head_hash_last p l :
  head_hash p l = match last l with Some e => chainHashOf e | None => p end.
Proof.
  revert p. induction l as [|e l IH]; intros p; [done|]. cbn [head_hash]. rewrite IH, last_cons.
  by destruct (last l).
Qed.

Lemma links_app p l l' : links p (l ++ l') <-> links p l /\ links (head_hash p l) l'.
Proof.
  revert p. induction l as [|e l IH]; intros p; simpl; [tauto|]. rewrite IH. tauto.
Qed.

(** A record without its place in the chain. *)
Definition unsealed (e : DecisionEntry) : DecisionEntry := content (set_chain e "" 0 "" "").

Section Record.
Context `{HE : Ed25519} {HL : Ed25519Laws} `{CS : !ChainStore St} {CSL : ChainStoreLaws}.

(** Reading without the metadata changes nothing that is verified. *)
Lemma forget_meta_same e e' :
  forget_meta e = forget_meta e' ->
  de_PrevHash e = de_PrevHash e' /\ chainHashOf e = chainHashOf e' /\ de_ChainSeq e = de_ChainSeq e' /\
  is_signed e = is_signed e' /\ unsealed e = unsealed e' /\
  forall v, signature_ok v e <-> signature_ok v e'.
Proof.
  intros HF.
  assert (H1 : chainHashOf e = chainHashOf e').
  { change (chainHashOf (forget_meta e) = chainHashOf (forget_meta e')). by rewrite HF. }
  assert (H2 : is_signed e = is_signed e').
  { change (is_signed (forget_meta e) = is_signed (forget_meta e')). by rewrite HF. }
  split_and!; try done.
  - exact (f_equal de_PrevHash HF).
  - exact (f_equal de_ChainSeq HF).
  - change (unsealed (forget_meta e) = unsealed (forget_meta e')). by rewrite HF.
  - intros v. unfold signature_ok. rewrite H1, H2.
    change (verifySignature v e) with (verifySignature v (forget_meta e)).
    change (verifySignature v e') with (verifySignature v (forget_meta e')). by rewrite HF.
Qed.

(** The successful records of a run, in the order of the writes. *)
Inductive recorded : St -> list (Tracker * DecisionEntry) -> St -> Prop :=
| recorded_nil s : recorded s [] s
| recorded_snoc s ops s' t e s'' :
    recorded s ops s' -> cs_storable e -> cs_record t s' e = Ok s'' ->
    recorded s (ops ++ [(t, e)]) s''.

Definition in_chain (org chain : string) (op : Tracker * DecisionEntry) : bool :=
  bool_decide (org = de_OrgID op.2 /\ chain = de_ChainID op.2).

(** What holds of every chain of a store filled by [recorded]. *)
Definition chain_good (v : Tracker) (ops : list (Tracker * DecisionEntry))
    (l : list DecisionEntry) : Prop :=
  links genesisPrevHash l /\ Forall (signature_ok v) l /\
  (de_ChainSeq <$> l) = seqZ 1 (Z.of_nat (length l)) /\
  (unsealed <$> l) = ((fun op => unsealed op.2) <$> ops) /\
  (is_signed <$> l) = ((fun op => bool_decide (is_Some (t_signingKey op.1))) <$> ops).

Lemma seq_last l n :
  (de_ChainSeq <$> l) = seqZ 1 (Z.of_nat n) -> length l = n ->
  (chain_link (last l)).2 = Z.of_nat n + 1.
Proof.
  intros HS Hl. destruct (last l) as [e|] eqn:El; simpl.
  - apply last_Some in El as (l' & ->). rewrite length_app in Hl. simpl in Hl.
    assert (Hi : (de_ChainSeq <$> l' ++ [e]) !! length l' = Some (de_ChainSeq e)).
    { rewrite list_lookup_fmap, lookup_app_r, Nat.sub_diag by lia. done. }
    rewrite HS in Hi. apply lookup_seqZ in Hi as [Hi _]. lia.
  - apply last_None in El. subst. simpl. lia.
Qed.

Lemma unsealed_seal t e last : unsealed (seal_after t e last) = unsealed e.
Proof. unfold seal_after, sealEntry. destruct (chain_link last). by destruct (t_signingKey t). Qed.

Lemma seal_after_seq t e last : de_ChainSeq (seal_after t e last) = (chain_link last).2.
Proof. unfold seal_after, sealEntry. destruct (chain_link last). by destruct (t_signingKey t). Qed.

Lemma seal_after_prev t e l :
  de_PrevHash (seal_after t e (last l)) = head_hash genesisPrevHash l.
Proof.
  unfold seal_after. rewrite head_hash_last. destruct (last l); simpl; apply seal_prev.
Qed.

Lemma chain_good_snoc v ops l t e e' :
  chain_good v ops l -> knows v t -> forget_meta e' = forget_meta (seal_after t e (last l)) ->
  chain_good v (ops ++ [(t, e)]) (l ++ [e']).
Proof.
  intros (Hl & Hs & Hq & Hu & Hg) Hk HF.
  destruct (forget_meta_same _ _ HF) as (Hp & _ & Hsq & Hsg & Hun & Hok).
  assert (Hlen : length l = length ops).
  { apply (f_equal length) in Hu. by rewrite !length_fmap in Hu. }
  unfold chain_good. rewrite !fmap_app. simpl. split_and!.
  - rewrite links_app. split; [done|]. simpl. split; [|done]. by rewrite Hp, seal_after_prev.
  - apply Forall_app. split; [done|]. apply Forall_singleton, Hok. unfold seal_after.
    destruct (chain_link (last l)). by apply seal_signature.
  - rewrite Hq, Hsq, seal_after_seq, (seq_last l (length l)) by done.
    rewrite length_app. simpl. replace (Z.of_nat (length l + 1)) with (Z.of_nat (length l) + 1) by lia.
    rewrite seqZ_app by lia. f_equal. change (seqZ (1 + Z.of_nat (length l)) 1) with
      [1 + Z.of_nat (length l)]. f_equal. lia.
  - by rewrite Hu, Hun, unsealed_seal.
  - rewrite Hg, Hsg. f_equal. f_equal. unfold seal_after. destruct (chain_link (last l)).
    by apply (seal_signed v).
Qed.

Lemma recorded_good v s ops s' :
  recorded s ops s' -> cs_inv s ->
  (forall org chain, cs_name chain -> cs_chain s org chain = []) -> Forall (knows v) ops.*1 ->
  cs_inv s' /\ forall org chain, cs_name chain ->
    chain_good v (List.filter (in_chain org chain) ops) (cs_chain s' org chain).
Proof.
  intros HR Hi H0. induction HR as [s|s ops s' t e s'' HR IH Hst Hrec]; intros Hk.
  - split; [done|]. intros org chain Hc. rewrite H0 by done. by repeat split.
  - rewrite fmap_app, Forall_app in Hk. destruct Hk as [Hk Hkt].
    apply Forall_cons in Hkt as [Hkt _]. simpl in Hkt.
    destruct (IH Hi H0 Hk) as [Hi' Hg]. destruct (cs_record_law _ _ _ _ Hi' Hst Hrec) as [Hi'' Hc].
    split; [done|]. intros org chain Hn. specialize (Hc org chain Hn). specialize (Hg org chain Hn).
    rewrite List.filter_app. cbn [List.filter]. unfold in_chain at 2. cbn [snd].
    destruct (bool_decide (org = de_OrgID e /\ chain = de_ChainID e)).
    + destruct Hc as (e' & -> & HF). by apply chain_good_snoc.
    + by rewrite Hc, app_nil_r.
Qed.

(** C20: Whatever trackers record into a store, every chain verifies. Start from an empty
    store, in memory or the table, and let any trackers (several keys, or none) record
    any sequence of entries that succeed; entries written to the table, and the chain
    asked for, have canonical uuids, and the verifying tracker knows the public keys of
    the recording ones. Then the verification of any chain of any organization reports it
    valid, with exactly the records made in it, in order and numbered from one; and it
    reports authorship proven if and only if the chain is not empty and every tracker
    that recorded into it signs. *)
Theorem recorded_chain_verifies v s ops s' org chain now :
  cs_inv s -> (forall org chain, cs_name chain -> cs_chain s org chain = []) ->
  recorded s ops s' -> Forall (knows v) ops.*1 -> cs_name chain ->
  let l := cs_chain s' org chain in
  let mine := List.filter (in_chain org chain) ops in
  let r := verifyEntries v org chain l now in
  cv_Valid r = true /\ cv_TotalRecords r = Z.of_nat (length mine) /\
  (unsealed <$> l) = ((fun op => unsealed op.2) <$> mine) /\
  (de_ChainSeq <$> l) = seqZ 1 (Z.of_nat (length l)) /\
  (cv_AuthorshipProven r = true <->
     mine <> [] /\ Forall (fun op => is_Some (t_signingKey op.1)) mine).
Proof.
  intros Hi H0 HR Hk Hn. cbv zeta.
  destruct (recorded_good v s ops s' HR Hi H0 Hk) as [_ Hg].
  destruct (Hg org chain Hn) as (Hl & Hs & Hq & Hu & Hsg).
  destruct (verifyEntries_valid v org chain (cs_chain s' org chain) now) as (Hv & Ha & _).
  assert (HV : cv_Valid (verifyEntries v org chain (cs_chain s' org chain) now) = true) by (by apply Hv).
  pose proof (f_equal length Hu) as Hlen. rewrite !length_fmap in Hlen.
  split_and!; try done.
  - unfold verifyEntries. destruct (verify_loop _ _ _ _ _) as [[? ?] ?]. simpl. by rewrite Hlen.
  - rewrite Ha. split.
    + intros (_ & Hne & Hall). split.
      * intros HN. rewrite HN in Hlen. by destruct (cs_chain s' org chain).
      * apply (Forall_fmap is_signed (fun b => b = true)) in Hall. rewrite Hsg, Forall_fmap in Hall.
        eapply Forall_impl; [exact Hall|]. simpl. intros op. by rewrite bool_decide_eq_true.
    + intros [Hne Hall]. split_and!; [done| |].
      * intros HN. rewrite HN in Hlen. by destruct (List.filter _ ops).
      * apply (Forall_fmap is_signed (fun b => b = true)). rewrite Hsg, Forall_fmap.
        eapply Forall_impl; [exact Hall|]. simpl. intros op. by rewrite bool_decide_eq_true.
Qed.
End Record.

(** * The two stores keep the interface *)

Lemma find_first_rev_last {A} (p : A -> bool) l :
  find_first p (rev l) = last (List.filter p l).
Proof.
  induction l as [|x l IH] using rev_ind; [done|].
  rewrite rev_app_distr, List.filter_app. simpl. destruct (p x); simpl.
  - by rewrite last_snoc.
  - by rewrite app_nil_r.
Qed.

#[export] Instance memory_store_laws `{HE : Ed25519} : ChainStoreLaws (CS := memory_store).
Proof.
  split. intros t s e s' _ _ [= <-]. split; [done|]. intros org chain _. simpl.
  unfold memoryChainForOrg, recordToMemory, MemoryStore in *. destruct (decide (chain = de_ChainID e)) as [->|Hne].
  - rewrite lookup_insert_eq. simpl. rewrite List.filter_app. cbn [List.filter].
    assert (Ho : forall last, de_OrgID (seal_after t e last) = de_OrgID e).
    { intros last. unfold seal_after, sealEntry. destruct (chain_link last).
      by destruct (t_signingKey t). }
    rewrite Ho. case_bool_decide as Hd.
    + destruct Hd as [-> _]. rewrite str_eqb_refl. eexists. split; [done|].
      by rewrite find_first_rev_last.
    + destruct (str_eqb (de_OrgID e) org) eqn:Eo; [|by rewrite app_nil_r].
      apply str_eqb_true in Eo. naive_solver.
  - rewrite lookup_insert_ne by done.
    rewrite bool_decide_eq_false_2 by naive_solver. done.
Qed.

(** ** Sorting rows that are already in order *)

Section Sorted.
Context {A : Type} (lt : A -> A -> bool).

Lemma sorted_insert_last x l :
  Forall (fun y => lt y x = true) l -> sorted_insert lt x l = l ++ [x].
Proof. induction 1 as [|y l Hy _ IH]; simpl; [done|]. by rewrite Hy, IH. Qed.

Lemma SliceStable_id l :
  StronglySorted (fun a b => lt b a = false) l -> SliceStable lt l = l.
Proof.
  induction 1 as [|x l Hl IH Hx]; simpl; [done|]. rewrite IH.
  destruct l as [|y l]; simpl; [done|]. apply Forall_cons in Hx as [-> _]. done.
Qed.
End Sorted.

Lemma SliceStable_rev {A} (lt : A -> A -> bool) l :
  StronglySorted (fun a b => lt a b = true) l -> SliceStable (fun a b => lt b a) l = rev l.
Proof.
  induction 1 as [|x l Hl IH Hx]; simpl; [done|]. rewrite IH.
  apply (sorted_insert_last (fun a b => lt b a)). apply Forall_forall. intros y Hy.
  rewrite Forall_forall in Hx. apply Hx. by apply list_elem_of_In, in_rev, list_elem_of_In.
Qed.

Lemma row_before_seq a b x y : row_seq a = Some x -> row_seq b = Some y -> x < y ->
  row_before a b = true /\ row_before b a = false.
Proof.
  intros Ha Hb Hxy. unfold row_before. rewrite Ha, Hb.
  replace (x <? y) with true by lia. replace (y <? x) with false by lia.
  replace (y =? x) with false by lia. done.
Qed.

Lemma chain_rows_sorted l k n :
  (row_seq <$> l) = Some <$> seqZ k (Z.of_nat n) ->
  StronglySorted (fun a b => row_before a b = true /\ row_before b a = false) l.
Proof.
  revert k n. induction l as [|r l IH]; intros k n HE; [constructor|].
  destruct n as [|n]; [done|]. rewrite seqZ_cons, !fmap_cons in HE by lia.
  injection HE as Hr HE. replace (Z.pred (Z.of_nat (S n))) with (Z.of_nat n) in HE by lia.
  constructor; [by eapply IH|]. apply Forall_forall. intros r' Hr'.
  assert (Hin : row_seq r' ∈ row_seq <$> l) by (by apply list_elem_of_fmap_2).
  rewrite HE in Hin. apply list_elem_of_fmap in Hin as (y & Hy & Hyin%elem_of_seqZ).
  eapply row_before_seq; [done..|lia].
Qed.

Lemma sorted_impl {A} (R R' : A -> A -> Prop) l :
  (forall a b, R a b -> R' a b) -> StronglySorted R l -> StronglySorted R' l.
Proof.
  intros HR. induction 1 as [|x l Hl IH Hx]; constructor; [done|].
  eapply Forall_impl; [exact Hx|]. auto.
Qed.

Section Table.
Context `{HE : Ed25519}.
Variable uuid_text : string -> option string.
Variable accepts : DecisionEntry -> bool.

Lemma fetch_sorted db org chain :
  table_inv uuid_text db ->
  fetchChainEntriesOrgScoped uuid_text db org chain = scanDecisionRow <$> visible_chain uuid_text db org chain /\
  fetchChainTailTx uuid_text db org chain =
    last (fetchChainEntriesOrgScoped uuid_text db org chain).
Proof.
  intros [Hseq _]. specialize (Hseq org chain). apply chain_rows_sorted in Hseq.
  unfold fetchChainEntriesOrgScoped, fetchChainTailTx.
  rewrite SliceStable_id by (eapply sorted_impl; [|exact Hseq]; by intros ? ? [? ?]). split; [done|].
  rewrite SliceStable_rev by (eapply sorted_impl; [|exact Hseq]; by intros ? ? [? ?]).
  rewrite fmap_last. f_equal. generalize (visible_chain uuid_text db org chain). intros l.
  induction l as [|x l IH] using rev_ind; [done|]. by rewrite rev_app_distr, last_snoc.
Qed.

Lemma visible_snoc db r org chain :
  visible_chain uuid_text (db ++ [r]) org chain =
    visible_chain uuid_text db org chain ++
    (if str_eqb (de_OrgID (row_entry r)) org
        && bool_decide (Some (de_ChainID (row_entry r)) = uuid_text chain) then [r] else []).
Proof. unfold visible_chain. by rewrite List.filter_app. Qed.

(** A canonical entry is stored as it is. *)
Lemma insert_canonical e r :
  canonical uuid_text e -> insert_row uuid_text accepts e = Some r ->
  scanDecisionRow r = forget_meta e /\ row_seq r = Some (de_ChainSeq e) /\
  de_OrgID (row_entry r) = de_OrgID e /\ de_ChainID (row_entry r) = de_ChainID e.
Proof.
  intros (Hid & Hch & Hrq & Hpa & Htm). unfold insert_row. rewrite Hid, Hch, Hrq. simpl.
  assert (HP : (if str_eqb (de_ParentRequestID e) "" then Some "" else uuid_text (de_ParentRequestID e))
               = Some (de_ParentRequestID e)).
  { destruct (str_eqb (de_ParentRequestID e) "") eqn:Ep; [by apply str_eqb_true in Ep as ->|].
    apply str_eqb_false in Ep. naive_solver. }
  rewrite HP. simpl. destruct (accepts e); [|done]. intros [= <-]. split_and!; try done.
  unfold scanDecisionRow, forget_meta. simpl. by rewrite Htm.
Qed.

Lemma seal_fields t e l :
  canonical uuid_text e -> canonical uuid_text (seal_after t e l) /\
  de_OrgID (seal_after t e l) = de_OrgID e /\ de_ChainID (seal_after t e l) = de_ChainID e.
Proof.
  intros Hc. unfold seal_after, sealEntry. destruct (chain_link l). by destruct (t_signingKey t).
Qed.

Lemma table_inv_snoc db r org chain :
  table_inv uuid_text db -> uuid_text chain = Some chain ->
  de_OrgID (row_entry r) = org -> de_ChainID (row_entry r) = chain ->
  row_seq r = Some (Z.of_nat (length (visible_chain uuid_text db org chain)) + 1) ->
  table_inv uuid_text (db ++ [r]).
Proof.
  intros [Hseq Hcan] Hch Ho Hc Hr. split.
  - intros org' chain'. rewrite visible_snoc. specialize (Hseq org' chain').
    destruct (str_eqb (de_OrgID (row_entry r)) org') eqn:Eo; simpl; [|by rewrite app_nil_r].
    case_bool_decide as Hd; [|by rewrite app_nil_r]. apply str_eqb_true in Eo. subst org'.
    assert (HV : visible_chain uuid_text db (de_OrgID (row_entry r)) chain' =
                 visible_chain uuid_text db org chain).
    { unfold visible_chain. rewrite <- Hd, Hch, Hc, Ho. done. }
    rewrite HV in *. rewrite fmap_app, Hseq, length_app. simpl. rewrite Hr.
    set (n := length _). replace (Z.of_nat (n + 1)) with (Z.of_nat n + 1) by lia.
    rewrite seqZ_app, fmap_app by lia. f_equal.
    change (seqZ (1 + Z.of_nat n) 1) with [1 + Z.of_nat n]. simpl. do 2 f_equal. lia.
  - apply Forall_app. split; [done|]. apply Forall_singleton. by rewrite Hc.
Qed.

Lemma scan_seq db org chain :
  table_inv uuid_text db ->
  (de_ChainSeq <$> (scanDecisionRow <$> visible_chain uuid_text db org chain)) =
    seqZ 1 (Z.of_nat (length (visible_chain uuid_text db org chain))).
Proof.
  intros [Hseq _]. specialize (Hseq org chain). rewrite <- list_fmap_compose.
  transitivity (default 0 <$> (row_seq <$> visible_chain uuid_text db org chain)).
  - rewrite <- list_fmap_compose. done.
  - rewrite Hseq, <- list_fmap_compose. apply list_fmap_id.
Qed.

Lemma table_store_laws : ChainStoreLaws (CS := table_store uuid_text accepts).
Proof.
  split. intros t db e db' Hinv Hst Hrec. simpl in *. unfold recordToDB in Hrec.
  destruct (str_eqb (de_OrgID e) ""); [done|].
  assert (Hch : uuid_text (de_ChainID e) = Some (de_ChainID e)) by apply Hst.
  rewrite Hch in Hrec. destruct (fetch_sorted db (de_OrgID e) (de_ChainID e) Hinv) as [Hf Ht].
  set (l := fetchChainEntriesOrgScoped uuid_text db (de_OrgID e) (de_ChainID e)) in *.
  rewrite Ht in Hrec. destruct (seal_fields t e (last l) Hst) as (Hcan & Ho & Hc).
  destruct (insert_row uuid_text accepts _) as [r|] eqn:Ei; [|done]. injection Hrec as <-.
  destruct (insert_canonical _ _ Hcan Ei) as (Hscan & Hsq & Hor & Hcr). rewrite Ho in Hor. rewrite Hc in Hcr.
  assert (Hlast : de_ChainSeq (seal_after t e (last l)) =
    Z.of_nat (length (visible_chain uuid_text db (de_OrgID e) (de_ChainID e))) + 1).
  { rewrite seal_after_seq. apply seq_last; [|by rewrite Hf, length_fmap].
    rewrite Hf. by apply scan_seq. }
  assert (Hinv' : table_inv uuid_text (db ++ [r])).
  { eapply table_inv_snoc; try done. by rewrite Hsq, Hlast. }
  split; [done|]. intros org chain Hn.
  destruct (fetch_sorted (db ++ [r]) org chain Hinv') as [-> _].
  destruct (fetch_sorted db org chain Hinv) as [Hold _].
  rewrite visible_snoc, Hor, Hcr, Hn. case_bool_decide as Hd.
  - destruct Hd as [-> ->]. rewrite str_eqb_refl, bool_decide_eq_true_2 by done.
    exists (scanDecisionRow r). rewrite fmap_app. fold l. rewrite <- Hf. split; [done|].
    rewrite Hscan. done.
  - rewrite Hold. replace (str_eqb (de_OrgID e) org && bool_decide (Some (de_ChainID e) = Some chain))
      with false; [by rewrite app_nil_r|].
    symmetry. apply not_true_iff_false. intros [Hx%str_eqb_true Hy]%andb_true_iff.
    apply bool_decide_eq_true in Hy. naive_solver.
Qed.

Lemma empty_table : table_inv uuid_text [] /\
  forall org chain, fetchChainEntriesOrgScoped uuid_text [] org chain = [].
Proof. by repeat constructor. Qed.
End Table.

(** ** A toy signature scheme for the examples: a signature is the message, cut
    or padded to 32 bytes, with the public key. *)
Definition toy_pad (l : list Z) : list Z := take 32 (l ++ replicate 32 0).

#[local] Instance toy_ed25519 : Ed25519 := {|
  NewKeyFromSeed seed := toy_pad seed ++ toy_pad seed;
  Public k := drop 32 k;
  Sign k m := toy_pad (bytes m) ++ toy_pad ((fun b => b mod 256) <$> drop 32 k);
  Verify pub m sig := bool_decide (sig = toy_pad (bytes m) ++ toy_pad ((fun b => b mod 256) <$> pub));
|}.

Lemma toy_pad_length l : length (toy_pad l) = 32%nat.
Proof. unfold toy_pad. rewrite length_take, length_app, length_replicate. lia. Qed.

Lemma toy_pad_bytes l :
  Forall (fun b => 0 <= b < 256) l -> Forall (fun b => 0 <= b < 256) (toy_pad l).
Proof. intros Hl. apply Forall_take, Forall_app. split; [done|]. by apply Forall_replicate. Qed.

#[local] Instance toy_laws : Ed25519Laws.
Proof.
  split.
  - intros k m _. simpl. by apply bool_decide_eq_true.
  - intros k m. simpl. apply Forall_app. split; apply toy_pad_bytes; [apply bytes_range|].
    apply Forall_fmap, Forall_true. intros x. simpl. apply Z.mod_pos_bound. lia.
  - intros k m. simpl. rewrite length_app, !toy_pad_length. done.
Qed.

Definition toy_key : list Z := replicate 64 7.
Definition toy_tracker : Tracker :=
  mkTracker "axonflow-agent/1.0.0" true (Some toy_key) "k1" {["k1" := replicate 32 7]} 0 0.
Definition toy_store : MemoryStore :=
  recordToMemory toy_tracker (recordToMemory toy_tracker ∅ (sample ["pii-ssn"] [])) (sample [] []).

Lemma recorded_chain_verifies_witness :
  cv_AuthorshipProven (verifyEntries toy_tracker "org-1" "c0de"
    (memoryChainForOrg toy_store "org-1" "c0de") 0) = true.
Proof.
  refine (proj2 (proj2 (proj2 (proj2 (proj2
    (recorded_chain_verifies (CS := memory_store) toy_tracker ∅
       [(toy_tracker, sample ["pii-ssn"] []); (toy_tracker, sample [] [])] toy_store
       "org-1" "c0de" 0 I (fun _ _ _ => eq_refl) _ _ I))))) _).
  - apply (recorded_snoc (CS := memory_store) ∅ [(toy_tracker, sample ["pii-ssn"] [])]
      (recordToMemory toy_tracker ∅ (sample ["pii-ssn"] []))); [|exact I|reflexivity].
    apply (recorded_snoc (CS := memory_store) ∅ [] ∅); [constructor|exact I|reflexivity].
  - assert (Hk : knows toy_tracker toy_tracker) by (intros k [= <-]; split_and!; vm_compute; congruence).
    exact (Forall_cons_2 _ _ _ Hk (Forall_cons_2 _ _ _ Hk (Forall_nil_2 _))).
  - split; [vm_compute; discriminate|]. repeat (apply Forall_cons; split); try apply Forall_nil_2; by eexists.
Defined.

(** * What verifies cannot be altered *)

(** The texts that are hashed for an entry: its record and its link. *)
Definition hashed_texts (e : DecisionEntry) : list string :=
  [recordDigestPreimage e; computeRecordDigest e +:+ "|" +:+ de_PrevHash e].

(** SHA-256 fails on the texts of these two chains: one hashed for an entry of the first
    and a different one hashed for an entry of the second have one digest, or one of
    them has the genesis sentinel as its digest. *)
Definition sha256_broken_on (l l' : list DecisionEntry) : Prop :=
  (exists e e' x y, e ∈ l /\ e' ∈ l' /\ x ∈ hashed_texts e /\ y ∈ hashed_texts e' /\ x <> y /\ sha256_hex x = sha256_hex y) \/
  (exists e x, e ∈ l ++ l' /\ x ∈ hashed_texts e /\ sha256_hex x = genesisPrevHash).

Lemma sha256_broken_mono l1 l2 k1 k2 : l1 ⊆ k1 -> l2 ⊆ k2 -> sha256_broken_on l1 l2 -> sha256_broken_on k1 k2.
Proof.
  intros H1 H2 [(e & e' & x & y & He & He' & Hr)|(e & x & He & Hr)]; [left; exists e, e', x, y|right; exists e, x]; [set_solver|].
  split; [|done]. apply elem_of_app in He as [?|?]; apply elem_of_app; [left; by apply H1|right; by apply H2].
Qed.

Lemma sha256_eq_on e e' x y :
  x ∈ hashed_texts e -> y ∈ hashed_texts e' -> sha256_hex x = sha256_hex y -> x = y \/ sha256_broken_on [e] [e'].
Proof.
  intros Hx Hy H. destruct (decide (x = y)) as [->|Hne]; [by left|]. right. left. exists e, e', x, y.
  split_and!; try done; left.
Qed.

Lemma chainHash_binds e e' :
  chainHashOf e = chainHashOf e' ->
  (recordDigestPreimage e = recordDigestPreimage e' /\ de_PrevHash e = de_PrevHash e') \/ sha256_broken_on [e] [e'].
Proof.
  unfold chainHashOf, computeChainHash. intros H. apply (sha256_eq_on e e') in H as [H|?]; [|by right|right; left|right; left].
  apply (f_equal bytes) in H. rewrite !bytes_app in H.
  assert (Hd : forall x, length (bytes (computeRecordDigest x)) = 64%nat).
  { intros x. rewrite length_bytes. apply sha256_hex_len. }
  apply app_same_length in H as [H1 H2]; [|by rewrite !Hd]. apply bytes_inj in H1.
  change (bytes "|") with [124] in H2. injection H2 as H2%bytes_inj.
  apply (sha256_eq_on e e') in H1 as [H1|?]; [by left|by right|left|left].
Qed.

Lemma chain_binding l l' :
  links genesisPrevHash l -> links genesisPrevHash l' ->
  head_hash genesisPrevHash l = head_hash genesisPrevHash l' ->
  ((recordDigestPreimage <$> l) = (recordDigestPreimage <$> l') /\
   (de_PrevHash <$> l) = (de_PrevHash <$> l')) \/ sha256_broken_on l l'.
Proof.
  revert l'. induction l as [|e l IH] using rev_ind; intros l'; destruct l' as [|e' l' _] using rev_ind.
  - by left.
  - intros _ _ HH. right. right. rewrite !head_hash_last, last_snoc in HH. simpl in HH.
    exists e', (computeRecordDigest e' +:+ "|" +:+ de_PrevHash e'). split; [set_solver|]. split; [right; left|done].
  - intros _ _ HH. right. right. rewrite !head_hash_last, last_snoc in HH. simpl in HH.
    exists e, (computeRecordDigest e +:+ "|" +:+ de_PrevHash e). split; [set_solver|]. split; [right; left|done].
  - rewrite !links_app, !head_hash_last, !last_snoc. simpl.
    intros [Hl [Hp _]] [Hl' [Hp' _]] HH.
    apply chainHash_binds in HH as [[Hd Hpp]|Hb]; [|right; eapply sha256_broken_mono; [| |exact Hb]; set_solver].
    rewrite <- head_hash_last in Hp, Hp'.
    destruct (IH l') as [[H1 H2]|Hb]; [done..|congruence| |right; eapply sha256_broken_mono; [| |exact Hb]; set_solver].
    left. rewrite !fmap_app. simpl. by rewrite H1, H2, Hd, Hpp.
Qed.

Lemma cons_split {A} (x y : A) l l' : x :: l = y :: l' -> x = y /\ l = l'.
Proof. by intros [= -> ->]. Qed.

Lemma preimages_contents l l' :
  Forall entry_wf l -> Forall entry_wf l' ->
  (recordDigestPreimage <$> l) = (recordDigestPreimage <$> l') -> (content <$> l) = (content <$> l').
Proof.
  intros Hl. revert l'. induction Hl as [|e l He Hl IH]; intros [|e' l'] Hl' HE; try done.
  apply Forall_cons in Hl' as [He' Hl']. rewrite !fmap_cons in *.
  apply cons_split in HE as [H1 H2].
  by rewrite (preimage_determines_record e e'), (IH l').
Qed.

(** C19: A chain is fixed by its last hash. Two chains of well-formed records (integers
    of 64 bits, no unit separator inside an item of the two lists of a record) that both
    verify and end in the same chain hash hold the same records, in the same order, in
    every field that the digest covers (all but the metadata and the sub-microsecond part
    of the time); or else the two chains themselves exhibit a failure of SHA-256: among
    the texts hashed for their entries are two different ones with one digest, or one
    with the genesis sentinel as its digest. *)
Theorem chain_tamper_evident `{Ed25519} v v' org org' c c' l l' now now' :
  cv_Valid (verifyEntries v org c l now) = true ->
  cv_Valid (verifyEntries v' org' c' l' now') = true ->
  Forall entry_wf l -> Forall entry_wf l' ->
  head_hash genesisPrevHash l = head_hash genesisPrevHash l' ->
  ((content <$> l) = (content <$> l') /\ (de_PrevHash <$> l) = (de_PrevHash <$> l')) \/
  sha256_broken_on l l'.
Proof.
  intros Hv Hv' Hw Hw' HH.
  apply (proj1 (verifyEntries_valid v org c l now)) in Hv as [Hl _].
  apply (proj1 (verifyEntries_valid v' org' c' l' now')) in Hv' as [Hl' _].
  destruct (chain_binding l l' Hl Hl' HH) as [[H1 H2]|?]; [left|by right].
  split; [by apply preimages_contents|done].
Qed.

Lemma chain_tamper_evident_witness :
  let l := memoryChainForOrg toy_store "org-1" "c0de" in
  length l = 2%nat /\
  (((content <$> l) = (content <$> (forget_meta <$> l)) /\
    (de_PrevHash <$> l) = (de_PrevHash <$> (forget_meta <$> l))) \/ sha256_broken_on l (forget_meta <$> l)).
Proof.
  intros l. split; [vm_compute; reflexivity|].
  refine (chain_tamper_evident toy_tracker toy_tracker "org-1" "org-1" "c0de" "c0de" l
    (forget_meta <$> l) 0 0 _ _ _ _ _).
  - vm_compute. reflexivity.
  - vm_compute. reflexivity.
  - apply (bool_decide_unpack _). vm_compute. exact I.
  - apply (bool_decide_unpack _). vm_compute. exact I.
  - vm_compute. reflexivity.
Defined.

(** The limits the file documents: a chain cut short still verifies, and an
    unsigned chain verifies without proving authorship. *)
Lemma truncated_chain_valid `{Ed25519} v org c l l' now :
  cv_Valid (verifyEntries v org c (l ++ l') now) = true -> cv_Valid (verifyEntries v org c l now) = true.
Proof.
  rewrite (proj1 (verifyEntries_valid v org c (l ++ l') now)).
  rewrite (proj1 (verifyEntries_valid v org c l now)).
  rewrite links_app, Forall_app. tauto.
Qed.

(** ** Authorship *)

(** No signature in the chain was made by anyone but the log's signers: every
    one that verifies is over a logged chain hash. *)
Definition not_forged `{Ed25519} (v : Tracker) (log : list DecisionEntry) (e : DecisionEntry) : Prop :=
  verifySignature v e (chainHashOf e) = None -> chainHashOf e ∈ chainHashOf <$> log.

(** With unforgeable signatures, a chain whose authorship is proven consists of
    records the key holders sealed, field by field, at the place they sealed
    them. *)
Lemma authorship_is_genuine `{Ed25519} v org c l now log :
  cv_AuthorshipProven (verifyEntries v org c l now) = true ->
  Forall (not_forged v log) l -> Forall entry_wf l -> Forall entry_wf log ->
  Forall (fun e => exists e', e' ∈ log /\ content e = content e' /\ de_PrevHash e = de_PrevHash e') l
  \/ sha256_broken_on l log.
Proof.
  intros (Hv & _ & Hs)%(proj1 (proj1 (proj2 (verifyEntries_valid v org c l now)))) Hf Hw Hlog.
  apply (proj1 (verifyEntries_valid v org c l now)) in Hv as [_ Hok]. clear now.
  induction Hs as [|e l He Hs IH]; [by left; constructor|].
  apply Forall_cons in Hf as [Hfe Hf]. apply Forall_cons in Hw as [Hwe Hw].
  apply Forall_cons in Hok as [Hoe Hok].
  destruct (IH Hok Hf Hw) as [HF|Hb]; [|right; eapply sha256_broken_mono; [| |exact Hb]; set_solver].
  specialize (Hoe He).
  apply Hfe, list_elem_of_fmap in Hoe as (e' & HE & Hin).
  apply chainHash_binds in HE as [[Hp Hprev]|Hb]; [|right; eapply sha256_broken_mono; [| |exact Hb]; set_solver].
  left. constructor; [|done]. exists e'. split_and!; try done.
  apply preimage_determines_record; [done| |done]. rewrite Forall_forall in Hlog. by apply Hlog.
Qed.

(** * No accepted decision is lost *)

Section Queue.
Context `{HE : Ed25519} `{CS : !ChainStore St}.
Variable t : Tracker.
Hypothesis workers_positive : queued t = true -> 0 < t_workers t.

Definition in_flight (a : Async St) : list DecisionEntry :=
  a_sending a ++ a_queue a ++ a_hands a ++ a_sync a.

(** Every accepted entry is in flight, written or failed; the counters count;
    the buffer holds its bound; a producer is inside the read lock only while
    the channel is open. *)
Record async_inv (a : Async St) : Prop := {
  inv_log : a_log a ≡ₚ in_flight a ++ a_done a ++ a_failed a;
  inv_recorded : a_recorded a = Z.of_nat (length (a_log a));
  inv_errors : a_errors a = a_rejected a + Z.of_nat (length (a_failed a));
  inv_bound : queued t = true -> Z.of_nat (length (a_queue a)) <= t_queueSize t;
  inv_workers : queued t = true -> Z.of_nat (length (a_hands a)) <= t_workers t;
  inv_lock : a_closed a = true -> a_sending a = [];
  inv_direct : queued t = false -> a_sending a = [] /\ a_queue a = [] /\ a_hands a = [];
  inv_panic : a_panicked a = false;
}.

Lemma async_init_inv s : async_inv (async_init s).
Proof.
  split; simpl; try done; try lia.
  - unfold queued. intros Hq. bool_simpl. lia.
  - intros Hq. specialize (workers_positive Hq). lia.
Qed.

Lemma perm_done (e : DecisionEntry) l d f : (e :: l) ++ d ++ f ≡ₚ l ++ (d ++ [e]) ++ f.
Proof. rewrite <- app_assoc. simpl. by rewrite <- Permutation_middle, <- Permutation_middle. Qed.
Lemma perm_failed (e : DecisionEntry) l d f : (e :: l) ++ d ++ f ≡ₚ l ++ d ++ f ++ [e].
Proof. rewrite !app_assoc. rewrite <- Permutation_cons_append. by rewrite <- !app_assoc. Qed.

Lemma write_entry_inv e a a0 :
  async_inv a0 -> in_flight a0 ≡ₚ e :: in_flight a ->
  a_log a = a_log a0 -> a_done a = a_done a0 -> a_failed a = a_failed a0 ->
  a_recorded a = a_recorded a0 -> a_errors a = a_errors a0 -> a_rejected a = a_rejected a0 ->
  a_closed a = a_closed a0 -> a_sending a = a_sending a0 -> a_queue a = a_queue a0 ->
  a_panicked a = a_panicked a0 ->
  (length (a_hands a) <= length (a_hands a0))%nat -> (a_hands a0 = [] -> a_hands a = []) ->
  async_inv (write_entry t e a).
Proof.
  intros [H1 H2 H3 H4 H5 H6 H7 H8] HF El Ed Ef Er Ee Ej Ec Es Eq Ep Hh Hh0.
  assert (HL : a_log a ≡ₚ (e :: in_flight a) ++ a_done a ++ a_failed a)
    by (rewrite El, Ed, Ef; etransitivity; [exact H1|]; by apply Permutation_app_tail).
  unfold write_entry. destruct (cs_record t (a_store a) e); split; simpl.
  all: try (etransitivity; [exact HL|]; first [apply perm_done|apply perm_failed]).
  all: rewrite ?El, ?Ed, ?Ef, ?Er, ?Ee, ?Ej, ?Ec, ?Es, ?Eq, ?Ep; try done.
  all: try (intros Hq; specialize (H5 Hq); lia); try (rewrite length_app; simpl; lia).
  all: intros Hq; destruct (H7 Hq) as (? & ? & ?); auto.
Qed.

Lemma enter_inv fresh now e a : async_inv a -> async_inv (record_enter t fresh now e a).
Proof.
  intros [H1 H2 H3 H4 H5 H6 H7 H8]. unfold record_enter.
  destruct (str_eqb (de_OrgID e) ""); [split; simpl; try done; lia|].
  set (e' := prepare t fresh now e).
  split; simpl; try done.
  - etransitivity; [symmetry; apply Permutation_cons_append|]. unfold in_flight. simpl.
    transitivity (e' :: in_flight a ++ a_done a ++ a_failed a); [by constructor|].
    unfold in_flight. destruct (negb (queued t) || a_closed a).
    + rewrite <- !app_assoc. simpl. by rewrite <- !Permutation_middle.
    + rewrite <- !app_assoc. simpl. by rewrite <- Permutation_middle.
  - rewrite length_app. simpl. lia.
  - intros Hc. rewrite Hc, orb_true_r. by apply H6.
  - intros Hq. rewrite Hq. simpl. by apply H7.
Qed.

Lemma send_inv e l1 l2 a :
  async_inv a -> a_sending a = l1 ++ e :: l2 -> async_inv (record_send t e (l1 ++ l2) a).
Proof.
  intros [H1 H2 H3 H4 H5 H6 H7 H8] Hs. unfold record_send.
  assert (Hc : a_closed a = false).
  { destruct (a_closed a) eqn:E; [|done]. rewrite H6 in Hs by done. by destruct l1. }
  assert (Hq : queued t = true).
  { destruct (queued t) eqn:E; [done|]. destruct (H7 eq_refl) as [HN _]. rewrite HN in Hs.
    by destruct l1. }
  rewrite Hc. simpl. destruct (Z.ltb_spec (Z.of_nat (length (a_queue a))) (t_queueSize t)) as [Hl|Hl];
    simpl; split; simpl; try done; try congruence; try (by rewrite H8).
  - etransitivity; [exact H1|]. unfold in_flight. simpl. rewrite Hs, <- !app_assoc. simpl.
    by rewrite <- !Permutation_middle.
  - rewrite length_app. simpl. lia.
  - etransitivity; [exact H1|]. unfold in_flight. simpl. rewrite Hs, <- !app_assoc. simpl.
    by rewrite <- !Permutation_middle.
Qed.

Lemma take_inv e q a :
  async_inv a -> a_queue a = e :: q -> Z.of_nat (length (a_hands a)) < t_workers t ->
  async_inv (worker_take e q a).
Proof.
  intros [H1 H2 H3 H4 H5 H6 H7 H8] Hq Hw. unfold worker_take. split; simpl; try done.
  - etransitivity; [exact H1|]. unfold in_flight. simpl. rewrite Hq, <- !app_assoc. simpl.
    by rewrite <- !Permutation_middle.
  - intros Hx. specialize (H4 Hx). rewrite Hq in H4. simpl in H4. lia.
  - intros _. rewrite length_app. simpl. lia.
  - intros Hx. destruct (H7 Hx) as (_ & HN & _). congruence.
Qed.

Lemma work_inv a a' : async_inv a -> work_step t a a' -> async_inv a'.
Proof.
  intros Hi Hs. destruct Hs as [e l1 l2 a Hs|e q a Hq Hw|e l1 l2 a Hh|e l1 l2 a Hh].
  - by apply send_inv.
  - by apply take_inv.
  - apply (write_entry_inv e _ a); try done; simpl.
    + unfold in_flight. simpl. rewrite Hh, <- ?app_assoc. simpl. by rewrite <- !Permutation_middle.
    + rewrite Hh, !length_app. simpl. lia.
    + intros HN. rewrite HN in Hh. by destruct l1.
  - apply (write_entry_inv e _ a); try done; simpl.
    unfold in_flight. simpl. rewrite Hh, <- ?app_assoc. simpl. by rewrite <- !Permutation_middle.
Qed.

Lemma async_step_inv a a' : async_inv a -> async_step t a a' -> async_inv a'.
Proof.
  intros Hi Hs. destruct Hs as [a a' Hw|fresh now e a|a Hq Hn Hc]; [by eapply work_inv|by apply enter_inv|].
  destruct Hi as [H1 H2 H3 H4 H5 H6 H7 H8]. unfold shutdown_close. split; simpl; try done.
  by rewrite H8, Hc.
Qed.

(** The work left: every step on accepted entries makes it smaller. *)
Definition work_left (a : Async St) : nat :=
  3 * length (a_sending a) + 2 * length (a_queue a) + length (a_hands a) + length (a_sync a).

Lemma work_step_decreases a a' :
  async_inv a -> work_step t a a' -> (work_left a' < work_left a)%nat.
Proof.
  intros Hi Hs. unfold work_left. destruct Hs as [e l1 l2 a Hs|e q a Hq Hw|e l1 l2 a Hh|e l1 l2 a Hh].
  - unfold record_send. simpl. rewrite Hs, !length_app. simpl.
    destruct (a_closed a), (_ <? _); simpl; rewrite ?length_app; simpl; lia.
  - simpl. rewrite Hq, length_app. simpl. lia.
  - unfold write_entry. destruct (cs_record _ _ _); simpl; rewrite Hh, !length_app; simpl; lia.
  - unfold write_entry. destruct (cs_record _ _ _); simpl; rewrite Hh, !length_app; simpl; lia.
Qed.

Lemma work_step_progress a :
  async_inv a -> in_flight a <> [] -> exists a', work_step t a a'.
Proof.
  intros Hi Hf. destruct (a_sending a) as [|e l] eqn:Es.
  2:{ eexists. by apply (step_send t e [] l). }
  destruct (a_hands a) as [|e l] eqn:Eh.
  2:{ eexists. by apply (step_write_hand t e [] l). }
  destruct (a_sync a) as [|e l] eqn:Ey.
  2:{ eexists. by apply (step_write_sync t e [] l). }
  destruct (a_queue a) as [|e q] eqn:Eq.
  { unfold in_flight in Hf. by rewrite Es, Eh, Ey, Eq in Hf. }
  eexists. apply (step_take t e q); [done|]. rewrite Eh. simpl. apply workers_positive.
  destruct (queued t) eqn:Ed; [done|]. destruct (inv_direct _ Hi Ed) as (_ & HN & _). congruence.
Qed.

(** C29: The queue of the decision chain loses no accepted decision. In every
    run of the tracker (calls, workers, one Shutdown, in any interleaving) no
    send reaches a closed channel and the buffer keeps its bound; every accepted
    entry is in flight, written, or counted in recordErrors; whatever order the
    remaining work is done in, it ends within [work_left] steps, it can always
    go on while an entry is in flight, and at its end every accepted entry was
    written or counted. *)
Theorem queue_loses_nothing s a :
  rtc (async_step t) (async_init s) a ->
  a_panicked a = false /\
  (queued t = true -> Z.of_nat (length (a_queue a)) <= t_queueSize t) /\
  (a_log a ≡ₚ in_flight a ++ a_done a ++ a_failed a) /\
  a_recorded a = Z.of_nat (length (a_log a)) /\
  a_errors a = a_rejected a + Z.of_nat (length (a_failed a)) /\
  (in_flight a <> [] -> exists a', work_step t a a') /\
  (forall n a', nsteps (work_step t) n a a' -> (n + work_left a' <= work_left a)%nat) /\
  (forall a', rtc (work_step t) a a' -> in_flight a' = [] ->
     (a_log a ≡ₚ a_done a' ++ a_failed a')).
Proof.
  intros HR.
  assert (Hi : async_inv a).
  { apply (rtc_ind_r (fun a => async_inv a) (async_init s)) in HR; [done|apply async_init_inv|].
    intros y z _ Hyz Hy. by eapply async_step_inv. }
  split_and!; try apply Hi.
  - by apply work_step_progress.
  - intros n a' Hn. clear HR. induction Hn as [a|n a b c Hab Hbc IH]; [lia|].
    pose proof (work_step_decreases _ _ Hi Hab). specialize (IH (work_inv _ _ Hi Hab)). lia.
  - intros a' Ha' Hf. clear HR.
    assert (Hl : async_inv a' /\ a_log a' = a_log a).
    { clear Hf. induction Ha' as [a|a b c Hab Hbc IH]; [done|].
      destruct (IH (work_inv _ _ Hi Hab)) as [Hc Hlog]. split; [done|]. rewrite Hlog.
      destruct Hab; simpl; try done; unfold write_entry; by destruct (cs_record _ _ _). }
    destruct Hl as [Hi' <-]. rewrite (inv_log _ Hi'), Hf. done.
Qed.
End Queue.

Definition queue_tracker : Tracker :=
  mkTracker "axonflow-agent/1.0.0" false (Some toy_key) "k1" {["k1" := replicate 32 7]} 1 1.

Lemma queue_loses_nothing_witness :
  let a := record_send queue_tracker (prepare queue_tracker "id" 5000 (sample [] [])) []
             (record_enter queue_tracker "id" 5000 (sample [] []) (async_init (∅ : MemoryStore))) in
  length (a_queue a) = 1%nat /\ a_panicked a = false /\ exists a', work_step queue_tracker a a'.
Proof.
  intros a. split; [vm_compute; reflexivity|].
  destruct (queue_loses_nothing (CS := memory_store) queue_tracker
    (fun _ => eq_refl) (∅ : MemoryStore) a) as (Hp & _ & _ & _ & _ & Hw & _).
  - eapply rtc_l; [apply (step_enter queue_tracker "id" 5000 (sample [] []))|].
    apply rtc_once, step_work. by apply (step_send queue_tracker _ [] []).
  - split; [exact Hp|]. apply Hw. vm_compute. discriminate.
Defined.

(** * Summaries *)

Lemma compareRiskLevels_sign a b :
  compareRiskLevels a b = Z.sgn (risk_order a - risk_order b).
Proof. unfold compareRiskLevels. repeat case_match; lia. Qed.

(** The summary's risk level is the highest of the chain. *)
Lemma summary_highest l s b :
  let s' := (foldl summary_step (s, b) l).1 in
  risk_order (sm_HighestRiskLevel s) <= risk_order (sm_HighestRiskLevel s') /\
  Forall (fun e => risk_order (de_RiskLevel e) <= risk_order (sm_HighestRiskLevel s')) l.
Proof.
  revert s b. induction l as [|e l IH]; intros s b; [split; [reflexivity|constructor]|].
  cbn [foldl]. destruct (summary_step (s, b) e) as [s1 b1] eqn:Es. specialize (IH s1 b1).
  cbv zeta in *. destruct IH as [IH1 IH2].
  assert (Hs1 : sm_HighestRiskLevel s1 =
    if 0 <? compareRiskLevels (de_RiskLevel e) (sm_HighestRiskLevel s)
    then de_RiskLevel e else sm_HighestRiskLevel s) by (unfold summary_step in Es; by injection Es as <- _).
  rewrite Hs1, compareRiskLevels_sign in IH1.
  destruct (Z.ltb_spec 0 (Z.sgn (risk_order (de_RiskLevel e) - risk_order (sm_HighestRiskLevel s))));
    (split; [|constructor; [|exact IH2]]); lia.
Qed.

(** * A corner: uuid columns

    The record is sealed over the text the caller passed, and verified over the
    text a uuid column returns.  A chain id in capitals is accepted and stored,
    and its record does not verify. *)
Definition lower_uuid (s : string) : option string := Some (ToLower (U := ascii_unicode) s).

Definition capital_entry : DecisionEntry :=
  mkDE "0e1f" "C0DE" "beef" "" 1 "org-1" "acme" "" "" DecisionTypePolicyEnforcement
    DecisionOutcomeBlocked "axonflow-agent/1.0.0" "" "" [] "" RiskLevelHigh false 12
    "" "" "" [] 0 "" "" "" [] 1750000000000000000.

Lemma capital_uuid_does_not_verify :
  match recordToDB lower_uuid (fun _ => true) queue_tracker [] capital_entry with
  | Ok db =>
      let r := verifyEntries queue_tracker "org-1" "c0de"
                 (fetchChainEntriesOrgScoped lower_uuid db "org-1" "c0de") 0 in
      cv_TotalRecords r = 1 /\ cv_Valid r = false /\
      cv_FirstBroken r = Some (1, "0e1f", SignatureBreak BadSignature)
  | Err _ => False
  end.
Proof. vm_compute. repeat split. Qed.
