(* ===== verification/ConnectorSdk.v ===== *)
(** The connector SDK, src/platform/connectors/sdk: retry with backoff, circuit
    breaker (retry.go), and the rate limiters (rate_limit.go).

    Times and durations are nanoseconds.  The clock is an argument of every
    operation; random jitter and the error classification of the caller are
    parameters.  The functions a retry or a breaker runs are computations on a
    world of any type, so they may behave differently at every call. *)

From S2P Require Import Prelude GoStrings GoFloat.
From Stdlib Require Import SpecFloat.

Local Open Scope Z_scope.

(** * float64 operations of the limiters *)


Definition is_nan (x : float64) : bool := match x with S754_nan => true | _ => false end.

(** The built-in [min] on floats: NaN is contagious. *)
Definition f64_min (x y : float64) : float64 :=
  if is_nan x || is_nan y then S754_nan else if f64_ltb y x then y else x.

(** [Duration.Seconds] *)
Definition Seconds (d : Z) : float64 :=
  f64_add (f64_of_Z (Z.quot d 1000000000)) (f64_div (f64_of_Z (Z.rem d 1000000000)) (f64_of_Z 1000000000)).

Module CircuitBreaker.

(** * Circuit breaker *)

Inductive circuitState := circuitClosed | circuitOpen | circuitHalfOpen.

#[export] Instance circuitState_eq_dec : EqDecision circuitState.
Proof. solve_decision. Defined.

Record CircuitBreaker := mkCB {
  cb_maxFailures : Z;
  cb_resetTimeout : Z;
  cb_halfOpenMax : Z;
  cb_failures : Z;
  cb_state : circuitState;
  cb_lastFailureTime : Z;
  cb_halfOpenSuccess : Z }.

Definition NewCircuitBreaker (maxFailures resetTimeout : Z) : CircuitBreaker :=
  mkCB maxFailures resetTimeout 3 0 circuitClosed 0 0.

(** The first critical section of Execute: [None] when the circuit is open and
    the call is refused. *)
Definition admit_call (now : Z) (cb : CircuitBreaker) : option CircuitBreaker :=
  match cb_state cb with
  | circuitOpen =>
      if cb_resetTimeout cb <? now - cb_lastFailureTime cb
      then Some (mkCB (cb_maxFailures cb) (cb_resetTimeout cb) (cb_halfOpenMax cb) (cb_failures cb)
                   circuitHalfOpen (cb_lastFailureTime cb) 0)
      else None
  | _ => Some cb
  end.

Definition recordFailure (now : Z) (cb : CircuitBreaker) : CircuitBreaker :=
  let failures := cb_failures cb + 1 in
  mkCB (cb_maxFailures cb) (cb_resetTimeout cb) (cb_halfOpenMax cb) failures
    (if bool_decide (cb_state cb = circuitHalfOpen) || (cb_maxFailures cb <=? failures)
     then circuitOpen else cb_state cb) now (cb_halfOpenSuccess cb).

Definition recordSuccess (cb : CircuitBreaker) : CircuitBreaker :=
  match cb_state cb with
  | circuitHalfOpen =>
      let n := cb_halfOpenSuccess cb + 1 in
      if cb_halfOpenMax cb <=? n
      then mkCB (cb_maxFailures cb) (cb_resetTimeout cb) (cb_halfOpenMax cb) 0 circuitClosed
             (cb_lastFailureTime cb) n
      else mkCB (cb_maxFailures cb) (cb_resetTimeout cb) (cb_halfOpenMax cb) (cb_failures cb)
             circuitHalfOpen (cb_lastFailureTime cb) n
  | s => mkCB (cb_maxFailures cb) (cb_resetTimeout cb) (cb_halfOpenMax cb) 0 s
           (cb_lastFailureTime cb) (cb_halfOpenSuccess cb)
  end.

(** The second critical section. *)
Definition settle_call (now : Z) (failed : bool) (cb : CircuitBreaker) : CircuitBreaker :=
  if failed then recordFailure now cb else recordSuccess cb.

Inductive exec_result (E : Type) := Refused | Failed (e : E) | Succeeded.
Arguments Refused {E}. Arguments Failed {E} e. Arguments Succeeded {E}.

(** Execute without another call in between; [after] is the clock when the
    function returns. *)
Definition Execute {W E} (fn : W -> W * option E) (now after : Z) (w : W) (cb : CircuitBreaker)
  : exec_result E * W * CircuitBreaker :=
  match admit_call now cb with
  | None => (Refused, w, cb)
  | Some cb' =>
      let '(w', err) := fn w in
      match err with
      | Some e => (Failed e, w', settle_call after true cb')
      | None => (Succeeded, w', settle_call after false cb')
      end
  end.

Definition State (cb : CircuitBreaker) : string :=
  match cb_state cb with
  | circuitClosed => "closed" | circuitOpen => "open" | circuitHalfOpen => "half-open"
  end.

Definition Reset (cb : CircuitBreaker) : CircuitBreaker :=
  mkCB (cb_maxFailures cb) (cb_resetTimeout cb) (cb_halfOpenMax cb) 0 circuitClosed
    (cb_lastFailureTime cb) 0.

(** The critical sections of concurrent calls, in any order: an admission, the
    end of some call admitted earlier, a reset.  [running] counts the calls in
    progress. *)
Inductive cb_step : CircuitBreaker * nat -> CircuitBreaker * nat -> Prop :=
| cb_admit now cb cb' n : admit_call now cb = Some cb' -> cb_step (cb, n) (cb', S n)
| cb_settle now failed cb n : cb_step (cb, S n) (settle_call now failed cb, n)
| cb_reset cb n : cb_step (cb, n) (Reset cb, n).

(** ** Theorems *)

(** A closed circuit has seen fewer failures in a row than the threshold, a
    half-open one fewer successes than it needs; the configuration is fixed. *)
Definition cb_inv (maxFailures timeout : Z) (cb : CircuitBreaker) : Prop :=
  cb_maxFailures cb = maxFailures /\ cb_resetTimeout cb = timeout /\ cb_halfOpenMax cb = 3 /\
  0 <= cb_failures cb /\ (cb_state cb = circuitClosed -> cb_failures cb < Z.max 1 maxFailures) /\
  (cb_state cb = circuitHalfOpen -> 0 <= cb_halfOpenSuccess cb < 3).

Lemma cb_step_inv m to s s' :
  cb_inv m to s.1 -> cb_step s s' -> cb_inv m to s'.1.
Proof.
  intros (Hm & Ht & Hh & Hf & Hc & Ho) Hs. destruct Hs as [now cb cb' n Ha|now failed cb n|cb n]; simpl in *.
  - unfold admit_call in Ha. destruct (cb_state cb) eqn:E; simplify_eq.
    + unfold cb_inv. rewrite E. by repeat split.
    + case_match; simplify_eq. unfold cb_inv. simpl. rewrite Hh. by repeat split.
    + unfold cb_inv. rewrite E. by repeat split; try apply Ho.
  - unfold settle_call, recordFailure, recordSuccess, cb_inv in *. destruct failed; simpl.
    + destruct (bool_decide (cb_state cb = circuitHalfOpen) || _) eqn:E; simpl;
        split_and!; try done; try lia; intros HC; bool_simpl; first [lia|congruence].
    + destruct (cb_state cb) eqn:E; simpl; rewrite ?Hh; try (repeat split; try done; lia).
      destruct (3 <=? cb_halfOpenSuccess cb + 1) eqn:E3; simpl; repeat split; try done; try lia.
      specialize (Ho eq_refl). lia.
  - unfold cb_inv. simpl. repeat split; try done; lia.
Qed.

(** The circuit breaker under any interleaving of the critical sections of
    concurrent calls: a closed circuit has counted fewer consecutive failures
    than the threshold, so the threshold opens it; while it is open and the
    reset timeout has not passed no call is admitted; once it has passed the
    next call is; a failure while half-open opens it again; three successes
    while half-open close it. *)
Theorem circuit_breaker_correct m to s n now after :
  rtc cb_step (NewCircuitBreaker m to, 0%nat) (s, n) ->
  (cb_state s = circuitClosed -> cb_failures s < Z.max 1 m) /\
  (admit_call now s = None <-> cb_state s = circuitOpen /\ now - cb_lastFailureTime s <= to) /\
  (cb_state s = circuitOpen -> to < now - cb_lastFailureTime s ->
     exists s1, admit_call now s = Some s1 /\ cb_state s1 = circuitHalfOpen /\
       cb_state (settle_call after true s1) = circuitOpen /\
       cb_state (settle_call after false s1) = circuitHalfOpen /\
       cb_state (settle_call after false (settle_call after false (settle_call after false s1)))
         = circuitClosed) /\
  (cb_state s = circuitClosed -> m <= cb_failures s + 1 ->
     cb_state (settle_call after true s) = circuitOpen).
Proof.
  intros HR.
  assert (Hi : cb_inv m to s).
  { assert (Hx : cb_inv m to (s, n).1).
    { eapply (rtc_ind_r (fun x => cb_inv m to x.1) (NewCircuitBreaker m to, 0%nat)); [| |exact HR].
      - unfold cb_inv. simpl. repeat split; try done; lia.
      - intros y z _ Hyz Hy. by eapply cb_step_inv. }
    exact Hx. }
  destruct Hi as (Hm & Ht & Hh & Hf & Hc & Ho). split_and!; try done.
  - unfold admit_call. destruct (cb_state s) eqn:E; try (split; [done|by intros [? _]]).
    rewrite Ht. destruct (Z.ltb_spec to (now - cb_lastFailureTime s)); split; try done; try lia.
  - intros E Hlt. unfold admit_call. rewrite E, Ht. replace (to <? _) with true by lia.
    eexists. split; [done|]. unfold settle_call, recordFailure, recordSuccess. simpl. by rewrite Hh.
  - intros E Hm'. unfold settle_call, recordFailure. simpl. rewrite Hm.
    by replace (m <=? cb_failures s + 1) with true by lia; rewrite orb_true_r.
Qed.

Lemma circuit_breaker_correct_witness :
  let s := settle_call 5 true (NewCircuitBreaker 1 100) in
  cb_state s = circuitOpen /\ admit_call 105 s = None.
Proof.
  intros s.
  assert (HR : rtc cb_step (NewCircuitBreaker 1 100, 0%nat) (s, 0%nat)).
  { eapply rtc_l; [apply (cb_admit 0); reflexivity|]. apply rtc_once, cb_settle. }
  split; [reflexivity|].
  apply (circuit_breaker_correct 1 100 s 0 105 105 HR). vm_compute. split; [reflexivity|discriminate].
Defined.
End CircuitBreaker.

Module SlidingWindow.

(** * Sliding window *)

Record SlidingWindowRateLimiter := mkSW {
  sw_windowSize : Z;
  sw_maxRequests : Z;
  sw_requests : list Z }.

Definition NewSlidingWindowRateLimiter (windowSize maxRequests : Z) : SlidingWindowRateLimiter :=
  mkSW windowSize maxRequests [].

Fixpoint drop_before (cutoff : Z) (l : list Z) : list Z :=
  match l with
  | t :: l' => if t <? cutoff then drop_before cutoff l' else l
  | [] => []
  end.

Definition cleanup (now : Z) (s : SlidingWindowRateLimiter) : SlidingWindowRateLimiter :=
  mkSW (sw_windowSize s) (sw_maxRequests s) (drop_before (now - sw_windowSize s) (sw_requests s)).

(** The clock is read by cleanup and again for the new entry. *)
Definition TryAcquire (now1 now2 : Z) (s : SlidingWindowRateLimiter) : bool * SlidingWindowRateLimiter :=
  let s := cleanup now1 s in
  if Z.of_nat (length (sw_requests s)) <? sw_maxRequests s
  then (true, mkSW (sw_windowSize s) (sw_maxRequests s) (sw_requests s ++ [now2]))
  else (false, s).

Definition Available (now : Z) (s : SlidingWindowRateLimiter) : Z * SlidingWindowRateLimiter :=
  let s := cleanup now s in (sw_maxRequests s - Z.of_nat (length (sw_requests s)), s).

(** One turn of Wait: a slot, a pause, a turn without pause, or an index out of
    range on the empty list. *)
Inductive wait_result := WaitGranted | WaitSleep (d : Z) | WaitAgain | WaitPanic.

Definition Wait_turn (now1 now2 : Z) (s : SlidingWindowRateLimiter)
  : wait_result * SlidingWindowRateLimiter :=
  let '(ok, s') := TryAcquire now1 now2 s in
  if ok then (WaitGranted, s')
  else match sw_requests s' with
       | [] => (WaitPanic, s')
       | oldest :: _ =>
           let waitTime := sw_windowSize s' - (now2 - oldest) in
           (if waitTime <=? 0 then WaitAgain else WaitSleep waitTime, s')
       end.

(** ** At most maxRequests per window *)

(** The grants of a sequence of calls, each with its two clock readings. *)
Fixpoint grants (s : SlidingWindowRateLimiter) (ops : list (Z * Z)) : list Z :=
  match ops with
  | [] => []
  | (t1, t2) :: ops' =>
      let '(ok, s') := TryAcquire t1 t2 s in
      (if ok then [t2] else []) ++ grants s' ops'
  end.

(** A clock that does not go back. *)
Fixpoint monotone (from : Z) (ops : list (Z * Z)) : Prop :=
  match ops with
  | [] => True
  | (t1, t2) :: ops' => from <= t1 <= t2 /\ monotone t2 ops'
  end.

Definition in_window (lo hi t : Z) : bool := (lo <=? t) && (t <=? hi).
Definition count_in (lo hi : Z) (l : list Z) : Z := Z.of_nat (length (List.filter (in_window lo hi) l)).

Lemma count_in_app lo hi l l' : count_in lo hi (l ++ l') = count_in lo hi l + count_in lo hi l'.
Proof. unfold count_in. rewrite List.filter_app, length_app. lia. Qed.

Lemma count_in_le lo hi l : count_in lo hi l <= Z.of_nat (length l).
Proof. unfold count_in. pose proof (List.filter_length_le (in_window lo hi) l). lia. Qed.

Lemma count_in_none lo hi l : Forall (fun t => t < lo \/ hi < t) l -> count_in lo hi l = 0.
Proof.
  intros H. unfold count_in. replace (List.filter _ l) with (@nil Z); [done|]. symmetry.
  apply filter_negb_nil. eapply Forall_impl; [exact H|]. unfold in_window. simpl. lia.
Qed.

Lemma drop_before_split cutoff l :
  exists pre, l = pre ++ drop_before cutoff l /\ Forall (fun t => t < cutoff) pre.
Proof.
  induction l as [|t l (pre & HE & Hpre)]; simpl; [by exists []|].
  destruct (Z.ltb_spec t cutoff) as [Hlt|Hge].
  - exists (t :: pre). simpl. rewrite <- HE. by split; [|constructor].
  - exists []. by split; [|constructor].
Qed.

(** What a limiter still lists, and the bound on each of its windows so far:
    every window that ends now or later holds at most the listed requests. *)
Definition window_ok (past : list Z) (now : Z) (s : SlidingWindowRateLimiter) : Prop :=
  Forall (fun t => t <= now) past /\
  (exists pre, past = pre ++ sw_requests s /\ Forall (fun t => t < now - sw_windowSize s) pre) /\
  forall T, count_in (T - sw_windowSize s) T past <= Z.max 0 (sw_maxRequests s).

Lemma TryAcquire_window past now t1 t2 s :
  now <= t1 <= t2 -> window_ok past now s ->
  let '(ok, s') := TryAcquire t1 t2 s in
  sw_windowSize s' = sw_windowSize s /\ sw_maxRequests s' = sw_maxRequests s /\
  window_ok (past ++ if ok then [t2] else []) t2 s'.
Proof.
  intros Ht (Hp & (pre & HE & Hpre) & HT). unfold TryAcquire, cleanup. simpl.
  destruct (drop_before_split (t1 - sw_windowSize s) (sw_requests s)) as (pre' & HE' & Hpre').
  set (kept := drop_before _ _) in *. rewrite HE' in HE.
  assert (Hold : Forall (fun t => t < t1 - sw_windowSize s) (pre ++ pre')).
  { apply Forall_app. split; [|done]. eapply Forall_impl; [exact Hpre|]. simpl. lia. }
  assert (Hpast : past = (pre ++ pre') ++ kept) by (by rewrite <- app_assoc).
  assert (Hle : Forall (fun t => t <= t2) past) by (eapply Forall_impl; [exact Hp|]; simpl; lia).
  destruct (Z.ltb_spec (Z.of_nat (length kept)) (sw_maxRequests s)) as [Hlt|Hge];
    split_and!; try done; unfold window_ok; simpl.
  - split_and!.
    + apply Forall_app. split; [done|]. by constructor; [|constructor].
    + exists (pre ++ pre'). split; [by rewrite Hpast, app_assoc|].
      eapply Forall_impl; [exact Hold|]. simpl. lia.
    + intros T. rewrite count_in_app. destruct (decide (T - sw_windowSize s <= t2 <= T)) as [Hin|Hout].
      * rewrite Hpast, count_in_app, (count_in_none _ _ (pre ++ pre')).
        -- pose proof (count_in_le (T - sw_windowSize s) T kept).
           pose proof (count_in_le (T - sw_windowSize s) T [t2]). simpl in *. lia.
        -- eapply Forall_impl; [exact Hold|]. simpl. lia.
      * rewrite (count_in_none _ _ [t2]) by (constructor; [lia|constructor]).
        specialize (HT T). lia.
  - rewrite app_nil_r. split_and!; try done. exists (pre ++ pre'). split; [done|].
    eapply Forall_impl; [exact Hold|]. simpl. lia.
Qed.

Lemma grants_window past now s ops :
  window_ok past now s -> monotone now ops ->
  forall T, count_in (T - sw_windowSize s) T (past ++ grants s ops) <= Z.max 0 (sw_maxRequests s).
Proof.
  revert past now s. induction ops as [|[t1 t2] ops IH]; intros past now s Hok Hm T; simpl.
  - rewrite app_nil_r. apply Hok.
  - destruct Hm as [Ht Hm]. pose proof (TryAcquire_window past now t1 t2 s Ht Hok) as Hx.
    destruct (TryAcquire t1 t2 s) as [ok s']. destruct Hx as (Hw & Hmax & Hok').
    rewrite app_assoc, <- Hw, <- Hmax. by apply (IH _ t2).
Qed.

(** The sliding window limiter grants at most maxRequests calls in every
    closed interval of one window length, for every sequence of calls and every
    clock that does not go back. *)
Theorem window_limit windowSize maxRequests ops start T :
  monotone start ops ->
  count_in (T - windowSize) T (grants (NewSlidingWindowRateLimiter windowSize maxRequests) ops)
    <= Z.max 0 maxRequests.
Proof.
  intros Hm. apply (grants_window [] start (NewSlidingWindowRateLimiter windowSize maxRequests)); [|done].
  unfold window_ok, count_in. simpl. split_and!; [constructor| |lia]. by exists [].
Qed.

Lemma window_limit_witness :
  grants (NewSlidingWindowRateLimiter 10 2) [(0, 0); (1, 1); (2, 2); (11, 11)] = [0; 1; 11] /\
  count_in (11 - 10) 11 (grants (NewSlidingWindowRateLimiter 10 2) [(0, 0); (1, 1); (2, 2); (11, 11)])
    <= Z.max 0 2.
Proof.
  split; [vm_compute; reflexivity|]. apply (window_limit 10 2 _ 0 11). simpl. lia.
Defined.

(** A limiter for no requests at all makes Wait index an empty list. *)
Lemma zero_limit_panics windowSize now1 now2 :
  (Wait_turn now1 now2 (NewSlidingWindowRateLimiter windowSize 0)).1 = WaitPanic.
Proof. done. Qed.
End SlidingWindow.

Module Retry.

(** * Retry with backoff *)

Section Retry.
Context {W T E : Type}.

(** RetryConfig; a nil RetryIf is [None]. *)
Record RetryConfig := mkRetryConfig {
  rc_MaxRetries : Z;
  rc_InitialInterval : Z;
  rc_MaxInterval : Z;
  rc_Multiplier : float64;
  rc_Jitter : float64;
  rc_RetryIf : option (E -> bool) }.

(** What the loop asks of an error: the wrappers errors.As looks for. *)
Variable IsNonRetryable IsRetryable : E -> bool.
Variable GetRetryAfter : E -> Z.
(** The context and the clock: its error now; a pause that the context may end;
    the random factor in [-1, 1). *)
Variable ctxErr : W -> option E.
Variable pause : W -> Z -> W * option E.
Variable random : W -> W * float64.

(** Whether the loop goes on after an error. *)
Definition retries (config : RetryConfig) (err : E) : bool :=
  negb (IsNonRetryable err) &&
  (IsRetryable err || match rc_RetryIf config with Some f => f err | None => true end).

Definition jittered (config : RetryConfig) (w : W) (waitTime : Z) : W * Z :=
  if f64_ltb f64_zero (rc_Jitter config)
  then let '(w', r) := random w in
       let jitter := f64_mul (f64_mul (Seconds waitTime) (rc_Jitter config)) r in
       (w', waitTime + f64_trunc (f64_mul jitter (f64_of_Z 1000000000)))
  else (w, waitTime).

Definition cap (config : RetryConfig) (d : Z) : Z :=
  if rc_MaxInterval config <? d then rc_MaxInterval config else d.

Inductive retry_result :=
| ROk (r : T)
| RErr (e : E)
| RCtx (e : E)
| RExhausted (last : option E) (attempts : Z).

(** The loop, with the outcomes of the attempts made and the pauses taken;
    [left] counts the attempts still allowed. *)
Fixpoint retry_loop (config : RetryConfig) (fn : W -> W * (T + E)) (left : nat) (interval : Z)
    (lastErr : option E) (w : W) (atts : list (T + E)) (waits : list Z)
  : retry_result * list (T + E) * list Z * W :=
  match left with
  | O => (RExhausted lastErr (rc_MaxRetries config + 1), atts, waits, w)
  | S left' =>
      match ctxErr w with
      | Some e => (RCtx e, atts, waits, w)
      | None =>
          let '(w, out) := fn w in
          let atts := atts ++ [out] in
          match out with
          | inl r => (ROk r, atts, waits, w)
          | inr err =>
              if negb (retries config err) then (RErr err, atts, waits, w)
              else if (left' =? 0)%nat
              then (RExhausted (Some err) (rc_MaxRetries config + 1), atts, waits, w)
              else
                let waitTime := if 0 <? GetRetryAfter err then GetRetryAfter err else interval in
                let '(w, waitTime) := jittered config w waitTime in
                let waitTime := cap config waitTime in
                let waits := waits ++ [waitTime] in
                let '(w, ended) := pause w waitTime in
                match ended with
                | Some e => (RCtx e, atts, waits, w)
                | None =>
                    retry_loop config fn left'
                      (cap config (f64_trunc (f64_mul (f64_of_Z interval) (rc_Multiplier config))))
                      (Some err) w atts waits
                end
          end
      end
  end.

Definition RetryWithBackoff (config : RetryConfig) (fn : W -> W * (T + E)) (w : W)
  : retry_result * list (T + E) * list Z * W :=
  retry_loop config fn (Z.to_nat (rc_MaxRetries config + 1)) (rc_InitialInterval config) None w [] [].

(** ** What a retry does *)

Definition retried (config : RetryConfig) (out : T + E) : Prop :=
  match out with inl _ => False | inr e => retries config e = true end.

(** The outcomes of the attempts explain the result. *)
Definition explains (config : RetryConfig) (n : nat) (res : retry_result) (atts : list (T + E)) : Prop :=
  match res with
  | ROk r => exists before, atts = before ++ [inl r] /\ Forall (retried config) before
  | RErr e => exists before, atts = before ++ [inr e] /\ Forall (retried config) before /\
      retries config e = false
  | RCtx _ => Forall (retried config) atts
  | RExhausted l k => Forall (retried config) atts /\ length atts = n /\ k = rc_MaxRetries config + 1 /\
      match last atts with Some (inr e) => l = Some e | _ => l = None end
  end.

Lemma cap_le config d : cap config d <= rc_MaxInterval config.
Proof. unfold cap. case_match; lia. Qed.

Lemma retry_loop_spec config fn left interval lastErr w atts waits :
  Forall (retried config) atts -> Forall (fun d => d <= rc_MaxInterval config) waits ->
  (length waits <= length atts)%nat ->
  match last atts with Some (inr e) => lastErr = Some e | _ => lastErr = None end ->
  let '(res, atts', waits', _) := retry_loop config fn left interval lastErr w atts waits in
  explains config (length atts + left) res atts' /\
  (length atts' <= length atts + left)%nat /\ (length waits' <= length atts')%nat /\
  Forall (fun d => d <= rc_MaxInterval config) waits'.
Proof.
  revert interval lastErr w atts waits.
  induction left as [|left IH]; intros interval lastErr w atts waits Ha Hw Hl Hlast; simpl.
  { split_and!; try done; try lia. }
  destruct (ctxErr w) as [e|]; [split_and!; try done; lia|].
  destruct (fn w) as [w1 [r|err]].
  { split_and!; rewrite ?length_app; simpl; try done; try lia. by exists atts. }
  destruct (retries config err) eqn:Er; simpl.
  2:{ split_and!; rewrite ?length_app; simpl; try done; try lia. by exists atts. }
  assert (Ha' : Forall (retried config) (atts ++ [inr err])).
  { apply Forall_app. split; [done|]. by constructor. }
  destruct (Nat.eqb_spec left 0) as [->|Hne].
  { unfold explains. rewrite last_snoc, length_app. simpl. split_and!; try done; lia. }
  destruct (jittered config w1 _) as [w2 wt]. destruct (pause w2 (cap config wt)) as [w3 [e|]].
  { split_and!; rewrite ?length_app; simpl; try done; try lia.
    apply Forall_app. split; [done|]. constructor; [apply cap_le|constructor]. }
  specialize (IH (cap config (f64_trunc (f64_mul (f64_of_Z interval) (rc_Multiplier config))))
    (Some err) w3 (atts ++ [inr err]) (waits ++ [cap config wt])).
  rewrite !length_app, last_snoc in IH. simpl in IH.
  destruct (retry_loop _ _ _ _ _ _ _ _) as [[[res atts'] waits'] w'].
  destruct IH as (H1 & H2 & H3 & H4); [done| |lia|done|].
  { apply Forall_app. split; [done|]. constructor; [apply cap_le|constructor]. }
  replace (length atts + S left)%nat with (length atts + 1 + left)%nat by lia. done.
Qed.

(** A retry ends after at most MaxRetries + 1 attempts, never pauses longer
    than MaxInterval, and its result is the one its attempts call for: the first
    success; an error that must not be retried, after errors that may; the end
    of the context; or, when all allowed attempts failed with errors that may be
    retried, an exhaustion that carries the last of them and the number of
    attempts. *)
Theorem retry_terminates_correct config fn w :
  let '(res, atts, waits, _) := RetryWithBackoff config fn w in
  (length atts <= Z.to_nat (rc_MaxRetries config + 1))%nat /\
  (length waits <= length atts)%nat /\ Forall (fun d => d <= rc_MaxInterval config) waits /\
  explains config (Z.to_nat (rc_MaxRetries config + 1)) res atts.
Proof.
  unfold RetryWithBackoff.
  pose proof (retry_loop_spec config fn (Z.to_nat (rc_MaxRetries config + 1))
    (rc_InitialInterval config) None w [] []) as H.
  destruct (retry_loop _ _ _ _ _ _ _ _) as [[[res atts] waits] w'].
  destruct H as (H1 & H2 & H3 & H4); try done; try constructor.
Qed.
End Retry.

(** DefaultRetryCondition on the text of an error that is neither a context nor
    a network error. *)
Definition transientPatterns : list string :=
  ["connection refused"; "connection reset"; "connection timed out"; "temporary failure";
   "service unavailable"; "too many requests"; "rate limit"; "429"; "503"; "504"].

Definition default_condition_text `{Unicode} (msg : string) : bool :=
  contains_any (ToLower msg) transientPatterns.
End Retry.

Module RateLimit.

(** * Token bucket *)

Record RateLimiter := mkRL {
  rl_rate : float64;
  rl_burst : Z;
  rl_tokens : float64;
  rl_lastUpdate : Z }.

Definition NewRateLimiter (rate : float64) (burst now : Z) : RateLimiter :=
  mkRL rate burst (f64_of_Z burst) now.

(** The first lines of every operation: tokens for the time elapsed, at most
    the burst. *)
Definition refill (now : Z) (r : RateLimiter) : RateLimiter :=
  mkRL (rl_rate r) (rl_burst r)
    (f64_min (f64_of_Z (rl_burst r))
       (f64_add (rl_tokens r) (f64_mul (Seconds (now - rl_lastUpdate r)) (rl_rate r)))) now.

Definition with_tokens (t : float64) (r : RateLimiter) : RateLimiter :=
  mkRL (rl_rate r) (rl_burst r) t (rl_lastUpdate r).

Definition TryAcquire (now : Z) (r : RateLimiter) : bool * RateLimiter :=
  let r := refill now r in
  if f64_leb f64_one (rl_tokens r)
  then (true, with_tokens (f64_sub (rl_tokens r) f64_one) r)
  else (false, r).

(** A wait time of fractional seconds as whole milliseconds, in nanoseconds. *)
Definition wait_millis (deficit rate : float64) : Z :=
  f64_trunc (f64_mul (f64_div deficit rate) (f64_of_Z 1000)) * 1000000.

(** One turn of Wait: [None] when a token was taken, else the pause. *)
Definition Wait_turn (now : Z) (r : RateLimiter) : option Z * RateLimiter :=
  let r := refill now r in
  if f64_leb f64_one (rl_tokens r)
  then (None, with_tokens (f64_sub (rl_tokens r) f64_one) r)
  else (Some (wait_millis (f64_sub f64_one (rl_tokens r)) (rl_rate r)), r).

Definition Reserve (now n : Z) (r : RateLimiter) : Z * RateLimiter :=
  let r := refill now r in
  let needed := f64_of_Z n in
  if f64_leb needed (rl_tokens r)
  then (0, with_tokens (f64_sub (rl_tokens r) needed) r)
  else (wait_millis (f64_sub needed (rl_tokens r)) (rl_rate r), with_tokens f64_zero r).

Definition Available (now : Z) (r : RateLimiter) : Z * RateLimiter :=
  let r := refill now r in (f64_trunc (rl_tokens r), r).

Definition Reset (now : Z) (r : RateLimiter) : RateLimiter :=
  mkRL (rl_rate r) (rl_burst r) (f64_of_Z (rl_burst r)) now.

Definition SetRate (rate : float64) (burst : Z) (r : RateLimiter) : RateLimiter :=
  mkRL rate burst
    (if f64_ltb (f64_of_Z burst) (rl_tokens r) then f64_of_Z burst else rl_tokens r)
    (rl_lastUpdate r).

Example bucket_ex :
  let r := NewRateLimiter (f64_of_Z 2) 1 0 in
  let '(a, r) := TryAcquire 0 r in
  let '(b, r) := TryAcquire 400000000 r in
  let '(c, r) := TryAcquire 500000000 r in
  (a, b, c) = (true, false, true).
Proof. vm_compute. reflexivity. Qed.

(** The order of floats is asymmetric. *)
Lemma f64_ltb_asym x y : f64_ltb x y = true -> f64_ltb y x = false.
Proof.
  unfold f64_ltb, SFltb.
  assert (HS : forall x y, SFcompare y x = option_map CompOpp (SFcompare x y)).
  { intros [[]|[]| |[] m e] [[]|[]| |[] m' e']; try done; simpl.
    all: rewrite (Z.compare_antisym e e'); destruct (e ?= e'); simpl; try done.
    all: change (Pos.compare_cont Eq) with Pos.compare; by rewrite (Pos.compare_antisym m m'). }
  rewrite (HS x y). by destruct (SFcompare x y) as [[]|].
Qed.

(** Refilling never leaves more tokens than the burst. *)
Lemma refill_capped now r : f64_ltb (f64_of_Z (rl_burst r)) (rl_tokens (refill now r)) = false.
Proof.
  unfold refill, f64_min. simpl. set (b := f64_of_Z (rl_burst r)). set (x := f64_add _ _).
  destruct (is_nan b || is_nan x) eqn:En.
  - unfold f64_ltb, SFltb. by destruct b.
  - destruct (f64_ltb x b) eqn:E; [by apply f64_ltb_asym|].
    destruct (f64_ltb b b) eqn:Eb; [|done]. rewrite (f64_ltb_asym b b) in Eb by done. done.
Qed.

(** * Limits per tenant *)

Record MultiTenantRateLimiter := mkMT {
  mt_limiters : gmap string RateLimiter;
  mt_defaultRate : float64;
  mt_defaultBurst : Z }.

Definition NewMultiTenantRateLimiter (rate : float64) (burst : Z) : MultiTenantRateLimiter :=
  mkMT ∅ rate burst.

Definition put_limiter (tenantID : string) (r : RateLimiter) (m : MultiTenantRateLimiter)
  : MultiTenantRateLimiter :=
  mkMT (<[tenantID := r]> (mt_limiters m)) (mt_defaultRate m) (mt_defaultBurst m).

(** The limiter of a tenant, created on first use. *)
Definition getLimiter (now : Z) (tenantID : string) (m : MultiTenantRateLimiter) : RateLimiter :=
  default (NewRateLimiter (mt_defaultRate m) (mt_defaultBurst m) now) (mt_limiters m !! tenantID).

Definition TryAcquire_tenant (now : Z) (tenantID : string) (m : MultiTenantRateLimiter)
  : bool * MultiTenantRateLimiter :=
  let '(ok, r) := TryAcquire now (getLimiter now tenantID m) in (ok, put_limiter tenantID r m).

Definition SetTenantLimit (now : Z) (tenantID : string) (rate : float64) (burst : Z)
    (m : MultiTenantRateLimiter) : MultiTenantRateLimiter :=
  put_limiter tenantID
    (match mt_limiters m !! tenantID with
     | Some r => SetRate rate burst r
     | None => NewRateLimiter rate burst now
     end) m.

Definition RemoveTenant (tenantID : string) (m : MultiTenantRateLimiter) : MultiTenantRateLimiter :=
  mkMT (delete tenantID (mt_limiters m)) (mt_defaultRate m) (mt_defaultBurst m).

Inductive mt_op :=
| OpAcquire (now : Z) (tenant : string)
| OpSetLimit (now : Z) (tenant : string) (rate : float64) (burst : Z)
| OpRemove (tenant : string).

Definition op_tenant (o : mt_op) : string :=
  match o with OpAcquire _ t => t | OpSetLimit _ t _ _ => t | OpRemove t => t end.

(** An operation and its answer. *)
Definition run_op (o : mt_op) (m : MultiTenantRateLimiter) : option bool * MultiTenantRateLimiter :=
  match o with
  | OpAcquire now t => let '(ok, m') := TryAcquire_tenant now t m in (Some ok, m')
  | OpSetLimit now t rate burst => (None, SetTenantLimit now t rate burst m)
  | OpRemove t => (None, RemoveTenant t m)
  end.

Fixpoint run_ops (os : list mt_op) (m : MultiTenantRateLimiter) : list (string * option bool) :=
  match os with
  | [] => []
  | o :: os' => let '(ans, m') := run_op o m in (op_tenant o, ans) :: run_ops os' m'
  end.

(** Two limiters that a tenant cannot tell apart. *)
Definition same_for (t : string) (m m' : MultiTenantRateLimiter) : Prop :=
  mt_limiters m !! t = mt_limiters m' !! t /\ mt_defaultRate m = mt_defaultRate m' /\
  mt_defaultBurst m = mt_defaultBurst m'.

#[export] Instance same_for_equiv t : Equivalence (same_for t).
Proof.
  split.
  - by intros m.
  - intros m m' (? & ? & ?). by repeat split.
  - intros m1 m2 m3 (? & ? & ?) (? & ? & ?). repeat split; congruence.
Qed.

Lemma run_op_other t o m : op_tenant o <> t -> same_for t (run_op o m).2 m.
Proof.
  intros Hne. destruct o as [now t'|now t' rate burst|t']; simpl in *.
  - unfold TryAcquire_tenant. destruct (TryAcquire _ _). simpl. split; simpl; [|done].
    by rewrite lookup_insert_ne.
  - split; simpl; [|done]. by rewrite lookup_insert_ne.
  - split; simpl; [|done]. by rewrite lookup_delete_ne.
Qed.

Lemma run_op_same t o m m' :
  op_tenant o = t -> same_for t m m' ->
  (run_op o m).1 = (run_op o m').1 /\ same_for t (run_op o m).2 (run_op o m').2.
Proof.
  intros <- (Hl & Hr & Hb). destruct o as [now t'|now t' rate burst|t']; simpl in *.
  - unfold TryAcquire_tenant, getLimiter. rewrite Hl, Hr, Hb.
    destruct (TryAcquire now _) as [ok r]. simpl. split; [done|].
    split; simpl; [by rewrite !lookup_insert_eq|done].
  - unfold SetTenantLimit. rewrite Hl. split; [done|].
    split; simpl; [by rewrite !lookup_insert_eq|done].
  - split; [done|]. split; simpl; [by rewrite !lookup_delete_eq|done].
Qed.

Lemma run_ops_same t os m m' :
  same_for t m m' ->
  List.filter (fun a => str_eqb a.1 t) (run_ops os m) =
  run_ops (List.filter (fun o => str_eqb (op_tenant o) t) os) m'.
Proof.
  revert m m'. induction os as [|o os IH]; intros m m' Hs; simpl; [done|].
  pose proof (run_op_other t o m) as Ho. pose proof (run_op_same t o m m') as Hx.
  destruct (run_op o m) as [ans m1]. simpl in *. destruct (str_eqb (op_tenant o) t) eqn:Et; simpl.
  - apply str_eqb_true in Et. destruct (Hx Et Hs) as [-> Hs'].
    destruct (run_op o m') as [ans' m1']. simpl in *. f_equal. by apply IH.
  - apply str_eqb_false in Et. apply IH. rewrite (Ho Et). done.
Qed.

(** Rate limits are isolated between tenants: in any sequence of acquires,
    limit changes and removals by any tenants, the answers one tenant gets are
    those it would get if only its own operations had been made. *)
Theorem tenant_rate_isolation t os m :
  List.filter (fun a => str_eqb a.1 t) (run_ops os m) =
  run_ops (List.filter (fun o => str_eqb (op_tenant o) t) os) m.
Proof. by apply run_ops_same. Qed.
End RateLimit.

Module Adaptive.
Import RateLimit.

(** * Adaptive limits *)

Definition f64_max (x y : float64) : float64 :=
  if is_nan x || is_nan y then S754_nan else if f64_ltb x y then y else x.

Record AdaptiveRateLimiter := mkAR {
  ar_limiter : RateLimiter;
  ar_minRate : float64;
  ar_maxRate : float64;
  ar_targetRate : float64;
  ar_windowSize : Z;
  ar_errorCount : Z;
  ar_successCount : Z }.

Definition NewAdaptiveRateLimiter (minRate maxRate : float64) (burst now : Z) : AdaptiveRateLimiter :=
  mkAR (NewRateLimiter maxRate burst now) minRate maxRate maxRate 100 0 0.

(** Both adjustments end by setting the rate and clearing the counts. *)
Definition adjust (target : float64) (a : AdaptiveRateLimiter) : AdaptiveRateLimiter :=
  mkAR (SetRate target (rl_burst (ar_limiter a)) (ar_limiter a)) (ar_minRate a) (ar_maxRate a)
    target (ar_windowSize a) 0 0.

Definition checkAndAdjust (a : AdaptiveRateLimiter) : AdaptiveRateLimiter :=
  let total := ar_errorCount a + ar_successCount a in
  if total <? ar_windowSize a then a
  else
    let errorRate := f64_div (f64_of_Z (ar_errorCount a)) (f64_of_Z total) in
    if f64_ltb (f64_lit 1 10) errorRate
    then adjust (f64_max (ar_minRate a) (f64_mul (ar_targetRate a) (f64_lit 8 10))) a
    else if f64_ltb errorRate (f64_lit 1 100) && f64_ltb (ar_targetRate a) (ar_maxRate a)
    then adjust (f64_min (ar_maxRate a) (f64_mul (ar_targetRate a) (f64_lit 11 10))) a
    else adjust (ar_targetRate a) a.

Definition count (errors successes : Z) (a : AdaptiveRateLimiter) : AdaptiveRateLimiter :=
  mkAR (ar_limiter a) (ar_minRate a) (ar_maxRate a) (ar_targetRate a) (ar_windowSize a)
    (ar_errorCount a + errors) (ar_successCount a + successes).

Definition RecordSuccess (a : AdaptiveRateLimiter) : AdaptiveRateLimiter := checkAndAdjust (count 0 1 a).
Definition RecordError (a : AdaptiveRateLimiter) : AdaptiveRateLimiter := checkAndAdjust (count 1 0 a).
Definition RecordRateLimited (a : AdaptiveRateLimiter) : AdaptiveRateLimiter :=
  adjust (f64_max (ar_minRate a) (f64_mul (ar_targetRate a) (f64_lit 1 2))) a.

(** The limiter always runs at the target rate, and the counts stay within one
    window. *)
Definition adaptive_ok (a : AdaptiveRateLimiter) : Prop :=
  rl_rate (ar_limiter a) = ar_targetRate a /\ 0 < ar_windowSize a /\
  0 <= ar_errorCount a /\ 0 <= ar_successCount a /\
  ar_errorCount a + ar_successCount a < ar_windowSize a.

Lemma adjust_ok target a : 0 < ar_windowSize a -> adaptive_ok (adjust target a).
Proof. intros Hw. unfold adaptive_ok, adjust. simpl. split_and!; done || lia. Qed.

Lemma checkAndAdjust_ok e s a :
  adaptive_ok a -> 0 <= e -> 0 <= s -> adaptive_ok (checkAndAdjust (count e s a)).
Proof.
  intros (Hr & Hw & He & Hs & Hsum) He' Hs'. unfold checkAndAdjust.
  destruct (Z.ltb_spec (ar_errorCount (count e s a) + ar_successCount (count e s a))
    (ar_windowSize (count e s a))) as [Hlt|Hge].
  - unfold adaptive_ok. simpl in *. split_and!; done || lia.
  - repeat case_match; by apply adjust_ok.
Qed.

Lemma adaptive_preserved a :
  adaptive_ok a ->
  adaptive_ok (RecordSuccess a) /\ adaptive_ok (RecordError a) /\ adaptive_ok (RecordRateLimited a).
Proof.
  intros Ha. split_and!; [apply checkAndAdjust_ok; done || lia..|]. apply adjust_ok. apply Ha.
Qed.
End Adaptive.
