(* ===== verification/LlmTypes.v ===== *)
(** LLM providers: the data of src/platform/orchestrator/llm (types.go,
    provider.go), the validation and the factories of factory.go, the license
    gate of license_gating.go, the cost arithmetic of factories.go.

    A provider is an instance the program holds behind an interface; what the
    remote service answers is an argument of the operation that calls it. *)

From S2P Require Import Prelude GoStrings GoFloat PolicyTypes.

Local Open Scope Z_scope.

(** * Types *)

Definition ProviderType := string.

Definition ProviderTypeOpenAI : ProviderType := "openai".
Definition ProviderTypeAnthropic : ProviderType := "anthropic".
Definition ProviderTypeBedrock : ProviderType := "bedrock".
Definition ProviderTypeOllama : ProviderType := "ollama".
Definition ProviderTypeGemini : ProviderType := "gemini".
Definition ProviderTypeAzureOpenAI : ProviderType := "azure-openai".
Definition ProviderTypeMistral : ProviderType := "mistral".
Definition ProviderTypeCustom : ProviderType := "custom".

Definition any_map : Type := list (string * value).

Record MediaInput := mkMedia {
  mi_Source : string; mi_Base64Data : string; mi_URL : string; mi_MIMEType : string }.

Record CompletionRequest := mkCompletionRequest {
  cr_Prompt : string;
  cr_SystemPrompt : string;
  cr_MaxTokens : Z;
  cr_Temperature : float64;
  cr_TopP : float64;
  cr_TopK : Z;
  cr_Model : string;
  cr_StopSequences : list string;
  cr_Stream : bool;
  cr_Media : list MediaInput;
  cr_Metadata : any_map }.

Record UsageStats := mkUsage { PromptTokens : Z; CompletionTokens : Z; TotalTokens : Z }.

Record CompletionResponse := mkCompletionResponse {
  resp_Content : string;
  resp_Model : string;
  resp_Usage : UsageStats;
  resp_Latency : Z;
  resp_FinishReason : string;
  resp_Metadata : any_map }.

Inductive HealthStatus :=
| HealthStatusHealthy | HealthStatusDegraded | HealthStatusUnhealthy | HealthStatusUnknown.

#[export] Instance HealthStatus_eq_dec : EqDecision HealthStatus.
Proof. solve_decision. Defined.

(** Times are nanoseconds; [None] is the zero time. *)
Record HealthCheckResult := mkHealth {
  hr_Status : HealthStatus;
  hr_Latency : Z;
  hr_Message : string;
  hr_LastChecked : option Z;
  hr_ConsecutiveFailures : Z }.

Record CostEstimate := mkEstimate {
  InputCostPer1K : float64;
  OutputCostPer1K : float64;
  EstimatedInputTokens : Z;
  EstimatedOutputTokens : Z;
  TotalEstimate : float64;
  MediaCostUSD : float64;
  Currency : string }.

Record ProviderConfig := mkConfig {
  cfg_Name : string;
  cfg_Type : ProviderType;
  cfg_APIKey : string;
  cfg_APIKeySecretARN : string;
  cfg_Endpoint : string;
  cfg_Model : string;
  cfg_Region : string;
  cfg_Enabled : bool;
  cfg_Priority : Z;
  cfg_Weight : Z;
  cfg_RateLimit : Z;
  cfg_TimeoutSeconds : Z;
  cfg_Settings : option any_map;
  cfg_TenantID : string }.

Definition with_Enabled (b : bool) (c : ProviderConfig) : ProviderConfig :=
  mkConfig (cfg_Name c) (cfg_Type c) (cfg_APIKey c) (cfg_APIKeySecretARN c) (cfg_Endpoint c)
    (cfg_Model c) (cfg_Region c) b (cfg_Priority c) (cfg_Weight c) (cfg_RateLimit c)
    (cfg_TimeoutSeconds c) (cfg_Settings c) (cfg_TenantID c).

Definition with_Weight (w : Z) (c : ProviderConfig) : ProviderConfig :=
  mkConfig (cfg_Name c) (cfg_Type c) (cfg_APIKey c) (cfg_APIKeySecretARN c) (cfg_Endpoint c)
    (cfg_Model c) (cfg_Region c) (cfg_Enabled c) (cfg_Priority c) w (cfg_RateLimit c)
    (cfg_TimeoutSeconds c) (cfg_Settings c) (cfg_TenantID c).

(** The methods of the Provider interface that do not reach the network. *)
Class Provider (P : Type) := {
  Name : P -> string;
  Type_ : P -> ProviderType;
  EstimateCost : P -> CompletionRequest -> option CostEstimate }.

(** * Cost arithmetic (factories.go) *)

Definition estimateTokens (req : CompletionRequest) : Z * Z :=
  let i := Z.of_nat (RuneCount (cr_Prompt req)) / 4 in
  let i := if str_eqb (cr_SystemPrompt req) "" then i
           else i + Z.of_nat (RuneCount (cr_SystemPrompt req)) / 4 in
  let i := if i =? 0 then 1 else i in
  let o := cr_MaxTokens req in
  (i, if o =? 0 then 1000 else o).

Definition calculateCost (inputTokens outputTokens : Z) (inPer1K outPer1K : float64) : float64 :=
  f64_add (f64_mul (f64_div (f64_of_Z inputTokens) (f64_of_Z 1000)) inPer1K)
          (f64_mul (f64_div (f64_of_Z outputTokens) (f64_of_Z 1000)) outPer1K).

Definition EstimateTokens : CompletionRequest -> Z * Z := estimateTokens.
Definition CalculateCost : Z -> Z -> float64 -> float64 -> float64 := calculateCost.

(** * Configuration errors (factory.go) *)

(** The verb [%q] of package fmt: printability comes from the Unicode tables. *)
Class GoQuote := { Quote : string -> string }.

(** The instance of the examples: names of printable ASCII without quotes. *)
Definition plain_quote : GoQuote := {| Quote := fun s => "'" +:+ s +:+ "'" |}.

Inductive factory_code :=
| ErrFactoryNotRegistered | ErrFactoryMissingType | ErrFactoryCreationFailed
| ErrFactoryInvalidConfig.

Record FactoryError := mkFactoryError {
  fe_ProviderType : ProviderType;
  fe_Code : factory_code;
  fe_Message : string;
  fe_Cause : option string }.

Definition invalid (t msg : string) : option FactoryError :=
  Some (mkFactoryError t ErrFactoryInvalidConfig msg None).

(** The type-specific cases of [ValidateConfig]. *)
Definition validate_type (c : ProviderConfig) : option FactoryError :=
  let t := cfg_Type c in
  let nokey := str_eqb (cfg_APIKey c) "" && str_eqb (cfg_APIKeySecretARN c) "" in
  if str_eqb t ProviderTypeOpenAI || str_eqb t ProviderTypeAnthropic
     || str_eqb t ProviderTypeGemini || str_eqb t ProviderTypeMistral then
    if nokey then invalid t "API key or secret ARN is required" else None
  else if str_eqb t ProviderTypeAzureOpenAI then
    if nokey then invalid t "API key or secret ARN is required for Azure OpenAI"
    else if str_eqb (cfg_Endpoint c) "" then invalid t "endpoint is required for Azure OpenAI"
    else None
  else if str_eqb t ProviderTypeBedrock then
    if str_eqb (cfg_Region c) "" then invalid t "AWS region is required for Bedrock" else None
  else None.

(** [None] is a nil error. *)
Definition ValidateConfig (c : ProviderConfig) : option FactoryError :=
  let t := cfg_Type c in
  if str_eqb t "" then invalid "" "provider type is required"
  else if str_eqb (cfg_Name c) "" then invalid t "provider name is required"
  else match validate_type c with
  | Some e => Some e
  | None =>
      if (cfg_Weight c <? 0) || (cfg_Weight c >? 100) then
        invalid t "weight must be between 0 and 100"
      else if cfg_TimeoutSeconds c <? 0 then invalid t "timeout must be non-negative"
      else if cfg_Priority c <? 0 then invalid t "priority must be non-negative"
      else if cfg_RateLimit c <? 0 then
        invalid t "rate limit must be non-negative (0 for unlimited)"
      else None
  end.

(** * Factories (factory.go)

    A factory manager is a table of constructors; [Create] looks one up by the
    type of the configuration. The constructors open no connection, so the same
    configuration gives the same instance or the same error. *)

Definition FactoryError_Error `{GoQuote} (e : FactoryError) : string :=
  if str_eqb (fe_ProviderType e) "" then "factory error: " +:+ fe_Message e
  else "factory error for " +:+ Quote (fe_ProviderType e) +:+ ": " +:+ fe_Message e.

Section Factories.
Context `{Q : GoQuote} {P : Type}.

Definition ProviderFactory := ProviderConfig -> result string P.

Record FactoryManager := mkFactoryManager { factories : gmap string ProviderFactory }.

Definition NewFactoryManager : FactoryManager := mkFactoryManager ∅.
Definition FactoryManager_Register (t : ProviderType) (f : ProviderFactory) (m : FactoryManager) :=
  mkFactoryManager (<[t := f]> (factories m)).
Definition FactoryManager_Unregister (t : ProviderType) (m : FactoryManager) :
  bool * FactoryManager :=
  (bool_decide (is_Some (factories m !! t)), mkFactoryManager (delete t (factories m))).
Definition FactoryManager_Get (t : ProviderType) (m : FactoryManager) : option ProviderFactory :=
  factories m !! t.
Definition FactoryManager_Has (t : ProviderType) (m : FactoryManager) : bool :=
  bool_decide (is_Some (factories m !! t)).
Definition FactoryManager_Count (m : FactoryManager) : nat := size (factories m).
Definition FactoryManager_Clear (m : FactoryManager) : FactoryManager := mkFactoryManager ∅.
(** [CopyFromGlobal]: the global entries win over the manager's own. *)
Definition FactoryManager_CopyFromGlobal (g m : FactoryManager) : FactoryManager :=
  mkFactoryManager (factories g ∪ factories m).

Definition FactoryManager_Create (m : FactoryManager) (c : ProviderConfig) :
  result FactoryError P :=
  let t := cfg_Type c in
  if str_eqb t "" then
    Err (mkFactoryError "" ErrFactoryMissingType "provider type is required" None)
  else match FactoryManager_Get t m with
  | None => Err (mkFactoryError t ErrFactoryNotRegistered
                   ("no factory registered for provider type " +:+ Quote t) None)
  | Some f => match f c with
    | Ok p => Ok p
    | Err e => Err (mkFactoryError t ErrFactoryCreationFailed
                      ("failed to create provider: " +:+ e) (Some e))
    end
  end.
End Factories.
Arguments ProviderFactory : clear implicits.
Arguments FactoryManager : clear implicits.

(** * The license gate (license_gating.go) *)

Definition Tier := string.
Definition TierCommunity : Tier := "Community".
Definition TierProfessional : Tier := "Professional".

Definition providerTierRequirement : gmap string Tier :=
  list_to_map [
    (ProviderTypeOllama, TierCommunity); (ProviderTypeOpenAI, TierCommunity);
    (ProviderTypeAnthropic, TierCommunity); (ProviderTypeGemini, TierCommunity);
    (ProviderTypeAzureOpenAI, TierCommunity); (ProviderTypeMistral, TierCommunity);
    (ProviderTypeBedrock, TierProfessional); (ProviderTypeCustom, TierProfessional)].

Definition GetTierForProvider (t : ProviderType) : Tier :=
  default TierProfessional (providerTierRequirement !! t).

Definition IsCommunityProvider (t : ProviderType) : bool :=
  str_eqb (GetTierForProvider t) TierCommunity.

(** The LicenseValidator interface, as far as the registry uses it. *)
Class LicenseValidator := {
  GetCurrentTier : Tier;
  IsProviderAllowed : ProviderType -> bool }.

Definition community_IsProviderAllowed (t : ProviderType) : bool :=
  match providerTierRequirement !! t with
  | None => false
  | Some r => str_eqb r TierCommunity
  end.

(** The validator of a community build. *)
Definition CommunityLicenseValidator : LicenseValidator := {|
  GetCurrentTier := TierCommunity;
  IsProviderAllowed := community_IsProviderAllowed |}.
