(* ===== verification/LlmRegistry.v ===== *)
(** The provider registry, src/platform/orchestrator/llm/registry.go: instances,
    configurations and health results by tenant and name, with an optional
    store, and the PostgreSQL store of storage.go under row-level security.

    A map from keys to pointers is a [gmap] whose values may be nil ([None]).
    An operation that dereferences nil ends in [Panic]. *)

From S2P Require Import Prelude GoStrings GoStrconv LlmTypes.

Local Open Scope Z_scope.

(** * Keys *)

Definition GlobalTenant : string := "*".
Definition NUL : ascii := "000".
Definition tenantSep : string := String NUL "".

Definition normalizeTenant (tenantID : string) : string :=
  if str_eqb tenantID "" then GlobalTenant else tenantID.

Definition scopeKey (tenantID name : string) : string :=
  normalizeTenant tenantID +:+ tenantSep +:+ name.

(** [None] is a key without a separator. *)
Definition splitScopeKey (key : string) : option (string * string) :=
  match Index key tenantSep with
  | None => None
  | Some idx => Some (slice key 0 idx, slice key (idx + len tenantSep) (len key))
  end.

Definition readableBy (keyTenant tenantID : string) : bool :=
  str_eqb keyTenant (normalizeTenant tenantID) || str_eqb keyTenant GlobalTenant.

Definition ownKey : string -> string -> string := scopeKey.

(** * Errors *)

Inductive registry_code :=
| ErrRegistryNotFound | ErrRegistryDuplicate | ErrRegistryInvalidConfig
| ErrRegistryCreationFailed | ErrRegistryStorageError | ErrRegistryLicenseRequired
| ErrRegistryProviderLimit.

Record RegistryError := mkRegistryError {
  re_ProviderName : string;
  re_Code : registry_code;
  re_Message : string;
  re_Cause : option string }.

Inductive outcome (A : Type) :=
| Ret (a : A)
| Fail (e : RegistryError)
| Panic.
Arguments Ret {A} a.
Arguments Fail {A} e.
Arguments Panic {A}.

(** * The store

    [None] is a nil error. A save or a delete may fail and may change the store
    or not. *)
Class Storage (St : Type) := {
  SaveProvider : ProviderConfig -> St -> option string * St;
  DeleteProvider : string -> string -> St -> option string * St;
  GetProvider : string -> St -> result string ProviderConfig;
  ListAllProviders : St -> result string (list string) }.

Section Registry.
Context `{Q : GoQuote} {P : Type} {St : Type} `{V : LicenseValidator} `{S : Storage St}.

Record Registry := mkRegistry {
  providers : gmap string P;
  configs : gmap string (option ProviderConfig);
  storage : option St;
  factory : FactoryManager P;
  maxProviders : Z;
  healthResults : gmap string HealthCheckResult }.

Definition set_providers m r :=
  mkRegistry m (configs r) (storage r) (factory r) (maxProviders r) (healthResults r).
Definition set_configs m r :=
  mkRegistry (providers r) m (storage r) (factory r) (maxProviders r) (healthResults r).
Definition set_storage s r :=
  mkRegistry (providers r) (configs r) s (factory r) (maxProviders r) (healthResults r).
Definition set_health m r :=
  mkRegistry (providers r) (configs r) (storage r) (factory r) (maxProviders r) m.

Definition RegistryError_Error (e : RegistryError) : string :=
  if str_eqb (re_ProviderName e) "" then "registry error: " +:+ re_Message e
  else "registry error for " +:+ Quote (re_ProviderName e) +:+ ": " +:+ re_Message e.

Definition not_found (name : string) : RegistryError :=
  mkRegistryError name ErrRegistryNotFound ("provider " +:+ Quote name +:+ " not found") None.

(** The checks shared by [Register] and [Update] before the lock; [None] is a
    nil config. *)
Definition precheck (config : option ProviderConfig) : result RegistryError ProviderConfig :=
  match config with
  | None => Err (mkRegistryError "" ErrRegistryInvalidConfig "config cannot be nil" None)
  | Some c =>
      if str_eqb (cfg_Name c) "" then
        Err (mkRegistryError "" ErrRegistryInvalidConfig "provider name is required" None)
      else match ValidateConfig c with
      | Some e =>
          let t := FactoryError_Error e in
          Err (mkRegistryError (cfg_Name c) ErrRegistryInvalidConfig
                 ("invalid configuration: " +:+ t) (Some t))
      | None =>
          if IsProviderAllowed (cfg_Type c) then Ok c
          else Err (mkRegistryError (cfg_Name c) ErrRegistryLicenseRequired
                 ("provider type " +:+ Quote (cfg_Type c) +:+ " requires "
                  +:+ GetTierForProvider (cfg_Type c) +:+ " license (current: "
                  +:+ GetCurrentTier
                  +:+ ") - upgrade at https://getaxonflow.com/enterprise") None)
      end
  end.

(** [currentCount]: entries in either table, each counted once. *)
Definition currentCount (r : Registry) : Z :=
  Z.of_nat (size (configs r)) + Z.of_nat (size (providers r))
  - Z.of_nat (size (filter (fun kv => is_Some (configs r !! kv.1)) (providers r))).

Definition storage_error (c : ProviderConfig) (msg e : string) : RegistryError :=
  mkRegistryError (cfg_Name c) ErrRegistryStorageError (msg +:+ e) (Some e).

Definition Register (config : option ProviderConfig) (r : Registry) :
  outcome unit * Registry :=
  match precheck config with
  | Err e => (Fail e, r)
  | Ok c =>
      let key := scopeKey (cfg_TenantID c) (cfg_Name c) in
      if (maxProviders r >? 0) && (currentCount r >=? maxProviders r) then
        (Fail (mkRegistryError (cfg_Name c) ErrRegistryProviderLimit
                 ("maximum number of LLM providers reached (" +:+ Itoa (maxProviders r)
                  +:+ ") - upgrade at https://getaxonflow.com/evaluation-license") None), r)
      else match configs r !! key with
      | Some _ =>
          (Fail (mkRegistryError (cfg_Name c) ErrRegistryDuplicate
                   ("provider " +:+ Quote (cfg_Name c) +:+ " already registered") None), r)
      | None =>
          let r1 := set_configs (<[key := Some c]> (configs r)) r in
          match storage r1 with
          | None => (Ret tt, r1)
          | Some st =>
              match SaveProvider c st with
              | (None, st') => (Ret tt, set_storage (Some st') r1)
              | (Some e, st') =>
                  (Fail (storage_error c "failed to persist provider: " e),
                   set_storage (Some st') (set_configs (delete key (configs r1)) r1))
              end
          end
      end
  end.

(** [None] is a nil provider or a nil config. *)
Definition RegisterProvider (name : string) (provider : option P)
  (config : option ProviderConfig) (r : Registry) : outcome unit * Registry :=
  match provider with
  | None => (Fail (mkRegistryError "" ErrRegistryInvalidConfig "provider cannot be nil" None), r)
  | Some p =>
      if str_eqb name "" then
        (Fail (mkRegistryError "" ErrRegistryInvalidConfig "provider name is required" None), r)
      else
        let key := scopeKey (match config with Some c => cfg_TenantID c | None => "" end) name in
        match providers r !! key with
        | Some _ =>
            (Fail (mkRegistryError name ErrRegistryDuplicate
                     ("provider " +:+ Quote name +:+ " already registered") None), r)
        | None =>
            let r1 := set_providers (<[key := p]> (providers r)) r in
            (Ret tt, match config with
                     | Some c => set_configs (<[key := Some c]> (configs r1)) r1
                     | None => r1
                     end)
        end
  end.

Definition known (r : Registry) (key : string) : bool :=
  bool_decide (is_Some (configs r !! key)) || bool_decide (is_Some (providers r !! key)).

Definition readKeyLocked (tenantID name : string) (r : Registry) : option string :=
  let own := scopeKey tenantID name in
  if known r own then Some own
  else
    let global := scopeKey GlobalTenant name in
    if str_eqb global own then None
    else if known r global then Some global else None.

(** [Enable] and [Disable] write through the pointer found in the table. *)
Definition set_enabled (b : bool) (tenantID name : string) (r : Registry) :
  outcome unit * Registry :=
  let key := ownKey tenantID name in
  match configs r !! key with
  | None => (Fail (not_found name), r)
  | Some None => (Panic, r)
  | Some (Some c) => (Ret tt, set_configs (<[key := Some (with_Enabled b c)]> (configs r)) r)
  end.

Definition Enable := set_enabled true.
Definition Disable := set_enabled false.

Definition Update (config : option ProviderConfig) (r : Registry) : outcome unit * Registry :=
  match precheck config with
  | Err e => (Fail e, r)
  | Ok c =>
      let key := ownKey (cfg_TenantID c) (cfg_Name c) in
      if negb (known r key) then (Fail (not_found (cfg_Name c)), r)
      else
        let oldConfig := match configs r !! key with Some p => p | None => None end in
        let oldProvider := providers r !! key in
        let r1 := set_configs (<[key := Some c]> (configs r))
                    (set_providers (delete key (providers r)) r) in
        let done r2 := (Ret tt, set_health (delete key (healthResults r2)) r2) in
        match storage r1 with
        | None => done r1
        | Some st =>
            match SaveProvider c st with
            | (None, st') => done (set_storage (Some st') r1)
            | (Some e, st') =>
                let r2 := set_configs (<[key := oldConfig]> (configs r1)) r1 in
                let r3 := match oldProvider with
                          | Some p => set_providers (<[key := p]> (providers r2)) r2
                          | None => r2
                          end in
                (Fail (storage_error c ("failed to persist updated provider "
                                        +:+ cfg_Name c +:+ ": ") e),
                 set_storage (Some st') r3)
            end
        end
  end.

(** The store is asked to delete only when the configuration names a tenant; an
    error of the store is logged and the entry leaves the memory all the same. *)
Definition Unregister (tenantID name : string) (r : Registry) : outcome unit * Registry :=
  let key := ownKey tenantID name in
  if negb (known r key) then (Fail (not_found name), r)
  else
    let orgID := match configs r !! key with
                 | Some (Some c) => cfg_TenantID c | _ => "" end in
    let r1 := match storage r with
              | Some st => if str_eqb orgID "" then r
                           else set_storage (Some (DeleteProvider orgID name st).2) r
              | None => r
              end in
    (Ret tt, set_health (delete key (healthResults r1))
               (set_configs (delete key (configs r1))
                  (set_providers (delete key (providers r1)) r1))).

(** The two critical sections of [Get]: the look-up under the read lock and the
    creation under the write lock. *)
Inductive get_found :=
| FoundInstance (p : P)
| FoundConfig (key : string) (c : option ProviderConfig)
| FoundNothing.

Definition get_lookup (tenantID name : string) (r : Registry) : get_found :=
  match readKeyLocked tenantID name r with
  | None => FoundNothing
  | Some key =>
      match providers r !! key with
      | Some p => FoundInstance p
      | None => match configs r !! key with
                | Some c => FoundConfig key c
                | None => FoundNothing
                end
      end
  end.

Definition lazyInstantiate (key name : string) (config : option ProviderConfig)
  (r : Registry) : outcome P * Registry :=
  match providers r !! key with
  | Some p => (Ret p, r)
  | None =>
      match config with
      | None => (Panic, r)
      | Some c =>
          match FactoryManager_Create (factory r) c with
          | Err e =>
              let t := FactoryError_Error e in
              (Fail (mkRegistryError name ErrRegistryCreationFailed
                       ("failed to create provider: " +:+ t) (Some t)), r)
          | Ok p => (Ret p, set_providers (<[key := p]> (providers r)) r)
          end
      end
  end.

Definition Get (tenantID name : string) (r : Registry) : outcome P * Registry :=
  match get_lookup tenantID name r with
  | FoundInstance p => (Ret p, r)
  | FoundConfig key c => lazyInstantiate key name c r
  | FoundNothing => (Fail (not_found name), r)
  end.

Definition config_not_found (name : string) : RegistryError :=
  mkRegistryError name ErrRegistryNotFound
    ("config for provider " +:+ Quote name +:+ " not found") None.

Definition GetConfig (tenantID name : string) (r : Registry) : outcome ProviderConfig :=
  match readKeyLocked tenantID name r with
  | None => Fail (config_not_found name)
  | Some key => match configs r !! key with
    | None => Fail (config_not_found name)
    | Some None => Panic
    | Some (Some c) => Ret c
    end
  end.

Definition OwnsProvider (tenantID name : string) (r : Registry) : bool :=
  known r (ownKey tenantID name).

(** The name of a key in [tenantID]'s view. *)
Definition visible_name (tenantID key : string) : option string :=
  match splitScopeKey key with
  | Some (keyTenant, name) => if readableBy keyTenant tenantID then Some name else None
  | None => None
  end.

(** [sort.Strings] of a set of names. *)
Definition sorted_names (s : gset string) : list string := SliceStable str_before (elements s).

Definition names_of (tenantID : string) (keys : list string) : gset string :=
  list_to_set (omap (visible_name tenantID) keys).

Definition List_ (tenantID : string) (r : Registry) : list string :=
  sorted_names (names_of tenantID ((map_to_list (configs r)).*1 ++ (map_to_list (providers r)).*1)).

Definition visible_configs (tenantID : string) (r : Registry) :
  list (string * option ProviderConfig) :=
  List.filter (fun kv => bool_decide (is_Some (visible_name tenantID kv.1)))
    (map_to_list (configs r)).

(** The names of the configurations that satisfy [f], a nil one among the
    visible configurations being dereferenced. *)
Definition list_where (f : ProviderConfig -> bool) (tenantID : string) (r : Registry) :
  outcome (list string) :=
  let entries := visible_configs tenantID r in
  if existsb (fun kv => match kv.2 with None => true | Some _ => false end) entries
  then Panic
  else Ret (sorted_names (names_of tenantID
         (List.filter (fun kv => match kv.2 with Some c => f c | None => false end) entries).*1)).

Definition ListEnabled : string -> Registry -> outcome (list string) := list_where cfg_Enabled.
Definition ListByType (tenantID : string) (t : ProviderType) : Registry -> outcome (list string) :=
  list_where (fun c => str_eqb (cfg_Type c) t) tenantID.

Definition Count (tenantID : string) (r : Registry) : nat := length (List_ tenantID r).
Definition CountInstantiated (r : Registry) : nat := size (providers r).
Definition Has (tenantID name : string) (r : Registry) : bool :=
  bool_decide (is_Some (readKeyLocked tenantID name r)).

(** * Health

    [check p] is what the provider's HealthCheck answers, [now] the clock and
    [latency p] the measured duration. *)
Definition checked (check : P -> result string HealthCheckResult) (now : Z)
  (latency : P -> Z) (p : P) : HealthCheckResult :=
  match check p with
  | Err e => mkHealth HealthStatusUnhealthy (latency p) e (Some now) 0
  | Ok h => match hr_LastChecked h with
    | None => mkHealth (hr_Status h) (hr_Latency h) (hr_Message h) (Some now)
                (hr_ConsecutiveFailures h)
    | Some _ => h
    end
  end.

(** The instances in the tenancy [tenantID], as [HealthCheck] snapshots them. *)
Definition health_targets (tenantID : string) (r : Registry) : list (string * string * P) :=
  omap (fun kp => match splitScopeKey kp.1 with
                  | Some (t, name) => if str_eqb t (normalizeTenant tenantID)
                                      then Some (kp.1, name, kp.2) else None
                  | None => None
                  end) (map_to_list (providers r)).

(** The sweep over the snapshot: one call and one write per target. *)
Definition health_sweep (check : P -> result string HealthCheckResult) (now : Z)
  (latency : P -> Z) (targets : list (string * string * P)) (r : Registry) : Registry :=
  foldl (fun r kt => set_health (<[kt.1.1 := checked check now latency kt.2]>
                                   (healthResults r)) r) r targets.

Definition HealthCheck (check : P -> result string HealthCheckResult) (now : Z)
  (latency : P -> Z) (tenantID : string) (r : Registry) :
  gmap string HealthCheckResult * Registry :=
  let targets := health_targets tenantID r in
  (foldl (fun m kt => <[kt.1.2 := checked check now latency kt.2]> m) ∅ targets,
   health_sweep check now latency targets r).

Definition HealthCheckSingle (check : P -> result string HealthCheckResult) (now : Z)
  (latency : P -> Z) (tenantID name : string) (r : Registry) :
  outcome HealthCheckResult * Registry :=
  let key := ownKey tenantID name in
  if negb (known r key) then (Fail (not_found name), r)
  else match Get tenantID name r with
  | (Ret p, r1) =>
      let h := checked check now latency p in
      (Ret h, set_health (<[key := h]> (healthResults r1)) r1)
  | (Fail e, r1) => (Fail e, r1)
  | (Panic, r1) => (Panic, r1)
  end.

Definition GetHealthResult (tenantID name : string) (r : Registry) : option HealthCheckResult :=
  match readKeyLocked tenantID name r with
  | Some key => healthResults r !! key
  | None => None
  end.

Definition GetHealthyProviders (tenantID : string) (r : Registry) : list string :=
  sorted_names (names_of tenantID
    (List.filter (fun kv => bool_decide (hr_Status kv.2 = HealthStatusHealthy))
       (map_to_list (healthResults r))).*1).

(** * Reload *)

(** One row of the loop of [ReloadFromStorage]. *)
Definition reload_one (st : St) (r : Registry) (name : string) : Registry :=
  match GetProvider name st with
  | Err _ => r
  | Ok c =>
      if str_eqb (cfg_TenantID c) "" then r
      else
        let key := scopeKey (cfg_TenantID c) name in
        match configs r !! key with
        | Some _ => r
        | None => set_configs (<[key := Some c]> (configs r)) r
        end
  end.

Definition ReloadFromStorage (r : Registry) : outcome unit * Registry :=
  match storage r with
  | None => (Ret tt, r)
  | Some st =>
      match ListAllProviders st with
      | Err e => (Fail (mkRegistryError "" ErrRegistryStorageError
                          ("failed to list providers from storage: " +:+ e) (Some e)), r)
      | Ok names => (Ret tt, foldl (reload_one st) r names)
      end
  end.

Definition Registry_Close (r : Registry) : Registry :=
  mkRegistry ∅ ∅ (storage r) (factory r) (maxProviders r) ∅.

(** [NewRegistry] with its options applied: no entries. *)
Definition NewRegistry (s : option St) (f : FactoryManager P) (max : Z) : Registry :=
  mkRegistry ∅ ∅ s f max ∅.

End Registry.
Arguments Registry : clear implicits.

(** * The PostgreSQL store (storage.go)

    The table llm_providers, one row per tenant and name. A transaction opened
    by [rls.WithOrgScope] sets [app.current_org_id] for its own statements; a
    statement outside of one sees the value of the session, which no code sets
    ([None]). The settings column holds JSON: [codec] is what is read back of
    what was written, an error of the encoder included. *)
Record PostgresStorage := mkPostgres {
  pg_up : bool;
  pg_session_org : option string;
  pg_rows : gmap (string * string) ProviderConfig }.

Class SettingsCodec := { codec : option any_map -> result string (option any_map) }.

Definition with_Settings (s : option any_map) (c : ProviderConfig) : ProviderConfig :=
  mkConfig (cfg_Name c) (cfg_Type c) (cfg_APIKey c) (cfg_APIKeySecretARN c) (cfg_Endpoint c)
    (cfg_Model c) (cfg_Region c) (cfg_Enabled c) (cfg_Priority c) (cfg_Weight c) (cfg_RateLimit c)
    (cfg_TimeoutSeconds c) s (cfg_TenantID c).

Section Postgres.
Context `{Q : GoQuote} `{K : SettingsCodec}.

Definition set_rows m s := mkPostgres (pg_up s) (pg_session_org s) m.

Definition pg_SaveProvider (c : ProviderConfig) (s : PostgresStorage) :
  option string * PostgresStorage :=
  if str_eqb (cfg_TenantID c) "" then (Some "config.TenantID must be set for RLS scoping", s)
  else match codec (cfg_Settings c) with
  | Err e => (Some ("failed to marshal settings: " +:+ e), s)
  | Ok settings =>
      if pg_up s then
        (None, set_rows (<[(cfg_TenantID c, cfg_Name c) := with_Settings settings c]>
                           (pg_rows s)) s)
      else (Some "failed to save provider: connection refused", s)
  end.

(** The row the condition [tenant_id = current_setting('app.current_org_id', true)]
    selects. *)
Definition pg_GetProvider (name : string) (s : PostgresStorage) : result string ProviderConfig :=
  if pg_up s then
    match pg_session_org s ≫= (fun org => pg_rows s !! (org, name)) with
    | Some c => Ok c
    | None => Err ("provider " +:+ Quote name +:+ " not found")
    end
  else Err "failed to get provider: connection refused".

Definition pg_DeleteProvider (orgID name : string) (s : PostgresStorage) :
  option string * PostgresStorage :=
  if str_eqb orgID "" then
    (Some "rls.WithOrgScope: orgID must be non-empty (cross-org work belongs on the admin role)", s)
  else if pg_up s then
    match pg_rows s !! (orgID, name) with
    | Some _ => (None, set_rows (delete (orgID, name) (pg_rows s)) s)
    | None => (Some ("provider " +:+ Quote name +:+ " not found"), s)
    end
  else (Some "rls.WithOrgScope: begin txn: connection refused", s).

Definition pg_names (orgID : string) (s : PostgresStorage) : list string :=
  SliceStable str_before
    (omap (fun kc => if str_eqb kc.1.1 orgID then Some kc.1.2 else None) (map_to_list (pg_rows s))).

Definition pg_ListProviders (orgID : string) (s : PostgresStorage) : result string (list string) :=
  if str_eqb orgID "" then
    Err "rls.WithOrgScope: orgID must be non-empty (cross-org work belongs on the admin role)"
  else if pg_up s then Ok (pg_names orgID s)
  else Err "rls.WithOrgScope: begin txn: connection refused".

Definition pg_ListAllProviders (s : PostgresStorage) : result string (list string) :=
  if pg_up s then Ok (match pg_session_org s with Some org => pg_names org s | None => [] end)
  else Err "failed to list all providers: connection refused".

#[export] Instance PostgresStorage_Storage : Storage PostgresStorage := {|
  SaveProvider := pg_SaveProvider;
  DeleteProvider := pg_DeleteProvider;
  GetProvider := pg_GetProvider;
  ListAllProviders := pg_ListAllProviders |}.
End Postgres.
