(* ===== verification/LlmRegistryFacts.v ===== *)
(** Facts about the provider registry: keys separate tenants, what one tenant
    does is invisible to another, the limit counts each entry once, a failed
    update rolls back, and the two places where it does not hold together: a
    rollback that leaves a nil configuration, and a creation that overlaps an
    update or a removal. *)

From S2P Require Import Prelude GoStrings GoStrconv LlmTypes LlmRegistry.

Local Open Scope Z_scope.

(** * Keys *)

(** A tenant identifier without the separator: an HTTP header carries no NUL. *)
Definition no_nul (t : string) : Prop := NUL ∉ chars t.

#[export] Instance no_nul_dec t : Decision (no_nul t).
Proof. unfold no_nul. apply _. Defined.

Lemma global_no_nul : no_nul GlobalTenant.
Proof. by apply (bool_decide_unpack _). Qed.

Lemma normalizeTenant_no_nul t : no_nul t -> no_nul (normalizeTenant t).
Proof. unfold normalizeTenant. case_match; auto using global_no_nul. Qed.

Lemma prefix_sep a s : String.prefix tenantSep (String a s) = bool_decide (a = NUL).
Proof.
  unfold tenantSep. cbn [String.prefix]. destruct (ascii_dec NUL a) as [<-|Hne].
  - rewrite bool_decide_eq_true_2 by done. by destruct s.
  - rewrite bool_decide_eq_false_2; congruence.
Qed.

Lemma Index_sep t n : no_nul t -> Index (t +:+ tenantSep +:+ n) tenantSep = Some (len t).
Proof.
  unfold no_nul. induction t as [|a t IH]; intros Hn.
  - cbn. by destruct n.
  - change (chars (String a t)) with (a :: chars t) in Hn.
    rewrite elem_of_cons in Hn. change (String a t +:+ tenantSep +:+ n)
      with (String a (t +:+ tenantSep +:+ n)).
    cbn [Index]. rewrite prefix_sep, bool_decide_eq_false_2 by (intros ->; tauto).
    rewrite IH by tauto. by rewrite len_cons.
Qed.

Lemma slice_app_l s t : slice (s +:+ t) 0 (len s) = s.
Proof.
  unfold slice, len. rewrite chars_app, drop_0, Nat.sub_0_r, take_app_length.
  apply of_chars_chars.
Qed.

Lemma slice_app_r s t : slice (s +:+ t) (len s) (len (s +:+ t)) = t.
Proof.
  unfold slice, len. rewrite chars_app, drop_app_length, length_app, take_ge by lia.
  apply of_chars_chars.
Qed.

(** The key splits back into its parts. *)
Lemma scopeKey_split t n :
  no_nul t -> splitScopeKey (scopeKey t n) = Some (normalizeTenant t, n).
Proof.
  intros Ht%normalizeTenant_no_nul. unfold splitScopeKey, scopeKey.
  rewrite Index_sep by done. rewrite slice_app_l.
  replace (len (normalizeTenant t) + len tenantSep)%nat
    with (len (normalizeTenant t +:+ tenantSep)) by apply len_app.
  replace (normalizeTenant t +:+ tenantSep +:+ n) with ((normalizeTenant t +:+ tenantSep) +:+ n)
    by (by rewrite <- of_chars_chars, <- (of_chars_chars (_ +:+ _)), !chars_app, <- (assoc_L _)).
  by rewrite slice_app_r.
Qed.

Lemma scopeKey_inj t1 n1 t2 n2 :
  no_nul t1 -> no_nul t2 -> scopeKey t1 n1 = scopeKey t2 n2 ->
  normalizeTenant t1 = normalizeTenant t2 /\ n1 = n2.
Proof.
  intros H1 H2 E. pose proof (scopeKey_split t1 n1 H1) as S1.
  rewrite E, scopeKey_split in S1 by done. by injection S1.
Qed.


(** * What a tenant sees *)

Section Facts.
Context `{Q : GoQuote} {P : Type} {St : Type} `{V : LicenseValidator} `{S : Storage St}.
#[local] Abbreviation Reg := (Registry P St).

Definition visible (u key : string) : Prop := is_Some (visible_name u key).

Lemma readableBy_true kt u :
  readableBy kt u = true <-> kt = normalizeTenant u \/ kt = GlobalTenant.
Proof. unfold readableBy. by rewrite orb_true_iff, !str_eqb_true. Qed.

Lemma visible_own u n : no_nul u -> visible u (scopeKey u n).
Proof.
  intros Hu. unfold visible, visible_name. rewrite scopeKey_split by done.
  replace (readableBy _ u) with true by (symmetry; apply readableBy_true; by left). eauto.
Qed.

Lemma visible_global u n : visible u (scopeKey GlobalTenant n).
Proof.
  unfold visible, visible_name. rewrite scopeKey_split by apply global_no_nul.
  replace (readableBy _ u) with true by (symmetry; apply readableBy_true; by right). eauto.
Qed.

(** [stranger t u]: [t] is a tenant of its own, other than [u]. *)
Definition stranger (t u : string) : Prop :=
  no_nul t /\ normalizeTenant t <> normalizeTenant u /\ normalizeTenant t <> GlobalTenant.

Lemma stranger_split t u key n :
  stranger t u -> splitScopeKey key = Some (normalizeTenant t, n) -> ~ visible u key.
Proof.
  intros (_ & Hu & Hg) E [x Hx]. unfold visible_name in Hx. rewrite E in Hx.
  destruct (readableBy _ u) eqn:R; [|done]. apply readableBy_true in R. tauto.
Qed.

Lemma stranger_key t u n : stranger t u -> ~ visible u (scopeKey t n).
Proof. intros Ht. eapply stranger_split, scopeKey_split; [done|]. apply Ht. Qed.

(** The provider a look-up of [key] ends with, whether or not it has been
    created yet. *)
Definition instance (r : Reg) (key : string) : option P :=
  match providers r !! key with
  | Some p => Some p
  | None => match configs r !! key with
    | Some (Some c) => match FactoryManager_Create (factory r) c with
                       | Ok p => Some p | Err _ => None end
    | _ => None
    end
  end.

(** Two registries that [u] cannot tell apart: they agree on the entries it may
    read, up to the creation of instances. *)
Record same_view (u : string) (r1 r2 : Reg) : Prop := {
  sv_factory : factory r1 = factory r2;
  sv_configs key : visible u key -> configs r1 !! key = configs r2 !! key;
  sv_known key : visible u key -> known r1 key = known r2 key;
  sv_instance key : visible u key -> instance r1 key = instance r2 key;
  sv_health key : visible u key -> healthResults r1 !! key = healthResults r2 !! key }.

#[export] Instance same_view_equiv u : Equivalence (same_view u).
Proof.
  split.
  - intros r. by split.
  - intros r1 r2 []; split; intros; symmetry; auto.
  - intros r1 r2 r3 [F1 C1 K1 I1 H1] [F2 C2 K2 I2 H2]; split; intros.
    + congruence.
    + by rewrite C1, C2.
    + by rewrite K1, K2.
    + by rewrite I1, I2.
    + by rewrite H1, H2.
Qed.

(** A change of entries [u] may not read leaves its view. *)
Lemma same_view_invisible u (r1 r2 : Reg) :
  factory r1 = factory r2 ->
  (forall key, visible u key -> providers r1 !! key = providers r2 !! key) ->
  (forall key, visible u key -> configs r1 !! key = configs r2 !! key) ->
  (forall key, visible u key -> healthResults r1 !! key = healthResults r2 !! key) ->
  same_view u r1 r2.
Proof.
  intros Hf Hp Hc Hh. split; try done; intros key Hk.
  - unfold known. by rewrite Hp, Hc.
  - unfold instance. by rewrite Hp, Hc, Hf.
Qed.

(** A registry that differs by writes at a key [u] may not read. *)
Ltac invisible_at Hk :=
  apply same_view_invisible; [done| ..];
  let k := fresh in let Hin := fresh in intros k Hin; cbn;
  repeat first [ rewrite lookup_insert_ne by (intros <-; by apply Hk)
               | rewrite lookup_delete_ne by (intros <-; by apply Hk) ]; done.

Lemma Register_view u c (r : Reg) :
  stranger (cfg_TenantID c) u -> same_view u r (Register (Some c) r).2.
Proof.
  intros Ht. pose proof (stranger_key _ _ (cfg_Name c) Ht) as Hk. unfold Register.
  destruct (precheck _) as [c'|] eqn:E; [|done].
  assert (c' = c) as ->.
  { unfold precheck in E. repeat case_match; congruence. }
  repeat (case_match; simplify_eq/=; try reflexivity); invisible_at Hk.
Qed.

Lemma Update_view u c (r : Reg) :
  stranger (cfg_TenantID c) u -> same_view u r (Update (Some c) r).2.
Proof.
  intros Ht. pose proof (stranger_key _ _ (cfg_Name c) Ht) as Hk. unfold Update, ownKey.
  destruct (precheck _) as [c'|] eqn:E; [|done].
  assert (c' = c) as ->.
  { unfold precheck in E. repeat case_match; congruence. }
  repeat (case_match; simplify_eq/=; try reflexivity); invisible_at Hk.
Qed.

Lemma set_enabled_view u b t n (r : Reg) :
  stranger t u -> same_view u r (set_enabled b t n r).2.
Proof.
  intros Ht. pose proof (stranger_key _ _ n Ht) as Hk. unfold set_enabled, ownKey.
  repeat (case_match; simplify_eq/=; try reflexivity); invisible_at Hk.
Qed.

Lemma Unregister_view u t n (r : Reg) :
  stranger t u -> same_view u r (Unregister t n r).2.
Proof.
  intros Ht. pose proof (stranger_key _ _ n Ht) as Hk. unfold Unregister, ownKey.
  repeat (case_match; simplify_eq/=; try reflexivity); invisible_at Hk.
Qed.

(** Creating the instance of a configuration changes no view. *)
Lemma lazyInstantiate_view u key name c (r : Reg) :
  configs r !! key = Some c -> same_view u r (lazyInstantiate key name c r).2.
Proof.
  intros Hc. unfold lazyInstantiate.
  destruct (providers r !! key) eqn:Hp; [done|]. destruct c as [c|]; [|done].
  destruct (FactoryManager_Create _ c) as [p|] eqn:Hf; [|done].
  split; try done; intros k _; cbn.
  - unfold known. cbn. destruct (decide (k = key)) as [->|].
    + by rewrite Hc, lookup_insert_eq.
    + by rewrite lookup_insert_ne.
  - unfold instance. cbn. destruct (decide (k = key)) as [->|].
    + by rewrite Hp, Hc, lookup_insert_eq, Hf.
    + by rewrite lookup_insert_ne.
Qed.

Lemma get_lookup_config t n key c (r : Reg) :
  get_lookup t n r = FoundConfig key c ->
  configs r !! key = Some c /\ providers r !! key = None.
Proof. unfold get_lookup. repeat case_match; naive_solver. Qed.

Lemma Get_view u t n (r : Reg) : same_view u r (Get t n r).2.
Proof.
  unfold Get. destruct (get_lookup t n r) eqn:E; try done.
  apply get_lookup_config in E as [? _]. by apply lazyInstantiate_view.
Qed.

Lemma health_targets_split t k n p (r : Reg) :
  (k, n, p) ∈ health_targets t r ->
  splitScopeKey k = Some (normalizeTenant t, n) /\ providers r !! k = Some p.
Proof.
  unfold health_targets. rewrite list_elem_of_omap. intros ([k' p'] & Hin & E). cbn in E.
  apply elem_of_map_to_list in Hin. repeat case_match; simplify_eq.
  by match goal with H : str_eqb _ _ = true |- _ => apply str_eqb_true in H as -> end.
Qed.

Lemma health_sweep_view u check now lat ts (r : Reg) :
  Forall (fun kt => ~ visible u kt.1.1) ts ->
  same_view u r (health_sweep check now lat ts r).
Proof.
  intros Hts. revert r. induction Hts as [|kt ts Hk _ IH]; intros r; [done|].
  cbn. etrans; [|apply IH]. invisible_at Hk.
Qed.

Lemma HealthCheck_view u t check now lat (r : Reg) :
  stranger t u -> same_view u r (HealthCheck check now lat t r).2.
Proof.
  intros Ht. apply health_sweep_view, Forall_forall. intros [[k n] p] Hin.
  apply health_targets_split in Hin as [E _]. by eapply stranger_split.
Qed.

Lemma HealthCheckSingle_view u t n check now lat (r : Reg) :
  stranger t u -> same_view u r (HealthCheckSingle check now lat t n r).2.
Proof.
  intros Ht. pose proof (stranger_key _ _ n Ht) as Hk. unfold HealthCheckSingle, ownKey.
  case_match; [done|]. pose proof (Get_view u t n r) as Hv.
  destruct (Get t n r) as [[] r1]; cbn in *; try done.
  etrans; [done|]. invisible_at Hk.
Qed.

(** * Reads depend on the view only *)

#[export] Instance readKeyLocked_proper u n :
  no_nul u -> Proper (same_view u ==> eq) (fun r : Reg => readKeyLocked u n r).
Proof.
  intros Hu r1 r2 Hv. unfold readKeyLocked.
  rewrite (sv_known _ _ _ Hv (scopeKey u n)) by (by apply visible_own).
  by rewrite (sv_known _ _ _ Hv (scopeKey GlobalTenant n)) by apply visible_global.
Qed.

Lemma readKeyLocked_visible u n key (r : Reg) :
  no_nul u -> readKeyLocked u n r = Some key -> visible u key /\ known r key = true.
Proof.
  intros Hu. unfold readKeyLocked. repeat case_match; intros; simplify_eq;
    eauto using visible_own, visible_global.
Qed.

Lemma instance_none r key : instance r key = None -> providers r !! key = None.
Proof. unfold instance. by destruct (providers r !! key). Qed.

#[export] Instance Get_proper u n :
  no_nul u -> Proper (same_view u ==> eq) (fun r : Reg => (Get u n r).1).
Proof.
  intros Hu r1 r2 Hv. unfold Get, get_lookup.
  rewrite (readKeyLocked_proper u n Hu _ _ Hv).
  destruct (readKeyLocked u n r2) as [key|] eqn:E; [|done].
  apply readKeyLocked_visible in E as [Hvis _]; [|done].
  pose proof (sv_instance _ _ _ Hv key Hvis) as Hi.
  pose proof (sv_configs _ _ _ Hv key Hvis) as Hc.
  destruct (instance r2 key) as [p|] eqn:Hp.
  - unfold instance in Hp, Hi. rewrite Hc, (sv_factory _ _ _ Hv) in *.
    repeat (case_match; simplify_eq/=; try done);
      unfold lazyInstantiate; rewrite ?(sv_factory _ _ _ Hv);
      repeat (case_match; simplify_eq/=; try done).
  - apply instance_none in Hp, Hi. rewrite Hp, Hi, Hc.
    destruct (configs r2 !! key); [|done]. unfold lazyInstantiate.
    rewrite Hp, Hi, (sv_factory _ _ _ Hv). repeat case_match; done.
Qed.

#[export] Instance GetConfig_proper u n :
  no_nul u -> Proper (same_view u ==> eq) (fun r : Reg => GetConfig u n r).
Proof.
  intros Hu r1 r2 Hv. unfold GetConfig. rewrite (readKeyLocked_proper u n Hu _ _ Hv).
  destruct (readKeyLocked u n r2) as [key|] eqn:E; [|done].
  apply readKeyLocked_visible in E as [Hvis _]; [|done]. by rewrite (sv_configs _ _ _ Hv key).
Qed.

#[export] Instance GetHealthResult_proper u n :
  no_nul u -> Proper (same_view u ==> eq) (fun r : Reg => GetHealthResult u n r).
Proof.
  intros Hu r1 r2 Hv. unfold GetHealthResult. rewrite (readKeyLocked_proper u n Hu _ _ Hv).
  destruct (readKeyLocked u n r2) as [key|] eqn:E; [|done].
  apply readKeyLocked_visible in E as [Hvis _]; [|done]. by apply (sv_health _ _ _ Hv key).
Qed.

Lemma elem_of_names_of u keys n :
  n ∈ names_of u keys <-> exists key, key ∈ keys /\ visible_name u key = Some n.
Proof. unfold names_of. by rewrite elem_of_list_to_set, list_elem_of_omap. Qed.

(** Key lists that agree on what [u] may read give the same names. *)
Lemma names_of_ext u keys1 keys2 :
  (forall key, visible u key -> key ∈ keys1 <-> key ∈ keys2) ->
  names_of u keys1 = names_of u keys2.
Proof.
  intros H. apply set_eq. intros n. rewrite !elem_of_names_of.
  split; intros (key & Hin & E); exists key; split; try done; apply H; try done; unfold visible; eauto.
Qed.

Lemma elem_of_keys {A} (m : gmap string A) key :
  key ∈ (map_to_list m).*1 <-> is_Some (m !! key).
Proof.
  rewrite list_elem_of_fmap. split.
  - intros ([k a] & -> & Hin). apply elem_of_map_to_list in Hin. eauto.
  - intros [a Ha]. exists (key, a). by rewrite elem_of_map_to_list.
Qed.

Lemma known_true key (r : Reg) :
  known r key = true <-> is_Some (configs r !! key) \/ is_Some (providers r !! key).
Proof. unfold known. by rewrite orb_true_iff, !bool_decide_eq_true. Qed.

#[export] Instance List_proper u : Proper (same_view u ==> eq) (fun r : Reg => List_ u r).
Proof.
  intros r1 r2 Hv. unfold List_. f_equal. apply names_of_ext. intros key Hk.
  rewrite !elem_of_app, !elem_of_keys, <- !known_true. by rewrite (sv_known _ _ _ Hv key Hk).
Qed.

Lemma elem_of_filter_keys {A} (f : string * A -> bool) (m : gmap string A) key :
  key ∈ (List.filter f (map_to_list m)).*1 <-> exists a, m !! key = Some a /\ f (key, a) = true.
Proof.
  rewrite list_elem_of_fmap. split.
  - intros ([k a] & -> & Hin). apply list_elem_of_In, filter_In in Hin as [Hin Hf].
    apply list_elem_of_In, elem_of_map_to_list in Hin. eauto.
  - intros (a & Ha & Hf). exists (key, a). split; [done|].
    apply list_elem_of_In, filter_In. split; [|done]. by apply list_elem_of_In, elem_of_map_to_list.
Qed.

#[export] Instance GetHealthyProviders_proper u :
  Proper (same_view u ==> eq) (fun r : Reg => GetHealthyProviders u r).
Proof.
  intros r1 r2 Hv. unfold GetHealthyProviders. f_equal. apply names_of_ext. intros key Hk.
  rewrite !elem_of_filter_keys. by rewrite (sv_health _ _ _ Hv key Hk).
Qed.

Lemma visible_configs_sub u (r1 r2 : Reg) kc :
  same_view u r1 r2 -> kc ∈ visible_configs u r1 -> kc ∈ visible_configs u r2.
Proof.
  intros H. destruct kc as [k c]. unfold visible_configs. rewrite !list_elem_of_In, !filter_In.
  rewrite <- !list_elem_of_In, !elem_of_map_to_list. intros [Hin Hk]. split; [|done].
  bool_simpl. by rewrite <- (sv_configs _ _ _ H).
Qed.

Lemma visible_configs_ext u (r1 r2 : Reg) kc :
  same_view u r1 r2 -> kc ∈ visible_configs u r1 <-> kc ∈ visible_configs u r2.
Proof. intros H. split; apply visible_configs_sub; [done | by symmetry]. Qed.

Lemma existsb_ext_elem {A} (g : A -> bool) l1 l2 :
  (forall x, x ∈ l1 <-> x ∈ l2) -> existsb g l1 = existsb g l2.
Proof.
  intros H. apply Bool.eq_iff_eq_true. rewrite !existsb_exists.
  by setoid_rewrite <- list_elem_of_In; setoid_rewrite H.
Qed.

#[export] Instance list_where_proper f u :
  Proper (same_view u ==> eq) (fun r : Reg => list_where f u r).
Proof.
  intros r1 r2 Hv. unfold list_where.
  pose proof (fun kc => visible_configs_ext u _ _ kc Hv) as He.
  rewrite (existsb_ext_elem _ _ _ He).
  destruct (existsb _ _); [done|]. do 2 f_equal. apply names_of_ext. intros key _.
  rewrite !list_elem_of_fmap. f_equiv. intros kc. f_equiv.
  by rewrite !list_elem_of_In, !filter_In, <- !list_elem_of_In, He.
Qed.

(** * Isolation *)

(** The operations a tenant may ask for. *)
Inductive op :=
| ORegister (c : ProviderConfig)
| OUpdate (c : ProviderConfig)
| OEnable (t n : string)
| ODisable (t n : string)
| OUnregister (t n : string)
| OGet (t n : string)
| OHealthCheck (check : P -> result string HealthCheckResult) (now : Z) (lat : P -> Z) (t : string)
| OHealthCheckSingle (check : P -> result string HealthCheckResult) (now : Z) (lat : P -> Z)
    (t n : string).

Definition caller (o : op) : string :=
  match o with
  | ORegister c | OUpdate c => cfg_TenantID c
  | OEnable t _ | ODisable t _ | OUnregister t _ | OGet t _ => t
  | OHealthCheck _ _ _ t | OHealthCheckSingle _ _ _ t _ => t
  end.

Definition run_op (r : Reg) (o : op) : Reg :=
  match o with
  | ORegister c => (Register (Some c) r).2
  | OUpdate c => (Update (Some c) r).2
  | OEnable t n => (Enable t n r).2
  | ODisable t n => (Disable t n r).2
  | OUnregister t n => (Unregister t n r).2
  | OGet t n => (Get t n r).2
  | OHealthCheck check now lat t => (HealthCheck check now lat t r).2
  | OHealthCheckSingle check now lat t n => (HealthCheckSingle check now lat t n r).2
  end.

Lemma run_op_view u o (r : Reg) : stranger (caller o) u -> same_view u r (run_op r o).
Proof.
  unfold run_op, Enable, Disable. destruct o; cbn [caller]; intros; eauto using Register_view, Update_view, set_enabled_view,
    Unregister_view, Get_view, HealthCheck_view, HealthCheckSingle_view.
Qed.

Lemma run_ops_view u ops (r : Reg) :
  Forall (fun o => stranger (caller o) u) ops -> same_view u r (foldl run_op r ops).
Proof.
  intros H. revert r. induction H as [|o ops Ho _ IH]; intros r; cbn; [done|].
  etrans; [by apply run_op_view|]. apply IH.
Qed.

(** tenants are isolated: whatever other tenants register, update, enable,
    disable, remove, look up or check, every read of a tenant answers as before:
    the instance it gets, the configuration, the health, the lists of names. The
    deployment's own pool is such a tenant too, so a tenant cannot change what
    the router selects from. *)
Theorem registry_isolation u ops (r : Reg) :
  no_nul u -> Forall (fun o => stranger (caller o) u) ops ->
  let r' := foldl run_op r ops in
  (forall n, (Get u n r').1 = (Get u n r).1 /\ GetConfig u n r' = GetConfig u n r /\
     GetHealthResult u n r' = GetHealthResult u n r /\ Has u n r' = Has u n r /\
     OwnsProvider u n r' = OwnsProvider u n r) /\
  List_ u r' = List_ u r /\ ListEnabled u r' = ListEnabled u r /\
  (forall t, ListByType u t r' = ListByType u t r) /\
  GetHealthyProviders u r' = GetHealthyProviders u r.
Proof.
  intros Hu H. pose proof (run_ops_view u ops r H) as Hv. cbn zeta. symmetry in Hv.
  split; [intros n; split_and!|split_and!].
  - by apply Get_proper.
  - by apply GetConfig_proper.
  - by apply GetHealthResult_proper.
  - unfold Has. by rewrite (readKeyLocked_proper u n Hu _ _ Hv).
  - apply (sv_known _ _ _ Hv). by apply visible_own.
  - by apply List_proper.
  - by apply list_where_proper.
  - intros t. by apply list_where_proper.
  - by apply GetHealthyProviders_proper.
Qed.

(** * The limit *)

(** The count of [Register] is the number of keys in either table. *)
Lemma currentCount_union (r : Reg) :
  currentCount r = Z.of_nat (size (dom (configs r) ∪ dom (providers r))).
Proof.
  unfold currentCount. rewrite <- !size_dom, size_union_alt.
  assert (size (dom (filter (fun kv => is_Some (configs r !! kv.1)) (providers r)))
          + size (dom (providers r) ∖ dom (configs r)) = size (dom (providers r)))%nat as E.
  { rewrite <- size_union.
    - f_equal. apply set_eq. intros k. rewrite elem_of_union, elem_of_difference, !elem_of_dom.
      split.
      + intros [[x Hx%map_lookup_filter_Some]|[]]; naive_solver.
      + intros [p Hp]. destruct (decide (is_Some (configs r !! k))); [left|right; naive_solver].
        exists p. by apply map_lookup_filter_Some.
    - intros k. rewrite elem_of_difference, !elem_of_dom.
      intros [x Hx%map_lookup_filter_Some] [_ Hn]. naive_solver. }
  lia.
Qed.

(** A registration never takes the deployment above its licensed number. *)
Theorem Register_limit config (r : Reg) :
  0 < maxProviders r -> currentCount r <= maxProviders r ->
  currentCount (Register config r).2 <= maxProviders r.
Proof.
  intros Hm Hc. unfold Register. destruct (precheck config) as [c|]; [|done].
  destruct (maxProviders r >? 0) eqn:E1; [|lia]. destruct (_ >=? _) eqn:E2; cbn; [done|].
  assert (currentCount r < maxProviders r) by lia.
  assert (forall st, currentCount (set_storage st (set_configs (<[scopeKey (cfg_TenantID c)
    (cfg_Name c) := Some c]> (configs r)) r)) <= maxProviders r) as Hins.
  { intros st. rewrite currentCount_union in *. cbn.
    rewrite dom_insert_L, <- (assoc_L (∪)).
    rewrite size_union_alt, size_singleton.
    assert (forall X Y : gset string, (size (X ∖ Y) <= size X)%nat) as Hle.
    { intros X Y. apply subseteq_size. set_solver. }
    specialize (Hle (dom (configs r) ∪ dom (providers r))
                 {[scopeKey (cfg_TenantID c) (cfg_Name c)]}). lia. }
  repeat (case_match; simplify_eq/=; try done).
  all: try apply (Hins (storage r)); try apply Hins.
  rewrite currentCount_union in *. cbn. rewrite delete_insert_id by done. done.
Qed.

(** * Updates *)

Lemma precheck_ok config c : precheck config = Ok c -> config = Some c.
Proof. unfold precheck. intros. repeat case_match; congruence. Qed.

Lemma readKeyLocked_own t n (r : Reg) :
  known r (scopeKey t n) = true -> readKeyLocked t n r = Some (scopeKey t n).
Proof. unfold readKeyLocked. by intros ->. Qed.

Definition keyOf (c : ProviderConfig) : string := scopeKey (cfg_TenantID c) (cfg_Name c).

(** What the first look-up of a freshly configured provider answers. *)
Definition created (r : Reg) (c : ProviderConfig) : outcome P :=
  match FactoryManager_Create (factory r) c with
  | Ok p => Ret p
  | Err e => let t := FactoryError_Error e in
      Fail (mkRegistryError (cfg_Name c) ErrRegistryCreationFailed
              ("failed to create provider: " +:+ t) (Some t))
  end.

Lemma Get_fresh t n c (r : Reg) :
  configs r !! scopeKey t n = Some (Some c) -> providers r !! scopeKey t n = None ->
  cfg_Name c = n -> (Get t n r).1 = created r c.
Proof.
  intros Hc Hp <-. unfold Get, get_lookup.
  rewrite readKeyLocked_own by (apply known_true; left; by rewrite Hc).
  rewrite Hp, Hc. unfold lazyInstantiate, created. rewrite Hp.
  by destruct (FactoryManager_Create _ _).
Qed.

(** a successful update replaces the configuration, drops the old instance
    and its health result, and the next look-up builds the provider from the
    new configuration; when the store refuses, nothing of the registry changes
    if the provider had a configuration. *)
Theorem Update_atomic c (r : Reg) o r' :
  Update (Some c) r = (o, r') ->
  (o = Ret tt /\ configs r' = <[keyOf c := Some c]> (configs r) /\
   providers r' = delete (keyOf c) (providers r) /\
   healthResults r' = delete (keyOf c) (healthResults r) /\
   (Get (cfg_TenantID c) (cfg_Name c) r').1 = created r c)
  \/ ((exists e, o = Fail e) /\
      (is_Some (configs r !! keyOf c) ->
       configs r' = configs r /\ providers r' = providers r /\
       healthResults r' = healthResults r)).
Proof.
  unfold Update, ownKey. fold (keyOf c).
  destruct (precheck _) as [c'|e] eqn:E; [|intros; simplify_eq; right; eauto].
  apply precheck_ok in E as [= ->]. fold (keyOf c').
  destruct (known r (keyOf c')) eqn:Hk; cbn [negb]; [|intros; simplify_eq; right; eauto].
  assert (forall st, let r1 := set_health (delete (keyOf c') (healthResults r)) (set_storage st
    (set_configs (<[keyOf c':=Some c']> (configs r))
       (set_providers (delete (keyOf c') (providers r)) r))) in
    (Get (cfg_TenantID c') (cfg_Name c') r1).1 = created r c') as HG.
  { intros st r1. rewrite (Get_fresh _ _ c'); cbn; [done| | |done].
    - apply lookup_insert_eq.
    - apply lookup_delete_eq. }
  cbn [storage set_configs set_providers].
  destruct (storage r) as [st|] eqn:Hs; cbn in *.
  - destruct (SaveProvider c' st) as [[e|] st']; cbn; intros; simplify_eq.
    + right. split; [eauto|]. intros [x Hx]. rewrite Hx. cbn.
      assert (<[keyOf c' := x]> (<[keyOf c' := Some c']> (configs r)) = configs r) as Hid.
      { by rewrite insert_insert_eq, insert_id. }
      destruct (providers r !! keyOf c') as [p|] eqn:Hp; cbn; (split_and!; [done| |done]).
      * by rewrite insert_delete_eq, insert_id.
      * by rewrite delete_id.
    + left. by split_and!.
  - intros; simplify_eq. left. split_and!; try done. apply (HG (storage r)).
Qed.

(** An instance registered without a configuration whose update the store
    refuses is left with a nil configuration: from then on listing the enabled
    providers of any tenant that sees it, reading its configuration and enabling
    it panic. *)
Theorem Update_rollback_nil u c (r : Reg) st e st' p :
  precheck (Some c) = Ok c ->
  configs r !! keyOf c = None -> providers r !! keyOf c = Some p ->
  storage r = Some st -> SaveProvider c st = (Some e, st') -> visible u (keyOf c) ->
  let r' := (Update (Some c) r).2 in
  ListEnabled u r' = Panic /\ GetConfig (cfg_TenantID c) (cfg_Name c) r' = Panic /\
  (Enable (cfg_TenantID c) (cfg_Name c) r').1 = Panic.
Proof.
  intros Hpre Hc Hp Hs He Hv. unfold Update, ownKey. rewrite Hpre. fold (keyOf c).
  replace (known r (keyOf c)) with true by (symmetry; apply known_true; right; by rewrite Hp).
  cbn. rewrite Hs, He, Hc, Hp. cbn. split_and!.
  - unfold ListEnabled, list_where, visible_configs. cbn.
    replace (existsb _ _) with true; [done|]. symmetry. apply existsb_exists.
    exists (keyOf c, None). split; [|done]. apply filter_In. split; [|by apply bool_decide_eq_true].
    apply list_elem_of_In, elem_of_map_to_list. apply lookup_insert_eq.
  - unfold GetConfig. rewrite readKeyLocked_own.
    + fold (keyOf c). cbn. by rewrite lookup_insert_eq.
    + apply known_true. left. cbn. fold (keyOf c). by rewrite lookup_insert_eq.
  - unfold Enable, set_enabled, ownKey. fold (keyOf c). cbn. by rewrite lookup_insert_eq.
Qed.

(** * A look-up that overlaps an update or a removal

    [Get] releases the read lock between finding the configuration and creating
    the instance. *)

Lemma get_lookup_fresh t n c (r : Reg) :
  configs r !! scopeKey t n = Some (Some c) -> providers r !! scopeKey t n = None ->
  get_lookup t n r = FoundConfig (scopeKey t n) (Some c).
Proof.
  intros Hc Hp. unfold get_lookup.
  rewrite readKeyLocked_own by (apply known_true; left; by rewrite Hc). by rewrite Hp, Hc.
Qed.

(** An instance, once in the table, is what every look-up returns. *)
Lemma Get_instance t n p (r : Reg) :
  providers r !! scopeKey t n = Some p -> Get t n r = (Ret p, r).
Proof.
  intros Hp. unfold Get, get_lookup.
  rewrite readKeyLocked_own by (apply known_true; right; by rewrite Hp). by rewrite Hp.
Qed.

(** when an update runs between the two critical sections of a look-up, the
    look-up installs an instance of the configuration that was replaced: the
    registry reports the new configuration and every later look-up answers with
    the old instance. When a removal runs there, the removed provider comes back
    without a configuration. *)
Theorem lookup_races t n c0 c p0 (r : Reg) o r1 r2 :
  cfg_TenantID c = t -> cfg_Name c = n ->
  configs r !! scopeKey t n = Some (Some c0) -> providers r !! scopeKey t n = None ->
  FactoryManager_Create (factory r) c0 = Ok p0 ->
  Update (Some c) r = (Ret o, r1) -> Unregister t n r = (Ret o, r2) ->
  get_lookup t n r = FoundConfig (scopeKey t n) (Some c0) /\
  (let r' := (lazyInstantiate (scopeKey t n) n (Some c0) r1).2 in
   GetConfig t n r' = Ret c /\ Get t n r' = (Ret p0, r')) /\
  (let r' := (lazyInstantiate (scopeKey t n) n (Some c0) r2).2 in
   OwnsProvider t n r' = true /\ GetConfig t n r' = Fail (config_not_found n) /\
   Get t n r' = (Ret p0, r')).
Proof.
  intros Ht Hn Hc Hp Hf HU HR. split; [by apply get_lookup_fresh|].
  assert (forall r' : Reg, factory r' = factory r -> providers r' !! scopeKey t n = None ->
    (lazyInstantiate (scopeKey t n) n (Some c0) r').2
    = set_providers (<[scopeKey t n := p0]> (providers r')) r') as Hlazy.
  { intros r' F1 P1. unfold lazyInstantiate. by rewrite P1, F1, Hf. }
  split.
  - assert (factory r1 = factory r) as F1.
    { revert HU. unfold Update. repeat (case_match; simplify_eq/=; try done). all: by intros [= _ <-]. }
    destruct (Update_atomic _ _ _ _ HU) as [(_ & C1 & P1 & _)|[[e [=]] _]].
    unfold keyOf in *. rewrite Ht, Hn in *.
    rewrite Hlazy by (by rewrite ?P1, ?lookup_delete_eq). split.
    + unfold GetConfig. rewrite readKeyLocked_own; cbn; rewrite ?C1, ?lookup_insert_eq; [done|].
      apply known_true. right. cbn. by rewrite lookup_insert_eq.
    + apply Get_instance. cbn. apply lookup_insert_eq.
  - revert HR. unfold Unregister, ownKey.
    replace (known r (scopeKey t n)) with true
      by (symmetry; apply known_true; left; by rewrite Hc).
    cbn. rewrite Hc. cbn. intros [= _ <-].
    rewrite Hlazy.
    2: { repeat case_match; done. }
    2: { cbn. repeat case_match; cbn; apply lookup_delete_eq. }
    split_and!.
    + apply known_true. right. cbn. by rewrite lookup_insert_eq.
    + unfold GetConfig. rewrite readKeyLocked_own; cbn; rewrite ?lookup_delete_eq; [done|].
      apply known_true. right. cbn. by rewrite lookup_insert_eq.
    + apply Get_instance. cbn. apply lookup_insert_eq.
Qed.

(** Without an overlap a look-up leaves an instance of the current
    configuration. *)
Lemma Get_current t n c p (r : Reg) :
  configs r !! scopeKey t n = Some (Some c) -> providers r !! scopeKey t n = None ->
  FactoryManager_Create (factory r) c = Ok p ->
  Get t n r = (Ret p, set_providers (<[scopeKey t n := p]> (providers r)) r).
Proof.
  intros Hc Hp Hf. unfold Get. rewrite (get_lookup_fresh _ _ c) by done.
  unfold lazyInstantiate. by rewrite Hp, Hf.
Qed.

(** * Reload *)

(** A reload never adds to the deployment's pool, and never to the view of a
    tenant other than the owner of the row: a row without a tenant is refused. *)
Theorem reload_keeps_view u (r : Reg) :
  (forall st n c, storage r = Some st -> GetProvider n st = Ok c -> cfg_TenantID c <> "" ->
     stranger (cfg_TenantID c) u) ->
  same_view u r (ReloadFromStorage r).2.
Proof.
  intros H. unfold ReloadFromStorage. destruct (storage r) as [st|] eqn:Hs; [|done].
  destruct (ListAllProviders st) as [names|]; [|done]. cbn.
  assert (forall r0 : Reg, same_view u r0 (foldl (reload_one st) r0 names)) as HF; [|apply HF].
  induction names as [|n names IH]; intros r0; cbn; [done|]. etrans; [|apply IH].
  unfold reload_one. destruct (GetProvider n st) as [c|] eqn:Hg; [|done].
  destruct (str_eqb (cfg_TenantID c) "") eqn:E; [done|].
  assert (stranger (cfg_TenantID c) u) as Ht.
  { apply (H st n); [done|done|]. by apply str_eqb_false. }
  pose proof (stranger_key _ _ n Ht) as Hk. case_match; [done|]. invisible_at Hk.
Qed.
End Facts.

(** * The PostgreSQL store under the registry *)

Section Postgres.
Context `{Q : GoQuote} `{K : SettingsCodec} {P : Type}.

(** The store outside a scoped transaction selects no row: a reload of a
    registry over PostgreSQL loads nothing, whatever was saved. *)
Theorem postgres_reload_loads_nothing (r : Registry P PostgresStorage) st :
  storage r = Some st -> pg_session_org st = None -> (ReloadFromStorage r).2 = r.
Proof.
  intros Hs Ho. unfold ReloadFromStorage. rewrite Hs. cbn. unfold pg_ListAllProviders.
  by destruct (pg_up st); rewrite ?Ho.
Qed.

(** What is saved is what the owner's scope reads back. *)
Theorem postgres_save_get c st st' :
  pg_SaveProvider c st = (None, st') ->
  pg_GetProvider (cfg_Name c) (mkPostgres (pg_up st') (Some (cfg_TenantID c)) (pg_rows st'))
  = Ok (with_Settings (match codec (cfg_Settings c) with Ok s => s | Err _ => None end) c).
Proof.
  unfold pg_SaveProvider. case_match; [done|]. destruct (codec _) as [s|]; [|done].
  destruct (pg_up st) eqn:Hu; [|done]. intros [= <-]. unfold pg_GetProvider. cbn.
  by rewrite Hu, lookup_insert_eq.
Qed.
End Postgres.

(** * Concrete registries

    Providers are the configurations they were made from, and two types have a
    factory. *)
Module Demo.
#[export] Existing Instance plain_quote.
#[export] Existing Instance CommunityLicenseValidator.
#[export] Instance cfg_provider : Provider ProviderConfig := {|
  Name := cfg_Name; Type_ := cfg_Type; EstimateCost _ _ := None |}.
#[export] Instance demo_codec : SettingsCodec := {| codec s := Ok s |}.

Definition fm : FactoryManager ProviderConfig :=
  FactoryManager_Register ProviderTypeOllama (fun c => Ok c)
    (FactoryManager_Register ProviderTypeOpenAI (fun c => Ok c) NewFactoryManager).

Definition cfg (tenant name model : string) : ProviderConfig :=
  mkConfig name ProviderTypeOllama "" "" "" model "" true 0 50 0 0 None tenant.

Definition reg0 : Registry ProviderConfig PostgresStorage := NewRegistry None fm 0.
Definition reg1 := (Register (Some (cfg "acme" "llm" "small")) reg0).2.
Definition reg2 := (Register (Some (cfg "" "shared" "large")) reg1).2.
End Demo.

Import Demo.

Lemma registry_isolation_witness :
  let ops := [ORegister (cfg "globex" "llm" "other"); OGet "globex" "shared";
              OUnregister "globex" "llm"; OUnregister "globex" "shared"] in
  let r' := foldl run_op reg2 ops in
  (Get "acme" "llm" r').1 = Ret (cfg "acme" "llm" "small") /\ List_ "acme" r' = ["llm"; "shared"].
Proof.
  intros ops r'.
  destruct (registry_isolation "acme" ops reg2) as (Hn & Hl & _).
  - by apply (bool_decide_unpack _).
  - repeat constructor; try done; by apply (bool_decide_unpack _).
  - split.
    + etrans; [apply (Hn "llm")|]. by vm_compute.
    + etrans; [apply Hl|]. by vm_compute.
Defined.

Lemma Update_atomic_witness :
  Update (Some (cfg "acme" "llm" "big")) reg2
  = (Ret tt, (Update (Some (cfg "acme" "llm" "big")) reg2).2) /\
  (Get "acme" "llm" (Update (Some (cfg "acme" "llm" "big")) reg2).2).1
  = Ret (cfg "acme" "llm" "big").
Proof.
  assert (Update (Some (cfg "acme" "llm" "big")) reg2
    = (Ret tt, (Update (Some (cfg "acme" "llm" "big")) reg2).2)) as HU by (by vm_compute).
  split; [exact HU|].
  destruct (Update_atomic _ _ _ _ HU) as [(_ & _ & _ & _ & G)|[[e [=]] _]]. exact G.
Defined.

Lemma lookup_races_witness :
  let r1 := (Update (Some (cfg "acme" "llm" "big")) reg2).2 in
  let r' := (lazyInstantiate (scopeKey "acme" "llm") "llm" (Some (cfg "acme" "llm" "small")) r1).2 in
  GetConfig "acme" "llm" r' = Ret (cfg "acme" "llm" "big") /\
  (Get "acme" "llm" r').1 = Ret (cfg "acme" "llm" "small").
Proof.
  intros r1 r'.
  destruct (lookup_races "acme" "llm" (cfg "acme" "llm" "small") (cfg "acme" "llm" "big")
    (cfg "acme" "llm" "small") reg2 tt r1 (Unregister "acme" "llm" reg2).2)
    as (_ & [H1 H2] & _).
  1-7: by vm_compute.
  split; [exact H1|]. fold r' in H2. by rewrite H2.
Defined.
