(* ===== verification/LlmRouter.v ===== *)
(** LLM routing, src/platform/orchestrator/llm/routing_strategy.go and router.go:
    the three selection strategies in float64, the choice of a provider from the
    deployment's pool and the failover of [RouteRequest].

    Random numbers, the order in which a map is ranged over, the clock and the
    answers of the providers are arguments. Every call to a provider is recorded
    in a trace. *)

From S2P Require Import Prelude GoStrings GoStrconv GoFloat LlmTypes LlmRegistry LlmRegistryFacts.
From Stdlib Require Import SpecFloat.

Local Open Scope Z_scope.

(** * Strategies (routing_strategy.go) *)

Definition RoutingStrategy := string.
Definition RoutingStrategyWeighted : RoutingStrategy := "weighted".
Definition RoutingStrategyRoundRobin : RoutingStrategy := "round_robin".
Definition RoutingStrategyFailover : RoutingStrategy := "failover".

Definition ValidRoutingStrategies : list RoutingStrategy :=
  [RoutingStrategyWeighted; RoutingStrategyRoundRobin; RoutingStrategyFailover].

Definition IsValidRoutingStrategy (s : string) : bool :=
  existsb (str_eqb s) ValidRoutingStrategies.

(** The draws of one selection from math/rand. *)
Record draws := mkDraws { Float64 : float64; Intn : nat -> nat }.

(** The counter of the round robin is a uint64. *)
Record ProviderSelector := mkSelector {
  strategy : RoutingStrategy;
  defaultProvider : string;
  roundRobinIndex : Z }.

Definition NewProviderSelector (s : RoutingStrategy) (d : string) : ProviderSelector :=
  mkSelector s d 0.
Definition SetStrategy s ps := mkSelector s (defaultProvider ps) (roundRobinIndex ps).
Definition SetDefaultProvider d ps := mkSelector (strategy ps) d (roundRobinIndex ps).

Definition two64 : Z := 18446744073709551616.

(** The conversion of a uint64 to int. *)
Definition int_of_uint64 (n : Z) : Z := if n <? 9223372036854775808 then n else n - two64.

(** Indexing a slice; [None] is the run-time panic. *)
Definition at_index {A} (l : list A) (i : Z) : option A :=
  if i <? 0 then None else l !! Z.to_nat i.

Definition selectRoundRobin (healthy : list string) (ps : ProviderSelector) :
  option string * ProviderSelector :=
  let index := roundRobinIndex ps in
  (at_index healthy (Z.rem (int_of_uint64 index) (Z.of_nat (length healthy))),
   mkSelector (strategy ps) (defaultProvider ps) ((index + 1) mod two64)).

Definition weight_of (weights : gmap string float64) (p : string) : float64 :=
  default f64_one (weights !! p).

(** The loop of the weighted choice. *)
Fixpoint pick (weight : string -> float64) (r : float64) (l : list string) : option string :=
  match l with
  | [] => None
  | p :: l' => let r' := f64_sub r (weight p) in
               if f64_leb r' f64_zero then Some p else pick weight r' l'
  end.

Definition selectWeighted (rnd : draws) (healthy : list string) (weights : gmap string float64) :
  option string :=
  let totalWeight := foldl (fun t p => f64_add t (weight_of weights p)) f64_zero healthy in
  if SFeqb totalWeight f64_zero then healthy !! Intn rnd (length healthy)
  else match pick (weight_of weights) (f64_mul (Float64 rnd) totalWeight) healthy with
       | Some p => Some p
       | None => healthy !! 0%nat
       end.

(** The heaviest provider of the list so far. *)
Definition heavier (weights : gmap string float64) (best : float64 * string) (p : string) :
  float64 * string :=
  match weights !! p with
  | Some w => if f64_ltb best.1 w then (w, p) else best
  | None => best
  end.

Definition selectFailover (d : string) (healthy : list string) (weights : gmap string float64) :
  option string :=
  if negb (str_eqb d "") && existsb (str_eqb d) healthy then Some d
  else
    let h := (foldl (heavier weights) (f64_zero, "") healthy).2 in
    if negb (str_eqb h "") then Some h else healthy !! 0%nat.

(** [Some ""] is the answer for no providers; [None] a panic. *)
Definition SelectProvider (rnd : draws) (healthy : list string) (weights : gmap string float64)
  (ps : ProviderSelector) : option string * ProviderSelector :=
  match healthy with
  | [] => (Some "", ps)
  | _ =>
      if str_eqb (strategy ps) RoutingStrategyRoundRobin then selectRoundRobin healthy ps
      else if str_eqb (strategy ps) RoutingStrategyFailover then
        (selectFailover (defaultProvider ps) healthy weights, ps)
      else (selectWeighted rnd healthy weights, ps)
  end.

(** [routerLoadBalancer.selectProvider]: a missing weight counts as zero. *)
Definition lb_selectProvider (rnd : draws) (providers : list string)
  (weights : gmap string float64) : option string :=
  let weight p := default f64_zero (weights !! p) in
  let totalWeight := foldl (fun t p => f64_add t (weight p)) f64_zero providers in
  match pick weight (f64_mul (Float64 rnd) totalWeight) providers with
  | Some p => Some p
  | None => providers !! 0%nat
  end.

(** * Metrics of the router *)

Record RouteMetrics := mkRouteMetrics {
  rm_RequestCount : Z; rm_ErrorCount : Z; rm_AvgResponseTime : float64 }.

Definition zero_metrics : RouteMetrics := mkRouteMetrics 0 0 f64_zero.
Definition routerMetricsTracker := gmap string RouteMetrics.

(** Durations are nanoseconds. *)
Definition Milliseconds (d : Z) : Z := Z.quot d 1000000.

Definition router_recordSuccess (p : string) (latency : Z) (t : routerMetricsTracker) :=
  let m := default zero_metrics (t !! p) in
  let n := rm_RequestCount m + 1 in
  let totalMs := f64_add (f64_mul (f64_of_Z (n - 1)) (rm_AvgResponseTime m))
                         (f64_of_Z (Milliseconds latency)) in
  <[p := mkRouteMetrics n (rm_ErrorCount m) (f64_div totalMs (f64_of_Z n))]> t.

Definition router_recordError (p : string) (t : routerMetricsTracker) :=
  let m := default zero_metrics (t !! p) in
  <[p := mkRouteMetrics (rm_RequestCount m) (rm_ErrorCount m + 1) (rm_AvgResponseTime m)]> t.

Definition getMetrics (p : string) (t : routerMetricsTracker) : RouteMetrics :=
  default zero_metrics (t !! p).

(** * The router (router.go) *)

Section Router.
Context `{Q : GoQuote} {P : Type} {St : Type} `{I : Provider P} `{V : LicenseValidator}
  `{S : Storage St}.
#[local] Abbreviation Reg := (Registry P St).

Record Router := mkRouter {
  rt_registry : Reg;
  rt_metrics : routerMetricsTracker;
  rt_selector : option ProviderSelector;
  rt_defaultWeights : gmap string float64 }.

Definition set_registry x r := mkRouter x (rt_metrics r) (rt_selector r) (rt_defaultWeights r).
Definition set_metrics x r := mkRouter (rt_registry r) x (rt_selector r) (rt_defaultWeights r).
Definition set_selector x r := mkRouter (rt_registry r) (rt_metrics r) x (rt_defaultWeights r).
Definition SetDefaultWeights x r := mkRouter (rt_registry r) (rt_metrics r) (rt_selector r) x.

(** [NewRouterFromConfig]: the selector of the configured strategy. *)
Definition NewRouterFromConfig (reg : Reg) (weights : gmap string float64)
  (s : RoutingStrategy) (d : string) : Router :=
  mkRouter reg ∅ (Some (NewProviderSelector (if str_eqb s "" then RoutingStrategyWeighted else s) d))
    weights.

Record routeOptions := mkRouteOptions {
  preferredProvider : string;
  ro_weights : gmap string float64;
  disableFailover : bool;
  allowedProviders : list string }.

Record RouteInfo := mkRouteInfo {
  ri_ProviderName : string;
  ri_ProviderType : ProviderType;
  ri_Model : string;
  ri_ResponseTimeMs : Z;
  ri_TokensUsed : Z;
  ri_EstimatedCost : float64 }.

(** [order] is the order in which the ranges over the map of weights visit its
    entries when their sum is formed. *)
Definition overriding (w over : gmap string float64) : gmap string float64 :=
  map_imap (fun p x => Some (default x (over !! p))) w.

Definition getWeights (order : gmap string float64 -> list string) (providers : list string)
  (overrides : gmap string float64) (r : Router) : gmap string float64 :=
  let equalWeight := f64_div f64_one (f64_of_Z (Z.of_nat (length providers))) in
  let w := list_to_map ((fun p => (p, equalWeight)) <$> providers) in
  let w := overriding w (rt_defaultWeights r) in
  let w := overriding w overrides in
  let total := foldl (fun t p => f64_add t (default f64_zero (w !! p))) f64_zero (order w) in
  if f64_ltb f64_zero total then (fun x => f64_div x total) <$> w else w.

Inductive select_error :=
| RegistryFailure (e : RegistryError)
| NoCompliantProviders (allowed : list string)
| NoProviders
| SelectionFailed.

Inductive selected := Selected (p : P) | NotSelected (e : select_error) | SelectPanic.

Definition allowed_by (allowed : list string) (name : string) : bool :=
  match allowed with [] => true | _ => existsb (str_eqb name) allowed end.

(** The names the selector chooses from; [None] is a panic of the registry. *)
Definition candidates (opts : routeOptions) (reg : Reg) : option (list string) :=
  let keep := List.filter (allowed_by (allowedProviders opts)) in
  match GetHealthyProviders GlobalTenant reg with
  | [] => match ListEnabled GlobalTenant reg with
          | Ret l => Some (keep l)
          | _ => None
          end
  | l => Some (keep l)
  end.

(** [Get] in the deployment's pool, threaded through the router. *)
Definition pool_Get (name : string) (r : Router) : outcome P * Router :=
  let (o, reg) := Get GlobalTenant name (rt_registry r) in (o, set_registry reg r).

(** The choice among the candidates. *)
Definition choose (rnd : draws) (order : gmap string float64 -> list string)
  (opts : routeOptions) (names : list string) (r : Router) : option string * Router :=
  let weights := getWeights order names (ro_weights opts) r in
  match rt_selector r with
  | Some ps => let (s, ps') := SelectProvider rnd names weights ps in (s, set_selector (Some ps') r)
  | None => (lb_selectProvider rnd names weights, r)
  end.

(** Selection from the pool, after the preferred provider was not used. *)
Definition select_from_pool (rnd : draws) (order : gmap string float64 -> list string)
  (opts : routeOptions) (r : Router) : selected * Router :=
  match candidates opts (rt_registry r) with
  | None => (SelectPanic, r)
  | Some [] =>
      (NotSelected (match allowedProviders opts with
                    | [] => NoProviders | l => NoCompliantProviders l end), r)
  | Some names =>
      match choose rnd order opts names r with
      | (None, r1) => (SelectPanic, r1)
      | (Some name, r1) =>
          if str_eqb name "" then (NotSelected SelectionFailed, r1)
          else match pool_Get name r1 with
          | (Ret p, r2) => (Selected p, r2)
          | (Fail e, r2) => (NotSelected (RegistryFailure e), r2)
          | (Panic, r2) => (SelectPanic, r2)
          end
      end
  end.

Definition selectProvider (rnd : draws) (order : gmap string float64 -> list string)
  (opts : routeOptions) (r : Router) : selected * Router :=
  if negb (str_eqb (preferredProvider opts) "")
     && allowed_by (allowedProviders opts) (preferredProvider opts) then
    match pool_Get (preferredProvider opts) r with
    | (Ret p, r1) => (Selected p, r1)
    | (Panic, r1) => (SelectPanic, r1)
    | (Fail _, r1) => select_from_pool rnd order opts r1
    end
  else select_from_pool rnd order opts r.

(** [None] is no fallback. *)
Definition getFallbackProvider (failed : string) (allowed : list string) (r : Router) :
  option (outcome P) * Router :=
  match List.find (fun n => negb (str_eqb n failed) && allowed_by allowed n)
          (GetHealthyProviders GlobalTenant (rt_registry r)) with
  | None => (None, r)
  | Some n => let (o, r1) := pool_Get n r in (Some o, r1)
  end.

Inductive route_error :=
| SelectFailed (e : select_error)
| AllProvidersFailed (cause : string)
| NoCompliantFallback (allowed : list string) (cause : string)
| NoFallback (cause : string)
| ProviderFailed (cause : string).

Inductive routed :=
| Routed (resp : CompletionResponse) (info : RouteInfo)
| RouteFailed (e : route_error)
| RoutePanic.

Definition estimated_cost (p : P) (req : CompletionRequest) (u : UsageStats) : float64 :=
  match EstimateCost p req with
  | None => f64_zero
  | Some e =>
      if (PromptTokens u >? 0) || (CompletionTokens u >? 0) then
        CalculateCost (PromptTokens u) (CompletionTokens u) (InputCostPer1K e) (OutputCostPer1K e)
      else if TotalTokens u >? 0 then
        let half := Z.quot (TotalTokens u) 2 in
        CalculateCost half (TotalTokens u - half) (InputCostPer1K e) (OutputCostPer1K e)
      else TotalEstimate e
  end.

(** The world of one request: the answer of a provider may depend on the calls
    made before; [elapsed] is the measured time. *)
Record world := mkWorld {
  Complete : list P -> P -> CompletionRequest -> result string CompletionResponse;
  elapsed : Z }.

Definition succeed (w : world) (req : CompletionRequest) (p : P) (resp : CompletionResponse)
  (r : Router) : routed * Router :=
  (Routed resp (mkRouteInfo (Name p) (Type_ p) (resp_Model resp) (Milliseconds (elapsed w))
                  (TotalTokens (resp_Usage resp)) (estimated_cost p req (resp_Usage resp))),
   set_metrics (router_recordSuccess (Name p) (elapsed w) (rt_metrics r)) r).

Definition note_error (p : P) (r : Router) : Router :=
  set_metrics (router_recordError (Name p) (rt_metrics r)) r.

(** The result, the router after it and the providers called, in order. *)
Definition RouteRequest (rnd : draws) (order : gmap string float64 -> list string)
  (w : world) (req : CompletionRequest) (opts : routeOptions) (r : Router) :
  routed * Router * list P :=
  match selectProvider rnd order opts r with
  | (SelectPanic, r1) => (RoutePanic, r1, [])
  | (NotSelected e, r1) => (RouteFailed (SelectFailed e), r1, [])
  | (Selected p, r1) =>
      match Complete w [] p req with
      | Ok resp => (succeed w req p resp r1, [p])
      | Err cause =>
          let r2 := note_error p r1 in
          if disableFailover opts then (RouteFailed (ProviderFailed cause), r2, [p])
          else match getFallbackProvider (Name p) (allowedProviders opts) r2 with
          | (Some (Ret q), r3) =>
              match Complete w [p] q req with
              | Ok resp => (succeed w req q resp r3, [p; q])
              | Err cause' => (RouteFailed (AllProvidersFailed cause'), note_error q r3, [p; q])
              end
          | (Some Panic, r3) => (RoutePanic, r3, [p])
          | (_, r3) =>
              (RouteFailed (match allowedProviders opts with
                            | [] => NoFallback cause
                            | l => NoCompliantFallback l cause end), r3, [p])
          end
      end
  end.

(** * Status *)

Record ProviderStatus := mkProviderStatus {
  ps_Name : string; ps_Type : ProviderType; ps_Enabled : bool; ps_Priority : Z; ps_Weight : Z;
  ps_RateLimit : Z; ps_RoutingWeight : float64; ps_Health : option HealthCheckResult;
  ps_Metrics : RouteMetrics }.

(** The entry of one name; [None] where the loop continues without one. *)
Definition status_of (r : Router) (name : string) : outcome ProviderStatus :=
  match GetConfig GlobalTenant name (rt_registry r) with
  | Ret c => Ret (mkProviderStatus name (cfg_Type c) (cfg_Enabled c) (cfg_Priority c) (cfg_Weight c)
      (cfg_RateLimit c) (default f64_zero (rt_defaultWeights r !! name))
      (GetHealthResult GlobalTenant name (rt_registry r)) (getMetrics name (rt_metrics r)))
  | Fail e => Fail e
  | Panic => Panic
  end.

Definition is_panic {A} (o : outcome A) : bool := match o with Panic => true | _ => false end.
Definition returned {A} (o : outcome A) : option A := match o with Ret a => Some a | _ => None end.

Definition GetProviderStatus (r : Router) : outcome (list ProviderStatus) :=
  let l := status_of r <$> List_ GlobalTenant (rt_registry r) in
  if existsb is_panic l then Panic else Ret (omap returned l).

Definition GetRoutingStrategy (r : Router) : RoutingStrategy :=
  match rt_selector r with Some ps => strategy ps | None => RoutingStrategyWeighted end.
Definition SetRoutingStrategy (s : RoutingStrategy) (r : Router) : Router :=
  set_selector (SetStrategy s <$> rt_selector r) r.
Definition GetDefaultProvider (r : Router) : string :=
  match rt_selector r with Some ps => defaultProvider ps | None => "" end.
Definition Router_SetDefaultProvider (d : string) (r : Router) : Router :=
  set_selector (SetDefaultProvider d <$> rt_selector r) r.

End Router.
Arguments Router : clear implicits.
Arguments world : clear implicits.

(** Facts about LLM routing: every strategy answers with one of the providers it
    was given, the round robin is fair until its counter leaves the range of
    int, a restricted request reaches only allowed providers of the deployment's
    pool, also when it fails over, and disabling a provider does not take it out
    of routing. *)

(** * Strategies *)

Lemma pick_elem weight r l p : pick weight r l = Some p -> p ∈ l.
Proof.
  revert r. induction l as [|q l IH]; intros r; cbn; [done|].
  case_match; intros; simplify_eq; [by left|]. right. eauto.
Qed.

Lemma heavier_elem weights l b :
  (foldl (heavier weights) b l).2 = b.2 \/ (foldl (heavier weights) b l).2 ∈ l.
Proof.
  revert b. induction l as [|p l IH]; intros b; cbn; [by left|].
  destruct (IH (heavier weights b p)) as [->|H]; [|by right; right].
  unfold heavier. repeat case_match; cbn; [right; by left|by left..].
Qed.

(** math/rand: [Intn n] is below [n]. *)
Definition draws_ok (rnd : draws) : Prop := forall n, (0 < n)%nat -> (Intn rnd n < n)%nat.

(** The counter is in the range of int. *)
Definition index_ok (ps : ProviderSelector) : Prop := 0 <= roundRobinIndex ps < 2 ^ 63.

Lemma nonempty_length {A} (l : list A) : l <> [] -> (0 < length l)%nat.
Proof. destruct l; [done|cbn; lia]. Qed.

(** The round robin answers with the provider at the counter modulo the number
    of providers. *)
Lemma selectRoundRobin_at healthy ps :
  index_ok ps -> healthy <> [] ->
  (selectRoundRobin healthy ps).1
  = healthy !! Z.to_nat (roundRobinIndex ps mod Z.of_nat (length healthy)).
Proof.
  intros [H0 H1] Hne. unfold selectRoundRobin, int_of_uint64, at_index. cbn [fst].
  apply nonempty_length in Hne.
  destruct (Z.ltb_spec (roundRobinIndex ps) 9223372036854775808); [|lia].
  rewrite Z.rem_mod_nonneg by lia.
  destruct (Z.ltb_spec (roundRobinIndex ps mod Z.of_nat (length healthy)) 0); [|done].
  pose proof (Z.mod_pos_bound (roundRobinIndex ps) (Z.of_nat (length healthy))). lia.
Qed.

Lemma SelectProvider_cases rnd healthy weights ps :
  healthy <> [] -> SelectProvider rnd healthy weights ps =
    if str_eqb (strategy ps) RoutingStrategyRoundRobin then selectRoundRobin healthy ps
    else if str_eqb (strategy ps) RoutingStrategyFailover then
        (selectFailover (defaultProvider ps) healthy weights, ps)
      else (selectWeighted rnd healthy weights, ps).
Proof. by destruct healthy. Qed.

(** Whatever the draws and the weights, what a strategy answers is one of the
    providers it was given. *)
Lemma SelectProvider_sound rnd healthy weights ps p :
  healthy <> [] -> (SelectProvider rnd healthy weights ps).1 = Some p -> p ∈ healthy.
Proof.
  intros Hne. rewrite SelectProvider_cases by done.
  case_match; [|case_match; cbn [fst]].
  - unfold selectRoundRobin, at_index. cbn. case_match; [done|]. apply list_elem_of_lookup_2.
  - unfold selectFailover. case_match.
    + bool_simpl. intros [= <-].
      match goal with H : existsb _ _ = true |- _ => apply existsb_exists in H as (x & Hx & E) end.
      apply str_eqb_true in E as ->. by apply list_elem_of_In.
    + case_match; [|apply list_elem_of_lookup_2]. bool_simpl. intros [= <-].
      destruct (heavier_elem weights healthy (f64_zero, "")) as [E|E]; [|done].
      rewrite E in *. match goal with H : str_eqb _ _ = false |- _ => by apply str_eqb_false in H end.
  - unfold selectWeighted. case_match; [apply list_elem_of_lookup_2|].
    destruct (pick _ _ _) eqn:E; [|apply list_elem_of_lookup_2].
    intros [= <-]. eauto using pick_elem.
Qed.

(** With draws in range and the counter in the range of int no strategy panics. *)
Lemma SelectProvider_total rnd healthy weights ps :
  draws_ok rnd -> index_ok ps -> healthy <> [] ->
  is_Some (SelectProvider rnd healthy weights ps).1.
Proof.
  intros Hr Hi Hne. pose proof (nonempty_length _ Hne).
  rewrite SelectProvider_cases by done. case_match; [|case_match; cbn [fst]].
  - rewrite selectRoundRobin_at by done. apply lookup_lt_is_Some.
    pose proof (Z.mod_pos_bound (roundRobinIndex ps) (Z.of_nat (length healthy))). lia.
  - unfold selectFailover. repeat case_match; try done. by apply lookup_lt_is_Some.
  - unfold selectWeighted. repeat case_match; try done; apply lookup_lt_is_Some; auto.
Qed.

(** The counter past the range of int makes the index negative: a selection
    panics unless the number of providers divides it. *)
Theorem roundRobin_overflow healthy ps :
  2 ^ 63 <= roundRobinIndex ps < two64 ->
  (two64 - roundRobinIndex ps) mod Z.of_nat (length healthy) <> 0 ->
  (selectRoundRobin healthy ps).1 = None.
Proof.
  intros [H0 H1] Hm. unfold selectRoundRobin, int_of_uint64, at_index. cbn [fst].
  destruct (Z.ltb_spec (roundRobinIndex ps) 9223372036854775808); [lia|].
  set (n := Z.of_nat (length healthy)) in *.
  replace (roundRobinIndex ps - two64) with (- (two64 - roundRobinIndex ps)) by lia.
  destruct (decide (n = 0)) as [E|Hn].
  - assert (healthy = []) as -> by (apply length_zero_iff_nil; lia). by case_match.
  - rewrite Z.rem_opp_l', Z.rem_mod_nonneg by lia.
    pose proof (Z.mod_pos_bound (two64 - roundRobinIndex ps) n).
    destruct (Z.ltb_spec (- ((two64 - roundRobinIndex ps) mod n)) 0); [done|lia].
Qed.

(** [rounds n healthy ps]: the answers of [n] selections in a row. *)
Fixpoint rounds (n : nat) (healthy : list string) (ps : ProviderSelector) : list (option string) :=
  match n with
  | O => []
  | S n' => let (o, ps') := selectRoundRobin healthy ps in o :: rounds n' healthy ps'
  end.

Lemma rounds_lookup n healthy ps i :
  healthy <> [] -> 0 <= roundRobinIndex ps -> roundRobinIndex ps + Z.of_nat n <= 2 ^ 63 ->
  (i < n)%nat -> rounds n healthy ps !! i
  = Some (healthy !! Z.to_nat ((roundRobinIndex ps + Z.of_nat i) mod Z.of_nat (length healthy))).
Proof.
  intros Hne. revert ps i. induction n as [|n IH]; intros ps i H0 H1 Hi; [lia|].
  cbn [rounds]. destruct (selectRoundRobin healthy ps) as [o ps'] eqn:E.
  assert (roundRobinIndex ps' = roundRobinIndex ps + 1) as E'.
  { injection E as _ <-. cbn. apply Z.mod_small. unfold two64. lia. }
  destruct i as [|i].
  - pose proof (selectRoundRobin_at healthy ps) as Hat. rewrite E in Hat. cbn in Hat.
    cbn. rewrite Hat by (done || split; lia). by rewrite Z.add_0_r.
  - rewrite lookup_cons_ne_0 by done. cbn [Nat.pred]. rewrite IH by lia.
    by replace (roundRobinIndex ps' + Z.of_nat i) with (roundRobinIndex ps + Z.of_nat (S i)) by lia.
Qed.

Lemma rounds_length n healthy ps : length (rounds n healthy ps) = n.
Proof.
  revert ps. induction n as [|n IH]; intros ps; cbn [rounds]; [done|].
  destruct (selectRoundRobin healthy ps). cbn. by rewrite IH.
Qed.

(** Rotating a list. *)
Lemma rotation_perm {A} (l : list A) c :
  l <> [] -> 0 <= c ->
  (fun i => l !! Z.to_nat ((c + Z.of_nat i) mod Z.of_nat (length l))) <$> seq 0 (length l)
  ≡ₚ Some <$> l.
Proof.
  intros Hne Hc. set (n := Z.of_nat (length l)).
  assert (0 < n) by (apply nonempty_length in Hne; lia).
  assert (Some <$> l = (fun j => l !! j) <$> seq 0 (length l)) as ->.
  { apply list_eq. intros i. rewrite !list_lookup_fmap.
    destruct (decide (i < length l)%nat) as [Hi|Hi].
    - rewrite lookup_seq_lt by done. cbn. by destruct (lookup_lt_is_Some_2 _ _ Hi) as [x ->].
    - rewrite lookup_ge_None_2 by lia. by rewrite lookup_ge_None_2 by (rewrite length_seq; lia). }
  change (fun i => l !! Z.to_nat ((c + Z.of_nat i) mod n))
    with ((fun j => l !! j) ∘ (fun i => Z.to_nat ((c + Z.of_nat i) mod n))).
  rewrite list_fmap_compose. apply fmap_Permutation.
  assert (NoDup ((fun i => Z.to_nat ((c + Z.of_nat i) mod n)) <$> seq 0 (length l))) as Hnd.
  { apply NoDup_fmap_2_strong; [|apply NoDup_seq]. intros x y Hx Hy E.
    apply elem_of_seq in Hx, Hy.
    pose proof (Z.mod_pos_bound (c + Z.of_nat x) n). pose proof (Z.mod_pos_bound (c + Z.of_nat y) n).
    apply Z2Nat.inj in E; [|lia|lia].
    pose proof (Z.div_mod (c + Z.of_nat x) n) as Dx. pose proof (Z.div_mod (c + Z.of_nat y) n) as Dy.
    rewrite E in Dx. enough ((c + Z.of_nat x) / n = (c + Z.of_nat y) / n) by nia. nia. }
  apply submseteq_length_Permutation; [|by rewrite length_fmap].
  apply NoDup_submseteq; [done|]. intros x (y & -> & Hy)%list_elem_of_fmap.
  apply elem_of_seq. pose proof (Z.mod_pos_bound (c + Z.of_nat y) n). lia.
Qed.

(** the round robin is fair: as many selections in a row as there are
    providers, from any counter in range, answer with every provider exactly
    once. *)
Theorem round_robin_fair healthy ps :
  healthy <> [] -> 0 <= roundRobinIndex ps ->
  roundRobinIndex ps + Z.of_nat (length healthy) <= 2 ^ 63 ->
  rounds (length healthy) healthy ps ≡ₚ Some <$> healthy.
Proof.
  intros Hne H0 H1. rewrite <- (rotation_perm healthy (roundRobinIndex ps)) by done.
  match goal with |- ?a ≡ₚ ?b => assert (a = b) as ->; [|done] end.
  apply list_eq. intros i. rewrite list_lookup_fmap.
  destruct (decide (i < length healthy)%nat) as [Hi|Hi].
  - rewrite rounds_lookup by done. by rewrite lookup_seq_lt.
  - rewrite lookup_ge_None_2 by (rewrite rounds_length; lia).
    by rewrite lookup_ge_None_2 by (rewrite length_seq; lia).
Qed.

(** * Routing *)

Section Routing.
Context `{Q : GoQuote} {P : Type} {St : Type} `{I : Provider P} `{V : LicenseValidator}
  `{S : Storage St}.
#[local] Abbreviation Reg := (Registry P St).

(** [p] is the instance of an allowed name of the deployment's pool. *)
Definition compliant (allowed : list string) (reg : Reg) (p : P) : Prop :=
  exists n, allowed_by allowed n = true /\ instance reg (scopeKey GlobalTenant n) = Some p.

#[export] Instance compliant_proper allowed :
  Proper (same_view GlobalTenant ==> eq ==> iff) (compliant allowed).
Proof.
  intros r1 r2 Hv p ? <-. unfold compliant. f_equiv. intros n.
  by rewrite (sv_instance _ _ _ Hv) by apply visible_global.
Qed.

Lemma Get_global_instance n p (reg : Reg) :
  (Get GlobalTenant n reg).1 = Ret p -> instance reg (scopeKey GlobalTenant n) = Some p.
Proof.
  unfold Get, get_lookup, readKeyLocked. rewrite str_eqb_refl.
  destruct (known reg _); [|done]. unfold instance.
  destruct (providers reg !! _) eqn:Hp; [cbn; congruence|].
  destruct (configs reg !! _) as [[c|]|]; unfold lazyInstantiate; rewrite ?Hp; try done.
  destruct (FactoryManager_Create _ c); cbn; congruence.
Qed.

Lemma pool_Get_view n (r : Router P St) :
  same_view GlobalTenant (rt_registry r) (rt_registry (pool_Get n r).2).
Proof.
  unfold pool_Get. pose proof (Get_view GlobalTenant GlobalTenant n (rt_registry r)).
  by destruct (Get _ _ _).
Qed.

Lemma pool_Get_compliant n allowed p (r r1 : Router P St) :
  pool_Get n r = (Ret p, r1) -> allowed_by allowed n = true ->
  compliant allowed (rt_registry r) p.
Proof.
  unfold pool_Get. pose proof (Get_global_instance n p (rt_registry r)) as H.
  destruct (Get _ _ _) as [o reg]. intros [= -> <-] Ha. exists n. eauto.
Qed.

Lemma candidates_allowed opts (reg : Reg) names n :
  candidates opts reg = Some names -> n ∈ names ->
  allowed_by (allowedProviders opts) n = true.
Proof.
  unfold candidates. intros H Hin.
  assert (exists l, names = List.filter (allowed_by (allowedProviders opts)) l) as [l ->].
  { repeat case_match; simplify_eq; eauto. }
  by apply list_elem_of_In, filter_In in Hin as [_ ?].
Qed.

Lemma choose_registry rnd order opts names (r : Router P St) :
  rt_registry (choose rnd order opts names r).2 = rt_registry r.
Proof. unfold choose. destruct (rt_selector r); [|done]. by destruct (SelectProvider _ _ _ _). Qed.

Lemma choose_elem rnd order opts names n (r r1 : Router P St) :
  names <> [] -> choose rnd order opts names r = (Some n, r1) -> n ∈ names.
Proof.
  intros Hne. unfold choose. destruct (rt_selector r) as [ps|].
  - pose proof (fun p => SelectProvider_sound rnd names
      (getWeights order names (ro_weights opts) r) ps p Hne) as H.
    destruct (SelectProvider _ _ _ _). intros [= -> <-]. by apply H.
  - intros [= H _]. revert H. unfold lb_selectProvider.
    destruct (pick _ _ _) eqn:E; [intros [= <-]; eauto using pick_elem|apply list_elem_of_lookup_2].
Qed.

Lemma select_from_pool_spec rnd order opts (r : Router P St) res r1 :
  select_from_pool rnd order opts r = (res, r1) ->
  same_view GlobalTenant (rt_registry r) (rt_registry r1) /\
  forall p, res = Selected p -> compliant (allowedProviders opts) (rt_registry r) p.
Proof.
  unfold select_from_pool. destruct (candidates opts _) as [[|n0 names]|] eqn:Hc;
    try (intros [= <- <-]; split; [done|discriminate]).
  pose proof (choose_registry rnd order opts (n0 :: names) r) as Hreg.
  destruct (choose rnd order opts (n0 :: names) r) as [[n|] r2] eqn:Hch; cbn in Hreg.
  2: { intros [= <- <-]. by rewrite Hreg. }
  apply choose_elem in Hch; [|done]. eapply candidates_allowed in Hch; [|done].
  case_match; [intros [= <- <-]; by rewrite Hreg|].
  pose proof (pool_Get_view n r2) as Hv. pose proof (pool_Get_compliant n) as Hcomp.
  destruct (pool_Get n r2) as [o r3] eqn:Hg; cbn in Hv. rewrite Hreg in Hv.
  intros E. assert (r1 = r3) as -> by (destruct o; congruence). split; [done|].
  intros p ->. destruct o; [|discriminate..]. injection E as ->.
  rewrite <- Hreg. by eapply Hcomp.
Qed.

Lemma selectProvider_spec rnd order opts (r : Router P St) res r1 :
  selectProvider rnd order opts r = (res, r1) ->
  same_view GlobalTenant (rt_registry r) (rt_registry r1) /\
  forall p, res = Selected p -> compliant (allowedProviders opts) (rt_registry r) p.
Proof.
  unfold selectProvider. case_match; [|apply select_from_pool_spec]. bool_simpl.
  pose proof (pool_Get_view (preferredProvider opts) r) as Hv.
  pose proof (pool_Get_compliant (preferredProvider opts)) as Hcomp.
  destruct (pool_Get _ r) as [[q|e|] r2] eqn:Hg; cbn in Hv.
  - intros [= <- <-]. split; [done|]. intros p [= ->]. by eapply Hcomp.
  - intros E. apply select_from_pool_spec in E as [Hv' Hp]. split; [by etrans|].
    intros p Hres. rewrite Hv. auto.
  - intros [= <- <-]. by split.
Qed.

Lemma getFallbackProvider_spec failed allowed (r : Router P St) o r1 :
  getFallbackProvider failed allowed r = (o, r1) ->
  same_view GlobalTenant (rt_registry r) (rt_registry r1) /\
  forall p, o = Some (Ret p) -> compliant allowed (rt_registry r) p.
Proof.
  unfold getFallbackProvider. destruct (List.find _ _) as [n|] eqn:Hf.
  2: { intros [= <- <-]. by split. }
  apply find_some in Hf as [_ Hn]. bool_simpl.
  pose proof (pool_Get_view n r) as Hv. pose proof (pool_Get_compliant n) as Hcomp.
  destruct (pool_Get n r) as [o' r2] eqn:Hg; cbn in Hv. intros [= <- <-].
  split; [done|]. intros p [= ->]. by eapply Hcomp.
Qed.

(** Every call of the trace failed. *)
Definition all_failed (w : world P) (req : CompletionRequest) (trace : list P) : Prop :=
  forall pre q post, trace = pre ++ q :: post -> exists e, Complete w pre q req = Err e.

Lemma all_failed_1 w req p e : Complete w [] p req = Err e -> all_failed w req [p].
Proof. intros H [|? [|]] q post E; simplify_eq/=; eauto. Qed.

Lemma all_failed_2 w req p q e e' :
  Complete w [] p req = Err e -> Complete w [p] q req = Err e' -> all_failed w req [p; q].
Proof. intros H H' [|? [|? [|]]] x post E; simplify_eq/=; eauto. Qed.

(** routing is compliant and exact: a request calls at most two providers,
    each the instance of a name in the deployment's pool and, when the request is
    restricted, on its list; a success is the answer of the last provider called,
    reported under its name, after the others failed; a failure means that every
    call made failed; and without a call no response. *)
Theorem route_compliance rnd order w req opts (r : Router P St) res r' trace :
  RouteRequest rnd order w req opts r = (res, r', trace) ->
  Forall (compliant (allowedProviders opts) (rt_registry r)) trace /\
  (length trace <= (if disableFailover opts then 1 else 2))%nat /\
  match res with
  | Routed resp info => exists pre p, trace = pre ++ [p] /\ Complete w pre p req = Ok resp /\
      ri_ProviderName info = Name p /\ all_failed w req pre
  | _ => all_failed w req trace
  end.
Proof.
  unfold RouteRequest. destruct (selectProvider rnd order opts r) as [sel r1] eqn:Hs.
  apply selectProvider_spec in Hs as [Hv Hsel].
  assert (all_failed w req []) as Hnil by (intros [] ? ? [=]).
  destruct sel as [p|e|].
  2, 3: intros [= <- <- <-]; split_and!; [constructor|destruct (disableFailover opts); cbn; lia|done].
  specialize (Hsel p eq_refl). destruct (Complete w [] p req) as [resp|cause] eqn:Hp.
  { intros [= <- <- <-]. split_and!; [auto|destruct (disableFailover opts); cbn; lia|].
    exists [], p. by split_and!. }
  pose proof (all_failed_1 _ _ _ _ Hp) as Hf1.
  destruct (disableFailover opts) eqn:Hd; [intros [= <- <- <-]; split_and!; auto|].
  destruct (getFallbackProvider _ _ _) as [o r3] eqn:Hfb.
  apply getFallbackProvider_spec in Hfb as [_ Hfb]. cbn in Hfb.
  destruct o as [[q|e|]|].
  2-4: intros [= <- <- <-]; split_and!; [auto|cbn; lia|done].
  specialize (Hfb q eq_refl). rewrite <- Hv in Hfb.
  destruct (Complete w [p] q req) as [resp|cause'] eqn:Hq; intros [= <- <- <-].
  - split_and!; [auto|cbn; lia|]. exists [p], q. by split_and!.
  - split_and!; [auto|cbn; lia|]. by eapply all_failed_2.
Qed.

Lemma Get_global_total n p (reg : Reg) :
  instance reg (scopeKey GlobalTenant n) = Some p -> (Get GlobalTenant n reg).1 = Ret p.
Proof.
  intros Hi. assert (known reg (scopeKey GlobalTenant n) = true) as Hk.
  { apply known_true. revert Hi. unfold instance.
    destruct (providers reg !! _); [eauto|]. by destruct (configs reg !! _) as [[]|]; eauto. }
  unfold Get, get_lookup. rewrite readKeyLocked_own by done. revert Hi. unfold instance.
  destruct (providers reg !! _) eqn:Hp; [by intros [= ->]|].
  destruct (configs reg !! _) as [[c|]|]; unfold lazyInstantiate; rewrite ?Hp; try done.
  by destruct (FactoryManager_Create _ c); intros [= ->].
Qed.

Lemma pool_Get_total n p (r : Router P St) :
  instance (rt_registry r) (scopeKey GlobalTenant n) = Some p -> (pool_Get n r).1 = Ret p.
Proof.
  intros H%Get_global_total. unfold pool_Get. by destruct (Get _ _ _).
Qed.

(** The healthy names of the pool are those of instances that go by them. *)
Definition pool_ok (reg : Reg) : Prop :=
  forall n, n ∈ GetHealthyProviders GlobalTenant reg ->
    n <> "" /\ exists p, instance reg (scopeKey GlobalTenant n) = Some p /\ Name p = n.

Lemma pool_ok_get n (r : Router P St) :
  pool_ok (rt_registry r) -> n ∈ GetHealthyProviders GlobalTenant (rt_registry r) ->
  exists p r1, pool_Get n r = (Ret p, r1) /\ Name p = n.
Proof.
  intros Hok Hn. destruct (Hok n Hn) as (_ & p & Hi & HN). exists p, (pool_Get n r).2.
  split; [|done]. rewrite <- (pool_Get_total n p r Hi). by destruct (pool_Get n r).
Qed.

Lemma pool_ok_view (reg1 reg2 : Reg) :
  same_view GlobalTenant reg1 reg2 -> pool_ok reg1 -> pool_ok reg2.
Proof.
  intros Hv Hok n. rewrite <- (GetHealthyProviders_proper _ _ _ Hv). intros Hn.
  destruct (Hok n Hn) as (Hne & p & Hi & HN). split; [done|]. exists p. split; [|done].
  by rewrite <- (sv_instance _ _ _ Hv) by apply visible_global.
Qed.

(** The candidates of a request while some healthy provider is allowed. *)
Lemma candidates_healthy opts (reg : Reg) a :
  a ∈ GetHealthyProviders GlobalTenant reg -> allowed_by (allowedProviders opts) a = true ->
  exists names, candidates opts reg = Some names /\ names <> [] /\
    forall n, n ∈ names -> n ∈ GetHealthyProviders GlobalTenant reg.
Proof.
  intros Ha Hal. exists (List.filter (allowed_by (allowedProviders opts))
    (GetHealthyProviders GlobalTenant reg)). split_and!.
  - unfold candidates. destruct (GetHealthyProviders GlobalTenant reg); [|done].
    by apply not_elem_of_nil in Ha.
  - intros E. apply (not_elem_of_nil a). rewrite <- E. apply list_elem_of_In, filter_In.
    split; [by apply list_elem_of_In|done].
  - intros n Hn. by apply list_elem_of_In, filter_In in Hn as [?%list_elem_of_In _].
Qed.

Lemma choose_total rnd order opts names (r : Router P St) ps :
  draws_ok rnd -> rt_selector r = Some ps -> index_ok ps -> names <> [] ->
  exists n r1, choose rnd order opts names r = (Some n, r1) /\ n ∈ names.
Proof.
  intros Hr Hs Hi Hne. destruct (choose rnd order opts names r) as [o r1] eqn:E.
  pose proof E as E'. unfold choose in E'. rewrite Hs in E'.
  destruct (SelectProvider_total rnd names (getWeights order names (ro_weights opts) r) ps
    Hr Hi Hne) as [n Hn].
  destruct (SelectProvider _ _ _ _) as [o' ps']. cbn in Hn. injection E' as <- _. subst o'.
  exists n, r1. split; [done|]. by eapply choose_elem.
Qed.

(** C22: failover keeps the service up: when failover is not disabled, two healthy
    allowed providers are in the pool, every healthy name of the pool is an
    instance that goes by that name, and all providers but one answer, a request
    without a preferred provider is answered, whichever strategy, weights and
    draws select (the draws in their range, the round-robin counter in that of an
    int). *)
Theorem failover_liveness rnd order w req opts (r : Router P St) ps a b bad :
  draws_ok rnd -> rt_selector r = Some ps -> index_ok ps ->
  preferredProvider opts = "" -> disableFailover opts = false ->
  pool_ok (rt_registry r) ->
  (forall n, n ∈ [a; b] -> n ∈ GetHealthyProviders GlobalTenant (rt_registry r) /\
     allowed_by (allowedProviders opts) n = true) -> a <> b ->
  (forall tr p, Name p <> bad -> is_ok (Complete w tr p req) = true) ->
  exists resp info r' trace, RouteRequest rnd order w req opts r = (Routed resp info, r', trace).
Proof.
  intros Hr Hs Hi Hpref Hdf Hok Hab Hne Hw.
  destruct (Hab a) as [Ha Haa]; [set_solver|]. destruct (Hab b) as [Hb Hba]; [set_solver|].
  destruct (candidates_healthy opts _ _ Ha Haa) as (names & Hc & Hnn & Hsub).
  destruct (choose_total rnd order opts names r ps) as (n & r1 & Hch & Hn); [done..|].
  pose proof (choose_registry rnd order opts names r) as Hreg. rewrite Hch in Hreg. cbn in Hreg.
  destruct (pool_ok_get n r1) as (p & r2 & Hg & HN); [by rewrite Hreg..|auto|].
  { rewrite Hreg. auto. }
  assert (selectProvider rnd order opts r = (Selected p, r2)) as Hsel.
  { unfold selectProvider. rewrite Hpref. cbn [negb andb str_eqb]. unfold select_from_pool.
    rewrite Hc. destruct names; [done|]. rewrite Hch.
    destruct (Hok n (Hsub n Hn)) as [Hn0 _]. apply str_eqb_false in Hn0.
    rewrite Hn0. by rewrite Hg. }
  unfold RouteRequest. rewrite Hsel, Hdf.
  destruct (Complete w [] p req) as [resp|cause] eqn:Hp; [unfold succeed; eauto 10|].
  assert (Name p = bad) as Hbad.
  { destruct (decide (Name p = bad)); [done|]. specialize (Hw [] p n0). by rewrite Hp in Hw. }
  pose proof (selectProvider_spec _ _ _ _ _ _ Hsel) as [Hv _].
  set (r3 := note_error p r2).
  assert (exists q r4, getFallbackProvider (Name p) (allowedProviders opts) r3 = (Some (Ret q), r4)
    /\ Name q <> bad) as (q & r4 & -> & Hq).
  { unfold getFallbackProvider. destruct (List.find _ _) as [m|] eqn:Hf.
    - apply find_some in Hf as [Hm Hmp]. bool_simpl. apply list_elem_of_In in Hm.
      destruct (pool_ok_get m r3) as (q & r4 & -> & HNq); [by eapply pool_ok_view|done|].
      exists q, r4. split; [done|]. rewrite HNq, <- Hbad. by apply str_eqb_false.
    - exfalso. assert (exists m, m ∈ [a; b] /\ m <> Name p) as (m & Hm & Hmp).
      { destruct (decide (a = Name p)); [exists b | exists a]; set_solver. }
      destruct (Hab m Hm) as [Hmh Hma]. rewrite (GetHealthyProviders_proper _ _ _ Hv) in Hmh.
      apply list_elem_of_In in Hmh. eapply find_none in Hf; [|done].
      apply str_eqb_false in Hmp. by rewrite Hmp, Hma in Hf. }
  specialize (Hw [p] q Hq). destruct (Complete w [p] q req); [unfold succeed; eauto 10|done].
Qed.

(** disabling does not take a provider out of routing: as long as any provider
    of the pool is recorded healthy, the candidates of every request are the
    same before and after a provider is disabled. *)
Theorem disabled_still_routed opts t n (reg : Reg) :
  GetHealthyProviders GlobalTenant reg <> [] ->
  candidates opts (Disable t n reg).2 = candidates opts reg.
Proof.
  intros Hne. unfold candidates.
  assert (GetHealthyProviders GlobalTenant (Disable t n reg).2
    = GetHealthyProviders GlobalTenant reg) as ->.
  { unfold GetHealthyProviders, Disable, set_enabled. by repeat case_match. }
  by destruct (GetHealthyProviders GlobalTenant reg).
Qed.
End Routing.

(** * Concrete runs *)

Import Demo.

Definition healthy_now (p : ProviderConfig) : result string HealthCheckResult :=
  Ok (mkHealth HealthStatusHealthy 0 "" None 0).

Definition demo_reg : Registry ProviderConfig PostgresStorage :=
  let r := (Register (Some (cfg "" "alpha" "m")) reg0).2 in
  let r := (Register (Some (cfg "" "beta" "m")) r).2 in
  let r := (Register (Some (cfg "acme" "gamma" "m")) r).2 in
  let r := (Get "" "alpha" r).2 in
  let r := (Get "" "beta" r).2 in
  let r := (Get "acme" "gamma" r).2 in
  (HealthCheck healthy_now 7 (fun _ => 0) "acme" (HealthCheck healthy_now 7 (fun _ => 0) "*" r).2).2.

Definition demo_router (s : RoutingStrategy) := NewRouterFromConfig demo_reg ∅ s "".
Definition demo_order (w : gmap string float64) : list string := (map_to_list w).*1.
Definition demo_rnd : draws := mkDraws f64_zero (fun _ => 0%nat).
Definition demo_req : CompletionRequest :=
  mkCompletionRequest "hi" "" 0 f64_zero f64_zero 0 "" [] false [] [].
Definition demo_resp : CompletionResponse :=
  mkCompletionResponse "ok" "m" (mkUsage 1 1 2) 0 "stop" [].
(** A world in which alpha fails. *)
Definition demo_world : world ProviderConfig :=
  mkWorld (fun _ p _ => if str_eqb (cfg_Name p) "alpha" then Err "503" else Ok demo_resp) 1000000.
Definition no_opts := mkRouteOptions "" ∅ false [].

Definition calls {A B} (x : A * B * list ProviderConfig) : list string := cfg_Name <$> x.2.

(** alpha fails, beta answers; restricted to alpha there is no compliant
    fallback, and another tenant's provider is not in the pool. *)
Example failover_run :
  calls (RouteRequest demo_rnd demo_order demo_world demo_req no_opts (demo_router ""))
  = ["alpha"; "beta"] /\
  (let x := RouteRequest demo_rnd demo_order demo_world demo_req
              (mkRouteOptions "" ∅ false ["alpha"]) (demo_router "") in
   calls x = ["alpha"] /\ x.1.1 = RouteFailed (NoCompliantFallback ["alpha"] "503")) /\
  (RouteRequest demo_rnd demo_order demo_world demo_req
     (mkRouteOptions "gamma" ∅ false ["gamma"]) (demo_router "")).1.1
  = RouteFailed (SelectFailed (NoCompliantProviders ["gamma"])).
Proof. vm_compute. by split_and!. Qed.

Lemma route_compliance_witness :
  let x := RouteRequest demo_rnd demo_order demo_world demo_req
             (mkRouteOptions "" ∅ false ["alpha"; "beta"]) (demo_router "") in
  Forall (compliant ["alpha"; "beta"] demo_reg) x.2 /\ x.2 <> [].
Proof.
  intros x. destruct x as [[res r'] trace] eqn:E.
  destruct (route_compliance demo_rnd demo_order demo_world demo_req
    (mkRouteOptions "" ∅ false ["alpha"; "beta"]) (demo_router "") res r' trace E) as [H _].
  split; [exact H|]. assert (trace = x.2) as -> by (by rewrite E). by vm_compute.
Defined.

Lemma round_robin_fair_witness :
  rounds 3 ["a"; "b"; "c"] (mkSelector RoutingStrategyRoundRobin "" 7)
  ≡ₚ Some <$> ["a"; "b"; "c"].
Proof. apply (round_robin_fair ["a"; "b"; "c"]); cbn; [done|lia|lia]. Defined.

Lemma failover_liveness_witness :
  exists resp info r' trace, RouteRequest demo_rnd demo_order demo_world demo_req no_opts
    (demo_router "round_robin") = (Routed resp info, r', trace).
Proof.
  assert (GetHealthyProviders GlobalTenant demo_reg = ["alpha"; "beta"]) as Hh by (by vm_compute).
  apply (failover_liveness demo_rnd demo_order demo_world demo_req no_opts
    (demo_router "round_robin") (NewProviderSelector "round_robin" "") "alpha" "beta" "alpha").
  - intros n Hn. exact Hn.
  - reflexivity.
  - split; cbn; lia.
  - reflexivity.
  - reflexivity.
  - intros n Hn. cbn [demo_router NewRouterFromConfig rt_registry] in *. rewrite Hh in Hn.
    destruct (proj1 (elem_of_cons _ _ _) Hn) as [->|Hn'];
      [|destruct (proj1 (elem_of_cons _ _ _) Hn') as [->|[]%not_elem_of_nil]];
      (split; [done|]); eexists; (split; [vm_compute; reflexivity|done]).
  - intros n Hn. cbn [demo_router NewRouterFromConfig rt_registry]. rewrite Hh.
    split; [exact Hn | reflexivity].
  - discriminate.
  - intros tr p Hp. apply str_eqb_false in Hp. cbn in *. by rewrite Hp.
Defined.

Lemma disabled_still_routed_witness :
  candidates no_opts (Disable "" "alpha" demo_reg).2 = Some ["alpha"; "beta"] /\
  calls (RouteRequest demo_rnd demo_order demo_world demo_req no_opts
    (NewRouterFromConfig (Disable "" "alpha" demo_reg).2 ∅ "" "")) = ["alpha"; "beta"].
Proof.
  split; [|by vm_compute]. etrans; [apply disabled_still_routed|]; by vm_compute.
Defined.

(** A removal between the snapshot and the writes of a health sweep leaves a
    health result without a provider: the name is selected and the request
    fails although no call was made. *)
Example swept_after_removal :
  let targets := health_targets "*" demo_reg in
  let r := (Unregister "" "alpha" demo_reg).2 in
  let r := health_sweep healthy_now 8 (fun _ => 0) targets r in
  let x := RouteRequest demo_rnd demo_order demo_world demo_req no_opts
             (NewRouterFromConfig r ∅ "" "") in
  x.1.1 = RouteFailed (SelectFailed (RegistryFailure (not_found "alpha"))) /\ x.2 = [].
Proof. split; vm_compute; reflexivity. Qed.
