(* ===== verification/Connectors.v ===== *)
(** Connectors of a tenant: the deployment's registry and its table
    (src/platform/connectors/registry), the runtime configuration with its cache
    (src/platform/connectors/config/runtime_config.go, cache.go, file_loader.go), the
    agent's cache of connectors per tenant (src/platform/agent/tenant_connector_registry.go)
    and the look-up that puts them together (agent/mcp_handler.go).

    A connector is an implementation of base.Connector that has been given a
    configuration by Connect: a handle, its type, and that configuration. Whether a
    connection, a statement or a factory call succeeds is an argument of the operation.
    Log lines and time-outs are left out; so are what JSON and encryption make of the
    stored options and credentials ([ConnectorColumns]), the connection URL of a row
    ([buildURL], base/url.go) and the configurations that the environment variables give. *)

From stdpp Require Import gmap.
From S2P Require Import Prelude GoFloat GoStrings GoStrconv GoTime GoHttp PolicyTypes LlmTypes LlmRegistry LlmRegistryFacts.

Local Open Scope Z_scope.

(** * Configurations and instances *)

Record ConnectorConfig := mkConnectorConfig {
  cf_Name : string; cf_Type : string; cf_ConnectionURL : string; cf_Credentials : list (string * string); cf_Options : list (string * value);
  cf_Timeout : Z; cf_MaxRetries : Z; cf_TenantID : string }.

(** [co_config] is what Connect was last given. *)
Record Connector := mkConnector { co_id : nat; co_Type : string; co_config : option ConnectorConfig }.

Definition connect (c : Connector) (cfg : ConnectorConfig) : Connector := mkConnector (co_id c) (co_Type c) (Some cfg).

(** The factory by connector type: an error, or an instance under a fresh handle. *)
Definition Factory := string -> nat -> result string Connector.

(** What a marshalled column reads back as; [None] is an error. *)
Class ConnectorColumns := {
  options_column : list (string * value) -> option (list (string * value));
  credentials_column : list (string * string) -> option (list (string * string)) }.

(** * The registry of the deployment *)

Module Registry.

Definition SharedTenant : string := "*".
Definition tenantSep : string := String "000" "".

Definition normalizeTenant (tenantID : string) : string := if str_eqb tenantID "" then SharedTenant else tenantID.
Definition scopeKey (tenantID name : string) : string := normalizeTenant tenantID +:+ tenantSep +:+ name.
Definition splitScopeKey (key : string) : option (string * string) :=
  match Index key tenantSep with
  | None => None
  | Some idx => Some (slice key 0 idx, slice key (idx + len tenantSep) (len key))
  end.
Definition visibleTo (keyTenant tenantID : string) : bool := str_eqb keyTenant (normalizeTenant tenantID) || str_eqb keyTenant SharedTenant.

(** ** The table of connectors *)

Record ConnectorRow := mkConnectorRow {
  cr_id : string; cr_name : string; cr_type : string; cr_tenant_id : string; cr_org_id : string; cr_options : list (string * value);
  cr_credentials : list (string * string); cr_installed_at : Z }.

(** [st_rls]: the runtime pool is under row-level security; [st_cross]: a pool without it
    serves the reads of the whole deployment. *)
Record Storage := mkStorage { st_rows : list ConnectorRow; st_rls : bool; st_cross : bool }.

Definition with_rows (s : Storage) (rows : list ConnectorRow) : Storage := mkStorage rows (st_rls s) (st_cross s).
Definition row_of (s : Storage) (id : string) : option ConnectorRow := find_first (fun r => str_eqb (cr_id r) id) (st_rows s).

(** Rows a statement sees in a scope, and those of the look-up pool. *)
Definition in_scope (s : Storage) (orgID : string) (r : ConnectorRow) : bool := negb (st_rls s) || str_eqb (cr_org_id r) orgID.
Definition lookup_rows (s : Storage) : list ConnectorRow := if st_rls s && negb (st_cross s) then [] else st_rows s.

Section Storage.
Context `{CC : ConnectorColumns}.

(** Another row with this name and tenant. *)
Definition name_taken (s : Storage) (id name tenantID : string) : bool :=
  existsb (fun r => negb (str_eqb (cr_id r) id) && str_eqb (cr_name r) name && str_eqb (cr_tenant_id r) tenantID) (st_rows s).

(** The upsert: a row of another organization is not updated under row-level security,
    which is an error; its tenant is never rewritten. *)
Definition SaveConnector (up : bool) (now : Z) (id : string) (cfg : ConnectorConfig) (s : Storage) : option string * Storage :=
  match options_column (cf_Options cfg), credentials_column (cf_Credentials cfg) with
  | None, _ => (Some "failed to marshal options", s)
  | _, None => (Some "failed to marshal credentials", s)
  | Some options, Some creds =>
      if str_eqb (cf_TenantID cfg) "" || negb up then (Some "failed to save connector", s)
      else match row_of s id with
      | None =>
          if name_taken s id (cf_Name cfg) (cf_TenantID cfg) then (Some "failed to save connector", s)
          else (None, with_rows s (st_rows s ++ [mkConnectorRow id (cf_Name cfg) (cf_Type cfg) (cf_TenantID cfg) (cf_TenantID cfg) options creds now]))
      | Some r =>
          if in_scope s (cf_TenantID cfg) r && negb (name_taken s id (cf_Name cfg) (cr_tenant_id r))
          then (None, with_rows s (map (fun r => if str_eqb (cr_id r) id
                                                 then mkConnectorRow id (cf_Name cfg) (cf_Type cfg) (cr_tenant_id r) (cr_org_id r) options creds (cr_installed_at r)
                                                 else r) (st_rows s)))
          else (Some "failed to save connector", s)
      end
  end.

Definition config_of_row (r : ConnectorRow) : ConnectorConfig :=
  mkConnectorConfig (cr_name r) (cr_type r) "" (cr_credentials r) (cr_options r) (30 * Second) 0 (cr_tenant_id r).

Definition GetConnector (up : bool) (id : string) (s : Storage) : result string ConnectorConfig :=
  if negb up then Err "failed to get connector"
  else match find_first (fun r => str_eqb (cr_id r) id) (lookup_rows s) with
       | Some r => Ok (config_of_row r)
       | None => Err ("connector not found: " +:+ id)
       end.

Definition DeleteConnector (up : bool) (orgID id : string) (s : Storage) : option string * Storage :=
  if str_eqb orgID "" || negb up then (Some "failed to delete connector", s)
  else
    let gone r := str_eqb (cr_id r) id && in_scope s orgID r in
    if existsb gone (st_rows s) then (None, with_rows s (List.filter (fun r => negb (gone r)) (st_rows s)))
    else (Some ("connector not found: " +:+ id), s).

Definition newest_first (a b : ConnectorRow) : bool := cr_installed_at b <? cr_installed_at a.

Definition ListConnectors (up : bool) (s : Storage) : result string (list string) :=
  if up then Ok (cr_id <$> SliceStable newest_first (lookup_rows s)) else Err "failed to list connectors".

Definition ListConnectorsByTenant (up : bool) (tenantID : string) (s : Storage) : result string (list string) :=
  if up then Ok (cr_id <$> SliceStable newest_first
                   (List.filter (fun r => str_eqb (cr_tenant_id r) tenantID || str_eqb (cr_tenant_id r) "*") (lookup_rows s)))
  else Err "failed to list connectors by tenant".
End Storage.

(** ** The registry *)

(** [has_storage]: persistence is configured; the table itself is shared by replicas. *)
Record Registry := mkRegistry {
  connectors : gmap string Connector; configs : gmap string ConnectorConfig; loadedIDs : gset string; deploymentWideNames : bool;
  has_storage : bool; factory : option Factory }.

Definition NewRegistry : Registry := mkRegistry ∅ ∅ ∅ false false None.
Definition SetFactory (f : Factory) (r : Registry) : Registry :=
  mkRegistry (connectors r) (configs r) (loadedIDs r) (deploymentWideNames r) (has_storage r) (Some f).

Definition with_config (r : Registry) (key : string) (cfg : ConnectorConfig) : Registry :=
  mkRegistry (connectors r) (<[key := cfg]> (configs r)) ({[ key ]} ∪ loadedIDs r) (deploymentWideNames r) (has_storage r) (factory r).
Definition with_connector (r : Registry) (key : string) (c : Connector) : Registry :=
  mkRegistry (<[key := c]> (connectors r)) (configs r) (loadedIDs r) (deploymentWideNames r) (has_storage r) (factory r).

Definition loadedIDByName (id : string) (r : Registry) : bool := existsb (fun key => HasSuffix key (tenantSep +:+ id)) (elements (loadedIDs r)).

Section Operations.
Context `{CC : ConnectorColumns}.

(** One row of a load; a row that cannot be read is passed over. *)
Definition load_one (up : string -> bool) (s : Storage) (r : Registry) (id : string) : Registry :=
  match GetConnector (up id) id s with
  | Err _ => r
  | Ok cfg => with_config r (scopeKey (cf_TenantID cfg) id) cfg
  end.

Definition loadFromStorage (list_up : bool) (up : string -> bool) (s : Storage) (r : Registry) : option string * Registry :=
  if negb (has_storage r) then (None, r)
  else match ListConnectors list_up s with
       | Err e => (Some ("failed to list connectors: " +:+ e), r)
       | Ok ids => (None, fold_left (load_one up s) ids r)
       end.

(** A failed first load leaves an empty registry. *)
Definition NewRegistryWithStorage (list_up : bool) (up : string -> bool) (s : Storage) : Registry :=
  (loadFromStorage list_up up s (mkRegistry ∅ ∅ ∅ true true None)).2.

Definition ReloadFromStorage (list_up : bool) (up : string -> bool) (s : Storage) (r : Registry) : option string * Registry :=
  if negb (has_storage r) then (None, r)
  else match ListConnectors list_up s with
       | Err e => (Some ("failed to list connectors: " +:+ e), r)
       | Ok ids => (None, fold_left (fun r id => if loadedIDByName id r then r else load_one up s r id) ids r)
       end.

Definition already (name : string) : string := "connector '" +:+ name +:+ "' already registered".
Definition not_found (name : string) : string := "connector '" +:+ name +:+ "' not found".

(** A configured key of another tenant with this name. *)
Definition held_elsewhere (name tenantID : string) (key : string) : bool :=
  match splitScopeKey key with
  | Some (t, n) => str_eqb n name && negb (str_eqb t (normalizeTenant tenantID))
  | None => false
  end.

(** [connected] is the error of Connect, [None] for none. *)
Definition Register (connected : option string) (save_up : bool) (now : Z) (name : string) (c : Connector) (config : option ConnectorConfig)
    (r : Registry) (s : Storage) : option string * Registry * Storage :=
  match config with
  | None => (Some ("connector '" +:+ name +:+ "': config is required to determine tenancy"), r, s)
  | Some cfg =>
      let key := scopeKey (cf_TenantID cfg) name in
      if bool_decide (is_Some (connectors r !! key)) then (Some (already name), r, s)
      else if deploymentWideNames r && existsb (held_elsewhere name (cf_TenantID cfg)) ((map_to_list (configs r)).*1) then (Some (already name), r, s)
      else match connected with
      | Some e => (Some ("failed to connect connector '" +:+ name +:+ "': " +:+ e), r, s)
      | None =>
          let '(saved, s') := if has_storage r then SaveConnector save_up now name cfg s else (Some "", s) in
          let loaded := match saved with None => {[ key ]} ∪ loadedIDs r | Some _ => loadedIDs r end in
          (None,
           mkRegistry (<[key := connect c cfg]> (connectors r)) (<[key := cfg]> (configs r)) loaded (deploymentWideNames r) (has_storage r) (factory r),
           s')
      end
  end.

(** The last component: the connector disconnected. *)
Definition Unregister (delete_up : bool) (tenantID name : string) (r : Registry) (s : Storage)
  : option string * Registry * Storage * option Connector :=
  let key := scopeKey tenantID name in
  match configs r !! key, connectors r !! key with
  | None, None => (Some (not_found name), r, s, None)
  | cfg, c =>
      let orgID := from_option cf_TenantID "" cfg in
      let r' := mkRegistry (delete key (connectors r)) (delete key (configs r)) (loadedIDs r ∖ {[ key ]}) (deploymentWideNames r) (has_storage r) (factory r) in
      (None, r', if has_storage r && negb (str_eqb orgID "") then (DeleteConnector delete_up orgID name s).2 else s, c)
  end.

Definition known (r : Registry) (key : string) : bool := bool_decide (is_Some (configs r !! key)) || bool_decide (is_Some (connectors r !! key)).

Definition resolveKeyLocked (tenantID name : string) (r : Registry) : option string :=
  let own := scopeKey tenantID name in
  if known r own then Some own
  else
    let shared := scopeKey SharedTenant name in
    if str_eqb shared own then None else if known r shared then Some shared else None.

(** What the read lock of Get finds: a connector, the arguments of a lazy load, or
    nothing. *)
Inductive found := Present (c : Connector) | Lazy (key name : string) (cfg : ConnectorConfig) | Missing.

Definition Get_lookup (tenantID name : string) (r : Registry) : found :=
  match resolveKeyLocked tenantID name r with
  | None => Missing
  | Some key =>
      match connectors r !! key, configs r !! key, factory r with
      | Some c, _, _ => Present c
      | None, Some cfg, Some _ => Lazy key name cfg
      | None, _, _ => Missing
      end
  end.

Definition lazyLoadConnector (fresh : nat) (connected : option string) (key name : string) (cfg : ConnectorConfig) (r : Registry)
  : result string Connector * Registry :=
  match connectors r !! key, factory r with
  | Some c, _ => (Ok c, r)
  | None, None => (Err "no factory", r)                        (* the factory is never unset *)
  | None, Some f =>
      match f (cf_Type cfg) fresh with
      | Err e => (Err ("failed to create connector '" +:+ name +:+ "': " +:+ e), r)
      | Ok c =>
          match connected with
          | Some e => (Err ("failed to connect connector '" +:+ name +:+ "': " +:+ e), r)
          | None => (Ok (connect c cfg), with_connector r key (connect c cfg))
          end
      end
  end.

Definition Get (fresh : nat) (connected : option string) (tenantID name : string) (r : Registry) : result string Connector * Registry :=
  match Get_lookup tenantID name r with
  | Present c => (Ok c, r)
  | Lazy key name cfg => lazyLoadConnector fresh connected key name cfg r
  | Missing => (Err (not_found name), r)
  end.

Definition GetConfig (tenantID name : string) (r : Registry) : result string ConnectorConfig :=
  match resolveKeyLocked tenantID name r ≫= fun key => configs r !! key with
  | Some cfg => Ok cfg
  | None => Err ("config for connector '" +:+ name +:+ "' not found")
  end.

Definition visible_name (tenantID key : string) : option string :=
  match splitScopeKey key with Some (t, n) => if visibleTo t tenantID then Some n else None | None => None end.

(** Go's order of a map is unspecified: a set. *)
Definition List_ (tenantID : string) (r : Registry) : gset string :=
  list_to_set (omap (visible_name tenantID) ((map_to_list (connectors r)).*1 ++ (map_to_list (configs r)).*1)).
Definition GetConnectorsByTenant : string -> Registry -> gset string := List_.

Definition CountForTenant (tenantID : string) (r : Registry) : nat := length (omap (visible_name tenantID) ((map_to_list (connectors r)).*1)).
Definition Count (r : Registry) : nat := size (connectors r).

(** The connectors whose health is asked, by name. *)
Definition health_targets (tenantID : string) (r : Registry) : list (string * Connector) :=
  omap (fun e => n ← visible_name tenantID e.1; Some (n, e.2)) (map_to_list (connectors r)).

Definition ValidateTenantAccess (connectorName tenantID : string) (r : Registry) : option string :=
  match resolveKeyLocked tenantID connectorName r with
  | Some _ => None
  | None => Some ("tenant '" +:+ tenantID +:+ "' does not have access to connector '" +:+ connectorName +:+ "'")
  end.

(** Disconnected, and kept. *)
Definition DisconnectAll (r : Registry) : list Connector := (map_to_list (connectors r)).*2.
End Operations.
End Registry.

(** * Runtime configuration *)

Module Runtime.

(** ** The cache *)

Record CacheEntry (T : Type) := mkCacheEntry { ce_Value : list T; ce_ExpiresAt : Z; ce_LastUpdate : Z }.
Arguments mkCacheEntry {T}.
Arguments ce_Value {T}.
Arguments ce_ExpiresAt {T}.
Arguments ce_LastUpdate {T}.

Section Entries.
Context {T : Type}.
Implicit Types (m : gmap string (CacheEntry T)).

Definition IsExpired (now : Z) (e : CacheEntry T) : bool := ce_ExpiresAt e <? now.
Definition live (now : Z) (tenantID : string) m : option (list T) :=
  match m !! tenantID with Some e => if IsExpired now e then None else Some (ce_Value e) | None => None end.
Definition set_entry (ttl now : Z) (tenantID : string) (l : list T) m : gmap string (CacheEntry T) := <[tenantID := mkCacheEntry l (now + ttl) now]> m.

(** With a name, the entry keeps its age and loses the value of that name. *)
Definition invalidate (nameOf : T -> string) (now : Z) (tenantID name : string) m : gmap string (CacheEntry T) :=
  if str_eqb name "" then delete tenantID m
  else match m !! tenantID with
       | Some e =>
           if IsExpired now e then m
           else <[tenantID := mkCacheEntry (List.filter (fun x => negb (str_eqb (nameOf x) name)) (ce_Value e)) (ce_ExpiresAt e) (ce_LastUpdate e)]> m
       | None => m
       end.

Definition unexpired (now : Z) m : gmap string (CacheEntry T) := filter (fun e => IsExpired now e.2 = false) m.
End Entries.

Record LLMProviderConfig := mkLLMConfig {
  lp_ID : string; lp_TenantID : string; lp_ProviderName : string; lp_DisplayName : string; lp_Config : list (string * value);
  lp_CredentialsSecretARN : string; lp_Credentials : list (string * string); lp_Priority : Z; lp_Weight : float64; lp_Enabled : bool;
  lp_HealthStatus : string; lp_CostPer1kInputTokens : float64; lp_CostPer1kOutputTokens : float64 }.

Record ConfigCache := mkConfigCache {
  connectorConfigs : gmap string (CacheEntry ConnectorConfig); llmConfigs : gmap string (CacheEntry LLMProviderConfig); ttl : Z;
  hits : Z; misses : Z; evictions : Z }.

Definition NewConfigCache (ttl : Z) : ConfigCache := mkConfigCache ∅ ∅ (if ttl <=? 0 then 30 * Second else ttl) 0 0 0.

Definition recordHit (c : ConfigCache) : ConfigCache := mkConfigCache (connectorConfigs c) (llmConfigs c) (ttl c) (hits c + 1) (misses c) (evictions c).
Definition recordMiss (c : ConfigCache) : ConfigCache := mkConfigCache (connectorConfigs c) (llmConfigs c) (ttl c) (hits c) (misses c + 1) (evictions c).

Definition GetConnectors (now : Z) (tenantID : string) (c : ConfigCache) : option (list ConnectorConfig) * ConfigCache :=
  match live now tenantID (connectorConfigs c) with Some l => (Some l, recordHit c) | None => (None, recordMiss c) end.
Definition SetConnectors (now : Z) (tenantID : string) (l : list ConnectorConfig) (c : ConfigCache) : ConfigCache :=
  mkConfigCache (set_entry (ttl c) now tenantID l (connectorConfigs c)) (llmConfigs c) (ttl c) (hits c) (misses c) (evictions c).
Definition InvalidateConnector (now : Z) (tenantID name : string) (c : ConfigCache) : ConfigCache :=
  mkConfigCache (invalidate cf_Name now tenantID name (connectorConfigs c)) (llmConfigs c) (ttl c) (hits c) (misses c) (evictions c + 1).

Definition GetLLMProviders (now : Z) (tenantID : string) (c : ConfigCache) : option (list LLMProviderConfig) * ConfigCache :=
  match live now tenantID (llmConfigs c) with Some l => (Some l, recordHit c) | None => (None, recordMiss c) end.
Definition SetLLMProviders (now : Z) (tenantID : string) (l : list LLMProviderConfig) (c : ConfigCache) : ConfigCache :=
  mkConfigCache (connectorConfigs c) (set_entry (ttl c) now tenantID l (llmConfigs c)) (ttl c) (hits c) (misses c) (evictions c).
Definition InvalidateLLMProvider (now : Z) (tenantID name : string) (c : ConfigCache) : ConfigCache :=
  mkConfigCache (connectorConfigs c) (invalidate lp_ProviderName now tenantID name (llmConfigs c)) (ttl c) (hits c) (misses c) (evictions c + 1).

Definition InvalidateAll (c : ConfigCache) : ConfigCache := mkConfigCache ∅ ∅ (ttl c) (hits c) (misses c) (evictions c + 1).
Definition Cleanup (now : Z) (c : ConfigCache) : nat * ConfigCache :=
  let cs := unexpired now (connectorConfigs c) in
  let ls := unexpired now (llmConfigs c) in
  let evicted := (size (connectorConfigs c) - size cs + (size (llmConfigs c) - size ls))%nat in
  (evicted, mkConfigCache cs ls (ttl c) (hits c) (misses c) (evictions c + Z.of_nat evicted)).

(** ** Sources *)

(** A row of connector_configs with the operations of the join; [None] is a column that
    does not parse or decrypt. *)
Record ConnectorConfigDB := mkConfigDB {
  db_TenantID : string; db_ConnectorName : string; db_ConnectorType : string; db_ConnectionURL : string; db_Options : option (list (string * value));
  db_Credentials : option (list (string * string)); db_CredentialsSecretARN : string; db_TimeoutMs : Z; db_MaxRetries : Z; db_Enabled : bool;
  db_BlockedOperations : option (list string); db_scans : bool }.

Record ConnectorFileConfig := mkFileConfig {
  ff_Type : string; ff_Enabled : bool; ff_ConnectionURL : string; ff_Credentials : list (string * string); ff_Options : list (string * value);
  ff_TimeoutMs : Z; ff_MaxRetries : Z; ff_TenantID : string }.

Inductive ConfigSource := ConfigSourceDatabase | ConfigSourceFile | ConfigSourceEnvVars.

(** What a load finds: the table, unless the read fails, and the configurations of the
    environment variables. *)
Record Sources := mkSources { so_table : result string (list ConnectorConfigDB); so_secrets : option (string -> option (list (string * string)));
                              so_env : list ConnectorConfig }.

(** [rc_file]: the connectors of the loaded file, in the order of one walk. *)
Record RuntimeConfigService := mkRuntimeConfig { rc_db : bool; rc_selfHosted : bool; rc_file : option (list (string * ConnectorFileConfig)); rc_cache : ConfigCache }.

Definition with_cache (s : RuntimeConfigService) (c : ConfigCache) : RuntimeConfigService := mkRuntimeConfig (rc_db s) (rc_selfHosted s) (rc_file s) c.

Definition credential (creds : list (string * string)) (key : string) : string := default "" (assoc_get key creds).
Definition hasCredentials (creds : list (string * string)) : bool :=
  existsb (fun key => negb (str_eqb (credential creds key) "")) ["username"; "password"; "api_key"; "token"; "private_key"; "client_secret"].

Section Loads.
Context (buildURL : string -> list (string * value) -> list (string * string) -> string).

Definition dbConfigToBaseConfig (r : ConnectorConfigDB) : ConnectorConfig :=
  let options := default [] (db_Options r) in
  let creds := default [] (db_Credentials r) in
  mkConnectorConfig (db_ConnectorName r) (db_ConnectorType r)
    (if hasCredentials creds then buildURL (db_ConnectorType r) options creds else db_ConnectionURL r)
    creds (match db_BlockedOperations r with Some (op :: ops) => assoc_put "blocked_operations" (VArr (VString <$> op :: ops)) options | _ => options end)
    (db_TimeoutMs r * Millisecond) (db_MaxRetries r) (db_TenantID r).

(** The credentials of the secrets manager take the place of the row's. *)
Definition with_secret (secrets : option (string -> option (list (string * string)))) (r : ConnectorConfigDB) (cfg : ConnectorConfig) : ConnectorConfig :=
  match secrets with
  | Some get =>
      if str_eqb (db_CredentialsSecretARN r) "" then cfg
      else match get (db_CredentialsSecretARN r) with
           | Some creds => mkConnectorConfig (cf_Name cfg) (cf_Type cfg) (cf_ConnectionURL cfg) creds (cf_Options cfg) (cf_Timeout cfg) (cf_MaxRetries cfg) (cf_TenantID cfg)
           | None => cfg
           end
  | None => cfg
  end.

Definition by_name (a b : ConnectorConfigDB) : bool := str_before (db_ConnectorName a) (db_ConnectorName b).

Definition loadConnectorsFromDatabase (so : Sources) (tenantID : string) : result string (list ConnectorConfig) :=
  match so_table so with
  | Err e => Err e
  | Ok table =>
      let rows := SliceStable by_name (List.filter (fun r => str_eqb (db_TenantID r) tenantID && db_Enabled r) table) in
      Ok ((fun r => with_secret (so_secrets so) r (dbConfigToBaseConfig r)) <$> List.filter db_scans rows)
  end.

Definition file_config (name : string) (f : ConnectorFileConfig) : ConnectorConfig :=
  mkConnectorConfig name (ff_Type f) (ff_ConnectionURL f) (ff_Credentials f) (ff_Options f)
    (let t := ff_TimeoutMs f * Millisecond in if t =? 0 then 30 * Second else t) (if ff_MaxRetries f =? 0 then 3 else ff_MaxRetries f)
    (if str_eqb (ff_TenantID f) "" then "*" else ff_TenantID f).

Definition file_admits (tenantID : string) (f : ConnectorFileConfig) : bool :=
  let t := if str_eqb (ff_TenantID f) "" then "*" else ff_TenantID f in
  ff_Enabled f && negb (negb (str_eqb tenantID "*") && negb (str_eqb t "*") && negb (str_eqb t tenantID)).

Definition LoadConnectors (file : list (string * ConnectorFileConfig)) (tenantID : string) : list ConnectorConfig :=
  (fun e => file_config e.1 e.2) <$> List.filter (fun e => file_admits tenantID e.2) file.

(** The sources in order; an empty or failed one is passed over. *)
Definition first_source (s : RuntimeConfigService) (so : Sources) (tenantID : string) : option (list ConnectorConfig * ConfigSource) :=
  let db := if rc_db s && negb (rc_selfHosted s) then match loadConnectorsFromDatabase so tenantID with Ok l => l | Err _ => [] end else [] in
  let file := match rc_file s with Some f => LoadConnectors f tenantID | None => [] end in
  match db, file, so_env so with
  | _ :: _, _, _ => Some (db, ConfigSourceDatabase)
  | [], _ :: _, _ => Some (file, ConfigSourceFile)
  | [], [], _ :: _ => Some (so_env so, ConfigSourceEnvVars)
  | [], [], [] => None
  end.

(** [now] is the time of the look in the cache, [later] that of the write. *)
Definition GetConnectorConfigs (now later : Z) (so : Sources) (tenantID : string) (s : RuntimeConfigService)
  : result string (list ConnectorConfig * ConfigSource) * RuntimeConfigService :=
  match GetConnectors now tenantID (rc_cache s) with
  | (Some l, c) => (Ok (l, ConfigSourceDatabase), with_cache s c)
  | (None, c) =>
      match first_source s so tenantID with
      | Some (l, source) => (Ok (l, source), with_cache s (SetConnectors later tenantID l c))
      | None => (Err ("no connector configurations found for tenant " +:+ tenantID), with_cache s c)
      end
  end.

Definition GetConnectorConfig (now later : Z) (so : Sources) (tenantID connectorName : string) (s : RuntimeConfigService)
  : result string (ConnectorConfig * ConfigSource) * RuntimeConfigService :=
  match GetConnectorConfigs now later so tenantID s with
  | (Err e, s) => (Err e, s)
  | (Ok (l, source), s) =>
      (match find_first (fun c => str_eqb (cf_Name c) connectorName) l with
       | Some cfg => Ok (cfg, source)
       | None => Err ("connector '" +:+ connectorName +:+ "' not found for tenant " +:+ tenantID)
       end, s)
  end.
End Loads.

Definition RefreshConnectorConfig (now : Z) (tenantID connectorName : string) (s : RuntimeConfigService) : RuntimeConfigService :=
  with_cache s (InvalidateConnector now tenantID connectorName (rc_cache s)).
Definition RefreshAllConfigs (s : RuntimeConfigService) : RuntimeConfigService := with_cache s (InvalidateAll (rc_cache s)).
End Runtime.

(** * The agent's cache of connectors *)

Module Tenant.

Definition ValidConnectorTypes : list string :=
  ["postgres"; "mysql"; "mongodb"; "cassandra"; "redis"; "http"; "s3"; "azure_blob"; "gcs"; "amadeus"; "salesforce"; "slack"; "snowflake"; "hubspot";
   "jira"; "servicenow"].
Definition IsValidConnectorType (t : string) : bool := str_in t ValidConnectorTypes.

Record TenantConnectorEntry := mkEntry { te_Connector : Connector; te_Config : ConnectorConfig; te_CreatedAt : Z; te_LastAccess : Z; te_ExpiresAt : Z }.
Definition IsExpired (now : Z) (e : TenantConnectorEntry) : bool := te_ExpiresAt e <? now.

(** The two time stamps of the statistics are left out. *)
Record TenantRegistryStats := mkStats { ts_Hits : Z; ts_Misses : Z; ts_Evictions : Z; ts_FactoryCreations : Z; ts_FactoryFailures : Z; ts_ConnectionErrors : Z }.

Record TenantConnectorRegistry := mkTenantRegistry {
  connectors : gmap string TenantConnectorEntry; factory : option Factory; cacheTTL : Z; stats : TenantRegistryStats }.

Definition NewTenantConnectorRegistry (f : option Factory) (ttl : Z) : TenantConnectorRegistry :=
  mkTenantRegistry ∅ f (if ttl <=? 0 then 30 * Second else ttl) (mkStats 0 0 0 0 0 0).

Definition with_entries (r : TenantConnectorRegistry) (m : gmap string TenantConnectorEntry) : TenantConnectorRegistry :=
  mkTenantRegistry m (factory r) (cacheTTL r) (stats r).
Definition with_stats (r : TenantConnectorRegistry) (f : TenantRegistryStats -> TenantRegistryStats) : TenantConnectorRegistry :=
  mkTenantRegistry (connectors r) (factory r) (cacheTTL r) (f (stats r)).

Definition recordHit (s : TenantRegistryStats) : TenantRegistryStats :=
  mkStats (ts_Hits s + 1) (ts_Misses s) (ts_Evictions s) (ts_FactoryCreations s) (ts_FactoryFailures s) (ts_ConnectionErrors s).
Definition recordMiss (s : TenantRegistryStats) : TenantRegistryStats :=
  mkStats (ts_Hits s) (ts_Misses s + 1) (ts_Evictions s) (ts_FactoryCreations s) (ts_FactoryFailures s) (ts_ConnectionErrors s).
Definition recordEvictions (n : nat) (s : TenantRegistryStats) : TenantRegistryStats :=
  mkStats (ts_Hits s) (ts_Misses s) (ts_Evictions s + Z.of_nat n) (ts_FactoryCreations s) (ts_FactoryFailures s) (ts_ConnectionErrors s).
Definition recordFactoryCreate (s : TenantRegistryStats) : TenantRegistryStats :=
  mkStats (ts_Hits s) (ts_Misses s) (ts_Evictions s) (ts_FactoryCreations s + 1) (ts_FactoryFailures s) (ts_ConnectionErrors s).
Definition recordFactoryFailure (s : TenantRegistryStats) : TenantRegistryStats :=
  mkStats (ts_Hits s) (ts_Misses s) (ts_Evictions s) (ts_FactoryCreations s) (ts_FactoryFailures s + 1) (ts_ConnectionErrors s).
Definition recordConnectionError (s : TenantRegistryStats) : TenantRegistryStats :=
  mkStats (ts_Hits s) (ts_Misses s) (ts_Evictions s) (ts_FactoryCreations s) (ts_FactoryFailures s) (ts_ConnectionErrors s + 1).

Definition connectorKey (tenantID connectorName : string) : string := tenantID +:+ ":" +:+ connectorName.

Definition updateLastAccess (now : Z) (key : string) (r : TenantConnectorRegistry) : TenantConnectorRegistry :=
  match connectors r !! key with
  | Some e => with_entries r (<[key := mkEntry (te_Connector e) (te_Config e) (te_CreatedAt e) now (te_ExpiresAt e)]> (connectors r))
  | None => r
  end.

(** The clock and the outcomes of one look-up: [ld_now] and [ld_recheck] are the times of
    the two looks in the cache, [ld_access] that of a hit, [ld_cached] that of the entry. *)
Record Load := mkLoad {
  ld_now : Z; ld_recheck : Z; ld_access : Z; ld_cfg_now : Z; ld_cfg_later : Z; ld_sources : Runtime.Sources; ld_fresh : nat;
  ld_connected : option string; ld_cached : Z }.

Section Lookup.
Context (buildURL : string -> list (string * value) -> list (string * string) -> string) (ld : Load).

(** An unexpired entry. *)
Definition cached (now : Z) (key : string) (r : TenantConnectorRegistry) : option Connector :=
  match connectors r !! key with Some e => if IsExpired now e then None else Some (te_Connector e) | None => None end.

(** [svc] is the configuration service, [None] for nil. *)
Definition loadConnector (tenantID connectorName : string) (r : TenantConnectorRegistry) (svc : option Runtime.RuntimeConfigService)
  : result string Connector * TenantConnectorRegistry * option Runtime.RuntimeConfigService :=
  let key := connectorKey tenantID connectorName in
  match cached (ld_recheck ld) key r with
  | Some c => (Ok c, with_stats (updateLastAccess (ld_access ld) key r) recordHit, svc)
  | None =>
      let r := with_stats r recordMiss in
      match svc with
      | None => (Err "RuntimeConfigService not initialized", r, svc)
      | Some s =>
          match Runtime.GetConnectorConfig buildURL (ld_cfg_now ld) (ld_cfg_later ld) (ld_sources ld) tenantID connectorName s with
          | (Err e, s) => (Err ("connector config not found: " +:+ e), r, Some s)
          | (Ok (cfg, _), s) =>
              if negb (IsValidConnectorType (cf_Type cfg)) then (Err ("unsupported connector type: " +:+ cf_Type cfg), r, Some s)
              else match factory r with
              | None => (Err "connector factory not configured", r, Some s)
              | Some f =>
                  match f (cf_Type cfg) (ld_fresh ld) with
                  | Err e => (Err ("failed to create connector: " +:+ e), with_stats r recordFactoryFailure, Some s)
                  | Ok c =>
                      let r := with_stats r recordFactoryCreate in
                      match ld_connected ld with
                      | Some e => (Err ("failed to connect: " +:+ e), with_stats r recordConnectionError, Some s)
                      | None =>
                          let c := connect c cfg in
                          let now := ld_cached ld in
                          (Ok c, with_entries r (<[key := mkEntry c cfg now now (now + cacheTTL r)]> (connectors r)), Some s)
                      end
                  end
              end
          end
      end
  end.

Definition GetConnector (tenantID connectorName : string) (r : TenantConnectorRegistry) (svc : option Runtime.RuntimeConfigService)
  : result string Connector * TenantConnectorRegistry * option Runtime.RuntimeConfigService :=
  let key := connectorKey tenantID connectorName in
  match cached (ld_now ld) key r with
  | Some c => (Ok c, with_stats (updateLastAccess (ld_access ld) key r) recordHit, svc)
  | None => loadConnector tenantID connectorName r svc
  end.
End Lookup.

(** The entries an eviction removes are disconnected: they are the first component. *)
Definition evict (gone : string -> TenantConnectorEntry -> bool) (r : TenantConnectorRegistry) : list Connector * TenantConnectorRegistry :=
  let removed := List.filter (fun e => gone e.1 e.2) (map_to_list (connectors r)) in
  (te_Connector <$> removed.*2,
   with_stats (with_entries r (filter (fun e => gone e.1 e.2 = false) (connectors r))) (recordEvictions (length removed))).

Definition of_tenant (tenantID key : string) : bool := HasPrefix key (tenantID +:+ ":").

Definition RefreshTenant (now : Z) (tenantID : string) (r : TenantConnectorRegistry) (svc : option Runtime.RuntimeConfigService)
  : list Connector * TenantConnectorRegistry * option Runtime.RuntimeConfigService :=
  (evict (fun key _ => of_tenant tenantID key) r, Runtime.RefreshConnectorConfig now tenantID "" <$> svc).

Definition RefreshConnector (now : Z) (tenantID connectorName : string) (r : TenantConnectorRegistry) (svc : option Runtime.RuntimeConfigService)
  : list Connector * TenantConnectorRegistry * option Runtime.RuntimeConfigService :=
  (evict (fun key _ => str_eqb key (connectorKey tenantID connectorName)) r, Runtime.RefreshConnectorConfig now tenantID connectorName <$> svc).

Definition RefreshAll (r : TenantConnectorRegistry) (svc : option Runtime.RuntimeConfigService)
  : list Connector * TenantConnectorRegistry * option Runtime.RuntimeConfigService :=
  (evict (fun _ _ => true) r, Runtime.RefreshAllConfigs <$> svc).

Definition Cleanup (now : Z) (r : TenantConnectorRegistry) : list Connector * TenantConnectorRegistry := evict (fun _ e => IsExpired now e) r.

Definition DisconnectAll (r : TenantConnectorRegistry) : list Connector * TenantConnectorRegistry :=
  (te_Connector <$> (map_to_list (connectors r)).*2, with_entries r ∅).

Definition GetConnectorsByTenant (tenantID : string) (r : TenantConnectorRegistry) : list string :=
  (fun key => slice key (len (tenantID +:+ ":")) (len key)) <$> List.filter (of_tenant tenantID) ((map_to_list (connectors r)).*1).
Definition Count (r : TenantConnectorRegistry) : nat := size (connectors r).
Definition CountByTenant (tenantID : string) (r : TenantConnectorRegistry) : nat := length (GetConnectorsByTenant tenantID r).

(** ** The refresh API *)

(** The tenant of the caller; one named in the path must be it. *)
Definition requireRefreshTenant (ctxTenant pathTenant : string) : result (Z * string) string :=
  if str_eqb ctxTenant "" then Err (401, "authenticated tenant required")
  else if negb (str_eqb pathTenant "") && negb (str_eqb pathTenant ctxTenant) then Err (403, "tenant_id does not match the authenticated tenant")
  else Ok ctxTenant.

Section RefreshApi.
Context (now : Z) (ctxTenant : string) (internal : bool).
Local Abbreviation registries := (option TenantConnectorRegistry * option Runtime.RuntimeConfigService)%type.

(** The status, the tenant of the answer, the registries after, and the connectors
    disconnected. *)
Definition refresh_with (pathTenant : string)
    (f : string -> TenantConnectorRegistry -> option Runtime.RuntimeConfigService ->
         list Connector * TenantConnectorRegistry * option Runtime.RuntimeConfigService)
    (g : registries) : Z * string * registries * list Connector :=
  match requireRefreshTenant ctxTenant pathTenant, g.1 with
  | Err (status, _), _ => (status, "", g, [])
  | Ok _, None => (503, "", g, [])
  | Ok tenantID, Some r => let '(closed, r, svc) := f tenantID r g.2 in (200, tenantID, (Some r, svc), closed)
  end.

Definition connectorRefreshAllHandler (g : registries) : Z * string * registries * list Connector :=
  refresh_with "" (fun tenantID r svc => if internal then RefreshAll r svc else RefreshTenant now tenantID r svc) g.

Definition connectorRefreshTenantHandler (pathTenant : string) (g : registries) : Z * string * registries * list Connector :=
  if str_eqb pathTenant "" then (400, "", g, []) else refresh_with pathTenant (RefreshTenant now) g.

Definition connectorRefreshSingleHandler (pathTenant connectorName : string) (g : registries) : Z * string * registries * list Connector :=
  if str_eqb pathTenant "" || str_eqb connectorName "" then (400, "", g, [])
  else refresh_with pathTenant (fun tenantID => RefreshConnector now tenantID connectorName) g.
End RefreshApi.
End Tenant.

(** * The connector of a tenant (agent/mcp_handler.go) *)

(** The registries of the agent: the static one, the cache, and the service that both the
    cache and the access check read. *)
Record Connectors := mkConnectors {
  cn_static : option Registry.Registry; cn_tenant : option Tenant.TenantConnectorRegistry; cn_service : option Runtime.RuntimeConfigService }.

Section ForTenant.
Context (buildURL : string -> list (string * value) -> list (string * string) -> string).

(** [None] is no error. *)
Definition validateTenantConnectorAccess (now later : Z) (so : Runtime.Sources) (connectorName tenantID : string) (g : Connectors)
  : option string * Connectors :=
  let '(found, svc) :=
    match cn_service g with
    | Some s => let '(res, s) := Runtime.GetConnectorConfig buildURL now later so tenantID connectorName s in (is_ok res, Some s)
    | None => (false, None)
    end in
  let g := mkConnectors (cn_static g) (cn_tenant g) svc in
  if found then (None, g)
  else match cn_static g with
       | None => (Some "MCP registry not initialized", g)
       | Some r => (Registry.ValidateTenantAccess connectorName tenantID r, g)
       end.

(** The static registry: its factory and what its connection makes. *)
Definition static_connector (fresh : nat) (connected : option string) (tenantID connectorName : string) (g : Connectors)
  : result string Connector * Connectors :=
  match cn_static g with
  | None => (Err "MCP registry not initialized", g)
  | Some r =>
      let '(res, r) := Registry.Get fresh connected tenantID connectorName r in
      (match res with Ok c => Ok c | Err e => Err ("connector '" +:+ connectorName +:+ "' not found: " +:+ e) end,
       mkConnectors (Some r) (cn_tenant g) (cn_service g))
  end.

Definition GetConnectorForTenant (ld : Tenant.Load) (fresh : nat) (connected : option string) (tenantID connectorName : string) (g : Connectors)
  : result string Connector * Connectors :=
  match cn_tenant g with
  | None => static_connector fresh connected tenantID connectorName g
  | Some t =>
      match Tenant.GetConnector buildURL ld tenantID connectorName t (cn_service g) with
      | (Ok c, t, svc) => (Ok c, mkConnectors (cn_static g) (Some t) svc)
      | (Err _, t, svc) => static_connector fresh connected tenantID connectorName (mkConnectors (cn_static g) (Some t) svc)
      end
  end.
End ForTenant.

(** * Whose configuration a tenant is served *)

(** The configuration is the tenant's, or shared by the deployment. *)
Definition owned (t : string) (cfg : ConnectorConfig) : Prop :=
  Registry.normalizeTenant (cf_TenantID cfg) = Registry.normalizeTenant t \/ Registry.normalizeTenant (cf_TenantID cfg) = Registry.SharedTenant.

Definition connected_with (c : Connector) (P : ConnectorConfig -> Prop) : Prop := exists cfg, co_config c = Some cfg /\ P cfg.

Module RegistryFacts.
Import Registry.

(** An entry under the key of its own tenant. *)
Definition keyed (key : string) (cfg : ConnectorConfig) : Prop := no_nul (cf_TenantID cfg) /\ exists n, key = scopeKey (cf_TenantID cfg) n.

Record tenant_keyed (r : Registry) : Prop := {
  tk_configs : map_Forall keyed (configs r);
  tk_connectors : map_Forall (fun key c => connected_with c (keyed key)) (connectors r) }.

(** A text column holds no NUL. *)
Definition rows_ok (s : Storage) : Prop := Forall (fun r => no_nul (cr_tenant_id r)) (st_rows s).

Lemma keyed_own t n cfg : no_nul t -> keyed (scopeKey t n) cfg -> normalizeTenant (cf_TenantID cfg) = normalizeTenant t.
Proof. intros Ht [Hc [m E]]. symmetry. by apply (scopeKey_inj t n (cf_TenantID cfg) m). Qed.

Lemma resolved_owned t n r key cfg : no_nul t -> resolveKeyLocked t n r = Some key -> keyed key cfg -> owned t cfg.
Proof.
  unfold resolveKeyLocked. intros Ht. repeat case_match; intros [= <-] Hk.
  - left. by eapply keyed_own.
  - right. by apply (keyed_own SharedTenant n cfg global_no_nul).
Qed.

Lemma new_registry_keyed wide sto f : tenant_keyed (mkRegistry ∅ ∅ ∅ wide sto f).
Proof. split; apply map_Forall_empty. Qed.

Lemma with_config_keyed r key cfg : tenant_keyed r -> keyed key cfg -> tenant_keyed (with_config r key cfg).
Proof. intros [Hc Hn] Hk. split; [by apply map_Forall_insert_2|done]. Qed.

Lemma config_of_row_ok s r : rows_ok s -> r ∈ lookup_rows s -> no_nul (cr_tenant_id r).
Proof.
  unfold rows_ok, lookup_rows. rewrite Forall_forall. intros H Hr. case_match; [by apply elem_of_nil in Hr|auto].
Qed.

Lemma load_one_keyed up s r id : rows_ok s -> tenant_keyed r -> tenant_keyed (load_one up s r id).
Proof.
  intros Hs Hr. unfold load_one, GetConnector. repeat case_match; simplify_eq; try done.
  apply with_config_keyed; [done|]. match goal with H : find_first _ _ = Some _ |- _ => apply find_first_Some in H as [Hin _] end.
  split; [|by eexists]. simpl. by eapply config_of_row_ok.
Qed.

Lemma load_all_keyed up s ids r (f : Registry -> string -> bool) :
  rows_ok s -> tenant_keyed r -> tenant_keyed (fold_left (fun r id => if f r id then r else load_one up s r id) ids r).
Proof.
  intros Hs. revert r. induction ids as [|id ids IH]; intros r Hr; simpl; [done|].
  apply IH. case_match; [done|by apply load_one_keyed].
Qed.

Section Ops.
Context `{CC : ConnectorColumns}.

Lemma loadFromStorage_keyed list_up up s r : rows_ok s -> tenant_keyed r -> tenant_keyed (loadFromStorage list_up up s r).2.
Proof.
  intros Hs Hr. unfold loadFromStorage. repeat case_match; try done.
  by apply (load_all_keyed up s _ r (fun _ _ => false)).
Qed.

Lemma ReloadFromStorage_keyed list_up up s r : rows_ok s -> tenant_keyed r -> tenant_keyed (ReloadFromStorage list_up up s r).2.
Proof.
  intros Hs Hr. unfold ReloadFromStorage. repeat case_match; try done.
  by apply (load_all_keyed up s _ r (fun r id => loadedIDByName id r)).
Qed.

Lemma Register_keyed connected up now name c config r s e r' s' :
  (forall cfg, config = Some cfg -> no_nul (cf_TenantID cfg)) -> tenant_keyed r ->
  Register connected up now name c config r s = (e, r', s') -> tenant_keyed r'.
Proof.
  intros Hc [Hcf Hcn]. unfold Register. destruct config as [cfg|]; [|by intros [= <- <- <-]].
  assert (Hk : keyed (scopeKey (cf_TenantID cfg) name) cfg) by (split; [auto|by eexists]).
  repeat case_match; intros; simplify_eq; try by split.
  all: split; cbn; apply map_Forall_insert_2; try done; by eexists.
Qed.

Lemma Unregister_keyed up t name r s e r' s' c :
  tenant_keyed r -> Unregister up t name r s = (e, r', s', c) -> tenant_keyed r'.
Proof.
  intros [Hcf Hcn]. unfold Unregister. repeat case_match; intros; simplify_eq; try by split.
  all: split; cbn; by apply map_Forall_delete.
Qed.

Lemma lazy_keyed fresh connected key name cfg r res r' :
  tenant_keyed r -> keyed key cfg -> lazyLoadConnector fresh connected key name cfg r = (res, r') ->
  tenant_keyed r' /\ (forall c, res = Ok c -> connected_with c (keyed key)).
Proof.
  intros [Hcf Hcn] Hk. unfold lazyLoadConnector. repeat case_match; intros; simplify_eq; (split; [split; try done|]); try (by intros ? [= ]).
  - intros ? [= <-]. by eapply Hcn.
  - cbn. apply map_Forall_insert_2; [by eexists|done].
  - intros ? [= <-]. by eexists.
Qed.

Lemma lookup_keyed t n r key name cfg : tenant_keyed r -> Get_lookup t n r = Lazy key name cfg -> keyed key cfg.
Proof. intros [Hcf _]. unfold Get_lookup. repeat case_match; intros; simplify_eq. by eapply Hcf. Qed.

Lemma Get_keyed fresh connected t n r res r' :
  no_nul t -> tenant_keyed r -> Get fresh connected t n r = (res, r') ->
  tenant_keyed r' /\ (forall c, res = Ok c -> connected_with c (owned t)).
Proof.
  intros Ht Hr. unfold Get. destruct (Get_lookup t n r) as [c|key name cfg|] eqn:E.
  - intros [= <- <-]. split; [done|]. intros ? [= <-]. unfold Get_lookup in E. repeat case_match; simplify_eq.
    match goal with H : connectors r !! _ = Some _ |- _ => apply (tk_connectors _ Hr) in H as (cfg & Hcfg & Hk) end.
    exists cfg. split; [done|]. by eapply resolved_owned.
  - intros H. apply lazy_keyed in H as [Hr' Hc]; [|done|by eapply lookup_keyed]. split; [done|].
    intros c Hok. destruct (Hc c Hok) as (cfg' & Hcfg & Hk). exists cfg'. split; [done|].
    unfold Get_lookup in E. repeat case_match; simplify_eq. by eapply resolved_owned.
  - intros [= <- <-]. by split.
Qed.
End Ops.
End RegistryFacts.

Module RuntimeFacts.
Import Runtime.

Section Env.
Context (buildURL : string -> list (string * value) -> list (string * string) -> string).
(** The configurations of the process's environment. *)
Context (env : list ConnectorConfig).

Definition granted (t : string) (cfg : ConnectorConfig) : Prop := t = "*" \/ cf_TenantID cfg = t \/ cf_TenantID cfg = "*" \/ cfg ∈ env.

Definition cache_granted (s : RuntimeConfigService) : Prop :=
  map_Forall (fun t e => Forall (granted t) (ce_Value e)) (connectorConfigs (rc_cache s)).

Lemma granted_owned t cfg : t <> "*" -> granted t cfg -> owned t cfg \/ cfg ∈ env.
Proof.
  intros Ht [?|[<-|[E|?]]]; [done|by left; left| |by right].
  left. right. by rewrite E.
Qed.

Lemma database_granted so t l : loadConnectorsFromDatabase buildURL so t = Ok l -> Forall (granted t) l.
Proof.
  unfold loadConnectorsFromDatabase. case_match; intros [= <-]. apply Forall_fmap, Forall_forall. intros r Hr.
  apply elem_of_filter_bool in Hr as [Hr _]. rewrite SliceStable_perm in Hr.
  apply elem_of_filter_bool in Hr as [_ Hr]. apply andb_true_iff in Hr as [Hr%str_eqb_true _].
  right; left. simpl. unfold with_secret. by repeat case_match.
Qed.

Lemma file_granted file t : Forall (granted t) (LoadConnectors file t).
Proof.
  apply Forall_fmap, Forall_forall. intros [n f] Hf. apply elem_of_filter_bool in Hf as [_ Hf].
  unfold file_admits in Hf. apply andb_true_iff in Hf as [_ Hf].
  apply negb_true_iff in Hf. cbn -[str_eqb] in *.
  destruct (str_eqb t "*") eqn:Et; [left; by apply str_eqb_true|]. right.
  destruct (str_eqb (if str_eqb (ff_TenantID f) "" then "*" else ff_TenantID f) "*") eqn:Es; [right; left; by apply str_eqb_true|].
  left. destruct (str_eqb (if str_eqb (ff_TenantID f) "" then "*" else ff_TenantID f) t) eqn:Eo; [by apply str_eqb_true|done].
Qed.

Lemma first_source_granted s so t l src : so_env so = env -> first_source buildURL s so t = Some (l, src) -> Forall (granted t) l.
Proof.
  intros He. unfold first_source.
  pose proof (match rc_file s as o return Forall (granted t) (match o with Some f => LoadConnectors f t | None => [] end) with
              | Some f => file_granted f t | None => Forall_nil_2 _ end) as Hf.
  assert (Hd : Forall (granted t) (if rc_db s && negb (rc_selfHosted s)
                                   then match loadConnectorsFromDatabase buildURL so t with Ok l => l | Err _ => [] end else [])).
  { destruct (_ && _); [|apply Forall_nil_2]. destruct (loadConnectorsFromDatabase _ _ _) eqn:E; [by eapply database_granted|apply Forall_nil_2]. }
  repeat case_match; intros [= <- <-]; try done.
  all: apply Forall_forall; intros x Hx; do 3 right; congruence.
Qed.

Lemma GetConnectorConfigs_granted now later so t s res s' :
  so_env so = env -> cache_granted s -> GetConnectorConfigs buildURL now later so t s = (res, s') ->
  cache_granted s' /\ (forall l src, res = Ok (l, src) -> Forall (granted t) l).
Proof.
  intros He Hs. unfold GetConnectorConfigs, GetConnectors, live. repeat case_match; intros; simplify_eq.
  - split; [done|]. intros ? ? [= <- <-]. by eapply Hs.
  - assert (Hl : Forall (granted t) l) by by eapply first_source_granted.
    split; [by apply map_Forall_insert_2|]. by intros ? ? [= <- <-].
  - by split.
  - assert (Hl : Forall (granted t) l) by by eapply first_source_granted.
    split; [by apply map_Forall_insert_2|]. by intros ? ? [= <- <-].
  - by split.
Qed.

Lemma GetConnectorConfig_granted now later so t n s res s' :
  so_env so = env -> cache_granted s -> GetConnectorConfig buildURL now later so t n s = (res, s') ->
  cache_granted s' /\ (forall cfg src, res = Ok (cfg, src) -> granted t cfg).
Proof.
  intros He Hs. unfold GetConnectorConfig. destruct (GetConnectorConfigs _ _ _ _ _ _) as [g s''] eqn:E.
  destruct (GetConnectorConfigs_granted _ _ _ _ _ _ _ He Hs E) as [Hs'' Hl].
  repeat case_match; intros; simplify_eq; split; try done; intros ? ? [= <- <-].
  match goal with H : find_first _ _ = Some _ |- _ => apply find_first_Some in H as [Hin _] end.
  eapply Forall_forall; [by eapply Hl|done].
Qed.

Lemma RefreshConnectorConfig_granted now t n s : cache_granted s -> cache_granted (RefreshConnectorConfig now t n s).
Proof.
  intros Hs. unfold RefreshConnectorConfig, cache_granted. cbn. unfold invalidate. repeat case_match; try done.
  - by apply map_Forall_delete.
  - apply map_Forall_insert_2; [|done]. cbn. apply Forall_forall. intros x Hx. apply elem_of_filter_bool in Hx as [Hx _].
    eapply Forall_forall; [by eapply Hs|done].
Qed.
End Env.

(** After a refresh of the whole tenant the next request reads the sources again. *)
Lemma refresh_tenant_reloads buildURL now now' later so t s :
  (GetConnectorConfigs buildURL now' later so t (RefreshConnectorConfig now t "" s)).1 =
  match first_source buildURL s so t with
  | Some r => Ok r
  | None => Err ("no connector configurations found for tenant " +:+ t)
  end.
Proof.
  unfold GetConnectorConfigs, GetConnectors, live. cbn -[str_eqb]. unfold invalidate. rewrite str_eqb_refl, lookup_delete_eq.
  change (first_source buildURL _ so t) with (first_source buildURL s so t). by destruct (first_source _ _ _ _) as [[]|].
Qed.

(** A refresh of one connector takes it out of an unexpired list instead: until the list
    expires it is not found, whatever the sources hold. *)
Lemma refresh_connector_hides buildURL now now' later so t n s e :
  connectorConfigs (rc_cache s) !! t = Some e -> n <> "" -> now <= ce_ExpiresAt e -> now' <= ce_ExpiresAt e ->
  (GetConnectorConfig buildURL now' later so t n (RefreshConnectorConfig now t n s)).1
  = Err ("connector '" +:+ n +:+ "' not found for tenant " +:+ t).
Proof.
  intros He Hn Hnow Hnow'. unfold GetConnectorConfig, GetConnectorConfigs, GetConnectors, live. cbn -[str_eqb]. unfold invalidate.
  assert (Hlive : forall k, k <= ce_ExpiresAt e -> IsExpired k e = false) by (intros k Hk; apply Z.ltb_ge; done).
  replace (str_eqb n "") with false by (symmetry; by apply str_eqb_false).
  rewrite He, Hlive, lookup_insert_eq by done. unfold IsExpired in *. cbn. rewrite Hlive by done. cbn.
  destruct (find_first _ _) as [cfg|] eqn:E; [|done]. apply find_first_Some in E as [Hin Hname].
  apply elem_of_filter_bool in Hin as [_ Hin]. by rewrite Hname in Hin.
Qed.
End RuntimeFacts.

Module TenantFacts.
Import Tenant.

(** Without the separator of the cache's keys. *)
Definition no_colon (t : string) : Prop := ":"%char ∉ chars t.

#[export] Instance no_colon_dec t : Decision (no_colon t).
Proof. unfold no_colon. apply _. Defined.

Lemma split_at_inj {A} (x : A) l1 l2 r1 r2 : x ∉ l1 -> x ∉ l2 -> l1 ++ x :: r1 = l2 ++ x :: r2 -> l1 = l2 /\ r1 = r2.
Proof.
  revert l2. induction l1 as [|a l1 IH]; intros [|b l2] H1 H2 E; cbn in E; simplify_eq; [done|set_solver|set_solver|].
  destruct (IH l2) as [-> ->]; [set_solver|set_solver|done|done].
Qed.

Lemma connectorKey_inj t1 n1 t2 n2 : no_colon t1 -> no_colon t2 -> connectorKey t1 n1 = connectorKey t2 n2 -> t1 = t2 /\ n1 = n2.
Proof.
  intros H1 H2 E. apply (f_equal chars) in E. unfold connectorKey in E. rewrite !chars_app in E.
  destruct (split_at_inj ":"%char (chars t1) (chars t2) (chars n1) (chars n2)) as [Et En]; [done..|].
  by rewrite <- (of_chars_chars t1), <- (of_chars_chars n1), Et, En, !of_chars_chars.
Qed.

Section Env.
Context (buildURL : string -> list (string * value) -> list (string * string) -> string).
Context (env : list ConnectorConfig).
Local Abbreviation granted := (RuntimeFacts.granted env).

Definition entry_granted (key : string) (e : TenantConnectorEntry) : Prop :=
  exists t n, key = connectorKey t n /\ no_colon t /\ connected_with (te_Connector e) (granted t).
Definition entries_granted (r : TenantConnectorRegistry) : Prop := map_Forall entry_granted (connectors r).
Definition service_granted (svc : option Runtime.RuntimeConfigService) : Prop := forall s, svc = Some s -> RuntimeFacts.cache_granted env s.

Lemma cached_entry now key r c : entries_granted r -> cached now key r = Some c ->
  exists t n, key = connectorKey t n /\ no_colon t /\ connected_with c (granted t).
Proof. intros Hr. unfold cached. repeat case_match; intros [= <-]. by eapply Hr. Qed.

Lemma cached_granted now t n r c : no_colon t -> entries_granted r -> cached now (connectorKey t n) r = Some c -> connected_with c (granted t).
Proof.
  intros Ht Hr H. destruct (cached_entry _ _ _ _ Hr H) as (t' & n' & E & Ht' & Hc).
  by destruct (connectorKey_inj _ _ _ _ Ht Ht' E) as [-> _].
Qed.

Lemma touch_granted now key f r : entries_granted r -> entries_granted (with_stats (updateLastAccess now key r) f).
Proof.
  intros Hr. unfold updateLastAccess. case_match eqn:E; [|done]. unfold entries_granted. cbn.
  apply map_Forall_insert_2; [|done]. apply (Hr _ _ E).
Qed.

Lemma evict_granted gone r closed r' : evict gone r = (closed, r') -> entries_granted r -> entries_granted r'.
Proof. intros [= <- <-] Hr key e He. apply map_lookup_filter_Some in He as [He _]. by apply Hr. Qed.

Lemma refresh_service_granted now t n svc : service_granted svc -> service_granted (Runtime.RefreshConnectorConfig now t n <$> svc).
Proof. intros H s Hs. apply fmap_Some in Hs as (s0 & -> & ->). by apply RuntimeFacts.RefreshConnectorConfig_granted, H. Qed.

Lemma refresh_all_granted svc : service_granted (Runtime.RefreshAllConfigs <$> svc).
Proof. intros s Hs. apply fmap_Some in Hs as (s0 & -> & ->). apply map_Forall_empty. Qed.

Lemma loadConnector_granted ld t n r svc res r' svc' :
  no_colon t -> Runtime.so_env (ld_sources ld) = env -> entries_granted r -> service_granted svc ->
  loadConnector buildURL ld t n r svc = (res, r', svc') ->
  entries_granted r' /\ service_granted svc' /\ (forall c, res = Ok c -> connected_with c (granted t)).
Proof.
  intros Ht He Hr Hs. unfold loadConnector. destruct (cached _ _ _) as [c|] eqn:Ec.
  { intros [= <- <- <-]. split; [by apply touch_granted|split; [done|]]. intros ? [= <-]. by eapply cached_granted. }
  destruct svc as [s|]; [|by intros [= <- <- <-]].
  destruct (Runtime.GetConnectorConfig _ _ _ _ _ _ _) as [res0 s0] eqn:Eg.
  destruct (RuntimeFacts.GetConnectorConfig_granted _ _ _ _ _ _ _ _ _ _ He (Hs _ eq_refl) Eg) as [Hs0 Hcfg].
  assert (Hsvc : service_granted (Some s0)) by (by intros ? [= <-]).
  repeat case_match; intros; simplify_eq; (split; [|split]); try done.
  - unfold entries_granted. cbn. apply map_Forall_insert_2; [|done].
    exists t, n. split; [done|split; [done|]]. eexists. split; [done|]. by eapply Hcfg.
  - intros ? [= <-]. eexists. split; [done|]. by eapply Hcfg.
Qed.

Lemma GetConnector_granted ld t n r svc res r' svc' :
  no_colon t -> Runtime.so_env (ld_sources ld) = env -> entries_granted r -> service_granted svc ->
  GetConnector buildURL ld t n r svc = (res, r', svc') ->
  entries_granted r' /\ service_granted svc' /\ (forall c, res = Ok c -> connected_with c (granted t)).
Proof.
  intros Ht He Hr Hs. unfold GetConnector. destruct (cached _ _ _) as [c|] eqn:Ec; [|by apply loadConnector_granted].
  intros [= <- <- <-]. split; [by apply touch_granted|split; [done|]]. intros ? [= <-]. by eapply cached_granted.
Qed.
End Env.

(** A tenant's refresh removes its entries and no other tenant's. *)
Lemma RefreshTenant_exact now t r svc closed r' svc' t' n e :
  no_colon t -> no_colon t' -> RefreshTenant now t r svc = (closed, r', svc') -> connectors r !! connectorKey t' n = Some e ->
  connectors r' !! connectorKey t' n = (if str_eqb t t' then None else Some e) /\ (t = t' -> te_Connector e ∈ closed).
Proof.
  intros Ht Ht' [= <- <- <-] He.
  assert (Hof : of_tenant t (connectorKey t' n) = str_eqb t t').
  { unfold of_tenant. apply eq_bool_prop_intro. rewrite !Is_true_true, HasPrefix_app, str_eqb_true. split.
    - intros [x Hx]. apply (connectorKey_inj t' n t x) in Ht' as [-> _]; [done|done|].
      rewrite Hx. unfold connectorKey. by rewrite <- of_chars_chars, <- (of_chars_chars (_ +:+ _)), !chars_app, <- (assoc_L _).
    - intros <-. exists n. unfold connectorKey. by rewrite <- of_chars_chars, <- (of_chars_chars (_ +:+ _)), !chars_app, <- (assoc_L _). }
  split.
  - cbn -[of_tenant]. destruct (str_eqb t t') eqn:E; [apply map_lookup_filter_None; right; intros x Hx; cbn -[of_tenant]; by rewrite Hof|].
    by apply map_lookup_filter_Some.
  - intros ->. rewrite str_eqb_refl in Hof. apply list_elem_of_fmap. exists e. split; [done|]. apply list_elem_of_fmap.
    exists (connectorKey t' n, e). split; [done|]. apply elem_of_filter_bool. split; [by apply elem_of_map_to_list|done].
Qed.
End TenantFacts.

(** * The agent's registries together *)

Module AgentConnectors.
Import RegistryFacts TenantFacts.

(** The registries with the lazy loads that are between their two locks. *)
Definition agent : Type := Connectors * list (string * string * ConnectorConfig).

Section System.
Context `{CC : ConnectorColumns}.
Context (buildURL : string -> list (string * value) -> list (string * string) -> string).
Context (env : list ConnectorConfig).

(** One critical section of one goroutine. The cache of connectors is asked for tenants
    without a colon, and configurations name tenants without a NUL. *)
Inductive agent_step : agent -> agent -> Prop :=
| step_access now later so n t g g' e p : Runtime.so_env so = env ->
    validateTenantConnectorAccess buildURL now later so n t g = (e, g') -> agent_step (g, p) (g', p)
| step_hit now key f g p r : cn_tenant g = Some r ->
    agent_step (g, p) (mkConnectors (cn_static g) (Some (Tenant.with_stats (Tenant.updateLastAccess now key r) f)) (cn_service g), p)
| step_load ld t n g p r r' res svc' : cn_tenant g = Some r -> no_colon t -> Runtime.so_env (Tenant.ld_sources ld) = env ->
    Tenant.loadConnector buildURL ld t n r (cn_service g) = (res, r', svc') -> agent_step (g, p) (mkConnectors (cn_static g) (Some r') svc', p)
| step_refresh_tenant now t g p r closed r' svc' : cn_tenant g = Some r ->
    Tenant.RefreshTenant now t r (cn_service g) = (closed, r', svc') -> agent_step (g, p) (mkConnectors (cn_static g) (Some r') svc', p)
| step_refresh_connector now t n g p r closed r' svc' : cn_tenant g = Some r ->
    Tenant.RefreshConnector now t n r (cn_service g) = (closed, r', svc') -> agent_step (g, p) (mkConnectors (cn_static g) (Some r') svc', p)
| step_refresh_all g p r closed r' svc' : cn_tenant g = Some r ->
    Tenant.RefreshAll r (cn_service g) = (closed, r', svc') -> agent_step (g, p) (mkConnectors (cn_static g) (Some r') svc', p)
| step_cleanup now g p r closed r' : cn_tenant g = Some r -> Tenant.Cleanup now r = (closed, r') ->
    agent_step (g, p) (mkConnectors (cn_static g) (Some r') (cn_service g), p)
| step_register connected up now name c config g p r s e r' s' : cn_static g = Some r ->
    (forall cfg, config = Some cfg -> no_nul (cf_TenantID cfg)) ->
    Registry.Register connected up now name c config r s = (e, r', s') -> agent_step (g, p) (mkConnectors (Some r') (cn_tenant g) (cn_service g), p)
| step_unregister up t name g p r s e r' s' c : cn_static g = Some r ->
    Registry.Unregister up t name r s = (e, r', s', c) -> agent_step (g, p) (mkConnectors (Some r') (cn_tenant g) (cn_service g), p)
| step_reload list_up up g p r s : cn_static g = Some r -> rows_ok s ->
    agent_step (g, p) (mkConnectors (Some (Registry.ReloadFromStorage list_up up s r).2) (cn_tenant g) (cn_service g), p)
| step_factory f g p r : cn_static g = Some r -> agent_step (g, p) (mkConnectors (Some (Registry.SetFactory f r)) (cn_tenant g) (cn_service g), p)
| step_lookup t n g p r key name cfg : cn_static g = Some r ->
    Registry.Get_lookup t n r = Registry.Lazy key name cfg -> agent_step (g, p) (g, (key, name, cfg) :: p)
| step_lazy fresh connected key name cfg g p r res r' : cn_static g = Some r -> (key, name, cfg) ∈ p ->
    Registry.lazyLoadConnector fresh connected key name cfg r = (res, r') -> agent_step (g, p) (mkConnectors (Some r') (cn_tenant g) (cn_service g), p).

(** At boot: an empty or a freshly loaded registry, an empty cache, an empty service. *)
Definition boot (a : agent) : Prop :=
  a.2 = [] /\
  (forall r, cn_static a.1 = Some r -> r = Registry.NewRegistry \/ exists list_up up s, rows_ok s /\ r = Registry.NewRegistryWithStorage list_up up s) /\
  (forall r, cn_tenant a.1 = Some r -> exists f ttl, r = Tenant.NewTenantConnectorRegistry f ttl) /\
  (forall s, cn_service a.1 = Some s -> exists db self file ttl, s = Runtime.mkRuntimeConfig db self file (Runtime.NewConfigCache ttl)).

Record separated (a : agent) : Prop := {
  sp_static : forall r, cn_static a.1 = Some r -> tenant_keyed r;
  sp_tenant : forall r, cn_tenant a.1 = Some r -> entries_granted env r;
  sp_service : service_granted env (cn_service a.1);
  sp_pending : Forall (fun l => keyed l.1.1 l.2) a.2 }.

Lemma boot_separated a : boot a -> separated a.
Proof.
  intros (Hp & Hs & Ht & Hc). split.
  - intros r Hr. destruct (Hs r Hr) as [->|(l & up & s & Hok & ->)]; [apply new_registry_keyed|].
    apply loadFromStorage_keyed; [done|]. apply new_registry_keyed.
  - intros r Hr. destruct (Ht r Hr) as (f & ttl & ->). apply map_Forall_empty.
  - intros s Hs'. destruct (Hc s Hs') as (db & self & file & ttl & ->). apply map_Forall_empty.
  - rewrite Hp. constructor.
Qed.

Lemma access_separated now later so n t g g' e :
  Runtime.so_env so = env -> service_granted env (cn_service g) -> validateTenantConnectorAccess buildURL now later so n t g = (e, g') ->
  cn_static g' = cn_static g /\ cn_tenant g' = cn_tenant g /\ service_granted env (cn_service g').
Proof.
  intros He Hs. unfold validateTenantConnectorAccess. destruct (cn_service g) as [s|].
  - destruct (Runtime.GetConnectorConfig _ _ _ _ _ _ _) as [res s0] eqn:Eg.
    destruct (RuntimeFacts.GetConnectorConfig_granted _ _ _ _ _ _ _ _ _ _ He (Hs _ eq_refl) Eg) as [Hs0 _].
    repeat case_match; intros; simplify_eq; (split; [done|split; [done|]]); by intros ? [= <-].
  - cbn. case_match; intros; simplify_eq; split; done.
Qed.

(** A step keeps [separated]: what it replaces is again so. *)
Ltac rebuild H :=
  destruct H as [Hst Hte Hse Hpe]; split; cbn in *; [intros ? ?; simplify_eq; eauto|intros ? ?; simplify_eq; eauto|try done|try done].

Lemma step_separated a a' : agent_step a a' -> separated a -> separated a'.
Proof.
  intros Hstep H. destruct Hstep.
  - destruct (access_separated _ _ _ _ _ _ _ _ H0 (sp_service _ H) H1) as (E1 & E2 & Hs). rebuild H; congruence || eauto using eq_trans.
  - rebuild H. by apply touch_granted, Hte.
  - destruct (loadConnector_granted _ _ _ _ _ _ _ _ _ _ H1 H2 (sp_tenant _ H _ H0) (sp_service _ H) H3) as (Hr & Hs & _). by rebuild H.
  - rebuild H; unfold Tenant.RefreshTenant in *; simplify_eq; [by eapply evict_granted; eauto|by apply refresh_service_granted].
  - rebuild H; unfold Tenant.RefreshConnector in *; simplify_eq; [by eapply evict_granted; eauto|by apply refresh_service_granted].
  - rebuild H; unfold Tenant.RefreshAll in *; simplify_eq; [by eapply evict_granted; eauto|by apply refresh_all_granted].
  - rebuild H. eapply evict_granted; [done|by apply Hte].
  - rebuild H. eapply Register_keyed; [done|by apply Hst|done].
  - rebuild H. eapply Unregister_keyed; [by apply Hst|done].
  - rebuild H. by apply ReloadFromStorage_keyed, Hst.
  - rebuild H. by destruct (Hst _ H0).
  - rebuild H. constructor; [|done]. cbn. eapply lookup_keyed; [by apply Hst|done].
  - rebuild H. eapply lazy_keyed; [by apply Hst| |done]. by apply (Forall_forall _ _) with (1 := Hpe) in H1.
Qed.

Lemma reachable_separated a a' : boot a -> rtc agent_step a a' -> separated a'.
Proof.
  intros Hb Hr. assert (Hs : separated a) by by apply boot_separated. clear Hb.
  induction Hr; eauto using step_separated.
Qed.

Lemma static_owned fresh connected t n g res g' :
  no_nul t -> (forall r, cn_static g = Some r -> tenant_keyed r) -> static_connector fresh connected t n g = (res, g') ->
  forall c, res = Ok c -> connected_with c (owned t).
Proof.
  intros Ht Hg. unfold static_connector. destruct (cn_static g) as [r|]; [|by intros [= <- <-] ? [=]].
  destruct (Registry.Get _ _ _ _ _) as [res0 r0] eqn:E.
  destruct (Get_keyed _ _ _ _ _ _ _ Ht (Hg _ eq_refl) E) as [_ Hc]. case_match; intros [= <- <-] c [= <-]. by apply Hc.
Qed.

Lemma separated_owned g p ld fresh connected t n c g' :
  separated (g, p) -> no_nul t -> no_colon t -> t <> Registry.SharedTenant -> Runtime.so_env (Tenant.ld_sources ld) = env ->
  GetConnectorForTenant buildURL ld fresh connected t n g = (Ok c, g') -> connected_with c (fun cfg => owned t cfg \/ cfg ∈ env).
Proof.
  intros [Hst Hte Hse _] Hn Hc Hs He. unfold GetConnectorForTenant. cbn in *. destruct (cn_tenant g) as [r|] eqn:Et.
  - destruct (Tenant.GetConnector _ _ _ _ _ _) as [[res r'] svc'] eqn:E.
    destruct (GetConnector_granted _ _ _ _ _ _ _ _ _ _ Hc He (Hte _ eq_refl) Hse E) as (_ & _ & Hok). destruct res as [c0|e].
    + intros [= <- <-]. destruct (Hok c0 eq_refl) as (cfg & Hcfg & Hg). exists cfg. eauto using RuntimeFacts.granted_owned.
    + intros H. edestruct static_owned as (cfg & ? & ?); [exact Hn| |exact H|done|]; [eauto|]. exists cfg. eauto.
  - intros H. edestruct static_owned as (cfg & ? & ?); [exact Hn| |exact H|done|]; [eauto|]. exists cfg. eauto.
Qed.

Definition reachable (g : Connectors) : Prop := exists a p, boot a /\ rtc agent_step a (g, p).

Lemma reachable_access now later so n t g e g' :
  reachable g -> Runtime.so_env so = env -> validateTenantConnectorAccess buildURL now later so n t g = (e, g') -> reachable g'.
Proof. intros (a & p & Hb & Hr) He Ha. exists a, p. split; [done|]. eapply rtc_r; [done|]. by eapply step_access. Qed.

(** The connectors read from the environment variables are shared ones: they name no
    tenant, the default of those variables. *)
Definition shared_env : Prop := Forall (fun cfg => Registry.normalizeTenant (cf_TenantID cfg) = Registry.SharedTenant) env.

Lemma shared_env_owned t cfg : shared_env -> owned t cfg \/ cfg ∈ env -> owned t cfg.
Proof. intros He [?|Hc]; [done|]. right. by eapply (proj1 (Forall_forall _ _) He). Qed.

(** C12: Tenants do not reach each other's connectors, as long as the separators of the
    keys are kept out of their names. Let the agent have looked up only tenants without a
    colon in its cache (the separator of the cache's keys) and stored only configurations
    whose tenant has no NUL (the separator of the registry's), and let the environment
    variables bind no connector to a tenant. Then in every state the agent's registries
    can come to, whatever goroutines interleave between the two locks of a lazy load, the
    connector that GetConnectorForTenant hands to a tenant whose name has neither
    separator and is not the shared one was connected with a configuration of that tenant
    or of the shared scope. *)
Theorem tenant_connector_isolation g ld fresh connected t n c g' :
  reachable g -> no_nul t -> no_colon t -> t <> Registry.SharedTenant -> shared_env ->
  Runtime.so_env (Tenant.ld_sources ld) = env ->
  GetConnectorForTenant buildURL ld fresh connected t n g = (Ok c, g') ->
  exists cfg, co_config c = Some cfg /\ owned t cfg.
Proof.
  intros (a & p & Hb & Hr) Hn Hc Hs Hsh He Hg.
  destruct (separated_owned g p ld fresh connected t n c g') as (cfg & Ho & Hcfg); eauto using reachable_separated, shared_env_owned.
Qed.
End System.

(** ** Concrete registries *)

#[export] Instance plain_columns : ConnectorColumns := { options_column := Some; credentials_column := Some }.
Definition no_url (_ : string) (_ : list (string * value)) (_ : list (string * string)) : string := "".
Definition any_type : Factory := fun ty fresh => Ok (mkConnector fresh ty None).

Definition pg (tenant name password : string) : ConnectorConfig :=
  mkConnectorConfig name "postgres" "postgres://db" [("password", password)] [] (5 * Second) 3 tenant.
Definition pg_row (tenant name password : string) : Runtime.ConnectorConfigDB :=
  Runtime.mkConfigDB tenant name "postgres" "" (Some []) (Some [("password", password)]) "" 5000 3 true None true.
Definition sources (rows : list Runtime.ConnectorConfigDB) (env : list ConnectorConfig) : Runtime.Sources := Runtime.mkSources (Ok rows) None env.
Definition load (now : Z) (fresh : nat) (so : Runtime.Sources) : Tenant.Load := Tenant.mkLoad now now now now now so fresh None now.
Definition service (db : bool) : Runtime.RuntimeConfigService := Runtime.mkRuntimeConfig db false None (Runtime.NewConfigCache (30 * Second)).
Definition booted (db : bool) : Connectors :=
  mkConnectors (Some Registry.NewRegistry) (Some (Tenant.NewTenantConnectorRegistry (Some any_type) 0)) (Some (service db)).

Lemma booted_reachable env db : reachable no_url env (booted db).
Proof. exists (booted db, []), []. split; [|done]. split; [done|]. split_and!; intros ? [= <-]; [by left|by repeat eexists..]. Qed.

Definition password_of (r : result string Connector) : option string :=
  match r with Ok c => cfg ← co_config c; assoc_get "password" (cf_Credentials cfg) | Err _ => None end.

Lemma tenant_connector_isolation_witness :
  let env := [pg "*" "postgres" "shared"] in
  let ld := load 0 0 (sources [pg_row "acme" "crm" "s3cret"] env) in
  exists c cfg, (GetConnectorForTenant no_url ld 0 None "acme" "crm" (booted true)).1 = Ok c /\ co_config c = Some cfg /\ owned "acme" cfg.
Proof.
  intros env ld.
  destruct (GetConnectorForTenant no_url ld 0 None "acme" "crm" (booted true)) as [[c|e] g'] eqn:E; [|vm_compute in E; discriminate].
  assert (Hn : no_nul "acme") by (by apply (bool_decide_unpack _); vm_compute).
  assert (Hk : no_colon "acme") by (by apply (bool_decide_unpack _); vm_compute).
  assert (He : shared_env env) by (repeat constructor).
  destruct (tenant_connector_isolation no_url env (booted true) ld 0 None "acme" "crm" c g'
              (booted_reachable env true) Hn Hk ltac:(discriminate) He eq_refl E) as (cfg & Hc & Ho).
  exists c, cfg. split; [done|]. split; [exact Hc|exact Ho].
Defined.

(** A connector of the environment bound to one tenant is served to another; the static
    registry refuses it. *)
Example env_tenant_ignored :
  let env := [pg "acme" "postgres" "s3cret"] in
  let static := (Registry.Register None true 0 "postgres" (mkConnector 0 "postgres" None) (Some (pg "acme" "postgres" "s3cret")) Registry.NewRegistry
                   (Registry.mkStorage [] true true)).1.2 in
  let g := mkConnectors (Some static) (cn_tenant (booted false)) (cn_service (booted false)) in
  password_of (GetConnectorForTenant no_url (load 0 1 (sources [] env)) 0 None "globex" "postgres" g).1 = Some "s3cret" /\
  Registry.ValidateTenantAccess "postgres" "globex" static = Some "tenant 'globex' does not have access to connector 'postgres'".
Proof. vm_compute. done. Qed.

(** With a colon in a tenant's name two keys of the cache meet: tenant a is served the
    connector of tenant a:b. *)
Example colon_tenant_served_another :
  let so := sources [pg_row "a:b" "crm" "s3cret"] [] in
  let '(_, g) := GetConnectorForTenant no_url (load 0 0 so) 0 None "a:b" "crm" (booted true) in
  password_of (GetConnectorForTenant no_url (load Second 1 so) 0 None "a" "b:crm" g).1 = Some "s3cret" /\
  (validateTenantConnectorAccess no_url Second Second so "b:crm" "a" g).1 = Some "tenant 'a' does not have access to connector 'b:crm'".
Proof. vm_compute. done. Qed.

(** Refreshing one connector of a tenant makes it vanish, though its row is there. *)
Example refreshed_connector_vanishes :
  let so := sources [pg_row "acme" "crm" "old"; pg_row "acme" "erp" "x"] [] in
  let so' := sources [pg_row "acme" "crm" "new"; pg_row "acme" "erp" "x"] [] in
  let '(_, g) := GetConnectorForTenant no_url (load 0 0 so) 0 None "acme" "crm" (booted true) in
  let '(status, _, (t, svc), _) := Tenant.connectorRefreshSingleHandler Second "acme" "acme" "crm" (cn_tenant g, cn_service g) in
  let g := mkConnectors (cn_static g) t svc in
  status = 200 /\ is_ok (GetConnectorForTenant no_url (load (2 * Second) 1 so') 1 None "acme" "crm" g).1 = false /\
  password_of (GetConnectorForTenant no_url (load (31 * Second) 1 so') 1 None "acme" "crm" g).1 = Some "new".
Proof. vm_compute. done. Qed.

(** A connector that expires is replaced without being disconnected: closing everything
    afterwards closes only the second. *)
Example expired_connector_leaks :
  let so := sources [pg_row "acme" "crm" "x"] [] in
  let '(_, g) := GetConnectorForTenant no_url (load 0 0 so) 0 None "acme" "crm" (booted true) in
  let '(_, g) := GetConnectorForTenant no_url (load (31 * Second) 1 so) 0 None "acme" "crm" g in
  from_option (fun r => co_id <$> (Tenant.DisconnectAll r).1) [] (cn_tenant g) = [1%nat].
Proof. vm_compute. done. Qed.

Definition stored (rls : bool) : Registry.Storage := Registry.mkStorage [] rls true.
Definition replica : Registry.Registry := Registry.SetFactory any_type (Registry.NewRegistryWithStorage true (fun _ => true) (stored true)).

(** An unregistration between the two locks of a lazy load is undone: the connector is
    served, without a configuration. *)
Example unregistered_connector_revived :
  let c := mkConnector 0 "postgres" None in
  let '(_, r, s) := Registry.Register None true 0 "crm" c (Some (pg "acme" "crm" "x")) replica (stored true) in
  let r := Registry.SetFactory any_type (Registry.NewRegistryWithStorage true (fun _ => true) s) in
  match Registry.Get_lookup "acme" "crm" r with
  | Registry.Lazy key name cfg =>
      let '(_, r, s, _) := Registry.Unregister true "acme" "crm" r s in
      let '(_, r) := Registry.lazyLoadConnector 1 None key name cfg r in
      is_ok (Registry.Get 2 None "acme" "crm" r).1 = true /\ is_ok (Registry.GetConfig "acme" "crm" r) = false
  | _ => False
  end.
Proof. vm_compute. done. Qed.

(** What is stored is not what was registered: the connection URL is lost, and with it
    the retries. *)
Example stored_connector_loses_url :
  let '(_, _, s) := Registry.Register None true 0 "crm" (mkConnector 0 "postgres" None) (Some (pg "acme" "crm" "x")) replica (stored true) in
  match Registry.GetConfig "acme" "crm" (Registry.NewRegistryWithStorage true (fun _ => true) s) with
  | Ok cfg => cf_ConnectionURL cfg = "" /\ cf_MaxRetries cfg = 0 /\ cf_Credentials cfg = [("password", "x")]
  | Err _ => False
  end.
Proof. vm_compute. done. Qed.

(** The guard on names looks at one replica's memory: without row-level security a second
    replica writes another tenant's credentials into the first tenant's row. *)
Example replicas_overwrite_credentials :
  let c := mkConnector 0 "postgres" None in
  let '(_, _, s) := Registry.Register None true 0 "crm" c (Some (pg "acme" "crm" "acme-secret")) replica (stored false) in
  let '(e, _, s) := Registry.Register None true 1 "crm" c (Some (pg "globex" "crm" "globex-secret")) replica s in
  e = None /\
  match Registry.GetConfig "acme" "crm" (Registry.NewRegistryWithStorage true (fun _ => true) s) with
  | Ok cfg => cf_TenantID cfg = "acme" /\ cf_Credentials cfg = [("password", "globex-secret")]
  | Err _ => False
  end.
Proof. vm_compute. done. Qed.

(** A removal whose statement fails is undone by the next reload; a second registration
    under the same tenant and name is refused only while the first one is instantiated. *)
Example removal_undone_and_duplicate_accepted :
  let c := mkConnector 0 "postgres" None in
  let '(_, r, s) := Registry.Register None true 0 "crm" c (Some (pg "acme" "crm" "old")) replica (stored true) in
  let '(_, r1, s1, _) := Registry.Unregister false "acme" "crm" r s in
  let r2 := Registry.NewRegistryWithStorage true (fun _ => true) s in
  is_ok (Registry.GetConfig "acme" "crm" r1) = false /\
  is_ok (Registry.GetConfig "acme" "crm" (Registry.ReloadFromStorage true (fun _ => true) s1 r1).2) = true /\
  (Registry.Register None true 1 "crm" c (Some (pg "acme" "crm" "new")) r2 s).1.1 = None.
Proof. vm_compute. done. Qed.
End AgentConnectors.
