(* ===== verification/LogSanitize.v ===== *)
(** Log sanitising, src/platform/shared/logger/sanitize.go: line breaks are
    escaped, terminal sequences dropped, long fields cut. *)

From S2P Require Import Prelude GoStrings Regexp Redactor.

Local Open Scope Z_scope.

Definition ESC : ascii := "027".
Definition LF : ascii := "010".
Definition CR : ascii := "013".
Definition TAB : ascii := "009".
Definition NULL : ascii := "000".

(** [strings.ReplaceAll(s, c, by)] for a one byte [c]. *)
Definition ReplaceByte (s : string) (c : ascii) (by_ : string) : string :=
  of_chars (chars s ≫= fun a => if bool_decide (a = c) then chars by_ else [a]).

Definition byte_class (c : Z) : regex := RClass false false [(c, c)].

(** The expression ESC [ digits-or-semicolons letter. *)
Definition ansiRegex : regex :=
  RCat (byte_class 27) (RCat (byte_class 91)
    (RCat (RStar true (RClass false false [(48, 57); (59, 59)]))
          (RClass false false [(97, 122); (65, 90)]))).

Definition maxLogFieldLength : nat := 500.

Definition Sanitize (s : string) : string :=
  let s := RemoveAll s NULL in
  let s := ReplaceByte s LF "\n" in
  let s := ReplaceByte s CR "\r" in
  let s := ReplaceByte s TAB "\t" in
  let s := ReplaceAllStringFunc ansiRegex s (fun _ => "") in
  if (maxLogFieldLength <? len s)%nat
  then slice s 0 maxLogFieldLength +:+ "...[truncated]" else s.

(** A negative count of visible characters panics in the source ([None]). *)
Definition MaskSecret (s : string) (visibleChars : Z) : option string :=
  if Z.of_nat (len s) <=? visibleChars then Some "****"
  else if visibleChars <? 0 then None
  else Some (slice s 0 (Z.to_nat visibleChars) +:+ "****").

(** * Facts *)

Lemma elem_of_ReplaceByte x s c b :
  x ∈ chars (ReplaceByte s c b) -> (x ∈ chars s /\ x <> c) \/ x ∈ chars b.
Proof.
  unfold ReplaceByte. rewrite chars_of_chars, list_elem_of_bind.
  intros (a & Hx & Ha). destruct (bool_decide (a = c)) eqn:E; bool_simpl; [by right|].
  apply list_elem_of_singleton in Hx as ->. by left.
Qed.

(** The escapes written for the three line-breaking bytes are of printable bytes. *)
Lemma escaped_or x s c e :
  x ∈ chars (ReplaceByte s c (String "\" (String e ""))) ->
  (x ∈ chars s /\ x <> c) \/ x = "\"%char \/ x = e.
Proof.
  intros [H|H]%elem_of_ReplaceByte; [by left|right].
  change (x ∈ ["\"%char; e]) in H. set_solver.
Qed.

Lemma elem_of_slice x s i j : x ∈ chars (slice s i j) -> x ∈ chars s.
Proof. unfold slice. rewrite chars_of_chars. intros H%subseteq_take. by apply subseteq_drop in H. Qed.

Lemma elem_of_removed x re s :
  x ∈ chars (ReplaceAllStringFunc re s (fun _ => "")) -> x ∈ chars s.
Proof.
  unfold ReplaceAllStringFunc. generalize 0%nat (FindAllStringIndex re s). intros lo locs.
  revert lo. induction locs as [|[a b] l IH]; intros lo; cbn [rebuild].
  - apply elem_of_slice.
  - rewrite !chars_app, !elem_of_app. intros [H|[H|H]]; [by eapply elem_of_slice| |eauto].
    by apply not_elem_of_nil in H.
Qed.

Definition breaks (a : ascii) : bool :=
  bool_decide (a = LF) || bool_decide (a = CR) || bool_decide (a = TAB) || bool_decide (a = NULL).

(** A sanitised field fits on one line: no line break, tab or NUL survives, and
    it is at most 514 bytes long. *)
Theorem Sanitize_one_line s :
  Forall (fun a => breaks a = false) (chars (Sanitize s)) /\ (len (Sanitize s) <= 514)%nat.
Proof.
  unfold Sanitize. set (t := ReplaceAllStringFunc _ _ _).
  assert (Forall (fun a => breaks a = false) (chars t)) as Ht.
  { apply Forall_forall. intros x Hx. apply elem_of_removed in Hx. unfold breaks.
    do 3 (apply escaped_or in Hx as [[Hx ?]|[->| ->]]; [|done..]).
    unfold RemoveAll in Hx. rewrite chars_of_chars in Hx.
    apply list_elem_of_In, filter_In in Hx as [_ Hx]. bool_simpl.
    by rewrite !bool_decide_eq_false_2 by done. }
  destruct (Nat.ltb_spec maxLogFieldLength (len t)) as [H|H]; [|split; [done|unfold maxLogFieldLength in *; lia]].
  rewrite chars_app, len_app, len_slice by lia. split; [|unfold maxLogFieldLength; cbn; lia].
  apply Forall_app. split; [|by repeat constructor].
  apply Forall_forall. intros x Hx%elem_of_slice. by eapply Forall_forall in Ht.
Qed.

(** A short field without line breaks, tabs, NUL or terminal sequences is kept. *)
Definition plain (s : string) : Prop :=
  Forall (fun a => breaks a = false) (chars s) /\ FindAllStringIndex ansiRegex s = [] /\
  (len s <= maxLogFieldLength)%nat.

Lemma ReplaceByte_id s c b : c ∉ chars s -> ReplaceByte s c b = s.
Proof.
  intros H. unfold ReplaceByte. rewrite <- (of_chars_chars s) at 2. f_equal.
  induction (chars s) as [|a l IH]; [done|]. apply not_elem_of_cons in H as [Hne Hl]. cbn.
  rewrite bool_decide_eq_false_2 by done. cbn. f_equal. by apply IH.
Qed.

Lemma RemoveAll_id s c : c ∉ chars s -> RemoveAll s c = s.
Proof.
  intros H. unfold RemoveAll. rewrite <- (of_chars_chars s) at 2. f_equal.
  induction (chars s) as [|a l IH]; [done|]. apply not_elem_of_cons in H as [Hne Hl]. cbn.
  rewrite bool_decide_eq_false_2 by done. cbn. f_equal. by apply IH.
Qed.

Theorem Sanitize_plain s : plain s -> Sanitize s = s.
Proof.
  intros (Hb & Ha & Hl).
  assert (forall c, breaks c = true -> c ∉ chars s) as Hc.
  { intros c Hc Hin. eapply Forall_forall in Hb; [|done]. congruence. }
  unfold Sanitize. rewrite RemoveAll_id by (by apply Hc).
  rewrite (ReplaceByte_id s LF), (ReplaceByte_id s CR), (ReplaceByte_id s TAB) by (by apply Hc).
  unfold ReplaceAllStringFunc. rewrite Ha. cbn [rebuild]. rewrite slice_all.
  by destruct (Nat.ltb_spec maxLogFieldLength (len s)); [lia|].
Qed.

(** Dropping a terminal sequence can join the bytes around it into another one:
    the sequence ESC [ 0 m survives when it is wrapped in itself. *)
Definition wrapped : string := of_chars [ESC; "["; ESC; "["; "0"; "m"; "0"; "m"]%char.

Theorem Sanitize_keeps_ansi : MatchString ansiRegex (Sanitize wrapped) = true.
Proof. vm_compute. reflexivity. Qed.
