(* ===== verification/LlmApi.v ===== *)
(** The provider API of the orchestrator, src/platform/orchestrator/
    llm_provider_api_handlers.go: who the caller is, what each route does to the
    registry and what it answers.

    A request carries the two tenancy headers; a decoded body is an option,
    [None] when it is not valid JSON. Calls that spend a provider's key (the test
    completion, the health checks) are recorded in a trace. *)

From S2P Require Import Prelude GoStrings GoStrconv LogSanitize LlmTypes LlmRegistry.
From S2P Require Import LlmRegistryFacts.

Local Open Scope Z_scope.

Record Request := mkRequest { X_Tenant_ID : string; X_Org_ID : string }.

(** * The caller *)

Definition pick_tenant (v : string) : string := if str_eqb v GlobalTenant then "" else v.

Definition callerTenantID (r : Request) : string :=
  let t := pick_tenant (X_Tenant_ID r) in
  if negb (str_eqb t "") then t else pick_tenant (X_Org_ID r).

(** * Answers *)

Record LLMProviderHealthInfo := mkHealthInfo {
  hi_Status : HealthStatus; hi_Message : string; hi_LastChecked : option Z }.

Record LLMProviderResource := mkResource {
  pr_Name : string; pr_Type : string; pr_Endpoint : string; pr_Model : string;
  pr_Region : string; pr_Enabled : bool; pr_Priority : Z; pr_Weight : Z; pr_RateLimit : Z;
  pr_TimeoutSeconds : Z; pr_HasAPIKey : bool; pr_Settings : option any_map;
  pr_Health : option LLMProviderHealthInfo }.

Definition toProviderResource (c : ProviderConfig) (h : option HealthCheckResult) :
  LLMProviderResource :=
  mkResource (cfg_Name c) (cfg_Type c) (cfg_Endpoint c) (cfg_Model c) (cfg_Region c)
    (cfg_Enabled c) (cfg_Priority c) (cfg_Weight c) (cfg_RateLimit c) (cfg_TimeoutSeconds c)
    (negb (str_eqb (cfg_APIKey c) "") || negb (str_eqb (cfg_APIKeySecretARN c) ""))
    (cfg_Settings c)
    ((fun x => mkHealthInfo (hr_Status x) (hr_Message x) (hr_LastChecked x)) <$> h).

Record PaginationMeta := mkPagination {
  pg_Page : Z; pg_PageSize : Z; pg_TotalItems : Z; pg_TotalPages : Z }.

Inductive payload :=
| BProvider (p : LLMProviderResource)
| BProviders (l : list LLMProviderResource) (m : PaginationMeta)
| BHealth (name : string) (h : HealthCheckResult)
| BHealthAll (m : list (string * option HealthCheckResult))
| BTest (name : string) (resp : CompletionResponse)
| BWeights (w : list (string * Z)).

Inductive answer :=
| AError (status : Z) (code msg : string)
| AJSON (status : Z) (b : payload)
| ANoContent
| APanic.

(** * Requests *)

Record CreateLLMProviderRequest := mkCreate {
  cq_Name : string; cq_Type : string; cq_APIKey : string; cq_APIKeySecretARN : string;
  cq_Endpoint : string; cq_Model : string; cq_Region : string; cq_Enabled : bool;
  cq_Priority : Z; cq_Weight : Z; cq_RateLimit : Z; cq_TimeoutSeconds : Z;
  cq_Settings : option any_map }.

Record UpdateLLMProviderRequest := mkUpdateReq {
  uq_APIKey : option string; uq_APIKeySecretARN : option string; uq_Endpoint : option string;
  uq_Model : option string; uq_Region : option string; uq_Enabled : option bool;
  uq_Priority : option Z; uq_Weight : option Z; uq_RateLimit : option Z;
  uq_TimeoutSeconds : option Z; uq_Settings : option any_map }.

Definition config_of_create (q : CreateLLMProviderRequest) (tenantID : string) : ProviderConfig :=
  mkConfig (cq_Name q) (cq_Type q) (cq_APIKey q) (cq_APIKeySecretARN q) (cq_Endpoint q)
    (cq_Model q) (cq_Region q) (cq_Enabled q) (cq_Priority q) (cq_Weight q) (cq_RateLimit q)
    (cq_TimeoutSeconds q) (cq_Settings q) tenantID.

(** The fields of the request that are present replace those of the config. *)
Definition apply_update (q : UpdateLLMProviderRequest) (c : ProviderConfig) : ProviderConfig :=
  mkConfig (cfg_Name c) (cfg_Type c)
    (default (cfg_APIKey c) (uq_APIKey q)) (default (cfg_APIKeySecretARN c) (uq_APIKeySecretARN q))
    (default (cfg_Endpoint c) (uq_Endpoint q)) (default (cfg_Model c) (uq_Model q))
    (default (cfg_Region c) (uq_Region q)) (default (cfg_Enabled c) (uq_Enabled q))
    (default (cfg_Priority c) (uq_Priority q)) (default (cfg_Weight c) (uq_Weight q))
    (default (cfg_RateLimit c) (uq_RateLimit q))
    (default (cfg_TimeoutSeconds c) (uq_TimeoutSeconds q))
    (match uq_Settings q with Some s => Some s | None => cfg_Settings c end) (cfg_TenantID c).

(** * Paging *)

(** The wrap-around of int. *)
Definition wrap_int (z : Z) : Z := (z + 2 ^ 63) mod 2 ^ 64 - 2 ^ 63.

(** The slice expression [l[start:end]]; [None] is the run-time panic. *)
Definition go_slice {A} (l : list A) (s e : Z) : option (list A) :=
  if (0 <=? s) && (s <=? e) && (e <=? Z.of_nat (length l))
  then Some (take (Z.to_nat (e - s)) (drop (Z.to_nat s) l)) else None.

Definition page_param (s : string) : Z :=
  match Atoi s with (n, true) => if n >? 0 then n else 1 | _ => 1 end.

Definition page_size_param (s : string) : Z :=
  match Atoi s with
  | (n, true) => if (n >? 0) && (n <=? 100) then n else 20
  | _ => 20
  end.

Definition paginate {A} (page pageSize : Z) (l : list A) : option (list A) :=
  let total := Z.of_nat (length l) in
  let start := wrap_int (wrap_int (page - 1) * pageSize) in
  let end_ := wrap_int (start + pageSize) in
  go_slice l (if start >? total then total else start) (if end_ >? total then total else end_).

(** * The handlers *)

Section Handlers.
Context `{Q : GoQuote} {P : Type} {St : Type} `{I : Provider P} `{V : LicenseValidator}
  `{S : Storage St}.
#[local] Abbreviation Reg := (Registry P St).

(** The answer, the registry after it and the instances called. *)
Definition handled : Type := answer * Reg * list P.

Definition require (rq : Request) (r : Reg) (k : string -> handled) : handled :=
  let t := callerTenantID rq in
  if str_eqb t "" then
    (AError 400 "VALIDATION_ERROR" "X-Tenant-ID or X-Org-ID header is required", r, [])
  else k t.

Definition not_found_answer : answer := AError 404 "NOT_FOUND" "provider not found".

Record list_query := mkListQuery {
  lq_page : string; lq_page_size : string; lq_type : string; lq_enabled : string }.

(** One step of the loop over the visible names: the resource, if the filters
    keep it, and the registry after the look-up. [None] in the outer option is a
    panic. *)
Definition list_one (q : list_query) (t name : string) (r : Reg) :
  option (option LLMProviderResource) * Reg :=
  match Get t name r with
  | (Panic, r1) => (None, r1)
  | (Fail _, r1) => (Some None, r1)
  | (Ret p, r1) =>
      if negb (str_eqb (lq_type q) "") && negb (str_eqb (Type_ p) (lq_type q)) then (Some None, r1)
      else match GetConfig t name r1 with
      | Panic => (None, r1)
      | Fail _ => (Some None, r1)
      | Ret c =>
          if negb (str_eqb (lq_enabled q) "")
             && negb (Bool.eqb (cfg_Enabled c) (str_eqb (lq_enabled q) "true"))
          then (Some None, r1)
          else (Some (Some (toProviderResource c (GetHealthResult t name r1))), r1)
      end
  end.

Fixpoint list_loop (q : list_query) (t : string) (names : list string) (r : Reg) :
  option (list LLMProviderResource) * Reg :=
  match names with
  | [] => (Some [], r)
  | n :: names' =>
      match list_one q t n r with
      | (None, r1) => (None, r1)
      | (Some x, r1) =>
          let (l, r2) := list_loop q t names' r1 in
          (match x with Some y => cons y <$> l | None => l end, r2)
      end
  end.

Definition handleListProvidersMux (q : list_query) (rq : Request) (r : Reg) : handled :=
  require rq r (fun t =>
    let page := if str_eqb (lq_page q) "" then 1 else page_param (lq_page q) in
    let size := if str_eqb (lq_page_size q) "" then 20 else page_size_param (lq_page_size q) in
    match list_loop q t (List_ t r) r with
    | (None, r1) => (APanic, r1, [])
    | (Some l, r1) =>
        let total := Z.of_nat (length l) in
        match paginate page size l with
        | None => (APanic, r1, [])
        | Some pl => (AJSON 200 (BProviders pl
                        (mkPagination page size total ((total + size - 1) / size))), r1, [])
        end
    end).

(** [known_types] are the types with a registered factory. *)
Definition handleCreateProviderMux (known_types : ProviderType -> bool)
  (body : option CreateLLMProviderRequest) (rq : Request) (r : Reg) : handled :=
  match body with
  | None => (AError 400 "INVALID_JSON" "invalid JSON body", r, [])
  | Some q =>
      if str_eqb (cq_Name q) "" then (AError 400 "VALIDATION_ERROR" "name is required", r, [])
      else if str_eqb (cq_Type q) "" then (AError 400 "VALIDATION_ERROR" "type is required", r, [])
      else if negb (known_types (cq_Type q)) then
        (AError 400 "VALIDATION_ERROR" ("unsupported provider type: " +:+ cq_Type q), r, [])
      else require rq r (fun t =>
        if OwnsProvider t (cq_Name q) r then
          (AError 409 "CONFLICT" "provider with this name already exists", r, [])
        else
          let c := config_of_create q t in
          match Register (Some c) r with
          | (Ret _, r1) => (AJSON 201 (BProvider (toProviderResource c
                              (GetHealthResult t (cq_Name q) r1))), r1, [])
          | (Fail e, r1) =>
              if Contains (RegistryError_Error e) "license" then
                (AError 403 "LICENSE_ERROR" (RegistryError_Error e), r1, [])
              else (AError 500 "INTERNAL_ERROR" "failed to register provider", r1, [])
          | (Panic, r1) => (APanic, r1, [])
          end)
  end.

Definition handleGetProviderMux (name : string) (rq : Request) (r : Reg) : handled :=
  require rq r (fun t =>
    match GetConfig t name r with
    | Ret c => (AJSON 200 (BProvider (toProviderResource c (GetHealthResult t name r))), r, [])
    | Fail _ => (not_found_answer, r, [])
    | Panic => (APanic, r, [])
    end).

Definition handleUpdateProviderMux (name : string) (body : option UpdateLLMProviderRequest)
  (rq : Request) (r : Reg) : handled :=
  require rq r (fun t =>
    if negb (OwnsProvider t name r) then (not_found_answer, r, [])
    else match body with
    | None => (AError 400 "INVALID_JSON" "invalid JSON body", r, [])
    | Some q =>
        match GetConfig t name r with
        | Panic => (APanic, r, [])
        | Fail _ => (not_found_answer, r, [])
        | Ret c0 =>
            if negb (str_eqb (cfg_TenantID c0) t) then (not_found_answer, r, [])
            else
              let c := apply_update q c0 in
              match Update (Some c) r with
              | (Ret _, r1) => (AJSON 200 (BProvider (toProviderResource c
                                  (GetHealthResult t name r1))), r1, [])
              | (Fail _, r1) => (AError 500 "INTERNAL_ERROR" "failed to update provider", r1, [])
              | (Panic, r1) => (APanic, r1, [])
              end
        end
    end).

Definition handleDeleteProviderMux (name : string) (rq : Request) (r : Reg) : handled :=
  require rq r (fun t =>
    if negb (OwnsProvider t name r) then (not_found_answer, r, [])
    else match GetConfig t name r with
    | Panic => (APanic, r, [])
    | Fail _ => (not_found_answer, r, [])
    | Ret c =>
        if negb (str_eqb (cfg_TenantID c) t) then (not_found_answer, r, [])
        else match Unregister t name r with
        | (Ret _, r1) => (ANoContent, r1, [])
        | (Fail _, r1) => (AError 500 "INTERNAL_ERROR" "failed to delete provider", r1, [])
        | (Panic, r1) => (APanic, r1, [])
        end
    end).

Section Spending.
Context (check : P -> result string HealthCheckResult) (now : Z) (latency : P -> Z).
Context (Complete : P -> CompletionRequest -> result string CompletionResponse).

Definition handleProviderHealthMux (name : string) (rq : Request) (r : Reg) : handled :=
  require rq r (fun t =>
    if negb (OwnsProvider t name r) then (not_found_answer, r, [])
    else
      let trace := match (Get t name r).1 with Ret p => [p] | _ => [] end in
      match HealthCheckSingle check now latency t name r with
      | (Ret h, r1) => (AJSON 200 (BHealth name h), r1, trace)
      | (Fail _, r1) =>
          (AError 500 "INTERNAL_ERROR" "failed to perform health check", r1, trace)
      | (Panic, r1) => (APanic, r1, trace)
      end).

Definition defaultPrompt : string := "Say 'Hello, AxonFlow!' in exactly 3 words.".

(** [body] is the prompt of the body, [None] when it does not decode. *)
Definition test_request (body : option string) : CompletionRequest :=
  let p := default defaultPrompt body in
  mkCompletionRequest (if str_eqb p "" then defaultPrompt else p) "" 50
    GoFloat.f64_zero GoFloat.f64_zero 0 "" [] false [] [].

Definition handleTestProvider (name : string) (body : option string) (rq : Request) (r : Reg) :
  handled :=
  require rq r (fun t =>
    if negb (OwnsProvider t name r) then (not_found_answer, r, [])
    else match Get t name r with
    | (Panic, r1) => (APanic, r1, [])
    | (Fail _, r1) => (not_found_answer, r1, [])
    | (Ret p, r1) =>
        match Complete p (test_request body) with
        | Err e => (AError 500 "TEST_FAILED" ("test failed: " +:+ Sanitize e), r1, [p])
        | Ok resp => (AJSON 200 (BTest name resp), r1, [p])
        end
    end).

(** The weights the caller owns; [None] is a panic. *)
Definition routing_weights (t : string) (r : Reg) : option (list (string * Z)) :=
  let l := (fun n => (n, GetConfig t n r)) <$> List.filter (fun n => OwnsProvider t n r) (List_ t r) in
  if existsb (fun x => match x.2 with Panic => true | _ => false end) l then None
  else Some (omap (fun x => match x.2 with Ret c => Some (x.1, cfg_Weight c) | _ => None end) l).

Definition getRoutingConfigMux (rq : Request) (r : Reg) : handled :=
  require rq r (fun t =>
    match routing_weights t r with
    | Some w => (AJSON 200 (BWeights w), r, [])
    | None => (APanic, r, [])
    end).

(** The loop over the weights of the body, in the order a range visits them. *)
Fixpoint update_weights (t : string) (ws : list (string * Z)) (r : Reg) : option answer * Reg :=
  match ws with
  | [] => (None, r)
  | (name, weight) :: ws' =>
      if negb (OwnsProvider t name r) then
        (Some (AError 400 "VALIDATION_ERROR" ("provider not found: " +:+ Sanitize name)), r)
      else match GetConfig t name r with
      | Panic => (Some APanic, r)
      | Fail _ => (Some (AError 500 "INTERNAL_ERROR" "failed to get provider config"), r)
      | Ret c =>
          match Update (Some (with_Weight weight c)) r with
          | (Ret _, r1) => update_weights t ws' r1
          | (Fail _, r1) => (Some (AError 500 "INTERNAL_ERROR" "failed to update routing"), r1)
          | (Panic, r1) => (Some APanic, r1)
          end
      end
  end.

Definition updateRoutingConfigMux (body : option (list (string * Z))) (rq : Request) (r : Reg) :
  handled :=
  require rq r (fun t =>
    match body with
    | None => (AError 400 "INVALID_JSON" "invalid JSON body", r, [])
    | Some ws =>
        match update_weights t ws r with
        | (Some a, r1) => (a, r1, [])
        | (None, r1) => getRoutingConfigMux rq r1
        end
    end).

Definition handleAllProvidersStatusMux (rq : Request) (r : Reg) : handled :=
  require rq r (fun t =>
    let trace := (health_targets t r).*2 in
    let r1 := (HealthCheck check now latency t r).2 in
    (AJSON 200 (BHealthAll ((fun n => (n, GetHealthResult t n r1)) <$> List_ t r1)), r1, trace)).
End Spending.

End Handlers.

(** Facts about the provider API: the caller is never the deployment, no request
    of one tenant changes what another sees or spends another's key, paging is
    exact below the range of int and panics above it, and the API never shows a
    key. *)

(** * The caller *)

Definition headers_ok (rq : Request) : Prop := no_nul (X_Tenant_ID rq) /\ no_nul (X_Org_ID rq).

Lemma pick_tenant_cases v : pick_tenant v = "" \/ (pick_tenant v = v /\ v <> GlobalTenant).
Proof.
  unfold pick_tenant. destruct (str_eqb v GlobalTenant) eqn:E; [by left|right].
  split; [done|]. by apply str_eqb_false.
Qed.

(** The identity a request acts under is one of its headers, and never the
    deployment's scope. *)
Lemma callerTenantID_cases rq :
  callerTenantID rq = "" \/
  (callerTenantID rq <> "" /\ callerTenantID rq <> GlobalTenant /\
   (callerTenantID rq = X_Tenant_ID rq \/ callerTenantID rq = X_Org_ID rq)).
Proof.
  unfold callerTenantID.
  destruct (str_eqb (pick_tenant (X_Tenant_ID rq)) "") eqn:E; cbn.
  - destruct (pick_tenant_cases (X_Org_ID rq)) as [->|[E' Hne]]; [by left|].
    destruct (decide (X_Org_ID rq = "")) as [H|H]; [left; by rewrite E'|right].
    rewrite E'. auto.
  - apply str_eqb_false in E.
    destruct (pick_tenant_cases (X_Tenant_ID rq)) as [|[E' Hne]]; [done|right].
    rewrite E' in *. auto.
Qed.

Lemma normalizeTenant_id t : t <> "" -> normalizeTenant t = t.
Proof. intros H%str_eqb_false. unfold normalizeTenant. by rewrite H. Qed.

Lemma caller_stranger rq u :
  headers_ok rq -> callerTenantID rq <> "" -> normalizeTenant u <> callerTenantID rq ->
  stranger (callerTenantID rq) u.
Proof.
  intros [H1 H2] Hne Hu. destruct (callerTenantID_cases rq) as [|(_ & Hg & Hh)]; [done|].
  split; [by destruct Hh as [-> | ->]|]. rewrite normalizeTenant_id by done. auto.
Qed.

Section Facts.
Context `{Q : GoQuote} {P : Type} {St : Type} `{I : Provider P} `{V : LicenseValidator}
  `{S : Storage St}.
#[local] Abbreviation Reg := (Registry P St).

(** * The tables are keyed by their contents *)

(** Every configuration is stored under the tenant it names. *)
Definition keyed (r : Reg) : Prop :=
  forall key c, configs r !! key = Some (Some c) ->
    no_nul (cfg_TenantID c) /\ exists n, key = scopeKey (cfg_TenantID c) n.

Lemma keyed_configs (r r' : Reg) : configs r' = configs r -> keyed r -> keyed r'.
Proof. unfold keyed. by intros ->. Qed.

Lemma keyed_insert c n (r r' : Reg) :
  keyed r -> no_nul (cfg_TenantID c) ->
  configs r' = <[scopeKey (cfg_TenantID c) n := Some c]> (configs r) -> keyed r'.
Proof.
  intros Hk Hn E key c'. rewrite E, lookup_insert_Some. intros [[<- [= <-]]|[_ H]]; eauto.
Qed.

Lemma keyed_delete key (r r' : Reg) :
  keyed r -> configs r' = delete key (configs r) -> keyed r'.
Proof. intros Hk E k c. rewrite E, lookup_delete_Some. intros [_ H]. eauto. Qed.

Lemma keyed_Register c (r : Reg) :
  keyed r -> no_nul (cfg_TenantID c) -> keyed (Register (Some c) r).2.
Proof.
  intros Hk Hn. unfold Register. destruct (precheck _) as [c'|] eqn:E; [|done].
  apply precheck_ok in E as [= <-].
  repeat (case_match; simplify_eq/=; try done).
  all: first
    [ eapply (keyed_insert c (cfg_Name c) r); [done|done|reflexivity]
    | eapply (keyed_configs r); [|done]; cbn; by rewrite delete_insert_id ].
Qed.

Lemma keyed_RegisterProvider n p config (r : Reg) :
  keyed r -> (forall c, config = Some c -> no_nul (cfg_TenantID c)) ->
  keyed (RegisterProvider n p config r).2.
Proof.
  intros Hk Hn. unfold RegisterProvider. repeat (case_match; simplify_eq/=; try done).
  eapply keyed_insert; eauto.
Qed.

(** The configurations after an update, the rollback to nil included. *)
Lemma Update_configs c (r : Reg) :
  let m := configs (Update (Some c) r).2 in
  m = configs r \/ m = <[keyOf c := Some c]> (configs r) \/ m = <[keyOf c := None]> (configs r).
Proof.
  cbn zeta. destruct (Update (Some c) r) as [o r'] eqn:E. cbn.
  destruct (Update_atomic _ _ _ _ E) as [(_ & C & _)|[_ HF]]; [by right; left|].
  destruct (configs r !! keyOf c) as [x|] eqn:Hx; [destruct HF as [C _]; [eauto|by left]|].
  revert E. unfold Update, ownKey. destruct (precheck _) as [c'|] eqn:E'; [|by intros [= _ <-]; left].
  apply precheck_ok in E' as [= <-]. fold (keyOf c). rewrite Hx. clear HF.
  destruct (negb _); [intros [= _ <-]; by left|]. cbn [storage set_configs set_providers].
  destruct (storage r) as [st|]; [|by intros [= _ <-]; right; left].
  destruct (SaveProvider c st) as [[e|] st']; [|by intros [= _ <-]; right; left].
  intros [= _ <-]. right. right. destruct (providers r !! keyOf c); cbn; by rewrite insert_insert_eq.
Qed.

Lemma keyed_Update c (r : Reg) :
  keyed r -> no_nul (cfg_TenantID c) -> keyed (Update (Some c) r).2.
Proof.
  intros Hk Hn. destruct (Update_configs c r) as [E|[E|E]].
  - by eapply keyed_configs.
  - by eapply keyed_insert.
  - intros key c'. rewrite E, lookup_insert_Some. intros [[_ [=]]|[_ H]]. eauto.
Qed.

Lemma keyed_set_enabled b t n (r : Reg) : keyed r -> keyed (set_enabled b t n r).2.
Proof.
  intros Hk. unfold set_enabled, ownKey. destruct (configs r !! scopeKey t n) as [[c|]|] eqn:E;
    try done. cbn. intros key c'. cbn. rewrite lookup_insert_Some.
  intros [[<- [= <-]]|[_ H]]; [|eauto]. cbn. eauto.
Qed.

Lemma keyed_Unregister t n (r : Reg) : keyed r -> keyed (Unregister t n r).2.
Proof.
  intros Hk. unfold Unregister. case_match; [done|]. cbn.
  eapply keyed_delete; [done|]. cbn. repeat case_match; done.
Qed.

Lemma keyed_lazyInstantiate key n c (r : Reg) : keyed r -> keyed (lazyInstantiate key n c r).2.
Proof. intros Hk. unfold lazyInstantiate. repeat (case_match; simplify_eq/=; try done). Qed.

Lemma keyed_Get t n (r : Reg) : keyed r -> keyed (Get t n r).2.
Proof. intros Hk. unfold Get. case_match; try done. by apply keyed_lazyInstantiate. Qed.

Lemma health_sweep_configs check now lat ts (r : Reg) :
  configs (health_sweep check now lat ts r) = configs r.
Proof. revert r. induction ts as [|kt ts IH]; intros r; [done|]. exact (IH (set_health _ r)). Qed.

Lemma keyed_HealthCheck check now lat t (r : Reg) :
  keyed r -> keyed (HealthCheck check now lat t r).2.
Proof. intros Hk. eapply keyed_configs; [|done]. apply health_sweep_configs. Qed.

Lemma keyed_HealthCheckSingle check now lat t n (r : Reg) :
  keyed r -> keyed (HealthCheckSingle check now lat t n r).2.
Proof.
  intros Hk. unfold HealthCheckSingle. case_match; [done|].
  pose proof (keyed_Get t n r Hk). by destruct (Get t n r) as [[] r1].
Qed.

Lemma keyed_reload (r : Reg) :
  (forall st n c, storage r = Some st -> GetProvider n st = Ok c -> no_nul (cfg_TenantID c)) ->
  keyed r -> keyed (ReloadFromStorage r).2.
Proof.
  intros Hst Hk. unfold ReloadFromStorage. destruct (storage r) as [st|] eqn:Hs; [|done].
  destruct (ListAllProviders st) as [names|]; [|done]. cbn. clear Hs.
  assert (forall n c, GetProvider n st = Ok c -> no_nul (cfg_TenantID c)) as Hn by eauto.
  revert r Hst Hk. induction names as [|n names IH]; intros r Hst Hk; cbn; [done|].
  apply IH.
  - intros st' m c Hs'. apply Hst. revert Hs'. unfold reload_one. by repeat case_match.
  - unfold reload_one. destruct (GetProvider n st) as [c|] eqn:Hg; [|done].
    repeat (case_match; try done). eapply keyed_insert; eauto.
Qed.

(** What a look-up in one's own tenancy finds belongs to it. *)
Lemma GetConfig_own t n c (r : Reg) :
  keyed r -> no_nul t -> OwnsProvider t n r = true -> GetConfig t n r = Ret c ->
  normalizeTenant (cfg_TenantID c) = normalizeTenant t /\ no_nul (cfg_TenantID c).
Proof.
  intros Hk Ht Ho. unfold GetConfig, OwnsProvider, ownKey in *. rewrite readKeyLocked_own by done.
  destruct (configs r !! scopeKey t n) as [[c'|]|] eqn:E; try done. intros [= ->].
  destruct (Hk _ _ E) as [Hn [m Hm]]. split; [|done].
  by destruct (scopeKey_inj _ _ _ _ Ht Hn Hm).
Qed.

Lemma Get_own_instance t n p (r : Reg) :
  OwnsProvider t n r = true -> (Get t n r).1 = Ret p -> instance r (scopeKey t n) = Some p.
Proof.
  unfold OwnsProvider, ownKey, Get, get_lookup. intros Hk. rewrite readKeyLocked_own by done.
  unfold instance. destruct (providers r !! _) eqn:Hp; [cbn; congruence|].
  destruct (configs r !! _) as [[c|]|]; unfold lazyInstantiate; rewrite ?Hp; try done.
  destruct (FactoryManager_Create _ c); cbn; congruence.
Qed.

Lemma keyed_run_op o (r : Reg) : keyed r -> no_nul (caller o) -> keyed (run_op r o).
Proof.
  unfold run_op, Enable, Disable. destruct o; cbn [caller]; intros;
    eauto using keyed_Register, keyed_Update, keyed_set_enabled, keyed_Unregister, keyed_Get,
      keyed_HealthCheck, keyed_HealthCheckSingle.
Qed.

(** Every operation that writes the registry: those a tenant asks for, the registration
    of an instance, a reload from the store, whose contents other replicas may have
    changed, and the close. *)
Inductive registry_op :=
| Asked (o : op (P := P))
| ORegisterProvider (name : string) (provider : option P) (config : option ProviderConfig)
| OReload (contents : St)
| OClose.

Definition run_registry_op (r : Reg) (o : registry_op) : Reg :=
  match o with
  | Asked o => run_op r o
  | ORegisterProvider name provider config => (RegisterProvider name provider config r).2
  | OReload contents => (ReloadFromStorage (match storage r with Some _ => set_storage (Some contents) r | None => r end)).2
  | OClose => Registry_Close r
  end.

(** The tenants that an operation names have no NUL, the separator of the keys; so have
    those of the rows that a reload finds. *)
Definition op_named (o : registry_op) : Prop :=
  match o with
  | Asked o => no_nul (caller o)
  | ORegisterProvider _ _ config => forall c, config = Some c -> no_nul (cfg_TenantID c)
  | OReload contents => forall n c, GetProvider n contents = Ok c -> no_nul (cfg_TenantID c)
  | OClose => True
  end.

Lemma keyed_run_registry_op o (r : Reg) : keyed r -> op_named o -> keyed (run_registry_op r o).
Proof.
  intros Hk. destruct o as [o|name provider config|contents|]; cbn [op_named run_registry_op]; intros Ho.
  - by apply keyed_run_op.
  - unfold RegisterProvider. destruct provider as [p|]; [|done]. destruct (str_eqb name ""); [done|].
    destruct (providers r !! _); [done|]. cbn [snd]. destruct config as [c|]; [|done].
    eapply (keyed_insert c name r); eauto.
  - destruct (storage r) as [st|] eqn:Hs; [|unfold ReloadFromStorage; by rewrite Hs].
    apply keyed_reload; [|done]. cbn. intros st' n c [= <-]. apply Ho.
  - intros key c. cbn. by rewrite lookup_empty.
Qed.

(** C23: The registry is well keyed. After any sequence of registrations, updates,
    removals, look-ups, health checks, registrations of instances, reloads from the store
    (whatever rows it then holds) and closes, as long as tenants have no NUL in their
    names, every configuration is stored under the tenant it names, and the configuration
    that a tenant reads is its own or the deployment's. *)
Theorem registry_well_keyed s f max (ops : list registry_op) :
  Forall op_named ops ->
  let r : Reg := foldl run_registry_op (NewRegistry s f max) ops in
  keyed r /\
  forall u n c, no_nul u -> GetConfig u n r = Ret c ->
    normalizeTenant (cfg_TenantID c) = normalizeTenant u \/
    normalizeTenant (cfg_TenantID c) = GlobalTenant.
Proof.
  intros H r. assert (keyed r) as Hk.
  { subst r. assert (keyed (NewRegistry s f max : Reg)) as H0.
    { intros key c. cbn. by rewrite lookup_empty. }
    revert H0. generalize (NewRegistry s f max : Reg).
    induction H as [|o ops Ho _ IH]; intros r Hr; cbn; [done|]. by apply IH, keyed_run_registry_op. }
  split; [done|]. intros u n c Hu. unfold GetConfig, readKeyLocked.
  assert (forall t, no_nul t -> configs r !! scopeKey t n = Some (Some c) ->
    normalizeTenant (cfg_TenantID c) = normalizeTenant t) as Hown.
  { intros t Ht E. destruct (Hk _ _ E) as [Hn [m Hm]]. by destruct (scopeKey_inj _ _ _ _ Ht Hn Hm). }
  repeat case_match; intros; simplify_eq; eauto using global_no_nul.
  right. by apply (Hown GlobalTenant); [apply global_no_nul|].
Qed.

(** * Requests *)

Inductive route :=
| RList (q : list_query)
| RCreate (known_types : ProviderType -> bool) (body : option CreateLLMProviderRequest)
| RGet (name : string)
| RUpdate (name : string) (body : option UpdateLLMProviderRequest)
| RDelete (name : string)
| RHealth (check : P -> result string HealthCheckResult) (now : Z) (lat : P -> Z) (name : string)
| RTest (complete : P -> CompletionRequest -> result string CompletionResponse) (name : string)
    (body : option string)
| RGetRouting
| RPutRouting (body : option (list (string * Z)))
| RStatus (check : P -> result string HealthCheckResult) (now : Z) (lat : P -> Z).

Definition serve (o : route) (rq : Request) (r : Reg) : answer * Reg * list P :=
  match o with
  | RList q => handleListProvidersMux q rq r
  | RCreate kt body => handleCreateProviderMux kt body rq r
  | RGet n => handleGetProviderMux n rq r
  | RUpdate n body => handleUpdateProviderMux n body rq r
  | RDelete n => handleDeleteProviderMux n rq r
  | RHealth check now lat n => handleProviderHealthMux check now lat n rq r
  | RTest complete n body => handleTestProvider complete n body rq r
  | RGetRouting => getRoutingConfigMux rq r
  | RPutRouting body => updateRoutingConfigMux body rq r
  | RStatus check now lat => handleAllProvidersStatusMux check now lat rq r
  end.

(** What a handler may do under the identity [t]. *)
Record effect_ok (t : string) (r : Reg) (h : answer * Reg * list P) : Prop := {
  eo_keyed : keyed h.1.2;
  eo_view u : stranger t u -> same_view u r h.1.2;
  eo_spent p : p ∈ h.2 -> exists key n, splitScopeKey key = Some (t, n) /\ instance r key = Some p }.

Lemma effect_none t a (r : Reg) : keyed r -> effect_ok t r (a, r, []).
Proof. intros Hk. split; [done|done|]. intros p []%not_elem_of_nil. Qed.

(** An operation whose registry keeps the views of strangers. *)
Lemma effect_of t a (r r' : Reg) :
  keyed r' -> (forall u, stranger t u -> same_view u r r') -> effect_ok t r (a, r', []).
Proof. intros Hk Hv. split; [done|done|]. intros p []%not_elem_of_nil. Qed.

Lemma list_loop_ok q t names u (r : Reg) :
  keyed r -> keyed (list_loop q t names r).2 /\ same_view u r (list_loop q t names r).2.
Proof.
  revert r. induction names as [|n names IH]; intros r Hk; cbn [list_loop]; [done|].
  assert ((list_one q t n r).2 = (Get t n r).2) as E1.
  { unfold list_one. destruct (Get t n r) as [[] r1]; repeat case_match; done. }
  destruct (list_one q t n r) as [o r1]. cbn in E1. subst r1.
  pose proof (Get_view u t n r). pose proof (keyed_Get t n r Hk) as Hk1.
  destruct o as [x|]; [|done]. destruct (IH _ Hk1) as [H1 H2].
  destruct (list_loop q t names _) as [l r2]. cbn in *. split; [done|by etrans].
Qed.

Lemma stranger_normal t t' u : normalizeTenant t = normalizeTenant t' -> no_nul t' ->
  stranger t u -> stranger t' u.
Proof. unfold stranger. intros ->. naive_solver. Qed.

Lemma update_weights_ok t ws (r : Reg) :
  no_nul t -> keyed r ->
  keyed (update_weights t ws r).2 /\
  forall u, stranger t u -> same_view u r (update_weights t ws r).2.
Proof.
  intros Ht. revert r. induction ws as [|[n w] ws IH]; intros r Hk; cbn [update_weights]; [done|].
  destruct (OwnsProvider t n r) eqn:Ho; cbn [negb]; [|done].
  destruct (GetConfig t n r) as [c|e|] eqn:Hc; try done.
  destruct (GetConfig_own t n c r) as [E Hn]; [done..|].
  pose proof (keyed_Update (with_Weight w c) r Hk Hn) as Hk1.
  assert (forall u, stranger t u -> same_view u r (Update (Some (with_Weight w c)) r).2) as Hv.
  { intros u Hu. apply Update_view. by eapply stranger_normal; [| |exact Hu]. }
  destruct (Update (Some (with_Weight w c)) r) as [o r1]. cbn in *.
  destruct o; [|done..]. destruct (IH r1 Hk1) as [H1 H2]. split; [done|].
  intros u Hu. etrans; [by apply Hv|by apply H2].
Qed.

Lemma spent_own t n p (r : Reg) :
  no_nul t -> t <> "" -> OwnsProvider t n r = true -> (Get t n r).1 = Ret p ->
  exists key m, splitScopeKey key = Some (t, m) /\ instance r key = Some p.
Proof.
  intros Hn Hne Ho Hg. exists (scopeKey t n), n. split; [|by apply Get_own_instance].
  rewrite scopeKey_split by done. by rewrite normalizeTenant_id.
Qed.

Section Serve.
Context (rq : Request) (r : Reg).
Context (Hh : headers_ok rq) (Hk : keyed r) (Hne : callerTenantID rq <> "").
#[local] Abbreviation t := (callerTenantID rq).

Lemma caller_no_nul : no_nul t.
Proof.
  destruct Hh, (callerTenantID_cases rq) as [|(_ & _ & [-> | ->])]; done.
Qed.

Lemma require_run (k : string -> handled) : require rq r k = k t.
Proof. unfold require. apply str_eqb_false in Hne. by rewrite Hne. Qed.

Lemma handleListProvidersMux_ok q : effect_ok t r (handleListProvidersMux q rq r).
Proof.
  unfold handleListProvidersMux. rewrite require_run.
  pose proof (fun u => list_loop_ok q t (List_ t r) u r Hk) as HL.
  destruct (list_loop q t (List_ t r) r) as [[l|] r1]; cbn in HL;
    [case_match|]; apply effect_of; try (by apply (HL "")); intros u _; by apply HL.
Qed.

Lemma handleCreateProviderMux_ok kt body : effect_ok t r (handleCreateProviderMux kt body rq r).
Proof.
  unfold handleCreateProviderMux. destruct body as [q|]; [|by apply effect_none].
  repeat (case_match; [by apply effect_none|]). rewrite require_run. case_match; [by apply effect_none|].
  pose proof (keyed_Register (config_of_create q t) r Hk caller_no_nul) as Hk1.
  pose proof (fun u => Register_view u (config_of_create q t) r) as Hv.
  destruct (Register _ r) as [[] r1]; [|case_match|]; by apply effect_of.
Qed.

Lemma handleGetProviderMux_ok name : effect_ok t r (handleGetProviderMux name rq r).
Proof.
  unfold handleGetProviderMux. rewrite require_run. case_match; by apply effect_none.
Qed.

Lemma handleUpdateProviderMux_ok name body : effect_ok t r (handleUpdateProviderMux name body rq r).
Proof.
  unfold handleUpdateProviderMux. rewrite require_run. case_match; [by apply effect_none|].
  destruct body as [q|]; [|by apply effect_none].
  destruct (GetConfig t name r) as [c| |]; [|by apply effect_none..].
  destruct (str_eqb (cfg_TenantID c) t) eqn:E; [|by apply effect_none].
  apply str_eqb_true in E. assert (cfg_TenantID (apply_update q c) = t) as E' by done.
  pose proof (keyed_Update (apply_update q c) r Hk) as Hk1. rewrite E' in Hk1.
  pose proof (fun u => Update_view u (apply_update q c) r) as Hv. rewrite E' in Hv.
  cbn [negb]. destruct (Update _ r) as [[] r1]; apply effect_of; auto using caller_no_nul.
Qed.

Lemma handleDeleteProviderMux_ok name : effect_ok t r (handleDeleteProviderMux name rq r).
Proof.
  unfold handleDeleteProviderMux. rewrite require_run. case_match; [by apply effect_none|].
  destruct (GetConfig t name r); [|by apply effect_none..].
  case_match; [by apply effect_none|].
  pose proof (keyed_Unregister t name r Hk). pose proof (fun u => Unregister_view u t name r).
  destruct (Unregister t name r) as [[] r1]; by apply effect_of.
Qed.

Lemma handleProviderHealthMux_ok check now lat name : effect_ok t r (handleProviderHealthMux check now lat name rq r).
Proof.
  unfold handleProviderHealthMux. rewrite require_run.
  destruct (OwnsProvider t name r) eqn:Ho; [|by apply effect_none]. cbn [negb].
  pose proof (keyed_HealthCheckSingle check now lat t name r Hk) as Hk1.
  pose proof (fun u => HealthCheckSingle_view u t name check now lat r) as Hv.
  assert (forall p, p ∈ match (Get t name r).1 with Ret p => [p] | _ => [] end ->
    exists key m, splitScopeKey key = Some (t, m) /\ instance r key = Some p) as Hs.
  { intros p. destruct (Get t name r).1 eqn:Hg; try (by intros []%not_elem_of_nil).
    intros ->%list_elem_of_singleton. eapply spent_own; eauto using caller_no_nul. }
  destruct (HealthCheckSingle _ _ _ t name r) as [[] r1]; by split.
Qed.

Lemma handleTestProvider_ok complete name body : effect_ok t r (handleTestProvider complete name body rq r).
Proof.
  unfold handleTestProvider. rewrite require_run.
  destruct (OwnsProvider t name r) eqn:Ho; [|by apply effect_none]. cbn [negb].
  pose proof (keyed_Get t name r Hk). pose proof (fun u => Get_view u t name r).
  pose proof (fun p => spent_own t name p r caller_no_nul Hne Ho) as Hs.
  destruct (Get t name r) as [[p| |] r1]; [|by apply effect_of..].
  case_match; (split; [done|auto|]); cbn; intros x ->%list_elem_of_singleton; by apply Hs.
Qed.

Lemma getRoutingConfigMux_ok  : effect_ok t r (getRoutingConfigMux rq r).
Proof.
  unfold getRoutingConfigMux. rewrite require_run. case_match; by apply effect_none.
Qed.

Lemma updateRoutingConfigMux_ok body : effect_ok t r (updateRoutingConfigMux body rq r).
Proof.
  unfold updateRoutingConfigMux. rewrite require_run. destruct body as [ws|]; [|by apply effect_none].
  destruct (update_weights_ok t ws r caller_no_nul Hk) as [Hk1 Hv].
  destruct (update_weights t ws r) as [[a|] r1]; [by apply effect_of|].
  unfold getRoutingConfigMux, require. case_match; [by apply effect_of|].
  case_match; by apply effect_of.
Qed.

Lemma handleAllProvidersStatusMux_ok check now lat : effect_ok t r (handleAllProvidersStatusMux check now lat rq r).
Proof.
  unfold handleAllProvidersStatusMux. rewrite require_run. split; cbn.
  + by apply keyed_HealthCheck.
  + intros u. apply HealthCheck_view.
  + intros p ([[k n] p'] & -> & Hin)%list_elem_of_fmap.
    apply health_targets_split in Hin as [E Hp]. rewrite normalizeTenant_id in E by done.
    exists k, n. split; [done|]. unfold instance. by rewrite Hp.
Qed.

Lemma serve_ok o : effect_ok t r (serve o rq r).
Proof.
  destruct o; cbn [serve]; eauto using handleListProvidersMux_ok, handleCreateProviderMux_ok,
    handleGetProviderMux_ok, handleUpdateProviderMux_ok, handleDeleteProviderMux_ok,
    handleProviderHealthMux_ok, handleTestProvider_ok, getRoutingConfigMux_ok,
    updateRoutingConfigMux_ok, handleAllProvidersStatusMux_ok.
Qed.
End Serve.

(** The registry after a sequence of requests. *)
Definition serve_all (r : Reg) (l : list (route * Request)) : Reg :=
  foldl (fun r x => (serve x.1 x.2 r).1.2) r l.

Lemma serve_anonymous o rq (r : Reg) :
  callerTenantID rq = "" -> (serve o rq r).1.2 = r /\ (serve o rq r).2 = [].
Proof.
  intros E. assert (forall k, require rq r k = (AError 400 "VALIDATION_ERROR"
    "X-Tenant-ID or X-Org-ID header is required", r, [])) as Hreq.
  { intros k. unfold require. by rewrite E. }
  destruct o; cbn; try (unfold handleListProvidersMux, handleGetProviderMux,
    handleUpdateProviderMux, handleDeleteProviderMux, handleProviderHealthMux, handleTestProvider,
    getRoutingConfigMux, updateRoutingConfigMux, handleAllProvidersStatusMux; by rewrite Hreq).
  unfold handleCreateProviderMux. repeat (case_match; try done). by rewrite Hreq.
Qed.

(** C21: the provider API isolates tenants: any sequence of requests of other
    callers leaves what a tenant, or the deployment's router, reads of the
    registry, keeps every configuration under its owner, and each request calls
    only provider instances of the tenant it is authenticated as: no request
    spends another tenant's key or the deployment's. *)
Theorem api_isolation u l (r : Reg) :
  keyed r -> Forall (fun x => headers_ok x.2 /\ normalizeTenant u <> callerTenantID x.2) l ->
  same_view u r (serve_all r l) /\ keyed (serve_all r l) /\
  forall o rq, headers_ok rq -> forall p, p ∈ (serve o rq (serve_all r l)).2 ->
    exists key n, splitScopeKey key = Some (callerTenantID rq, n) /\
      callerTenantID rq <> GlobalTenant /\ instance (serve_all r l) key = Some p.
Proof.
  intros Hk Hl. assert (same_view u r (serve_all r l) /\ keyed (serve_all r l)) as [Hv Hk'].
  { revert r Hk. induction Hl as [|[o rq] l [Hh Hu] _ IH]; intros r Hk; [done|]. cbn in *.
    destruct (decide (callerTenantID rq = "")) as [E|Hne].
    { destruct (serve_anonymous o rq r E) as [E' _]. unfold serve_all. cbn. rewrite E'. by apply IH. }
    destruct (serve_ok rq r Hh Hk Hne o) as [K Hvw _].
    destruct (IH _ K) as [H1 H2]. split; [|done]. etrans; [|exact H1].
    apply Hvw. by apply caller_stranger. }
  split_and!; [done..|]. intros o rq Hh p Hp.
  destruct (decide (callerTenantID rq = "")) as [E|Hne].
  { destruct (serve_anonymous o rq (serve_all r l) E) as [_ E'].
    rewrite E' in Hp. by apply not_elem_of_nil in Hp. }
  destruct (callerTenantID_cases rq) as [|(_ & Hg & _)]; [done|].
  destruct (eo_spent _ _ _ (serve_ok rq _ Hh Hk' Hne o) p Hp) as (key & n & E & Hi). eauto.
Qed.
End Facts.

(** * What the API shows of a key *)

Definition with_keys (key arn : string) (c : ProviderConfig) : ProviderConfig :=
  mkConfig (cfg_Name c) (cfg_Type c) key arn (cfg_Endpoint c) (cfg_Model c) (cfg_Region c)
    (cfg_Enabled c) (cfg_Priority c) (cfg_Weight c) (cfg_RateLimit c) (cfg_TimeoutSeconds c)
    (cfg_Settings c) (cfg_TenantID c).

(** A resource depends on the keys only by whether there is one. *)
Theorem resource_hides_keys c h k1 a1 k2 a2 :
  (k1 = "" /\ a1 = "" <-> k2 = "" /\ a2 = "") ->
  toProviderResource (with_keys k1 a1 c) h = toProviderResource (with_keys k2 a2 c) h.
Proof.
  intros H. unfold toProviderResource. cbn. f_equal.
  rewrite <- !negb_andb. f_equal. apply Bool.eq_iff_eq_true.
  by rewrite !andb_true_iff, !str_eqb_true.
Qed.

(** * Paging *)

Lemma wrap_int_id z : - 2 ^ 63 <= z < 2 ^ 63 -> wrap_int z = z.
Proof. intros H. unfold wrap_int. rewrite Z.mod_small; lia. Qed.

(** Below the range of int a page is the part of the list it names. *)
Theorem paginate_exact {A} page size (l : list A) :
  1 <= page -> 1 <= size <= 100 -> page * size < 2 ^ 63 -> Z.of_nat (length l) < 2 ^ 63 ->
  paginate page size l
  = Some (take (Z.to_nat size) (drop (Z.to_nat ((page - 1) * size)) l)).
Proof.
  intros H1 H2 H3 Hl. unfold paginate.
  assert (0 <= (page - 1) * size <= page * size - size) by nia.
  rewrite (wrap_int_id (page - 1)), (wrap_int_id ((page - 1) * size)), wrap_int_id by nia.
  set (st := (page - 1) * size) in *. set (n := Z.of_nat (length l)) in *.
  assert (forall s e : Z, 0 <= s <= e -> e <= n ->
    go_slice l s e = Some (take (Z.to_nat (e - s)) (drop (Z.to_nat s) l))) as Hs.
  { intros s e ? ?. unfold go_slice. fold n.
    by rewrite !(proj2 (Z.leb_le _ _)) by lia. }
  destruct (Z.gtb_spec st n), (Z.gtb_spec (st + size) n); rewrite Hs by lia; f_equal.
  - rewrite !drop_ge by lia. by rewrite !take_nil.
  - lia.
  - rewrite !take_ge by (rewrite length_drop; lia). done.
  - by replace (st + size - st) with size by lia.
Qed.

(** A page number whose offset leaves the range of int panics, on any list. *)
Theorem paginate_overflow {A} (l : list A) : paginate 461168601842738792 20 l = None.
Proof.
  unfold paginate. replace (wrap_int (wrap_int (461168601842738792 - 1) * 20))
    with (-9223372036854775796) by (by vm_compute).
  destruct (Z.gtb_spec (-9223372036854775796) (Z.of_nat (length l))); [lia|]. done.
Qed.

(** * Concrete requests *)

Import Demo.

Definition from (t : string) : Request := mkRequest t "".

Example list_panics :
  (serve (RList (mkListQuery "461168601842738792" "" "" "")) (from "acme") reg2).1.1 = APanic.
Proof. vm_compute. reflexivity. Qed.

(** The text of a failed save reaches the caller when the provider's name
    contains the word the handler looks for. *)
Definition down_reg : Registry ProviderConfig PostgresStorage :=
  NewRegistry (Some (mkPostgres false None ∅)) fm 0.
Definition create_as (name : string) : CreateLLMProviderRequest :=
  mkCreate name "ollama" "" "" "" "" "" true 0 0 0 0 None.

Example license_text_leaks :
  (serve (RCreate (fun _ => true) (Some (create_as "plain"))) (from "acme") down_reg).1.1
  = AError 500 "INTERNAL_ERROR" "failed to register provider" /\
  (serve (RCreate (fun _ => true) (Some (create_as "my-license"))) (from "acme") down_reg).1.1
  = AError 403 "LICENSE_ERROR" "registry error for 'my-license': failed to persist provider: failed to save provider: connection refused".
Proof. split; vm_compute; reflexivity. Qed.

Lemma api_isolation_witness :
  let l := [(RCreate (fun _ => true) (Some (create_as "llm")), from "globex");
            (RPutRouting (Some [("llm", 7)]), from "globex");
            (RDelete "shared", from "globex"); (RDelete "llm", from "globex");
            (RGet "shared", from "*")] in
  same_view "acme" reg2 (serve_all reg2 l) /\
  (Get "acme" "llm" (serve_all reg2 l)).1 = Ret (cfg "acme" "llm" "small").
Proof.
  intros l. destruct (api_isolation "acme" l reg2) as (Hv & _).
  - intros key c. unfold reg2, reg1, reg0. intros H.
    change (configs _) with (<[scopeKey "" "shared" := Some (cfg "" "shared" "large")]>
      (<[scopeKey "acme" "llm" := Some (cfg "acme" "llm" "small")]>
        (∅ : gmap string (option ProviderConfig)))) in H.
    apply lookup_insert_Some in H as [[<- [= <-]]|[_ H]];
      [|apply lookup_insert_Some in H as [[<- [= <-]]|[_ H]]; [|by rewrite lookup_empty in H]];
      (split; [by apply (bool_decide_unpack _)|eauto]).
  - subst l. repeat constructor; try (by apply (bool_decide_unpack _)); cbn; discriminate.
  - split; [exact Hv|]. rewrite <- (Get_proper "acme" "llm" ltac:(by apply (bool_decide_unpack _)) _ _ Hv).
    by vm_compute.
Defined.

Lemma registry_well_keyed_witness :
  let r : Registry ProviderConfig PostgresStorage := foldl run_registry_op (NewRegistry None fm 0)
    [Asked (ORegister (cfg "acme" "llm" "small"));
     ORegisterProvider "shared" (Some (cfg "" "shared" "large")) (Some (cfg "" "shared" "large"))] in
  keyed r /\ GetConfig "acme" "llm" r = Ret (cfg "acme" "llm" "small") /\ GetConfig "acme" "shared" r = Ret (cfg "" "shared" "large").
Proof.
  intros r. split; [|split; by vm_compute].
  apply (registry_well_keyed (P := ProviderConfig) None fm 0).
  apply Forall_cons_2; [by apply (bool_decide_unpack _)|apply Forall_cons_2; [|apply Forall_nil_2]].
  intros c [= <-]. by apply (bool_decide_unpack _).
Defined.
