(* ===== verification/Sqli.v ===== *)
(** The SQL injection scanner, src/platform/agent/sqli: the detection patterns,
    the basic scanner, its configuration, the response-scanning middleware with
    its counters and audit events.

    Durations and timestamps are not modelled; a context is represented by
    whether it is cancelled.  Patterns are written with [~] for the double
    quote. *)

From S2P Require Import Prelude GoFloat GoStrings Regexp PolicyTypes GoJSON GoFmt Redactor LogSanitize.

Local Open Scope Z_scope.
Local Open Scope go_scope.

(** The double quote. *)
Definition DQ (s : string) : string := of_bytes ((fun b => if b =? 126 then 34 else b) <$> bytes s).

(** * scanner.go *)

Definition ModeOff : string := "off".
Definition ModeBasic : string := "basic".
Definition ModeAdvanced : string := "advanced".
Definition DefaultMode : string := ModeBasic.

Definition ValidModes : list string := [ModeOff; ModeBasic; ModeAdvanced].

Definition Mode_IsValid (m : string) : bool :=
  str_eqb m ModeOff || str_eqb m ModeBasic || str_eqb m ModeAdvanced.

Definition ParseMode (s : string) : option string := if Mode_IsValid s then Some s else None.

Definition ScanTypeInput : string := "input".
Definition ScanTypeResponse : string := "response".

Definition CategoryUnionBased : string := "union_based".
Definition CategoryBooleanBlind : string := "boolean_blind".
Definition CategoryTimeBased : string := "time_based".
Definition CategoryErrorBased : string := "error_based".
Definition CategoryStackedQueries : string := "stacked_queries".
Definition CategoryCommentInjection : string := "comment_injection".
Definition CategoryGeneric : string := "generic".
Definition CategoryDangerousQuery : string := "dangerous_query".

Record Result := mkResult {
  Detected : bool;
  Blocked : bool;
  r_Pattern : string;
  r_Category : string;
  Confidence : float64;
  r_Input : string;
  r_ScanType : string;
  r_Mode : string;
  r_Metadata : list (string * value);
}.

(** The interface [Scanner]. *)
Record Scanner := mkScanner {
  Scan : bool -> string -> string -> Result;
  sc_Mode : string;
  IsEnterprise : bool;
}.

Definition clean_result (scanType mode : string) : Result :=
  mkResult false false "" "" f64_zero "" scanType mode [].

Definition NoOpScanner : Scanner :=
  mkScanner (fun _ _ scanType => clean_result scanType ModeOff) ModeOff false.

(** The registry of factories, by mode. *)
Definition scannerRegistry := list (string * Scanner).

Definition RegisterScanner (mode : string) (factory : Scanner) (reg : scannerRegistry) : scannerRegistry :=
  assoc_put mode factory reg.

Definition NewScanner (reg : scannerRegistry) (mode : string) : result string Scanner :=
  if negb (Mode_IsValid mode) then Err "invalid scanning mode"
  else if str_eqb mode ModeOff then Ok NoOpScanner
  else match assoc_get mode reg with
       | Some s => Ok s
       | None => if str_eqb mode ModeAdvanced then Err "advanced scanning mode requires enterprise license"
                 else Err "scanner not registered for mode"
       end.

(** * patterns.go *)

Record Pattern := mkPattern {
  p_Name : string;
  p_Category : string;
  p_Regex : regex;
  p_Description : string;
  p_Severity : Z;
}.

(** The literals of [defaultPatterns], with the expression as written: the
    injection techniques, ... *)
Definition injection_table : list (string * string * string * string * Z) := [
  ("union_select", CategoryUnionBased, "(?i)\bUNION\s+(ALL\s+)?SELECT\b",
   "Detects UNION SELECT statements used to extract data", 9);
  ("union_injection", CategoryUnionBased, "(?i)['~\)]\s*UNION\s+(ALL\s+)?SELECT",
   "Detects UNION injection after string termination", 10);
  ("or_true_condition", CategoryBooleanBlind, "(?i)\bOR\s+['~]?\d+['~]?\s*=\s*['~]?\d+['~]?",
   "Detects OR with always-true numeric comparison (OR 1=1)", 8);
  ("or_string_condition", CategoryBooleanBlind, "(?i)\bOR\s+['~][^'~]*['~]\s*=\s*['~][^'~]*['~]",
   "Detects OR with always-true string comparison (OR 'a'='a')", 8);
  ("and_false_condition", CategoryBooleanBlind, "(?i)\bAND\s+['~]?\d+['~]?\s*=\s*['~]?\d+['~]?",
   "Detects AND with numeric comparison for boolean blind", 7);
  ("sleep_function", CategoryTimeBased, "(?i)\bSLEEP\s*\(\s*\d+\s*\)",
   "Detects MySQL SLEEP function for time-based blind injection", 9);
  ("waitfor_delay", CategoryTimeBased, "(?i)\bWAITFOR\s+DELAY\s+['~][^'~]+['~]",
   "Detects SQL Server WAITFOR DELAY for time-based blind injection", 9);
  ("pg_sleep", CategoryTimeBased, "(?i)\bPG_SLEEP\s*\(\s*\d+\s*\)",
   "Detects PostgreSQL pg_sleep function", 9);
  ("benchmark_function", CategoryTimeBased, "(?i)\bBENCHMARK\s*\(\s*\d+\s*,",
   "Detects MySQL BENCHMARK function for time-based injection", 9);
  ("extractvalue", CategoryErrorBased, "(?i)\bEXTRACTVALUE\s*\(",
   "Detects EXTRACTVALUE function used in error-based injection", 8);
  ("updatexml", CategoryErrorBased, "(?i)\bUPDATEXML\s*\(",
   "Detects UPDATEXML function used in error-based injection", 8);
  ("convert_int", CategoryErrorBased, "(?i)\bCONVERT\s*\(\s*INT\s*,",
   "Detects CONVERT(INT, ...) for error-based injection", 7);
  ("semicolon_drop", CategoryStackedQueries, "(?i);\s*DROP\s+(TABLE|DATABASE)\b",
   "Detects stacked DROP TABLE/DATABASE statement", 10);
  ("semicolon_delete", CategoryStackedQueries, "(?i);\s*DELETE\s+FROM\b",
   "Detects stacked DELETE statement", 10);
  ("semicolon_update", CategoryStackedQueries, "(?i);\s*UPDATE\s+\w+\s+SET\b",
   "Detects stacked UPDATE statement", 9);
  ("semicolon_insert", CategoryStackedQueries, "(?i);\s*INSERT\s+INTO\b",
   "Detects stacked INSERT statement", 9);
  ("semicolon_exec", CategoryStackedQueries, "(?i);\s*(EXEC|EXECUTE)\s*\(",
   "Detects stacked EXEC/EXECUTE statement", 10);
  ("inline_comment", CategoryCommentInjection, "(?i)/\*.*\*/\s*(UNION|SELECT|INSERT|UPDATE|DELETE|DROP)",
   "Detects SQL commands after inline comment", 8);
  ("line_comment_mysql", CategoryCommentInjection, "(?i)#\s*(UNION|SELECT|INSERT|UPDATE|DELETE|DROP)",
   "Detects SQL commands after MySQL line comment", 8);
  ("line_comment_double_dash", CategoryCommentInjection, "(?i)--\s*(UNION|SELECT|INSERT|UPDATE|DELETE|DROP)",
   "Detects SQL commands after double-dash comment", 8);
  ("string_term_comment", CategoryCommentInjection, "(?m)^[^'~\r\n]*['~][ \t)]*(?:--|#)[ \t-]*\r?$",
   "Detects a breakout string-literal terminator directly followed by a line comment ending the line (comment-out auth bypass)", 8)].

(** ..., and the generic and dangerous statements. *)
Definition statement_table : list (string * string * string * string * Z) := [
  ("select_from", CategoryGeneric, "(?i)['~\)]\s*;\s*SELECT\s+.+\s+FROM\b",
   "Detects SELECT ... FROM after string termination", 9);
  ("admin_bypass", CategoryGeneric, "(?i)(?:['~][\s)]*OR\s+\(?['~]?[^'~\r\n]{0,64}?['~]?\s*=\s*\(?['~]?[^'~\r\n]{0,64}?['~]?[ \t]*--|\bOR\s+\d{1,10}\s*=\s*\d{1,10}[ \t]*--)",
   "Detects authentication bypass pattern with comment", 10);
  ("hex_encoding", CategoryGeneric, "(?i)0x[0-9a-f]{8,}",
   "Detects potential hex-encoded SQL injection payload", 6);
  ("char_function", CategoryGeneric, "(?i)\bCHAR\s*\(\s*\d+(\s*,\s*\d+)+\s*\)",
   "Detects CHAR() function used to obfuscate injection", 7);
  ("concat_function", CategoryGeneric, "(?i)\bCONCAT\s*\([^)]*SELECT\b",
   "Detects CONCAT with embedded SELECT", 8);
  ("information_schema", CategoryGeneric, "(?i)\bINFORMATION_SCHEMA\b",
   "Detects access to INFORMATION_SCHEMA for database enumeration", 8);
  ("sys_tables", CategoryGeneric, "(?i)\b(sysobjects|syscolumns|sys\.tables|sys\.columns)\b",
   "Detects access to system tables for database enumeration", 8);
  ("load_file", CategoryGeneric, "(?i)\bLOAD_FILE\s*\(",
   "Detects LOAD_FILE function for file access", 10);
  ("into_outfile", CategoryGeneric, "(?i)\bINTO\s+(OUT|DUMP)FILE\b",
   "Detects INTO OUTFILE/DUMPFILE for file writing", 10);
  ("drop_table", CategoryDangerousQuery, "(?im)\bDROP\s+TABLE\s+(?:IF\s+EXISTS\s+)?(?:(?s:/\*.*?\*/)\s*)?[\x60~'\w.$\[\]]+\s*(?:;|,|--|\#|\z|\bCASCADE\b|\bRESTRICT\b)",
   "Detects DROP TABLE statement", 10);
  ("drop_database", CategoryDangerousQuery, "(?im)\bDROP\s+DATABASE\s+(?:IF\s+EXISTS\s+)?(?:(?s:/\*.*?\*/)\s*)?[\x60~'\w.$\[\]]+\s*(?:;|,|--|\#|\z)",
   "Detects DROP DATABASE statement", 10);
  ("truncate_table", CategoryDangerousQuery, "(?im)\bTRUNCATE\s+TABLE\s+(?:(?s:/\*.*?\*/)\s*)?[\x60~'\w.$\[\]]+\s*(?:;|,|--|\#|\z|\bCASCADE\b|\bRESTART\b|\bCONTINUE\b)",
   "Detects TRUNCATE TABLE statement", 10);
  ("alter_table", CategoryDangerousQuery, "(?im)\bALTER\s+TABLE\s+(?:IF\s+EXISTS\s+)?(?:(?s:/\*.*?\*/)\s*)?[\x60~'\w.$\[\]]+\s+(?:ADD|DROP|ALTER|RENAME|MODIFY|CHANGE|ENABLE|DISABLE|OWNER|SET)\b",
   "Detects ALTER TABLE statement (schema modification)", 8);
  ("delete_without_where", CategoryDangerousQuery, "(?im)\bDELETE\s+FROM\s+[\x60~'\w.$\[\]]+\s*(?:;|--|\#|\z)",
   "Detects DELETE FROM without WHERE clause", 9);
  ("create_user", CategoryDangerousQuery, "(?im)\bCREATE\s+USER\s+(?:IF\s+NOT\s+EXISTS\s+)?(?:(?s:/\*.*?\*/)\s*)?[\x60~'\w.$\[\]]+\s*(?:;|,|--|\#|@|(?:\bWITH\s+)?\b(?:IDENTIFIED|SUPERUSER|CREATEDB|CREATEROLE|LOGIN|NOLOGIN|PASSWORD|VALID)\b)",
   "Detects CREATE USER statement", 9);
  ("grant_privileges", CategoryDangerousQuery, "(?im)\bGRANT\s+(?:ALL(?:\s+PRIVILEGES)?|SELECT|INSERT|UPDATE|DELETE|TRUNCATE|MAINTAIN|EXECUTE|USAGE|CREATE|CONNECT|TEMPORARY|TEMP|TRIGGER|REFERENCES|INDEX|ALTER|DROP)\b[^;]{0,200}?\bON\b[^;]{0,200}?\bTO\s+(?:GROUP\s+|ROLE\s+|USER\s+)?(?:[\x60'~]|\w+\s*(?:;|,|@|$|--|\#|\bWITH\b|\bCASCADE\b))",
   "Detects GRANT privilege statement", 9);
  ("revoke_privileges", CategoryDangerousQuery, "(?im)\bREVOKE\s+(?:GRANT\s+OPTION\s+FOR\s+)?(?:ALL(?:\s+PRIVILEGES)?|SELECT|INSERT|UPDATE|DELETE|TRUNCATE|MAINTAIN|EXECUTE|USAGE|CREATE|CONNECT|TEMPORARY|TEMP|TRIGGER|REFERENCES|INDEX|ALTER|DROP)\b(?:[^;]{0,200}?\bON\b[^;]{0,200}?\bFROM\s+(?:GROUP\s+|ROLE\s+|USER\s+)?(?:[\x60'~]|\w+\s*(?:;|,|@|$|--|\#|\bCASCADE\b|\bRESTRICT\b))|\s*,\s*GRANT\s+OPTION\s+FROM\b)",
   "Detects REVOKE privilege statement", 9)].

Definition pattern_table : list (string * string * string * string * Z) := injection_table ++ statement_table.

Definition pattern_of (row : string * string * string * string * Z) : Pattern :=
  let '(name, cat, re, desc, sev) := row in mkPattern name cat (MustCompile (DQ re)) desc sev.

Definition defaultPatterns : list Pattern := pattern_of <$> pattern_table.

(** A [PatternSet] is its list of patterns. *)
Definition PatternSet := list Pattern.
Definition NewPatternSet : PatternSet := defaultPatterns.

Definition PatternsByCategory (ps : PatternSet) (category : string) : list Pattern :=
  List.filter (fun p => str_eqb (p_Category p) category) ps.

(** Every literal compiles, so none of the entries is the empty expression. *)
Lemma patterns_compile : forallb (fun row => match Compile (DQ row.1.1.2) with Some _ => true | None => false end) pattern_table = true.
Proof. vm_compute. reflexivity. Qed.

(** * basic_scanner.go *)

(** Lengths are non-negative. *)
Record BasicScanner := mkBasic {
  bs_patterns : PatternSet;
  maxInputLen : nat;
  snippetLen : nat;
}.

Definition BasicScannerOption := BasicScanner -> BasicScanner.

Definition WithPatternSet (ps : PatternSet) : BasicScannerOption :=
  fun s => mkBasic ps (maxInputLen s) (snippetLen s).
Definition WithMaxInputLength (n : nat) : BasicScannerOption :=
  fun s => mkBasic (bs_patterns s) n (snippetLen s).
Definition WithSnippetLength (n : nat) : BasicScannerOption :=
  fun s => mkBasic (bs_patterns s) (maxInputLen s) n.

Definition default_max : nat := Z.to_nat 1048576.

Definition NewBasicScanner (opts : list BasicScannerOption) : BasicScanner :=
  foldl (fun s opt => opt s) (mkBasic NewPatternSet default_max 100) opts.

Definition passwordMaskRegex : regex :=
  MustCompile (DQ "(?i)(password|passwd|pwd)\s*[=:]\s*['~]?[^'~\s]+['~]?").
Definition apiKeyMaskRegex : regex :=
  MustCompile (DQ "(?i)(api[_-]?key|apikey|secret[_-]?key)\s*[=:]\s*['~]?[^'~\s]+['~]?").
Definition tokenMaskRegex : regex :=
  MustCompile (DQ "(?i)(token|bearer)\s*[=:]\s*['~]?[^'~\s]+['~]?").

Definition sanitizeForLog (input : string) : string :=
  let input := ReplaceByte input LF " " in
  let input := ReplaceAllStringFunc passwordMaskRegex input (fun _ => "[REDACTED_PASSWORD]") in
  let input := ReplaceAllStringFunc apiKeyMaskRegex input (fun _ => "[REDACTED_KEY]") in
  ReplaceAllStringFunc tokenMaskRegex input (fun _ => "[REDACTED_TOKEN]").

Definition sanitizeInput (s : BasicScanner) (input : string) : string :=
  if (len input <=? snippetLen s)%nat then sanitizeForLog input
  else sanitizeForLog (slice input 0 (snippetLen s)) +:+ "...".

Definition truncated (n : nat) (s : string) : string := if (n <? len s)%nat then slice s 0 n else s.

Definition BasicScanner_Scan (s : BasicScanner) (cancelled : bool) (content scanType : string) : Result :=
  if cancelled then
    mkResult false false "" "" f64_zero "" scanType ModeBasic [("error", VString "context cancelled")]
  else
    let content := truncated (maxInputLen s) content in
    match find_first (fun p => MatchString (p_Regex p) content) (bs_patterns s) with
    | Some p =>
        mkResult true true (p_Name p) (p_Category p) f64_one (sanitizeInput s content) scanType ModeBasic
          [("pattern_description", VString (p_Description p)); ("severity", VInt (p_Severity p))]
    | None => clean_result scanType ModeBasic
    end.

Definition basic_scanner (s : BasicScanner) : Scanner := mkScanner (BasicScanner_Scan s) ModeBasic false.

(** The registry the package's [init] functions leave: no advanced scanner in
    the Community edition. *)
Definition community_registry : scannerRegistry :=
  RegisterScanner ModeOff NoOpScanner
    (RegisterScanner ModeBasic (basic_scanner (NewBasicScanner [])) []).

(** * config.go *)

Record ConnectorConfig := mkConnector { cc_ResponseMode : string; cc_Enabled : bool }.

Record Config := mkConfig {
  InputMode : string;
  ResponseMode : string;
  BlockOnDetection : bool;
  LogDetections : bool;
  AuditTrailEnabled : bool;
  MaxContentLength : Z;
  ConnectorOverrides : list (string * ConnectorConfig);
}.

Definition DefaultConfig : Config := mkConfig ModeBasic ModeBasic false true true 1048576 [].

Definition with_modes (c : Config) (i r : string) : Config :=
  mkConfig i r (BlockOnDetection c) (LogDetections c) (AuditTrailEnabled c) (MaxContentLength c) (ConnectorOverrides c).
Definition WithInputMode (c : Config) (m : string) : Config := with_modes c m (ResponseMode c).
Definition WithResponseMode (c : Config) (m : string) : Config := with_modes c (InputMode c) m.
Definition WithBlockOnDetection (c : Config) (b : bool) : Config :=
  mkConfig (InputMode c) (ResponseMode c) b (LogDetections c) (AuditTrailEnabled c) (MaxContentLength c) (ConnectorOverrides c).
Definition WithConnectorOverride (c : Config) (name : string) (o : ConnectorConfig) : Config :=
  mkConfig (InputMode c) (ResponseMode c) (BlockOnDetection c) (LogDetections c) (AuditTrailEnabled c)
    (MaxContentLength c) (assoc_put name o (ConnectorOverrides c)).

Section Env.
Context `{U : Unicode}.

(** [os.Getenv] is an argument; an unset variable reads as empty. *)
Definition ConfigFromEnv (getenv : string -> string) : Config :=
  let cfg := DefaultConfig in
  let modeStr := getenv "SQLI_SCANNER_MODE" in
  let cfg := if str_eqb modeStr "" then cfg
             else match ParseMode (ToLower modeStr) with
                  | None => cfg
                  | Some m => with_modes cfg m m
                  end in
  let actionStr := getenv "SQLI_ACTION" in
  let blockStr := getenv "SQLI_BLOCK_MODE" in
  WithBlockOnDetection cfg
    (if negb (str_eqb actionStr "") then
       let a := ToLower actionStr in
       if str_eqb a "block" then true
       else if str_eqb a "warn" || str_eqb a "log" then false
       else true
     else if negb (str_eqb blockStr "") then
       let a := ToLower blockStr in
       if str_eqb a "block" then true
       else if str_eqb a "warn" then false
       else true
     else true).
End Env.

(** The errors in the order they are found; [nil] is the empty list. *)
Definition Validate (c : Config) : list string :=
  (if Mode_IsValid (InputMode c) then [] else ["invalid input_mode"]) ++
  (if Mode_IsValid (ResponseMode c) then [] else ["invalid response_mode"]) ++
  (if MaxContentLength c <=? 0 then ["max_content_length must be positive"] else []) ++
  omap (fun '(name, o) =>
          if negb (Mode_IsValid (cc_ResponseMode o)) && negb (str_eqb (cc_ResponseMode o) "")
          then Some ("invalid response_mode for connector " +:+ name) else None) (ConnectorOverrides c).

Definition GetResponseModeForConnector (c : Config) (connectorName : string) : string :=
  match assoc_get connectorName (ConnectorOverrides c) with
  | Some o => if str_eqb (cc_ResponseMode o) "" then ResponseMode c else cc_ResponseMode o
  | None => ResponseMode c
  end.

Definition IsConnectorEnabled (c : Config) (connectorName : string) : bool :=
  match assoc_get connectorName (ConnectorOverrides c) with
  | Some o => cc_Enabled o
  | None => true
  end.

(** * audit.go *)

Record AuditEvent := mkEvent {
  ae_Type : string;
  ae_Severity : string;
  ae_UserID : string;
  ae_ClientID : string;
  ae_TenantID : string;
  ae_ConnectorName : string;
  ae_ScanType : string;
  ae_Pattern : string;
  ae_Category : string;
  ae_Confidence : float64;
  ae_Mode : string;
  ae_Blocked : bool;
  ae_RequestID : string;
  ae_InputSnippet : string;
}.

Definition AuditEventType : string := "sqli_detection".

Definition CategorySeverity (category : string) : string :=
  if str_eqb category CategoryStackedQueries || str_eqb category CategoryDangerousQuery then "critical"
  else if str_eqb category CategoryUnionBased || str_eqb category CategoryTimeBased then "high"
  else if str_eqb category CategoryBooleanBlind || str_eqb category CategoryErrorBased
          || str_eqb category CategoryCommentInjection then "medium"
  else "low".

Definition NewAuditEvent (result : option Result) (connectorName : string) : option AuditEvent :=
  match result with
  | Some r =>
      if Detected r then
        Some (mkEvent AuditEventType (CategorySeverity (r_Category r)) "" "" "" connectorName (r_ScanType r)
                (r_Pattern r) (r_Category r) (Confidence r) (r_Mode r) (Blocked r) "" (r_Input r))
      else None
  | None => None
  end.

Definition WithUserContext (e : AuditEvent) (userID clientID tenantID : string) : AuditEvent :=
  mkEvent (ae_Type e) (ae_Severity e) userID clientID tenantID (ae_ConnectorName e) (ae_ScanType e)
    (ae_Pattern e) (ae_Category e) (ae_Confidence e) (ae_Mode e) (ae_Blocked e) (ae_RequestID e) (ae_InputSnippet e).

Definition WithRequestID (e : AuditEvent) (requestID : string) : AuditEvent :=
  mkEvent (ae_Type e) (ae_Severity e) (ae_UserID e) (ae_ClientID e) (ae_TenantID e) (ae_ConnectorName e)
    (ae_ScanType e) (ae_Pattern e) (ae_Category e) (ae_Confidence e) (ae_Mode e) (ae_Blocked e) requestID (ae_InputSnippet e).

(** The events the global callback receives; a nil event is dropped. *)
Definition EmitAuditEvent (event : option AuditEvent) : list AuditEvent :=
  match event with Some e => [e] | None => [] end.

(** * middleware.go *)

Record ScanningMiddleware := mkMiddleware {
  mw_config : Config;
  mw_scanner : Scanner;
  mw_inputScanner : option Scanner;
  scansTotal : Z;
  detectionsTotal : Z;
  blockedTotal : Z;
}.

Record ResponseScanResult := mkScanResult {
  sr_Detected : bool;
  sr_Blocked : bool;
  sr_Pattern : string;
  sr_Category : string;
  sr_Confidence : float64;
  sr_ConnectorName : string;
  sr_ScanResult : option Result;
}.

(** [int64] counters wrap. *)
Definition incr64 (n : Z) : Z := if n =? int64_max then int64_min else n + 1.

Definition count_scan (m : ScanningMiddleware) : ScanningMiddleware :=
  mkMiddleware (mw_config m) (mw_scanner m) (mw_inputScanner m) (incr64 (scansTotal m)) (detectionsTotal m) (blockedTotal m).

Definition count_detection (blocked : bool) (m : ScanningMiddleware) : ScanningMiddleware :=
  mkMiddleware (mw_config m) (mw_scanner m) (mw_inputScanner m) (scansTotal m) (incr64 (detectionsTotal m))
    (if blocked then incr64 (blockedTotal m) else blockedTotal m).

Definition NewScanningMiddleware (reg : scannerRegistry) (cfg : Config) (custom : option Scanner)
  : result string ScanningMiddleware :=
  match Validate cfg with
  | _ :: _ => Err "invalid configuration"
  | [] =>
      sc <-! (match custom with Some s => Ok s | None => NewScanner reg (ResponseMode cfg) end);
      isc <-! NewScanner reg (InputMode cfg);
      Ok (mkMiddleware cfg sc (Some isc) 0 0 0)
  end.

(** The outcome of a skipped scan. *)
Definition not_scanned : ResponseScanResult := mkScanResult false false "" "" f64_zero "" None.

Section Middleware.
Context `{F : GoFormat}.

Definition marshal (v : value) : option string := json_encode true v.

Definition rowsToContent (c : Config) (rows : list (list (string * value))) : string :=
  match rows with
  | [] => ""
  | _ =>
      let rowsToScan := take 100 rows in
      match marshal (VRows rowsToScan) with
      | None => join " " ((fun row => default "" (marshal (VObj row))) <$> rowsToScan)
      | Some content => truncated (Z.to_nat (MaxContentLength c)) content
      end
  end.

(** The common body of the two response scans, after the counter. *)
Definition scan_content (m : ScanningMiddleware) (cancelled : bool) (connectorName content : string)
  : ResponseScanResult * ScanningMiddleware * list AuditEvent :=
  let result := Scan (mw_scanner m) cancelled content ScanTypeResponse in
  let blocked := Detected result && BlockOnDetection (mw_config m) in
  let scanResult := mkScanResult (Detected result) blocked (r_Pattern result) (r_Category result)
                      (Confidence result) connectorName (Some result) in
  if Detected result then
    (scanResult, count_detection blocked m,
     if AuditTrailEnabled (mw_config m) then EmitAuditEvent (NewAuditEvent (Some result) connectorName) else [])
  else (scanResult, m, []).

Definition ScanQueryResponse (m : ScanningMiddleware) (cancelled : bool) (connectorName : string)
    (rows : list (list (string * value))) : ResponseScanResult * ScanningMiddleware * list AuditEvent :=
  let m := count_scan m in
  if negb (IsConnectorEnabled (mw_config m) connectorName) then (not_scanned, m, [])
  else if str_eqb (GetResponseModeForConnector (mw_config m) connectorName) ModeOff then (not_scanned, m, [])
  else scan_content m cancelled connectorName (rowsToContent (mw_config m) rows).

Definition ScanCommandResponse (m : ScanningMiddleware) (cancelled : bool) (connectorName message : string)
    (metadata : list (string * value)) : ResponseScanResult * ScanningMiddleware * list AuditEvent :=
  let m := count_scan m in
  if negb (IsConnectorEnabled (mw_config m) connectorName) then (not_scanned, m, [])
  else if str_eqb (GetResponseModeForConnector (mw_config m) connectorName) ModeOff then (not_scanned, m, [])
  else
    let content :=
      match metadata with
      | [] => message
      | _ => (if str_eqb message "" then "" else message +:+ " ") +:+ default "" (marshal (VObj metadata))
      end in
    scan_content m cancelled connectorName content.

(** [None] is the panic of a call on the missing scanner. *)
Definition ScanInput (m : ScanningMiddleware) (cancelled : bool) (input : string)
  : option (Result * ScanningMiddleware * list AuditEvent) :=
  let m := count_scan m in
  if str_eqb (InputMode (mw_config m)) ModeOff then Some (clean_result ScanTypeInput ModeOff, m, [])
  else
    sc ← mw_inputScanner m;
    let result := Scan sc cancelled input ScanTypeInput in
    if Detected result then
      Some (result, count_detection (BlockOnDetection (mw_config m)) m,
            if AuditTrailEnabled (mw_config m) then EmitAuditEvent (NewAuditEvent (Some result) "user_input") else [])
    else Some (result, m, []).
End Middleware.

Definition GetMetrics (m : ScanningMiddleware) : Z * Z * Z := (scansTotal m, detectionsTotal m, blockedTotal m).

Definition ResetMetrics (m : ScanningMiddleware) : ScanningMiddleware :=
  mkMiddleware (mw_config m) (mw_scanner m) (mw_inputScanner m) 0 0 0.

Definition UpdateConfig (reg : scannerRegistry) (m : ScanningMiddleware) (cfg : Config)
  : result string ScanningMiddleware :=
  match Validate cfg with
  | _ :: _ => Err "invalid configuration"
  | [] =>
      sc <-! NewScanner reg (ResponseMode cfg);
      isc <-! NewScanner reg (InputMode cfg);
      Ok (mkMiddleware cfg sc (Some isc) (scansTotal m) (detectionsTotal m) (blockedTotal m))
  end.

(** The global instance, created with the default configuration on first use. *)
Definition GetGlobalMiddleware (reg : scannerRegistry) (g : option ScanningMiddleware) : ScanningMiddleware :=
  match g with
  | Some m => m
  | None =>
      match NewScanningMiddleware reg DefaultConfig None with
      | Ok m => m
      | Err _ => mkMiddleware (WithResponseMode DefaultConfig ModeOff) NoOpScanner None 0 0 0
      end
  end.

Definition InitGlobalMiddleware (reg : scannerRegistry) (g : option ScanningMiddleware) (cfg : Config)
  : result string (option ScanningMiddleware) :=
  m <-! NewScanningMiddleware reg cfg None; Ok (Some m).

(** Properties of the SQL injection scanner: what the basic scanner detects, the
    counters of the middleware along any run, and what its configuration does
    and does not control. *)

(** * The basic scanner *)

Definition pattern_hits (content : string) (p : Pattern) : Prop :=
  exists i j, rtc (rune_step (bytes content)) 0%nat i /\ Matches (bytes content) (p_Regex p) i j.

Lemma hits_iff content p : MatchString (p_Regex p) content = true <-> pattern_hits content p.
Proof. apply MatchString_iff. Qed.

Lemma Scan_blocked s c content scanType :
  Blocked (BasicScanner_Scan s c content scanType) = Detected (BasicScanner_Scan s c content scanType).
Proof. unfold BasicScanner_Scan. destruct c; [done|]. by destruct (find_first _ _). Qed.

(** an uncancelled basic scan detects an injection exactly when some pattern
    of its set matches the content it keeps, and then reports the first such
    pattern of the set with full confidence and a recommendation to block. *)
Theorem Scan_exact s content scanType :
  let r := BasicScanner_Scan s false content scanType in
  let kept := truncated (maxInputLen s) content in
  (Detected r = true <-> exists p, p ∈ bs_patterns s /\ pattern_hits kept p) /\
  (Detected r = true ->
     Blocked r = true /\ Confidence r = f64_one /\
     exists l1 p l2, bs_patterns s = l1 ++ p :: l2 /\ pattern_hits kept p /\
       (forall q, q ∈ l1 -> ~ pattern_hits kept q) /\ r_Pattern r = p_Name p /\ r_Category r = p_Category p).
Proof.
  cbn zeta. unfold BasicScanner_Scan. cbn match.
  destruct (find_first _ _) as [p|] eqn:E.
  - apply find_first_split in E as (l1 & l2 & Hl & Hp & Hl1). apply hits_iff in Hp. split.
    + split; [intros _|done]. exists p. split; [|done]. rewrite Hl. apply elem_of_app. right. by left.
    + intros _. repeat split; try done. exists l1, p, l2. repeat split; try done.
      intros q Hq Hh%hits_iff. rewrite Forall_forall in Hl1. specialize (Hl1 q Hq). cbn in Hl1. congruence.
  - apply find_first_None in E. split; [|done]. split; [done|].
    intros (p & Hp & Hh%hits_iff). rewrite Forall_forall in E. specialize (E p Hp). cbn in E. congruence.
Qed.

Definition demo_scanner : BasicScanner := NewBasicScanner [].

Lemma Scan_exact_witness :
  let r := BasicScanner_Scan demo_scanner false "x' UNION ALL SELECT password FROM users" ScanTypeInput in
  Detected r = true /\ Blocked r = true /\ r_Pattern r = "union_select".
Proof.
  cbn zeta. set (r := BasicScanner_Scan _ _ _ _).
  assert (Hd : Detected r = true) by (vm_compute; reflexivity).
  pose proof (Scan_exact demo_scanner "x' UNION ALL SELECT password FROM users" ScanTypeInput) as [_ H].
  destruct (H Hd) as (Hb & _). split_and!; [exact Hd|exact Hb|vm_compute; reflexivity].
Defined.

(** The snippet handed to logs has no line break. *)
Lemma ReplaceByte_none s c by_ : c ∉ chars by_ -> c ∉ chars (ReplaceByte s c by_).
Proof.
  intros Hb. unfold ReplaceByte. rewrite chars_of_chars. intros (a & Hc & _)%list_elem_of_bind.
  case_bool_decide; [done|]. apply list_elem_of_singleton in Hc. congruence.
Qed.

Lemma elem_of_replaced x re s r :
  x ∈ chars (ReplaceAllStringFunc re s (fun _ => r)) -> x ∈ chars s \/ x ∈ chars r.
Proof.
  unfold ReplaceAllStringFunc. generalize 0%nat (FindAllStringIndex re s). intros lo locs.
  revert lo. induction locs as [|[a b] l IH]; intros lo; cbn [rebuild].
  - intros H. left. by eapply elem_of_slice.
  - rewrite !chars_app, !elem_of_app. intros [H|[H|H]]; [left; by eapply elem_of_slice|by right|eauto].
Qed.

Lemma replaced_no_LF re s r :
  LF ∉ chars r -> LF ∉ chars s -> LF ∉ chars (ReplaceAllStringFunc re s (fun _ => r)).
Proof. intros Hr Hs [H|H]%elem_of_replaced; done. Qed.

(** What a scan logs of its input is one line of text, whatever the input. *)
Theorem snippet_one_line s cancelled content scanType :
  LF ∉ chars (r_Input (BasicScanner_Scan s cancelled content scanType)).
Proof.
  assert (Hs : forall x, LF ∉ chars (sanitizeForLog x)).
  { intros x. unfold sanitizeForLog.
    do 3 (apply replaced_no_LF; [by apply (bool_decide_unpack _)|]).
    apply ReplaceByte_none. by apply (bool_decide_unpack _). }
  unfold BasicScanner_Scan. destruct cancelled; [exact (not_elem_of_nil _)|].
  destruct (find_first _ _) as [p|]; [|exact (not_elem_of_nil _)].
  cbn [r_Input]. unfold sanitizeInput. destruct (_ <=? _)%nat; [apply Hs|].
  rewrite chars_app, elem_of_app. intros [H|H]; [by apply Hs in H|].
  revert H. by apply (bool_decide_unpack (LF ∉ chars "...")).
Qed.

(** * Configuration *)

Section Env.
Context `{U : Unicode}.

Lemma ParseMode_valid s m : ParseMode s = Some m -> Mode_IsValid m = true.
Proof. unfold ParseMode. destruct (Mode_IsValid s) eqn:E; [by intros [= <-]|done]. Qed.

(** The configuration read from the environment is always valid, whatever the
    variables hold, and blocks unless a variable says [warn] or [log]. *)
Theorem ConfigFromEnv_valid getenv :
  Validate (ConfigFromEnv getenv) = [] /\
  (BlockOnDetection (ConfigFromEnv getenv) = false ->
   ToLower (getenv "SQLI_ACTION") = "warn" \/ ToLower (getenv "SQLI_ACTION") = "log" \/
   (getenv "SQLI_ACTION" = "" /\ ToLower (getenv "SQLI_BLOCK_MODE") = "warn")).
Proof.
  unfold ConfigFromEnv. split.
  - destruct (str_eqb (getenv "SQLI_SCANNER_MODE") ""); [done|].
    destruct (ParseMode _) as [m|] eqn:E; [|done]. apply ParseMode_valid in E.
    unfold Validate, with_modes, WithBlockOnDetection. cbn [InputMode ResponseMode MaxContentLength ConnectorOverrides].
    by rewrite E.
  - cbn [BlockOnDetection WithBlockOnDetection].
    destruct (str_eqb (getenv "SQLI_ACTION") "") eqn:Ea; cbn [negb].
    + apply str_eqb_true in Ea. destruct (str_eqb (getenv "SQLI_BLOCK_MODE") ""); cbn [negb]; [discriminate|].
      destruct (str_eqb (ToLower _) "block"); [discriminate|].
      destruct (str_eqb (ToLower _) "warn") eqn:E1; [|discriminate].
      intros _. right. right. split; [exact Ea|by apply str_eqb_true].
    + destruct (str_eqb (ToLower _) "block"); [discriminate|].
      destruct (str_eqb (ToLower _) "warn") eqn:E1; cbn [orb]; [intros _; left; by apply str_eqb_true|].
      destruct (str_eqb (ToLower _) "log") eqn:E2; [intros _; right; left; by apply str_eqb_true|discriminate].
Qed.
End Env.

(** * Runs of the middleware *)

Section Runs.
Context `{F : GoFormat} (reg : scannerRegistry).

(** One call on a middleware, with the response outcome it may produce. *)
Inductive mw_step : ScanningMiddleware -> option ResponseScanResult -> ScanningMiddleware -> Prop :=
| step_query m c conn rows r m' ev :
    ScanQueryResponse m c conn rows = (r, m', ev) -> mw_step m (Some r) m'
| step_command m c conn msg meta r m' ev :
    ScanCommandResponse m c conn msg meta = (r, m', ev) -> mw_step m (Some r) m'
| step_input m c input r m' ev : ScanInput m c input = Some (r, m', ev) -> mw_step m None m'
| step_reset m : mw_step m None (ResetMetrics m)
| step_config m cfg m' : UpdateConfig reg m cfg = Ok m' -> mw_step m None m'.

(** A run of [n] calls. *)
Inductive mw_run : nat -> ScanningMiddleware -> ScanningMiddleware -> Prop :=
| run_nil m : mw_run 0 m m
| run_snoc n m m' r m'' : mw_run n m m' -> mw_step m' r m'' -> mw_run (S n) m m''.

Definition counters_ok (n : nat) (m : ScanningMiddleware) : Prop :=
  0 <= blockedTotal m <= detectionsTotal m /\ detectionsTotal m <= scansTotal m <= Z.of_nat n.

Lemma incr64_small n : n < int64_max -> incr64 n = n + 1.
Proof. unfold incr64. intros H. destruct (Z.eqb_spec n int64_max); [lia|done]. Qed.

Lemma scan_content_counters m cancelled conn content r m' ev n :
  Z.of_nat n < int64_max -> counters_ok n m ->
  scan_content (count_scan m) cancelled conn content = (r, m', ev) -> counters_ok (S n) m'.
Proof.
  unfold scan_content, counters_ok. intros Hn ((H1 & H2) & H3 & H4) H.
  set (x := Scan _ _ _ _) in H. clearbody x.
  destruct (Detected x); cbn [andb] in H; simplify_eq; cbn;
    rewrite ?incr64_small by lia; [destruct (BlockOnDetection _)|]; rewrite ?incr64_small by lia; lia.
Qed.

Lemma count_scan_counters m n :
  Z.of_nat n < int64_max -> counters_ok n m -> counters_ok (S n) (count_scan m).
Proof. unfold counters_ok. cbn. intros Hn ((? & ?) & ? & ?). rewrite incr64_small by lia. lia. Qed.

Lemma mw_step_counters m r m' n :
  Z.of_nat n < int64_max -> counters_ok n m -> mw_step m r m' -> counters_ok (S n) m'.
Proof.
  intros Hn Hok Hs.
  inversion Hs as [? c conn rows ? ? ev H|? c conn msg meta ? ? ev H|? c input r' ? ev H|?|? cfg ? H]; subst.
  - unfold ScanQueryResponse in H. repeat (break; simplify_eq); eauto using count_scan_counters, scan_content_counters.
  - unfold ScanCommandResponse in H. repeat (break; simplify_eq); eauto using count_scan_counters, scan_content_counters.
  - pose proof (count_scan_counters _ _ Hn Hok) as ((? & ?) & ? & ?).
    unfold ScanInput in H. cbn [mw_config mw_inputScanner count_scan] in H.
    destruct (str_eqb _ _); [simplify_eq; by apply count_scan_counters|].
    destruct (mw_inputScanner m) as [sc|]; [|done]. cbn in H.
    destruct (Detected _); simplify_eq; [|by apply count_scan_counters].
    destruct Hok as ((? & ?) & ? & ?). unfold counters_ok. cbn.
    rewrite !incr64_small by lia. destruct (BlockOnDetection _); rewrite ?incr64_small by lia; lia.
  - unfold counters_ok. cbn. lia.
  - unfold UpdateConfig in H. destruct (Validate cfg); [|done].
    destruct (NewScanner reg (ResponseMode cfg)); [|done]. destruct (NewScanner reg (InputMode cfg)); [|done].
    cbn in H. simplify_eq. unfold counters_ok in *. cbn. lia.
Qed.

(** Along any run of at most [2^63 - 1] calls the counters stay ordered:
    blocked responses are detections, detections are scans, scans are calls. *)
Theorem mw_counters n m m' cfg custom :
  NewScanningMiddleware reg cfg custom = Ok m -> mw_run n m m' -> Z.of_nat n <= int64_max -> counters_ok n m'.
Proof.
  intros Hm Hr. induction Hr as [|n m m' r m'' Hr IH Hs]; intros Hn.
  - unfold NewScanningMiddleware in Hm. destruct (Validate cfg); [|done].
    destruct (match custom with Some s => _ | None => _ end); [|done]. cbn in Hm.
    destruct (NewScanner reg (InputMode cfg)); [|done]. cbn in Hm. simplify_eq. unfold counters_ok. cbn. lia.
  - eapply mw_step_counters; [|apply IH; [done|]|done]; lia.
Qed.
End Runs.

(** * What the response scan does not do *)

Section Gaps.
Context `{F : GoFormat}.

Lemma scan_content_config m cancelled conn content r m' ev :
  scan_content m cancelled conn content = (r, m', ev) ->
  mw_config m' = mw_config m /\ mw_scanner m' = mw_scanner m /\
  sr_Blocked r = sr_Detected r && BlockOnDetection (mw_config m).
Proof.
  unfold scan_content. set (x := Scan _ _ _ _). clearbody x. intros H.
  destruct (Detected x) eqn:E; simplify_eq; cbn; by rewrite ?E.
Qed.

(** A response is blocked exactly when it is detected and the configuration
    blocks; scanning never changes the configuration. *)
Lemma response_blocked m r m' :
  (exists c conn rows ev, ScanQueryResponse m c conn rows = (r, m', ev)) \/
  (exists c conn msg meta ev, ScanCommandResponse m c conn msg meta = (r, m', ev)) ->
  mw_config m' = mw_config m /\ sr_Blocked r = sr_Detected r && BlockOnDetection (mw_config m).
Proof.
  intros [(c & conn & rows & ev & H)|(c & conn & msg & meta & ev & H)];
    [unfold ScanQueryResponse in H|unfold ScanCommandResponse in H];
    (destruct (negb _); [simplify_eq; done|]; destruct (str_eqb _ _); [simplify_eq; done|]);
    apply scan_content_config in H as (? & _ & ?); done.
Qed.

(** The calls the agent makes: response scans on the global middleware. *)
Inductive scans (reg : scannerRegistry) : list ResponseScanResult -> ScanningMiddleware -> Prop :=
| scans_nil : scans reg [] (GetGlobalMiddleware reg None)
| scans_query l m c conn rows r m' ev :
    scans reg l m -> ScanQueryResponse m c conn rows = (r, m', ev) -> scans reg (r :: l) m'
| scans_command l m c conn msg meta r m' ev :
    scans reg l m -> ScanCommandResponse m c conn msg meta = (r, m', ev) -> scans reg (r :: l) m'.

Lemma lazy_global_config reg : BlockOnDetection (mw_config (GetGlobalMiddleware reg None)) = false.
Proof.
  unfold GetGlobalMiddleware, NewScanningMiddleware. change (Validate DefaultConfig) with (@nil string).
  cbn beta iota. destruct (NewScanner reg (ResponseMode DefaultConfig)); [|done]. cbn [result_bind].
  by destruct (NewScanner reg (InputMode DefaultConfig)).
Qed.

(** the middleware that first use creates is in monitoring mode and scanning
    never leaves that mode, so a process that only scans never blocks a
    response, whatever the responses contain. *)
Theorem lazy_global_never_blocks reg l m : scans reg l m -> Forall (fun r => sr_Blocked r = false) l.
Proof.
  intros H. enough (BlockOnDetection (mw_config m) = false /\ Forall (fun r => sr_Blocked r = false) l) by tauto.
  induction H as [|l m c conn rows r m' ev _ [IH1 IH2] H|l m c conn msg meta r m' ev _ [IH1 IH2] H].
  - split; [apply lazy_global_config|constructor].
  - destruct (response_blocked m r m') as [Hc Hb]; [left; by eauto 6|].
    split; [by rewrite Hc|]. constructor; [|done]. by rewrite Hb, IH1, andb_false_r.
  - destruct (response_blocked m r m') as [Hc Hb]; [right; by eauto 8|].
    split; [by rewrite Hc|]. constructor; [|done]. by rewrite Hb, IH1, andb_false_r.
Qed.

(** A connector override to [basic] has no effect when the deployment's mode is
    [off]: the scan still runs on the scanner of the deployment's mode. *)
Theorem override_mode_inert reg cfg m conn o c rows r m' ev :
  NewScanningMiddleware reg cfg None = Ok m -> ResponseMode cfg = ModeOff ->
  assoc_get conn (ConnectorOverrides cfg) = Some o -> cc_ResponseMode o = ModeBasic -> cc_Enabled o = true ->
  ScanQueryResponse m c conn rows = (r, m', ev) ->
  GetResponseModeForConnector cfg conn = ModeBasic /\ sr_Detected r = false /\ ev = [].
Proof.
  intros Hm Hoff Ho Hb He H. unfold NewScanningMiddleware in Hm. destruct (Validate cfg); [|done].
  rewrite Hoff in Hm. change (NewScanner reg ModeOff) with (Ok (E := string) NoOpScanner) in Hm.
  cbn [result_bind] in Hm. destruct (NewScanner reg (InputMode cfg)) as [isc|]; [|done].
  cbn [result_bind] in Hm. simplify_eq. unfold ScanQueryResponse in H. cbn [mw_config count_scan] in H.
  assert (Hmode : GetResponseModeForConnector cfg conn = ModeBasic).
  { unfold GetResponseModeForConnector. by rewrite Ho, Hb. }
  split; [done|]. rewrite Hmode in H. unfold IsConnectorEnabled in H. rewrite Ho, He in H.
  cbn [negb] in H. change (str_eqb ModeBasic ModeOff) with false in H. cbn iota in H.
  unfold scan_content in H. cbn in H. by simplify_eq.
Qed.

(** In monitoring mode a detection is audited as blocked although the response
    goes through. *)
Theorem audit_overstates_block m (s : BasicScanner) conn content r m' ev :
  mw_scanner m = basic_scanner s -> BlockOnDetection (mw_config m) = false -> AuditTrailEnabled (mw_config m) = true ->
  scan_content m false conn content = (r, m', ev) -> sr_Detected r = true ->
  sr_Blocked r = false /\ exists e, ev = [e] /\ ae_Blocked e = true.
Proof.
  intros Hs Hb Ha H Hd. unfold scan_content in H. rewrite Hs, Hb, Ha in H.
  cbn [Scan basic_scanner] in H. pose proof (Scan_blocked s false content ScanTypeResponse) as Hx.
  set (x := BasicScanner_Scan s false content ScanTypeResponse) in *. clearbody x.
  rewrite andb_false_r in H. destruct (Detected x) eqn:E; [|injection H as <- <- <-; cbn in Hd; discriminate].
  injection H as <- <- <-. cbn. rewrite E. split; [done|]. by eexists.
Qed.

(** Rows after the hundredth are not scanned. *)
Theorem rows_after_100_unseen m c conn rows extra :
  length rows = 100%nat -> ScanQueryResponse m c conn (rows ++ extra) = ScanQueryResponse m c conn rows.
Proof.
  intros Hl. unfold ScanQueryResponse. destruct (negb _); [done|]. destruct (str_eqb _ _); [done|].
  f_equal. unfold rowsToContent. destruct rows as [|x rows]; [done|]. cbn [app].
  change (x :: rows ++ extra) with ((x :: rows) ++ extra).
  rewrite take_app_le by (cbn in *; lia). reflexivity.
Qed.
End Gaps.

(** * A concrete gap *)

Definition newline_payload : string := "1 UNION" +:+ of_bytes [10] +:+ "SELECT password".

(** Rows are scanned as JSON, which writes a newline as a backslash and an [n]:
    keywords separated by a newline are detected in an input and missed in a
    row. *)
Theorem row_newline_evades :
  let m := GetGlobalMiddleware community_registry None in
  Detected (BasicScanner_Scan demo_scanner false newline_payload ScanTypeInput) = true /\
  sr_Detected (ScanQueryResponse (F := go_format) m false "postgres" [[("bio", VString newline_payload)]]).1.1 = false /\
  sr_Detected (ScanQueryResponse (F := go_format) m false "postgres" [[("bio", VString "1 UNION SELECT password")]]).1.1 = true.
Proof. split_and!; vm_compute; reflexivity. Qed.

Definition demo_row : list (list (string * value)) := [[("bio", VString "1 UNION SELECT password")]].

Lemma lazy_global_never_blocks_witness :
  let m := GetGlobalMiddleware community_registry None in
  let r := (ScanQueryResponse (F := go_format) m false "postgres" demo_row).1.1 in
  sr_Detected r = true /\ Forall (fun r => sr_Blocked r = false) [r].
Proof.
  cbn zeta. split; [vm_compute; reflexivity|].
  destruct (ScanQueryResponse (F := go_format) (GetGlobalMiddleware community_registry None) false "postgres" demo_row)
    as [[r m'] ev] eqn:E.
  apply (lazy_global_never_blocks (F := go_format) community_registry [r] m').
  eapply (scans_query (F := go_format)); [apply scans_nil|exact E].
Defined.
