(* ===== verification/Identity.v ===== *)
(** Per-user identity, src/platform/shared/identity: the trust gate of the
    client-asserted headers (trust.go), roles and shared synthetic identities
    (readscope.go), the registry of token validators and the resolution of a
    per-user token (validator.go, resolver.go), and the refusals that name the
    cause of a missing identity (identity_required.go). *)

From stdpp Require Import gmap.
From S2P Require Import Prelude GoStrings GoNet Egress GoHttp GoStrconv Sqli.

Local Open Scope Z_scope.

(** * The trust gate *)

Definition EnvVar : string := "AXONFLOW_TRUST_IDENTITY_HEADERS".
Definition HeaderIdentityGated : string := "X-Axonflow-Identity-Gated".
Definition IdentityGatedTrue : string := "true".

Section Trust.
Context `{U : Unicode}.

Definition IdentityWasGated (headerValue : string) : bool := str_eqb (TrimSpace headerValue) IdentityGatedTrue.

(** (trusted, recognized) *)
Definition Parse (raw : string) : bool * bool :=
  let s := TrimSpace raw in
  if str_eqb s "true" then (true, true)
  else if str_eqb s "" || str_eqb s "false" then (false, true)
  else (false, false).

Definition FromEnv (getenv : string -> string) : bool * bool := Parse (getenv EnvVar).

(** * Roles *)

Definition HeaderUserRole : string := "X-Axonflow-User-Role".
Definition HeaderReadScope : string := "X-Axonflow-Read-Scope".
Definition ReadScopeTenant : string := "tenant".
Definition HeaderAdminAuthority : string := "X-Axonflow-Admin-Authority".
Definition AdminAuthorityAsserted : string := "true".
Definition NeverClientAssertableHeaders : list string := [HeaderUserRole; HeaderReadScope; HeaderAdminAuthority].

Definition AdminAuthorityFromHeader (v : string) : bool := EqualFold_ascii (TrimSpace v) AdminAuthorityAsserted.

Definition knownRoles : list string := ["admin"; "owner"; "policy_admin"; "developer"; "viewer"].
Definition NormalizeRole (role : string) : string := if str_in role knownRoles then role else "".
Definition IsFleetRole (role : string) : bool := str_in role knownRoles.
Definition FleetRoleNames : list string := knownRoles.

Definition RoleCanReadTenant (role : string) : bool := str_in (NormalizeRole role) ["admin"; "owner"; "policy_admin"].
Definition RoleIsAdministrative (role : string) : bool := str_in (NormalizeRole role) ["admin"; "owner"].

(** * Addresses *)

Definition CanonicalEmail (email : string) : string := ToLower (TrimSpace email).

Definition ClientPseudoIdentityPrefix : string := "mcp-client:".
Definition SharedServiceIdentitySuffix : string := "@axonflow.local".
Definition InternalServiceIdentitySuffix : string := "@axonflow.internal".
Definition OrchestratorServiceIdentity : string := "orchestrator@axonflow.internal".
Definition CommunitySaaSEvaluatorIdentity : string := "evaluator@try.getaxonflow.com".
Definition CommunityLocalDevIdentity : string := "local-dev@axonflow.local".

Definition IsSharedSyntheticIdentity (email : string) (communityMode : bool) : bool :=
  let email := CanonicalEmail email in
  if HasPrefix email ClientPseudoIdentityPrefix then true
  else if str_eqb email CommunitySaaSEvaluatorIdentity then true
  else if str_eqb email CommunityLocalDevIdentity then negb communityMode
  else HasSuffix email SharedServiceIdentitySuffix || HasSuffix email InternalServiceIdentitySuffix.

(** * Token validators *)

Record ValidatedIdentity := mkValidated {
  vi_Email : string;
  vi_Role : string;
  vi_OrgID : string;
  vi_JTI : string;
  vi_ExpiresAt : Z;
  vi_Source : string;
  vi_Validated : bool;
}.

Definition ValidatorNameHS256 : string := "hs256".
Definition ValidatorNameOIDC : string := "oidc".
Definition UserTokenIssuer : string := "axonflow-user-token-mint".

Inductive identity_error :=
| ErrTokenInvalid
| ErrTokenRevoked
| ErrNotConfigured
| ErrEnterpriseOnly
| ErrOther (msg : string).

Definition identity_error_text (e : identity_error) : string :=
  match e with
  | ErrTokenInvalid => "per-user token invalid"
  | ErrTokenRevoked => "per-user token revoked"
  | ErrNotConfigured => "per-user token validator not configured for org"
  | ErrEnterpriseOnly => "per-user token validation is an Enterprise capability"
  | ErrOther msg => msg
  end.

Definition errors_Is_NotConfigured (e : identity_error) : bool :=
  match e with ErrNotConfigured => true | _ => false end.

(** A backend: its name, and the identity and the error it answers for an
    organization and a token. *)
Record TokenValidator := mkValidator {
  tv_Name : string;
  tv_Validate : string -> string -> option ValidatedIdentity * option identity_error;
}.

Record Registry := mkRegistry {
  reg_list : list TokenValidator;
  reg_byName : gmap string TokenValidator;
}.

Definition empty_registry : Registry := mkRegistry [] ∅.

(** [RegisterValidator]; [None] is a nil validator. *)
Definition RegisterValidator (v : option TokenValidator) (g : Registry) : option string * Registry :=
  match v with
  | None => (Some "identity: RegisterValidator(nil)", g)
  | Some v =>
      match reg_byName g !! tv_Name v with
      | Some _ => (Some ("identity: validator already registered: " +:+ tv_Name v), g)
      | None => (None, mkRegistry (reg_list g ++ [v]) (<[tv_Name v := v]> (reg_byName g)))
      end
  end.

Definition HasRegisteredValidators (g : Registry) : bool := Nat.ltb 0 (length (reg_list g)).
Definition RegisteredValidators (g : Registry) : list TokenValidator := reg_list g.
Definition LookupValidator (name : string) (g : Registry) : option TokenValidator := reg_byName g !! name.
Definition ResetRegistryForTest (g : Registry) : Registry := empty_registry.

(** The loop over the validators: the first identity, or the last error that is
    not a missing configuration. *)
Fixpoint try_validators (l : list TokenValidator) (orgID token : string) (lastErr : option identity_error)
  : ValidatedIdentity + option identity_error :=
  match l with
  | [] => inr lastErr
  | v :: l' =>
      match tv_Validate v orgID token with
      | (Some id, None) => inl id
      | (_, Some e) => try_validators l' orgID token (if errors_Is_NotConfigured e then lastErr else Some e)
      | (None, None) => try_validators l' orgID token lastErr
      end
  end.

(** [ResolveToken]; [Ok None] is the nil identity of a caller without a token. *)
Definition ResolveToken (g : Registry) (orgID token : string) : result identity_error (option ValidatedIdentity) :=
  let token := TrimSpace token in
  if str_eqb token "" then Ok None
  else match RegisteredValidators g with
       | [] => Ok None
       | vs =>
           match try_validators vs orgID token None with
           | inl id => Ok (Some id)
           | inr lastErr => Err (default ErrTokenInvalid lastErr)
           end
       end.

(** The text of the error [ResolveToken] wraps. *)
Definition resolve_error_text (e : identity_error) : string :=
  "no registered validator accepted the per-user token: " +:+ identity_error_text e.

(** The constructors of a community build. *)
Definition NewHS256Validator_community : result identity_error TokenValidator := Err ErrEnterpriseOnly.
Definition NewOIDCVerifier_community : result identity_error TokenValidator := Err ErrEnterpriseOnly.

(** [CheckOIDCEndpointSSRF] after the URL is parsed, on its host name. *)
Inductive oidc_error :=
| NoHost
| BlockedAddress (host : string) (why : option reason)
| MetadataEndpoint (host : string)
| InternalDomain (host suffix : string).

(** [net.ParseIP]: a dotted address, or groups whose last field may be one. *)
Definition parse_tail_groups (s : string) : option (list Z) :=
  if str_eqb s "" then Some []
  else match rev (Split s ":") with
       | [] => None
       | last :: before =>
           match map_option parse_group (rev before), parseIPv4 last, parse_group last with
           | Some gs, Some v4, _ => Some (concat gs ++ v4)
           | Some gs, None, Some g => Some (concat gs ++ g)
           | _, _, _ => None
           end
       end.

Definition ParseIPv6 (s : string) : option IP :=
  match Index s "::" with
  | Some i =>
      match parse_groups (slice s 0 i), parse_tail_groups (slice s (i + 2) (len s)) with
      | Some hd, Some tl =>
          if (length hd + length tl <=? 14)%nat
          then Some (hd ++ replicate (16 - length hd - length tl) 0 ++ tl) else None
      | _, _ => None
      end
  | None =>
      match parse_tail_groups s with
      | Some g => if (length g =? 16)%nat then Some g else None
      | None => None
      end
  end.

Definition ParseIP (s : string) : option IP :=
  match parseIPv4 s with
  | Some [a; b; c; d] => Some (IPv4 a b c d)
  | _ => ParseIPv6 s
  end.

Definition CheckOIDCHost (host : string) : option oidc_error :=
  if str_eqb host "" then Some NoHost
  else match ParseIP host with
       | Some ip => if Blocks OIDCLiteral ip then Some (BlockedAddress host (Reason OIDCLiteral ip)) else None
       | None =>
           let lower := ToLower (TrimSuffix host ".") in
           if str_eqb lower "metadata" || str_eqb lower "metadata.google.internal" then Some (MetadataEndpoint host)
           else match find_first (HasSuffix lower) [".internal"; ".local"] with
                | Some suffix => Some (InternalDomain host suffix)
                | None => None
                end
       end.
End Trust.

(** * Facts *)

Section Facts.
Context `{U : Unicode}.

(** A validator accepts a token. *)
Definition accepts (orgID token : string) (v : TokenValidator) (id : ValidatedIdentity) : Prop :=
  tv_Validate v orgID token = (Some id, None).

Definition rejects (orgID token : string) (v : TokenValidator) : Prop := forall id, ~ accepts orgID token v id.

(** The error a resolution reports: the last that is not a missing configuration. *)
Definition reported (orgID token : string) (l : list TokenValidator) (e : identity_error) : Prop :=
  exists l1 v l2 i, l = l1 ++ v :: l2 /\ tv_Validate v orgID token = (i, Some e) /\ e <> ErrNotConfigured.

Lemma try_validators_spec l orgID token last :
  match try_validators l orgID token last with
  | inl id => exists l1 v l2, l = l1 ++ v :: l2 /\ accepts orgID token v id /\ Forall (rejects orgID token) l1
  | inr last' => Forall (rejects orgID token) l /\ (last' = last \/ exists e, last' = Some e /\ reported orgID token l e)
  end.
Proof.
  revert last. induction l as [|v l IH]; intros last; cbn [try_validators]; [split; [constructor | by left]|].
  assert (Hstep : forall last', rejects orgID token v -> (last' = last \/ exists i e, last' = Some e /\
     tv_Validate v orgID token = (i, Some e) /\ e <> ErrNotConfigured) ->
     match try_validators l orgID token last' with
     | inl id => exists l1 v0 l2, v :: l = l1 ++ v0 :: l2 /\ accepts orgID token v0 id /\ Forall (rejects orgID token) l1
     | inr x => Forall (rejects orgID token) (v :: l) /\ (x = last \/ exists e, x = Some e /\ reported orgID token (v :: l) e)
     end).
  { intros last' Hr Hl. specialize (IH last'). destruct (try_validators l orgID token last') as [id|x].
    - destruct IH as (l1 & v0 & l2 & -> & Ha & Hf). exists (v :: l1), v0, l2. split; [done|]. split; [done|]. by constructor.
    - destruct IH as [Hf Hx]. split; [by constructor|]. destruct Hx as [->|(e & -> & l1 & w & l2 & i & -> & He & Hn)].
      + destruct Hl as [->|(i & e & -> & He & Hn)]; [by left|]. right. exists e. split; [done|]. by exists [], v, l, i.
      + right. exists e. split; [done|]. by exists (v :: l1), w, l2, i. }
  destruct (tv_Validate v orgID token) as [[id|] [e|]] eqn:Ev.
  - apply Hstep; [intros id' Ha; unfold accepts in Ha; congruence|].
    destruct (errors_Is_NotConfigured e) eqn:En; [by left|]. right. exists (Some id), e. split; [done|]. split; [done|]. by intros ->.
  - exists [], v, l. split; [done|]. split; [done|]. constructor.
  - apply Hstep; [intros id' Ha; unfold accepts in Ha; congruence|].
    destruct (errors_Is_NotConfigured e) eqn:En; [by left|]. right. exists None, e. split; [done|]. split; [done|]. by intros ->.
  - apply Hstep; [intros id' Ha; unfold accepts in Ha; congruence | by left].
Qed.

(** Resolution of a per-user token fails closed: no identity and no error only
    when no token was presented or no validator is registered; an identity is the
    answer of the first validator that accepts the token; otherwise the token is
    rejected, with the error of a validator that had a configuration when there is
    one. *)
Theorem ResolveToken_fail_closed g orgID token :
  match ResolveToken g orgID token with
  | Ok None => TrimSpace token = "" \/ reg_list g = []
  | Ok (Some id) =>
      TrimSpace token <> "" /\
      exists l1 v l2, reg_list g = l1 ++ v :: l2 /\ accepts orgID (TrimSpace token) v id /\
                      Forall (rejects orgID (TrimSpace token)) l1
  | Err e =>
      TrimSpace token <> "" /\ reg_list g <> [] /\ Forall (rejects orgID (TrimSpace token)) (reg_list g) /\
      (e = ErrTokenInvalid \/ reported orgID (TrimSpace token) (reg_list g) e)
  end.
Proof.
  unfold ResolveToken, RegisteredValidators. destruct (str_eqb (TrimSpace token) "") eqn:E.
  { left. by apply str_eqb_true. }
  apply str_eqb_false in E. destruct (reg_list g) as [|v l] eqn:El; [by right|].
  pose proof (try_validators_spec (v :: l) orgID (TrimSpace token) None) as H.
  destruct (try_validators (v :: l) orgID (TrimSpace token) None) as [id|[e|]].
  - split; [done|]. exact H.
  - destruct H as [Hf [?|(e' & [= <-] & Hr)]]; [done|]. split; [done|]. split; [done|]. split; [done|]. by right.
  - destruct H as [Hf _]. split; [done|]. split; [done|]. split; [done|]. by left.
Qed.

(** Registration keeps the list and the index in step, and never replaces. *)
Definition registry_wf (g : Registry) : Prop :=
  NoDup (tv_Name <$> reg_list g) /\ reg_byName g = list_to_map ((fun v => (tv_Name v, v)) <$> reg_list g).

Lemma RegisterValidator_wf v g : registry_wf g -> registry_wf (RegisterValidator v g).2.
Proof.
  intros [Hn Hm]. destruct v as [v|]; [|done]. unfold RegisterValidator.
  destruct (reg_byName g !! tv_Name v) eqn:E; [done|]. cbn [snd reg_list reg_byName].
  assert (Hnin : tv_Name v ∉ tv_Name <$> reg_list g).
  { intros Hin. rewrite Hm in E. apply not_elem_of_list_to_map in E. apply E.
    by rewrite <- list_fmap_compose. }
  split.
  - cbn [reg_list]. rewrite fmap_app. apply NoDup_app. split; [done|]. split; [|apply NoDup_singleton].
    cbn. intros x Hx ->%list_elem_of_singleton. done.
  - cbn [reg_list reg_byName]. rewrite Hm, fmap_app. symmetry.
    etrans; [|apply (list_to_map_cons (M := gmap string))]. apply (list_to_map_proper (M := gmap string) _ ((tv_Name v, v) :: ((fun v => (tv_Name v, v)) <$> reg_list g))).
    + rewrite fmap_app, <- list_fmap_compose. apply NoDup_app. split; [done|]. split; [|apply NoDup_singleton].
      intros x Hx ->%list_elem_of_singleton. done.
    + apply (Permutation_app_comm _ [(tv_Name v, v)]).
Qed.

(** An administrative role reads the tenant; an unknown one does nothing. *)
Lemma admin_reads role : RoleIsAdministrative role = true -> RoleCanReadTenant role = true.
Proof.
  unfold RoleIsAdministrative, RoleCanReadTenant. rewrite !str_in_true. intros H.
  apply elem_of_cons in H as [->|H]; [by left|]. apply elem_of_cons in H as [->|H]; [right; by left | by apply not_elem_of_nil in H].
Qed.

Lemma unknown_role_least role : IsFleetRole role = false -> RoleCanReadTenant role = false.
Proof. unfold IsFleetRole, RoleCanReadTenant, NormalizeRole. by intros ->. Qed.
End Facts.

(** The refusals of src/platform/shared/identity/identity_required.go: which
    cause a refusal names, whether it offers a per-user token, and its wording.
    A tilde in a text stands for the double quote. *)

Definition TrustDocRef : string := "docs/security/identity-header-trust".

Inductive Cause := RefusalNoIdentity | RefusalIdentityGated.

Definition IdentityRequiredMessage (cause : Cause) (feature : string) : string :=
  match cause with
  | RefusalIdentityGated =>
      "Authenticated user identity required: " +:+ feature +:+
      " are scoped to an individual user. Your client DID send a per-user identity header and the AxonFlow Agent removed it, because this deployment has not declared its identity source trusted (" +:+
      EnvVar +:+ DQ " is not ~true~ — the default since 9.9.0). To enable " +:+ feature +:+
      ", either set " +:+ EnvVar +:+
      "=true on the agent — only if every hop that can reach it asserts end-user identity from a validated source — or have the caller present a validated per-user token (X-User-Token). See " +:+
      TrustDocRef +:+ "."
  | RefusalNoIdentity =>
      "Authenticated user identity required (X-User-Email): " +:+ feature +:+
      " are scoped to an individual user. No per-user identity reached the platform. If your client did not send one, send X-User-Email. If it did, the AxonFlow Agent strips it unless this deployment has declared its identity source trusted: " +:+
      EnvVar +:+ DQ " defaults to off (since 9.9.0). If it is not set to ~true~ on your agent, set it — only if every hop that can reach the agent asserts end-user identity from a validated source — or have the caller present a validated per-user token (X-User-Token). See " +:+
      TrustDocRef +:+ "."
  end.

Record SharedIdentityRefusal := mkRefusal {
  rf_Feature : string;
  rf_ResolvedIdentity : string;
  rf_IdentityHeaderPresented : bool;
  rf_PresentedIdentityIsReserved : bool;
  rf_PresentedIdentitySurvivedSanitization : bool;
  rf_TrustGateOn : bool;
  rf_TokenResolvedIdentity : bool;
  rf_PerUserTokenResolvable : bool;
}.

(** The branch of the first switch. *)
Inductive refusal_cause :=
| CauseToken | CauseReserved | CauseSanitized | CauseGateDropped | CauseNothingGateOff | CauseNothingGateOn | CauseUnknown.

Definition refusal_cause_of (f : SharedIdentityRefusal) : refusal_cause :=
  if rf_TokenResolvedIdentity f then CauseToken
  else if rf_IdentityHeaderPresented f && rf_PresentedIdentityIsReserved f then CauseReserved
  else if rf_IdentityHeaderPresented f && negb (rf_PresentedIdentitySurvivedSanitization f) then CauseSanitized
  else if rf_IdentityHeaderPresented f && negb (rf_TrustGateOn f) then CauseGateDropped
  else if negb (rf_IdentityHeaderPresented f) && negb (rf_TrustGateOn f) then CauseNothingGateOff
  else if negb (rf_IdentityHeaderPresented f) && rf_TrustGateOn f then CauseNothingGateOn
  else CauseUnknown.

(** The branch of the second switch. *)
Inductive token_offer := OfferNone | OfferToken | OfferUnavailable.

Definition token_offer_of (f : SharedIdentityRefusal) : token_offer :=
  if rf_TokenResolvedIdentity f then OfferNone
  else if rf_PerUserTokenResolvable f then OfferToken else OfferUnavailable.

Definition reservedSpellingList : string :=
  DQ "the ~" +:+ ClientPseudoIdentityPrefix +:+ DQ "~ prefix, any address under " +:+
  SharedServiceIdentitySuffix +:+ " or " +:+ InternalServiceIdentitySuffix +:+
  ", and " +:+ CommunitySaaSEvaluatorIdentity.

Definition renderedIdentityMax : nat := 300.

(** The cut is between runes; an identity that is cut is re-encoded. *)
Definition boundRenderedIdentity (s : string) : string :=
  if (RuneCount s <=? renderedIdentityMax)%nat then s
  else of_bytes (mjoin ((fun p => encode_rune p.1) <$> take renderedIdentityMax (runes s))) +:+ "…(truncated)".

(** [strings.ToUpper(s[:1]) + s[1:]]: the first byte. *)
Definition capitalizeFirst (s : string) : string :=
  match s with
  | EmptyString => s
  | String a s' => of_bytes [let b := byte_val a in if in_range 97 122 b then b - 32 else b] +:+ s'
  end.

Definition cause_text (c : refusal_cause) : string :=
  match c with
  | CauseToken =>
      " That identity was supplied by a validated per-user token, not by a header: this agent resolves a per-user token in preference to X-User-Email / X-User-ID and does not read them when one validates. So no header on any request could have changed this, and no value of " +:+ EnvVar +:+
      " changes it either. The token's own subject is one of the platform's reserved shared spellings (" +:+ reservedSpellingList +:+
      ") — those name a credential or a service, never a person. Issue a per-user token whose subject is a real user address, then open a new session; the attributed identity is fixed when the session is created."
  | CauseReserved =>
      " The identity presented on the request that opened this session is itself one of the platform's reserved shared spellings (" +:+ reservedSpellingList +:+
      "). Those name a credential or a service, never a person, so no value of " +:+ EnvVar +:+
      " changes this outcome: present a real user address on the request that OPENS the session."
  | CauseSanitized =>
      " The identity presented on the request that opened this session did not survive sanitization — X-User-Email / X-User-ID keep printable characters only and are length-bounded, and nothing usable remained. No value of " +:+ EnvVar +:+
      " changes that: present a plain address on the request that OPENS the session."
  | CauseGateDropped =>
      " The request that opened this session DID present a usable per-user identity header, and this agent removed it: " +:+ EnvVar +:+
      DQ " is not ~true~ (the default since 9.9.0). Set " +:+ EnvVar +:+
      "=true on this agent — only if every hop that can reach it asserts end-user identity from a validated source — and open a new session; the attributed identity is fixed when the session is created."
  | CauseNothingGateOff =>
      " The request that opened this session presented no per-user identity header, and this agent's " +:+ EnvVar +:+
      DQ " is not ~true~ (the default since 9.9.0). The header route needs both of those together and neither alone is enough: send X-User-Email on the request that OPENS the session (the attributed identity is fixed at session create, so sending it later has no effect), and set " +:+ EnvVar +:+
      "=true on this agent — only if every hop that can reach it asserts end-user identity from a validated source."
  | CauseNothingGateOn =>
      " This agent already trusts identity headers (" +:+ EnvVar +:+
      DQ " is ~true~), so changing that setting will not help. The request that opened this session simply presented no per-user identity header: send X-User-Email on the request that OPENS the session — the attributed identity is fixed at session create, so sending it on a later call has no effect."
  | CauseUnknown =>
      " No per-user identity could be resolved for this session: every identity it presented resolves to a shared platform synthetic. Present an identity that names a person — via X-User-Email on the request that OPENS the session, or in the per-user token if one is being used."
  end.

Definition offer_text (o : token_offer) : string :=
  match o with
  | OfferNone => ""
  | OfferToken =>
      " Alternatively, present a validated per-user token (X-User-Token): it carries its own identity and needs no header trust at all."
  | OfferUnavailable =>
      " A validated per-user token (X-User-Token) is not an option on this session: per-user tokens are resolved only for enterprise-credential callers."
  end.

Definition SharedIdentityRefusalMessage `{UnicodePrint} (f : SharedIdentityRefusal) : string :=
  let feature := if str_eqb (rf_Feature f) "" then "this capability" else rf_Feature f in
  capitalizeFirst feature +:+ " are scoped to an individual user, and this session is attributed to " +:+
  quote (boundRenderedIdentity (rf_ResolvedIdentity f)) +:+
  " — an identity the platform synthesizes for a caller it cannot resolve to a person. It is shared by every caller using the same credential, so an override held by it would apply to all of them. That is why this is refused: not because a header is missing from THIS call, but because the session has no person behind it." +:+
  cause_text (refusal_cause_of f) +:+ offer_text (token_offer_of f) +:+ " See " +:+ TrustDocRef +:+ ".".
