(* ===== verification/RateLimit.v ===== *)
(** Request limits of the gateway: the in-memory per-minute counter of
    src/platform/agent/auth.go, the Redis sliding window of redis_rate_limit.go,
    the daily cap of community_saas_ratelimit.go and the limits per tier of
    auth_daily_limit.go.

    Times are nanoseconds. The Redis sorted set of a customer maps each member
    to its score; the expiry of a key is not modelled, since it drops only
    entries that the next check would remove. A Redis or database failure is an
    argument. *)

From stdpp Require Import gmap.
From S2P Require Import Prelude GoStrings GoStrconv GoTime.

Local Open Scope Z_scope.

(** * The in-memory limit: a count per client and the end of its window *)

Record RateLimitEntry := mkRate { rl_Count : Z; rl_ResetTime : Z }.

Inductive rate_error := RateExceeded (count limit : Z).

Definition checkRateLimit (now : Z) (clientID : string) (limitPerMinute : Z) (m : gmap string RateLimitEntry)
  : option rate_error * gmap string RateLimitEntry :=
  let fresh := <[clientID := mkRate 1 (now + Minute)]> m in
  match m !! clientID with
  | None => (None, fresh)
  | Some e =>
      if rl_ResetTime e <? now then (None, fresh)
      else
        let count := rl_Count e + 1 in
        (if limitPerMinute <? count then Some (RateExceeded count limitPerMinute) else None,
         <[clientID := mkRate count (rl_ResetTime e)]> m)
  end.

(** [getRateLimitStatus]: count, limit and end of the window. *)
Definition getRateLimitStatus (limits : gmap string Z) (clientID : string) (m : gmap string RateLimitEntry) : Z * Z * Z :=
  match m !! clientID with
  | None => (0, 0, 0)
  | Some e => (rl_Count e, default 0 (limits !! clientID), rl_ResetTime e)
  end.

(** * The sliding window *)

(** Members of a sorted set with their scores. *)
Abbreviation zset := (gmap string Z).

Definition ZRemRangeByScore (lo hi : Z) (s : zset) : zset := filter (fun e => ~ (lo <= e.2 <= hi)) s.
Definition ZCount (lo : Z) (s : zset) : Z := Z.of_nat (size (filter (fun e => lo <= e.2) s)).

Record RateState := mkRateState {
  rs_mem : gmap string RateLimitEntry;
  rs_redis : option (gmap string zset);
}.

(** [checkRateLimitRedis]: the window is cleaned and counted before the request
    is added. *)
Definition checkRateLimitRedis (exec_fails : bool) (now : Z) (customerID : string) (limitPerMinute : Z) (st : RateState)
  : option rate_error * RateState :=
  let in_memory :=
    let '(e, m) := checkRateLimit now customerID limitPerMinute (rs_mem st) in (e, mkRateState m (rs_redis st)) in
  match rs_redis st with
  | None => in_memory
  | Some sets =>
      if exec_fails then in_memory
      else
        let window := ZRemRangeByScore 0 (Unix (now - Minute)) (default ∅ (sets !! customerID)) in
        let count := Z.of_nat (size window) in
        let sets' := <[customerID := <[Itoa now := Unix now]> window]> sets in
        (if limitPerMinute <? count then Some (RateExceeded count limitPerMinute) else None,
         mkRateState (rs_mem st) (Some sets'))
  end.

(** [rateLimitCount]: the count without a new request. *)
Definition rateLimitCount (fails : bool) (now : Z) (customerID : string) (st : RateState) : Z :=
  match rs_redis st with
  | None =>
      match rs_mem st !! customerID with
      | None => 0
      | Some e => if 0 <? Sub now (rl_ResetTime e) then 0 else rl_Count e
      end
  | Some sets => if fails then 0 else ZCount (Unix (now - Minute)) (default ∅ (sets !! customerID))
  end.

Definition flushRateLimitRedis (customerID : string) (st : RateState) : option string * RateState :=
  match rs_redis st with
  | None => (Some "redis not initialized", st)
  | Some sets => (None, mkRateState (rs_mem st) (Some (delete customerID sets)))
  end.

(** * The daily cap *)

Inductive daily_error := ErrDailyLimitExceeded | ErrDatabaseUnavailable | ErrDailyCheckFailed.

(** The counters of one day: in Redis, in the database. *)
Record DailyState := mkDaily { dl_redis : option (gmap string Z); dl_db : option (gmap string Z) }.

Definition bump (k : string) (m : gmap string Z) : Z * gmap string Z :=
  let c := default 0 (m !! k) + 1 in (c, <[k := c]> m).

Definition checkDailyLimitDB (db_fails : bool) (tenantID : string) (dailyCap : Z) (st : DailyState)
  : option daily_error * DailyState :=
  match dl_db st with
  | None => (Some ErrDatabaseUnavailable, st)
  | Some m =>
      if db_fails then (Some ErrDailyCheckFailed, st)
      else let '(c, m') := bump tenantID m in
           (if dailyCap <? c then Some ErrDailyLimitExceeded else None, mkDaily (dl_redis st) (Some m'))
  end.

Definition checkCommunityDailyLimit (redis_fails db_fails : bool) (tenantID : string) (dailyCap : Z) (st : DailyState)
  : option daily_error * DailyState :=
  match dl_redis st with
  | Some m =>
      if redis_fails then checkDailyLimitDB db_fails tenantID dailyCap st
      else let '(c, m') := bump tenantID m in
           (if dailyCap <? c then Some ErrDailyLimitExceeded else None, mkDaily (Some m') (dl_db st))
  | None => checkDailyLimitDB db_fails tenantID dailyCap st
  end.

(** * Limits per tier *)

Definition getEnvInt (getenv : string -> string) (key : string) (defaultVal : Z) : Z :=
  let val := getenv key in
  if str_eqb val "" then defaultVal
  else match Atoi val with (v, true) => v | (_, false) => defaultVal end.

(** * Facts *)

(** The verdicts of a client's requests at these times. *)
Fixpoint mem_run (clientID : string) (limit : Z) (m : gmap string RateLimitEntry) (times : list Z) : list bool :=
  match times with
  | [] => []
  | t :: ts => let '(e, m') := checkRateLimit t clientID limit m in
               bool_decide (e = None) :: mem_run clientID limit m' ts
  end.

Fixpoint redis_run (clientID : string) (limit : Z) (st : RateState) (times : list Z) : list bool :=
  match times with
  | [] => []
  | t :: ts => let '(e, st') := checkRateLimitRedis false t clientID limit st in
               bool_decide (e = None) :: redis_run clientID limit st' ts
  end.

(** The reference: the k-th request, counted from [k0], passes while k is at most
    the limit. *)
Definition admit_upto (limit k0 : Z) (n : nat) : list bool := (fun i => k0 + Z.of_nat i <=? limit) <$> seq 0 n.

Lemma admit_upto_S limit k0 n : admit_upto limit k0 (S n) = (k0 <=? limit) :: admit_upto limit (k0 + 1) n.
Proof.
  unfold admit_upto. cbn [seq fmap list_fmap]. f_equal; [f_equal; lia|].
  rewrite <- fmap_S_seq, <- list_fmap_compose. apply list_fmap_ext. intros i x _. unfold compose. f_equal. lia.
Qed.

Lemma mem_run_window c limit m e times :
  m !! c = Some e -> Forall (fun t => t <= rl_ResetTime e) times ->
  mem_run c limit m times = admit_upto limit (rl_Count e + 1) (length times).
Proof.
  revert m e. induction times as [|t ts IH]; intros m e He Ht; [done|]. inv Ht. cbn [mem_run length].
  rewrite admit_upto_S. unfold checkRateLimit. rewrite He.
  destruct (rl_ResetTime e <? t) eqn:El; [lia|].
  rewrite (IH _ (mkRate (rl_Count e + 1) (rl_ResetTime e))); [|by rewrite lookup_insert_eq | done]. cbn [rl_Count].
  f_equal. destruct (limit <? rl_Count e + 1) eqn:E2; destruct (rl_Count e + 1 <=? limit) eqn:E3; try lia; done.
Qed.

(** Within one window the in-memory limiter admits the first request and then
    every request up to the limit, and nothing after it. *)
Lemma mem_window_exact c limit m t ts :
  m !! c = None -> Forall (fun x => x <= t + Minute) ts ->
  mem_run c limit m (t :: ts) = true :: admit_upto limit 2 (length ts).
Proof.
  intros Hm Ht. cbn [mem_run]. unfold checkRateLimit at 1. rewrite Hm.
  rewrite (mem_run_window _ _ _ (mkRate 1 (t + Minute))); [done | by rewrite lookup_insert_eq | done].
Qed.

(** The window is fixed, not sliding: twice the limit passes within a second
    around its end. *)
Lemma fixed_window_burst :
  mem_run "c" 3 ∅ [0; 59 * Second; 59 * Second; 59 * Second; 60 * Second + 1; 60 * Second + 1; 60 * Second + 1]
  = [true; true; true; false; true; true; true].
Proof. reflexivity. Qed.

(** ** The sliding window *)

Definition window_of (c : string) (st : RateState) : zset := default ∅ (rs_redis st ≫= lookup c).

Definition recent (now : Z) (s : zset) : Prop := map_Forall (fun _ v => Unix (now - Minute) < v) s.

Lemma zrem_recent now s : 0 <= Unix (now - Minute) -> recent now s -> ZRemRangeByScore 0 (Unix (now - Minute)) s = s.
Proof.
  intros H0 H. unfold ZRemRangeByScore. apply map_filter_id. intros k v Hk. specialize (H k v Hk). cbn in *. lia.
Qed.

(** Requests of one minute at distinct times, after the epoch's first minute. *)
Definition in_one_minute (t0 : Z) (times : list Z) : Prop :=
  60 * Second <= t0 /\ Forall (fun t => t0 <= t < t0 + 59 * Second /\ int64_range t) times /\ NoDup times.

Lemma Unix_mono a b : a <= b -> Unix a <= Unix b.
Proof. unfold Unix, Second. intros H. apply Z.div_le_mono; lia. Qed.

Lemma redis_run_window c limit t0 st times seen :
  in_one_minute t0 (seen ++ times) -> is_Some (rs_redis st) ->
  window_of c st = list_to_map ((fun t => (Itoa t, Unix t)) <$> reverse seen) ->
  redis_run c limit st times = admit_upto (limit + 1) (Z.of_nat (length seen) + 1) (length times).
Proof.
  revert st seen. induction times as [|t ts IH]; intros st seen Hin [sets Hr] Hw; [done|].
  destruct Hin as (H0 & Hall & Hnd).
  assert (Hs : Forall (fun t => t0 <= t < t0 + 59 * Second /\ int64_range t) seen) by (by apply Forall_app in Hall as []).
  assert (Ht : t0 <= t < t0 + 59 * Second /\ int64_range t).
  { apply Forall_app in Hall as [_ Hall]. by inv Hall. }
  assert (Hkeys : NoDup (((fun t => (Itoa t, Unix t)) <$> reverse seen).*1)).
  { rewrite <- list_fmap_compose. unfold compose. cbn. apply NoDup_fmap_2_strong.
    - intros x y Hx Hy E. rewrite elem_of_reverse in Hx, Hy. rewrite Forall_forall in Hs.
      apply Itoa_inj; [by apply Hs | by apply Hs | done].
    - rewrite (reverse_Permutation seen). by apply NoDup_app in Hnd as (? & _ & _). }
  cbn [redis_run length]. rewrite admit_upto_S. unfold checkRateLimitRedis. rewrite Hr.
  unfold window_of in Hw. rewrite Hr in Hw. cbn in Hw.
  assert (Hrec : recent t (list_to_map ((fun t => (Itoa t, Unix t)) <$> reverse seen))).
  { intros k v Hk. apply elem_of_list_to_map_2 in Hk. apply list_elem_of_fmap in Hk as (x & [= -> ->] & Hx).
    rewrite elem_of_reverse in Hx. rewrite Forall_forall in Hs. specialize (Hs x Hx).
    apply (Z.lt_le_trans _ (Unix t0)); [|apply Unix_mono; lia].
    unfold Unix, Minute. apply (Z.le_lt_trans _ (Unix (t0 - Second))).
    - apply Unix_mono. unfold Second in *. lia.
    - unfold Unix, Second. replace (t0 - 1000000000) with (t0 + (-1) * 1000000000) by lia. rewrite Z.div_add by lia. lia. }
  assert (Hpos : 0 <= Unix (t - Minute)). { unfold Unix, Minute, Second in *. apply Z.div_pos; lia. }
  assert (Hd : default ∅ (sets !! c) = list_to_map ((fun t => (Itoa t, Unix t)) <$> reverse seen)).
  { unfold lookup in *. exact Hw. }
  rewrite Hd, zrem_recent by done. rewrite map_size_list_to_map by exact Hkeys.
  rewrite length_fmap, length_reverse. f_equal.
  - destruct (limit <? Z.of_nat (length seen)) eqn:E1; destruct (Z.of_nat (length seen) + 1 <=? limit + 1) eqn:E2; try lia; done.
  - rewrite (IH _ (seen ++ [t])).
    + rewrite length_app. cbn. f_equal. lia.
    + rewrite <- app_assoc. split; [done|]. split; [exact Hall | exact Hnd].
    + by eexists.
    + unfold window_of. cbn. rewrite lookup_insert_eq. cbn. rewrite reverse_snoc. done.
Qed.

(** Within one minute the Redis limiter admits one request more than the limit:
    it counts the window before it adds the request. *)
Lemma redis_window_exact c limit t0 st times :
  in_one_minute t0 times -> is_Some (rs_redis st) -> window_of c st = ∅ ->
  redis_run c limit st times = admit_upto (limit + 1) 1 (length times).
Proof. intros H Hr Hw. rewrite (redis_run_window c limit t0 st times []); [done | done | done | by rewrite Hw]. Qed.

Definition admitted (l : list bool) : Z := Z.of_nat (length (List.filter id l)).

Lemma admitted_upto limit k0 n : admitted (admit_upto limit k0 n) = Z.max 0 (Z.min (Z.of_nat n) (limit - k0 + 1)).
Proof.
  unfold admitted. revert k0. induction n as [|n IH]; intros k0; [cbn; lia|].
  rewrite admit_upto_S. cbn [List.filter id]. destruct (k0 <=? limit) eqn:E; cbn [length]; rewrite ?Nat2Z.inj_succ, IH; lia.
Qed.

(** The two per-minute limiters disagree by one: of the requests that a client
    makes within a minute of an empty history, the in-memory limiter admits as
    many as the limit and the Redis limiter one more. *)
Theorem limiters_differ c limit t ts :
  1 <= limit -> in_one_minute t (t :: ts) ->
  admitted (mem_run c limit ∅ (t :: ts)) = Z.min limit (1 + Z.of_nat (length ts)) /\
  admitted (redis_run c limit (mkRateState ∅ (Some ∅)) (t :: ts)) = Z.min (limit + 1) (1 + Z.of_nat (length ts)).
Proof.
  intros Hl Hin. split.
  - rewrite mem_window_exact; [|done|].
    + change (true :: admit_upto limit 2 (length ts)) with ([true] ++ admit_upto limit 2 (length ts)).
      unfold admitted. cbn [List.filter id app length]. rewrite Nat2Z.inj_succ.
      change (Z.of_nat (length (List.filter id (admit_upto limit 2 (length ts))))) with (admitted (admit_upto limit 2 (length ts))).
      rewrite admitted_upto. lia.
    + destruct Hin as (_ & Hall & _). inv Hall. eapply Forall_impl; [done|].
      unfold Minute. intros x [Hx _]. unfold Second in *. lia.
  - rewrite (redis_window_exact c limit t); [|done|by eexists|done]. rewrite admitted_upto. cbn [length]. lia.
Qed.

Lemma limiters_differ_witness :
  admitted (mem_run "c" 2 ∅ [60 * Second; 60 * Second + 1; 60 * Second + 2; 60 * Second + 3]) = 2 /\
  admitted (redis_run "c" 2 (mkRateState ∅ (Some ∅)) [60 * Second; 60 * Second + 1; 60 * Second + 2; 60 * Second + 3]) = 3.
Proof.
  apply (limiters_differ "c" 2 (60 * Second) [60 * Second + 1; 60 * Second + 2; 60 * Second + 3]); [lia|].
  split; [lia|]. split.
  - repeat constructor; vm_compute; (discriminate || reflexivity).
  - apply (bool_decide_unpack _). vm_compute. exact I.
Defined.

(** The daily cap admits exactly the cap, whichever store counts. *)
Fixpoint daily_run (tenantID : string) (cap : Z) (st : DailyState) (n : nat) : list bool :=
  match n with
  | O => []
  | S n' => let '(e, st') := checkCommunityDailyLimit false false tenantID cap st in
            bool_decide (e = None) :: daily_run tenantID cap st' n'
  end.

Lemma daily_exact tenantID cap st n :
  is_Some (dl_redis st) \/ (dl_redis st = None /\ is_Some (dl_db st)) ->
  let k0 := default 0 (match dl_redis st with Some m => m !! tenantID | None => dl_db st ≫= lookup tenantID end) in
  daily_run tenantID cap st n = admit_upto cap (k0 + 1) n.
Proof.
  revert st. induction n as [|n IH]; intros [redis db] H; [done|]. cbn [dl_redis dl_db] in *. cbn zeta.
  cbn [daily_run]. unfold checkCommunityDailyLimit, checkDailyLimitDB, bump. cbn [dl_redis dl_db].
  rewrite admit_upto_S. destruct redis as [m|].
  - rewrite IH by (left; by eexists). cbn. rewrite lookup_insert_eq. cbn. f_equal.
    destruct (cap <? default 0 (m !! tenantID) + 1) eqn:E1; destruct (default 0 (m !! tenantID) + 1 <=? cap) eqn:E2; try lia; done.
  - destruct H as [[? H]|[_ [m Hm]]]; [done|]. subst db. rewrite IH by (right; split; [done | by eexists]).
    cbn. rewrite lookup_insert_eq. cbn. f_equal. change (m !! tenantID) with (lookup tenantID m).
    destruct (cap <? default 0 (lookup tenantID m) + 1) eqn:E1; destruct (default 0 (lookup tenantID m) + 1 <=? cap) eqn:E2; try lia; done.
Qed.
