(* ===== verification/License.v ===== *)
(** Licenses, src/platform/agent/license (the community build): tiers and their
    limits (tier.go), token audiences and request scopes (scope.go), and the
    validation of an Ed25519-signed key with its expiry (license.go).

    The decoding of a payload is an argument ([None] when it is not the JSON of a
    payload); the signature check is the class of package ed25519; the clock is
    an argument. Whole days are taken of the exact duration. *)

From stdpp Require Import gmap.
From S2P Require Import Prelude GoStrings GoStrconv GoTime GoBase64 GoHttp DecisionChain RateLimit.

Local Open Scope Z_scope.

(** * Tiers *)

Definition TierProfessional : string := "Professional".
Definition TierEnterprise : string := "Enterprise".
Definition TierEnterprisePlus : string := "Plus".
Definition TierEvaluation : string := "Evaluation".
Definition TierCommunity : string := "Community".
Definition TierFree : string := "Free".
Definition TierPro : string := "Pro".
Definition TierPremium : string := "Premium".

Definition IsPaidTier (t : string) : bool :=
  str_eqb t TierProfessional || str_eqb t TierEnterprise || str_eqb t TierEnterprisePlus.
Definition IsEvaluationOrHigher (t : string) : bool := str_eqb t TierEvaluation || IsPaidTier t.

Definition tierRank (t : string) : Z :=
  if str_eqb t TierCommunity then 0
  else if str_eqb t TierEvaluation then 0
  else if str_eqb t TierProfessional then 1
  else if str_eqb t TierEnterprise then 2
  else if str_eqb t TierEnterprisePlus then 3
  else -1.

Definition TierSatisfiesRequirement (current required : string) : bool :=
  let cr := tierRank current in
  let rr := tierRank required in
  if (cr <? 0) || (rr <? 0) then false else rr <=? cr.

(** Every spelling is its own tier. *)
Definition normalizeTier (raw : string) : string :=
  if str_eqb raw TierProfessional then TierProfessional
  else if str_eqb raw TierEnterprise then TierEnterprise
  else if str_eqb raw TierEnterprisePlus then TierEnterprisePlus
  else if str_eqb raw TierEvaluation then TierEvaluation
  else raw.

Record TierLimits := mkLimits {
  tl_TenantPolicies : Z;
  tl_OrgPolicies : Z;
  tl_CustomPolicyConnectors : Z;
  tl_AuditRetentionDays : Z;
  tl_MaxLLMProviders : Z;
  tl_MaxExecutionHistory : Z;
  tl_MaxConcurrentExec : Z;
  tl_MaxPlans : Z;
  tl_MaxVersionsPerPlan : Z;
  tl_MaxSSEConnections : Z;
  tl_MaxCostEstimatesPerDay : Z;
  tl_MaxPendingApprovals : Z;
  tl_MediaGovernanceEnabled : bool;
  tl_DailyEventQuota : Z;
  tl_MaxActiveCustomPolicies : Z;
  tl_MaxHITLApprovalsPerWeek : Z;
  tl_DecisionListWindowHours : Z;
  tl_DecisionListMaxPage : Z;
  tl_HITLApprovalEnabled : bool;
  tl_HITLExpiryHours : Z;
  tl_PolicySimulationEnabled : bool;
  tl_MaxSimulationsPerDay : Z;
  tl_MaxImpactReportInputs : Z;
  tl_EvidenceExportEnabled : bool;
  tl_MaxEvidenceExportRecords : Z;
  tl_MaxEvidenceWindowDays : Z;
  tl_MaxEvidenceExportsPerDay : Z;
}.

Definition CommunityLimits : TierLimits :=
  mkLimits 200 0 2 3 2 50 5 25 10 5 10 5 false (-1) (-1) (-1) 24 5 false 0 false 0 0 false 0 0 0.
Definition EvaluationLimits : TierLimits :=
  mkLimits 50 5 5 14 3 500 25 100 25 25 100 100 true (-1) (-1) (-1) 336 100 true 24 true 300 50 true 5000 14 3.
Definition EnterpriseLimits : TierLimits :=
  mkLimits (-1) (-1) (-1) 3650 (-1) (-1) (-1) (-1) (-1) (-1) (-1) (-1) true (-1) (-1) (-1) (-1) 1000
    true 24 true (-1) 100 true (-1) (-1) (-1).

Definition GetTierLimits (tier : string) : TierLimits :=
  if str_eqb tier TierEvaluation then EvaluationLimits
  else if IsPaidTier tier then EnterpriseLimits
  else CommunityLimits.

(** * Limits of the shared service (auth_daily_limit.go) *)

Section Quotas.
Context (getenv : string -> string).

Definition dailyLimitForTier (tier : string) : Z :=
  let quota := tl_DailyEventQuota (GetTierLimits tier) in
  if negb (str_eqb tier "") && (0 <? quota) then quota else getEnvInt getenv "COMMUNITY_SAAS_DAILY_LIMIT" 500.

Definition minuteLimitForTier (tier : string) : Z :=
  if str_eqb tier TierPro || str_eqb tier TierPremium
  then getEnvInt getenv "COMMUNITY_SAAS_MINUTE_LIMIT_PRO" 200
  else getEnvInt getenv "COMMUNITY_SAAS_MINUTE_LIMIT_FREE" 25.

(** A client's tier, or none. *)
Definition dailyLimitForTenant (effectiveTier : option string) : Z := dailyLimitForTier (default "" effectiveTier).
Definition minuteLimitForTenant (effectiveTier : option string) : Z := minuteLimitForTier (default "" effectiveTier).
End Quotas.

(** * Audiences and scopes *)

Definition AudSaaSPlugin : string := "axonflow.saas.plugin".
Definition AudSaaSFull : string := "axonflow.saas.full".
Definition AudLegacyPluginClaim : string := "community_saas_plugin".
Definition HostingModeSaaS : string := "saas".
Definition HostingModeSelfHosted : string := "self_hosted".
Definition ScopePlugin : string := "plugin".
Definition ScopeSDK : string := "sdk".
Definition ScopeFull : string := "full".

Definition SaaSPluginPathAcceptList : list string := [AudSaaSPlugin; AudSaaSFull; AudLegacyPluginClaim].
Definition IsSaaSPluginPathAud (aud : string) : bool := existsb (str_eqb aud) SaaSPluginPathAcceptList.

(** [strings.SplitN(aud, ".", 3)] *)
Definition splitN3 (aud : string) : list string :=
  match Index aud "." with
  | None => [aud]
  | Some i =>
      let rest := slice aud (i + 1) (len aud) in
      match Index rest "." with
      | None => [slice aud 0 i; rest]
      | Some j => [slice aud 0 i; slice rest 0 j; slice rest (j + 1) (len rest)]
      end
  end.

Definition HostingMode (aud : string) : string :=
  if str_eqb aud "" then HostingModeSelfHosted
  else if str_eqb aud AudLegacyPluginClaim then HostingModeSaaS
  else match splitN3 aud with
       | a :: b :: _ => if str_eqb a "axonflow" && str_in b [HostingModeSaaS; HostingModeSelfHosted] then b else ""
       | _ => ""
       end.

Definition scopeSegment (aud : string) : string :=
  if str_eqb aud "" then ScopeFull
  else if str_eqb aud AudLegacyPluginClaim then ScopePlugin
  else match splitN3 aud with
       | [a; _; c] => if str_eqb a "axonflow" && str_in c [ScopePlugin; ScopeSDK; ScopeFull] then c else ""
       | _ => ""
       end.

Definition HasScope (aud scope : string) : bool :=
  let tokenScope := scopeSegment aud in
  if str_eqb tokenScope "" then false
  else if str_eqb tokenScope ScopeFull then true
  else str_eqb tokenScope scope.

Definition DeriveScopeFromClientHeader (header : string) : string :=
  if str_eqb header "" then ScopeFull
  else
    let clientID := match Index header "/" with Some i => slice header 0 i | None => header end in
    if str_eqb clientID "openclaw" || HasSuffix clientID "-plugin" then ScopePlugin
    else if HasPrefix clientID "sdk-" then ScopeSDK
    else ScopeFull.

(** * Keys *)

Record ServiceLicensePayload := mkPayload {
  sp_LicenseID : string;
  sp_Tier : string;
  sp_DeploymentID : string;
  sp_OrgID : string;
  sp_ServiceName : string;
  sp_ServiceType : string;
  sp_Permissions : list string;
  sp_IssuedAt : string;
  sp_ExpiresAt : string;
  sp_Email : string;
  sp_Email2 : string;
  sp_Limits : option TierLimits;
  sp_TenantID : string;
  sp_Aud : string;
  sp_JTI : string;
  sp_KID : string;
  sp_Origin : string;
}.

Record ValidationResult := mkValidation {
  vr_Valid : bool;
  vr_Tier : string;
  vr_DeploymentID : string;
  vr_OrgID : string;
  vr_MaxNodes : Z;
  vr_ExpiresAt : Z;
  vr_DaysUntilExpiry : Z;
  vr_GracePeriodDays : Z;
  vr_Error : string;
  vr_Message : string;
  vr_Features : list (string * bool);
  vr_Limits : TierLimits;
  vr_ServiceName : string;
  vr_ServiceType : string;
  vr_Permissions : list string;
  vr_Email : string;
  vr_LicenseID : string;
}.

Definition getCommunityFeatures : list (string * bool) :=
  [("multi_tenant", false); ("advanced_policies", false); ("sla_guarantee", false); ("audit_logging", true);
   ("basic_support", false); ("community_mode", true); ("media_governance", false)].

Definition getFeatures (tier : string) : list (string * bool) :=
  if str_eqb tier TierEvaluation then [("audit_logging", true); ("basic_support", true); ("media_governance", true)]
  else if str_eqb tier TierProfessional then
    [("multi_tenant", false); ("advanced_policies", false); ("sla_guarantee", false); ("audit_logging", true);
     ("basic_support", true); ("media_governance", true)]
  else if str_eqb tier TierEnterprise then
    [("multi_tenant", true); ("advanced_policies", true); ("sla_guarantee", true); ("audit_logging", true);
     ("priority_support", true); ("custom_connectors", true); ("media_governance", true);
     ("media_governance_per_tenant", true)]
  else if str_eqb tier TierEnterprisePlus then
    [("multi_tenant", true); ("advanced_policies", true); ("sla_guarantee", true); ("audit_logging", true);
     ("24x7_support", true); ("custom_connectors", true); ("dedicated_sa", true); ("unlimited_nodes", true);
     ("media_governance", true); ("media_governance_per_tenant", true)]
  else getCommunityFeatures.

(** The answer for a missing or unusable key. *)
Definition communityFallback (now : Z) (msg : string) : ValidationResult :=
  mkValidation true TierCommunity "community" "community" 9999 (AddDate now 100 0 0) 36500 0 "" msg getCommunityFeatures
    CommunityLimits "" "" [] "" "".

(** [time.Parse("20060102", s)], a midnight in nanoseconds. *)
Definition parse_yyyymmdd (s : string) : option Z :=
  if negb (Nat.eqb (len s) 8 && is_digits s) then None
  else
    let y := decimal_value (slice s 0 4) in
    let m := decimal_value (slice s 4 6) in
    let d := decimal_value (slice s 6 8) in
    if (1 <=? m) && (m <=? 12) && (1 <=? d) && (d <=? days_in_month y m) then Some (Date y m d) else None.

(** [int(d.Hours() / 24)], as the exact quotient: the division of doubles gives
    the same below two months, and beyond differs at most within microseconds
    of a whole day. *)
Definition whole_days (d : Z) : Z := Z.quot d day_ns.

Definition max_nodes (tier : string) : Z :=
  if str_eqb tier TierProfessional then 10
  else if str_eqb tier TierEnterprise then 50
  else if str_eqb tier TierEnterprisePlus then 9999
  else 2.

(** [t.Format("2006-01-02")] *)
Definition two_digits (n : Z) : string := if n <? 10 then "0" +:+ Itoa n else Itoa n.
Definition format_date (t : Z) : string :=
  let '(y, m, d) := civil_of_days (day_of t) in
  let ys := Itoa y in
  of_bytes (replicate (4 - len ys) 48) +:+ ys +:+ "-" +:+ two_digits m +:+ "-" +:+ two_digits d.

Section Validation.
Context `{Ed25519} (unmarshal : list Z -> option ServiceLicensePayload) (evaluationPublicKey enterprisePublicKey : list Z).

Definition tier_key (tier : string) : list Z :=
  if str_eqb tier TierEvaluation then evaluationPublicKey else enterprisePublicKey.

Definition verifyEd25519Signature (payload : string) (signature : list Z) (tier : string) : bool :=
  Verify (tier_key tier) payload signature.

(** The result of a signed payload at a time. *)
Definition licensed (now expiry : Z) (tier : string) (p : ServiceLicensePayload) : ValidationResult :=
  let org := if str_eqb (sp_DeploymentID p) "" then sp_OrgID p else sp_DeploymentID p in
  let daysUntil := whole_days (Sub expiry now) in
  let daysExpired := whole_days (Sub now expiry) in
  let '(valid, grace, err, msg) :=
    if expiry <? now then
      if daysExpired <=? 7 then
        (true, 7 - daysExpired, "",
         "License expired " +:+ Itoa daysExpired +:+ " days ago, " +:+ Itoa (7 - daysExpired) +:+ " days of grace period remaining")
      else (false, 0, "LICENSE_EXPIRED", "License expired on " +:+ format_date expiry +:+ " (grace period ended)")
    else if daysUntil <=? 30 then (true, 0, "", "License expires in " +:+ Itoa daysUntil +:+ " days")
    else (true, 0, "", "") in
  mkValidation valid tier org org (max_nodes tier) expiry daysUntil grace err msg (getFeatures tier) (GetTierLimits tier)
    (sp_ServiceName p) (sp_ServiceType p) (sp_Permissions p) (sp_Email p) (sp_LicenseID p).

Definition validateEd25519License (now : Z) (licenseKey : string) : ValidationResult :=
  let fallback := communityFallback now in
  let rest := slice licenseKey 5 (len licenseKey) in
  match LastIndex rest "." with
  | None | Some O => fallback "invalid license format"
  | Some dotIdx =>
      let payloadBase64 := slice rest 0 dotIdx in
      match DecodeString RawURLEncoding payloadBase64 with
      | None => fallback "invalid payload encoding"
      | Some payloadJSON =>
          match unmarshal payloadJSON with
          | None => fallback "invalid payload JSON"
          | Some p =>
              match DecodeString RawURLEncoding (slice rest (dotIdx + 1) (len rest)) with
              | None => fallback "invalid signature encoding"
              | Some signature =>
                  if negb (Nat.eqb (length signature) 64) then fallback "invalid signature length"
                  else
                    let tier := normalizeTier (sp_Tier p) in
                    if negb (verifyEd25519Signature payloadBase64 signature tier) then fallback "invalid license signature"
                    else if negb (IsEvaluationOrHigher tier) then fallback "unknown license tier"
                    else match parse_yyyymmdd (sp_ExpiresAt p) with
                         | None => fallback "invalid expiry date"
                         | Some expiry => licensed now expiry tier p
                         end
              end
          end
      end
  end.

Definition ValidateLicense (now : Z) (licenseKey : string) : ValidationResult :=
  if str_eqb licenseKey "" then communityFallback now "Community mode - no license required"
  else if negb (HasPrefix licenseKey "AXON-") then communityFallback now "invalid license key prefix"
  else if HasPrefix licenseKey "AXON-V2-" then
    communityFallback now "V2 license format no longer supported — request a new license at https://getaxonflow.com/evaluation-license"
  else if negb (Contains (slice licenseKey 5 (len licenseKey)) ".") then
    communityFallback now "V1 license format no longer supported — request a new license at https://getaxonflow.com/evaluation-license"
  else validateEd25519License now licenseKey.

(** * The license of the deployment *)

Section Current.
Context (getenv : string -> string).

Definition current (now : Z) : option ValidationResult :=
  let key := getenv "AXONFLOW_LICENSE_KEY" in
  if str_eqb key "" then None
  else let r := ValidateLicense now key in
       if negb (vr_Valid r) || (vr_ExpiresAt r <? now) then None else Some r.

Definition GetCurrentTier (now : Z) : string := from_option vr_Tier TierCommunity (current now).
Definition GetCurrentLimits (now : Z) : TierLimits := from_option vr_Limits CommunityLimits (current now).
Definition IsEnterpriseTier (now : Z) : bool :=
  from_option (fun r => str_eqb (vr_Tier r) TierEnterprise || str_eqb (vr_Tier r) TierEnterprisePlus) false (current now).
Definition IsEvaluationOrHigherTier (now : Z) : bool :=
  from_option (fun r => IsEvaluationOrHigher (vr_Tier r)) false (current now).
End Current.
End Validation.

(** * Facts *)

Section Facts.
Context `{Ed25519} (unmarshal : list Z -> option ServiceLicensePayload) (evalKey entKey : list Z).
Local Abbreviation validate := (ValidateLicense unmarshal evalKey entKey).

(** A key that a tier's owner signed: the payload names the tier, and the
    signature verifies under the public key of that tier. *)
Definition signed_license (key : string) (tier : string) (p : ServiceLicensePayload) : Prop :=
  exists payload64 sig64 json sig,
    key = slice key 0 5 +:+ payload64 +:+ "." +:+ sig64 /\ HasPrefix key "AXON-" = true /\
    DecodeString RawURLEncoding payload64 = Some json /\ unmarshal json = Some p /\
    DecodeString RawURLEncoding sig64 = Some sig /\ length sig = 64%nat /\
    tier = normalizeTier (sp_Tier p) /\ IsEvaluationOrHigher tier = true /\
    (tier = TierEvaluation -> Verify evalKey payload64 sig = true) /\
    (tier <> TierEvaluation -> Verify entKey payload64 sig = true).

Lemma vr_Tier_licensed now expiry tier p : vr_Tier (licensed now expiry tier p) = tier.
Proof. unfold licensed. destruct (expiry <? now); [destruct (_ <=? 7)|destruct (_ <=? 30)]; done. Qed.

Lemma vr_Expires_licensed now expiry tier p : vr_ExpiresAt (licensed now expiry tier p) = expiry.
Proof. unfold licensed. destruct (expiry <? now); [destruct (_ <=? 7)|destruct (_ <=? 30)]; done. Qed.

Lemma LastIndex_dot s i : LastIndex s "." = Some i -> s = slice s 0 i +:+ "." +:+ slice s (i + 1) (len s) .
Proof.
  revert i. induction s as [|c s IH]; intros i; cbn [LastIndex]; [discriminate|].
  destruct (LastIndex s ".") as [j|] eqn:E.
  - intros [= <-]. specialize (IH j eq_refl). rewrite IH at 1. unfold slice.
    rewrite !Nat.sub_0_r, !drop_0. cbn. done.
  - destruct (String.prefix "." (String c s)) eqn:P; [|discriminate]. intros [= <-].
    apply (HasPrefix_app (String c s) ".") in P as [t Ht]. injection Ht as -> ->.
    change (String "." ("" +:+ t)) with ("." +:+ t).
    replace (slice ("." +:+ t) (0 + 1) (len ("." +:+ t))) with t; [done|]. symmetry. apply (drop_app_len "." t).
Qed.

Lemma validate_inv now key :
  validate now key = communityFallback now (vr_Message (validate now key)) \/
  exists tier p expiry, signed_license key tier p /\ parse_yyyymmdd (sp_ExpiresAt p) = Some expiry /\
    validate now key = licensed now expiry tier p.
Proof.
  unfold ValidateLicense. destruct (str_eqb key ""); [by left|].
  destruct (HasPrefix key "AXON-") eqn:Hp; [|by left]. cbn [negb].
  destruct (HasPrefix key "AXON-V2-"); [by left|]. destruct (negb (Contains _ _)); [by left|].
  unfold validateEd25519License. destruct (LastIndex _ ".") as [[|i]|] eqn:El; [by left | | by left].
  destruct (DecodeString RawURLEncoding (slice _ 0 _)) as [json|] eqn:Ej; [|by left].
  destruct (unmarshal json) as [p|] eqn:Ep; [|by left].
  destruct (DecodeString RawURLEncoding (slice _ (S i + 1) _)) as [sig|] eqn:Es; [|by left].
  destruct (Nat.eqb (length sig) 64) eqn:En; [|by left]. cbn [negb].
  destruct (verifyEd25519Signature _ _ _ _ _) eqn:Ev; [|by left]. cbn [negb].
  destruct (IsEvaluationOrHigher _) eqn:Et; [|by left]. cbn [negb].
  destruct (parse_yyyymmdd _) as [expiry|] eqn:Ex; [|by left]. right.
  exists (normalizeTier (sp_Tier p)), p, expiry. split; [|done].
  exists (slice (slice key 5 (len key)) 0 (S i)), (slice (slice key 5 (len key)) (S i + 1) (len (slice key 5 (len key)))), json, sig.
  assert (Hk : (normalizeTier (sp_Tier p) = TierEvaluation -> Verify evalKey (slice (slice key 5 (len key)) 0 (S i)) sig = true) /\
    (normalizeTier (sp_Tier p) <> TierEvaluation -> Verify entKey (slice (slice key 5 (len key)) 0 (S i)) sig = true)).
  { unfold verifyEd25519Signature, tier_key in Ev. destruct (str_eqb (normalizeTier (sp_Tier p)) TierEvaluation) eqn:Ek;
      [apply str_eqb_true in Ek|apply str_eqb_false in Ek]; done. }
  split; [|by apply Nat.eqb_eq in En].
  rewrite <- (LastIndex_dot _ _ El). apply slice_split.
  apply HasPrefix_app in Hp as [t ->]. rewrite len_app. cbn. lia.
Qed.

Lemma signed_tier key tier p : signed_license key tier p -> tier <> TierCommunity.
Proof. intros (? & ? & ? & ? & _ & _ & _ & _ & _ & _ & _ & Ht & _) ->. discriminate. Qed.
End Facts.

Lemma whole_days_le d n : 0 <= d -> 0 <= n -> whole_days d <= n <-> d < (n + 1) * day_ns.
Proof.
  intros Hd Hn. unfold whole_days. rewrite Z.quot_div_nonneg by (pose proof day_ns_pos; lia).
  pose proof day_ns_pos as Hp. split; intros Hq.
  - pose proof (Z.mul_succ_div_gt d day_ns Hp). nia.
  - assert (d / day_ns < n + 1); [|lia]. apply Z.div_lt_upper_bound; [lia | lia].
Qed.

Lemma Sub_nonneg t u : u <= t -> 0 <= Sub t u.
Proof.
  intros Hle. unfold Sub, int64_min, int64_max. destruct (Z.ltb_spec (t - u) (-9223372036854775808)); [lia|].
  destruct (Z.ltb_spec 9223372036854775807 (t - u)); lia.
Qed.

(** The signed license stays valid for eight days after its expiry. *)
Lemma licensed_valid now expiry tier p :
  vr_Valid (licensed now expiry tier p) = true <-> now < expiry + 8 * day_ns.
Proof.
  unfold licensed. destruct (expiry <? now) eqn:E.
  - assert (Hs : whole_days (Sub now expiry) <= 7 <-> now < expiry + 8 * day_ns).
    { rewrite whole_days_le by (first [apply Sub_nonneg; lia | lia]).
      unfold Sub, int64_min, int64_max. unfold day_ns, Hour, Minute, Second.
      destruct (now - expiry <? -9223372036854775808) eqn:E1; [lia|].
      destruct (9223372036854775807 <? now - expiry) eqn:E2; lia. }
    destruct (whole_days (Sub now expiry) <=? 7) eqn:E7; cbn; split; intros; try done; try lia.
  - destruct (_ <=? 30); cbn; split; intros; try done; unfold day_ns, Hour, Minute, Second; lia.
Qed.

Section Theorems.
Context `{Ed25519} (unmarshal : list Z -> option ServiceLicensePayload) (evalKey entKey : list Z).
Local Abbreviation validate := (ValidateLicense unmarshal evalKey entKey).

(** C17: No tier without a signature. A key that resolves to any tier but Community is a
    payload that names this tier and a signature of it: one that verifies under the
    evaluation key when the tier is Evaluation, under the enterprise key when it is
    Professional, Enterprise or Plus. The limits are the fixed ones of the tier whatever
    limits the payload asks for; the identity, the services and the permissions are the
    payload's. *)
Theorem license_authentic now key :
  vr_Tier (validate now key) <> TierCommunity ->
  let v := validate now key in
  exists p, signed_license unmarshal evalKey entKey key (vr_Tier v) p /\
    (vr_Tier v = TierEvaluation /\ vr_Limits v = EvaluationLimits \/
     vr_Tier v ∈ [TierProfessional; TierEnterprise; TierEnterprisePlus] /\ vr_Limits v = EnterpriseLimits) /\
    vr_DeploymentID v = (if str_eqb (sp_DeploymentID p) "" then sp_OrgID p else sp_DeploymentID p) /\
    vr_ServiceName v = sp_ServiceName p /\ vr_ServiceType v = sp_ServiceType p /\ vr_Permissions v = sp_Permissions p.
Proof.
  intros Ht v. subst v. destruct (validate_inv unmarshal evalKey entKey now key) as [E|(tier & p & expiry & Hs & _ & E)].
  { exfalso. apply Ht. by rewrite E. }
  assert (Hl : tier = TierEvaluation /\ GetTierLimits tier = EvaluationLimits \/
    tier ∈ [TierProfessional; TierEnterprise; TierEnterprisePlus] /\ GetTierLimits tier = EnterpriseLimits).
  { destruct Hs as (? & ? & ? & ? & _ & _ & _ & _ & _ & _ & _ & Hh & _). unfold IsEvaluationOrHigher in Hh. unfold GetTierLimits.
    destruct (str_eqb tier TierEvaluation) eqn:Ee; [left; by apply str_eqb_true in Ee|right]. cbn [orb] in Hh. rewrite Hh.
    split; [|done]. unfold IsPaidTier in Hh. rewrite !orb_true_iff, !str_eqb_true in Hh. set_solver. }
  exists p. rewrite E, vr_Tier_licensed. split; [done|]. unfold licensed.
  destruct (expiry <? now); [destruct (_ <=? 7)|destruct (_ <=? 30)]; done.
Qed.

(** The grace period changes no decision: a signed license is reported valid
    for eight days after its expiry, but from the instant after the expiry the
    deployment's tier is Community. *)
Theorem grace_period_inert getenv now :
  let r := validate now (getenv "AXONFLOW_LICENSE_KEY") in
  vr_Tier r <> TierCommunity ->
  (vr_Valid r = true <-> now < vr_ExpiresAt r + 8 * day_ns) /\
  GetCurrentTier unmarshal evalKey entKey getenv now = if vr_ExpiresAt r <? now then TierCommunity else vr_Tier r.
Proof.
  cbn zeta. intros Ht. unfold GetCurrentTier, current.
  destruct (validate_inv unmarshal evalKey entKey now (getenv "AXONFLOW_LICENSE_KEY")) as [E|(tier & p & expiry & Hs & _ & E)].
  { exfalso. apply Ht. by rewrite E. }
  destruct (str_eqb (getenv "AXONFLOW_LICENSE_KEY") "") eqn:Ek.
  { apply str_eqb_true in Ek. rewrite Ek in Ht. by exfalso. }
  pose proof (licensed_valid now expiry tier p) as Hv.
  rewrite E, vr_Expires_licensed, vr_Tier_licensed in *. split; [exact Hv|].
  destruct (expiry <? now) eqn:Ee; [by rewrite orb_true_r|]. rewrite orb_false_r.
  destruct (vr_Valid (licensed now expiry tier p)) eqn:Ev; cbn [negb from_option].
  - apply vr_Tier_licensed.
  - exfalso. enough (false = true) by done. apply Hv. unfold day_ns, Hour, Minute, Second. lia.
Qed.
End Theorems.

(** A toy signature scheme and a key of the Enterprise tier, expiring on
    2 January 1970. *)
Module Demo.
Definition toy : Ed25519 := {|
  NewKeyFromSeed := id; Public := id; Sign := fun _ _ => replicate 64 0;
  Verify := fun _ _ s => bool_decide (s = replicate 64 0) |}.
Definition payload : ServiceLicensePayload := 
  mkPayload "lic" TierEnterprise "" "acme" "" "" [] "" "19700102" "" "" (Some CommunityLimits) "" "" "" "" "".
Definition decode (l : list Z) : option ServiceLicensePayload := Some payload.
Definition key : string := "AXON-e30." +:+ EncodeToString RawURLEncoding (replicate 64 0).
Definition env (k : string) : string := if str_eqb k "AXONFLOW_LICENSE_KEY" then key else "".
End Demo.

Lemma license_authentic_witness :
  exists p, signed_license (H := Demo.toy) Demo.decode [] [] Demo.key TierEnterprise p /\
            vr_Limits (ValidateLicense (H := Demo.toy) Demo.decode [] [] 0 Demo.key) = EnterpriseLimits.
Proof.
  destruct (license_authentic (H := Demo.toy) Demo.decode [] [] 0 Demo.key) as (p & Hs & _); [vm_compute; discriminate|].
  exists p. split; [exact Hs|vm_compute; reflexivity].
Defined.

Lemma grace_period_inert_witness :
  let now := 3 * day_ns in
  vr_Valid (ValidateLicense (H := Demo.toy) Demo.decode [] [] now Demo.key) = true /\
  GetCurrentTier (H := Demo.toy) Demo.decode [] [] Demo.env now = TierCommunity.
Proof.
  destruct (grace_period_inert (H := Demo.toy) Demo.decode [] [] Demo.env (3 * day_ns)) as [Hv Ht]; [vm_compute; discriminate|].
  split; [apply Hv; vm_compute; reflexivity | exact Ht].
Defined.

(** ** Limits *)

(** [-1] is no limit. *)
Definition limit_le (a b : Z) : bool := (b =? -1) || (negb (a =? -1) && (a <=? b)).

Definition resource_limits (l : TierLimits) : list Z :=
  [tl_OrgPolicies l; tl_CustomPolicyConnectors l; tl_AuditRetentionDays l; tl_MaxLLMProviders l; tl_MaxExecutionHistory l;
   tl_MaxConcurrentExec l; tl_MaxPlans l; tl_MaxVersionsPerPlan l; tl_MaxSSEConnections l; tl_MaxCostEstimatesPerDay l;
   tl_MaxPendingApprovals l; tl_DecisionListWindowHours l; tl_DecisionListMaxPage l].

(** An evaluation license raises every resource limit except the number of
    tenant policies, which it lowers. *)
Lemma evaluation_lowers_tenant_policies :
  forallb (fun p => limit_le p.1 p.2) (zip (resource_limits CommunityLimits) (resource_limits EvaluationLimits)) = true /\
  forallb (fun p => limit_le p.1 p.2) (zip (resource_limits EvaluationLimits) (resource_limits EnterpriseLimits)) = true /\
  tl_TenantPolicies EvaluationLimits < tl_TenantPolicies CommunityLimits.
Proof. split; [reflexivity|]. split; [reflexivity | done]. Qed.

(** In this build no tier has a daily quota of its own. *)
Lemma daily_limit_same getenv t1 t2 : dailyLimitForTier getenv t1 = dailyLimitForTier getenv t2.
Proof.
  assert (E : forall t, dailyLimitForTier getenv t = getEnvInt getenv "COMMUNITY_SAAS_DAILY_LIMIT" 500); [|by rewrite !E].
  intros t. unfold dailyLimitForTier, GetTierLimits.
  destruct (str_eqb t TierEvaluation); [by rewrite andb_false_r|]. by destruct (IsPaidTier t); rewrite andb_false_r.
Qed.

(** An unknown tier satisfies no requirement; the known ones are ordered. *)
Lemma tier_order a b c :
  TierSatisfiesRequirement a b = true -> TierSatisfiesRequirement b c = true -> TierSatisfiesRequirement a c = true.
Proof.
  unfold TierSatisfiesRequirement. destruct (tierRank a <? 0) eqn:Ea; cbn; [done|].
  destruct (tierRank b <? 0) eqn:Eb; cbn; [done|]. destruct (tierRank c <? 0) eqn:Ec; cbn; [done|]. lia.
Qed.
