(* ===== verification/AgentAuth.v ===== *)
(** The gateway's authentication: src/platform/agent/authenticator.go and auth.go
    (deployment modes, Basic credentials, the unified authenticator), identity_trust.go (the trust gate on client-asserted
    identity) and the sanitizer of decision_handler.go.

    The environment is a function. The credential stores (registration table,
    license check, JWT check) are arguments of the authenticator: what each
    answers for a request. *)

From stdpp Require Import gmap.
From S2P Require Import Prelude GoStrings GoStrconv GoTime GoBase64 GoHttp RateLimit License ServiceAuth Identity.

Local Open Scope Z_scope.

Section AgentAuth.
Context `{U : Unicode} `{PT : UnicodePrint} (getenv : string -> string).

(** * Deployment modes *)

Definition isCommunityMode : bool := str_eqb (getenv "DEPLOYMENT_MODE") "community".
Definition isCommunitySaasMode : bool := str_eqb (getenv "DEPLOYMENT_MODE") "community-saas".
Definition getDeploymentOrgID : string := if str_eqb (getenv "ORG_ID") "" then "local-dev-org" else getenv "ORG_ID".

(** * Basic credentials *)

(** [strings.SplitN(s, ":", 2)]: the part before the first colon, and the rest. *)
Definition split_colon (s : string) : string * option string :=
  match Index s ":" with
  | None => (s, None)
  | Some i => (slice s 0 i, Some (slice s (i + 1) (len s)))
  end.

(** The decoded credentials of a Basic Authorization header. *)
Definition basic_credentials (r : HttpRequest) : option (string * option string) :=
  match CutPrefix (hdr r "Authorization") "Basic " with
  | None => None
  | Some encoded => (fun l => split_colon (of_bytes l)) <$> DecodeString StdEncoding encoded
  end.

Definition extractClientSecret (r : HttpRequest) : string :=
  match basic_credentials r with Some (_, Some secret) => secret | _ => "" end.

Definition extractClientID (r : HttpRequest) : string :=
  match basic_credentials r with Some (id, _) => id | None => "" end.

(** * Clients *)

Record Client := mkClient {
  cl_ID : string;
  cl_ClientID : string;
  cl_Name : string;
  cl_OrgID : string;
  cl_TenantID : string;
  cl_Permissions : list string;
  cl_RateLimit : Z;
  cl_Enabled : bool;
  cl_LicenseTier : string;
  cl_EffectiveTier : string;
}.

Record ClientAuth := mkClientAuth {
  ca_ClientID : string;
  ca_LicenseKey : string;
  ca_Name : string;
  ca_TenantID : string;
  ca_Permissions : list string;
  ca_RateLimit : Z;
  ca_Enabled : bool;
}.

Inductive cred_error :=
| ClientIDRequired
| ClientSecretRequired
| NotInWhitelist (id : string)
| ClientDisabled (id : string)
| InvalidCredentials (id : string)
| LicenseFailed (msg : string)
| LicenseInvalid (msg : string)
| RateLimited (e : rate_error).

Definition validateClientCredentials (knownClients : gmap string ClientAuth)
    (ValidateLicense : string -> result string ValidationResult) (now : Z) (clientID clientSecret : string)
    (m : gmap string RateLimitEntry) : result cred_error Client * gmap string RateLimitEntry :=
  if str_eqb clientID "" then (Err ClientIDRequired, m)
  else if str_eqb clientSecret "" then (Err ClientSecretRequired, m)
  else match knownClients !! clientID with
       | None => (Err (NotInWhitelist clientID), m)
       | Some c =>
           if negb (ca_Enabled c) then (Err (ClientDisabled clientID), m)
           else if negb (str_eqb clientSecret (ca_LicenseKey c)) then (Err (InvalidCredentials clientID), m)
           else match ValidateLicense clientSecret with
                | Err e => (Err (LicenseFailed e), m)
                | Ok l =>
                    if negb (vr_Valid l) then (Err (LicenseInvalid (vr_Error l)), m)
                    else match checkRateLimit now clientID (ca_RateLimit c) m with
                         | (Some e, m') => (Err (RateLimited e), m')
                         | (None, m') =>
                             (Ok (mkClient (ca_ClientID c) (ca_ClientID c) (ca_Name c) (vr_OrgID l) (ca_TenantID c)
                                    (ca_Permissions c) (ca_RateLimit c) true (vr_Tier l) ""), m')
                         end
                end
       end.

(** * The authenticator *)

Inductive AuthKind := AuthKindCommunity | AuthKindCommunitySaaS | AuthKindEnterprise | AuthKindInternalService.
#[global] Instance AuthKind_dec : EqDecision AuthKind.
Proof. solve_decision. Defined.

Definition AuthKind_String (k : AuthKind) : string :=
  match k with
  | AuthKindCommunity => "community"
  | AuthKindCommunitySaaS => "community-saas"
  | AuthKindEnterprise => "enterprise"
  | AuthKindInternalService => "internal-service"
  end.

Record AuthHints := mkHints { ah_ClientID : string; ah_UserToken : string; ah_TenantID : string }.

Record AuthResult := mkAuth {
  au_Kind : AuthKind;
  au_Client : Client;
  au_TenantID : string;
  au_OrgID : string;
  au_ClientID : string;
}.

Record AuthError := mkAuthError { ae_Code : string; ae_Message : string; ae_HTTPStatus : Z; ae_RetryAfter : string }.

Record CommunitySaasAuthError := mkSaasError { se_StatusCode : Z; se_Message : string; se_RetryAfter : string }.

Definition buildAuthResult (kind : AuthKind) (c : Client) : AuthResult :=
  mkAuth kind c (cl_TenantID c) (cl_OrgID c) (cl_ClientID c).

Definition registration_required : string := "Registration required. POST to /api/v1/register to get credentials.".

Definition saas_error_code (e : CommunitySaasAuthError) : string :=
  if se_StatusCode e =? 429 then "rate_limited"
  else if (se_StatusCode e =? 401) && str_eqb (se_Message e) registration_required then "missing_credentials"
  else "invalid_credentials".

(** What the credential stores answer. *)
Record CredentialStores := mkStores {
  cs_saas : HttpRequest -> result CommunitySaasAuthError Client;
  cs_client : string -> string -> result string Client;
}.

(** The internal-service branch. *)
Definition internal_service (validator : option ServiceAuth.TokenValidator) (now : Z) (r : HttpRequest) (h : AuthHints)
  : option AuthResult :=
  if str_eqb (ah_ClientID h) "" || str_eqb (ah_UserToken h) "" then None
  else if IsValidInternalServiceRequest (ah_ClientID h) (ah_UserToken h) validator now
            (isCommunityMode || isCommunitySaasMode)
  then
    let tenantID := if str_eqb (ah_TenantID h) "" then ah_ClientID h else ah_TenantID h in
    let orgID := hdr r "X-Org-ID" in
    Some (mkAuth AuthKindInternalService
            (mkClient ServiceAuth.ClientID ServiceAuth.ClientID "Orchestrator Internal" orgID tenantID
               ["query"; "execute"; "mcp"] 0 true "" "")
            tenantID orgID ServiceAuth.ClientID)
  else None.

(** The community branch. *)
Definition community_auth (r : HttpRequest) (hints : option AuthHints) : AuthResult :=
  let fromHints := match hints with Some h => ah_ClientID h | None => "" end in
  let id := if negb (str_eqb (extractClientID r) "") then extractClientID r
            else if negb (str_eqb fromHints "") then fromHints else "community" in
  mkAuth AuthKindCommunity
    (mkClient id id "Community" getDeploymentOrgID id [] 0 true "Community" "") id getDeploymentOrgID id.

Definition Authenticate (st : CredentialStores) (validator : option ServiceAuth.TokenValidator) (now : Z)
    (r : HttpRequest) (hints : option AuthHints) : result AuthError AuthResult :=
  match hints ≫= internal_service validator now r with
  | Some a => Ok a
  | None =>
      if isCommunityMode then Ok (community_auth r hints)
      else if isCommunitySaasMode then
        match cs_saas st r with
        | Err e => Err (mkAuthError (saas_error_code e) (se_Message e) (se_StatusCode e) (se_RetryAfter e))
        | Ok c => Ok (buildAuthResult AuthKindCommunitySaaS c)
        end
      else
        let clientID := extractClientID r in
        let clientSecret := extractClientSecret r in
        if str_eqb clientID "" || str_eqb clientSecret "" then
          Err (mkAuthError "missing_credentials"
                 "Authentication required: provide Authorization header with Basic auth (clientId:clientSecret)" 401 "")
        else match cs_client st clientID clientSecret with
             | Err e => Err (mkAuthError "invalid_credentials" ("Authentication failed: " +:+ e) 401 "")
             | Ok c =>
                 if negb (cl_Enabled c)
                 then Err (mkAuthError "client_disabled" ("Client '" +:+ clientID +:+ "' is disabled") 403 "")
                 else Ok (buildAuthResult AuthKindEnterprise c)
             end
  end.

(** The user of a request; the enterprise token check gives an address, a role and an
    organization, the other kinds no organization. *)
Record User := mkAgentUser {
  us_ID : Z; us_Email : string; us_Name : string; us_TenantID : string; us_Role : string; us_Permissions : list string;
  us_OrgID : string }.

Definition ResolveUser (validateUserToken : string -> string -> result string User) (auth : AuthResult) (userToken : string)
  : result AuthError User :=
  match au_Kind auth with
  | AuthKindCommunity =>
      Ok (mkAgentUser 1 "local-dev@axonflow.local" "Local Development User" (au_TenantID auth) "admin"
            ["query"; "llm"; "mcp_query"; "admin"] "")
  | AuthKindCommunitySaaS =>
      Ok (mkAgentUser 1 "evaluator@try.getaxonflow.com" "Evaluation User" (au_TenantID auth) "evaluator"
            ["query"; "llm"; "mcp_query"] "")
  | AuthKindInternalService =>
      Ok (mkAgentUser 0 "orchestrator@axonflow.internal" "Orchestrator Internal" (au_TenantID auth) "service"
            ["query"; "execute"; "mcp"] "")
  | AuthKindEnterprise =>
      match validateUserToken userToken (au_TenantID auth) with
      | Err e => Err (mkAuthError "invalid_user_token" ("Invalid user token: " +:+ e) 401 "")
      | Ok u => Ok u
      end
  end.

(** * Client-asserted identity *)

Definition identityHeaderUserEmail : string := "X-User-Email".
Definition identityHeaderUserID : string := "X-User-ID".
Definition identityHeaderSessionID : string := "X-Session-Id".
Definition maxAttributedEmailLen : nat := 254.
Definition maxAttributedUserIDLen : nat := 128.
Definition maxAttributedSessionIDLen : nat := 128.

(** The printable runes while they fit. *)
Fixpoint bounded_runes (max : nat) (l : list (Z * list Z)) (acc : list Z) : list Z :=
  match l with
  | [] => acc
  | (r, _) :: l' =>
      if negb (IsPrint r) then bounded_runes max l' acc
      else if (max <? length acc + length (encode_rune r))%nat then acc
      else bounded_runes max l' (acc ++ encode_rune r)
  end.

Definition boundedAuditString (s : string) (max : nat) : string := of_bytes (bounded_runes max (runes (TrimSpace s)) []).

Definition trustIdentityHeaders : bool := (FromEnv getenv).1.

Definition trustedIdentityHeader (r : HttpRequest) (name : string) (maxLen : nat) : string :=
  let raw := TrimSpace (hdr r name) in
  if str_eqb raw "" then "" else if negb trustIdentityHeaders then "" else boundedAuditString raw maxLen.

Definition attributedUserEmail (r : HttpRequest) (validatedEmail : string) : string :=
  let e := trustedIdentityHeader r identityHeaderUserEmail maxAttributedEmailLen in
  if str_eqb e "" then validatedEmail else e.

Definition attributedSessionID (r : HttpRequest) : string :=
  trustedIdentityHeader r identityHeaderSessionID maxAttributedSessionIDLen.

Definition isClientSharedPseudoIdentity (email : string) : bool := IsSharedSyntheticIdentity email isCommunityMode.

Record mcpIdentityInputs := mkInputs {
  ii_headerPresented : bool;
  ii_presentedIsReserved : bool;
  ii_presentedSurvivedSanitization : bool;
  ii_trustGateOn : bool;
  ii_tokenResolvedIdentity : bool;
}.

(** The address a trusted header pair gives, [""] when none survives. *)
Definition sanitized_identity (r : HttpRequest) : string :=
  let e := boundedAuditString (TrimSpace (hdr r identityHeaderUserEmail)) maxAttributedEmailLen in
  if str_eqb e "" then boundedAuditString (TrimSpace (hdr r identityHeaderUserID)) maxAttributedUserIDLen else e.

Definition captureMCPIdentityInputs (r : HttpRequest) : mcpIdentityInputs :=
  let rawEmail := TrimSpace (hdr r identityHeaderUserEmail) in
  let rawUserID := TrimSpace (hdr r identityHeaderUserID) in
  let sanitized := sanitized_identity r in
  mkInputs (negb (str_eqb rawEmail "") || negb (str_eqb rawUserID ""))
    (negb (str_eqb sanitized "") && isClientSharedPseudoIdentity (CanonicalEmail sanitized))
    (negb (str_eqb sanitized "")) trustIdentityHeaders false.
End AgentAuth.
