(* ===== verification/AgentProxy.v ===== *)
(** The gateway's reverse proxy and its MCP sessions: src/platform/agent/proxy.go
    (the identity gate, the header scrub, the proxy middleware, the director that
    signs a forwarded request), auth.go (the API middleware), mcp_identity.go and
    the session handling of mcp_server_handler.go.

    What a request may come to is a value: answered at the gateway with a status,
    or forwarded with its headers. The daily cap's answer is an argument. *)

From stdpp Require Import gmap.
From S2P Require Import Prelude GoStrings GoTime Egress GoHttp GoStrconv ServiceAuth Identity AgentAuth.

Local Open Scope Z_scope.

Inductive outcome :=
| Answered (status : Z) (msg : string)
| Forwarded (r : HttpRequest).

Section Proxy.
Context `{U : Unicode} `{PT : UnicodePrint} (getenv : string -> string).

(** * The identity gate *)

(** The gated headers with their bounds, and whether one names a principal. *)
Definition gated_headers : list (string * nat * bool) :=
  [(identityHeaderUserEmail, maxAttributedEmailLen, true);
   (identityHeaderUserID, maxAttributedUserIDLen, true);
   (identityHeaderSessionID, maxAttributedSessionIDLen, false)].

(** One header of the loop: the headers, and whether an identity was dropped. *)
Definition gate_header (hd : string * nat * bool) (acc : HttpRequest * bool) : HttpRequest * bool :=
  let '(name, maxLen, marksIdentity) := hd in
  let '(r, dropped) := acc in
  let present := negb (str_eqb (TrimSpace (hdr r name)) "") in
  let v := trustedIdentityHeader getenv r name maxLen in
  if negb (str_eqb v "") then (with_header r (Header_Set name v (rq_Header r)), dropped)
  else (with_header r (Header_Del name (rq_Header r)),
        dropped || (present && negb (trustIdentityHeaders getenv) && marksIdentity)).

Definition gateProxyIdentityHeaders (r : HttpRequest) : HttpRequest :=
  let r := with_header r (Header_Del HeaderIdentityGated (rq_Header r)) in
  let '(r, dropped) := foldl (fun acc hd => gate_header hd acc) (r, false) gated_headers in
  if dropped then with_header r (Header_Set HeaderIdentityGated IdentityGatedTrue (rq_Header r)) else r.

Definition preflight_headers : list string :=
  ["X-Tenant-ID"; "X-Org-ID"; "X-Client-ID"; "X-Axonflow-Effective-Tier"; HeaderIdentityGated;
   identityHeaderUserEmail; identityHeaderUserID; identityHeaderSessionID] ++ NeverClientAssertableHeaders.

Definition stripClientAssertedProxyHeaders (r : HttpRequest) : HttpRequest :=
  with_header r (Del_all preflight_headers (rq_Header r)).

(** * The proxy middleware *)

(** Headers from the authenticated client. *)
Definition stamp_tenancy (a : AuthResult) (h : Header) : Header :=
  Header_Set "X-Client-ID" (au_ClientID a) (Header_Set "X-Org-ID" (au_OrgID a) (Header_Set "X-Tenant-ID" (au_TenantID a) h)).

(** Headers from a validated per-user token. *)
Definition stamp_identity (vid : ValidatedIdentity) (h : Header) : Header :=
  let h := Header_Set identityHeaderUserID (vi_Email vid) (Header_Set identityHeaderUserEmail (vi_Email vid) h) in
  let h := if str_eqb (vi_Role vid) "" then h else Header_Set HeaderUserRole (vi_Role vid) h in
  if str_eqb (vi_Email vid) "" then h else Header_Del HeaderIdentityGated h.

Definition stamp_tier (a : AuthResult) (h : Header) : Header :=
  let h := Header_Del "X-Axonflow-Effective-Tier" h in
  let tier := cl_EffectiveTier (au_Client a) in
  if str_eqb tier "" then h else Header_Set "X-Axonflow-Effective-Tier" tier h.

(** The per-user token of a proxied request: the identity it resolves to. *)
Definition proxied_identity (g : Registry) (a : AuthResult) (r : HttpRequest) : result identity_error (option ValidatedIdentity) :=
  let token := TrimSpace (hdr r "X-User-Token") in
  if bool_decide (au_Kind a = AuthKindEnterprise) && negb (str_eqb token "") then ResolveToken g (au_OrgID a) token else Ok None.

(** The request forwarded for an authenticated client. *)
Definition forward_headers (a : AuthResult) (r : HttpRequest) : HttpRequest :=
  let r := with_header r (stamp_tenancy a (rq_Header r)) in
  let r := gateProxyIdentityHeaders r in
  with_header r (Del_all NeverClientAssertableHeaders (rq_Header r)).

(** [proxyAuthMiddleware]; [auth] is what the authenticator answers, [capped]
    whether the daily cap halts the request. *)
Definition proxyAuthMiddleware (g : Registry) (auth : HttpRequest -> result AuthError AuthResult) (capped : AuthResult -> bool)
    (r : HttpRequest) : outcome :=
  if str_eqb (rq_Method r) MethodOptions then
    let _ := stripClientAssertedProxyHeaders r in Answered 204 ""
  else match auth r with
       | Err e => Answered (ae_HTTPStatus e) (ae_Message e)
       | Ok a =>
           if capped a then Answered 429 ""
           else
             let r' := forward_headers a r in
             match proxied_identity g a r' with
             | Err e => Answered 401 ("invalid user token: " +:+ resolve_error_text e)
             | Ok vid =>
                 let h := match vid with Some v => stamp_identity v (rq_Header r') | None => rq_Header r' end in
                 Forwarded (with_header r' (stamp_tier a h))
             end
       end.

(** The director of the reverse proxy: every forwarded request is signed. *)
Definition Director (generator : option string) (now : Z) (r : HttpRequest) : HttpRequest :=
  with_header r (Header_Set "X-Axonflow-Proxy-Auth" (GetInternalServiceToken generator now) (rq_Header r)).

(** What the orchestrator receives. *)
Definition proxied (g : Registry) (auth : HttpRequest -> result AuthError AuthResult) (capped : AuthResult -> bool)
    (generator : option string) (now : Z) (r : HttpRequest) : option HttpRequest :=
  match proxyAuthMiddleware g auth capped r with
  | Forwarded r' => Some (Director generator now r')
  | Answered _ _ => None
  end.

(** * The API middleware of the gateway's own routes *)

Definition api_hints (r : HttpRequest) : option AuthHints :=
  let svcID := hdr r "X-Internal-Service-ID" in
  if str_eqb svcID "" then None
  else Some (mkHints svcID (hdr r "X-Internal-Service-Token") (hdr r "X-Tenant-ID")).

Definition apiAuthMiddleware (auth : HttpRequest -> option AuthHints -> result AuthError AuthResult) (capped : AuthResult -> bool)
    (r : HttpRequest) : outcome :=
  if str_eqb (rq_Method r) MethodOptions then Answered 204 ""
  else match auth r (api_hints r) with
       | Err e => Answered (ae_HTTPStatus e) (ae_Message e)
       | Ok a =>
           if capped a then Answered 429 ""
           else Forwarded (with_header r (stamp_tenancy a (rq_Header r)))
       end.

(** * MCP sessions *)

Definition mcpSessionTTL : Z := 24 * Hour.
Definition mcpMaxSessions : nat := 1000.
Definition mcpSessionHeaderKey : string := "Mcp-Session-Id".

Record mcpSession := mkSession {
  ms_id : string;
  ms_createdAt : Z;
  ms_lastUsed : Z;
  ms_tenantID : string;
  ms_orgID : string;
  ms_userID : string;
  ms_userEmail : string;
  ms_userRole : string;
  ms_clientID : string;
  ms_clientSessionID : string;
  ms_tier : string;
  ms_authKind : AuthKind;
  ms_identityInputs : mcpIdentityInputs;
}.

Definition extractPerUserToken (r : HttpRequest) : string :=
  let t := TrimSpace (hdr r "X-User-Token") in
  if negb (str_eqb t "") then t
  else
    let auth := TrimSpace (hdr r "Authorization") in
    if (7 <? len auth)%nat && EqualFold_ascii (slice auth 0 7) "Bearer " then TrimSpace (slice auth 7 (len auth)) else "".

(** The identity of a request without a validated token: address and user id. *)
Definition header_identity (a : AuthResult) (r : HttpRequest) : string * string :=
  let headerEmail := trustedIdentityHeader getenv r identityHeaderUserEmail maxAttributedEmailLen in
  let headerUserID := trustedIdentityHeader getenv r identityHeaderUserID maxAttributedUserIDLen in
  let resolved := if negb (str_eqb headerEmail "") then headerEmail
                  else if negb (str_eqb headerUserID "") then headerUserID
                  else ClientPseudoIdentityPrefix +:+ au_ClientID a in
  let email := CanonicalEmail resolved in
  (email, if str_eqb headerUserID "" then email else headerUserID).

(** [authenticateMCPSession] as the session it gives, without id and times. *)
Definition authenticateMCPSession (g : Registry) (auth : HttpRequest -> result AuthError AuthResult) (r : HttpRequest)
  : result string mcpSession :=
  let inputs := captureMCPIdentityInputs getenv r in
  match auth r with
  | Err e => Err (ae_Message e)
  | Ok a =>
      let session userID email role inputs :=
        mkSession "" 0 0 (au_TenantID a) (au_OrgID a) userID email role (au_ClientID a) (attributedSessionID getenv r)
          (cl_EffectiveTier (au_Client a)) (au_Kind a) inputs in
      let from_headers := let '(email, userID) := header_identity a r in Ok (session userID email "" inputs) in
      if bool_decide (au_Kind a = AuthKindEnterprise) then
        match ResolveToken g (au_OrgID a) (extractPerUserToken r) with
        | Err e => Err ("invalid user token: " +:+ resolve_error_text e)
        | Ok (Some vid) =>
            Ok (session (vi_Email vid) (vi_Email vid) (vi_Role vid)
                  (mkInputs (ii_headerPresented inputs) (ii_presentedIsReserved inputs)
                     (ii_presentedSurvivedSanitization inputs) (ii_trustGateOn inputs) true))
        | Ok None => from_headers
        end
      else from_headers
  end.

Definition sessionCanReadTenant (s : mcpSession) : bool := isCommunityMode getenv || RoleCanReadTenant (ms_userRole s).

Definition with_lastUsed (t : Z) (s : mcpSession) : mcpSession :=
  mkSession (ms_id s) (ms_createdAt s) t (ms_tenantID s) (ms_orgID s) (ms_userID s) (ms_userEmail s) (ms_userRole s)
    (ms_clientID s) (ms_clientSessionID s) (ms_tier s) (ms_authKind s) (ms_identityInputs s).

(** [resolveMCPSession]: the session of a request, and the sessions afterwards. *)
Definition resolveMCPSession (g : Registry) (auth : HttpRequest -> result AuthError AuthResult) (now : Z) (r : HttpRequest)
    (m : gmap string mcpSession) : option mcpSession * gmap string mcpSession :=
  let sessionID := hdr r mcpSessionHeaderKey in
  let direct := match authenticateMCPSession g auth r with Ok s => Some s | Err _ => None end in
  match (if str_eqb sessionID "" then None else m !! sessionID) with
  | None => (direct, m)
  | Some s =>
      if mcpSessionTTL <? Sub now (ms_lastUsed s) then (direct, delete sessionID m)
      else
        let caller := extractClientID r in
        if negb (isCommunityMode getenv) && negb (str_eqb caller "") && negb (str_eqb caller (ms_clientID s)) then (None, m)
        else let s' := with_lastUsed now s in (Some s', <[sessionID := s']> m)
  end.

(** [evictStaleSessions]: sessions past their time go, then the least recently
    used while there are too many. The oldest of several is any of them. *)
Definition evict_expired (now : Z) (m : gmap string mcpSession) : gmap string mcpSession :=
  filter (fun e => ~ ms_lastUsed e.2 < now - mcpSessionTTL) m.

Definition oldest_session (m : gmap string mcpSession) : option string :=
  fst <$> map_fold (fun id s best =>
    match best with
    | Some (_, t) => if ms_lastUsed s <? t then Some (id, ms_lastUsed s) else best
    | None => Some (id, ms_lastUsed s)
    end) None m.

Fixpoint evict_oldest (fuel : nat) (m : gmap string mcpSession) : gmap string mcpSession :=
  match fuel with
  | O => m
  | S f =>
      if (mcpMaxSessions <? size m)%nat
      then match oldest_session m with Some id => evict_oldest f (delete id m) | None => m end
      else m
  end.

Definition evictStaleSessions (now : Z) (m : gmap string mcpSession) : gmap string mcpSession :=
  let m := evict_expired now m in evict_oldest (size m) m.

(** The part of [handleMCPInitialize] that creates a session; [newID] is the
    random session id. *)
Definition initialize_session (g : Registry) (auth : HttpRequest -> result AuthError AuthResult) (now : Z) (newID : string)
    (r : HttpRequest) (m : gmap string mcpSession) : result string mcpSession * gmap string mcpSession :=
  match authenticateMCPSession g auth r with
  | Err e => (Err e, m)
  | Ok s =>
      let s := mkSession newID now now (ms_tenantID s) (ms_orgID s) (ms_userID s) (ms_userEmail s) (ms_userRole s)
                 (ms_clientID s) (ms_clientSessionID s) (ms_tier s) (ms_authKind s) (ms_identityInputs s) in
      (Ok s, <[newID := s]> (evictStaleSessions now m))
  end.

(** [handleMCPSessionDelete]: the status, and the sessions afterwards. *)
Definition handleMCPSessionDelete (g : Registry) (auth : HttpRequest -> result AuthError AuthResult) (r : HttpRequest)
    (m : gmap string mcpSession) : Z * gmap string mcpSession :=
  let sessionID := hdr r mcpSessionHeaderKey in
  if str_eqb sessionID "" then (400, m)
  else match m !! sessionID with
       | None => (404, m)
       | Some s =>
           match authenticateMCPSession g auth r with
           | Err _ => if negb (isCommunityMode getenv) then (401, m) else (200, delete sessionID m)
           | Ok c =>
               if negb (isCommunityMode getenv) && negb (str_eqb (ms_clientID c) (ms_clientID s)) then (403, m)
               else (200, delete sessionID m)
           end
       end.

(** [errSharedIdentityRefusal] *)
Definition session_refusal (s : mcpSession) (feature : string) : SharedIdentityRefusal :=
  let i := ms_identityInputs s in
  mkRefusal feature (ms_userEmail s) (ii_headerPresented i) (ii_presentedIsReserved i) (ii_presentedSurvivedSanitization i)
    (ii_trustGateOn i) (ii_tokenResolvedIdentity i) (bool_decide (ms_authKind s = AuthKindEnterprise)).

Definition errSharedIdentityRefusal (s : mcpSession) (feature : string) : string :=
  SharedIdentityRefusalMessage (session_refusal s feature).

(** The identity guard of the override tool. *)
Definition override_refusal (s : mcpSession) : option string :=
  if isClientSharedPseudoIdentity getenv (ms_userEmail s)
  then Some (errSharedIdentityRefusal s "per-user session overrides") else None.
End Proxy.

(** Who a request is for the orchestrator: src/platform/orchestrator/
    authn_middleware.go and agent_proxy_guard.go (the proxy token),
    read_scope.go and read_scope_domains.go (the read scope of a caller and the
    two router gates), identity_required_error.go. *)

(** What a middleware does with a request: it passes it on, with the spend
    figures redacted or not, or it answers. *)
Inductive gate :=
| Pass (redact : bool)
| Refuse (status : Z) (msg : string).

Section ReadScope.
Context `{U : Unicode} (getenv : string -> string) (proxyTokenValidator : option ServiceAuth.TokenValidator) (now : Z).

Local Abbreviation community := (isCommunityMode getenv).
Local Abbreviation saas := (isCommunitySaasMode getenv).

(** The validator of [Run], from the trimmed secret. *)
Definition validator_from_env : option ServiceAuth.TokenValidator :=
  let secret := TrimSpace (getenv SecretEnvVar) in
  if str_eqb secret "" then None else Some (NewTokenValidator secret DefaultClockSkew).

Definition proxy_token (r : HttpRequest) : string := hdr r "X-Axonflow-Proxy-Auth".

Definition proxy_valid (r : HttpRequest) : bool :=
  match proxyTokenValidator with
  | None => false
  | Some v => negb (str_eqb (proxy_token r) "") && token_valid v now (proxy_token r)
  end.

(** * Authentication *)

Definition orchestratorAuthExemptPaths : list string := ["/health"; "/metrics"; "/prometheus"].

Definition not_configured : string := "Unauthorized: internal-service auth not configured".
Definition not_routed : string := "Unauthorized: request must be routed through AxonFlow Agent".
Definition not_valid : string := "Unauthorized: invalid proxy authentication".

(** The check of a token by a configured validator. *)
Definition token_check (v : ServiceAuth.TokenValidator) (r : HttpRequest) : option string :=
  if str_eqb (proxy_token r) "" then Some not_routed
  else if negb (token_valid v now (proxy_token r)) then Some not_valid
  else None.

Definition requireInternalProxyAuth (r : HttpRequest) : gate :=
  if str_in (rq_Path r) orchestratorAuthExemptPaths then Pass false
  else match proxyTokenValidator with
       | None => Refuse 403 not_configured
       | Some v => match token_check v r with Some msg => Refuse 403 msg | None => Pass false end
       end.

(** [None]: the request may proceed. *)
Definition verifyAgentProxyAuth (r : HttpRequest) : option string :=
  match proxyTokenValidator with
  | None => if community then None else Some not_configured
  | Some v => token_check v r
  end.

(** * The read scope *)

Record callerReadScope := mkScope { rs_TenantWide : bool; rs_AdminAuthority : bool; rs_UserEmail : string }.

(** Least privilege: the rows of the caller's own address. *)
Definition own_rows (r : HttpRequest) : callerReadScope :=
  let email := CanonicalEmail (hdr r "X-User-Email") in
  mkScope false false (if IsSharedSyntheticIdentity email false then "" else email).

Definition resolveCallerReadScope (r : HttpRequest) : callerReadScope :=
  if community then mkScope true true ""
  else if proxy_valid r then
    if saas && negb (str_eqb (TrimSpace (hdr r "X-Tenant-ID")) "") then mkScope true false ""
    else if RoleCanReadTenant (hdr r HeaderUserRole) then mkScope true true ""
    else if str_eqb (hdr r HeaderReadScope) ReadScopeTenant
    then mkScope true (AdminAuthorityFromHeader (hdr r HeaderAdminAuthority)) ""
    else own_rows r
  else own_rows r.

Definition readScopeOwnRows : string := "own-rows".
Definition readScopeNone : string := "none".

Definition readScopeLabel (s : callerReadScope) : string :=
  if rs_TenantWide s then ReadScopeTenant
  else if negb (str_eqb (rs_UserEmail s) "") then readScopeOwnRows
  else readScopeNone.

(** The response header, and whether the diagnostic line is logged. *)
Definition applyReadScopeHeader (s : callerReadScope) (w : Header) : string * bool * Header :=
  let label := readScopeLabel s in (label, str_eqb label readScopeNone, Header_Set HeaderReadScope label w).

(** * The router gates *)

Definition complianceReportBasePath : string := "/api/v1/compliance/reports".

Definition tenantWideAuditExportPaths : list string :=
  ["/api/v1/evidence/export"; "/api/v1/evidence/summary"; "/api/v1/media-governance/audit/export";
   "/api/v1/euaiact/export"; "/api/v1/sebi/audit/export"; "/api/v1/ojk/audit/export"; complianceReportBasePath].

(** A path at or below a base. *)
Definition under (base p : string) : bool := str_eqb p base || HasPrefix p (base +:+ "/").

Definition isTenantWideAuditExportPath (p : string) : bool := existsb (fun base => under base p) tenantWideAuditExportPaths.

Definition complianceReportPollShape (r : HttpRequest) : bool :=
  if negb (str_eqb (rq_Method r) MethodGet) then false
  else match CutPrefix (rq_Path r) (complianceReportBasePath +:+ "/") with
       | None => false
       | Some rest => negb (str_eqb rest "") && negb (Contains rest "/")
       end.

Definition isTenantWideAuditExportRequest (r : HttpRequest) : bool :=
  isTenantWideAuditExportPath (rq_Path r) && negb (complianceReportPollShape r).

Definition enforceTenantWideAuditExport (r : HttpRequest) : gate :=
  if str_eqb (rq_Method r) MethodOptions || negb (isTenantWideAuditExportRequest r) then Pass false
  else if negb (rs_AdminAuthority (resolveCallerReadScope r))
  then Refuse 403 "tenant-wide audit export requires an admin/owner role"
  else Pass false.

Definition domainGovernanceReadPrefixes : list string :=
  ["/api/v1/cost"; "/api/v1/usage"; "/api/v1/budgets"; "/api/v1/executions"; "/api/v1/unified/executions";
   "/api/v1/workflows/executions"].
Definition budgetCheckPath : string := "/api/v1/budgets/check".
Definition hitlStatusSuffix : string := "/hitl-status".

Definition isDomainGovernancePath (p : string) : bool :=
  if HasSuffix p hitlStatusSuffix then false else existsb (fun base => under base p) domainGovernanceReadPrefixes.

Definition enforceDomainReadAuthority (r : HttpRequest) : gate :=
  if str_eqb (rq_Method r) MethodOptions || negb (isDomainGovernancePath (rq_Path r)) then Pass false
  else
    let admin := rs_AdminAuthority (resolveCallerReadScope r) in
    if str_eqb (rq_Path r) budgetCheckPath then Pass (negb admin)
    else if negb admin then Refuse 403 "cost/usage and execution APIs require an administrator role"
    else Pass false.

(** The gates in the order in which a request meets them. *)
Definition orchestrator_gates (r : HttpRequest) : gate :=
  match requireInternalProxyAuth r with
  | Refuse s m => Refuse s m
  | Pass _ =>
      match enforceTenantWideAuditExport r with
      | Refuse s m => Refuse s m
      | Pass _ => enforceDomainReadAuthority r
      end
  end.

(** * The refusal of a request without a user *)

Definition identityGateMarkerIsTrusted (r : HttpRequest) : bool :=
  match proxyTokenValidator with None => community | Some _ => proxy_valid r end.

Definition identityRequiredMessage (r : HttpRequest) (feature : string) : string :=
  IdentityRequiredMessage
    (if identityGateMarkerIsTrusted r && IdentityWasGated (hdr r HeaderIdentityGated) then RefusalIdentityGated
     else RefusalNoIdentity) feature.
End ReadScope.
