(* ===== verification/AgentProxyFacts.v ===== *)
(** The gateway and the orchestrator together: what a client's headers can and
    cannot do to the authority of its request, what a session id is worth, and
    whether a refusal's advice helps. *)

From stdpp Require Import gmap.
From S2P Require Import Prelude GoStrings GoTime Egress GoHttp GoStrconv ServiceAuth Identity AgentAuth AgentProxy.

Local Open Scope Z_scope.

Section Gate.
Context `{U : Unicode} `{PT : UnicodePrint} (getenv : string -> string).

Lemma TrimSpace_empty : TrimSpace "" = "".
Proof. reflexivity. Qed.

Lemma bounded_empty max : boundedAuditString "" max = "".
Proof. reflexivity. Qed.

(** The value a header has after the gate depends on the header alone. *)
Lemma trusted_ext r r' name max :
  hdr r name = hdr r' name -> trustedIdentityHeader getenv r name max = trustedIdentityHeader getenv r' name max.
Proof. unfold trustedIdentityHeader. by intros ->. Qed.

Lemma trusted_gate_off r name max : trustIdentityHeaders getenv = false -> trustedIdentityHeader getenv r name max = "".
Proof. unfold trustedIdentityHeader. intros ->. by destruct (str_eqb _ ""). Qed.

Lemma hdr_Set r k v k' : hdr (with_header r (Header_Set k v (rq_Header r))) k' = if same_header k k' then v else hdr r k'.
Proof. apply Get_Set. Qed.

Lemma hdr_Del r k k' : hdr (with_header r (Header_Del k (rq_Header r))) k' = if same_header k k' then "" else hdr r k'.
Proof. apply Get_Del. Qed.

Lemma gate_header_get name max b r d k :
  hdr (gate_header getenv (name, max, b) (r, d)).1 k =
  if same_header name k then trustedIdentityHeader getenv r name max else hdr r k.
Proof.
  unfold gate_header. destruct (str_eqb (trustedIdentityHeader getenv r name max) "") eqn:E; cbn [negb fst].
  - rewrite hdr_Del. apply str_eqb_true in E. by destruct (same_header name k).
  - apply hdr_Set.
Qed.

(** A header the gate does not name is left alone. *)
Lemma gate_other r k :
  same_header identityHeaderUserEmail k = false -> same_header identityHeaderUserID k = false ->
  same_header identityHeaderSessionID k = false -> same_header HeaderIdentityGated k = false ->
  hdr (gateProxyIdentityHeaders getenv r) k = hdr r k.
Proof.
  intros He Hi Hs Hg. unfold gateProxyIdentityHeaders, gated_headers. cbn [foldl].
  destruct (gate_header getenv (identityHeaderSessionID, maxAttributedSessionIDLen, false) _) as [r3 d3] eqn:E3.
  assert (H3 : hdr r3 k = hdr r k).
  { change r3 with (r3, d3).1. rewrite <- E3. destruct (gate_header getenv (identityHeaderUserID, _, _) _) as [r2 d2] eqn:E2.
    rewrite gate_header_get, Hs. change r2 with (r2, d2).1. rewrite <- E2.
    destruct (gate_header getenv (identityHeaderUserEmail, _, _) _) as [r1 d1] eqn:E1.
    rewrite gate_header_get, Hi. change r1 with (r1, d1).1. rewrite <- E1.
    rewrite gate_header_get, He, hdr_Del, Hg. done. }
  destruct d3; [|done]. by rewrite hdr_Set, Hg.
Qed.

(** The address forwarded is the trusted one. *)
Lemma gate_email r :
  hdr (gateProxyIdentityHeaders getenv r) identityHeaderUserEmail
  = trustedIdentityHeader getenv r identityHeaderUserEmail maxAttributedEmailLen.
Proof.
  unfold gateProxyIdentityHeaders, gated_headers. cbn [foldl].
  destruct (gate_header getenv (identityHeaderSessionID, maxAttributedSessionIDLen, false) _) as [r3 d3] eqn:E3.
  assert (H3 : hdr r3 identityHeaderUserEmail = trustedIdentityHeader getenv r identityHeaderUserEmail maxAttributedEmailLen).
  { change r3 with (r3, d3).1. rewrite <- E3. destruct (gate_header getenv (identityHeaderUserID, _, _) _) as [r2 d2] eqn:E2.
    rewrite gate_header_get. header_names. cbn match. change r2 with (r2, d2).1. rewrite <- E2.
    destruct (gate_header getenv (identityHeaderUserEmail, _, _) _) as [r1 d1] eqn:E1.
    rewrite gate_header_get. header_names. cbn match. change r1 with (r1, d1).1. rewrite <- E1.
    rewrite gate_header_get. header_names. cbn match. apply trusted_ext. rewrite hdr_Del. header_names. done. }
  destruct d3; [|done]. rewrite hdr_Set. header_names. cbn match. exact H3.
Qed.

(** * What reaches the orchestrator *)

Section Forward.
Context (g : Registry) (auth : HttpRequest -> result AuthError AuthResult) (capped : AuthResult -> bool)
  (generator : option string) (now : Z).

Lemma hdr_Del_all names r k :
  hdr (with_header r (Del_all names (rq_Header r))) k = if existsb (fun n => same_header n k) names then "" else hdr r k.
Proof. apply Get_Del_all. Qed.

Lemma forward_tenant a r : hdr (forward_headers getenv a r) "X-Tenant-ID" = au_TenantID a.
Proof.
  unfold forward_headers. rewrite hdr_Del_all. cbn [existsb NeverClientAssertableHeaders]. header_names. cbn [orb].
  rewrite gate_other by reflexivity. unfold hdr, stamp_tenancy. cbn [rq_Header with_header]. by read_headers.
Qed.

Lemma forward_email a r :
  hdr (forward_headers getenv a r) identityHeaderUserEmail
  = trustedIdentityHeader getenv r identityHeaderUserEmail maxAttributedEmailLen.
Proof.
  unfold forward_headers. rewrite hdr_Del_all. cbn [existsb NeverClientAssertableHeaders]. header_names. cbn [orb].
  rewrite gate_email. apply trusted_ext. unfold hdr, stamp_tenancy. cbn [rq_Header with_header]. by read_headers.
Qed.

Lemma forward_stripped a r k : k ∈ NeverClientAssertableHeaders -> hdr (forward_headers getenv a r) k = "".
Proof.
  intros Hk. unfold forward_headers. rewrite hdr_Del_all.
  assert (E : existsb (fun n => same_header n k) NeverClientAssertableHeaders = true).
  { apply existsb_In. exists k. split; [done | apply same_header_refl]. }
  by rewrite E.
Qed.

(** The role and the address that the orchestrator reads on a proxied request. *)
Definition proxied_role (vid : option ValidatedIdentity) : string := match vid with Some v => vi_Role v | None => "" end.
Definition proxied_email (vid : option ValidatedIdentity) (r : HttpRequest) : string :=
  match vid with
  | Some v => vi_Email v
  | None => trustedIdentityHeader getenv r identityHeaderUserEmail maxAttributedEmailLen
  end.

Lemma proxied_inv r r' :
  proxied getenv g auth capped generator now r = Some r' ->
  exists a vid, auth r = Ok a /\ proxied_identity g a (forward_headers getenv a r) = Ok vid /\
    hdr r' "X-Tenant-ID" = au_TenantID a /\
    hdr r' HeaderUserRole = proxied_role vid /\ hdr r' HeaderReadScope = "" /\ hdr r' HeaderAdminAuthority = "" /\
    hdr r' identityHeaderUserEmail = proxied_email vid r /\
    hdr r' "X-Axonflow-Proxy-Auth" = GetInternalServiceToken generator now.
Proof.
  unfold proxied, proxyAuthMiddleware. destruct (str_eqb (rq_Method r) MethodOptions); [discriminate|].
  destruct (auth r) as [a|e] eqn:Ea; [|discriminate]. destruct (capped a); [discriminate|].
  destruct (proxied_identity g a (forward_headers getenv a r)) as [vid|e] eqn:Ev; [|discriminate].
  intros Hr. apply (inj Some) in Hr. subst r'. exists a, vid. split; [done|]. split; [exact Ev|].
  assert (Hs : forall k, k ∈ NeverClientAssertableHeaders -> hdr (forward_headers getenv a r) k = "").
  { intros k. apply forward_stripped. }
  pose proof (Hs HeaderUserRole ltac:(by left)) as H1.
  pose proof (Hs HeaderReadScope ltac:(right; by left)) as H2.
  pose proof (Hs HeaderAdminAuthority ltac:(right; right; by left)) as H3.
  pose proof (forward_tenant a r) as Ht. pose proof (forward_email a r) as He.
  unfold hdr in *. unfold Director, stamp_tier. cbn [rq_Header with_header].
  destruct (str_eqb (cl_EffectiveTier (au_Client a)) ""); destruct vid as [v|]; cbn [proxied_role proxied_email];
    unfold stamp_identity; try (destruct (str_eqb (vi_Role v) "") eqn:Er; [apply str_eqb_true in Er|]);
    try (destruct (str_eqb (vi_Email v) "") eqn:Ee; [apply str_eqb_true in Ee|]);
    split_and!; read_headers; congruence.
Qed.
End Forward.
End Gate.

(** * Authority through the proxy *)

(** The scope the code grants a proxied request, as the policy states it: the
    shared service reads its own tenant, a validated administrative role reads
    and administers the tenant, everyone else reads the rows of one address. *)
Definition granted_scope `{Unicode} (saas : bool) (tenant role email : string) : callerReadScope :=
  if saas && negb (str_eqb (TrimSpace tenant) "") then mkScope true false ""
  else if RoleCanReadTenant role then mkScope true true ""
  else mkScope false false (if IsSharedSyntheticIdentity (CanonicalEmail email) false then "" else CanonicalEmail email).

(** The services share a secret and their clocks are within the skew. *)
Definition shared_secret (v : ServiceAuth.TokenValidator) (secret : string) (now now' : Z) : Prop :=
  tv_secret v = secret /\ 0 <= now <= int64_max /\ 0 <= now' <= int64_max /\ Z.abs (now' - now) <= skew_seconds v.

Lemma proxy_valid_generated `{Unicode} v secret now now' r :
  shared_secret v secret now now' -> hdr r "X-Axonflow-Proxy-Auth" = GetInternalServiceToken (Some secret) now ->
  proxy_valid (Some v) now' r = true.
Proof.
  intros (<- & Hn & Hn' & Hs) Ht. unfold proxy_valid, proxy_token. rewrite Ht. cbn [GetInternalServiceToken].
  rewrite generated_valid by done. rewrite andb_true_r. apply Bool.negb_true_iff, str_eqb_false. discriminate.
Qed.

Section Authority.
Context `{U : Unicode} `{PT : UnicodePrint} (getenv orchenv : string -> string).
Context (g : Registry) (auth : HttpRequest -> result AuthError AuthResult) (capped : AuthResult -> bool).
Context (v : ServiceAuth.TokenValidator) (secret : string) (now now' : Z).
Local Abbreviation forwarded := (proxied getenv g auth capped (Some secret) now).
Local Abbreviation scope_of := (resolveCallerReadScope orchenv (Some v) now').

Lemma proxied_scope r r' :
  shared_secret v secret now now' -> isCommunityMode orchenv = false -> forwarded r = Some r' ->
  exists a vid, auth r = Ok a /\ proxied_identity g a (forward_headers getenv a r) = Ok vid /\
    scope_of r' = granted_scope (isCommunitySaasMode orchenv) (au_TenantID a) (proxied_role vid) (proxied_email getenv vid r).
Proof.
  intros Hs Hc Hr. destruct (proxied_inv getenv g auth capped (Some secret) now r r' Hr)
    as (a & vid & Ha & Hv & Ht & Hro & Hrs & Had & He & Hp).
  exists a, vid. split; [done|]. split; [done|]. unfold resolveCallerReadScope, granted_scope.
  rewrite Hc, (proxy_valid_generated v secret now now' r' Hs Hp), Ht, Hro, Hrs.
  destruct (isCommunitySaasMode orchenv && _); [done|]. destruct (RoleCanReadTenant _); [done|].
  unfold own_rows. change "X-User-Email" with identityHeaderUserEmail. rewrite He. done.
Qed.


Lemma proxied_identity_token a r :
  proxied_identity g a (forward_headers getenv a r) = proxied_identity g a r.
Proof.
  unfold proxied_identity. assert (E : hdr (forward_headers getenv a r) "X-User-Token" = hdr r "X-User-Token"); [|by rewrite E].
  unfold forward_headers. rewrite hdr_Del_all. cbn [existsb NeverClientAssertableHeaders]. header_names. cbn [orb].
  rewrite gate_other by reflexivity. unfold hdr, stamp_tenancy. cbn [rq_Header with_header]. by read_headers.
Qed.

Lemma proxied_defined r :
  is_Some (forwarded r) <->
  rq_Method r <> MethodOptions /\
  exists a vid, auth r = Ok a /\ capped a = false /\ proxied_identity g a r = Ok vid.
Proof.
  unfold proxied, proxyAuthMiddleware. destruct (str_eqb (rq_Method r) MethodOptions) eqn:Em.
  - apply str_eqb_true in Em. split; [by intros []|]. by intros [? _].
  - apply str_eqb_false in Em. destruct (auth r) as [a|e].
    + destruct (capped a) eqn:Ec.
      * split; [by intros []|]. intros (_ & ? & ? & [= <-] & ? & _). congruence.
      * rewrite proxied_identity_token. destruct (proxied_identity g a r) as [vid|e] eqn:Ev.
        -- split; [|by eexists]. intros _. split; [done|]. by exists a, vid.
        -- split; [by intros []|]. intros (_ & ? & ? & [= <-] & _ & ?). congruence.
    + split; [by intros []|]. by intros (_ & ? & ? & ? & _).
Qed.

(** Non-interference of the client-asserted headers: with the trust gate off,
    two requests with one method, one answer of the authenticator and one per-user
    token are both refused at the gateway or both reach the orchestrator with the
    same read scope, whatever else their headers say. *)
Theorem gate_off_noninterference r1 r2 :
  shared_secret v secret now now' -> isCommunityMode orchenv = false -> trustIdentityHeaders getenv = false ->
  rq_Method r1 = rq_Method r2 -> auth r1 = auth r2 -> hdr r1 "X-User-Token" = hdr r2 "X-User-Token" ->
  scope_of <$> forwarded r1 = scope_of <$> forwarded r2.
Proof.
  intros Hs Hc Hg Hm Ha Ht.
  assert (Hid : forall a, proxied_identity g a r1 = proxied_identity g a r2).
  { intros a. unfold proxied_identity. by rewrite Ht. }
  destruct (forwarded r1) as [r1'|] eqn:E1; destruct (forwarded r2) as [r2'|] eqn:E2; cbn.
  - f_equal. destruct (proxied_scope r1 r1' Hs Hc E1) as (a1 & v1 & A1 & V1 & ->).
    destruct (proxied_scope r2 r2' Hs Hc E2) as (a2 & v2 & A2 & V2 & ->).
    rewrite proxied_identity_token in V1, V2. rewrite Ha, A2 in A1. inv A1. rewrite Hid, V2 in V1. inv V1.
    unfold proxied_email. by rewrite !trusted_gate_off.
  - exfalso. assert (H : is_Some (forwarded r1)) by (by eexists). apply proxied_defined in H as (H & a & vid & A & C & V).
    assert (H2 : is_Some (forwarded r2)); [|rewrite E2 in H2; by destruct H2].
    apply proxied_defined. rewrite <- Hm, <- Ha. split; [done|]. exists a, vid. by rewrite <- Hid.
  - exfalso. assert (H : is_Some (forwarded r2)) by (by eexists). apply proxied_defined in H as (H & a & vid & A & C & V).
    assert (H2 : is_Some (forwarded r1)); [|rewrite E1 in H2; by destruct H2].
    apply proxied_defined. rewrite Hm, Ha. split; [done|]. exists a, vid. by rewrite Hid.
  - done.
Qed.
End Authority.

(** * The router gates *)

Section Gates.
Context `{U : Unicode} (getenv : string -> string) (validator : option ServiceAuth.TokenValidator) (now : Z).

(** A path is exempt from authentication only where nothing else is gated. *)
Lemma exempt_not_gated p :
  str_in p orchestratorAuthExemptPaths = true ->
  isTenantWideAuditExportPath p = false /\ isDomainGovernancePath p = false.
Proof.
  rewrite str_in_true. intros Hp. unfold orchestratorAuthExemptPaths in Hp.
  repeat (apply elem_of_cons in Hp as [->|Hp]; [split; reflexivity|]). by apply not_elem_of_nil in Hp.
Qed.

Lemma token_check_None v r : validator = Some v -> token_check now v r = None <-> proxy_valid validator now r = true.
Proof.
  intros ->. unfold token_check, proxy_valid. destruct (str_eqb (proxy_token r) ""); cbn; [done|].
  by destruct (token_valid v now (proxy_token r)).
Qed.

(** The administrative routes are guarded: a request to a whole-tenant export
    or to a cost, usage or execution route, other than the budget check and a
    preflight, passes the orchestrator's gates exactly when it carries a valid
    service token and its caller has administrative authority. *)
Theorem admin_routes_guarded r :
  rq_Method r <> MethodOptions ->
  isTenantWideAuditExportRequest r = true \/ (isDomainGovernancePath (rq_Path r) = true /\ rq_Path r <> budgetCheckPath) ->
  (exists redact, orchestrator_gates getenv validator now r = Pass redact) <->
  proxy_valid validator now r = true /\ rs_AdminAuthority (resolveCallerReadScope getenv validator now r) = true.
Proof.
  intros Hm Hroute. apply str_eqb_false in Hm.
  assert (Hex : str_in (rq_Path r) orchestratorAuthExemptPaths = false).
  { destruct (str_in _ _) eqn:E; [|done]. apply exempt_not_gated in E as [E1 E2].
    unfold isTenantWideAuditExportRequest in Hroute. rewrite E1 in Hroute. destruct Hroute as [|[? _]]; [done | congruence]. }
  unfold orchestrator_gates, requireInternalProxyAuth. rewrite Hex. destruct validator as [v|] eqn:Ev.
  2: { split; [by intros []|]. intros [? _]. done. }
  rewrite <- Ev in *. pose proof (token_check_None v r Ev) as Ht.
  destruct (token_check now v r) as [msg|].
  { split; [by intros []|]. intros [H _]. by apply Ht in H. }
  assert (Hv : proxy_valid validator now r = true) by (by apply Ht).
  unfold enforceTenantWideAuditExport, enforceDomainReadAuthority. rewrite Hm. cbn [orb].
  destruct (rs_AdminAuthority (resolveCallerReadScope getenv validator now r)) eqn:Ea; cbn [negb].
  - split; [done|]. intros _. destruct (isTenantWideAuditExportRequest r); cbn [negb];
      destruct (isDomainGovernancePath (rq_Path r)); cbn [negb]; try destruct (str_eqb _ budgetCheckPath); by eexists.
  - split; [|by intros []]. intros [b Hb]. exfalso.
    destruct (isTenantWideAuditExportRequest r) eqn:E1; cbn [negb] in Hb; [discriminate|].
    destruct Hroute as [?|[Hd Hp]]; [discriminate|]. apply str_eqb_false in Hp. rewrite Hd, Hp in Hb. discriminate.
Qed.

(** The exemption of the approval poll is by suffix alone: it opens every route
    family that ends in it. *)
Lemma hitl_suffix_opens_budgets h :
  enforceDomainReadAuthority getenv validator now (mkHttp "DELETE" "/api/v1/budgets/hitl-status" h) = Pass false.
Proof. reflexivity. Qed.
End Gates.

(** * Sessions *)

Section Sessions.
Context `{U : Unicode} `{PT : UnicodePrint} (getenv : string -> string) (g : Registry)
  (auth : HttpRequest -> result AuthError AuthResult).

(** A session id alone is a credential: whatever the authenticator says of a
    request, one that carries the id of a live session and no Basic credentials,
    or the client's user name with any password, gets that session's tenant, user
    and role. *)
Theorem session_id_is_bearer now r m id s :
  hdr r mcpSessionHeaderKey = id -> id <> "" -> m !! id = Some s -> Sub now (ms_lastUsed s) <= mcpSessionTTL ->
  extractClientID r = "" \/ extractClientID r = ms_clientID s ->
  resolveMCPSession getenv g auth now r m = (Some (with_lastUsed now s), <[id := with_lastUsed now s]> m).
Proof.
  intros Hid Hne Hm Ht Hc. unfold resolveMCPSession. rewrite Hid.
  apply str_eqb_false in Hne. rewrite Hne, Hm. destruct (mcpSessionTTL <? _) eqn:E; [lia|].
  assert (Hok : negb (isCommunityMode getenv) && negb (str_eqb (extractClientID r) "")
                && negb (str_eqb (extractClientID r) (ms_clientID s)) = false); [|by rewrite Hok].
  destruct Hc as [->| ->]; rewrite str_eqb_refl; cbn [negb]; by rewrite ?andb_false_r.
Qed.

(** Deleting the session needs the credentials that using it does not. *)
Lemma delete_needs_credentials r m id s e :
  hdr r mcpSessionHeaderKey = id -> id <> "" -> m !! id = Some s -> isCommunityMode getenv = false ->
  auth r = Err e -> handleMCPSessionDelete getenv g auth r m = (401, m).
Proof.
  intros Hid Hne Hm Hc Ha. unfold handleMCPSessionDelete. apply str_eqb_false in Hne. rewrite Hid, Hne, Hm.
  unfold authenticateMCPSession. by rewrite Ha, Hc.
Qed.

(** ** The table is bounded *)

Lemma oldest_in m id : oldest_session m = Some id -> is_Some (m !! id).
Proof.
  unfold oldest_session. intros H. apply fmap_Some in H as ([id' t] & Hf & ->). cbn. revert Hf.
  apply (map_fold_weak_ind (fun best m => best = Some (id', t) -> is_Some (m !! id'))); [done|].
  intros i x m' best Hi IH. destruct best as [[j u]|].
  - destruct (ms_lastUsed x <? u).
    + intros [= -> _]. rewrite lookup_insert_eq. by eexists.
    + intros Hb. destruct (decide (i = id')) as [->|Hn]; [rewrite lookup_insert_eq; by eexists|].
      rewrite lookup_insert_ne by done. by apply IH.
  - intros [= -> _]. rewrite lookup_insert_eq. by eexists.
Qed.

Lemma oldest_None m : oldest_session m = None -> m = ∅.
Proof.
  unfold oldest_session. intros H. apply fmap_None in H. revert H.
  apply (map_fold_weak_ind (fun best m => best = None -> m = ∅)); [done|].
  intros i x m' [[j u]|] _ _; [by destruct (_ <? _) | done].
Qed.

Lemma evict_oldest_bound fuel m : (size m <= mcpMaxSessions + fuel)%nat -> (size (evict_oldest fuel m) <= mcpMaxSessions)%nat.
Proof.
  revert m. induction fuel as [|f IH]; intros m H; cbn [evict_oldest]; [lia|].
  destruct (mcpMaxSessions <? size m)%nat eqn:E; [|apply Nat.ltb_ge in E; lia].
  destruct (oldest_session m) as [id|] eqn:Eo.
  - apply IH. apply oldest_in in Eo. rewrite map_size_delete_Some by done. lia.
  - apply oldest_None in Eo as ->. rewrite map_size_empty. lia.
Qed.

(** After an initialisation the table holds at most one session more than the
    limit: the eviction runs before the new session is stored. *)
Lemma sessions_bounded now newID r m :
  (size (initialize_session getenv g auth now newID r m).2 <= Nat.max (size m) (S mcpMaxSessions))%nat.
Proof.
  unfold initialize_session. destruct (authenticateMCPSession getenv g auth r) as [s|e]; cbn [snd]; [|lia].
  assert (H : (size (evictStaleSessions now m) <= mcpMaxSessions)%nat).
  { unfold evictStaleSessions. apply evict_oldest_bound. lia. }
  rewrite map_size_insert. destruct (evictStaleSessions now m !! newID); unfold id; lia.
Qed.
End Sessions.

(** * Advice *)

Section Advice.
Context `{U : Unicode} `{PT : UnicodePrint} (getenv : string -> string) (g : Registry)
  (auth : HttpRequest -> result AuthError AuthResult).

(** The deployment with the trust gate turned on. *)
Definition gate_on (k : string) : string := if str_eqb k EnvVar then "true" else getenv k.

Lemma gate_on_mode : isCommunityMode gate_on = isCommunityMode getenv.
Proof. reflexivity. Qed.

Lemma gate_on_trusts : trustIdentityHeaders gate_on = true.
Proof. reflexivity. Qed.

Lemma bounded_trim s max : str_eqb s "" = true -> boundedAuditString s max = "".
Proof. by intros ->%str_eqb_true. Qed.

(** With the gate on the address of a request is what survives sanitization, or
    the client's pseudo-identity. *)
Lemma header_identity_on a r :
  (header_identity gate_on a r).1 =
  CanonicalEmail (if str_eqb (sanitized_identity r) "" then ClientPseudoIdentityPrefix +:+ au_ClientID a else sanitized_identity r).
Proof.
  assert (T : forall name max, trustedIdentityHeader gate_on r name max = boundedAuditString (TrimSpace (hdr r name)) max).
  { intros name max. unfold trustedIdentityHeader. rewrite gate_on_trusts. cbn [negb].
    destruct (str_eqb (TrimSpace (hdr r name)) "") eqn:E; [|done]. by rewrite bounded_trim. }
  unfold header_identity, sanitized_identity. rewrite !T. cbn [fst].
  destruct (str_eqb (boundedAuditString (TrimSpace (hdr r identityHeaderUserEmail)) maxAttributedEmailLen) "") eqn:E1;
    cbn [negb]; [|by rewrite E1].
  by destruct (str_eqb (boundedAuditString (TrimSpace (hdr r identityHeaderUserID)) maxAttributedUserIDLen) "").
Qed.

Lemma header_identity_off a r :
  trustIdentityHeaders getenv = false ->
  (header_identity getenv a r).1 = CanonicalEmail (ClientPseudoIdentityPrefix +:+ au_ClientID a).
Proof. intros H. unfold header_identity. by rewrite !trusted_gate_off. Qed.

Lemma header_identity_trusting a r :
  trustIdentityHeaders getenv = true -> header_identity getenv a r = header_identity gate_on a r.
Proof. intros H. unfold header_identity, trustedIdentityHeader. by rewrite H, gate_on_trusts. Qed.

Lemma sanitized_absent r : ii_headerPresented (captureMCPIdentityInputs getenv r) = false -> sanitized_identity r = "".
Proof.
  unfold captureMCPIdentityInputs, sanitized_identity. cbn [ii_headerPresented].
  rewrite orb_false_iff, !negb_false_iff. intros [E1 E2]. rewrite (bounded_trim _ _ E1). cbn. by apply bounded_trim.
Qed.

(** The cause named for a session whose identity came from headers. *)
Definition header_cause (r : HttpRequest) : refusal_cause :=
  let i := captureMCPIdentityInputs getenv r in
  refusal_cause_of (mkRefusal "" "" (ii_headerPresented i) (ii_presentedIsReserved i) (ii_presentedSurvivedSanitization i)
                      (ii_trustGateOn i) false false).

(** The refusal recommends the trust flag exactly where it helps: for a session
    that was refused an override because its identity, taken from headers, is
    shared, the message names the flag as the remedy if and only if the same
    request under the flag would resolve to an identity of its own. *)
Theorem flag_advice_exact a r :
  isClientSharedPseudoIdentity getenv (header_identity getenv a r).1 = true ->
  header_cause r = CauseGateDropped <-> isClientSharedPseudoIdentity gate_on (header_identity gate_on a r).1 = false.
Proof.
  intros Href. unfold header_cause, refusal_cause_of. cbn [rf_TokenResolvedIdentity rf_IdentityHeaderPresented
    rf_PresentedIdentityIsReserved rf_PresentedIdentitySurvivedSanitization rf_TrustGateOn].
  unfold isClientSharedPseudoIdentity in *. rewrite gate_on_mode.
  destruct (trustIdentityHeaders getenv) eqn:Eg.
  - rewrite header_identity_trusting in Href by done. rewrite Href.
    split; [|discriminate]. cbn [captureMCPIdentityInputs ii_trustGateOn]. rewrite Eg. cbn [negb].
    rewrite !andb_false_r. destruct (ii_headerPresented _ && ii_presentedIsReserved _); [discriminate|].
    destruct (_ && _); [discriminate|]. destruct (negb _ && true); discriminate.
  - rewrite header_identity_off in Href by done. rewrite header_identity_on.
    pose proof (sanitized_absent r) as Habs. revert Habs. unfold captureMCPIdentityInputs.
    cbn [ii_headerPresented ii_presentedIsReserved ii_presentedSurvivedSanitization ii_trustGateOn].
    rewrite Eg. cbn [negb]. set (presented := negb _ || negb _). unfold isClientSharedPseudoIdentity.
    destruct (str_eqb (sanitized_identity r) "") eqn:Es; cbn [negb andb]; intros Habs.
    + rewrite Href. split; [|discriminate]. destruct presented; cbn; discriminate.
    + destruct presented eqn:Ep; [|rewrite Habs in Es by done; discriminate]. cbn [andb].
      destruct (IsSharedSyntheticIdentity (CanonicalEmail (sanitized_identity r)) (isCommunityMode getenv)); cbn; done.
Qed.
End Advice.

(** * Witnesses *)

(** A deployment with one client, one registered validator that knows the token
    of an administrator, and requests that assert authority they do not have. *)
Module Demo.
#[export] Existing Instance ascii_unicode.
#[export] Existing Instance no_print.

Definition env (k : string) : string := "".
Definition client : Client := mkClient "acme" "acme" "Acme" "org-1" "tenant-1" [] 0 true "Enterprise" "".
Definition auth (r : HttpRequest) : result AuthError AuthResult := Ok (buildAuthResult AuthKindEnterprise client).
Definition admin : ValidatedIdentity := mkValidated "root@acme.com" "admin" "org-1" "j1" 0 "hs256" true.
Definition registry : Registry :=
  mkRegistry [mkValidator "hs256" (fun _ tok => if str_eqb tok "good" then (Some admin, None) else (None, Some ErrTokenInvalid))] ∅.
Definition validator : ServiceAuth.TokenValidator := NewTokenValidator "s3cret" 0.
Definition never (a : AuthResult) : bool := false.

Definition plain : HttpRequest := mkHttp "GET" "/api/v1/budgets" ∅.
Definition forged : HttpRequest :=
  mkHttp "GET" "/api/v1/budgets"
    (Header_Set HeaderUserRole "owner" (Header_Set HeaderReadScope "tenant" (Header_Set "X-User-Email" "root@acme.com"
      (Header_Set "X-Tenant-ID" "tenant-2" ∅)))).

Definition received (r : HttpRequest) : option HttpRequest := proxied env registry auth never (Some "s3cret") 1000 r.
Definition scope (r : HttpRequest) : callerReadScope := resolveCallerReadScope env (Some validator) 1000 r.
End Demo.
Import Demo.

Lemma demo_secret : shared_secret validator "s3cret" 1000 1000.
Proof. split; [done|]. unfold int64_max. split; [lia|]. split; [lia|]. vm_compute. discriminate. Qed.


(** The forged headers change nothing. *)
Lemma gate_off_noninterference_witness : scope <$> received forged = scope <$> received plain.
Proof.
  exact (gate_off_noninterference env env registry auth never validator "s3cret" 1000 1000 forged plain
    demo_secret eq_refl eq_refl eq_refl eq_refl eq_refl).
Defined.

Lemma admin_routes_guarded_witness :
  (exists redact, orchestrator_gates env (Some validator) 1000 plain = Pass redact) <->
  proxy_valid (Some validator) 1000 plain = true /\
  rs_AdminAuthority (resolveCallerReadScope env (Some validator) 1000 plain) = true.
Proof.
  apply (admin_routes_guarded env (Some validator) 1000 plain); [discriminate|].
  right. split; [reflexivity | discriminate].
Defined.

Definition a_session : mcpSession :=
  mkSession "axonflow-1" 0 0 "tenant-1" "org-1" "u" "alice@acme.com" "admin" "acme" "" "" AuthKindEnterprise
    (mkInputs false false false false true).

(** A request without credentials becomes the administrator of the session. *)
Lemma session_id_is_bearer_witness :
  let r := mkHttp "POST" "/mcp" (Header_Set mcpSessionHeaderKey "axonflow-1" ∅) in
  let refuse := fun _ : HttpRequest => Err (mkAuthError "missing_credentials" "" 401 "") in
  resolveMCPSession env registry refuse 5 r {[ "axonflow-1" := a_session ]} =
  (Some (with_lastUsed 5 a_session), <["axonflow-1" := with_lastUsed 5 a_session]> {[ "axonflow-1" := a_session ]}).
Proof.
  apply session_id_is_bearer; [reflexivity | discriminate | reflexivity | vm_compute; discriminate | by left].
Defined.

(** A usable address dropped by the gate. *)
Lemma flag_advice_exact_witness :
  let r := mkHttp "POST" "/mcp" (Header_Set "X-User-Email" "bob@acme.com" ∅) in
  header_cause env r = CauseGateDropped /\
  isClientSharedPseudoIdentity (gate_on env) (header_identity (gate_on env) (buildAuthResult AuthKindEnterprise client) r).1 = false.
Proof.
  cbv zeta. assert (H : header_cause env (mkHttp "POST" "/mcp" (Header_Set "X-User-Email" "bob@acme.com" ∅)) = CauseGateDropped)
    by reflexivity.
  split; [exact H|]. apply (flag_advice_exact env); [reflexivity | exact H].
Defined.
