(* ===== verification/DynTypes.v ===== *)
(** Data of the dynamic policies: the requests the orchestrator evaluates
    (src/platform/orchestrator/run.go), the policies, and the verdict
    (dynamic_policy_engine.go, run.go).

    A Go map is the list of its entries; a nil map is the empty one, which every
    reader of these types treats alike, and a [[]string] held in an interface is
    an array of strings.  Media, timestamps and processing times are not
    modelled. *)

From S2P Require Import Prelude GoFloat GoStrings PolicyTypes GoJSON GoFmt.

Local Open Scope Z_scope.

(** * Requests *)

Record UserContext := mkUser {
  u_ID : Z;
  u_Email : string;
  u_Role : string;
  u_Region : string;
  u_Permissions : list string;
  u_TenantID : string;
  u_OrgID : string;
}.

Record ClientContext := mkClient {
  cl_ID : string;
  cl_Name : string;
  cl_OrgID : string;
  cl_TenantID : string;
}.

Record OrchestratorRequest := mkRequest {
  or_RequestID : string;
  or_Query : string;
  or_RequestType : string;
  or_SkipLLM : bool;
  or_User : UserContext;
  or_Client : ClientContext;
  or_Context : list (string * value);
}.

(** * Policies *)

Record PolicyCondition := mkCondition { pc_Field : string; pc_Operator : string; pc_Value : value }.

Record PolicyAction := mkAction { pa_Type : string; pa_Config : list (string * value) }.

Record DynamicPolicy := mkDynamic {
  dp_ID : string;
  dp_Name : string;
  dp_Description : string;
  dp_Type : string;
  dp_Category : string;
  dp_Conditions : list PolicyCondition;
  dp_Actions : list PolicyAction;
  dp_Priority : Z;
  dp_Enabled : bool;
  dp_TenantID : string;
  dp_RiskLevel : string;
  dp_AllowOverride : bool;
}.

Definition IsOverridable (p : DynamicPolicy) : bool :=
  if str_eqb (dp_RiskLevel p) "critical" then false else dp_AllowOverride p.

(** * Verdicts *)

Record AppliedPolicyDetail := mkDetail {
  ad_PolicyID : string;
  ad_PolicyName : string;
  ad_Description : string;
  ad_Action : string;
  ad_RiskLevel : string;
  ad_AllowOverride : bool;
  ad_MatchedRule : string;
}.

(** The routing part of a verdict. *)
Record Routing := mkRouting {
  rt_PreferredProvider : string;
  rt_AllowedProviders : list string;
  rt_RoutingReason : string;
}.

Record PolicyEvaluationResult := mkVerdict {
  v_Allowed : bool;
  v_AppliedPolicies : list string;
  v_RiskScore : float64;
  v_Severity : string;
  v_SeverityPolicyID : string;
  v_RequiredActions : list string;
  v_DatabaseAccessed : bool;
  v_AppliedPoliciesDetail : list AppliedPolicyDetail;
  v_OverrideApplied : bool;
  v_OverrideID : string;
  v_OverrideReason : string;
  v_Routing : Routing;
}.

Definition no_routing : Routing := mkRouting "" [] "".

(** The verdict evaluation starts from. *)
Definition initial_verdict (db : bool) (risk : float64) : PolicyEvaluationResult :=
  mkVerdict true [] risk "" "" [] db [] false "" "" no_routing.

Definition set_denied (v : PolicyEvaluationResult) : PolicyEvaluationResult :=
  mkVerdict false (v_AppliedPolicies v) (v_RiskScore v) (v_Severity v) (v_SeverityPolicyID v) (v_RequiredActions v)
    (v_DatabaseAccessed v) (v_AppliedPoliciesDetail v) (v_OverrideApplied v) (v_OverrideID v) (v_OverrideReason v) (v_Routing v).
Definition add_required (l : list string) (v : PolicyEvaluationResult) : PolicyEvaluationResult :=
  mkVerdict (v_Allowed v) (v_AppliedPolicies v) (v_RiskScore v) (v_Severity v) (v_SeverityPolicyID v)
    (v_RequiredActions v ++ l) (v_DatabaseAccessed v) (v_AppliedPoliciesDetail v) (v_OverrideApplied v) (v_OverrideID v)
    (v_OverrideReason v) (v_Routing v).
Definition set_risk (r : float64) (v : PolicyEvaluationResult) : PolicyEvaluationResult :=
  mkVerdict (v_Allowed v) (v_AppliedPolicies v) r (v_Severity v) (v_SeverityPolicyID v) (v_RequiredActions v)
    (v_DatabaseAccessed v) (v_AppliedPoliciesDetail v) (v_OverrideApplied v) (v_OverrideID v) (v_OverrideReason v) (v_Routing v).
Definition set_severity (s pol : string) (v : PolicyEvaluationResult) : PolicyEvaluationResult :=
  mkVerdict (v_Allowed v) (v_AppliedPolicies v) (v_RiskScore v) s pol (v_RequiredActions v)
    (v_DatabaseAccessed v) (v_AppliedPoliciesDetail v) (v_OverrideApplied v) (v_OverrideID v) (v_OverrideReason v) (v_Routing v).
Definition set_routing (r : Routing) (v : PolicyEvaluationResult) : PolicyEvaluationResult :=
  mkVerdict (v_Allowed v) (v_AppliedPolicies v) (v_RiskScore v) (v_Severity v) (v_SeverityPolicyID v) (v_RequiredActions v)
    (v_DatabaseAccessed v) (v_AppliedPoliciesDetail v) (v_OverrideApplied v) (v_OverrideID v) (v_OverrideReason v) r.
Definition add_name (name : string) (v : PolicyEvaluationResult) : PolicyEvaluationResult :=
  mkVerdict (v_Allowed v) (v_AppliedPolicies v ++ [name]) (v_RiskScore v) (v_Severity v) (v_SeverityPolicyID v)
    (v_RequiredActions v) (v_DatabaseAccessed v) (v_AppliedPoliciesDetail v) (v_OverrideApplied v) (v_OverrideID v)
    (v_OverrideReason v) (v_Routing v).
Definition add_detail (d : AppliedPolicyDetail) (v : PolicyEvaluationResult) : PolicyEvaluationResult :=
  mkVerdict (v_Allowed v) (v_AppliedPolicies v) (v_RiskScore v) (v_Severity v) (v_SeverityPolicyID v) (v_RequiredActions v)
    (v_DatabaseAccessed v) (v_AppliedPoliciesDetail v ++ [d]) (v_OverrideApplied v) (v_OverrideID v) (v_OverrideReason v)
    (v_Routing v).
Definition apply_override (id reason : string) (v : PolicyEvaluationResult) : PolicyEvaluationResult :=
  mkVerdict true (v_AppliedPolicies v) (v_RiskScore v) (v_Severity v) (v_SeverityPolicyID v) (v_RequiredActions v)
    (v_DatabaseAccessed v) (v_AppliedPoliciesDetail v) true id reason (v_Routing v).

(** * Readers of configuration maps *)

(** [m[k].(string)], [m[k].(float64)] and [m[k].(map[string]interface{})] *)
Definition get_string (k : string) (m : list (string * value)) : option string :=
  match assoc_get k m with Some (VString s) => Some s | _ => None end.
Definition get_float (k : string) (m : list (string * value)) : option float64 :=
  match assoc_get k m with Some (VFloat f) => Some f | _ => None end.
Definition get_map (k : string) (m : list (string * value)) : option (list (string * value)) :=
  match assoc_get k m with Some (VObj o) => Some o | _ => None end.

(** [m[k]], nil when the key is absent. *)
Definition get_any (k : string) (m : list (string * value)) : value := default VNil (assoc_get k m).

(** The strings of an array, other elements skipped. *)
Definition strings_of (l : list value) : list string :=
  omap (fun v => match v with VString s => Some s | _ => None end) l.

(** * Severity *)

Definition severityOrdinal (s : string) : Z :=
  if str_eqb s "critical" then 3 else if str_eqb s "high" then 2
  else if str_eqb s "medium" then 1 else if str_eqb s "low" then 0 else -1.

Definition valid_severity (s : string) : bool :=
  str_eqb s "low" || str_eqb s "medium" || str_eqb s "high" || str_eqb s "critical".

(** The severity rule of [require_approval]: the highest valid severity is
    kept, and [pol] is who contributed it. *)
Definition raise_severity (severity : option string) (pol : PolicyEvaluationResult -> string)
    (v : PolicyEvaluationResult) : PolicyEvaluationResult :=
  match severity with
  | Some s =>
      if valid_severity s &&
         (str_eqb (v_Severity v) "" || (severityOrdinal (v_Severity v) <? severityOrdinal s))
      then set_severity s (pol v) v else v
  | None => v
  end.

Lemma raise_severity_allowed s f v : v_Allowed (raise_severity s f v) = v_Allowed v.
Proof. unfold raise_severity. destruct s; [|done]. by destruct (_ && _). Qed.

Lemma raise_severity_routing s f v : v_Routing (raise_severity s f v) = v_Routing v.
Proof. unfold raise_severity. destruct s; [|done]. by destruct (_ && _). Qed.

(** * Decoding stored conditions and actions *)

(** The columns are jsonb: their text has no repeated key. A JSON key selects
    the struct field it equals up to case; the names have no letter that folds
    outside ASCII. Numbers are converted in the members that are kept. *)
Definition field_is (name k : string) : bool := str_eqb (of_bytes (lower_byte <$> bytes k)) name.

(** A value decoded into an interface; [None] when a number is out of range. *)
Definition into_any (v : value) : option value :=
  let '(w, ok) := numbers_to_floats v in if ok then Some w else None.

(** A value decoded into a string field: null leaves it unchanged. *)
Definition into_string (old : string) (v : value) : option string :=
  match v with VString s => Some s | VNil => Some old | _ => None end.

(** One member into a condition; [None] is a type error. *)
Definition decode_condition_member (acc : option PolicyCondition) (e : string * value) : option PolicyCondition :=
  c ← acc;
  let '(k, v) := e in
  if field_is "field" k then s ← into_string (pc_Field c) v; Some (mkCondition s (pc_Operator c) (pc_Value c))
  else if field_is "operator" k then s ← into_string (pc_Operator c) v; Some (mkCondition (pc_Field c) s (pc_Value c))
  else if field_is "value" k then w ← into_any v; Some (mkCondition (pc_Field c) (pc_Operator c) w)
  else Some c.

Definition decode_action_member (acc : option PolicyAction) (e : string * value) : option PolicyAction :=
  a ← acc;
  let '(k, v) := e in
  if field_is "type" k then s ← into_string (pa_Type a) v; Some (mkAction s (pa_Config a))
  else if field_is "config" k then
    match v with
    | VObj _ => w ← into_any v; match w with VObj m => Some (mkAction (pa_Type a) m) | _ => None end
    | VNil => Some (mkAction (pa_Type a) [])
    | _ => None
    end
  else Some a.

(** [json.Unmarshal] into a slice of structs; [None] on any error. *)
Definition decode_slice {A} (zero : A) (member : option A -> string * value -> option A) (text : string)
  : option (list A) :=
  match json_decode text with
  | Some (VArr l) =>
      mapM (fun v => match v with
                     | VObj m => foldl member (Some zero) m
                     | VNil => Some zero
                     | _ => None
                     end) l
  | Some VNil => Some []
  | _ => None
  end.

Definition decode_conditions : string -> option (list PolicyCondition) :=
  decode_slice (mkCondition "" "" VNil) decode_condition_member.
Definition decode_actions : string -> option (list PolicyAction) :=
  decode_slice (mkAction "" []) decode_action_member.

Example decode_ex :
  decode_conditions (dq "[{'field':'risk_score','OPERATOR':'greater_than','value':0.8,'note':1e999}]")
  = Some [mkCondition "risk_score" "greater_than" (VFloat (f64_lit 8 10))].
Proof. vm_compute. reflexivity. Qed.
