(* ===== verification/DynPolicy.v ===== *)
(** The in-memory dynamic policy engine,
    src/platform/orchestrator/dynamic_policy_engine.go and policy_defaults.go:
    conditions, actions, risk score, verdict cache, tenant scoping and reload.

    The database is the list of rows its query returns, in order; whether a
    query fails is an input.  The engine's state is its policies, its verdict
    cache and whether it has a database. *)

From stdpp Require Import sorting.
From S2P Require Import Prelude GoFloat GoStrings GoStrconv Regexp PolicyTypes GoJSON GoFmt Sqli DynTypes.

Local Open Scope Z_scope.
Local Open Scope go_scope.

Section Engine.
Context `{U : Unicode} `{O : OpaqueFormat}.

(** * Field values *)

(** The text [fmt.Sprint] gives for the request's structs. *)
Definition user_text (u : UserContext) : string :=
  "{" +:+ join " " [Itoa (u_ID u); u_Email u; u_Role u; u_Region u; "[" +:+ join " " (u_Permissions u) +:+ "]";
                    u_TenantID u; u_OrgID u] +:+ "}".
Definition client_text (c : ClientContext) : string :=
  "{" +:+ join " " [cl_ID c; cl_Name c; cl_OrgID c; cl_TenantID c] +:+ "}".

(** A struct operand is represented by its text: every operator either prints
    its operand or rejects an operand that is not a number. *)
Definition getFieldValue (field : string) (req : OrchestratorRequest) (risk : float64) : value :=
  match Split field "." with
  | [] => VNil
  | p0 :: rest =>
      if str_eqb p0 "query" then VString (or_Query req)
      else if str_eqb p0 "request_type" then VString (or_RequestType req)
      else if str_eqb p0 "user" then
        let u := or_User req in
        match rest with
        | p1 :: _ =>
            if str_eqb p1 "role" then VString (u_Role u)
            else if str_eqb p1 "email" then VString (u_Email u)
            else if str_eqb p1 "region" then VString (u_Region u)
            else if str_eqb p1 "tenant_id" then VString (u_TenantID u)
            else if str_eqb p1 "permissions" then VArr (VString <$> u_Permissions u)
            else VString (user_text u)
        | [] => VString (user_text u)
        end
      else if str_eqb p0 "client" then
        let c := or_Client req in
        match rest with
        | p1 :: _ =>
            if str_eqb p1 "id" then VString (cl_ID c)
            else if str_eqb p1 "name" then VString (cl_Name c)
            else VString (client_text c)
        | [] => VString (client_text c)
        end
      else if str_eqb p0 "risk_score" then VFloat risk
      else if str_eqb p0 "context" then
        match rest with
        | _ :: _ => get_any (join "." rest) (or_Context req)
        | [] => VObj (or_Context req)
        end
      else if str_eqb p0 "step_input" || str_eqb p0 "tool_input" || str_eqb p0 "step" then
        match rest with
        | _ :: _ => get_any (join "." (p0 :: rest)) (or_Context req)
        | [] => VNil
        end
      else if str_eqb p0 "media" then
        match rest, get_map "media_analysis" (or_Context req) with
        | p1 :: _, Some analysis => get_any p1 analysis
        | _, _ => VNil
        end
      else VNil
  end.

(** * Operators *)

Definition toFloat64 (v : value) : option float64 :=
  match v with
  | VFloat f => Some f
  | VInt n => Some (f64_of_Z n)
  | _ => None
  end.

Definition compareNumeric (a b : value) (operator : string) : bool :=
  match toFloat64 a, toFloat64 b with
  | Some x, Some y =>
      if str_eqb operator ">" then f64_ltb y x
      else if str_eqb operator "<" then f64_ltb x y
      else if str_eqb operator ">=" then f64_leb y x
      else if str_eqb operator "<=" then f64_leb x y
      else false
  | _, _ => false
  end.

Definition matchRegex (text pattern : string) : bool :=
  match Compile pattern with Some re => MatchString re text | None => false end.

Definition contains (slice item : value) : bool :=
  match slice with
  | VArr l => existsb (fun v => str_eqb (Sprint v) (Sprint item)) l
  | _ => false
  end.

Definition evaluateCondition (c : PolicyCondition) (req : OrchestratorRequest) (risk : float64) : bool :=
  let fieldValue := getFieldValue (pc_Field c) req risk in
  let v := pc_Value c in
  let op := pc_Operator c in
  if str_eqb op "contains" then Contains (ToLower (Sprint fieldValue)) (ToLower (Sprint v))
  else if str_eqb op "equals" then str_eqb (Sprint fieldValue) (Sprint v)
  else if str_eqb op "not_equals" then negb (str_eqb (Sprint fieldValue) (Sprint v))
  else if str_eqb op "greater_than" then compareNumeric fieldValue v ">"
  else if str_eqb op "less_than" then compareNumeric fieldValue v "<"
  else if str_eqb op "regex" then matchRegex (Sprint fieldValue) (Sprint v)
  else if str_eqb op "in" then contains v fieldValue
  else false.

Definition evaluatePolicy (p : DynamicPolicy) (req : OrchestratorRequest) (v : PolicyEvaluationResult) : bool :=
  forallb (fun c => evaluateCondition c req (v_RiskScore v)) (dp_Conditions p).

(** * Actions *)

Definition str_list (o : option string) (pre : string) : list string :=
  match o with Some s => [pre +:+ s] | None => [] end.

(** The routing override of an action. *)
Definition apply_route (cfg : list (string * value)) (r : Routing) : Routing :=
  let preferred := match get_string "preferred_provider" cfg with
                   | Some p => if str_eqb p "" then rt_PreferredProvider r else p
                   | None => rt_PreferredProvider r
                   end in
  let reason := default (rt_RoutingReason r) (get_string "reason" cfg) in
  let allowed := rt_AllowedProviders r ++
                 match assoc_get "allowed_providers" cfg with
                 | Some (VArr l) => strings_of l
                 | _ => []
                 end in
  let allowed :=
    match allowed with
    | [] => (if str_eqb preferred "" then [] else [preferred]) ++
            match get_string "fallback_provider" cfg with
            | Some f => if str_eqb f "" then [] else [f]
            | None => []
            end
    | _ => allowed
    end in
  mkRouting preferred allowed reason.

Definition applyPolicyAction (a : PolicyAction) (v : PolicyEvaluationResult) : PolicyEvaluationResult :=
  let cfg := pa_Config a in
  let ty := pa_Type a in
  if str_eqb ty "block" then add_required (str_list (get_string "reason" cfg) "blocked: ") (set_denied v)
  else if str_eqb ty "redact" then add_required ["redact: " +:+ Sprint (get_any "fields" cfg)] v
  else if str_eqb ty "modify_risk" then
    match get_float "modifier" cfg with
    | Some f => set_risk (f64_mul (v_RiskScore v) f) v
    | None => v
    end
  else if str_eqb ty "route" then set_routing (apply_route cfg (v_Routing v)) v
  else if str_eqb ty "require_approval" then
    raise_severity (get_string "severity" cfg) v_SeverityPolicyID
      (add_required ("require_approval" :: str_list (get_string "reason" cfg) "approval_reason: ") (set_denied v))
  else v.

(** * Risk score *)

Definition knownRoles : list string := ["admin"; "owner"; "policy_admin"; "developer"; "viewer"].
Definition NormalizeRole (role : string) : string := if str_in role knownRoles then role else "".
Definition RoleIsAdministrative (role : string) : bool :=
  let r := NormalizeRole role in str_eqb r "admin" || str_eqb r "owner".

Record RiskCalculator := mkRisk {
  rc_sqliScanner : Scanner;
  rc_sensitivePatterns : list regex;
  rc_riskWeights : list (string * float64);
}.

Definition NewRiskCalculator : RiskCalculator :=
  mkRisk (basic_scanner (NewBasicScanner []))
    [MustCompile "(?i)(password|secret|key|token)"]
    [("sql_injection", f64_lit 9 10); ("sensitive_data", f64_lit 7 10); ("large_result_set", f64_lit 3 10);
     ("admin_query", f64_lit 5 10)].

Definition weight (r : RiskCalculator) (k : string) : float64 := default f64_zero (assoc_get k (rc_riskWeights r)).

Definition CalculateRiskScore (r : RiskCalculator) (req : OrchestratorRequest) : float64 :=
  let score := f64_zero in
  let score := if Detected (Scan (rc_sqliScanner r) false (or_Query req) ScanTypeInput)
               then f64_add score (weight r "sql_injection") else score in
  let score := foldl (fun s p => if MatchString p (or_Query req) then f64_add s (weight r "sensitive_data") else s)
                 score (rc_sensitivePatterns r) in
  let score := if RoleIsAdministrative (u_Role (or_User req)) then f64_add score (weight r "admin_query") else score in
  let score := if Contains (ToLower (or_Query req)) "select *" then f64_add score (weight r "large_result_set") else score in
  if f64_ltb f64_one score then f64_one else score.

(** * Tenancy *)

Definition effectiveTenantID (req : OrchestratorRequest) : string :=
  if str_eqb (u_TenantID (or_User req)) "" then cl_ID (or_Client req) else u_TenantID (or_User req).

Definition memPolicyAppliesToTenant (policyTenant callerTenant : string) : bool :=
  str_eqb policyTenant "" || str_eqb policyTenant callerTenant.

(** * The verdict cache *)

(** [verdictCacheKey]: OrgID, TenantID, Request. *)
Definition verdictCacheKey : Type := string * string * string.

(** ["%d:%s|"] *)
Definition key_part (part : string) : string := Itoa (Z.of_nat (len part)) +:+ ":" +:+ part +:+ "|".

(** ["%d:%s=%d:%s,"] *)
Definition key_entry (k v : string) : string :=
  Itoa (Z.of_nat (len k)) +:+ ":" +:+ k +:+ "=" +:+ Itoa (Z.of_nat (len v)) +:+ ":" +:+ v +:+ ",".

(** The byte 0x1f. *)
Definition unit_sep : string := of_bytes [31].

Definition request_parts (req : OrchestratorRequest) : list string :=
  [u_Email (or_User req); u_Role (or_User req); u_Region (or_User req); u_TenantID (or_User req);
   Itoa (u_ID (or_User req)); join unit_sep (u_Permissions (or_User req));
   cl_ID (or_Client req); cl_Name (or_Client req); cl_OrgID (or_Client req); cl_TenantID (or_Client req);
   or_RequestType req; or_Query req].

Definition sorted_context (m : list (string * value)) : list (string * value) :=
  SliceStable (fun a b => str_before a.1 b.1) m.

Definition request_text (req : OrchestratorRequest) : string :=
  join "" (key_part <$> request_parts req) +:+
  join "" ((fun e => key_entry e.1 (Sprint e.2)) <$> sorted_context (or_Context req)).

Definition generateCacheKey (req : OrchestratorRequest) : verdictCacheKey :=
  (u_OrgID (or_User req), effectiveTenantID req, request_text req).

(** Verdicts are copied on the way in and out, hence values. *)
Definition PolicyCache := gmap verdictCacheKey PolicyEvaluationResult.

Definition cache_Get (c : PolicyCache) (key : verdictCacheKey) : option PolicyEvaluationResult := c !! key.
Definition cache_Set (c : PolicyCache) (key : verdictCacheKey) (v : PolicyEvaluationResult) : PolicyCache := <[key := v]> c.

(** A tick of [cleanupRoutine]. *)
Definition cache_cleanup (c : PolicyCache) : PolicyCache := ∅.

(** * The engine *)

Record DynamicPolicyEngine := mkEngine {
  e_policies : list DynamicPolicy;
  e_riskCalculator : RiskCalculator;
  e_cache : PolicyCache;
  e_dbAvailable : bool;
}.

Definition getApplicablePolicies (e : DynamicPolicyEngine) (req : OrchestratorRequest) : list DynamicPolicy :=
  List.filter (fun p => dp_Enabled p && memPolicyAppliesToTenant (dp_TenantID p) (effectiveTenantID req)) (e_policies e).

Definition getTenantSpecificPolicies (e : DynamicPolicyEngine) (tenantID : string) : list DynamicPolicy :=
  if e_dbAvailable e then List.filter (fun p => str_eqb (dp_TenantID p) tenantID) (e_policies e) else [].

Definition ListActivePolicies (e : DynamicPolicyEngine) : list DynamicPolicy := List.filter dp_Enabled (e_policies e).

Definition ListActivePoliciesForTenant (e : DynamicPolicyEngine) (tenantID : string) : list DynamicPolicy :=
  List.filter (fun p => dp_Enabled p && memPolicyAppliesToTenant (dp_TenantID p) tenantID) (e_policies e).

Definition IsHealthy (e : DynamicPolicyEngine) : bool := match e_policies e with [] => false | _ => true end.

Definition detail_of (p : DynamicPolicy) : AppliedPolicyDetail :=
  mkDetail (dp_ID p) (dp_Name p) (dp_Description p)
    (match dp_Actions p with a :: _ => pa_Type a | [] => "log_only" end)
    (if str_eqb (dp_RiskLevel p) "" then "medium" else dp_RiskLevel p) (IsOverridable p) "".

(** A row written to policy_metrics: policy, scope, block count. *)
Record PolicyHit := mkHit { ph_policy : string; ph_scope : string; ph_block : Z }.

Definition logPolicyHit (e : DynamicPolicyEngine) (orgID policyID : string) (allowed : bool) : list PolicyHit :=
  if e_dbAvailable e
  then [mkHit policyID (if str_eqb orgID "" then "system" else orgID) (if allowed then 0 else 1)] else [].

(** One policy of the evaluation loop. *)
Definition evaluate_one (e : DynamicPolicyEngine) (req : OrchestratorRequest)
    (acc : PolicyEvaluationResult * list PolicyHit) (p : DynamicPolicy) : PolicyEvaluationResult * list PolicyHit :=
  let '(v, hits) := acc in
  if evaluatePolicy p req v then
    let v := add_detail (detail_of p) (add_name (dp_Name p) v) in
    let v := foldl (fun v a => applyPolicyAction a v) v (dp_Actions p) in
    (v, hits ++ logPolicyHit e (u_TenantID (or_User req)) (dp_ID p) (v_Allowed v))
  else acc.

(** The verdict a cache miss computes. *)
Definition compute_verdict (e : DynamicPolicyEngine) (req : OrchestratorRequest) : PolicyEvaluationResult * list PolicyHit :=
  foldl (evaluate_one e req) (initial_verdict false (CalculateRiskScore (e_riskCalculator e) req), [])
    (getApplicablePolicies e req).

Definition with_cache (e : DynamicPolicyEngine) (c : PolicyCache) : DynamicPolicyEngine :=
  mkEngine (e_policies e) (e_riskCalculator e) c (e_dbAvailable e).

Definition EvaluateDynamicPolicies (e : DynamicPolicyEngine) (req : OrchestratorRequest)
  : PolicyEvaluationResult * DynamicPolicyEngine * list PolicyHit :=
  let key := generateCacheKey req in
  match cache_Get (e_cache e) key with
  | Some v => (v, e, [])
  | None =>
      let '(v, hits) := compute_verdict e req in
      (v, with_cache e (cache_Set (e_cache e) key v), hits)
  end.
End Engine.

(** * Defaults *)

Definition vstrs (l : list string) : value := VArr (VString <$> l).

Definition default_policy (id name desc ty : string) (prio : Z) (conds : list PolicyCondition) (acts : list PolicyAction)
  : DynamicPolicy :=
  mkDynamic id name desc ty "" conds acts prio true "" "" false.

(** Risk, sensitive, medical and financial data. *)
Definition default_data_policies : list DynamicPolicy := [
  default_policy "pol_high_risk_block" "Block High-Risk Queries" "Block queries with risk score above threshold"
    "risk" 100
    [mkCondition "risk_score" "greater_than" (VFloat (f64_lit 8 10))]
    [mkAction "block" [("reason", VString "Query risk score exceeds safety threshold")];
     mkAction "alert" [("severity", VString "high"); ("channel", VString "security")]];
  default_policy "pol_sensitive_data_control" "Control Sensitive Data Access"
    "Restrict access to sensitive data based on user role" "content" 90
    [mkCondition "query" "contains" (VString "salary"); mkCondition "user.role" "not_equals" (VString "admin")]
    [mkAction "redact" [("fields", vstrs ["salary"; "compensation"]); ("pattern", VString "[REDACTED]")];
     mkAction "log" [("level", VString "warning"); ("message", VString "Non-admin attempted to access salary data")]];
  default_policy "pol_hipaa_compliance" "HIPAA Compliance for Medical Data"
    "Ensure medical data access complies with HIPAA" "content" 95
    [mkCondition "query" "regex" (VString "(?i)(patient|medical|diagnosis|treatment)");
     mkCondition "context.industry" "equals" (VString "healthcare")]
    [mkAction "log" [("audit_type", VString "hipaa_access"); ("retention", VString "7_years")];
     mkAction "redact" [("fields", vstrs ["ssn"; "patient_id"; "diagnosis_details"]);
                        ("unless_permission", VString "view_phi")]];
  default_policy "pol_financial_data_protection" "Financial Data Protection"
    "Protect financial data according to SOX compliance" "content" 85
    [mkCondition "query" "regex" (VString "(?i)(account_number|routing_number|credit_card)")]
    [mkAction "redact" [("fields", vstrs ["account_number"; "routing_number"; "credit_card"]);
                        ("pattern", VString "****[LAST4]")];
     mkAction "log" [("audit_type", VString "financial_access"); ("compliance", VString "sox")]]].

(** Cost, privacy, anomalies and tenant isolation. *)
Definition default_usage_policies : list DynamicPolicy := [
  default_policy "pol_expensive_query_limit" "Limit Expensive Query Access"
    "Restrict access to computationally expensive queries" "cost" 70
    [mkCondition "query" "contains" (VString "JOIN"); mkCondition "user.role" "equals" (VString "evaluation")]
    [mkAction "modify_risk" [("modifier", VFloat (f64_lit 15 10))];
     mkAction "log" [("message", VString "Basic user executing expensive query")]];
  default_policy "pol_gdpr_compliance" "GDPR Compliance for EU Users" "Ensure GDPR compliance for EU region users"
    "user" 88
    [mkCondition "context.user_region" "in" (vstrs ["eu"; "europe"]);
     mkCondition "query" "regex" (VString "(?i)(email|phone|address|name)")]
    [mkAction "log" [("audit_type", VString "gdpr_access"); ("retention", VString "3_years")];
     mkAction "redact" [("consent_required", VBool true); ("fields", vstrs ["email"; "phone"; "address"])]];
  default_policy "pol_anomaly_detection" "Detect Anomalous Access Patterns" "Flag unusual query patterns for review"
    "user" 60
    [mkCondition "context.query_count_last_hour" "greater_than" (VInt 100)]
    [mkAction "alert" [("severity", VString "medium"); ("message", VString "Unusual query volume detected")];
     mkAction "modify_risk" [("modifier", VFloat (f64_lit 13 10))]];
  default_policy "pol_tenant_isolation" "Enforce Tenant Isolation" "Prevent cross-tenant data access" "user" 100
    [mkCondition "query" "regex" (VString "tenant_id\s*=\s*'[^']*'");
     mkCondition "query" "not_contains" (VString "user.tenant_id")]
    [mkAction "block" [("reason", VString "Cross-tenant access attempt detected")];
     mkAction "alert" [("severity", VString "critical"); ("channel", VString "security")]]].

(** Provider selection and debugging. *)
Definition default_mode_policies : list DynamicPolicy := [
  default_policy "pol_llm_cost_optimization" "Optimize LLM Provider Selection"
    "Route queries to cost-effective providers when appropriate" "cost" 50
    [mkCondition "request_type" "equals" (VString "simple_query");
     mkCondition "risk_score" "less_than" (VFloat (f64_lit 3 10))]
    [mkAction "route" [("preferred_provider", VString "local_llm"); ("fallback_provider", VString "openai")]];
  default_policy "pol_debug_mode_restriction" "Restrict Debug Mode Access" "Limit debug mode to development environments"
    "content" 80
    [mkCondition "context.debug_mode" "equals" (VBool true);
     mkCondition "context.environment" "not_equals" (VString "development")]
    [mkAction "block" [("reason", VString "Debug mode not allowed in production")]]].

Definition loadDefaultDynamicPolicies : list DynamicPolicy :=
  default_data_policies ++ default_usage_policies ++ default_mode_policies.

(** * Loading *)

(** A row of dynamic_policies; nullable columns are options. *)
Record PolicyDbRow := mkPolicyRow {
  dr_id : string;
  dr_policy_id : string;
  dr_name : string;
  dr_description : option string;
  dr_policy_type : string;
  dr_category : option string;
  dr_conditions : string;
  dr_actions : string;
  dr_priority : option Z;
  dr_enabled : option bool;
  dr_tenant_id : option string;
  dr_risk_level : option string;
  dr_allow_override : option bool;
  dr_created_at : Z;
}.

(** [ORDER BY priority DESC, created_at DESC]: a null priority comes first. *)
Definition row_before (a b : PolicyDbRow) : bool :=
  match dr_priority a, dr_priority b with
  | None, Some _ => true
  | Some _, None => false
  | Some p, Some q => (q <? p) || ((p =? q) && (dr_created_at b <? dr_created_at a))
  | None, None => dr_created_at b <? dr_created_at a
  end.

Definition select_policies (table : list PolicyDbRow) : list PolicyDbRow :=
  SliceStable row_before (List.filter (fun r => default false (dr_enabled r)) table).

(** One scanned row; a null column scanned into a string or an int, or
    conditions or actions that do not decode, skip the row. *)
Definition scan_row (r : PolicyDbRow) : option DynamicPolicy :=
  desc ← dr_description r;
  prio ← dr_priority r;
  conds ← decode_conditions (dr_conditions r);
  acts ← decode_actions (dr_actions r);
  Some (mkDynamic (if str_eqb (dr_policy_id r) "" then dr_id r else dr_policy_id r) (dr_name r) desc
          (dr_policy_type r) (default "" (dr_category r)) conds acts prio true (default "" (dr_tenant_id r)) "" false).

(** [loadPoliciesFromDB]; [fault] is a failed query or iteration. *)
Definition loadPoliciesFromDB (e : DynamicPolicyEngine) (table : list PolicyDbRow) (fault : bool)
  : result string DynamicPolicyEngine :=
  if negb (e_dbAvailable e) then Err "database not available"
  else if fault then Err "failed to query dynamic policies"
  else Ok (mkEngine (omap scan_row (select_policies table) ++ loadDefaultDynamicPolicies)
             (e_riskCalculator e) (e_cache e) (e_dbAvailable e)).

Definition RefreshPolicies := loadPoliciesFromDB.

(** One tick of [reloadPoliciesRoutine]: an error keeps the policies. *)
Definition reload_tick (e : DynamicPolicyEngine) (table : list PolicyDbRow) (fault : bool) : DynamicPolicyEngine :=
  if e_dbAvailable e then match loadPoliciesFromDB e table fault with Ok e' => e' | Err _ => e end else e.

(** [NewDynamicPolicyEngine], with the database when a connection opened. *)
Definition NewDynamicPolicyEngine (db : option (list PolicyDbRow * bool)) : DynamicPolicyEngine :=
  let e := mkEngine loadDefaultDynamicPolicies NewRiskCalculator ∅ (match db with Some _ => true | None => false end) in
  match db with Some (table, fault) => reload_tick e table fault | None => e end.

(** Properties of the in-memory dynamic policy engine: when it denies, the
    verdict cache, tenant scoping and the risk score. *)

(** * Denials *)

Section Denials.
Context `{U : Unicode} `{O : OpaqueFormat}.

(** The actions that deny a request. *)
Definition denies (a : PolicyAction) : bool := str_eqb (pa_Type a) "block" || str_eqb (pa_Type a) "require_approval".

Lemma applyPolicyAction_allowed a v : v_Allowed (applyPolicyAction a v) = v_Allowed v && negb (denies a).
Proof.
  unfold applyPolicyAction, denies.
  destruct (str_eqb (pa_Type a) "block") eqn:E1; [cbn; by rewrite andb_false_r|].
  destruct (str_eqb (pa_Type a) "require_approval") eqn:E2.
  - apply str_eqb_true in E2. rewrite E2. cbn [str_eqb bool_decide decide_rel].
    change (str_eqb "require_approval" "redact") with false. change (str_eqb "require_approval" "modify_risk") with false.
    change (str_eqb "require_approval" "route") with false. cbn iota.
    rewrite raise_severity_allowed. cbn. by rewrite andb_false_r.
  - cbn [orb negb]. rewrite andb_true_r. repeat destruct (str_eqb (pa_Type a) _); try done.
    by destruct (get_float _ _).
Qed.

Lemma actions_allowed acts v :
  v_Allowed (foldl (fun v a => applyPolicyAction a v) v acts) = v_Allowed v && negb (existsb denies acts).
Proof.
  revert v. induction acts as [|a acts IH]; intros v; cbn [foldl existsb]; [by rewrite andb_true_r|].
  rewrite IH, applyPolicyAction_allowed, negb_orb. by rewrite andb_assoc.
Qed.

Lemma evaluate_one_allowed e req acc p :
  v_Allowed (evaluate_one e req acc p).1
  = v_Allowed acc.1 && negb (evaluatePolicy p req acc.1 && existsb denies (dp_Actions p)).
Proof.
  destruct acc as [v hits]. unfold evaluate_one. cbn [fst].
  destruct (evaluatePolicy p req v); cbn [andb negb]; [|by rewrite andb_true_r].
  cbn [fst]. by rewrite actions_allowed.
Qed.

(** The verdict after the policies [l]. *)
Definition verdict_after (e : DynamicPolicyEngine) (req : OrchestratorRequest) (l : list DynamicPolicy)
  : PolicyEvaluationResult :=
  (foldl (evaluate_one e req) (initial_verdict false (CalculateRiskScore (e_riskCalculator e) req), []) l).1.

(** a request is denied exactly when some enabled policy of its tenant, or
    of no tenant, meets all its conditions at its place in the evaluation
    order, and has a [block] or [require_approval] action. *)
Theorem mem_denied_iff e req :
  v_Allowed (compute_verdict e req).1 = false <->
  exists l1 p l2, getApplicablePolicies e req = l1 ++ p :: l2 /\
    evaluatePolicy p req (verdict_after e req l1) = true /\ existsb denies (dp_Actions p) = true.
Proof.
  unfold compute_verdict. fold (verdict_after e req (getApplicablePolicies e req)).
  induction (getApplicablePolicies e req) as [|p l IH] using rev_ind.
  - split; [done|]. intros (l1 & p & l2 & H & _). by destruct l1.
  - unfold verdict_after. rewrite foldl_app. cbn [foldl]. rewrite evaluate_one_allowed.
    fold (verdict_after e req l). split.
    + intros [H|H]%andb_false_iff.
      * apply IH in H as (l1 & q & l2 & -> & ?). exists l1, q, (l2 ++ [p]). by rewrite <- app_assoc.
      * apply negb_false_iff, andb_true_iff in H. by exists l, p, [].
    + intros (l1 & q & l2 & Hl & Hm & Hd). apply andb_false_iff.
      destruct l2 as [|x l2 _] using rev_ind.
      * apply app_inj_tail in Hl as [-> ->]. right. apply negb_false_iff, andb_true_iff. split; [exact Hm|exact Hd].
      * rewrite app_comm_cons, app_assoc in Hl. apply app_inj_tail in Hl as [-> ->]. left. apply IH.
        by exists l1, q, l2.
Qed.

(** * Tenants *)

(** What a tenant can list is what is enforced for its requests. *)
Lemma listed_is_enforced e req :
  ListActivePoliciesForTenant e (effectiveTenantID req) = getApplicablePolicies e req.
Proof. done. Qed.

(** Policies of other tenants have no influence on a verdict: removing them
    from the engine, or adding any, leaves it unchanged. *)
Theorem mem_tenant_isolation e e' req :
  e_riskCalculator e = e_riskCalculator e' -> e_dbAvailable e = e_dbAvailable e' ->
  ListActivePoliciesForTenant e (effectiveTenantID req) = ListActivePoliciesForTenant e' (effectiveTenantID req) ->
  compute_verdict e req = compute_verdict e' req.
Proof.
  intros Hr Hd Hl. unfold compute_verdict. rewrite <- !listed_is_enforced, Hl, Hr. f_equal.
  unfold evaluate_one, logPolicyHit. by rewrite Hd.
Qed.
End Denials.

(** * The cache key *)

Section CacheKey.
Context `{U : Unicode} `{O : OpaqueFormat}.

Definition short (s : string) : Prop := Z.of_nat (len s) <= int64_max.

Lemma key_part_inj a b (r r' : list Z) :
  short a -> short b -> bytes (key_part a) ++ r = bytes (key_part b) ++ r' -> a = b /\ r = r'.
Proof.
  unfold short, key_part. intros Ha Hb. rewrite !bytes_app, <- !app_assoc, <- !length_bytes in *.
  change (bytes ":") with [58]. change (bytes "|") with [124]. cbn [app].
  intros H. apply len_prefix_inj in H as [H1 H2]; [|done..]. apply bytes_inj in H1. by simplify_eq.
Qed.

Lemma bytes_join_cons x l : bytes (join "" (x :: l)) = bytes x ++ bytes (join "" l).
Proof. destruct l as [|y l]; [by rewrite app_nil_r|]. cbn [join]. by rewrite !bytes_app. Qed.

Lemma key_parts_inj l l' r r' :
  length l = length l' -> Forall short l -> Forall short l' ->
  bytes (join "" (key_part <$> l)) ++ r = bytes (join "" (key_part <$> l')) ++ r' -> l = l' /\ r = r'.
Proof.
  revert l'. induction l as [|x l IH]; intros [|x' l'] Hl; try done.
  intros [Hx Hs]%Forall_cons [Hx' Hs']%Forall_cons. cbn [fmap list_fmap].
  rewrite !bytes_join_cons, <- !app_assoc.
  intros H. apply key_part_inj in H as [-> H]; [|done..]. apply IH in H as [-> ->]; [done|cbn in Hl; lia|done..].
Qed.

Lemma key_entry_inj k v k' v' (r r' : list Z) :
  short k -> short v -> short k' -> short v' ->
  bytes (key_entry k v) ++ r = bytes (key_entry k' v') ++ r' -> (k, v) = (k', v') /\ r = r'.
Proof.
  unfold short, key_entry. intros Hk Hv Hk' Hv'. rewrite !bytes_app, <- !app_assoc, <- !length_bytes in *.
  change (bytes ":") with [58]. change (bytes "=") with [61]. change (bytes ",") with [44]. cbn [app].
  intros H. apply len_prefix_inj in H as [H1 H2]; [|done..]. apply bytes_inj in H1. simplify_eq.
  apply len_prefix_inj in H2 as [H1 H2]; [|done..]. apply bytes_inj in H1. by simplify_eq.
Qed.

Lemma key_entry_nonempty k v (r : list Z) : bytes (key_entry k v) ++ r <> [].
Proof.
  intros H. apply (f_equal length) in H. unfold key_entry in H. rewrite !bytes_app, !length_app in H.
  change (length (bytes ",")) with 1%nat in H. cbn in H. lia.
Qed.

Definition short_entry (e : string * string) : Prop := short e.1 /\ short e.2.

Lemma key_entries_inj l l' :
  Forall short_entry l -> Forall short_entry l' ->
  bytes (join "" ((fun e => key_entry e.1 e.2) <$> l)) = bytes (join "" ((fun e => key_entry e.1 e.2) <$> l')) -> l = l'.
Proof.
  revert l'. induction l as [|[k v] l IH]; intros [|[k' v'] l']; try done.
  - intros _ _. cbn [fmap list_fmap]. rewrite bytes_join_cons. intros H. symmetry in H. by apply key_entry_nonempty in H.
  - intros _ _. cbn [fmap list_fmap]. rewrite bytes_join_cons. intros H. by apply key_entry_nonempty in H.
  - intros [[? ?] Hl]%Forall_cons [[? ?] Hl']%Forall_cons. cbn [fmap list_fmap]. rewrite !bytes_join_cons.
    intros HE. apply key_entry_inj in HE as [HK HE]; [|done..]. cbn in HK. injection HK as -> ->.
    f_equal. by apply IH.
Qed.

(** The printed context, in key order. *)
Definition printed_context (req : OrchestratorRequest) : list (string * string) :=
  (fun e => (e.1, Sprint e.2)) <$> sorted_context (or_Context req).

(** The lengths the key encodes are those of Go strings, below [2^63]. *)
Definition short_request (req : OrchestratorRequest) : Prop :=
  Forall short (request_parts req) /\ Forall short_entry (printed_context req).

(** The cache key separates requests: two requests with one key have the same
    tenancy, the same user, client, request type and query, and contexts with
    the same keys and printed values. *)
Lemma cache_key_facts r1 r2 :
  short_request r1 -> short_request r2 -> generateCacheKey r1 = generateCacheKey r2 ->
  u_OrgID (or_User r1) = u_OrgID (or_User r2) /\ effectiveTenantID r1 = effectiveTenantID r2 /\
  request_parts r1 = request_parts r2 /\ printed_context r1 = printed_context r2.
Proof.
  intros [Hp1 Hc1] [Hp2 Hc2]. unfold generateCacheKey. intros H.
  assert (HT : request_text r1 = request_text r2) by congruence.
  split; [congruence|]. split; [congruence|].
  apply (f_equal bytes) in HT. unfold request_text in HT. rewrite !bytes_app in HT.
  apply key_parts_inj in HT as [? HT]; [|done..]. split; [done|].
  apply key_entries_inj; [done..|]. unfold printed_context. rewrite <- !list_fmap_compose. exact HT.
Qed.

End CacheKey.

(** * The cache is transparent for textual contexts *)

Section Transparent.
Context `{U : Unicode} `{O : OpaqueFormat}.

(** Permissions are non-empty and free of the separator, context keys are
    distinct, and context values are strings. *)
Definition textual (req : OrchestratorRequest) : Prop :=
  Forall (fun p => p <> "" /\ 31 ∉ bytes p) (u_Permissions (or_User req)) /\
  NoDup (or_Context req).*1 /\ Forall (fun e => exists s, e.2 = VString s) (or_Context req) /\
  int64_range (u_ID (or_User req)) /\ short_request req.

Lemma join_units_inj l l' :
  Forall (fun p => p <> "" /\ 31 ∉ bytes p) l -> Forall (fun p => p <> "" /\ 31 ∉ bytes p) l' ->
  join unit_sep l = join unit_sep l' -> l = l'.
Proof.
  assert (Hsep : forall x y l, bytes (join unit_sep (x :: y :: l)) = bytes x ++ 31 :: bytes (join unit_sep (y :: l))).
  { intros x y t. cbn [join]. by rewrite !bytes_app. }
  assert (Hne : forall x t, x <> "" -> join unit_sep (x :: t) <> "").
  { intros x [|y t] Hx; cbn [join]; [done|]. by destruct x. }
  revert l'. induction l as [|x l IH]; intros [|x' l'] Hl Hl' HE; [done|..].
  - apply Forall_cons in Hl' as [[Hx _] _]. symmetry in HE. by apply Hne in HE.
  - apply Forall_cons in Hl as [[Hx _] _]. by apply Hne in HE.
  - inversion Hl as [|? ? [Hx1 Hx2] Hl1]; inversion Hl' as [|? ? [Hy1 Hy2] Hl2]; subst.
    destruct l as [|y l], l' as [|y' l'].
    + cbn in HE. by subst.
    + exfalso. apply (f_equal bytes) in HE. rewrite Hsep in HE. cbn [join] in HE. apply Hx2. rewrite HE.
      apply elem_of_app. right. by left.
    + exfalso. apply (f_equal bytes) in HE. rewrite Hsep in HE. cbn [join] in HE. apply Hy2. rewrite <- HE.
      apply elem_of_app. right. by left.
    + apply (f_equal bytes) in HE. rewrite !Hsep in HE. apply sep_inj in HE as [H1 H2]; [|done..].
      apply bytes_inj in H1, H2. subst. f_equal. by apply IH.
Qed.

(** Requests that differ at most in their id, in [SkipLLM], and in the order
    of their context. *)
Definition same_inputs (r1 r2 : OrchestratorRequest) : Prop :=
  or_User r1 = or_User r2 /\ or_Client r1 = or_Client r2 /\ or_RequestType r1 = or_RequestType r2 /\
  or_Query r1 = or_Query r2 /\ NoDup (or_Context r1).*1 /\ or_Context r1 ≡ₚ or_Context r2.

Lemma textual_sorted l :
  Forall (fun e : string * value => exists s, e.2 = VString s) l ->
  l = (fun e : string * string => (e.1, VString e.2)) <$> ((fun e => (e.1, Sprint e.2)) <$> l).
Proof.
  induction 1 as [|[k v] l [s Hs] _ IH]; [done|]. cbn in Hs. subst. cbn [fmap list_fmap].
  f_equal. exact IH.
Qed.

Lemma key_same_inputs r1 r2 :
  textual r1 -> textual r2 -> generateCacheKey r1 = generateCacheKey r2 -> same_inputs r1 r2.
Proof.
  intros (Hp1 & Hn1 & Hv1 & Hi1 & Hs1) (Hp2 & Hn2 & Hv2 & Hi2 & Hs2) HK.
  apply cache_key_facts in HK as (Ho & _ & HP & HC); [|done..].
  unfold request_parts in HP. injection HP as ? ? ? ? Hid Hperm ? ? ? ? ? ?.
  apply Itoa_inj in Hid; [|done..]. apply join_units_inj in Hperm; [|done..].
  assert (HU : or_User r1 = or_User r2) by (destruct (or_User r1), (or_User r2); cbn in *; congruence).
  assert (HCl : or_Client r1 = or_Client r2) by (destruct (or_Client r1), (or_Client r2); cbn in *; congruence).
  repeat split; try done.
  unfold printed_context in HC.
  rewrite <- (SliceStable_perm (fun a b => str_before a.1 b.1) (or_Context r1)).
  rewrite <- (SliceStable_perm (fun a b => str_before a.1 b.1) (or_Context r2)).
  fold (sorted_context (or_Context r1)) (sorted_context (or_Context r2)).
  rewrite (textual_sorted (sorted_context (or_Context r1))), (textual_sorted (sorted_context (or_Context r2))), HC; [done|..];
    unfold sorted_context; by rewrite SliceStable_perm.
Qed.

(** Values no operator tells apart. *)
Definition same_print (a b : value) : Prop := Sprint a = Sprint b /\ toFloat64 a = toFloat64 b.

Lemma Sprint_obj_perm m1 m2 : NoDup m1.*1 -> m1 ≡ₚ m2 -> Sprint (VObj m1) = Sprint (VObj m2).
Proof.
  intros Hn HP. cbn [Sprint]. set (g := fun e : string * value => (e.1, Sprint e.2)).
  change key_before with (@by_key string). rewrite (by_key_perm (map g m1) (map g m2)); [done| |by apply Permutation_map].
  enough ((map g m1).*1 = m1.*1) as -> by done. clear. induction m1 as [|e m IH]; [done|]. cbn. by f_equal.
Qed.

Lemma getFieldValue_same f r1 r2 risk :
  same_inputs r1 r2 -> same_print (getFieldValue f r1 risk) (getFieldValue f r2 risk).
Proof.
  intros (HU & HC & HT & HQ & Hn & HP). unfold getFieldValue, get_any, get_map.
  rewrite HU, HC, HT, HQ.
  assert (HA : forall k, assoc_get k (or_Context r1) = assoc_get k (or_Context r2)) by (intros; by apply assoc_get_perm).
  destruct (Split f ".") as [|p0 rest]; [done|].
  repeat (case_match; try (rewrite ?HA; split; reflexivity)); rewrite ?HA in *; simplify_eq; try done.
  split; [by apply Sprint_obj_perm|done].
Qed.

Lemma evaluateCondition_same c r1 r2 risk :
  same_inputs r1 r2 -> evaluateCondition c r1 risk = evaluateCondition c r2 risk.
Proof.
  intros H. destruct (getFieldValue_same (pc_Field c) _ _ risk H) as [Hp Hf].
  unfold evaluateCondition, compareNumeric, contains. by rewrite Hp, Hf.
Qed.

Lemma evaluate_one_same e r1 r2 acc p : same_inputs r1 r2 -> evaluate_one e r1 acc p = evaluate_one e r2 acc p.
Proof.
  intros H. unfold evaluate_one. destruct acc as [v hits].
  assert (HE : evaluatePolicy p r1 v = evaluatePolicy p r2 v).
  { unfold evaluatePolicy. apply eq_true_iff_eq. rewrite !forallb_forall.
    split; intros HF c Hc; [rewrite <- (evaluateCondition_same c _ _ _ H)|rewrite (evaluateCondition_same c _ _ _ H)]; auto. }
  rewrite HE. destruct H as (HU & _). by rewrite HU.
Qed.

Lemma compute_verdict_same e r1 r2 : same_inputs r1 r2 -> compute_verdict e r1 = compute_verdict e r2.
Proof.
  intros H. unfold compute_verdict.
  assert (HR : CalculateRiskScore (e_riskCalculator e) r1 = CalculateRiskScore (e_riskCalculator e) r2).
  { destruct H as (HU & _ & _ & HQ & _). unfold CalculateRiskScore. by rewrite HU, HQ. }
  assert (HA : getApplicablePolicies e r1 = getApplicablePolicies e r2).
  { destruct H as (HU & HC & _). unfold getApplicablePolicies, effectiveTenantID. by rewrite HU, HC. }
  rewrite HR, HA. clear HR HA. generalize (initial_verdict false (CalculateRiskScore (e_riskCalculator e) r2), @nil PolicyHit).
  induction (getApplicablePolicies e r2) as [|p l IH]; intros acc; [done|]. cbn [foldl].
  rewrite (evaluate_one_same e r1 r2) by done. apply IH.
Qed.

(** * Runs *)

(** Requests evaluated one after the other, with the cache in between. *)
Fixpoint run_evaluations (e : DynamicPolicyEngine) (reqs : list OrchestratorRequest)
  : list PolicyEvaluationResult * DynamicPolicyEngine :=
  match reqs with
  | [] => ([], e)
  | r :: rest =>
      let '(v, e1, _) := EvaluateDynamicPolicies e r in
      let '(vs, e2) := run_evaluations e1 rest in (v :: vs, e2)
  end.

Lemma cache_Get_Set_same c k v : cache_Get (cache_Set c k v) k = Some v.
Proof. unfold cache_Get, cache_Set. apply lookup_insert_eq. Qed.
Lemma cache_Get_Set_other c k k' v : k <> k' -> cache_Get (cache_Set c k v) k' = cache_Get c k'.
Proof. unfold cache_Get, cache_Set. apply lookup_insert_ne. Qed.

Lemma cache_Get_empty k : cache_Get ∅ k = None.
Proof. unfold cache_Get. apply lookup_empty. Qed.

Definition cache_sound (e : DynamicPolicyEngine) : Prop :=
  forall key v, cache_Get (e_cache e) key = Some v ->
    exists r, textual r /\ generateCacheKey r = key /\ v = (compute_verdict e r).1.

Lemma compute_verdict_cache e c r : compute_verdict (with_cache e c) r = compute_verdict e r.
Proof. done. Qed.

Lemma Evaluate_sound e r :
  cache_sound e -> textual r ->
  exists c hits, EvaluateDynamicPolicies e r = ((compute_verdict e r).1, with_cache e c, hits) /\ cache_sound (with_cache e c).
Proof.
  intros Hs Hr. unfold EvaluateDynamicPolicies.
  destruct (cache_Get (e_cache e) (generateCacheKey r)) as [v|] eqn:E.
  - destruct (Hs _ _ E) as (r' & Hr' & HK & ->). exists (e_cache e), [].
    rewrite (compute_verdict_same e r' r) by by apply key_same_inputs. by destruct e.
  - destruct (compute_verdict e r) as [v hits] eqn:Ev. exists (cache_Set (e_cache e) (generateCacheKey r) v), hits.
    split; [done|]. intros key w. cbn [e_cache with_cache]. intros Hw.
    destruct (decide (generateCacheKey r = key)) as [<-|Hne].
    + rewrite cache_Get_Set_same in Hw. injection Hw as <-. exists r. by rewrite compute_verdict_cache, Ev.
    + rewrite cache_Get_Set_other in Hw by done.
      destruct (Hs _ _ Hw) as (r' & ? & ? & ->). by exists r'.
Qed.

(** for requests whose context values are strings the cache is transparent:
    whatever was evaluated before, every request of a run gets the verdict a
    fresh evaluation of its own tenant's policies computes. *)
Theorem cache_transparent e reqs :
  e_cache e = ∅ -> Forall textual reqs ->
  (run_evaluations e reqs).1 = (fun r => (compute_verdict e r).1) <$> reqs.
Proof.
  intros H0 Hreqs. assert (Hs : cache_sound e) by (intros key v; rewrite H0; by rewrite cache_Get_empty). clear H0.
  revert e Hs. induction Hreqs as [|r reqs Hr _ IH]; intros e Hs; [done|]. cbn [run_evaluations].
  destruct (Evaluate_sound e r Hs Hr) as (c & hits & -> & Hs').
  specialize (IH _ Hs'). destruct (run_evaluations (with_cache e c) reqs) as [vs e2]. cbn in *. by rewrite IH.
Qed.

(** A reload of the policies keeps every cached verdict: until the cleanup tick,
    a request evaluated before the reload is answered from the old policies. *)
Theorem reload_keeps_verdicts e table req v e1 hits e2 :
  EvaluateDynamicPolicies e req = (v, e1, hits) -> loadPoliciesFromDB e1 table false = Ok e2 ->
  EvaluateDynamicPolicies e2 req = (v, e2, []).
Proof.
  unfold EvaluateDynamicPolicies. intros H1 H2.
  assert (Hc : cache_Get (e_cache e1) (generateCacheKey req) = Some v).
  { destruct (cache_Get (e_cache e) (generateCacheKey req)) eqn:E; [by simplify_eq|].
    destruct (compute_verdict e req) as [w hs]. simplify_eq. apply cache_Get_Set_same. }
  unfold loadPoliciesFromDB in H2. destruct (negb (e_dbAvailable e1)); [done|]. cbn in H2. simplify_eq.
  cbn [e_cache]. by rewrite Hc.
Qed.
End Transparent.

(** * The risk score *)

Section Risk.
Context `{U : Unicode} `{O : OpaqueFormat}.

Definition in_unit (f : float64) : bool := f64_leb f64_zero f && f64_leb f f64_one.

(** The calculated risk score lies between 0 and 1 for every request. *)
Theorem risk_in_unit req : in_unit (CalculateRiskScore NewRiskCalculator req) = true.
Proof.
  unfold CalculateRiskScore. cbn [rc_sqliScanner rc_sensitivePatterns NewRiskCalculator foldl].
  generalize (Detected (Scan (basic_scanner (NewBasicScanner [])) false (or_Query req) ScanTypeInput)).
  generalize (MatchString (MustCompile "(?i)(password|secret|key|token)") (or_Query req)).
  generalize (RoleIsAdministrative (u_Role (or_User req))).
  generalize (Contains (ToLower (or_Query req)) "select *").
  intros [] [] [] []; vm_compute; reflexivity.
Qed.

(** An owner scores exactly as an admin does. *)
Lemma owner_scores_as_admin req u :
  u_Role u = "owner" ->
  CalculateRiskScore NewRiskCalculator (mkRequest (or_RequestID req) (or_Query req) (or_RequestType req) (or_SkipLLM req)
      u (or_Client req) (or_Context req))
  = CalculateRiskScore NewRiskCalculator (mkRequest (or_RequestID req) (or_Query req) (or_RequestType req) (or_SkipLLM req)
      (mkUser (u_ID u) (u_Email u) "admin" (u_Region u) (u_Permissions u) (u_TenantID u) (u_OrgID u)) (or_Client req) (or_Context req)).
Proof. intros Hr. unfold CalculateRiskScore. cbn [or_User or_Query u_Role]. by rewrite Hr. Qed.

(** * Loaded policies *)

Lemma default_overridable p : p ∈ loadDefaultDynamicPolicies -> dp_RiskLevel p = "" /\ IsOverridable p = false.
Proof.
  intros Hp. assert (H : Forall (fun p => dp_RiskLevel p = "" /\ IsOverridable p = false) loadDefaultDynamicPolicies)
    by (repeat constructor). rewrite Forall_forall in H. by apply H.
Qed.

Lemma scan_row_overridable r p : scan_row r = Some p -> dp_RiskLevel p = "" /\ IsOverridable p = false.
Proof.
  unfold scan_row. destruct (dr_description r); [|done]. destruct (dr_priority r); [|done].
  cbn. destruct (decode_conditions _); [|done]. cbn. destruct (decode_actions _); [|done]. by intros [= <-].
Qed.

(** The engine does not load the risk level and the override flag: every policy
    it enforces is reported as medium risk and not overridable, whatever its
    row says. *)
Theorem mem_never_overridable e table e' p :
  loadPoliciesFromDB e table false = Ok e' -> p ∈ e_policies e' ->
  ad_RiskLevel (detail_of p) = "medium" /\ ad_AllowOverride (detail_of p) = false.
Proof.
  unfold loadPoliciesFromDB. destruct (negb (e_dbAvailable e)); [done|]. intros [= <-]. cbn [e_policies].
  intros [H|H]%elem_of_app.
  - apply list_elem_of_omap in H as (r & _ & H). apply scan_row_overridable in H as [H1 H2].
    unfold detail_of. cbn [ad_RiskLevel ad_AllowOverride]. by rewrite H1, H2.
  - apply default_overridable in H as [H1 H2]. unfold detail_of. cbn [ad_RiskLevel ad_AllowOverride]. by rewrite H1, H2.
Qed.

(** A condition whose operator is not one of the seven never holds. *)
Lemma unknown_operator c req risk :
  pc_Operator c ∉ ["contains"; "equals"; "not_equals"; "greater_than"; "less_than"; "regex"; "in"] ->
  evaluateCondition c req risk = false.
Proof.
  intros H. unfold evaluateCondition.
  repeat match goal with |- context [str_eqb (pc_Operator c) ?s] =>
    rewrite (proj2 (str_eqb_false (pc_Operator c) s)) by (intros E; rewrite E in H; apply H; set_solver +) end.
  done.
Qed.

(** The built-in policy against cross-tenant queries never fires: its second
    condition uses an operator this engine does not have. *)
Theorem tenant_isolation_policy_inert p req v :
  p ∈ loadDefaultDynamicPolicies -> dp_ID p = "pol_tenant_isolation" -> evaluatePolicy p req v = false.
Proof.
  intros Hp Hid.
  assert (HF : Forall (fun p => dp_ID p = "pol_tenant_isolation" ->
     exists c, In c (dp_Conditions p) /\ pc_Operator c = "not_contains") loadDefaultDynamicPolicies).
  { repeat (constructor; [intros H; first [discriminate H|eexists; split; [right; left; reflexivity|reflexivity]]|]).
    constructor. }
  rewrite Forall_forall in HF. destruct (HF p Hp Hid) as (c & Hc & Ho).
  unfold evaluatePolicy. apply not_true_is_false. rewrite forallb_forall. intros HA. specialize (HA c Hc).
  rewrite unknown_operator in HA; [done|]. rewrite Ho. by apply (bool_decide_unpack _).
Qed.
End Risk.

(** * Concrete engines *)

Section Examples.
#[local] Existing Instance ascii_unicode.

Definition demo_user : UserContext := mkUser 7 "ana@example.com" "developer" "eu" ["read"; "export"] "acme" "acme".
Definition demo_request (query : string) (ctx : list (string * value)) : OrchestratorRequest :=
  mkRequest "r1" query "query" false demo_user (mkClient "cli" "CLI" "acme" "acme") ctx.

(** A tenant policy that blocks large exports. *)
Definition export_limit : DynamicPolicy :=
  mkDynamic "p1" "Export limit" "" "content" "" [mkCondition "context.rows" "greater_than" (VFloat (f64_of_Z 1000))]
    [mkAction "block" [("reason", VString "too many rows")]] 10 true "acme" "" false.

Definition demo_engine : DynamicPolicyEngine := mkEngine [export_limit] NewRiskCalculator ∅ false.

Definition r_text : OrchestratorRequest := demo_request "export" [("rows", VString "5000")].
Definition r_number : OrchestratorRequest := demo_request "export" [("rows", VFloat (f64_of_Z 5000))].

(** The key prints context values, and a number prints as the string of its
    digits: a request whose row count is text fills the cache entry of the
    request whose row count is a number, which the policy would block. *)
Theorem cache_type_confusion :
  generateCacheKey r_text = generateCacheKey r_number /\
  v_Allowed (compute_verdict demo_engine r_number).1 = false /\
  (v_Allowed <$> (run_evaluations demo_engine [r_text; r_number]).1) = [true; true].
Proof. split_and!; vm_compute; reflexivity. Qed.

(** A modifier takes the risk score out of the unit interval. *)
Theorem modify_risk_exceeds_unit :
  exists req, in_unit (v_RiskScore (compute_verdict (NewDynamicPolicyEngine None) req).1) = false.
Proof.
  exists (demo_request "select * from t where password = 1 or 1=1" [("query_count_last_hour", VInt 500)]).
  vm_compute. reflexivity.
Qed.

Lemma mem_denied_iff_witness :
  v_Allowed (compute_verdict demo_engine r_number).1 = false.
Proof.
  apply (mem_denied_iff demo_engine r_number). exists [], export_limit, []. split_and!; vm_compute; reflexivity.
Defined.

Lemma demo_textual q s : Z.of_nat (len q) <= 1000 -> Z.of_nat (len s) <= 1000 ->
  textual (demo_request q [("industry", VString s)]).
Proof.
  intros Hq Hs.
  assert (Hshort : forall x, (Z.of_nat (len x) <=? 1000) = true -> short x)
    by (intros x Hx%Z.leb_le; unfold short, int64_max; lia).
  split_and!.
  - apply Forall_cons_2; [|apply Forall_cons_2; [|apply Forall_nil_2]];
      (split; [discriminate|apply (bool_decide_unpack _); by vm_compute]).
  - apply NoDup_singleton.
  - apply Forall_cons_2; [by exists s|apply Forall_nil_2].
  - unfold int64_range, int64_min, int64_max. cbn. lia.
  - split.
    + unfold request_parts. cbn [or_User or_Client or_RequestType or_Query demo_request].
      repeat (apply Forall_cons_2; [apply Hshort; first [apply Z.leb_le; exact Hq|vm_compute; reflexivity]|]).
      apply Forall_nil_2.
    + apply Forall_cons_2; [|apply Forall_nil_2]. split; cbn [fst snd Sprint]; apply Hshort;
        [vm_compute; reflexivity|by apply Z.leb_le].
Qed.

Lemma cache_transparent_witness :
  let reqs := [demo_request "patient list" [("industry", VString "healthcare")];
               demo_request "patient list" [("industry", VString "retail")];
               demo_request "patient list" [("industry", VString "healthcare")]] in
  let e := NewDynamicPolicyEngine None in
  (run_evaluations e reqs).1 = (fun r => (compute_verdict e r).1) <$> reqs /\
  (length <$> (v_AppliedPolicies <$> (run_evaluations e reqs).1)) = [1; 0; 1]%nat.
Proof.
  cbn zeta. split.
  - apply (cache_transparent (NewDynamicPolicyEngine None)); [reflexivity|].
    repeat (constructor; [apply demo_textual; vm_compute; discriminate|]). constructor.
  - vm_compute. reflexivity.
Defined.
End Examples.
