(* ===== verification/DynDb.v ===== *)
(** The database-backed dynamic policy engine,
    src/platform/orchestrator/db_dynamic_policies.go: the cached policies, their
    refresh and seeding, evaluation, and the per-tenant lists.

    The cache is the list of its entries in the order a [range] visits them;
    theorems quantify over that order.  A cached policy is a map whose values
    are interfaces, some of them raw JSON. *)

From S2P Require Import Prelude GoFloat GoStrings GoStrconv Regexp PolicyTypes GoJSON GoFmt DynTypes DynPolicy.

Local Open Scope Z_scope.
Local Open Scope go_scope.

(** * Cached policies *)

(** An interface value of a cached policy: ordinary, or [json.RawMessage]. *)
Inductive entry := EV (v : value) | ERaw (text : string).

Definition cached := list (string * entry).

(** [policyMap[k].(string)] and [policyMap[k].(map[string]interface{})] *)
Definition entry_string (k : string) (m : cached) : option string :=
  match assoc_get k m with Some (EV (VString s)) => Some s | _ => None end.
Definition entry_map (k : string) (m : cached) : option (list (string * value)) :=
  match assoc_get k m with Some (EV (VObj o)) => Some o | _ => None end.

Definition get_bool (k : string) (m : list (string * value)) : option bool :=
  match assoc_get k m with Some (VBool b) => Some b | _ => None end.
Definition get_int (k : string) (m : list (string * value)) : option Z :=
  match assoc_get k m with Some (VInt n) => Some n | _ => None end.

Record DatabaseDynamicPolicyEngine := mkDbEngine {
  d_policies : list (string * cached);
  d_lastRefresh : Z;
}.

(** * Decoding *)

(** [json.Unmarshal] into [[]map[string]interface{}]; [None] on any error. *)
Definition unmarshal_maps (text : string) : option (list (list (string * value))) :=
  match Unmarshal_any text with
  | Some (VArr l, true) =>
      mapM (fun v => match v with VObj m => Some m | VNil => Some [] | _ => None end) l
  | Some (VNil, true) => Some []
  | _ => None
  end.

(** [json.Unmarshal] into [[]interface{}] with its error only logged: a number
    out of range leaves a nil, a document that is not an array leaves nothing. *)
Definition unmarshal_slice (text : string) : list value :=
  match Unmarshal_any text with Some (VArr l, _) => l | _ => [] end.

(** The switch on [policyMap["conditions"]]; [None] skips the policy. *)
Definition parse_conditions (m : cached) : option (list (list (string * value))) :=
  match assoc_get "conditions" m with
  | Some (ERaw text) | Some (EV (VBytes text)) => unmarshal_maps text
  | Some (EV (VArr l)) => Some (omap (fun v => match v with VObj o => Some o | _ => None end) l)
  | _ => Some []
  end.

(** The switch on [policyMap["actions"]]. *)
Definition parse_actions (m : cached) : list value :=
  match assoc_get "actions" m with
  | Some (ERaw text) | Some (EV (VBytes text)) => unmarshal_slice text
  | Some (EV (VArr l)) => l
  | _ => []
  end.

Section Engine.
Context `{U : Unicode} `{O : OpaqueFormat}.
Context (getenv : string -> string).

(** * Conditions *)

Definition db_toFloat64 (v : value) : float64 :=
  match v with
  | VFloat f => f
  | VInt n => f64_of_Z n
  | VString s => (ParseFloat s).1
  | _ => f64_zero
  end.

(** The context lookup of a custom field. *)
Definition context_field (field : string) (ctx : list (string * value)) : value :=
  let direct := get_any field ctx in
  match Split field "." with
  | p0 :: (_ :: _ as rest) =>
      if str_eqb p0 "context"
      then match assoc_get (join "." rest) ctx with Some v => v | None => direct end
      else direct
  | _ => direct
  end.

Definition db_getFieldValue (field : string) (req : OrchestratorRequest) : value :=
  let ctx := or_Context req in
  let f_is := str_eqb field in
  if f_is "query" then VString (or_Query req)
  else if f_is "request_type" then VString (or_RequestType req)
  else if f_is "request_id" then VString (or_RequestID req)
  else if f_is "user.id" || f_is "user_id" then VInt (u_ID (or_User req))
  else if f_is "user.email" || f_is "user_email" then VString (u_Email (or_User req))
  else if f_is "user.role" || f_is "user_role" then VString (u_Role (or_User req))
  else if f_is "user.region" || f_is "user_region" || f_is "region" then VString (u_Region (or_User req))
  else if f_is "user.tenant_id" then VString (u_TenantID (or_User req))
  else if f_is "client.id" || f_is "client_id" || f_is "agent_id" then VString (cl_ID (or_Client req))
  else if f_is "client.org_id" || f_is "org_id" then VString (cl_OrgID (or_Client req))
  else if f_is "client.tenant_id" || f_is "tenant_id" then VString (cl_TenantID (or_Client req))
  else if f_is "environment" || f_is "env" then
    VString (default (getenv "ENVIRONMENT") (get_string "environment" ctx))
  else if f_is "risk_score" then VFloat (default f64_zero (get_float "risk_score" ctx))
  else if f_is "cost_estimate" then VFloat (default f64_zero (get_float "cost_estimate" ctx))
  else if HasPrefix field "media." then
    match get_map "media_analysis" ctx with
    | Some analysis => get_any (slice field 6 (len field)) analysis
    | None => VNil
    end
  else context_field field ctx.

(** A string operand is used as it is, another is printed. *)
Definition operand_text (v : value) : string := match v with VString s => s | _ => Sprint v end.

Definition db_evaluateCondition (cond : list (string * value)) (req : OrchestratorRequest) : bool :=
  let field := default "" (get_string "field" cond) in
  let op := default "" (get_string "operator" cond) in
  let v := get_any "value" cond in
  let fv := db_getFieldValue field req in
  let has := Contains (ToLower (operand_text fv)) (ToLower (operand_text v)) in
  let member := match v with VArr l => existsb (fun i => str_eqb (Sprint i) (Sprint fv)) l | _ => false end in
  if str_eqb op "equals" then str_eqb (Sprint fv) (Sprint v)
  else if str_eqb op "not_equals" then negb (str_eqb (Sprint fv) (Sprint v))
  else if str_eqb op "contains" then has
  else if str_eqb op "not_contains" then negb has
  else if str_eqb op "contains_any" then
    match v with
    | VArr l => existsb (fun i => Contains (ToLower (operand_text fv)) (ToLower i)) (strings_of l)
    | _ => false
    end
  else if str_eqb op "regex" then
    match v with VString pattern => matchRegex (operand_text fv) pattern | _ => false end
  else if str_eqb op "greater_than" then f64_ltb (db_toFloat64 v) (db_toFloat64 fv)
  else if str_eqb op "less_than" then f64_ltb (db_toFloat64 fv) (db_toFloat64 v)
  else if str_eqb op "in" then member
  else if str_eqb op "not_in" then negb member
  else false.

(** * Tenancy *)

Definition dbCachedPolicyAppliesToTenant (m : cached) (tenantID : string) : bool :=
  match entry_map "_metadata" m with
  | None => true
  | Some md =>
      let policyTenant := default "" (get_string "tenant_id" md) in
      str_eqb policyTenant "global" || str_eqb policyTenant "default" || str_eqb policyTenant tenantID
  end.

Definition db_tenant (req : OrchestratorRequest) : string :=
  if str_eqb (cl_TenantID (or_Client req)) "" then u_TenantID (or_User req) else cl_TenantID (or_Client req).

(** * Actions *)

Definition intersect (l1 l2 : list string) : list string := List.filter (fun p => str_in p l2) l1.

(** The routing override: the lists of several policies are intersected. *)
Definition db_apply_route (cfg : list (string * value)) (r : Routing) : Routing :=
  let preferred := match get_string "preferred_provider" cfg with
                   | Some p => if str_eqb p "" then rt_PreferredProvider r else p
                   | None => rt_PreferredProvider r
                   end in
  let reason := default (rt_RoutingReason r) (get_string "reason" cfg) in
  let policyAllowed := match assoc_get "allowed_providers" cfg with Some (VArr l) => strings_of l | _ => [] end in
  let allowed :=
    match policyAllowed, rt_AllowedProviders r with
    | [], old => old
    | _, [] => policyAllowed
    | _, old => intersect old policyAllowed
    end in
  mkRouting preferred allowed reason.

Definition db_apply_action (name : string) (v : PolicyEvaluationResult) (action : value) : PolicyEvaluationResult :=
  match action with
  | VObj a =>
      let ty := default "" (get_string "type" a) in
      let cfg := default [] (get_map "config" a) in
      if str_eqb ty "route" then set_routing (db_apply_route cfg (v_Routing v)) v
      else if str_eqb ty "block" then add_required (str_list (get_string "reason" cfg) "blocked: ") (set_denied v)
      else if str_eqb ty "modify_risk" then
        match get_float "add" cfg with Some x => set_risk (f64_add (v_RiskScore v) x) v | None => v end
      else if str_eqb ty "require_approval" then
        raise_severity (get_string "severity" cfg) (fun _ => name)
          (add_required ("require_approval" :: str_list (get_string "reason" cfg) "approval_reason: ") (set_denied v))
      else v
  | _ => v
  end.

(** The first action's type, for the detail record. *)
Definition detail_action (actions : list value) : string :=
  match actions with
  | VObj a :: _ => match get_string "type" a with Some t => if str_eqb t "" then "log_only" else t | None => "log_only" end
  | _ => "log_only"
  end.

Definition cached_name (cacheKey : string) (m : cached) : string :=
  let name := default "" (entry_string "name" m) in if str_eqb name "" then cacheKey else name.

Definition db_detail (cacheKey : string) (m : cached) : AppliedPolicyDetail :=
  let md := entry_map "_metadata" m in
  let uuid := match md ≫= get_string "id" with
              | Some id => if str_eqb id "" then cacheKey else id
              | None => cacheKey
              end in
  let risk := default "" (md ≫= get_string "risk_level") in
  let risk := if str_eqb risk "" then "medium" else risk in
  let allow := default false (md ≫= get_bool "allow_override") in
  mkDetail uuid (cached_name cacheKey m) (default "" (entry_string "description" m)) (detail_action (parse_actions m))
    risk (if str_eqb risk "critical" then false else allow) "".

(** The fallback policy's rules. *)
Definition apply_rules (m : cached) (v : PolicyEvaluationResult) : PolicyEvaluationResult :=
  match entry_map "rules" m with
  | None => v
  | Some rules =>
      let v := match assoc_get "required_actions" rules with
               | Some (VArr l) => add_required (strings_of l) v
               | _ => v
               end in
      match get_float "risk_score" rules with
      | Some r => if f64_ltb (v_RiskScore v) r then set_risk r v else v
      | None => v
      end
  end.

(** Whether a policy's conditions, when it has any, all hold. *)
Definition conditions_hold (m : cached) (req : OrchestratorRequest) : bool :=
  match parse_conditions m with
  | None => false
  | Some conds => forallb (fun c => db_evaluateCondition c req) conds
  end.

Definition db_matches (m : cached) (req : OrchestratorRequest) : bool :=
  dbCachedPolicyAppliesToTenant m (db_tenant req) && conditions_hold m req.

(** One policy of the evaluation loop. *)
Definition db_evaluate_one (req : OrchestratorRequest) (v : PolicyEvaluationResult) (e : string * cached)
  : PolicyEvaluationResult :=
  let '(cacheKey, m) := e in
  if db_matches m req then
    let v := add_detail (db_detail cacheKey m) v in
    let v := apply_rules m v in
    let v := foldl (db_apply_action (cached_name cacheKey m)) v (parse_actions m) in
    add_name (cached_name cacheKey m) v
  else v.

Definition db_EvaluateDynamicPolicies (e : DatabaseDynamicPolicyEngine) (req : OrchestratorRequest)
  : PolicyEvaluationResult :=
  foldl (db_evaluate_one req) (initial_verdict true f64_zero) (d_policies e).
End Engine.

(** * Refresh *)

(** The cached form of a row; a null priority fails the scan. *)
Definition cached_of_row (now : Z) (r : PolicyDbRow) : option (string * cached) :=
  prio ← dr_priority r;
  let tenant := default "default" (dr_tenant_id r) in
  let risk := default "medium" (dr_risk_level r) in
  let allow := if str_eqb risk "critical" then false else default false (dr_allow_override r) in
  let m := [("policy_id", EV (VString (dr_policy_id r)));
            ("name", EV (VString (dr_name r)));
            ("description", EV (VString (default "" (dr_description r))));
            ("type", EV (VString (dr_policy_type r)));
            ("category", EV (VString (default "" (dr_category r))));
            ("conditions", ERaw (dr_conditions r));
            ("actions", ERaw (dr_actions r));
            ("tenant_id", EV (VString tenant));
            ("priority", EV (VInt prio));
            ("_metadata", EV (VObj [("id", VString (dr_id r)); ("name", VString (dr_name r));
                                    ("tenant_id", VString tenant); ("priority", VInt prio);
                                    ("loaded_at", VInt now); ("risk_level", VString risk);
                                    ("allow_override", VBool allow)]))] in
  Some (if str_eqb (dr_policy_id r) "" then dr_name r else dr_policy_id r, m).

Definition load_rows (now : Z) (table : list PolicyDbRow) : list (string * cached) :=
  foldl (fun acc e => assoc_put e.1 e.2 acc) [] (omap (cached_of_row now) (select_policies table)).

Definition refreshPolicies (e : DatabaseDynamicPolicyEngine) (table : list PolicyDbRow) (fault : bool) (now : Z)
  : result string DatabaseDynamicPolicyEngine :=
  if fault then Err "failed to query policies" else Ok (mkDbEngine (load_rows now table) now).

Definition loadDefaultPolicies (e : DatabaseDynamicPolicyEngine) : DatabaseDynamicPolicyEngine :=
  mkDbEngine
    [("default", [("type", EV (VString "fallback"));
                  ("rules", EV (VObj [("max_tokens", VInt 2000); ("temperature", VFloat (f64_lit 7 10));
                                      ("allowed_models", vstrs ["gpt-4o-mini"]); ("rate_limit_per_minute", VInt 60)]))])]
    (d_lastRefresh e).

(** A background refresh: an error keeps the cache. *)
Definition background_refresh (e : DatabaseDynamicPolicyEngine) (table : list PolicyDbRow) (fault : bool) (now : Z)
  : DatabaseDynamicPolicyEngine :=
  match refreshPolicies e table fault now with Ok e' => e' | Err _ => e end.

(** * Seeding *)

(** [INSERT ... ON CONFLICT (policy_id) DO NOTHING] *)
Definition insert_row (r : PolicyDbRow) (table : list PolicyDbRow) : list PolicyDbRow :=
  if existsb (fun x => str_eqb (dr_policy_id x) (dr_policy_id r)) table then table else table ++ [r].

(** [INSERT ... ON CONFLICT (policy_id) DO UPDATE SET conditions, actions] *)
Definition upsert_row (r : PolicyDbRow) (table : list PolicyDbRow) : list PolicyDbRow :=
  if existsb (fun x => str_eqb (dr_policy_id x) (dr_policy_id r)) table
  then (fun x => if str_eqb (dr_policy_id x) (dr_policy_id r)
                 then mkPolicyRow (dr_id x) (dr_policy_id x) (dr_name x) (dr_description x) (dr_policy_type x) (dr_category x)
                        (dr_conditions r) (dr_actions r) (dr_priority x) (dr_enabled x) (dr_tenant_id x) (dr_risk_level x)
                        (dr_allow_override x) (dr_created_at x)
                 else x) <$> table
  else table ++ [r].

(** [~] stands for the double quote. *)
Definition media_row (uuid policyID name desc category conds acts : string) (prio now : Z) : PolicyDbRow :=
  mkPolicyRow uuid policyID name (Some desc) "media" (Some category) (Sqli.DQ conds) (Sqli.DQ acts) (Some prio)
    (Some true) (Some "global") None None now.

(** The rows [seedSystemMediaPolicies] inserts; the database picks the ids. *)
Definition systemMediaPolicies (newid : string -> string) (now : Z) : list PolicyDbRow :=
  let row pid := media_row (newid pid) pid in
  [row "sys_media_nsfw_block" "NSFW Content Blocking" "Blocks media with high NSFW confidence scores" "media-safety"
     "[{~field~:~media.nsfw_score~,~operator~:~greater_than~,~value~:0.8}]"
     "[{~type~:~block~,~config~:{~reason~:~Media blocked: NSFW content detected (score > 0.8)~}}]" 1000 now;
   row "sys_media_violence_warn" "Violence Content Warning" "Alerts on media with high violence scores" "media-safety"
     "[{~field~:~media.violence_score~,~operator~:~greater_than~,~value~:0.7}]"
     "[{~type~:~alert~,~config~:{~message~:~Violence detected in media (score > 0.7)~}},{~type~:~log~,~config~:{}}]" 950 now;
   row "sys_media_biometric_log" "Biometric Data Audit" "Logs media containing biometric data for compliance audit"
     "media-biometric"
     "[{~field~:~media.has_biometric_data~,~operator~:~equals~,~value~:true}]"
     "[{~type~:~log~,~config~:{~message~:~Biometric data detected in media~}}]" 900 now;
   row "sys_media_pii_block" "Image PII Blocking" "Blocks media containing personally identifiable information" "media-pii"
     "[{~field~:~media.has_pii~,~operator~:~equals~,~value~:true}]"
     "[{~type~:~block~,~config~:{~reason~:~Media blocked: PII detected in image content~}}]" 950 now;
   row "sys_media_sensitive_doc_warn" "Sensitive Document Detection"
     "Alerts when sensitive documents are detected in media" "media-document"
     "[{~field~:~media.is_sensitive_document~,~operator~:~equals~,~value~:true}]"
     "[{~type~:~alert~,~config~:{~message~:~Sensitive document detected in media~}},{~type~:~log~,~config~:{}}]" 900 now].

(** All five inserts in one transaction: a failure leaves the table as it was. *)
Definition seedSystemMediaPolicies (newid : string -> string) (now : Z) (fault : bool) (table : list PolicyDbRow)
  : list PolicyDbRow :=
  if fault then table else foldl (fun t r => insert_row r t) table (systemMediaPolicies newid now).

(** The sample policies carry rules but neither conditions nor actions, which
    are stored as the JSON null. *)
Definition samplePolicies (newid : string -> string) (now : Z) : list PolicyDbRow :=
  let row name desc tenant prio :=
    mkPolicyRow (newid name) name name (Some desc) "test" None "null" "null" (Some prio) (Some true) (Some tenant)
      None None now in
  [row "healthcare_compliance_policy" "HIPAA compliance for healthcare data" "healthcare" 10;
   row "ecommerce_optimization_policy" "Performance optimization for e-commerce" "ecommerce" 5;
   row "global_rate_limiting" "Global rate limiting policy" "global" 1].

(** [insertSamplePolicies]: one transaction per policy; the first failure, after
    [ok] successes, stops. *)
Definition insertSamplePolicies (newid : string -> string) (now : Z) (ok : nat) (table : list PolicyDbRow)
  : list PolicyDbRow :=
  foldl (fun t r => upsert_row r t) table (take ok (samplePolicies newid now)).

Definition seedDefaultData (newid : string -> string) (now : Z) (mediaFault : bool) (countFault : bool) (ok : nat)
    (table : list PolicyDbRow) : list PolicyDbRow :=
  let table := seedSystemMediaPolicies newid now mediaFault table in
  if countFault then table
  else match table with [] => insertSamplePolicies newid now ok table | _ => table end.

(** The constructor after its connections opened: seed, load, and fall back to
    the built-in policy when nothing was loaded. *)
Definition NewDatabaseDynamicPolicyEngine (newid : string -> string) (now : Z) (mediaFault countFault : bool) (ok : nat)
    (fault : bool) (table : list PolicyDbRow) : DatabaseDynamicPolicyEngine * list PolicyDbRow :=
  let e := mkDbEngine [] now in
  let table := seedDefaultData newid now mediaFault countFault ok table in
  (match refreshPolicies e table fault now with
   | Err _ => loadDefaultPolicies e
   | Ok e' => match d_policies e' with [] => loadDefaultPolicies e' | _ => e' end
   end, table).

(** * Reading the cache *)

(** [GetPolicy] marks the entry it finds in the shared map. *)
Definition mark_accessed (m : cached) : cached := assoc_put "database_accessed" (EV (VBool true)) m.

Definition GetPolicy (e : DatabaseDynamicPolicyEngine) (name : string)
  : option cached * DatabaseDynamicPolicyEngine :=
  let found k := match assoc_get k (d_policies e) with
                 | Some m => (Some (mark_accessed m), mkDbEngine (assoc_put k (mark_accessed m) (d_policies e)) (d_lastRefresh e))
                 | None => (None, e)
                 end in
  match assoc_get name (d_policies e) with
  | Some _ => found name
  | None =>
      match find_first (fun x => bool_decide (entry_string "name" x.2 = Some name)) (d_policies e) with
      | Some (k, _) => found k
      | None => (None, e)
      end
  end.

(** Each value of [GetAllPolicies] is the shared map itself, next to the
    marker entry. *)
Definition GetAllPolicies (e : DatabaseDynamicPolicyEngine) : list (string * (cached + bool)) :=
  assoc_put "database_accessed" (inr true) ((fun x => (x.1, inl x.2)) <$> d_policies e).

Definition cachedPolicyToDynamicPolicy (cacheKey : string) (m : cached) : DynamicPolicy :=
  let md := entry_map "_metadata" m in
  let raw {A} (decode : string -> option (list A)) k :=
    match assoc_get k m with Some (ERaw text) => default [] (decode text) | _ => [] end in
  mkDynamic (default "" (entry_string "policy_id" m)) (cached_name cacheKey m) ""
    (default "database" (entry_string "type" m)) (default "" (entry_string "category" m))
    (raw decode_conditions "conditions") (raw decode_actions "actions")
    (default 0 (md ≫= get_int "priority")) true (default "" (md ≫= get_string "tenant_id")) "" false.

Definition db_ListActivePolicies (e : DatabaseDynamicPolicyEngine) : list DynamicPolicy :=
  (fun x => cachedPolicyToDynamicPolicy x.1 x.2) <$> d_policies e.

Definition db_ListActivePoliciesForTenant (e : DatabaseDynamicPolicyEngine) (tenantID : string) : list DynamicPolicy :=
  (fun x => cachedPolicyToDynamicPolicy x.1 x.2)
    <$> List.filter (fun x => dbCachedPolicyAppliesToTenant x.2 tenantID) (d_policies e).

(** [IsHealthy]: a live connection, a cache of at most five minutes (in
    nanoseconds), and some policy. *)
Definition db_IsHealthy (e : DatabaseDynamicPolicyEngine) (dbPresent pingOk : bool) (now : Z) : bool :=
  dbPresent && pingOk && negb (300000000000 <? now - d_lastRefresh e) &&
  match d_policies e with [] => false | _ => true end.

(** Properties of the database-backed dynamic policy engine: denial does not
    depend on the iteration order, tenant scoping, provider restrictions,
    refresh and seeding. *)

Section Denials.
Context `{U : Unicode} `{O : OpaqueFormat} (getenv : string -> string).

(** The actions that deny. *)
Definition db_denies (action : value) : bool :=
  match action with
  | VObj a => let ty := default "" (get_string "type" a) in str_eqb ty "block" || str_eqb ty "require_approval"
  | _ => false
  end.

Definition db_denying (req : OrchestratorRequest) (e : string * cached) : bool :=
  db_matches getenv e.2 req && existsb db_denies (parse_actions e.2).

Lemma db_apply_action_allowed name v a :
  v_Allowed (db_apply_action name v a) = v_Allowed v && negb (db_denies a).
Proof.
  unfold db_apply_action, db_denies. destruct a as [| | | | | | | |a| |]; try by rewrite andb_true_r.
  set (ty := default "" (get_string "type" a)). clearbody ty.
  destruct (str_eqb ty "route") eqn:E1; [apply str_eqb_true in E1 as ->; cbn; by rewrite andb_true_r|].
  destruct (str_eqb ty "block") eqn:E2; [cbn; by rewrite andb_false_r|].
  destruct (str_eqb ty "modify_risk") eqn:E3.
  { apply str_eqb_true in E3 as ->. destruct (get_float _ _); cbn; by rewrite andb_true_r. }
  destruct (str_eqb ty "require_approval") eqn:E4; cbn [orb negb]; [|by rewrite andb_true_r].
  rewrite raise_severity_allowed. cbn. by rewrite andb_false_r.
Qed.

Lemma db_actions_allowed name acts v :
  v_Allowed (foldl (db_apply_action name) v acts) = v_Allowed v && negb (existsb db_denies acts).
Proof.
  revert v. induction acts as [|a acts IH]; intros v; cbn [foldl existsb]; [by rewrite andb_true_r|].
  by rewrite IH, db_apply_action_allowed, negb_orb, andb_assoc.
Qed.

Lemma apply_rules_allowed m v : v_Allowed (apply_rules m v) = v_Allowed v.
Proof.
  unfold apply_rules. destruct (entry_map _ _) as [rules|]; [|done].
  set (w := match assoc_get "required_actions" rules with Some (VArr l) => _ | _ => _ end).
  assert (Hw : v_Allowed w = v_Allowed v) by (unfold w; repeat case_match; done).
  destruct (get_float _ _); [|done]. by destruct (f64_ltb _ _).
Qed.

Lemma db_evaluate_one_allowed req v e :
  v_Allowed (db_evaluate_one getenv req v e) = v_Allowed v && negb (db_denying req e).
Proof.
  destruct e as [k m]. unfold db_evaluate_one, db_denying. cbn [snd].
  destruct (db_matches getenv m req); cbn [andb negb]; [|by rewrite andb_true_r].
  cbn [v_Allowed add_name]. rewrite db_actions_allowed, apply_rules_allowed. done.
Qed.

Lemma db_allowed_fold req l v :
  v_Allowed (foldl (db_evaluate_one getenv req) v l) = v_Allowed v && negb (existsb (db_denying req) l).
Proof.
  revert v. induction l as [|e l IH]; intros v; cbn [foldl existsb]; [by rewrite andb_true_r|].
  by rewrite IH, db_evaluate_one_allowed, negb_orb, andb_assoc.
Qed.

(** Evaluation leaves the override fields unset. *)
Lemma db_override_unset e req : v_OverrideApplied (db_EvaluateDynamicPolicies getenv e req) = false.
Proof.
  assert (Ha : forall name acts v, v_OverrideApplied (foldl (db_apply_action name) v acts) = v_OverrideApplied v).
  { intros name acts. induction acts as [|a acts IH]; intros v; [done|]. cbn [foldl]. rewrite IH.
    unfold db_apply_action. destruct a; try done. unfold raise_severity. by repeat case_match. }
  assert (Hr : forall m v, v_OverrideApplied (apply_rules m v) = v_OverrideApplied v)
    by (intros m v; unfold apply_rules; by repeat case_match).
  unfold db_EvaluateDynamicPolicies.
  enough (H : forall l v, v_OverrideApplied (foldl (db_evaluate_one getenv req) v l) = v_OverrideApplied v) by by rewrite H.
  induction l as [|[k m] l IH]; intros v; [done|]. cbn [foldl]. rewrite IH. unfold db_evaluate_one.
  destruct (db_matches getenv m req); [|done]. cbn [v_OverrideApplied add_name]. by rewrite Ha, Hr.
Qed.

(** a request is denied exactly when some cached policy that applies to its
    tenant meets its conditions and has a [block] or [require_approval] action;
    the order in which the map is visited does not matter. *)
Theorem db_denied_exact e req :
  (v_Allowed (db_EvaluateDynamicPolicies getenv e req) = false <->
   exists k m, (k, m) ∈ d_policies e /\ dbCachedPolicyAppliesToTenant m (db_tenant req) = true /\
     conditions_hold getenv m req = true /\ existsb db_denies (parse_actions m) = true) /\
  (forall l, d_policies e ≡ₚ l ->
     v_Allowed (db_EvaluateDynamicPolicies getenv (mkDbEngine l (d_lastRefresh e)) req)
     = v_Allowed (db_EvaluateDynamicPolicies getenv e req)).
Proof.
  unfold db_EvaluateDynamicPolicies. cbn [d_policies]. split.
  - rewrite db_allowed_fold. cbn [v_Allowed initial_verdict andb]. rewrite negb_false_iff, existsb_In. split.
    + intros ([k m] & Hin & H). unfold db_denying, db_matches in H. cbn [snd] in H. exists k, m. by bool_simpl.
    + intros (k & m & Hin & H1 & H2 & H3). exists (k, m). split; [done|]. unfold db_denying, db_matches. cbn [snd].
      by rewrite H1, H2, H3.
  - intros l HP. rewrite !db_allowed_fold. do 2 f_equal. symmetry. by apply existsb_perm.
Qed.

(** Policies that do not apply to the request's tenant leave no trace in the
    verdict. *)
Theorem db_tenant_isolation e req :
  db_EvaluateDynamicPolicies getenv e req =
  db_EvaluateDynamicPolicies getenv
    (mkDbEngine (List.filter (fun x => dbCachedPolicyAppliesToTenant x.2 (db_tenant req)) (d_policies e)) (d_lastRefresh e)) req.
Proof.
  unfold db_EvaluateDynamicPolicies. cbn [d_policies]. generalize (initial_verdict true f64_zero).
  induction (d_policies e) as [|[k m] l IH]; intros v; [done|]. cbn [foldl List.filter snd].
  destruct (dbCachedPolicyAppliesToTenant m (db_tenant req)) eqn:E; [apply IH|].
  rewrite <- IH. do 2 f_equal. unfold db_evaluate_one, db_matches. by rewrite E.
Qed.
End Denials.

(** * Provider restrictions *)

Section Routing.
Context `{U : Unicode} `{O : OpaqueFormat} (getenv : string -> string).

(** How one list of allowed providers narrows the current one. *)
Definition narrow (old new : list string) : list string :=
  match new, old with
  | [], _ => old
  | _, [] => new
  | _, _ => intersect old new
  end.

(** The providers an action allows; empty when it is not a restriction. *)
Definition action_providers (action : value) : list string :=
  match action with
  | VObj a =>
      if str_eqb (default "" (get_string "type" a)) "route"
      then match assoc_get "allowed_providers" (default [] (get_map "config" a)) with
           | Some (VArr l) => strings_of l
           | _ => []
           end
      else []
  | _ => []
  end.

(** The restrictions of the policies a request matches, in visiting order. *)
Definition restrictions (e : DatabaseDynamicPolicyEngine) (req : OrchestratorRequest) : list (list string) :=
  concat ((fun x => if db_matches getenv x.2 req then action_providers <$> parse_actions x.2 else []) <$> d_policies e).

Lemma db_apply_action_providers name v a :
  rt_AllowedProviders (v_Routing (db_apply_action name v a))
  = narrow (rt_AllowedProviders (v_Routing v)) (action_providers a).
Proof.
  unfold db_apply_action, action_providers. destruct a as [| | | | | | | |a| |]; try done.
  set (ty := default "" (get_string "type" a)). clearbody ty. set (cfg := default [] (get_map "config" a)). clearbody cfg.
  destruct (str_eqb ty "route").
  { unfold db_apply_route. cbn [v_Routing set_routing rt_AllowedProviders].
    set (L := match assoc_get "allowed_providers" cfg with Some (VArr l) => strings_of l | _ => [] end). clearbody L.
    by destruct L, (rt_AllowedProviders (v_Routing v)). }
  destruct (str_eqb ty "block"); [done|].
  destruct (str_eqb ty "modify_risk"); [by destruct (get_float _ _)|].
  destruct (str_eqb ty "require_approval"); [|done]. by rewrite raise_severity_routing.
Qed.

Lemma apply_rules_routing m v : v_Routing (apply_rules m v) = v_Routing v.
Proof.
  unfold apply_rules. destruct (entry_map _ _) as [rules|]; [|done].
  set (w := match assoc_get "required_actions" rules with Some (VArr l) => _ | _ => _ end).
  assert (Hw : v_Routing w = v_Routing v) by (unfold w; repeat case_match; done).
  destruct (get_float _ _); [|done]. by destruct (f64_ltb _ _).
Qed.

Lemma actions_providers name acts v :
  rt_AllowedProviders (v_Routing (foldl (db_apply_action name) v acts))
  = foldl narrow (rt_AllowedProviders (v_Routing v)) (action_providers <$> acts).
Proof.
  revert v. induction acts as [|a acts IH]; intros v; [done|]. cbn [foldl fmap list_fmap].
  by rewrite IH, db_apply_action_providers.
Qed.

Lemma db_providers_fold req l v :
  rt_AllowedProviders (v_Routing (foldl (db_evaluate_one getenv req) v l))
  = foldl narrow (rt_AllowedProviders (v_Routing v))
      (concat ((fun x => if db_matches getenv x.2 req then action_providers <$> parse_actions x.2 else []) <$> l)).
Proof.
  revert v. induction l as [|[k m] l IH]; intros v; [done|]. cbn [foldl fmap list_fmap concat snd].
  rewrite IH, foldl_app. f_equal. unfold db_evaluate_one. destruct (db_matches getenv m req); [|done].
  cbn [v_Routing add_name]. rewrite actions_providers, apply_rules_routing. done.
Qed.

Lemma db_allowed_providers e req :
  rt_AllowedProviders (v_Routing (db_EvaluateDynamicPolicies getenv e req)) = foldl narrow [] (restrictions e req).
Proof. apply db_providers_fold. Qed.

Lemma elem_of_intersect x l1 l2 : x ∈ intersect l1 l2 <-> x ∈ l1 /\ x ∈ l2.
Proof. unfold intersect. by rewrite elem_of_filter_bool, str_in_true. Qed.

(** Narrowing by lists that share a provider keeps it, and stays inside every
    list. *)
Lemma narrow_common p Ls : Forall (fun L => L = [] \/ p ∈ L) Ls ->
  forall old, p ∈ old ->
  p ∈ foldl narrow old Ls /\ foldl narrow old Ls ⊆ old /\ Forall (fun L => L = [] \/ foldl narrow old Ls ⊆ L) Ls.
Proof.
  induction 1 as [|L Ls HL _ IH]; intros old Hold; [done|]. cbn [foldl].
  assert (Hn : p ∈ narrow old L /\ narrow old L ⊆ old /\ (L = [] \/ narrow old L ⊆ L)).
  { destruct HL as [->|HL]; [by destruct old; auto|].
    destruct L as [|y L]; [by apply elem_of_nil in HL|]. destruct old as [|z old]; [by apply elem_of_nil in Hold|].
    cbn [narrow]. split; [by apply elem_of_intersect|].
    split; [|right]; intros x Hx; by apply elem_of_intersect in Hx as [? ?]. }
  destruct Hn as (Hp & Hsub & HinL). destruct (IH _ Hp) as (H1 & H2 & H3).
  split; [done|]. split; [set_solver|]. constructor; [|done]. destruct HinL as [?|?]; [by left|right; set_solver].
Qed.

(** when the provider restrictions of the policies a request matches have a
    provider in common, the verdict keeps it and allows only providers that
    every one of those policies allows, in whatever order they are visited. *)
Theorem db_route_compliant e req p :
  Forall (fun L => L = [] \/ p ∈ L) (restrictions e req) -> Exists (fun L => L <> []) (restrictions e req) ->
  let allowed := rt_AllowedProviders (v_Routing (db_EvaluateDynamicPolicies getenv e req)) in
  p ∈ allowed /\ Forall (fun L => L = [] \/ allowed ⊆ L) (restrictions e req).
Proof.
  cbn zeta. rewrite db_allowed_providers. induction (restrictions e req) as [|L Ls IH]; intros HF HE; [inv HE|].
  apply Forall_cons in HF as [HL HF]. cbn [foldl]. destruct L as [|y L].
  - cbn [narrow]. destruct IH as [IH1 IH2]; [done|by inversion HE as [? ? H|]; subst|].
    split; [done|]. constructor; [by left|done].
  - destruct HL as [|HL]; [done|]. cbn [narrow]. destruct (narrow_common p Ls HF (y :: L) HL) as (H1 & H2 & H3).
    split; [done|]. constructor; [by right|done].
Qed.
End Routing.

(** * Refresh and seeding *)

Section Refresh.
Context `{U : Unicode} `{O : OpaqueFormat} (getenv : string -> string).

Lemma foldl_put_get {A} (l : list (string * A)) acc k :
  NoDup l.*1 ->
  assoc_get k (foldl (fun acc e => assoc_put e.1 e.2 acc) acc l)
  = match assoc_get k l with Some v => Some v | None => assoc_get k acc end.
Proof.
  revert acc. induction l as [|[j v] l IH]; intros acc; [done|].
  cbn [fmap list_fmap fst]. intros [Hj Hl]%NoDup_cons. cbn [foldl assoc_get fst snd]. rewrite IH by done.
  rewrite assoc_get_put. destruct (str_eqb k j) eqn:E; [|done]. apply str_eqb_true in E as ->.
  by rewrite (proj2 (assoc_get_None j l)).
Qed.

(** A row the refresh loads: enabled, with a policy id and a priority. *)
Definition loadable (r : PolicyDbRow) : Prop :=
  dr_enabled r = Some true /\ dr_policy_id r <> "" /\ exists p, dr_priority r = Some p.

Lemma select_policies_elem table r : r ∈ select_policies table <-> r ∈ table /\ dr_enabled r = Some true.
Proof.
  unfold select_policies. rewrite SliceStable_perm, elem_of_filter_bool.
  destruct (dr_enabled r) as [[]|]; cbn; split; intros [? ?]; split; done.
Qed.

Lemma cached_of_row_key now r k m : dr_policy_id r <> "" -> cached_of_row now r = Some (k, m) -> k = dr_policy_id r.
Proof.
  intros Hne. unfold cached_of_row. destruct (dr_priority r); [|done]. cbn.
  rewrite (proj2 (str_eqb_false _ _) Hne). by intros [= <- _].
Qed.

Lemma cached_keys now l :
  Forall (fun r => dr_policy_id r <> "") l -> (omap (cached_of_row now) l).*1 `sublist_of` (dr_policy_id <$> l).
Proof.
  induction 1 as [|r l Hr _ IH]; cbn [omap list_omap fmap list_fmap]; [done|].
  destruct (cached_of_row now r) as [[k m]|] eqn:E; cbn [fmap list_fmap fst].
  - apply cached_of_row_key in E as ->; [|done]. by constructor.
  - by constructor.
Qed.

(** after a refresh the cache holds, under its policy id, exactly the rows
    that are enabled and have a priority, with the row's tenant, conditions and
    actions; nothing of the previous cache remains. *)
Theorem refresh_exact e table now e' :
  NoDup (dr_policy_id <$> table) -> Forall (fun r => dr_policy_id r <> "") table ->
  refreshPolicies e table false now = Ok e' ->
  forall k m, assoc_get k (d_policies e') = Some m <->
    exists r, r ∈ table /\ loadable r /\ k = dr_policy_id r /\ cached_of_row now r = Some (k, m).
Proof.
  intros Hn Hne [= <-] k m. cbn [d_policies]. unfold load_rows.
  assert (Hn' : NoDup (omap (cached_of_row now) (select_policies table)).*1).
  { eapply sublist_NoDup; [|apply cached_keys].
    - unfold select_policies. rewrite SliceStable_perm. eapply sublist_NoDup; [exact Hn|].
      clear. induction table as [|x t IH]; cbn; [done|]. destruct (default false (dr_enabled x)); cbn; by constructor.
    - apply Forall_forall. intros r Hr. apply select_policies_elem in Hr as [Hr _]. rewrite Forall_forall in Hne. auto. }
  rewrite foldl_put_get by done. cbn [assoc_get]. split.
  - destruct (assoc_get k _) as [m'|] eqn:E; [|done]. intros [= <-].
    apply assoc_get_elem, list_elem_of_omap in E as (r & Hr & HE). apply select_policies_elem in Hr as [Hr He].
    rewrite Forall_forall in Hne. pose proof (cached_of_row_key _ _ _ _ (Hne r Hr) HE).
    exists r. split_and!; try done. repeat split; [done|by apply Hne|].
    unfold cached_of_row in HE. destruct (dr_priority r); [by eexists|done].
  - intros (r & Hr & (He & _ & _) & -> & HE).
    rewrite (assoc_get_NoDup _ m); [done|done|]. apply list_elem_of_omap. exists r. split; [|done].
    by apply select_policies_elem.
Qed.

(** Seeding again changes nothing. *)
Lemma insert_row_ids r table : dr_policy_id <$> table `sublist_of` dr_policy_id <$> insert_row r table.
Proof.
  unfold insert_row. destruct (existsb _ _); [done|]. rewrite fmap_app. by apply sublist_inserts_r.
Qed.

Lemma insert_row_present r table : dr_policy_id r ∈ dr_policy_id <$> table -> insert_row r table = table.
Proof.
  intros H. unfold insert_row.
  replace (existsb _ _) with true; [done|]. symmetry. apply existsb_In.
  apply list_elem_of_fmap in H as (x & Hx & Hin). exists x. split; [done|]. by apply str_eqb_true.
Qed.

Lemma insert_row_adds r table : dr_policy_id r ∈ dr_policy_id <$> insert_row r table.
Proof.
  unfold insert_row. destruct (existsb _ _) eqn:E.
  - apply existsb_In in E as (x & Hx & HE%str_eqb_true). rewrite <- HE. by apply list_elem_of_fmap_2.
  - rewrite fmap_app, elem_of_app. right. by left.
Qed.

Lemma seed_ids rows table :
  dr_policy_id <$> table ⊆ dr_policy_id <$> foldl (fun t r => insert_row r t) table rows /\
  dr_policy_id <$> rows ⊆ dr_policy_id <$> foldl (fun t r => insert_row r t) table rows.
Proof.
  revert table. induction rows as [|r rows IH]; intros table; [cbn; set_solver|]. cbn [foldl fmap list_fmap].
  destruct (IH (insert_row r table)) as [H1 H2].
  pose proof (insert_row_adds r table) as Ha.
  assert (Hs : dr_policy_id <$> table ⊆ dr_policy_id <$> insert_row r table)
    by (intros x Hx; eapply elem_of_sublist; [exact Hx|apply insert_row_ids]).
  split; [set_solver|]. intros x [->|Hx]%elem_of_cons; [by apply H1|by apply H2].
Qed.

Lemma seed_present rows table :
  dr_policy_id <$> rows ⊆ dr_policy_id <$> table -> foldl (fun t r => insert_row r t) table rows = table.
Proof.
  induction rows as [|r rows IH]; [done|]. cbn [foldl fmap list_fmap]. intros H.
  rewrite insert_row_present by set_solver. apply IH. set_solver.
Qed.

(** Seeding the system media policies is idempotent, across restarts with other
    ids and clocks too. *)
Theorem seed_idempotent newid newid' now now' table :
  let seeded := seedSystemMediaPolicies newid now false table in
  seedSystemMediaPolicies newid' now' false seeded = seeded.
Proof.
  cbn zeta. unfold seedSystemMediaPolicies. apply seed_present.
  destruct (seed_ids (systemMediaPolicies newid now) table) as [_ H].
  etransitivity; [|exact H]. done.
Qed.

(** A new engine always holds some policy, so it reports healthy, whatever
    fails while it starts. *)
Theorem fresh_engine_healthy newid now mediaFault countFault ok fault table :
  let e := (NewDatabaseDynamicPolicyEngine newid now mediaFault countFault ok fault table).1 in
  db_IsHealthy e true true now = true.
Proof.
  cbn zeta. unfold NewDatabaseDynamicPolicyEngine. cbn [fst].
  set (t := seedDefaultData _ _ _ _ _ _). clearbody t. unfold refreshPolicies.
  unfold db_IsHealthy. destruct fault; [|cbn [d_policies]; destruct (load_rows now t) as [|x l] eqn:E];
    cbn [loadDefaultPolicies d_policies d_lastRefresh andb]; rewrite Z.sub_diag; reflexivity.
Qed.
End Refresh.

(** * Behaviours that differ from what the policies say *)

Section Gaps.
Context `{U : Unicode} `{O : OpaqueFormat} (getenv : string -> string).

(** A missing field counts as zero: a [less_than] condition with a positive
    bound holds for a request that has no such field, where the in-memory
    engine's does not. *)
Theorem missing_field_is_zero field bound req cond risk :
  db_getFieldValue getenv field req = VNil -> f64_ltb f64_zero bound = true ->
  get_string "field" cond = Some field -> get_string "operator" cond = Some "less_than" ->
  get_any "value" cond = VFloat bound ->
  db_evaluateCondition getenv cond req = true /\
  (getFieldValue field req risk = VNil -> evaluateCondition (mkCondition field "less_than" (VFloat bound)) req risk = false).
Proof.
  intros Hf Hb Hc Ho Hv. split.
  - unfold db_evaluateCondition. rewrite Hc, Ho, Hv. cbn [default from_option]. unfold id. rewrite Hf. cbn. exact Hb.
  - intros Hm. unfold evaluateCondition. cbn. by rewrite Hm.
Qed.

(** An unknown operator, or conditions that do not decode, switch a policy
    off. *)
Lemma bad_conditions_skip m req text :
  assoc_get "conditions" m = Some (ERaw text) -> unmarshal_maps text = None -> db_matches getenv m req = false.
Proof.
  intros Hm Hu. unfold db_matches, conditions_hold, parse_conditions. by rewrite Hm, Hu, andb_false_r.
Qed.
End Gaps.

Section Examples.
#[local] Existing Instance ascii_unicode.

Definition demo_env : string -> string := fun _ => "".

Definition route_row (id tenant providers : string) : PolicyDbRow :=
  mkPolicyRow id id id (Some "") "cost" None "[]"
    (Sqli.DQ ("[{~type~:~route~,~config~:{~allowed_providers~:[" +:+ providers +:+ "]}}]")) (Some 10) (Some true)
    (Some tenant) None None 0.

Definition demo_rows : list PolicyDbRow :=
  [route_row "p_eu" "acme" "~mistral~,~openai~"; route_row "p_hipaa" "acme" "~openai~,~azure~";
   route_row "p_other" "globex" "~local~"].

Definition engine_of (rows : list PolicyDbRow) : DatabaseDynamicPolicyEngine := mkDbEngine (load_rows 0 rows) 0.

Definition acme_request : OrchestratorRequest :=
  mkRequest "r" "hello" "chat" false (mkUser 1 "" "" "" [] "acme" "acme") (mkClient "c" "" "acme" "acme") [].

Lemma db_route_compliant_witness :
  Forall (fun L => L = [] \/ "openai" ∈ L) (restrictions demo_env (engine_of demo_rows) acme_request) /\
  "openai" ∈ rt_AllowedProviders (v_Routing (db_EvaluateDynamicPolicies demo_env (engine_of demo_rows) acme_request)).
Proof.
  assert (HR : restrictions demo_env (engine_of demo_rows) acme_request = [["mistral"; "openai"]; ["openai"; "azure"]])
    by (vm_compute; reflexivity).
  assert (HF : Forall (fun L => L = [] \/ "openai" ∈ L) (restrictions demo_env (engine_of demo_rows) acme_request)).
  { rewrite HR. repeat (constructor; [right; set_solver|]). constructor. }
  split; [exact HF|].
  apply (db_route_compliant demo_env (engine_of demo_rows) acme_request "openai" HF).
  rewrite HR. left. discriminate.
Defined.

(** Two policies without a common provider leave no restriction, and a third
    one then sets the list alone: the verdict allows a provider that the other
    two exclude. *)
Theorem disjoint_restrictions_fail_open :
  let rows := [route_row "p1" "acme" "~mistral~"; route_row "p2" "acme" "~azure~"] in
  rt_AllowedProviders (v_Routing (db_EvaluateDynamicPolicies demo_env (engine_of rows) acme_request)) = [] /\
  rt_AllowedProviders (v_Routing (db_EvaluateDynamicPolicies demo_env
    (engine_of (rows ++ [route_row "p3" "acme" "~openai~"])) acme_request)) = ["openai"].
Proof. split; vm_compute; reflexivity. Qed.

Lemma refresh_exact_witness :
  let e' := engine_of demo_rows in
  exists m, assoc_get "p_eu" (d_policies e') = Some m.
Proof.
  cbn zeta.
  assert (Hn : NoDup (dr_policy_id <$> demo_rows)) by (apply (bool_decide_unpack _); by vm_compute).
  assert (Hne : Forall (fun r => dr_policy_id r <> "") demo_rows) by (repeat constructor; discriminate).
  destruct (cached_of_row 0 (route_row "p_eu" "acme" "~mistral~,~openai~")) as [[k m]|] eqn:E; [|discriminate].
  exists m. apply (refresh_exact (mkDbEngine [] 0) demo_rows 0 (engine_of demo_rows) Hn Hne eq_refl "p_eu" m).
  exists (route_row "p_eu" "acme" "~mistral~,~openai~"). split; [by left|]. split; [|split].
  - split; [reflexivity|]. split; [discriminate|]. eexists. reflexivity.
  - reflexivity.
  - rewrite E. injection E as <- _. reflexivity.
Defined.
End Examples.
