(* ===== verification/DynGate.v ===== *)
(** Session overrides and the step-gate adapter,
    src/platform/orchestrator/override_enforcement.go and wcp_policy_adapter.go:
    the dynamic policy engine as the workflow service's policy evaluator.

    The policy engine is the function that gives the verdict of a request; the
    approval service is the answer it gives to an approval request. *)

From S2P Require Import Prelude GoFloat GoStrings GoStrconv PolicyTypes GoJSON GoFmt DynTypes WcpTypes WcpService DynPolicy DynDb.

Local Open Scope Z_scope.
Local Open Scope go_scope.

(** * Overrides *)

(** A row of policy_overrides. *)
Record OverrideRow := mkOverrideRow {
  ov_id : string;
  ov_policy_id : string;
  ov_policy_type : string;
  ov_tool_signature : option string;
  ov_reason : string;
  ov_expires_at : option Z;
  ov_tenant_id : option string;
  ov_org_id : string;
  ov_created_by : option string;
  ov_revoked_at : option Z;
  ov_action_override : option string;
  ov_created_at : Z;
}.

(** The table as one query sees it: its rows, whether row-level security
    applies to the connection, the database's clock, and whether the query
    fails. *)
Record OverrideDb := mkOverrideDb {
  od_rows : list OverrideRow;
  od_rls : bool;
  od_now : Z;
  od_fault : string -> bool;
}.

Record ActiveOverride := mkActive {
  ao_ID : string;
  ao_PolicyID : string;
  ao_PolicyType : string;
  ao_ToolSignature : string;
  ao_Reason : string;
  ao_ExpiresAt : option Z;
}.

(** The WHERE clause. *)
Definition override_selected (now : Z) (tenantID userEmail policyID toolSignature : string) (r : OverrideRow) : bool :=
  str_eqb (ov_policy_id r) policyID &&
  bool_decide (ov_created_by r = Some userEmail) &&
  (match ov_tenant_id r with Some t => str_eqb t tenantID | None => true end) &&
  (match ov_revoked_at r with None => true | Some _ => false end) &&
  (match ov_expires_at r with None => true | Some t => now <? t end) &&
  (match ov_tool_signature r with None => true | Some s => str_eqb s toolSignature end) &&
  (match ov_action_override r with None => true | Some a => str_eqb a "allow" end).

(** The rank of the ORDER BY clause. *)
Definition override_rank (toolSignature : string) (r : OverrideRow) : Z :=
  match ov_tool_signature r with
  | Some s => if str_eqb s toolSignature && negb (str_eqb toolSignature "") then 0 else 2
  | None => 1
  end.

Definition override_before (toolSignature : string) (a b : OverrideRow) : bool :=
  let ra := override_rank toolSignature a in
  let rb := override_rank toolSignature b in
  (ra <? rb) || ((ra =? rb) && (ov_created_at b <? ov_created_at a)).

Definition active_of (r : OverrideRow) : ActiveOverride :=
  mkActive (ov_id r) (ov_policy_id r) (ov_policy_type r) (default "" (ov_tool_signature r)) (ov_reason r) (ov_expires_at r).

(** [FindActiveOverride]; a nil database is [None]. *)
Definition FindActiveOverride (db : option OverrideDb) (scopeOrg tenantID userEmail policyID toolSignature : string)
  : result string (option ActiveOverride) :=
  match db with
  | None => Ok None
  | Some d =>
      if str_eqb userEmail "" || str_eqb policyID "" then Ok None
      else if od_fault d policyID then Err "query failed"
      else
        let scope := if str_eqb scopeOrg "" then tenantID else scopeOrg in
        let visible := List.filter (fun r => negb (od_rls d) || str_eqb (ov_org_id r) scope) (od_rows d) in
        let selected := List.filter (override_selected (od_now d) tenantID userEmail policyID toolSignature) visible in
        Ok (active_of <$> head (SliceStable (override_before toolSignature) selected))
  end.

Record OverrideAuditEntry := mkOverrideAudit {
  oa_OverrideID : string;
  oa_PolicyIDs : list string;
  oa_TenantID : string;
  oa_OrgID : string;
  oa_UserEmail : string;
  oa_ToolSignature : string;
  oa_Reason : string;
}.

(** The first overridable policy, in order, with an active override. *)
Fixpoint first_override (db : option OverrideDb) (tenantID orgID userEmail toolSignature : string)
    (l : list AppliedPolicyDetail) : option (AppliedPolicyDetail * ActiveOverride) :=
  match l with
  | [] => None
  | p :: l' =>
      let next := first_override db tenantID orgID userEmail toolSignature l' in
      if str_eqb (ad_RiskLevel p) "critical" || negb (ad_AllowOverride p) then next
      else match FindActiveOverride db orgID tenantID userEmail (ad_PolicyID p) toolSignature with
           | Ok (Some ov) => Some (p, ov)
           | _ => next
           end
  end.

(** The verdict afterwards, the override applied, and the audit events; the
    audit logger may be absent. *)
Definition ApplyOverrideToResult (db : option OverrideDb) (logger : bool) (v : PolicyEvaluationResult)
    (tenantID orgID userEmail toolSignature : string)
  : PolicyEvaluationResult * option ActiveOverride * list OverrideAuditEntry :=
  if v_Allowed v || str_eqb userEmail "" then (v, None, [])
  else
    match first_override db tenantID orgID userEmail toolSignature (v_AppliedPoliciesDetail v) with
    | None => (v, None, [])
    | Some (p, ov) =>
        (apply_override (ao_ID ov) (ao_Reason ov) v, Some ov,
         if logger
         then [mkOverrideAudit (ao_ID ov) [ad_PolicyID p] tenantID orgID userEmail toolSignature (ao_Reason ov)] else [])
    end.

Definition SelectOverridablePolicy (policies : list AppliedPolicyDetail) : option AppliedPolicyDetail :=
  find_first (fun p => negb (str_eqb (ad_RiskLevel p) "critical") && ad_AllowOverride p) policies.

(** * The adapter *)

Definition toolNameForContext (step : StepGateContext) : string :=
  match gc_ToolContext step with Some t => ToolName t | None => "" end.
Definition toolTypeForContext (step : StepGateContext) : string :=
  match gc_ToolContext step with Some t => ToolType t | None => "" end.

(** At most fifty tool inputs, in key order. *)
Definition tool_entries (t : ToolContext) : list (string * value) :=
  (fun e => ("tool_input." +:+ e.1, e.2)) <$> take 50 (SliceStable (fun a b => str_before a.1 b.1) (ToolInput t)).

(** The entries written to the context map, in the order they are written. *)
Definition context_entries (step : StepGateContext) : list (string * value) :=
  [("workflow_id", VString (gc_WorkflowID step)); ("workflow_name", VString (gc_WorkflowName step));
   ("source", VString (gc_Source step)); ("step_id", VString (gc_StepID step));
   ("step_name", VString (gc_StepName step)); ("step_type", VString (gc_StepType step));
   ("step_index", VInt (gc_StepIndex step)); ("model", VString (gc_Model step));
   ("provider", VString (gc_Provider step))] ++
  ((fun e => ("step_input." +:+ e.1, e.2)) <$> gc_StepInput step) ++
  match gc_ToolContext step with
  | None => []
  | Some t =>
      ("tool_name", VString (ToolName t)) ::
      (if str_eqb (ToolType t) "" then [] else [("tool_type", VString (ToolType t))]) ++ tool_entries t
  end ++
  [("step.gate_count", VInt (gc_GateCount step)); ("step.completion_count", VInt (gc_CompletionCount step));
   ("step.prior_completion_status", VString (gc_PriorCompletionStatus step));
   ("step.prior_output_available", VBool (gc_PriorOutputAvailable step));
   ("step.last_decision", VString (gc_LastDecision step));
   ("step.first_attempt_age_seconds", VInt (gc_FirstAttemptAgeSeconds step));
   ("step.idempotency_key", VString (gc_IdempotencyKey step))].

Definition convertToOrchestratorRequest (step : StepGateContext) : OrchestratorRequest :=
  mkRequest (gc_WorkflowID step +:+ "_" +:+ gc_StepID step) "" "workflow_step_gate" false
    (mkUser 0 "" "" "" [] (gc_TenantID step) "")
    (mkClient (gc_ClientID step) "" (gc_OrgID step) (gc_TenantID step))
    (foldl (fun m e => assoc_put e.1 e.2 m) [] (context_entries step)).

Definition deriveSeverityFromResult (v : PolicyEvaluationResult) : string :=
  if negb (str_eqb (v_Severity v) "") then v_Severity v
  else if f64_leb (f64_lit 8 10) (v_RiskScore v) then "critical"
  else if f64_leb (f64_lit 5 10) (v_RiskScore v) then "high"
  else if f64_leb (f64_lit 3 10) (v_RiskScore v) then "medium"
  else "low".

(** The decision and reason of a verdict, before the override note. *)
Definition gate_decision (v : PolicyEvaluationResult) : string * string :=
  if v_Allowed v then (GateDecisionAllow, "No matching policies")
  else if existsb (fun a => str_eqb a "require_approval" || str_eqb a "human_review") (v_RequiredActions v)
  then (GateDecisionRequireApproval, "Step requires human approval")
  else (GateDecisionBlock, "Step blocked by policy").

Definition gate_matches (v : PolicyEvaluationResult) (decision : string) : list StepPolicy :=
  match v_AppliedPoliciesDetail v with
  | [] => (fun n => mkStepPolicy n n decision "" "" false "" "") <$> v_AppliedPolicies v
  | l => (fun p => mkStepPolicy (ad_PolicyID p) (ad_PolicyName p) decision "" (ad_RiskLevel p) (ad_AllowOverride p)
                     (ad_MatchedRule p) (ad_Description p)) <$> l
  end.

Definition convertToStepGateEvaluation (v : PolicyEvaluationResult) : StepGateEvaluation :=
  let '(decision, reason) := gate_decision v in
  let matches := gate_matches v decision in
  mkEvaluation decision
    (if v_OverrideApplied v && negb (str_eqb (v_OverrideID v) "")
     then "Allowed by session override " +:+ v_OverrideID v else reason)
    (v_AppliedPolicies v) matches (if v_Allowed v then [] else matches) "".

Record HITLApprovalRequest := mkHitl {
  hr_OrgID : string;
  hr_TenantID : string;
  hr_ClientID : string;
  hr_UserID : string;
  hr_ExecutionID : string;
  hr_StepName : string;
  hr_StepType : string;
  hr_PolicyID : string;
  hr_PolicyName : string;
  hr_TriggerReason : string;
  hr_Severity : string;
  hr_RequestContext : list (string * value);
}.

Definition uuid_Nil : string := "00000000-0000-0000-0000-000000000000".

(** The policy an approval request names. *)
Definition hitl_policy (v : PolicyEvaluationResult) : string * string :=
  if negb (str_eqb (v_SeverityPolicyID v) "") then (v_SeverityPolicyID v, v_SeverityPolicyID v)
  else match v_AppliedPolicies v with n :: _ => (n, n) | [] => ("", "unknown") end.

Definition hitl_request (step : StepGateContext) (v : PolicyEvaluationResult) : HITLApprovalRequest :=
  let '(policyID, policyName) := hitl_policy v in
  mkHitl (gc_OrgID step) (gc_TenantID step) (gc_ClientID step) (gc_UserID step) (gc_WorkflowID step) (gc_StepName step)
    (gc_StepType step) policyID policyName "Step requires human approval per policy" (deriveSeverityFromResult v)
    [("workflow_id", VString (gc_WorkflowID step)); ("step_id", VString (gc_StepID step));
     ("workflow_name", VString (gc_WorkflowName step)); ("step_index", VInt (gc_StepIndex step));
     ("model", VString (gc_Model step)); ("provider", VString (gc_Provider step));
     ("tool_name", VString (toolNameForContext step)); ("tool_type", VString (toolTypeForContext step))].

(** The approval service: the id of a created approval, or an error. *)
Definition ApprovalService := HITLApprovalRequest -> option string.

Definition createHITLApproval (hitl : option ApprovalService) (step : StepGateContext) (v : PolicyEvaluationResult) : string :=
  match hitl with
  | None => uuid_Nil
  | Some create => default uuid_Nil (create (hitl_request step v))
  end.

Record WCPPolicyAdapter := mkAdapter {
  wa_engine : option (OrchestratorRequest -> PolicyEvaluationResult);
  wa_hitlApproval : option ApprovalService;
}.

Definition NewWCPPolicyAdapter (engine : option (OrchestratorRequest -> PolicyEvaluationResult)) : WCPPolicyAdapter :=
  mkAdapter engine None.
Definition SetHITLApproval (a : WCPPolicyAdapter) (s : ApprovalService) : WCPPolicyAdapter := mkAdapter (wa_engine a) (Some s).

(** The verdict of a step after overrides, with the audit events. *)
Definition step_verdict (engine : OrchestratorRequest -> PolicyEvaluationResult) (db : option OverrideDb) (logger : bool)
    (step : StepGateContext) : PolicyEvaluationResult * list OverrideAuditEntry :=
  let v := engine (convertToOrchestratorRequest step) in
  if v_Allowed v then (v, [])
  else
    let '(v', _, events) :=
      ApplyOverrideToResult db logger v (gc_TenantID step) (gc_OrgID step) (gc_UserID step) (toolNameForContext step) in
    (v', events).

Definition adapter_EvaluateStepGate (a : WCPPolicyAdapter) (db : option OverrideDb) (logger : bool) (step : StepGateContext)
  : StepGateEvaluation :=
  match wa_engine a with
  | None => mkEvaluation GateDecisionAllow "No policy engine configured" [] [] [] ""
  | Some engine =>
      let '(v, _) := step_verdict engine db logger step in
      let ev := convertToStepGateEvaluation v in
      if str_eqb (ev_Decision ev) GateDecisionRequireApproval then
        match wa_hitlApproval a with
        | None => ev
        | Some _ =>
            let id := createHITLApproval (wa_hitlApproval a) step v in
            if str_eqb id uuid_Nil then ev
            else mkEvaluation (ev_Decision ev) (ev_Reason ev) (ev_PolicyIDs ev) (ev_PoliciesEvaluated ev)
                   (ev_PoliciesMatched ev) id
        end
      else ev
  end.

(** The adapter is a policy evaluator of the workflow service. *)
Definition adapter_evaluator (a : WCPPolicyAdapter) (db : option OverrideDb) (logger : bool) : PolicyEvaluator :=
  adapter_EvaluateStepGate a db logger.

(** Properties of session overrides and of the step gate: when an override
    flips a denial, what the gate decides, and which fields of a step a policy
    can trust. *)

(** * Overrides *)

(** A row that is an active override of [policyID] for the caller. *)
Definition active_row (d : OverrideDb) (scope tenantID userEmail policyID tool : string) (r : OverrideRow) : Prop :=
  r ∈ od_rows d /\ (od_rls d = true -> ov_org_id r = scope) /\
  ov_policy_id r = policyID /\ ov_created_by r = Some userEmail /\
  (ov_tenant_id r = Some tenantID \/ ov_tenant_id r = None) /\ ov_revoked_at r = None /\
  (forall t, ov_expires_at r = Some t -> od_now d < t) /\
  (ov_tool_signature r = None \/ ov_tool_signature r = Some tool) /\
  (ov_action_override r = None \/ ov_action_override r = Some "allow").

Lemma override_selected_iff now tenantID userEmail policyID tool r :
  override_selected now tenantID userEmail policyID tool r = true <->
  ov_policy_id r = policyID /\ ov_created_by r = Some userEmail /\
  (ov_tenant_id r = Some tenantID \/ ov_tenant_id r = None) /\ ov_revoked_at r = None /\
  (forall t, ov_expires_at r = Some t -> now < t) /\
  (ov_tool_signature r = None \/ ov_tool_signature r = Some tool) /\
  (ov_action_override r = None \/ ov_action_override r = Some "allow").
Proof.
  unfold override_selected. rewrite !andb_true_iff, str_eqb_true, bool_decide_eq_true.
  destruct (ov_tenant_id r) as [t|], (ov_revoked_at r), (ov_expires_at r) as [x|], (ov_tool_signature r) as [s|],
    (ov_action_override r) as [a|]; rewrite ?str_eqb_true, ?Z.ltb_lt; naive_solver.
Qed.

Definition scope_of (orgID tenantID : string) : string := if str_eqb orgID "" then tenantID else orgID.

Lemma FindActiveOverride_spec d orgID tenantID userEmail policyID tool :
  userEmail <> "" -> policyID <> "" -> od_fault d policyID = false ->
  match FindActiveOverride (Some d) orgID tenantID userEmail policyID tool with
  | Ok (Some ov) => exists r, active_row d (scope_of orgID tenantID) tenantID userEmail policyID tool r /\ ov = active_of r
  | Ok None => forall r, ~ active_row d (scope_of orgID tenantID) tenantID userEmail policyID tool r
  | Err _ => False
  end.
Proof.
  intros Hu Hp Hf. unfold FindActiveOverride.
  rewrite (proj2 (str_eqb_false _ _) Hu), (proj2 (str_eqb_false _ _) Hp), Hf. cbn [orb].
  fold (scope_of orgID tenantID). set (sel := List.filter _ _).
  assert (Hsel : forall r, r ∈ sel <-> active_row d (scope_of orgID tenantID) tenantID userEmail policyID tool r).
  { intros r. unfold sel, active_row. rewrite !elem_of_filter_bool, override_selected_iff, orb_true_iff, str_eqb_true, negb_true_iff.
    destruct (od_rls d); naive_solver. }
  clearbody sel. destruct (SliceStable (override_before tool) sel) as [|r l] eqn:E; cbn.
  - intros r Hr%Hsel. rewrite <- (SliceStable_perm (override_before tool)), E in Hr. by apply elem_of_nil in Hr.
  - exists r. split; [|done]. apply Hsel. rewrite <- (SliceStable_perm (override_before tool)), E. by left.
Qed.

Definition overridable (p : AppliedPolicyDetail) : bool := negb (str_eqb (ad_RiskLevel p) "critical") && ad_AllowOverride p.

Lemma first_override_spec d tenantID orgID userEmail tool l :
  userEmail <> "" ->
  match first_override (Some d) tenantID orgID userEmail tool l with
  | Some (p, ov) => p ∈ l /\ overridable p = true /\ od_fault d (ad_PolicyID p) = false /\
      exists r, active_row d (scope_of orgID tenantID) tenantID userEmail (ad_PolicyID p) tool r /\ ov = active_of r
  | None => forall p, p ∈ l -> overridable p = true -> ad_PolicyID p <> "" -> od_fault d (ad_PolicyID p) = false ->
      forall r, ~ active_row d (scope_of orgID tenantID) tenantID userEmail (ad_PolicyID p) tool r
  end.
Proof.
  intros Hu. induction l as [|p l IH]; cbn [first_override]; [by intros ? ?%elem_of_nil|].
  set (next := first_override (Some d) tenantID orgID userEmail tool l) in *.
  assert (Hskip : (overridable p = true -> ad_PolicyID p <> "" -> od_fault d (ad_PolicyID p) = false ->
                   forall r, ~ active_row d (scope_of orgID tenantID) tenantID userEmail (ad_PolicyID p) tool r) ->
    match next with
    | Some (q, ov) => q ∈ p :: l /\ overridable q = true /\ od_fault d (ad_PolicyID q) = false /\
        exists r, active_row d (scope_of orgID tenantID) tenantID userEmail (ad_PolicyID q) tool r /\ ov = active_of r
    | None => forall q, q ∈ p :: l -> overridable q = true -> ad_PolicyID q <> "" -> od_fault d (ad_PolicyID q) = false ->
        forall r, ~ active_row d (scope_of orgID tenantID) tenantID userEmail (ad_PolicyID q) tool r
    end).
  { intros Hp. destruct next as [[q ov]|]; [destruct IH as (? & ?); split; [by right|done]|].
    intros q [->|Hq]%elem_of_cons; [done|by apply IH]. }
  destruct (_ || _) eqn:Eo.
  { apply Hskip. unfold overridable.
    replace (negb (str_eqb (ad_RiskLevel p) "critical") && ad_AllowOverride p) with false; [done|].
    symmetry. apply orb_true_iff in Eo as [->|H]; [done|]. apply negb_true_iff in H as ->. by rewrite andb_false_r. }
  apply orb_false_iff in Eo as [E1 E2%negb_false_iff].
  destruct (decide (ad_PolicyID p = "")) as [Hid|Hid].
  { replace (FindActiveOverride (Some d) orgID tenantID userEmail (ad_PolicyID p) tool) with (Ok (E := string) (@None ActiveOverride)).
    - by apply Hskip.
    - unfold FindActiveOverride. by rewrite Hid, orb_true_r. }
  destruct (od_fault d (ad_PolicyID p)) eqn:Ef.
  { replace (FindActiveOverride (Some d) orgID tenantID userEmail (ad_PolicyID p) tool) with (Err (A := option ActiveOverride) "query failed").
    - by apply Hskip.
    - unfold FindActiveOverride. by rewrite (proj2 (str_eqb_false _ _) Hu), (proj2 (str_eqb_false _ _) Hid), Ef. }
  pose proof (FindActiveOverride_spec d orgID tenantID userEmail (ad_PolicyID p) tool Hu Hid Ef) as HF.
  destruct (FindActiveOverride _ _ _ _ _ _) as [[ov|]|]; [|by apply Hskip|done].
  split; [by left|]. split; [by unfold overridable; rewrite E1, E2|]. done.
Qed.

(** an override allows a denied request exactly when the caller is known and
    some matched policy that is neither critical nor closed to overrides has,
    for this caller, tenant, organisation and tool, an override that is
    neither revoked nor expired and is not an action override. A lookup that
    fails counts as no override. *)
Theorem override_flip_iff d logger v tenantID orgID userEmail tool :
  v_Allowed v = false ->
  Forall (fun p => ad_PolicyID p <> "") (v_AppliedPoliciesDetail v) ->
  v_Allowed (ApplyOverrideToResult (Some d) logger v tenantID orgID userEmail tool).1.1 = true <->
  userEmail <> "" /\
  exists p r, p ∈ v_AppliedPoliciesDetail v /\ ad_RiskLevel p <> "critical" /\ ad_AllowOverride p = true /\
    od_fault d (ad_PolicyID p) = false /\
    active_row d (scope_of orgID tenantID) tenantID userEmail (ad_PolicyID p) tool r.
Proof.
  intros Hv Hids. unfold ApplyOverrideToResult. rewrite Hv. cbn [orb].
  destruct (str_eqb userEmail "") eqn:Eu.
  { apply str_eqb_true in Eu. cbn [fst]. rewrite Hv. split; [done|]. by intros [? _]. }
  apply str_eqb_false in Eu. pose proof (first_override_spec d tenantID orgID userEmail tool (v_AppliedPoliciesDetail v) Eu) as HF.
  destruct (first_override _ _ _ _ _ _) as [[p ov]|].
  - destruct HF as (Hp & Ho & Hf & r & Hr & _). cbn. split; [|done]. intros _. split; [done|].
    unfold overridable in Ho. apply andb_true_iff in Ho as [H1%negb_true_iff%str_eqb_false H2]. by exists p, r.
  - cbn [fst]. rewrite Hv. split; [done|]. intros (_ & p & r & Hp & H1 & H2 & H3 & H4). exfalso.
    rewrite Forall_forall in Hids. eapply (HF p Hp); [|by apply Hids|done|exact H4].
    unfold overridable. by rewrite (proj2 (str_eqb_false _ _) H1), H2.
Qed.

(** An override never touches an allowed verdict, and leaves everything but the
    decision and its own note. *)
Lemma override_keeps db logger v tenantID orgID userEmail tool :
  let v' := (ApplyOverrideToResult db logger v tenantID orgID userEmail tool).1.1 in
  (v_Allowed v = true -> v' = v) /\ v_AppliedPolicies v' = v_AppliedPolicies v /\
  v_AppliedPoliciesDetail v' = v_AppliedPoliciesDetail v /\ v_RequiredActions v' = v_RequiredActions v /\
  v_Routing v' = v_Routing v /\ v_RiskScore v' = v_RiskScore v.
Proof.
  cbn zeta. unfold ApplyOverrideToResult. destruct (v_Allowed v); cbn [orb]; [done|].
  destruct (str_eqb userEmail ""); [done|]. by destruct (first_override _ _ _ _ _ _) as [[p ov]|].
Qed.

(** * The gate *)



Section EndToEnd.
Context `{U : Unicode} `{O : OpaqueFormat} (getenv : string -> string).





End EndToEnd.

(** * What a policy can trust *)

(** The retry state a policy reads is the service's: no step input and no tool
    input can stand in for it. *)
Theorem gate_fields_trusted step :
  let ctx := or_Context (convertToOrchestratorRequest step) in
  get_any "step.gate_count" ctx = VInt (gc_GateCount step) /\
  get_any "step.completion_count" ctx = VInt (gc_CompletionCount step) /\
  get_any "step.prior_completion_status" ctx = VString (gc_PriorCompletionStatus step) /\
  get_any "step.prior_output_available" ctx = VBool (gc_PriorOutputAvailable step) /\
  get_any "step.last_decision" ctx = VString (gc_LastDecision step) /\
  get_any "step.first_attempt_age_seconds" ctx = VInt (gc_FirstAttemptAgeSeconds step) /\
  get_any "step.idempotency_key" ctx = VString (gc_IdempotencyKey step).
Proof.
  cbn zeta. unfold convertToOrchestratorRequest, context_entries. cbn [or_Context].
  rewrite !app_assoc, foldl_app. generalize (foldl (fun (m : list (string * value)) e => assoc_put e.1 e.2 m) []).
  intros f. set (acc := f _). clearbody acc. unfold get_any. cbn [foldl fst snd].
  repeat split; by rewrite !assoc_get_put.
Qed.

(** * Concrete gates *)

Section Examples.
#[local] Existing Instance ascii_unicode.

Definition gate_row (id risk : string) (overridable : bool) (action : string) : PolicyDbRow :=
  mkPolicyRow id id id (Some "") "workflow" None "[]"
    (Sqli.DQ ("[{~type~:~" +:+ action +:+ "~,~config~:{~reason~:~" +:+ id +:+ "~}}]")) (Some 10) (Some true)
    (Some "acme") (Some risk) (Some overridable) 0.

Definition demo_step (user : string) : StepGateContext :=
  mkGateContext "wf" "payouts" "external" "s1" "pay" "tool_call" [("amount", VInt 5)] "gpt" "openai" 0 "acme" "acme" user "cli"
    None 1 0 "none" false "" 0 "".

Definition demo_override : OverrideRow :=
  mkOverrideRow "ov1" "warn" "dynamic" None "on call" (Some 100) (Some "acme") "acme" (Some "ana") None (Some "allow") 1.

Definition demo_overrides : OverrideDb := mkOverrideDb [demo_override] true 50 (fun _ => false).

Definition gate_of (rows : list PolicyDbRow) : WCPPolicyAdapter :=
  NewWCPPolicyAdapter (Some (db_EvaluateDynamicPolicies demo_env (engine_of rows))).

Definition demo_gate (rows : list PolicyDbRow) (user : string) : string :=
  ev_Decision (adapter_EvaluateStepGate (gate_of rows) (Some demo_overrides) true (demo_step user)).

(** A critical policy alone cannot be overridden, but it does not stop the
    override of another matched policy from allowing the step: adding an
    overridable policy that also denies turns the block into an allow. *)
Theorem override_bypasses_critical :
  demo_gate [gate_row "crit" "critical" false "block"] "ana" = GateDecisionBlock /\
  demo_gate [gate_row "crit" "critical" false "block"; gate_row "warn" "low" true "block"] "ana" = GateDecisionAllow.
Proof. split; vm_compute; reflexivity. Qed.

(** A policy that only asks for approval weakens one that blocks: together they
    ask for approval. *)
Theorem approval_weakens_block :
  demo_gate [gate_row "crit" "critical" false "block"] "bob" = GateDecisionBlock /\
  demo_gate [gate_row "crit" "critical" false "block"; gate_row "ask" "low" false "require_approval"] "bob"
  = GateDecisionRequireApproval.
Proof. split; vm_compute; reflexivity. Qed.

Definition demo_verdict : PolicyEvaluationResult :=
  db_EvaluateDynamicPolicies demo_env (engine_of [gate_row "warn" "low" true "block"])
    (convertToOrchestratorRequest (demo_step "ana")).

Lemma override_flip_iff_witness :
  v_Allowed (ApplyOverrideToResult (Some demo_overrides) true demo_verdict "acme" "acme" "ana" "").1.1 = true.
Proof.
  apply (override_flip_iff demo_overrides true demo_verdict "acme" "acme" "ana" "").
  - vm_compute. reflexivity.
  - assert (H : v_AppliedPoliciesDetail demo_verdict = [mkDetail "warn" "warn" "" "block" "low" true ""])
      by (vm_compute; reflexivity).
    rewrite H. apply Forall_cons_2; [discriminate|apply Forall_nil_2].
  - split; [discriminate|]. exists (mkDetail "warn" "warn" "" "block" "low" true ""), demo_override. split_and!.
    + assert (H : v_AppliedPoliciesDetail demo_verdict = [mkDetail "warn" "warn" "" "block" "low" true ""])
        by (vm_compute; reflexivity). rewrite H. left.
    + discriminate.
    + reflexivity.
    + reflexivity.
    + split_and!; try reflexivity; try (by left); try (by right).
      intros t Ht. injection Ht as <-. cbn. lia.
Defined.


End Examples.
