(* ===== verification/OverrideApi.v ===== *)
(** Session overrides over HTTP, src/platform/orchestrator/overrides_handler.go:
    creating, revoking, reading and listing the overrides that the step gate
    applies.

    The store holds the rows of policy_overrides, of the two policy tables (in
    the order in which a query returns them) and of the workflow tables. With
    row-level security a statement sees the rows of the organization its
    transaction is scoped to, and a statement outside a scope sees none. A
    failing query is an argument; so are the clock, the fresh id, and whether a
    string is a UUID. A row without a creator cannot be scanned, which is an
    internal error. The events sent to the audit logger are left out. *)

From stdpp Require Import gmap.
From S2P Require Import Prelude GoStrings GoStrconv GoTime GoHttp Identity ServiceAuth AgentAuth AgentProxy WcpTypes WcpRepository DynTypes DynGate GoFloat.

Local Open Scope Z_scope.

(** * Data *)

Definition OverrideDefaultTTL : Z := 60 * Minute.
Definition OverrideHardCapTTL : Z := 24 * Hour.
Definition OverrideMinTTL : Z := Minute.
Definition OverrideReasonMaxLn : nat := 500.
Definition GlobalTenantSentinel : string := "global".

Record CreateOverrideRequest := mkCreateReq {
  cr_PolicyID : string;
  cr_PolicyType : string;
  cr_ToolSignature : string;
  cr_OverrideReason : string;
  cr_TTLSeconds : Z;
}.

Record CreateOverrideResponse := mkCreateResp {
  cp_ID : string;
  cp_PolicyID : string;
  cp_PolicyType : string;
  cp_ExpiresAt : Z;
  cp_TTLSeconds : Z;
  cp_RequestedTTL : Z;
  cp_Clamped : bool;
  cp_ClampedReason : string;
  cp_CreatedAt : Z;
}.

(** A row of policy_overrides with the columns only the API reads. *)
Record ApiRow := mkApiRow {
  ar_row : OverrideRow;
  ar_organization_id : option string;
  ar_revoked_by : option string;
}.

(** A row of static_policies or dynamic_policies; the slug is a column of the
    former only. *)
Record PolicyRow := mkPolicyRow {
  pp_id : string;
  pp_slug : string;
  pp_name : string;
  pp_tenant_id : string;
  pp_org_id : string;
  pp_risk_level : option string;
  pp_allow_override : option bool;
}.

Record OverrideStore := mkOvStore {
  os_overrides : list ApiRow;
  os_static : list PolicyRow;
  os_dynamic : list PolicyRow;
  os_workflows : Store;
  os_rls : bool;
}.

(** Which statements fail. *)
Record Faults := mkFaults { ft_policies : bool; ft_overrides : bool; ft_insert : bool; ft_steps : bool }.
Definition no_faults : Faults := mkFaults false false false false.

Definition set_overrides (s : OverrideStore) (l : list ApiRow) : OverrideStore :=
  mkOvStore l (os_static s) (os_dynamic s) (os_workflows s) (os_rls s).
Definition set_workflows (s : OverrideStore) (w : Store) : OverrideStore :=
  mkOvStore (os_overrides s) (os_static s) (os_dynamic s) w (os_rls s).

(** The table the step gate queries. *)
Definition gate_db (s : OverrideStore) (now : Z) : OverrideDb :=
  mkOverrideDb (ar_row <$> os_overrides s) (os_rls s) now (fun _ => false).

Section Api.
Context `{U : Unicode} (getenv : string -> string) (validator : option ServiceAuth.TokenValidator) (is_uuid : string -> bool).

(** * Lifetimes *)

(** (ttl, clamped, reason); the product wraps. *)
Definition clampOverrideTTL (requestedSeconds : Z) : Z * bool * string :=
  if requestedSeconds =? 0 then (OverrideDefaultTTL, false, "")
  else
    let requested := wrap64 (requestedSeconds * Second) in
    if OverrideHardCapTTL <? requested then (OverrideHardCapTTL, true, "exceeds_hard_cap")
    else if requested <? OverrideMinTTL then (OverrideMinTTL, true, "below_minimum")
    else (requested, false, "").

(** * Policies *)

Inductive lookup (A : Type) := Found (a : A) | NoRows | QueryError.
Arguments Found {A}. Arguments NoRows {A}. Arguments QueryError {A}.

(** Rows of a policy table that a transaction of this scope sees. *)
Definition visible_policies (s : OverrideStore) (scope : string) (l : list PolicyRow) : list PolicyRow :=
  List.filter (fun p => negb (os_rls s) || str_eqb (pp_org_id p) scope) l.

Definition tenancy (tenantID : string) (p : PolicyRow) : bool :=
  str_eqb (pp_tenant_id p) tenantID || str_eqb (pp_tenant_id p) "global".

Definition static_match (policyID : string) (p : PolicyRow) : bool := str_eqb (pp_id p) policyID || str_eqb (pp_slug p) policyID.
Definition dynamic_match (policyID : string) (p : PolicyRow) : bool := str_eqb (pp_id p) policyID || str_eqb (pp_name p) policyID.

(** A scoped pass: an empty scope is an error of the transaction. *)
Definition scoped {A} (f : Faults) (scope : string) (q : lookup A) : lookup A :=
  if str_eqb scope "" || ft_policies f then QueryError else q.

Definition risk_row (policyType : string) (p : PolicyRow) : lookup (string * bool * string) :=
  if str_eqb policyType "static" then
    match pp_risk_level p, pp_allow_override p with
    | Some r, Some a => Found (r, a, pp_id p)
    | _, _ => QueryError
    end
  else Found (default "medium" (pp_risk_level p), default false (pp_allow_override p), pp_id p).

Definition risk_pass (s : OverrideStore) (f : Faults) (tenantID policyID policyType scope : string) : lookup (string * bool * string) :=
  let '(table, matches) := if str_eqb policyType "static" then (os_static s, static_match policyID) else (os_dynamic s, dynamic_match policyID) in
  scoped f scope
    match find_first (fun p => matches p && tenancy tenantID p) (visible_policies s scope table) with
    | None => NoRows
    | Some p => risk_row policyType p
    end.

(** [policyRiskAndOverride]: risk, allow_override and the canonical id. *)
Definition policyRiskAndOverride (s : OverrideStore) (f : Faults) (tenantID policyID policyType : string)
  : lookup (string * bool * string) :=
  if negb (str_eqb policyType "static" || str_eqb policyType "dynamic") then QueryError
  else match risk_pass s f tenantID policyID policyType tenantID with
       | NoRows =>
           if negb (str_eqb tenantID GlobalTenantSentinel)
           then risk_pass s f tenantID policyID policyType GlobalTenantSentinel else NoRows
       | x => x
       end.

Definition uuid_pass (s : OverrideStore) (f : Faults) (tenantID policyID scope : string) : lookup string :=
  scoped f scope
    match find_first (fun p => static_match policyID p && tenancy tenantID p) (visible_policies s scope (os_static s)) with
    | Some p => Found (pp_id p)
    | None =>
        match find_first (fun p => dynamic_match policyID p && tenancy tenantID p) (visible_policies s scope (os_dynamic s)) with
        | Some p => Found (pp_id p)
        | None => NoRows
        end
    end.

(** [resolvePolicyUUID]; [Err] when the lookup fails. *)
Definition resolvePolicyUUID (s : OverrideStore) (f : Faults) (tenantID policyID : string) : result unit string :=
  if str_eqb policyID "" then Ok ""
  else
    let r := match uuid_pass s f tenantID policyID tenantID with
             | NoRows => if negb (str_eqb tenantID GlobalTenantSentinel)
                         then uuid_pass s f tenantID policyID GlobalTenantSentinel else NoRows
             | x => x
             end in
    match r with Found u => Ok u | NoRows => Ok "" | QueryError => Err tt end.

(** * Cached decisions *)

(** Every name of a policy: the id given, and the slugs and names of its rows. *)
Definition policy_synonyms (s : OverrideStore) (f : Faults) (tenantID policyID : string) : list string :=
  let pass scope :=
    if str_eqb scope "" || ft_policies f then []
    else
      (List.filter (fun p => (static_match policyID p || str_eqb (pp_name p) policyID) && tenancy tenantID p)
         (visible_policies s scope (os_static s)) ≫= fun p => [pp_slug p; pp_name p]) ++
      (List.filter (fun p => dynamic_match policyID p && tenancy tenantID p)
         (visible_policies s scope (os_dynamic s)) ≫= fun p => [pp_name p]) in
  policyID :: List.filter (fun n => negb (str_eqb n ""))
    (pass tenantID ++ (if str_eqb tenantID GlobalTenantSentinel then [] else pass GlobalTenantSentinel)).

Definition mentions (names : list string) (l : list StepPolicy) : bool :=
  existsb (fun p => str_in (sp_PolicyID p) names || str_in (sp_PolicyName p) names) l.

(** A denied step of the caller's workflows that names the policy. *)
Definition stale_step (names : list string) (tenantID userEmail : string) (w : Store) (st : WorkflowStep) : bool :=
  match workflows w !! s_WorkflowID st with
  | None => false
  | Some wf =>
      str_eqb (w_TenantID wf) tenantID && (str_eqb userEmail "" || str_eqb (w_UserID wf) userEmail) &&
      str_in (s_Decision st) ["block"; "require_approval"] &&
      (mentions names (s_PoliciesMatched st) || mentions names (s_PoliciesEvaluated st))
  end.

Definition invalidateCachedDeniedDecisions (s : OverrideStore) (f : Faults) (tenantID userEmail policyID : string) : OverrideStore :=
  if str_eqb policyID "" || str_eqb tenantID "" || ft_steps f then s
  else
    let names := policy_synonyms s f tenantID policyID in
    let w := os_workflows s in
    set_workflows s (mkStore (workflows w) (List.filter (fun st => negb (stale_step names tenantID userEmail w st)) (steps w))
                       (checkpoints w) (next_id w)).

(** * Creating *)

Definition validateCreateOverrideRequest (req : CreateOverrideRequest) : option string :=
  if str_eqb (TrimSpace (cr_PolicyID req)) "" then Some "policy_id is required"
  else if negb (str_eqb (cr_PolicyType req) "static") && negb (str_eqb (cr_PolicyType req) "dynamic")
  then Some "policy_type must be 'static' or 'dynamic'"
  else if str_eqb (TrimSpace (cr_OverrideReason req)) ""
  then Some "override_reason is required (ADR-044: mandatory justification)"
  else if (OverrideReasonMaxLn <? len (cr_OverrideReason req))%nat
  then Some ("override_reason exceeds maximum length of " +:+ Itoa (Z.of_nat OverrideReasonMaxLn) +:+ " characters")
  else None.

Inductive answer (A : Type) :=
| Failed (status : Z) (msg : string)
| Answer (status : Z) (a : A).
Arguments Failed {A}. Arguments Answer {A}.

Definition nullableString (s : string) : option string := if str_eqb s "" then None else Some s.
Definition nullableUUID (s : string) : option string := if str_eqb s "" then None else if is_uuid s then Some s else None.

(** The address of a caller: the email header, or the user id. *)
Definition caller_email (r : HttpRequest) : string :=
  let e := hdr r "X-User-Email" in if str_eqb e "" then hdr r "X-User-ID" else e.

Definition scope_or_tenant (orgID tenantID : string) : string := if str_eqb orgID "" then tenantID else orgID.

(** The row written. *)
Definition new_row (id uuid : string) (req : CreateOverrideRequest) (orgID tenantID email : string) (now ttl : Z) : ApiRow :=
  mkApiRow
    (mkOverrideRow id uuid (cr_PolicyType req) (nullableString (cr_ToolSignature req)) (cr_OverrideReason req)
       (Some (now + ttl)) (nullableString tenantID) (scope_or_tenant orgID tenantID) (Some email) None (Some "allow") now)
    (nullableUUID orgID) None.

Definition createOverrideHandler (f : Faults) (now : Z) (newID : string) (body : option CreateOverrideRequest)
    (r : HttpRequest) (s : OverrideStore) : answer CreateOverrideResponse * OverrideStore :=
  let fail status msg := (Failed status msg, s) in
  match verifyAgentProxyAuth getenv validator (Unix now) r with
  | Some msg => fail 403 msg
  | None =>
      match body with
      | None => fail 400 "Invalid request body"
      | Some req =>
          match validateCreateOverrideRequest req with
          | Some msg => fail 400 msg
          | None =>
              let tenantID := hdr r "X-Tenant-ID" in
              let orgID := hdr r "X-Org-ID" in
              let email := CanonicalEmail (caller_email r) in
              if str_eqb email "" then fail 401 (identityRequiredMessage getenv validator (Unix now) r "policy overrides")
              else if str_eqb tenantID "" then fail 400 "Tenant identity required (X-Tenant-ID header)"
              else match policyRiskAndOverride s f tenantID (cr_PolicyID req) (cr_PolicyType req) with
                   | NoRows => fail 404 "Policy not found"
                   | QueryError => fail 500 "Internal error"
                   | Found (risk, allow, uuid) =>
                       if str_eqb risk "critical" then fail 403 "Critical-risk policies cannot be overridden"
                       else if negb allow
                       then fail 403 "This policy has allow_override=false and cannot be session-overridden"
                       else
                         let '(ttl, clamped, reason) := clampOverrideTTL (cr_TTLSeconds req) in
                         if ft_insert f then fail 500 "Failed to create override"
                         else
                           let s' := set_overrides s (os_overrides s ++ [new_row newID uuid req orgID tenantID email now ttl]) in
                           (Answer 201 (mkCreateResp newID (cr_PolicyID req) (cr_PolicyType req) (now + ttl) (Z.quot ttl Second)
                                          (cr_TTLSeconds req) clamped reason now),
                            invalidateCachedDeniedDecisions s' f tenantID email uuid)
                   end
          end
      end
  end.

(** * Revoking, reading, listing *)

(** Rows of policy_overrides that a transaction of this scope sees. *)
Definition visible (s : OverrideStore) (scope : string) (a : ApiRow) : bool :=
  negb (os_rls s) || str_eqb (ov_org_id (ar_row a)) scope.

Definition of_tenant (tenantID : string) (a : ApiRow) : bool := bool_decide (ov_tenant_id (ar_row a) = Some tenantID).

(** The role check: everything in the tenant, or the caller's own. *)
Definition may_see (scope : callerReadScope) (a : ApiRow) : bool :=
  rs_TenantWide scope ||
  (negb (str_eqb (rs_UserEmail scope) "") &&
   bool_decide (CanonicalEmail (default "" (ov_created_by (ar_row a))) = rs_UserEmail scope)).

Definition revoked (now : Z) (by_ : string) (a : ApiRow) : ApiRow :=
  let o := ar_row a in
  mkApiRow (mkOverrideRow (ov_id o) (ov_policy_id o) (ov_policy_type o) (ov_tool_signature o) (ov_reason o) (ov_expires_at o)
              (ov_tenant_id o) (ov_org_id o) (ov_created_by o) (Some now) (ov_action_override o) (ov_created_at o))
    (ar_organization_id a) (Some by_).

Definition revokeOverrideHandler (f : Faults) (now : Z) (overrideID : string) (r : HttpRequest) (s : OverrideStore)
  : answer (string * Z) * OverrideStore :=
  let fail status msg := (Failed status msg, s) in
  match verifyAgentProxyAuth getenv validator (Unix now) r with
  | Some msg => fail 403 msg
  | None =>
      let tenantID := hdr r "X-Tenant-ID" in
      let scope := scope_or_tenant (hdr r "X-Org-ID") tenantID in
      let revokedBy := caller_email r in
      if str_eqb overrideID "" then fail 400 "Override id required"
      else if str_eqb revokedBy "" then fail 401 (identityRequiredMessage getenv validator (Unix now) r "policy overrides")
      else if str_eqb tenantID "" then fail 400 "Tenant identity required (X-Tenant-ID header)"
      else if ft_overrides f then fail 500 "Internal error"
      else match find_first (fun a => visible s scope a && str_eqb (ov_id (ar_row a)) overrideID && of_tenant tenantID a
                                      && match ov_revoked_at (ar_row a) with None => true | Some _ => false end) (os_overrides s) with
           | None => fail 404 "Override not found or already revoked"
           | Some a =>
               if bool_decide (ov_created_by (ar_row a) = None) then fail 500 "Internal error"
               else if negb (may_see (resolveCallerReadScope getenv validator (Unix now) r) a)
               then fail 404 "Override not found or already revoked"
               else if ft_insert f then fail 500 "Failed to revoke override"
               else
                 (Answer 200 (overrideID, now),
                  set_overrides s ((fun a => if visible s scope a && str_eqb (ov_id (ar_row a)) overrideID && of_tenant tenantID a
                                             then revoked now revokedBy a else a) <$> os_overrides s))
           end
  end.

Definition getOverrideHandler (f : Faults) (now : Z) (overrideID : string) (r : HttpRequest) (s : OverrideStore) : answer ApiRow :=
  let tenantID := hdr r "X-Tenant-ID" in
  let scope := scope_or_tenant (hdr r "X-Org-ID") tenantID in
  if str_eqb overrideID "" then Failed 400 "Override id required"
  else if str_eqb tenantID "" then Failed 400 "Tenant identity required (X-Tenant-ID header)"
  else if ft_overrides f then Failed 500 "Internal error"
  else match find_first (fun a => visible s scope a && str_eqb (ov_id (ar_row a)) overrideID && of_tenant tenantID a) (os_overrides s) with
       | None => Failed 404 "Override not found"
       | Some a =>
           if bool_decide (ov_created_by (ar_row a) = None) then Failed 500 "Internal error"
           else if negb (may_see (resolveCallerReadScope getenv validator (Unix now) r) a) then Failed 404 "Override not found"
           else Answer 200 a
       end.

Definition newer (a b : ApiRow) : bool := ov_created_at (ar_row b) <? ov_created_at (ar_row a).

(** [listOverridesHandler]: the query runs outside a scope. *)
Definition listOverridesHandler (f : Faults) (now : Z) (policyParam : string) (includeRevoked : bool) (r : HttpRequest)
    (s : OverrideStore) : answer (list ApiRow) :=
  let tenantID := hdr r "X-Tenant-ID" in
  let policyUUID :=
    if str_eqb policyParam "" then ""
    else match resolvePolicyUUID s f tenantID policyParam with
         | Ok u => if str_eqb u "" then policyParam else u
         | Err _ => policyParam
         end in
  if str_eqb tenantID "" then Failed 400 "X-Tenant-ID header required"
  else
    let scope := resolveCallerReadScope getenv validator (Unix now) r in
    if negb (rs_TenantWide scope) && str_eqb (rs_UserEmail scope) "" then Answer 200 []
    else if ft_overrides f then Failed 500 "Internal error"
    else
      let selected a :=
        negb (os_rls s) && of_tenant tenantID a &&
        (str_eqb policyUUID "" || str_eqb (ov_policy_id (ar_row a)) policyUUID) &&
        (rs_TenantWide scope ||
         bool_decide (ToLower (default "" (ov_created_by (ar_row a))) = ToLower (rs_UserEmail scope))) &&
        (includeRevoked || match ov_revoked_at (ar_row a) with None => true | Some _ => false end) in
      Answer 200 (take 100 (SliceStable newer (List.filter selected (os_overrides s)))).
End Api.

Arguments Found {A}. Arguments NoRows {A}. Arguments QueryError {A}.
Arguments Failed {A}. Arguments Answer {A}.

(** Properties of the override API: the lifetime of an override, what creating
    and revoking one does to the decisions of the step gate, and the isolation
    of tenants. *)

Lemma NoDup_key_inj {A B} (f : A -> B) l x y : NoDup (f <$> l) -> x ∈ l -> y ∈ l -> f x = f y -> x = y.
Proof.
  intros Hnd [i Hi]%list_elem_of_lookup [j Hj]%list_elem_of_lookup Hf.
  assert (i = j) as -> by (eapply (NoDup_lookup (f <$> l)); [done| |]; rewrite list_lookup_fmap, ?Hi, ?Hj; cbn; by rewrite ?Hf).
  naive_solver.
Qed.

Lemma find_first_filter {A} (p q : A -> bool) l : find_first (fun x => p x && q x) l = find_first p (List.filter q l).
Proof. induction l as [|x l IH]; [done|]. cbn. destruct (q x); cbn; destruct (p x); cbn; try done; by rewrite IH. Qed.

Lemma filter_filter_bool {A} (p q : A -> bool) l : List.filter p (List.filter q l) = List.filter (fun x => q x && p x) l.
Proof. induction l as [|x l IH]; [done|]. cbn. destruct (q x); cbn; [|done]. destruct (p x); by rewrite IH. Qed.

(** * Lifetimes *)

Definition ttl_of (requested : Z) : Z := (clampOverrideTTL requested).1.1.

(** Whatever number of seconds is asked for, the overflowing ones included, an
    override lives between a minute and a day. *)
Lemma ttl_bounds n : OverrideMinTTL <= ttl_of n <= OverrideHardCapTTL.
Proof.
  unfold ttl_of, clampOverrideTTL. destruct (n =? 0); [vm_compute; split; discriminate|].
  destruct (Z.ltb_spec OverrideHardCapTTL (wrap64 (n * Second))); [vm_compute; split; discriminate|].
  destruct (Z.ltb_spec (wrap64 (n * Second)) OverrideMinTTL); [vm_compute; split; discriminate|]. cbn. lia.
Qed.

(** Where the product fits in 64 bits the lifetime is the request, cut to that
    range, and the answer says so. *)
Lemma ttl_exact n :
  n <> 0 -> int64_range (n * Second) ->
  ttl_of n = Z.max OverrideMinTTL (Z.min OverrideHardCapTTL (n * Second)) /\
  (clampOverrideTTL n).1.2 = negb (ttl_of n =? n * Second).
Proof.
  intros Hn Hr. unfold ttl_of, clampOverrideTTL. rewrite (proj2 (Z.eqb_neq _ _) Hn), (wrap64_id _ Hr).
  assert (Hm : OverrideMinTTL <= OverrideHardCapTTL) by (vm_compute; discriminate).
  destruct (Z.ltb_spec OverrideHardCapTTL (n * Second)), (Z.ltb_spec (n * Second) OverrideMinTTL); cbn; lia.
Qed.

(** A request of six centuries wraps to one minute and is granted as asked. *)
Lemma ttl_overflow : clampOverrideTTL 18446744134 = (60290448384, false, "").
Proof. vm_compute. reflexivity. Qed.

Section Facts.
Context `{U : Unicode} (getenv : string -> string) (validator : option ServiceAuth.TokenValidator) (is_uuid : string -> bool).

Local Abbreviation create := (createOverrideHandler getenv validator is_uuid).
Local Abbreviation revoke := (revokeOverrideHandler getenv validator).
Local Abbreviation get := (getOverrideHandler getenv validator).
Local Abbreviation list_ := (listOverridesHandler getenv validator).

(** * Creating *)

(** A row of a policy table that a tenant can override. *)
Definition overridable_row (s : OverrideStore) (tenantID policyID policyType : string) (p : PolicyRow) : Prop :=
  p ∈ (if str_eqb policyType "static" then os_static s else os_dynamic s) /\
  (if str_eqb policyType "static" then static_match policyID p else dynamic_match policyID p) = true /\
  tenancy tenantID p = true /\
  (os_rls s = true -> pp_org_id p = tenantID \/ pp_org_id p = GlobalTenantSentinel).

Lemma risk_pass_found s f tenantID policyID policyType scope risk allow uuid :
  risk_pass s f tenantID policyID policyType scope = Found (risk, allow, uuid) ->
  exists p, p ∈ (if str_eqb policyType "static" then os_static s else os_dynamic s) /\
    (if str_eqb policyType "static" then static_match policyID p else dynamic_match policyID p) = true /\
    tenancy tenantID p = true /\ (os_rls s = true -> pp_org_id p = scope) /\
    uuid = pp_id p /\ risk = default "medium" (pp_risk_level p) /\ allow = default false (pp_allow_override p).
Proof.
  unfold risk_pass, scoped, risk_row.
  destruct (str_eqb policyType "static"); destruct (str_eqb scope "" || ft_policies f); try done;
    destruct (find_first _ _) as [p|] eqn:E; try done; intros H; exists p;
    apply find_first_Some in E as [Hin Hm]; apply elem_of_filter_bool in Hin as [Hin Hv];
    apply andb_true_iff in Hm as [? ?];
    assert (os_rls s = true -> pp_org_id p = scope)
      by (intros Hr; rewrite Hr in Hv; by apply str_eqb_true in Hv);
    destruct (pp_risk_level p), (pp_allow_override p); naive_solver.
Qed.

Lemma policyRisk_found s f tenantID policyID policyType risk allow uuid :
  policyRiskAndOverride s f tenantID policyID policyType = Found (risk, allow, uuid) ->
  exists p, overridable_row s tenantID policyID policyType p /\
    uuid = pp_id p /\ risk = default "medium" (pp_risk_level p) /\ allow = default false (pp_allow_override p).
Proof.
  unfold policyRiskAndOverride, overridable_row. destruct (negb _); [done|].
  destruct (risk_pass s f tenantID policyID policyType tenantID) as [[[r a] u]| |] eqn:E; [intros [= -> -> ->]| |done].
  - apply risk_pass_found in E as (p & ?). exists p. naive_solver.
  - destruct (negb _); [|done]. intros (p & ?)%risk_pass_found. exists p. naive_solver.
Qed.

(** The parts of a successful creation. *)
Lemma create_inv f now id body r s st resp s' :
  create f now id body r s = (Answer st resp, s') ->
  exists req p ttl,
    body = Some req /\ st = 201 /\ validateCreateOverrideRequest req = None /\
    verifyAgentProxyAuth getenv validator (Unix now) r = None /\
    hdr r "X-Tenant-ID" <> "" /\ CanonicalEmail (caller_email r) <> "" /\
    overridable_row s (hdr r "X-Tenant-ID") (cr_PolicyID req) (cr_PolicyType req) p /\
    default "medium" (pp_risk_level p) <> "critical" /\ default false (pp_allow_override p) = true /\
    ttl = ttl_of (cr_TTLSeconds req) /\ cp_ID resp = id /\ cp_ExpiresAt resp = now + ttl /\
    s' = invalidateCachedDeniedDecisions
           (set_overrides s (os_overrides s ++ [new_row is_uuid id (pp_id p) req (hdr r "X-Org-ID") (hdr r "X-Tenant-ID")
                                                  (CanonicalEmail (caller_email r)) now ttl]))
           f (hdr r "X-Tenant-ID") (CanonicalEmail (caller_email r)) (pp_id p).
Proof.
  unfold createOverrideHandler. destruct (verifyAgentProxyAuth _ _ _ _) eqn:Ev; [done|].
  destruct body as [req|]; [|done]. destruct (validateCreateOverrideRequest req) eqn:Er; [done|].
  destruct (str_eqb (CanonicalEmail _) "") eqn:Ee; [done|]. destruct (str_eqb (hdr r "X-Tenant-ID") "") eqn:Et; [done|].
  destruct (policyRiskAndOverride _ _ _ _ _) as [[[risk allow] uuid]| |] eqn:Ep; [|done|done].
  destruct (str_eqb risk "critical") eqn:Ec; [done|]. destruct allow eqn:Ea; [|done]. cbn [negb].
  destruct (clampOverrideTTL _) as [[ttl clamped] reason] eqn:Ett. destruct (ft_insert f); [done|].
  apply policyRisk_found in Ep as (p & Hp & -> & -> & Ha). apply str_eqb_false in Ee, Et, Ec.
  intros [= <- <- <-]. exists req, p, ttl. unfold ttl_of. rewrite Ett. split_and!; done.
Qed.

Lemma invalidate_overrides s f tenantID email uuid :
  os_overrides (invalidateCachedDeniedDecisions s f tenantID email uuid) = os_overrides s /\
  os_rls (invalidateCachedDeniedDecisions s f tenantID email uuid) = os_rls s.
Proof. unfold invalidateCachedDeniedDecisions. by destruct (_ || _). Qed.

(** The new row is an active override for its creator, in its tenant and
    organization, for its tool, from the moment it is written until it expires,
    and for nobody else. *)
Lemma new_row_active s f now id uuid req orgID tenantID email ttl now' :
  let s' := invalidateCachedDeniedDecisions
              (set_overrides s (os_overrides s ++ [new_row is_uuid id uuid req orgID tenantID email now ttl])) f tenantID email uuid in
  tenantID <> "" ->
  forall scope tenant user policy tool,
  active_row (gate_db s' now') scope tenant user policy tool (ar_row (new_row is_uuid id uuid req orgID tenantID email now ttl)) <->
  (os_rls s = true -> scope = scope_of orgID tenantID) /\ policy = uuid /\ user = email /\ tenant = tenantID /\
  now' < now + ttl /\ (cr_ToolSignature req = "" \/ cr_ToolSignature req = tool).
Proof.
  intros s' Ht scope tenant user policy tool. unfold active_row, gate_db, s'. cbn [od_rows od_rls od_now].
  destruct (invalidate_overrides (set_overrides s (os_overrides s ++ [new_row is_uuid id uuid req orgID tenantID email now ttl]))
              f tenantID email uuid) as [-> ->].
  cbn [os_overrides os_rls set_overrides]. rewrite fmap_app, elem_of_app. cbn. unfold nullableString, scope_or_tenant, scope_of.
  rewrite (proj2 (str_eqb_false _ _) Ht). destruct (str_eqb (cr_ToolSignature req) "") eqn:Es;
    [apply str_eqb_true in Es|apply str_eqb_false in Es]; split; intros H.
  - destruct H as (_ & ? & ? & ? & ? & _ & Hx & _). split_and!; naive_solver.
  - destruct H as (? & -> & -> & -> & ? & _). split; [right; left|]. split_and!; naive_solver.
  - destruct H as (_ & ? & ? & ? & ? & _ & Hx & Htl & _). split_and!; naive_solver.
  - destruct H as (? & -> & -> & -> & ? & Htl). split; [right; left|]. split_and!; naive_solver.
Qed.

(** An active row of a matched policy flips the verdict. *)
Lemma active_row_flips d logger v tenantID orgID user tool p row :
  v_Allowed v = false -> user <> "" -> p ∈ v_AppliedPoliciesDetail v -> overridable p = true -> ad_PolicyID p <> "" ->
  od_fault d (ad_PolicyID p) = false ->
  active_row d (scope_of orgID tenantID) tenantID user (ad_PolicyID p) tool row ->
  v_Allowed (ApplyOverrideToResult (Some d) logger v tenantID orgID user tool).1.1 = true.
Proof.
  intros Hv Hu Hp Ho Hid Hf Ha. unfold ApplyOverrideToResult. rewrite Hv, (proj2 (str_eqb_false _ _) Hu). cbn [orb].
  pose proof (first_override_spec d tenantID orgID user tool (v_AppliedPoliciesDetail v) Hu) as HF.
  destruct (first_override _ _ _ _ _ _) as [[q ov]|]; [done|]. exfalso. by eapply (HF p).
Qed.

(** A creation that fails changes nothing. *)
Lemma create_failed f now id body r s st msg s' : create f now id body r s = (Failed st msg, s') -> s' = s.
Proof.
  unfold createOverrideHandler. destruct (verifyAgentProxyAuth _ _ _ _); [by intros [= _ _ <-]|].
  destruct body as [req|]; [|by intros [= _ _ <-]]. destruct (validateCreateOverrideRequest req); [by intros [= _ _ <-]|].
  destruct (str_eqb (CanonicalEmail _) ""); [by intros [= _ _ <-]|]. destruct (str_eqb (hdr r "X-Tenant-ID") ""); [by intros [= _ _ <-]|].
  destruct (policyRiskAndOverride _ _ _ _ _) as [[[risk allow] uuid]| |]; [|by intros [= _ _ <-]..].
  destruct (str_eqb risk "critical"); [by intros [= _ _ <-]|]. destruct allow; [|by intros [= _ _ <-]]. cbn [negb].
  destruct (clampOverrideTTL _) as [[? ?] ?]. destruct (ft_insert f); by intros [= _ _ <-].
Qed.

(** * Revoking *)

Lemma revoke_inv f now id r s st ans s' :
  revoke f now id r s = (Answer st ans, s') ->
  let hit a := visible s (scope_or_tenant (hdr r "X-Org-ID") (hdr r "X-Tenant-ID")) a && str_eqb (ov_id (ar_row a)) id
               && of_tenant (hdr r "X-Tenant-ID") a in
  exists a, a ∈ os_overrides s /\ hit a = true /\ ov_revoked_at (ar_row a) = None /\
    may_see (resolveCallerReadScope getenv validator (Unix now) r) a = true /\
    s' = set_overrides s ((fun a => if hit a then revoked now (caller_email r) a else a) <$> os_overrides s).
Proof using U getenv validator.
  intros H hit. revert H. unfold revokeOverrideHandler.
  destruct (verifyAgentProxyAuth _ _ _ _); [done|]. destruct (str_eqb id ""); [done|].
  destruct (str_eqb (caller_email r) ""); [done|]. destruct (str_eqb (hdr r "X-Tenant-ID") ""); [done|].
  destruct (ft_overrides f); [done|]. destruct (find_first _ _) as [a|] eqn:E; [|done].
  destruct (bool_decide _); [done|]. destruct (may_see _ a) eqn:Em; [|done]. destruct (ft_insert f); [done|]. cbn [negb].
  apply find_first_Some in E as [Hin Hm]. apply andb_true_iff in Hm as [Hm Hn].
  intros [= <- <- <-]. exists a. split_and!; try done. by destruct (ov_revoked_at (ar_row a)).
Qed.

Lemma revoke_failed f now id r s st msg s' : revoke f now id r s = (Failed st msg, s') -> s' = s.
Proof using U getenv validator.
  unfold revokeOverrideHandler. cbv zeta.
  destruct (verifyAgentProxyAuth _ _ _ _); [by intros [= _ _ <-]|]. destruct (str_eqb id ""); [by intros [= _ _ <-]|].
  destruct (str_eqb (caller_email r) ""); [by intros [= _ _ <-]|]. destruct (str_eqb (hdr r "X-Tenant-ID") ""); [by intros [= _ _ <-]|].
  destruct (ft_overrides f); [by intros [= _ _ <-]|]. destruct (find_first _ _) as [a|]; [|by intros [= _ _ <-]].
  destruct (bool_decide _); [by intros [= _ _ <-]|]. destruct (may_see _ a); [|by intros [= _ _ <-]]. destruct (ft_insert f); by intros [= _ _ <-].
Qed.

(** What the override API does while a given override is left alone: creations by
    anyone, successful or not, and revocations of other ids. *)
Inductive api_step (id : string) : OverrideStore -> OverrideStore -> Prop :=
| api_create f now newID body r s : api_step id s (create f now newID body r s).2
| api_revoke f now other r s : other <> id -> api_step id s (revoke f now other r s).2.

Lemma api_step_keeps id s s' :
  api_step id s s' -> os_rls s' = os_rls s /\ forall a, ov_id (ar_row a) = id -> a ∈ os_overrides s -> a ∈ os_overrides s'.
Proof.
  intros [f now newID body r s0|f now other r s0 Hne].
  - destruct (create f now newID body r s0) as [[c msg|c resp] s1] eqn:E; cbn [snd]; [by apply create_failed in E as ->|].
    apply create_inv in E as (req & p & ttl & _ & _ & _ & _ & _ & _ & _ & _ & _ & _ & _ & _ & ->).
    destruct (invalidate_overrides (set_overrides s0 (os_overrides s0 ++ [new_row is_uuid newID (pp_id p) req (hdr r "X-Org-ID") (hdr r "X-Tenant-ID")
      (CanonicalEmail (caller_email r)) now ttl])) f (hdr r "X-Tenant-ID") (CanonicalEmail (caller_email r)) (pp_id p)) as [-> ->].
    split; [done|]. intros a _ Ha. cbn. apply elem_of_app. by left.
  - destruct (revoke f now other r s0) as [[c msg|c resp] s1] eqn:E; cbn [snd]; [by apply revoke_failed in E as ->|].
    apply revoke_inv in E as (b & _ & _ & _ & _ & ->). split; [done|]. intros a Ha Hin. cbn.
    apply list_elem_of_fmap. exists a. split; [|done].
    destruct (str_eqb (ov_id (ar_row a)) other) eqn:Eo; [apply str_eqb_true in Eo; congruence|].
    by rewrite andb_false_r.
Qed.

Lemma api_steps_keep id s s' :
  rtc (api_step id) s s' -> os_rls s' = os_rls s /\ forall a, ov_id (ar_row a) = id -> a ∈ os_overrides s -> a ∈ os_overrides s'.
Proof.
  induction 1 as [|s s1 s2 Hs _ [IH1 IH2]]; [done|]. apply api_step_keeps in Hs as [H1 H2].
  split; [by rewrite IH1|]. auto.
Qed.

(** The overrides as the gate reads them, with the look-ups that fail. *)
Definition faulty_db (s : OverrideStore) (now : Z) (fault : string -> bool) : OverrideDb :=
  mkOverrideDb (ar_row <$> os_overrides s) (os_rls s) now fault.

(** C14: An override that was created is honoured by the step gate until it expires or is
    revoked. The policy was in a table of the tenant or global, not critical and open to
    overrides, and the lifetime is between a minute and a day. Until it is over, after
    any further creations and any revocations of other overrides, and while the look-up
    of the policy does not fail, a denied verdict in which that policy matches, and in
    which every matching policy is open to overrides and none is critical, is allowed: for
    the creator, under the canonical form of the address, in the same tenant and
    organization, with the tool the override was bound to if it was bound to one. *)
Theorem created_override_honoured f now id body r s st resp s' :
  create f now id body r s = (Answer st resp, s') ->
  exists req row, body = Some req /\
    overridable_row s (hdr r "X-Tenant-ID") (cr_PolicyID req) (cr_PolicyType req) row /\
    default "medium" (pp_risk_level row) <> "critical" /\ default false (pp_allow_override row) = true /\
    OverrideMinTTL <= cp_ExpiresAt resp - now <= OverrideHardCapTTL /\
    forall s2 now' fault logger v p tool,
      rtc (api_step id) s' s2 -> now' < cp_ExpiresAt resp -> fault (pp_id row) = false ->
      v_Allowed v = false -> p ∈ v_AppliedPoliciesDetail v -> ad_PolicyID p = pp_id row -> pp_id row <> "" ->
      (forall q, q ∈ v_AppliedPoliciesDetail v -> overridable q = true) ->
      cr_ToolSignature req = "" \/ cr_ToolSignature req = tool ->
      v_Allowed (ApplyOverrideToResult (Some (faulty_db s2 now' fault)) logger v (hdr r "X-Tenant-ID") (hdr r "X-Org-ID")
                   (CanonicalEmail (caller_email r)) tool).1.1 = true.
Proof.
  intros (req & row & ttl & -> & -> & _ & _ & Ht & He & Hrow & Hc & Ha & -> & _ & Hexp & ->)%create_inv.
  exists req, row. split; [done|]. split; [done|]. split; [done|]. split; [done|].
  pose proof (ttl_bounds (cr_TTLSeconds req)). split; [lia|].
  intros s2 now' fault logger v p tool Hs2 Hnow Hf Hv Hp Hid Hne Hall Htool. rewrite Hexp in Hnow.
  pose proof (new_row_active s f now id (pp_id row) req (hdr r "X-Org-ID") (hdr r "X-Tenant-ID") (CanonicalEmail (caller_email r))
    (ttl_of (cr_TTLSeconds req)) now' Ht (scope_of (hdr r "X-Org-ID") (hdr r "X-Tenant-ID")) (hdr r "X-Tenant-ID")
    (CanonicalEmail (caller_email r)) (pp_id row) tool) as Hact.
  destruct (proj2 Hact) as (Hin & Hrest); [by split_and!|]. apply api_steps_keep in Hs2 as [Hrls Hkeep].
  eapply (active_row_flips _ _ _ _ _ _ _ p); try done; [by apply Hall|by rewrite Hid|by rewrite Hid|].
  rewrite Hid. split; [|unfold faulty_db; cbn [od_rls od_now]; rewrite Hrls; exact Hrest].
  unfold faulty_db. cbn [od_rows]. apply list_elem_of_fmap_2, Hkeep; [done|].
  destruct (invalidate_overrides (set_overrides s (os_overrides s ++ [new_row is_uuid id (pp_id row) req (hdr r "X-Org-ID") (hdr r "X-Tenant-ID")
    (CanonicalEmail (caller_email r)) now (ttl_of (cr_TTLSeconds req))])) f (hdr r "X-Tenant-ID") (CanonicalEmail (caller_email r)) (pp_id row)) as [-> _].
  cbn. apply elem_of_app. right. by left.
Qed.

Lemma revoked_if_id (c : bool) now by_ a : ov_id (ar_row (if c then revoked now by_ a else a)) = ov_id (ar_row a).
Proof. by destruct c. Qed.

(** C15: a revoked override never applies again: after a revocation no active
    override, of any caller and at any time, has the revoked id. The
    revocation leaves every other row as it was, and is open only to the
    creator of the override and to callers that read the whole tenant. *)
Theorem revoked_override_inert f now id r s st ans s' :
  NoDup ((fun a => ov_id (ar_row a)) <$> os_overrides s) ->
  revoke f now id r s = (Answer st ans, s') ->
  (forall now' scope tenant user policy tool row,
     active_row (gate_db s' now') scope tenant user policy tool row -> ov_id row <> id) /\
  (forall a, ov_id (ar_row a) <> id -> a ∈ os_overrides s' <-> a ∈ os_overrides s) /\
  exists a, a ∈ os_overrides s /\ ov_id (ar_row a) = id /\ ov_tenant_id (ar_row a) = Some (hdr r "X-Tenant-ID") /\
    may_see (resolveCallerReadScope getenv validator (Unix now) r) a = true.
Proof using U getenv validator.
  intros Hnd (a & Hin & Hhit & _ & Hmay & ->)%revoke_inv. cbn [os_overrides set_overrides].
  assert (Ha : ov_id (ar_row a) = id /\ ov_tenant_id (ar_row a) = Some (hdr r "X-Tenant-ID")).
  { apply andb_true_iff in Hhit as [[_ ?%str_eqb_true]%andb_true_iff ?%bool_decide_eq_true]. done. }
  split_and!; [| |exists a; destruct Ha; split_and!; assumption].
  - intros now' scope tenant user policy tool row (Hrow & _ & _ & _ & _ & Hrev & _) Hid.
    cbn in Hrow. rewrite <- list_fmap_compose in Hrow. apply list_elem_of_fmap in Hrow as (b & -> & Hb). cbn in Hid, Hrev.
    assert (b = a) as ->.
    { eapply (NoDup_key_inj (fun a => ov_id (ar_row a))); [exact Hnd|done|done|].
      rewrite revoked_if_id in Hid. cbn. by rewrite (proj1 Ha), Hid. }
    rewrite Hhit in Hrev. done.
  - intros b Hb. rewrite list_elem_of_fmap. split.
    + intros (c & -> & Hc). rewrite revoked_if_id in Hb. by rewrite (proj2 (str_eqb_false _ _) Hb), andb_false_r.
    + intros Hb'. exists b. split; [|done]. by rewrite (proj2 (str_eqb_false _ _) Hb), andb_false_r.
Qed.

(** * Reading *)

(** The same store as far as a tenant's overrides and the policies go. *)
Definition same_for (tenantID : string) (s1 s2 : OverrideStore) : Prop :=
  List.filter (of_tenant tenantID) (os_overrides s1) = List.filter (of_tenant tenantID) (os_overrides s2) /\
  os_static s1 = os_static s2 /\ os_dynamic s1 = os_dynamic s2 /\ os_rls s1 = os_rls s2.

Lemma resolve_same s1 s2 f tenantID policyID :
  os_static s1 = os_static s2 -> os_dynamic s1 = os_dynamic s2 -> os_rls s1 = os_rls s2 ->
  resolvePolicyUUID s1 f tenantID policyID = resolvePolicyUUID s2 f tenantID policyID.
Proof. intros H1 H2 H3. unfold resolvePolicyUUID, uuid_pass, visible_policies. by rewrite H1, H2, H3. Qed.

Lemma list_selection (tenantID : string) (l : list ApiRow) (b : bool) (c d e : ApiRow -> bool) :
  List.filter (fun a => b && of_tenant tenantID a && c a && d a && e a) l =
  List.filter (fun a => b && c a && d a && e a) (List.filter (of_tenant tenantID) l).
Proof.
  rewrite filter_filter_bool. apply filter_ext. intros a. by destruct b, (of_tenant tenantID a).
Qed.

(** what a tenant reads of overrides depends on its own overrides only, and a
    caller that does not read the whole tenant gets its own: the answers of a
    read and of a listing are the same on any two stores that hold the same
    overrides of the caller's tenant. *)
Theorem override_reads_isolated f now r s1 s2 :
  same_for (hdr r "X-Tenant-ID") s1 s2 ->
  (forall id, get f now id r s1 = get f now id r s2) /\
  (forall policy revoked, list_ f now policy revoked r s1 = list_ f now policy revoked r s2) /\
  (forall id st a, get f now id r s1 = Answer st a ->
     a ∈ os_overrides s1 /\ ov_tenant_id (ar_row a) = Some (hdr r "X-Tenant-ID") /\
     (rs_TenantWide (resolveCallerReadScope getenv validator (Unix now) r) = true \/
      CanonicalEmail (default "" (ov_created_by (ar_row a))) =
      rs_UserEmail (resolveCallerReadScope getenv validator (Unix now) r))).
Proof using U getenv validator.
  intros (Hrows & Hst & Hdy & Hrls). split_and!.
  - intros id. unfold getOverrideHandler. rewrite !find_first_filter, Hrows. unfold visible. by rewrite Hrls.
  - intros policy rev. unfold listOverridesHandler. rewrite (resolve_same s1 s2 f _ _ Hst Hdy Hrls), Hrls.
    by rewrite !list_selection, Hrows.
  - intros id st a. unfold getOverrideHandler. destruct (str_eqb id ""); [done|].
    destruct (str_eqb (hdr r "X-Tenant-ID") ""); [done|]. destruct (ft_overrides f); [done|].
    destruct (find_first _ _) as [b|] eqn:E; [|done]. destruct (bool_decide _); [done|].
    destruct (may_see _ b) eqn:Em; [|done]. cbn [negb]. intros [= _ <-].
    apply find_first_Some in E as [Hin [_ Ht%bool_decide_eq_true]%andb_true_iff]. split; [done|]. split; [done|].
    unfold may_see in Em. apply orb_true_iff in Em as [?|[_ ?%bool_decide_eq_true]%andb_true_iff]; [by left|by right].
Qed.

(** Under row-level security the listing, whose query has no scope, is empty
    whatever overrides there are. *)
Lemma list_empty_under_rls f now policy rev r s st l :
  os_rls s = true -> list_ f now policy rev r s = Answer st l -> l = [].
Proof.
  intros Hr. unfold listOverridesHandler. destruct (str_eqb (hdr r "X-Tenant-ID") ""); [done|].
  destruct (_ && str_eqb _ ""); [by intros [= _ <-]|]. destruct (ft_overrides f); [done|]. rewrite Hr. cbn [negb andb].
  intros [= _ <-]. replace (List.filter _ _) with (@nil ApiRow); [done|].
  symmetry. induction (os_overrides s); by cbn.
Qed.

(** * Cached decisions *)

(** Creating an override forgets only cached denials, of workflows of the
    caller in the caller's tenant. *)
Lemma create_forgets_denials f now id body r s ans s' st :
  create f now id body r s = (ans, s') -> st ∈ steps (os_workflows s) -> st ∉ steps (os_workflows s') ->
  s_Decision st ∈ ["block"; "require_approval"] /\
  exists wf, workflows (os_workflows s) !! s_WorkflowID st = Some wf /\ w_TenantID wf = hdr r "X-Tenant-ID" /\
    w_UserID wf = CanonicalEmail (caller_email r).
Proof.
  destruct ans as [c msg|c resp]; [intros ->%create_failed; done|].
  intros (req & p & ttl & -> & -> & _ & _ & Ht & He & _ & _ & _ & -> & _ & _ & ->)%create_inv Hin Hout.
  unfold invalidateCachedDeniedDecisions in Hout. destruct (_ || _) in Hout; [done|]. cbn in Hout.
  rewrite elem_of_filter_bool in Hout. destruct (stale_step _ _ _ _ st) eqn:E; [|naive_solver].
  unfold stale_step in E. destruct (workflows _ !! _) as [wf|] eqn:Ew; [|done].
  rewrite !andb_true_iff, orb_true_iff, !str_eqb_true in E. destruct E as [[[E1 E2] E3] _].
  split; [by apply str_in_true|]. exists wf. naive_solver.
Qed.
End Facts.

(** * Witnesses *)

Module OverrideDemo.
#[local] Existing Instance ascii_unicode.
Definition env (k : string) : string := if str_eqb k "DEPLOYMENT_MODE" then "community" else "".
Definition req : CreateOverrideRequest := mkCreateReq "no-pii" "static" "" "incident 42" 3600.
Definition headers (email : string) : HttpRequest :=
  mkHttp "POST" "/api/v1/overrides" (Header_Set "X-User-Email" email (Header_Set "X-Tenant-ID" "acme" ∅)).
Definition pii : PolicyRow := OverrideApi.mkPolicyRow "uuid-1" "no-pii" "No PII" "acme" "acme" (Some "high") (Some true).
Definition store : OverrideStore := mkOvStore [] [pii] [] (mkStore ∅ [] [] 1) true.
Definition created (email : string) : answer CreateOverrideResponse * OverrideStore :=
  createOverrideHandler env None (fun _ => true) no_faults 0 "ov-1" (Some req) (headers email) store.
Definition denied : PolicyEvaluationResult :=
  mkVerdict false ["uuid-1"] f64_zero "" "" [] false [mkDetail "uuid-1" "No PII" "" "block" "high" true ""] false "" "" no_routing.
Definition gate_for (user : string) (s : OverrideStore) : bool :=
  v_Allowed (ApplyOverrideToResult (Some (gate_db s 60)) true denied "acme" "" user "").1.1.
End OverrideDemo.
Import OverrideDemo.
#[local] Existing Instance ascii_unicode.

(** Ana overrides a policy and passes the gate a minute later. *)
Lemma created_override_honoured_witness :
  gate_for "ana@acme.com" (createOverrideHandler env None (fun _ => true) no_faults 1 "ov-2" (Some req) (headers "bob@acme.com") (created "ana@acme.com").2).2 = true.
Proof.
  destruct (created "ana@acme.com") as [[? ?|st resp] s'] eqn:E; [vm_compute in E; discriminate|]. cbn [snd].
  pose proof (created_override_honoured _ _ _ _ _ _ _ _ _ _ _ _ E) as (rq & row & Hreq & Hrow & _ & _ & _ & H).
  assert (Hr : row = pii) by (destruct Hrow as (Hin & _); injection Hreq as <-; by apply list_elem_of_singleton in Hin). subst row.
  apply (H _ 60 (fun _ => false) true denied (mkDetail "uuid-1" "No PII" "" "block" "high" true "") "").
  - apply rtc_once. apply (api_create env None (fun _ => true)).
  - assert (Hx : match fst (created "ana@acme.com") with Answer _ p => cp_ExpiresAt p | _ => 0 end = 3600 * Second) by (vm_compute; reflexivity).
    rewrite E in Hx. cbn [fst] in Hx. rewrite Hx. vm_compute. reflexivity.
  - reflexivity.
  - reflexivity.
  - left.
  - reflexivity.
  - discriminate.
  - intros q ->%list_elem_of_singleton. reflexivity.
  - left. injection Hreq as <-. reflexivity.
Defined.

(** The gate compares the header as sent: with a capital in it, the override,
    stored in canonical form, never applies. *)
Lemma override_case_mismatch :
  gate_for "Ana@acme.com" (created "Ana@acme.com").2 = false /\ gate_for "ana@acme.com" (created "Ana@acme.com").2 = true.
Proof. split; vm_compute; reflexivity. Qed.

Definition revocation : answer (string * Z) * OverrideStore :=
  revokeOverrideHandler env None no_faults 5 "ov-1" (headers "ana@acme.com") (created "ana@acme.com").2.

Definition ana_row : OverrideRow :=
  ar_row (new_row (fun _ => true) "ov-1" "uuid-1" req "" "acme" "ana@acme.com" 0 (3600 * Second)).

(** Before the revocation the row is active, after it is not. *)
Lemma revoked_override_inert_witness :
  override_selected 60 "acme" "ana@acme.com" "uuid-1" "" ana_row = true /\
  ana_row ∉ (ar_row <$> os_overrides revocation.2).
Proof.
  split; [vm_compute; reflexivity|]. intros Hin.
  destruct revocation as [[? ?|st resp] s'] eqn:E; [vm_compute in E; discriminate|]. cbn [snd] in Hin.
  refine (proj1 (revoked_override_inert env None no_faults 5 "ov-1" (headers "ana@acme.com") (created "ana@acme.com").2
            st resp s' _ E) 60 "acme" "acme" "ana@acme.com" "uuid-1" "" ana_row _ eq_refl).
  - apply (bool_decide_unpack _). vm_compute. exact I.
  - split; [exact Hin|]. split; [intros _; reflexivity|]. apply override_selected_iff. vm_compute. reflexivity.
Defined.

Lemma override_reads_isolated_witness :
  let other := new_row (fun _ => true) "ov-9" "uuid-1" req "" "globex" "eve@globex.com" 0 5 in
  let s := (created "ana@acme.com").2 in
  getOverrideHandler env None no_faults 9 "ov-9" (headers "ana@acme.com") (set_overrides s (other :: os_overrides s)) =
  getOverrideHandler env None no_faults 9 "ov-9" (headers "ana@acme.com") s.
Proof.
  cbv zeta. apply (override_reads_isolated env None no_faults 9 (headers "ana@acme.com")).
  split_and!; vm_compute; reflexivity.
Defined.
