(* ===== verification/PolicyClients.v ===== *)
(** Clients of the policy services. [Pep]: src/platform/shared/pep, the
    enforcement point that decides, has the engine redact, and forwards.
    [DynEval]: src/platform/shared/policy/dynamic_evaluator.go, the gateway's call
    of the orchestrator's dynamic policies and its degradation.

    The network is an argument, a function from the request to the answer, as are
    the encoding of a body and the decoding of an answer (encoding/json) and the
    parsing of a URL. A client returns the requests it made beside its result. *)

From stdpp Require Import gmap.
From S2P Require Import Prelude GoStrings GoStrconv GoTime PolicyTypes GoJSON GoBase64 GoHttp ServiceAuth Identity AgentAuth AgentProxy AgentProxyFacts DynTypes.

Local Open Scope Z_scope.

(** An HTTP request of a client, and what the transport answers: no answer, or a
    status, the body read, and an error that cut the reading short. *)
Record HttpPost := mkPost { hp_URL : string; hp_Header : Header; hp_Body : string }.

Inductive transport :=
| TransportError (msg : string)
| Response (status : Z) (body : string) (read_err : option string).

Definition in_4xx (s : Z) : bool := (400 <=? s) && (s <? 500).

Module Pep.

(** * Data *)

Definition ObligationRedactPII : string := "redact_pii".
Definition PhaseRequest : string := "request".
Definition PhaseResponse : string := "response".
Definition CapabilityRequestBodyRedaction : string := "request_body_redaction".
Definition CapabilityRequestHeaderMutation : string := "request_header_mutation".
Definition ContentTypeText : string := "text/plain".
Definition decidePath : string := "/api/v1/decide".
Definition requestRedactionPath : string := "/api/v1/mcp/check-input".
Definition responseRedactionPath : string := "/api/v1/mcp/check-output".
Definition VerdictAllow : string := "allow".
Definition VerdictDeny : string := "deny".
Definition VerdictNeedsApproval : string := "needs_approval".
Definition maxCheckOutputBytes : Z := Z.shiftl 8 20.

Inductive sentinel := ErrDecisionRejected | ErrPDPUnavailable | ErrObligationNotFulfillable | ErrConfig | ErrOutputBlocked.

(** An error: what [errors.Is] matches, and its text. *)
Record pep_error := mkErr { pe_Is : option sentinel; pe_Text : string }.

Definition sentinel_text (s : sentinel) : string :=
  match s with
  | ErrDecisionRejected => "pep: decision API rejected request"
  | ErrPDPUnavailable => "pep: decision API unavailable"
  | ErrObligationNotFulfillable => "pep: obligation not engine-fulfillable"
  | ErrConfig => "pep: invalid config"
  | ErrOutputBlocked => "pep: response blocked by output policy"
  end.

(** [fmt.Errorf("%w: ...", s, ...)] and ["%w (status %d): %s"] *)
Definition wrap (s : sentinel) (text : string) : pep_error := mkErr (Some s) (sentinel_text s +:+ ": " +:+ text).
Definition plain (text : string) : pep_error := mkErr None text.

Record Config := mkConfig {
  cf_Endpoint : string; cf_OrgID : string; cf_LicenseKey : string; cf_TenantID : string; cf_ConnectorTag : string }.

Record Client := mkClient {
  c_endpoint : string; c_org : string; c_license : string; c_tenantID : string; c_connectorTag : string }.

Record CallerIdentity := mkCaller { ci_GatewayID : string; ci_OrgID : string; ci_TenantID : string }.
Record Target := mkTarget { tg_Type : string; tg_Model : string; tg_Provider : string; tg_Tool : string }.

Record DecideRequest := mkDecide {
  dq_Stage : string;
  dq_CallerIdentity : CallerIdentity;
  dq_Target : Target;
  dq_Query : string;
  dq_UserToken : string;
  dq_Context : list (string * value);
  dq_FulfillmentCapabilities : list string;
}.

Record ObligationFulfillment := mkFulfillment {
  of_Endpoint : string; of_Method : string; of_Phase : string; of_ContentTypes : list string }.
Record Obligation := mkObligation { ob_Type : string; ob_Detail : string; ob_Fulfillment : option ObligationFulfillment }.

Record DecideResponse := mkDecision {
  dr_Verdict : string;
  dr_DecisionID : string;
  dr_TraceID : string;
  dr_Reasons : list string;
  dr_Obligations : list Obligation;
  dr_EvaluatedPolicies : list string;
  dr_Stage : string;
  dr_ExpiresAt : Z;
  dr_Error : string;
}.

Record checkInputRequest := mkCheckInput {
  cq_ConnectorType : string; cq_Statement : string; cq_ContentType : string; cq_TenantID : string; cq_Operation : string }.
Record checkInputResponse := mkCheckInputResp {
  cp_Allowed : bool; cp_BlockReason : string; cp_Redacted : bool; cp_RedactedStatement : string; cp_RedactionEvaluated : bool }.

Record CheckOutputRequest := mkCheckOutput { oq_Message : string; oq_UserToken : string; oq_UserEmail : string; oq_SessionID : string }.
Record checkOutputWireRequest := mkOutputWire {
  ow_ClientID : string; ow_UserToken : string; ow_TenantID : string; ow_ConnectorType : string; ow_Message : string }.

(** The dynamic type of redacted_data. *)
Inductive redacted_data := NilData | StringData (s : string) | OtherData (type_name : string).

Record checkOutputWireResponse := mkOutputResp {
  or_Allowed : bool; or_BlockReason : string; or_RedactedData : redacted_data; or_PoliciesEvaluated : Z;
  or_DecisionID : string; or_RedactionEvaluated : bool }.
Definition zero_output : checkOutputWireResponse := mkOutputResp false "" NilData 0 "" false.

Record CheckOutputResult := mkOutputResult {
  co_Redacted : bool; co_RedactedMessage : string; co_DecisionID : string; co_PoliciesEvaluated : Z }.

(** A body before it is encoded. *)
Inductive wire :=
| WDecide (r : DecideRequest)
| WCheckInput (r : checkInputRequest)
| WCheckOutput (r : checkOutputWireRequest).

(** [strings.TrimRight(s, "/")] *)
Fixpoint drop_slashes (l : list ascii) : list ascii :=
  match l with
  | [] => []
  | a :: l' => if bool_decide (a = "/"%char) then drop_slashes l' else l
  end.
Definition TrimRight_slash (s : string) : string := of_chars (rev (drop_slashes (rev (chars s)))).

(** [OutputBlockedError.Error] *)
Definition blocked_error (reason : string) : pep_error :=
  mkErr (Some ErrOutputBlocked) (if str_eqb reason "" then sentinel_text ErrOutputBlocked else sentinel_text ErrOutputBlocked +:+ ": " +:+ reason).

Section Client_.
Context `{U : Unicode} `{PT : UnicodePrint}.

Definition New (cfg : Config) : result pep_error Client :=
  let endpoint := TrimRight_slash (TrimSpace (cf_Endpoint cfg)) in
  if str_eqb endpoint "" then Err (wrap ErrConfig "Endpoint is required")
  else if xorb (str_eqb (cf_OrgID cfg) "") (str_eqb (cf_LicenseKey cfg) "")
  then Err (wrap ErrConfig "OrgID and LicenseKey must be set together")
  else
    let tag := TrimSpace (cf_ConnectorTag cfg) in
    Ok (mkClient endpoint (cf_OrgID cfg) (cf_LicenseKey cfg) (cf_TenantID cfg) (if str_eqb tag "" then "gateway" else tag)).

Context (send : HttpPost -> transport) (marshal : wire -> result string string) (parse_url : string -> option string)
  (unmarshal_decide : string -> result string DecideResponse) (unmarshal_input : string -> result string checkInputResponse)
  (unmarshal_output : string -> checkOutputWireResponse * option string).

(** [newPost]: an error of [http.NewRequest], or the request. *)
Definition newPost (c : Client) (path body incomingTraceparent : string) : result string HttpPost :=
  match parse_url (c_endpoint c +:+ path) with
  | Some e => Err ("pep: build request: " +:+ e)
  | None =>
      let h := Header_Set "Content-Type" "application/json" ∅ in
      let h := if negb (str_eqb (c_org c) "") && negb (str_eqb (c_license c) "")
               then Header_Set "Authorization" ("Basic " +:+ EncodeToString StdEncoding (bytes (c_org c +:+ ":" +:+ c_license c))) h
               else h in
      let h := if str_eqb incomingTraceparent "" then h else Header_Set "traceparent" incomingTraceparent h in
      Ok (mkPost (c_endpoint c +:+ path) h body)
  end.

(** [" (status %d): %s"] after a sentinel *)
Definition status_error (s : sentinel) (status : Z) (body : string) : pep_error :=
  mkErr (Some s) (sentinel_text s +:+ " (status " +:+ Itoa status +:+ "): " +:+ TrimSpace body).

(** [io.ReadAll(io.LimitReader(body, n))] *)
Definition limited (n : Z) (body : string) : string := slice body 0 (Nat.min (len body) (Z.to_nat n)).

Definition Decide (c : Client) (req : DecideRequest) (incomingTraceparent : string) : result pep_error DecideResponse * list HttpPost :=
  let ci := dq_CallerIdentity req in
  let ci := mkCaller (ci_GatewayID ci) (if str_eqb (ci_OrgID ci) "" then c_org c else ci_OrgID ci)
              (if str_eqb (ci_TenantID ci) "" then c_tenantID c else ci_TenantID ci) in
  let req := mkDecide (dq_Stage req) ci (dq_Target req) (dq_Query req) (dq_UserToken req) (dq_Context req)
               (dq_FulfillmentCapabilities req) in
  match marshal (WDecide req) with
  | Err e => (Err (plain ("pep: marshal decide request: " +:+ e)), [])
  | Ok body =>
      match newPost c decidePath body incomingTraceparent with
      | Err e => (Err (plain e), [])
      | Ok post =>
          (match send post with
           | TransportError e => Err (wrap ErrPDPUnavailable e)
           | Response status raw _ =>
               let respBody := limited (Z.shiftl 1 20) raw in
               if status =? 200 then
                 match unmarshal_decide respBody with
                 | Ok dr => Ok dr
                 | Err e => Err (plain ("pep: decode decide response: " +:+ e))
                 end
               else if in_4xx status then Err (status_error ErrDecisionRejected status respBody)
               else Err (status_error ErrPDPUnavailable status respBody)
           end, [post])
      end
  end.

(** [isAllowedFulfillmentEndpoint] *)
Definition isAllowedFulfillmentEndpoint (endpoint expected : string) : bool :=
  let e := TrimSpace endpoint in
  if str_eqb e expected then true
  else match Index e "://" with
       | None => false
       | Some i =>
           let rest := slice e (i + 3) (len e) in
           match Index rest "/" with
           | None => false
           | Some slash =>
               let path := slice rest slash (len rest) in
               let path := match Index path "?" with Some q => slice path 0 q | None => path end in
               str_eqb path expected
           end
       end.

Definition callRequestRedaction (c : Client) (endpoint statement : string) : result pep_error string * list HttpPost :=
  if negb (isAllowedFulfillmentEndpoint endpoint requestRedactionPath)
  then (Err (wrap ErrObligationNotFulfillable ("endpoint " +:+ quote endpoint +:+ " is not the request-redaction endpoint")), [])
  else match marshal (WCheckInput (mkCheckInput (c_connectorTag c) statement ContentTypeText (c_tenantID c) "execute")) with
       | Err e => (Err (wrap ErrObligationNotFulfillable ("marshal: " +:+ e)), [])
       | Ok body =>
           match newPost c requestRedactionPath body "" with
           | Err e => (Err (wrap ErrObligationNotFulfillable e), [])
           | Ok post =>
               (match send post with
                | TransportError e => Err (wrap ErrObligationNotFulfillable ("engine call failed: " +:+ e))
                | Response status raw _ =>
                    let respBody := limited (Z.shiftl 1 20) raw in
                    if negb (status =? 200)
                    then Err (wrap ErrObligationNotFulfillable
                                ("engine returned status " +:+ Itoa status +:+ ": " +:+ TrimSpace respBody))
                    else match unmarshal_input respBody with
                         | Err e => Err (wrap ErrObligationNotFulfillable ("decode engine response: " +:+ e))
                         | Ok cir =>
                             if negb (cp_RedactionEvaluated cir)
                             then Err (wrap ErrObligationNotFulfillable
                                         "engine reported the redactor did not run (redaction disabled)")
                             else if cp_Redacted cir && negb (str_eqb (cp_RedactedStatement cir) "")
                             then Ok (cp_RedactedStatement cir) else Ok statement
                         end
                end, [post])
           end
       end.

(** The loop of [FulfillRequest]: the content so far and whether it changed. *)
Fixpoint fulfill_obligations (c : Client) (obs : list Obligation) (redacted : string) (didRedact : bool)
  : result pep_error (string * bool) * list HttpPost :=
  match obs with
  | [] => (Ok (redacted, didRedact), [])
  | ob :: rest =>
      if negb (str_eqb (ob_Type ob) ObligationRedactPII) then fulfill_obligations c rest redacted didRedact
      else match ob_Fulfillment ob with
           | Some f =>
               if negb (str_eqb (of_Phase f) PhaseRequest)
               then (Err (wrap ErrObligationNotFulfillable "redact_pii missing request-phase fulfillment"), [])
               else if negb (bool_decide (of_ContentTypes f = [])) && negb (str_in ContentTypeText (of_ContentTypes f))
               then (Err (wrap ErrObligationNotFulfillable ("endpoint does not advertise a " +:+ ContentTypeText +:+ " detector")), [])
               else
                 let '(r, posts) := callRequestRedaction c (of_Endpoint f) redacted in
                 match r with
                 | Err e => (Err e, posts)
                 | Ok out =>
                     let '(r', posts') := fulfill_obligations c rest out (didRedact || negb (str_eqb out redacted)) in
                     (r', posts ++ posts')
                 end
           | None => (Err (wrap ErrObligationNotFulfillable "redact_pii missing request-phase fulfillment"), [])
           end
  end.

(** [FulfillRequest]: the content, whether the engine changed it, and the error;
    on an error the content is the statement as given. *)
Definition FulfillRequest (c : Client) (decision : option DecideResponse) (statement : string)
  : string * bool * option pep_error * list HttpPost :=
  match decision with
  | None => (statement, false, None, [])
  | Some d =>
      match fulfill_obligations c (dr_Obligations d) statement false with
      | (Ok (out, did), posts) => (out, did, None, posts)
      | (Err e, posts) => (statement, false, Some e, posts)
      end
  end.

(** [DecideAndFulfill]: verdict, content, decision and error. *)
Definition DecideAndFulfill (c : Client) (req : DecideRequest) (incomingTraceparent : string)
  : string * string * option DecideResponse * option pep_error * list HttpPost :=
  match Decide c req incomingTraceparent with
  | (Err e, posts) => ("", dq_Query req, None, Some e, posts)
  | (Ok d, posts) =>
      if negb (str_eqb (dr_Verdict d) VerdictAllow) then (dr_Verdict d, dq_Query req, Some d, None, posts)
      else match FulfillRequest c (Some d) (dq_Query req) with
           | (_, _, Some e, posts') => (dr_Verdict d, "", Some d, Some e, posts ++ posts')
           | (out, _, None, posts') => (dr_Verdict d, out, Some d, None, posts ++ posts')
           end
  end.

Definition HasRequestRedaction (obs : list Obligation) : bool :=
  existsb (fun o => str_eqb (ob_Type o) ObligationRedactPII &&
                    match ob_Fulfillment o with Some f => str_eqb (of_Phase f) PhaseRequest | None => false end) obs.

(** * Responses *)

Definition buildCheckOutputResult (p : checkOutputWireResponse) : result pep_error CheckOutputResult :=
  if negb (or_RedactionEvaluated p)
  then Err (wrap ErrObligationNotFulfillable
              "engine reported the response redactor did not run (redaction disabled or platform < 9.7.0)")
  else
    let unchanged := Ok (mkOutputResult false "" (or_DecisionID p) (or_PoliciesEvaluated p)) in
    match or_RedactedData p with
    | NilData => unchanged
    | StringData v =>
        if str_eqb v "" then unchanged else Ok (mkOutputResult true v (or_DecisionID p) (or_PoliciesEvaluated p))
    | OtherData t => Err (plain ("pep: check-output returned non-string redacted_data (" +:+ t +:+ "); failing closed"))
    end.

Definition CheckOutput (c : Client) (req : CheckOutputRequest) (incomingTraceparent : string)
  : result pep_error CheckOutputResult * list HttpPost :=
  match marshal (WCheckOutput (mkOutputWire (c_org c) (oq_UserToken req) (c_tenantID c) (c_connectorTag c) (oq_Message req))) with
  | Err e => (Err (plain ("pep: marshal check-output request: " +:+ e)), [])
  | Ok body =>
      if maxCheckOutputBytes <? Z.of_nat (len body)
      then (Err (plain ("pep: check-output request too large (" +:+ Itoa (Z.of_nat (len body)) +:+ " bytes > "
                        +:+ Itoa maxCheckOutputBytes +:+ "): cannot be scanned, do not forward")), [])
      else match newPost c responseRedactionPath body incomingTraceparent with
           | Err e => (Err (plain e), [])
           | Ok post =>
               let h := hp_Header post in
               let h := if str_eqb (oq_UserEmail req) "" then h else Header_Set "X-User-Email" (oq_UserEmail req) h in
               let h := if str_eqb (oq_SessionID req) "" then h else Header_Set "X-Session-Id" (oq_SessionID req) h in
               let post := mkPost (hp_URL post) h (hp_Body post) in
               (match send post with
                | TransportError e => Err (wrap ErrPDPUnavailable e)
                | Response status raw _ =>
                    let respBody := limited maxCheckOutputBytes raw in
                    let '(parsed, parseErr) := unmarshal_output respBody in
                    if status =? 200 then
                      match parseErr with
                      | Some e => Err (plain ("pep: decode check-output response: " +:+ e))
                      | None => if negb (or_Allowed parsed) then Err (blocked_error (or_BlockReason parsed))
                                else buildCheckOutputResult parsed
                      end
                    else if status =? 403 then Err (blocked_error (or_BlockReason parsed))
                    else if in_4xx status then Err (status_error ErrDecisionRejected status respBody)
                    else Err (status_error ErrPDPUnavailable status respBody)
                end, [post])
           end
  end.
End Client_.
End Pep.

Module DynEval.

(** * Configuration *)

Record DynamicPolicyConfig := mkDynConfig {
  dc_Enabled : bool;
  dc_OrchestratorEndpoint : string;
  dc_Timeout : Z;
  dc_GracefulDegradation : bool;
  dc_EnabledConnectors : list string;
  dc_MaxCommunity : Z;
  dc_MaxEvaluation : Z;
}.

Definition DefaultDynamicPolicyConfig : DynamicPolicyConfig :=
  mkDynConfig false "http://localhost:8081" (5 * Second) true [] 2 5.

Definition CustomPolicyConnectorLimitForTier (c : DynamicPolicyConfig) (tier : string) : Z :=
  if str_in tier ["enterprise"; "Enterprise"; "Plus"; "Professional"] then -1
  else if str_in tier ["evaluation"; "Evaluation"] then if 0 <? dc_MaxEvaluation c then dc_MaxEvaluation c else 5
  else if 0 <? dc_MaxCommunity c then dc_MaxCommunity c else 2.

Record DynamicPolicyRequest := mkDynReq {
  dy_TenantID : string;
  dy_OrganizationID : string;
  dy_UserID : string;
  dy_UserRole : string;
  dy_ConnectorName : string;
  dy_Operation : string;
  dy_Statement : string;
  dy_Parameters : list (string * value);
  dy_RequestTime : Z;
  dy_ClientIP : string;
  dy_Metadata : list (string * value);
}.

Record DynamicPolicyMatch := mkDynMatch {
  dm_PolicyID : string; dm_PolicyName : string; dm_PolicyType : string; dm_Action : string; dm_Reason : string }.

Record DynamicPolicyResponse := mkDynResp {
  dn_Allowed : bool;
  dn_BlockReason : string;
  dn_PoliciesEvaluated : Z;
  dn_MatchedPolicies : list DynamicPolicyMatch;
  dn_ProcessingTimeMs : Z;
  dn_Metadata : list (string * value);
}.

Record DynamicPolicyInfo := mkDynInfo {
  di_PoliciesEvaluated : Z; di_MatchedPolicies : list DynamicPolicyMatch; di_OrchestratorReachable : bool; di_ProcessingTimeMs : Z }.

(** An evaluator; the signing secret is [None] when the environment has none. *)
Record DynamicPolicyEvaluator := mkEvaluator_ { ev_config : DynamicPolicyConfig; ev_tokenGen : option string }.

Section Environment.
Context `{U : Unicode} (getenv : string -> string) (decode_tier : list Z -> option string).

(** [newProxyTokenGenerator], with [secretenv.Get]. *)
Definition newProxyTokenGenerator : option string :=
  let secret := TrimSpace (getenv SecretEnvVar) in if str_eqb secret "" then None else Some secret.

Definition NewDynamicPolicyEvaluator (config : DynamicPolicyConfig) : DynamicPolicyEvaluator :=
  mkEvaluator_ config newProxyTokenGenerator.

Definition extractTierFromLicenseKey (key : string) : string :=
  if negb (HasPrefix key "AXON-") then ""
  else
    let rest := slice key 5 (len key) in
    match LastIndex rest "." with
    | None | Some O => ""
    | Some dotIdx =>
        match DecodeString RawURLEncoding (slice rest 0 dotIdx) with
        | None => ""
        | Some payload => default "" (decode_tier payload)
        end
    end.

Definition resolveConnectorLimitTier : string :=
  let mode := getenv "DEPLOYMENT_MODE" in
  if negb (str_eqb mode "community") && negb (str_eqb mode "") then "enterprise"
  else
    let licenseKey := getenv "AXONFLOW_LICENSE_KEY" in
    if str_eqb licenseKey "" then "community"
    else let t := extractTierFromLicenseKey licenseKey in if negb (str_eqb t "") then ToLower t else "evaluation".

(** The limit of a tier, [None] when there is none. *)
Definition tier_limit (config : DynamicPolicyConfig) (tier : string) : option Z :=
  if str_eqb tier "enterprise" then None
  else Some (if str_eqb tier "evaluation" then dc_MaxEvaluation config else dc_MaxCommunity config).

Definition over_limit (config : DynamicPolicyConfig) (limit : Z) : bool :=
  (0 <? limit) && (limit <? Z.of_nat (length (dc_EnabledConnectors config))).

Definition ValidateCustomPolicyConnectorLimit (config : DynamicPolicyConfig) : option string :=
  let tier := resolveConnectorLimitTier in
  match tier_limit config tier with
  | None => None
  | Some limit =>
      if over_limit config limit then
        let hint := if str_eqb tier "evaluation"
                    then "upgrade to Enterprise for unlimited connectors at https://getaxonflow.com/enterprise"
                    else "get a free Evaluation license for 5 connectors at https://getaxonflow.com/evaluation-license" in
        Some (tier +:+ " tier supports custom policies on a maximum of " +:+ Itoa limit +:+ " connectors, got "
              +:+ Itoa (Z.of_nat (length (dc_EnabledConnectors config)))
              +:+ ". Register unlimited connectors, but connectors with custom policies (rate limiting, budgets, time/role access) are limited to "
              +:+ Itoa limit +:+ "; " +:+ hint)
      else None
  end.

Definition EnforceCustomPolicyConnectorLimit (config : DynamicPolicyConfig) : list string :=
  match tier_limit config resolveConnectorLimitTier with
  | None => dc_EnabledConnectors config
  | Some limit => if over_limit config limit then take (Z.to_nat limit) (dc_EnabledConnectors config) else dc_EnabledConnectors config
  end.

Definition is_true (v : string) : bool := str_in v ["true"; "1"; "yes"].

Definition NewDynamicPolicyEvaluatorFromEnv : DynamicPolicyEvaluator :=
  let d := DefaultDynamicPolicyConfig in
  let enabled := let v := getenv "MCP_DYNAMIC_POLICIES_ENABLED" in if str_eqb v "" then dc_Enabled d else is_true v in
  let timeout := let v := getenv "MCP_DYNAMIC_POLICIES_TIMEOUT" in
                 if str_eqb v "" then dc_Timeout d else default (dc_Timeout d) (ParseDuration v) in
  let graceful := let v := getenv "MCP_DYNAMIC_POLICIES_GRACEFUL" in if str_eqb v "" then dc_GracefulDegradation d else is_true v in
  let connectors := let v := getenv "MCP_DYNAMIC_POLICIES_CONNECTORS" in
                    if str_eqb v "" then dc_EnabledConnectors d else TrimSpace <$> Split v ","%char in
  let config := mkDynConfig enabled (dc_OrchestratorEndpoint d) timeout graceful connectors (dc_MaxCommunity d) (dc_MaxEvaluation d) in
  NewDynamicPolicyEvaluator
    (mkDynConfig enabled (dc_OrchestratorEndpoint d) timeout graceful (EnforceCustomPolicyConnectorLimit config)
       (dc_MaxCommunity d) (dc_MaxEvaluation d)).

Definition UpdateConfig (e : DynamicPolicyEvaluator) (config : DynamicPolicyConfig) : option string * DynamicPolicyEvaluator :=
  match ValidateCustomPolicyConnectorLimit config with
  | Some err => (Some err, e)
  | None => (None, mkEvaluator_ config (ev_tokenGen e))
  end.
End Environment.

Definition IsEnabled (e : DynamicPolicyEvaluator) (connectorName : string) : bool :=
  let c := ev_config e in
  dc_Enabled c && (bool_decide (dc_EnabledConnectors c = []) || str_in connectorName (dc_EnabledConnectors c)).

Definition GetConfig (e : DynamicPolicyEvaluator) : DynamicPolicyConfig := ev_config e.
Definition IsGracefulDegradationEnabled (e : DynamicPolicyEvaluator) : bool := dc_GracefulDegradation (ev_config e).

Definition SetOrchestratorEndpoint (e : DynamicPolicyEvaluator) (endpoint : string) : DynamicPolicyEvaluator :=
  let c := ev_config e in
  mkEvaluator_ (mkDynConfig (dc_Enabled c) endpoint (dc_Timeout c) (dc_GracefulDegradation c) (dc_EnabledConnectors c)
                  (dc_MaxCommunity c) (dc_MaxEvaluation c)) (ev_tokenGen e).

(** * Evaluation *)

Record eval_error := mkEvalErr { ee_AuthRejected : bool; ee_Text : string }.

Section Evaluation.
Context (send : HttpPost -> transport) (marshal : DynamicPolicyRequest -> result string string)
  (parse_url : string -> option string) (unmarshal : string -> result string DynamicPolicyResponse).

Definition evaluate_header (tokenGen : option string) (now : Z) : Header :=
  let h := Header_Set "X-Request-Source" "mcp-agent" (Header_Set "Content-Type" "application/json" ∅) in
  match tokenGen with
  | Some _ => Header_Set "X-Axonflow-Proxy-Auth" (GetInternalServiceToken tokenGen (Unix now)) h
  | None => h
  end.

(** [Evaluate]; [took] is the time the call takes, in milliseconds. *)
Definition Evaluate (e : DynamicPolicyEvaluator) (now took : Z) (req : DynamicPolicyRequest)
  : result eval_error DynamicPolicyResponse :=
  let fail text := Err (mkEvalErr false text) in
  let req := if IsZero (dy_RequestTime req)
             then mkDynReq (dy_TenantID req) (dy_OrganizationID req) (dy_UserID req) (dy_UserRole req) (dy_ConnectorName req)
                    (dy_Operation req) (dy_Statement req) (dy_Parameters req) now (dy_ClientIP req) (dy_Metadata req)
             else req in
  let url := dc_OrchestratorEndpoint (ev_config e) +:+ "/api/v1/mcp/evaluate-policies" in
  match marshal req with
  | Err x => fail ("failed to marshal request: " +:+ x)
  | Ok body =>
      match parse_url url with
      | Some x => fail ("failed to create request: " +:+ x)
      | None =>
          match send (mkPost url (evaluate_header (ev_tokenGen e) now) body) with
          | TransportError x => fail ("orchestrator request failed: " +:+ x)
          | Response _ _ (Some x) => fail ("failed to read response: " +:+ x)
          | Response status respBody None =>
              if (status =? 401) || (status =? 403) then
                Err (mkEvalErr true ("orchestrator rejected the internal-service credential: orchestrator returned status "
                                     +:+ Itoa status +:+ ": " +:+ respBody))
              else if (status <? 200) || (300 <=? status)
              then fail ("orchestrator returned status " +:+ Itoa status +:+ ": " +:+ respBody)
              else match unmarshal respBody with
                   | Err x => fail ("failed to parse response: " +:+ x)
                   | Ok p => Ok (mkDynResp (dn_Allowed p) (dn_BlockReason p) (dn_PoliciesEvaluated p) (dn_MatchedPolicies p) took (dn_Metadata p))
                   end
          end
      end
  end.

Definition EvaluateWithGracefulDegradation (e : DynamicPolicyEvaluator) (now took : Z) (req : DynamicPolicyRequest)
  : result eval_error DynamicPolicyResponse * DynamicPolicyInfo :=
  let graceful := match ev_tokenGen e with None => false | Some _ => dc_GracefulDegradation (ev_config e) end in
  match Evaluate e now took req with
  | Err err =>
      let graceful := if ee_AuthRejected err then false else graceful in
      (if graceful then Ok (mkDynResp true "" 0 [] 0 []) else Err err, mkDynInfo 0 [] false took)
  | Ok resp => (Ok resp, mkDynInfo (dn_PoliciesEvaluated resp) (dn_MatchedPolicies resp) true took)
  end.
End Evaluation.

(** * The process-wide evaluator *)

Definition InitGlobalDynamicPolicyEvaluator (fresh : DynamicPolicyEvaluator) (g : option DynamicPolicyEvaluator) : option DynamicPolicyEvaluator :=
  match g with None => Some fresh | Some _ => g end.
Definition SetGlobalOrchestratorEndpoint (endpoint : string) (g : option DynamicPolicyEvaluator) : option DynamicPolicyEvaluator :=
  (fun e => SetOrchestratorEndpoint e endpoint) <$> g.
End DynEval.

(** * The enforcement point *)

Section PepFacts.
Context `{U : Unicode} `{PT : UnicodePrint} (send : HttpPost -> transport) (marshal : Pep.wire -> result string string)
  (parse_url : string -> option string) (unmarshal_decide : string -> result string Pep.DecideResponse)
  (unmarshal_input : string -> result string Pep.checkInputResponse).
Import Pep.

Local Abbreviation newPost' := (newPost parse_url).
Local Abbreviation call := (callRequestRedaction send marshal parse_url unmarshal_input).
Local Abbreviation fulfill := (fulfill_obligations send marshal parse_url unmarshal_input).
Local Abbreviation decide_and_fulfill := (DecideAndFulfill send marshal parse_url unmarshal_decide unmarshal_input).

(** One engine call that was answered by a redactor that ran. *)
Definition engine_redacted (c : Client) (stmt out : string) (post : HttpPost) : Prop :=
  hp_URL post = c_endpoint c +:+ requestRedactionPath /\
  marshal (WCheckInput (mkCheckInput (c_connectorTag c) stmt ContentTypeText (c_tenantID c) "execute")) = Ok (hp_Body post) /\
  exists raw err cir, send post = Response 200 raw err /\ unmarshal_input (limited (Z.shiftl 1 20) raw) = Ok cir /\
    cp_RedactionEvaluated cir = true /\
    out = (if cp_Redacted cir && negb (str_eqb (cp_RedactedStatement cir) "") then cp_RedactedStatement cir else stmt).

(** The content after the obligations, each redaction made by the engine. *)
Inductive redaction_run (c : Client) : list Obligation -> string -> string -> list HttpPost -> Prop :=
| run_nil s : redaction_run c [] s s []
| run_other ob rest s t posts :
    ob_Type ob <> ObligationRedactPII -> redaction_run c rest s t posts -> redaction_run c (ob :: rest) s t posts
| run_redact ob f rest s mid t post posts :
    ob_Type ob = ObligationRedactPII -> ob_Fulfillment ob = Some f -> of_Phase f = PhaseRequest ->
    of_ContentTypes f = [] \/ ContentTypeText ∈ of_ContentTypes f ->
    engine_redacted c s mid post -> redaction_run c rest mid t posts -> redaction_run c (ob :: rest) s t (post :: posts).

Lemma newPost_inv c path body tp post :
  newPost' c path body tp = Ok post -> hp_URL post = c_endpoint c +:+ path /\ hp_Body post = body.
Proof. unfold newPost. destruct (parse_url _); [done|]. by intros [= <-]. Qed.

Lemma call_inv c endpoint stmt r posts :
  call c endpoint stmt = (r, posts) ->
  match r with
  | Ok out => exists post, posts = [post] /\ engine_redacted c stmt out post
  | Err e => pe_Is e = Some ErrObligationNotFulfillable /\
             Forall (fun p => hp_URL p = c_endpoint c +:+ requestRedactionPath) posts
  end.
Proof.
  unfold callRequestRedaction. destruct (negb _); [by intros [= <- <-]|].
  destruct (marshal _) as [body|] eqn:Em; [|by intros [= <- <-]].
  destruct (newPost _ _ _ _ _) as [post|] eqn:Ep; [|by intros [= <- <-]].
  apply newPost_inv in Ep as [Hu Hb]. intros H. injection H as H1 H2. subst posts.
  assert (Hall : Forall (fun p => hp_URL p = c_endpoint c +:+ requestRedactionPath) [post]) by auto.
  destruct (send post) as [e|status raw err] eqn:Es; [by subst r|].
  destruct (status =? 200) eqn:E2; [|by subst r]. apply Z.eqb_eq in E2. subst status. cbn [negb] in H1.
  destruct (unmarshal_input _) as [cir|] eqn:Eu; [|by subst r].
  destruct (cp_RedactionEvaluated cir) eqn:Er; [|by subst r]. cbn [negb] in H1.
  assert (Hr : r = Ok (if cp_Redacted cir && negb (str_eqb (cp_RedactedStatement cir) "") then cp_RedactedStatement cir else stmt))
    by (subst r; by destruct (_ && _)).
  rewrite Hr. exists post. split; [done|]. split; [done|]. split; [by rewrite Hb|]. by exists raw, err, cir.
Qed.

Lemma fulfill_inv c obs stmt did r posts :
  fulfill c obs stmt did = (r, posts) ->
  match r with
  | Ok (out, _) => redaction_run c obs stmt out posts
  | Err e => pe_Is e = Some ErrObligationNotFulfillable
  end /\ Forall (fun p => hp_URL p = c_endpoint c +:+ requestRedactionPath) posts.
Proof.
  revert stmt did r posts. induction obs as [|ob obs IH]; intros stmt did r posts; cbn [fulfill_obligations].
  { intros [= <- <-]. split; [constructor|done]. }
  destruct (str_eqb (ob_Type ob) ObligationRedactPII) eqn:Et; cbn [negb].
  2: { intros H%IH. apply str_eqb_false in Et. destruct H as [H ?]. split; [|done]. destruct r as [[out d]|]; [by constructor|done]. }
  apply str_eqb_true in Et. destruct (ob_Fulfillment ob) as [f|] eqn:Ef; [|by intros [= <- <-]].
  destruct (str_eqb (of_Phase f) PhaseRequest) eqn:Eph; [|by intros [= <- <-]]. apply str_eqb_true in Eph. cbn [negb].
  destruct (negb _ && _) eqn:Ec; [by intros [= <- <-]|].
  assert (Hct : of_ContentTypes f = [] \/ ContentTypeText ∈ of_ContentTypes f).
  { apply andb_false_iff in Ec as [Ec%negb_false_iff%bool_decide_eq_true|Ec%negb_false_iff%str_in_true]; auto. }
  destruct (call c (of_Endpoint f) stmt) as [r1 posts1] eqn:E1. apply call_inv in E1. destruct r1 as [mid|e].
  2: { intros [= <- <-]. by destruct E1. }
  destruct E1 as (post & -> & Hpost). destruct (fulfill c obs mid _) as [r2 posts2] eqn:E2. intros [= <- <-].
  apply IH in E2 as [E2 Hall]. split; [|cbn; constructor; [by destruct Hpost as [? _]|done]].
  destruct r2 as [[out d]|]; [|done]. by eapply (run_redact _ ob f).
Qed.

(** the enforcement point fails closed. When [DecideAndFulfill] hands out
    content without an error on an allow verdict, every redaction obligation was
    answered by the engine with its redactor on, and the content is what the
    engine made of it; when an obligation is not discharged the error says so and
    the content is empty. Requests go to the decision and the redaction endpoint
    of the configured service only, whatever endpoint an obligation names. *)
Theorem pep_fail_closed c req tp verdict content decision err posts :
  decide_and_fulfill c req tp = (verdict, content, decision, err, posts) ->
  Forall (fun p => hp_URL p = c_endpoint c +:+ decidePath \/ hp_URL p = c_endpoint c +:+ requestRedactionPath) posts /\
  match decision, err with
  | Some d, None =>
      verdict = dr_Verdict d /\
      (verdict = VerdictAllow -> exists first rest, posts = first :: rest /\ redaction_run c (dr_Obligations d) (dq_Query req) content rest)
  | Some d, Some e => content = "" /\ pe_Is e = Some ErrObligationNotFulfillable
  | None, _ => verdict = "" /\ is_Some err
  end.
Proof.
  unfold DecideAndFulfill. destruct (Decide _ _ _ _ _ _ _) as [rd posts1] eqn:Ed.
  assert (Hd : Forall (fun p => hp_URL p = c_endpoint c +:+ decidePath) posts1 /\
               match rd with Ok _ => exists p, posts1 = [p] | Err _ => True end).
  { unfold Decide in Ed. destruct (marshal _) as [body|]; [|by inv Ed]. destruct (newPost _ _ _ _ _) as [post|] eqn:Ep; [|by inv Ed].
    apply newPost_inv in Ep as [Hu _]. injection Ed as <- <-. split; [auto|]. match goal with |- match ?x with _ => _ end => destruct x end; [by exists post|done]. }
  destruct Hd as [Hall Hone]. destruct rd as [d|e].
  2: { intros [= <- <- <- <- <-]. split; [|eauto]. eapply Forall_impl; [done|]. auto. }
  destruct Hone as [first ->]. destruct (str_eqb (dr_Verdict d) VerdictAllow) eqn:Ev; cbn [negb].
  2: { intros [= <- <- <- <- <-]. apply str_eqb_false in Ev. split; [|done]. eapply Forall_impl; [done|]. auto. }
  unfold FulfillRequest. destruct (fulfill c (dr_Obligations d) (dq_Query req) false) as [r posts2] eqn:Ef.
  apply fulfill_inv in Ef as [Ef Hall2].
  assert (Hposts : Forall (fun p => hp_URL p = c_endpoint c +:+ decidePath \/ hp_URL p = c_endpoint c +:+ requestRedactionPath) ([first] ++ posts2)).
  { apply Forall_app. split; [eapply Forall_impl; [exact Hall|auto]|eapply Forall_impl; [exact Hall2|auto]]. }
  destruct r as [[out did]|e]; intros [= <- <- <- <- <-]; (split; [done|]).
  - split; [done|]. intros _. by exists first, posts2.
  - done.
Qed.
End PepFacts.

(** An engine that reports a redaction to the empty text has the statement
    forwarded as it was: the empty text reads as nothing to mask. *)
Lemma redacted_to_empty_forwarded `{Unicode} `{UnicodePrint} (send : HttpPost -> transport) marshal parse_url unmarshal_input c stmt post raw err :
  Pep.newPost parse_url c Pep.requestRedactionPath (hp_Body post) "" = Ok post ->
  marshal (Pep.WCheckInput (Pep.mkCheckInput (Pep.c_connectorTag c) stmt Pep.ContentTypeText (Pep.c_tenantID c) "execute")) = Ok (hp_Body post) ->
  send post = Response 200 raw err ->
  unmarshal_input (Pep.limited (Z.shiftl 1 20) raw) = Ok (Pep.mkCheckInputResp true "" true "" true) ->
  Pep.callRequestRedaction send marshal parse_url unmarshal_input c Pep.requestRedactionPath stmt = (Ok stmt, [post]).
Proof.
  intros Hp Hm Hs Hu. unfold Pep.callRequestRedaction.
  assert (Ha : Pep.isAllowedFulfillmentEndpoint Pep.requestRedactionPath Pep.requestRedactionPath = true) by reflexivity.
  rewrite Ha, Hm. cbn [negb]. rewrite Hp, Hs, Hu. done.
Qed.

(** * Dynamic policies *)

Section DynEvalFacts.
Context `{U : Unicode}.
Import DynEval.

(** ** The connector limit *)

Section Limit.
Context (getenv : string -> string) (decode_tier : list Z -> option string).

(** The connectors kept are a prefix of those configured, within the limit of the
    tier, and all of them exactly when the configuration validates. *)
Lemma connector_limit config :
  let kept := EnforceCustomPolicyConnectorLimit getenv decode_tier config in
  kept `prefix_of` dc_EnabledConnectors config /\
  (forall limit, tier_limit config (resolveConnectorLimitTier getenv decode_tier) = Some limit -> 0 < limit ->
     Z.of_nat (length kept) <= limit) /\
  (ValidateCustomPolicyConnectorLimit getenv decode_tier config = None <-> kept = dc_EnabledConnectors config).
Proof.
  unfold EnforceCustomPolicyConnectorLimit, ValidateCustomPolicyConnectorLimit, over_limit.
  destruct (tier_limit _ _) as [limit|]; cbn zeta; [|split_and!; [done|done|done]].
  destruct (Z.ltb_spec 0 limit); cbn [andb].
  2: { split_and!; [done| |done]. intros l [= <-]. lia. }
  destruct (Z.ltb_spec limit (Z.of_nat (length (dc_EnabledConnectors config)))).
  2: { split_and!; [done| |done]. intros l [= <-]. lia. }
  split_and!.
  - apply prefix_take.
  - intros l [= <-] _. rewrite length_take. lia.
  - split; [done|]. intros Hk. apply (f_equal length) in Hk. rewrite length_take in Hk. lia.
Qed.

End Limit.

(** ** Degradation *)

Section Degradation.
Context (send : HttpPost -> transport) (marshal : DynamicPolicyRequest -> result string string)
  (parse_url : string -> option string) (unmarshal : string -> result string DynamicPolicyResponse).

Local Abbreviation evaluate := (Evaluate send marshal parse_url unmarshal).
Local Abbreviation evaluate_graceful := (EvaluateWithGracefulDegradation send marshal parse_url unmarshal).

(** A call without an answer of the orchestrator is let through exactly when
    degradation is on, a token was sent and the credential was not refused. *)
Lemma degradation_exact e now took req err :
  evaluate e now took req = Err err ->
  is_ok (evaluate_graceful e now took req).1 = true <->
  dc_GracefulDegradation (ev_config e) = true /\ is_Some (ev_tokenGen e) /\ ee_AuthRejected err = false.
Proof.
  intros He. unfold EvaluateWithGracefulDegradation. rewrite He.
  destruct (ee_AuthRejected err), (ev_tokenGen e), (dc_GracefulDegradation (ev_config e)); cbn; naive_solver eauto.
Qed.
End Degradation.

(** The orchestrator behind its gates: what is refused there is the answer,
    anything else goes to a handler. *)
Definition evaluate_path : string := "/api/v1/mcp/evaluate-policies".

Definition served (orchenv : string -> string) (validator : option ServiceAuth.TokenValidator) (now : Z)
    (handler : HttpPost -> transport) (post : HttpPost) : transport :=
  match orchestrator_gates orchenv validator now (mkHttp "POST" evaluate_path (hp_Header post)) with
  | Refuse status msg => Response status msg None
  | Pass _ => handler post
  end.

Section Served.
Context (orchenv : string -> string) (validator : option ServiceAuth.TokenValidator) (now' : Z) (handler : HttpPost -> transport).
Context (marshal : DynamicPolicyRequest -> result string string) (parse_url : string -> option string)
  (unmarshal : string -> result string DynamicPolicyResponse).

Local Abbreviation behind := (served orchenv validator now' handler).
Local Abbreviation incoming e now := (mkHttp "POST" evaluate_path (evaluate_header (ev_tokenGen e) now)).

Lemma served_gate post :
  behind post =
  if proxy_valid validator now' (mkHttp "POST" evaluate_path (hp_Header post)) then handler post
  else Response 403 (match validator with
                     | None => not_configured
                     | Some v => default "" (token_check now' v (mkHttp "POST" evaluate_path (hp_Header post)))
                     end) None.
Proof.
  unfold served, orchestrator_gates, requireInternalProxyAuth, proxy_valid. cbn [rq_Path].
  change (str_in evaluate_path orchestratorAuthExemptPaths) with false. cbn iota.
  destruct validator as [v|]; [|done]. unfold token_check.
  destruct (str_eqb (proxy_token _) ""); [done|]. cbn [negb andb].
  destruct (token_valid v now' _); done.
Qed.

(** The request as it is sent, and the call. *)
Definition stamped_request (now : Z) (req : DynamicPolicyRequest) : DynamicPolicyRequest :=
  if IsZero (dy_RequestTime req)
  then mkDynReq (dy_TenantID req) (dy_OrganizationID req) (dy_UserID req) (dy_UserRole req) (dy_ConnectorName req)
         (dy_Operation req) (dy_Statement req) (dy_Parameters req) now (dy_ClientIP req) (dy_Metadata req)
  else req.
Definition evaluate_url (e : DynamicPolicyEvaluator) : string := dc_OrchestratorEndpoint (ev_config e) +:+ "/api/v1/mcp/evaluate-policies".

(** [resp] is the verdict the policy handler gave to this call. *)
Definition handler_verdict (post : HttpPost) (resp : DynamicPolicyResponse) : Prop :=
  exists status text p, handler post = Response status text None /\ 200 <= status < 300 /\ unmarshal text = Ok p /\
    dn_Allowed resp = dn_Allowed p /\ dn_BlockReason resp = dn_BlockReason p /\ dn_MatchedPolicies resp = dn_MatchedPolicies p.

(** C35: the dynamic policies are not skipped in silence. Against an orchestrator that
    serves evaluations behind its gates, for a request that can be encoded and an
    endpoint that parses: with a credential the orchestrator does not accept (a missing
    or different secret, a clock out of the skew) the call is an error, whatever the
    degradation setting. With an accepted one, a verdict of the policy handler is the
    result, be it an allow or a block. And a call that goes through carries such a
    verdict, unless degradation is on, a token was sent and the handler gave no verdict
    and no refusal of the credential. *)
Theorem dynamic_policies_not_skipped e now took req body :
  marshal (stamped_request now req) = Ok body -> parse_url (evaluate_url e) = None ->
  let post := mkPost (evaluate_url e) (evaluate_header (ev_tokenGen e) now) body in
  let out := (EvaluateWithGracefulDegradation behind marshal parse_url unmarshal e now took req).1 in
  let accepted := proxy_valid validator now' (incoming e now) = true in
  (~ accepted -> is_ok out = false) /\
  (accepted -> forall resp, handler_verdict post resp -> exists resp', out = Ok resp' /\ dn_Allowed resp' = dn_Allowed resp /\
     dn_BlockReason resp' = dn_BlockReason resp) /\
  (forall resp, out = Ok resp -> accepted /\
     (handler_verdict post resp \/
      (dc_GracefulDegradation (ev_config e) = true /\ is_Some (ev_tokenGen e) /\ (forall resp', ~ handler_verdict post resp') /\
       forall text, handler post <> Response 401 text None /\ handler post <> Response 403 text None))).
Proof.
  intros Hm Hp. cbv zeta. unfold EvaluateWithGracefulDegradation, Evaluate. fold (stamped_request now req). fold (evaluate_url e). cbv zeta. rewrite Hm, Hp, served_gate.
  cbn [hp_Header]. set (post := mkPost _ _ _). destruct (proxy_valid _ _ _) eqn:Hv; [|split; [done|]; split; [done|by intros resp [=]]].
  split; [by intros []|]. split.
  - intros _ resp (status & text & p & Hh & [Hlo Hhi] & Hu & Ha & Hb & _). rewrite Hh.
    assert (Hs : (status =? 401) || (status =? 403) = false) by (apply orb_false_iff; rewrite !Z.eqb_neq; lia).
    assert (Hs' : (status <? 200) || (300 <=? status) = false) by (apply orb_false_iff; rewrite Z.ltb_ge, Z.leb_gt; lia).
    rewrite Hs, Hs', Hu. eexists. split; [reflexivity|]. cbn. by rewrite Ha, Hb.
  - intros resp Hout. split; [done|].
    assert (Hg : forall err : eval_error, (if (if ee_AuthRejected err then false else match ev_tokenGen e with None => false | Some _ => dc_GracefulDegradation (ev_config e) end)
                   then Ok (mkDynResp true "" 0 [] 0 []) else Err err) = Ok resp -> ee_AuthRejected err = false /\ dc_GracefulDegradation (ev_config e) = true /\ is_Some (ev_tokenGen e)).
    { intros err. destruct (ee_AuthRejected err), (ev_tokenGen e), (dc_GracefulDegradation (ev_config e)); try done; eauto. }
    unfold handler_verdict. destruct (handler post) as [x|status text [x|]] eqn:Hh.
    + right. apply (Hg _) in Hout as (_ & ? & ?). split_and!; [done|done|by intros resp' (? & ? & ? & [=] & _)|done].
    + right. apply (Hg _) in Hout as (_ & ? & ?). split_and!; [done|done|by intros resp' (? & ? & ? & [=] & _)|done].
    + destruct ((status =? 401) || (status =? 403)) eqn:Hs; [by apply (Hg _) in Hout as (? & _ & _)|].
      apply orb_false_iff in Hs as [H1%Z.eqb_neq H2%Z.eqb_neq].
      assert (Hno : forall t, Response status text None <> Response 401 t None /\ Response status text None <> Response 403 t None) by (split; congruence).
      destruct ((status <? 200) || (300 <=? status)) eqn:Hr.
      * right. apply (Hg _) in Hout as (_ & ? & ?). split_and!; [done|done| |done]. intros resp' (s & u & p & [= <- <-] & Hrange & _).
        apply orb_true_iff in Hr. rewrite Z.ltb_lt, Z.leb_le in Hr. lia.
      * apply orb_false_iff in Hr as [Hr1%Z.ltb_ge Hr2%Z.leb_gt]. destruct (unmarshal text) as [p|x] eqn:Hu.
        -- left. injection Hout as <-. by exists status, text, p.
        -- right. apply (Hg _) in Hout as (_ & ? & ?). split_and!; [done|done| |done]. intros resp' (s & u & p & [= <- <-] & _ & Hu' & _). congruence.
Qed.

(** A generator that shares the validator's secret is accepted; without a secret
    no call is. *)
Lemma evaluator_accepted v secret config now :
  validator = Some v -> shared_secret v secret (Unix now) now' ->
  proxy_valid validator now' (incoming (mkEvaluator_ config (Some secret)) now) = true.
Proof.
  intros -> Hs. eapply proxy_valid_generated; [exact Hs|]. unfold hdr, evaluate_header. cbn [ev_tokenGen rq_Header].
  by rewrite Get_Set, same_header_refl.
Qed.

Lemma evaluator_without_secret config now :
  proxy_valid validator now' (incoming (mkEvaluator_ config None) now) = false.
Proof.
  unfold proxy_valid. destruct validator as [v|]; [|done].
  assert (Ht : proxy_token (incoming (mkEvaluator_ config None) now) = "") by reflexivity. by rewrite Ht.
Qed.
End Served.
End DynEvalFacts.

(** * Examples *)

Module ClientDemo.
#[local] Existing Instance ascii_unicode.
#[local] Existing Instance no_print.

(** Bodies in the clear: the statement of a check, the query of a decision. *)
Definition marshal (w : Pep.wire) : result string string :=
  match w with
  | Pep.WDecide r => Ok (Pep.dq_Query r)
  | Pep.WCheckInput r => Ok (Pep.cq_Statement r)
  | Pep.WCheckOutput r => Ok (Pep.ow_Message r)
  end.
Definition no_error (url : string) : option string := None.
Definition c : Pep.Client := Pep.mkClient "https://pdp" "org" "key" "t" "gateway".
Definition obligation (endpoint : string) : Pep.Obligation :=
  Pep.mkObligation Pep.ObligationRedactPII "" (Some (Pep.mkFulfillment endpoint "POST" Pep.PhaseRequest [])).
Definition decision (obs : list Pep.Obligation) : Pep.DecideResponse := Pep.mkDecision Pep.VerdictAllow "d1" "t1" [] obs [] "" 0 "".
Definition request (query : string) : Pep.DecideRequest :=
  Pep.mkDecide "llm" (Pep.mkCaller "" "" "") (Pep.mkTarget "" "" "" "") query "" [] [].

(** A decision point whose engine masks everything, or reports an empty mask. *)
Definition net (p : HttpPost) : transport := Response 200 (hp_Body p) None.
Definition decode_decide (obs : list Pep.Obligation) (body : string) : result string Pep.DecideResponse := Ok (decision obs).
Definition masks (out body : string) : result string Pep.checkInputResponse := Ok (Pep.mkCheckInputResp true "" true out true).
Definition off (body : string) : result string Pep.checkInputResponse := Ok (Pep.mkCheckInputResp true "" false "" false).

Definition run (obs : list Pep.Obligation) (engine : string -> result string Pep.checkInputResponse)
  : string * string * option Pep.DecideResponse * option Pep.pep_error * list HttpPost :=
  Pep.DecideAndFulfill net marshal no_error (decode_decide obs) engine c (request "SSN 123-45-6789") "".
Definition content (r : string * string * option Pep.DecideResponse * option Pep.pep_error * list HttpPost) : string := r.1.1.1.2.
Definition failed (r : string * string * option Pep.DecideResponse * option Pep.pep_error * list HttpPost) : bool :=
  match r.1.2 with Some _ => true | None => false end.

(** Masked, refused because the redactor is off, refused because the obligation
    names another service, and forwarded in the clear because the mask is empty. *)
Example pep_examples :
  content (run [obligation "/api/v1/mcp/check-input"] (masks "SSN ***")) = "SSN ***" /\
  content (run [obligation "/api/v1/mcp/check-input"] off) = "" /\
  content (run [obligation "https://evil/x"] (masks "SSN ***")) = "" /\
  content (run [obligation "https://other/api/v1/mcp/check-input?x=1"] (masks "SSN ***")) = "SSN ***" /\
  content (run [obligation "/api/v1/mcp/check-input"] (masks "")) = "SSN 123-45-6789".
Proof. vm_compute. repeat split. Qed.

(** ** The connector limit *)

Definition json_tier (b : list Z) : option string :=
  match json_decode (of_bytes b) with Some (VObj m) => Some (default "" (get_string "tier" m)) | _ => None end.
Definition env (key k : string) : string :=
  if str_eqb k "DEPLOYMENT_MODE" then "community" else if str_eqb k "AXONFLOW_LICENSE_KEY" then key else "".
Definition five : DynEval.DynamicPolicyConfig :=
  DynEval.mkDynConfig true "" 0 true ["a"; "b"; "c"; "d"; "e"; "f"] 2 5.
Definition kept (key : string) : nat := length (DynEval.EnforceCustomPolicyConnectorLimit (env key) json_tier five).

(** No key keeps two connectors; a malformed one keeps five; one that names a
    tier keeps what the tier has, whatever its signature; and a Professional
    license keeps two, though its tier is documented as unlimited. *)
Example connector_limits :
  kept "" = 2%nat /\ kept "garbage" = 5%nat /\ kept "AXON-eyJ0aWVyIjoiZW50ZXJwcmlzZSJ9.forged" = 6%nat /\
  kept "AXON-eyJ0aWVyIjoiUHJvZmVzc2lvbmFsIn0.sig" = 2%nat /\
  DynEval.CustomPolicyConnectorLimitForTier five "Professional" = -1.
Proof. vm_compute. repeat split. Qed.

(** A timeout in plain seconds, as documented, is not parsed: the default stays. *)
Example timeout_in_seconds :
  let timeout v := DynEval.dc_Timeout (DynEval.ev_config (DynEval.NewDynamicPolicyEvaluatorFromEnv
    (fun k => if str_eqb k "MCP_DYNAMIC_POLICIES_TIMEOUT" then v else "") json_tier)) in
  timeout "30" = 5 * Second /\ timeout "30s" = 30 * Second.
Proof. vm_compute. split; reflexivity. Qed.

(** ** A different secret *)

Definition evaluator (secret : string) : DynEval.DynamicPolicyEvaluator := DynEval.mkEvaluator_ five (Some secret).
Definition dyn_request : DynEval.DynamicPolicyRequest := DynEval.mkDynReq "t" "o" "u" "" "pg" "query" "SELECT 1" [] 0 "" [].
Definition dyn_marshal (r : DynEval.DynamicPolicyRequest) : result string string := Ok (DynEval.dy_Statement r).
Definition dyn_decode (body : string) : result string DynEval.DynamicPolicyResponse := Ok (DynEval.mkDynResp false "budget" 3 [] 0 []).

End ClientDemo.
Import ClientDemo.
#[local] Existing Instance ascii_unicode.
#[local] Existing Instance no_print.

Lemma pep_fail_closed_witness :
  exists first rest,
    (run [obligation "/api/v1/mcp/check-input"] (masks "SSN ***")).2 = first :: rest /\
    redaction_run net marshal (masks "SSN ***") c [obligation "/api/v1/mcp/check-input"] "SSN 123-45-6789" "SSN ***" rest.
Proof.
  destruct (run [obligation "/api/v1/mcp/check-input"] (masks "SSN ***")) as [[[[verdict content] decision] err] posts] eqn:E.
  assert (Hv : (verdict, content, decision, err) = (run [obligation "/api/v1/mcp/check-input"] (masks "SSN ***")).1) by by rewrite E.
  vm_compute in Hv. injection Hv as -> -> -> ->.
  pose proof (pep_fail_closed _ _ _ _ _ _ _ _ _ _ _ _ _ E) as [_ [_ H]]. exact (H eq_refl).
Defined.

Lemma dynamic_policies_not_skipped_witness :
  let run secret := (DynEval.EvaluateWithGracefulDegradation
    (served (env "") (Some (NewTokenValidator "s3cret" 0)) 1000 net) dyn_marshal no_error dyn_decode
    (evaluator secret) (1000 * Second) 3 dyn_request).1 in
  is_ok (run "other") = false /\ exists resp, run "s3cret" = Ok resp /\ DynEval.dn_Allowed resp = false.
Proof.
  cbv zeta. split.
  - apply (dynamic_policies_not_skipped (env "") (Some (NewTokenValidator "s3cret" 0)) 1000 net dyn_marshal no_error dyn_decode
             (evaluator "other") (1000 * Second) 3 dyn_request "SELECT 1" eq_refl eq_refl). vm_compute. discriminate.
  - destruct (dynamic_policies_not_skipped (env "") (Some (NewTokenValidator "s3cret" 0)) 1000 net dyn_marshal no_error dyn_decode
                (evaluator "s3cret") (1000 * Second) 3 dyn_request "SELECT 1" eq_refl eq_refl) as (_ & H & _).
    assert (Hacc : proxy_valid (Some (NewTokenValidator "s3cret" 0)) 1000
                     (mkHttp "POST" evaluate_path (DynEval.evaluate_header (DynEval.ev_tokenGen (evaluator "s3cret")) (1000 * Second))) = true)
      by (vm_compute; reflexivity).
    specialize (H Hacc (DynEval.mkDynResp false "budget" 3 [] 0 [])). destruct H as (resp & Hr & Ha & _).
    + exists 200, "SELECT 1", (DynEval.mkDynResp false "budget" 3 [] 0 []). split; [reflexivity|]. split; [lia|]. split; [reflexivity|]. split; [reflexivity|].
      split; reflexivity.
    + exists resp. split; [exact Hr|exact Ha].
Defined.
