(* ===== verification/HttpSurface.v ===== *)
(** The HTTP surface both services share. [Cors]: src/platform/shared/corspolicy,
    the origin policy. [PathTemplate]: src/platform/path_template, the closed
    vocabulary of endpoint names.

    rs/cors is a third-party package: [Cors.Options] holds the fields of its
    options that decide on an origin, and nothing is said of what it does with
    them. Folding of case ([strings.EqualFold]) is an argument. *)

From S2P Require Import Prelude GoStrings GoHttp Regexp.

Local Open Scope Z_scope.

Module Cors.

Definition AllowedOriginsEnv : string := "AXONFLOW_CORS_ALLOWED_ORIGINS".
Definition deploymentModeEnv : string := "DEPLOYMENT_MODE".
Definition communityMode : string := "community".

Record Policy := mkPolicy { p_Wildcard : bool; p_Origins : list string; p_Credentials : bool; p_Notice : string }.

(** The fields of cors.Options that decide on an origin. *)
Record Options := mkOptions {
  o_AllowedOrigins : option (list string);
  o_AllowOriginFunc : option (string -> bool);
  o_AllowOriginRequestFunc : option (HttpRequest -> string -> bool);
  o_AllowOriginVaryRequestFunc : option (HttpRequest -> string -> bool * list string);
  o_AllowCredentials : bool;
}.

Definition ContainsWildcardOrigin (origins : list string) : bool := existsb (fun o => str_eqb o "*") origins.
Definition containsPatternOrigin (origins : list string) : bool :=
  existsb (fun o => negb (str_eqb o "*") && Contains o "*") origins.

Definition sign : string := of_bytes [226; 154; 160; 239; 184; 143].
Definition dash : string := of_bytes [226; 128; 148].
Definition quoted_star : string := of_bytes [34; 42; 34].

Definition wildcard_notice : string :=
  sign +:+ " [CORS] " +:+ AllowedOriginsEnv +:+ " contains " +:+ quoted_star +:+ ": allowing all origins WITHOUT credentials. " +:+
  "List explicit origins instead if you need credentialed cross-origin requests.".
Definition pattern_notice : string :=
  sign +:+ " [CORS] " +:+ AllowedOriginsEnv +:+ " contains a wildcard PATTERN (e.g. https://*.example.com). " +:+
  "Such an entry does match " +:+ dash +:+ " prefix/suffix, not exactly " +:+ dash +:+ " so it is honoured, but credentials " +:+
  "are NOT advertised for any origin in this list. List exact origins if you need credentialed " +:+
  "cross-origin requests.".
Definition fallback_notice : string :=
  sign +:+ " [CORS] the Community-mode fallback origin list contains a wildcard; " +:+ "credentials are NOT advertised for it.".
Definition deny_notice : string :=
  "[CORS] " +:+ AllowedOriginsEnv +:+ " is not set and " +:+ deploymentModeEnv +:+ " is not community: " +:+
  "cross-origin browser requests are denied. Set " +:+ AllowedOriginsEnv +:+
  " if a browser on another origin must call this API.".

Definition Apply (p : Policy) (opts : Options) : Options :=
  if p_Wildcard p then mkOptions (Some ["*"]) None None None false
  else if negb (bool_decide (p_Origins p = [])) then mkOptions (Some (p_Origins p)) None None None (p_Credentials p)
  else mkOptions None (Some (fun _ => false)) None None false.

Section Resolution.
Context `{U : Unicode} (getenv : string -> string) (EqualFold : string -> string -> bool).

Definition ParseAllowedOrigins (raw : string) : list string :=
  List.filter (fun o => negb (str_eqb o "")) (TrimSpace <$> Split raw ","%char).

Definition IsCommunityMode : bool := str_eqb (getenv deploymentModeEnv) communityMode.

Definition ResolveWithCommunityFallback (fallback : Policy) : Policy :=
  let origins := ParseAllowedOrigins (getenv AllowedOriginsEnv) in
  if ContainsWildcardOrigin origins then mkPolicy true [] false wildcard_notice
  else if containsPatternOrigin origins then mkPolicy false origins false pattern_notice
  else if negb (bool_decide (origins = [])) then mkPolicy false origins true ""
  else if IsCommunityMode then
    if ContainsWildcardOrigin (p_Origins fallback) || containsPatternOrigin (p_Origins fallback)
    then mkPolicy (p_Wildcard fallback) (p_Origins fallback) false
           (if str_eqb (p_Notice fallback) "" then fallback_notice else p_Notice fallback)
    else fallback
  else mkPolicy false [] false deny_notice.

Definition Resolve : Policy := ResolveWithCommunityFallback (mkPolicy true [] false "").

(** The value of the header and whether credentials go with it; [None] when the
    origin is refused. *)
Definition Allow (p : Policy) (origin : string) : option (string * bool) :=
  if str_eqb origin "" then None
  else if p_Wildcard p then Some ("*", false)
  else if existsb (fun o => EqualFold o origin) (p_Origins p) then Some (origin, p_Credentials p)
  else None.

(** [applyCORSPreflightHeaders] of the agent. *)
Definition applyCORSPreflightHeaders (origin allowMethods allowHeaders : string) (w : Header) : Header :=
  let w := Header_Set "Access-Control-Allow-Headers" allowHeaders
             (Header_Set "Access-Control-Allow-Methods" allowMethods (Header_Set "Vary" "Origin" w)) in
  match Allow Resolve origin with
  | None => w
  | Some (value, credentials) =>
      let w := Header_Set "Access-Control-Allow-Origin" value w in
      if credentials then Header_Set "Access-Control-Allow-Credentials" "true" w else w
  end.
End Resolution.
End Cors.

Module PathTemplate.

Definition Templates : list string :=
  ["/api/audit/llm-call"; "/api/clients"; "/api/policies/test"; "/api/policy/pre-check"; "/api/request";
   "/api/v1/audit/chains/{chainID}/verify"; "/api/v1/audit/records/{recordID}/verify"; "/api/v1/audit/signing-key";
   "/api/v1/circuit-breaker/check"; "/api/v1/circuit-breaker/config"; "/api/v1/circuit-breaker/history";
   "/api/v1/circuit-breaker/notifications"; "/api/v1/circuit-breaker/notifications/{id}";
   "/api/v1/circuit-breaker/reset"; "/api/v1/circuit-breaker/status"; "/api/v1/circuit-breaker/trip";
   "/api/v1/connectors/cache/stats"; "/api/v1/connectors/refresh"; "/api/v1/connectors/refresh/{tenant_id}";
   "/api/v1/connectors/refresh/{tenant_id}/{connector_name}"; "/api/v1/decide"; "/api/v1/emergency-stop";
   "/api/v1/emergency-stop/release"; "/api/v1/euaiact/accuracy"; "/api/v1/euaiact/accuracy/alerts";
   "/api/v1/euaiact/accuracy/bias"; "/api/v1/euaiact/accuracy/history"; "/api/v1/euaiact/accuracy/record";
   "/api/v1/euaiact/conformity"; "/api/v1/euaiact/conformity/{assessment_id}";
   "/api/v1/euaiact/conformity/{assessment_id}/approve"; "/api/v1/euaiact/conformity/{assessment_id}/reject";
   "/api/v1/euaiact/conformity/{assessment_id}/submit"; "/api/v1/euaiact/export"; "/api/v1/euaiact/export/{export_id}";
   "/api/v1/euaiact/export/{export_id}/download"; "/api/v1/hitl/expire"; "/api/v1/hitl/queue"; "/api/v1/hitl/queue/{id}";
   "/api/v1/hitl/queue/{id}/approve"; "/api/v1/hitl/queue/{id}/history"; "/api/v1/hitl/queue/{id}/override";
   "/api/v1/hitl/queue/{id}/reject"; "/api/v1/hitl/stats"; "/api/v1/hitl/status"; "/api/v1/mcp-server";
   "/api/v1/mcp/check-input"; "/api/v1/mcp/check-output"; "/api/v1/policy-overrides"; "/api/v1/static-policies";
   "/api/v1/static-policies/effective"; "/api/v1/static-policies/overrides"; "/api/v1/static-policies/test";
   "/api/v1/static-policies/{id}"; "/api/v1/static-policies/{id}/override"; "/api/v1/static-policies/{id}/versions";
   "/health"; "/mcp/connectors"; "/mcp/connectors/{name}/health"; "/mcp/health"; "/mcp/resources/query";
   "/mcp/tools/execute"; "/metrics"; "/prometheus"; "/v1/chat/completions"; "/v1/logs"; "/v1/metrics"].

(** The registered parameter syntax. *)
Definition paramSegmentRE : regex := Eval vm_compute in MustCompile "^\{[^/]+\}$".

Record templateEntry := mkEntry { te_template : string; te_re : regex; te_specificity : nat }.

(** [regexp.QuoteMeta] *)
Definition is_meta (a : ascii) : bool := bool_decide (a ∈ chars "\.+*?()|[]{}^$").
Definition QuoteMeta (s : string) : string :=
  of_chars (chars s ≫= fun a => if is_meta a then ["\"%char; a] else [a]).

Fixpoint join_slash (l : list string) : string :=
  match l with
  | [] => ""
  | [s] => s
  | s :: l' => s +:+ "/" +:+ join_slash l'
  end.

Definition segment_part (seg : string) : string := if MatchString paramSegmentRE seg then "[^/]+" else QuoteMeta seg.
Definition is_literal (seg : string) : bool := negb (MatchString paramSegmentRE seg) && negb (str_eqb seg "").

Definition compileTemplate (template : string) : option templateEntry :=
  if str_eqb template "" then None
  else
    let segments := Split template "/"%char in
    match Compile ("^" +:+ join_slash (segment_part <$> segments) +:+ "$") with
    | None => None
    | Some re => Some (mkEntry template re (length (List.filter is_literal segments)))
    end.

Definition NewMatcher (templates : list string) : list templateEntry := omap compileTemplate templates.

Definition stripTrailingParam (template : string) : string :=
  match LastIndex template "/" with
  | None => template
  | Some idx =>
      if negb (MatchString paramSegmentRE (slice template (idx + 1) (len template))) then template
      else let stripped := slice template 0 idx in if str_eqb stripped "" then template else stripped
  end.

(** The entry chosen: the first of those of the highest specificity. *)
Fixpoint best_entry (l : list templateEntry) (rawPath : string) (best : option templateEntry) : option templateEntry :=
  match l with
  | [] => best
  | e :: l' =>
      best_entry l' rawPath
        (if negb (MatchString (te_re e) rawPath) then best
         else match best with
              | None => Some e
              | Some b => if (te_specificity b <? te_specificity e)%nat then Some e else best
              end)
  end.

Definition without_query (rawPath : string) : string :=
  match Index rawPath "?" with Some i => slice rawPath 0 i | None => rawPath end.

Definition Matcher_Normalize (m : list templateEntry) (rawPath : string) : string :=
  let rawPath := without_query rawPath in
  match best_entry m rawPath None with None => rawPath | Some e => stripTrailingParam (te_template e) end.

Definition defaultMatcher : list templateEntry := Eval vm_compute in NewMatcher Templates.
Definition Normalize (rawPath : string) : string := Matcher_Normalize defaultMatcher rawPath.
End PathTemplate.

(** * The origin policy *)

Section CorsFacts.
Context `{U : Unicode} (getenv : string -> string) (EqualFold : string -> string -> bool).
Import Cors.

Definition enumerated (l : list string) : Prop := Forall (fun o => Contains o "*" = false) l.

Lemma no_star_enumerated l : ContainsWildcardOrigin l = false -> containsPatternOrigin l = false -> enumerated l.
Proof.
  unfold ContainsWildcardOrigin, containsPatternOrigin, enumerated. intros H1 H2. apply Forall_forall. intros o Ho.
  destruct (Contains o "*") eqn:Eo; [|done]. destruct (str_eqb o "*") eqn:E1.
  - enough (existsb (fun o => str_eqb o "*") l = true) by congruence. apply existsb_exists. exists o. by rewrite <- list_elem_of_In.
  - enough (existsb (fun o => negb (str_eqb o "*") && Contains o "*") l = true) by congruence.
    apply existsb_exists. exists o. rewrite <- list_elem_of_In. by rewrite E1, Eo.
Qed.

(** A resolved policy has credentials only for a list that was written down, or
    for the bare wildcard of a fallback, which both readers refuse. *)
Lemma resolved_credentials fallback :
  let p := ResolveWithCommunityFallback getenv fallback in
  p_Credentials p = true -> enumerated (p_Origins p).
Proof.
  cbn zeta. unfold ResolveWithCommunityFallback.
  destruct (ContainsWildcardOrigin (ParseAllowedOrigins _)) eqn:E1; [done|].
  destruct (containsPatternOrigin (ParseAllowedOrigins _)) eqn:E2; [done|].
  destruct (negb _); [intros _; by apply no_star_enumerated|].
  destruct (IsCommunityMode _); [|done]. destruct (_ || _) eqn:E3; [done|].
  intros _. apply orb_false_iff in E3 as [? ?]. by apply no_star_enumerated.
Qed.

(** credentials are advertised only to origins somebody wrote down. Whatever
    the environment and the fallback of the surface: a handler that answers a
    preflight itself advertises them only for an origin equal, up to case, to an
    entry without a star, and echoes that origin; the options of the router
    middleware carry credentials only with a non-empty list of such entries,
    never express denial by an empty list, which the middleware reads as allow
    all, and clear the functions that would take precedence. *)
Theorem cors_credentials_enumerated fallback opts :
  let p := ResolveWithCommunityFallback getenv fallback in
  (forall origin value, Allow EqualFold p origin = Some (value, true) ->
     value = origin /\ exists o, o ∈ p_Origins p /\ EqualFold o origin = true /\ Contains o "*" = false) /\
  (o_AllowCredentials (Apply p opts) = true ->
     exists l, o_AllowedOrigins (Apply p opts) = Some l /\ l <> [] /\ enumerated l) /\
  match o_AllowedOrigins (Apply p opts) with
  | Some l => l <> []
  | None => exists f, o_AllowOriginFunc (Apply p opts) = Some f /\ forall origin, f origin = false
  end /\
  o_AllowOriginRequestFunc (Apply p opts) = None /\ o_AllowOriginVaryRequestFunc (Apply p opts) = None.
Proof.
  intros p. pose proof (resolved_credentials fallback) as Hc. fold p in Hc. cbn zeta in Hc. split_and!.
  - intros origin value. unfold Allow. destruct (str_eqb origin ""); [done|]. destruct (p_Wildcard p); [done|].
    destruct (existsb _ _) eqn:E; [|done]. intros [= <- Hp]. split; [done|].
    apply existsb_exists in E as (o & Ho%list_elem_of_In & He). exists o. split; [done|]. split; [done|].
    specialize (Hc Hp). unfold enumerated in Hc. rewrite Forall_forall in Hc. by apply Hc.
  - unfold Apply. destruct (p_Wildcard p); [done|]. destruct (bool_decide _) eqn:E; cbn; [done|].
    intros Hp. apply bool_decide_eq_false in E. eauto.
  - unfold Apply. destruct (p_Wildcard p); [done|]. destruct (bool_decide _) eqn:E; cbn; [by eexists|].
    by apply bool_decide_eq_false in E.
  - unfold Apply. destruct (p_Wildcard p); [done|]. by destruct (negb _).
  - unfold Apply. destruct (p_Wildcard p); [done|]. by destruct (negb _).
Qed.

(** Unconfigured outside the community mode, every origin is refused. *)
Lemma cors_default_deny fallback origin :
  ParseAllowedOrigins (getenv AllowedOriginsEnv) = [] -> IsCommunityMode getenv = false ->
  Allow EqualFold (ResolveWithCommunityFallback getenv fallback) origin = None.
Proof.
  intros Ho Hm. unfold ResolveWithCommunityFallback. rewrite Ho, Hm. cbn. unfold Allow. by destruct (str_eqb origin "").
Qed.
End CorsFacts.

(** * Endpoint names *)

Section PathFacts.
Import PathTemplate.

(** The entry chosen matches, and no matching entry is more specific. *)
Lemma best_entry_spec l path best :
  (forall b, best = Some b -> MatchString (te_re b) path = true) ->
  match best_entry l path best with
  | None => best = None /\ Forall (fun e => MatchString (te_re e) path = false) l
  | Some e => (e ∈ l \/ best = Some e) /\ MatchString (te_re e) path = true /\
      (forall b, best = Some b -> (te_specificity b <= te_specificity e)%nat) /\
      Forall (fun e' => MatchString (te_re e') path = true -> (te_specificity e' <= te_specificity e)%nat) l
  end.
Proof.
  revert best. induction l as [|x l IH]; intros best Hb; cbn [best_entry].
  { destruct best as [b|]; [|done]. split; [by right|]. split; [by apply Hb|]. split; [|done]. by intros ? [= <-]. }
  destruct (MatchString (te_re x) path) eqn:Ex; cbn [negb].
  - set (next := match best with None => Some x | Some b => if (te_specificity b <? te_specificity x)%nat then Some x else best end).
    assert (Hnext : forall b, next = Some b -> MatchString (te_re b) path = true).
    { intros b. unfold next. destruct best as [b0|]; [destruct (_ <? _)%nat|]; try (by intros [= <-]). intros [= <-]. by apply Hb. }
    assert (Hx : exists n, next = Some n /\ (te_specificity x <= te_specificity n)%nat /\ (n = x \/ best = Some n) /\
                 forall b, best = Some b -> (te_specificity b <= te_specificity n)%nat).
    { unfold next. destruct best as [b0|]; [|exists x; naive_solver lia].
      destruct (Nat.ltb_spec (te_specificity b0) (te_specificity x)); [exists x; naive_solver lia|exists b0; naive_solver lia]. }
    destruct Hx as (n & Hn & Hxn & Hor & Hbn). specialize (IH next Hnext). rewrite Hn in IH |- *.
    destruct (best_entry l path (Some n)) as [e|]; [|by destruct IH]. destruct IH as (H1 & H2 & H3 & H4).
    specialize (H3 n eq_refl). split_and!; [|done| |].
    + destruct H1 as [?|H1]; [left; by right|]. injection H1 as ->. destruct Hor as [->| ->]; [left; by left|by right].
    + intros b Hbb. specialize (Hbn b Hbb). lia.
    + constructor; [intros _; lia|done].
  - specialize (IH best Hb). destruct (best_entry l path best) as [e|].
    + destruct IH as (H1 & H2 & H3 & H4). split_and!; [|done|done|].
      * destruct H1 as [?|?]; [left; by right|by right].
      * constructor; [by rewrite Ex|done].
    + destruct IH as [? ?]. split; [done|]. by constructor.
Qed.

(** Every registered template compiles. *)
Lemma templates_compile : te_template <$> defaultMatcher = Templates.
Proof. vm_compute. reflexivity. Qed.

(** The endpoint column has a closed vocabulary: a path becomes the name of a
    registered template, one that matches it and that no matching template
    exceeds in literal segments, or, when none matches, stays as it is. *)
Lemma normalize_closed path :
  (exists e, e ∈ defaultMatcher /\ MatchString (te_re e) (without_query path) = true /\
     Normalize path = stripTrailingParam (te_template e) /\ te_template e ∈ Templates /\
     Forall (fun e' => MatchString (te_re e') (without_query path) = true -> (te_specificity e' <= te_specificity e)%nat) defaultMatcher) \/
  (Normalize path = without_query path /\ Forall (fun e => MatchString (te_re e) (without_query path) = false) defaultMatcher).
Proof.
  unfold Normalize, Matcher_Normalize. pose proof (best_entry_spec defaultMatcher (without_query path) None) as H.
  destruct (best_entry _ _ _) as [e|]; [left|right; split; [done|by apply H]].
  destruct H as ([He|?] & Hm & _ & Hmax); [done| |done]. exists e. split_and!; try done.
  rewrite <- templates_compile. by apply list_elem_of_fmap_2.
Qed.

Example normalize_examples :
  Normalize "/api/v1/hitl/queue/42" = "/api/v1/hitl/queue" /\
  Normalize "/api/v1/static-policies/effective?x=1" = "/api/v1/static-policies/effective" /\
  Normalize "/api/v1/static-policies/77" = "/api/v1/static-policies" /\
  Normalize "/api/v1/hitl/queue/42/approve" = "/api/v1/hitl/queue/{id}/approve" /\
  Normalize "/api/v1/connectors/refresh/t1/pg" = "/api/v1/connectors/refresh/{tenant_id}" /\
  Normalize "/no/such/path" = "/no/such/path".
Proof. vm_compute. repeat split. Qed.

(** Normalising twice can go one level up. *)
Example normalize_not_idempotent :
  Normalize (Normalize "/api/v1/connectors/refresh/t1/pg") = "/api/v1/connectors/refresh".
Proof. vm_compute. reflexivity. Qed.
End PathFacts.
