(* ===== verification/Detection.v ===== *)
(** Detection postures of the agent: src/platform/agent/detection_config.go (actions
    and mode configurations from the environment), profile.go, enforce.go,
    src/platform/shared/envcompat, and detection_override.go (the postures an
    organization overrides, behind a cache with a time to live).

    Log lines and the rate limit of a warning are left out. The database read of a
    cache miss is an argument of the call. *)

From stdpp Require Import gmap.
From S2P Require Import Prelude GoStrings GoStrconv GoTime PolicyTypes.

Local Open Scope Z_scope.

(** * Actions *)

Definition DetectionActionBlock : string := "block".
Definition DetectionActionWarn : string := "warn".
Definition DetectionActionRedact : string := "redact".
Definition DetectionActionLog : string := "log".

Definition ToPolicyAction (a : string) : string :=
  if str_eqb a DetectionActionBlock then ActionBlock
  else if str_eqb a DetectionActionRedact then ActionRedact
  else if str_eqb a DetectionActionWarn then ActionWarn
  else if str_eqb a DetectionActionLog then ActionLog
  else ActionBlock.

Record DetectionConfig := mkDetection {
  dc_SQLIAction : string; dc_PIIAction : string; dc_SensitiveDataAction : string; dc_HighRiskAction : string;
  dc_DangerousQueryAction : string; dc_DangerousCommandAction : string }.

(** * Profiles *)

Definition ProfileDev : string := "dev".
Definition ProfileDefault : string := "default".
Definition ProfileStrict : string := "strict".
Definition ProfileCompliance : string := "compliance".

Definition ProfileDefaults (p : string) : DetectionConfig :=
  if str_eqb p ProfileDev then mkDetection "log" "log" "log" "log" "warn" "warn"
  else if str_eqb p ProfileStrict then mkDetection "block" "block" "block" "warn" "block" "block"
  else if str_eqb p ProfileCompliance then mkDetection "block" "block" "block" "block" "block" "block"
  else mkDetection "warn" "warn" "warn" "warn" "block" "block".

Definition DefaultDetectionConfig : DetectionConfig := ProfileDefaults ProfileDefault.

(** * The enforce list *)

Definition allEnforceCategories : list string :=
  ["pii"; "sqli"; "sensitive_data"; "high_risk"; "dangerous_queries"; "dangerous_commands"].

(** [None] in place of an absent category set. *)
Record EnforceResult := mkEnforce { en_Sentinel : string; en_Categories : option (gset string) }.

Definition Unset (r : EnforceResult) : bool :=
  str_eqb (en_Sentinel r) "" && match en_Categories r with None => true | Some _ => false end.

Section Detection.
Context `{U : Unicode} (getenv : string -> string).

Definition ResolveProfile : string :=
  let raw := ToLower (TrimSpace (getenv "AXONFLOW_PROFILE")) in
  if str_in raw [ProfileDev; ProfileDefault; ProfileStrict; ProfileCompliance] then raw else ProfileDefault.

(** The tokens of a list in order; an unknown one is an error that names it. *)
Fixpoint enforce_tokens (tokens : list string) (set : gset string) : result string (gset string) :=
  match tokens with
  | [] => Ok set
  | t :: rest =>
      let token := ToLower (TrimSpace t) in
      if str_eqb token "" then enforce_tokens rest set
      else if negb (str_in token allEnforceCategories) then Err token
      else enforce_tokens rest ({[ token ]} ∪ set)
  end.

Definition ParseEnforce (raw : string) : result string EnforceResult :=
  let raw := TrimSpace raw in
  if str_eqb raw "" then Ok (mkEnforce "" None)
  else
    let lower := ToLower raw in
    if str_eqb lower "all" || str_eqb lower "none" then Ok (mkEnforce lower None)
    else match enforce_tokens (Split raw ",") ∅ with
         | Err token => Err token
         | Ok set => Ok (mkEnforce "" (Some set))
         end.

Definition ApplyEnforce (cfg : DetectionConfig) (r : EnforceResult) : DetectionConfig :=
  if Unset r then cfg
  else if str_eqb (en_Sentinel r) "all" then ProfileDefaults ProfileStrict
  else if str_eqb (en_Sentinel r) "none" then ProfileDefaults ProfileDev
  else
    let pick c a := if bool_decide (c ∈ default ∅ (en_Categories r)) then DetectionActionBlock else a in
    mkDetection (pick "sqli" (dc_SQLIAction cfg)) (pick "pii" (dc_PIIAction cfg))
      (pick "sensitive_data" (dc_SensitiveDataAction cfg)) (pick "high_risk" (dc_HighRiskAction cfg))
      (pick "dangerous_queries" (dc_DangerousQueryAction cfg)) (pick "dangerous_commands" (dc_DangerousCommandAction cfg)).

(** * Configurations from the environment *)

(** envcompat.Lookup: the value and whether it is the new name's. *)
Definition Lookup (primary deprecated : string) : option (string * bool) :=
  if negb (str_eqb (getenv primary) "") then Some (getenv primary, true)
  else if negb (str_eqb (getenv deprecated) "") then Some (getenv deprecated, false)
  else None.

Definition parseDetectionAction (value defaultAction : string) (valid : list string) : string :=
  let normalized := ToLower (TrimSpace value) in
  if str_in normalized valid then normalized else defaultAction.

Definition three_actions : list string := [DetectionActionBlock; DetectionActionWarn; DetectionActionLog].
Definition four_actions : list string := [DetectionActionBlock; DetectionActionWarn; DetectionActionRedact; DetectionActionLog].

(** A variable that overrides an action when it is set. *)
Definition action_from (name : string) (valid : list string) (current : string) : string :=
  if str_eqb (getenv name) "" then current else parseDetectionAction (getenv name) current valid.

Definition DetectionConfigFromEnvWithBase (base : DetectionConfig) : DetectionConfig :=
  mkDetection
    (match Lookup "SQLI_ACTION" "SQLI_BLOCK_MODE" with
     | Some (v, true) => parseDetectionAction v (dc_SQLIAction base) three_actions
     | Some (v, false) => if str_eqb (ToLower v) "warn" then DetectionActionWarn else DetectionActionBlock
     | None => dc_SQLIAction base
     end)
    (match Lookup "PII_ACTION" "PII_BLOCK_CRITICAL" with
     | Some (v, true) => parseDetectionAction v (dc_PIIAction base) four_actions
     | Some (v, false) => if str_eqb v "false" || str_eqb v "0" then DetectionActionLog else DetectionActionBlock
     | None => dc_PIIAction base
     end)
    (action_from "SENSITIVE_DATA_ACTION" three_actions (dc_SensitiveDataAction base))
    (action_from "HIGH_RISK_ACTION" three_actions (dc_HighRiskAction base))
    (action_from "DANGEROUS_QUERY_ACTION" three_actions (dc_DangerousQueryAction base))
    (action_from "DANGEROUS_COMMAND_ACTION" three_actions (dc_DangerousCommandAction base)).

Definition LoadEnforceFromEnv : result string EnforceResult := ParseEnforce (getenv "AXONFLOW_ENFORCE").

Definition DetectionConfigFromEnv : DetectionConfig :=
  let base := ProfileDefaults ResolveProfile in
  DetectionConfigFromEnvWithBase
    match LoadEnforceFromEnv with Err _ => base | Ok enforce => ApplyEnforce base enforce end.

Record ModeDetectionConfig := mkMode {
  md_Enabled : bool; md_PIIAction : string; md_SQLIAction : string; md_SensitiveDataAction : string;
  md_DangerousQueryAction : string; md_DangerousCommandAction : string; md_SkipCategories : list string; md_Connectors : list string }.

Definition parseBoolEnv (name : string) (defaultVal : bool) : bool :=
  let v := ToLower (TrimSpace (getenv name)) in
  if str_eqb (getenv name) "" then defaultVal
  else if str_in v ["true"; "1"; "yes"] then true
  else if str_in v ["false"; "0"; "no"] then false
  else defaultVal.

(** The non-blank entries of a comma-separated list. *)
Definition parseCSV (val : string) : list string :=
  if str_eqb val "" then [] else List.filter (fun p => negb (str_eqb p "")) (TrimSpace <$> Split val ",").
Definition parseCategoryList (val : string) : list string := parseCSV val.

(** What the two modes share; [prefix] is the mode's. *)
Definition mode_config (prefix : string) (connectors : list string) : ModeDetectionConfig :=
  let g := DetectionConfigFromEnv in
  mkMode (parseBoolEnv (prefix +:+ "STATIC_POLICIES_ENABLED") true)
    (action_from (prefix +:+ "PII_ACTION") four_actions (dc_PIIAction g))
    (action_from (prefix +:+ "SQLI_ACTION") three_actions (dc_SQLIAction g))
    (dc_SensitiveDataAction g)
    (action_from (prefix +:+ "DANGEROUS_QUERY_ACTION") three_actions (dc_DangerousQueryAction g))
    (action_from (prefix +:+ "DANGEROUS_COMMAND_ACTION") three_actions (dc_DangerousCommandAction g))
    (parseCategoryList (getenv (prefix +:+ "STATIC_POLICIES_SKIP_CATEGORIES"))) connectors.

(** The connector list needs an enterprise license. *)
Definition MCPDetectionConfigFromEnv (enterprise : bool) : ModeDetectionConfig :=
  mode_config "MCP_" (if enterprise then parseCSV (getenv "MCP_STATIC_POLICIES_CONNECTORS") else []).
Definition GatewayDetectionConfigFromEnv : ModeDetectionConfig := mode_config "GATEWAY_" [].
End Detection.

Definition BuildActionOverrides (c : ModeDetectionConfig) : gmap string string :=
  let pii := ToPolicyAction (md_PIIAction c) in
  list_to_map
    [(CategoryPIIGlobal, pii); (CategoryPIIUS, pii); (CategoryPIIIndia, pii); (CategoryPIIEU, pii);
     (CategoryPIISingapore, pii); (CategoryPIIIndonesia, pii);
     (CategorySecuritySQLi, ToPolicyAction (md_SQLIAction c));
     (CategorySensitiveData, ToPolicyAction (md_SensitiveDataAction c));
     (CategorySecurityDangerous, ToPolicyAction (md_DangerousCommandAction c))].

Definition IsConnectorEnabled (c : ModeDetectionConfig) (connector : string) : bool :=
  match md_Connectors c with [] => true | l => str_in connector l end.

(** * Overrides of an organization *)

Definition DetectionCategoryPII : string := "pii".
Definition DetectionCategorySQLI : string := "sqli".
Definition DetectionCategoryDangerousQuery : string := "dangerous_query".
Definition DetectionCategoryDangerousCommand : string := "dangerous_command".
Definition DetectionCategoryObligationFallback : string := "obligation_fallback".

Abbreviation org_overrides := (gmap string string).

Definition parseOverrideAction (action : string) : option string := if str_in action four_actions then Some action else None.

(** The rows (category, action) of an organization; a later row of a category wins,
    an unknown action is skipped. *)
Definition ReadOrgOverrides (rows : result string (list (string * string))) : result string org_overrides :=
  match rows with
  | Err e => Err e
  | Ok l => Ok (fold_left (fun m r => match parseOverrideAction r.2 with Some a => <[r.1 := a]> m | None => m end) l ∅)
  end.

Record detectionOverrideCacheEntry := mkOverrideEntry { oe_overrides : org_overrides; oe_expiresAt : Z }.
Record detectionOverrideCache := mkOverrideCache { oc_entries : gmap string detectionOverrideCacheEntry; oc_ttl : Z; oc_errTTL : Z }.

Definition defaultDetectionOverrideTTL : Z := 60 * Second.
Definition minDetectionOverrideTTL : Z := 5 * Second.
Definition maxDetectionOverrideTTL : Z := 600 * Second.
Definition maxDetectionOverrideErrTTL : Z := 15 * Second.

Definition clamp_ttl (ttl : Z) : Z :=
  let ttl := if ttl <? minDetectionOverrideTTL then minDetectionOverrideTTL else ttl in
  if maxDetectionOverrideTTL <? ttl then maxDetectionOverrideTTL else ttl.

Definition newDetectionOverrideCache (ttl : Z) : detectionOverrideCache :=
  let ttl := clamp_ttl ttl in
  mkOverrideCache ∅ ttl (if maxDetectionOverrideErrTTL <? ttl then maxDetectionOverrideErrTTL else ttl).

(** The product with a second wraps around. *)
Definition resolveDetectionOverrideTTL (getenv : string -> string) : Z :=
  let raw := getenv "AXONFLOW_DETECTION_OVERRIDE_TTL_SECONDS" in
  if str_eqb raw "" then defaultDetectionOverrideTTL
  else let '(secs, ok) := Atoi raw in
       if negb ok || (secs <=? 0) then defaultDetectionOverrideTTL else clamp_ttl (wrap64 (secs * Second)).

(** One look-up at [now]; [read] is what the database answers if it is asked. *)
Definition override_get (c : detectionOverrideCache) (now : Z) (read : result string org_overrides) (orgID : string)
  : org_overrides * detectionOverrideCache :=
  let miss :=
    let '(m, ttl) := match read with Err _ => (∅, oc_errTTL c) | Ok m => (m, oc_ttl c) end in
    (m, mkOverrideCache (<[orgID := mkOverrideEntry m (now + ttl)]> (oc_entries c)) (oc_ttl c) (oc_errTTL c)) in
  match oc_entries c !! orgID with
  | Some e => if now <? oe_expiresAt e then (oe_overrides e, c) else miss
  | None => miss
  end.

Definition invalidate (c : detectionOverrideCache) (orgID : string) : detectionOverrideCache :=
  mkOverrideCache (delete orgID (oc_entries c)) (oc_ttl c) (oc_errTTL c).

(** No cache without a database; an empty organization has no overrides. *)
Definition lookup_overrides (c : option detectionOverrideCache) (now : Z) (read : result string org_overrides) (orgID : string)
  : org_overrides * option detectionOverrideCache :=
  if str_eqb orgID "" then (∅, c)
  else match c with
       | None => (∅, None)
       | Some c => let '(m, c') := override_get c now read orgID in (m, Some c')
       end.

Definition apply_overrides (m : org_overrides) (base : ModeDetectionConfig) : ModeDetectionConfig :=
  mkMode (md_Enabled base) (default (md_PIIAction base) (m !! DetectionCategoryPII)) (default (md_SQLIAction base) (m !! DetectionCategorySQLI))
    (md_SensitiveDataAction base) (default (md_DangerousQueryAction base) (m !! DetectionCategoryDangerousQuery))
    (default (md_DangerousCommandAction base) (m !! DetectionCategoryDangerousCommand)) (md_SkipCategories base) (md_Connectors base).

Definition applyOrgDetectionOverrides (c : option detectionOverrideCache) (now : Z) (read : result string org_overrides)
    (orgID : string) (base : ModeDetectionConfig) : ModeDetectionConfig * option detectionOverrideCache :=
  let '(m, c') := lookup_overrides c now read orgID in (apply_overrides m base, c').

Definition response_injection (m : org_overrides) : string := default DetectionActionRedact (m !! DetectionCategoryDangerousCommand).

(** On a response the same override category defaults to redaction. *)
Definition ResolveResponseInjectionAction (c : option detectionOverrideCache) (now : Z) (read : result string org_overrides) (orgID : string)
  : string * option detectionOverrideCache :=
  let '(m, c') := lookup_overrides c now read orgID in (response_injection m, c').

Definition fallback_action (m : org_overrides) : string :=
  match m !! DetectionCategoryObligationFallback with
  | Some a => if str_in a [DetectionActionBlock; DetectionActionLog] then a else DetectionActionLog
  | None => DetectionActionLog
  end.

Definition ResolveObligationFallbackAction (c : option detectionOverrideCache) (now : Z) (read : result string org_overrides) (orgID : string)
  : string * option detectionOverrideCache :=
  let '(m, c') := lookup_overrides c now read orgID in (fallback_action m, c').
