(* ===== verification/ReadOnly.v ===== *)
(** The read-only posture of the MCP gate, src/platform/agent/mcp_readonly_posture.go:
    the classification of a tool call by its name and of a SQL statement by its text,
    the latter through a scanner that blanks literals and comments. The scanner is
    proved exact for the lexical grammar of SQL, in which block comments nest, on texts
    without a nested comment and without backslashes; what it does beyond them is at the
    end. *)

From stdpp Require Import base list.
From S2P Require Import Prelude GoStrings Regexp Egress Detection.

Local Open Scope Z_scope.

(** * Verbs *)

Definition EnvMCPReadOnly : string := "MCP_READ_ONLY".
Definition readOnlyPosturePolicyID : string := "sys_mcp_read_only_posture".

Inductive mcpAccessClass := mcpAccessRead | mcpAccessWrite.

Definition readVerbs : list string :=
  ["read"; "get"; "list"; "search"; "query"; "fetch"; "describe"; "find"; "grep"; "glob"; "view"; "show";
   "head"; "tail"; "cat"; "select"; "count"; "stat"; "lookup"; "ls"; "peek"; "inspect"; "scan"; "browse";
   "check"; "exists"; "info"; "summary"; "download"; "preview"; "status"; "watch"; "poll"; "explain"].

Definition writeVerbs : list string :=
  ["write"; "edit"; "create"; "update"; "delete"; "insert"; "drop"; "put"; "post"; "patch"; "remove"; "rm"; "exec"; "execute"; "run"; "bash";
   "shell"; "sh"; "command"; "mv"; "move"; "copy"; "cp"; "rename"; "modify"; "set"; "push"; "commit"; "send"; "mutate"; "truncate"; "alter";
   "upsert"; "save"; "append"; "kill"; "terminate"; "deploy"; "apply"; "call"; "invoke"; "trigger"; "publish"; "destroy";
   "upload"; "add"; "merge"; "replace"; "transfer"; "grant"; "revoke"; "register"; "unregister"; "provision"; "deprovision"; "enable";
   "disable"; "reset"; "cancel"; "approve"; "reject"; "charge"; "refund"; "mkdir"; "rmdir"; "symlink"; "link"; "unlink"; "enqueue";
   "dequeue"; "flush"; "sync"; "import"; "restore"; "rollback"; "migrate"; "seed"; "attach"; "detach"; "assign"; "unassign"; "archive";
   "purge"; "expire"; "schedule"; "dispatch"; "emit"; "notify"; "store"; "clear"; "drain"; "ack"; "acknowledge"; "close"; "start"; "stop";
   "restart"; "pause"; "resume"; "scale"; "rotate"; "issue"; "mint"; "sign"; "revert"; "undo"; "redo"; "lock"; "unlock";
   "toggle"; "change"; "increment"; "decrement"; "activate"; "deactivate"; "submit"; "confirm"; "decline"; "allocate"; "reserve";
   "release"; "acquire"; "bind"; "connect"; "disconnect"; "subscribe"; "unsubscribe"; "upgrade"; "downgrade"; "install"; "uninstall";
   "build"; "generate"; "process"; "persist"; "share"; "invite"; "promote"; "demote"; "fork"; "clone"; "snapshot"; "backup"; "checkout"; "tag"].

Definition sqlReadKeywords : list string := ["SELECT"; "SHOW"; "EXPLAIN"; "DESCRIBE"; "DESC"; "PRAGMA"; "VALUES"; "TABLE"; "FETCH"].
Definition sqlCTEWriteKeywords : list string :=
  ["INSERT"; "UPDATE"; "DELETE"; "MERGE"; "DROP"; "CREATE"; "ALTER"; "TRUNCATE"; "REPLACE"; "UPSERT"; "GRANT"; "REVOKE"; "CALL"].

(** The case of a rune above U+00FF: a parameter. *)
Class UnicodeCase := { upper_case_tab : Z -> bool; lower_case_tab : Z -> bool }.

(** The instance of the examples. *)
Definition no_case : UnicodeCase := {| upper_case_tab := fun _ => false; lower_case_tab := fun _ => false |}.

(** * The scanner *)

Definition SP : Z := 32.
Definition NL : Z := 10.
Definition DASH : Z := 45.
Definition SLASH : Z := 47.
Definition STAR : Z := 42.
Definition SQ : Z := 39.
Definition DQ : Z := 34.

Definition heads (c : Z) (l : list Z) : bool := match l with d :: _ => d =? c | [] => false end.

(** Where the loops of the scanner are: at the top level, or inside a comment or a
    literal with its delimiter. *)
Inductive scan_state := Top | InLine | InBlock | InQuote (q : Z).

Fixpoint mask (st : scan_state) (l : list Z) : list Z * bool :=
  match l with
  | [] => ([], match st with Top | InLine => false | _ => true end)
  | c :: rest =>
      match st with
      | Top =>
          if (c =? DASH) && heads DASH rest then let '(out, u) := mask InLine rest in (SP :: out, u)
          else if (c =? SLASH) && heads STAR rest then
            match rest with _ :: rest' => let '(out, u) := mask InBlock rest' in (SP :: SP :: out, u) | [] => ([], true) end
          else if (c =? SQ) || (c =? DQ) then let '(out, u) := mask (InQuote c) rest in (SP :: out, u)
          else let '(out, u) := mask Top rest in (c :: out, u)
      | InLine =>
          if c =? NL then let '(out, u) := mask Top rest in (c :: out, u) else let '(out, u) := mask InLine rest in (SP :: out, u)
      | InBlock =>
          if (c =? STAR) && heads SLASH rest then
            match rest with _ :: rest' => let '(out, u) := mask Top rest' in (SP :: SP :: out, u) | [] => ([], true) end
          else let '(out, u) := mask InBlock rest in (SP :: out, u)
      | InQuote q =>
          if c =? q then
            match rest with
            | d :: rest' => if d =? q then let '(out, u) := mask (InQuote q) rest' in (SP :: SP :: out, u)
                            else let '(out, u) := mask Top rest in (SP :: out, u)
            | [] => ([SP], false)
            end
          else let '(out, u) := mask (InQuote q) rest in (SP :: out, u)
      end
  end.

(** [[]rune(s)] and [string(runes)]. *)
Definition to_runes (s : string) : list Z := fst <$> runes s.
Definition of_runes (l : list Z) : string := of_bytes (mjoin (encode_rune <$> l)).

Definition maskSQLLiteralsAndComments (s : string) : string * bool :=
  let '(out, unterminated) := mask Top (to_runes s) in (of_runes out, unterminated).

(** * Names *)

Section Posture.
Context `{U : Unicode} `{UC : UnicodeCase}.

Definition IsUpper (r : Z) : bool :=
  if r <=? 255 then in_range 65 90 r || in_range 192 214 r || in_range 216 222 r else upper_case_tab r.
Definition IsLower (r : Z) : bool :=
  if r <=? 255 then in_range 97 122 r || (r =? 181) || in_range 223 246 r || in_range 248 255 r else lower_case_tab r.

Definition flush (cur : list Z) (tokens : list string) : list string :=
  match cur with [] => tokens | _ => ToLower (of_runes cur) :: tokens end.

(** A word starts at a capital after a small letter or a digit, and at the last capital
    of a run that a small letter follows. *)
Definition boundary (prev : option Z) (rest : list Z) : bool :=
  match prev with
  | None => false
  | Some p => IsLower p || IsDigit p || (IsUpper p && match rest with n :: _ => IsLower n | [] => false end)
  end.

Fixpoint split_words (prev : option Z) (l cur : list Z) : list string :=
  match l with
  | [] => flush cur []
  | r :: rest =>
      if negb (IsLetter r) && negb (IsDigit r) then flush cur (split_words (Some r) rest [])
      else if IsUpper r && boundary prev rest then flush cur (split_words (Some r) rest [r])
      else split_words (Some r) rest (cur ++ [r])
  end.

Definition splitIdentifier (s : string) : list string := split_words None (to_runes s) [].

Definition tokenizeMethod (connectorType : string) : list string :=
  splitIdentifier match LastIndexAny connectorType "./:" with Some i => slice connectorType (S i) (len connectorType) | None => connectorType end.

Definition classifyMCPCall (connectorType tool operation : string) : mcpAccessClass :=
  let tokens := tokenizeMethod connectorType ++ (if str_eqb tool "" then [] else tokenizeMethod tool) in
  if existsb (fun t => str_in t writeVerbs) tokens then mcpAccessWrite
  else if existsb (fun t => str_in t readVerbs) tokens then mcpAccessRead
  else if EqualFold_ascii (TrimSpace operation) "query" then mcpAccessRead
  else mcpAccessWrite.

Definition readOnlyPostureEnabled (getenv : string -> string) : bool := parseBoolEnv getenv EnvMCPReadOnly false.

(** * Statements *)

(** [strings.FieldsFunc] *)
Fixpoint fields_loop (sep : Z -> bool) (l : list (Z * list Z)) (cur : list Z) : list string :=
  let emit k := match cur with [] => k | _ => of_bytes cur :: k end in
  match l with
  | [] => emit []
  | (r, b) :: rest => if sep r then emit (fields_loop sep rest []) else fields_loop sep rest (cur ++ b)
  end.
Definition FieldsFunc (sep : Z -> bool) (s : string) : list string := fields_loop sep (runes s) [].
Definition Fields : string -> list string := FieldsFunc IsSpace.

Definition dollarQuoteRe : regex := MustCompile "\$[A-Za-z0-9_]*\$".

Definition blank (s : string) : bool := str_eqb (TrimSpace s) "".

(** The statement proper, its literals and comments blanked. *)
Definition masked_is_write (masked : string) : bool :=
  if negb (length (List.filter (fun seg => negb (blank seg)) (Split masked ";")) =? 1)%nat then true
  else
    let trimmed := TrimSpace masked in
    match Fields trimmed with
    | [] => true
    | first :: _ =>
        let firstUpper := ToUpper first in
        let upTokens := FieldsFunc (fun r => negb (IsLetter r) && negb (IsDigit r)) (ToUpper trimmed) in
        if str_eqb firstUpper "WITH" then existsb (fun t => str_in t sqlCTEWriteKeywords || str_eqb t "INTO") upTokens
        else if str_in firstUpper sqlReadKeywords then
          (str_eqb firstUpper "SELECT" && str_in "INTO" upTokens)
          || (str_eqb firstUpper "EXPLAIN" && existsb (fun t => str_in t ["ANALYZE"; "ANALYSE"]) upTokens)
        else
          let tokens := splitIdentifier first in
          existsb (fun t => str_in t writeVerbs) tokens || negb (existsb (fun t => str_in t readVerbs) tokens)
    end.

Definition statementIsWritePath (statement : string) : bool :=
  if MatchString dollarQuoteRe statement then true
  else let '(masked, unterminated) := maskSQLLiteralsAndComments statement in
       if unterminated then true else masked_is_write masked.
End Posture.

(** * The lexical grammar *)

(** A lexeme: one rune of the statement proper, a comment, or a literal whose
    delimiter is doubled inside it. *)
Inductive lexeme := Plain (c : Z) | LineComment (body : list Z) | BlockComment (body : list Z) | Quoted (q : Z) (body : list Z).

Definition escaped (q : Z) (body : list Z) : list Z := mjoin ((fun c => if c =? q then [q; q] else [c]) <$> body).

Definition lexeme_text (x : lexeme) : list Z :=
  match x with
  | Plain c => [c]
  | LineComment body => DASH :: DASH :: body
  | BlockComment body => SLASH :: STAR :: body ++ [STAR; SLASH]
  | Quoted q body => q :: escaped q body ++ [q]
  end.
Definition text (xs : list lexeme) : list Z := mjoin (lexeme_text <$> xs).

(** The statement proper, with as many spaces in place of the rest. *)
Definition blanks (l : list Z) : list Z := replicate (length l) SP.
Definition proper (xs : list lexeme) : list Z := mjoin ((fun x => match x with Plain c => [c] | _ => blanks (lexeme_text x) end) <$> xs).

(** The body of a block comment: runes that are no delimiter, and nested comments. *)
Inductive comment_body : list Z -> Prop :=
| body_nil : comment_body []
| body_rune c body :
    comment_body body -> ~ (c = STAR /\ heads SLASH (body ++ [STAR]) = true) -> ~ (c = SLASH /\ heads STAR (body ++ [STAR]) = true) ->
    comment_body (c :: body)
| body_nested inner body : comment_body inner -> comment_body body -> comment_body (SLASH :: STAR :: inner ++ STAR :: SLASH :: body).

Definition has (p l : list Z) : Prop := exists a b, l = a ++ p ++ b.

(** A comment is opened inside a comment: an opener follows another with no closer in
    between. *)
Definition nested (l : list Z) : Prop := exists a b c, l = a ++ [SLASH; STAR] ++ b ++ [SLASH; STAR] ++ c /\ ~ has [STAR; SLASH] b.

Definition BACKSLASH : Z := 92.

(** ** What the scanner looks for *)

(** To the scanner a block comment ends at the first closing delimiter. *)
Fixpoint closes_once (body : list Z) : bool :=
  match body with
  | [] => true
  | c :: rest => negb ((c =? STAR) && heads SLASH (rest ++ [STAR])) && closes_once rest
  end.

(** A lexeme followed by the text [rest]. *)
Definition lexeme_ok (x : lexeme) (rest : list Z) : bool :=
  match x with
  | Plain c => negb (c =? SQ) && negb (c =? DQ) && negb ((c =? DASH) && heads DASH rest) && negb ((c =? SLASH) && heads STAR rest)
  | LineComment body => forallb (fun c => negb (c =? NL)) body && match rest with [] => true | c :: _ => c =? NL end
  | BlockComment body => closes_once body
  | Quoted q body => ((q =? SQ) || (q =? DQ)) && negb (heads q rest)
  end.

Fixpoint lexed (xs : list lexeme) : bool :=
  match xs with [] => true | x :: xs => lexeme_ok x (text xs) && lexed xs end.

(** ** The grammar *)

(** A lexeme of SQL followed by the text [rest]: a comment may nest, a literal has no
    backslash, which some dialects take for an escape. *)
Definition lexeme_spec (x : lexeme) (rest : list Z) : Prop :=
  match x with
  | Plain c => c <> SQ /\ c <> DQ /\ ~ (c = DASH /\ heads DASH rest = true) /\ ~ (c = SLASH /\ heads STAR rest = true)
  | LineComment body => (NL ∉ body) /\ (rest = [] \/ heads NL rest = true)
  | BlockComment body => comment_body body
  | Quoted q body => (q = SQ \/ q = DQ) /\ heads q rest = false /\ BACKSLASH ∉ body
  end.

Fixpoint lexes (xs : list lexeme) : Prop :=
  match xs with [] => True | x :: xs => lexeme_spec x (text xs) /\ lexes xs end.

(** None of the comments has another inside. *)
Definition unnested (xs : list lexeme) : Prop := forall body, BlockComment body ∈ xs -> ~ has [SLASH; STAR] (body ++ [STAR]).

Lemma has_cons p c l : has p l -> has p (c :: l).
Proof. intros (a & b & ->). by exists (c :: a), b. Qed.

Lemma has_head c d l : heads d l = true -> has [c; d] (c :: l).
Proof. destruct l as [|e l]; [done|]. cbn. intros ->%Z.eqb_eq. by exists [], l. Qed.

Lemma body_closes body : comment_body body -> ~ has [SLASH; STAR] (body ++ [STAR]) -> closes_once body = true.
Proof.
  induction 1 as [|c body Hb IH H1 H2|inner body _ _ _ _]; intros Hn; [done| |].
  - cbn [closes_once]. rewrite IH by (intros H; apply Hn; by apply has_cons). rewrite andb_true_r. apply negb_true_iff, not_true_iff_false.
    intros [->%Z.eqb_eq Hh]%andb_true_iff. by apply H1.
  - destruct Hn. by exists [], ((inner ++ STAR :: SLASH :: body) ++ [STAR]).
Qed.

Lemma closes_body body : closes_once body = true -> ~ has [SLASH; STAR] (body ++ [STAR]) -> comment_body body.
Proof.
  induction body as [|c body IH]; intros Hc Hn; [constructor|]. cbn [closes_once] in Hc. apply andb_true_iff in Hc as [H1%negb_true_iff Hc].
  constructor.
  - apply IH; [done|]. intros H. apply Hn. by apply has_cons.
  - intros [-> Hh]. by rewrite Hh in H1.
  - intros [-> Hh]. apply Hn. cbn [app]. by apply has_head.
Qed.

Lemma spec_ok x rest : lexeme_spec x rest -> (forall body, x = BlockComment body -> ~ has [SLASH; STAR] (body ++ [STAR])) -> lexeme_ok x rest = true.
Proof.
  destruct x as [c|body|body|q body]; cbn [lexeme_spec lexeme_ok]; intros H Hn.
  - destruct H as (H1 & H2 & H3 & H4). rewrite (proj2 (Z.eqb_neq _ _) H1), (proj2 (Z.eqb_neq _ _) H2).
    cbn [negb andb]. apply andb_true_iff. split; apply negb_true_iff, not_true_iff_false; intros [->%Z.eqb_eq Hh]%andb_true_iff; [by apply H3|by apply H4].
  - destruct H as [Hb Hr]. apply andb_true_iff. split.
    + apply forallb_forall. intros c Hc. apply negb_true_iff, Z.eqb_neq. intros ->. apply Hb. by apply list_elem_of_In.
    + destruct Hr as [->|Hr]; [done|]. by destruct rest.
  - apply body_closes; [done|by apply Hn].
  - destruct H as (Hq & Hr & _). rewrite Hr. destruct Hq as [->| ->]; done.
Qed.

Lemma ok_spec x rest :
  lexeme_ok x rest = true -> (forall body, x = BlockComment body -> ~ has [SLASH; STAR] (body ++ [STAR])) ->
  (forall q body, x = Quoted q body -> BACKSLASH ∉ body) -> lexeme_spec x rest.
Proof.
  destruct x as [c|body|body|q body]; cbn [lexeme_spec lexeme_ok]; intros H Hn Hq.
  - rewrite !andb_true_iff, !negb_true_iff, !andb_false_iff in H. destruct H as (((H1%Z.eqb_neq & H2%Z.eqb_neq) & H3) & H4).
    split; [done|]. split; [done|]. split; intros [-> Hh]; rewrite Hh, Z.eqb_refl in *; naive_solver.
  - apply andb_true_iff in H as [Hb Hr]. split.
    + intros Hin. rewrite forallb_forall in Hb. apply list_elem_of_In, Hb in Hin. done.
    + destruct rest as [|c rest]; [by left|]. by right.
  - apply closes_body; [done|by apply Hn].
  - apply andb_true_iff in H as [H1 H2%negb_true_iff]. rewrite orb_true_iff, !Z.eqb_eq in H1. split_and!; [done|done|by eapply Hq].
Qed.

Lemma lexes_lexed xs : lexes xs -> unnested xs -> lexed xs = true.
Proof.
  induction xs as [|x xs IH]; [done|]. cbn [lexes lexed]. intros [Hx Hxs] Hn. apply andb_true_iff. split.
  - apply spec_ok; [done|]. intros body ->. apply Hn. left.
  - apply IH; [done|]. intros body Hb. apply Hn. by right.
Qed.

Lemma closes_free b c : closes_once (b ++ c) = true -> ~ has [STAR; SLASH] b.
Proof.
  revert c. induction b as [|x b IH]; intros c H (u & v & E); [by destruct u|]. cbn [app closes_once] in H. apply andb_true_iff in H as [H1 H].
  destruct u as [|y u]; cbn in E; injection E as -> ->.
  - by cbn in H1.
  - by apply (IH c H); exists u, v.
Qed.

(** A comment the scanner closes with another opened inside is nested. *)
Lemma opener_nests pre body post :
  closes_once body = true -> has [SLASH; STAR] (body ++ [STAR]) -> nested (pre ++ (SLASH :: STAR :: body ++ [STAR; SLASH]) ++ post).
Proof.
  intros Hc (u & v & E). destruct (decide (v = [])) as [->|Hv].
  - assert (Eb : body = u ++ [SLASH]).
    { apply (app_inj_tail body (u ++ [SLASH]) STAR STAR). rewrite E. by rewrite <- app_assoc. }
    subst body. exists pre, u, (SLASH :: post). split; [|by eapply closes_free].
    cbn [app]. by repeat (rewrite <- app_assoc; cbn [app]).
  - destruct (exists_last Hv) as (v' & x & ->). assert (Eb : body = u ++ SLASH :: STAR :: v' /\ x = STAR).
    { assert (E' : body ++ [STAR] = (u ++ SLASH :: STAR :: v') ++ [x]) by (rewrite E; by rewrite <- !app_assoc).
      apply app_inj_tail in E' as [-> ->]. done. }
    destruct Eb as [-> ->]. exists pre, u, (v' ++ STAR :: SLASH :: post). split; [|by eapply closes_free].
    cbn [app]. by repeat (rewrite <- app_assoc; cbn [app]).
Qed.

(** A text without nesting has no nested comment among its lexemes. *)
Lemma body_opener body : comment_body body -> has [SLASH; STAR] (body ++ [STAR]) ->
  exists b c, body ++ [STAR; SLASH] = b ++ SLASH :: STAR :: c /\ ~ has [STAR; SLASH] b.
Proof.
  induction 1 as [|c body Hb IH H1 H2|inner body _ _ _ _]; intros Hh.
  - destruct Hh as ([|? [|? ?]] & v & E); discriminate E.
  - assert (Hh' : has [SLASH; STAR] (body ++ [STAR])).
    { destruct Hh as ([|y u] & v & E); cbn in E; injection E as -> E.
      - destruct H2. split; [done|]. by rewrite E.
      - by exists u, v. }
    destruct (IH Hh') as (b & d & E & Hn). exists (c :: b), d. cbn [app]. rewrite E. split; [done|].
    intros ([|y u] & v & E'); cbn in E'; injection E' as -> E'; [|by apply Hn; exists u, v]. subst b. cbn in E.
    apply H1. split; [done|]. destruct body as [|x body]; cbn in E; [discriminate E|]. injection E as -> _. done.
  - exists [], (inner ++ STAR :: SLASH :: body ++ [STAR; SLASH]). cbn [app]. rewrite <- app_assoc. split; [done|]. intros ([|? ?] & v & E); discriminate E.
Qed.

Lemma nested_free pre xs : lexes xs -> ~ nested (pre ++ text xs) -> unnested xs.
Proof.
  revert pre. induction xs as [|x xs IH]; intros pre Hl Hn body Hb; [by apply not_elem_of_nil in Hb|]. cbn [lexes] in Hl. destruct Hl as [Hx Hl].
  change (text (x :: xs)) with (lexeme_text x ++ text xs) in Hn. apply elem_of_cons in Hb as [<-|Hb].
  - intros Hh. cbn [lexeme_spec] in Hx. destruct (body_opener body Hx Hh) as (b & c & E & Hf). apply Hn. exists pre, b, (c ++ text xs). split; [|done].
    cbn [lexeme_text app]. rewrite E. cbn [app]. by rewrite <- app_assoc.
  - apply (IH (pre ++ lexeme_text x)); [done| |done]. by rewrite <- app_assoc.
Qed.

Lemma escaped_elem q c body : c ∈ body -> c ∈ escaped q body.
Proof.
  intros Hc. unfold escaped. apply list_elem_of_join. exists (if c =? q then [q; q] else [c]). split.
  - destruct (Z.eqb_spec c q) as [->|]; left.
  - apply list_elem_of_fmap. by exists c.
Qed.

Lemma lexed_lexes pre xs : lexed xs = true -> ~ nested (pre ++ text xs) -> BACKSLASH ∉ text xs -> lexes xs /\ unnested xs.
Proof.
  revert pre. induction xs as [|x xs IH]; intros pre Hl Hn Hb; [split; [done|by intros body ?%not_elem_of_nil]|].
  cbn [lexed] in Hl. apply andb_true_iff in Hl as [Hx Hl]. change (text (x :: xs)) with (lexeme_text x ++ text xs) in Hn, Hb.
  assert (Hblk : forall body, x = BlockComment body -> ~ has [SLASH; STAR] (body ++ [STAR])).
  { intros body -> Hh. apply Hn. by apply (opener_nests pre body (text xs)). }
  destruct (IH (pre ++ lexeme_text x) Hl) as [Hls Hu].
  { by rewrite <- app_assoc. }
  { intros H. apply Hb. apply elem_of_app. by right. }
  split; [split; [|done]|].
  - apply ok_spec; [done|done|]. intros q body -> Hin. apply Hb. apply elem_of_app. left. cbn. right. apply elem_of_app. left. by apply escaped_elem.
  - intros body [Hbd|Hbd]%elem_of_cons; [by apply Hblk|by apply Hu].
Qed.

(** ** From lexemes to the scanner *)

Lemma mask_line body rest :
  forallb (fun c => negb (c =? NL)) body = true -> match rest with [] => true | c :: _ => c =? NL end = true ->
  mask InLine (body ++ rest) = (blanks body ++ (mask Top rest).1, (mask Top rest).2).
Proof.
  intros Hb Hr. induction body as [|c body IH]; cbn [app].
  - destruct rest as [|c rest]; [done|]. cbn [mask]. apply Z.eqb_eq in Hr. subst c. change (NL =? NL) with true. cbv iota.
    change (_ =? _) with false. cbn. by destruct (mask Top rest).
  - cbn [forallb] in Hb. apply andb_true_iff in Hb as [Hc Hb]. apply negb_true_iff in Hc. cbn [mask]. rewrite Hc, IH by done. done.
Qed.

Lemma heads_app c l r : l <> [] -> heads c (l ++ r) = heads c l.
Proof. by destruct l. Qed.

Lemma mask_block body rest :
  closes_once body = true -> mask InBlock (body ++ STAR :: SLASH :: rest) = (blanks (body ++ [STAR; SLASH]) ++ (mask Top rest).1, (mask Top rest).2).
Proof.
  intros Hb. induction body as [|c body IH]; cbn [app].
  - cbn [mask heads]. change ((STAR =? STAR) && (SLASH =? SLASH)) with true. cbn. by destruct (mask Top rest).
  - cbn [closes_once] in Hb. apply andb_true_iff in Hb as [Hc Hb]. apply negb_true_iff in Hc.
    assert (Hh : heads SLASH (body ++ STAR :: SLASH :: rest) = heads SLASH (body ++ [STAR])) by (by destruct body).
    cbn [mask]. rewrite Hh, Hc, IH by done. done.
Qed.

Lemma escaped_cons q c body : escaped q (c :: body) = (if c =? q then [q; q] else [c]) ++ escaped q body.
Proof. done. Qed.

Lemma mask_quote q body rest :
  heads q rest = false -> mask (InQuote q) (escaped q body ++ q :: rest) = (blanks (escaped q body ++ [q]) ++ (mask Top rest).1, (mask Top rest).2).
Proof.
  intros Hr. induction body as [|c body IH].
  - change (escaped q []) with (@nil Z). cbn [app mask]. rewrite Z.eqb_refl. destruct rest as [|d rest]; [done|]. cbn [heads] in Hr. rewrite Hr.
    by destruct (mask Top (d :: rest)).
  - rewrite escaped_cons. destruct (Z.eqb_spec c q) as [->|Hc]; cbn [app mask].
    + rewrite !Z.eqb_refl. cbv iota. by rewrite IH.
    + rewrite (proj2 (Z.eqb_neq _ _) Hc). by rewrite IH.
Qed.

Lemma mask_lexeme x rest :
  lexeme_ok x rest = true -> mask Top (lexeme_text x ++ rest) = (proper [x] ++ (mask Top rest).1, (mask Top rest).2).
Proof.
  unfold proper. cbn [fmap list_fmap mjoin list_join]. rewrite app_nil_r. destruct x as [c|body|body|q body]; cbn [lexeme_ok lexeme_text]; intros H.
  - apply andb_true_iff in H as [H H4]. apply andb_true_iff in H as [H H3]. apply andb_true_iff in H as [H1 H2].
    apply negb_true_iff in H1, H2, H3, H4. cbn [app mask]. rewrite H3, H4, H1, H2. cbn [orb]. by destruct (mask Top rest).
  - apply andb_true_iff in H as [Hb Hr]. change ((DASH :: DASH :: body) ++ rest) with (DASH :: DASH :: body ++ rest).
    cbn [mask heads]. change ((DASH =? DASH) && (DASH =? DASH)) with true. cbv iota. change (DASH =? NL) with false. cbv iota.
    by rewrite mask_line.
  - cbn [app]. rewrite <- app_assoc. cbn [app mask heads]. change ((SLASH =? DASH) && (STAR =? DASH)) with false.
    change ((SLASH =? SLASH) && (STAR =? STAR)) with true. cbv iota. by rewrite mask_block.
  - apply andb_true_iff in H as [Hq Hr]. apply negb_true_iff in Hr. cbn [app]. rewrite <- app_assoc. cbn [app].
    assert (Hd : (q =? DASH) = false /\ (q =? SLASH) = false).
    { apply orb_true_iff in Hq as [Hq|Hq]; apply Z.eqb_eq in Hq; by subst. }
    destruct Hd as [Hd Hs]. cbn [mask]. rewrite Hd, Hs, Hq. cbn [andb]. by rewrite mask_quote.
Qed.

Lemma mask_text xs : lexed xs = true -> mask Top (text xs) = (proper xs, false).
Proof.
  induction xs as [|x xs IH]; [done|]. cbn [lexed]. intros H. apply andb_true_iff in H as [Hx Hxs].
  change (text (x :: xs)) with (lexeme_text x ++ text xs). rewrite mask_lexeme, (IH Hxs) by done.
  unfold proper. cbn [fst snd fmap list_fmap mjoin list_join]. by rewrite app_nil_r.
Qed.

(** ** From the scanner to lexemes *)

Lemma line_split l :
  exists body rest, l = body ++ rest /\ forallb (fun c => negb (c =? NL)) body = true /\ match rest with [] => true | c :: _ => c =? NL end = true.
Proof.
  induction l as [|c l (body & rest & -> & Hb & Hr)]; [by exists [], []|]. destruct (c =? NL) eqn:Hc.
  - exists [], (c :: body ++ rest). by rewrite Hc.
  - exists (c :: body), rest. cbn. by rewrite Hc.
Qed.

Lemma block_split l : (mask InBlock l).2 = false -> exists body rest, l = body ++ STAR :: SLASH :: rest /\ closes_once body = true.
Proof.
  induction l as [|c l IH]; [done|]. cbn [mask]. destruct ((c =? STAR) && heads SLASH l) eqn:Hc.
  - apply andb_true_iff in Hc as [Hc Hs]. destruct l as [|d l]; [done|]. cbn in Hs. apply Z.eqb_eq in Hc, Hs. subst. intros _. by exists [], l.
  - destruct (mask InBlock l) as [out u]. cbn [snd]. intros Hu. destruct (IH Hu) as (body & rest & -> & Hb). exists (c :: body), rest.
    split; [done|]. cbn [closes_once]. assert (Hh : heads SLASH (body ++ [STAR]) = heads SLASH (body ++ STAR :: SLASH :: rest)) by (by destruct body).
    by rewrite Hh, Hc, Hb.
Qed.

Lemma quote_split q n l :
  (length l <= n)%nat -> (mask (InQuote q) l).2 = false -> exists body rest, l = escaped q body ++ q :: rest /\ heads q rest = false.
Proof.
  revert l. induction n as [|n IH]; intros [|c l] Hn; cbn [length] in Hn; try done; [lia|]. cbn [mask]. destruct (Z.eqb_spec c q) as [->|Hc].
  - destruct l as [|d l]; [by exists [], []|]. destruct (Z.eqb_spec d q) as [->|Hd].
    + destruct (mask (InQuote q) l) as [out u] eqn:E. cbn [snd]. intros Hu. cbn [length] in Hn.
      destruct (IH l ltac:(lia)) as (body & rest & -> & Hr); [by rewrite E|]. exists (q :: body), rest. rewrite escaped_cons, Z.eqb_refl. done.
    + intros _. exists [], (d :: l). split; [done|]. cbn. by apply Z.eqb_neq.
  - destruct (mask (InQuote q) l) as [out u] eqn:E. cbn [snd]. intros Hu.
    destruct (IH l ltac:(lia)) as (body & rest & -> & Hr); [by rewrite E|]. exists (c :: body), rest.
    by rewrite escaped_cons, (proj2 (Z.eqb_neq _ _) Hc).
Qed.

(** A text the scanner gets through starts with a lexeme. *)
Lemma lexeme_split l :
  l <> [] -> (mask Top l).2 = false -> exists x rest, l = lexeme_text x ++ rest /\ lexeme_ok x rest = true.
Proof.
  destruct l as [|c l]; [done|]. intros _. cbn [mask]. destruct ((c =? DASH) && heads DASH l) eqn:H1.
  { apply andb_true_iff in H1 as [Hc Hd]. destruct l as [|d l]; [done|]. cbn in Hd. apply Z.eqb_eq in Hc, Hd. subst. intros _.
    destruct (line_split l) as (body & rest & -> & Hb & Hr). exists (LineComment body), rest. split; [done|]. cbn [lexeme_ok]. by rewrite Hb, Hr. }
  destruct ((c =? SLASH) && heads STAR l) eqn:H2.
  { apply andb_true_iff in H2 as [Hc Hd]. destruct l as [|d l]; [done|]. cbn in Hd. apply Z.eqb_eq in Hc, Hd. subst.
    destruct (mask InBlock l) as [out u] eqn:E. cbn [snd]. intros Hu. destruct (block_split l) as (body & rest & -> & Hb); [by rewrite E|].
    exists (BlockComment body), rest. cbn [lexeme_text lexeme_ok app]. by rewrite <- app_assoc. }
  destruct ((c =? SQ) || (c =? DQ)) eqn:H3.
  { destruct (mask (InQuote c) l) as [out u] eqn:E. cbn [snd]. intros Hu.
    destruct (quote_split c (length l) l (le_n _)) as (body & rest & -> & Hr); [by rewrite E|].
    exists (Quoted c body), rest. cbn [lexeme_text lexeme_ok app]. rewrite <- app_assoc, H3, Hr. done. }
  intros _. exists (Plain c), l. cbn [lexeme_text lexeme_ok app]. apply orb_false_iff in H3 as [H3 H4]. by rewrite H3, H4, H1, H2.
Qed.

Lemma scanned_lexed n l : (length l <= n)%nat -> (mask Top l).2 = false -> exists xs, lexed xs = true /\ text xs = l.
Proof.
  revert l. induction n as [|n IH]; intros l Hn Hm.
  { destruct l; [by exists []|cbn in Hn; lia]. }
  destruct l as [|c l]; [by exists []|]. destruct (lexeme_split (c :: l)) as (x & rest & E & Hx); [done|done|].
  rewrite E, mask_lexeme in Hm by done. cbn [snd] in Hm.
  assert (Hl : (0 < length (lexeme_text x))%nat) by (destruct x; cbn; lia).
  assert (Hr : (length rest <= n)%nat) by (apply (f_equal length) in E; rewrite length_app in E; lia).
  destruct (IH rest Hr Hm) as (xs & Hxs & <-). exists (x :: xs). cbn [lexed]. by rewrite Hx, Hxs, E.
Qed.

(** C32: The scanner of the read-only posture is exact for the lexical grammar of SQL, on
    texts without a backslash and without a comment nested in another. When such a text is
    a sequence of lexemes (runes of the statement proper, line and block comments,
    literals with doubled delimiters, each as long as it can be), the scanner reports it
    as terminated and leaves the statement proper with every rune of a comment or literal
    blanked: nothing inside one is seen, and nothing outside one is lost. And it reports a
    text as terminated only if it is such a sequence. *)
Theorem scanner_exact (s : string) :
  BACKSLASH ∉ to_runes s -> ~ nested (to_runes s) ->
  forall masked, maskSQLLiteralsAndComments s = (masked, false) <->
    exists xs, lexes xs /\ text xs = to_runes s /\ of_runes (proper xs) = masked.
Proof.
  intros Hb Hn masked. unfold maskSQLLiteralsAndComments. split.
  - destruct (mask Top (to_runes s)) as [out u] eqn:E. intros [= <- ->].
    destruct (scanned_lexed (length (to_runes s)) (to_runes s) (le_n _)) as (xs & Hxs & Ht); [by rewrite E|].
    rewrite <- Ht in Hb, Hn. destruct (lexed_lexes [] xs Hxs Hn Hb) as [Hl _].
    exists xs. split_and!; [done|done|]. rewrite <- Ht, (mask_text xs Hxs) in E. by injection E as <-.
  - intros (xs & Hxs & E & <-). rewrite <- E in Hn |- *. by rewrite (mask_text xs (lexes_lexed xs Hxs (nested_free [] xs Hxs Hn))).
Qed.

(** * What is blocked *)

Section Blocked.
Context `{U : Unicode} `{UC : UnicodeCase}.







(** A call whose method name has a writing verb is a write whatever operation it
    declares, and naming a tool never turns a write into a read. *)
Lemma write_verb_wins connectorType tool operation t :
  t ∈ tokenizeMethod connectorType ++ tokenizeMethod tool -> t ∈ writeVerbs -> classifyMCPCall connectorType tool operation = mcpAccessWrite.
Proof.
  intros Ht Hw. unfold classifyMCPCall.
  assert (Hin : t ∈ tokenizeMethod connectorType ++ (if str_eqb tool "" then [] else tokenizeMethod tool)).
  { apply elem_of_app in Ht as [Ht|Ht]; apply elem_of_app; [by left|]. destruct (str_eqb tool "") eqn:E; [|by right].
    apply str_eqb_true in E. subst. by apply not_elem_of_nil in Ht. }
  assert (H : existsb (fun t => str_in t writeVerbs) (tokenizeMethod connectorType ++ (if str_eqb tool "" then [] else tokenizeMethod tool)) = true).
  { apply existsb_In. exists t. split; [done|]. by apply str_in_true. }
  by rewrite H.
Qed.
End Blocked.

(** * Examples *)

#[local] Existing Instance ascii_unicode.
#[local] Existing Instance no_case.

Example posture_examples :
  map statementIsWritePath
    ["SELECT 1"; "SELECT ';' -- DROP"; "search_flights x"; "WITH x AS (SELECT 1) SELECT 'DELETE'"]
  = [false; false; false; false] /\
  map statementIsWritePath
    ["SELECT 1; DELETE FROM t"; "WITH x AS (DELETE FROM t) SELECT 1"; "SELECT a INTO b FROM c"; "EXPLAIN ANALYZE DELETE FROM t"; "SELECT $$a$$"; "SELECT 'a"; ""]
  = [true; true; true; true; true; true; true].
Proof. vm_compute. by split. Qed.

(** Two dialects of the connectors go beyond those texts. PostgreSQL nests block
    comments: to it the first text is a comment, then a DELETE. In its E literals, and
    in every literal of MySQL, a backslash escapes the quote: the second text is a
    literal, then a DELETE. The scanner takes the DELETE for the inside of a literal. *)
Example dialects_hide_writes :
  statementIsWritePath "SELECT 1 /* /* */ ' */ ; DELETE FROM t --'" = false /\
  statementIsWritePath "SELECT E'\'' ; DELETE FROM t --'" = false.
Proof. vm_compute. by split. Qed.

(** The keyword is the first field, up to a space: with a parenthesis or a star behind it
    neither ANALYZE nor INTO is looked for. *)
Example glued_keywords_pass :
  statementIsWritePath "EXPLAIN(ANALYZE) DELETE FROM t" = false /\ statementIsWritePath "SELECT* INTO b FROM c" = false.
Proof. vm_compute. by split. Qed.

(** A command is split into words like a name of a tool: in mixed case TRUNCATE has the
    reading verb cat, and nothing that writes. *)
Example mixed_case_truncate_passes :
  statementIsWritePath "TRUNCATE t" = true /\ statementIsWritePath "trunCatE t" = false.
Proof. vm_compute. by split. Qed.

(** A text with no slash has no comment in another. *)
Lemma slash_free l : SLASH ∉ l -> ~ nested l.
Proof. intros H (a & b & c & -> & _). apply H. apply elem_of_app. right. left. Qed.

Definition demo_write : string := "WITH x AS (DELETE FROM t) SELECT ';' -- a".

Lemma demo_lexes :
  let xs := (Plain <$> to_runes "WITH x AS (DELETE FROM t) SELECT ") ++ [Quoted SQ [59]; Plain SP; LineComment [SP; 97]] in
  lexes xs /\ text xs = to_runes demo_write.
Proof.
  cbv zeta. split; [|vm_compute; reflexivity]. change (to_runes "WITH x AS (DELETE FROM t) SELECT ") with (bytes "WITH x AS (DELETE FROM t) SELECT ").
  vm_compute.
  repeat split; try discriminate; try (intros [? ?]; discriminate); try (by left); try (intros Hin; repeat (apply elem_of_cons in Hin as [?|Hin]; [discriminate|]); by apply not_elem_of_nil in Hin).
Qed.

Lemma scanner_exact_witness : maskSQLLiteralsAndComments demo_write = ("WITH x AS (DELETE FROM t) SELECT         ", false).
Proof.
  apply (scanner_exact demo_write).
  - by apply (bool_decide_unpack _); vm_compute.
  - apply slash_free. by apply (bool_decide_unpack _); vm_compute.
  - eexists. split; [apply demo_lexes|]. split; [apply demo_lexes|]. vm_compute. reflexivity.
Defined.

