(* ===== verification/Decide.v ===== *)
(** The decision point, src/platform/agent/decision_handler.go with
    policy_result_convert.go, evaluateInputPolicies of mcp_handler.go and
    recordSignedDecision of decision_chain_wiring.go: the handler of
    POST /api/v1/decide over the unified policy engine and the detection postures.

    What the environment answers during one request is a [World]: fresh ids, times,
    the database at each of the two loads of the engine, the overrides read on a
    cache miss, the circuit breaker and the kill switch of the enterprise build, the
    detectors of Indian and Indonesian identifiers (in the community build those of
    RegionalPii.v, [checkRBIPII] and [checkIndonesiaPII]), whether the audit row and the
    signed entry are written. Spans and the events of the Indonesian detector are left
    out. *)

From stdpp Require Import gmap.
From S2P Require Import Prelude GoStrings GoStrconv GoTime GoFmt GoHttp RegionalPii GoSha256 GoJSON PolicyTypes Evaluator PolicyCache Loader Metrics Engine DecisionChain Egress Identity AgentAuth Detection.

Local Open Scope Z_scope.

(** * Results of the static policies *)

Record StaticPolicyResult := mkStatic {
  sr_Blocked : bool; sr_Reason : string; sr_TriggeredPolicies : list string; sr_Severity : string;
  sr_RequiresRedaction : bool; sr_RequiresApproval : bool; sr_EvaluationError : bool; sr_AdvisoryReasons : list string }.

Definition advisoryPIIReason (m : PolicyMatch) : string :=
  m_Category m +:+ " detected by policy " +:+ m_PolicyID m +:+ " (action=" +:+ m_Action m +:+ "); no redaction applied".

(** A match that asks for a redaction, and one that only advises. *)
Definition redacts (m : PolicyMatch) : bool := IsPIIPolicyCategory (m_Category m) && str_eqb (m_Action m) ActionRedact.
Definition advises (m : PolicyMatch) : bool := IsPIIPolicyCategory (m_Category m) && negb (str_eqb (m_Action m) ActionRedact).

(** The last match of the blocking policy gives the severity. *)
Definition block_severity (r : RequestResult) : string :=
  match rq_BlockedBy r with
  | Some p => if rq_Blocked r && existsb (fun m => str_eqb (m_PolicyID m) (PolicyID p)) (rq_MatchedPolicies r) then Severity p else ""
  | None => ""
  end.

Definition convertSharedResultToStatic (result : option RequestResult) : StaticPolicyResult :=
  match result with
  | None => mkStatic false "" [] "" false false false []
  | Some r =>
      let matches := rq_MatchedPolicies r in
      mkStatic (rq_Blocked r) (rq_BlockReason r) (m_PolicyID <$> matches) (block_severity r)
        (negb (rq_Blocked r) && existsb redacts matches)
        (existsb (fun m => str_eqb (m_Action m) ActionRequireApproval) matches)
        (rq_EvaluationError r)
        (if rq_Blocked r then [] else advisoryPIIReason <$> List.filter advises matches)
  end.

(** * The contract *)

Definition VerdictAllow : string := "allow".
Definition VerdictDeny : string := "deny".
Definition VerdictNeedsApproval : string := "needs_approval".
Definition AuditVerdictAllowed : string := "allowed".
Definition AuditVerdictBlocked : string := "blocked".
Definition AuditVerdictRedacted : string := "redacted".
Definition AuditVerdictError : string := "error".
Definition PlaneDecision : string := "decision".
Definition PlaneOpenAICompat : string := "openai_compat".

Definition canonicalAuditVerdict (v : string) : string :=
  if str_eqb v VerdictAllow then AuditVerdictAllowed
  else if str_eqb v VerdictDeny then AuditVerdictBlocked
  else if str_eqb v VerdictNeedsApproval then VerdictNeedsApproval
  else if str_in v [AuditVerdictAllowed; AuditVerdictBlocked; AuditVerdictRedacted; AuditVerdictError] then v
  else AuditVerdictError.

Definition isValidStage (s : string) : bool := str_in s ["llm"; "tool"; "agent"].

Record ObligationFulfillment := mkFulfillment { of_Endpoint : string; of_Method : string; of_Phase : string; of_ContentTypes : list string }.
Record DecisionObligation := mkObligation { ob_Type : string; ob_Detail : string; ob_Fulfillment : option ObligationFulfillment }.

Definition ObligationRedactPII : string := "redact_pii".
Definition ObligationPhaseRequest : string := "request".
Definition requestRedactionEndpoint : string := "/api/v1/mcp/check-input".
Definition contentTypeText : string := "text/plain".
Definition CapabilityRequestBodyRedaction : string := "request_body_redaction".

(** The registered detectors: the text one. *)
Definition requestRedactionContentTypes : list string := [contentTypeText].

Definition newRedactPIIObligation (detail : string) : DecisionObligation :=
  mkObligation ObligationRedactPII detail
    (Some (mkFulfillment requestRedactionEndpoint "POST" ObligationPhaseRequest requestRedactionContentTypes)).

Record DecisionCallerIdentity := mkCaller { ci_GatewayID : string; ci_OrgID : string; ci_TenantID : string }.
Record DecisionTarget := mkTarget { tg_Type : string; tg_Model : string; tg_Provider : string; tg_Server : string; tg_Tool : string }.
Record DecideRequest := mkDecide {
  dq_Stage : string; dq_CallerIdentity : DecisionCallerIdentity; dq_Target : DecisionTarget; dq_Query : string; dq_UserToken : string;
  dq_Context : gmap string value; dq_FulfillmentCapabilities : list string }.
Record DecideResponse := mkDecideResponse {
  dr_Verdict : string; dr_DecisionID : string; dr_TraceID : string; dr_Reasons : list string; dr_Obligations : list DecisionObligation;
  dr_EvaluatedPolicies : list string; dr_Stage : string; dr_ExpiresAt : Z }.

(** * Verdicts *)

Definition mapPolicyResultToVerdict (r : StaticPolicyResult) (communityMode : bool) : string * list string * list DecisionObligation :=
  if sr_Blocked r then (VerdictDeny, if str_eqb (sr_Reason r) "" then [] else [sr_Reason r], [])
  else if sr_RequiresApproval r && negb communityMode then (VerdictNeedsApproval, ["require_approval"], [])
  else (VerdictAllow, sr_AdvisoryReasons r, if sr_RequiresRedaction r then [newRedactPIIObligation (sr_Reason r)] else []).

Definition maxFulfillmentCapabilities : nat := 16.
Definition maxFulfillmentCapabilityLen : nat := 64.

Definition requiresRequestBodyRedaction (o : DecisionObligation) : bool :=
  str_eqb (ob_Type o) ObligationRedactPII
  && match ob_Fulfillment o with Some f => str_eqb (of_Phase f) ObligationPhaseRequest | None => false end.

Record obligationFallback := mkFallback { fb_action : string; fb_suppressed : list DecisionObligation }.

Definition obligationFallbackLogReason : string :=
  "request-body redaction suppressed: the caller's seam cannot fulfill it; detected content recorded for audit per the organization's obligation-fallback posture (log)".
Definition obligationFallbackDenyReason : string :=
  "request requires body redaction that the caller's seam cannot fulfill; denied per the organization's obligation-fallback posture (block)".

(** The blocking policy first. *)
Definition hoistBlockingPolicy (policies : list string) (blockingID : string) : list string :=
  match policies with
  | [] => [blockingID]
  | p0 :: _ =>
      if str_eqb p0 blockingID then policies
      else match list_find (fun p => str_eqb p blockingID = true) policies with
           | Some (i, _) => <[0%nat := blockingID]> (<[i := p0]> policies)
           | None => blockingID :: policies
           end
  end.

Section Decide.
Context `{U : Unicode} `{PT : UnicodePrint} `{F : GoFormat}.

Definition canonicalizeFulfillmentCapabilities (raw : list string) : gset string * bool :=
  let l := List.filter (fun c => negb (str_eqb c "")) ((fun c => ToLower (TrimSpace c)) <$> take maxFulfillmentCapabilities raw) in
  (list_to_set (List.filter (fun c => (len c <=? maxFulfillmentCapabilityLen)%nat) l), match l with [] => false | _ => true end).

(** [fallback] is the posture of the organization, asked only when something is
    withheld: the result says so. *)
Definition applySeamCapabilityObligations (rawCapabilities : list string) (verdict : string) (reasons : list string)
    (obligations : list DecisionObligation) (fallback : string)
  : string * list string * list DecisionObligation * option obligationFallback :=
  let untouched := (verdict, reasons, obligations, None) in
  if negb (str_eqb verdict VerdictAllow) || match obligations with [] => true | _ => false end then untouched
  else
    let '(capabilities, advertised) := canonicalizeFulfillmentCapabilities rawCapabilities in
    if negb advertised then untouched
    else
      let withheld o := requiresRequestBodyRedaction o && negb (bool_decide (CapabilityRequestBodyRedaction ∈ capabilities)) in
      let suppressed := List.filter withheld obligations in
      match suppressed with
      | [] => untouched
      | _ =>
          if str_eqb fallback DetectionActionBlock
          then (VerdictDeny, reasons ++ [obligationFallbackDenyReason], [], Some (mkFallback fallback suppressed))
          else (VerdictAllow, reasons ++ [obligationFallbackLogReason], List.filter (fun o => negb (withheld o)) obligations,
                Some (mkFallback fallback suppressed))
      end.

(** * The request context *)

Definition maxContextKeyLen : nat := 32.
Definition maxContextValueLen : nat := 256.
Definition maxContextKeys : nat := 10.
Definition defaultDecisionContextAllowlist : list string := ["x-ai-agent"; "x-session-id"; "x-leader-identity"].

Definition decisionContextAllowlist (getenv : string -> string) : list string :=
  let raw := TrimSpace (getenv "AXONFLOW_DECISION_CONTEXT_ALLOWLIST") in
  if str_eqb raw "" then defaultDecisionContextAllowlist
  else match List.filter (fun p => negb (str_eqb p "")) (TrimSpace <$> Split raw ",") with
       | [] => defaultDecisionContextAllowlist
       | l => l
       end.

Definition normalizeContextKeyForMatch (s : string) : string :=
  of_bytes ((fun b => if b =? 95 then 45 else b) <$> bytes (ToLower (TrimSpace s))).

Definition matches_entry (nk entry : string) : bool :=
  let ne := normalizeContextKeyForMatch entry in
  negb (str_eqb ne "") && (if HasSuffix ne "*" then HasPrefix nk (TrimSuffix ne "*") else str_eqb nk ne).

Definition matchContextAllowlist (key : string) (allowlist : list string) : bool :=
  let nk := normalizeContextKeyForMatch key in negb (str_eqb nk "") && existsb (matches_entry nk) allowlist.

Definition is_key_byte (r : Z) : bool := in_range 97 122 r || in_range 48 57 r.

(** The loop of the key: [last] suppresses an underscore after one. *)
Fixpoint key_loop (rs : list (Z * list Z)) (acc : list Z) (last : bool) : list Z :=
  match rs with
  | [] => acc
  | (r, _) :: rest =>
      let '(acc, last) := if is_key_byte r then (acc ++ [r], false) else if last then (acc, last) else (acc ++ [95], true) in
      if (maxContextKeyLen <=? length acc)%nat then acc else key_loop rest acc last
  end.

Fixpoint drop_underscores (l : list Z) : list Z :=
  match l with b :: l' => if b =? 95 then drop_underscores l' else l | [] => [] end.
Definition trim_underscores (l : list Z) : list Z := rev (drop_underscores (rev l)).

Definition canonicalContextKey (k : string) : string :=
  of_bytes (trim_underscores (take maxContextKeyLen (trim_underscores (key_loop (runes (ToLower (TrimSpace k))) [] true)))).

Definition sanitizeContextValue (s : string) : string := of_bytes (bounded_runes maxContextValueLen (runes s) []).

Definition sorted_keys {A} (m : gmap string A) : list string := SliceStable str_before (fst <$> map_to_list m).

(** One key of the context: kept unless it is not a string, not allowed or taken. *)
Definition keep_key (raw : gmap string value) (allowlist : list string) (kept : gmap string string) (k : string) : gmap string string :=
  match raw !! k with
  | Some (VString s) =>
      let ck := canonicalContextKey k in
      if negb (matchContextAllowlist k allowlist) || str_eqb ck "" then kept
      else match kept !! ck with Some _ => kept | None => <[ck := sanitizeContextValue s]> kept end
  | _ => kept
  end.

Definition canonicalizeRequestContext (raw : gmap string value) (allowlist : list string) : gmap string string * bool :=
  let kept := fold_left (keep_key raw allowlist) (sorted_keys raw) ∅ in
  if (size kept <=? maxContextKeys)%nat then (kept, false)
  else let first := take maxContextKeys (sorted_keys kept) in (filter (fun e => e.1 ∈ first) kept, true).

Definition decisionExpiresAfter (getenv : string -> string) : Z :=
  let raw := TrimSpace (getenv "AXONFLOW_DECISION_EXPIRES_AFTER") in
  match ParseDuration raw with
  | Some d => if str_eqb raw "" || (d <=? 0) then 5 * Minute else d
  | None => 5 * Minute
  end.

Definition is_hex (b : Z) : bool := in_range 48 57 b || in_range 97 102 b || in_range 65 70 b.

Definition before_comma (h : string) : string :=
  match Split h "," with p :: _ :: _ => TrimSpace p | _ => h end.

Definition traceIDFromHeader (h : string) : string :=
  match Split (before_comma (TrimSpace h)) "-" with
  | [_; p1; _; _] =>
      let tid := ToLower p1 in
      if negb (len tid =? 32)%nat || str_eqb tid "00000000000000000000000000000000" || negb (forallb is_hex (bytes tid)) then "" else tid
  | _ => ""
  end.

(** The family of a client, before its version. *)
Definition before_slash (s : string) : string := match Split s "/" with p :: _ => p | [] => s end.

Definition classifyDecisionOrigin (clientHeader gatewayID : string) : string :=
  let gw := ToLower (TrimSpace gatewayID) in
  let ch := before_slash (ToLower (TrimSpace clientHeader)) in
  if HasPrefix gw "claude_desktop" || HasPrefix gw "claude-desktop" then "claude-desktop"
  else if str_eqb ch "claude-code" || str_eqb ch "claude-code-plugin" then "claude-code"
  else if HasPrefix ch "claude-desktop" || str_eqb ch "mcp-proxy" then "claude-desktop"
  else if HasPrefix ch "sdk-" then "sdk"
  else if str_eqb ch "openclaw" || HasSuffix ch "-plugin" then "plugin"
  else if negb (str_eqb gw "") then "gateway"
  else "unknown".

(** * Audit rows and metrics *)

Record decisionAuditInput := mkAuditInput {
  ai_clientID : string; ai_userEmail : string; ai_userRole : string; ai_userID : Z; ai_query : string; ai_gatewayID : string;
  ai_origin : string; ai_plane : string; ai_correlationID : string; ai_obligations : list DecisionObligation;
  ai_suppressed : list DecisionObligation; ai_fallback : string; ai_securityEvent : string; ai_attemptedTenantID : string;
  ai_attemptedOrgID : string; ai_toolServer : string; ai_toolName : string; ai_requestID : string; ai_redactedFields : list string }.

(** policy_details, encoded as it is built. *)
Definition optional_detail (k v : string) : list (string * value) := if str_eqb v "" then [] else [(k, VString v)].
Definition strings (l : list string) : value := VArr (VString <$> l).

Definition buildDecisionAuditDetails (decisionID stage : string) (policyIDs reasons : list string) (reqContext : gmap string string)
    (contextTruncated : bool) (a : decisionAuditInput) : list (string * value) :=
  [("decision_id", VString decisionID); ("source", VString "decision_mode"); ("stage", VString stage);
   ("policy_ids", strings policyIDs); ("reasons", strings reasons)]
  ++ optional_detail "gateway_id" (ai_gatewayID a)
  ++ match reasons with [] => [] | _ => [("reason", VString (String.concat "; " reasons))] end
  ++ (if bool_decide (reqContext = ∅) then [] else [("context", VObj ((fun e => (e.1, VString e.2)) <$> map_to_list reqContext))])
  ++ (if contextTruncated then [("context_truncated", VBool true)] else [])
  ++ optional_detail "correlation_id" (ai_correlationID a)
  ++ optional_detail "security_event" (ai_securityEvent a)
  ++ optional_detail "attempted_tenant_id" (ai_attemptedTenantID a)
  ++ optional_detail "attempted_org_id" (ai_attemptedOrgID a)
  ++ optional_detail "tool_server" (ai_toolServer a)
  ++ optional_detail "tool_name" (ai_toolName a)
  ++ match ai_suppressed a with
     | [] => []
     | l => [("suppressed_obligations", VArr ((fun o => VObj [("type", VString (ob_Type o)); ("detail", VString (ob_Detail o))]) <$> l));
             ("obligation_fallback", VString (ai_fallback a))]
     end.

(** A row of audit_logs; the empty text stands for NULL in the nullable columns. *)
Record AuditRow := mkAuditRow {
  ar_id : string; ar_request_id : string; ar_user_id : Z; ar_user_email : string; ar_user_role : string; ar_client_id : string;
  ar_tenant_id : string; ar_org_id : string; ar_request_type : string; ar_query : string; ar_query_hash : string;
  ar_policy_decision : string; ar_policy_details : list (string * value); ar_decision_id : string; ar_plane : string;
  ar_obligations : list DecisionObligation; ar_correlation_id : string; ar_redacted_fields : list string; ar_session_id : string }.

Definition or_default (s d : string) : string := if str_eqb s "" then d else s.

Definition decision_row (sessionID : string) (details : list (string * value)) (decisionID orgID tenantID stage verdict : string)
    (a : decisionAuditInput) : AuditRow :=
  let query := or_default (ai_query a) "(empty)" in
  let plane := or_default (ai_plane a) PlaneDecision in
  mkAuditRow ("decide_" +:+ decisionID) (or_default (ai_requestID a) decisionID) (ai_userID a) (or_default (ai_userEmail a) "unknown@axonflow.local")
    (or_default (ai_userRole a) "service") (or_default (ai_clientID a) "unknown") (or_default tenantID "unknown") orgID
    ("decision_" +:+ stage) query (sha256_hex query)
    (if str_in plane [PlaneDecision; PlaneOpenAICompat] then canonicalAuditVerdict verdict else verdict)
    details decisionID plane (ai_obligations a) (ai_correlationID a) (ai_redactedFields a) sessionID.

Inductive metric :=
| MRequests (verdict stage origin : string)
| MObligation (obligation stage origin : string)
| MFallback (obligation action stage origin : string)
| MBlock (policy origin : string)
| MAuditFailure (reason : string)
| MSigningSkipped (reason : string).

Definition boundedBlockPolicy (policyID tier : string) : string :=
  if str_eqb policyID "" then "unknown" else if str_in tier ["system"; "enterprise"; ""] then policyID else "tenant_custom".

Definition recordDecideBlock (policy origin : string) : metric := MBlock (or_default policy "unknown") origin.

Definition named_obligations (l : list DecisionObligation) : list DecisionObligation := List.filter (fun o => negb (str_eqb (ob_Type o) "")) l.

Definition recordDecideOutcomeMetrics (verdict stage origin : string) (obligations : list DecisionObligation)
    (blockingPolicyID blockingPolicyTier : string) (evaluatedPolicies : list string) (fallback : option obligationFallback) : list metric :=
  match fallback with
  | Some f => (fun o => MFallback (ob_Type o) (fb_action f) stage origin) <$> named_obligations (fb_suppressed f)
  | None => []
  end ++
  if str_eqb verdict VerdictAllow then (fun o => MObligation (ob_Type o) stage origin) <$> named_obligations obligations
  else if str_eqb verdict VerdictDeny then
    let policy := if str_eqb blockingPolicyID "" then default "" (head evaluatedPolicies) else blockingPolicyID in
    [recordDecideBlock (boundedBlockPolicy policy blockingPolicyTier) origin]
  else [].

(** * State and world *)

Record DecideState := mkDecideState {
  st_engine : option Engine;
  st_overrides : option detectionOverrideCache;
  st_audit : list AuditRow;
  st_signed : list DecisionEntry;
  st_violations : list (string * string * string * string);
  st_metrics : list metric;
}.

Record CheckResult := mkCheckResult { cr_Allowed : bool; cr_Reason : string; cr_RetryAfter : string }.
Record PIICheckResult := mkPIICheck { pc_HasPII : bool; pc_CriticalPII : bool; pc_BlockRecommended : bool; pc_Reason : string; pc_Types : string }.

(** What the handler reads of a check; the types as a slice prints. *)
Definition pii_result (c : pii_check) : PIICheckResult :=
  mkPIICheck (pk_HasPII c) (pk_CriticalPII c) (pk_BlockRecommended c) (pk_Reason c) ("[" +:+ join " " (pk_DetectedTypes c) +:+ "]").

Definition checkIndonesiaPII (ord : list string -> list string) (query : string) (blockOnCritical : bool) : PIICheckResult :=
  pii_result (Indonesia.CheckRequestForPII ord (Some (Indonesia.NewIndonesiaPIIDetector default_config)) query blockOnCritical).
Definition checkRBIPII `{U : Unicode} (ord : list string -> list string) (query : string) (blockOnCritical : bool) : PIICheckResult :=
  pii_result (India.CheckRequestForPII ord (Some (India.NewIndiaPIIDetector default_config)) query blockOnCritical).

Record World := mkWorld {
  w_decisionID : string; w_freshTraceID : string; w_otel : string;
  w_now : Z;                                                (** the clock of the first posture read *)
  w_read : string -> result string org_overrides;
  w_now' : Z;                                               (** and of the second *)
  w_read' : string -> result string org_overrides;
  w_db : option policy_db; w_t0 : Z; w_t1 : Z;              (** the load of the PII categories *)
  w_db' : option policy_db; w_t0' : Z; w_t1' : Z; w_ms : Z; (** and of the evaluation *)
  w_breaker : option (string -> string -> string -> result string CheckResult);
  w_killSwitch : string -> option string;                   (** the reason, when engaged *)
  w_indonesia : string -> bool -> PIICheckResult;
  w_rbi : string -> bool -> PIICheckResult;
  w_audit : option bool;                                    (** no database, or whether the insert succeeds *)
  w_chain : option bool;                                    (** no tracker, or whether it accepts the entry *)
  w_latency : Z; w_answered : Z }.

Definition with_engine (st : DecideState) (e : option Engine) : DecideState :=
  mkDecideState e (st_overrides st) (st_audit st) (st_signed st) (st_violations st) (st_metrics st).
Definition with_overrides (st : DecideState) (c : option detectionOverrideCache) : DecideState :=
  mkDecideState (st_engine st) c (st_audit st) (st_signed st) (st_violations st) (st_metrics st).
Definition with_row (st : DecideState) (r : AuditRow) : DecideState :=
  mkDecideState (st_engine st) (st_overrides st) (st_audit st ++ [r]) (st_signed st) (st_violations st) (st_metrics st).
Definition with_signed (st : DecideState) (e : DecisionEntry) : DecideState :=
  mkDecideState (st_engine st) (st_overrides st) (st_audit st) (st_signed st ++ [e]) (st_violations st) (st_metrics st).
Definition with_violation (st : DecideState) (v : string * string * string * string) : DecideState :=
  mkDecideState (st_engine st) (st_overrides st) (st_audit st) (st_signed st) (st_violations st ++ [v]) (st_metrics st).
Definition count (st : DecideState) (ms : list metric) : DecideState :=
  mkDecideState (st_engine st) (st_overrides st) (st_audit st) (st_signed st) (st_violations st) (st_metrics st ++ ms).

Definition with_db (e : Engine) (db : option policy_db) : Engine :=
  mkEngine db (en_cache e) (en_evaluator e) (en_redactor e) (en_metrics e) (en_config e) (en_extra e).

(** * Records of a decision *)

Definition decisionTypeForStage (stage : string) : string :=
  if str_eqb stage "llm" then DecisionTypeLLMGeneration
  else if str_eqb stage "tool" then DecisionTypeDataRetrieval
  else DecisionTypeSystemAction.

Definition signed_entry (decisionID orgID tenantID stage verdict : string) (policyIDs reasons : list string) (latency : Z) : DecisionEntry :=
  let outcome := decisionOutcomeForVerdict verdict in
  mkDE "" decisionID decisionID "" 0 orgID tenantID "" "" (decisionTypeForStage stage) outcome "" "" "" policyIDs
    (triggered_policy outcome policyIDs) "" false latency "" "" ""
    [("stage", VString stage); ("verdict", VString verdict); ("reasons", strings reasons)] 0 "" "" "" [] zero_time.

Definition recordSignedDecision (w : World) (st : DecideState) (decisionID orgID tenantID stage verdict : string)
    (policyIDs reasons : list string) : DecideState :=
  match w_chain w with
  | None => st
  | Some ok =>
      if str_eqb orgID "" then count st [MSigningSkipped "missing_org"]
      else if str_eqb decisionID "" then count st [MSigningSkipped "missing_decision_id"]
      else if ok then with_signed st (signed_entry decisionID orgID tenantID stage verdict policyIDs reasons (w_latency w))
      else count st [MSigningSkipped "record_error"]
  end.

Definition writeDecisionAuditLog (w : World) (sessionID : string) (st : DecideState) (decisionID orgID tenantID stage verdict : string)
    (policyIDs reasons : list string) (reqContext : gmap string string) (truncated : bool) (a : decisionAuditInput) : DecideState :=
  match w_audit w with
  | None => count st [MAuditFailure "nodb"]
  | Some ok =>
      if str_eqb decisionID "" then count st [MAuditFailure "empty_decision_id"]
      else
        let details := buildDecisionAuditDetails decisionID stage policyIDs reasons reqContext truncated a in
        if ok then with_row st (decision_row sessionID details decisionID orgID tenantID stage verdict a)
        else count st [MAuditFailure "insert"]
  end.

(** The row, the signed entry, and the trace id to return. *)
Definition recordDecideDecision (w : World) (sessionID : string) (st : DecideState) (decisionID orgID tenantID stage verdict : string)
    (policyIDs reasons : list string) (fallbackTraceID : string) (reqContext : gmap string string) (truncated : bool) (a : decisionAuditInput)
  : string * DecideState :=
  let st := writeDecisionAuditLog w sessionID st decisionID orgID tenantID stage verdict policyIDs reasons reqContext truncated a in
  let st := recordSignedDecision w st decisionID orgID tenantID stage verdict policyIDs reasons in
  (or_default (w_otel w) fallbackTraceID, st).

(** * Evaluation *)

Definition input_categories : list string :=
  [CategorySecuritySQLi; CategorySecurityDangerous; CategorySensitiveData; CategoryComplianceRBI; CategoryComplianceSEBI;
   CategoryComplianceEUAIAct; CategoryComplianceMASFEAT].

Definition input_options (tenantID orgID userID connectorName toolIdentity : string) (parameters : list (string * value))
    (cfg : ModeDetectionConfig) (pii : list string) : EvalOptions :=
  mkOptions tenantID orgID (OrgScopePtr orgID) userID connectorName parameters toolIdentity (input_categories ++ pii)
    (md_SkipCategories cfg) (BuildActionOverrides cfg) 0.

(** The static half of evaluateInputPolicies: the categories are loaded first, then
    the statement is evaluated; the database may change in between. *)
Definition evaluate_static (w : World) (engine : option Engine) (tenantID orgID userID connectorName toolIdentity statement : string)
    (parameters : list (string * value)) (cfg : ModeDetectionConfig) : option RequestResult * option Engine :=
  match engine with
  | Some e =>
      if md_Enabled cfg && IsConnectorEnabled cfg connectorName then
        let '(pii, e) := EnabledPIICategories (with_db e (w_db w)) (w_t0 w) (w_t1 w) tenantID (OrgScopePtr orgID) PhaseRequest in
        let '(r, e) := EvaluateRequest (with_db e (w_db' w)) (w_t0' w) (w_t1' w) (w_ms w) statement
                         (input_options tenantID orgID userID connectorName toolIdentity parameters cfg pii) in
        (Some r, Some e)
      else (None, engine)
  | None => (None, None)
  end.

(** * The handler *)

Inductive decide_reply :=
| MethodNotAllowed
| Failure (status : Z) (msg retryAfter decisionID traceID : string)   (** the body says deny *)
| Decision (r : DecideResponse).

Definition decideError (msg : string) (status : Z) (decisionID traceID : string) : decide_reply := Failure status msg "" decisionID traceID.

(** What is known of a request once its body is decoded and its tenancy settled. *)
Record Settled := mkSettled {
  se_req : DecideRequest; se_stage : string; se_origin : string; se_tenantID : string; se_orgID : string; se_clientID : string;
  se_user : User; se_context : gmap string string; se_truncated : bool; se_audit : decisionAuditInput }.

Section Handler.
Context (getenv : string -> string) (validateUserToken : string -> string -> result string User).
Context (global : ModeDetectionConfig) (w : World) (r : HttpRequest) (auth : AuthResult).

Local Abbreviation decisionID := (w_decisionID w).
Definition trace_id : string := or_default (traceIDFromHeader (hdr r "traceparent")) (w_freshTraceID w).
Definition session_id : string := attributedSessionID getenv r.
Definition attributed_email : string := CanonicalEmail (trustedIdentityHeader getenv r identityHeaderUserEmail maxAttributedEmailLen).

Definition initial_audit (origin : string) : decisionAuditInput :=
  mkAuditInput (au_ClientID auth) attributed_email "" 0 "" "" origin PlaneDecision trace_id [] [] "" "" "" "" "" "" decisionID [].

Definition with_event (a : decisionAuditInput) (event attemptedTenant attemptedOrg : string) : decisionAuditInput :=
  mkAuditInput (ai_clientID a) (ai_userEmail a) (ai_userRole a) (ai_userID a) (ai_query a) (ai_gatewayID a) (ai_origin a) (ai_plane a)
    (ai_correlationID a) (ai_obligations a) (ai_suppressed a) (ai_fallback a) event attemptedTenant attemptedOrg (ai_toolServer a) (ai_toolName a) (ai_requestID a) (ai_redactedFields a).
Definition with_client (a : decisionAuditInput) (clientID : string) : decisionAuditInput :=
  mkAuditInput clientID (ai_userEmail a) (ai_userRole a) (ai_userID a) (ai_query a) (ai_gatewayID a) (ai_origin a) (ai_plane a)
    (ai_correlationID a) (ai_obligations a) (ai_suppressed a) (ai_fallback a) (ai_securityEvent a) (ai_attemptedTenantID a)
    (ai_attemptedOrgID a) (ai_toolServer a) (ai_toolName a) (ai_requestID a) (ai_redactedFields a).
Definition with_user (a : decisionAuditInput) (u : User) : decisionAuditInput :=
  mkAuditInput (ai_clientID a) (or_default attributed_email (us_Email u)) (us_Role u) (us_ID u) (ai_query a) (ai_gatewayID a)
    (ai_origin a) (ai_plane a) (ai_correlationID a) (ai_obligations a) (ai_suppressed a) (ai_fallback a) (ai_securityEvent a)
    (ai_attemptedTenantID a) (ai_attemptedOrgID a) (ai_toolServer a) (ai_toolName a) (ai_requestID a) (ai_redactedFields a).
Definition with_obligations (a : decisionAuditInput) (obligations : list DecisionObligation) (f : option obligationFallback) : decisionAuditInput :=
  mkAuditInput (ai_clientID a) (ai_userEmail a) (ai_userRole a) (ai_userID a) (ai_query a) (ai_gatewayID a) (ai_origin a) (ai_plane a)
    (ai_correlationID a) obligations (from_option fb_suppressed [] f) (from_option fb_action "" f) (ai_securityEvent a)
    (ai_attemptedTenantID a) (ai_attemptedOrgID a) (ai_toolServer a) (ai_toolName a) (ai_requestID a) (ai_redactedFields a).

(** A denial before any evaluation: recorded, counted as an error, answered. *)
Definition early_deny (st : DecideState) (orgID tenantID stage verdict : string) (policyIDs reasons : list string)
    (ctx : gmap string string) (truncated : bool) (a : decisionAuditInput) (msg : string) (status : Z) : decide_reply * DecideState :=
  let '(_, st) := recordDecideDecision w session_id st decisionID orgID tenantID stage verdict policyIDs reasons trace_id ctx truncated a in
  (decideError msg status decisionID trace_id, count st [MRequests "error" stage (ai_origin a)]).

Definition service_user (clientID tenantID orgID : string) : User :=
  mkAgentUser 0 (clientID +:+ "@axonflow.local") clientID tenantID "service" [] orgID.

(** The tenancy of a request: in community mode without credentials that of the body,
    otherwise that of the credentials, which the body may repeat but not contradict. *)
Definition body_identity : bool := isCommunityMode getenv && (str_eqb (au_ClientID auth) "" || str_eqb (au_ClientID auth) "community").

Definition settle (st : DecideState) (req : DecideRequest) : (decide_reply * DecideState) + Settled :=
  let ci := dq_CallerIdentity req in
  let gateway := boundedAuditString (ci_GatewayID ci) 128 in
  let tool := EqualFold_ascii (tg_Type (dq_Target req)) "tool" in
  let toolServer := if tool then tg_Server (dq_Target req) else "" in
  let toolName := if tool then tg_Tool (dq_Target req) else "" in
  let origin := classifyDecisionOrigin (hdr r "X-Axonflow-Client") gateway in
  let audit := mkAuditInput (au_ClientID auth) attributed_email "" 0 (dq_Query req) gateway origin PlaneDecision trace_id [] [] "" "" "" ""
                 toolServer toolName decisionID [] in
  let stage := ToLower (TrimSpace (dq_Stage req)) in
  if negb (isValidStage stage) then
    inl (early_deny st (au_OrgID auth) (au_TenantID auth) "unknown" AuditVerdictError [] ["invalid stage"] ∅ false audit
           "stage is required and must be one of: llm, tool, agent" 400)
  else if str_eqb (dq_Query req) "" then
    inl (early_deny st (au_OrgID auth) (au_TenantID auth) stage AuditVerdictError [] ["query field is required"] ∅ false audit
           "query field is required" 400)
  else
    let '(ctx, truncated) := canonicalizeRequestContext (dq_Context req) (decisionContextAllowlist getenv) in
    let tenantID := if body_identity then or_default (ci_TenantID ci) (au_TenantID auth) else au_TenantID auth in
    let orgID := if body_identity then or_default (ci_OrgID ci) (au_OrgID auth) else au_OrgID auth in
    let clientID := if body_identity then or_default (ci_TenantID ci) (au_ClientID auth) else au_ClientID auth in
    let impersonates claimed actual := negb body_identity && negb (str_eqb claimed "") && negb (str_eqb claimed actual) in
    let deny a event msg status := inl (early_deny st orgID tenantID stage VerdictDeny [event] [msg] ctx truncated a msg status) in
    if impersonates (ci_TenantID ci) tenantID then
      deny (with_event audit "tenant_impersonation" (boundedAuditString (ci_TenantID ci) 128) "") "tenant_impersonation"
        "caller_identity.tenant_id does not match authenticated identity" 403
    else if impersonates (ci_OrgID ci) orgID then
      deny (with_event audit "org_impersonation" "" (boundedAuditString (ci_OrgID ci) 128)) "org_impersonation"
        "caller_identity.org_id does not match authenticated identity" 403
    else
      let audit := with_client audit clientID in
      let client := mkClient clientID clientID clientID orgID tenantID [] 0 true "" "" in
      let settled u :=
        if negb (str_eqb (us_TenantID u) tenantID) then
          deny (with_event audit "tenant_mismatch" (boundedAuditString (us_TenantID u) 128) "") "tenant_mismatch" "Tenant mismatch" 403
        else inr (mkSettled req stage origin tenantID orgID clientID u ctx truncated (with_user audit u)) in
      match ResolveUser validateUserToken (mkAuth (au_Kind auth) client tenantID orgID clientID) (dq_UserToken req) with
      | Ok u => settled u
      | Err e =>
          if bool_decide (au_Kind auth = AuthKindEnterprise) && str_eqb (dq_UserToken req) ""
          then settled (service_user clientID tenantID orgID)
          else deny (with_event audit "user_token_rejected" "" "") "user_token_rejected" (ae_Message e) (ae_HTTPStatus e)
      end.

(** The records and the answer of a verdict. *)
Definition answer (s : Settled) (st : DecideState) (verdict : string) (reasons policies : list string) (obligations : list DecisionObligation)
    (a : decisionAuditInput) (ms : list metric) : decide_reply * DecideState :=
  let '(traceID, st) := recordDecideDecision w session_id st decisionID (se_orgID s) (se_tenantID s) (se_stage s) verdict policies reasons
                          trace_id (se_context s) (se_truncated s) a in
  (Decision (mkDecideResponse verdict decisionID traceID reasons obligations policies (se_stage s) (w_answered w + decisionExpiresAfter getenv)),
   count st (MRequests verdict (se_stage s) (se_origin s) :: ms)).

(** A denial by one of the checks that precede the engine. *)
Definition policy_deny (s : Settled) (st : DecideState) (policy reason : string) : decide_reply * DecideState :=
  answer s st VerdictDeny [reason] [policy] [] (se_audit s) [recordDecideBlock policy (se_origin s)].

Definition breaker_open (s : Settled) : option CheckResult :=
  match w_breaker w with
  | Some check => match check (se_orgID s) (se_tenantID s) (se_clientID s) with
                  | Ok c => if cr_Allowed c then None else Some c
                  | Err _ => None
                  end
  | None => None
  end.

Definition flags_redaction (cfg : ModeDetectionConfig) (p : PIICheckResult) : bool :=
  pc_HasPII p && md_Enabled cfg && pc_CriticalPII p && str_eqb (md_PIIAction cfg) DetectionActionRedact.

(** The obligation of the validator-backed detectors, unless there is one. *)
Definition merge_redaction (flagged indonesia : bool) (rbi indo : PIICheckResult) (verdict : string) (obligations : list DecisionObligation)
  : list DecisionObligation :=
  if flagged && str_eqb verdict VerdictAllow && negb (existsb (fun o => str_eqb (ob_Type o) ObligationRedactPII) obligations) then
    let reason := if str_eqb (pc_Reason rbi) "" && indonesia then "Indonesia PII detected: " +:+ pc_Types indo else pc_Reason rbi in
    obligations ++ [newRedactPIIObligation reason]
  else obligations.

Definition conclude (s : Settled) (st : DecideState) (rbi indo : PIICheckResult) (cfg : ModeDetectionConfig) (static : option RequestResult)
  : decide_reply * DecideState :=
  let result := convertSharedResultToStatic static in
  let blocking := static ≫= rq_BlockedBy in
  let blockingID := from_option PolicyID "" blocking in
  let '(verdict, reasons, obligations) := mapPolicyResultToVerdict result (isCommunityMode getenv) in
  let obligations := merge_redaction (flags_redaction cfg rbi || flags_redaction cfg indo) (flags_redaction cfg indo) rbi indo verdict obligations in
  let violation := or_default blockingID (default "" (head (sr_TriggeredPolicies result))) in
  let st := match w_breaker w with
            | Some _ => if str_eqb verdict VerdictDeny && negb (str_eqb violation "")
                        then with_violation st (se_orgID s, se_tenantID s, se_clientID s, violation) else st
            | None => st
            end in
  let '(fallback, overrides) := ResolveObligationFallbackAction (st_overrides st) (w_now' w) (w_read' w (se_orgID s)) (se_orgID s) in
  let '(verdict, reasons, obligations, withheld) :=
    applySeamCapabilityObligations (dq_FulfillmentCapabilities (se_req s)) verdict reasons obligations fallback in
  let st := match withheld with Some _ => with_overrides st overrides | None => st end in
  let policies := if str_eqb verdict VerdictDeny && negb (str_eqb blockingID "")
                  then hoistBlockingPolicy (sr_TriggeredPolicies result) blockingID else sr_TriggeredPolicies result in
  answer s st verdict reasons policies obligations (with_obligations (se_audit s) obligations withheld)
    (recordDecideOutcomeMetrics verdict (se_stage s) (se_origin s) obligations blockingID (from_option Tier "" blocking) policies withheld).

Definition decide_settled (s : Settled) (st : DecideState) : decide_reply * DecideState :=
  match breaker_open s with
  | Some c =>
      let '(traceID, st) := recordDecideDecision w session_id st decisionID (se_orgID s) (se_tenantID s) (se_stage s) VerdictDeny [] [cr_Reason c]
                              trace_id (se_context s) (se_truncated s) (se_audit s) in
      (Failure 503 ("Service temporarily unavailable: circuit breaker active (reason: " +:+ cr_Reason c +:+ ")") (cr_RetryAfter c) decisionID traceID,
       count st [MRequests "circuit_breaker" (se_stage s) (se_origin s)])
  | None =>
      match w_killSwitch w (se_orgID s) with
      | Some reason => policy_deny s st "rbi_kill_switch" reason
      | None =>
          let '(cfg, overrides) := applyOrgDetectionOverrides (st_overrides st) (w_now w) (w_read w (se_orgID s)) (se_orgID s) global in
          let st := with_overrides st overrides in
          let blockOnCritical := md_Enabled cfg && str_eqb (md_PIIAction cfg) DetectionActionBlock in
          let query := dq_Query (se_req s) in
          let indo := w_indonesia w query blockOnCritical in
          if pc_BlockRecommended indo then policy_deny s st "indonesia_pii_protection" (pc_Reason indo)
          else
            let rbi := w_rbi w query blockOnCritical in
            if pc_BlockRecommended rbi then policy_deny s st "rbi_pii_protection" (pc_Reason rbi)
            else
              let '(static, engine) :=
                evaluate_static w (st_engine st) (us_TenantID (se_user s)) (us_OrgID (se_user s)) (Itoa (us_ID (se_user s))) "decision"
                  (ai_toolName (se_audit s)) query [] cfg in
              conclude s (with_engine st engine) rbi indo cfg static
      end
  end.

(** [body] is what the decoder made of the body. *)
Definition handleDecide (st : DecideState) (body : option DecideRequest) : decide_reply * DecideState :=
  if negb (str_eqb (rq_Method r) "POST") then (MethodNotAllowed, st)
  else match body with
       | None =>
           early_deny st (au_OrgID auth) (au_TenantID auth) "unknown" AuditVerdictError [] ["invalid request body"] ∅ false
             (initial_audit (classifyDecisionOrigin (hdr r "X-Axonflow-Client") "")) "Invalid request body" 400
       | Some req => match settle st req with inl out => out | inr s => decide_settled s st end
       end.
End Handler.
End Decide.
