(* ===== verification/DecideFacts.v ===== *)
(** What the decision point of Decide.v promises: its verdicts are exactly those its
    checks and the engine call for, each is recorded once under the authenticated
    tenant, and the context it stores is bounded. *)

From stdpp Require Import gmap.
From S2P Require Import Prelude GoStrings GoStrconv GoTime GoFmt GoHttp GoSha256 GoJSON PolicyTypes Capability Evaluator PolicyCache Loader Metrics Engine EngineFacts DecisionChain Egress Identity AgentAuth Detection PolicyClients Decide.

Local Open Scope Z_scope.

Section Facts.
Context `{U : Unicode} `{PT : UnicodePrint} `{F : GoFormat}.
Context (getenv : string -> string) (validateUserToken : string -> string -> result string User).
Context (global : ModeDetectionConfig) (w : World) (r : HttpRequest) (auth : AuthResult).

Local Abbreviation handle := (handleDecide getenv validateUserToken global w r auth).
Local Abbreviation settle' := (settle getenv validateUserToken w r auth).
Local Abbreviation settled := (decide_settled getenv global w r).

(** * Records *)

(** One row is added, with its decision, tenancy and plane. *)
Definition recorded (st st' : DecideState) (orgID tenantID verdict : string) (obligations : list DecisionObligation) : Prop :=
  exists row, st_audit st' = st_audit st ++ [row] /\
    ar_id row = "decide_" +:+ w_decisionID w /\ ar_decision_id row = w_decisionID w /\ ar_plane row = PlaneDecision /\
    ar_org_id row = orgID /\ ar_tenant_id row = or_default tenantID "unknown" /\
    ar_policy_decision row = canonicalAuditVerdict verdict /\ ar_obligations row = obligations.

Lemma signed_audit st did org tenant stage verdict ps rs :
  st_audit (recordSignedDecision w st did org tenant stage verdict ps rs) = st_audit st.
Proof. unfold recordSignedDecision. by repeat case_match. Qed.

Lemma record_spec sid st org tenant stage verdict ps rs tid ctx tr a :
  w_audit w = Some true -> w_decisionID w <> "" -> ai_plane a = PlaneDecision ->
  recorded st (recordDecideDecision w sid st (w_decisionID w) org tenant stage verdict ps rs tid ctx tr a).2 org tenant verdict (ai_obligations a).
Proof.
  intros Hw Hid Hp. unfold recordDecideDecision, recorded. cbn [snd]. rewrite signed_audit.
  unfold writeDecisionAuditLog. rewrite Hw, (proj2 (str_eqb_false _ _) Hid). eexists. split; [done|].
  unfold decision_row. rewrite Hp. done.
Qed.

Lemma early_deny_spec st org tenant stage verdict ps rs ctx tr a msg status :
  w_audit w = Some true -> w_decisionID w <> "" -> ai_plane a = PlaneDecision ->
  exists st', early_deny getenv w r st org tenant stage verdict ps rs ctx tr a msg status = (decideError msg status (w_decisionID w) (trace_id w r), st') /\
    recorded st st' org tenant verdict (ai_obligations a).
Proof.
  intros Hw Hid Hp. unfold early_deny.
  pose proof (record_spec (session_id getenv r) st org tenant stage verdict ps rs (trace_id w r) ctx tr a Hw Hid Hp) as H.
  destruct (recordDecideDecision _ _ _ _ _ _ _ _ _ _ _ _ _) as [t st']. eexists. split; [done|]. exact H.
Qed.

Lemma answer_spec s st verdict reasons policies obligations a ms :
  exists d st', answer getenv w r s st verdict reasons policies obligations a ms = (Decision d, st') /\
    dr_Verdict d = verdict /\ dr_DecisionID d = w_decisionID w /\ dr_Obligations d = obligations /\
    (w_audit w = Some true -> w_decisionID w <> "" -> ai_plane a = PlaneDecision ->
     recorded st st' (se_orgID s) (se_tenantID s) verdict (ai_obligations a)).
Proof.
  unfold answer.
  pose proof (record_spec (session_id getenv r) st (se_orgID s) (se_tenantID s) (se_stage s) verdict policies reasons (trace_id w r)
                (se_context s) (se_truncated s) a) as H.
  destruct (recordDecideDecision _ _ _ _ _ _ _ _ _ _ _ _ _) as [t st']. do 2 eexists. split; [done|]. split_and!; try done.
Qed.

(** * Settling the tenancy *)

Definition tenancy_of (s : Settled) : Prop :=
  us_TenantID (se_user s) = se_tenantID s /\
  (body_identity getenv auth = false -> se_tenantID s = au_TenantID auth /\ se_orgID s = au_OrgID auth /\ se_clientID s = au_ClientID auth).

(** Either a settled request, or an answer that is an error, recorded as blocked or as
    an error. *)
Lemma settle_spec st req :
  w_audit w = Some true -> w_decisionID w <> "" ->
  match settle' st req with
  | inr s => tenancy_of s /\ ai_plane (se_audit s) = PlaneDecision /\ ai_obligations (se_audit s) = [] /\ se_req s = req
  | inl (reply, st') =>
      exists status msg org tenant verdict, reply = decideError msg status (w_decisionID w) (trace_id w r) /\
        verdict ∈ [VerdictDeny; AuditVerdictError] /\ recorded st st' org tenant verdict [] /\
        (body_identity getenv auth = false -> org = au_OrgID auth /\ tenant = au_TenantID auth)
  end.
Proof.
  intros Hw Hid. unfold settle.
  assert (Hd : forall org tenant stage verdict ps rs ctx tr a msg status,
    ai_plane a = PlaneDecision -> ai_obligations a = [] -> verdict ∈ [VerdictDeny; AuditVerdictError] ->
    (body_identity getenv auth = false -> org = au_OrgID auth /\ tenant = au_TenantID auth) ->
    match early_deny getenv w r st org tenant stage verdict ps rs ctx tr a msg status with (reply, st') =>
      exists status msg org tenant verdict, reply = decideError msg status (w_decisionID w) (trace_id w r) /\
        verdict ∈ [VerdictDeny; AuditVerdictError] /\ recorded st st' org tenant verdict [] /\
        (body_identity getenv auth = false -> org = au_OrgID auth /\ tenant = au_TenantID auth) end).
  { intros org tenant stage verdict ps rs ctx tr a msg status Hp Hobs Hv Ht.
    destruct (early_deny_spec st org tenant stage verdict ps rs ctx tr a msg status Hw Hid Hp) as (st' & -> & Hr).
    rewrite Hobs in Hr. do 5 eexists. split; [reflexivity|]. split_and!; [exact Hv|exact Hr|exact Ht]. }
  assert (Hdeny : VerdictDeny ∈ [VerdictDeny; AuditVerdictError]) by left.
  assert (Herr : AuditVerdictError ∈ [VerdictDeny; AuditVerdictError]) by (right; left).
  cbv zeta. destruct (negb (isValidStage _)); [apply Hd; auto|].
  destruct (str_eqb (dq_Query req) ""); [apply Hd; auto|].
  destruct (canonicalizeRequestContext _ _) as [ctx tr].
  destruct (negb (body_identity getenv auth) && _ && _) eqn:E1; [apply Hd; try done; by intros ->|].
  destruct (negb (body_identity getenv auth) && negb (str_eqb (ci_OrgID _) "") && _) eqn:E2; [apply Hd; try done; by intros ->|].
  destruct (ResolveUser _ _ _) as [u|e].
  - destruct (negb (str_eqb (us_TenantID u) _)) eqn:Et; [apply Hd; try done; by intros ->|].
    apply negb_false_iff, str_eqb_true in Et. split_and!; try done. split; [done|]. cbn. by intros ->.
  - destruct (bool_decide _ && _); [|apply Hd; try done; by intros ->].
    destruct (negb (str_eqb (us_TenantID _) _)) eqn:Et; [apply Hd; try done; by intros ->|].
    apply negb_false_iff, str_eqb_true in Et. split_and!; try done. split; [done|]. cbn. by intros ->.
Qed.

(** * Verdicts *)

(** The verdict and the duty the checks call for. *)
Definition blocked (static : option RequestResult) : bool := from_option rq_Blocked false static.
Definition wants_approval (static : option RequestResult) : bool :=
  match static with Some q => existsb (fun m => str_eqb (m_Action m) ActionRequireApproval) (rq_MatchedPolicies q) | None => false end.
Definition needs_redaction (cfg : ModeDetectionConfig) (rbi indo : PIICheckResult) (static : option RequestResult) : bool :=
  match static with Some q => existsb redacts (rq_MatchedPolicies q) | None => false end || flags_redaction cfg rbi || flags_redaction cfg indo.
(** The caller says what it can do, and body redaction is not in it. *)
Definition cannot_redact (capabilities : list string) : bool :=
  let '(set, advertised) := canonicalizeFulfillmentCapabilities capabilities in
  advertised && negb (bool_decide (CapabilityRequestBodyRedaction ∈ set)).

Definition expected_verdict (cfg : ModeDetectionConfig) (rbi indo : PIICheckResult) (static : option RequestResult)
    (capabilities : list string) (posture : string) : string :=
  if blocked static then VerdictDeny
  else if wants_approval static && negb (isCommunityMode getenv) then VerdictNeedsApproval
  else if needs_redaction cfg rbi indo static && cannot_redact capabilities && str_eqb posture DetectionActionBlock then VerdictDeny
  else VerdictAllow.

Definition duty (needed : bool) (obligations : list DecisionObligation) : Prop :=
  if needed then exists detail, obligations = [newRedactPIIObligation detail] else obligations = [].

(** Before the seam is looked at, an allow carries one duty or none. *)
Lemma merged_spec cfg rbi indo static :
  let '(verdict, reasons, obligations) := mapPolicyResultToVerdict (convertSharedResultToStatic static) (isCommunityMode getenv) in
  verdict = (if blocked static then VerdictDeny
             else if wants_approval static && negb (isCommunityMode getenv) then VerdictNeedsApproval else VerdictAllow) /\
  duty (str_eqb verdict VerdictAllow && needs_redaction cfg rbi indo static)
    (merge_redaction (flags_redaction cfg rbi || flags_redaction cfg indo) (flags_redaction cfg indo) rbi indo verdict obligations).
Proof.
  unfold needs_redaction, merge_redaction.
  destruct static as [q|]; cbn [convertSharedResultToStatic mapPolicyResultToVerdict sr_Blocked blocked from_option wants_approval].
  - unfold mapPolicyResultToVerdict. cbn [sr_Blocked sr_RequiresApproval sr_RequiresRedaction sr_Reason sr_AdvisoryReasons].
    destruct (rq_Blocked q); [split; [done|]; cbn; by rewrite andb_false_r|].
    destruct (existsb _ (rq_MatchedPolicies q) && _); [split; [done|]; cbn; by rewrite andb_false_r|].
    split; [done|]. cbn [negb andb]. rewrite str_eqb_refl. cbn [andb]. rewrite !andb_true_r.
    destruct (existsb redacts (rq_MatchedPolicies q)); cbn [orb existsb ob_Type newRedactPIIObligation].
    + rewrite str_eqb_refl. cbn [orb negb]. rewrite andb_false_r. eexists. done.
    + rewrite andb_true_r. destruct (flags_redaction cfg rbi || flags_redaction cfg indo); cbn; [by eexists|done].
  - split; [done|]. unfold mapPolicyResultToVerdict. cbn [sr_Blocked sr_RequiresApproval sr_RequiresRedaction sr_AdvisoryReasons andb].
    rewrite str_eqb_refl. cbn [andb orb existsb]. rewrite !andb_true_r.
    destruct (flags_redaction cfg rbi || flags_redaction cfg indo); cbn; [by eexists|done].
Qed.

(** The seam: a duty the caller cannot fulfil is withheld, as the posture says. *)
Lemma seam_spec capabilities verdict reasons obligations posture needed :
  duty (str_eqb verdict VerdictAllow && needed) obligations ->
  let '(verdict', reasons', obligations', withheld) := applySeamCapabilityObligations capabilities verdict reasons obligations posture in
  let hold := str_eqb verdict VerdictAllow && needed && cannot_redact capabilities in
  verdict' = (if hold && str_eqb posture DetectionActionBlock then VerdictDeny else verdict) /\
  (if hold then obligations' = [] else obligations' = obligations) /\
  withheld = (if hold then Some (mkFallback posture obligations) else None) /\
  exists more, reasons' = reasons ++ more.
Proof.
  unfold applySeamCapabilityObligations, cannot_redact. intros Hd.
  destruct (str_eqb verdict VerdictAllow) eqn:Ev; cbn [negb orb andb] in *.
  2: { split_and!; try done. exists []. by rewrite app_nil_r. }
  apply str_eqb_true in Ev as ->. destruct needed; cbn [duty andb] in *.
  2: { subst obligations. split_and!; try done. exists []. by rewrite app_nil_r. }
  destruct Hd as [detail ->]. destruct (canonicalizeFulfillmentCapabilities capabilities) as [set []]; cbn [negb andb].
  2: { split_and!; try done. exists []. by rewrite app_nil_r. }
  cbn [List.filter requiresRequestBodyRedaction]. change (requiresRequestBodyRedaction (newRedactPIIObligation detail)) with true.
  destruct (bool_decide _); cbn [negb andb].
  - split_and!; try done. exists []. by rewrite app_nil_r.
  - destruct (str_eqb posture DetectionActionBlock); cbn [negb]; split_and!; try done; by eexists.
Qed.

Lemma conclude_spec s st rbi indo cfg static :
  let posture := (ResolveObligationFallbackAction (st_overrides st) (w_now' w) (w_read' w (se_orgID s)) (se_orgID s)).1 in
  let caps := dq_FulfillmentCapabilities (se_req s) in
  exists d st', conclude getenv w r s st rbi indo cfg static = (Decision d, st') /\ dr_DecisionID d = w_decisionID w /\
    dr_Verdict d = expected_verdict cfg rbi indo static caps posture /\
    duty (str_eqb (dr_Verdict d) VerdictAllow && needs_redaction cfg rbi indo static && negb (cannot_redact caps)) (dr_Obligations d) /\
    (w_audit w = Some true -> w_decisionID w <> "" -> ai_plane (se_audit s) = PlaneDecision ->
     recorded st st' (se_orgID s) (se_tenantID s) (dr_Verdict d) (dr_Obligations d)).
Proof.
  intros posture caps. unfold conclude.
  pose proof (merged_spec cfg rbi indo static) as Hm. destruct (mapPolicyResultToVerdict _ _) as [[verdict reasons] obligations].
  destruct Hm as [Hv Hd].
  set (obs := merge_redaction _ _ _ _ _ _) in *.
  set (st1 := match w_breaker w with Some _ => _ | None => _ end).
  assert (H1 : st_overrides st1 = st_overrides st /\ st_audit st1 = st_audit st) by (unfold st1; by repeat case_match).
  destruct H1 as [H1 H1']. rewrite H1. subst posture.
  destruct (ResolveObligationFallbackAction _ _ _ _) as [posture overrides]. cbn [fst].
  pose proof (seam_spec caps verdict reasons obs posture _ Hd) as Hs. fold caps.
  destruct (applySeamCapabilityObligations _ _ _ _ _) as [[[verdict' reasons'] obligations'] withheld].
  destruct Hs as (Hv' & Ho' & _ & _).
  match goal with |- exists d st', answer _ _ _ _ ?st2 _ _ ?ps _ ?a ?ms = _ /\ _ =>
    destruct (answer_spec s st2 verdict' reasons' ps obligations' a ms) as (d & st' & Ha & Hdv & Hdid & Hdo & Hr);
    assert (H2 : st_audit st2 = st_audit st) by (destruct withheld; done) end.
  exists d, st'. split; [exact Ha|]. split; [done|]. rewrite Hdv, Hdo.
  assert (Hexp : verdict' = expected_verdict cfg rbi indo static caps posture).
  { rewrite Hv', Hv. unfold expected_verdict. destruct (blocked static); [done|]. destruct (wants_approval static && _); [done|].
    rewrite str_eqb_refl. cbn [andb]. by destruct (needs_redaction cfg rbi indo static && cannot_redact caps && _). }
  split; [exact Hexp|]. split.
  - destruct (str_eqb verdict VerdictAllow) eqn:Ev; cbn [andb] in *.
    + apply str_eqb_true in Ev. destruct (needs_redaction cfg rbi indo static) eqn:En; cbn [andb] in *.
      * destruct (cannot_redact caps); cbn [andb negb] in *; [by rewrite andb_false_r|].
        rewrite Hv', Ev, str_eqb_refl, Ho'. cbn [andb]. exact Hd.
      * rewrite andb_false_r. cbn. by rewrite Ho'.
    + rewrite Hv', Ev. cbn. by rewrite Ho'.
  - intros Hw Hid Hp. destruct (Hr Hw Hid Hp) as (row & Hrow & Hrest). rewrite H2 in Hrow. exists row. split; [exact Hrow|]. exact Hrest.
Qed.

Lemma policy_deny_spec s st policy reason :
  exists d st', policy_deny getenv w r s st policy reason = (Decision d, st') /\
    dr_Verdict d = VerdictDeny /\ dr_DecisionID d = w_decisionID w /\ dr_Obligations d = [] /\
    (w_audit w = Some true -> w_decisionID w <> "" -> ai_plane (se_audit s) = PlaneDecision ->
     recorded st st' (se_orgID s) (se_tenantID s) VerdictDeny (ai_obligations (se_audit s))).
Proof. apply answer_spec. Qed.

(** * The reference *)

(** The posture of the organization. *)
Definition posture_of (s : Settled) (st : DecideState) : ModeDetectionConfig :=
  (applyOrgDetectionOverrides (st_overrides st) (w_now w) (w_read w (se_orgID s)) (se_orgID s) global).1.
Definition on_critical (cfg : ModeDetectionConfig) : bool := md_Enabled cfg && str_eqb (md_PIIAction cfg) DetectionActionBlock.
Definition indo_of (s : Settled) (st : DecideState) : PIICheckResult := w_indonesia w (dq_Query (se_req s)) (on_critical (posture_of s st)).
Definition rbi_of (s : Settled) (st : DecideState) : PIICheckResult := w_rbi w (dq_Query (se_req s)) (on_critical (posture_of s st)).
Definition static_of (s : Settled) (st : DecideState) : option RequestResult :=
  (evaluate_static w (st_engine st) (us_TenantID (se_user s)) (us_OrgID (se_user s)) (Itoa (us_ID (se_user s))) "decision"
     (ai_toolName (se_audit s)) (dq_Query (se_req s)) [] (posture_of s st)).1.
(** The posture of a duty that cannot be fulfilled, read after the first. *)
Definition fallback_of (s : Settled) (st : DecideState) : string :=
  (ResolveObligationFallbackAction (applyOrgDetectionOverrides (st_overrides st) (w_now w) (w_read w (se_orgID s)) (se_orgID s) global).2
     (w_now' w) (w_read' w (se_orgID s)) (se_orgID s)).1.

Definition prechecked (s : Settled) (st : DecideState) : bool :=
  match w_killSwitch w (se_orgID s) with Some _ => true | None => false end
  || pc_BlockRecommended (indo_of s st) || pc_BlockRecommended (rbi_of s st).

Definition reference_verdict (s : Settled) (st : DecideState) : string :=
  if prechecked s st then VerdictDeny
  else expected_verdict (posture_of s st) (rbi_of s st) (indo_of s st) (static_of s st) (dq_FulfillmentCapabilities (se_req s)) (fallback_of s st).
Definition reference_duty (s : Settled) (st : DecideState) : bool :=
  str_eqb (reference_verdict s st) VerdictAllow && needs_redaction (posture_of s st) (rbi_of s st) (indo_of s st) (static_of s st)
  && negb (cannot_redact (dq_FulfillmentCapabilities (se_req s))).

Lemma settled_spec s st :
  breaker_open w s = None ->
  exists d st', settled s st = (Decision d, st') /\ dr_DecisionID d = w_decisionID w /\
    dr_Verdict d = reference_verdict s st /\ duty (reference_duty s st) (dr_Obligations d) /\
    (w_audit w = Some true -> w_decisionID w <> "" -> ai_plane (se_audit s) = PlaneDecision -> ai_obligations (se_audit s) = [] ->
     recorded st st' (se_orgID s) (se_tenantID s) (dr_Verdict d) (dr_Obligations d)).
Proof.
  intros Hb. unfold decide_settled, reference_duty, reference_verdict, prechecked, indo_of, rbi_of, static_of, fallback_of, posture_of.
  rewrite Hb.
  assert (Hdeny : forall st1 policy reason, st_audit st1 = st_audit st ->
    exists d st', policy_deny getenv w r s st1 policy reason = (Decision d, st') /\ dr_DecisionID d = w_decisionID w /\
      dr_Verdict d = VerdictDeny /\ duty false (dr_Obligations d) /\
      (w_audit w = Some true -> w_decisionID w <> "" -> ai_plane (se_audit s) = PlaneDecision -> ai_obligations (se_audit s) = [] ->
       recorded st st' (se_orgID s) (se_tenantID s) (dr_Verdict d) (dr_Obligations d))).
  { intros st1 policy reason Hst. destruct (policy_deny_spec s st1 policy reason) as (d & st' & E & Hv & Hi & Ho & Hr).
    exists d, st'. rewrite Hv, Ho. split_and!; try done. intros Hw Hid Hp Hobs. specialize (Hr Hw Hid Hp). unfold recorded in *.
    by rewrite Hst, Hobs in Hr. }
  destruct (w_killSwitch w (se_orgID s)) as [reason|]; [by apply Hdeny|].
  destruct (applyOrgDetectionOverrides _ _ _ _ _) as [cfg overrides]. cbn [fst snd]. fold (on_critical cfg).
  destruct (pc_BlockRecommended (w_indonesia w _ _)); [by apply Hdeny|].
  destruct (pc_BlockRecommended (w_rbi w _ _)); [by apply Hdeny|].
  change (st_engine (with_overrides st overrides)) with (st_engine st).
  destruct (evaluate_static _ _ _ _ _ _ _ _ _ _) as [static engine]. cbn [fst orb].
  destruct (conclude_spec s (with_engine (with_overrides st overrides) engine) (w_rbi w (dq_Query (se_req s)) (on_critical cfg))
              (w_indonesia w (dq_Query (se_req s)) (on_critical cfg)) cfg static) as (d & st' & E & Hi & Hv & Hd & Hr).
  exists d, st'. split; [exact E|]. split; [done|]. split; [exact Hv|]. rewrite Hv in Hd. split; [exact Hd|].
  intros Hw Hid Hp _. exact (Hr Hw Hid Hp).
Qed.
(** * Properties *)

(** C26: The decision point answers exactly as its checks call for. A request whose
    tenancy is settled meets, in order, the circuit breaker (503 with its retry time),
    the kill switch and the two detectors (a denial), then the engine: denied when it
    blocks, held for approval outside community mode when a match asks for it, denied
    when a redaction is due that the caller says it cannot perform and the organization
    blocks then, and allowed otherwise; an allow carries the redaction duty exactly
    when a redaction is due and the caller does not say it cannot perform it. Neither
    the audit row nor the signed entry weighs on the answer. *)
Theorem decide_exact (st : DecideState) (req : DecideRequest) (s : Settled) :
  rq_Method r = "POST" -> settle' st req = inr s ->
  match breaker_open w s with
  | Some c => exists msg trace st', handle st (Some req) = (Failure 503 msg (cr_RetryAfter c) (w_decisionID w) trace, st')
  | None => exists d st', handle st (Some req) = (Decision d, st') /\
              dr_Verdict d = reference_verdict s st /\ duty (reference_duty s st) (dr_Obligations d)
  end.
Proof.
  intros Hm Hs. unfold handleDecide. rewrite Hm, str_eqb_refl. cbn [negb]. rewrite Hs. destruct (breaker_open w s) as [c|] eqn:Hb.
  - unfold decide_settled. rewrite Hb. destruct (recordDecideDecision _ _ _ _ _ _ _ _ _ _ _ _ _) as [t st']. do 3 eexists. done.
  - destruct (settled_spec s st Hb) as (d & st' & E & _ & Hv & Hd & _). by exists d, st'.
Qed.

(** Every answer of the decision point is on record. While the audit table accepts
    rows, a POST adds exactly one, whatever its path (undecodable body, refused
    tenancy, tripped breaker, denial by a check, verdict of the engine): it carries the
    decision id returned to the caller, the verdict and the duties of the answer, and,
    for a caller with credentials, the authenticated tenant and organization and not
    those of the body. *)
Theorem decisions_audited (st : DecideState) (body : option DecideRequest) :
  rq_Method r = "POST" -> w_audit w = Some true -> w_decisionID w <> "" ->
  let '(reply, st') := handle st body in
  exists org tenant verdict obligations,
    recorded st st' org tenant verdict obligations /\
    (body_identity getenv auth = false -> org = au_OrgID auth /\ tenant = au_TenantID auth) /\
    match reply with
    | MethodNotAllowed => False
    | Failure _ _ _ id _ => id = w_decisionID w /\ verdict ∈ [VerdictDeny; AuditVerdictError] /\ obligations = []
    | Decision d => dr_DecisionID d = w_decisionID w /\ dr_Verdict d = verdict /\ dr_Obligations d = obligations
    end.
Proof.
  intros Hm Hw Hid. unfold handleDecide. rewrite Hm, str_eqb_refl. cbn [negb]. destruct body as [req|].
  - pose proof (settle_spec st req Hw Hid) as Hs. destruct (settle' st req) as [[reply st']|s].
    + destruct Hs as (status & msg & org & tenant & verdict & -> & Hv & Hr & Ht). exists org, tenant, verdict, []. by split_and!.
    + destruct Hs as ([_ Ht] & Hp & Ho & _). destruct (breaker_open w s) as [c|] eqn:Hb.
      * unfold decide_settled. rewrite Hb.
        pose proof (record_spec (session_id getenv r) st (se_orgID s) (se_tenantID s) (se_stage s) VerdictDeny [] [cr_Reason c] (trace_id w r)
                      (se_context s) (se_truncated s) (se_audit s) Hw Hid Hp) as Hr. rewrite Ho in Hr.
        destruct (recordDecideDecision _ _ _ _ _ _ _ _ _ _ _ _ _) as [t st']. exists (se_orgID s), (se_tenantID s), VerdictDeny, [].
        split_and!; [exact Hr|intros H; by destruct (Ht H) as (? & ? & ?)|done|left|done].
      * destruct (settled_spec s st Hb) as (d & st' & -> & Hi & _ & _ & Hr). exists (se_orgID s), (se_tenantID s), (dr_Verdict d), (dr_Obligations d).
        split_and!; [auto|intros H; by destruct (Ht H) as (? & ? & ?)|done..].
  - match goal with |- context [early_deny _ _ _ _ ?o ?t ?sg ?v ?ps ?rs ?c ?tr ?a ?m ?k] =>
      destruct (early_deny_spec st o t sg v ps rs c tr a m k Hw Hid eq_refl) as (st' & -> & Hr);
      exists o, t, v, []; unfold decideError; split_and!; [exact Hr|done|done|right; left|done] end.
Qed.












End Facts.

(** * The stored context *)

Section RequestContext.
Context `{U : Unicode} `{PT : UnicodePrint}.

Definition key_byte (b : Z) : Prop := is_key_byte b = true \/ b = 95.

Lemma len_of_bytes l : len (of_bytes l) = length l.
Proof. induction l as [|b l IH]; [done|]. cbn. f_equal. exact IH. Qed.

Lemma key_loop_bytes rs acc last : Forall key_byte acc -> Forall key_byte (key_loop rs acc last).
Proof.
  revert acc last. induction rs as [|[z raw] rs IH]; intros acc last Ha; [done|]. cbn [key_loop].
  assert (Hstop : forall acc' last', Forall key_byte acc' ->
    Forall key_byte (if (maxContextKeyLen <=? length acc')%nat then acc' else key_loop rs acc' last')).
  { intros acc' last' H. destruct (_ <=? _)%nat; auto. }
  destruct (is_key_byte z) eqn:Ez; [|destruct last; [by apply Hstop|]].
  - apply Hstop, Forall_app_2; [done|]. apply Forall_singleton. by left.
  - apply Hstop, Forall_app_2; [done|]. apply Forall_singleton. by right.
Qed.

Lemma drop_underscores_suffix l : exists k, l = k ++ drop_underscores l.
Proof.
  induction l as [|b l [k IH]]; [by exists []|]. cbn. destruct (b =? 95); [|by exists []]. exists (b :: k). cbn. by rewrite <- IH.
Qed.

Lemma trim_underscores_prefix l : exists k, l = trim_underscores l ++ k.
Proof.
  unfold trim_underscores. destruct (drop_underscores_suffix (rev l)) as [k Hk]. exists (rev k).
  rewrite <- rev_app_distr, <- Hk. by rewrite rev_involutive.
Qed.

Lemma trim_underscores_bytes l : Forall key_byte l -> Forall key_byte (trim_underscores l) /\ (length (trim_underscores l) <= length l)%nat.
Proof.
  intros H. destruct (trim_underscores_prefix l) as [k Hk]. split.
  - rewrite Hk in H. by apply Forall_app in H as [? _].
  - rewrite Hk at 2. rewrite length_app. lia.
Qed.

Lemma key_byte_range l : Forall key_byte l -> Forall (fun z => 0 <= z < 256) l.
Proof. intros Hl. apply (Forall_impl _ _ _ Hl). intros z [H| ->]; [|lia]. unfold is_key_byte, in_range in H. lia. Qed.

Lemma canonicalContextKey_spec k :
  (len (canonicalContextKey k) <= maxContextKeyLen)%nat /\ Forall key_byte (bytes (canonicalContextKey k)).
Proof.
  unfold canonicalContextKey. rewrite len_of_bytes.
  destruct (trim_underscores_bytes _ (key_loop_bytes (runes (ToLower (TrimSpace k))) [] true (Forall_nil_2 _))) as [H1 _].
  destruct (trim_underscores_bytes _ (Forall_take _ maxContextKeyLen _ H1)) as [H2 Hl]. split.
  - rewrite length_take in Hl. lia.
  - rewrite bytes_of_bytes; [exact H2|by apply key_byte_range].
Qed.

Lemma bounded_runes_length max l acc : (length acc <= max)%nat -> (length (bounded_runes max l acc) <= max)%nat.
Proof.
  revert acc. induction l as [|[z raw] l IH]; intros acc Ha; [done|]. cbn [bounded_runes].
  destruct (negb (IsPrint z)); [auto|]. destruct (Nat.ltb_spec max (length acc + length (encode_rune z))); [done|].
  apply IH. rewrite length_app. lia.
Qed.

(** Where a stored pair comes from. *)
Definition drawn_from (raw : gmap string value) (allowlist : list string) (k v : string) : Prop :=
  exists k0 s, raw !! k0 = Some (VString s) /\ matchContextAllowlist k0 allowlist = true /\
    canonicalContextKey k0 = k /\ k <> "" /\ sanitizeContextValue s = v.

Lemma keep_key_drawn raw allowlist kept k0 :
  map_Forall (drawn_from raw allowlist) kept -> map_Forall (drawn_from raw allowlist) (keep_key raw allowlist kept k0).
Proof.
  intros H. unfold keep_key. destruct (raw !! k0) as [[]|] eqn:Er; try done. rename s into text.
  destruct (negb (matchContextAllowlist k0 allowlist) || _) eqn:Eg; [done|].
  apply orb_false_iff in Eg as [Em Ec]. apply negb_false_iff in Em. apply str_eqb_false in Ec.
  destruct (kept !! canonicalContextKey k0) eqn:Ek; [done|]. apply map_Forall_insert_2; [|done]. by eexists k0, _.
Qed.

Lemma kept_drawn raw allowlist ks kept :
  map_Forall (drawn_from raw allowlist) kept -> map_Forall (drawn_from raw allowlist) (fold_left (keep_key raw allowlist) ks kept).
Proof. revert kept. induction ks as [|k ks IH]; [done|]. intros kept H. apply IH, keep_key_drawn, H. Qed.

Lemma sorted_keys_spec {A} (m : gmap string A) : NoDup (sorted_keys m) /\ length (sorted_keys m) = size m /\ forall k, k ∈ sorted_keys m -> is_Some (m !! k).
Proof.
  unfold sorted_keys. rewrite (SliceStable_perm str_before). split_and!; [apply NoDup_fst_map_to_list| |].
  - by rewrite length_fmap, length_map_to_list.
  - intros k. rewrite (SliceStable_perm str_before). intros (e & -> & He)%list_elem_of_fmap. destruct e as [k v].
    apply elem_of_map_to_list in He. by exists v.
Qed.

Lemma first_keys_size {A} (m : gmap string A) n :
  (n <= size m)%nat -> size (filter (fun e => e.1 ∈ take n (sorted_keys m)) m) = n.
Proof.
  intros Hn. destruct (sorted_keys_spec m) as (Hnd & Hl & Hin). rewrite <- (size_dom (D := gset string)).
  assert (Hd : dom (filter (fun e => e.1 ∈ take n (sorted_keys m)) m) = (list_to_set (take n (sorted_keys m)) : gset string)).
  { apply set_eq. intros k. rewrite elem_of_dom, elem_of_list_to_set. split.
    - intros [v Hv]. by apply map_lookup_filter_Some in Hv as [_ Hv].
    - intros Hk. destruct (Hin k) as [v Hv]; [by apply (subseteq_take n)|]. exists v. by apply map_lookup_filter_Some. }
  rewrite Hd, size_list_to_set; [rewrite length_take; lia|]. apply (sublist_NoDup _ _ Hnd), sublist_take.
Qed.

(** C38: The context kept with a decision is bounded. Whatever the caller sends, at most
    ten pairs are stored (exactly ten when the answer says it truncated), each key is
    one to thirty-two bytes of [a-z0-9_] and each value at most 256 bytes, and each
    pair is the canonical form of a string entry of the request that the allowlist
    admits. *)
Theorem context_bounded (raw : gmap string value) (allowlist : list string) :
  let '(ctx, truncated) := canonicalizeRequestContext raw allowlist in
  (size ctx <= maxContextKeys)%nat /\ (truncated = true -> size ctx = maxContextKeys) /\
  forall k v, ctx !! k = Some v ->
    (1 <= len k <= maxContextKeyLen)%nat /\ Forall key_byte (bytes k) /\ (len v <= maxContextValueLen)%nat /\ drawn_from raw allowlist k v.
Proof.
  unfold canonicalizeRequestContext. set (kept := fold_left _ _ _).
  assert (Hk : map_Forall (drawn_from raw allowlist) kept) by (apply kept_drawn, map_Forall_empty).
  assert (Hpair : forall k v, kept !! k = Some v ->
    (1 <= len k <= maxContextKeyLen)%nat /\ Forall key_byte (bytes k) /\ (len v <= maxContextValueLen)%nat /\ drawn_from raw allowlist k v).
  { intros k v Hv. pose proof (Hk k v Hv) as Hd. destruct Hd as (k0 & s & _ & _ & <- & Hne & <-).
    destruct (canonicalContextKey_spec k0) as [Hl Hb]. split_and!; try done.
    - destruct (canonicalContextKey k0); [done|]. rewrite len_cons. lia.
    - unfold sanitizeContextValue. rewrite len_of_bytes. apply bounded_runes_length. cbn. lia.
    - exact (Hk _ _ Hv). }
  destruct (Nat.leb_spec (size kept) maxContextKeys) as [Hs|Hs]; [done|].
  pose proof (first_keys_size kept maxContextKeys ltac:(lia)) as Hsize.
  rewrite Hsize. split_and!; [done|done|]. intros k v Hv. apply Hpair. by apply map_lookup_filter_Some in Hv as [Hv _].
Qed.
End RequestContext.

(** * Duties at the enforcement point *)

(** A duty as the client of PolicyClients.v decodes it: the same field names. *)
Definition on_the_wire (o : DecisionObligation) : Pep.Obligation :=
  Pep.mkObligation (ob_Type o) (ob_Detail o)
    ((fun f => Pep.mkFulfillment (of_Endpoint f) (of_Method f) (of_Phase f) (of_ContentTypes f)) <$> ob_Fulfillment o).

(** The decision point withholds exactly the duties the client would act on. *)
Lemma redaction_agreed (obligations : list DecisionObligation) :
  Pep.HasRequestRedaction (on_the_wire <$> obligations) = existsb requiresRequestBodyRedaction obligations.
Proof.
  induction obligations as [|o l IH]; [done|]. cbn [fmap list_fmap Pep.HasRequestRedaction existsb]. unfold Pep.HasRequestRedaction in IH.
  f_equal; [|exact IH]. unfold requiresRequestBodyRedaction, on_the_wire. cbn. f_equal. by destruct (ob_Fulfillment o).
Qed.

Lemma duty_agreed needed obligations : duty needed obligations -> Pep.HasRequestRedaction (on_the_wire <$> obligations) = needed.
Proof. rewrite redaction_agreed. destruct needed; [intros [detail ->]|intros ->]; done. Qed.

(** * Concrete requests *)

#[local] Existing Instance ascii_unicode.
#[local] Existing Instance demo_format.
#[local] Existing Instance no_print.

(** A quiet world over the database [db], then [db']. *)
Definition demo_world (db db' : policy_db) : World :=
  mkWorld "dec-1" "trace" "" 0 (fun _ => Ok ∅) 0 (fun _ => Ok ∅) (Some db) 0 0 (Some db') 0 0 0 None (fun _ => None) (checkIndonesiaPII id)
    (checkRBIPII id) (Some true) (Some true) 0 0.

Definition demo_post : HttpRequest := mkHttp "POST" "/api/v1/decide" ∅.
Definition demo_auth : AuthResult :=
  mkAuth AuthKindCommunitySaaS (mkClient "cli" "cli" "cli" "acme-org" "acme" [] 0 true "" "") "acme" "acme-org" "cli".
Definition demo_ask (query : string) (capabilities : list string) : DecideRequest :=
  mkDecide "llm" (mkCaller "gw" "" "") (mkTarget "" "" "" "" "") query "" ∅ capabilities.
Definition demo_mode (pii : string) : ModeDetectionConfig :=
  mkMode true pii DetectionActionBlock DetectionActionWarn DetectionActionBlock DetectionActionBlock [] [].
Definition demo_cache (fallback : string) : option detectionOverrideCache :=
  Some (mkOverrideCache {["acme-org" := mkOverrideEntry {[DetectionCategoryObligationFallback := fallback]} 10]} 60 15).
Definition demo_state (engine : option Engine) (fallback : string) : DecideState := mkDecideState engine (demo_cache fallback) [] [] [] [].

Definition demo_decide (db db' : policy_db) (pii fallback : string) (query : string) (capabilities : list string) : decide_reply * DecideState :=
  handleDecide (fun _ => "") (fun _ _ => Err "") (demo_mode pii) (demo_world db db') demo_post demo_auth
    (demo_state (Some (demo_engine db)) fallback) (Some (demo_ask query capabilities)).

(** What an answer shows: the verdict, the types of the duties, the policies. *)
Definition shown (reply : decide_reply) : option (string * list string * list string) :=
  match reply with Decision d => Some (dr_Verdict d, ob_Type <$> dr_Obligations d, dr_EvaluatedPolicies d) | _ => None end.

(** A redaction policy that precedes a blocking one, and a redaction policy of the
    tenant's own. *)
Definition ordered_db : policy_db :=
  mkDB [demo_row "sys_pii_ssn" CategoryPIIUS "\d{3}-\d{2}-\d{4}" (Some ActionLog) None 200;
        demo_row "sys_sqli_drop" CategorySecuritySQLi "DROP" (Some ActionBlock) (Some ActionLog) 100] true false.
Definition custom_db : policy_db :=
  mkDB [demo_row "sys_sqli_drop" CategorySecuritySQLi "DROP" (Some ActionBlock) (Some ActionLog) 100;
        mkTableRow (mkRow "c1" "custom_7f3a" "custom_7f3a" CategoryPIIUS "tenant" "\d{3}-\d{2}-\d{4}" SeverityHigh None None (Some ActionRedact) None
                      true 50 "acme" None 50) false "acme" true] true true.

(** The verdicts on a social security number, as the capabilities and the posture vary,
    and on a blocked statement. *)
Example decide_examples :
  shown (demo_decide demo_db demo_db DetectionActionRedact DetectionActionBlock "ssn 123-45-6789" []).1
    = Some ("allow", ["redact_pii"], ["sys_pii_ssn"]) /\
  shown (demo_decide demo_db demo_db DetectionActionRedact DetectionActionBlock "ssn 123-45-6789" ["request_body_redaction"]).1
    = Some ("allow", ["redact_pii"], ["sys_pii_ssn"]) /\
  shown (demo_decide demo_db demo_db DetectionActionRedact DetectionActionBlock "ssn 123-45-6789" ["headers"]).1
    = Some ("deny", [], ["sys_pii_ssn"]) /\
  shown (demo_decide demo_db demo_db DetectionActionRedact DetectionActionLog "ssn 123-45-6789" ["headers"]).1
    = Some ("allow", [], ["sys_pii_ssn"]) /\
  shown (demo_decide demo_db demo_db DetectionActionRedact DetectionActionLog "DROP 123-45-6789" []).1
    = Some ("deny", [], ["sys_sqli_drop"]) /\
  shown (demo_decide (down demo_db) (down demo_db) DetectionActionRedact DetectionActionLog "hello" []).1 = Some ("deny", [], []).
Proof. vm_compute. by split_and!. Qed.

(** The detectors of the community build: a NIK and an Aadhaar number are refused or
    become a duty as the posture says; the Aadhaar number before an age passes. *)
Example regional_identifiers :
  let verdict pii query := shown (demo_decide demo_db demo_db pii DetectionActionLog query []).1 in
  verdict DetectionActionBlock "NIK 3174012509900001" = Some ("deny", [], ["indonesia_pii_protection"]) /\
  verdict DetectionActionRedact "NIK 3174012509900001" = Some ("allow", ["redact_pii"], []) /\
  verdict DetectionActionBlock "aadhaar 2345 6789 0123" = Some ("deny", [], ["rbi_pii_protection"]) /\
  verdict DetectionActionBlock "aadhaar 2345 6789 0123 25 years" = Some ("allow", [], []).
Proof. vm_compute. by split_and!. Qed.

(** A database that fails at the load of the categories and answers at the next: the
    number is not scanned for, and the request passes without a duty. *)
Example categories_load_failure_passes :
  shown (demo_decide (down demo_db) demo_db DetectionActionRedact DetectionActionLog "ssn 123-45-6789" []).1 = Some ("allow", [], []).
Proof. vm_compute. reflexivity. Qed.

(** The answer names the blocking policy first; the signed entry names the last. *)
Example signed_trigger_misnamed :
  let '(reply, st) := demo_decide ordered_db ordered_db DetectionActionRedact DetectionActionLog "DROP 123-45-6789" [] in
  shown reply = Some ("deny", [], ["sys_sqli_drop"; "sys_pii_ssn"]) /\ de_PolicyTriggered <$> st_signed st = ["sys_pii_ssn"].
Proof. vm_compute. by split. Qed.

(** A denial by the fallback posture labels the metric with the tenant's own policy. *)
Example fallback_deny_labels_custom_policy :
  let '(reply, st) := demo_decide custom_db custom_db DetectionActionRedact DetectionActionBlock "ssn 123-45-6789" ["headers"] in
  shown reply = Some ("deny", [], ["custom_7f3a"]) /\ MBlock "custom_7f3a" "gateway" ∈ st_metrics st.
Proof. vm_compute. split; [done|]. by repeat constructor. Qed.

(** The settled request of [demo_ask]. *)
Definition demo_settled (query : string) (capabilities : list string) : Settled :=
  match settle (fun _ => "") (fun _ _ => Err "") (demo_world demo_db demo_db) demo_post demo_auth (demo_state None "log") (demo_ask query capabilities) with
  | inr s => s
  | inl _ => mkSettled (demo_ask query capabilities) "" "" "" "" "" (service_user "" "" "") ∅ false (initial_audit (fun _ => "") (demo_world demo_db demo_db) demo_post demo_auth "")
  end.

Lemma demo_settles db db' st query capabilities :
  query <> "" ->
  settle (fun _ => "") (fun _ _ => Err "") (demo_world db db') demo_post demo_auth st (demo_ask query capabilities) = inr (demo_settled query capabilities).
Proof. intros Hq. destruct query as [|a query]; [done|]. reflexivity. Qed.

Lemma decide_exact_witness :
  exists d st', demo_decide demo_db demo_db DetectionActionRedact DetectionActionBlock "ssn 123-45-6789" ["headers"] = (Decision d, st') /\ dr_Verdict d = VerdictDeny.
Proof.
  destruct (decide_exact (fun _ => "") (fun _ _ => Err "") (demo_mode DetectionActionRedact) (demo_world demo_db demo_db) demo_post demo_auth
              (demo_state (Some (demo_engine demo_db)) DetectionActionBlock) (demo_ask "ssn 123-45-6789" ["headers"])
              (demo_settled "ssn 123-45-6789" ["headers"]) eq_refl (demo_settles _ _ _ "ssn 123-45-6789" ["headers"] ltac:(discriminate))) as (d & st' & E & Hv & _).
  exists d, st'. split; [exact E|]. rewrite Hv. vm_compute. reflexivity.
Defined.

Lemma decisions_audited_witness :
  exists org tenant verdict obligations,
    recorded (demo_world demo_db demo_db) (demo_state (Some (demo_engine demo_db)) "log")
      (demo_decide demo_db demo_db DetectionActionRedact "log" "hello" []).2 org tenant verdict obligations /\ org = "acme-org" /\ tenant = "acme".
Proof.
  pose proof (decisions_audited (fun _ => "") (fun _ _ => Err "") (demo_mode DetectionActionRedact) (demo_world demo_db demo_db) demo_post demo_auth
                (demo_state (Some (demo_engine demo_db)) "log") (Some (demo_ask "hello" [])) eq_refl eq_refl ltac:(discriminate)) as H.
  unfold demo_decide. destruct (handleDecide _ _ _ _ _ _ _ _) as [reply st'].
  destruct H as (org & tenant & verdict & obligations & Hr & Ht & _). exists org, tenant, verdict, obligations.
  destruct (Ht eq_refl) as [-> ->]. split; [exact Hr|]. split; reflexivity.
Defined.

