(* ===== verification/McpCheck.v ===== *)
(** The request gate of the MCP plane, src/platform/agent/mcp_handler.go
    (mcpCheckInputHandler, evaluateInputPolicies, redactInputStatement, maskJSONSafe)
    with governance_metadata.go, mcp_richer_context.go and
    request_redaction_detector.go: POST /api/v1/mcp/check-input, the endpoint a
    redaction duty of the decision point names.

    The authenticator's answer, the daily cap, the verdict of the dynamic policies,
    fresh ids, the bytes an answer is written as and the state of the databases at
    each access are a [CheckWorld]. Once the caller is known the handler runs under the
    Idempotency-Key wrapper (Idempotency.v); latencies and the span of a decision are
    left out. *)

From stdpp Require Import gmap.
From S2P Require Import Prelude Idempotency GoStrings GoStrconv GoTime GoFmt GoHttp GoSha256 GoJSON PolicyTypes Evaluator PolicyCache Loader Metrics Redactor Engine DecisionChain Egress Identity AgentAuth DynGate OverrideApi PolicyClients Detection ReadOnly Decide.

Local Open Scope Z_scope.

(** * Governance metadata *)

Record governanceMetadataExemption := mkExemption { gx_exemptFields : list string; gx_requireFields : list string }.

Definition governanceMetadataExemptions (tool : string) : option governanceMetadataExemption :=
  if str_eqb tool "create_override" then Some (mkExemption ["override_reason"] ["policy_id"; "policy_type"]) else None.

Definition governedToolName (connectorType : string) : string :=
  match LastIndex connectorType "__" with
  | Some i => slice connectorType (i + 2) (len connectorType)
  | None => match LastIndex connectorType "." with Some i => slice connectorType (S i) (len connectorType) | None => connectorType end
  end.

(** The keys of an object in the order of the text, repetitions included: the member
    at the head of [l], then the rest. *)
Fixpoint member_keys (fuel : nat) (l : list Z) : list string :=
  match fuel with
  | O => []
  | S f =>
      match skip_ws l with
      | 34 :: rest =>
          match p_json_string f rest with
          | Some (k, t) =>
              of_bytes k ::
              match skip_ws t with
              | 58 :: rest =>
                  match p_value f rest with
                  | Some (_, t) => match skip_ws t with 44 :: rest => member_keys f rest | _ => [] end
                  | None => []
                  end
              | _ => []
              end
          | None => []
          end
      | _ => []
      end
  end.

Definition hasDuplicateTopLevelKey (statement : string) : bool :=
  match skip_ws (bytes statement) with
  | 123 :: rest => negb (bool_decide (NoDup (member_keys (2 * len statement + 4) rest)))
  | _ => false
  end.

(** Numbers of a document decoded without UseNumber; an overflow is an error. *)
Fixpoint floats (v : value) : option value :=
  match v with
  | VNumber lit => match ParseFloat lit with (f, true) => Some (VFloat f) | _ => None end
  | VArr l => VArr <$> seq_options (map floats l)
  | VObj m => VObj <$> seq_options (map (fun e => v' ← floats e.2; Some (e.1, v')) m)
  | _ => Some v
  end.

Definition has_key (k : string) (m : list (string * value)) : bool := existsb (fun e => str_eqb e.1 k) m.
Definition drop_key (m : list (string * value)) (k : string) : list (string * value) := List.filter (fun e => negb (str_eqb e.1 k)) m.

Section Statement.
Context `{U : Unicode} `{F : GoFormat}.

(** The statement to evaluate, and the fields taken out of it. *)
Definition stripGovernanceMetadata (connectorType statement : string) : string * list string :=
  match governanceMetadataExemptions (governedToolName connectorType) with
  | None => (statement, [])
  | Some ex =>
      match json_decode statement ≫= floats with
      | Some (VObj obj) =>
          if negb (forallb (fun f => has_key f obj) (gx_requireFields ex)) || hasDuplicateTopLevelKey statement then (statement, [])
          else
            match List.filter (fun f => has_key f obj) (gx_exemptFields ex) with
            | [] => (statement, [])
            | stripped =>
                match json_encode false (VObj (fold_left drop_key stripped obj)) with
                | Some out => (out, stripped)
                | None => (statement, [])
                end
            end
      | _ => (statement, [])
      end
  end.

(** * Masking *)

(** The leaves of a document, masked; whether one changed. *)
Fixpoint mask_leaves (masker : string -> string * bool) (v : value) : value * bool :=
  match v with
  | VObj m => let r := map (fun e => let '(v', c) := mask_leaves masker e.2 in ((e.1, v'), c)) m in (VObj (fst <$> r), existsb snd r)
  | VArr l => let r := map (mask_leaves masker) l in (VArr (fst <$> r), existsb snd r)
  | VString s => match masker s with (m, true) => (VString m, true) | _ => (v, false) end
  | VNumber lit => match masker lit with (m, true) => (VString m, true) | _ => (v, false) end
  | _ => (v, false)
  end.

Definition maskJSONSafe (s : string) (masker : string -> string * bool) : string * bool :=
  match json_decode s with
  | None => masker s
  | Some root =>
      let '(root', changed) := mask_leaves masker root in
      if negb changed then match masker s with (flat, true) => (flat, true) | _ => (s, false) end
      else match json_encode false root' with
           | None => masker s
           | Some out => match masker out with (_, true) => ((masker s).1, true) | _ => (out, true) end
           end
  end.
End Statement.

(** * Policies and overrides of a block *)

Record RicherPolicyMatch := mkRicher { rm_PolicyID : string; rm_PolicyName : string; rm_RiskLevel : string; rm_AllowOverride : bool; rm_Version : Z }.

(** The policy tables at the time of the look-ups, which statements fail, the clock of
    the database, and the version column by row id. *)
Record PolicyTables := mkTables { pt_store : OverrideStore; pt_faults : Faults; pt_now : Z; pt_version : string -> Z }.

Definition critical : string := "critical".

(** The first row with a slug in a scope. *)
Definition by_slug (t : PolicyTables) (scope slug : string) : lookup PolicyRow :=
  scoped (pt_faults t) scope
    match find_first (fun p => str_eqb (pp_slug p) slug) (visible_policies (pt_store t) scope (os_static (pt_store t))) with
    | Some p => Found p
    | None => NoRows
    end.

(** The scope of the caller, then the shared one. *)
Definition two_scopes (t : PolicyTables) (scopeOrg slug : string) : lookup PolicyRow :=
  match by_slug t scopeOrg slug with
  | NoRows => if str_eqb scopeOrg GlobalTenantSentinel then NoRows else by_slug t GlobalTenantSentinel slug
  | l => l
  end.

(** Outside a scope every row is read, but none under row-level security. *)
Definition unscoped (t : PolicyTables) (slug : string) : lookup PolicyRow :=
  if ft_policies (pt_faults t) then QueryError
  else match find_first (fun p => str_eqb (pp_slug p) slug) (if os_rls (pt_store t) then [] else os_static (pt_store t)) with
       | Some p => Found p
       | None => NoRows
       end.

(** Risk, whether it can be overridden, version. *)
Definition lookupPolicyMeta (t : PolicyTables) (scopeOrg policyID : string) : option (string * bool * Z) :=
  match (if str_eqb scopeOrg "" then unscoped t policyID else two_scopes t scopeOrg policyID) with
  | Found p => Some (default "" (pp_risk_level p), default false (pp_allow_override p), pt_version t (pp_id p))
  | NoRows => Some ("", false, 0)
  | QueryError => None
  end.

Definition live_override (now : Z) (tenantID userEmail policyUUID : string) (r : OverrideRow) : bool :=
  str_eqb (ov_policy_id r) policyUUID && bool_decide (ov_created_by r = Some userEmail) &&
  (match ov_tenant_id r with Some t => str_eqb t tenantID | None => true end) &&
  (match ov_revoked_at r with None => true | Some _ => false end) &&
  (match ov_expires_at r with None => true | Some t => now <? t end).

Definition newest (a b : OverrideRow) : bool := ov_created_at b <? ov_created_at a.

(** [None] is an error. *)
Definition lookupActiveOverride (t : PolicyTables) (ctxOrg tenantID userEmail slug : string) : option (option string) :=
  let scopeOrg := or_default ctxOrg tenantID in
  if str_eqb scopeOrg "" then Some None
  else match two_scopes t scopeOrg slug with
       | NoRows => Some None
       | QueryError => None
       | Found p =>
           if ft_overrides (pt_faults t) then None
           else
             let visible := List.filter (fun r => negb (os_rls (pt_store t)) || str_eqb (ov_org_id r) scopeOrg) (ar_row <$> os_overrides (pt_store t)) in
             Some (ov_id <$> head (SliceStable newest (List.filter (live_override (pt_now t) tenantID userEmail (pp_id p)) visible)))
       end.

Definition overridable (m : RicherPolicyMatch) : bool := negb (str_eqb (rm_RiskLevel m) critical) && rm_AllowOverride m.

Section Richer.
Context `{U : Unicode}.
Context (getenv : string -> string).

Definition richer_match (t : PolicyTables) (scopeOrg : string) (m : PolicyMatch) : RicherPolicyMatch :=
  match lookupPolicyMeta t scopeOrg (m_PolicyID m) with
  | None => mkRicher (m_PolicyID m) (m_PolicyName m) "" false 0
  | Some (risk, allow, version) => mkRicher (m_PolicyID m) (m_PolicyName m) risk allow version
  end.

(** The top risk and the first overridable policy; a failed look-up is passed over. *)
Fixpoint top_risk (t : PolicyTables) (scopeOrg : string) (matched : list PolicyMatch) (top first : string) : string * string :=
  match matched with
  | [] => (top, first)
  | m :: rest =>
      match lookupPolicyMeta t scopeOrg (m_PolicyID m) with
      | None => top_risk t scopeOrg rest top first
      | Some (risk, allow, _) =>
          let over := allow && negb (str_eqb risk critical) in
          if str_eqb top "" || (str_eqb first "" && over)
          then top_risk t scopeOrg rest risk (if over then m_PolicyID m else first)
          else top_risk t scopeOrg rest top first
      end
  end.

Definition buildRicherCheckInputBlock (tables : option PolicyTables) (ctxOrg tenantID userEmail : string) (matched : list PolicyMatch)
  : list RicherPolicyMatch * string * option bool * string :=
  match tables, matched with
  | None, _ | _, [] => ([], "", None, "")
  | Some t, _ =>
      let scopeOrg := or_default ctxOrg tenantID in
      let matches := richer_match t scopeOrg <$> matched in
      let '(top, first) := top_risk t scopeOrg matched "" "" in
      if str_eqb first "" || str_eqb userEmail "" || isClientSharedPseudoIdentity getenv userEmail then (matches, top, None, "")
      else match lookupActiveOverride t ctxOrg tenantID userEmail first with
           | None => (matches, top, Some false, "")
           | Some id => (matches, top, Some true, default "" id)
           end
  end.

(** The first match with a live override. *)
Fixpoint first_override (t : PolicyTables) (ctxOrg tenantID userEmail : string) (matches : list RicherPolicyMatch) : option (string * RicherPolicyMatch) :=
  match matches with
  | [] => None
  | m :: rest =>
      if negb (overridable m) then first_override t ctxOrg tenantID userEmail rest
      else match lookupActiveOverride t ctxOrg tenantID userEmail (rm_PolicyID m) with
           | Some (Some id) => Some (id, m)
           | _ => first_override t ctxOrg tenantID userEmail rest
           end
  end.

Definition applyOverrideToCheckInputBlock (tables : option PolicyTables) (ctxOrg tenantID userEmail : string) (matches : list RicherPolicyMatch)
  : option (string * RicherPolicyMatch) :=
  match tables with
  | None => None
  | Some t => if str_eqb userEmail "" || isClientSharedPseudoIdentity getenv userEmail then None else first_override t ctxOrg tenantID userEmail matches
  end.
End Richer.

(** * The contract *)

Record MCPCheckInputRequest := mkCheckIn {
  ck_ClientID : string; ck_UserToken : string; ck_TenantID : string; ck_UserID : string; ck_UserRole : string; ck_ConnectorType : string;
  ck_Tool : string; ck_Statement : string; ck_Parameters : list (string * value); ck_Operation : string; ck_ContentType : string }.

Record MCPCheckInputResponse := mkCheckInResp {
  ci_Allowed : bool; ci_BlockReason : string; ci_PoliciesEvaluated : nat; ci_PolicyInfo : option PolicyInfo;
  ci_DynamicInfo : option DynEval.DynamicPolicyInfo;          (** nested in the policy info *)
  ci_DecisionID : string; ci_RiskLevel : string; ci_PolicyMatches : list RicherPolicyMatch; ci_OverrideAvailable : option bool;
  ci_OverrideExistingID : string; ci_Redacted : bool; ci_RedactedStatement : string; ci_RedactionEvaluated : bool }.

(** An entry of mcp_query_audits. *)
Record MCPQueryAuditEntry := mkSatellite {
  sa_AuditID : string; sa_ConnectorName : string; sa_Operation : string; sa_TenantID : string; sa_OrgID : string; sa_UserID : string;
  sa_StatementHash : string; sa_ParametersHash : string; sa_ParameterCount : nat; sa_DecisionID : string; sa_RequestBlocked : bool;
  sa_RequestBlockReason : string; sa_RequestPoliciesEvaluated : nat; sa_RequestMatchedPolicies : list string;
  sa_PolicyVersions : gmap string Z; sa_ResponseRedacted : bool; sa_ResponseRedactedFields : list string; sa_Success : bool }.

Inductive check_reply :=
| CheckError (status : Z) (msg retryAfter : string)
| Capped                                                       (** the answer of the daily cap *)
| CheckAnswer (status : Z) (r : MCPCheckInputResponse)
| CheckKeyed (r : ClientResponse).                             (** of the wrapper: a replay, or a key it refuses *)

Record InputPolicyOutcome := mkOutcome {
  io_EvalUnavailable : bool; io_DynamicBlocked : bool; io_DynamicBlockReason : string; io_DynamicInfo : option DynEval.DynamicPolicyInfo;
  io_StaticResult : option RequestResult }.

Record CheckState := mkCheckState { cs_state : DecideState; cs_satellite : list MCPQueryAuditEntry; cs_idem : IdemStore }.

(** The database at one access of the engine, with the times of the access. *)
Record Access := mkAccess { ac_db : option policy_db; ac_t0 : Z; ac_t1 : Z }.

Record CheckWorld := mkCheckWorld {
  cw_world : World;                                            (** of the evaluation and the records; its decision id is the answer's *)
  cw_earlyID : string; cw_auditID : string;
  cw_capped : bool;
  cw_dynamic : option (result string DynEval.DynamicPolicyResponse * DynEval.DynamicPolicyInfo);   (** no evaluator for the connector: [None] *)
  cw_tables : option PolicyTables;                             (** at the look-ups of a block *)
  cw_mcp_now : Z; cw_mcp_read : string -> result string org_overrides;      (** the postures of the redaction *)
  cw_gw_now : Z; cw_gw_read : string -> result string org_overrides;
  cw_loadable : Access; cw_categories : Access; cw_response : Access; cw_ms : Z;
  cw_indonesia : string -> string * bool;                      (** redactIndonesiaPIIInString *)
  cw_idem0 : Z; cw_idem1 : Z;                                  (** the times of the wrapper's look-up and store *)
  cw_render : check_reply -> list writer_call }.               (** the calls that write an answer *)

(** * Evaluation and redaction *)

Section CheckInput.
Context `{U : Unicode} `{PT : UnicodePrint} `{F : GoFormat} `{UC : UnicodeCase}.
Context (ord : nat -> string -> pattern_map -> pattern_map).
Context (getenv : string -> string) (validateUserToken : string -> string -> result string User).
Context (mcp_global gw_global : ModeDetectionConfig) (cw : CheckWorld).
Local Abbreviation w := (cw_world cw).

Definition evaluateInputPolicies (engine : option Engine) (tenantID orgID userID connectorName toolIdentity statement : string)
    (parameters : list (string * value)) (cfg : ModeDetectionConfig) : InputPolicyOutcome * option Engine :=
  let static info :=
    let '(r, e) := evaluate_static w engine tenantID orgID userID connectorName toolIdentity statement parameters cfg in
    (mkOutcome false false "" info r, e) in
  match cw_dynamic cw with
  | None => static None
  | Some (Err _, info) => (mkOutcome true false "" (Some info) None, engine)
  | Some (Ok resp, info) =>
      if negb (DynEval.dn_Allowed resp) then (mkOutcome false true (DynEval.dn_BlockReason resp) (Some info) None, engine) else static (Some info)
  end.

Definition statement_rows (s : string) : value := VRows [[("statement", VString s)]].

(** The statement of a redacted response, when it changed. *)
Definition masked_statement (res : ResponseResult) (working : string) : string * bool :=
  if negb (rs_Redacted res) then (working, false)
  else match rs_Content res with
       | VRows (row :: _) =>
           match find_first (fun e => str_eqb e.1 "statement") row with
           | Some (_, VString out) => if str_eqb out working then (working, false) else (out, true)
           | _ => (working, false)
           end
       | _ => (working, false)
       end.

Definition redaction_options (tenantID ctxOrg userID connectorName : string) (cats : list string) (cfg : ModeDetectionConfig) : EvalOptions :=
  mkOptions tenantID "" (OrgScopePtr ctxOrg) userID connectorName [] "" cats (md_SkipCategories cfg) (BuildActionOverrides cfg) 100.

(** The engine's pass over a statement. *)
Definition engine_pass (e : Engine) (tenantID ctxOrg userID connectorName statement : string) (cfg : ModeDetectionConfig) : string * bool * Engine :=
  let '(cats, e) := EnabledPIICategories (with_db e (ac_db (cw_categories cw))) (ac_t0 (cw_categories cw)) (ac_t1 (cw_categories cw))
                      tenantID (OrgScopePtr ctxOrg) PhaseRequest in
  match cats with
  | [] => (statement, false, e)
  | _ =>
      let '(res, e) := EvaluateResponse ord (with_db e (ac_db (cw_response cw))) (ac_t0 (cw_response cw)) (ac_t1 (cw_response cw)) (cw_ms cw)
                         (statement_rows statement) (redaction_options tenantID ctxOrg userID connectorName cats cfg) in
      (masked_statement res statement, e)
  end.

(** (masked, redacted, evaluated) *)
Definition redactInputStatement (st : DecideState) (ctxOrg tenantID userID connectorName statement : string) : string * bool * bool * DecideState :=
  let '(mcpCfg, overrides) := applyOrgDetectionOverrides (st_overrides st) (cw_mcp_now cw) (cw_mcp_read cw ctxOrg) ctxOrg mcp_global in
  let '(gwCfg, overrides) := applyOrgDetectionOverrides overrides (cw_gw_now cw) (cw_gw_read cw ctxOrg) ctxOrg gw_global in
  let st := with_overrides st overrides in
  let effective := if negb (md_Enabled mcpCfg) && md_Enabled gwCfg then gwCfg else mcpCfg in
  match st_engine st with
  | None => ("", false, false, st)
  | Some e =>
      if negb (md_Enabled mcpCfg) && negb (md_Enabled gwCfg) then ("", false, false, st)
      else if str_eqb statement "" then ("", false, true, st)
      else
        match PoliciesLoadable (with_db e (ac_db (cw_loadable cw))) (ac_t0 (cw_loadable cw)) (ac_t1 (cw_loadable cw)) tenantID (OrgScopePtr ctxOrg) PhaseRequest with
        | (Some _, e) => ("", false, false, with_engine st (Some e))
        | (None, e) =>
            let '(working, masked, e) := engine_pass e tenantID ctxOrg userID connectorName statement effective in
            let '(out, changed) := maskJSONSafe working (cw_indonesia cw) in
            let working := if changed then out else working in
            (if masked || changed then (working, true, true) else ("", false, true), with_engine st (Some e))
        end
  end.

(** * Records *)

Definition user_id_column (userIDStr : string) : Z := let '(n, ok) := Atoi userIDStr in if ok then n else 0.

Definition tool_details (toolServer toolName : string) : list (string * value) := optional_detail "tool_server" toolServer ++ optional_detail "tool_name" toolName.

(** A row of the MCP plane, unless there is no database or no decision id. *)
Definition insert_row (st : DecideState) (decisionID : string) (row : AuditRow) : DecideState :=
  match w_audit w with Some true => if str_eqb decisionID "" then st else with_row st row | _ => st end.

Definition PlaneMCP : string := "mcp".
Definition mcpUnauthenticatedTenant : string := "unauthenticated".

Definition writeMCPDecisionAudit (sessionID : string) (st : DecideState) (decisionID requestID tenantID orgID clientID userEmail userIDStr userRole
    requestType query queryHash policyDecision : string) (policyIDs reasons redactedFields : list string) (correlationID toolServer toolName : string) : DecideState :=
  let details :=
    [("decision_id", VString decisionID); ("source", VString "mcp_decision"); ("policy_ids", strings policyIDs); ("reasons", strings reasons)]
    ++ match reasons with [] => [] | _ => [("reason", VString (String.concat "; " reasons))] end
    ++ match redactedFields with [] => [] | _ => [("redacted_fields", strings redactedFields)] end
    ++ optional_detail "correlation_id" correlationID ++ tool_details toolServer toolName in
  insert_row st decisionID
    (mkAuditRow ("audit_mcp_" +:+ decisionID) (or_default requestID decisionID) (user_id_column userIDStr) (or_default userEmail "unknown@axonflow.local")
       (or_default userRole "unknown") (or_default clientID "unknown") (or_default tenantID "unknown") orgID requestType
       (or_default query "(empty)") (or_default queryHash "none") policyDecision details decisionID PlaneMCP [] correlationID redactedFields sessionID).

Definition policy_versions (matches : list RicherPolicyMatch) : gmap string Z :=
  fold_left (fun m r => if negb (str_eqb (rm_PolicyID r) "") && (0 <? rm_Version r) then <[rm_PolicyID r := rm_Version r]> m else m) matches ∅.

Definition match_value (m : RicherPolicyMatch) : value :=
  VObj ([("policy_id", VString (rm_PolicyID m))] ++ optional_detail "policy_name" (rm_PolicyName m) ++ optional_detail "risk_level" (rm_RiskLevel m)
        ++ [("allow_override", VBool (rm_AllowOverride m))] ++ if rm_Version m =? 0 then [] else [("policy_version", VInt (rm_Version m))]).

Definition writeExplainableAuditLog (sessionID : string) (st : DecideState) (decisionID requestID tenantID orgID clientID userEmail userIDStr userRole
    requestType statement statementHash blockReason topRisk : string) (matches : list RicherPolicyMatch) (correlationID toolServer toolName : string) : DecideState :=
  let versions := policy_versions matches in
  let details :=
    [("decision_id", VString decisionID); ("reason", VString blockReason); ("risk_level", VString topRisk);
     ("policy_names", strings (rm_PolicyName <$> matches)); ("policy_matches", VArr (match_value <$> matches))]
    ++ (if bool_decide (versions = ∅) then [] else [("policy_versions", VObj ((fun e => (e.1, VInt e.2)) <$> map_to_list versions))])
    ++ optional_detail "correlation_id" correlationID ++ tool_details toolServer toolName in
  insert_row st decisionID
    (mkAuditRow ("audit_" +:+ decisionID) requestID (user_id_column userIDStr) (or_default userEmail "unknown@axonflow.local")
       (or_default userRole "unknown") (or_default clientID "unknown") (or_default tenantID "unknown") orgID requestType
       (or_default statement "(empty statement)") (or_default statementHash "none") AuditVerdictBlocked details decisionID PlaneMCP [] correlationID [] sessionID).

Definition writeOverrideUsedEvent (sessionID : string) (st : DecideState) (overrideID decisionID tenantID orgID clientID userEmail policyID : string)
    (policyVersion : Z) (correlationID : string) : DecideState :=
  if str_eqb overrideID "" then st
  else
    let details :=
      [("decision_id", VString decisionID); ("override_id", VString overrideID); ("event_type", VString "override_used")]
      ++ optional_detail "policy_id" policyID ++ (if 0 <? policyVersion then [("policy_version", VInt policyVersion)] else [])
      ++ optional_detail "correlation_id" correlationID in
    match w_audit w with
    | Some true =>
        with_row st (mkAuditRow ("audit_used_" +:+ decisionID) decisionID 0 (or_default userEmail "unknown@axonflow.local") "user" (or_default clientID "unknown")
                       (or_default tenantID "unknown") orgID "override_used" "override applied" "none" AuditVerdictAllowed details decisionID PlaneMCP []
                       correlationID [] sessionID)
    | _ => st
    end.

Definition extractDynamicPolicyIDs (info : option DynEval.DynamicPolicyInfo) : list string :=
  match info with
  | None => ["dynamic_policy"]
  | Some i => match List.filter (fun id => negb (str_eqb id "")) (DynEval.dm_PolicyID <$> DynEval.di_MatchedPolicies i) with [] => ["dynamic_policy"] | l => l end
  end.

Definition mcpInputDecisionVerdict (outcome : InputPolicyOutcome) (didRedact : bool) : string * list string * list string :=
  if io_DynamicBlocked outcome then (AuditVerdictBlocked, extractDynamicPolicyIDs (io_DynamicInfo outcome), [io_DynamicBlockReason outcome])
  else
    let policyIDs := match io_StaticResult outcome with Some r => m_PolicyID <$> rq_MatchedPolicies r | None => [] end in
    if didRedact then (AuditVerdictRedacted, policyIDs, ["request PII redacted"]) else (AuditVerdictAllowed, policyIDs, []).

(** * The handler *)

Definition computeStatementHash (statement : string) : string := if str_eqb statement "" then "" else sha256_hex statement.
Definition computeParametersHash (params : list (string * value)) : string :=
  match params with [] => "" | _ => match json_encode true (VObj params) with Some data => sha256_hex data | None => "" end end.

(** Content types with a detector: the text one, which an empty type means. *)
Definition requestRedactionDetectorFor (contentType : string) : bool := str_in (or_default contentType contentTypeText) requestRedactionContentTypes.

Definition check_error (msg : string) (status : Z) (st : CheckState) : check_reply * CheckState := (CheckError status msg "", st).
Definition with_state (st : CheckState) (d : DecideState) : CheckState := mkCheckState d (cs_satellite st) (cs_idem st).
(** [logMCPQueryAudit] *)
Definition log_satellite (st : CheckState) (e : MCPQueryAuditEntry) : CheckState := mkCheckState (cs_state st) (cs_satellite st ++ [e]) (cs_idem st).

(** A caller once authenticated. *)
Record Caller := mkCaller_ {
  cc_auth : AuthResult; cc_tenantID : string; cc_orgID : string; cc_ctxOrg : string; cc_userNum : Z; cc_userID : string; cc_userRole : string;
  cc_userEmail : string; cc_session : string; cc_trace : string }.

Definition cc_client (c : Caller) : string := cl_ID (au_Client (cc_auth c)).

Section Answer.
Context (c : Caller) (req : MCPCheckInputRequest).

Local Abbreviation decisionID := (w_decisionID w).
Definition check_descriptor : string := "mcp check-input: " +:+ ck_ConnectorType req.

Definition satellite (blocked : bool) (reason : string) (static : option RequestResult) (versions : gmap string Z) (redacted success : bool)
  : MCPQueryAuditEntry :=
  mkSatellite (cw_auditID cw) (ck_ConnectorType req) "check-input" (cc_tenantID c) (cc_orgID c) (cc_userID c) (computeStatementHash (ck_Statement req))
    (computeParametersHash (ck_Parameters req)) (length (ck_Parameters req)) decisionID blocked reason
    (from_option rq_PoliciesEvaluated 0%nat static) (match static with Some r => m_PolicyID <$> rq_MatchedPolicies r | None => [] end)
    versions redacted (if redacted then ["statement"] else []) success.

Definition mcp_record (st : DecideState) (queryHash verdict : string) (policyIDs reasons redacted : list string) : DecideState :=
  writeMCPDecisionAudit (cc_session c) st decisionID (cw_auditID cw) (cc_tenantID c) (cc_orgID c) (cc_client c) (cc_userEmail c) (cc_userID c)
    (cc_userRole c) "mcp_check_input" check_descriptor queryHash verdict policyIDs reasons redacted (cc_trace c) (ck_ConnectorType req) (ck_Tool req).

Definition emitInputDecision (st : DecideState) (verdict : string) (policyIDs reasons : list string) : DecideState :=
  (recordDecideDecision w (cc_session c) st decisionID (cc_orgID c) (cc_tenantID c) "tool" verdict policyIDs reasons "" ∅ false
     (mkAuditInput (cc_client c) (cc_userEmail c) (cc_userRole c) (cc_userNum c) check_descriptor "" "" PlaneMCP (cc_trace c) [] [] "" "" "" ""
        (ck_ConnectorType req) (ck_Tool req) (cw_auditID cw) [])).2.

Definition plain_block (reason : string) : check_reply :=
  CheckAnswer 403 (mkCheckInResp false reason 0 None None decisionID "" [] None "" false "" false).

(** A static block: lifted by an override of the caller, or recorded and answered. *)
Definition static_block (st : CheckState) (r : RequestResult) : check_reply * CheckState :=
  let '(matches, topRisk, available, existing) :=
    buildRicherCheckInputBlock getenv (cw_tables cw) (cc_ctxOrg c) (cc_tenantID c) (cc_userEmail c) (rq_MatchedPolicies r) in
  let versions := policy_versions matches in
  let st := log_satellite st (satellite true (rq_BlockReason r) (Some r) versions false false) in
  match applyOverrideToCheckInputBlock getenv (cw_tables cw) (cc_ctxOrg c) (cc_tenantID c) (cc_userEmail c) matches with
  | Some (used, m) =>
      let d := writeOverrideUsedEvent (cc_session c) (cs_state st) used decisionID (cc_tenantID c) (cc_orgID c) (cc_client c) (cc_userEmail c)
                 (rm_PolicyID m) (rm_Version m) (cc_trace c) in
      (CheckAnswer 200 (mkCheckInResp true "" (rq_PoliciesEvaluated r) None None decisionID "" [] None used false "" false),
       log_satellite (with_state st d) (satellite false "" (Some r) versions false true))
  | None =>
      let d := writeExplainableAuditLog (cc_session c) (cs_state st) decisionID (cw_auditID cw) (cc_tenantID c) (cc_orgID c) (cc_client c)
                 (cc_userEmail c) (cc_userID c) (cc_userRole c) "mcp_check_input" check_descriptor (computeStatementHash (ck_Statement req))
                 (rq_BlockReason r) topRisk matches (cc_trace c) (ck_ConnectorType req) (ck_Tool req) in
      (CheckAnswer 403 (mkCheckInResp false (rq_BlockReason r) (rq_PoliciesEvaluated r) None None decisionID topRisk matches available existing false "" false),
       with_state st d)
  end.

(** An allowed statement: redacted, recorded and answered. *)
Definition allowed_answer (st : CheckState) (outcome : InputPolicyOutcome) : check_reply * CheckState :=
  let static := io_StaticResult outcome in
  let '(masked, didRedact, evaluated, d) :=
    redactInputStatement (cs_state st) (cc_ctxOrg c) (cc_tenantID c) (cc_userID c) (ck_ConnectorType req) (ck_Statement req) in
  let '(verdict, policyIDs, reasons) := mcpInputDecisionVerdict outcome didRedact in
  let d := if str_eqb verdict AuditVerdictRedacted
           then mcp_record d (computeStatementHash check_descriptor) AuditVerdictRedacted policyIDs reasons ["statement"]
           else emitInputDecision d verdict policyIDs reasons in
  (CheckAnswer 200 (mkCheckInResp true "" (from_option rq_PoliciesEvaluated 0%nat static) (BuildPolicyInfo static None) (io_DynamicInfo outcome)
                      decisionID "" [] None "" didRedact (if didRedact then masked else "") evaluated),
   mkCheckState d (cs_satellite st ++ [satellite false "" static ∅ didRedact true]) (cs_idem st)).

(** What the idempotency wrapper runs. *)
Definition check_input (st : CheckState) : check_reply * CheckState :=
  let operation := or_default (ck_Operation req) "execute" in
  if readOnlyPostureEnabled getenv && match classifyMCPCall (ck_ConnectorType req) (ck_Tool req) operation with mcpAccessWrite => true | _ => false end then
    let reason := "read-only posture active: write-path tool call " +:+ quote (ck_ConnectorType req)
                  +:+ " is blocked; only read-path operations are permitted" in
    (plain_block reason,
     with_state (log_satellite st (satellite true reason None ∅ false false))
       (mcp_record (cs_state st) (computeStatementHash (ck_Statement req)) AuditVerdictBlocked [readOnlyPosturePolicyID] [reason] []))
  else
    let '(cfg, overrides) := applyOrgDetectionOverrides (st_overrides (cs_state st)) (w_now w) (w_read w (cc_orgID c)) (cc_orgID c) mcp_global in
    let '(outcome, engine) :=
      evaluateInputPolicies (st_engine (cs_state st)) (cc_tenantID c) (cc_orgID c) (cc_userID c) (ck_ConnectorType req) (ck_Tool req)
        (ck_Statement req) (ck_Parameters req) cfg in
    let st := with_state st (with_engine (with_overrides (cs_state st) overrides) engine) in
    if io_EvalUnavailable outcome then
      (CheckError 503 "Dynamic policy evaluation unavailable" "",
       with_state (log_satellite st (satellite false "" None ∅ false false))
         (mcp_record (cs_state st) "" AuditVerdictError ["dynamic_policy_unavailable"] ["dynamic policy evaluation unavailable"] []))
    else if io_DynamicBlocked outcome then
      let '(verdict, policyIDs, reasons) := mcpInputDecisionVerdict outcome false in
      (plain_block (io_DynamicBlockReason outcome),
       with_state (log_satellite st (satellite true (io_DynamicBlockReason outcome) None ∅ false false))
         (emitInputDecision (cs_state st) verdict policyIDs reasons))
    else match io_StaticResult outcome with
         | Some r => if rq_Blocked r then static_block st r else allowed_answer st outcome
         | None => allowed_answer st outcome
         end.
End Answer.

(** The row of a refusal before evaluation, under a fresh decision id. *)
Definition refused (st : CheckState) (r : HttpRequest) (req : MCPCheckInputRequest)
    (session tenantID orgID clientID email userID role query policy reason : string) : CheckState :=
  with_state st (writeMCPDecisionAudit session (cs_state st) (cw_earlyID cw) "" tenantID orgID clientID email userID role "mcp_check_input" query ""
                   AuditVerdictBlocked [policy] [reason] [] (traceIDFromHeader (hdr r "traceparent")) (ck_ConnectorType req) (ck_Tool req)).

(** The evaluation under the caller's Idempotency-Key: the response to an earlier
    request with the key is replayed, a malformed key is refused. *)
Definition keyed_check (c : Caller) (req : MCPCheckInputRequest) (header : string) (st : CheckState) : check_reply * CheckState :=
  let handler (s : option check_reply * CheckState) :=
    let '(reply, st') := check_input c req s.2 in (cw_render cw reply, (Some reply, st')) in
  let '(resp, idem, (ran, st')) :=
    Idempotency.Wrap (cw_idem0 cw) (cw_idem1 cw) header (cs_idem st) (or_default (cc_orgID c) (cc_tenantID c)) (cc_tenantID c) "mcp.check-input"
      handler (None, st) in
  (match ran with Some reply => reply | None => CheckKeyed resp end, mkCheckState (cs_state st') (cs_satellite st') idem).

(** With the user resolved. *)
Definition check_user (st : CheckState) (r : HttpRequest) (a : AuthResult) (req : MCPCheckInputRequest) (u : User) : check_reply * CheckState :=
  let session := attributedSessionID getenv r in
  let client := au_Client a in
  if negb (str_eqb (us_TenantID u) (cl_TenantID client)) then
    (CheckError 403 "Tenant mismatch" "",
     refused st r req session (cl_TenantID client) (au_OrgID a) (au_ClientID a) "" "" "service" "mcp check-input: tenant mismatch" "tenant_mismatch"
       "resolved user tenant does not match authenticated client tenant")
  else
    let internal := bool_decide (au_Kind a = AuthKindInternalService) in
    let userID := if internal then or_default (ck_UserID req) (Itoa (us_ID u)) else Itoa (us_ID u) in
    let userRole := if internal then or_default (ck_UserRole req) (us_Role u) else us_Role u in
    let email := attributedUserEmail getenv r (us_Email u) in
    if str_eqb (au_TenantID a) "" then
      (CheckError 400 "tenant_id is required" "",
       refused st r req session "" (au_OrgID a) (au_ClientID a) email userID userRole "mcp check-input: missing tenant scope" "tenant_id_missing"
         "tenant_id is required")
    else keyed_check (mkCaller_ a (au_TenantID a) (au_OrgID a) (cl_OrgID client) (us_ID u) userID userRole email session
                        (traceIDFromHeader (hdr r "traceparent"))) req (hdr r "Idempotency-Key") st.

(** [auth] is the authenticator's answer, asked only for a complete body. *)
Definition mcpCheckInputHandler (st : CheckState) (r : HttpRequest) (auth : result AuthError AuthResult) (body : option MCPCheckInputRequest)
  : check_reply * CheckState :=
  match body with
  | None => check_error "Invalid request body" 400 st
  | Some req =>
      if str_eqb (ck_ConnectorType req) "" then check_error "connector_type is required" 400 st
      else if str_eqb (ck_Statement req) "" then check_error "statement is required" 400 st
      else match auth with
      | Err e =>
          (CheckError (ae_HTTPStatus e) (ae_Message e) (ae_RetryAfter e),
           refused st r req "" mcpUnauthenticatedTenant "" (TrimSpace (ck_ClientID req)) "" "" "service" "mcp check-input: unauthenticated"
             "unauthenticated" ("authentication failed: " +:+ ae_Message e))
      | Ok a =>
          let req := mkCheckIn (ck_ClientID req) (ck_UserToken req) (ck_TenantID req) (ck_UserID req) (ck_UserRole req) (ck_ConnectorType req) (ck_Tool req)
                       (stripGovernanceMetadata (ck_ConnectorType req) (ck_Statement req)).1 (ck_Parameters req) (ck_Operation req) (ck_ContentType req) in
          if negb (requestRedactionDetectorFor (ck_ContentType req)) then
            let reason := "no redaction detector registered for content_type: " +:+ ck_ContentType req in
            (CheckError 415 reason "",
             refused st r req "" (au_TenantID a) (au_OrgID a) (au_ClientID a) "" "" "service" "mcp check-input: unsupported content_type"
               "content_type_unsupported" reason)
          else if cw_capped cw then (Capped, st)
          else match ResolveUser validateUserToken a (ck_UserToken req) with
               | Ok u => check_user st r a req u
               | Err e =>
                   let client := au_Client a in
                   if bool_decide (au_Kind a = AuthKindEnterprise)
                   then check_user st r a req (mkAgentUser 0 (cl_ID client +:+ "@axonflow.local") (cl_Name client) (cl_TenantID client) "service" [] "")
                   else check_error (ae_Message e) (ae_HTTPStatus e) st
               end
      end
  end.
End CheckInput.
