(* ===== verification/McpCheckFacts.v ===== *)
(** What the request gate of McpCheck.v promises: every answer is on record once, an
    override lifts a block exactly when a live one of the caller covers a match, and
    where redaction departs from the decision point that asks for it. *)

From stdpp Require Import gmap.
From S2P Require Import Prelude Idempotency GoStrings GoStrconv GoTime GoFmt GoHttp GoSha256 GoJSON PolicyTypes Evaluator PolicyCache Loader Metrics Redactor Engine EngineFacts DecisionChain Egress Identity AgentAuth DynGate OverrideApi PolicyClients Detection ReadOnly Decide DecideFacts McpCheck.

Local Open Scope Z_scope.

Section Facts.
Context `{U : Unicode} `{PT : UnicodePrint} `{F : GoFormat} `{UC : UnicodeCase}.
Context (ord : nat -> string -> pattern_map -> pattern_map).
Context (getenv : string -> string) (validateUserToken : string -> string -> result string User).
Context (mcp_global gw_global : ModeDetectionConfig) (cw : CheckWorld).
Local Abbreviation w := (cw_world cw).

(** * Overrides *)





Lemma head_elem {A} (l : list A) x : head l = Some x -> x ∈ l.
Proof. destruct l; [done|]. intros [= ->]. left. Qed.














(** * Records *)

(** One row of the MCP plane is added. *)
Definition mcp_recorded (st st' : DecideState) (decisionID orgID tenantID verdict : string) : Prop :=
  exists row, st_audit st' = st_audit st ++ [row] /\ ar_decision_id row = decisionID /\ ar_plane row = PlaneMCP /\
    ar_org_id row = orgID /\ ar_tenant_id row = or_default tenantID "unknown" /\ ar_policy_decision row = verdict.

Definition audits (decisionID : string) : Prop := w_audit w = Some true /\ decisionID <> "".

Lemma insert_row_spec st decisionID row : audits decisionID -> st_audit (insert_row cw st decisionID row) = st_audit st ++ [row].
Proof. intros [Ha Hi]. unfold insert_row. by rewrite Ha, (proj2 (str_eqb_false _ _) Hi). Qed.

Lemma written_mcp session st id req tenant org client email user role rt q qh verdict ps rs red trace server tool :
  audits id -> mcp_recorded st (writeMCPDecisionAudit cw session st id req tenant org client email user role rt q qh verdict ps rs red trace server tool)
                 id org tenant verdict.
Proof. intros Ha. unfold writeMCPDecisionAudit. eexists. rewrite (insert_row_spec st id _ Ha). by split_and!. Qed.

Lemma written_explained session st id req tenant org client email user role rt q qh reason top matches trace server tool :
  audits id -> mcp_recorded st (writeExplainableAuditLog cw session st id req tenant org client email user role rt q qh reason top matches trace server tool)
                 id org tenant AuditVerdictBlocked.
Proof. intros Ha. unfold writeExplainableAuditLog. eexists. rewrite (insert_row_spec st id _ Ha). by split_and!. Qed.

Lemma written_used session st used id tenant org client email policy version trace :
  audits id -> used <> "" ->
  mcp_recorded st (writeOverrideUsedEvent cw session st used id tenant org client email policy version trace) id org tenant AuditVerdictAllowed.
Proof.
  intros [Ha _] Hu. unfold writeOverrideUsedEvent. rewrite Ha, (proj2 (str_eqb_false _ _) Hu). eexists. split; [done|]. by split_and!.
Qed.

Lemma emitted c req st verdict ps rs :
  audits (w_decisionID w) -> mcp_recorded st (emitInputDecision cw c req st verdict ps rs) (w_decisionID w) (cc_orgID c) (cc_tenantID c) verdict.
Proof.
  intros [Ha Hi]. unfold emitInputDecision, recordDecideDecision. cbn [snd]. unfold mcp_recorded. rewrite signed_audit.
  unfold writeDecisionAuditLog. rewrite Ha, (proj2 (str_eqb_false _ _) Hi). eexists. split; [done|]. by split_and!.
Qed.

Lemma redaction_keeps_audit st ctxOrg tenant user connector statement :
  st_audit (redactInputStatement ord mcp_global gw_global cw st ctxOrg tenant user connector statement).2 = st_audit st.
Proof.
  unfold redactInputStatement. destruct (applyOrgDetectionOverrides _ _ _ _ mcp_global) as [mc o1], (applyOrgDetectionOverrides o1 _ _ _ gw_global) as [gc o2].
  destruct (st_engine _) as [e|]; [|done]. destruct (negb (md_Enabled mc) && _); [done|]. destruct (str_eqb statement ""); [done|].
  destruct (PoliciesLoadable _ _ _ _ _ _) as [[err|] e1]; [done|]. destruct (engine_pass _ _ _ _ _ _ _ _ _) as [[wk mk] e2].
  by destruct (maskJSONSafe _ _).
Qed.

(** Overrides have ids. *)
Definition named_overrides : Prop := forall t o, cw_tables cw = Some t -> o ∈ ar_row <$> os_overrides (pt_store t) -> ov_id o <> "".

Lemma first_override_named t ctxOrg tenantID userEmail matches used m :
  cw_tables cw = Some t -> named_overrides -> first_override t ctxOrg tenantID userEmail matches = Some (used, m) -> used <> "".
Proof.
  intros Ht Hn. induction matches as [|m' matches IH]; [done|]. cbn [first_override]. destruct (overridable m'); cbn [negb]; [|done].
  destruct (lookupActiveOverride _ _ _ _ _) as [[id|]|] eqn:El; [|done..]. intros [= <- <-]. unfold lookupActiveOverride in El.
  destruct (str_eqb _ ""); [done|]. destruct (two_scopes _ _ _) as [p| |]; [|done..]. destruct (ft_overrides _); [done|].
  destruct (head _) as [o|] eqn:Eh; [|done]. injection El as <-. apply head_elem in Eh. rewrite (SliceStable_perm newest) in Eh.
  apply (Hn t o Ht). rewrite list_elem_of_In in *. by apply filter_In in Eh as [(Eh & _)%filter_In _].
Qed.

(** What the row of an answer says. *)
Definition verdict_of (reply : check_reply) : string :=
  match reply with
  | CheckAnswer _ r => if ci_Allowed r then if ci_Redacted r then AuditVerdictRedacted else AuditVerdictAllowed else AuditVerdictBlocked
  | CheckError status _ _ => if status =? 503 then AuditVerdictError else AuditVerdictBlocked
  | Capped | CheckKeyed _ => AuditVerdictBlocked
  end.

Lemma static_block_recorded c req st r :
  audits (w_decisionID w) -> named_overrides ->
  let '(reply, st') := static_block getenv cw c req st r in
  mcp_recorded (cs_state st) (cs_state st') (w_decisionID w) (cc_orgID c) (cc_tenantID c) (verdict_of reply).
Proof.
  intros Ha Hn. unfold static_block. destruct (buildRicherCheckInputBlock _ _ _ _ _ _) as [[[matches top] available] existing].
  destruct (applyOverrideToCheckInputBlock _ _ _ _ _ _) as [[used m]|] eqn:Eo.
  - cbn [cs_state log_satellite with_state verdict_of ci_Allowed ci_Redacted]. apply written_used; [done|].
    unfold applyOverrideToCheckInputBlock in Eo. destruct (cw_tables cw) as [t|] eqn:Et; [|done]. destruct (_ || _); [done|].
    by eapply first_override_named.
  - by apply written_explained.
Qed.

Lemma allowed_answer_recorded c req st outcome :
  audits (w_decisionID w) -> io_DynamicBlocked outcome = false ->
  let '(reply, st') := allowed_answer ord mcp_global gw_global cw c req st outcome in
  mcp_recorded (cs_state st) (cs_state st') (w_decisionID w) (cc_orgID c) (cc_tenantID c) (verdict_of reply).
Proof.
  intros Ha Hd. unfold allowed_answer.
  pose proof (redaction_keeps_audit (cs_state st) (cc_ctxOrg c) (cc_tenantID c) (cc_userID c) (ck_ConnectorType req) (ck_Statement req)) as Hk.
  destruct (redactInputStatement _ _ _ _ _ _ _ _ _ _) as [[[masked did] evaluated] d]. cbn [snd] in Hk.
  unfold mcpInputDecisionVerdict. rewrite Hd. unfold mcp_recorded. rewrite <- Hk. destruct did; cbn [verdict_of ci_Allowed ci_Redacted cs_state].
  - rewrite str_eqb_refl. by apply written_mcp.
  - change (str_eqb AuditVerdictAllowed AuditVerdictRedacted) with false. cbv iota. by apply emitted.
Qed.

Lemma check_input_recorded c req st :
  audits (w_decisionID w) -> named_overrides ->
  let '(reply, st') := check_input ord getenv mcp_global gw_global cw c req st in
  mcp_recorded (cs_state st) (cs_state st') (w_decisionID w) (cc_orgID c) (cc_tenantID c) (verdict_of reply) /\ reply <> Capped.
Proof.
  intros Ha Hn. unfold check_input. destruct (readOnlyPostureEnabled getenv && _).
  { split; [|done]. by apply written_mcp. }
  destruct (applyOrgDetectionOverrides _ _ _ _ _) as [cfg overrides]. destruct (evaluateInputPolicies _ _ _ _ _ _ _ _ _ _) as [outcome engine].
  set (st1 := with_state st _). assert (H1 : st_audit (cs_state st1) = st_audit (cs_state st)) by done.
  unfold mcp_recorded. rewrite <- H1. destruct (io_EvalUnavailable outcome).
  { split; [|done]. by apply written_mcp. }
  destruct (io_DynamicBlocked outcome) eqn:Ed.
  { unfold mcpInputDecisionVerdict. rewrite Ed. split; [|done]. by apply emitted. }
  assert (Hs : forall r, let '(reply, st') := static_block getenv cw c req st1 r in
    mcp_recorded (cs_state st1) (cs_state st') (w_decisionID w) (cc_orgID c) (cc_tenantID c) (verdict_of reply) /\ reply <> Capped).
  { intros r. pose proof (static_block_recorded c req st1 r Ha Hn) as Hr. unfold static_block in *.
    destruct (buildRicherCheckInputBlock _ _ _ _ _ _) as [[[matches top] available] existing].
    destruct (applyOverrideToCheckInputBlock _ _ _ _ _ _) as [[used m]|]; by split. }
  assert (Hal : let '(reply, st') := allowed_answer ord mcp_global gw_global cw c req st1 outcome in
    mcp_recorded (cs_state st1) (cs_state st') (w_decisionID w) (cc_orgID c) (cc_tenantID c) (verdict_of reply) /\ reply <> Capped).
  { pose proof (allowed_answer_recorded c req st1 outcome Ha Ed) as Hr. unfold allowed_answer in *.
    destruct (redactInputStatement _ _ _ _ _ _ _ _ _ _) as [[[masked did] evaluated] d].
    destruct (mcpInputDecisionVerdict _ _) as [[v ps] rs]. by split. }
  destruct (io_StaticResult outcome) as [r|]; [|exact Hal]. destruct (rq_Blocked r); [apply Hs|exact Hal].
Qed.

Lemma check_input_decision c req st :
  match (check_input ord getenv mcp_global gw_global cw c req st).1 with CheckAnswer _ a => ci_DecisionID a = w_decisionID w | _ => True end.
Proof.
  unfold check_input. destruct (readOnlyPostureEnabled getenv && _); [done|].
  destruct (applyOrgDetectionOverrides _ _ _ _ _) as [cfg overrides]. destruct (evaluateInputPolicies _ _ _ _ _ _ _ _ _ _) as [outcome engine].
  destruct (io_EvalUnavailable outcome); [done|]. destruct (io_DynamicBlocked outcome) eqn:Ed.
  { unfold mcpInputDecisionVerdict. by rewrite Ed. }
  set (st1 := with_state st _).
  assert (Hal : match (allowed_answer ord mcp_global gw_global cw c req st1 outcome).1 with CheckAnswer _ a => ci_DecisionID a = w_decisionID w | _ => True end).
  { unfold allowed_answer. destruct (redactInputStatement _ _ _ _ _ _ _ _ _ _) as [[[masked did] evaluated] d].
    by destruct (mcpInputDecisionVerdict _ _) as [[v ps] rs]. }
  destruct (io_StaticResult outcome) as [q|]; [|exact Hal]. destruct (rq_Blocked q); [|exact Hal].
  unfold static_block. destruct (buildRicherCheckInputBlock _ _ _ _ _ _) as [[[matches top] available] existing].
  by destruct (applyOverrideToCheckInputBlock _ _ _ _ _ _) as [[used m]|].
Qed.

Lemma check_input_unkeyed c req st :
  match (check_input ord getenv mcp_global gw_global cw c req st).1 with CheckKeyed _ => False | _ => True end.
Proof.
  unfold check_input. destruct (readOnlyPostureEnabled getenv && _); [done|].
  destruct (applyOrgDetectionOverrides _ _ _ _ _) as [cfg overrides]. destruct (evaluateInputPolicies _ _ _ _ _ _ _ _ _ _) as [outcome engine].
  destruct (io_EvalUnavailable outcome); [done|]. destruct (io_DynamicBlocked outcome) eqn:Ed.
  { unfold mcpInputDecisionVerdict. by rewrite Ed. }
  set (st1 := with_state st _).
  assert (Hal : match (allowed_answer ord mcp_global gw_global cw c req st1 outcome).1 with CheckKeyed _ => False | _ => True end).
  { unfold allowed_answer. destruct (redactInputStatement _ _ _ _ _ _ _ _ _ _) as [[[masked did] evaluated] d].
    by destruct (mcpInputDecisionVerdict _ _) as [[v ps] rs]. }
  destruct (io_StaticResult outcome) as [q|]; [|exact Hal]. destruct (rq_Blocked q); [|exact Hal].
  unfold static_block. destruct (buildRicherCheckInputBlock _ _ _ _ _ _) as [[[matches top] available] existing].
  by destruct (applyOverrideToCheckInputBlock _ _ _ _ _ _) as [[used m]|].
Qed.

(** The tenant and the organization of a row. *)
Definition row_scope (auth : result AuthError AuthResult) (org tenant : string) : Prop :=
  match auth with
  | Err _ => org = "" /\ tenant = mcpUnauthenticatedTenant
  | Ok a => org = au_OrgID a /\ (tenant = au_TenantID a \/ tenant = cl_TenantID (au_Client a))
  end.

Lemma only_enterprise_errs a token e : ResolveUser validateUserToken a token = Err e -> au_Kind a = AuthKindEnterprise.
Proof. unfold ResolveUser. by destruct (au_Kind a). Qed.

(** One row, with what the reply says; a caller that is not authenticated is blocked. *)
Definition row_verdict (auth : result AuthError AuthResult) (reply : check_reply) : string :=
  match auth with Ok _ => verdict_of reply | Err _ => AuditVerdictBlocked end.

Definition answered (st : CheckState) (auth : result AuthError AuthResult) (out : check_reply * CheckState) : Prop :=
  exists id org tenant, mcp_recorded (cs_state st) (cs_state out.2) id org tenant (row_verdict auth out.1) /\ row_scope auth org tenant /\ out.1 <> Capped /\
    match out.1 with CheckAnswer _ a => ci_DecisionID a = id | CheckKeyed _ => False | _ => id ∈ [cw_earlyID cw; w_decisionID w] end.

(** The wrapper runs the evaluation: no key, no table of keys, or a well-formed key
    without a response that has not expired. *)
Definition fresh_key (idem : IdemStore) (header tenantID : string) : Prop :=
  let key := TrimSpace header in
  key = "" \/ has_app idem = false \/
  (ValidateKey key = None /\ forall row, rows idem !! (key, tenantID, "mcp.check-input") = Some row -> ExpiresAt row <= cw_idem0 cw).

Lemma keyed_check_runs c req header st :
  fresh_key (cs_idem st) header (cc_tenantID c) ->
  let '(reply, st') := check_input ord getenv mcp_global gw_global cw c req st in
  exists idem, keyed_check ord getenv mcp_global gw_global cw c req header st = (reply, mkCheckState (cs_state st') (cs_satellite st') idem).
Proof.
  intros Hf. destruct (check_input ord getenv mcp_global gw_global cw c req st) as [reply st'] eqn:E.
  unfold keyed_check, Idempotency.Wrap. cbn [snd]. rewrite E. cbn [fst snd]. destruct (_ || _) eqn:Ek; [by eexists|].
  apply orb_false_iff in Ek as [Ek Ha%negb_false_iff]. apply str_eqb_false in Ek. unfold IdemEnabled in Ha.
  destruct Hf as [?|[Hno|[-> Hrow]]]; [done|by rewrite Hno in Ha|].
  destruct (Idempotency.Lookup _ _ _ _ _ _) as [[row|]|] eqn:El; [|by eexists..].
  apply Lookup_some in El as [Hr Ht]. apply Hrow in Hr. lia.
Qed.

Lemma refused_answered st r req auth session tenant org client email user role q policy reason status msg retry :
  audits (cw_earlyID cw) -> row_scope auth org tenant -> (forall a, auth = Ok a -> status <> 503) ->
  answered st auth (CheckError status msg retry, refused cw st r req session tenant org client email user role q policy reason).
Proof.
  intros Ha Hs Hst. exists (cw_earlyID cw), org, tenant. assert (Hv : row_verdict auth (CheckError status msg retry) = AuditVerdictBlocked).
  { destruct auth as [a|e]; [|done]. cbn. by rewrite (proj2 (Z.eqb_neq _ _) (Hst a eq_refl)). }
  cbn [fst snd]. rewrite Hv. split; [by apply written_mcp|]. split; [done|]. split; [done|left].
Qed.

Lemma check_user_answered st r a req u :
  audits (w_decisionID w) -> audits (cw_earlyID cw) -> named_overrides -> fresh_key (cs_idem st) (hdr r "Idempotency-Key") (au_TenantID a) ->
  answered st (Ok a) (check_user ord getenv mcp_global gw_global cw st r a req u).
Proof.
  intros Ha He Hn Hk. unfold check_user. destruct (negb _). { apply refused_answered; [done|split; [done|by right]|done]. }
  cbv zeta. destruct (str_eqb (au_TenantID a) "") eqn:Et.
  { apply str_eqb_true in Et. apply refused_answered; [done|split; [done|by left]|done]. }
  set (c := mkCaller_ _ _ _ _ _ _ _ _ _ _). pose proof (check_input_recorded c req st Ha Hn) as Hr. pose proof (check_input_unkeyed c req st) as Hu.
  pose proof (check_input_decision c req st) as Hd. pose proof (keyed_check_runs c req _ st Hk) as Hw.
  destruct (check_input _ _ _ _ _ _ _ _) as [reply st']. destruct Hr as [Hr Hnc]. destruct Hw as [idem ->].
  exists (w_decisionID w), (au_OrgID a), (au_TenantID a). split; [done|]. split; [split; [done|by left]|]. split; [done|].
  destruct reply; [right; left|done|done|done].
Qed.

(** C33: Every check of a statement is on record. While the audit table accepts rows, a
    complete request that is not stopped by the daily cap and is no retry (it has no
    Idempotency-Key, or a well-formed one without a live response) adds exactly one row,
    whether it is refused at the door, blocked, lifted by an override, redacted,
    allowed, or could not be evaluated: the row says what the answer says, under the
    credential's organization and tenant. A caller that is not authenticated, whatever
    tenant it claims, is recorded as blocked under a tenant of its own and no
    organization. *)
Theorem check_input_audited (st : CheckState) (r : HttpRequest) (auth : result AuthError AuthResult) (req : MCPCheckInputRequest) :
  ck_ConnectorType req <> "" -> ck_Statement req <> "" -> cw_capped cw = false ->
  w_audit w = Some true -> w_decisionID w <> "" -> cw_earlyID cw <> "" -> named_overrides ->
  (forall a, auth = Ok a -> fresh_key (cs_idem st) (hdr r "Idempotency-Key") (au_TenantID a)) ->
  answered st auth (mcpCheckInputHandler ord getenv validateUserToken mcp_global gw_global cw st r auth (Some req)).
Proof.
  intros Hc Hs Hcap Ha Hid Heid Hn Hst. unfold mcpCheckInputHandler. rewrite (proj2 (str_eqb_false _ _) Hc), (proj2 (str_eqb_false _ _) Hs).
  destruct auth as [a|e]; [|by apply refused_answered]. cbv zeta. specialize (Hst a eq_refl).
  destruct (negb (requestRedactionDetectorFor _)); [apply refused_answered; [done|split; [done|by left]|done]|]. rewrite Hcap.
  destruct (ResolveUser validateUserToken a _) as [u|e] eqn:Eu; [by apply check_user_answered|].
  rewrite (bool_decide_eq_true_2 _ (only_enterprise_errs _ _ _ Eu)). by apply check_user_answered.
Qed.
End Facts.

(** * Concrete requests *)

#[local] Existing Instance ascii_unicode.
#[local] Existing Instance demo_format.
#[local] Existing Instance no_print.
#[local] Existing Instance no_case.

Definition ana (token : string) (tenant : string) : result string User :=
  if str_eqb token "good" then Ok (mkAgentUser 7 "ana@acme.com" "Ana" tenant "analyst" [] "acme-org") else Err "expired".

Definition enterprise_auth : AuthResult :=
  mkAuth AuthKindEnterprise (mkClient "cli" "cli" "cli" "acme-org" "acme" [] 0 true "" "") "acme" "acme-org" "cli".

(** The social security policy can be overridden, the statement policy is critical. *)
Definition ssn_policy : PolicyRow := OverrideApi.mkPolicyRow "u1" "sys_pii_ssn" "SSN" "global" "global" (Some "medium") (Some true).
Definition drop_policy (risk : string) : PolicyRow := OverrideApi.mkPolicyRow "u2" "sys_sqli_drop" "DROP" "global" "global" (Some risk) (Some (negb (str_eqb risk critical))).
Definition ana_override (policyUUID action : string) : ApiRow :=
  mkApiRow (mkOverrideRow "ov1" policyUUID "static" None "on call" (Some 100) (Some "acme") "acme-org" (Some "ana@acme.com") None (Some action) 1) None None.
Definition demo_tables (rows : list ApiRow) (risk : string) : PolicyTables :=
  mkTables (mkOvStore rows [ssn_policy; drop_policy risk] [] WcpRepository.empty_store true) no_faults 0 (fun _ => 1).

Definition check_world (db : policy_db) (tables : PolicyTables) : CheckWorld :=
  mkCheckWorld (demo_world db db) "early-1" "audit-1" false None (Some tables) 0 (fun _ => Ok ∅) 0 (fun _ => Ok ∅)
    (mkAccess (Some db) 0 0) (mkAccess (Some db) 0 0) (mkAccess (Some db) 0 0) 0
    (RegionalPii.Indonesia.redactIndonesiaPIIInString (Some RegionalPii.IndonesiaFacts.indonesia_detector)) 10 11
    (fun reply => match reply with CheckAnswer status r => [CallHeader status; CallWrite (ci_DecisionID r) true] | _ => [CallHeader 400] end).

Definition demo_check_request (token statement : string) : MCPCheckInputRequest :=
  mkCheckIn "cli" token "" "" "" "postgres" "" statement [] "" "".

Definition demo_check (db : policy_db) (tables : PolicyTables) (mcp_pii gw_pii token statement : string) : check_reply * CheckState :=
  mcpCheckInputHandler demo_order (fun _ => "") ana (demo_mode mcp_pii) (demo_mode gw_pii) (check_world db tables)
    (mkCheckState (mkDecideState (Some (demo_engine db)) None [] [] [] []) [] open_store) (mkHttp "POST" "/api/v1/mcp/check-input" ∅) (Ok enterprise_auth)
    (Some (demo_check_request token statement)).

(** What an answer shows: allowed, redacted, the statement to forward, evaluated. *)
Definition checked (reply : check_reply) : option (bool * bool * string * bool) :=
  match reply with CheckAnswer _ r => Some (ci_Allowed r, ci_Redacted r, ci_RedactedStatement r, ci_RedactionEvaluated r) | _ => None end.

(** A social security policy of the request phase only. *)
Definition request_phase_db : policy_db :=
  mkDB [demo_row "sys_sqli_drop" CategorySecuritySQLi "DROP" (Some ActionBlock) (Some ActionLog) 100;
        mkTableRow (mkRow "sys_pii_ssn" "sys_pii_ssn" "sys_pii_ssn" CategoryPIIUS "system" "\d{3}-\d{2}-\d{4}" SeverityHigh None (Some PhaseRequest)
                      (Some ActionRedact) None true 50 "global" None 50) false "global" true] true false.

(** The duty of the decision point, fulfilled here. *)
Example duty_fulfilled :
  shown (demo_decide demo_db demo_db "redact" "log" "ssn 123-45-6789" []).1 = Some ("allow", ["redact_pii"], ["sys_pii_ssn"]) /\
  checked (demo_check demo_db (demo_tables [] critical) "redact" "redact" "good" "ssn 123-45-6789").1 = Some (true, true, "ssn 1*********9", true).
Proof. vm_compute. by split. Qed.

(** So it is for a NIK. *)
Example nik_masked :
  checked (demo_check demo_db (demo_tables [] critical) "redact" "redact" "good" "NIK 3174012509900001").1 = Some (true, true, "NIK 31**********0001", true).
Proof. vm_compute. reflexivity. Qed.

(** The duty that the detector of Indian identifiers raises is fulfilled by policies
    only: with none for it, as for a payment id, the id is not masked and the answer
    says that redaction was evaluated. *)
Example upi_duty_unfulfilled :
  shown (demo_decide demo_db demo_db "redact" "log" "pay ana.k@okbank" []).1 = Some ("allow", ["redact_pii"], []) /\
  checked (demo_check demo_db (demo_tables [] critical) "redact" "redact" "good" "pay ana.k@okbank").1 = Some (true, false, "", true).
Proof. vm_compute. by split. Qed.

(** The decision point asks under the gateway's posture, the gate redacts under the MCP
    one when both are on: with redaction only in the former, the duty is reported as
    evaluated and the number goes through. *)
Example postures_disagree :
  shown (demo_decide demo_db demo_db "redact" "log" "ssn 123-45-6789" []).1 = Some ("allow", ["redact_pii"], ["sys_pii_ssn"]) /\
  checked (demo_check demo_db (demo_tables [] critical) "log" "redact" "good" "ssn 123-45-6789").1 = Some (true, false, "", true).
Proof. vm_compute. by split. Qed.

(** The gate redacts by the policies of the response phase: one of the request phase
    only raises the duty and is not applied. *)
Example phases_disagree :
  shown (demo_decide request_phase_db request_phase_db "redact" "log" "ssn 123-45-6789" []).1 = Some ("allow", ["redact_pii"], ["sys_pii_ssn"]) /\
  checked (demo_check request_phase_db (demo_tables [] critical) "redact" "redact" "good" "ssn 123-45-6789").1 = Some (true, false, "", true).
Proof. vm_compute. by split. Qed.

(** An override on one match lifts the block of another, be it critical. *)
Example critical_block_lifted :
  checked (demo_check ordered_db (demo_tables [] critical) "redact" "redact" "good" "DROP 123-45-6789").1 = Some (false, false, "", false) /\
  checked (demo_check ordered_db (demo_tables [ana_override "u1" "allow"] critical) "redact" "redact" "good" "DROP 123-45-6789").1
    = Some (true, false, "", false).
Proof. vm_compute. by split. Qed.

(** A row that sets the action of a policy to block, which the step gate does not take
    for a session override, lifts the block. *)
Example blocking_override_lifts :
  override_selected 0 "acme" "ana@acme.com" "u2" "" (ar_row (ana_override "u2" "block")) = false /\
  checked (demo_check demo_db (demo_tables [ana_override "u2" "block"] "high") "redact" "redact" "good" "DROP x").1 = Some (true, false, "", false).
Proof. vm_compute. by split. Qed.

(** A rejected token is refused by the decision point and passes here as no token. *)
Example rejected_token_passes :
  (match (handleDecide (fun _ => "") ana (demo_mode "log") (demo_world demo_db demo_db) demo_post enterprise_auth (demo_state None "log")
            (Some (mkDecide "llm" (mkCaller "gw" "" "") (mkTarget "" "" "" "" "") "hello" "bad" ∅ []))).1 with Failure status _ _ _ _ => status | _ => 0 end) = 401 /\
  checked (demo_check demo_db (demo_tables [] "high") "redact" "redact" "bad" "hello").1 = Some (true, false, "", true).
Proof. vm_compute. by split. Qed.

(** A retry under the same key is answered with the first response and leaves no row; a
    malformed key is refused without one. *)
Example retry_adds_no_row :
  let send key st := mcpCheckInputHandler demo_order (fun _ => "") ana (demo_mode "redact") (demo_mode "redact") (check_world demo_db (demo_tables [] critical))
    st (mkHttp "POST" "/api/v1/mcp/check-input" {["Idempotency-Key" := [key]]}) (Ok enterprise_auth) (Some (demo_check_request "good" "hello")) in
  let '(_, st1) := send "k1" (mkCheckState (mkDecideState (Some (demo_engine demo_db)) None [] [] [] []) [] open_store) in
  let rows (out : check_reply * CheckState) := (out.1, length (st_audit (cs_state out.2))) in
  length (st_audit (cs_state st1)) = 1%nat /\
  rows (send "k1" st1) = (CheckKeyed (Idempotency.mkClient 200 "dec-1" true), 1%nat) /\
  rows (send "k 1" st1) = (CheckKeyed (Idempotency.mkClient 400 ("invalid Idempotency-Key: idempotency: key contains invalid characters" +:+ nl) false), 1%nat).
Proof. vm_compute. by split_and!. Qed.



Lemma check_input_audited_witness :
  answered (check_world demo_db (demo_tables [] critical)) (mkCheckState (mkDecideState (Some (demo_engine demo_db)) None [] [] [] []) [] open_store) (Ok enterprise_auth)
    (demo_check demo_db (demo_tables [] critical) "redact" "redact" "good" "hello").
Proof.
  unfold demo_check. apply (check_input_audited demo_order (fun _ => "") ana).
  - discriminate.
  - discriminate.
  - reflexivity.
  - reflexivity.
  - discriminate.
  - discriminate.
  - intros t o [= <-] Ho. by apply not_elem_of_nil in Ho.
  - intros a [= <-]. left. vm_compute. reflexivity.
Defined.
