(* ===== verification/McpOutput.v ===== *)
(** The response gate of the MCP plane, src/platform/agent/mcp_handler.go
    (mcpCheckOutputHandler, evaluateOutputPolicies and its verdicts): POST
    /api/v1/mcp/check-output, where output that a connector has already produced is
    scanned for injected SQL, masked for Indonesian identifiers, passed to the policy
    engine in the response phase and measured against the exfiltration limits.

    What the environment answers during one request is an [OutWorld]: that of the
    request gate, whose clocks and reads serve the two postures, with the two further
    loads of the engine, the scanners, the detector of RegionalPii.v, the limits, and the
    order in which Go walks the keys of a row. Latencies, spans and telemetry are left
    out. *)

From stdpp Require Import gmap.
From S2P Require Import Prelude GoStrings GoStrconv GoTime GoFmt GoHttp GoJSON PolicyTypes Evaluator PolicyCache Loader Metrics Redactor Engine Exfiltration Sqli RegionalPii DecisionChain Egress Identity AgentAuth DynGate OverrideApi Detection Decide McpCheck.

Local Open Scope Z_scope.

Abbreviation row := (list (string * value)).

(** * The contract *)

Record MCPCheckOutputRequest := mkCheckOut {
  cq_ClientID : string; cq_UserToken : string; cq_TenantID : string; cq_UserID : string; cq_ConnectorType : string; cq_Tool : string;
  cq_ResponseData : option (list row);                         (** [None] is nil *)
  cq_Message : string; cq_Metadata : row; cq_RowCount : Z }.

Record MCPCheckOutputResponse := mkCheckOutResp {
  co_Allowed : bool; co_BlockReason : string; co_RedactedData : value; co_PoliciesEvaluated : nat;
  co_ExfiltrationInfo : option ExfiltrationCheckInfo;          (** nested in the policy info too *)
  co_PolicyInfo : option PolicyInfo; co_DecisionID : string; co_RedactionEvaluated : bool }.

Inductive output_reply :=
| OutError (status : Z) (msg retryAfter : string)
| OutCapped
| OutAnswer (status : Z) (r : MCPCheckOutputResponse).

Record OutputPolicyOutcome := mkOutput {
  oo_SQLiBlocked : bool; oo_SQLiPattern : string; oo_StaticResult : option ResponseResult; oo_RedactedRows : option (list row);
  oo_RedactedMessage : string; oo_IndonesiaRedactedTypes : list string; oo_Exfil : option (ExfiltrationResult * ExfiltrationCheckInfo);
  oo_RedactionEvaluated : bool }.

(** An entry of mcp_query_audits of this plane. *)
Record OutputAuditEntry := mkOutEntry { oa_entry : MCPQueryAuditEntry; oa_ExfilRowsReturned : Z; oa_ExfilExceeded : bool; oa_ExfilLimitType : string }.

Record OutState := mkOutState {
  ou_state : DecideState; ou_satellite : list OutputAuditEntry; ou_scanner : option ScanningMiddleware; ou_scans : list AuditEvent;
  ou_batches : list Indonesia.indonesiaPIIEventBatch }.

Record OutWorld := mkOutWorld {
  ow_check : CheckWorld;                                       (** its categories are the PII ones *)
  ow_sensitive : Access; ow_dangerous : Access;
  ow_cancelled : bool; ow_registry : scannerRegistry;
  ow_detector : option pii_detector; ow_types : list string -> list string; ow_hook : bool;
  ow_walk : row -> row; ow_rewalk : row -> row;                (** of the detection and of the second look *)
  ow_exfil : option (ExfiltrationLimits * ExfiltrationLimits * ExfiltrationLimits) }.   (** at each of the three reads *)

(** * The outcome *)

Definition WasRedacted (o : OutputPolicyOutcome) : bool :=
  match oo_RedactedRows o with Some _ => true | None => false end || negb (str_eqb (oo_RedactedMessage o) "")
  || match oo_StaticResult o with Some r => rs_Redacted r | None => false end.

Definition RedactedFieldNames (o : OutputPolicyOutcome) : list string :=
  match oo_StaticResult o with Some r => if rs_Redacted r then GetRedactedFieldPaths (Some r) else [] | None => [] end
  ++ oo_IndonesiaRedactedTypes o.

Definition blockedPolicyIDs (r : ResponseResult) : list string :=
  match m_PolicyID <$> rs_MatchedPolicies r with
  | [] => match rs_BlockedBy r with Some p => if str_eqb (PolicyID p) "" then [] else [PolicyID p] | None => [] end
  | ids => ids
  end.

Definition redactionInvolvesInjection (matches : list PolicyMatch) : bool := existsb (fun m => str_eqb (m_Category m) CategorySecurityDangerous) matches.

Definition statically_blocked (o : OutputPolicyOutcome) : option ResponseResult :=
  match oo_StaticResult o with Some r => if rs_Blocked r then Some r else None | None => None end.
Definition exfiltrates (o : OutputPolicyOutcome) : option (ExfiltrationResult * ExfiltrationCheckInfo) :=
  match oo_Exfil o with Some (r, i) => if Exceeded r then Some (r, i) else None | None => None end.

Definition mcpOutputDecisionVerdict (o : OutputPolicyOutcome) : string * list string * list string :=
  if oo_SQLiBlocked o then (AuditVerdictBlocked, ["sqli_response_scan"], ["SQL injection detected in response: " +:+ oo_SQLiPattern o])
  else match statically_blocked o, exfiltrates o with
  | Some r, _ => (AuditVerdictBlocked, blockedPolicyIDs r, [rs_BlockReason r])
  | None, Some (x, _) => (AuditVerdictBlocked, ["exfiltration_limit"], [ExBlockReason x])
  | None, None =>
      let policyIDs := match oo_StaticResult o with Some r => m_PolicyID <$> rs_MatchedPolicies r | None => [] end in
      if WasRedacted o then
        let label := if match oo_StaticResult o with Some r => redactionInvolvesInjection (rs_MatchedPolicies r) | None => false end
                     then "response prompt-injection sanitized" else "response PII redacted" in
        (AuditVerdictRedacted, policyIDs, [match RedactedFieldNames o with [] => label | fields => label +:+ ": " +:+ join ", " fields end])
      else (AuditVerdictAllowed, policyIDs, [])
  end.

(** * Evaluation *)

Section CheckOutput.
Context `{U : Unicode} `{PT : UnicodePrint} `{F : GoFormat}.
Context (ord : nat -> string -> pattern_map -> pattern_map).
Context (getenv : string -> string) (validateUserToken : string -> string -> result string User).
Context (mcp_global : ModeDetectionConfig) (ow : OutWorld).
Local Abbreviation cw := (ow_check ow).
Local Abbreviation w := (cw_world cw).

Definition text_document (engine : option Engine) (toolIdentity : string) : bool :=
  match engine with Some e => Capability.IsTextDocumentTool (DisableCapabilityScoping (en_config e)) (en_extra e) toolIdentity | None => false end.

(** The scan for injected SQL, with the scanner it ran on and the events it left. *)
Definition scan_output (g : option ScanningMiddleware) (skip : bool) (connectorName : string) (rows : option (list row)) (message : string)
    (metadata : row) : option ResponseScanResult * option ScanningMiddleware * list AuditEvent :=
  if skip then (None, g, [])
  else match rows with
  | Some rows =>
      let '(r, m, events) := ScanQueryResponse (GetGlobalMiddleware (ow_registry ow) g) (ow_cancelled ow) connectorName rows in (Some r, Some m, events)
  | None =>
      if str_eqb message "" then (None, g, [])
      else let '(r, m, events) := ScanCommandResponse (GetGlobalMiddleware (ow_registry ow) g) (ow_cancelled ow) connectorName message metadata in
           (Some r, Some m, events)
  end.

Definition leaf_text (e : string * value) : string := match e.2 with VString s => s +:+ " " | _ => "" end.

(** The string cells of the rows, or the message. *)
Definition scanned_text (walk : row -> row) (rows : option (list row)) (message : string) : string :=
  match rows with Some rows => String.concat "" (rows ≫= fun r => leaf_text <$> walk r) | None => message end.

Definition checkIndonesiaResponsePII (text : string) (blockOnCritical : bool) : pii_check :=
  Indonesia.CheckRequestForPII (ow_types ow) (ow_detector ow) text blockOnCritical.
Definition mask_text (s : string) : string * bool := maskJSONSafe s (Indonesia.redactIndonesiaPIIInString (ow_detector ow)).

Definition indonesiaPIIRemainsAfterMask (rows : option (list row)) (message : string) : bool :=
  let text := scanned_text (ow_rewalk ow) rows message in
  negb (str_eqb text "") && pk_HasPII (checkIndonesiaResponsePII text false).

Definition mask_cell (e : string * value) : string * value :=
  match e.2 with VString s => match mask_text s with (m, true) => (e.1, VString m) | _ => e end | _ => e end.
Definition cell_masked (e : string * value) : bool := match e.2 with VString s => (mask_text s).2 | _ => false end.

(** The rows and the message in place of those submitted, and whether they changed. *)
Definition mask_content (rows : option (list row)) (message : string) : option (list row) * string * bool :=
  match rows with
  | Some rows => (Some (map (map mask_cell) rows), message, existsb (existsb cell_masked) rows)
  | None =>
      if str_eqb message "" then (None, message, false)
      else match mask_text message with (m, true) => (None, m, true) | _ => (None, message, false) end
  end.

Definition ktp_policy : CompiledPolicy :=
  PolicyTypes.mkPolicy "" "sys_pii_indonesia_ktp" "Indonesian KTP/NIK Detection" CategoryPIIIndonesia "" "" None "" "" "" "" "" false 0 "" None None.

Definition withheld_reason : string := "response withheld: policy engine could not evaluate (fail-closed)".
Definition withheld (policy : option CompiledPolicy) (reason : string) (evaluationError : bool) : ResponseResult :=
  mkResponseResult true policy reason evaluationError VNil false [] 0 [].

(** What the Indonesian pass leaves: a refusal, or the content with what was redacted. *)
Record Masked := mkMasked { mk_rows : option (list row); mk_message : string; mk_changed : bool; mk_types : list string }.

Definition indonesia_pass (cfg : ModeDetectionConfig) (ctxOrg tenantID : string) (rows : option (list row)) (message : string)
  : (ResponseResult + Masked) * list Indonesia.indonesiaPIIEventBatch :=
  let result := checkIndonesiaResponsePII (scanned_text (ow_walk ow) rows message) (str_eqb (md_PIIAction cfg) DetectionActionBlock) in
  let record action := Indonesia.recordIndonesiaPIIEvents (ow_hook ow) ctxOrg tenantID "" "" PlaneMCP action result in
  if pk_BlockRecommended result then (inl (withheld (Some ktp_policy) (pk_Reason result) false), record Indonesia.indonesiaPIIActionBlocked)
  else if pk_HasPII result then
    let '(rows', message', changed) :=
      if str_eqb (md_PIIAction cfg) DetectionActionRedact then mask_content rows message else (rows, message, false) in
    let clean := changed && negb (indonesiaPIIRemainsAfterMask rows' message') in
    (inr (mkMasked rows' message' changed (if changed then Indonesia.indonesiaDetectedTypeNames result else [])),
     record (Indonesia.indonesiaPIIActionForEnforcedPlane false clean))
  else (inr (mkMasked rows message false []), []).

(** The content the engine is given. *)
Definition response_content (rows : option (list row)) (message : string) : option value :=
  match rows with
  | Some rows => Some (VRows rows)
  | None => if str_eqb message "" then None else Some (VRows [[("message", VString message)]])
  end.

Definition at_access (e : Engine) (a : Access) : Engine := with_db e (ac_db a).

(** The categories with an enabled policy. *)
Definition output_categories (e : Engine) (tenantID ctxOrg : string) : list string * Engine :=
  let org := OrgScopePtr ctxOrg in
  let '(pii, e) := EnabledPIICategories (at_access e (cw_categories cw)) (ac_t0 (cw_categories cw)) (ac_t1 (cw_categories cw)) tenantID org PhaseResponse in
  let '(sens, e) := EnabledSensitiveDataCategories (at_access e (ow_sensitive ow)) (ac_t0 (ow_sensitive ow)) (ac_t1 (ow_sensitive ow)) tenantID org PhaseResponse in
  let '(danger, e) := EnabledSecurityDangerousCategories (at_access e (ow_dangerous ow)) (ac_t0 (ow_dangerous ow)) (ac_t1 (ow_dangerous ow)) tenantID org PhaseResponse in
  (pii ++ sens ++ danger, e).

Definition output_options (tenantID ctxOrg userID connectorName toolIdentity injection : string) (cats : list string) (cfg : ModeDetectionConfig) : EvalOptions :=
  mkOptions tenantID "" (OrgScopePtr ctxOrg) userID connectorName [] toolIdentity cats (md_SkipCategories cfg)
    (<[CategorySecurityDangerous := ToPolicyAction injection]> (BuildActionOverrides cfg)) 100.

(** The engine's pass; a scan that could not complete withholds the response. *)
Definition static_pass (st : DecideState) (e : Engine) (ctxOrg tenantID userID connectorName toolIdentity : string) (rows : option (list row))
    (message : string) (cfg : ModeDetectionConfig) : option ResponseResult * DecideState :=
  let '(cats, e) := output_categories e tenantID ctxOrg in
  match response_content rows message, cats with
  | None, _ | _, [] => (None, with_engine st (Some e))
  | Some content, _ =>
      let '(injection, overrides) := ResolveResponseInjectionAction (st_overrides st) (cw_gw_now cw) (cw_gw_read cw ctxOrg) ctxOrg in
      let '(r, e) := EvaluateResponse ord (at_access e (cw_response cw)) (ac_t0 (cw_response cw)) (ac_t1 (cw_response cw)) (cw_ms cw) content
                       (output_options tenantID ctxOrg userID connectorName toolIdentity injection cats cfg) in
      (Some (if rs_EvaluationError r
             then mkResponseResult true (rs_BlockedBy r) (or_default (rs_BlockReason r) withheld_reason) true (rs_Content r) (rs_Redacted r)
                    (rs_RedactedFields r) (rs_PoliciesEvaluated r) (rs_MatchedPolicies r)
             else r),
       with_engine (with_overrides st overrides) (Some e))
  end.

(** The rows and the message after a redaction of the engine. *)
Definition redacted_rows (r : ResponseResult) (rows : option (list row)) (before : option (list row)) : option (list row) :=
  match rows, rs_Content r with Some _, VRows l => if rs_Redacted r then Some l else before | _, _ => before end.
Definition redacted_message (r : ResponseResult) (rows : option (list row)) (message before : string) : string :=
  match rows, rs_Content r with
  | None, VRows (l :: _) =>
      if rs_Redacted r && negb (str_eqb message "")
      then match find_first (fun e => str_eqb e.1 "message") l with Some (_, VString s) => s | _ => before end
      else before
  | _, _ => before
  end.

Definition check_limits (rowCount : Z) (rows redacted : option (list row)) : option (ExfiltrationResult * ExfiltrationCheckInfo) :=
  match ow_exfil ow with
  | Some (l0, l1, l2) =>
      if LimitsEnabled l0
      then Some (CheckWithInfo l1 l2 rowCount match rows with Some rs => VRows (default rs redacted) | None => VNil end)
      else None
  | None => None
  end.

(** With the Indonesian pass behind: the engine, then the limits. *)
Definition rest_of_evaluation (st : DecideState) (ctxOrg tenantID userID connectorName toolIdentity : string) (k : Masked) (rowCount : Z)
    (checkExfiltration evaluated gate : bool) (cfg : ModeDetectionConfig) : OutputPolicyOutcome * DecideState :=
  let rows := mk_rows k in
  let message := mk_message k in
  let before_rows := if mk_changed k then rows else None in
  let before_message := if mk_changed k then match rows with Some _ => "" | None => message end else "" in
  let '(static, st) :=
    match st_engine st with
    | Some e => if gate then static_pass st e ctxOrg tenantID userID connectorName toolIdentity rows message cfg else (None, st)
    | None => (None, st)
    end in
  match static with
  | Some r =>
      if rs_Blocked r then (mkOutput false "" (Some r) before_rows before_message (mk_types k) None evaluated, st)
      else
        let redacted := redacted_rows r rows before_rows in
        (mkOutput false "" (Some r) redacted (redacted_message r rows message before_message) (mk_types k)
           (if checkExfiltration then check_limits rowCount rows redacted else None) evaluated, st)
  | None =>
      (mkOutput false "" None before_rows before_message (mk_types k) (if checkExfiltration then check_limits rowCount rows before_rows else None) evaluated, st)
  end.

Definition refused_output (r : ResponseResult) (evaluated : bool) : OutputPolicyOutcome := mkOutput false "" (Some r) None "" [] None evaluated.

(** After the scan: the posture, the load gate and the passes. *)
Definition evaluate_scanned (st : DecideState) (ctxOrg tenantID userID connectorName toolIdentity : string) (rows : option (list row)) (message : string)
    (rowCount : Z) (checkExfiltration isGateway : bool) : OutputPolicyOutcome * DecideState * list Indonesia.indonesiaPIIEventBatch :=
  let '(cfg, overrides) := applyOrgDetectionOverrides (st_overrides st) (cw_mcp_now cw) (cw_mcp_read cw ctxOrg) ctxOrg mcp_global in
  let st := with_overrides st overrides in
  let gate := md_Enabled cfg && (isGateway || Detection.IsConnectorEnabled cfg connectorName) in
  let '(loadError, st) :=
    match st_engine st with
    | Some e =>
        if gate
        then let '(err, e) := PoliciesLoadable (at_access e (cw_loadable cw)) (ac_t0 (cw_loadable cw)) (ac_t1 (cw_loadable cw)) tenantID (OrgScopePtr ctxOrg) PhaseResponse in
             (match err with Some _ => true | None => false end, with_engine st (Some e))
        else (false, st)
    | None => (false, st)
    end in
  if loadError then (refused_output (withheld None withheld_reason true) false, st, [])
  else
    let evaluated := gate && match st_engine st with Some _ => true | None => false end in
    let '(pass, batches) := if gate then indonesia_pass cfg ctxOrg tenantID rows message else (inr (mkMasked rows message false []), []) in
    match pass with
    | inl r => (refused_output r evaluated, st, batches)
    | inr k =>
        (rest_of_evaluation st ctxOrg tenantID userID connectorName toolIdentity k rowCount checkExfiltration evaluated gate cfg, batches)
    end.

Definition evaluateOutputPolicies (st : OutState) (ctxOrg tenantID userID connectorName toolIdentity : string) (rows : option (list row)) (message : string)
    (metadata : row) (rowCount : Z) (checkExfiltration isGateway : bool) : OutputPolicyOutcome * OutState :=
  let '(scan, scanner, events) :=
    scan_output (ou_scanner st) (text_document (st_engine (ou_state st)) toolIdentity) connectorName rows message metadata in
  let scanned d batches := mkOutState d (ou_satellite st) scanner (ou_scans st ++ events) (ou_batches st ++ batches) in
  match scan with
  | Some r =>
      if Sqli.sr_Blocked r then (mkOutput true (Sqli.sr_Pattern r) None None "" [] None false, scanned (ou_state st) [])
      else let '(o, d, batches) := evaluate_scanned (ou_state st) ctxOrg tenantID userID connectorName toolIdentity rows message rowCount checkExfiltration isGateway in
           (o, scanned d batches)
  | None =>
      let '(o, d, batches) := evaluate_scanned (ou_state st) ctxOrg tenantID userID connectorName toolIdentity rows message rowCount checkExfiltration isGateway in
      (o, scanned d batches)
  end.

(** * The handler *)

(** The versions of the policies with these slugs, in the caller's scope and the shared
    one; a null version is 0. *)
Definition versions_in (t : PolicyTables) (rows : list PolicyRow) (ids : list string) (m : gmap string Z) : gmap string Z :=
  fold_left (fun m p => if str_in (pp_slug p) ids && negb (pt_version t (pp_id p) =? 0) then <[pp_slug p := pt_version t (pp_id p)]> m else m) rows m.

Definition lookupPolicyVersionsByID (tables : option PolicyTables) (ctxOrg : string) (ids : list string) : gmap string Z :=
  match tables, ids with
  | None, _ | _, [] => ∅
  | Some t, _ =>
      if ft_policies (pt_faults t) then ∅
      else
        let s := pt_store t in
        if str_eqb ctxOrg "" then versions_in t (if os_rls s then [] else os_static s) ids ∅
        else fold_left (fun m scope => versions_in t (visible_policies s scope (os_static s)) ids m)
               (if str_eqb ctxOrg GlobalTenantSentinel then [ctxOrg] else [ctxOrg; GlobalTenantSentinel]) ∅
  end.

Section Answer.
Context (c : Caller) (req : MCPCheckOutputRequest).
Local Abbreviation decisionID := (w_decisionID w).
Definition output_descriptor : string := "mcp check-output: " +:+ cq_ConnectorType req.

Definition output_entry (o : OutputPolicyOutcome) (blocked : bool) (reason : string) (exfil : option ExfiltrationResult) (success : bool) : OutputAuditEntry :=
  let redacted := WasRedacted o in
  let versions := match oo_StaticResult o with
                  | Some r => lookupPolicyVersionsByID (cw_tables cw) (cc_ctxOrg c) (m_PolicyID <$> rs_MatchedPolicies r)
                  | None => ∅
                  end in
  mkOutEntry
    (mkSatellite (cw_auditID cw) (cq_ConnectorType req) "check-output" (cc_tenantID c) (cc_orgID c) (cc_userID c) "" "" 0 decisionID blocked reason 0 []
       versions redacted (if redacted then RedactedFieldNames o else []) success)
    (cq_RowCount req) (match exfil with Some _ => true | None => false end) (from_option LimitType "" exfil).

(** The row of the decision feed. *)
Definition record_output (st : DecideState) (o : OutputPolicyOutcome) : DecideState :=
  let '(verdict, policyIDs, reasons) := mcpOutputDecisionVerdict o in
  if str_eqb verdict AuditVerdictRedacted then
    writeMCPDecisionAudit cw (cc_session c) st decisionID (cw_auditID cw) (cc_tenantID c) (cc_orgID c) (cc_client c) (cc_userEmail c)
      (Itoa (cc_userNum c)) (cc_userRole c) "mcp_check_output" output_descriptor "" AuditVerdictRedacted policyIDs reasons (RedactedFieldNames o)
      (cc_trace c) (cq_ConnectorType req) (cq_Tool req)
  else
    (recordDecideDecision w (cc_session c) st decisionID (cc_orgID c) (cc_tenantID c) "tool" verdict policyIDs reasons "" ∅ false
       (mkAuditInput (cc_client c) (cc_userEmail c) (cc_userRole c) (cc_userNum c) output_descriptor "" "" PlaneMCP (cc_trace c) [] [] "" "" "" ""
          (cq_ConnectorType req) (cq_Tool req) (cw_auditID cw) [])).2.

Definition refusal (reason : string) (info : option ExfiltrationCheckInfo) : output_reply :=
  OutAnswer 403 (mkCheckOutResp false reason VNil 0 info None decisionID false).

Definition redacted_data (o : OutputPolicyOutcome) : value :=
  match oo_RedactedRows o with
  | Some rows => VRows rows
  | None => if str_eqb (oo_RedactedMessage o) "" then VNil else VString (oo_RedactedMessage o)
  end.

(** The policy info of an answer; with limits checked there always is one. *)
Definition output_info (o : OutputPolicyOutcome) : option PolicyInfo :=
  match BuildPolicyInfo None (oo_StaticResult o), oo_Exfil o with
  | None, Some _ => Some (mkInfo 0 false "" 0 [])
  | info, _ => info
  end.

(** The branch of an outcome, with its entry. *)
Definition output_answer (o : OutputPolicyOutcome) : output_reply * OutputAuditEntry :=
  if oo_SQLiBlocked o then
    (refusal ("Response blocked: potential SQL injection detected (pattern: " +:+ oo_SQLiPattern o +:+ ")") None,
     output_entry o true ("SQL injection detected: " +:+ oo_SQLiPattern o) None false)
  else match statically_blocked o, exfiltrates o with
  | Some r, _ =>
      let reason := "Response blocked: " +:+ rs_BlockReason r in (refusal reason None, output_entry o true reason None false)
  | None, Some (x, info) => (refusal (ExBlockReason x) (Some info), output_entry o false "" (Some x) false)
  | None, None =>
      (OutAnswer 200 (mkCheckOutResp true "" (redacted_data o) (from_option rs_PoliciesEvaluated 0%nat (oo_StaticResult o)) (snd <$> oo_Exfil o)
                        (output_info o) decisionID (oo_RedactionEvaluated o)),
       output_entry o false "" None true)
  end.

Definition check_output (st : OutState) : output_reply * OutState :=
  let rows := cq_ResponseData req in
  let '(o, st) := evaluateOutputPolicies st (cc_ctxOrg c) (cc_tenantID c) (cc_userID c) (cq_ConnectorType req) (cq_Tool req) rows (cq_Message req)
                    (cq_Metadata req) (cq_RowCount req) (match rows with Some (_ :: _) => true | _ => false end) true in
  let '(reply, entry) := output_answer o in
  (reply, mkOutState (record_output (ou_state st) o) (ou_satellite st ++ [entry]) (ou_scanner st) (ou_scans st) (ou_batches st)).
End Answer.

Definition on_state (st : OutState) (d : DecideState) : OutState := mkOutState d (ou_satellite st) (ou_scanner st) (ou_scans st) (ou_batches st).

(** The row of a refusal before evaluation. *)
Definition output_refused (st : OutState) (r : HttpRequest) (req : MCPCheckOutputRequest)
    (session tenantID orgID clientID email userID role query policy reason : string) : OutState :=
  on_state st (writeMCPDecisionAudit cw session (ou_state st) (cw_earlyID cw) "" tenantID orgID clientID email userID role "mcp_check_output" query ""
                 AuditVerdictBlocked [policy] [reason] [] (traceIDFromHeader (hdr r "traceparent")) (cq_ConnectorType req) (cq_Tool req)).

Definition output_user (st : OutState) (r : HttpRequest) (a : AuthResult) (req : MCPCheckOutputRequest) (u : User) : output_reply * OutState :=
  let session := attributedSessionID getenv r in
  let client := au_Client a in
  if negb (str_eqb (us_TenantID u) (cl_TenantID client)) then
    (OutError 403 "Tenant mismatch" "",
     output_refused st r req session (cl_TenantID client) (au_OrgID a) (au_ClientID a) "" "" "service" "mcp check-output: tenant mismatch" "tenant_mismatch"
       "resolved user tenant does not match authenticated client tenant")
  else
    let userID := if bool_decide (au_Kind a = AuthKindInternalService) then or_default (cq_UserID req) (Itoa (us_ID u)) else Itoa (us_ID u) in
    let email := attributedUserEmail getenv r (us_Email u) in
    if str_eqb (au_TenantID a) "" then
      (OutError 400 "tenant_id is required" "",
       output_refused st r req session "" (au_OrgID a) (au_ClientID a) email userID (us_Role u) "mcp check-output: missing tenant scope" "tenant_id_missing"
         "tenant_id is required")
    else check_output (mkCaller_ a (au_TenantID a) (au_OrgID a) (cl_OrgID client) (us_ID u) userID (us_Role u) email session
                         (traceIDFromHeader (hdr r "traceparent"))) req st.

Definition mcpCheckOutputHandler (st : OutState) (r : HttpRequest) (auth : result AuthError AuthResult) (body : option MCPCheckOutputRequest)
  : output_reply * OutState :=
  match body with
  | None => (OutError 400 "Invalid request body" "", st)
  | Some req =>
      if str_eqb (cq_ConnectorType req) "" then (OutError 400 "connector_type is required" "", st)
      else if match cq_ResponseData req with Some (_ :: _) => false | _ => true end && str_eqb (cq_Message req) ""
      then (OutError 400 "response_data or message is required" "", st)
      else match auth with
      | Err e =>
          (OutError (ae_HTTPStatus e) (ae_Message e) (ae_RetryAfter e),
           output_refused st r req "" mcpUnauthenticatedTenant "" (TrimSpace (cq_ClientID req)) "" "" "service" "mcp check-output: unauthenticated"
             "unauthenticated" ("authentication failed: " +:+ ae_Message e))
      | Ok a =>
          if cw_capped cw then (OutCapped, st)
          else match ResolveUser validateUserToken a (cq_UserToken req) with
               | Ok u => output_user st r a req u
               | Err e =>
                   let client := au_Client a in
                   if bool_decide (au_Kind a = AuthKindEnterprise)
                   then output_user st r a req (mkAgentUser 0 (cl_ID client +:+ "@axonflow.local") (cl_Name client) (cl_TenantID client) "service" [] "")
                   else (OutError (ae_HTTPStatus e) (ae_Message e) "", st)
               end
      end
  end.
End CheckOutput.
