(* ===== verification/McpOutputFacts.v ===== *)
(** What the response gate of McpOutput.v promises: every answer is on record once with
    the verdict of the branch that fired, an allowed answer has passed the scan, the
    engine and the limits, and Indonesian identifiers are refused, masked or recorded as
    the posture says; and where content passes beside the checks. *)

From stdpp Require Import gmap.
From S2P Require Import Prelude Idempotency GoStrings GoStrconv GoTime GoFmt GoHttp GoJSON PolicyTypes Capability Evaluator PolicyCache Loader Metrics Redactor Engine EngineFacts Exfiltration Sqli RegionalPii DecisionChain Egress Identity AgentAuth DynGate OverrideApi Detection Decide DecideFacts McpCheck McpCheckFacts McpOutput.

Local Open Scope Z_scope.

(** * Masks over documents *)


Section Facts.
Context `{U : Unicode} `{PT : UnicodePrint} `{F : GoFormat}.
Context (ord : nat -> string -> pattern_map -> pattern_map).
Context (getenv : string -> string) (validateUserToken : string -> string -> result string User).
Context (mcp_global : ModeDetectionConfig) (ow : OutWorld).
Local Abbreviation cw := (ow_check ow).
Local Abbreviation w := (cw_world cw).

(** * Indonesian identifiers *)

Section Masking.
Context (d : pii_detector) (Hd : forall p, p ∈ dr_patterns d -> p ∈ Indonesia.communityPatterns) (Hdet : ow_detector ow = Some d).
Context (Htypes : forall l, Permutation (ow_types ow l) l).














End Masking.

(** * Allowed answers *)




















(** * The policies of the response phase *)


















(** * Records *)

(** What the row of an answer says. *)
Definition says (reply : output_reply) (verdict : string) : Prop :=
  match reply with
  | OutAnswer _ r => if co_Allowed r then verdict = AuditVerdictRedacted \/ (verdict = AuditVerdictAllowed /\ co_RedactedData r = VNil)
                     else verdict = AuditVerdictBlocked
  | _ => verdict = AuditVerdictBlocked
  end.

Lemma evaluate_scanned_audit st ctxOrg tenantID userID connector tool rows message rowCount exfil gateway :
  st_audit (evaluate_scanned ord mcp_global ow st ctxOrg tenantID userID connector tool rows message rowCount exfil gateway).1.2 = st_audit st.
Proof.
  unfold evaluate_scanned. destruct (applyOrgDetectionOverrides _ _ _ _ _) as [cfg ovs]. cbv zeta. set (st1 := with_overrides st ovs).
  set (gate := md_Enabled cfg && _). set (gated := match st_engine st1 with Some e => if gate then _ else _ | None => _ end).
  assert (Hg : st_audit gated.2 = st_audit st).
  { unfold gated. destruct (st_engine st1); [|done]. destruct gate; [|done]. by destruct (PoliciesLoadable _ _ _ _ _ _). }
  destruct gated as [failed st2]. cbn [snd] in Hg. destruct failed; [done|].
  destruct (if gate then _ else _) as [[r|k] batches]; [done|]. cbn [fst snd]. unfold rest_of_evaluation.
  set (static := match st_engine st2 with Some e => if gate then _ else _ | None => _ end).
  assert (Hs : st_audit static.2 = st_audit st2).
  { unfold static. destruct (st_engine st2) as [e|]; [|done]. destruct gate; [|done]. unfold static_pass. destruct (output_categories _ _ _ _) as [cats e1].
    destruct (response_content _ _); [|done]. destruct cats; [done|]. destruct (ResolveResponseInjectionAction _ _ _ _). by destruct (EvaluateResponse _ _ _ _ _ _ _). }
  destruct static as [[r|] st3]; cbn [snd] in Hs; [destruct (rs_Blocked r)|]; cbn [snd]; congruence.
Qed.

Lemma evaluation_audit st ctxOrg tenantID userID connector tool rows message metadata rowCount exfil gateway :
  st_audit (ou_state (evaluateOutputPolicies ord mcp_global ow st ctxOrg tenantID userID connector tool rows message metadata rowCount exfil gateway).2)
  = st_audit (ou_state st).
Proof.
  unfold evaluateOutputPolicies. destruct (scan_output _ _ _ _ _ _ _) as [[scan scanner] events].
  pose proof (evaluate_scanned_audit (ou_state st) ctxOrg tenantID userID connector tool rows message rowCount exfil gateway) as H.
  destruct (evaluate_scanned _ _ _ _ _ _ _ _ _ _ _ _ _ _) as [[o d] batches]. destruct scan as [r|]; [by destruct (Sqli.sr_Blocked r)|done].
Qed.

Lemma verdict_says c req o : says (output_answer ow c req o).1 (mcpOutputDecisionVerdict o).1.1.
Proof.
  unfold output_answer, mcpOutputDecisionVerdict. destruct (oo_SQLiBlocked o); [done|].
  destruct (statically_blocked o) as [r|]; [done|]. destruct (exfiltrates o) as [[x i]|]; [done|].
  destruct (WasRedacted o) eqn:Er; [by left|]. right. split; [done|]. unfold WasRedacted in Er. unfold redacted_data. cbn.
  destruct (oo_RedactedRows o); [done|]. by destruct (str_eqb (oo_RedactedMessage o) "").
Qed.

Lemma record_output_recorded c req st o :
  audits cw (w_decisionID w) ->
  mcp_recorded st (record_output ow c req st o) (w_decisionID w) (cc_orgID c) (cc_tenantID c) (mcpOutputDecisionVerdict o).1.1.
Proof.
  intros Ha. unfold record_output. destruct (mcpOutputDecisionVerdict o) as [[verdict ids] reasons]. cbn [fst].
  destruct (str_eqb verdict AuditVerdictRedacted) eqn:Ev; [apply str_eqb_true in Ev as ->; by apply written_mcp|].
  destruct Ha as [Ha Hi]. unfold recordDecideDecision. cbn [snd]. unfold mcp_recorded. rewrite signed_audit.
  unfold writeDecisionAuditLog. rewrite Ha, (proj2 (str_eqb_false _ _) Hi). eexists. split; [done|]. by split_and!.
Qed.

(** One row, with what the reply says. *)
Definition out_answered (st : OutState) (auth : result AuthError AuthResult) (out : output_reply * OutState) : Prop :=
  exists id org tenant verdict, mcp_recorded (ou_state st) (ou_state out.2) id org tenant verdict /\ says out.1 verdict /\
    row_scope auth org tenant /\ out.1 <> OutCapped /\
    match out.1 with OutAnswer _ a => co_DecisionID a = id | _ => id = cw_earlyID cw end.

Lemma output_refused_answered st r req auth session tenant org client email user role q policy reason status msg retry :
  audits cw (cw_earlyID cw) -> row_scope auth org tenant ->
  out_answered st auth (OutError status msg retry, output_refused ow st r req session tenant org client email user role q policy reason).
Proof. intros Ha Hs. exists (cw_earlyID cw), org, tenant, AuditVerdictBlocked. split; [by apply written_mcp|]. by split_and!. Qed.

Lemma check_output_answered c req st a :
  audits cw (w_decisionID w) -> cc_orgID c = au_OrgID a -> cc_tenantID c = au_TenantID a ->
  out_answered st (Ok a) (check_output ord mcp_global ow c req st).
Proof.
  intros Ha Ho Ht. unfold check_output.
  pose proof (evaluation_audit st (cc_ctxOrg c) (cc_tenantID c) (cc_userID c) (cq_ConnectorType req) (cq_Tool req) (cq_ResponseData req) (cq_Message req)
                (cq_Metadata req) (cq_RowCount req) (match cq_ResponseData req with Some (_ :: _) => true | _ => false end) true) as Hk.
  destruct (evaluateOutputPolicies _ _ _ _ _ _ _ _ _ _ _ _ _ _ _) as [o st']. cbn [snd] in Hk.
  pose proof (verdict_says c req o) as Hs. pose proof (record_output_recorded c req (ou_state st') o Ha) as Hr.
  exists (w_decisionID w), (au_OrgID a), (au_TenantID a), (mcpOutputDecisionVerdict o).1.1.
  destruct (output_answer ow c req o) as [reply entry] eqn:Ea. cbn [fst snd ou_state] in *. rewrite <- Ho, <- Ht.
  split. { unfold mcp_recorded in *. by rewrite <- Hk. }
  split; [done|]. split; [split; [done|by left]|]. unfold output_answer in Ea. destruct (oo_SQLiBlocked o); [injection Ea as <- _; done|].
  destruct (statically_blocked o) as [r|]; [injection Ea as <- _; done|]. destruct (exfiltrates o) as [[x i]|]; injection Ea as <- _; done.
Qed.

Lemma output_user_answered st r a req u :
  audits cw (w_decisionID w) -> audits cw (cw_earlyID cw) -> out_answered st (Ok a) (output_user ord getenv mcp_global ow st r a req u).
Proof.
  intros Ha He. unfold output_user. destruct (negb _). { apply output_refused_answered; [done|split; [done|by right]]. }
  cbv zeta. destruct (str_eqb (au_TenantID a) "") eqn:Et.
  { apply str_eqb_true in Et. apply output_refused_answered; [done|split; [done|by left]]. }
  by apply check_output_answered.
Qed.

(** Every check of a response is on record. While the audit table accepts rows, a
    complete request that is not stopped by the daily cap adds exactly one row to the
    decision feed, under the credential's organization and tenant (an unauthenticated
    caller under a tenant of its own), with the decision id of the answer and the verdict
    of the branch that fired: blocked for every refusal, be it by the scan, a policy, a
    failed load or a limit; redacted or allowed otherwise, and redacted whenever the
    answer carries redacted data. *)
Theorem check_output_audited (st : OutState) (r : HttpRequest) (auth : result AuthError AuthResult) (req : MCPCheckOutputRequest) :
  cq_ConnectorType req <> "" -> cq_Message req <> "" \/ (exists x l, cq_ResponseData req = Some (x :: l)) -> cw_capped cw = false ->
  w_audit w = Some true -> w_decisionID w <> "" -> cw_earlyID cw <> "" ->
  out_answered st auth (mcpCheckOutputHandler ord getenv validateUserToken mcp_global ow st r auth (Some req)).
Proof.
  intros Hc Hm Hcap Ha Hid Heid. unfold mcpCheckOutputHandler. rewrite (proj2 (str_eqb_false _ _) Hc).
  assert (Hb : match cq_ResponseData req with Some (_ :: _) => false | _ => true end && str_eqb (cq_Message req) "" = false).
  { destruct Hm as [Hm|(x & l & ->)]; [|done]. rewrite (proj2 (str_eqb_false _ _) Hm). apply andb_false_r. }
  rewrite Hb. destruct auth as [a|e]; [|by apply output_refused_answered]. rewrite Hcap.
  destruct (ResolveUser validateUserToken a _) as [u|e] eqn:Eu; [by apply output_user_answered|].
  rewrite (bool_decide_eq_true_2 _ (only_enterprise_errs _ _ _ _ Eu)). by apply output_user_answered.
Qed.
End Facts.

(** * Concrete responses *)

#[local] Existing Instance ascii_unicode.
#[local] Existing Instance demo_format.
#[local] Existing Instance no_print.

(** The categories are read from [scan], at time [t]. *)
Definition out_world (load scan : policy_db) (t : Z) (limits : option ExfiltrationLimits) : OutWorld :=
  let a := mkAccess (Some scan) t t in
  mkOutWorld
    (mkCheckWorld (demo_world load load) "early-1" "audit-1" false None (Some (demo_tables [] critical)) 0 (fun _ => Ok ∅) 0 (fun _ => Ok ∅)
       (mkAccess (Some load) 0 0) a (mkAccess (Some load) 0 0) 0 (fun s => (s, false)) 0 0 (fun _ => []))
    a a false community_registry (Some IndonesiaFacts.indonesia_detector) id true id id ((fun l => (l, l, l)) <$> limits).

Definition out_state (db : policy_db) : OutState := mkOutState (mkDecideState (Some (demo_engine db)) None [] [] [] []) [] None [] [].

Definition demo_output (rows : option (list row)) (message : string) (rowCount : Z) : MCPCheckOutputRequest :=
  mkCheckOut "cli" "good" "" "" "postgres" "" rows message [] rowCount.

Definition demo_check_output (ow : OutWorld) (db : policy_db) (pii : string) (req : MCPCheckOutputRequest) : output_reply * OutState :=
  mcpCheckOutputHandler demo_order (fun _ => "") ana (demo_mode pii) ow (out_state db) (mkHttp "POST" "/api/v1/mcp/check-output" ∅) (Ok enterprise_auth) (Some req).

(** What an answer shows: allowed, the redacted data, evaluated. *)
Definition answer_of (reply : output_reply) : option (bool * value * bool) :=
  match reply with OutAnswer _ r => Some (co_Allowed r, co_RedactedData r, co_RedactionEvaluated r) | _ => None end.
Definition plain_output (pii : string) (req : MCPCheckOutputRequest) : option (bool * value * bool) :=
  answer_of (demo_check_output (out_world demo_db demo_db 0 None) demo_db pii req).1.

Example responses_masked :
  plain_output "redact" (demo_output None "NIK 3174012509900001, ssn 123-45-6789" 0) = Some (true, VString "NIK 31**********0001, ssn 1*********9", true) /\
  plain_output "block" (demo_output None "NIK 3174012509900001" 0) = Some (false, VNil, false) /\
  plain_output "redact" (demo_output (Some [[("id", VInt 1); ("note", VString "telp 081234567890")]]) "" 1)
    = Some (true, VRows [[("id", VInt 1); ("note", VString "telp 081*****7890")]], true).
Proof. vm_compute. by split_and!. Qed.

(** Beside rows, be they none at all, a message is neither scanned nor masked; the answer
    still says that redaction was evaluated. *)
Example message_beside_rows_passes :
  plain_output "block" (demo_output (Some []) "NIK 3174012509900001, ssn 123-45-6789" 0) = Some (true, VNil, true) /\
  plain_output "block" (demo_output (Some [[("id", VInt 1)]]) "NIK 3174012509900001, ssn 123-45-6789" 1) = Some (true, VNil, true).
Proof. vm_compute. by split. Qed.

(** Only the string cells at the top of a row are looked at for Indonesian identifiers:
    one in a nested object or in a number passes under the blocking posture. *)
Example nested_cells_pass :
  plain_output "block" (demo_output (Some [[("nik", VString "3174012509900001")]]) "" 1) = Some (false, VNil, false) /\
  plain_output "block" (demo_output (Some [[("kyc", VObj [("nik", VString "3174012509900001")])]]) "" 1) = Some (true, VNil, true) /\
  plain_output "block" (demo_output (Some [[("nik", VInt 3174012509900001)]]) "" 1) = Some (true, VNil, true).
Proof. vm_compute. by split_and!. Qed.

(** A load that fails between the load gate and the listing of the categories, when the
    cached policies have expired, leaves nothing to evaluate: the number goes through as
    evaluated. *)
Example load_race_passes :
  plain_output "redact" (demo_output None "ssn 123-45-6789" 0) = Some (true, VString "ssn 1*********9", true) /\
  answer_of (demo_check_output (out_world demo_db (down demo_db) (10 ^ 13) None) demo_db "redact" (demo_output None "ssn 123-45-6789" 0)).1
    = Some (true, VNil, true) /\
  answer_of (demo_check_output (out_world (down demo_db) demo_db 0 None) demo_db "redact" (demo_output None "ssn 123-45-6789" 0)).1
    = Some (false, VNil, false).
Proof. vm_compute. by split_and!. Qed.

(** The row limit is held against the count the caller declares, not the rows it sends. *)
Example undeclared_rows_pass :
  let two := Some [[("id", VInt 1)]; [("id", VInt 2)]] in
  let run n := answer_of (demo_check_output (out_world demo_db demo_db 0 (Some (mkLimits 1 0 true))) demo_db "redact" (demo_output two "" n)).1 in
  run 2 = Some (false, VNil, false) /\ run 0 = Some (true, VNil, true).
Proof. vm_compute. by split. Qed.

(** A match across two cells is found and not masked; the event says so. *)
Example split_identifier_recorded :
  let out := demo_check_output (out_world demo_db demo_db 0 None) demo_db "redact"
               (demo_output (Some [[("bank", VString "rek:"); ("no", VString "1234567890")]]) "" 1) in
  answer_of out.1 = Some (true, VNil, true) /\ Indonesia.eb_Action <$> ou_batches out.2 = ["detected"].
Proof. vm_compute. by split. Qed.





Lemma check_output_audited_witness :
  out_answered (out_world demo_db demo_db 0 None) (out_state demo_db) (Ok enterprise_auth)
    (demo_check_output (out_world demo_db demo_db 0 None) demo_db "redact" (demo_output None "hello" 0)).
Proof.
  unfold demo_check_output. apply (check_output_audited demo_order (fun _ => "") ana).
  - discriminate.
  - left. discriminate.
  - reflexivity.
  - reflexivity.
  - discriminate.
  - discriminate.
Defined.
