(* ===== verification/McpGateway.v ===== *)
(** The connector planes of the MCP gateway, src/platform/agent/mcp_handler.go
    (mcpQueryHandler, mcpExecuteHandler, validateServiceLicense) with
    agent/policy/permissions.go: POST /mcp/resources/query and /mcp/tools/execute, where
    the agent itself runs a statement on a tenant's connector. They put the parts together:
    the authenticator (AgentAuth.v), the connectors of a tenant (Connectors.v), the
    read-only posture (ReadOnly.v), the request policies (McpCheck.v) and the response
    policies (McpOutput.v).

    The authenticator's answer, the licence check, fresh ids, clocks, the databases at each
    access and what the connector answers are arguments or a [GateWorld]. Latencies,
    time-outs of a context, telemetry and log lines are left out. *)

From stdpp Require Import gmap.
From S2P Require Import Prelude GoStrings GoStrconv GoTime GoFmt GoHttp GoJSON PolicyTypes Evaluator PolicyCache Loader Metrics Redactor Engine Exfiltration Sqli EngineFacts RegionalPii DecisionChain Egress Identity License AgentAuth DynGate OverrideApi PolicyClients Detection ReadOnly Decide DecideFacts McpCheck McpCheckFacts McpOutput McpOutputFacts LlmRegistryFacts Connectors.

Local Open Scope Z_scope.

(** * Permissions of a service licence *)

Definition hasPermission (permissions : list string) (permission : string) : bool := str_in permission permissions.

(** [None]: allowed. *)
Definition EvaluateMCPPermission (v : ValidationResult) (connector operation : string) : option string :=
  let p := vr_Permissions v in
  let required := "mcp:" +:+ connector +:+ ":" +:+ operation in
  if negb (vr_Valid v) then Some "license is not valid"
  else if str_eqb connector "" then Some "connector name cannot be empty"
  else if str_eqb operation "" then Some "operation name cannot be empty"
  else if str_eqb (vr_ServiceName v) "" then
    Some ("permission denied: regular org licenses cannot access MCP connectors directly (tenant=" +:+ vr_OrgID v +:+ ", connector=" +:+ connector
          +:+ ", operation=" +:+ operation +:+ ")")
  else if hasPermission p required || hasPermission p ("mcp:" +:+ connector +:+ ":*") || hasPermission p "mcp:*" || hasPermission p "mcp:*:*"
          || hasPermission p "*" then None
  else Some ("permission denied: service '" +:+ vr_ServiceName v +:+ "' (tenant=" +:+ vr_OrgID v +:+ ", type=" +:+ vr_ServiceType v
             +:+ ") does not have permission '" +:+ required +:+ "' (has: [" +:+ String.concat " " p +:+ "])").

(** * The contract *)

Record MCPQueryRequest := mkQueryRequest {
  mq_ClientID : string; mq_LicenseKey : string; mq_UserToken : string; mq_TenantID : string; mq_Connector : string; mq_Operation : string;
  mq_Statement : string; mq_Parameters : list (string * value); mq_Limit : Z; mq_Timeout : string }.

Record MCPExecuteRequest := mkExecuteRequest {
  mx_ClientID : string; mx_LicenseKey : string; mx_UserToken : string; mx_TenantID : string; mx_Connector : string; mx_Operation : string;
  mx_Action : string; mx_Statement : string; mx_Parameters : list (string * value); mx_Timeout : string }.

Record Query := mkQuery { qy_Statement : string; qy_Parameters : list (string * value); qy_Timeout : Z; qy_Limit : Z; qy_ReadOnly : bool }.
Record QueryResult := mkQueryResult { qr_Rows : option (list row); qr_RowCount : Z; qr_DurationMs : Z }.
Record Command := mkCommand { cd_Action : string; cd_Statement : string; cd_Parameters : list (string * value); cd_Timeout : Z }.
Record CommandResult := mkCommandResult { cm_RowsAffected : Z; cm_DurationMs : Z; cm_Message : string; cm_Metadata : row }.

(** The policy info of an answer, with the two parts that nest in it. *)
Record GatePolicyInfo := mkGateInfo { gi_info : PolicyInfo; gi_exfil : option ExfiltrationCheckInfo; gi_dynamic : option DynEval.DynamicPolicyInfo }.

Record GateAnswer := mkGateAnswer {
  ga_Connector : string; ga_Count : Z; ga_DurationMs : Z; ga_Redacted : bool; ga_RedactedFields : list string; ga_PolicyInfo : option GatePolicyInfo }.

Inductive gate_reply :=
| GateError (status : Z) (msg retryAfter : string)
| DynamicRefusal (reason : string) (info : option DynEval.DynamicPolicyInfo)                (** 403 *)
| ExfiltrationRefusal (x : ExfiltrationResult)                                              (** 403 *)
| QueryAnswer (data : option (list row)) (a : GateAnswer)
| ExecuteAnswer (message : string) (a : GateAnswer).

(** An entry of mcp_query_audits of these planes. *)
Record GateEntry := mkGateEntry { ge_entry : OutputAuditEntry; ge_ClientID : string; ge_RowCount : Z; ge_ErrorMessage : string }.

Inductive connector_call := Queried (q : Query) | Executed (c : Command).

(** [gs_calls]: what the connectors have been asked to do. *)
Record GateState := mkGateState {
  gs_out : OutState; gs_connectors : Connectors; gs_entries : list GateEntry; gs_calls : list (Connector * connector_call) }.

Record GateWorld := mkGateWorld {
  gw_out : OutWorld;                                           (** of the evaluations and the records *)
  gw_permissionID : string;                                    (** the decision id of a permission refused *)
  gw_access : Z * Z; gw_sources : Runtime.Sources;             (** of the access check *)
  gw_load : Tenant.Load; gw_fresh : nat; gw_connected : option string;     (** of the look-up *)
  gw_query : Connector -> Query -> result string QueryResult;
  gw_execute : Connector -> Command -> result string CommandResult }.

(** What a request is known by once its user is resolved. *)
Record Pep := mkPep {
  pe_auth : AuthResult; pe_user : User; pe_orgID : string; pe_connector : string; pe_operation : string; pe_hash : string;
  pe_requestType : string; pe_descriptor : string; pe_trace : string }.

Section Gateway.
Context `{U : Unicode} `{PT : UnicodePrint} `{F : GoFormat} `{UC : UnicodeCase}.
Context (ord : nat -> string -> pattern_map -> pattern_map).
Context (getenv : string -> string) (validateUserToken : string -> string -> result string User).
Context (ValidateLicense : string -> result string ValidationResult).
Context (buildURL : string -> list (string * value) -> list (string * string) -> string).
Context (mcp_global : ModeDetectionConfig) (gw : GateWorld).
Local Abbreviation ow := (gw_out gw).
Local Abbreviation cw := (ow_check ow).
Local Abbreviation w := (cw_world cw).

Definition on_decide (st : GateState) (d : DecideState) : GateState :=
  mkGateState (on_state (gs_out st) d) (gs_connectors st) (gs_entries st) (gs_calls st).
Definition on_connectors (st : GateState) (g : Connectors) : GateState := mkGateState (gs_out st) g (gs_entries st) (gs_calls st).
Definition on_out (st : GateState) (o : OutState) : GateState := mkGateState o (gs_connectors st) (gs_entries st) (gs_calls st).
Definition log_entry (st : GateState) (e : GateEntry) : GateState := mkGateState (gs_out st) (gs_connectors st) (gs_entries st ++ [e]) (gs_calls st).
Definition call (st : GateState) (c : Connector) (k : connector_call) : GateState :=
  mkGateState (gs_out st) (gs_connectors st) (gs_entries st) (gs_calls st ++ [(c, k)]).
Local Abbreviation decide_of := (fun st => ou_state (gs_out st)).

(** Whether a service licence grants the operation; an error is answered. *)
Definition validateServiceLicense (st : GateState) (licenseKey connector operation fallbackOperation tenantID orgID clientID : string)
  : (gate_reply + bool) * GateState :=
  if str_eqb licenseKey "" || isCommunityMode getenv || isCommunitySaasMode getenv then (inr false, st)
  else match ValidateLicense licenseKey with
  | Err _ => (inl (GateError 401 "Invalid license key" ""), st)
  | Ok v =>
      if negb (vr_Valid v) then (inl (GateError 401 "License invalid or expired" ""), st)
      else if str_eqb (vr_ServiceName v) "" then (inr false, st)
      else
        let op := or_default operation fallbackOperation in
        match EvaluateMCPPermission v connector op with
        | None => (inr true, st)
        | Some e =>
            (inl (GateError 403 ("Permission denied: " +:+ e) ""),
             on_decide st (writeMCPDecisionAudit cw "" (decide_of st) (gw_permissionID gw) "" tenantID orgID clientID "" "" "service" "mcp_permission_check"
                             ("mcp permission: " +:+ connector +:+ ":" +:+ op) "" AuditVerdictBlocked ["mcp_permission_denied"]
                             ["service permission denied for " +:+ connector +:+ ":" +:+ op] [] "" "" ""))
        end
  end.

(** The user of a request, or the service user an enterprise client falls back to. *)
Definition gate_user (a : AuthResult) (token : string) : result AuthError User :=
  match ResolveUser validateUserToken a token with
  | Ok u => Ok u
  | Err e =>
      let client := au_Client a in
      if bool_decide (au_Kind a = AuthKindEnterprise)
      then Ok (mkAgentUser 0 (cl_ID client +:+ "@axonflow.local") (cl_Name client) (cl_TenantID client) "service" (cl_Permissions client) "")
      else Err e
  end.

(** The licence, the access of the tenant, and its connector. *)
Definition authorize (st : GateState) (licenseKey connector operation fallback tenantID orgID clientID : string) : (gate_reply + Connector) * GateState :=
  match validateServiceLicense st licenseKey connector operation fallback tenantID orgID clientID with
  | (inl reply, st) => (inl reply, st)
  | (inr granted, st) =>
      let '(denied, st) :=
        if granted then (None, st)
        else let '(e, g) := validateTenantConnectorAccess buildURL (gw_access gw).1 (gw_access gw).2 (gw_sources gw) connector tenantID (gs_connectors st) in
             (e, on_connectors st g) in
      match denied with
      | Some _ => (inl (GateError 403 "Unauthorized connector access" ""), st)
      | None =>
          let '(res, g) := GetConnectorForTenant buildURL (gw_load gw) (gw_fresh gw) (gw_connected gw) tenantID connector (gs_connectors st) in
          (match res with Ok c => inr c | Err _ => inl (GateError 404 "Connector not found" "") end, on_connectors st g)
      end
  end.

Definition parse_timeout (s : string) : option Z := if str_eqb s "" then Some 0 else ParseDuration s.

Section Pep.
Context (p : Pep).
Local Abbreviation u := (pe_user p).
Local Abbreviation client := (au_Client (pe_auth p)).

(** [emitDecisionAudit] *)
Definition emit (clientID : string) (st : GateState) (verdict : string) (policyIDs reasons redactedFields : list string) : GateState :=
  on_decide st (writeMCPDecisionAudit cw "" (decide_of st) (w_decisionID w) (cw_auditID cw) (us_TenantID u) (pe_orgID p) clientID (us_Email u)
                  (Itoa (us_ID u)) (us_Role u) (pe_requestType p) (pe_descriptor p) (pe_hash p) verdict policyIDs reasons redactedFields (pe_trace p) "" "").

(** The entry of the request, as far as it got: what the policies of the request said,
    the redaction of the response, and the outcome. *)
Definition gate_entry (static : option RequestResult) (o : option OutputPolicyOutcome) (exfilRows : Z) (exfil : option ExfiltrationResult)
    (blocked : bool) (reason : string) (rowCount : Z) (success : bool) (error : string) : GateEntry :=
  let redacted := match o with Some o => WasRedacted o | None => false end in
  mkGateEntry
    (mkOutEntry
       (mkSatellite (cw_auditID cw) (pe_connector p) (pe_operation p) (us_TenantID u) (pe_orgID p) (Itoa (us_ID u)) (pe_hash p) "" 0 (w_decisionID w)
          blocked reason (from_option rq_PoliciesEvaluated 0%nat static) (match static with Some r => m_PolicyID <$> rq_MatchedPolicies r | None => [] end)
          ∅ redacted (match o with Some o => if redacted then RedactedFieldNames o else [] | None => [] end) success)
       exfilRows (match exfil with Some _ => true | None => false end) (from_option LimitType "" exfil))
    (cl_ClientID client) rowCount error.

(** The read-only posture refuses: an entry and a row. *)
Definition posture_refusal (st : GateState) (clientID reason : string) : gate_reply * GateState :=
  (GateError 403 ("Request blocked: " +:+ reason) "",
   emit clientID (log_entry st (gate_entry None None 0 None true reason 0 false "")) AuditVerdictBlocked [readOnlyPosturePolicyID] [reason] []).

(** The posture of the user's organization, then the policies of the request. *)
Definition gate_input (st : GateState) (statement : string) (parameters : list (string * value)) : InputPolicyOutcome * GateState :=
  let d := decide_of st in
  let '(cfg, overrides) := applyOrgDetectionOverrides (st_overrides d) (w_now w) (w_read w (us_OrgID u)) (us_OrgID u) mcp_global in
  let '(outcome, engine) :=
    evaluateInputPolicies cw (st_engine d) (us_TenantID u) (us_OrgID u) (Itoa (us_ID u)) (pe_connector p) "" statement parameters cfg in
  (outcome, on_decide st (with_engine (with_overrides d overrides) engine)).

(** The refusal of a request, when its policies refuse it. *)
Definition input_refusal (st : GateState) (outcome : InputPolicyOutcome) : option (gate_reply * GateState) :=
  if io_EvalUnavailable outcome then
    Some (GateError 503 "Dynamic policy evaluation unavailable" "",
          emit (cl_ID client) st AuditVerdictError ["dynamic_policy_unavailable"] ["dynamic policy evaluation unavailable"] [])
  else if io_DynamicBlocked outcome then
    let '(verdict, policyIDs, reasons) := mcpInputDecisionVerdict outcome false in
    Some (DynamicRefusal (io_DynamicBlockReason outcome) (io_DynamicInfo outcome),
          emit (cl_ID client) (log_entry st (gate_entry None None 0 None true (io_DynamicBlockReason outcome) 0 false "")) verdict policyIDs reasons [])
  else match io_StaticResult outcome with
  | Some r =>
      if rq_Blocked r then
        Some (GateError 403 ("Request blocked: " +:+ rq_BlockReason r) "",
              emit (cl_ID client) (log_entry st (gate_entry (Some r) None 0 None true (rq_BlockReason r) 0 false "")) AuditVerdictBlocked
                (m_PolicyID <$> rq_MatchedPolicies r) [rq_BlockReason r] [])
      else None
  | None => None
  end.

Definition gate_info (outcome : InputPolicyOutcome) (o : OutputPolicyOutcome) : option GatePolicyInfo :=
  match BuildPolicyInfo (io_StaticResult outcome) (oo_StaticResult o), oo_Exfil o, io_DynamicInfo outcome with
  | None, None, None => None
  | info, exfil, dynamic => Some (mkGateInfo (default (mkInfo 0 false "" 0 []) info) (snd <$> exfil) dynamic)
  end.

(** A response that its policies refuse, or the answer; [exfilRows] is what the entry
    records as returned, [count] the rows of the result. *)
Definition gate_output (st : GateState) (outcome : InputPolicyOutcome) (o : OutputPolicyOutcome) (exfilRows count durationMs : Z)
    (answer : GateAnswer -> gate_reply) : gate_reply * GateState :=
  let '(verdict, policyIDs, reasons) := mcpOutputDecisionVerdict o in
  let static := io_StaticResult outcome in
  let refuse reply blocked reason exfil :=
    (reply, emit (cl_ID client) (log_entry st (gate_entry static (Some o) exfilRows exfil blocked reason count false "")) verdict policyIDs reasons []) in
  if oo_SQLiBlocked o then
    refuse (GateError 403 ("Response blocked: potential SQL injection detected (pattern: " +:+ oo_SQLiPattern o +:+ ")") "") true
      ("SQL injection detected: " +:+ oo_SQLiPattern o) None
  else match statically_blocked o, exfiltrates o with
  | Some r, _ => let reason := "Response blocked: " +:+ rs_BlockReason r in refuse (GateError 403 reason "") true reason None
  | None, Some (x, _) => refuse (ExfiltrationRefusal x) false "" (Some x)
  | None, None =>
      let redacted := WasRedacted o in
      (answer (mkGateAnswer (pe_connector p) count durationMs redacted (if redacted then RedactedFieldNames o else []) (gate_info outcome o)),
       emit (cl_ID client) (log_entry st (gate_entry static (Some o) exfilRows None false "" count true "")) verdict policyIDs reasons (RedactedFieldNames o))
  end.

(** A connector that fails: its text stays out of the decision's row. *)
Definition connector_failure (st : GateState) (outcome : InputPolicyOutcome) (error reason msg : string) : gate_reply * GateState :=
  (GateError 500 msg "",
   emit (cl_ID client) (log_entry st (gate_entry (io_StaticResult outcome) None 0 None false "" 0 false error)) AuditVerdictError ["connector_error"] [reason] []).

Definition run_query (st : GateState) (c : Connector) (q : Query) : gate_reply * GateState :=
  if readOnlyPostureEnabled getenv && statementIsWritePath (qy_Statement q) then
    posture_refusal st (cl_ID client)
      ("read-only posture active: write-path statement on connector " +:+ quote (pe_connector p) +:+ " is blocked; only read-path operations are permitted")
  else
    let '(outcome, st) := gate_input st (qy_Statement q) (qy_Parameters q) in
    match input_refusal st outcome with
    | Some r => r
    | None =>
        let st := call st c (Queried q) in
        match gw_query gw c q with
        | Err e => connector_failure st outcome e "query execution failed" "Query execution failed"
        | Ok res =>
            let '(o, out) := evaluateOutputPolicies ord mcp_global ow (gs_out st) (cl_OrgID client) (us_TenantID u) (Itoa (us_ID u)) (pe_connector p) ""
                               (qr_Rows res) "" [] (qr_RowCount res) true false in
            gate_output (on_out st out) outcome o (qr_RowCount res) (qr_RowCount res) (qr_DurationMs res)
              (QueryAnswer (match oo_RedactedRows o with Some rows => Some rows | None => qr_Rows res end))
        end
    end.

Definition run_execute (st : GateState) (c : Connector) (k : Command) : gate_reply * GateState :=
  let '(outcome, st) := gate_input st (cd_Statement k) (cd_Parameters k) in
  match input_refusal st outcome with
  | Some r => r
  | None =>
      let st := call st c (Executed k) in
      match gw_execute gw c k with
      | Err e => connector_failure st outcome e "command execution failed" "Command execution failed"
      | Ok res =>
          let '(o, out) := evaluateOutputPolicies ord mcp_global ow (gs_out st) (cl_OrgID client) (us_TenantID u) (Itoa (us_ID u)) (pe_connector p) ""
                             None (cm_Message res) (cm_Metadata res) (cm_RowsAffected res) false false in
          gate_output (on_out st out) outcome o 0 (cm_RowsAffected res) (cm_DurationMs res)
            (ExecuteAnswer (or_default (oo_RedactedMessage o) (cm_Message res)))
      end
  end.
End Pep.

(** The handlers. [registry] is whether the static registry is initialised. *)

Definition authenticated (auth : result AuthError AuthResult) (token : string) (k : AuthResult -> User -> gate_reply * GateState) (st : GateState)
  : gate_reply * GateState :=
  match auth with
  | Err e => (GateError (ae_HTTPStatus e) (ae_Message e) (ae_RetryAfter e), st)
  | Ok a =>
      match gate_user a token with
      | Err e => (GateError (ae_HTTPStatus e) (ae_Message e) "", st)
      | Ok u => if str_eqb (us_TenantID u) (cl_TenantID (au_Client a)) then k a u else (GateError 403 "Tenant mismatch" "", st)
      end
  end.

Definition registry_missing (st : GateState) : bool := match cn_static (gs_connectors st) with None => true | Some _ => false end.

Definition mcpQueryHandler (st : GateState) (r : HttpRequest) (auth : result AuthError AuthResult) (body : option MCPQueryRequest) : gate_reply * GateState :=
  if registry_missing st then (GateError 503 "MCP registry not initialized" "", st)
  else match body with
  | None => (GateError 400 "Invalid request body" "", st)
  | Some req =>
      authenticated auth (mq_UserToken req) (fun a u =>
        let client := au_Client a in
        let licenseKey := or_default (mq_LicenseKey req) (extractClientSecret r) in
        match authorize st licenseKey (mq_Connector req) (mq_Operation req) "query" (us_TenantID u) (cl_OrgID client) (cl_ClientID client) with
        | (inl reply, st) => (reply, st)
        | (inr c, st) =>
            match parse_timeout (mq_Timeout req) with
            | None => (GateError 400 "Invalid timeout format" "", st)
            | Some timeout =>
                let statement := or_default (mq_Statement req) (mq_Operation req) in
                run_query
                  (mkPep a u (cl_OrgID client) (mq_Connector req) "query" (computeStatementHash statement) "mcp_resources_query"
                     ("mcp resources/query: " +:+ mq_Connector req) (traceIDFromHeader (hdr r "traceparent")))
                  st c (mkQuery statement (mq_Parameters req) timeout (mq_Limit req) (readOnlyPostureEnabled getenv))
            end
        end) st
  end.

Definition execute_operation (req : MCPExecuteRequest) : string := or_default (mx_Operation req) (or_default (ToLower (mx_Action req)) "execute").

Definition mcpExecuteHandler (st : GateState) (r : HttpRequest) (auth : result AuthError AuthResult) (body : option MCPExecuteRequest) : gate_reply * GateState :=
  if registry_missing st then (GateError 503 "MCP registry not initialized" "", st)
  else match body with
  | None => (GateError 400 "Invalid request body" "", st)
  | Some req =>
      authenticated auth (mx_UserToken req) (fun a u =>
        let client := au_Client a in
        let operation := execute_operation req in
        let pep hash := mkPep a u (au_OrgID a) (mx_Connector req) operation hash "mcp_tools_execute" ("mcp tools/execute: " +:+ mx_Connector req)
                          (traceIDFromHeader (hdr r "traceparent")) in
        if readOnlyPostureEnabled getenv && match classifyMCPCall (mx_Connector req) "" operation with mcpAccessWrite => true | _ => false end then
          posture_refusal (pep "") st (cl_ClientID client)
            ("read-only posture active: write-path tool call " +:+ quote (mx_Connector req) +:+ " is blocked; only read-path operations are permitted")
        else
          let licenseKey := or_default (mx_LicenseKey req) (extractClientSecret r) in
          match authorize st licenseKey (mx_Connector req) (mx_Operation req) (ToLower (mx_Action req)) (us_TenantID u) (au_OrgID a) (cl_ClientID client) with
          | (inl reply, st) => (reply, st)
          | (inr c, st) =>
              match parse_timeout (mx_Timeout req) with
              | None => (GateError 400 "Invalid timeout format" "", st)
              | Some timeout =>
                  run_execute (pep (computeStatementHash (mx_Statement req))) st c (mkCommand (mx_Action req) (mx_Statement req) (mx_Parameters req) timeout)
              end
          end) st
  end.
End Gateway.

(** * What the planes promise *)

Section Facts.
Context `{U : Unicode} `{PT : UnicodePrint} `{F : GoFormat} `{UC : UnicodeCase} `{CC : ConnectorColumns}.
Context (ord : nat -> string -> pattern_map -> pattern_map).
Context (getenv : string -> string) (validateUserToken : string -> string -> result string User).
Context (ValidateLicense : string -> result string ValidationResult).
Context (buildURL : string -> list (string * value) -> list (string * string) -> string).
Context (mcp_global : ModeDetectionConfig) (gw : GateWorld).
Local Abbreviation ow := (gw_out gw).
Local Abbreviation cw := (ow_check ow).
Local Abbreviation w := (cw_world cw).
Local Abbreviation decide_of := (fun st => ou_state (gs_out st)).
Local Abbreviation authorize := (authorize getenv ValidateLicense buildURL gw).
Local Abbreviation run_query := (run_query ord getenv mcp_global gw).
Local Abbreviation run_execute := (run_execute ord mcp_global gw).
Local Abbreviation mcpQueryHandler := (mcpQueryHandler ord getenv validateUserToken ValidateLicense buildURL mcp_global gw).
Local Abbreviation mcpExecuteHandler := (mcpExecuteHandler ord getenv validateUserToken ValidateLicense buildURL mcp_global gw).

(** ** Authorization *)

(** A service licence that is valid and permits the operation. *)
Definition licensed (licenseKey connector operation : string) : Prop :=
  exists v, ValidateLicense licenseKey = Ok v /\ vr_Valid v = true /\ vr_ServiceName v <> "" /\ EvaluateMCPPermission v connector operation = None.

Lemma license_granted st key connector op fallback t org client st' :
  validateServiceLicense getenv ValidateLicense gw st key connector op fallback t org client = (inr true, st') ->
  st' = st /\ licensed key connector (or_default op fallback).
Proof.
  unfold validateServiceLicense. repeat case_match; intros [= <-]; try done. bool_simpl.
  split; [done|]. eexists. split_and!; [done|by destruct (vr_Valid _)|by apply str_eqb_false|done].
Qed.

Lemma license_calls st key connector op fallback t org client res st' :
  validateServiceLicense getenv ValidateLicense gw st key connector op fallback t org client = (res, st') ->
  gs_calls st' = gs_calls st /\ gs_connectors st' = gs_connectors st /\ (forall b, res = inr b -> st' = st).
Proof. unfold validateServiceLicense. repeat case_match; intros [= <- <-]; by split_and!. Qed.

(** An authorized request leaves everything but the registries alone: its connector was
    handed to the tenant, after the licence or the tenant's access was found good. *)
Lemma authorize_spec st key connector op fallback t org client res st' :
  authorize st key connector op fallback t org client = (res, st') ->
  gs_calls st' = gs_calls st /\
  forall c, res = inr c ->
    gs_out st' = gs_out st /\ gs_entries st' = gs_entries st /\
    exists g, GetConnectorForTenant buildURL (gw_load gw) (gw_fresh gw) (gw_connected gw) t connector g = (Ok c, gs_connectors st') /\
      ((licensed key connector (or_default op fallback) /\ g = gs_connectors st) \/
       validateTenantConnectorAccess buildURL (gw_access gw).1 (gw_access gw).2 (gw_sources gw) connector t (gs_connectors st) = (None, g)).
Proof.
  unfold McpGateway.authorize. destruct (validateServiceLicense _ _ _ _ _ _ _ _ _ _ _) as [[reply|granted] st1] eqn:El.
  { intros [= <- <-]. apply license_calls in El as (? & _ & _). by split. }
  destruct (license_calls _ _ _ _ _ _ _ _ _ _ El) as (_ & _ & E). rewrite (E _ eq_refl) in *. clear E st1. destruct granted.
  - apply license_granted in El as [_ Hl]. destruct (GetConnectorForTenant _ _ _ _ _ _ _) as [[c|e] g'] eqn:Eg; intros [= <- <-]; (split; [done|]); [|done].
    intros ? [= <-]. split; [done|split; [done|]]. exists (gs_connectors st). split; [done|by left].
  - destruct (validateTenantConnectorAccess _ _ _ _ _ _ _) as [[e|] g] eqn:Ea; [by intros [= <- <-]|].
    cbn [gs_connectors on_connectors].
    destruct (GetConnectorForTenant _ _ _ _ _ _ _) as [[c|e] g'] eqn:Eg; intros [= <- <-]; (split; [done|]); [|done].
    intros ? [= <-]. split; [done|split; [done|]]. exists g. split; [done|by right].
Qed.

Lemma authorize_error st key connector op fallback t org client reply st' :
  authorize st key connector op fallback t org client = (inl reply, st') -> exists status msg, reply = GateError status msg "".
Proof.
  unfold McpGateway.authorize. destruct (validateServiceLicense _ _ _ _ _ _ _ _ _ _ _) as [[reply0|granted] st1] eqn:El.
  - intros [= <- <-]. revert El. unfold validateServiceLicense. repeat case_match; intros; simplify_eq; eauto.
  - destruct (if granted then _ else _) as [[e|] st2]; [intros [= <- <-]; eauto|].
    destruct (GetConnectorForTenant _ _ _ _ _ _ _) as [[c|e] g]; intros [= <- <-]; eauto.
Qed.

(** ** Policies *)

(** The request's policies let it pass. *)
Definition admitted (p : Pep) (st : GateState) (statement : string) (parameters : list (string * value)) : Prop :=
  let outcome := (gate_input mcp_global gw p st statement parameters).1 in
  io_EvalUnavailable outcome = false /\ io_DynamicBlocked outcome = false /\ forall r, io_StaticResult outcome = Some r -> rq_Blocked r = false.

Lemma gate_input_same p st1 st2 statement parameters :
  gs_out st1 = gs_out st2 -> (gate_input mcp_global gw p st1 statement parameters).1 = (gate_input mcp_global gw p st2 statement parameters).1.
Proof.
  intros E. unfold gate_input. rewrite E. destruct (applyOrgDetectionOverrides _ _ _ _ _) as [cfg ovs].
  by destruct (evaluateInputPolicies _ _ _ _ _ _ _ _ _ _) as [outcome engine].
Qed.

Lemma gate_input_keeps p st statement parameters :
  let st' := (gate_input mcp_global gw p st statement parameters).2 in
  gs_calls st' = gs_calls st /\ gs_entries st' = gs_entries st /\ st_audit (decide_of st') = st_audit (decide_of st).
Proof.
  unfold gate_input. destruct (applyOrgDetectionOverrides _ _ _ _ _) as [cfg ovs].
  by destruct (evaluateInputPolicies _ _ _ _ _ _ _ _ _ _) as [outcome engine].
Qed.

Lemma input_refusal_none p st outcome :
  input_refusal gw p st outcome = None ->
  io_EvalUnavailable outcome = false /\ io_DynamicBlocked outcome = false /\ forall r, io_StaticResult outcome = Some r -> rq_Blocked r = false.
Proof.
  unfold input_refusal. destruct (io_EvalUnavailable outcome); [done|]. destruct (io_DynamicBlocked outcome).
  - by destruct (mcpInputDecisionVerdict _ _) as [[? ?] ?].
  - intros H. split_and!; [done|done|]. intros r Hr. rewrite Hr in H. by destruct (rq_Blocked r).
Qed.

Lemma input_refusal_calls p st outcome reply st' : input_refusal gw p st outcome = Some (reply, st') ->
  gs_calls st' = gs_calls st /\ (forall data a, reply <> QueryAnswer data a) /\ (forall m a, reply <> ExecuteAnswer m a).
Proof. unfold input_refusal. repeat case_match; intros [= <- <-]; by split_and!. Qed.

Lemma gate_output_calls p st outcome o rows count ms answer : gs_calls (gate_output gw p st outcome o rows count ms answer).2 = gs_calls st.
Proof. unfold gate_output. by repeat case_match. Qed.

(** What leaves the gate has been cleared by the response phase: the scan, the engine and
    the limits. *)
Definition outcome_clear (o : OutputPolicyOutcome) : Prop := oo_SQLiBlocked o = false /\ statically_blocked o = None /\ exfiltrates o = None.

Lemma gate_output_answer p st outcome o rows count ms answer :
  (forall status msg retry a, answer a <> GateError status msg retry) -> (forall x a, answer a <> ExfiltrationRefusal x) ->
  forall a, (gate_output gw p st outcome o rows count ms answer).1 = answer a -> outcome_clear o.
Proof.
  intros He Hx a. unfold gate_output, outcome_clear. destruct (mcpOutputDecisionVerdict o) as [[v ids] rs].
  destruct (oo_SQLiBlocked o); [intros E; symmetry in E; by apply He in E|].
  destruct (statically_blocked o); [intros E; symmetry in E; by apply He in E|].
  destruct (exfiltrates o) as [[x i]|]; [intros E; symmetry in E; by apply Hx in E|done].
Qed.

(** The response phase of a plane on what the connector answered. *)
Definition response_phase (p : Pep) (out : OutState) (rows : option (list row)) (message : string) (metadata : row) (count : Z) (exfil : bool)
  : OutputPolicyOutcome :=
  (evaluateOutputPolicies ord mcp_global ow out (cl_OrgID (au_Client (pe_auth p))) (us_TenantID (pe_user p)) (Itoa (us_ID (pe_user p))) (pe_connector p) ""
     rows message metadata count exfil false).1.


Definition message_cleared (p : Pep) (c : Connector) (k : Command) (message : string) : Prop :=
  exists res out, gw_execute gw c k = Ok res /\
    let o := response_phase p out None (cm_Message res) (cm_Metadata res) (cm_RowsAffected res) false in
    outcome_clear o /\ message = or_default (oo_RedactedMessage o) (cm_Message res).


Lemma run_execute_spec p st c k reply st' :
  run_execute p st c k = (reply, st') ->
  (gs_calls st' = gs_calls st /\ forall message a, reply <> ExecuteAnswer message a) \/
  (gs_calls st' = gs_calls st ++ [(c, Executed k)] /\ admitted p st (cd_Statement k) (cd_Parameters k) /\
   forall message a, reply = ExecuteAnswer message a -> message_cleared p c k message).
Proof.
  unfold McpGateway.run_execute.
  pose proof (gate_input_keeps p st (cd_Statement k) (cd_Parameters k)) as (Hcalls & _ & _). unfold admitted.
  destruct (gate_input _ _ _ _ _ _) as [outcome st1]. cbn [fst snd] in *.
  destruct (input_refusal gw p st1 outcome) as [[reply1 st2]|] eqn:Ei.
  { intros [= <- <-]. left. apply input_refusal_calls in Ei as (? & _ & ?). split; [congruence|done]. }
  apply input_refusal_none in Ei as (Hun & Hdy & Hst). intros H. right. rewrite <- Hcalls.
  destruct (gw_execute gw c k) as [res|e] eqn:Eq; [|injection H as <- <-; by split_and!].
  destruct (evaluateOutputPolicies _ _ _ _ _ _ _ _ _ _ _ _ _ _ _) as [o out] eqn:Eo.
  pose proof (f_equal (fun x => gs_calls x.2) H) as Hc. cbn [snd] in Hc. rewrite gate_output_calls in Hc.
  split_and!; [by rewrite <- Hc|done|done|done|].
  intros message a ->. exists res, (gs_out (call st1 c (Executed k))). split; [done|]. cbv zeta. unfold response_phase. rewrite Eo. cbn [fst].
  pose proof (f_equal fst H) as Hr. cbn [fst] in Hr. clear H Hc.
  assert (Hd : message = or_default (oo_RedactedMessage o) (cm_Message res)).
  { unfold gate_output in Hr. destruct (mcpOutputDecisionVerdict o) as [[v ids] rs]. destruct (oo_SQLiBlocked o); [done|].
    destruct (statically_blocked o); [done|]. destruct (exfiltrates o) as [[x i]|]; [done|]. by injection Hr. }
  subst message. split; [|done]. by eapply gate_output_answer; [..|exact Hr].
Qed.

(** ** Confinement *)

Section Confined.
Context (env : list ConnectorConfig).
Context (Henv : Runtime.so_env (gw_sources gw) = env) (Henv' : Runtime.so_env (Tenant.ld_sources (gw_load gw)) = env).

(** A tenant's name that the keys of the registries can tell from others. *)
Definition separable (t : string) : Prop := no_nul t /\ TenantFacts.no_colon t /\ t <> Registry.SharedTenant.

Lemma authorize_owned st key connector op fallback t org client c st' :
  AgentConnectors.reachable buildURL env (gs_connectors st) -> separable t ->
  authorize st key connector op fallback t org client = (inr c, st') -> connected_with c (fun cfg => owned t cfg \/ cfg ∈ env).
Proof.
  intros Hr (Hn & Hc & Hs) H. apply authorize_spec in H as (_ & H). destruct (H c eq_refl) as (_ & _ & g & Hg & Ha).
  assert (Hg' : AgentConnectors.reachable buildURL env g) by (destruct Ha as [[_ ->]|Ha]; [done|by eapply AgentConnectors.reachable_access; [done|exact Henv|exact Ha]]).
  destruct Hg' as (a & p & Hb & Hrt). eapply AgentConnectors.separated_owned; eauto using AgentConnectors.reachable_separated.
Qed.


(** The execute plane, to the same effect: but its posture looks at the names of the
    connector and of the operation, not at the statement. *)
Theorem execute_plane_confined st r auth req reply st' :
  AgentConnectors.reachable buildURL env (gs_connectors st) -> (forall a, auth = Ok a -> separable (cl_TenantID (au_Client a))) ->
  mcpExecuteHandler st r auth (Some req) = (reply, st') ->
  (gs_calls st' = gs_calls st /\ forall message a, reply <> ExecuteAnswer message a) \/
  exists a p c k,
    auth = Ok a /\ pe_auth p = a /\ us_TenantID (pe_user p) = cl_TenantID (au_Client a) /\ pe_connector p = mx_Connector req /\
    gs_calls st' = gs_calls st ++ [(c, Executed k)] /\ cd_Statement k = mx_Statement req /\ cd_Parameters k = mx_Parameters req /\
    connected_with c (fun cfg => owned (cl_TenantID (au_Client a)) cfg \/ cfg ∈ env) /\
    admitted p st (cd_Statement k) (cd_Parameters k) /\
    (readOnlyPostureEnabled getenv = true -> classifyMCPCall (mx_Connector req) "" (execute_operation req) = mcpAccessRead) /\
    forall message a', reply = ExecuteAnswer message a' -> message_cleared p c k message.
Proof.
  intros Hr Hsep. unfold McpGateway.mcpExecuteHandler. destruct (registry_missing st); [intros [= <- <-]; by left|].
  unfold authenticated. destruct auth as [a|e]; [|intros [= <- <-]; by left].
  destruct (gate_user _ a _) as [u|e]; [|intros [= <- <-]; by left].
  destruct (str_eqb (us_TenantID u) _) eqn:Et; [apply str_eqb_true in Et|intros [= <- <-]; by left].
  destruct (readOnlyPostureEnabled getenv && _) eqn:Ero; [intros [= <- <-]; by left|].
  destruct (McpGateway.authorize _ _ _ _ _ _ _ _ _ _ _ _) as [[reply0|c] st1] eqn:Ea.
  { destruct (authorize_spec _ _ _ _ _ _ _ _ _ _ Ea) as [Hc _]. intros [= <- <-]. left. split; [done|].
    by apply authorize_error in Ea as (status & msg & ->). }
  pose proof Ea as Ho. rewrite Et in Ho. apply authorize_owned in Ho; [|done|by apply Hsep].
  destruct (authorize_spec _ _ _ _ _ _ _ _ _ _ Ea) as [Hc Hout]. destruct (Hout c eq_refl) as (Hsame & _ & _).
  destruct (parse_timeout _) as [timeout|]; [|intros [= <- <-]; by left].
  intros H. apply run_execute_spec in H as [[Hcalls Hno]|(Hcalls & Had & Hrows)]; [left; split; [congruence|done]|right].
  eexists a, _, c, _. split_and!; [done|..|exact Hrows]; try done.
  - by rewrite Hcalls, Hc.
  - unfold admitted in *. by rewrite <- (gate_input_same _ st1 st).
  - intros E. rewrite E in Ero. by destruct (classifyMCPCall _ _ _).
Qed.
End Confined.

(** ** Records *)

(** The verdict a reply stands for. *)
Definition gate_verdict (reply : gate_reply) : string :=
  match reply with
  | QueryAnswer _ a | ExecuteAnswer _ a => if ga_Redacted a then AuditVerdictRedacted else AuditVerdictAllowed
  | GateError status _ _ => if status =? 403 then AuditVerdictBlocked else AuditVerdictError
  | DynamicRefusal _ _ | ExfiltrationRefusal _ => AuditVerdictBlocked
  end.

(** One row in the decision feed, under the request's tenant and organization, and one
    entry of the satellite table with the same decision id. *)
Definition on_record (p : Pep) (st st' : GateState) (verdict : string) : Prop :=
  mcp_recorded (decide_of st) (decide_of st') (w_decisionID w) (pe_orgID p) (us_TenantID (pe_user p)) verdict /\
  exists e, gs_entries st' = gs_entries st ++ [e] /\ sa_DecisionID (oa_entry (ge_entry e)) = w_decisionID w.

Section Audited.
Context (Haud : audits cw (w_decisionID w)).

Lemma emitted_entry p client st e verdict ids reasons fields :
  sa_DecisionID (oa_entry (ge_entry e)) = w_decisionID w -> on_record p st (emit gw p client (log_entry st e) verdict ids reasons fields) verdict.
Proof. intros He. split; [by apply written_mcp|]. by exists e. Qed.

Lemma gate_output_recorded p st outcome o rows count ms answer :
  (forall a, gate_verdict (answer a) = if ga_Redacted a then AuditVerdictRedacted else AuditVerdictAllowed) ->
  on_record p st (gate_output gw p st outcome o rows count ms answer).2 (gate_verdict (gate_output gw p st outcome o rows count ms answer).1).
Proof.
  intros Ha. unfold gate_output, mcpOutputDecisionVerdict. destruct (oo_SQLiBlocked o); [by apply emitted_entry|].
  destruct (statically_blocked o) as [r|]; [by apply emitted_entry|].
  destruct (exfiltrates o) as [[x i]|]; [by apply emitted_entry|]. cbn [fst snd].
  destruct (WasRedacted o) eqn:Er; cbn [fst snd]; rewrite Ha; cbn [ga_Redacted]; by apply emitted_entry.
Qed.

(** What precedes the call leaves both records alone. *)
Lemma on_record_from p st st1 st2 verdict :
  st_audit (decide_of st1) = st_audit (decide_of st) -> gs_entries st1 = gs_entries st -> on_record p st1 st2 verdict -> on_record p st st2 verdict.
Proof. intros Ha He [Hr Hx]. split; [|by rewrite <- He]. unfold mcp_recorded in *. by rewrite <- Ha. Qed.

Lemma run_query_recorded p st c q reply st' :
  run_query p st c q = (reply, st') -> gs_calls st' <> gs_calls st -> on_record p st st' (gate_verdict reply).
Proof.
  unfold McpGateway.run_query. destruct (readOnlyPostureEnabled getenv && _); [by intros [= <- <-]|].
  pose proof (gate_input_keeps p st (qy_Statement q) (qy_Parameters q)) as (Hc & He & Ha).
  destruct (gate_input _ _ _ _ _ _) as [outcome st1]. cbn [snd] in *.
  destruct (input_refusal gw p st1 outcome) as [[reply1 st2]|] eqn:Ei.
  { intros [= <- <-] Hn. apply input_refusal_calls in Ei as (Hi & _ & _). congruence. }
  intros H _. apply (on_record_from p st st1); [done|done|].
  destruct (gw_query gw c q) as [res|e]; [|injection H as <- <-; by apply (emitted_entry p _ (call st1 c (Queried q)))].
  pose proof (evaluation_audit ord mcp_global ow (gs_out (call st1 c (Queried q))) (cl_OrgID (au_Client (pe_auth p))) (us_TenantID (pe_user p)) (Itoa (us_ID (pe_user p)))
                (pe_connector p) "" (qr_Rows res) "" [] (qr_RowCount res) true false) as Hev.
  destruct (evaluateOutputPolicies _ _ _ _ _ _ _ _ _ _ _ _ _ _ _) as [o out]. cbn [snd] in Hev.
  apply (on_record_from p st1 (on_out (call st1 c (Queried q)) out)); [done|done|].
  pose proof (gate_output_recorded p (on_out (call st1 c (Queried q)) out) outcome o (qr_RowCount res) (qr_RowCount res) (qr_DurationMs res)
                (QueryAnswer (match oo_RedactedRows o with Some rows => Some rows | None => qr_Rows res end)) ltac:(done)) as Hrec.
  by rewrite H in Hrec.
Qed.

Lemma run_execute_recorded p st c k reply st' :
  run_execute p st c k = (reply, st') -> gs_calls st' <> gs_calls st -> on_record p st st' (gate_verdict reply).
Proof.
  unfold McpGateway.run_execute.
  pose proof (gate_input_keeps p st (cd_Statement k) (cd_Parameters k)) as (Hc & He & Ha).
  destruct (gate_input _ _ _ _ _ _) as [outcome st1]. cbn [snd] in *.
  destruct (input_refusal gw p st1 outcome) as [[reply1 st2]|] eqn:Ei.
  { intros [= <- <-] Hn. apply input_refusal_calls in Ei as (Hi & _ & _). congruence. }
  intros H _. apply (on_record_from p st st1); [done|done|].
  destruct (gw_execute gw c k) as [res|e]; [|injection H as <- <-; by apply (emitted_entry p _ (call st1 c (Executed k)))].
  pose proof (evaluation_audit ord mcp_global ow (gs_out (call st1 c (Executed k))) (cl_OrgID (au_Client (pe_auth p))) (us_TenantID (pe_user p)) (Itoa (us_ID (pe_user p)))
                (pe_connector p) "" None (cm_Message res) (cm_Metadata res) (cm_RowsAffected res) false false) as Hev.
  destruct (evaluateOutputPolicies _ _ _ _ _ _ _ _ _ _ _ _ _ _ _) as [o out]. cbn [snd] in Hev.
  apply (on_record_from p st1 (on_out (call st1 c (Executed k)) out)); [done|done|].
  pose proof (gate_output_recorded p (on_out (call st1 c (Executed k)) out) outcome o 0 (cm_RowsAffected res) (cm_DurationMs res)
                (ExecuteAnswer (or_default (oo_RedactedMessage o) (cm_Message res))) ltac:(done)) as Hrec.
  by rewrite H in Hrec.
Qed.

Lemma authenticated_calls auth token k st reply st' :
  authenticated validateUserToken auth token k st = (reply, st') -> gs_calls st' <> gs_calls st ->
  exists a u, auth = Ok a /\ us_TenantID u = cl_TenantID (au_Client a) /\ k a u = (reply, st').
Proof.
  unfold authenticated. destruct auth as [a|e]; [|by intros [= <- <-]]. destruct (gate_user _ a _) as [u|e]; [|by intros [= <- <-]].
  destruct (str_eqb _ _) eqn:Et; [|by intros [= <- <-]]. apply str_eqb_true in Et. eauto.
Qed.

(** Nothing a connector is asked to do goes unrecorded, on either plane: a request that
    reached one leaves exactly one row, under the caller's tenant, whose verdict is that of
    the reply, with an entry of the satellite table under the same decision id. *)
Theorem connector_calls_recorded st r auth q x :
  (forall reply st', mcpQueryHandler st r auth (Some q) = (reply, st') -> gs_calls st' <> gs_calls st ->
     exists p, auth = Ok (pe_auth p) /\ us_TenantID (pe_user p) = cl_TenantID (au_Client (pe_auth p)) /\
       pe_orgID p = cl_OrgID (au_Client (pe_auth p)) /\ on_record p st st' (gate_verdict reply)) /\
  (forall reply st', mcpExecuteHandler st r auth (Some x) = (reply, st') -> gs_calls st' <> gs_calls st ->
     exists p, auth = Ok (pe_auth p) /\ us_TenantID (pe_user p) = cl_TenantID (au_Client (pe_auth p)) /\
       pe_orgID p = au_OrgID (pe_auth p) /\ on_record p st st' (gate_verdict reply)).
Proof.
  split; intros reply st'.
  - unfold McpGateway.mcpQueryHandler. destruct (registry_missing st); [by intros [= <- <-]|].
    intros H Hn. destruct (authenticated_calls _ _ _ _ _ _ H Hn) as (a & u & -> & Ht & Hk). clear H.
    destruct (McpGateway.authorize _ _ _ _ _ _ _ _ _ _ _ _) as [[reply0|c] st1] eqn:Ea; destruct (authorize_spec _ _ _ _ _ _ _ _ _ _ Ea) as [Hc Ho];
      [injection Hk as <- <-; done|]. destruct (Ho c eq_refl) as (Hout & Hen & _).
    destruct (parse_timeout _); [|injection Hk as <- <-; done].
    apply run_query_recorded in Hk; [|congruence]. apply (on_record_from _ st st1) in Hk; [|by rewrite Hout|done].
    eexists. split_and!; [..|exact Hk]; done.
  - unfold McpGateway.mcpExecuteHandler. destruct (registry_missing st); [by intros [= <- <-]|].
    intros H Hn. destruct (authenticated_calls _ _ _ _ _ _ H Hn) as (a & u & -> & Ht & Hk). clear H.
    destruct (readOnlyPostureEnabled getenv && _); [injection Hk as <- <-; done|].
    destruct (McpGateway.authorize _ _ _ _ _ _ _ _ _ _ _ _) as [[reply0|c] st1] eqn:Ea; destruct (authorize_spec _ _ _ _ _ _ _ _ _ _ Ea) as [Hc Ho];
      [injection Hk as <- <-; done|]. destruct (Ho c eq_refl) as (Hout & Hen & _).
    destruct (parse_timeout _); [|injection Hk as <- <-; done].
    apply run_execute_recorded in Hk; [|congruence]. apply (on_record_from _ st st1) in Hk; [|by rewrite Hout|done].
    eexists. split_and!; [..|exact Hk]; done.
Qed.
End Audited.
End Facts.

(** * Concrete requests *)

#[local] Existing Instance ascii_unicode.
#[local] Existing Instance demo_format.
#[local] Existing Instance no_print.
#[local] Existing Instance no_case.

(** The tenant acme with one connector; what it answers to a query and to a command. *)
Definition acme_sources : Runtime.Sources := AgentConnectors.sources [AgentConnectors.pg_row "acme" "crm" "s3cret"] [].
Definition gate_world (db : policy_db) (cell message : string) : GateWorld :=
  mkGateWorld (out_world db db 0 None) "perm-1" (0, 0) acme_sources (AgentConnectors.load 0 0 acme_sources) 0 None
    (fun _ _ => Ok (mkQueryResult (Some [[("note", VString cell)]]) 1 5)) (fun _ _ => Ok (mkCommandResult 1 5 message [])).
Definition gate_state (db : policy_db) : GateState := mkGateState (out_state db) (AgentConnectors.booted true) [] [].

Definition read_only (on : bool) (name : string) : string := if str_eqb name EnvMCPReadOnly && on then "true" else "".
Definition no_license (_ : string) : result string ValidationResult := Err "no license".
Definition gate_request : HttpRequest := mkHttp "POST" "/mcp" ∅.

Definition ask_query (on : bool) (db : policy_db) (cell token statement : string) : gate_reply * GateState :=
  mcpQueryHandler demo_order (read_only on) ana no_license AgentConnectors.no_url (demo_mode "redact") (gate_world db cell "") (gate_state db) gate_request
    (Ok enterprise_auth) (Some (mkQueryRequest "" "" token "" "crm" "" statement [] 0 "")).
Definition ask_execute (on : bool) (db : policy_db) (message operation statement : string) : gate_reply * GateState :=
  mcpExecuteHandler demo_order (read_only on) ana no_license AgentConnectors.no_url (demo_mode "redact") (gate_world db "" message) (gate_state db) gate_request
    (Ok enterprise_auth) (Some (mkExecuteRequest "" "" "good" "" "crm" operation "" statement [] "")).

Definition statements (st : GateState) : list string := (fun c => match c.2 with Queried q => qy_Statement q | Executed k => cd_Statement k end) <$> gs_calls st.
Definition verdicts (st : GateState) : list string := ar_policy_decision <$> st_audit (ou_state (gs_out st)).
Definition rows_of (r : gate_reply) : option (list row) := match r with QueryAnswer d _ => d | _ => None end.
Definition message_of (r : gate_reply) : option string := match r with ExecuteAnswer m _ => Some m | _ => None end.

(** Rows and messages are masked on their way out; a refused statement reaches nothing. *)
Example planes_redact_and_refuse :
  rows_of (ask_query false demo_db "ssn 123-45-6789" "good" "SELECT 1").1 = Some [[("note", VString "ssn 1*********9")]] /\
  verdicts (ask_query false demo_db "ssn 123-45-6789" "good" "SELECT 1").2 = ["redacted"] /\
  statements (ask_query false demo_db "x" "good" "DROP TABLE t").2 = [] /\ verdicts (ask_query false demo_db "x" "good" "DROP TABLE t").2 = ["blocked"] /\
  message_of (ask_execute false demo_db "ssn 123-45-6789" "" "UPDATE t SET a = 1").1 = Some "ssn 1*********9".
Proof. vm_compute. done. Qed.

(** Under the read-only posture the query plane refuses a deletion and the execute plane
    refuses the call; but a caller that names its operation "query" has it executed. *)
Example read_only_execute_deletes :
  statements (ask_query true demo_db "x" "good" "DELETE FROM t").2 = [] /\
  statements (ask_execute true demo_db "ok" "" "DELETE FROM t").2 = [] /\
  statements (ask_execute true demo_db "ok" "query" "DELETE FROM t").2 = ["DELETE FROM t"].
Proof. vm_compute. done. Qed.

(** A policy of the organization acme-org, whose tenant is acme. *)
Definition org_policy_db : policy_db :=
  mkDB [mkTableRow (mkRow "o1" "org_no_salaries" "salaries" CategoryComplianceSEBI "organization" "salaries" SeverityHigh None None (Some ActionBlock) None true 100
                      "acme" (Some "acme-org") 100) false "acme-org" true;
        EngineFacts.demo_row "sys_sqli_drop" CategorySecuritySQLi "DROP" (Some ActionBlock) (Some ActionLog) 100] true false.

(** It refuses the statement at check-input, and on the query plane for a caller with a
    user token; without one the request carries no organization, the policy is not loaded
    and the statement runs. *)
Example org_policy_skipped :
  checked (demo_check org_policy_db (demo_tables [] critical) "redact" "redact" "none" "SELECT * FROM salaries").1 = Some (false, false, "", false) /\
  statements (ask_query false org_policy_db "x" "good" "SELECT * FROM salaries").2 = [] /\
  statements (ask_query false org_policy_db "x" "none" "SELECT * FROM salaries").2 = ["SELECT * FROM salaries"].
Proof. vm_compute. done. Qed.

(** The operation of a request is not evaluated when there is a statement; without one it
    is the statement. *)
Example operation_is_statement :
  let ask op statement := mcpQueryHandler demo_order (read_only false) ana no_license AgentConnectors.no_url (demo_mode "redact") (gate_world demo_db "x" "")
    (gate_state demo_db) gate_request (Ok enterprise_auth) (Some (mkQueryRequest "" "" "good" "" "crm" op statement [] 0 "")) in
  statements (ask "search_flights" "").2 = ["search_flights"] /\ statements (ask "DROP" "").2 = [] /\ statements (ask "DROP" "SELECT 1").2 = ["SELECT 1"].
Proof. vm_compute. done. Qed.

(** A service licence that permits the operation takes the place of the tenant's access. *)
Definition service_license : ValidationResult :=
  mkValidation true "" "acme" "acme" 0 0 0 0 "" "" [] (GetTierLimits "") "svc" "service" ["mcp:crm:query"] "" "".
Example license_permits :
  EvaluateMCPPermission service_license "crm" "query" = None /\ EvaluateMCPPermission service_license "crm" "drop" <> None /\
  EvaluateMCPPermission service_license "crm" "" = Some "operation name cannot be empty".
Proof. vm_compute. done. Qed.


