(* ===== verification/Planning.v ===== *)
(** Stored plans, src/platform/orchestrator/planning: types.go, the statements of
    repository.go over the tables of migrations 037 and 047, and the operations of
    service.go.

    An operation is a program of statements ([prog]); a statement is atomic and may
    fail, which the scheduler decides, so that a program can be run alone or
    interleaved with others. A snapshot of a version is the plan itself: the three
    fields a rollback restores survive their encoding. Row-level security does not
    cover these tables. Of an audit entry the plan, the operation, the status, the error and
    the keys are kept; the query, counts and metadata are left
    out. *)

From stdpp Require Import gmap.
From S2P Require Import Prelude GoStrings GoHttp GoStrconv GoTime ServiceAuth TenantScope AgentAuth AgentProxy.

Local Open Scope Z_scope.

(** * Types *)

Definition PlanStatusPending : string := "pending".
Definition PlanStatusExecuting : string := "executing".
Definition PlanStatusCompleted : string := "completed".
Definition PlanStatusFailed : string := "failed".
Definition PlanStatusExpired : string := "expired".
Definition PlanStatusCancelled : string := "cancelled".

Definition DefaultPlanTTL : Z := Hour.
Definition MaxCommunityPlans : Z := 25.
Definition MaxCommunityVersionsPerPlan : Z := 10.
Definition MaxEvaluationPlans : Z := 100.
Definition MaxEvaluationVersionsPerPlan : Z := 25.

Inductive plan_error :=
| ErrPlanNotFound | ErrPlanExpired | ErrPlanAlreadyRun | ErrPlanCancelled | ErrInvalidPlanID | ErrInvalidWorkflow
| ErrVersionConflict | ErrVersionNotFound | ErrMaxPlans | ErrMaxVersions
| ErrDatabase
| ErrText (msg : string)
| ErrScope (msg : string) (e : scope_error)
| ErrWrapped (msg : string) (e : plan_error).

Record Plan := mkPlan {
  pl_PlanID : string;
  pl_Query : string;
  pl_Domain : string;
  pl_ExecutionMode : string;
  pl_Version : Z;
  pl_WorkflowDefinition : string;
  pl_Complexity : Z;
  pl_Parallel : bool;
  pl_EstimatedDuration : string;
  pl_StepCount : Z;
  pl_Status : string;
  pl_ExecutedAt : option Z;
  pl_ExecutionResult : string;
  pl_ErrorMessage : string;
  pl_OrgID : string;
  pl_TenantID : string;
  pl_UserID : string;
  pl_ClientID : string;
  pl_ExpiresAt : Z;
  pl_CreatedAt : Z;
  pl_UpdatedAt : Z;
}.

Definition IsExpired (now : Z) (p : Plan) : bool := pl_ExpiresAt p <? now.
Definition CanExecute (now : Z) (p : Plan) : bool := str_eqb (pl_Status p) PlanStatusPending && negb (IsExpired now p).

Record CreatePlanRequest := mkCreatePlan {
  cq_PlanID : string; cq_Query : string; cq_Domain : string; cq_ExecutionMode : string; cq_WorkflowDefinition : string;
  cq_Complexity : Z; cq_Parallel : bool; cq_EstimatedDuration : string; cq_StepCount : Z;
  cq_OrgID : string; cq_TenantID : string; cq_UserID : string; cq_ClientID : string; cq_TTL : Z }.

Record UpdatePlanRequest := mkUpdatePlan {
  uq_PlanID : string; uq_ExpectedVersion : Z; uq_ExecutionMode : string; uq_Domain : string; uq_OrgID : string; uq_ChangedBy : string }.

Record PlanVersion := mkVersion {
  pv_PlanID : string; pv_Version : Z; pv_OrgID : string; pv_Snapshot : Plan; pv_ChangedBy : string; pv_ChangedAt : Z;
  pv_ChangeType : string; pv_ChangeSummary : string }.

Record RollbackPlanRequest := mkRollback { rq_PlanID : string; rq_TargetVersion : Z; rq_OrgID : string; rq_RolledBackBy : string }.

Record PlanAuditEntry := mkPlanAudit {
  pa_PlanID : string; pa_Operation : string; pa_Status : string; pa_ErrorMsg : string; pa_TenantID : string; pa_OrgID : string }.

Record ServiceConfig := mkServiceConfig { sc_MaxPlansWithVersioning : Z; sc_MaxVersionsPerPlan : Z }.

Definition NewService : ServiceConfig := mkServiceConfig MaxCommunityPlans MaxCommunityVersionsPerPlan.
Definition NewServiceWithConfig (c : ServiceConfig) : ServiceConfig :=
  mkServiceConfig (if 0 <? sc_MaxPlansWithVersioning c then sc_MaxPlansWithVersioning c else MaxCommunityPlans)
    (if 0 <? sc_MaxVersionsPerPlan c then sc_MaxVersionsPerPlan c else MaxCommunityVersionsPerPlan).

(** * Programs of statements *)

Record PlanDb := mkPlanDb { db_plans : gmap string Plan; db_versions : list PlanVersion; db_audit : list PlanAuditEntry }.

Inductive prog (A : Type) :=
| Done (a : A)
| Step (k : bool -> PlanDb -> prog A * PlanDb).
Arguments Done {A}. Arguments Step {A}.

(** Induction on a program has a hypothesis for what each answer continues with. *)
Lemma prog_rect_step {A} (P : prog A -> Prop) :
  (forall a, P (Done a)) -> (forall k, (forall fail db, P (k fail db).1) -> P (Step k)) -> forall p, P p.
Proof.
  intros HD HS. fix IH 1. intros [a|k]; [apply HD|]. apply HS. intros fail db.
  destruct (k fail db) as [p' db']. apply IH.
Qed.

Fixpoint bind {A B} (p : prog A) (f : A -> prog B) : prog B :=
  match p with
  | Done a => f a
  | Step k => Step (fun fail db => let '(p', db') := k fail db in (bind p' f, db'))
  end.
Notation "'let*' x := p 'in' q" := (bind p (fun x => q)) (at level 10, x pattern, p at level 100, q at level 200).

(** A statement: its answer when it fails, and what it does. *)
Definition stmt {A} (failed : A) (f : PlanDb -> A * PlanDb) : prog A :=
  Step (fun fail db => if fail then (Done failed, db) else let '(a, db') := f db in (Done a, db')).

(** Run alone, statement [n] failing as the list says (not at all after its end). *)
Fixpoint run {A} (p : prog A) (fails : list bool) (db : PlanDb) : A * PlanDb :=
  match p with
  | Done a => (a, db)
  | Step k => let '(p', db') := k (default false (head fails)) db in run p' (tail fails) db'
  end.

Definition set_plans (db : PlanDb) (m : gmap string Plan) : PlanDb := mkPlanDb m (db_versions db) (db_audit db).
Definition set_versions (db : PlanDb) (l : list PlanVersion) : PlanDb := mkPlanDb (db_plans db) l (db_audit db).

(** * Repository *)

Section Repository.
Context `{U : Unicode}.

Definition SavePlan (now : Z) (p : Plan) : prog (option plan_error) :=
  if str_eqb (pl_PlanID p) "" then Done (Some ErrInvalidPlanID)
  else match ValidateRowKeys (pl_OrgID p) (pl_TenantID p) with
       | Some e => Done (Some (ErrScope ("refusing to persist plan " +:+ pl_PlanID p +:+ " with no org/tenant key") e))
       | None =>
           stmt (Some (ErrWrapped "failed to save plan" ErrDatabase)) (fun db =>
             match db_plans db !! pl_PlanID p with
             | Some _ => (Some (ErrWrapped "failed to save plan" ErrDatabase), db)
             | None =>
                 let row := mkPlan (pl_PlanID p) (pl_Query p) (pl_Domain p) (pl_ExecutionMode p)
                              (if pl_Version p =? 0 then 1 else pl_Version p) (pl_WorkflowDefinition p) (pl_Complexity p)
                              (pl_Parallel p) (pl_EstimatedDuration p) (pl_StepCount p) (pl_Status p) None "" ""
                              (pl_OrgID p) (pl_TenantID p) (pl_UserID p) (pl_ClientID p) (pl_ExpiresAt p) now now in
                 (None, set_plans db (<[pl_PlanID p := row]> (db_plans db)))
             end)
       end.

Definition repo_GetPlan (planID : string) : prog (result plan_error Plan) :=
  if str_eqb planID "" then Done (Err ErrInvalidPlanID)
  else stmt (Err (ErrWrapped "failed to get plan" ErrDatabase)) (fun db =>
         (match db_plans db !! planID with Some p => Ok p | None => Err ErrPlanNotFound end, db)).

(** A row with a new status, and, for a final one, the time, result and error. *)
Definition with_status (now : Z) (status : string) (p : Plan) : Plan :=
  mkPlan (pl_PlanID p) (pl_Query p) (pl_Domain p) (pl_ExecutionMode p) (pl_Version p) (pl_WorkflowDefinition p) (pl_Complexity p)
    (pl_Parallel p) (pl_EstimatedDuration p) (pl_StepCount p) status (pl_ExecutedAt p) (pl_ExecutionResult p) (pl_ErrorMessage p)
    (pl_OrgID p) (pl_TenantID p) (pl_UserID p) (pl_ClientID p) (pl_ExpiresAt p) (pl_CreatedAt p) now.
Definition with_outcome (now : Z) (status result errorMsg : string) (p : Plan) : Plan :=
  mkPlan (pl_PlanID p) (pl_Query p) (pl_Domain p) (pl_ExecutionMode p) (pl_Version p) (pl_WorkflowDefinition p) (pl_Complexity p)
    (pl_Parallel p) (pl_EstimatedDuration p) (pl_StepCount p) status (Some now) result errorMsg
    (pl_OrgID p) (pl_TenantID p) (pl_UserID p) (pl_ClientID p) (pl_ExpiresAt p) (pl_CreatedAt p) now.

Definition UpdatePlanStatus (now : Z) (planID status result errorMsg : string) : prog (option plan_error) :=
  if str_eqb planID "" then Done (Some ErrInvalidPlanID)
  else stmt (Some (ErrWrapped "failed to update plan status" ErrDatabase)) (fun db =>
         match db_plans db !! planID with
         | None => (Some ErrPlanNotFound, db)
         | Some p =>
             let p' := if str_eqb status PlanStatusCompleted || str_eqb status PlanStatusFailed
                       then with_outcome now status result errorMsg p else with_status now status p in
             (None, set_plans db (<[planID := p']> (db_plans db)))
         end).

Definition UpdatePlanStatusAtomic (now : Z) (planID expectedStatus newStatus : string) : prog (option plan_error) :=
  if str_eqb planID "" then Done (Some ErrInvalidPlanID)
  else stmt (Some (ErrWrapped "failed to update plan status atomically" ErrDatabase)) (fun db =>
         match db_plans db !! planID with
         | Some p => if str_eqb (pl_Status p) expectedStatus
                     then (None, set_plans db (<[planID := with_status now newStatus p]> (db_plans db)))
                     else (Some ErrPlanAlreadyRun, db)
         | None => (Some ErrPlanAlreadyRun, db)
         end).

(** Removing plans removes their versions. *)
Definition remove_plans (keep : Plan -> bool) (db : PlanDb) : PlanDb :=
  let m := filter (fun e => keep e.2 = true) (db_plans db) in
  mkPlanDb m (List.filter (fun v => bool_decide (is_Some (m !! pv_PlanID v))) (db_versions db)) (db_audit db).

Definition DeletePlan (planID : string) : prog (option plan_error) :=
  if str_eqb planID "" then Done (Some ErrInvalidPlanID)
  else stmt (Some (ErrWrapped "failed to delete plan" ErrDatabase)) (fun db =>
         (None, remove_plans (fun p => negb (str_eqb (pl_PlanID p) planID)) db)).

Definition swept (now : Z) (p : Plan) : bool :=
  (pl_ExpiresAt p <? now) && str_in (pl_Status p) [PlanStatusPending; PlanStatusExpired].

Definition repo_CleanupExpiredPlans (now : Z) : prog (result plan_error Z) :=
  stmt (Err (ErrWrapped "failed to cleanup expired plans" ErrDatabase)) (fun db =>
    (Ok (Z.of_nat (size (filter (fun e => swept now e.2 = true) (db_plans db)))), remove_plans (fun p => negb (swept now p)) db)).

(** The new mode and domain, where there is one, and the next version. *)
Definition with_update (now : Z) (mode domain : option string) (workflow : string) (p : Plan) : Plan :=
  mkPlan (pl_PlanID p) (pl_Query p) (default (pl_Domain p) domain) (default (pl_ExecutionMode p) mode) (pl_Version p + 1)
    workflow (pl_Complexity p) (pl_Parallel p) (pl_EstimatedDuration p) (pl_StepCount p) (pl_Status p)
    (pl_ExecutedAt p) (pl_ExecutionResult p) (pl_ErrorMessage p)
    (pl_OrgID p) (pl_TenantID p) (pl_UserID p) (pl_ClientID p) (pl_ExpiresAt p) (pl_CreatedAt p) now.

(** The guarded update of a version; the plan is read back in a second statement. *)
Definition update_version (msg : string) (planID : string) (expectedVersion : Z) (f : Plan -> Plan) : prog (result plan_error Plan) :=
  if str_eqb planID "" then Done (Err ErrInvalidPlanID)
  else
    let* r := stmt (Some (ErrWrapped msg ErrDatabase)) (fun db =>
                match db_plans db !! planID with
                | Some p => if pl_Version p =? expectedVersion
                            then (None, set_plans db (<[planID := f p]> (db_plans db))) else (Some ErrVersionConflict, db)
                | None => (Some ErrVersionConflict, db)
                end) in
    match r with
    | Some e => Done (Err e)
    | None => repo_GetPlan planID
    end.

Definition UpdatePlanWithVersion (now : Z) (planID : string) (expectedVersion : Z) (mode domain : option string)
  : prog (result plan_error Plan) :=
  update_version "failed to update plan" planID expectedVersion (fun p => with_update now mode domain (pl_WorkflowDefinition p) p).

Definition repo_RollbackPlan (now : Z) (planID : string) (expectedVersion : Z) (snapshot : Plan) : prog (result plan_error Plan) :=
  update_version "failed to rollback plan" planID expectedVersion
    (with_update now (Some (pl_ExecutionMode snapshot)) (Some (pl_Domain snapshot)) (pl_WorkflowDefinition snapshot)).

Definition same_version (planID : string) (version : Z) (v : PlanVersion) : bool :=
  str_eqb (pv_PlanID v) planID && (pv_Version v =? version).

(** The row must name a plan, and its version be new. *)
Definition SavePlanVersion (now : Z) (v : PlanVersion) : prog (option plan_error) :=
  stmt (Some (ErrWrapped "failed to save plan version" ErrDatabase)) (fun db =>
    if existsb (same_version (pv_PlanID v) (pv_Version v)) (db_versions db) || negb (bool_decide (is_Some (db_plans db !! pv_PlanID v)))
    then (Some (ErrWrapped "failed to save plan version" ErrDatabase), db)
    else (None, set_versions db (db_versions db ++ [mkVersion (pv_PlanID v) (pv_Version v) (pv_OrgID v) (pv_Snapshot v)
                                                      (pv_ChangedBy v) now (pv_ChangeType v) (pv_ChangeSummary v)]))).

Definition newer_version (a b : PlanVersion) : bool := pv_Version b <? pv_Version a.

Definition repo_GetPlanVersions (planID : string) : prog (result plan_error (list PlanVersion)) :=
  if str_eqb planID "" then Done (Err ErrInvalidPlanID)
  else stmt (Err (ErrWrapped "failed to get plan versions" ErrDatabase)) (fun db =>
         (Ok (SliceStable newer_version (List.filter (fun v => str_eqb (pv_PlanID v) planID) (db_versions db))), db)).

Definition CountPlansWithVersioning (orgID : string) : prog (result plan_error Z) :=
  stmt (Err (ErrWrapped "failed to count versioned plans" ErrDatabase)) (fun db =>
    (Ok (Z.of_nat (size (filter (fun e => pl_OrgID e.2 = orgID /\ 1 < pl_Version e.2) (db_plans db)))), db)).

Definition CountVersions (planID : string) : prog (result plan_error Z) :=
  stmt (Err (ErrWrapped "failed to count plan versions" ErrDatabase)) (fun db =>
    (Ok (Z.of_nat (length (List.filter (fun v => str_eqb (pv_PlanID v) planID) (db_versions db)))), db)).

Definition GetPlanVersion (planID : string) (version : Z) : prog (result plan_error PlanVersion) :=
  if str_eqb planID "" then Done (Err ErrInvalidPlanID)
  else stmt (Err (ErrWrapped "failed to get plan version" ErrDatabase)) (fun db =>
         (match find_first (same_version planID version) (db_versions db) with Some v => Ok v | None => Err ErrVersionNotFound end, db)).

(** * Service *)

Definition logAudit (e : PlanAuditEntry) : prog unit :=
  Step (fun _ db => (Done tt, mkPlanDb (db_plans db) (db_versions db) (db_audit db ++ [e]))).

Definition audit_of (p : Plan) (operation status errMsg : string) : PlanAuditEntry :=
  mkPlanAudit (pl_PlanID p) operation status errMsg (pl_TenantID p) (pl_OrgID p).

Definition StorePlan (now : Z) (req : CreatePlanRequest) : prog (result plan_error Plan) :=
  if str_eqb (cq_PlanID req) "" then Done (Err ErrInvalidPlanID)
  else if str_eqb (cq_WorkflowDefinition req) "" then Done (Err ErrInvalidWorkflow)
  else match ValidateRowKeys (cq_OrgID req) (cq_TenantID req) with
       | Some e => Done (Err (ErrScope "cannot store plan without an authenticated org and tenant" e))
       | None =>
           let ttl := if cq_TTL req =? 0 then DefaultPlanTTL else cq_TTL req in
           let plan := mkPlan (cq_PlanID req) (cq_Query req) (cq_Domain req) (cq_ExecutionMode req) 1 (cq_WorkflowDefinition req)
                         (cq_Complexity req) (cq_Parallel req) (cq_EstimatedDuration req) (cq_StepCount req) PlanStatusPending
                         None "" "" (cq_OrgID req) (cq_TenantID req) (cq_UserID req) (cq_ClientID req) (now + ttl) now now in
           let* r := SavePlan now plan in
           match r with
           | Some e => Done (Err (ErrWrapped "failed to store plan" e))
           | None => let* _ := logAudit (audit_of plan "created" (pl_Status plan) "") in Done (Ok plan)
           end
       end.

Definition authorizePlan (p : Plan) (callerOrgID : string) : option scope_error :=
  AuthorizeOrgOnly (NewOrgOnly callerOrgID) (pl_OrgID p).

Definition GetPlanForExecution (now : Z) (planID orgID : string) : prog (result plan_error Plan) :=
  let* r := repo_GetPlan planID in
  match r with
  | Err e => Done (Err e)
  | Ok plan =>
      match authorizePlan plan orgID with
      | Some _ => Done (Err ErrPlanNotFound)
      | None =>
          if IsExpired now plan then
            let* _ := UpdatePlanStatus now planID PlanStatusExpired "" "Plan expired" in Done (Err ErrPlanExpired)
          else if negb (str_eqb (pl_Status plan) PlanStatusPending) then
            Done (Err (if str_in (pl_Status plan) [PlanStatusCompleted; PlanStatusFailed; PlanStatusExecuting] then ErrPlanAlreadyRun
                       else if str_eqb (pl_Status plan) PlanStatusCancelled then ErrPlanCancelled
                       else ErrText ("plan is in " +:+ pl_Status plan +:+ " status, cannot execute")))
          else
            let* r := UpdatePlanStatusAtomic now planID PlanStatusPending PlanStatusExecuting in
            match r with
            | Some ErrPlanAlreadyRun => Done (Err ErrPlanAlreadyRun)
            | Some e => Done (Err (ErrWrapped "failed to mark plan as executing" e))
            | None => let* _ := logAudit (audit_of plan "execution_started" PlanStatusExecuting "") in Done (Ok plan)
            end
      end
  end.

(** The outcome of an execution: [MarkPlanCompleted] and [MarkPlanFailed] differ in
    the status and what they record. The result arrives encoded. *)
Definition mark_plan (msg : string) (now : Z) (planID status result errMsg : string) : prog (option plan_error) :=
  let* r := repo_GetPlan planID in
  let* u := UpdatePlanStatus now planID status result errMsg in
  match u with
  | Some e => Done (Some (ErrWrapped msg e))
  | None => match r with
            | Ok plan => let* _ := logAudit (audit_of plan status status errMsg) in Done None
            | Err _ => Done None
            end
  end.
Definition MarkPlanCompleted (now : Z) (planID result : string) : prog (option plan_error) :=
  mark_plan "failed to mark plan completed" now planID PlanStatusCompleted result "".
Definition MarkPlanFailed (now : Z) (planID errMsg : string) : prog (option plan_error) :=
  mark_plan "failed to mark plan failed" now planID PlanStatusFailed "" errMsg.

Definition CancelPlan (now : Z) (planID orgID reason : string) : prog (option plan_error) :=
  let* r := repo_GetPlan planID in
  match r with
  | Err e => Done (Some (ErrWrapped "failed to get plan" e))
  | Ok plan =>
      match authorizePlan plan orgID with
      | Some _ => Done (Some ErrPlanNotFound)
      | None =>
          if negb (str_in (pl_Status plan) [PlanStatusPending; PlanStatusExecuting])
          then Done (Some (ErrText ("plan is in " +:+ pl_Status plan +:+ " status, cannot cancel")))
          else
            let* u := UpdatePlanStatus now planID PlanStatusCancelled "" reason in
            match u with
            | Some e => Done (Some (ErrWrapped "failed to cancel plan" e))
            | None => let* _ := logAudit (audit_of plan "cancelled" PlanStatusCancelled reason) in Done None
            end
      end
  end.

(** A read that is authorized before anything is done with it. *)
Definition authorized {A} (planID orgID : string) (f : Plan -> prog (result plan_error A)) : prog (result plan_error A) :=
  let* r := repo_GetPlan planID in
  match r with
  | Err e => Done (Err e)
  | Ok plan => match authorizePlan plan orgID with Some _ => Done (Err ErrPlanNotFound) | None => f plan end
  end.

Definition GetPlan (planID orgID : string) : prog (result plan_error Plan) := authorized planID orgID (fun p => Done (Ok p)).
Definition GetPlanUnscoped (planID : string) : prog (result plan_error Plan) := repo_GetPlan planID.
Definition GetPlanVersions (planID orgID : string) : prog (result plan_error (list PlanVersion)) :=
  authorized planID orgID (fun _ => repo_GetPlanVersions planID).

(** A limit is enforced unless its count fails. *)
Definition within_limit (limit : Z) (count : prog (result plan_error Z)) : prog bool :=
  if 0 <? limit then
    let* c := count in
    Done (match c with Ok n => negb (limit <=? n) | Err _ => true end)
  else Done true.

Definition changed (current wanted : string) : option string :=
  if negb (str_eqb wanted "") && negb (str_eqb wanted current) then Some wanted else None.

Definition arrow : string := of_bytes [32; 226; 134; 146; 32].
Definition change_summary (p : Plan) (mode domain : option string) : string :=
  let m := match mode with Some x => ["execution_mode: " +:+ pl_ExecutionMode p +:+ arrow +:+ x] | None => [] end in
  let d := match domain with Some x => ["domain: " +:+ pl_Domain p +:+ arrow +:+ x] | None => [] end in
  match (m ++ d)%list with [a; b] => a +:+ "; " +:+ b | [a] => a | _ => "" end.

Section Config.
Context (config : ServiceConfig).

Definition UpdatePlan (now : Z) (req : UpdatePlanRequest) : prog (result plan_error Plan) :=
  if str_eqb (uq_PlanID req) "" then Done (Err ErrInvalidPlanID)
  else if uq_ExpectedVersion req <? 1 then Done (Err (ErrText "expected_version must be >= 1"))
  else authorized (uq_PlanID req) (uq_OrgID req) (fun plan =>
    if negb (str_eqb (pl_Status plan) PlanStatusPending)
    then Done (Err (ErrText ("plan is in " +:+ pl_Status plan +:+ " status, only pending plans can be updated")))
    else
      let* plans_ok := (if pl_Version plan =? 1
                        then within_limit (sc_MaxPlansWithVersioning config) (CountPlansWithVersioning (pl_OrgID plan))
                        else Done true) in
      if negb plans_ok then Done (Err ErrMaxPlans)
      else
        let* versions_ok := within_limit (sc_MaxVersionsPerPlan config) (CountVersions (uq_PlanID req)) in
        if negb versions_ok then Done (Err ErrMaxVersions)
        else
          let mode := changed (pl_ExecutionMode plan) (uq_ExecutionMode req) in
          let domain := changed (pl_Domain plan) (uq_Domain req) in
          match mode, domain with
          | None, None => Done (Ok plan)
          | _, _ =>
              let* r := UpdatePlanWithVersion now (uq_PlanID req) (uq_ExpectedVersion req) mode domain in
              match r with
              | Err e => Done (Err e)
              | Ok updated =>
                  let* _ := SavePlanVersion now (mkVersion (uq_PlanID req) (uq_ExpectedVersion req) (pl_OrgID plan) plan
                              (uq_ChangedBy req) 0 "update" (change_summary plan mode domain)) in
                  let* _ := logAudit (audit_of plan "updated" (pl_Status updated) "") in
                  Done (Ok updated)
              end
          end).

Definition RollbackPlan (now : Z) (req : RollbackPlanRequest) : prog (result plan_error Plan) :=
  if str_eqb (rq_PlanID req) "" then Done (Err ErrInvalidPlanID)
  else if rq_TargetVersion req <? 1 then Done (Err (ErrText "target_version must be >= 1"))
  else authorized (rq_PlanID req) (rq_OrgID req) (fun plan =>
    if negb (str_eqb (pl_Status plan) PlanStatusPending)
    then Done (Err (ErrText ("plan is in " +:+ pl_Status plan +:+ " status, only pending plans can be rolled back")))
    else if pl_Version plan <=? rq_TargetVersion req
    then Done (Err (ErrText ("target version " +:+ Itoa (rq_TargetVersion req) +:+ " must be less than current version " +:+ Itoa (pl_Version plan))))
    else
      let* versions_ok := within_limit (sc_MaxVersionsPerPlan config) (CountVersions (rq_PlanID req)) in
      if negb versions_ok then Done (Err ErrMaxVersions)
      else
        let* t := GetPlanVersion (rq_PlanID req) (rq_TargetVersion req) in
        match t with
        | Err e => Done (Err e)
        | Ok target =>
            let* _ := SavePlanVersion now (mkVersion (rq_PlanID req) (pl_Version plan) (pl_OrgID plan) plan (rq_RolledBackBy req) 0
                        "rollback" ("rollback to v" +:+ Itoa (rq_TargetVersion req) +:+ " (pre-rollback state)")) in
            let* r := repo_RollbackPlan now (rq_PlanID req) (pl_Version plan) (pv_Snapshot target) in
            match r with
            | Err e => Done (Err e)
            | Ok restored => let* _ := logAudit (audit_of plan "rollback" (pl_Status restored) "") in Done (Ok restored)
            end
        end).
End Config.

Definition CleanupExpiredPlans (now : Z) : prog (result plan_error Z) := repo_CleanupExpiredPlans now.

(** * Handlers

    The plan routes of run.go. A refusal is a status and a message, followed by the
    text of an error where there is one. The unified tracking a cancellation updates
    is left out. *)

Inductive reply :=
| Refusal (status : Z) (msg : string) (err : option plan_error)
| VersionConflict (planID : string) (err : plan_error)
| Cancelled (planID reason : string)
| Updated (p : Plan)
| Versions (planID : string) (vs : list PlanVersion)
| RolledBack (p : Plan) (previous target : Z).

#[export] Instance plan_error_eq_dec : EqDecision plan_error.
Proof. intros a b. unfold Decision. decide equality; first [apply (decide (_ = _)) | decide equality]. Defined.

(** errors.Is: an error or one it wraps. *)
Fixpoint Is (e target : plan_error) : bool :=
  bool_decide (e = target) || match e with ErrWrapped _ e' => Is e' target | _ => false end.

Definition ValidExecutionModes : list string := ["sequential"; "parallel"; "auto"; "balanced"].
Definition EnterpriseExecutionModes : list string := ["confirm"; "step"].
Definition IsValidExecutionMode (mode : string) (isEnterprise : bool) : bool :=
  str_in mode ValidExecutionModes || isEnterprise && str_in mode EnterpriseExecutionModes.

Section Handlers.
Context (getenv : string -> string) (validator : option ServiceAuth.TokenValidator) (config : option ServiceConfig).

(** The gate of a plan route: the token of the agent, then the service, then the id. *)
Definition plan_route (now : Z) (r : HttpRequest) (planID : string) (f : ServiceConfig -> prog reply) : prog reply :=
  match verifyAgentProxyAuth getenv validator (Unix now) r with
  | Some msg => Done (Refusal 403 msg None)
  | None =>
      match config with
      | None => Done (Refusal 503 "Plan storage not available" None)
      | Some c => if str_eqb planID "" then Done (Refusal 400 "Plan ID is required" None) else f c
      end
  end.

(** The error of an execution, executePlanHandler. *)
Definition execute_refusal (planID : string) (e : plan_error) : reply :=
  if Is e ErrPlanNotFound then Refusal 404 ("Plan not found: " +:+ planID) None
  else if Is e ErrPlanExpired then Refusal 410 ("Plan has expired: " +:+ planID) None
  else if Is e ErrPlanAlreadyRun then Refusal 409 ("Plan has already been executed: " +:+ planID) None
  else if Is e ErrPlanCancelled then Refusal 409 ("Plan has been cancelled: " +:+ planID) None
  else Refusal 500 "Failed to retrieve plan: " (Some e).

(** The body is the reason it decodes to, empty when there is none. *)
Definition cancelPlanHandler (now : Z) (r : HttpRequest) (planID body : string) : prog reply :=
  plan_route now r planID (fun _ =>
    let reason := if str_eqb body "" then "cancelled via API" else body in
    let* u := CancelPlan now planID (hdr r "X-Org-ID") reason in
    Done match u with
         | Some e => if Is e ErrPlanNotFound then Refusal 404 "Plan not found" None
                     else Refusal 409 "Failed to cancel plan: " (Some e)
         | None => Cancelled planID reason
         end).

(** The errors of an update and of a rollback; only a rollback looks for a version. *)
Definition change_refusal (planID msg : string) (e : plan_error) : reply :=
  if Is e ErrPlanNotFound then Refusal 404 "Plan not found" None
  else if Is e ErrMaxPlans || Is e ErrMaxVersions then Refusal 403 "" (Some e)
  else Refusal 400 msg (Some e).

(** The body is the request it decodes to, or the error of the decoder. *)
Definition updatePlanHandler (now : Z) (r : HttpRequest) (planID : string) (body : result string UpdatePlanRequest) : prog reply :=
  plan_route now r planID (fun c =>
    match body with
    | Err msg => Done (Refusal 400 ("Invalid request body: " +:+ msg) None)
    | Ok b =>
        let req := mkUpdatePlan planID (uq_ExpectedVersion b) (uq_ExecutionMode b) (uq_Domain b)
                     (hdr r "X-Org-ID") (hdr r "X-User-ID") in
        if negb (str_eqb (uq_ExecutionMode req) "") && negb (IsValidExecutionMode (uq_ExecutionMode req) (negb (isCommunityMode getenv)))
        then Done (Refusal 400 ("Invalid execution mode: " +:+ uq_ExecutionMode req) None)
        else
          let* u := UpdatePlan c now req in
          Done match u with
               | Err e => if Is e ErrVersionConflict then VersionConflict planID e
                          else change_refusal planID "Failed to update plan: " e
               | Ok p => Updated p
               end
    end).

Definition getPlanVersionsHandler (now : Z) (r : HttpRequest) (planID : string) : prog reply :=
  plan_route now r planID (fun _ =>
    let* u := GetPlanVersions planID (hdr r "X-Org-ID") in
    Done match u with
         | Err e => if Is e ErrPlanNotFound then Refusal 404 "Plan not found" None
                    else Refusal 500 "Failed to get plan versions: " (Some e)
         | Ok vs => Versions planID vs
         end).

Definition rollbackPlanHandler (now : Z) (r : HttpRequest) (planID versionStr : string) : prog reply :=
  match verifyAgentProxyAuth getenv validator (Unix now) r with
  | Some msg => Done (Refusal 403 msg None)
  | None =>
      if isCommunityMode getenv then Done (Refusal 403 "Rollback plan requires Enterprise license" None)
      else plan_route now r planID (fun c =>
        let '(target, ok) := Atoi versionStr in
        if negb ok || (target <? 1) then Done (Refusal 400 "Invalid target version" None)
        else
          let* u := RollbackPlan c now (mkRollback planID target (hdr r "X-Org-ID") (hdr r "X-User-ID")) in
          Done match u with
               | Err e => if Is e ErrVersionConflict then VersionConflict planID e
                          else if Is e ErrVersionNotFound
                          then Refusal 404 ("Version " +:+ Itoa target +:+ " not found for plan " +:+ planID) None
                          else change_refusal planID "Failed to rollback plan: " e
               | Ok p => RolledBack p (pl_Version p - 1) target
               end)
  end.
End Handlers.
End Repository.
