(* ===== verification/PlanningFacts.v ===== *)
(** What the stored plans of Planning.v promise: a plan is handed out for execution at
    most once however the operations interleave and whichever statements fail, a plan
    of another organization is neither read nor changed, and a rollback restores what
    an update changed. *)

From stdpp Require Import gmap relations.
From S2P Require Import Prelude GoStrings GoHttp GoStrconv GoTime ServiceAuth TenantScope AgentAuth AgentProxy Planning.

Local Open Scope nat_scope.

(** * Interleaved operations *)

Section Interleaving.
Context `{U : Unicode} (config : ServiceConfig).

(** The operations of the service; only an execution is granted a plan. *)
Inductive plan_op :=
| OpStore (now : Z) (req : CreatePlanRequest)
| OpExecute (now : Z) (planID orgID : string)
| OpCompleted (now : Z) (planID outcome : string)
| OpFailed (now : Z) (planID errMsg : string)
| OpCancel (now : Z) (planID orgID reason : string)
| OpGet (planID orgID : string)
| OpGetUnscoped (planID : string)
| OpUpdate (now : Z) (req : UpdatePlanRequest)
| OpRollback (now : Z) (req : RollbackPlanRequest)
| OpVersions (planID orgID : string)
| OpCleanup (now : Z).

Definition grants_nothing {A} (p : prog A) : prog (option string) := let* _ := p in Done None.

Definition op_prog (o : plan_op) : prog (option string) :=
  match o with
  | OpStore now req => grants_nothing (StorePlan now req)
  | OpExecute now planID orgID =>
      let* r := GetPlanForExecution now planID orgID in
      Done (match r with Ok _ => Some planID | Err _ => None end)
  | OpCompleted now planID outcome => grants_nothing (MarkPlanCompleted now planID outcome)
  | OpFailed now planID errMsg => grants_nothing (MarkPlanFailed now planID errMsg)
  | OpCancel now planID orgID reason => grants_nothing (CancelPlan now planID orgID reason)
  | OpGet planID orgID => grants_nothing (GetPlan planID orgID)
  | OpGetUnscoped planID => grants_nothing (GetPlanUnscoped planID)
  | OpUpdate now req => grants_nothing (UpdatePlan config now req)
  | OpRollback now req => grants_nothing (RollbackPlan config now req)
  | OpVersions planID orgID => grants_nothing (GetPlanVersions planID orgID)
  | OpCleanup now => grants_nothing (CleanupExpiredPlans now)
  end.

Definition stores (id : string) (o : plan_op) : bool :=
  match o with OpStore _ req => str_eqb (cq_PlanID req) id | _ => false end.

Record pool := mkPool { running : list (prog (option string)); shared : PlanDb }.

(** One operation executes its next statement, which may fail. *)
Inductive sched : pool -> pool -> Prop :=
| sched_step i k fail ps db p' db' :
    ps !! i = Some (Step k) -> k fail db = (p', db') -> sched (mkPool ps db) (mkPool (<[i := p']> ps) db').

Definition is_granted (id : string) (p : prog (option string)) : bool :=
  match p with Done (Some i) => str_eqb i id | _ => false end.
Definition grants (id : string) (ps : list (prog (option string))) : nat := length (List.filter (is_granted id) ps).

(** The pending plan is a token: there is one while the row is pending. *)
Definition pending (id : string) (db : PlanDb) : nat :=
  match db_plans db !! id with Some p => if str_eqb (pl_Status p) PlanStatusPending then 1 else 0 | None => 0 end.

(** * Accounting of the token *)

Section Token.
Context (id : string).

(** A program that holds [w] tokens never creates one, and ends with [Q]. *)
Fixpoint holds {A} (Q : nat -> A -> Prop) (w : nat) (p : prog A) : Prop :=
  match p with
  | Done a => Q w a
  | Step k => forall fail db, let '(p', db') := k fail db in
                exists w', w' + pending id db' <= w + pending id db /\ holds Q w' p'
  end.

Lemma holds_bind {A B} (p : prog A) (f : A -> prog B) Q w :
  holds (fun w a => holds Q w (f a)) w p -> holds Q w (bind p f).
Proof.
  revert w. induction p as [a|k IH] using prog_rect_step; cbn; intros w H; [done|].
  intros fail db. specialize (H fail db). specialize (IH fail db). destruct (k fail db) as [p' db'].
  destruct H as (w' & Hw & H). exists w'. split; [done|]. by apply IH.
Qed.

Lemma holds_stmt {A} (failed : A) f (Q : nat -> A -> Prop) w :
  Q w failed ->
  (forall db, exists w', w' + pending id (f db).2 <= w + pending id db /\ Q w' (f db).1) ->
  holds Q w (stmt failed f).
Proof.
  intros Hf H [] db; cbn; [by exists w|]. specialize (H db). by destruct (f db).
Qed.

(** A statement that creates no pending plan keeps the tokens of its program. *)
Lemma holds_neutral {A} (failed : A) f (Q : nat -> A -> Prop) w :
  (forall a, Q w a) -> (forall db, pending id (f db).2 <= pending id db) -> holds Q w (stmt failed f).
Proof. intros HQ Hp. apply holds_stmt; [done|]. intros db. exists w. split; [|done]. specialize (Hp db). lia. Qed.

Lemma pending_set_plans db j p :
  (j = id -> pl_Status p = PlanStatusPending -> 1 <= pending id db) ->
  pending id (set_plans db (<[j := p]> (db_plans db))) <= pending id db.
Proof.
  intros H. unfold pending at 1. cbn. destruct (decide (j = id)) as [->|Hj].
  - rewrite lookup_insert_eq. destruct (str_eqb _ _) eqn:E; [|lia]. apply H; [done|]. by apply str_eqb_true.
  - by rewrite lookup_insert_ne.
Qed.

Lemma pending_keep db j p p0 :
  db_plans db !! j = Some p0 -> pl_Status p = pl_Status p0 ->
  pending id (set_plans db (<[j := p]> (db_plans db))) <= pending id db.
Proof.
  intros Hj Hs. apply pending_set_plans. intros -> Hp. unfold pending. rewrite Hj, <- Hs, Hp.
  by rewrite str_eqb_refl.
Qed.

Lemma pending_remove keep db : pending id (remove_plans keep db) <= pending id db.
Proof.
  unfold pending, remove_plans. cbn. destruct (filter _ (db_plans db) !! id) eqn:E; [|lia].
  apply map_lookup_filter_Some in E as [-> _]. done.
Qed.

Ltac unguard := match goal with |- context [if str_eqb ?a "" then _ else _] => destruct (str_eqb a ""); [cbn; by auto|] end.

Lemma holds_repo_GetPlan planID (Q : nat -> _ -> Prop) w : (forall a, Q w a) -> holds Q w (repo_GetPlan planID).
Proof. intros HQ. unfold repo_GetPlan. unguard. apply holds_neutral; [done|]. intros db. by cbn. Qed.

Lemma holds_UpdatePlanStatus now planID status result errorMsg (Q : nat -> _ -> Prop) w :
  status <> PlanStatusPending -> (forall a, Q w a) -> holds Q w (UpdatePlanStatus now planID status result errorMsg).
Proof.
  intros Hs HQ. unfold UpdatePlanStatus. unguard. apply holds_neutral; [done|]. intros db.
  destruct (db_plans db !! planID); [|done]. apply pending_set_plans.
  destruct (_ || _); cbn; congruence.
Qed.

(** Only the step from pending to executing hands the token over. *)
Lemma holds_claim now planID (Q : nat -> _ -> Prop) w :
  (forall a, a <> None -> Q w a) -> Q (if str_eqb planID id then S w else w) None ->
  holds Q w (UpdatePlanStatusAtomic now planID PlanStatusPending PlanStatusExecuting).
Proof.
  intros HE HN. unfold UpdatePlanStatusAtomic. destruct (str_eqb planID ""); [cbn; by apply HE|].
  apply holds_stmt; [by apply HE|]. intros db.
  destruct (db_plans db !! planID) as [p|] eqn:Ep; cbn; [|exists w; split; [done|]; by apply HE].
  destruct (str_eqb (pl_Status p) PlanStatusPending) eqn:Es; cbn; [|exists w; split; [done|]; by apply HE].
  eexists. split; [|exact HN]. destruct (str_eqb planID id) eqn:Ei.
  - apply str_eqb_true in Ei as ->. unfold pending. cbn. rewrite lookup_insert_eq, Ep, Es.
    replace (str_eqb (pl_Status _) PlanStatusPending) with false by done. cbv iota. lia.
  - apply str_eqb_false in Ei. unfold pending. cbn. by rewrite lookup_insert_ne by done.
Qed.

Lemma holds_update_version msg planID v f (Q : nat -> _ -> Prop) w :
  (forall p, pl_Status (f p) = pl_Status p) -> (forall a, Q w a) -> holds Q w (update_version msg planID v f).
Proof.
  intros Hf HQ. unfold update_version. unguard. apply holds_bind, holds_neutral.
  - intros []; [apply HQ | by apply holds_repo_GetPlan].
  - intros db. destruct (db_plans db !! planID) eqn:E; [|done]. case_match; [|done]. by eapply pending_keep.
Qed.

Lemma holds_SavePlanVersion now v (Q : nat -> _ -> Prop) w : (forall a, Q w a) -> holds Q w (SavePlanVersion now v).
Proof. intros HQ. apply holds_neutral; [done|]. intros db. by case_match. Qed.

Lemma holds_read {A} (failed : A) (f : PlanDb -> A) (Q : nat -> A -> Prop) w :
  (forall a, Q w a) -> holds Q w (stmt failed (fun db => (f db, db))).
Proof. intros HQ. by apply holds_neutral. Qed.

Lemma holds_logAudit e (Q : nat -> _ -> Prop) w : Q w tt -> holds Q w (logAudit e).
Proof. intros HQ fail db. by exists w. Qed.

Lemma holds_SavePlan now p (Q : nat -> _ -> Prop) w :
  pl_PlanID p <> id -> (forall a, Q w a) -> holds Q w (SavePlan now p).
Proof.
  intros Hp HQ. unfold SavePlan. unguard. destruct (ValidateRowKeys _ _); [cbn; by auto|].
  apply holds_neutral; [done|]. intros db. case_match; [done|]. by apply pending_set_plans.
Qed.

Lemma holds_within_limit limit count (Q : nat -> bool -> Prop) w :
  (forall Q' : nat -> _ -> Prop, (forall a, Q' w a) -> holds Q' w count) -> (forall a, Q w a) -> holds Q w (within_limit limit count).
Proof. intros Hc HQ. unfold within_limit. case_match; [|apply HQ]. apply holds_bind, Hc. intros a. apply HQ. Qed.

Lemma holds_authorized {A} planID orgID (f : Plan -> prog (result plan_error A)) (Q : nat -> _ -> Prop) w :
  (forall a, Q w a) -> (forall p, holds Q w (f p)) -> holds Q w (authorized planID orgID f).
Proof.
  intros HQ Hf. apply holds_bind, holds_repo_GetPlan. intros [p|e]; [|apply HQ].
  destruct (authorizePlan p orgID); [apply HQ | apply Hf].
Qed.

(** * Every operation keeps the account *)

Ltac token_step :=
  first
    [ apply holds_bind
    | apply holds_authorized; [by auto | intros ?]
    | apply holds_repo_GetPlan; intros ?
    | apply holds_UpdatePlanStatus; [done | intros ?]
    | apply holds_update_version; [done | intros ?]
    | apply holds_SavePlanVersion; intros ?
    | apply holds_logAudit
    | apply holds_within_limit; [intros; by apply holds_read | intros ?]
    | apply holds_read; intros ?
    | solve [cbn [holds]; auto]
    | case_match ].

(** A program that neither creates nor takes the token. *)
Definition neutral {A} (p : prog A) : Prop := forall (Q : nat -> A -> Prop) w, (forall a, Q w a) -> holds Q w p.

Ltac tokens := intros Q w HQ; repeat token_step.

Lemma neutral_StorePlan now req : cq_PlanID req <> id -> neutral (StorePlan now req).
Proof.
  intros Hid Q w HQ. unfold StorePlan. repeat case_match; try apply HQ;
    (apply holds_bind, holds_SavePlan; [done|]; intros ?; repeat token_step).
Qed.

Lemma neutral_mark_plan msg now planID status outcome errMsg :
  status <> PlanStatusPending -> neutral (mark_plan msg now planID status outcome errMsg).
Proof.
  intros Hs Q w HQ. unfold mark_plan. apply holds_bind, holds_repo_GetPlan. intros ?.
  apply holds_bind, holds_UpdatePlanStatus; [done|]. intros ?. repeat token_step.
Qed.

Lemma neutral_CancelPlan now planID orgID reason : neutral (CancelPlan now planID orgID reason).
Proof. unfold CancelPlan. tokens. Qed.

Lemma neutral_UpdatePlan now req : neutral (UpdatePlan config now req).
Proof. unfold UpdatePlan, UpdatePlanWithVersion, CountPlansWithVersioning, CountVersions. tokens. Qed.

Lemma neutral_RollbackPlan now req : neutral (RollbackPlan config now req).
Proof. unfold RollbackPlan, repo_RollbackPlan, CountVersions, GetPlanVersion. tokens. Qed.

Lemma neutral_reads planID orgID : neutral (GetPlan planID orgID) /\ neutral (GetPlanVersions planID orgID).
Proof. unfold GetPlan, GetPlanVersions, repo_GetPlanVersions. split; tokens. Qed.

Lemma neutral_cleanup now : neutral (CleanupExpiredPlans now).
Proof. intros Q w HQ. apply holds_neutral; [done|]. intros db. apply pending_remove. Qed.

(** An execution that is granted has taken the token of its plan. *)
Lemma holds_execution now planID orgID :
  holds (fun w r => forall p, r = Ok p -> planID = id -> 1 <= w) 0 (GetPlanForExecution now planID orgID).
Proof.
  unfold GetPlanForExecution. apply holds_bind, holds_repo_GetPlan. intros [plan|e]; [|done].
  destruct (authorizePlan plan orgID); [done|]. destruct (IsExpired now plan); [by repeat token_step|].
  destruct (negb _); [done|]. apply holds_bind, holds_claim.
  - intros [e|] He; [|done]. by destruct e.
  - apply holds_bind, holds_logAudit. intros p _ ->. rewrite str_eqb_refl. lia.
Qed.
End Token.

Lemma holds_mono {A} id (Q Q' : nat -> A -> Prop) w p :
  (forall w a, Q w a -> Q' w a) -> holds id Q w p -> holds id Q' w p.
Proof.
  intros HQ. revert w. induction p as [a|k IH] using prog_rect_step; cbn; intros w H; [by apply HQ|].
  intros fail db. specialize (H fail db). specialize (IH fail db). destruct (k fail db) as [p' db'].
  destruct H as (w' & Hw & H). eauto.
Qed.

Definition accounted (id : string) (w : nat) : prog (option string) -> Prop :=
  holds id (fun w r => r = Some id -> 1 <= w) w.

Lemma op_accounted id o : stores id o = false -> accounted id 0 (op_prog o).
Proof.
  intros Hs. assert (Hn : forall A (p : prog A), neutral id p -> accounted id 0 (grants_nothing p)).
  { intros A p Hp. apply holds_bind, Hp. done. }
  destruct o; cbn [op_prog]; try apply Hn.
  - apply neutral_StorePlan. by apply str_eqb_false.
  - apply holds_bind. eapply holds_mono; [|apply holds_execution]. intros w [p|e] H; cbn; [|done].
    intros [= ->]. by eapply H.
  - by apply neutral_mark_plan.
  - by apply neutral_mark_plan.
  - apply neutral_CancelPlan.
  - by apply neutral_reads.
  - intros Q w HQ. by apply holds_repo_GetPlan.
  - apply neutral_UpdatePlan.
  - apply neutral_RollbackPlan.
  - by apply neutral_reads.
  - apply neutral_cleanup.
Qed.

(** The tokens held by the running operations, with that of the row, never grow. *)
Definition balanced (id : string) (n : nat) (c : pool) : Prop :=
  exists ws, Forall2 (accounted id) ws (running c) /\ sum_list ws + pending id (shared c) <= n.

Lemma sum_list_insert ws i (w w' : nat) : ws !! i = Some w -> sum_list (<[i := w']> ws) + w = sum_list ws + w'.
Proof.
  intros H. rewrite <- (take_drop_middle ws i w H) at 2. rewrite (insert_take_drop ws i w') by (by eapply lookup_lt_Some).
  rewrite !sum_list_with_app. cbn [sum_list_with]. unfold id. lia.
Qed.

Lemma balanced_step id n c c' : sched c c' -> balanced id n c -> balanced id n c'.
Proof.
  intros [i k fail ps db p' db' Hi Hk] (ws & Hws & Hn). cbn in *.
  destruct (Forall2_lookup_r _ _ _ _ _ Hws Hi) as (w & Hw & Ha).
  specialize (Ha fail db). rewrite Hk in Ha. destruct Ha as (w' & Hle & Ha).
  exists (<[i := w']> ws). split; [by apply Forall2_insert|].
  pose proof (sum_list_insert ws i w w' Hw). cbn. lia.
Qed.

Lemma balanced_run id n c c' : rtc sched c c' -> balanced id n c -> balanced id n c'.
Proof. induction 1; eauto using balanced_step. Qed.

Lemma balanced_init id ops db :
  forallb (fun o => negb (stores id o)) ops = true -> balanced id (pending id db) (mkPool (map op_prog ops) db).
Proof.
  intros H. exists (replicate (length ops) 0). split; cbn.
  - induction ops as [|o ops IH]; cbn in *; [constructor|].
    apply andb_true_iff in H as [Ho%negb_true_iff H]. constructor; auto using op_accounted.
  - clear H. induction ops; cbn; lia.
Qed.

Lemma balanced_grants id n c : balanced id n c -> grants id (running c) + pending id (shared c) <= n.
Proof.
  intros (ws & Hws & Hn). assert (grants id (running c) <= sum_list ws); [|lia]. clear Hn.
  induction Hws as [|w p ws ps Hp _ IH]; [done|]. unfold grants in *. cbn [List.filter sum_list].
  destruct (is_granted id p) eqn:E; cbn; [|lia].
  destruct p as [[i|]|]; cbn in E; try done. apply str_eqb_true in E as ->. specialize (Hp eq_refl). lia.
Qed.

(** C31: However the operations of the plan service interleave, and whichever of their
    statements fail, a stored plan is handed out for execution at most once, and not
    at all unless it was pending; while it is still pending nobody has been given it. *)
Theorem single_execution id ops db ps db' :
  forallb (fun o => negb (stores id o)) ops = true ->
  rtc sched (mkPool (map op_prog ops) db) (mkPool ps db') ->
  grants id ps + pending id db' <= pending id db /\ pending id db <= 1.
Proof.
  intros Hs Hr. split.
  - apply (balanced_grants id _ (mkPool ps db')). eapply balanced_run, balanced_init; done.
  - unfold pending. repeat case_match; lia.
Qed.
End Interleaving.

(** * Operations run alone *)

Section Alone.
Context `{U : Unicode}.
Local Open Scope Z_scope.

(** A pending plan that has not expired is given to its organization. *)
Lemma execution_granted now planID orgID db p :
  planID <> "" -> db_plans db !! planID = Some p -> authorizePlan p orgID = None -> CanExecute now p = true ->
  exists db', run (GetPlanForExecution now planID orgID) [] db = (Ok p, db') /\
    db_plans db' = <[planID := with_status now PlanStatusExecuting p]> (db_plans db).
Proof.
  intros Hid Hp Ha [Hs He%negb_true_iff]%andb_true_iff. apply str_eqb_false in Hid.
  unfold GetPlanForExecution, repo_GetPlan, UpdatePlanStatusAtomic. rewrite Hid. cbn [bind stmt run head tail default].
  rewrite Hp. cbn [bind run]. rewrite Ha, He, Hs. cbn [negb bind stmt run head tail default]. rewrite Hp, Hs.
  cbn [bind run logAudit head tail default]. eexists. split; [reflexivity|]. done.
Qed.

(** * Updates and rollbacks *)

Lemma run_bind {A B} (p : prog A) (k : A -> prog B) db :
  run (let* a := p in k a) [] db = let '(a, db') := run p [] db in run (k a) [] db'.
Proof.
  revert db. induction p as [a|s IH] using prog_rect_step; intros db; [done|]. cbn.
  specialize (IH false db). by destruct (s false db).
Qed.

Lemma run_stmt {A} (failed : A) f db : run (stmt failed f) [] db = f db.
Proof. cbn. by destruct (f db). Qed.

Lemma run_authorized {A} planID orgID (f : Plan -> prog (result plan_error A)) db p :
  planID <> "" -> db_plans db !! planID = Some p -> authorizePlan p orgID = None ->
  run (authorized planID orgID f) [] db = run (f p) [] db.
Proof.
  intros Hid%str_eqb_false Hp Ha. unfold authorized, repo_GetPlan. rewrite Hid, run_bind, run_stmt, Hp. cbn. by rewrite Ha.
Qed.

Lemma run_update_version msg planID f db p :
  planID <> "" -> db_plans db !! planID = Some p ->
  run (update_version msg planID (pl_Version p) f) [] db = (Ok (f p), set_plans db (<[planID := f p]> (db_plans db))).
Proof.
  intros Hid%str_eqb_false Hp. unfold update_version, repo_GetPlan. rewrite Hid, run_bind, run_stmt, Hp, Z.eqb_refl, run_stmt.
  cbn. by rewrite lookup_insert_eq.
Qed.

Lemma run_within_limit limit failed f n db :
  f db = (Ok n, db) -> (0 < limit -> n < limit) ->
  run (within_limit limit (stmt failed f)) [] db = (true, db).
Proof.
  intros Hf Hn. unfold within_limit. destruct (0 <? limit) eqn:E; [|done]. rewrite run_bind, run_stmt, Hf. cbn.
  replace (limit <=? n) with false by lia. done.
Qed.

Definition versions_of (id : string) (db : PlanDb) : list PlanVersion := List.filter (fun v => str_eqb (pv_PlanID v) id) (db_versions db).

Definition versioned_plans (orgID : string) (db : PlanDb) : nat :=
  size (filter (fun e => pl_OrgID e.2 = orgID /\ 1 < pl_Version e.2) (db_plans db)).

(** There is room for [n] more versions of a plan, and for a plan with versions. *)
Definition has_room (c : ServiceConfig) (id orgID : string) (n : Z) (db : PlanDb) : Prop :=
  (0 < sc_MaxVersionsPerPlan c -> Z.of_nat (length (versions_of id db)) + n <= sc_MaxVersionsPerPlan c) /\
  (0 < sc_MaxPlansWithVersioning c -> Z.of_nat (versioned_plans orgID db) < sc_MaxPlansWithVersioning c).

(** The history of a plan is older than the plan. *)
Definition history_below (id : string) (v : Z) (db : PlanDb) : Prop :=
  Forall (fun w => pv_PlanID w = id -> pv_Version w < v) (db_versions db).

Lemma history_fresh id v w db :
  history_below id v db -> v <= w -> existsb (same_version id w) (db_versions db) = false /\ find_first (same_version id w) (db_versions db) = None.
Proof.
  intros H Hw.
  assert (Hf : Forall (fun x => same_version id w x = false) (db_versions db)).
  { eapply Forall_impl; [exact H|]. intros x Hx. apply not_true_iff_false. intros [Hi%str_eqb_true Hv]%andb_true_iff.
    specialize (Hx Hi). lia. }
  split; [|by apply find_first_None]. apply not_true_iff_false. intros (x & Hx & Hs)%existsb_exists.
  rewrite Forall_forall in Hf. rewrite Hf in Hs; [done|]. by apply list_elem_of_In.
Qed.

Lemma run_save_version now v db p :
  db_plans db !! pv_PlanID v = Some p -> existsb (same_version (pv_PlanID v) (pv_Version v)) (db_versions db) = false ->
  run (SavePlanVersion now v) [] db =
    (None, set_versions db (db_versions db ++ [mkVersion (pv_PlanID v) (pv_Version v) (pv_OrgID v) (pv_Snapshot v)
                                                 (pv_ChangedBy v) now (pv_ChangeType v) (pv_ChangeSummary v)])).
Proof. intros Hp Hv. unfold SavePlanVersion. rewrite run_stmt, Hv, Hp. done. Qed.

Section Round.
Context (c : ServiceConfig) (req : UpdatePlanRequest) (db : PlanDb) (p : Plan).
Local Abbreviation id := (uq_PlanID req).
Local Abbreviation mode := (changed (pl_ExecutionMode p) (uq_ExecutionMode req)).
Local Abbreviation domain := (changed (pl_Domain p) (uq_Domain req)).
Context (Hid : id <> "") (Hp : db_plans db !! id = Some p) (Ho : authorizePlan p (uq_OrgID req) = None).
Context (Hs : pl_Status p = PlanStatusPending) (Hv : uq_ExpectedVersion req = pl_Version p) (H1 : 1 <= pl_Version p).
Context (Hh : history_below id (pl_Version p) db).

Definition updated_plan (now : Z) : Plan := with_update now mode domain (pl_WorkflowDefinition p) p.

Definition snapshot_row (now : Z) : PlanVersion :=
  mkVersion id (pl_Version p) (pl_OrgID p) p (uq_ChangedBy req) now "update" (change_summary p mode domain).

Lemma update_stores now :
  has_room c id (pl_OrgID p) 1 db -> (mode <> None \/ domain <> None) ->
  run (UpdatePlan c now req) [] db =
    (Ok (updated_plan now),
     mkPlanDb (<[id := updated_plan now]> (db_plans db)) (db_versions db ++ [snapshot_row now])
       (db_audit db ++ [audit_of p "updated" PlanStatusPending ""])).
Proof using All.
  intros [Hr1 Hr2] Hc. unfold UpdatePlan. rewrite (proj2 (str_eqb_false _ _) Hid).
  replace (uq_ExpectedVersion req <? 1) with false by lia. rewrite (run_authorized _ _ _ _ _ Hid Hp Ho), Hs, str_eqb_refl. cbn [negb].
  rewrite run_bind.
  replace (run _ [] db) with (true, db); cycle 1.
  { case_match; [|done]. symmetry. by eapply run_within_limit; [|exact Hr2]. }
  cbn [negb]. rewrite run_bind. unfold CountVersions. erewrite run_within_limit; [|done|intros H; specialize (Hr1 H); unfold versions_of in Hr1; lia].
  cbn [negb].
  replace (match mode with Some _ => _ | None => _ end) with
    (let* r := UpdatePlanWithVersion now id (uq_ExpectedVersion req) mode domain in
              match r with
              | Err e => Done (Err e)
              | Ok updated =>
                  let* _ := SavePlanVersion now (mkVersion id (uq_ExpectedVersion req) (pl_OrgID p) p
                              (uq_ChangedBy req) 0 "update" (change_summary p mode domain)) in
                  let* _ := logAudit (audit_of p "updated" (pl_Status updated) "") in
                  Done (Ok updated)
              end) by (destruct mode, domain; naive_solver).
  unfold UpdatePlanWithVersion. rewrite run_bind, Hv, (run_update_version _ _ _ _ _ Hid Hp), run_bind.
  erewrite run_save_version; cbn [pv_PlanID pv_Version pv_OrgID pv_Snapshot pv_ChangedBy pv_ChangeType pv_ChangeSummary];
    [|by apply lookup_insert_eq|by apply (history_fresh _ _ _ _ Hh)].
  cbn. by rewrite Hs.
Qed.
End Round.

(** What a rollback makes of the current plan [q] and the stored version [t]. *)
Definition rolled_back (now : Z) (t : PlanVersion) (q : Plan) : Plan :=
  with_update now (Some (pl_ExecutionMode (pv_Snapshot t))) (Some (pl_Domain (pv_Snapshot t))) (pl_WorkflowDefinition (pv_Snapshot t)) q.

Lemma rollback_stores c now rq db q t :
  let id := rq_PlanID rq in
  id <> "" -> db_plans db !! id = Some q -> authorizePlan q (rq_OrgID rq) = None -> pl_Status q = PlanStatusPending ->
  1 <= rq_TargetVersion rq < pl_Version q ->
  (0 < sc_MaxVersionsPerPlan c -> Z.of_nat (length (versions_of id db)) < sc_MaxVersionsPerPlan c) ->
  history_below id (pl_Version q) db -> find_first (same_version id (rq_TargetVersion rq)) (db_versions db) = Some t ->
  exists row, pv_Version row = pl_Version q /\ pv_Snapshot row = q /\
  run (RollbackPlan c now rq) [] db =
    (Ok (rolled_back now t q),
     mkPlanDb (<[id := rolled_back now t q]> (db_plans db)) (db_versions db ++ [row])
       (db_audit db ++ [audit_of q "rollback" PlanStatusPending ""])).
Proof.
  intros id Hid Hq Ho Hs Ht Hr Hh Hf. unfold RollbackPlan, id in *. rewrite (proj2 (str_eqb_false _ _) Hid).
  replace (rq_TargetVersion rq <? 1) with false by lia. rewrite (run_authorized _ _ _ _ _ Hid Hq Ho), Hs, str_eqb_refl. cbn [negb].
  replace (pl_Version q <=? rq_TargetVersion rq) with false by lia.
  rewrite run_bind. unfold CountVersions. erewrite run_within_limit; [|done|exact Hr]. cbn [negb].
  rewrite run_bind. unfold GetPlanVersion. rewrite (proj2 (str_eqb_false _ _) Hid), run_stmt, Hf, run_bind.
  erewrite run_save_version; cbn [pv_PlanID pv_Version pv_OrgID pv_Snapshot pv_ChangedBy pv_ChangeType pv_ChangeSummary];
    [|done|by apply (history_fresh _ _ _ _ Hh)].
  rewrite run_bind. unfold repo_RollbackPlan. rewrite run_update_version by done. eexists. split; [|split]; [..|cbn; by rewrite Hs]; done.
Qed.

(** A rollback undoes an update: after a pending plan has been updated, rolling it
    back to the version it had restores its mode, domain and workflow under the next
    version number, leaves everything else of it as it was, and keeps both states in its
    history. *)
Theorem rollback_restores c now now' req by_ db p :
  let id := uq_PlanID req in
  id <> "" -> db_plans db !! id = Some p -> authorizePlan p (uq_OrgID req) = None -> pl_Status p = PlanStatusPending ->
  uq_ExpectedVersion req = pl_Version p -> 1 <= pl_Version p -> history_below id (pl_Version p) db -> has_room c id (pl_OrgID p) 2 db ->
  (changed (pl_ExecutionMode p) (uq_ExecutionMode req) <> None \/ changed (pl_Domain p) (uq_Domain req) <> None) ->
  exists updated db1 restored db2 h1 h2,
    run (UpdatePlan c now req) [] db = (Ok updated, db1) /\
    run (RollbackPlan c now' (mkRollback id (pl_Version p) (uq_OrgID req) by_)) [] db1 = (Ok restored, db2) /\
    pl_Version updated = pl_Version p + 1 /\
    restored = mkPlan (pl_PlanID p) (pl_Query p) (pl_Domain p) (pl_ExecutionMode p) (pl_Version p + 2) (pl_WorkflowDefinition p)
                 (pl_Complexity p) (pl_Parallel p) (pl_EstimatedDuration p) (pl_StepCount p) (pl_Status p) (pl_ExecutedAt p)
                 (pl_ExecutionResult p) (pl_ErrorMessage p) (pl_OrgID p) (pl_TenantID p) (pl_UserID p) (pl_ClientID p)
                 (pl_ExpiresAt p) (pl_CreatedAt p) now' /\
    db_plans db2 = <[id := restored]> (db_plans db) /\
    db_versions db2 = db_versions db ++ [h1; h2] /\ pv_Snapshot h1 = p /\ pv_Snapshot h2 = updated.
Proof.
  intros id Hid Hp Ho Hs Hv H1 Hh [Hr1 Hr2] Hc.
  pose proof (update_stores c req db p Hid Hp Ho Hs Hv H1 Hh now) as Hu.
  rewrite Hu by (done || (split; [intros H; specialize (Hr1 H); unfold id in Hr1; lia|done])). clear Hu.
  destruct (rollback_stores c now' (mkRollback id (pl_Version p) (uq_OrgID req) by_)
    (mkPlanDb (<[id := updated_plan req p now]> (db_plans db)) (db_versions db ++ [snapshot_row req p now])
       (db_audit db ++ [audit_of p "updated" PlanStatusPending ""])) (updated_plan req p now) (snapshot_row req p now))
    as (row & Hrv & Hrs & Hrun); cbn [rq_PlanID rq_TargetVersion rq_OrgID db_plans db_versions].
  - done.
  - apply lookup_insert_eq.
  - done.
  - done.
  - cbn. lia.
  - unfold versions_of. cbn [db_versions]. rewrite List.filter_app, length_app. cbn. rewrite str_eqb_refl. cbn.
    intros H. specialize (Hr1 H). unfold versions_of in Hr1. unfold id in *. lia.
  - unfold history_below. cbn [db_versions]. apply Forall_app. split.
    + eapply Forall_impl; [exact Hh|]. intros x Hx Hi. specialize (Hx Hi). cbn [updated_plan with_update pl_Version]. lia.
    + apply Forall_singleton. intros _. cbn [updated_plan with_update pl_Version snapshot_row pv_Version]. lia.
  - apply find_first_snoc; [by apply (history_fresh _ _ _ _ Hh)|]. unfold same_version. cbn. by rewrite str_eqb_refl, Z.eqb_refl.
  - do 4 eexists. exists (snapshot_row req p now), row. split; [reflexivity|]. split; [exact Hrun|].
    split_and!; cbn; try done.
    + unfold rolled_back, with_update. cbn. f_equal. lia.
    + by rewrite insert_insert_eq.
    + by rewrite <- app_assoc.
Qed.

(** * Corners *)

(** Expiry is looked at first: a plan that has run, or is running, is marked expired. *)
Lemma expired_overwrites now planID orgID db p :
  planID <> "" -> db_plans db !! planID = Some p -> authorizePlan p orgID = None -> IsExpired now p = true ->
  run (GetPlanForExecution now planID orgID) [] db =
    (Err ErrPlanExpired, set_plans db (<[planID := with_status now PlanStatusExpired p]> (db_plans db))).
Proof.
  intros Hid%str_eqb_false Hp Ha He. unfold GetPlanForExecution, repo_GetPlan, UpdatePlanStatus.
  rewrite Hid, run_bind, run_stmt, Hp, Ha, He, run_bind, run_stmt, Hp. done.
Qed.

(** The reason of a cancellation is not stored with the plan, only audited. *)
Lemma cancel_reason_lost now planID orgID reason db db' p :
  planID <> "" -> db_plans db !! planID = Some p -> run (CancelPlan now planID orgID reason) [] db = (None, db') ->
  db_plans db' = <[planID := with_status now PlanStatusCancelled p]> (db_plans db) /\
  db_audit db' = db_audit db ++ [audit_of p "cancelled" PlanStatusCancelled reason].
Proof.
  intros Hid%str_eqb_false Hp. unfold CancelPlan, repo_GetPlan, UpdatePlanStatus. rewrite Hid, run_bind, run_stmt, Hp.
  destruct (authorizePlan p orgID); [done|]. destruct (negb _); [done|]. rewrite run_bind, run_stmt, Hp.
  change (_ || _) with false. cbn. by intros [= <-].
Qed.

(** * Plans of other organizations *)

Definition without (id : string) (db : PlanDb) : PlanDb := set_plans db (delete id (db_plans db)).

(** Whatever fails, a program answers as if the plan did not exist, and does nothing. *)
Definition hides {A} (id : string) (db : PlanDb) (p : prog A) : Prop :=
  forall fails, exists a, run p fails db = (a, db) /\ run p fails (without id db) = (a, without id db).

Lemma hides_done {A} id db (a : A) : hides id db (Done a).
Proof. intros fails. by exists a. Qed.

Lemma hides_bind {A B} id db (p : prog A) (f : A -> B) : hides id db p -> hides id db (let* a := p in Done (f a)).
Proof.
  assert (Hb : forall fails d, run (let* a := p in Done (f a)) fails d = (f (run p fails d).1, (run p fails d).2)).
  { induction p as [a|k IH] using prog_rect_step; intros fails d; [done|]. cbn.
    specialize (IH (default false (head fails)) d). destruct (k _ d) as [p' d']. apply IH. }
  intros Hp fails. destruct (Hp fails) as (a & H & H'). exists (f a). by rewrite !Hb, H, H'.
Qed.

Section Foreign.
Context (planID orgID : string) (db : PlanDb) (p : Plan).
Context (Hid : planID <> "") (Hp : db_plans db !! planID = Some p) (Ho : authorizePlan p orgID <> None).

(** A read whose caller is refused as if nothing had been found. *)
Lemma hides_read {A} (f : result plan_error Plan -> prog A) (g : plan_error -> A) :
  (forall e, f (Err e) = Done (g e)) -> f (Ok p) = Done (g ErrPlanNotFound) ->
  hides planID db (let* r := repo_GetPlan planID in f r).
Proof using Hid Hp.
  intros HE HO fails. unfold repo_GetPlan. apply str_eqb_false in Hid. rewrite Hid. cbn [bind stmt run].
  destruct (default false (head fails)); cbn [bind run]; [rewrite !HE; by eexists|].
  unfold without at 1, set_plans. cbn [db_plans]. rewrite lookup_delete_eq, Hp. cbn [bind run].
  rewrite HE, HO. by eexists.
Qed.

Lemma hides_authorized {A} (f : Plan -> prog (result plan_error A)) : hides planID db (authorized planID orgID f).
Proof using All.
  apply (hides_read _ Err); [done|]. by destruct (authorizePlan p orgID).
Qed.

Lemma hides_execution now : hides planID db (GetPlanForExecution now planID orgID).
Proof using All. apply (hides_read _ Err); [done|]. by destruct (authorizePlan p orgID). Qed.

Lemma hides_plan_route getenv validator config now r f :
  (forall c, hides planID db (f c)) -> hides planID db (plan_route getenv validator config now r planID f).
Proof using All. intros Hf. unfold plan_route. repeat case_match; auto using hides_done. Qed.

(** A cancellation tells the two apart by its error alone, which the handler unwraps. *)
Lemma hides_cancel (now : Z) reason (g : option plan_error -> reply) :
  g (Some (ErrWrapped "failed to get plan" ErrPlanNotFound)) = g (Some ErrPlanNotFound) ->
  hides planID db (let* u := CancelPlan now planID orgID reason in Done (g u)).
Proof using All.
  intros Hg fails. unfold CancelPlan, repo_GetPlan. apply str_eqb_false in Hid. rewrite Hid. cbn [bind stmt run].
  destruct (default false (head fails)); cbn [bind run]; [by eexists|].
  unfold without at 1, set_plans. cbn [db_plans]. rewrite lookup_delete_eq, Hp. cbn [bind run].
  destruct (authorizePlan p orgID); [|done]. cbn [bind run]. rewrite Hg. by eexists.
Qed.
End Foreign.

(** To a caller of another organization a stored plan does not exist: executing,
    reading, updating, rolling back, cancelling it or listing its versions, through the
    service or the routes, changes nothing and answers, byte for byte and whichever
    statement fails, what it would answer if there were no such plan. *)
Theorem foreign_plan_hidden getenv validator config now r planID db p :
  let org := hdr r "X-Org-ID" in
  planID <> "" -> db_plans db !! planID = Some p -> authorizePlan p org <> None ->
  hides planID db (GetPlanForExecution now planID org) /\
  hides planID db (GetPlan planID org) /\
  (forall body, hides planID db (cancelPlanHandler getenv validator config now r planID body)) /\
  (forall body, hides planID db (updatePlanHandler getenv validator config now r planID body)) /\
  hides planID db (getPlanVersionsHandler getenv validator config now r planID) /\
  (forall v, hides planID db (rollbackPlanHandler getenv validator config now r planID v)).
Proof.
  intros org Hid Hp Ho. split_and!.
  - by eapply hides_execution.
  - by eapply hides_authorized.
  - intros body. eapply hides_plan_route; [done..|]. intros _. by eapply hides_cancel.
  - intros body. eapply hides_plan_route; [done..|]. intros c. destruct body as [b|msg]; [|apply hides_done].
    cbv zeta. case_match; [apply hides_done|]. apply hides_bind. unfold UpdatePlan. cbn [uq_PlanID uq_ExpectedVersion uq_OrgID].
    repeat (case_match; [apply hides_done|]). by eapply hides_authorized.
  - eapply hides_plan_route; [done..|]. intros _. by eapply hides_bind, hides_authorized.
  - intros v. unfold rollbackPlanHandler. case_match; [apply hides_done|]. case_match; [apply hides_done|].
    eapply hides_plan_route; [done..|]. intros c. destruct (Atoi v). case_match; [apply hides_done|].
    apply hides_bind. unfold RollbackPlan. cbn [rq_PlanID rq_TargetVersion rq_OrgID].
    repeat (case_match; [apply hides_done|]). by eapply hides_authorized.
Qed.
End Alone.

(** * Schedules *)

(** The pool after some statements: whose turn it is, and whether the statement fails. *)
Fixpoint schedule (turns : list (nat * bool)) (c : pool) : pool :=
  match turns with
  | [] => c
  | (i, fail) :: turns =>
      schedule turns
        match running c !! i with
        | Some (Step k) => let '(p', db') := k fail (shared c) in mkPool (<[i := p']> (running c)) db'
        | _ => c
        end
  end.

Lemma schedule_sound turns c : rtc sched c (schedule turns c).
Proof.
  revert c. induction turns as [|[i fail] turns IH]; intros [ps db]; cbn [schedule running shared]; [done|].
  destruct (ps !! i) as [[a|k]|] eqn:E; try apply IH. destruct (k fail db) as [p' db'] eqn:Ek.
  eapply rtc_l; [by eapply sched_step|]. apply IH.
Qed.

Module PlanDemo.
#[local] Existing Instance ascii_unicode.
Local Open Scope Z_scope.
Definition stored : CreatePlanRequest :=
  mkCreatePlan "plan-1" "q" "generic" "auto" "{}" 1 false "" 1 "acme" "acme" "7" "client" 0.
Definition row : Plan :=
  mkPlan "plan-1" "q" "generic" "auto" 1 "{}" 1 false "" 1 "pending" None "" "" "acme" "acme" "7" "client" (5 + Hour) 5 5.
Definition db0 : PlanDb := mkPlanDb {["plan-1" := row]} [] [].
Definition to_parallel : UpdatePlanRequest := mkUpdatePlan "plan-1" 1 "parallel" "" "acme" "7".
Definition state_of (db : PlanDb) : option (string * string * Z) :=
  (fun p => (pl_Status p, pl_ExecutionMode p, pl_Version p)) <$> db_plans db !! "plan-1".
Definition granted (c : pool) : list nat := map (fun p => if is_granted "plan-1" p then 1%nat else 0%nat) (running c).

Example stored_row : db_plans (run (StorePlan 5 stored) [] (mkPlanDb ∅ [] [])).2 = {["plan-1" := row]}.
Proof. vm_compute. reflexivity. Qed.

(** Two executions and a cancellation that all read the plan while it was pending:
    one execution gets it, and the cancellation marks the running plan. *)
Definition contenders : list plan_op :=
  [OpExecute 6 "plan-1" "acme"; OpExecute 7 "plan-1" "acme"; OpCancel 8 "plan-1" "acme" "stop"].
Definition contention : pool :=
  schedule [(0, false); (1, false); (2, false); (1, false); (0, false); (2, false); (1, false)]%nat
    (mkPool (map (op_prog NewService) contenders) db0).

Example contention_outcome : granted contention = [0; 1; 0]%nat /\ state_of (shared contention) = Some ("cancelled", "auto", 1).
Proof. vm_compute. done. Qed.

(** A cancelled plan is completed when its execution ends. *)
Example cancelled_plan_completed :
  let db1 := (run (GetPlanForExecution 6 "plan-1" "acme") [] db0).2 in
  let db2 := (run (CancelPlan 7 "plan-1" "acme" "stop") [] db1).2 in
  state_of db2 = Some ("cancelled", "auto", 1) /\
  state_of (run (MarkPlanCompleted 8 "plan-1" "{}") [] db2).2 = Some ("completed", "auto", 1).
Proof. vm_compute. done. Qed.

(** An update that has read a pending plan changes it after its execution began: the
    write is guarded by the version alone, and an execution does not change that. *)
Definition late_update : pool :=
  schedule [(0, false); (0, false); (0, false); (1, false); (1, false); (1, false); (0, false); (0, false); (0, false); (0, false)]%nat
    (mkPool (map (op_prog NewService) [OpUpdate 6 to_parallel; OpExecute 7 "plan-1" "acme"]) db0).

Example late_update_outcome : granted late_update = [0; 1]%nat /\ state_of (shared late_update) = Some ("executing", "parallel", 2).
Proof. vm_compute. done. Qed.

(** An expired plan that has completed becomes expired when it is asked for again. *)
Example completed_then_expired :
  let db1 := (run (MarkPlanCompleted 6 "plan-1" "{}") [] db0).2 in
  state_of (run (GetPlanForExecution (6 + 2 * Hour) "plan-1" "acme") [] db1).2 = Some ("expired", "auto", 1).
Proof. vm_compute. done. Qed.

Definition from_globex : HttpRequest := mkHttp "POST" "/api/v1/plan/plan-1/cancel" (Header_Set "X-Org-ID" "globex" ∅).
Definition community (k : string) : string := if str_eqb k "DEPLOYMENT_MODE" then "community" else "".
End PlanDemo.

#[local] Existing Instance ascii_unicode.
Import PlanDemo.

Lemma single_execution_witness : grants "plan-1" (running contention) <= 1.
Proof.
  destruct contention as [ps db'] eqn:E. cbn [running].
  destruct (single_execution NewService "plan-1" contenders db0 ps db') as [H1 H2]; [reflexivity| |lia].
  rewrite <- E. apply schedule_sound.
Defined.

Lemma rollback_restores_witness :
  exists updated db1 restored db2,
    run (UpdatePlan NewService 6 to_parallel) [] db0 = (Ok updated, db1) /\ pl_ExecutionMode updated = "parallel" /\
    run (RollbackPlan NewService 7 (mkRollback "plan-1" 1 "acme" "7")) [] db1 = (Ok restored, db2) /\ pl_ExecutionMode restored = "auto".
Proof.
  destruct (rollback_restores NewService 6 7 to_parallel "7" db0 row) as (u & d1 & r & d2 & h1 & h2 & Hu & Hr & _ & He & _).
  - discriminate.
  - reflexivity.
  - reflexivity.
  - reflexivity.
  - reflexivity.
  - cbn. lia.
  - constructor.
  - split; intros _; vm_compute; discriminate || reflexivity.
  - left. vm_compute. discriminate.
  - exists u, d1, r, d2. split; [exact Hu|]. split; [|split; [exact Hr|subst r; reflexivity]].
    assert (Hm : match (run (UpdatePlan NewService 6 to_parallel) [] db0).1 with Ok p => pl_ExecutionMode p | Err _ => "" end = "parallel")
      by (vm_compute; reflexivity).
    rewrite Hu in Hm. exact Hm.
Defined.

Lemma foreign_plan_hidden_witness :
  exists a, run (cancelPlanHandler community None (Some NewService) 6 from_globex "plan-1" "") [] db0 = (a, db0) /\
            a = Refusal 404 "Plan not found" None.
Proof.
  destruct (foreign_plan_hidden community None (Some NewService) 6 from_globex "plan-1" db0 row) as (_ & _ & H & _).
  - discriminate.
  - reflexivity.
  - vm_compute. discriminate.
  - destruct (H "" []) as (a & Ha & _). exists a. split; [exact Ha|].
    assert (Hr : (run (cancelPlanHandler community None (Some NewService) 6 from_globex "plan-1" "") [] db0).1 = Refusal 404 "Plan not found" None)
      by (vm_compute; reflexivity).
    rewrite Ha in Hr. exact Hr.
Defined.
